(* ===== verification/_CoqProject ===== *)
-Q . S2P
Prelude.v
Bytes.v
PyVal.v
PyNum.v
PyOps.v
Expressions.v
Conditions.v
EvalTheorems.v
ExitCodes.v
Responses.v
ProcessBase.v
RulesCommon.v
ProcessLogs.v
StateMachine.v
StatePlan.v
StateTheorems.v
ManagedProcess.v
ManagedTheorems.v
DriverSupervision.v
DriverTheorems.v
AutoReconnect.v
AutoReconnectTheorems.v
InterceptorRoutes.v
CommandInterceptors.v
InterceptorTheorems.v
Interlock.v
InterlockProcess.v
InterlockTheorems.v
InterlockTables.v
InterlockSystem.v
Watchdog.v
WatchdogProcess.v
WatchdogTheorems.v
WatchdogHistory.v
WatchdogSustained.v
WatchdogChains.v
ScanPlan.v
Ranges.v
RunRecords.v
AdaptiveController.v
SequencerData.v
SequencerCore.v
SequencerValues.v
SequencerParallel.v
SequencerWait.v
SequencerAdaptive.v
SequencerSteps.v
SequencerTick.v
SequencerFrames.v
SequencerTrials.v
SequencerMachine.v
SequencerRuns.v
SequencerTheorems.v
SequencerEnds.v
SequencerBranches.v
SequencerGate.v
AdaptiveTheorems.v
RunForm.v
StepWalks.v
SequenceParser.v
WalkTheorems.v
ParserTheorems.v
ParserRoundTrip.v
SequenceLibrary.v
LibraryTheorems.v
StartChecks.v
SequencerProcess.v
SequencerControl.v
ProcessTheorems.v
CommandRouting.v
RoutingTheorems.v
ManagerRequests.v
ManagerClient.v
CommandJournal.v
ShmRing.v
ShmRingSpec.v
ShmAttach.v
ShmSeqlock.v
ShmTheorems.v
