(* ===== verification/Prelude.v ===== *)
(** * A verification of experiment-control

    experiment-control runs laboratory experiments: a manager process starts
    and supervises device drivers and helper processes, routes commands to
    devices, lets interceptor processes veto or rewrite commands, watches
    telemetry and moves bulk data through shared memory.  This development
    models the parts of it (under [src/src/experiment_control/]) that carry
    these guarantees and proves the properties they promise.

    ** The program and how its parts interact

    The manager ([manager.py], [_manager/]) owns one handle per managed
    process and per device driver.  Supervision ticks look at heartbeats and
    child exits and stop, fail or restart children; a reconnect policy on top
    tries to recover devices.  A command passes the interceptor routes: the
    table gives a chain of processes, and every process of the chain is asked.
    The interlock process is such an interceptor: it registers routes for its
    enabled rules and answers checks from telemetry.  The watchdog process
    acts on telemetry by itself: rules trip and their actions go back to the
    manager.  Rules are conditions with templates, evaluated by the
    expression evaluator of the sequencer.  The sequencer process runs
    sequences of steps against devices and processes: a runtime keeps a stack
    of frames and advances it tick by tick, between the requests of operators.
    All processes share an RPC loop, response conventions and the client that
    sends their requests to the manager, which keeps a journal of commands.
    Drivers hand bulk data to readers through a ring in shared memory, without
    locks.

    ** Files and what they model

    - [Prelude]: exceptions, results, the state-and-exception monad [pyM],
      record update, shared lemmas on lists and sorting.
    - [Bytes]: bytes, little-endian integers and slices of buffers.
    - [PyVal], [PyNum], [PyOps]: Python values, dictionaries in insertion
      order, strings, floats (exact rationals with infinities and NaN), and
      the operators on values.
    - [Expressions], [Conditions], [EvalTheorems]: [sequencer/eval.py], the
      evaluator over the syntax tree ([eval_node]), its size limits, templates
      ([render]) and conditions ([eval_condition]).
    - [ExitCodes], [Responses], [ProcessBase], [ProcessLogs]:
      [utils/exit_codes.py], [utils/responses.py], [processes/process_base.py]
      (replies, the drain loop, progress, telemetry bundles) and the selection
      of log entries.
    - [RulesCommon]: [utils/config_parsing.py], [rules/rules_common.py],
      [utils/value_coercion.py] and [utils/rpc_dispatch.py].
    - [StateMachine], [StatePlan], [StateTheorems]:
      [processes/state_machine_base.py], with its path planner.
    - [ManagedProcess], [ManagedTheorems]: one managed process of
      [_manager/process_supervision.py] and [_manager/process_recovery.py].
    - [DriverSupervision], [DriverTheorems]: one device driver of the same
      files, [_manager/driver_heartbeat_policy.py] and [manager.py].
    - [AutoReconnect], [AutoReconnectTheorems]: the reconnect policy and its
      executor jobs.
    - [InterceptorRoutes], [CommandInterceptors], [InterceptorTheorems]:
      [_manager/interceptor_routes.py] with its cache, and
      [utils/command_interceptors.py].
    - [Interlock], [InterlockProcess], [InterlockTheorems], [InterlockTables],
      [InterlockSystem]: [processes/interlock.py]; the last file puts the
      modelled route table behind the interlock's link to the manager and the
      interlock behind the manager's chain.
    - [Watchdog], [WatchdogProcess], [WatchdogTheorems], [WatchdogHistory],
      [WatchdogSustained], [WatchdogChains]: [processes/watchdog.py], rules
      and their state, the process, and its properties.
    - [ScanPlan], [Ranges]: [scan_plan.py] and [sequencer/ranges.py], the
      points of a scan and the values of a loop.
    - [RunRecords]: [sequencer/run_events.py],
      [sequencer/progress.py] and [sequencer/var_resolution.py].
    - [AdaptiveController]: [adaptive/controller.py], the controller of a
      search; the learner it drives is a record [AdaptivePackage].
    - [SequencerData], [SequencerCore], [SequencerValues],
      [SequencerParallel], [SequencerWait], [SequencerAdaptive],
      [SequencerSteps], [SequencerTick], [SequencerBranches]:
      [sequencer/runtime.py] with the step classes of [sequencer/ast.py] and
      the texts of [sequencer/source_info.py] - the state and the frames,
      requests and ends of a run, values and conditions, branches, waits,
      adaptive trials and studies, the handlers of the steps, the step loop
      with the tick, and the time to the next tick.
      What the process passes to the runtime is the class [SequencerWorld];
      templates, conditions, generators and variables are the class
      [Templates], which [components_templates] fills with the definitions
      of this development.
    - [SequencerFrames], [SequencerTrials], [SequencerMachine],
      [SequencerRuns], [SequencerTheorems], [SequencerEnds],
      [AdaptiveTheorems], and the rest of [SequencerBranches]: what each part of the runtime
      touches, the abstract machine of its stack, runs as moves of that
      machine, and the properties.
    - [SequencerGate]: the watchdogs a sequence requires, of
      [sequencer/ast.py].
    - [RunForm], [SequenceParser], [ParserTheorems], [ParserRoundTrip]:
      [sequencer/run_form.py] and the parser of [sequencer/ast.py], which
      makes the steps of the runtime from the document YAML gives; each step
      is a new object, so the parser threads the next free identity.
    - [StepWalks], [WalkTheorems]: the walks over parsed steps -
      [sequencer/source_info.py] and [sequencer/condition_validation.py].
    - [SequenceLibrary], [LibraryTheorems]: [utils/yaml_helpers.py], the lines
      of steps in a text, of [sequencer/sequencer.py], and
      [sequencer/library.py]; PyYAML is the class [Yaml], the files and
      directories are the class [LibraryFiles].
    - [StartChecks], [SequencerProcess], [SequencerControl],
      [ProcessTheorems]: the process of [sequencer/sequencer.py] around the
      runtime - the devices a sequence needs, loading and the library, and
      starting, the requests of operators, faults of other processes, autoload
      and dispatch.  The manager, the published events, the clock and the
      files are the class [SequencerLink].
    - [CommandRouting], [RoutingTheorems]: commands to drivers, of
      [_manager/device_routing.py], [_manager/rpc_calls.py] and [manager.py]:
      the route behind the modelled interceptor chain, the exchange with the
      driver, connecting with its identity check.  Sockets and clocks are the
      class [RouterWorld].
    - [ManagerRequests]: [_manager/internal_rpc.py] and the lifecycle workers
      of [manager.py]: from the payload of a request to its one reply.
    - [ManagerClient]: [manager_client.py] and the draining
      of [utils/zmq_helpers.py], the processes' side of those requests;
      sockets, clocks and fresh identifiers are the class [ClientWorld].
    - [CommandJournal]: [utils/command_journal.py] and
      [_manager/command_journal.py]; the SQLite table is a list of rows with
      transactions, whose statements may fail.
    - [ShmRing], [ShmRingSpec], [ShmAttach], [ShmSeqlock], [ShmTheorems]:
      [shm/shm_ring.py] at the level of bytes, as a sequential object and as
      single stores interleaved with the loads of a reader.  The memory of the
      last two: accesses of a process are seen in program order; a word of
      eight bytes is stored or loaded at once inside an aligned unit of [grain]
      bytes and in two pieces, in either order, across the edge of one (CPython
      moves a little-endian [<Q] field with one unaligned eight-byte access;
      x86-64 performs it at once inside a cache line of 64 bytes); payloads go
      byte by byte.  Weaker orders, such as ARM's, are outside the model, as
      [docs/shm_ring_arm_memory_ordering.md] puts them outside the design.

    A method of an object is a function in [pyM S]: it gets the state, leaves
    a state behind whether it returns or raises.  State is a record with the
    object's attributes; what happens around the object (clock, sockets,
    spawned children, files, other threads) is a parameter or a type class
    whose operations the definitions call in the order of the code, or an
    explicit event of a history.  Names are those of the source; a definition
    without a counterpart of that name is a block of the function it serves.

    ** What the theorems show

    - Shared memory: writing refines appending to a bounded ring of frames,
      reading returns exactly the retained frames, and a reader that races
      with the writer returns a frame only if it is whole, for every layout
      with units of 64 bytes and for aligned slot tables with smaller ones; a
      mixed frame is exhibited otherwise.
    - Supervision: at most one live child, budgets for the children that
      restarts and recoveries spawn, staged timeouts,
      escalation of stops, finality of an operator's stop, and no lost
      messages, over arbitrary histories.
    - Reconnection: one recovery in flight, attempts budgeted and spaced,
      queued work revalidated.
    - Interceptors: the chain is exactly the oldest matching route of each
      process, cache or not, and a command passes iff each admits it.
    - Commands and requests: what reaches a driver is what the chain let
      through, to a driver that runs, and is told in an event; a command comes
      back whatever the driver does, if the subscriptions pumped meanwhile run
      dry; each request is answered
      once; a call returns the reply to its own request or none; the journal
      keeps the newest commands in order and accounts for the others.
    - Interlock: a check allows exactly when each matching enabled rule finds
      its telemetry usable and its condition true; requests are all or
      nothing; and with manager and chain in place no command a rule matches
      gets past that rule, as long as no request of the interlock has been
      left unanswered (the manager may then have applied what the interlock
      took back).
    - Watchdog: parsed rules keep the promises the process relies on; a trip
      needs an alarm sustained over the window and confirmed by distinct
      samples; trips of a rule are apart; chains try every action up to one
      with an infinite timeout; the
      in-flight marks are exact; traces agree with evaluation.
    - State machines: only allowed transitions happen, planned paths are
      shortest, and reachable machines keep their invariant.
    - Sequences: the points of a scan are visited once each and generated
      records numbered; a tick refines the moves of a small machine on the
      stack, and from the machine's invariants: [finally] blocks that were
      entered run whatever ends the run, so that the watchdogs a sequence
      enables are disabled again, nothing else runs then, atomic
      blocks and parallel steps are not interrupted, blocks are left with the
      variables given back; the search for the next step ends; branches are
      joined in order; the process wakes in time; the event log keeps the
      newest events.  A failing adaptive trial of a step with
      [fail_on_trial_error] is the one end of a run that skips its [finally]
      blocks: the theorems name it ([lenient], [aborts]).
    - Parsing: it ends on every document; what it accepts satisfies what the
      runtime relies on and is made of new steps, exactly those of the
      document at their places; an error names the step that does not parse; steps that are
      written out parse to themselves; a condition that validates is a formula
      whose evaluation is that of the formula.
    - Library and process: the check of a library accepts exactly the
      libraries whose uses are present and without a cycle, so that uses of a
      loaded library end; a refused start brings the loaded sequence back
      (though not a run it has replaced), a run that starts has had its devices
      listed online and its writer ready during that start, and no request or fault takes process and runtime out of
      step.
    - Searches: proposals are kept within the declared space, the best score
      and the patience counter are those of the trials, and a resumed study
      takes over trials that went well and fit.
    - Infrastructure: dispatch, responses, the drain loop and operator size
      limits.

    ** Bounds and fuel

    Recursion is structural wherever the code's is bounded by its data.  The
    breadth-first search of the planner runs with one unit of fuel per edge
    and two more, and the walk back with one per parent, which [StatePlan]
    shows is enough; scanning of slots and of retries runs over the lists and
    counts the code loops over; templates nest at most [_MAX_TEMPLATE_DEPTH]
    deep, as in the code; scanners of strings and numerals have the length of
    their input as fuel, and the parser of sequences the depth of the document.  The
    search for cycles in the library has one unit of fuel per sequence and one
    more, and [LibraryTheorems] shows that it never runs out; the scan of a
    value for devices goes as deep as the interpreter's recursion limit, a
    parameter.  The waits for a driver and for the manager have one unit of
    fuel per poll, and the pumping of subscriptions one per message, with no
    bound in the code: that enough fuel exists is shown for a driver when each
    pumping runs dry, and [timeout_ms + 2] units and one more per waiting
    message are enough for the manager; the
    loops that prune the journal have one per row and one more.  The step loop of the sequencer need not end (a
    sequence may loop for ever), so [tick] and the search for a step take fuel
    and give [None] where it does not suffice: [SequencerEnds] bounds the
    rounds of the search by the frames on the stack when every [while] body
    has an enabled step, and shows that it does not end otherwise; theorems on
    runs are about the ticks that end; a telemetry source of a trial is polled
    until its deadline with what is left of that fuel.  Integers are unbounded as in
    Python; the bytes of the ring are 8-bit and its words 64-bit.  Times are
    exact rationals, so rounding of floats is not modelled.

    ** Not modelled

    Sockets, threads and files themselves (their effects are parameters);
    Python's parser, percent formatting, float powers and [difflib]; NumPy and
    JSON beyond the two laws the ring uses and what its theorems ask of the
    dtypes of a ring; PyYAML; the learners
    of the package [adaptive] and the functions of [statistics].  Of the
    sequencer: the estimate of the remaining work, the status, plan and
    preflight reports, progress events, the threads that dispatch contexts and
    parallel branches, and the socket loop; values read
    through attributes of templates ([to_attrdict]) are plain dictionaries.  Of
    the manager: set-up, configuration, metadata and the handlers of its other
    requests, and the interplay of its lifecycle threads beyond the order of
    their replies; of the journal, closing and the status report.  Of
    the rest of the program: the device router, the HDF and Influx writers,
    stream analysis, federation, the driver runner, the user interfaces and
    the message schemas.  They are listed in the manifest with the reason. *)
From stdpp Require Export base tactics list option numbers strings gmap sorting.
From Stdlib Require Export ZArith Lia Ascii.

#[global] Open Scope Z_scope.

(** Hint databases: [pydict] for dictionary invariants, [shm] for the shared
    memory ring, [evt] for event traces. *)
Create HintDb pydict.
Create HintDb shm.
Create HintDb evt.

(** ** Exceptions

    The exception classes the modelled code raises or lets escape
    ([ConfigError] of [utils/config_parsing.py] and the template errors of
    [sequencer/eval.py] and [YamlLoadError] are subclasses of [ValueError], [_CallFailed] of
    [sequencer/runtime.py] is one of [RuntimeError]).  The text of a
    message is kept only where it is a literal of the source. *)
Inductive pyexc :=
| ValueError (msg : string)
| TypeError (msg : string)
| RuntimeError (msg : string)
| KeyError (msg : string)
| IndexError (msg : string)
| LookupError (msg : string)
| AttributeError (msg : string)
| TimeoutError (msg : string)
| ConfigError (path msg : string)
| TemplateError (msg : string)
| UnknownNameError (msg name : string)
| ValueTooLargeError (msg : string)
| OperandError (msg : string) (none_involved : bool)
| CallFailed (msg : string) (permanent : bool)
| SequenceParseError (msg path : string)
| YamlLoadError (detail source : string) (line column : option Z)
| ZeroDivisionError
| OverflowError
| FileExistsError
| FileNotFoundError (msg : string)
| ZmqAgain
| StructError.

#[export] Instance pyexc_eq_dec : EqDecision pyexc.
Proof. solve_decision. Defined.

(** ** Results: a value or a raised exception *)
Inductive result (A : Type) :=
| Ok (a : A)
| Err (e : pyexc).
Arguments Ok {A} a.
Arguments Err {A} e.

#[export] Instance result_eq_dec {A} `{EqDecision A} : EqDecision (result A).
Proof. solve_decision. Defined.

#[export] Instance result_ret : MRet result := fun A a => Ok a.
#[export] Instance result_bind : MBind result := fun A B f m =>
  match m with Ok a => f a | Err e => Err e end.
#[export] Instance result_fmap : FMap result := fun A B f m =>
  match m with Ok a => Ok (f a) | Err e => Err e end.

Lemma bind_Ok {A B} (m : result A) (f : A -> result B) y : m ≫= f = Ok y <-> exists x, m = Ok x /\ f x = Ok y.
Proof. destruct m as [x|e]; cbn; [|by split; [|intros (? & ? & _)]]. split; [by exists x|]. by intros (? & [= <-] & ?). Qed.

(** ** State and exceptions

    A method of an object with state [S]: it runs on the state and leaves a
    state behind whether it returns or raises, as Python does. *)
Definition pyM (S A : Type) : Type := S -> result A * S.

#[export] Instance pyM_ret {S} : MRet (pyM S) := fun A a s => (Ok a, s).
#[export] Instance pyM_bind {S} : MBind (pyM S) := fun A B f m s =>
  match m s with
  | (Ok a, s') => f a s'
  | (Err e, s') => (Err e, s')
  end.

Definition raise {S A} (e : pyexc) : pyM S A := fun s => (Err e, s).
Definition get {S} : pyM S S := fun s => (Ok s, s).
Definition gets {S A} (f : S -> A) : pyM S A := fun s => (Ok (f s), s).
Definition modify {S} (f : S -> S) : pyM S unit := fun s => (Ok tt, f s).
Definition lift {S A} (r : result A) : pyM S A := fun s => (r, s).

(** [guard_raise b e]: the statement [if b: raise e]. *)
Definition guard_raise {S} (b : bool) (e : pyexc) : pyM S unit :=
  if b then raise e else mret tt.

Fixpoint forM {S A} (f : A -> pyM S unit) (l : list A) : pyM S unit :=
  match l with
  | [] => mret tt
  | x :: r => f x ≫= fun _ => forM f r
  end.

(** What every round of a loop keeps, the loop keeps, also when it raises. *)
Lemma forM_keeps {S A} (P : S -> Prop) (f : A -> pyM S unit) (l : list A) s :
  (forall x s, x ∈ l -> P s -> P (snd (f x s))) -> P s -> P (snd (forM f l s)).
Proof.
  revert s. induction l as [|x l IH]; intros s Hf Hs; [done|]. cbn [forM]. unfold mbind, pyM_bind.
  pose proof (Hf x s ltac:(by left) Hs) as Hx. destruct (f x s) as [[[]|e] s1]; [|done].
  apply IH; [|done]. intros y s2 Hy. apply Hf. by right.
Qed.

(** ** Record update

    [r <| f := v |>] is [r] with field [f] set to [v], for a record whose
    fields are listed once in an [Eta] instance. *)
Class Eta (R : Type) := eta : R -> R.
Class Setter {R T : Type} (proj : R -> T) := set_field : T -> R -> R.

Ltac solve_setter :=
  match goal with
  | |- @Setter ?R ?T ?p =>
      let i := constr:(_ : Eta R) in
      let e := eval red in i in
      match (eval pattern p in e) with
      | ?F _ => let r := eval cbv beta in (fun (v : T) (r : R) => F (fun _ => v) r) in exact r
      end
  end.

#[export] Hint Extern 1 (Setter _) => solve_setter : typeclass_instances.

Notation "r <| f := v |>" := (set_field (proj := f) v r)
  (at level 12, f at next level, left associativity).

(** ** Stable sorting by an integer key ([list.sort(key=...)]) *)
Section sort_by.
Context {A : Type} (key : A -> Z).

Fixpoint insert_by (x : A) (l : list A) : list A :=
  match l with
  | [] => [x]
  | y :: r => if key x <=? key y then x :: y :: r else y :: insert_by x r
  end.

Definition sort_by (l : list A) : list A := foldr insert_by [] l.

Lemma insert_by_perm x l : insert_by x l ≡ₚ x :: l.
Proof.
  induction l as [|y r IH]; simpl; [done|]. case_match; [done|]. rewrite IH. constructor.
Qed.

Lemma sort_by_perm l : sort_by l ≡ₚ l.
Proof. induction l as [|x l IH]; simpl; [done|]. by rewrite insert_by_perm, IH. Qed.

Definition key_le (x y : A) : Prop := key x <= key y.

Lemma insert_by_sorted x l :
  StronglySorted key_le l -> StronglySorted key_le (insert_by x l).
Proof.
  induction 1 as [|y r Hr IH Hy]; simpl; [repeat constructor|].
  destruct (Z.leb_spec (key x) (key y)) as [Hle|Hlt].
  - constructor; [by constructor|]. constructor; [done|].
    eapply Forall_impl; [done|]. unfold key_le. intros z Hz. lia.
  - constructor; [done|]. rewrite insert_by_perm. constructor; [unfold key_le; lia|done].
Qed.

Lemma sort_by_sorted l : StronglySorted key_le (sort_by l).
Proof. induction l; simpl; [constructor|by apply insert_by_sorted]. Qed.

(** An already sorted list is left as it is. *)
Lemma sort_by_id l : StronglySorted key_le l -> sort_by l = l.
Proof.
  induction 1 as [|y r Hr IH Hy]; simpl; [done|]. rewrite IH.
  destruct Hy as [|z r' Hz]; simpl; [done|]. unfold key_le in Hz.
  by rewrite (proj2 (Z.leb_le _ _) Hz).
Qed.

(** With distinct keys the sorted list is determined by its elements. *)
Lemma sorted_unique l k :
  StronglySorted key_le l -> StronglySorted key_le k -> NoDup (key <$> l) ->
  l ≡ₚ k -> l = k.
Proof.
  intros Hl. revert k. induction Hl as [|x l Hl IH Hx]; intros k Hk Hn Hp.
  - by apply Permutation_nil_l in Hp.
  - destruct Hk as [|y k Hk Hy]; [by apply Permutation_nil_r in Hp|].
    assert (x = y) as ->.
    { assert (x ∈ y :: k) as Hxk by (rewrite <- Hp; left).
      assert (y ∈ x :: l) as Hyl by (rewrite Hp; left).
      apply elem_of_cons in Hxk as [|Hxk]; [done|].
      apply elem_of_cons in Hyl as [|Hyl]; [done|].
      rewrite Forall_forall in Hx, Hy. specialize (Hx _ Hyl). specialize (Hy _ Hxk).
      unfold key_le in *. exfalso. simpl in Hn. apply NoDup_cons in Hn as [Hn _].
      apply Hn. replace (key x) with (key y) by lia. by apply list_elem_of_fmap_2. }
    f_equal. apply IH; [done| |by eapply Permutation_cons_inv].
    simpl in Hn. by apply NoDup_cons in Hn as [_ ?].
Qed.
End sort_by.

(** ** Sorted lists *)
Section sorted.
Context {A B : Type}.

Lemma StronglySorted_fmap (f : A -> B) (R : relation A) (S : relation B) l :
  (forall x y, R x y -> S (f x) (f y)) -> StronglySorted R l -> StronglySorted S (f <$> l).
Proof.
  intros HRS. induction 1 as [|x l Hl IH Hx]; simpl; constructor; [done|].
  apply Forall_fmap. eapply Forall_impl; [done|]. auto.
Qed.

Lemma StronglySorted_filter (R : relation A) (P : A -> Prop) `{!forall x, Decision (P x)} l :
  StronglySorted R l -> StronglySorted R (filter P l).
Proof.
  induction 1 as [|x l Hl IH Hx]; [constructor|]. rewrite filter_cons.
  case_decide; [|done]. constructor; [done|]. apply Forall_forall. intros y Hy%list_elem_of_filter.
  rewrite Forall_forall in Hx. naive_solver.
Qed.

Lemma StronglySorted_sublist (R : relation A) (l k : list A) :
  sublist l k -> StronglySorted R k -> StronglySorted R l.
Proof.
  induction 1 as [|x l k Hs IH|x l k Hs IH]; intros Hk; [constructor| |];
    apply StronglySorted_inv in Hk as [Hk Hx]; [|auto].
  constructor; [auto|]. apply Forall_forall. intros y Hy. rewrite Forall_forall in Hx.
  apply Hx. by eapply elem_of_sublist.
Qed.

Lemma StronglySorted_impl_In (R S : relation A) (l : list A) :
  (forall x y, x ∈ l -> y ∈ l -> R x y -> S x y) -> StronglySorted R l -> StronglySorted S l.
Proof.
  intros HRS Hl. induction Hl as [|x l Hl IH Hx]; constructor.
  - apply IH. intros x' y Hx' Hy ?. apply HRS; [by right|by right|done].
  - apply Forall_forall. intros y Hy. rewrite Forall_forall in Hx.
    apply HRS; [left|by right|auto].
Qed.

Lemma imap_pair_sorted_from (l : list A) (k : nat) :
  StronglySorted (fun p q : nat * A => (p.1 < q.1)%nat) (imap (fun i x => ((k + i)%nat, x)) l).
Proof.
  revert k. induction l as [|x l IH]; intros k; [constructor|]. simpl.
  rewrite (imap_ext _ (fun i y => ((S k + i)%nat, y))) by (intros; simpl; f_equal; lia).
  constructor; [apply IH|]. apply Forall_lookup. intros i [j y] Hi.
  apply list_lookup_imap_Some in Hi as (z&_&Hz). simplify_eq/=. lia.
Qed.

Lemma imap_pair_sorted (l : list A) :
  StronglySorted (fun p q : nat * A => (p.1 < q.1)%nat) (imap pair l).
Proof. apply (imap_pair_sorted_from l 0). Qed.
End sorted.

Lemma StronglySorted_lt_NoDup (l : list Z) : StronglySorted Z.lt l -> NoDup l.
Proof.
  induction 1 as [|x l Hl IH Hx]; constructor; [|done]. intros Hin.
  rewrite Forall_forall in Hx. specialize (Hx _ Hin). lia.
Qed.

(** The last [n] elements of a list. *)
Definition last_n {A} (n : nat) (l : list A) : list A := drop (length l - n) l.

Lemma length_last_n {A} n (l : list A) : (length (last_n n l) <= n)%nat.
Proof. unfold last_n. rewrite length_drop. lia. Qed.

Lemma last_n_app {A} n (l k : list A) : last_n n (last_n n l ++ k) = last_n n (l ++ k).
Proof.
  unfold last_n. rewrite !length_app, length_drop.
  destruct (decide (length l <= n)%nat).
  - by replace (length l - n)%nat with 0%nat by lia; rewrite drop_0; f_equal; lia.
  - replace (drop (length l - n) l ++ k) with (drop (length l - n) (l ++ k)) by (rewrite drop_app_le; [done|lia]).
    rewrite drop_drop. f_equal. lia.
Qed.

(** The newest [n] of a list kept newest first. *)
Lemma reverse_take_last {A} n (l : list A) : reverse (take n l) = last_n n (reverse l).
Proof. unfold last_n. rewrite length_reverse. apply reverse_take. Qed.

Lemma omap_reverse {A B} (f : A -> option B) (l : list A) : omap f (reverse l) = reverse (omap f l).
Proof.
  induction l as [|x l IH]; [done|]. rewrite reverse_cons, omap_app, IH. simpl.
  destruct (f x); simpl; [by rewrite reverse_cons|by rewrite app_nil_r].
Qed.

Lemma filter_reverse {A} (P : A -> Prop) `{!forall x, Decision (P x)} (l : list A) :
  filter P (reverse l) = reverse (filter P l).
Proof.
  induction l as [|x l IH]; [done|]. rewrite reverse_cons, filter_app, IH, !filter_cons.
  case_decide; simpl; [by rewrite reverse_cons|by rewrite app_nil_r].
Qed.

(** A filter that drops nothing by count drops nothing. *)
Lemma filter_length_id {A} (P : A -> Prop) `{!forall x, Decision (P x)} (l : list A) :
  length (filter P l) = length l -> filter P l = l.
Proof.
  induction l as [|x l IH]; [done|]. rewrite filter_cons. case_decide; cbn; intros E.
  - f_equal. apply IH. lia.
  - pose proof (sublist_length _ _ (sublist_filter P l)). lia.
Qed.
