(* ===== verification/Bytes.v ===== *)
(** * Byte buffers and [struct] fields

    A shared-memory buffer is a list of byte values.  This file models what
    the code uses of Python's [memoryview] slices and of the [struct] module
    with little-endian formats: fields of fixed width, range checks that raise
    [struct.error], and [pack_into] / [unpack_from] with their bounds check. *)
From S2P Require Import Prelude.

(** A byte is an integer in [0, 256). *)
Definition byte_ok (b : Z) : Prop := 0 <= b < 256.
Abbreviation bytes := (list Z).

Definition zlen {A} (l : list A) : Z := Z.of_nat (length l).

(** ** Little-endian integers *)
Fixpoint le_encode (n : nat) (z : Z) : bytes :=
  match n with
  | O => []
  | S n' => z mod 256 :: le_encode n' (z / 256)
  end.

Fixpoint le_decode (l : bytes) : Z :=
  match l with
  | [] => 0
  | b :: r => b + 256 * le_decode r
  end.

(** ** Slices

    [buf[a:b]] of a memoryview with non-negative bounds clamps to the buffer;
    [buf[a:b] = data] needs the lengths to agree and raises otherwise. *)
Definition slice (buf : bytes) (a b : Z) : bytes :=
  take (Z.to_nat (b - a)) (drop (Z.to_nat a) buf).

(** Overwrite [data] at offset [off]; meaningful when the region is inside
    the buffer, which [in_range] tests. *)
Definition in_range (buf : bytes) (off n : Z) : bool :=
  (0 <=? off) && (0 <=? n) && (off + n <=? zlen buf).

Definition store (buf : bytes) (off : Z) (data : bytes) : bytes :=
  take (Z.to_nat off) buf ++ data ++ drop (Z.to_nat off + length data) buf.

Definition assign_slice (a b : Z) (data : bytes) : pyM bytes unit := fun buf =>
  if in_range buf a (b - a) && (zlen data =? b - a)
  then (Ok tt, store buf a data)
  else (Err (ValueError "memoryview assignment: lvalue and rvalue have different structures"), buf).

(** ** [struct] formats: the field codes used by the sources *)
Inductive fmt :=
| FQ                    (* unsigned 64 bit *)
| FI                    (* unsigned 32 bit *)
| Fi                    (* signed 32 bit *)
| Fs (n : nat).         (* n raw bytes *)

Inductive fval :=
| VZ (z : Z)
| VB (b : bytes).

#[export] Instance fmt_eq_dec : EqDecision fmt.
Proof. solve_decision. Defined.
#[export] Instance fval_eq_dec : EqDecision fval.
Proof. solve_decision. Defined.

Definition fmt_size (f : fmt) : nat :=
  match f with FQ => 8 | FI => 4 | Fi => 4 | Fs n => n end.

Definition calcsize (fs : list fmt) : nat := sum_list_with fmt_size fs.

(** One field: [struct.error] when the value is out of the format's range. *)
Definition pack_field (f : fmt) (v : fval) : result bytes :=
  match f, v with
  | FQ, VZ z => if (0 <=? z) && (z <? 2 ^ 64) then Ok (le_encode 8 z) else Err StructError
  | FI, VZ z => if (0 <=? z) && (z <? 2 ^ 32) then Ok (le_encode 4 z) else Err StructError
  | Fi, VZ z => if (- 2 ^ 31 <=? z) && (z <? 2 ^ 31)
                then Ok (le_encode 4 (z mod 2 ^ 32)) else Err StructError
  | Fs n, VB b => Ok (take n b ++ replicate (n - length b) 0)
  | _, _ => Err StructError
  end.

Definition unpack_field (f : fmt) (b : bytes) : fval :=
  match f with
  | FQ | FI => VZ (le_decode b)
  | Fi => let z := le_decode b in VZ (if z <? 2 ^ 31 then z else z - 2 ^ 32)
  | Fs _ => VB b
  end.

(** [pack_into] clears the region and then writes field after field, so a
    field out of range leaves the fields before it written. *)
Fixpoint pack_fields (buf : bytes) (off : Z) (fs : list fmt) (vs : list fval)
    : result unit * bytes :=
  match fs, vs with
  | [], [] => (Ok tt, buf)
  | f :: fs', v :: vs' =>
      match pack_field f v with
      | Ok d => pack_fields (store buf off d) (off + Z.of_nat (fmt_size f)) fs' vs'
      | Err e => (Err e, buf)
      end
  | _, _ => (Err StructError, buf)
  end.

Definition pack_into (fs : list fmt) (off : Z) (vs : list fval) : pyM bytes unit := fun buf =>
  if negb (length fs =? length vs)%nat then (Err StructError, buf)
  else if negb (in_range buf off (Z.of_nat (calcsize fs))) then (Err StructError, buf)
  else pack_fields (store buf off (replicate (calcsize fs) 0)) off fs vs.

Fixpoint unpack_fields (buf : bytes) (off : Z) (fs : list fmt) : list fval :=
  match fs with
  | [] => []
  | f :: fs' =>
      let n := Z.of_nat (fmt_size f) in
      unpack_field f (slice buf off (off + n)) :: unpack_fields buf (off + n) fs'
  end.

Definition unpack_from (fs : list fmt) (off : Z) (buf : bytes) : result (list fval) :=
  if in_range buf off (Z.of_nat (calcsize fs)) then Ok (unpack_fields buf off fs)
  else Err StructError.

(** [struct.unpack_from("<Q", buf, off)[0]] *)
Definition read_Q (buf : bytes) (off : Z) : result Z :=
  if in_range buf off 8 then Ok (le_decode (slice buf off (off + 8))) else Err StructError.

Definition read_i (buf : bytes) (off : Z) : result Z :=
  if in_range buf off 4 then
    let z := le_decode (slice buf off (off + 4)) in
    Ok (if z <? 2 ^ 31 then z else z - 2 ^ 32)
  else Err StructError.

(** ** Lemmas: encoding *)
Lemma length_le_encode n z : length (le_encode n z) = n.
Proof. revert z; induction n; intros; simpl; congruence. Qed.

Lemma le_encode_bytes n z : Forall byte_ok (le_encode n z).
Proof.
  revert z; induction n as [|n IH]; intros z; simpl; constructor; [|apply IH].
  unfold byte_ok. pose proof (Z.mod_pos_bound z 256). lia.
Qed.

Lemma le_decode_encode n z :
  0 <= z < 2 ^ (8 * Z.of_nat n) -> le_decode (le_encode n z) = z.
Proof.
  revert z; induction n as [|n IH]; intros z Hz; simpl.
  - change (2 ^ (8 * Z.of_nat 0)) with 1 in Hz. lia.
  - replace (8 * Z.of_nat (S n)) with (8 + 8 * Z.of_nat n) in Hz by lia.
    rewrite Z.pow_add_r in Hz by lia. change (2 ^ 8) with 256 in Hz.
    rewrite IH.
    + pose proof (Z.div_mod z 256). lia.
    + split; [apply Z.div_pos; lia|]. apply Z.div_lt_upper_bound; lia.
Qed.

Lemma le_decode_encode_Q z : 0 <= z < 2 ^ 64 -> le_decode (le_encode 8 z) = z.
Proof. intros H. by apply le_decode_encode. Qed.

Lemma le_decode_encode_I z : 0 <= z < 2 ^ 32 -> le_decode (le_encode 4 z) = z.
Proof. intros H. by apply le_decode_encode. Qed.

Lemma le_decode_zeros n : le_decode (replicate n 0) = 0.
Proof. induction n; simpl; lia. Qed.

(** ** Lemmas: slices and stores *)
Lemma zlen_nonneg {A} (l : list A) : 0 <= zlen l.
Proof. unfold zlen. lia. Qed.

Lemma zlen_app {A} (l k : list A) : zlen (l ++ k) = zlen l + zlen k.
Proof. unfold zlen. rewrite length_app. lia. Qed.

Lemma zlen_replicate {A} n (x : A) : zlen (replicate n x) = Z.of_nat n.
Proof. unfold zlen. by rewrite length_replicate. Qed.

Lemma in_range_spec buf off n :
  in_range buf off n = true <-> 0 <= off /\ 0 <= n /\ off + n <= zlen buf.
Proof. unfold in_range. rewrite !andb_true_iff, !Z.leb_le. tauto. Qed.

Lemma zlen_store buf off d :
  in_range buf off (zlen d) = true -> zlen (store buf off d) = zlen buf.
Proof.
  intros (?&?&?)%in_range_spec. unfold store, zlen in *.
  rewrite !length_app, length_take, length_drop. lia.
Qed.

Lemma slice_store_inside buf off d a b :
  in_range buf off (zlen d) = true -> off <= a -> b <= off + zlen d ->
  slice (store buf off d) a b = slice d (a - off) (b - off).
Proof.
  intros (?&?&?)%in_range_spec Ha Hb. unfold slice, store, zlen in *.
  rewrite drop_app_ge by (rewrite length_take; lia).
  rewrite length_take, Nat.min_l by lia.
  replace (Z.to_nat a - Z.to_nat off)%nat with (Z.to_nat (a - off)) by lia.
  replace (b - off - (a - off)) with (b - a) by lia.
  destruct (decide (a <= b)) as [Hab|].
  - rewrite drop_app_le by lia. rewrite take_app_le; [done|rewrite length_drop; lia].
  - by replace (Z.to_nat (b - a)) with 0%nat by lia.
Qed.

Lemma slice_full d : slice d 0 (zlen d) = d.
Proof. unfold slice, zlen. rewrite drop_0, firstn_all2; [done|lia]. Qed.

Lemma slice_store_same buf off d :
  in_range buf off (zlen d) = true -> slice (store buf off d) off (off + zlen d) = d.
Proof.
  intros H. rewrite slice_store_inside by (done || lia).
  replace (off - off) with 0 by lia. replace (off + zlen d - off) with (zlen d) by lia.
  apply slice_full.
Qed.

Lemma slice_store_disjoint buf off d a b :
  in_range buf off (zlen d) = true -> 0 <= a -> b <= off \/ off + zlen d <= a ->
  slice (store buf off d) a b = slice buf a b.
Proof.
  intros (?&?&?)%in_range_spec Ha [Hb|Hb]; unfold slice, store, zlen in *.
  - destruct (decide (a <= b)) as [Hab|].
    + rewrite drop_app_le by (rewrite length_take; lia).
      rewrite take_app_le by (rewrite length_drop, length_take; lia).
      rewrite <- (take_drop (Z.to_nat off) buf) at 2.
      rewrite drop_app_le by (rewrite length_take; lia).
      by rewrite take_app_le by (rewrite length_drop, length_take; lia).
    + by replace (Z.to_nat (b - a)) with 0%nat by lia.
  - rewrite drop_app_ge by (rewrite length_take; lia).
    rewrite length_take, Nat.min_l by lia.
    rewrite drop_app_ge by lia. rewrite drop_drop. f_equal. f_equal. lia.
Qed.

Lemma zlen_slice buf a b :
  0 <= a -> a <= b -> b <= zlen buf -> zlen (slice buf a b) = b - a.
Proof. intros. unfold slice, zlen in *. rewrite length_take, length_drop. lia. Qed.

Lemma slice_split buf a m b :
  0 <= a -> a <= m -> m <= b -> slice buf a b = slice buf a m ++ slice buf m b.
Proof.
  intros. unfold slice. replace (Z.to_nat (b - a)) with (Z.to_nat (m - a) + Z.to_nat (b - m))%nat by lia.
  rewrite <- take_take_drop, drop_drop. do 3 f_equal. lia.
Qed.

Lemma slice_slice buf p q a b :
  0 <= p -> 0 <= a -> b <= q - p -> slice (slice buf p q) a b = slice buf (p + a) (p + b).
Proof.
  intros. unfold slice. destruct (decide (a <= b)).
  - rewrite skipn_firstn_comm, take_take, drop_drop. f_equal; [lia|]. f_equal. lia.
  - replace (Z.to_nat (b - a)) with 0%nat by lia. by replace (Z.to_nat (p + b - (p + a))) with 0%nat by lia.
Qed.

Lemma store_nil buf off : store buf off [] = buf.
Proof. unfold store. rewrite Nat.add_0_r. simpl. apply take_drop. Qed.

(** Two adjacent stores are one. *)
Lemma store_store_adjacent buf off d1 d2 :
  in_range buf off (zlen d1 + zlen d2) = true ->
  store (store buf off d1) (off + zlen d1) d2 = store buf off (d1 ++ d2).
Proof.
  intros (?&?&?)%in_range_spec. unfold store, zlen in *.
  pose proof (zlen_nonneg d1). pose proof (zlen_nonneg d2). unfold zlen in *.
  rewrite length_app.
  rewrite take_app_ge by (rewrite length_take; lia).
  rewrite length_take, Nat.min_l by lia.
  rewrite take_app_le by lia. rewrite (firstn_all2 d1) by lia.
  rewrite drop_app_ge by (rewrite length_take; lia).
  rewrite length_take, Nat.min_l by lia.
  rewrite drop_app_ge by lia. rewrite drop_drop, <- !app_assoc.
  do 3 f_equal. f_equal. lia.
Qed.

(** A store hides the beginning of an earlier store at the same offset. *)
Lemma store_store_prefix buf off d1 d2 x :
  in_range buf off (zlen (d1 ++ d2)) = true -> length d1 = length x ->
  store (store buf off (d1 ++ d2)) off x = store buf off (x ++ d2).
Proof.
  intros (?&?&?)%in_range_spec Hl. unfold store, zlen in *. rewrite !length_app in *.
  rewrite take_app_le by (rewrite length_take; lia).
  rewrite take_take, Nat.min_id, <- !app_assoc. f_equal. f_equal.
  rewrite drop_app_ge by (rewrite length_take; lia).
  rewrite length_take, Nat.min_l by lia.
  replace (Z.to_nat off + length x - Z.to_nat off)%nat with (length d1) by lia.
  rewrite drop_app_length. f_equal. f_equal. lia.
Qed.

Lemma in_range_store buf off d o n :
  in_range buf off (zlen d) = true ->
  in_range (store buf off d) o n = in_range buf o n.
Proof. intros H. unfold in_range. by rewrite zlen_store. Qed.

(** ** Lemmas: [pack_into] and [unpack_from] *)
Lemma pack_field_length f v d : pack_field f v = Ok d -> length d = fmt_size f.
Proof.
  destruct f, v; simpl; try discriminate; intros H; repeat case_match; simplify_eq;
    rewrite ?length_le_encode; try done.
  rewrite length_app, length_take, length_replicate. lia.
Qed.

(** The bytes of a list of fields, when every field is in range. *)
Fixpoint pack_bytes (fs : list fmt) (vs : list fval) : option bytes :=
  match fs, vs with
  | [], [] => Some []
  | f :: fs', v :: vs' =>
      match pack_field f v with
      | Ok d => (fun r => d ++ r) <$> pack_bytes fs' vs'
      | Err _ => None
      end
  | _, _ => None
  end.

Lemma pack_bytes_length fs vs d : pack_bytes fs vs = Some d -> length d = calcsize fs.
Proof.
  revert vs d; induction fs as [|f fs IH]; intros [|v vs] d; simpl; try done;
    intros H; simplify_eq; [done|].
  destruct (pack_field f v) as [x|] eqn:Hp; [|done].
  destruct (pack_bytes fs vs) as [y|] eqn:Hy; simplify_eq/=.
  rewrite length_app, (pack_field_length _ _ _ Hp), (IH _ _ Hy). done.
Qed.

Lemma pack_bytes_same_length fs vs d : pack_bytes fs vs = Some d -> length fs = length vs.
Proof.
  revert vs d; induction fs as [|f fs IH]; intros [|v vs] d; simpl; try done.
  destruct (pack_field f v); [|done]. destruct (pack_bytes fs vs) eqn:E; [|done].
  intros _. f_equal. eauto.
Qed.

Lemma pack_fields_ok fs vs d buf off z :
  pack_bytes fs vs = Some d -> in_range buf off (zlen d) = true -> z = length d ->
  pack_fields (store buf off (replicate z 0)) off fs vs = (Ok tt, store buf off d).
Proof.
  revert vs d buf off z; induction fs as [|f fs IH]; intros [|v vs] d buf off z;
    simpl; try done.
  - intros [= <-] _ ->. done.
  - destruct (pack_field f v) as [x|] eqn:Hp; [|done].
    destruct (pack_bytes fs vs) as [y|] eqn:Hy; simpl; [|done].
    intros [= <-] Hr ->. pose proof (pack_field_length _ _ _ Hp) as Hl.
    rewrite zlen_app in Hr. apply in_range_spec in Hr as (?&?&?).
    pose proof (zlen_nonneg x). pose proof (zlen_nonneg y).
    rewrite length_app, replicate_add.
    rewrite store_store_prefix
      by (rewrite ?length_replicate, ?zlen_app, ?zlen_replicate;
          first [done | apply in_range_spec; unfold zlen in *; lia]).
    rewrite <- store_store_adjacent
      by (rewrite zlen_replicate; apply in_range_spec; unfold zlen in *; lia).
    rewrite <- Hl. change (Z.of_nat (length x)) with (zlen x).
    rewrite (IH vs y) by
      (rewrite ?in_range_store by (apply in_range_spec; lia); try apply in_range_spec; done || lia).
    rewrite store_store_adjacent by (apply in_range_spec; lia). done.
Qed.

Lemma pack_into_ok fs vs d buf off :
  pack_bytes fs vs = Some d -> in_range buf off (Z.of_nat (calcsize fs)) = true ->
  pack_into fs off vs buf = (Ok tt, store buf off d).
Proof.
  intros Hd Hr. unfold pack_into.
  rewrite (pack_bytes_same_length _ _ _ Hd), Nat.eqb_refl. cbn [negb].
  rewrite Hr. cbn [negb]. rewrite <- (pack_bytes_length _ _ _ Hd) in *.
  by apply pack_fields_ok.
Qed.
