(* ===== verification/PyVal.v ===== *)
(** * Dynamic Python values

    The values that cross JSON and RPC boundaries of the program, the
    truthiness and string operations the sources apply to them, and
    insertion-ordered dictionaries ([dict] and [OrderedDict]).  Strings are
    ASCII; a float is a rational, an infinity or NaN. *)
From Stdlib Require Import QArith.
From S2P Require Import Prelude.
#[local] Open Scope Z_scope.

(** ** Insertion-ordered dictionaries *)
Section odict.
Context {K V : Type} `{Kdec : EqDecision K}.
Implicit Types (d : list (K * V)) (k : K) (v : V).

Fixpoint od_get d k : option V :=
  match d with
  | [] => None
  | (k', v) :: r => if decide (k' = k) then Some v else od_get r k
  end.

(** [d[k] = v]: an existing key keeps its position, a new one goes last. *)
Fixpoint od_set d k v : list (K * V) :=
  match d with
  | [] => [(k, v)]
  | (k', v') :: r => if decide (k' = k) then (k', v) :: r else (k', v') :: od_set r k v
  end.

(** [d.pop(k, None)] *)
Fixpoint od_pop d k : list (K * V) :=
  match d with
  | [] => []
  | (k', v') :: r => if decide (k' = k) then r else (k', v') :: od_pop r k
  end.

(** [d.move_to_end(k)] for a key that is present. *)
Definition od_move_to_end d k : list (K * V) :=
  match od_get d k with Some v => od_pop d k ++ [(k, v)] | None => d end.

Definition od_keys d : list K := fst <$> d.
Definition od_wf d : Prop := NoDup (od_keys d).

Lemma od_get_elem d k v : od_get d k = Some v -> (k, v) ∈ d.
Proof.
  induction d as [|[k' v'] r IH]; simpl; [done|]. case_decide; intros; simplify_eq; set_solver.
Qed.

Lemma od_get_None d k : od_get d k = None <-> k ∉ od_keys d.
Proof.
  induction d as [|[k' v'] r IH]; unfold od_keys in *; simpl; [set_solver|].
  case_decide; set_solver.
Qed.

Lemma od_elem_get d k v : od_wf d -> (k, v) ∈ d -> od_get d k = Some v.
Proof.
  unfold od_wf, od_keys. induction d as [|[k' v'] r IH]; simpl; [set_solver|].
  intros [Hn Hr]%NoDup_cons [?|?]%elem_of_cons; simplify_eq; case_decide; subst;
    simplify_eq; try done; [|by apply IH].
  exfalso. apply Hn. apply list_elem_of_fmap. by exists (k, v).
Qed.

Lemma od_get_set_eq d k v : od_get (od_set d k v) k = Some v.
Proof.
  induction d as [|[k' v'] r IH]; simpl; [by case_decide|].
  case_decide; simpl; by case_decide.
Qed.

Lemma od_get_set_ne d k k' v : k ≠ k' -> od_get (od_set d k v) k' = od_get d k'.
Proof.
  intros Hne. induction d as [|[k1 v1] r IH]; simpl; [by case_decide|].
  case_decide; simpl; [|by rewrite IH]. subst. by case_decide.
Qed.

Lemma od_keys_set_new d k v : k ∉ od_keys d -> od_keys (od_set d k v) = od_keys d ++ [k].
Proof.
  unfold od_keys. induction d as [|[k' v'] r IH]; simpl; [done|]. intros Hn.
  rewrite decide_False by set_solver. simpl. f_equal. apply IH. set_solver.
Qed.

Lemma od_keys_set_old d k v : k ∈ od_keys d -> od_keys (od_set d k v) = od_keys d.
Proof.
  unfold od_keys. induction d as [|[k' v'] r IH]; simpl; [set_solver|]. intros Hn.
  case_decide; simpl; [done|]. f_equal. apply IH. set_solver.
Qed.

Lemma od_wf_set d k v : od_wf d -> od_wf (od_set d k v).
Proof.
  unfold od_wf. intros H. destruct (decide (k ∈ od_keys d)).
  - by rewrite od_keys_set_old.
  - rewrite od_keys_set_new by done. apply NoDup_app. split; [done|].
    split; [|apply NoDup_singleton]. intros x Hx ->%list_elem_of_singleton. done.
Qed.

Lemma od_set_new d k v : k ∉ od_keys d -> od_set d k v = d ++ [(k, v)].
Proof.
  unfold od_keys. induction d as [|[k' v'] r IH]; simpl; [done|]. intros Hn.
  rewrite decide_False by set_solver. f_equal. apply IH. set_solver.
Qed.

Lemma od_keys_pop d k : od_wf d -> forall x, x ∈ od_keys (od_pop d k) <-> x ∈ od_keys d /\ x ≠ k.
Proof.
  unfold od_wf, od_keys. induction d as [|[k' v'] r IH]; simpl; [set_solver|].
  intros [Hn Hr]%NoDup_cons x. case_decide; simpl; subst; [set_solver|].
  rewrite !elem_of_cons, IH by done. set_solver.
Qed.

Lemma od_wf_pop d k : od_wf d -> od_wf (od_pop d k).
Proof.
  intros H. pose proof (od_keys_pop d k H) as Hk. revert H Hk.
  unfold od_wf, od_keys. induction d as [|[k' v'] r IH]; simpl; [done|].
  intros [Hn Hr]%NoDup_cons Hk. case_decide; [done|]. simpl.
  constructor; [|apply IH; [done|by apply od_keys_pop]].
  intros Hx. pose proof (od_keys_pop r k Hr k') as E. unfold od_keys in E.
  apply E in Hx. tauto.
Qed.

Lemma od_get_pop_ne d k k' : k ≠ k' -> od_get (od_pop d k) k' = od_get d k'.
Proof.
  intros Hne. induction d as [|[k1 v1] r IH]; simpl; [done|].
  case_decide; simpl; [subst; by case_decide|]. by rewrite IH.
Qed.

Lemma od_get_pop_eq d k : od_wf d -> od_get (od_pop d k) k = None.
Proof. intros H. apply od_get_None. rewrite od_keys_pop by done. tauto. Qed.

Lemma od_length_pop d k v : od_get d k = Some v -> S (length (od_pop d k)) = length d.
Proof.
  induction d as [|[k' v'] r IH]; simpl; [done|]. case_decide; simpl; [done|].
  intros Hg. by rewrite IH.
Qed.

Lemma od_get_app d1 d2 k :
  od_get (d1 ++ d2) k = match od_get d1 k with Some v => Some v | None => od_get d2 k end.
Proof. induction d1 as [|[k' v'] r IH]; simpl; [done|]. by case_decide. Qed.

Lemma od_keys_app d1 d2 : od_keys (d1 ++ d2) = od_keys d1 ++ od_keys d2.
Proof. apply fmap_app. Qed.

Lemma od_wf_app_inv_r d1 d2 : od_wf (d1 ++ d2) -> od_wf d2.
Proof. unfold od_wf. rewrite od_keys_app. by intros (?&?&?)%NoDup_app. Qed.
End odict.
#[export] Hint Resolve od_wf_set od_wf_pop : pydict.

(** ** Floats, as values *)
Inductive pyfloat :=
| FFin (q : Q)
| FInf (neg : bool)
| FNan.

#[export] Instance Q_eq_dec : EqDecision Q.
Proof. solve_decision. Defined.
#[export] Instance pyfloat_eq_dec : EqDecision pyfloat.
Proof. solve_decision. Defined.

(** ** Values *)
Inductive pyval :=
| PNone
| PBool (b : bool)
| PInt (z : Z)
| PFloat (f : pyfloat)
| PStr (s : string)
| PList (l : list pyval)
| PDict (d : list (string * pyval)).

(** Induction through lists and dictionaries. *)
Lemma pyval_ind' (P : pyval -> Prop) :
  P PNone -> (forall b, P (PBool b)) -> (forall z, P (PInt z)) -> (forall f, P (PFloat f)) -> (forall s, P (PStr s)) ->
  (forall l, Forall P l -> P (PList l)) -> (forall d, Forall (fun kv => P (snd kv)) d -> P (PDict d)) ->
  forall v, P v.
Proof.
  intros HN HB HZ HF HS HL HD. fix IH 1. intros [| | | | |l|d]; [exact HN|apply HB|apply HZ|apply HF|apply HS| |].
  - apply HL. induction l; constructor; [apply IH|done].
  - apply HD. induction d as [|[k v] d IHd]; constructor; [apply IH|done].
Qed.

Fixpoint pyval_eqb (a b : pyval) : bool :=
  match a, b with
  | PNone, PNone => true
  | PBool x, PBool y => bool_decide (x = y)
  | PInt x, PInt y => bool_decide (x = y)
  | PFloat x, PFloat y => bool_decide (x = y)
  | PStr x, PStr y => bool_decide (x = y)
  | PList x, PList y =>
      (fix go l k := match l, k with
        | [], [] => true
        | u :: l', v :: k' => pyval_eqb u v && go l' k'
        | _, _ => false end) x y
  | PDict x, PDict y =>
      (fix go l k := match l, k with
        | [], [] => true
        | (s, u) :: l', (t, v) :: k' => bool_decide (s = t) && pyval_eqb u v && go l' k'
        | _, _ => false end) x y
  | _, _ => false
  end.

Lemma pyval_eqb_eq a b : pyval_eqb a b = true <-> a = b.
Proof.
  revert a b. fix IH 1. intros a b.
  destruct a as [|x|x|x|x|x|x], b as [|y|y|y|y|y|y]; simpl; try (by split);
    rewrite ?bool_decide_eq_true; try (by split; congruence).
  - revert y. induction x as [|u x IHx]; intros [|v y]; try (by split).
    rewrite andb_true_iff, IH, (IHx y). split; [intros [? ?]; congruence|intros; by simplify_eq].
  - revert y. induction x as [|[s u] x IHx]; intros [|[t v] y]; try (by split).
    rewrite !andb_true_iff, bool_decide_eq_true, IH, (IHx y).
    split; [intros [[? ?] ?]; congruence|intros; by simplify_eq].
Qed.

#[export] Instance pyval_eq_dec : EqDecision pyval.
Proof.
  intros a b. destruct (pyval_eqb a b) eqn:E.
  - left. by apply pyval_eqb_eq.
  - right. intros Hab%pyval_eqb_eq. congruence.
Defined.

(** [bool(x)] *)
Definition truthy (v : pyval) : bool :=
  match v with
  | PNone => false
  | PBool b => b
  | PInt z => negb (z =? 0)
  | PFloat (FFin q) => negb (Qeq_bool q 0)
  | PFloat _ => true
  | PStr s => negb (String.eqb s "")
  | PList l => match l with [] => false | _ => true end
  | PDict d => match d with [] => false | _ => true end
  end.

(** [x or y] *)
Definition py_or (x y : pyval) : pyval := if truthy x then x else y.

Definition is_dict (v : pyval) : bool := match v with PDict _ => true | _ => false end.
Definition is_list (v : pyval) : bool := match v with PList _ => true | _ => false end.
Definition is_none (v : pyval) : bool := match v with PNone => true | _ => false end.

(** [d.get(k)] and [d.get(k, default)] of a dict value *)
Definition dget (d : list (string * pyval)) (k : string) : pyval := default PNone (od_get d k).
Definition dget_or (d : list (string * pyval)) (k : string) (dflt : pyval) : pyval :=
  default dflt (od_get d k).
Definition dhas (d : list (string * pyval)) (k : string) : bool :=
  match od_get d k with Some _ => true | None => false end.

(** ** Strings *)
Definition is_space (c : ascii) : bool :=
  let n := N_of_ascii c in
  ((9 <=? n) && (n <=? 13) || (28 <=? n) && (n <=? 32))%N.

Fixpoint lstrip (s : string) : string :=
  match s with
  | EmptyString => EmptyString
  | String c r => if is_space c then lstrip r else s
  end.

Fixpoint rstrip (s : string) : string :=
  match s with
  | EmptyString => EmptyString
  | String c r =>
      match rstrip r with
      | EmptyString => if is_space c then EmptyString else String c EmptyString
      | r' => String c r'
      end
  end.

(** [s.strip()] *)
Definition strip (s : string) : string := rstrip (lstrip s).

Definition lower_ascii (c : ascii) : ascii :=
  let n := N_of_ascii c in
  if ((65 <=? n) && (n <=? 90))%N then ascii_of_N (n + 32) else c.

Fixpoint lower (s : string) : string :=
  match s with EmptyString => EmptyString | String c r => String (lower_ascii c) (lower r) end.

Definition upper_ascii (c : ascii) : ascii :=
  let n := N_of_ascii c in
  if ((97 <=? n) && (n <=? 122))%N then ascii_of_N (n - 32) else c.

Fixpoint upper (s : string) : string :=
  match s with EmptyString => EmptyString | String c r => String (upper_ascii c) (upper r) end.

Definition nonempty (s : string) : bool := negb (String.eqb s "").

(** [str(x)].  Python's text for floats and containers is not fixed here: it
    is a parameter, and so is [repr] of a string. *)
Class PyRepr := {
  str_float : pyfloat -> string;
  str_list : list pyval -> string;
  str_dict : list (string * pyval) -> string;
  repr_str : string -> string
}.

Fixpoint dec_digits (fuel : nat) (n : N) (acc : string) : string :=
  match fuel with
  | O => acc
  | S f =>
      let acc' := String (ascii_of_N (48 + n mod 10)) acc in
      if (n / 10 =? 0)%N then acc' else dec_digits f (n / 10) acc'
  end.

Definition str_Z (z : Z) : string :=
  let digits n := dec_digits (S (N.to_nat (N.log2 n))) n "" in
  match z with
  | Z0 => "0"
  | Zpos p => digits (Npos p)
  | Zneg p => String "-" (digits (Npos p))
  end.

Definition py_str `{PyRepr} (v : pyval) : string :=
  match v with
  | PNone => "None"
  | PBool true => "True"
  | PBool false => "False"
  | PInt z => str_Z z
  | PFloat f => str_float f
  | PStr s => s
  | PList l => str_list l
  | PDict d => str_dict d
  end.

(** [str(exc)]; the texts the interpreter makes up are left empty. *)
Definition exc_str `{PyRepr} (e : pyexc) : string :=
  match e with
  | ValueError m | TypeError m | RuntimeError m | IndexError m | LookupError m | AttributeError m | TimeoutError m
  | TemplateError m | UnknownNameError m _ | ValueTooLargeError m | OperandError m _ | CallFailed m _
  | SequenceParseError m _ | FileNotFoundError m => m
  | ConfigError path m => path +:+ ": " +:+ m
  | YamlLoadError detail source (Some l) (Some c) =>
      source +:+ ": line " +:+ str_Z l +:+ ", column " +:+ str_Z c +:+ ": " +:+ detail
  | YamlLoadError detail source _ _ => source +:+ ": " +:+ detail
  | KeyError m => repr_str m
  | ZmqAgain => "Resource temporarily unavailable"
  | _ => ""
  end.

(** [a == b]: numbers compare across types, dicts regardless of order. *)
Definition py_num (v : pyval) : option pyfloat :=
  match v with
  | PBool b => Some (FFin (if b then 1 else 0)%Q)
  | PInt z => Some (FFin (inject_Z z))
  | PFloat f => Some f
  | _ => None
  end.

Definition float_eqb (x y : pyfloat) : bool :=
  match x, y with
  | FFin p, FFin q => Qeq_bool p q
  | FInf s, FInf t => bool_decide (s = t)
  | _, _ => false
  end.

Fixpoint py_eqb (a b : pyval) {struct a} : bool :=
  match a, b with
  | PNone, PNone => true
  | PStr x, PStr y => String.eqb x y
  | PList x, PList y =>
      (fix go l k := match l, k with
        | [], [] => true
        | u :: l', v :: k' => py_eqb u v && go l' k'
        | _, _ => false end) x y
  | PDict x, PDict y =>
      bool_decide (length x = length y) &&
      (fix go l := match l with
        | [] => true
        | (s, u) :: l' => match od_get y s with Some v => py_eqb u v | None => false end && go l'
        end) x
  | _, _ =>
      match py_num a, py_num b with Some x, Some y => float_eqb x y | _, _ => false end
  end.

Example py_eqb_examples :
  py_eqb (PDict [("a", PInt 1); ("b", PBool true)]) (PDict [("b", PInt 1); ("a", PFloat (FFin 1))]) = true /\
  py_eqb (PList [PNone]) (PList [PInt 0]) = false.
Proof. by vm_compute. Qed.

(** A [PyRepr] for evaluating concrete inputs. *)
Definition plain_repr : PyRepr :=
  {| str_float _ := "<float>"; str_list _ := "<list>"; str_dict _ := "<dict>";
     repr_str s := "'" +:+ s +:+ "'" |}.

Lemma strip_empty : strip "" = "".
Proof. done. Qed.

Lemma rstrip_idem s : rstrip (rstrip s) = rstrip s.
Proof.
  induction s as [|c r IH]; [done|]. simpl. destruct (rstrip r) as [|c' r'] eqn:E.
  - destruct (is_space c) eqn:Hc; [done|]. simpl. by rewrite Hc.
  - simpl in *. by rewrite IH.
Qed.

Definition head_solid (s : string) : Prop :=
  match s with EmptyString => True | String c _ => is_space c = false end.

Lemma lstrip_head s : head_solid (lstrip s).
Proof. induction s as [|c r IH]; [done|]. simpl. by destruct (is_space c) eqn:E. Qed.

Lemma lstrip_solid s : head_solid s -> lstrip s = s.
Proof. destruct s as [|c r]; [done|]. simpl. by intros ->. Qed.

Lemma rstrip_head s : head_solid s -> head_solid (rstrip s).
Proof.
  destruct s as [|c r]; [done|]. simpl. intros Hc. rewrite Hc. by destruct (rstrip r).
Qed.

Lemma strip_idem s : strip (strip s) = strip s.
Proof.
  unfold strip. rewrite (lstrip_solid (rstrip _)) by apply rstrip_head, lstrip_head.
  apply rstrip_idem.
Qed.

(** [s.startswith(p)] *)
Definition startswith (s p : string) : bool := String.prefix p s.

Lemma startswith_app p s : startswith (p +:+ s) p = true.
Proof.
  unfold startswith. induction p as [|c p IH]; simpl; [by destruct s|]. by destruct (ascii_dec c c).
Qed.

(** [s or None] for a string *)
Definition or_none (s : string) : option string := if nonempty s then Some s else None.

Definition opt_str (o : option string) : pyval := from_option PStr PNone o.

(** [sorted(set)] of strings: by code points *)
Definition sorted_set (X : gset string) : list string := merge_sort String.le (elements X).

Lemma sorted_set_perm X : sorted_set X ≡ₚ elements X.
Proof. apply merge_sort_Permutation. Qed.

Lemma elem_of_sorted_set X x : x ∈ sorted_set X <-> x ∈ X.
Proof. by rewrite sorted_set_perm, elem_of_elements. Qed.

Lemma sorted_set_sorted X : StronglySorted String.le (sorted_set X).
Proof. apply StronglySorted_merge_sort; apply _. Qed.

Lemma sorted_set_NoDup X : NoDup (sorted_set X).
Proof. rewrite sorted_set_perm. apply NoDup_elements. Qed.

(** ** [int(x)] *)
Definition digit_of (c : ascii) : option Z :=
  let n := N_of_ascii c in
  if ((48 <=? n) && (n <=? 57))%N then Some (Z.of_N (n - 48)) else None.

(** Decimal digits with single underscores between them. *)
Fixpoint parse_digits (s : string) (acc : Z) (after_digit : bool) : option Z :=
  match s with
  | EmptyString => if after_digit then Some acc else None
  | String c r =>
      match digit_of c with
      | Some d => parse_digits r (10 * acc + d) true
      | None => if (c =? "_")%char && after_digit then parse_digits r acc false else None
      end
  end.

Definition parse_int (s : string) : option Z :=
  match strip s with
  | String "-" r => Z.opp <$> parse_digits r 0 false
  | String "+" r => parse_digits r 0 false
  | r => parse_digits r 0 false
  end.

Definition py_int (v : pyval) : result Z :=
  match v with
  | PBool b => Ok (Z.b2z b)
  | PInt z => Ok z
  | PFloat (FFin q) => Ok (Z.quot (Qnum q) (Zpos (Qden q)))
  | PFloat (FInf _) => Err OverflowError
  | PFloat FNan => Err (ValueError "cannot convert float NaN to integer")
  | PStr s => match parse_int s with
              | Some z => Ok z
              | None => Err (ValueError "invalid literal for int()")
              end
  | _ => Err (TypeError "int() argument")
  end.

Example py_int_examples :
  py_int (PStr " -1_000 ") = Ok (-1000) /\ parse_int "1__0" = None /\
  py_int (PFloat (FFin (-7 # 2))) = Ok (-3).
Proof. done. Qed.

(** Printing and reading back an integer. *)
Lemma digit_of_ascii d : 0 <= d < 10 -> digit_of (ascii_of_N (48 + Z.to_N d)) = Some d.
Proof.
  intros Hd. assert (d ∈ seqZ 0 10) as Hin by (apply elem_of_seqZ; lia). revert Hin. clear Hd.
  revert d. apply Forall_forall. by vm_compute; repeat constructor.
Qed.

Lemma parse_dec_digits fuel n acc a flag :
  (n < 2 ^ N.of_nat fuel)%N -> (0 < fuel)%nat ->
  exists k, parse_digits (dec_digits fuel n acc) a flag = parse_digits acc (a * 10 ^ k + Z.of_N n) true /\
    0 <= k.
Proof.
  revert n acc. induction fuel as [|fuel IH]; intros n acc Hn Hf; [lia|]. cbn [dec_digits].
  assert (forall a' b, parse_digits (String (ascii_of_N (48 + n mod 10)) acc) a' b =
    parse_digits acc (10 * a' + Z.of_N (n mod 10)) true) as Hd.
  { intros a' b. cbn [parse_digits].
    assert (n mod 10 < 10)%N as Hlt by (by apply N.mod_lt). set (r := (n mod 10)%N) in *. clearbody r.
    replace (ascii_of_N (48 + r)) with (ascii_of_N (48 + Z.to_N (Z.of_N r))) by (by rewrite N2Z.id).
    rewrite digit_of_ascii; [done|lia]. }
  destruct (N.eqb_spec (n / 10) 0) as [H0|H0].
  - exists 1. split; [|lia]. rewrite Hd. f_equal. rewrite Z.pow_1_r, N2Z.inj_mod.
    apply (f_equal Z.of_N) in H0. rewrite N2Z.inj_div in H0.
    change (Z.of_N 10) with 10 in *. change (Z.of_N 0) with 0 in H0.
    pose proof (Z.div_mod (Z.of_N n) 10 ltac:(lia)). lia.
  - assert (n / 10 < 2 ^ N.of_nat fuel)%N as Hn'.
    { apply N.Div0.div_lt_upper_bound. rewrite Nat2N.inj_succ, N.pow_succ_r in Hn by lia.
      eapply N.lt_le_trans; [exact Hn|]. apply N.mul_le_mono_r. lia. }
    assert (0 < fuel)%nat as Hf'.
    { destruct fuel; [|lia]. exfalso. apply H0. by apply N.lt_1_r. }
    destruct (IH (n / 10)%N (String (ascii_of_N (48 + n mod 10)) acc) Hn' Hf') as (k&->&Hk).
    exists (k + 1). split; [|lia]. rewrite Hd. f_equal. rewrite Z.pow_add_r by lia.
    rewrite N2Z.inj_mod, N2Z.inj_div. change (Z.of_N 10) with 10. pose proof (Z.div_mod (Z.of_N n) 10 ltac:(lia)). lia.
Qed.

Lemma dec_digits_head fuel n acc : (0 < fuel)%nat ->
  exists d r, dec_digits fuel n acc = String (ascii_of_N (48 + d)) r /\ (d < 10)%N.
Proof.
  revert n acc. induction fuel as [|fuel IH]; intros n acc Hf; [lia|]. cbn [dec_digits].
  destruct (n / 10 =? 0)%N.
  - eexists _, _. split; [done|]. apply N.mod_lt. lia.
  - destruct fuel as [|fuel]; [|apply IH; lia]. cbn [dec_digits]. eexists _, _. split; [done|].
    apply N.mod_lt. lia.
Qed.

Definition digits (n : N) : string := dec_digits (S (N.to_nat (N.log2 n))) n "".

Lemma parse_digits_of n : parse_digits (digits n) 0 false = Some (Z.of_N n).
Proof.
  unfold digits. destruct (parse_dec_digits (S (N.to_nat (N.log2 n))) n "" 0 false) as (k&->&_); [|lia|done].
  rewrite Nat2N.inj_succ, N2Nat.id. destruct n as [|p]; [done|]. by apply N.log2_spec.
Qed.

Lemma str_Z_inj a b : str_Z a = str_Z b -> a = b.
Proof.
  assert (forall p, parse_digits (str_Z (Zpos p)) 0 false = Some (Zpos p)) as Hp
    by (intros p; apply (parse_digits_of (Npos p))).
  assert (forall p, exists d r, str_Z (Zpos p) = String (ascii_of_N (48 + d)) r /\ (d < 10)%N) as Hh
    by (intros p; apply dec_digits_head; lia).
  assert (forall d, (d < 10)%N -> ascii_of_N (48 + d) ≠ "-"%char) as Hm.
  { intros d Hd E. apply (f_equal N_of_ascii) in E. rewrite N_ascii_embedding in E by lia.
    change (N_of_ascii "-") with 45%N in E. lia. }
  assert (forall p, str_Z (Zneg p) = String "-" (str_Z (Zpos p))) as Hn by done.
  destruct a as [|p|p], b as [|q|q]; intros E; try done.
  - apply (f_equal (fun s => parse_digits s 0 false)) in E. rewrite Hp in E. by simplify_eq.
  - apply (f_equal (fun s => parse_digits s 0 false)) in E. rewrite Hp in E. by simplify_eq.
  - apply (f_equal (fun s => parse_digits s 0 false)) in E. rewrite !Hp in E. congruence.
  - destruct (Hh p) as (d&r&Hd&Hlt). rewrite Hn, Hd in E. simplify_eq. by destruct (Hm d Hlt).
  - destruct (Hh q) as (d&r&Hd&Hlt). rewrite Hn, Hd in E. simplify_eq. by destruct (Hm d Hlt).
  - rewrite !Hn in E. assert (str_Z (Zpos p) = str_Z (Zpos q)) as E' by congruence.
    apply (f_equal (fun s => parse_digits s 0 false)) in E'. rewrite !Hp in E'. congruence.
Qed.
