(* ===== verification/PyNum.v ===== *)
(** * Seconds as rationals, and number formatting

    Clock readings and durations are exact rationals: float rounding is not
    modelled.  Comparison is boolean, as the code branches on it. *)
From Stdlib Require Export QArith Qminmax.
From Stdlib Require Import Lqa.
From S2P Require Import Prelude PyVal.
#[local] Open Scope Z_scope.

Definition Qltb (x y : Q) : bool := negb (Qle_bool y x).

Lemma Qleb_spec x y : BoolSpec (x <= y)%Q (y < x)%Q (Qle_bool x y).
Proof.
  destruct (Qle_bool x y) eqn:E; constructor.
  - by apply Qle_bool_iff.
  - apply Qnot_le_lt. intros H%Qle_bool_iff. congruence.
Qed.

Lemma Qltb_spec x y : BoolSpec (x < y)%Q (y <= x)%Q (Qltb x y).
Proof. unfold Qltb. destruct (Qleb_spec y x); constructor; done. Qed.

Lemma Qle_bool_true x y : (x <= y)%Q -> Qle_bool x y = true.
Proof. apply Qle_bool_iff. Qed.
Lemma Qle_bool_false x y : (y < x)%Q -> Qle_bool x y = false.
Proof. intros H. destruct (Qleb_spec x y); [|done]. lra. Qed.
Lemma Qltb_true x y : (x < y)%Q -> Qltb x y = true.
Proof. intros H. destruct (Qltb_spec x y); [done|]. lra. Qed.
Lemma Qltb_false x y : (y <= x)%Q -> Qltb x y = false.
Proof. intros H. destruct (Qltb_spec x y); [|done]. lra. Qed.

(** [max(a, b)] of floats returns the first argument on ties. *)
Definition fmax (a b : Q) : Q := if Qltb a b then b else a.
Definition fmin (a b : Q) : Q := if Qltb b a then b else a.

Lemma fmax_ub a b : (a <= fmax a b)%Q /\ (b <= fmax a b)%Q.
Proof. unfold fmax. destruct (Qltb_spec a b); lra. Qed.

(** Round half to even of a rational. *)
Definition round_half_even (q : Q) : Z :=
  let n := Qnum q in let d := Zpos (Qden q) in
  let lo := n / d in
  let r := 2 * (n - lo * d) in
  if r <? d then lo
  else if d <? r then lo + 1
  else if Z.even lo then lo else lo + 1.

Fixpoint pad_zeros (k : nat) (s : string) : string :=
  match k with O => s | S k' => pad_zeros k' (String "0" s) end.

(** [f"{x:.<n>f}"] *)
Definition fixed (n : nat) (x : Q) : string :=
  let scale := 10 ^ Z.of_nat n in
  let neg := Qnum x <? 0 in
  let r := round_half_even ((if neg then - x else x) * inject_Z scale)%Q in
  let frac := str_Z (r mod scale) in
  let body := str_Z (r / scale) +:+
    match n with O => "" | _ => "." +:+ pad_zeros (n - String.length frac) frac end in
  if neg then "-" +:+ body else body.


Example fixed_examples :
  fixed 2 (1234 # 1000) = "1.23" /\ fixed 1 (-5 # 100) = "-0.0" /\ fixed 1 (25 # 100) = "0.2" /\
  fixed 2 (3 # 1) = "3.00".
Proof. by vm_compute. Qed.

(** Eight upper-case hexadecimal digits. *)
Definition hex_digit (d : Z) : ascii :=
  ascii_of_N (Z.to_N (if d <? 10 then 48 + d else 55 + d)).

Fixpoint hex_digits (k : nat) (z : Z) (acc : string) : string :=
  match k with
  | O => acc
  | S k' => hex_digits k' (z / 16) (String (hex_digit (z mod 16)) acc)
  end.

Definition hex8 (z : Z) : string := "0x" +:+ hex_digits 8 z "".

(** Reading the digits back. *)
Definition hex_val (c : ascii) : Z :=
  let n := Z.of_N (N_of_ascii c) in if n <? 58 then n - 48 else n - 55.

Fixpoint hex_read (s : string) (acc : Z) : Z :=
  match s with EmptyString => acc | String c r => hex_read r (16 * acc + hex_val c) end.

Lemma hex_val_digit d : 0 <= d < 16 -> hex_val (hex_digit d) = d.
Proof.
  intros Hd. assert (d ∈ seqZ 0 16) as Hin by (apply elem_of_seqZ; lia). revert Hin. clear Hd.
  revert d. apply Forall_forall. by vm_compute; repeat constructor.
Qed.

Lemma hex_read_digits k z acc a :
  0 <= z < 16 ^ Z.of_nat k -> hex_read (hex_digits k z acc) a = hex_read acc (a * 16 ^ Z.of_nat k + z).
Proof.
  revert z acc. induction k as [|k IH]; intros z acc Hz.
  - simpl in *. f_equal. lia.
  - rewrite Nat2Z.inj_succ, Z.pow_succ_r in * by lia. cbn [hex_digits].
    pose proof (Z.div_mod z 16 ltac:(lia)). pose proof (Z.mod_pos_bound z 16 ltac:(lia)).
    rewrite IH by (split; [apply Z.div_pos; lia|apply Z.div_lt_upper_bound; lia]).
    cbn [hex_read]. rewrite hex_val_digit by done. f_equal. lia.
Qed.

(** ** [float(x)]

    Decimal literals with an optional fraction and exponent, [inf] and [nan];
    the value is the exact rational. *)
Fixpoint break_on (p : ascii -> bool) (s : string) : string * option string :=
  match s with
  | EmptyString => ("", None)
  | String c r => if p c then ("", Some r) else let '(a, b) := break_on p r in (String c a, b)
  end.

Fixpoint count_digits (s : string) : nat :=
  match s with
  | EmptyString => 0
  | String c r => match digit_of c with Some _ => S (count_digits r) | None => count_digits r end
  end.

Definition sign_split (s : string) : bool * string :=
  match s with
  | String "-" r => (true, r)
  | String "+" r => (false, r)
  | _ => (false, s)
  end.

Definition parse_mantissa (s : string) : option Q :=
  match break_on (fun c => (c =? ".")%char) s with
  | (i, None) => inject_Z <$> parse_digits i 0 false
  | (i, Some f) =>
      iz ← (if nonempty i then parse_digits i 0 false else if nonempty f then Some 0 else None);
      fz ← (if nonempty f then parse_digits f 0 false else Some 0);
      Some (iz * 10 ^ Z.of_nat (count_digits f) + fz # Z.to_pos (10 ^ Z.of_nat (count_digits f)))
  end.

Definition pow10 (e : Z) : Q :=
  if 0 <=? e then inject_Z (10 ^ e) else 1 # Z.to_pos (10 ^ (- e)).

Definition parse_float (s0 : string) : option pyfloat :=
  let '(neg, s) := sign_split (lower (strip s0)) in
  if bool_decide (s ∈ ["inf"; "infinity"]) then Some (FInf neg)
  else if String.eqb s "nan" then Some FNan
  else
    match break_on (fun c => (c =? "e")%char) s with
    | (m, ex) =>
        q ← parse_mantissa m;
        e ← (match ex with
             | None => Some 0
             | Some t => let '(n, t) := sign_split t in
                         (fun z => if n : bool then - z else z) <$> parse_digits t 0 false
             end);
        Some (FFin (Qred ((if neg : bool then - q else q) * pow10 e)))
    end.

Definition py_float (v : pyval) : result pyfloat :=
  match v with
  | PBool b => Ok (FFin (inject_Z (Z.b2z b)))
  | PInt z => Ok (FFin (inject_Z z))
  | PFloat f => Ok f
  | PStr s => match parse_float s with
              | Some f => Ok f
              | None => Err (ValueError "could not convert string to float")
              end
  | _ => Err (TypeError "float() argument must be a string or a real number")
  end.

Example parse_float_examples :
  parse_float " -1.50e1 " = Some (FFin (-15 # 1)) /\ parse_float ".5" = Some (FFin (1 # 2)) /\
  parse_float "3." = Some (FFin (3 # 1)) /\ parse_float "." = None /\ parse_float "1e" = None /\
  parse_float "-Infinity" = Some (FInf true) /\ parse_float "25e-1" = Some (FFin (5 # 2)).
Proof. by vm_compute. Qed.
