(* ===== verification/PyOps.v ===== *)
(** * Operators of the language on values

    Arithmetic, comparison, iteration and formatting limits of Python values
    as the expression evaluator uses them.  Floats are exact rationals with
    infinities and NaN; rounding and overflow of floats are not modelled. *)
From Stdlib Require Import Qround.
From S2P Require Import Prelude PyVal PyNum.
#[local] Open Scope Z_scope.

(** ** Numbers *)
(** [bool] is a subclass of [int]. *)
Definition as_int (v : pyval) : option Z :=
  match v with PBool b => Some (Z.b2z b) | PInt z => Some z | _ => None end.

(** [isinstance(v, int) and not isinstance(v, bool)] *)
Definition _is_int (v : pyval) : option Z := match v with PInt z => Some z | _ => None end.

Definition fsign (f : pyfloat) : bool :=
  match f with FFin q => Qltb q 0 | FInf n => n | FNan => false end.
Definition fzero (f : pyfloat) : bool := match f with FFin q => Qeq_bool q 0 | _ => false end.
Definition fneg (f : pyfloat) : pyfloat :=
  match f with FFin q => FFin (- q) | FInf n => FInf (negb n) | FNan => FNan end.
Definition fabs (f : pyfloat) : pyfloat :=
  match f with FFin q => FFin (if Qltb q 0 then - q else q)%Q | FInf _ => FInf false | FNan => FNan end.

Definition fadd (x y : pyfloat) : pyfloat :=
  match x, y with
  | FFin a, FFin b => FFin (Qred (a + b))
  | FInf s, FInf t => if Bool.eqb s t then FInf s else FNan
  | FInf s, FFin _ | FFin _, FInf s => FInf s
  | FNan, _ | _, FNan => FNan
  end.
Definition fsub (x y : pyfloat) : pyfloat := fadd x (fneg y).

Definition fmul (x y : pyfloat) : pyfloat :=
  match x, y with
  | FFin a, FFin b => FFin (Qred (a * b))
  | FNan, _ | _, FNan => FNan
  | _, _ => if fzero x || fzero y then FNan else FInf (xorb (fsign x) (fsign y))
  end.

Definition fdiv (x y : pyfloat) : result pyfloat :=
  if fzero y then Err ZeroDivisionError
  else Ok match x, y with
          | FFin a, FFin b => FFin (Qred (a / b))
          | FNan, _ | _, FNan | FInf _, FInf _ => FNan
          | FInf _, FFin _ => FInf (xorb (fsign x) (fsign y))
          | FFin _, FInf _ => FFin 0
          end.

Definition Qfloordiv (a b : Q) : Z := Qfloor (a / b).

Definition ffloordiv (x y : pyfloat) : result pyfloat :=
  if fzero y then Err ZeroDivisionError
  else Ok match x, y with
          | FFin a, FFin b => FFin (inject_Z (Qfloordiv a b))
          | FFin a, FInf _ => if fzero x || Bool.eqb (fsign x) (fsign y) then FFin 0 else FFin (-1)
          | _, _ => FNan
          end.

Definition fmod (x y : pyfloat) : result pyfloat :=
  if fzero y then Err ZeroDivisionError
  else Ok match x, y with
          | FFin a, FFin b => FFin (Qred (a - b * inject_Z (Qfloordiv a b)))
          | FFin a, FInf _ => if fzero x || Bool.eqb (fsign x) (fsign y) then x else y
          | _, _ => FNan
          end.

Definition fltb (x y : pyfloat) : bool :=
  match x, y with
  | FFin a, FFin b => Qltb a b
  | FNan, _ | _, FNan => false
  | FInf s, FInf t => s && negb t
  | FInf s, FFin _ => s
  | FFin _, FInf t => negb t
  end.
Definition fleb (x y : pyfloat) : bool := fltb x y || float_eqb x y.

(** ** Operators *)
Inductive operator := Add | Sub | Mult | Div | FloorDiv | Mod | Pow | OtherOp.
Inductive unaryop := UAdd | USub | Not | Invert.
Inductive cmpop := CEq | CNotEq | CLt | CLtE | CGt | CGtE | COther.

#[export] Instance operator_eq_dec : EqDecision operator.
Proof. solve_decision. Defined.

(** What the language computes by means outside this model: [x ** y] with a
    float or a negative exponent, and ["..." % args]. *)
Class PyArith := {
  float_pow : pyfloat -> pyfloat -> result pyval;
  str_format : string -> pyval -> result string
}.

(** A [TypeError] of an operator; its text is the interpreter's. *)
Definition type_error {A} : result A := Err (TypeError "").

Definition num_op (fi : Z -> Z -> result pyval) (ff : pyfloat -> pyfloat -> result pyval)
    (a b : pyval) : result pyval :=
  match as_int a, as_int b with
  | Some x, Some y => fi x y
  | _, _ => match py_num a, py_num b with Some x, Some y => ff x y | _, _ => type_error end
  end.

Definition Zfloat (z : Z) : pyfloat := FFin (inject_Z z).
Definition float_result (r : result pyfloat) : result pyval := PFloat <$> r.

Fixpoint str_repeat (n : nat) (s : string) : string :=
  match n with O => "" | S k => s +:+ str_repeat k s end.

Definition py_add (a b : pyval) : result pyval :=
  match a, b with
  | PStr x, PStr y => Ok (PStr (x +:+ y))
  | PList x, PList y => Ok (PList (x ++ y))
  | _, _ => num_op (fun x y => Ok (PInt (x + y))) (fun x y => Ok (PFloat (fadd x y))) a b
  end.

Definition py_sub (a b : pyval) : result pyval :=
  num_op (fun x y => Ok (PInt (x - y))) (fun x y => Ok (PFloat (fsub x y))) a b.

(** A sequence times an integer; a negative count gives the empty one. *)
Definition seq_mul (v : pyval) (n : Z) : result pyval :=
  match v with
  | PStr s => Ok (PStr (str_repeat (Z.to_nat n) s))
  | PList l => Ok (PList (concat (replicate (Z.to_nat n) l)))
  | _ => type_error
  end.

Definition py_mul (a b : pyval) : result pyval :=
  match a, b with
  | (PStr _ | PList _), _ => match as_int b with Some n => seq_mul a n | None => type_error end
  | _, (PStr _ | PList _) => match as_int a with Some n => seq_mul b n | None => type_error end
  | _, _ => num_op (fun x y => Ok (PInt (x * y))) (fun x y => Ok (PFloat (fmul x y))) a b
  end.

Definition py_div (a b : pyval) : result pyval :=
  num_op (fun x y => float_result (fdiv (Zfloat x) (Zfloat y)))
         (fun x y => float_result (fdiv x y)) a b.

Definition py_floordiv (a b : pyval) : result pyval :=
  num_op (fun x y => if y =? 0 then Err ZeroDivisionError else Ok (PInt (x / y)))
         (fun x y => float_result (ffloordiv x y)) a b.

Definition py_mod `{PyArith} (a b : pyval) : result pyval :=
  match a with
  | PStr s => PStr <$> str_format s b
  | _ => num_op (fun x y => if y =? 0 then Err ZeroDivisionError else Ok (PInt (x mod y)))
                (fun x y => float_result (fmod x y)) a b
  end.

Definition py_pow `{PyArith} (a b : pyval) : result pyval :=
  num_op (fun x y => if 0 <=? y then Ok (PInt (x ^ y)) else float_pow (Zfloat x) (Zfloat y))
         float_pow a b.

Definition py_neg (v : pyval) : result pyval :=
  match as_int v, v with
  | Some z, _ => Ok (PInt (- z))
  | _, PFloat f => Ok (PFloat (fneg f))
  | _, _ => type_error
  end.

Definition py_pos (v : pyval) : result pyval :=
  match as_int v, v with
  | Some z, _ => Ok (PInt z)
  | _, PFloat f => Ok (PFloat f)
  | _, _ => type_error
  end.

Definition py_abs (v : pyval) : result pyval :=
  match as_int v, v with
  | Some z, _ => Ok (PInt (Z.abs z))
  | _, PFloat f => Ok (PFloat (fabs f))
  | _, _ => type_error
  end.

(** ** Ordering: numbers, strings and lists; other operands raise. *)
Definition cmp_float (op : cmpop) (x y : pyfloat) : bool :=
  match op with
  | CLt => fltb x y | CLtE => fleb x y | CGt => fltb y x | _ => fleb y x
  end.

Definition cmp_by (op : cmpop) (c : comparison) : bool :=
  match op, c with
  | CLt, Lt | CLtE, (Lt | Eq) | CGt, Gt | CGtE, (Gt | Eq) => true
  | _, _ => false
  end.

Fixpoint py_order (op : cmpop) (a b : pyval) {struct a} : result bool :=
  match a, b with
  | PStr x, PStr y => Ok (cmp_by op (String.compare x y))
  | PList x, PList y =>
      (fix go l k := match l, k with
        | u :: l', v :: k' => if py_eqb u v then go l' k' else py_order op u v
        | _, _ => Ok (cmp_by op (Nat.compare (length l) (length k)))
        end) x y
  | _, _ =>
      match py_num a, py_num b with
      | Some x, Some y => Ok (cmp_float op x y)
      | _, _ => type_error
      end
  end.

Definition py_compare (op : cmpop) (a b : pyval) : result bool :=
  match op with
  | CEq => Ok (py_eqb a b)
  | CNotEq => Ok (negb (py_eqb a b))
  | COther => Err (ValueError "Compare op not allowed")
  | _ => py_order op a b
  end.

(** ** Iteration and the functions of the expression language *)
Fixpoint chars (s : string) : list pyval :=
  match s with EmptyString => [] | String c r => PStr (String c "") :: chars r end.

(** [list(v)] *)
Definition py_iter (v : pyval) : result (list pyval) :=
  match v with
  | PList l => Ok l
  | PStr s => Ok (chars s)
  | PDict d => Ok (PStr <$> od_keys d)
  | _ => type_error
  end.

(** [a, b = v] *)
Definition unpack2 (v : pyval) : result (pyval * pyval) :=
  l ← py_iter v;
  match l with
  | [a; b] => Ok (a, b)
  | _ => Err (ValueError "values to unpack (expected 2)")
  end.

Definition py_len (v : pyval) : result pyval :=
  match v with
  | PStr s => Ok (PInt (Z.of_nat (String.length s)))
  | PList l => Ok (PInt (Z.of_nat (length l)))
  | PDict d => Ok (PInt (Z.of_nat (length d)))
  | _ => type_error
  end.

(** [min] and [max]: the first of the extreme items. *)
Fixpoint extreme (op : cmpop) (best : pyval) (l : list pyval) : result pyval :=
  match l with
  | [] => Ok best
  | x :: r => b ← py_order op x best; extreme op (if b : bool then x else best) r
  end.

Definition py_minmax (op : cmpop) (args : list pyval) : result pyval :=
  match args with
  | [] => type_error
  | [v] => items ← py_iter v;
           match items with
           | [] => Err (ValueError "iterable argument is empty")
           | x :: r => extreme op x r
           end
  | x :: r => extreme op x r
  end.

Example py_ops_examples :
  py_floordiv (PInt (-7)) (PInt 2) = Ok (PInt (-4)) /\
  py_mul (PBool true) (PStr "ab") = Ok (PStr "ab") /\
  py_order CLt (PList [PInt 1; PStr "a"]) (PList [PInt 1; PStr "b"]) = Ok true /\
  py_order CGt PNone (PInt 1) = type_error /\
  py_order CLt (PFloat FNan) (PInt 1) = Ok false /\
  py_minmax CLt [PList [PInt 3; PFloat (FFin 1); PInt 1]] = Ok (PFloat (FFin 1)).
Proof. by vm_compute. Qed.

(** ** Sizes of values as text *)
Definition bit_length (z : Z) : Z := if z =? 0 then 0 else Z.log2 (Z.abs z) + 1.

Lemma bit_length_nonneg z : 0 <= bit_length z.
Proof. unfold bit_length. case_match; [done|]. pose proof (Z.log2_nonneg (Z.abs z)). lia. Qed.

Lemma bit_length_bound z : Z.abs z < 2 ^ bit_length z.
Proof.
  unfold bit_length. destruct (Z.eqb_spec z 0) as [->|Hz]; [done|].
  apply Z.log2_spec. lia.
Qed.
