(* ===== verification/Expressions.v ===== *)
(** * The expression language of rules and sequences ([sequencer/eval.py])

    The evaluator of [${...}] expressions over an environment of names: an
    abstract syntax with the node kinds the evaluator distinguishes, its
    operand errors and its limits on the size of results.  [ast.parse],
    [difflib.get_close_matches] and the operators of [PyArith] are
    parameters.  Dictionaries of an environment are [AttrDict]s:
    [to_attrdict], which every client applies to what it puts there, only
    adds attribute access and is the identity on these values. *)
From S2P Require Import Prelude PyVal PyNum PyOps.
#[local] Open Scope Z_scope.

(** [node.func] that is not a name, a node kind with no case of its own, and
    an operator without one are [OtherNode], [OtherOp] and [COther]. *)
Inductive expr :=
| Constant (v : pyval)
| Name (id : string)
| Attribute (value : expr) (attr : string)
| UnaryOp (op : unaryop) (operand : expr)
| BinOp (left : expr) (op : operator) (right : expr)
| BoolOp (is_and : bool) (values : list expr)
| Compare (left : expr) (rest : list (cmpop * expr))
| Call (func : expr) (args : list expr) (has_keywords : bool)
| IfExp (test body orelse : expr)
| OtherNode.

(** [parse_expr] is [ast.parse(text, mode="eval")]: the body, or the message
    of the [SyntaxError]; [get_close_matches] has [n=3] and [cutoff=0.6]. *)
Class PyExpr := {
  parse_expr : string -> string + expr;
  get_close_matches : string -> list string -> list string
}.

Abbreviation Env := (list (string * pyval)).

Definition MAX_INT_DIGITS : Z := 4000.
Definition _MAX_INT_BITS : Z := 13287.
Definition MAX_RESULT_SIZE : Z := 1000000.

(** About how many characters a value takes as text, counted up to a limit. *)
Fixpoint text_size (limit : Z) (v : pyval) : Z :=
  match v with
  | PStr s => Z.of_nat (String.length s)
  | PInt z => bit_length z / 3 + 1
  | PList l =>
      (fix go total l := match l with
        | [] => total
        | x :: r => let total := total + text_size limit x in
                    if limit <? total then total else go total r
        end) (Z.of_nat (length l)) l
  | PDict d =>
      (fix go total d := match d with
        | [] => total
        | (k, x) :: r =>
            let total := total + Z.of_nat (String.length k) in
            if limit <? total then total
            else let total := total + text_size limit x in
                 if limit <? total then total else go total r
        end) (Z.of_nat (length d)) d
  | _ => 8
  end.

(** [math.log2(abs(left)) * right > _MAX_INT_BITS], on exact numbers. *)
Definition _int_result_too_large (op : operator) (left right : Z) : bool :=
  match op with
  | Pow => if (right <=? 0) || (Z.abs left <=? 1) then false
           else (_MAX_INT_BITS <? right) || (2 ^ _MAX_INT_BITS <? Z.abs left ^ right)
  | Mult => _MAX_INT_BITS + 1 <? bit_length left + bit_length right
  | _ => false
  end.

(** ** The widths and precisions of a printf-style format *)
Fixpoint span (p : ascii -> bool) (s : string) : string * string :=
  match s with
  | EmptyString => ("", "")
  | String c r => if p c then let '(a, b) := span p r in (String c a, b) else ("", s)
  end.

Definition is_digit (c : ascii) : bool := match digit_of c with Some _ => true | None => false end.
Definition is_letter (c : ascii) : bool :=
  let n := N_of_ascii c in ((65 <=? n) && (n <=? 90) || (97 <=? n) && (n <=? 122))%N.
Definition one_of (cs : list ascii) (c : ascii) : bool := existsb (Ascii.eqb c) cs.

Definition number_group (s : string) : list Z :=
  match parse_digits s 0 false with Some z => [z] | None => [] end.

(** What follows a [%]: the numbers of the specification and the rest. *)
Definition format_spec (s : string) : option (list Z * string) :=
  let s := match s with
           | String "(" r => match break_on (Ascii.eqb ")") r with (_, Some r') => r' | _ => s end
           | _ => s
           end in
  let '(_, s) := span (one_of ["-"; "#"; "0"; " "; "+"])%char s in
  let '(width, s) := span is_digit s in
  let '(prec, s) := match s with
                    | String "." r => let '(d, r') := span is_digit r in
                                      if nonempty d then (d, r') else ("", s)
                    | _ => ("", s)
                    end in
  let final c := is_letter c || (c =? "%")%char in
  let numbers := number_group width ++ number_group prec in
  match s with
  | String c (String c' r) =>
      if one_of ["h"; "l"; "L"]%char c && final c' then Some (numbers, r)
      else if final c then Some (numbers, String c' r) else None
  | String c "" => if final c then Some (numbers, "") else None
  | "" => None
  end.

Fixpoint format_sizes (fuel : nat) (s : string) : list Z :=
  match fuel, s with
  | S n, String "%" r => match format_spec r with
                         | Some (ns, r') => ns ++ format_sizes n r'
                         | None => format_sizes n r
                         end
  | S n, String _ r => format_sizes n r
  | _, _ => []
  end.

Definition is_seq (v : pyval) : bool := match v with PStr _ | PList _ => true | _ => false end.

(** Text size of a string or list result of [op], before computing it. *)
Definition _result_size (op : operator) (left right : pyval) : Z :=
  let ts := text_size MAX_RESULT_SIZE in
  match op with
  | Mult =>
      let '(s, count) := match _is_int right with Some _ => (left, right) | None => (right, left) end in
      match _is_int count with
      | Some n => if is_seq s && (0 <? n) then ts s * n else 0
      | None => 0
      end
  | Add => if is_seq left && is_seq right then ts left + ts right else 0
  | Mod => match left with
           | PStr s => Z.of_nat (String.length s) + ts right
                       + foldr Z.max 0 (format_sizes (String.length s) s)
           | _ => 0
           end
  | _ => 0
  end.

Definition in_template (e : string) : string := "${" +:+ e +:+ "}".

Definition _check_result_size (op : operator) (left right : pyval) (e : string) : result unit :=
  let too_large limit :=
    Err (ValueTooLargeError ("result of " +:+ in_template e +:+ " would be too large (" +:+ limit +:+ ")")) in
  match _is_int left, _is_int right with
  | Some x, Some y =>
      if _int_result_too_large op x y then too_large "more than 4000 digits" else Ok tt
  | _, _ =>
      if MAX_RESULT_SIZE <? _result_size op left right
      then too_large "more than 1,000,000 characters" else Ok tt
  end.

(** [sep.join(l)] *)
Fixpoint join (sep : string) (l : list string) : string :=
  match l with
  | [] => ""
  | [x] => x
  | x :: r => x +:+ sep +:+ join sep r
  end.

Section eval.
Context `{!PyRepr, !PyArith, !PyExpr}.

Definition suggest_names (name : string) (candidates : list string) : list string :=
  get_close_matches name (filter (fun c => startswith c "_" = false) candidates).

Definition unknown_name_message (name : string) (candidates : list string) : string :=
  match suggest_names name candidates with
  | [] => "Unknown name " +:+ repr_str name
  | close => "Unknown name " +:+ repr_str name +:+ " (did you mean " +:+
             join ", " (repr_str <$> close) +:+ "?)"
  end.

Definition _describe_operand (node : expr) (value : pyval) : option string :=
  match node, value with
  | Name id, PStr s =>
      let shown := if (String.length s <=? 40)%nat then s else String.substring 0 37 s +:+ "..." in
      Some (id +:+ " is the string " +:+ repr_str shown)
  | Name id, PNone => Some (id +:+ " is None")
  | _, _ => None
  end.

Definition _operand_error (e : string) (operands : list (expr * pyval)) (exc : pyexc) : pyexc :=
  match exc with
  | ZeroDivisionError => OperandError (exc_str exc +:+ " in " +:+ in_template e) false
  | _ =>
      let notes := omap (fun '(node, v) => _describe_operand node v) operands in
      let detail := match notes with
                    | [] => " (" +:+ exc_str exc +:+ ")"
                    | _ => ": " +:+ join "; " notes
                    end in
      OperandError ("unsupported operand types in " +:+ in_template e +:+ detail)
        (existsb (fun '(_, v) => is_none v) operands)
  end.

(** [except TypeError] and [except (TypeError, ZeroDivisionError,
    OverflowError)] around an operation *)
Definition catch_type {A} (e : string) (operands : list (expr * pyval)) (r : result A) : result A :=
  match r with
  | Err (TypeError m) => Err (_operand_error e operands (TypeError m))
  | _ => r
  end.

Definition catch_arith {A} (e : string) (operands : list (expr * pyval)) (r : result A) : result A :=
  match r with
  | Err ZeroDivisionError => Err (_operand_error e operands ZeroDivisionError)
  | Err OverflowError => Err (_operand_error e operands OverflowError)
  | _ => catch_type e operands r
  end.

Definition apply_unary (op : unaryop) (v : pyval) : result pyval :=
  match op with
  | UAdd => py_pos v
  | USub => py_neg v
  | Not => Ok (PBool (negb (truthy v)))
  | Invert => Err (ValueError "Unary op not allowed")
  end.

Definition apply_binary (op : operator) (l r : pyval) : result pyval :=
  match op with
  | Add => py_add l r
  | Sub => py_sub l r
  | Mult => py_mul l r
  | Div => py_div l r
  | FloorDiv => py_floordiv l r
  | Mod => py_mod l r
  | Pow => py_pow l r
  | OtherOp => Err (ValueError "Binary op not allowed")
  end.

Definition func_map (name : string) : option (list pyval -> result pyval) :=
  let unary f args := match args with [v] => f v | _ => type_error end in
  if String.eqb name "abs" then Some (unary py_abs)
  else if String.eqb name "len" then Some (unary py_len)
  else if String.eqb name "min" then Some (py_minmax CLt)
  else if String.eqb name "max" then Some (py_minmax CGt)
  else None.

Section eval_node.
Context (e : string) (env : Env).

(** The operands of a failed comparison are described by the leftmost node
    and the current comparator, as the source does. *)
Fixpoint eval_node (node : expr) : result pyval :=
  match node with
  | Constant v => Ok v
  | Name id =>
      match od_get env id with
      | Some v => Ok v
      | None => Err (UnknownNameError (unknown_name_message id (od_keys env)) id)
      end
  | Attribute value attr =>
      base ← eval_node value;
      match base with
      | PDict d =>
          if startswith attr "_" then Err (ValueError "Private attribute access not allowed")
          else match od_get d attr with
               | Some v => Ok v
               | None => Err (ValueError "Attribute access not allowed")
               end
      | _ => Err (ValueError "Attribute access not allowed")
      end
  | UnaryOp op operand =>
      v ← eval_node operand;
      catch_type e [(operand, v)] (apply_unary op v)
  | BinOp lhs op rhs =>
      l ← eval_node lhs;
      r ← eval_node rhs;
      _ ← _check_result_size op l r e;
      catch_arith e [(lhs, l); (rhs, r)] (apply_binary op l r)
  | BoolOp is_and values =>
      vs ← mapM eval_node values;
      Ok (PBool (if is_and then forallb truthy vs else existsb truthy vs))
  | Compare lhs rest =>
      l ← eval_node lhs;
      (fix go (l : pyval) (rest : list (cmpop * expr)) {struct rest} : result pyval :=
        match rest with
        | [] => Ok (PBool true)
        | (op, comparator) :: more =>
            r ← eval_node comparator;
            ok ← catch_type e [(lhs, l); (comparator, r)] (py_compare op l r);
            if ok : bool then go r more else Ok (PBool false)
        end) l rest
  | Call func args has_keywords =>
      match func with
      | Name name =>
          if has_keywords then Err (ValueError "Keyword args not allowed")
          else match func_map name with
               | None => Err (ValueError ("Function " +:+ repr_str name +:+ " not allowed"))
               | Some f =>
                   vs ← mapM eval_node args;
                   catch_type e (zip args vs) (f vs)
               end
      | _ => Err (ValueError "Only simple calls allowed")
      end
  | IfExp test body orelse =>
      t ← eval_node test;
      if truthy t then eval_node body else eval_node orelse
  | OtherNode => Err (ValueError "Unsupported expression")
  end.
End eval_node.

Definition _eval_expr (e : string) (env : Env) : result pyval :=
  match parse_expr e with
  | inl msg => Err (TemplateError ("Invalid expression " +:+ in_template e +:+ ": " +:+ msg))
  | inr node => eval_node e env node
  end.
End eval.
