(* ===== verification/Conditions.v ===== *)
(** * Templates and conditions ([sequencer/eval.py])

    Filling in [${...}] templates in strings and containers, with the bound
    on nested filling and on the text built, and the evaluation of condition
    objects over the results. *)
From S2P Require Import Prelude PyVal PyNum PyOps Expressions.
#[local] Open Scope Z_scope.

Definition _MAX_TEMPLATE_DEPTH : nat := 16.

(** ** Occurrences of [\$\{([^}]+)\}] *)
Definition template_at (s : string) : option (string * string) :=
  match s with
  | String "$" (String "{" r) =>
      match break_on (Ascii.eqb "}") r with
      | (String c g, Some rest) => Some (String c g, rest)
      | _ => None
      end
  | _ => None
  end.

Fixpoint find_templates (fuel : nat) (s : string) : list string :=
  match fuel, s with
  | S n, String c r =>
      match template_at s with
      | Some (g, rest) => g :: find_templates n rest
      | None => find_templates n r
      end
  | _, _ => []
  end.

Definition template_exprs (s : string) : list string := find_templates (String.length s) s.
Definition has_template (s : string) : bool :=
  match template_exprs s with [] => false | _ => true end.

(** The single match that spans the whole string. *)
Definition full_template (s : string) : option string :=
  match template_at s with Some (g, "") => Some g | _ => None end.

(** ** [s.count(token)] and [s.replace(token, new)] *)
Fixpoint drop_prefix (p s : string) : option string :=
  match p, s with
  | "", _ => Some s
  | String a p', String b s' => if Ascii.eqb a b then drop_prefix p' s' else None
  | _, _ => None
  end.

Fixpoint split_on (fuel : nat) (token s : string) : list string :=
  match fuel, s with
  | S n, String c r =>
      match drop_prefix token s with
      | Some rest => "" :: split_on n token rest
      | None => match split_on n token r with
                | x :: l => String c x :: l
                | [] => [String c ""]
                end
      end
  | _, _ => [s]
  end.

Definition py_split (token s : string) : list string := split_on (String.length s) token s.
Definition py_count (token s : string) : Z := Z.of_nat (length (py_split token s)) - 1.
Definition py_replace (token new s : string) : string := join new (py_split token s).

Example template_examples :
  template_exprs "a ${x.v} ${}${y}" = ["x.v"; "y"] /\ full_template "${x}" = Some "x" /\
  full_template "${x} " = None /\ template_exprs "${a" = [] /\
  py_replace "ab" "-" "abcabab" = "-c--" /\ py_count "ab" "abcabab" = 3.
Proof. by vm_compute. Qed.

Section render.
Context `{!PyRepr, !PyArith, !PyExpr}.
Context (env : Env).

Section fill.
Context (nested : string -> result pyval).

Definition nested_value (v : pyval) : result pyval :=
  match v with
  | PStr r => if has_template r then nested r else Ok v
  | _ => Ok v
  end.

Definition fill_error (e : string) : pyexc :=
  ValueTooLargeError ("text with " +:+ in_template e +:+
    " filled in would be too large (more than 1,000,000 characters)").

(** The loop over the matches of a string, on the text built so far. *)
Fixpoint fill (exprs : list string) (out : string) : result string :=
  match exprs with
  | [] => Ok out
  | e :: more =>
      v ← _eval_expr e env;
      replacement ← nested_value v;
      let token := in_template e in
      if MAX_RESULT_SIZE <? Z.of_nat (String.length out)
                            + py_count token out * text_size MAX_RESULT_SIZE replacement
      then Err (fill_error e)
      else fill more (py_replace token (py_str replacement) out)
  end.
End fill.

(** [_render_templates] of a string; [n] counts down from
    [_MAX_TEMPLATE_DEPTH + 1], so that [0] is a depth beyond the maximum. *)
Fixpoint render_str (n : nat) (s : string) : result pyval :=
  match n with
  | O => Ok (PStr s)
  | S n' =>
      match template_exprs s, full_template s with
      | [], _ => Ok (PStr s)
      | _, Some e =>
          out ← _eval_expr e env;
          match out with
          | PStr o => if negb (String.eqb o s) && has_template o then render_str n' o else Ok out
          | _ => Ok out
          end
      | exprs, None =>
          out ← fill (render_str n') exprs s;
          if negb (String.eqb out s) && has_template out then render_str n' out else Ok (PStr out)
      end
  end.

Definition render_top (s : string) : result pyval := render_str (S _MAX_TEMPLATE_DEPTH) s.

Definition built_error : pyexc :=
  ValueTooLargeError "value would be too large once filled in (more than 1,000,000 characters)".

(** A rendered key, and that it does not repeat an earlier one. *)
Definition render_key (k : string) (out : Env) : result string :=
  if has_template k then
    v ← render_top k;
    let key := py_str v in
    if dhas out key
    then Err (TemplateError ("templated key renders to duplicate key " +:+ repr_str key))
    else Ok key
  else Ok k.

(** [_render_templates] of any value at depth 0 together with the size of
    the text built for it ([_render_container]). *)
Fixpoint render (v : pyval) : result (pyval * Z) :=
  match v with
  | PStr s =>
      r ← render_top s;
      Ok (r, match r with
             | PStr t => if String.eqb t s then 0 else Z.of_nat (String.length t)
             | _ => 0
             end)
  | PList l =>
      (fix go (l : list pyval) (out : list pyval) (built : Z) : result (pyval * Z) :=
        match l with
        | [] => Ok (PList out, built)
        | x :: rest =>
            '(rendered, size) ← render x;
            if MAX_RESULT_SIZE <? built + size then Err built_error
            else go rest (out ++ [rendered]) (built + size)
        end) l [] (Z.of_nat (length l))
  | PDict d =>
      (fix go (d : Env) (out : Env) (built : Z) : result (pyval * Z) :=
        match d with
        | [] => Ok (PDict out, built)
        | (k, x) :: rest =>
            key ← render_key k out;
            '(rendered, size) ← render x;
            if MAX_RESULT_SIZE <? built + size then Err built_error
            else go rest (od_set out key rendered) (built + size)
        end) d [] (Z.of_nat (length d))
  | _ => Ok (v, 0)
  end.

Definition render_templates (v : pyval) : result pyval := fst <$> render v.

(** ** Conditions *)
Definition repr (v : pyval) : string := match v with PStr s => repr_str s | _ => py_str v end.

Definition symbol (op : cmpop) : string :=
  match op with CGt => ">" | CGtE => ">=" | CLt => "<" | _ => "<=" end.

Definition _compare (op : cmpop) (a b : pyval) : result bool :=
  match py_order op a b with
  | Err (TypeError m) =>
      Err (OperandError ("cannot compare " +:+ repr a +:+ " " +:+ symbol op +:+ " " +:+ repr b +:+
                         " (" +:+ m +:+ ")") (is_none a || is_none b))
  | r => r
  end.

Definition compare_rendered (f : pyval -> pyval -> result bool) (operands : pyval) : result bool :=
  '(a, b) ← unpack2 operands;
  x ← render_templates a;
  y ← render_templates b;
  f x y.

Definition abs_lt (operands : pyval) : result bool :=
  '(a, b) ← unpack2 operands;
  x ← render_templates a;
  av ← match py_abs x with
       | Err (TypeError m) =>
           Err (OperandError ("cannot take abs() of " +:+ repr x +:+ " (" +:+ m +:+ ")") (is_none x))
       | r => r
       end;
  y ← render_templates b;
  _compare CLt av y.

(** [bool(render_templates(cond, env))] *)
Definition truth (cond : pyval) : result bool := truthy <$> render_templates cond.

(** [all(...)] and [any(...)] over a generator: evaluation stops at the first
    item that decides. *)
Fixpoint all_results (l : list (unit -> result bool)) : result bool :=
  match l with
  | [] => Ok true
  | f :: r => b ← f tt; if b : bool then all_results r else Ok false
  end.

Fixpoint any_results (l : list (unit -> result bool)) : result bool :=
  match l with
  | [] => Ok false
  | f :: r => b ← f tt; if b : bool then Ok true else any_results r
  end.

(** An operand of a condition object with the evaluation of itself and of
    the items it iterates over. *)
Record operand := mkOperand {
  o_raw : pyval;
  o_self : unit -> result bool;
  o_items : result (list (unit -> result bool))
}.

(** The operators in the order of the source's tests. *)
Definition eval_object (d : Env) (ops : list (string * operand)) : result bool :=
  let op name (f : operand -> result bool) (next : result bool) :=
    match od_get ops name with Some o => f o | None => next end in
  let cmp name f := op name (fun o => compare_rendered f (o_raw o)) in
  op "always" (fun o =>
    if (length d =? 1)%nat then truth (o_raw o)
    else Err (ValueError "always must be the only condition operator")) (
  cmp "eq" (fun a b => Ok (py_eqb a b)) (
  cmp "ne" (fun a b => Ok (negb (py_eqb a b))) (
  cmp "gt" (_compare CGt) (
  cmp "ge" (_compare CGtE) (
  cmp "lt" (_compare CLt) (
  cmp "le" (_compare CLtE) (
  op "and" (fun o => l ← o_items o; all_results l) (
  op "or" (fun o => l ← o_items o; any_results l) (
  op "not" (fun o => negb <$> o_self o tt) (
  op "abs_lt" (fun o => abs_lt (o_raw o)) (
  Ok false))))))))))).

Fixpoint eval_condition (cond : pyval) : result bool :=
  match cond with
  | PBool b => Ok b
  | PInt _ | PFloat _ | PStr _ => truth cond
  | PDict d =>
      eval_object d
        ((fix operands (d : Env) : list (string * operand) :=
           match d with
           | [] => []
           | (k, v) :: r =>
               (k, mkOperand v (fun _ => eval_condition v)
                     (match v with
                      | PList l => Ok ((fix items (l : list pyval) : list (unit -> result bool) :=
                                          match l with
                                          | [] => []
                                          | c :: l' => (fun _ => eval_condition c) :: items l'
                                          end) l)
                      | _ => fmap (M := result) (fmap (M := list) (fun c (_ : unit) => truth c)) (py_iter v)
                      end)) :: operands r
           end) d)
  | _ => Ok false
  end.

(** The evaluation of an operand, as a function of its value. *)
Definition items_of (v : pyval) : result (list (unit -> result bool)) :=
  match v with
  | PList l => Ok ((fun c (_ : unit) => eval_condition c) <$> l)
  | _ => fmap (M := result) (fmap (M := list) (fun c (_ : unit) => truth c)) (py_iter v)
  end.

Definition operand_of (v : pyval) : operand := mkOperand v (fun _ => eval_condition v) (items_of v).

Lemma eval_condition_dict d :
  eval_condition (PDict d) = eval_object d (prod_map id operand_of <$> d).
Proof.
  cbn. f_equal. induction d as [|[k v] r IH]; [done|]. cbn. rewrite <- IH. by destruct v.
Qed.

Lemma od_get_operands (d : Env) k : od_get (prod_map id operand_of <$> d) k = operand_of <$> od_get d k.
Proof. induction d as [|[k' v] r IH]; [done|]. cbn. case_decide; [done|]. exact IH. Qed.
End render.
