(* ===== verification/EvalTheorems.v ===== *)
(** * Limits of expressions and templates *)
From S2P Require Import Prelude PyVal PyNum PyOps Expressions Conditions.
#[local] Open Scope Z_scope.

(** ** Sizes, counted in full *)
Fixpoint full_size (v : pyval) : Z :=
  match v with
  | PStr s => Z.of_nat (String.length s)
  | PInt z => bit_length z / 3 + 1
  | PList l => Z.of_nat (length l) + foldr (fun x n => full_size x + n) 0 l
  | PDict d => Z.of_nat (length d) +
      (fix go d := match d with
        | [] => 0
        | (k, x) :: r => Z.of_nat (String.length k) + (full_size x + go r)
        end) d
  | _ => 8
  end.

Definition sum_sizes (l : list pyval) : Z := foldr (fun x n => full_size x + n) 0 l.

Fixpoint full_size_nonneg v : 0 <= full_size v.
Proof.
  destruct v as [| |z| |s|l|d]; cbn; try lia.
  - pose proof (bit_length_nonneg z). pose proof (Z.div_pos (bit_length z) 3). lia.
  - induction l as [|x l IH]; cbn; [lia|]. pose proof (full_size_nonneg x). cbn in IH. lia.
  - induction d as [|[k x] d IH]; cbn; [lia|]. pose proof (full_size_nonneg x). lia.
Qed.

Lemma sum_sizes_nonneg l : 0 <= sum_sizes l.
Proof. induction l as [|x l IH]; cbn; [lia|]. pose proof (full_size_nonneg x). unfold sum_sizes in IH. lia. Qed.

Lemma sum_sizes_app l k : sum_sizes (l ++ k) = sum_sizes l + sum_sizes k.
Proof. induction l as [|x l IH]; cbn; [done|]. unfold sum_sizes in *. lia. Qed.

(** Counting up to the limit: exact below it, above it otherwise. *)
Definition counted (lim counted_size full : Z) : Prop :=
  counted_size = full \/ lim < counted_size /\ lim < full.

Fixpoint text_size_counted lim v : counted lim (text_size lim v) (full_size v).
Proof.
  destruct v as [| |z| |s|l|d]; try (by left).
  - cbn. assert (0 <= Z.of_nat (length l)) as Ht by lia. revert Ht. generalize (Z.of_nat (length l)).
    induction l as [|x l IH]; intros total Ht; cbn; [left; lia|].
    pose proof (text_size_counted lim x) as Hx. pose proof (full_size_nonneg x). pose proof (sum_sizes_nonneg l) as Hs.
    unfold sum_sizes in Hs. destruct (Z.ltb_spec lim (total + text_size lim x)).
    + right. destruct Hx as [Hx|Hx]; lia.
    + destruct Hx as [Hx|Hx]; [|lia]. rewrite Hx in *. destruct (IH (total + full_size x)); [lia|left; lia|right; lia].
  - cbn. assert (0 <= Z.of_nat (length d)) as Ht by lia. revert Ht. generalize (Z.of_nat (length d)).
    induction d as [|[k x] d IH]; intros total Ht; cbn; [left; lia|].
    pose proof (text_size_counted lim x) as Hx. pose proof (full_size_nonneg x).
    pose proof (full_size_nonneg (PDict d)) as Hs. cbn in Hs.
    assert (0 <= (fix go d := match d with
        | [] => 0
        | (k, x) :: r => Z.of_nat (String.length k) + (full_size x + go r)
        end) d) as Hs'.
    { clear. induction d as [|[k x] d IH]; [lia|]. pose proof (full_size_nonneg x). lia. }
    destruct (Z.ltb_spec lim (total + Z.of_nat (String.length k))); [right; lia|].
    destruct (Z.ltb_spec lim (total + Z.of_nat (String.length k) + text_size lim x)).
    + right. destruct Hx as [Hx|Hx]; lia.
    + destruct Hx as [Hx|Hx]; [|lia]. rewrite Hx in *.
      destruct (IH (total + Z.of_nat (String.length k) + full_size x)); [lia|left; lia|right; lia].
Qed.

(** A value whose text fits. *)
Definition small (v : pyval) : Prop := text_size MAX_RESULT_SIZE v <= MAX_RESULT_SIZE.

Lemma small_full v : small v <-> full_size v <= MAX_RESULT_SIZE.
Proof. unfold small. destruct (text_size_counted MAX_RESULT_SIZE v); lia. Qed.

Lemma small_size v : small v -> text_size MAX_RESULT_SIZE v = full_size v.
Proof. unfold small. destruct (text_size_counted MAX_RESULT_SIZE v); lia. Qed.

Lemma text_full_le v n : text_size MAX_RESULT_SIZE v + n <= MAX_RESULT_SIZE -> 0 <= n ->
  full_size v + n <= MAX_RESULT_SIZE.
Proof. destruct (text_size_counted MAX_RESULT_SIZE v); lia. Qed.

Lemma full_size_app l k : full_size (PList (l ++ k)) = full_size (PList l) + full_size (PList k).
Proof.
  change (Z.of_nat (length (l ++ k)) + sum_sizes (l ++ k) =
          Z.of_nat (length l) + sum_sizes l + (Z.of_nat (length k) + sum_sizes k)).
  rewrite length_app, sum_sizes_app. lia.
Qed.

Lemma full_size_repeat_list n l :
  full_size (PList (concat (replicate n l))) = Z.of_nat n * full_size (PList l).
Proof. induction n as [|n IH]; [done|]. cbn [replicate concat]. rewrite full_size_app, IH. lia. Qed.

Lemma str_app_length a b : String.length (a +:+ b) = (String.length a + String.length b)%nat.
Proof. induction a as [|c a IH]; [done|]. exact (f_equal S IH). Qed.

Lemma full_size_repeat_str n s : full_size (PStr (str_repeat n s)) = Z.of_nat n * full_size (PStr s).
Proof. induction n as [|n IH]; [done|]. cbn [str_repeat full_size] in *. rewrite str_app_length. lia. Qed.

Lemma seq_mul_size s n v : seq_mul s n = Ok v -> full_size v = Z.of_nat (Z.to_nat n) * full_size s.
Proof.
  destruct s; try discriminate; intros [= <-]; [apply full_size_repeat_str|apply full_size_repeat_list].
Qed.

(** ** Operators *)
Lemma mul_too_large x y : _int_result_too_large Mult x y = false -> Z.abs (x * y) < 2 ^ (_MAX_INT_BITS + 1).
Proof.
  unfold _int_result_too_large. intros Hb%Z.ltb_ge. rewrite Z.abs_mul.
  pose proof (bit_length_bound x). pose proof (bit_length_bound y).
  pose proof (bit_length_nonneg x). pose proof (bit_length_nonneg y).
  apply Z.lt_le_trans with (2 ^ bit_length x * 2 ^ bit_length y).
  - destruct (Z.eq_dec x 0) as [->|]; [rewrite Z.mul_0_l; apply Z.mul_pos_pos; apply Z.pow_pos_nonneg; lia|].
    apply Z.mul_lt_mono_nonneg; lia.
  - rewrite <- Z.pow_add_r by lia. apply Z.pow_le_mono_r; lia.
Qed.

Lemma pow_too_large x y : 0 <= y -> _int_result_too_large Pow x y = false -> Z.abs (x ^ y) < 2 ^ (_MAX_INT_BITS + 1).
Proof.
  intros Hy. unfold _int_result_too_large.
  assert (2 ^ 1 <= 2 ^ (_MAX_INT_BITS + 1)) as H2 by (apply Z.pow_le_mono_r; unfold _MAX_INT_BITS; lia).
  rewrite Z.abs_pow. destruct (Z.leb_spec y 0); cbn [orb].
  { intros _. replace y with 0 by lia. rewrite Z.pow_0_r. change (2 ^ 1) with 2 in H2. lia. }
  destruct (Z.leb_spec (Z.abs x) 1).
  { intros _. assert (Z.abs x ^ y <= 1 ^ y) by (apply Z.pow_le_mono_l; lia). rewrite Z.pow_1_l in * by lia.
    change (2 ^ 1) with 2 in H2. lia. }
  intros [_ Hb%Z.ltb_ge]%orb_false_iff.
  assert (2 ^ _MAX_INT_BITS < 2 ^ (_MAX_INT_BITS + 1)) by (apply Z.pow_lt_mono_r; unfold _MAX_INT_BITS; lia). lia.
Qed.

Section operators.
Context `{HR : !PyRepr, HA : !PyArith}.

Lemma num_op_not_seq fi ff a b v :
  (forall x y w, fi x y = Ok w -> is_seq w = false) -> (forall x y w, ff x y = Ok w -> is_seq w = false) ->
  num_op fi ff a b = Ok v -> is_seq v = false.
Proof.
  intros Hi Hf. unfold num_op. destruct (as_int a), (as_int b), (py_num a), (py_num b); try discriminate; eauto.
Qed.

Lemma add_small l r v :
  _result_size Add l r <= MAX_RESULT_SIZE -> py_add l r = Ok v -> is_seq v = true -> small v.
Proof.
  rewrite small_full. intros Hs Ha Hv.
  assert (is_seq v = false \/ (exists a b, l = PStr a /\ r = PStr b /\ v = PStr (a +:+ b)) \/
            (exists a b, l = PList a /\ r = PList b /\ v = PList (a ++ b))) as [Hn|Hc].
  { destruct l, r; cbn in Ha; try discriminate; injection Ha as <-; first [by left|right; naive_solver]. }
  { congruence. }
  assert (forall x, 0 <= full_size x) as Hnn by apply full_size_nonneg.
  destruct Hc as [(a & b & -> & -> & ->)|(a & b & -> & -> & ->)].
  - cbn [full_size]. rewrite str_app_length. cbn in Hs. lia.
  - rewrite full_size_app.
    change (text_size MAX_RESULT_SIZE (PList a) + text_size MAX_RESULT_SIZE (PList b) <= MAX_RESULT_SIZE) in Hs.
    pose proof (Hnn (PList a)). pose proof (Hnn (PList b)). assert (0 <= MAX_RESULT_SIZE) by done.
    destruct (text_size_counted MAX_RESULT_SIZE (PList a)), (text_size_counted MAX_RESULT_SIZE (PList b)); lia.
Qed.

(** The sequence and the count of a product. *)
Lemma mul_cases l r v :
  py_mul l r = Ok v -> is_seq v = true ->
  exists s c n, is_seq s = true /\ as_int c = Some n /\ seq_mul s n = Ok v /\
    (l = s /\ r = c \/ l = c /\ r = s).
Proof.
  intros Hm Hv. destruct (is_seq l) eqn:Hl; [|destruct (is_seq r) eqn:Hr].
  - assert (py_mul l r = match as_int r with Some n => seq_mul l n | None => type_error end) as E by (by destruct l).
    rewrite E in Hm. destruct (as_int r) as [n|] eqn:En; [|discriminate]. exists l, r, n. split_and!; auto.
  - assert (py_mul l r = match as_int l with Some n => seq_mul r n | None => type_error end) as E by (by destruct l, r).
    rewrite E in Hm. destruct (as_int l) as [n|] eqn:En; [|discriminate]. exists r, l, n. split_and!; auto.
  - assert (py_mul l r = num_op (fun x y => Ok (PInt (x * y))) (fun x y => Ok (PFloat (fmul x y))) l r) as E
      by (by destruct l, r).
    rewrite E in Hm. apply num_op_not_seq in Hm; [congruence|by intros ??? [= <-]..].
Qed.

Lemma mul_small l r v :
  small l -> small r -> _result_size Mult l r <= MAX_RESULT_SIZE -> py_mul l r = Ok v -> is_seq v = true -> small v.
Proof.
  intros Hl Hr Hs Hm Hv. destruct (mul_cases _ _ _ Hm Hv) as (s & c & n & Hseq & Hc & Hmul & Hlr).
  assert (small s) as Hss by (destruct Hlr as [[<- _]|[_ <-]]; done).
  rewrite small_full. rewrite (seq_mul_size _ _ _ Hmul). pose proof (full_size_nonneg s).
  destruct c as [|b|z| | | |]; try discriminate; cbn in Hc; injection Hc as <-.
  - rewrite small_full in Hss. destruct b; cbn; lia.
  - destruct (Z.ltb_spec 0 z) as [Hz|Hz]; [|rewrite Z2Nat.nonpos by lia; cbn; unfold MAX_RESULT_SIZE; lia].
    rewrite Z2Nat.id by lia.
    assert (_result_size Mult l r = text_size MAX_RESULT_SIZE s * z) as E.
    { unfold _result_size. destruct Hlr as [[-> ->]|[-> ->]].
      - change (_is_int (PInt z)) with (Some z). cbv beta iota zeta. change (_is_int (PInt z)) with (Some z).
        cbv iota. by rewrite Hseq, (proj2 (Z.ltb_lt _ _) Hz).
      - assert (_is_int s = None) as -> by (by destruct s). cbv beta iota zeta.
        change (_is_int (PInt z)) with (Some z). cbv iota. by rewrite Hseq, (proj2 (Z.ltb_lt _ _) Hz). }
    rewrite E, (small_size _ Hss) in Hs. lia.
Qed.

(** Operators cannot blow a value up: when the size check lets a sum or
    product of values whose text fits through, the string or list it makes
    still fits in [MAX_RESULT_SIZE] characters, and a product or power of
    integers stays below two to the [_MAX_INT_BITS + 1]; what would not is
    refused before it is computed. *)
Theorem operator_results_bounded e op l r v :
  small l -> small r -> _check_result_size op l r e = Ok tt -> apply_binary op l r = Ok v ->
  ((op = Add \/ op = Mult) -> is_seq v = true -> small v) /\
  (forall x y z, (op = Mult \/ op = Pow) -> l = PInt x -> r = PInt y -> v = PInt z ->
     Z.abs z < 2 ^ (_MAX_INT_BITS + 1) \/ y < 0).
Proof.
  intros Hl Hr Hc Ha. split.
  - intros Hop Hv.
    assert (_result_size op l r <= MAX_RESULT_SIZE) as Hs.
    { revert Hc. unfold _check_result_size. destruct (_is_int l) eqn:El, (_is_int r) eqn:Er;
        try (destruct (Z.ltb_spec MAX_RESULT_SIZE (_result_size op l r)); [discriminate|done]).
      destruct l, r; try discriminate. destruct Hop as [-> | ->]; cbn; unfold MAX_RESULT_SIZE; lia. }
    destruct Hop as [-> | ->]; [exact (add_small l r v Hs Ha Hv)|exact (mul_small l r v Hl Hr Hs Ha Hv)].
  - intros x y z Hop -> -> ->. unfold _check_result_size in Hc. cbn [_is_int] in Hc.
    destruct (_int_result_too_large op x y) eqn:E; [discriminate|].
    destruct Hop as [-> | ->]; cbn in Ha.
    + injection Ha as <-. left. by apply mul_too_large.
    + unfold py_pow, num_op in Ha. cbn [as_int] in Ha. destruct (Z.leb_spec 0 y); [|by right].
      injection Ha as <-. left. by apply pow_too_large.
Qed.
End operators.

Module EvalDemo.
#[local] Existing Instance plain_repr.
#[local] Instance arith : PyArith := {|
  float_pow _ _ := Err OverflowError; str_format _ _ := Err (TypeError "") |}.

Lemma operator_results_bounded_witness :
  small (PStr "abababab") /\
  forall e, _check_result_size Mult (PStr "ab") (PInt 5000) e = Ok tt /\
            exists m, _check_result_size Mult (PStr "ab") (PInt 600000) e = Err m.
Proof.
  split.
  - apply (proj1 (operator_results_bounded "" Mult (PStr "ab") (PInt 4) (PStr "abababab")
      ltac:(by vm_compute) ltac:(by vm_compute) ltac:(by vm_compute) ltac:(by vm_compute))); auto.
  - intros e. split; [by vm_compute|]. eexists. by vm_compute.
Defined.
End EvalDemo.
