(* ===== verification/ExitCodes.v ===== *)
(** * Exit codes of child processes ([utils/exit_codes.py]) *)
From S2P Require Import Prelude PyVal PyNum.
#[local] Open Scope Z_scope.

Inductive platform := Windows | Posix.

Definition _WINDOWS_NTSTATUS_DESCRIPTIONS : list (Z * string) :=
  [ (0x40010005, "DBG_CONTROL_C");
    (0x80000003, "STATUS_BREAKPOINT");
    (0xC0000005, "STATUS_ACCESS_VIOLATION");
    (0xC0000017, "STATUS_NO_MEMORY");
    (0xC0000018, "STATUS_CONFLICTING_ADDRESSES");
    (0xC000001D, "STATUS_ILLEGAL_INSTRUCTION");
    (0xC0000022, "STATUS_ACCESS_DENIED");
    (0xC0000025, "STATUS_NONCONTINUABLE_EXCEPTION");
    (0xC0000026, "STATUS_INVALID_DISPOSITION");
    (0xC0000054, "STATUS_FILE_LOCK_CONFLICT");
    (0xC000008C, "STATUS_ARRAY_BOUNDS_EXCEEDED");
    (0xC000008D, "STATUS_FLOAT_DENORMAL_OPERAND");
    (0xC000008E, "STATUS_FLOAT_DIVIDE_BY_ZERO");
    (0xC000008F, "STATUS_FLOAT_INEXACT_RESULT");
    (0xC0000090, "STATUS_FLOAT_INVALID_OPERATION");
    (0xC0000091, "STATUS_FLOAT_OVERFLOW");
    (0xC0000092, "STATUS_FLOAT_STACK_CHECK");
    (0xC0000093, "STATUS_FLOAT_UNDERFLOW");
    (0xC0000094, "STATUS_INTEGER_DIVIDE_BY_ZERO");
    (0xC0000095, "STATUS_INTEGER_OVERFLOW");
    (0xC0000096, "STATUS_PRIVILEGED_INSTRUCTION");
    (0xC00000FD, "STATUS_STACK_OVERFLOW");
    (0xC00000FE, "STATUS_BAD_STACK");
    (0xC0000135, "STATUS_DLL_NOT_FOUND");
    (0xC0000139, "STATUS_ENTRYPOINT_NOT_FOUND");
    (0xC000013A, "STATUS_CONTROL_C_EXIT");
    (0xC0000142, "STATUS_DLL_INIT_FAILED");
    (0xC0000194, "STATUS_POSSIBLE_DEADLOCK");
    (0xC0000235, "STATUS_HANDLE_NOT_CLOSABLE");
    (0xC000026E, "STATUS_VOLUME_DISMOUNTED");
    (0xC0000374, "STATUS_HEAP_CORRUPTION");
    (0xC0000409, "STATUS_STACK_BUFFER_OVERRUN");
    (0xC0000417, "STATUS_INVALID_CRUNTIME_PARAMETER");
    (0xC000041D, "STATUS_FATAL_USER_CALLBACK_EXCEPTION");
    (0xC0000420, "STATUS_ASSERTION_FAILURE");
    (0xC015000F, "STATUS_SXS_EARLY_DEACTIVATION") ].

(** [signal.Signals(n).name] on Linux: the names of the [signal] module. *)
Definition linux_signals : list (Z * string) :=
  [ (1, "SIGHUP"); (2, "SIGINT"); (3, "SIGQUIT"); (4, "SIGILL"); (5, "SIGTRAP"); (6, "SIGABRT");
    (7, "SIGBUS"); (8, "SIGFPE"); (9, "SIGKILL"); (10, "SIGUSR1"); (11, "SIGSEGV");
    (12, "SIGUSR2"); (13, "SIGPIPE"); (14, "SIGALRM"); (15, "SIGTERM"); (16, "SIGSTKFLT");
    (17, "SIGCHLD"); (18, "SIGCONT"); (19, "SIGSTOP"); (20, "SIGTSTP"); (21, "SIGTTIN");
    (22, "SIGTTOU"); (23, "SIGURG"); (24, "SIGXCPU"); (25, "SIGXFSZ"); (26, "SIGVTALRM");
    (27, "SIGPROF"); (28, "SIGWINCH"); (29, "SIGIO"); (30, "SIGPWR"); (31, "SIGSYS");
    (34, "SIGRTMIN"); (64, "SIGRTMAX") ].

Definition _coerce_int (rc : pyval) : option Z :=
  match rc with
  | PBool b => Some (Z.b2z b)
  | PInt z => Some z
  | PStr s => parse_int s
  | _ => None
  end.

Section exit_codes.
(** The running platform and its signal table. *)
Context (plat : platform) (signals : list (Z * string)).

Definition _posix_signal_name (signum : Z) : string :=
  match od_get signals signum with Some n => n | None => "SIG" +:+ str_Z signum end.

(** [rc & 0xFFFFFFFF] *)
Definition unsigned32 (rc : Z) : Z := Z.land rc 0xFFFFFFFF.

Definition derive_signal_name (rc : pyval) : option string :=
  match _coerce_int rc with
  | None => None
  | Some z =>
      match plat with
      | Windows => od_get _WINDOWS_NTSTATUS_DESCRIPTIONS (unsigned32 z)
      | Posix =>
          if z <? 0 then Some (_posix_signal_name (- z))
          else if (129 <=? z) && (z <=? 192) then od_get signals (z - 128)
          else None
      end
  end.

Definition describe_exit_code (rc : pyval) : option string :=
  match _coerce_int rc with
  | None => None
  | Some z =>
      let name := derive_signal_name (PInt z) in
      match plat with
      | Windows =>
          let u := unsigned32 z in
          match name with
          | Some n => Some (n +:+ " (" +:+ hex8 u +:+ ")")
          | None => if 0x80000000 <=? u then Some ("NTSTATUS " +:+ hex8 u)
                    else Some ("exit code " +:+ str_Z z)
          end
      | Posix =>
          if z <? 0 then
            match name with
            | Some n => Some (n +:+ " (signal " +:+ str_Z (- z) +:+ ")")
            | None => Some ("signal " +:+ str_Z (- z))
            end
          else
            match name with
            | Some n => Some (n +:+ " (exit code " +:+ str_Z z +:+ ")")
            | None => Some ("exit code " +:+ str_Z z)
            end
      end
  end.

Definition exit_code_hex (rc : pyval) : option string :=
  (fun z => hex8 (unsigned32 z)) <$> _coerce_int rc.
End exit_codes.

Lemma unsigned32_mod z : unsigned32 z = z mod 2 ^ 32.
Proof. unfold unsigned32. change 0xFFFFFFFF with (Z.ones 32). by apply Z.land_ones. Qed.

(** The hexadecimal form of an exit code is lossless modulo [2^32]: its
    eight digits read back as the unsigned 32-bit value of the code, for
    signed and unsigned codes alike. *)
Theorem exit_code_hex_reads_back z :
  exists s, exit_code_hex (PInt z) = Some ("0x" +:+ s) /\ String.length s = 8%nat /\
    hex_read s 0 = z mod 2 ^ 32.
Proof.
  eexists. split; [done|]. split; [done|]. rewrite unsigned32_mod.
  rewrite hex_read_digits; [by simpl|]. change (16 ^ Z.of_nat 8) with (2 ^ 32).
  apply Z.mod_pos_bound. lia.
Qed.

(** On Windows a crash code is reported the same way whether [poll]
    returns it signed or unsigned. *)
Theorem windows_code_sign_irrelevant signals z :
  - 2 ^ 31 <= z < 0 ->
  describe_exit_code Windows signals (PInt z) = describe_exit_code Windows signals (PInt (z + 2 ^ 32)) /\
  derive_signal_name Windows signals (PInt z) = derive_signal_name Windows signals (PInt (z + 2 ^ 32)) /\
  exit_code_hex (PInt z) = exit_code_hex (PInt (z + 2 ^ 32)).
Proof.
  intros Hz. assert (unsigned32 (z + 2 ^ 32) = unsigned32 z) as E.
  { rewrite !unsigned32_mod. rewrite <- (Z.mul_1_l (2 ^ 32)) at 1. apply Z_mod_plus_full. }
  assert (0x80000000 <= unsigned32 z) as Hb.
  { rewrite unsigned32_mod, <- (Z_mod_plus_full z 1), Z.mod_small by lia. lia. }
  unfold describe_exit_code, derive_signal_name, exit_code_hex. cbn [_coerce_int fmap option_fmap option_map].
  rewrite E. split_and!; [|done|done]. destruct (od_get _ _); [done|].
  by rewrite (proj2 (Z.leb_le _ _) Hb).
Qed.

Lemma windows_code_sign_irrelevant_witness :
  describe_exit_code Windows linux_signals (PInt (-1073741819)) =
    describe_exit_code Windows linux_signals (PInt 3221225477) /\
  derive_signal_name Windows linux_signals (PInt (-1073741819)) =
    derive_signal_name Windows linux_signals (PInt 3221225477) /\
  exit_code_hex (PInt (-1073741819)) = exit_code_hex (PInt 3221225477).
Proof. apply (windows_code_sign_irrelevant linux_signals (-1073741819)). lia. Defined.

Example exit_code_examples :
  describe_exit_code Windows linux_signals (PInt (-1073741819)) = Some "STATUS_ACCESS_VIOLATION (0xC0000005)" /\
  describe_exit_code Posix linux_signals (PInt (-9)) = Some "SIGKILL (signal 9)" /\
  describe_exit_code Posix linux_signals (PInt 139) = Some "SIGSEGV (exit code 139)" /\
  describe_exit_code Posix linux_signals (PInt 160) = Some "exit code 160" /\
  describe_exit_code Posix linux_signals (PInt 1) = Some "exit code 1".
Proof. by vm_compute. Qed.

(** An unknown signal number is described with an invented name; the plain
    form [signal N] is never produced. *)
Theorem unknown_signal_gets_name signals z :
  z < 0 -> od_get signals (- z) = None ->
  describe_exit_code Posix signals (PInt z) =
    Some ("SIG" +:+ str_Z (- z) +:+ " (signal " +:+ str_Z (- z) +:+ ")").
Proof.
  intros Hz Hn. unfold describe_exit_code, derive_signal_name, _posix_signal_name. cbn [_coerce_int].
  by rewrite (proj2 (Z.ltb_lt _ _) Hz), Hn.
Qed.
