(* ===== verification/Responses.v ===== *)
(** * Command responses ([utils/responses.py])

    The two response conventions of the manager ([ok] and [status]), the
    typed response, and the normalisation applied to every routed command. *)
From S2P Require Import Prelude PyVal.

Section responses.
Context `{!PyRepr}.
#[local] Abbreviation dict := (list (string * pyval)).

Record ErrorPayload := mkError {
  err_code : string;
  err_message : option string;
  err_details : pyval
}.

Record RpcResponse := mkResponse {
  resp_ok : bool;
  resp_result : pyval;
  resp_error : option ErrorPayload;
  resp_include_result : bool
}.

Definition error_to_dict (e : ErrorPayload) : dict :=
  let out := [("code", PStr (err_code e))] in
  let out := match err_message e with Some m => od_set out "message" (PStr m) | None => out end in
  if is_none (err_details e) then out else od_set out "details" (err_details e).

Definition success (r : pyval) : RpcResponse := mkResponse true r None true.

Definition failure (code : string) (message : option string) (details result : pyval)
    (include_result : bool) : RpcResponse :=
  mkResponse false result (Some (mkError code message details)) include_result.

Definition response_to_dict (r : RpcResponse) : dict :=
  let out := [("ok", PBool (resp_ok r))] in
  let out := if resp_include_result r then od_set out "result" (resp_result r) else out in
  match resp_error r with
  | Some e => od_set out "error" (PDict (error_to_dict e))
  | None => out
  end.

(** [d.get(k) is True] *)
Definition is_true (v : pyval) : bool := match v with PBool b => b | _ => false end.

Definition from_driver_status (d : dict) : RpcResponse :=
  if dhas d "ok" then
    if is_true (dget d "ok") then success (dget d "result")
    else
      match dget d "error" with
      | PDict err =>
          failure (py_str (py_or (dget err "code") (PStr "error")))
            (if is_none (dget err "message") then None else Some (py_str (dget err "message")))
            (dget err "details") (dget d "result") (dhas d "result")
      | err => failure "error" (Some (py_str err)) PNone (dget d "result") (dhas d "result")
      end
  else if bool_decide (dget d "status" = PStr "OK") then success (dget d "result")
  else failure "device_error" (Some (py_str (py_or (dget d "error") (PStr "device error"))))
         (PDict d) (dget d "result") true.

Definition ensure_error_shape (resp : pyval) : dict :=
  match resp with
  | PDict d =>
      match dget d "ok", dget d "error" with
      | PBool false, PStr e =>
          od_set d "error" (PDict [("code", PStr "error"); ("message", PStr e)])
      | _, _ => d
      end
  | _ => response_to_dict (failure "invalid_response"
           (Some "router response was not a dict") PNone PNone false)
  end.

Definition normalize_command_response (resp : pyval) : dict :=
  let d := ensure_error_shape resp in
  if dhas d "ok" then d else response_to_dict (from_driver_status d).

Definition is_response_ok (resp : pyval) : bool :=
  match resp with
  | PDict d =>
      if dhas d "ok" then is_true (dget d "ok") else bool_decide (dget d "status" = PStr "OK")
  | _ => false
  end.

Lemma dget_set_eq d k v : dget (od_set d k v) k = v.
Proof. unfold dget. by rewrite od_get_set_eq. Qed.

Lemma dget_set_ne d k k' v : k ≠ k' -> dget (od_set d k v) k' = dget d k'.
Proof. intros. unfold dget. by rewrite od_get_set_ne. Qed.

Lemma dhas_set d k k' v : dhas d k' = true -> dhas (od_set d k v) k' = true.
Proof.
  unfold dhas. destruct (decide (k = k')) as [->|?]; [by rewrite od_get_set_eq|].
  by rewrite od_get_set_ne.
Qed.

Lemma response_ok_key r : dget (response_to_dict r) "ok" = PBool (resp_ok r) /\
  dhas (response_to_dict r) "ok" = true.
Proof.
  unfold response_to_dict. destruct (resp_include_result r), (resp_error r); done.
Qed.

(** Ensuring the error shape touches no key but [error]. *)
Lemma ensure_error_shape_ok d :
  dget (ensure_error_shape (PDict d)) "ok" = dget d "ok" /\
  dhas (ensure_error_shape (PDict d)) "ok" = dhas d "ok" /\
  dget (ensure_error_shape (PDict d)) "status" = dget d "status".
Proof.
  unfold ensure_error_shape. destruct (dget d "ok") as [|[]| | | | |] eqn:E1, (dget d "error");
    rewrite ?E1; try done. rewrite !dget_set_ne, E1 by done. split_and!; try done.
  unfold dhas. by rewrite od_get_set_ne.
Qed.

Lemma from_driver_status_ok d : dhas d "ok" = false ->
  resp_ok (from_driver_status d) = bool_decide (dget d "status" = PStr "OK").
Proof. intros Hk. unfold from_driver_status. rewrite Hk. by case_bool_decide. Qed.

Lemma normalize_has_ok resp : dhas (normalize_command_response resp) "ok" = true.
Proof.
  unfold normalize_command_response. destruct (dhas (ensure_error_shape resp) "ok") eqn:E; [done|].
  apply response_ok_key.
Qed.

(** Normalising a routed response never changes its verdict: the
    normalised dict always carries an [ok] key, and it is judged a success
    exactly when the raw response was. *)
Theorem normalize_preserves_verdict resp :
  dhas (normalize_command_response resp) "ok" = true /\
  is_response_ok (PDict (normalize_command_response resp)) = is_response_ok resp.
Proof.
  split; [apply normalize_has_ok|]. destruct resp as [| | | | | |d]; try done.
  destruct (ensure_error_shape_ok d) as (Hg&Hh&Hs).
  unfold normalize_command_response. cbn [is_response_ok]. rewrite Hh.
  destruct (dhas d "ok") eqn:Hk; [by rewrite Hh, Hg|].
  destruct (response_ok_key (from_driver_status (ensure_error_shape (PDict d)))) as [-> ->].
  cbn [is_true]. rewrite from_driver_status_ok, Hs; done.
Qed.

(** Normalisation is idempotent. *)
Theorem normalize_idempotent resp :
  normalize_command_response (PDict (normalize_command_response resp)) =
  normalize_command_response resp.
Proof.
  assert (forall d, dhas d "ok" = true ->
    match dget d "ok", dget d "error" with PBool false, PStr _ => False | _, _ => True end ->
    normalize_command_response (PDict d) = d) as Hfix.
  { intros d Hk He. unfold normalize_command_response, ensure_error_shape.
    repeat case_match; done. }
  apply Hfix; [apply normalize_has_ok|]. clear Hfix. unfold normalize_command_response.
  destruct (dhas (ensure_error_shape resp) "ok").
  - destruct resp as [| | | | | |d]; try done. unfold ensure_error_shape.
    destruct (dget d "ok") as [|[]| | | | |] eqn:E1, (dget d "error") eqn:E2;
      rewrite ?dget_set_eq, ?dget_set_ne, ?E1, ?E2 by done; done.
  - unfold response_to_dict. by destruct (resp_include_result _), (resp_error _), (resp_ok _).
Qed.
End responses.
