(* ===== verification/ProcessBase.v ===== *)
(** * Managed processes ([processes/process_base.py], [capabilities.py])

    The RPC envelope helpers, the progress record shown in heartbeats, the
    process telemetry bundle and the reply path of the RPC socket. *)
From S2P Require Import Prelude PyVal.

Abbreviation dict := (list (string * pyval)).

(** ** Capability descriptions *)
Record MemberParamSpec := mkParam {
  p_name : string; p_kind : string; p_required : bool; p_default : pyval;
  p_annotation : option string
}.

Record MemberSpec := mkMember {
  mb_name : string; mb_kind : string; mb_readable : bool; mb_settable : bool;
  mb_value_annotation : option string; mb_doc : option string;
  mb_params : option (list MemberParamSpec); mb_return_annotation : option string;
  mb_source : string
}.

Definition param (name : string) (required : bool) (dflt : pyval) (annotation : option string)
    : MemberParamSpec :=
  mkParam name "POSITIONAL_OR_KEYWORD" required dflt annotation.

Definition method (name : string) (params : option (list MemberParamSpec)) (doc : option string)
    : MemberSpec :=
  mkMember name "method" true false None doc params None "process".

Definition param_to_json (p : MemberParamSpec) : pyval :=
  PDict [("name", PStr (p_name p)); ("kind", PStr (p_kind p)); ("required", PBool (p_required p));
         ("default", p_default p); ("annotation", opt_str (p_annotation p))].

Definition member_to_json (m : MemberSpec) : pyval :=
  PDict [("name", PStr (mb_name m)); ("kind", PStr (mb_kind m));
         ("readable", PBool (mb_readable m)); ("settable", PBool (mb_settable m));
         ("value_annotation", opt_str (mb_value_annotation m)); ("doc", opt_str (mb_doc m));
         ("params", match mb_params m with
                    | Some ps => PList (param_to_json <$> ps)
                    | None => PNone
                    end);
         ("return_annotation", opt_str (mb_return_annotation m)); ("source", PStr (mb_source m))].

Definition capabilities_payload (members : list MemberSpec) : pyval :=
  PDict [("version", PInt 1); ("members", PList (member_to_json <$> members))].

Definition _common_capability_methods : list MemberSpec :=
  [method "process.stop" None (Some "Request graceful process stop.")].

Definition _with_common_capabilities (members : list MemberSpec) : list MemberSpec :=
  let names := mb_name <$> members in
  foldl (fun out item =>
    if nonempty (mb_name item) && negb (bool_decide (mb_name item ∈ names))
    then out ++ [item] else out) members _common_capability_methods.

(** ** RPC envelopes *)
Definition _rpc_request_id (req : pyval) : pyval :=
  match req with PDict d => dget d "request_id" | v => v end.

Definition rpc_ok (req result : pyval) : dict :=
  [("request_id", _rpc_request_id req); ("ok", PBool true); ("result", result)].

(** [dict.update] *)
Definition dict_update (d extra : dict) : dict := foldl (fun acc '(k, v) => od_set acc k v) d extra.

Definition rpc_err (req : pyval) (code : string) (message : option string) (extra : dict) : dict :=
  let err := [("code", PStr code)] in
  let err := match message with Some m => od_set err "message" (PStr m) | None => err end in
  [("request_id", _rpc_request_id req); ("ok", PBool false); ("error", PDict (dict_update err extra))].

Definition rpc_unknown (req : pyval) : dict := rpc_err req "unknown_request" None [].

Definition rpc_invalid_params (req : pyval) (message : option string) : dict :=
  rpc_err req "invalid_params" message [].

Section common_rpc.
Context `{!PyRepr} {S : Type}.
(** [_graceful_stop], which subclasses override; [exc_text] is [str(e)]. *)
Context (graceful_stop : pyM S unit) (exc_text : pyexc -> string).

Definition _handle_common_rpc (req : dict) : pyM S (option dict) := fun s =>
  let rtype := py_str (dget_or req "type" (PStr "")) in
  if String.eqb rtype "process.stop" then
    match graceful_stop s with
    | (Ok _, s') => (Ok (Some (rpc_ok (PDict req) (PDict [("status", PStr "stopping")]))), s')
    | (Err e, s') => (Ok (Some (rpc_err (PDict req) "stop_failed" (Some (exc_text e)) [])), s')
    end
  else (Ok None, s).
End common_rpc.

(** ** Progress, as reported in heartbeats *)
Record progress := mkProgress {
  pr_phase : option string;
  pr_phase_detail : option string;
  pr_last_progress : option (pyval * pyval);   (* wall, monotonic *)
  pr_last_exception : option string;
  pr_last_traceback_summary : option string
}.

Definition progress0 : progress := mkProgress None None None None None.

(** [phase or ""] then [str(...).strip() or None] *)
Definition _set_phase (phase : string) (detail : option string) (p : progress) : progress :=
  mkProgress (or_none (strip phase)) (detail ≫= fun d => or_none (strip d))
    (pr_last_progress p) (pr_last_exception p) (pr_last_traceback_summary p).

Definition _mark_progress (now_wall now_mono : pyval) (detail : option string) (p : progress)
    : progress :=
  let detail_text := detail ≫= fun d => or_none (strip d) in
  mkProgress (pr_phase p)
    (match detail_text with Some d => Some d | None => pr_phase_detail p end)
    (Some (now_wall, now_mono)) (pr_last_exception p) (pr_last_traceback_summary p).

(** [s[-n:]] *)
Definition str_tail (n : nat) (s : string) : string :=
  String.substring (String.length s - n) n s.

Definition _record_exception (summary tb : string) (phase : option string) (p : progress) : progress :=
  let p := match phase with Some ph => _set_phase ph None p | None => p end in
  let tb := if (2000 <? String.length tb)%nat then str_tail 2000 tb else tb in
  mkProgress (pr_phase p) (pr_phase_detail p) (pr_last_progress p) (Some summary) (Some tb).

Definition _heartbeat_extra_fields (p : progress) : dict :=
  let opt k (o : option pyval) (d : dict) := match o with Some v => od_set d k v | None => d end in
  let out := opt "phase" (PStr <$> pr_phase p) [] in
  let out := opt "detail" (PStr <$> pr_phase_detail p) out in
  let out := opt "last_progress_wall" (fst <$> pr_last_progress p) out in
  let out := opt "last_progress_mono" (snd <$> pr_last_progress p) out in
  let out := opt "last_exception" (PStr <$> pr_last_exception p) out in
  opt "last_traceback_summary" (PStr <$> pr_last_traceback_summary p) out.

(** The body of a [with self._phase_context(...)] block. *)
Definition _phase_context (phase : string) (detail : option string) (now_wall now_mono : pyval)
    (describe : pyexc -> string * string) (body : progress -> result unit * progress)
    : progress -> result unit * progress := fun p =>
  match body (_set_phase phase detail p) with
  | (Ok u, p') => (Ok u, _mark_progress now_wall now_mono None p')
  | (Err e, p') =>
      (Err e, _record_exception (fst (describe e)) (snd (describe e)) (Some phase) p')
  end.

(** ** Process telemetry bundles *)
Section telemetry.
Context `{!PyRepr}.

Definition units_map (schema : list dict) : dict :=
  foldl (fun acc entry =>
    match dget entry "name" with
    | PStr name =>
        od_set acc name (PStr (py_str (py_or (dget_or entry "units" (PStr "")) (PStr ""))))
    | _ => acc
    end) [] schema.

(** [d.setdefault(k, v)] *)
Definition setdefault (d : dict) (k : string) (v : pyval) : dict :=
  if dhas d k then d else od_set d k v.

Definition telemetry_signal (units : dict) (quality : string) (ts : pyval)
    (name : string) (v : pyval) : dict :=
  let fresh := [("value", v); ("units", dget_or units name (PStr ""));
                ("quality", PStr quality); ("ts", ts)] in
  match v with
  | PDict sig =>
      if dhas sig "value" then
        setdefault (setdefault (setdefault sig "units" (dget_or units name (PStr "")))
          "quality" (PStr quality)) "ts" ts
      else fresh
  | _ => fresh
  end.

(** The counter is [_process_telemetry_seq]; [bundle_ts] is the pair of
    clock readings taken for the bundle. *)
Definition _build_process_telemetry_payload (schema : list dict) (signals : dict)
    (quality : string) (bundle_ts : pyval) : pyM Z dict := fun seq =>
  let units := units_map schema in
  let out := foldl (fun acc '(name, v) =>
    od_set acc name (PDict (telemetry_signal units quality bundle_ts name v))) [] signals in
  let seq := seq + 1 in
  (Ok [("version", PInt 1); ("seq", PInt seq); ("signals", PDict out); ("ts", bundle_ts)], seq).

Lemma dhas_setdefault d k v k' : dhas (setdefault d k v) k' = dhas d k' || bool_decide (k = k').
Proof.
  unfold setdefault, dhas. destruct (decide (k = k')) as [->|Hne].
  - rewrite (bool_decide_eq_true_2 (k' = k')), orb_true_r by done.
    destruct (od_get d k') eqn:E; [by rewrite E|by rewrite od_get_set_eq].
  - rewrite (bool_decide_eq_false_2 (k = k')), orb_false_r by done.
    destruct (od_get d k); [done|by rewrite od_get_set_ne].
Qed.

Lemma telemetry_signal_keys units q ts name v k :
  k ∈ ["value"; "units"; "quality"; "ts"] -> dhas (telemetry_signal units q ts name v) k = true.
Proof.
  intros Hk. unfold telemetry_signal.
  assert (dhas [("value", v); ("units", dget_or units name (PStr ""));
            ("quality", PStr q); ("ts", ts)] k = true) as Hf
    by (repeat (apply elem_of_cons in Hk as [-> | Hk]; [done|]); by apply not_elem_of_nil in Hk).
  destruct v as [| | | | | |sig]; try exact Hf. destruct (dhas sig "value") eqn:Hv; [|exact Hf].
  rewrite !dhas_setdefault.
  repeat (apply elem_of_cons in Hk as [-> | Hk];
    [rewrite ?Hv, ?(bool_decide_eq_true_2 (_ = _)), ?orb_true_r by done; done|]).
  by apply not_elem_of_nil in Hk.
Qed.

Lemma bundle_signals (f : string -> pyval -> pyval) (signals acc : dict) :
  od_wf (acc ++ signals) ->
  foldl (fun a '(name, v) => od_set a name (f name v)) acc signals =
  acc ++ ((fun '(name, v) => (name, f name v)) <$> signals).
Proof.
  revert acc. induction signals as [|[k v] r IH]; intros acc Hwf; simpl; [by rewrite app_nil_r|].
  unfold od_wf in Hwf. rewrite od_keys_app in Hwf. apply NoDup_app in Hwf as (Ha&Hd&Hr).
  rewrite od_set_new by (intros Hk; apply (Hd _ Hk); left). rewrite IH; [by rewrite <- app_assoc|].
  unfold od_wf. rewrite !od_keys_app. simpl in Hr. apply NoDup_cons in Hr as [Hk Hr].
  rewrite NoDup_app. split_and!.
  - apply NoDup_app. split_and!; [done| |apply NoDup_singleton].
    intros x Hx ->%list_elem_of_singleton. apply (Hd _ Hx). left.
  - intros x [Hx|Hx]%elem_of_app Hx'; [apply (Hd _ Hx); by right|].
    apply list_elem_of_singleton in Hx. by subst.
  - done.
Qed.
End telemetry.

(** ** The reply path of the RPC socket

    [loads] and [dumps] are the JSON codec, [handle] the subclass's
    [_handle_rpc]; an uncaught exception other than [NotImplementedError] is
    [HFail] with its text. *)
Inductive handler_outcome :=
| HReply (resp : pyval)
| HNotImplemented
| HFail (text : string).

Section drain.
Context {S P : Type} (loads : P -> result pyval) (dumps : pyval -> result P).
Context (handle : dict -> S -> handler_outcome * S) (exc_text : pyexc -> string).

Definition error_reply (id : pyval) (err : dict) : pyval :=
  PDict [("request_id", id); ("ok", PBool false); ("error", PDict err)].

Definition rpc_reply (payload : P) : S -> pyval * S := fun s =>
  match loads payload with
  | Ok (PDict req) =>
      match handle req s with
      | (HReply resp, s') => (resp, s')
      | (HNotImplemented, s') =>
          (error_reply (dget req "request_id") [("code", PStr "not_implemented")], s')
      | (HFail text, s') =>
          (error_reply (dget req "request_id")
             [("code", PStr "rpc_exception"); ("message", PStr text)], s')
      end
  | _ => (error_reply PNone [("code", PStr "bad_request")], s)
  end.

(** The payload sent back; [None] when the socket had nothing to read. *)
Definition _drain_rpc (received : option P) : pyM S (option P) := fun s =>
  match received with
  | None => (Ok None, s)
  | Some payload =>
      let '(resp, s') := rpc_reply payload s in
      match dumps resp with
      | Ok out => (Ok (Some out), s')
      | Err e =>
          let id := match resp with PDict d => dget d "request_id" | _ => PNone end in
          match dumps (error_reply id [("code", PStr "unserializable_result");
                                       ("message", PStr (exc_text e))]) with
          | Ok out => (Ok (Some out), s')
          | Err e' => (Err e', s')
          end
      end
  end.

(** Every request read from the RPC socket is answered exactly once,
    whatever the handler does (a reply, [NotImplementedError], any other
    exception, a result that does not serialise), and the reply carries the
    request's id, so the caller never waits for its timeout.  [dumps] need
    only serialise error envelopes, and the handler echo the id. *)
Theorem drain_rpc_answers payload req s :
  loads payload = Ok (PDict req) ->
  (forall err, exists out, dumps (error_reply (dget req "request_id") err) = Ok out) ->
  (forall resp s', handle req s = (HReply resp, s') ->
     exists d, resp = PDict d /\ dget d "request_id" = dget req "request_id") ->
  exists out d s', _drain_rpc (Some payload) s = (Ok (Some out), s') /\
    dumps (PDict d) = Ok out /\ dget d "request_id" = dget req "request_id".
Proof.
  intros Hl Hd Hh. unfold _drain_rpc, rpc_reply. rewrite Hl.
  destruct (handle req s) as [[resp| |text] s'] eqn:E.
  - destruct (Hh _ _ eq_refl) as (d&->&Hid). destruct (dumps (PDict d)) as [out|e] eqn:Ed;
      [by exists out, d, s'|]. rewrite Hid.
    destruct (Hd [("code", PStr "unserializable_result"); ("message", PStr (exc_text e))])
      as [out Ho]. rewrite Ho. by eexists _, _, _.
  - destruct (Hd [("code", PStr "not_implemented")]) as [out Ho]. rewrite Ho. by eexists _, _, _.
  - destruct (Hd [("code", PStr "rpc_exception"); ("message", PStr text)]) as [out Ho].
    rewrite Ho. by eexists _, _, _.
Qed.
End drain.

Lemma drain_rpc_answers_witness :
  exists out d s', @_drain_rpc nat pyval Ok Ok (fun _ n => (HFail "boom", S n)) (fun _ => "")
      (Some (PDict [("request_id", PInt 7)])) 0%nat = (Ok (Some out), s') /\
    Ok (PDict d) = Ok out /\ dget d "request_id" = PInt 7.
Proof.
  apply (drain_rpc_answers Ok Ok (fun _ n => (HFail "boom", S n)) (fun _ => "")
    (PDict [("request_id", PInt 7)]) [("request_id", PInt 7)] 0%nat); [done|by eexists|done].
Defined.

Section telemetry_theorem.
Context `{!PyRepr}.

(** Each telemetry bundle takes the next sequence number and carries
    every signal once, in the given order and under its own name, each with
    value, units, quality and timestamp filled in. *)
Theorem telemetry_bundle_complete schema signals quality ts seq :
  od_wf signals ->
  exists out, _build_process_telemetry_payload schema signals quality ts seq =
      (Ok [("version", PInt 1); ("seq", PInt (seq + 1)); ("signals", PDict out); ("ts", ts)],
       seq + 1) /\
    od_keys out = od_keys signals /\
    forall name v, od_get out name = Some v -> exists sig, v = PDict sig /\
      forall k, k ∈ ["value"; "units"; "quality"; "ts"] -> dhas sig k = true.
Proof.
  intros Hwf. unfold _build_process_telemetry_payload. eexists. split; [done|].
  rewrite bundle_signals by done. simpl. split.
  - unfold od_keys. rewrite <- list_fmap_compose. apply list_fmap_ext. by intros ? [].
  - intros name v Hg%od_get_elem. apply list_elem_of_fmap in Hg as ([n v0]&?&_). simplify_eq.
    eexists. split; [done|]. intros k Hk. by apply telemetry_signal_keys.
Qed.
End telemetry_theorem.

Lemma telemetry_bundle_complete_witness :
  exists out, @_build_process_telemetry_payload plain_repr [] [("t", PInt 3)] "ok" PNone 4 =
      (Ok [("version", PInt 1); ("seq", PInt 5); ("signals", PDict out); ("ts", PNone)], 5) /\
    od_keys out = ["t"] /\
    forall name v, od_get out name = Some v -> exists sig, v = PDict sig /\
      forall k, k ∈ ["value"; "units"; "quality"; "ts"] -> dhas sig k = true.
Proof. apply (@telemetry_bundle_complete plain_repr [] [("t", PInt 3)] "ok" PNone 4). apply NoDup_singleton. Defined.
