(* ===== verification/RulesCommon.v ===== *)
(** * Configuration parsing shared by interlock and watchdog

    [utils/config_parsing.py], [rules/rules_common.py], the scalar coercions
    of [utils/value_coercion.py] that rules use, and the RPC dispatch table
    of [utils/rpc_dispatch.py]. *)
From S2P Require Import Prelude PyVal PyNum ProcessBase.
#[local] Open Scope Z_scope.

(** ** Paths and required fields *)
Inductive path_part := Key (k : string) | Idx (i : Z).

Fixpoint fmt_parts (first : bool) (parts : list path_part) : string :=
  match parts with
  | [] => ""
  | Idx i :: r => "[" +:+ str_Z i +:+ "]" +:+ fmt_parts false r
  | Key k :: r => (if first then k else "." +:+ k) +:+ fmt_parts false r
  end.

Definition _fmt_path (parts : list path_part) : string :=
  match parts with [] => "<root>" | _ => fmt_parts true parts end.

Definition config_error {A} (parts : list path_part) (msg : string) : result A :=
  Err (ConfigError (_fmt_path parts) msg).

Definition normalize_list (raw : pyval) (path : list path_part) : result (list pyval) :=
  match raw with
  | PNone => Ok []
  | PList l => Ok l
  | _ => config_error path "must be a JSON list"
  end.

Definition require_dict (raw : pyval) (path : list path_part) : result dict :=
  match raw with PDict d => Ok d | _ => config_error path "must be an object/dict" end.

Definition optional_dict (raw : pyval) (path : list path_part) : result dict :=
  match raw with PNone => Ok [] | _ => require_dict raw path end.

Definition require_str (raw : pyval) (path : list path_part) : result string :=
  match raw with
  | PStr s => if nonempty s then Ok s else config_error path "must be a non-empty string"
  | _ => config_error path "must be a non-empty string"
  end.

(** [for i, x in enumerate(l)] collecting the results *)
Fixpoint mapi_result {A B} (f : Z -> A -> result B) (i : Z) (l : list A) : result (list B) :=
  match l with
  | [] => Ok []
  | x :: r => y ← f i x; ys ← mapi_result f (i + 1) r; Ok (y :: ys)
  end.

Definition require_list_of_dicts (raw : pyval) (path : list path_part) : result (list dict) :=
  items ← normalize_list raw path;
  mapi_result (fun i item => require_dict item (path ++ [Idx i])) 0 items.

(** ** Scalars *)
Definition coerce_float (value : pyval) (dflt : option pyfloat) : result pyfloat :=
  match value, dflt with
  | PNone, None => Err (ValueError "missing float")
  | PNone, Some f => Ok f
  | _, _ => py_float value
  end.

Definition coerce_int (value : pyval) (dflt : option Z) : result Z :=
  match value, dflt with
  | PNone, None => Err (ValueError "missing int")
  | PNone, Some z => Ok z
  | _, _ => py_int value
  end.

Definition coerce_bool (value : pyval) (dflt : bool) : bool :=
  match value with PNone => dflt | _ => truthy value end.

(** ** Rule fields *)
Record TelemetryBinding := mkBinding {
  tb_alias : string;
  tb_device_id : string;
  tb_signal : string;
  tb_max_age_s : pyfloat;
  tb_required : bool;
  tb_process_id : option string
}.

Definition source_id (b : TelemetryBinding) : string := default (tb_device_id b) (tb_process_id b).

Definition parse_version (obj : dict) (allow_type : bool) : result Z :=
  let version := if allow_type && negb (dhas obj "version") && dhas obj "type"
                 then dget_or obj "type" (PInt 1) else dget_or obj "version" (PInt 1) in
  match py_int version with
  | Err _ => config_error [] "version must be an int"
  | Ok v => if v =? 1 then Ok v else config_error [] "version must be 1"
  end.

Definition parse_choice (allowed : list string) (dflt not_str bad : string) (raw : pyval)
    (path : list path_part) : result string :=
  match raw with
  | PNone => Ok dflt
  | PStr s => let value := lower (strip s) in
              if bool_decide (value ∈ allowed) then Ok value else config_error path bad
  | _ => config_error path not_str
  end.

Definition ON_UNKNOWN_VALUES : list string := ["ignore"; "trigger"].
Definition WATCHDOG_SEVERITIES : list string := ["info"; "warn"; "critical"].

Definition parse_on_unknown (raw : pyval) (path : list path_part) (dflt : string) : result string :=
  parse_choice ON_UNKNOWN_VALUES dflt "on_unknown must be a string"
    "on_unknown must be ignore or trigger" raw path.

Definition parse_severity (raw : pyval) (path : list path_part) : result string :=
  parse_choice WATCHDOG_SEVERITIES "info" "severity must be a string"
    "severity must be one of info/warn/critical" raw path.

(** One entry of [inputs.telemetry]; [at_] is its path. *)
Definition parse_telemetry_binding (at_ : list path_part) (default_max_age_s : pyfloat)
    (allow_process : bool) (binding_raw : pyval) : result TelemetryBinding :=
  let sub k := at_ ++ [Key k] in
  match binding_raw with
  | PDict b =>
      alias ← require_str (dget b "as") (sub "as");
      let has_device := negb (is_none (dget b "device")) in
      let has_process := negb (is_none (dget b "process")) in
      if has_device && has_process then
        config_error at_ "binding must have exactly one of 'device' or 'process'"
      else if negb has_device && negb has_process then
        config_error at_ "binding must have 'device' or 'process'"
      else if has_process && negb allow_process then
        config_error (sub "process") "process telemetry bindings are not supported here; use 'device'"
      else
        '(process_id, dev) ←
          (if has_process then p ← require_str (dget b "process") (sub "process"); Ok (Some p, "")
           else d ← require_str (dget b "device") (sub "device"); Ok (None, d));
        signal ← require_str (dget b "signal") (sub "signal");
        max_age ← (match py_float (dget_or b "max_age_s" (PFloat default_max_age_s)) with
                   | Ok f => Ok f
                   | Err _ => config_error (sub "max_age_s") "max_age_s must be a number"
                   end);
        match dget_or b "required" (PBool true) with
        | PBool required => Ok (mkBinding alias dev signal max_age required process_id)
        | _ => config_error (sub "required") "required must be a boolean"
        end
  | _ => config_error at_ "must be an object/dict"
  end.

Definition parse_telemetry_bindings (inputs : dict) (path : list path_part)
    (default_max_age_s : pyfloat) (require_nonempty allow_process : bool)
    : result (list TelemetryBinding) :=
  let path_t := path ++ [Key "telemetry"] in
  telemetry_raw ← normalize_list (dget inputs "telemetry") path_t;
  match require_nonempty, telemetry_raw with
  | true, [] => config_error path_t "telemetry inputs are required"
  | _, _ => mapi_result (fun i b => parse_telemetry_binding (path_t ++ [Idx i]) default_max_age_s
                                      allow_process b) 0 telemetry_raw
  end.

(** ** The dispatch table of RPC actions *)
Section dispatch.
Context `{!PyRepr} {Handler : Type}.

Definition normalize_rpc_action (raw : pyval) : string := strip (py_str (py_or raw (PStr ""))).

Record RpcDispatchRegistry := mkRegistry {
  rg_handlers : list (string * Handler);
  rg_aliases : list (string * string)
}.

Definition add_handler (acc : list (string * Handler)) (entry : string * Handler) : list (string * Handler) :=
  let key := normalize_rpc_action (PStr (fst entry)) in
  if nonempty key then od_set acc key (snd entry) else acc.

Definition add_alias (handlers : list (string * Handler)) (acc : list (string * string))
    (entry : string * string) : list (string * string) :=
  let alias := normalize_rpc_action (PStr (fst entry)) in
  let target := normalize_rpc_action (PStr (snd entry)) in
  if negb (nonempty alias) || negb (nonempty target) then acc
  else match od_get handlers target with
       | None => acc
       | Some _ => od_set acc alias target
       end.

Definition build_registry (handlers : list (string * Handler)) (aliases : list (string * string))
    : RpcDispatchRegistry :=
  let hs := foldl add_handler [] handlers in
  mkRegistry hs (foldl (add_alias hs) [] aliases).

Definition canonical_action (r : RpcDispatchRegistry) (raw : pyval) : string :=
  let action := normalize_rpc_action raw in
  if nonempty action then default action (od_get (rg_aliases r) action) else "".

Definition handler_for (r : RpcDispatchRegistry) (raw : pyval) : option Handler :=
  let action := canonical_action r raw in
  if nonempty action then od_get (rg_handlers r) action else None.

(** The request with its type in canonical form; a copy when it changes. *)
Definition canonicalize_request (r : RpcDispatchRegistry) (req : dict) : dict :=
  let canonical := canonical_action r (dget req "type") in
  if nonempty canonical &&
     negb (String.eqb canonical (strip (py_str (dget_or req "type" (PStr "")))))
  then od_set req "type" (PStr canonical) else req.

(** The handler and the request it gets. *)
Definition dispatch_with_canonical (r : RpcDispatchRegistry) (req : dict) : option (Handler * dict) :=
  let req' := canonicalize_request r req in
  (fun h => (h, req')) <$> od_get (rg_handlers r) (normalize_rpc_action (dget req' "type")).

(** ** What dispatch guarantees *)
Definition registry_ok (r : RpcDispatchRegistry) : Prop :=
  (forall k, k ∈ od_keys (rg_handlers r) -> k <> "" /\ strip k = k) /\
  (forall a t, od_get (rg_aliases r) a = Some t -> t ∈ od_keys (rg_handlers r)).

Lemma od_keys_set {K V} `{EqDecision K} (d : list (K * V)) k v x :
  x ∈ od_keys (od_set d k v) <-> x = k \/ x ∈ od_keys d.
Proof.
  destruct (decide (k ∈ od_keys d)) as [Hk|Hk].
  - rewrite od_keys_set_old by done. naive_solver.
  - rewrite od_keys_set_new, elem_of_app, list_elem_of_singleton by done. naive_solver.
Qed.

Lemma normalize_str s : normalize_rpc_action (PStr s) = strip s.
Proof. unfold normalize_rpc_action, py_or. cbn. by destruct (String.eqb_spec s "") as [->|]. Qed.

Lemma nonempty_true s : nonempty s = true <-> s <> "".
Proof. unfold nonempty. destruct (String.eqb_spec s ""); naive_solver. Qed.

Lemma handlers_ok hs acc :
  (forall k, k ∈ od_keys acc -> k <> "" /\ strip k = k) ->
  forall k, k ∈ od_keys (foldl add_handler acc hs) -> k <> "" /\ strip k = k.
Proof.
  revert acc. induction hs as [|[n h] hs IH]; intros acc Hacc; cbn [foldl]; [done|]. apply IH.
  unfold add_handler. cbn [fst snd]. rewrite normalize_str.
  destruct (nonempty (strip n)) eqn:E; [|done]. apply nonempty_true in E.
  intros k [-> |Hk]%od_keys_set; [split; [done|apply strip_idem]|auto].
Qed.

Lemma aliases_ok (hs : list (string * Handler)) al acc :
  (forall a t, od_get acc a = Some t -> t ∈ od_keys hs) ->
  forall a t, od_get (foldl (add_alias hs) acc al) a = Some t -> t ∈ od_keys hs.
Proof.
  revert acc. induction al as [|[n t0] al IH]; intros acc Hacc; cbn [foldl]; [done|]. apply IH.
  unfold add_alias. cbn [fst snd]. case_match; [done|].
  destruct (od_get hs _) as [h|] eqn:E; [|done]. intros a t.
  destruct (decide (normalize_rpc_action (PStr n) = a)) as [<-|Hne].
  - rewrite od_get_set_eq. intros [= <-]. apply od_get_elem in E.
    exact (list_elem_of_fmap_2 fst _ _ E).
  - rewrite od_get_set_ne by done. apply Hacc.
Qed.

Lemma build_registry_ok hs al : registry_ok (build_registry hs al).
Proof.
  split.
  - apply handlers_ok. intros k Hk. by apply not_elem_of_nil in Hk.
  - by apply aliases_ok.
Qed.

Lemma normalize_idem raw : strip (normalize_rpc_action raw) = normalize_rpc_action raw.
Proof. apply strip_idem. Qed.

Lemma od_get_key {K V} `{EqDecision K} (d : list (K * V)) k : k ∈ od_keys d -> is_Some (od_get d k).
Proof. intros Hk. destruct (od_get d k) eqn:E; [done|]. by apply od_get_None in E. Qed.

(** Dispatching a request of any type on a table built from handlers and
    aliases picks exactly the handler that looking its action up picks: the
    canonical rewrite of the request and the lookup never disagree.  The
    handler gets the request with at most its type changed, an alias always
    has a handler, and a request no handler accepts is left to the caller. *)
Theorem dispatch_finds_handler hs al req :
  let r := build_registry hs al in
  fst <$> dispatch_with_canonical r req = handler_for r (dget req "type") /\
  (forall h req', dispatch_with_canonical r req = Some (h, req') ->
     req' = req \/ req' = od_set req "type" (PStr (canonical_action r (dget req "type")))) /\
  (forall a t, od_get (rg_aliases r) a = Some t -> nonempty a = true -> strip a = a ->
     is_Some (handler_for r (PStr a))).
Proof.
  intros r. pose proof (build_registry_ok hs al) as [Hk Ha]. fold r in Hk, Ha.
  assert (forall k, k = "" -> od_get (rg_handlers r) k = None) as Hempty.
  { intros k ->. apply od_get_None. intros Hin. by destruct (Hk _ Hin). }
  split_and!.
  - unfold dispatch_with_canonical, handler_for.
    transitivity (od_get (rg_handlers r) (normalize_rpc_action (dget (canonicalize_request r req) "type")));
      [by destruct (od_get _ _)|].
    unfold canonicalize_request. set (c := canonical_action r (dget req "type")).
    assert (strip c = c) as Hc.
    { subst c. unfold canonical_action. case_match; [|done].
      destruct (od_get (rg_aliases r) _) as [t|] eqn:E; cbn; [|apply normalize_idem].
      by destruct (Hk _ (Ha _ _ E)). }
    destruct (nonempty c) eqn:Hne; cbn [andb].
    + destruct (String.eqb_spec c (strip (py_str (dget_or req "type" (PStr ""))))) as [He|He]; cbn [negb].
      * f_equal. unfold normalize_rpc_action, py_or, dget, dget_or in *.
        subst c. revert Hne He. unfold canonical_action, normalize_rpc_action, py_or, dget, dget_or.
        destruct (od_get req "type") as [v|]; cbn; [|done].
        destruct (truthy v) eqn:Ht; [done|]. done.
      * unfold dget. rewrite od_get_set_eq. cbn. by rewrite normalize_str, Hc.
    + apply Hempty. subst c. revert Hne. unfold canonical_action.
      destruct (nonempty (normalize_rpc_action (dget req "type"))) eqn:E.
      * destruct (od_get (rg_aliases r) _) as [t|] eqn:Et; cbn; [|congruence].
        intros Ht. destruct (Hk _ (Ha _ _ Et)) as [Ht' _]. apply nonempty_true in Ht'. congruence.
      * intros _. unfold nonempty in E. by destruct (String.eqb_spec (normalize_rpc_action (dget req "type")) "").
  - unfold dispatch_with_canonical. intros h req'. destruct (od_get _ _); [|done].
    intros [= _ <-]. unfold canonicalize_request. case_match; auto.
  - intros a t Hat Hne Hst. unfold handler_for, canonical_action. rewrite normalize_str, Hst, Hne, Hat. cbn.
    destruct (Hk _ (Ha _ _ Hat)) as [Ht _]. apply nonempty_true in Ht. rewrite Ht.
    apply od_get_key. by eapply Ha.
Qed.
End dispatch.
Arguments RpcDispatchRegistry : clear implicits.

(** The handlers of a table are handlers it was given. *)
Lemma add_handler_range `{HR : !PyRepr} {X} (hs acc : list (string * X)) k h :
  od_get (foldl add_handler acc hs) k = Some h -> h ∈ acc.*2 \/ h ∈ hs.*2.
Proof.
  revert acc. induction hs as [|[n x] hs IH]; intros acc; cbn [foldl].
  { intros Hg%od_get_elem. left. exact (list_elem_of_fmap_2 snd _ _ Hg). }
  intros [Hx|Hx]%IH; [|right; by right]. unfold add_handler in Hx.
  destruct (nonempty _); [|by left]. apply list_elem_of_fmap in Hx as ([k' v] & -> & Hx). cbn in *.
  assert (forall d : list (string * X), (k', v) ∈ od_set d (normalize_rpc_action (PStr n)) x -> (k', v) ∈ d \/ v = x) as Hs.
  { intros d. induction d as [|[a b] d IHd]; cbn; [set_solver|]. case_decide; set_solver. }
  apply Hs in Hx as [Hx| ->]; [left|right; left]. exact (list_elem_of_fmap_2 snd _ _ Hx).
Qed.
