(* ===== verification/ProcessLogs.v ===== *)
(** * Log lines shown for a failed process or driver

    [_manager/process_recovery.py] (log selection), with the severity and id
    normalisation of [utils/logging_levels.py] and [_manager/logs.py].  The
    log history is the manager's deque, oldest entry first. *)
From S2P Require Import Prelude PyVal PyNum ProcessBase.
#[local] Open Scope Z_scope.

Section logs.
Context `{!PyRepr}.

Definition LOG_SEVERITY_NAMES : list string := ["debug"; "info"; "warning"; "error"; "critical"].

Definition _normalize_candidate (raw : pyval) : string :=
  let text := lower (strip (py_str (py_or raw (PStr "")))) in
  if String.eqb text "warn" then "warning" else text.

Definition normalize_log_severity (raw : pyval) (dflt : string) : string :=
  let d := _normalize_candidate (PStr dflt) in
  let d := if bool_decide (d ∈ LOG_SEVERITY_NAMES) then d else "info" in
  let candidate := _normalize_candidate (if is_none raw then PStr d else raw) in
  if negb (nonempty candidate) then d
  else if bool_decide (candidate ∈ LOG_SEVERITY_NAMES) then candidate else d.

Definition normalize_id (raw : pyval) : option string :=
  if is_none raw then None else or_none (strip (py_str raw)).

(** [str(entry.get(k, dflt) or dflt)] *)
Definition field_text (e : dict) (k dflt : string) : string :=
  py_str (py_or (dget_or e k (PStr dflt)) (PStr dflt)).

Definition entry_matches (source_id kind : string) (e : dict) : bool :=
  String.eqb (lower (strip (field_text e "source_kind" ""))) kind &&
  (bool_decide (normalize_id (dget e "source_id") = Some source_id) ||
   (if String.eqb kind "process" then bool_decide (normalize_id (dget e "process_id") = Some source_id)
    else if String.eqb kind "driver" then bool_decide (normalize_id (dget e "device_id") = Some source_id)
    else false)).

Definition dict_of (v : pyval) : option dict := match v with PDict d => Some d | _ => None end.

Definition _iter_matching_source_log_entries (history : list pyval) (source_id source_kind : string)
    : list dict :=
  filter (fun e => entry_matches source_id (lower (strip source_kind)) e)
    (omap dict_of (reverse history)).

(** A loop that appends [f x] when it is there and stops at [limit]. *)
Fixpoint take_some {A B} (f : A -> option B) (limit : Z) (l : list A) (out : list B) : list B :=
  match l with
  | [] => out
  | x :: r =>
      match f x with
      | None => take_some f limit r out
      | Some b =>
          let out := out ++ [b] in
          if limit <=? Z.of_nat (length out) then out else take_some f limit r out
      end
  end.

Definition truncated (cap keep : Z) (s : string) : string :=
  if cap <? Z.of_nat (String.length s) then String.substring 0 (Z.to_nat keep) s +:+ "..." else s.

Definition log_line (e : dict) : option string :=
  let message := strip (field_text e "message" "") in
  if negb (nonempty message) then None
  else
    let message := truncated 220 217 message in
    let severity := normalize_log_severity (dget e "severity") "info" in
    let stream := strip (field_text e "stream" "event") in
    Some (severity +:+ "/" +:+ stream +:+ ": " +:+ message).

Definition _recent_process_logs (history : list pyval) (process_id : string) (limit : Z)
    : list string :=
  let p := strip process_id in
  if negb (nonempty p) || (limit <=? 0) then []
  else reverse (take_some log_line limit (_iter_matching_source_log_entries history p "process") []).

(** Floats of a timestamp dict; text and containers that do not convert give [None]. *)
Definition _coerce_ts_field (ts : pyval) (key : string) : option pyfloat :=
  match ts with
  | PDict d => if is_none (dget d key) then None
               else match py_float (dget d key) with Ok f => Some f | Err _ => None end
  | _ => None
  end.

Record log_entry := mkLog {
  le_severity : string;
  le_stream : string;
  le_message : string;
  le_t_wall : option pyfloat;
  le_t_mono : option pyfloat
}.

(** [s[: n - 3]]: a negative bound counts from the end. *)
Definition cut_message (max_message_len : Z) (s : string) : string :=
  let n := max_message_len - 3 in
  let keep := if n <? 0 then Z.max 0 (Z.of_nat (String.length s) + n) else n in
  truncated max_message_len keep s.

Definition _build_entry (max_message_len : Z) (e : dict) : option log_entry :=
  let message := field_text e "message" "" in
  if negb (nonempty (strip message)) then None
  else
    Some (mkLog (normalize_log_severity (dget e "severity") "info")
            (strip (field_text e "stream" "event")) (cut_message max_message_len message)
            (_coerce_ts_field (dget e "ts") "t_wall") (_coerce_ts_field (dget e "ts") "t_mono")).

Definition is_high (b : log_entry) : bool :=
  bool_decide (le_severity b ∈ ["error"; "critical"; "warning"]) ||
  String.eqb (le_stream b) "stderr".

(** The bounded two-bucket scan. *)
Fixpoint scan_buckets (max_message_len limit raw_cap : Z) (l : list dict) (high low : list log_entry)
    : list log_entry * list log_entry :=
  match l with
  | [] => (high, low)
  | e :: r =>
      match _build_entry max_message_len e with
      | None => scan_buckets max_message_len limit raw_cap r high low
      | Some b =>
          if raw_cap <=? Z.of_nat (length high + length low) then (high, low)
          else
            let '(high, low) := if is_high b then (high ++ [b], low) else (high, low ++ [b]) in
            if limit <=? Z.of_nat (length high) then (high, low)
            else scan_buckets max_message_len limit raw_cap r high low
      end
  end.

Definition _recent_source_logs_structured (history : list pyval) (source_id source_kind : string)
    (limit max_message_len : Z) (prefer_high_severity : bool) : list log_entry :=
  let sid := strip source_id in
  if negb (nonempty sid) || (limit <=? 0) then []
  else
    let entries := _iter_matching_source_log_entries history sid source_kind in
    if negb prefer_high_severity then
      reverse (take_some (_build_entry max_message_len) limit entries [])
    else
      let raw_cap := Z.max (limit * 4) (limit + 8) in
      let '(high, low) := scan_buckets max_message_len limit raw_cap entries [] [] in
      let selected := take (Z.to_nat limit) high in
      let selected :=
        if Z.of_nat (length selected) <? limit
        then selected ++ take (Z.to_nat limit - length selected) low else selected in
      reverse selected.
End logs.

Section logs_theorems.
Context `{!PyRepr}.

Lemma take_some_spec {A B} (f : A -> option B) limit l out :
  Z.of_nat (length out) < limit ->
  take_some f limit l out = out ++ take (Z.to_nat limit - length out) (omap f l).
Proof.
  revert out. induction l as [|x l IH]; intros out Hl; simpl.
  { by rewrite take_nil, app_nil_r. }
  destruct (f x) as [b|]; [|by apply IH].
  rewrite length_app. cbn [length]. destruct (Z.leb_spec limit (Z.of_nat (length out + 1))).
  - replace (Z.to_nat limit - length out)%nat with 1%nat by lia. simpl. by rewrite take_0.
  - rewrite IH by (rewrite length_app; cbn [length]; lia). rewrite <- app_assoc, length_app. cbn [length].
    replace (Z.to_nat limit - length out)%nat with (S (Z.to_nat limit - (length out + 1)))%nat by lia.
    done.
Qed.

(** The entries of a source, oldest first. *)
Definition source_entries (history : list pyval) (sid kind : string) : list dict :=
  filter (fun e => entry_matches sid (lower (strip kind)) e) (omap dict_of history).

Lemma iter_is_reversed history sid kind :
  _iter_matching_source_log_entries history sid kind = reverse (source_entries history sid kind).
Proof.
  unfold _iter_matching_source_log_entries, source_entries. by rewrite omap_reverse, filter_reverse.
Qed.

Lemma newest_first {B} (f : dict -> option B) limit history sid kind :
  0 < limit ->
  reverse (take_some f limit (_iter_matching_source_log_entries history sid kind) []) =
  last_n (Z.to_nat limit) (omap f (source_entries history sid kind)).
Proof.
  intros Hl. rewrite take_some_spec by (simpl; lia). cbn [app length].
  by rewrite Nat.sub_0_r, iter_is_reversed, omap_reverse, reverse_take_last, reverse_involutive.
Qed.

(** The log lines shown for a process are the newest [limit] non-empty
    lines of that process, oldest first; the same holds for the structured
    entries when severity is not preferred. *)
Theorem recent_logs_newest history sid kind limit max_len :
  nonempty (strip sid) = true -> 0 < limit ->
  _recent_process_logs history sid limit =
    last_n (Z.to_nat limit) (omap log_line (source_entries history (strip sid) "process")) /\
  _recent_source_logs_structured history sid kind limit max_len false =
    last_n (Z.to_nat limit) (omap (_build_entry max_len) (source_entries history (strip sid) kind)).
Proof.
  intros Hs Hl. unfold _recent_process_logs, _recent_source_logs_structured. rewrite Hs.
  rewrite (proj2 (Z.leb_gt limit 0) Hl). cbn [negb orb]. by rewrite !newest_first.
Qed.

(** With severity preferred the selection never exceeds [limit] rows. *)
Theorem recent_logs_bounded history sid kind limit max_len prefer :
  (length (_recent_source_logs_structured history sid kind limit max_len prefer) <= Z.to_nat limit)%nat.
Proof.
  unfold _recent_source_logs_structured. destruct (negb _ || (limit <=? 0)) eqn:E; [simpl; lia|].
  apply orb_false_iff in E as [_ Hl%Z.leb_gt]. destruct (negb prefer).
  - rewrite newest_first by done. apply length_last_n.
  - destruct (scan_buckets _ _ _ _ _ _) as [high low].
    rewrite length_reverse. destruct (Z.ltb_spec (Z.of_nat (length (take (Z.to_nat limit) high))) limit).
    + rewrite length_app, !length_take. lia.
    + rewrite length_take. lia.
Qed.
End logs_theorems.

Module LogDemo.
#[export] Existing Instance plain_repr.

Definition row (msg sev : string) (t : Z) : pyval :=
  PDict [("source_kind", PStr "process"); ("source_id", PStr "p"); ("severity", PStr sev);
         ("message", PStr msg); ("ts", PDict [("t_mono", PInt t)])].
Definition history : list pyval :=
  [row "start" "info" 1; row "boom" "error" 2; row "cleanup" "info" 3].

Lemma recent_logs_newest_witness :
  _recent_process_logs history "p" 2 = ["error/event: boom"; "info/event: cleanup"] /\
  le_message <$> _recent_source_logs_structured history "p" "process" 2 400 false = ["boom"; "cleanup"].
Proof.
  destruct (recent_logs_newest history "p" "process" 2 400 eq_refl ltac:(lia)) as [-> ->].
  by vm_compute.
Defined.

(** With severity preferred the rows are not in chronological order: the
    error logged between the two info lines comes out last. *)
Example preferred_rows_out_of_order :
  (fun b => (le_message b, le_t_mono b)) <$>
    _recent_source_logs_structured history "p" "process" 20 400 true =
  [("start", Some (FFin 1)); ("cleanup", Some (FFin 3)); ("boom", Some (FFin 2))].
Proof. by vm_compute. Qed.
End LogDemo.
