(* ===== verification/StateMachine.v ===== *)
(** * State-machine processes ([processes/state_machine_base.py])

    The data and the operations of [StateMachineProcessBase]: the transition
    graph, transitions with their hooks and bus events, the bounded history,
    path planning and the RPC handler.  Clock readings are arguments (seconds
    as rationals); the outcome of the one bus publish an operation performs
    is an argument too ([None], or the [repr] of the exception it raises). *)
From Stdlib Require Import QArith.
From S2P Require Import Prelude PyVal ProcessBase.
#[local] Open Scope Z_scope.

(** ** Graph data *)
Record edge := mkEdge {
  e_id : string;
  e_from : string;
  e_to : string;
  e_note : option string
}.

#[export] Instance edge_eq_dec : EqDecision edge.
Proof. solve_decision. Defined.

Abbreviation transitions := (gmap string (gset string)).

(** Values of the [allowed_transitions] argument. *)
Inductive raw_targets :=
| TSet (l : list pyval)
| TList (l : list pyval)
| TTuple (l : list pyval)
| TOther (v : pyval).

Section normalize.
Context `{!PyRepr}.

Fixpoint normalize_allowed (raw : list (pyval * raw_targets)) (out : transitions)
    : result transitions :=
  match raw with
  | [] => Ok out
  | (src, dst) :: r =>
      match dst with
      | TSet l | TList l | TTuple l =>
          normalize_allowed r (<[py_str src := list_to_set (py_str <$> l)]> out)
      | TOther _ => Err (TypeError
          "allowed_transitions values must be set[str] | list[str] | tuple[str, ...]")
      end
  end.

Definition _normalize_allowed_transitions (raw : option (list (pyval * raw_targets)))
    : result transitions :=
  match raw with None => Ok ∅ | Some l => normalize_allowed l ∅ end.

(** [str(item.get(k, "")).strip()] *)
Definition text_of (d : dict) (k : string) : string :=
  strip (py_str (dget_or d k (PStr ""))).

Definition normalize_edge (idx : nat) (item : pyval) : option edge :=
  match item with
  | PDict d =>
      let from_state := text_of d "from_state" in
      let to_state := text_of d "to_state" in
      if negb (nonempty from_state) || negb (nonempty to_state) then None
      else
        let edge_id := text_of d "id" in
        Some (mkEdge (if nonempty edge_id then edge_id else "edge_" +:+ str_Z (Z.of_nat idx))
                from_state to_state (or_none (text_of d "note")))
  | _ => None
  end.

Definition _normalize_graph_edges (raw : pyval) : list edge :=
  match raw with
  | PList l => omap id (imap normalize_edge l)
  | _ => []
  end.
End normalize.

(** Edges as [_normalize_graph_edges] builds them. *)
Definition edge_ok (e : edge) : Prop :=
  nonempty (e_from e) = true /\ nonempty (e_to e) = true /\
  strip (e_from e) = e_from e /\ strip (e_to e) = e_to e.

Definition _derive_allowed_transitions_from_graph_edges (edges : list edge) : transitions :=
  foldl (fun out e =>
    let from_state := strip (e_from e) in
    let to_state := strip (e_to e) in
    if negb (nonempty from_state) || negb (nonempty to_state) then out
    else <[from_state := {[to_state]} ∪ default ∅ (out !! from_state)]> out) ∅ edges.

(** ** The machine *)
Record stamp := mkStamp { t_wall : Q; t_mono : Q }.

Definition ts_payload (ts : stamp) : pyval :=
  PDict [("t_wall", PFloat (FFin (t_wall ts))); ("t_mono", PFloat (FFin (t_mono ts)))].

Record machine := mkMachine {
  m_process_id : pyval;
  m_rpc_namespace : string;
  m_initial_state : string;
  m_state : string;
  m_state_since : stamp;
  m_last_error : option string;
  m_last_transition : option dict;
  m_last_command : option dict;
  m_graph_edges : list edge;
  m_allowed_transitions : transitions;
  m_history : list dict;
  m_has_manager : bool;
  m_stop_evt : bool;
  m_published : list (string * dict)
}.

Definition _history_max : nat := 500.

#[export] Instance machine_eta : Eta machine := fun m =>
  mkMachine (m_process_id m) (m_rpc_namespace m) (m_initial_state m) (m_state m) (m_state_since m)
    (m_last_error m) (m_last_transition m) (m_last_command m) (m_graph_edges m)
    (m_allowed_transitions m) (m_history m) (m_has_manager m) (m_stop_evt m) (m_published m).

Definition with_error (e : option string) (m : machine) : machine := m <| m_last_error := e |>.

Definition with_history (h : list dict) (m : machine) : machine := m <| m_history := h |>.

Definition with_state (s : string) (since : stamp) (lt : dict) (m : machine) : machine :=
  m <| m_state := s |> <| m_state_since := since |> <| m_last_transition := Some lt |>.

Definition with_published (t : string) (p : dict) (m : machine) : machine :=
  m <| m_published := m_published m ++ [(t, p)] |>.

Definition with_command (c : dict) (m : machine) : machine := m <| m_last_command := Some c |>.

Definition with_stop (m : machine) : machine := m <| m_stop_evt := true |>.

(** The constructor; sockets, the heartbeat thread and the tick period are
    not part of the machine. *)
Definition init `{!PyRepr} (process_id : pyval) (rpc_namespace initial_state : string)
    (allowed : option (list (pyval * raw_targets))) (graph_edges : pyval) (now : stamp)
    : result machine :=
  let ns := strip rpc_namespace in
  if negb (nonempty ns) then Err (ValueError "rpc_namespace must be a non-empty string")
  else
    let edges := _normalize_graph_edges graph_edges in
    tr ← (match allowed, edges with
          | None, _ :: _ => Ok (_derive_allowed_transitions_from_graph_edges edges)
          | _, _ => _normalize_allowed_transitions allowed
          end);
    Ok (mkMachine process_id ns initial_state initial_state now None None None edges tr [] true
          false []).

(** ** History and errors *)
Definition _append_history_entry (now : stamp) (entry : dict) (m : machine) : machine :=
  let item := setdefault entry "ts" (ts_payload now) in
  let h := m_history m ++ [item] in
  let h := if (_history_max <? length h)%nat then drop (length h - _history_max) h else h in
  with_history h m.

Definition _set_last_error (now : stamp) (message : option string) (m : machine) : machine :=
  let m := with_error message m in
  match message with
  | Some e =>
      if nonempty e then
        _append_history_entry now
          [("event", PStr "error"); ("state", PStr (m_state m)); ("message", PStr e);
           ("ok", PBool false)] m
      else m
  | None => m
  end.

(** ** Queries on the graph *)
Definition targets_of (tr : transitions) (s : string) : gset string := default ∅ (tr !! s).

Definition allowed_next_states (state : option string) (m : machine) : list string :=
  sorted_set (targets_of (m_allowed_transitions m) (default (m_state m) state)).

Definition can_transition (target : string) (from : option string) (m : machine) : bool :=
  bool_decide (target ∈ targets_of (m_allowed_transitions m) (default (m_state m) from)).

(** ** Bus events *)
Definition _TRANSITION_PUBLISH_ERROR_PREFIX : string := "failed to publish transition event".

(** [metadata or {}] *)
Definition or_empty (metadata : option dict) : dict := default [] metadata.

Definition publish_transition_event (from to : string) (reason : option string)
    (metadata : option dict) (outcome : option string) (m : machine) : machine :=
  if negb (m_has_manager m) then m
  else
    let payload := [("process_id", m_process_id m); ("from_state", PStr from);
                    ("to_state", PStr to); ("reason", opt_str reason)] in
    let payload := match or_empty metadata with
                   | [] => payload
                   | md => payload ++ [("metadata", PDict md)]
                   end in
    match outcome with
    | Some exc =>
        match m_last_error m with
        | Some e => if nonempty e then m else
            with_error (Some (_TRANSITION_PUBLISH_ERROR_PREFIX +:+ " " +:+ from +:+ " -> " +:+ to
                              +:+ ": " +:+ exc)) m
        | None =>
            with_error (Some (_TRANSITION_PUBLISH_ERROR_PREFIX +:+ " " +:+ from +:+ " -> " +:+ to
                              +:+ ": " +:+ exc)) m
        end
    | None =>
        let m := with_published "manager.state_machine.transition" payload m in
        match m_last_error m with
        | Some e => if nonempty e && startswith e _TRANSITION_PUBLISH_ERROR_PREFIX
                    then with_error None m else m
        | None => m
        end
    end.

(** ** Transitions *)
Section hooks.
(** The methods [_on_exit_<state>] and [_on_enter_<state>] a subclass may
    define, by the lower-cased state name. *)
Context (on_exit on_enter :
  string -> option (string -> option string -> option dict -> pyM machine unit)).

Definition _on_state_exit (from to : string) (reason : option string) (metadata : option dict)
    : pyM machine unit :=
  match on_exit (lower from) with Some fn => fn to reason metadata | None => mret tt end.

Definition _on_state_enter (from to : string) (reason : option string) (metadata : option dict)
    : pyM machine unit :=
  match on_enter (lower to) with Some fn => fn from reason metadata | None => mret tt end.

(** The assignments shared by [transition] and [force_transition]. *)
Definition record_transition (src dst : string) (reason : option string) (meta : dict)
    (now : stamp) (m : machine) : machine :=
  let m := with_state dst now
    [("from_state", PStr src); ("to_state", PStr dst); ("reason", opt_str reason);
     ("ts", ts_payload now); ("metadata", PDict meta)] m in
  _append_history_entry now
    [("event", PStr "transition"); ("from_state", PStr src); ("to_state", PStr dst);
     ("reason", opt_str reason); ("metadata", PDict meta); ("ok", PBool true);
     ("ts", ts_payload now)] m.

Definition transition (dst : string) (reason : option string) (metadata : option dict)
    (allow_noop : bool) (now : stamp) (outcome : option string) : pyM machine bool :=
  src ← gets m_state;
  if String.eqb src dst then mret allow_noop
  else
    ok ← gets (can_transition dst (Some src));
    if negb ok then mret false
    else
      _ ← _on_state_exit src dst reason metadata;
      _ ← modify (record_transition src dst reason (or_empty metadata) now);
      _ ← modify (publish_transition_event src dst reason metadata outcome);
      _ ← _on_state_enter src dst reason metadata;
      mret true.

Definition force_transition (dst : string) (reason : option string) (metadata : option dict)
    (allow_noop : bool) (now : stamp) (outcome : option string) : pyM machine bool :=
  src ← gets m_state;
  if String.eqb src dst then mret allow_noop
  else
    let meta := setdefault (or_empty metadata) "forced" (PBool true) in
    _ ← modify (record_transition src dst reason meta now);
    _ ← modify (publish_transition_event src dst reason (Some meta) outcome);
    mret true.
End hooks.

(** ** Path planning *)
Definition adjacency (edges : list edge) : gmap string (list edge) :=
  foldl (fun adj e =>
    let src := strip (e_from e) in
    if negb (nonempty src) then adj
    else <[src := default [] (adj !! src) ++ [e]]> adj) ∅ edges.

Abbreviation parents := (gmap string (string * edge)).

Record search := mkSearch {
  s_queue : list string;
  s_parent : parents;
  s_visited : gset string
}.

(** The [for edge in adjacency.get(cur, [])] loop; the flag says that it
    found the target, cleared the queue and broke out. *)
Fixpoint expand (target cur : string) (out : list edge) (s : search) : bool * search :=
  match out with
  | [] => (false, s)
  | e :: r =>
      let nxt := strip (e_to e) in
      if negb (nonempty nxt) || bool_decide (nxt ∈ s_visited s) then expand target cur r s
      else
        let visited := {[nxt]} ∪ s_visited s in
        let parent := <[nxt := (cur, e)]> (s_parent s) in
        if String.eqb nxt target then (true, mkSearch [] parent visited)
        else expand target cur r (mkSearch (s_queue s ++ [nxt]) parent visited)
  end.

(** The [while queue] loop; [None] when the fuel runs out. *)
Fixpoint bfs (fuel : nat) (adj : gmap string (list edge)) (target : string) (s : search)
    : option (bool * parents) :=
  match fuel with
  | O => None
  | S f =>
      match s_queue s with
      | [] => Some (false, s_parent s)
      | cur :: q =>
          match expand target cur (default [] (adj !! cur)) (mkSearch q (s_parent s) (s_visited s)) with
          | (true, s') => Some (true, s_parent s')
          | (false, s') => bfs f adj target s'
          end
      end
  end.

(** The [while cursor != start] loop, which builds the path reversed. *)
Fixpoint walk_back (fuel : nat) (parent : parents) (start cursor : string) (path_rev : list edge)
    : result (list edge) :=
  match fuel with
  | O => Err (RuntimeError "out of fuel")
  | S f =>
      if String.eqb cursor start then Ok path_rev
      else
        match parent !! cursor with
        | Some (prev, e) => walk_back f parent start prev (path_rev ++ [e])
        | None => Err (KeyError cursor)
        end
  end.

Definition plan_state_path (target : string) (from : option string) (m : machine)
    : result (option (list edge)) :=
  let start := default (m_state m) from in
  let edges := m_graph_edges m in
  if negb (nonempty start) || negb (nonempty target) then Ok None
  else if String.eqb start target then Ok (Some [])
  else
    match edges with
    | [] => Ok None
    | _ =>
        match bfs (S (S (length edges))) (adjacency edges) target
                (mkSearch [start] ∅ {[start]}) with
        | None => Err (RuntimeError "out of fuel")
        | Some (false, _) => Ok None
        | Some (true, parent) =>
            path_rev ← walk_back (S (size parent)) parent start target [];
            Ok (Some (reverse path_rev))
        end
    end.

Fixpoint best_of (start : string) (targets : list string) (best : option (list edge)) (m : machine)
    : result (option (list edge)) :=
  match targets with
  | [] => Ok best
  | t :: r =>
      path ← plan_state_path t (Some start) m;
      best_of start r
        (match path, best with
         | None, _ => best
         | Some p, None => Some p
         | Some p, Some b => if (length p <? length b)%nat then Some p else best
         end) m
  end.

Definition plan_state_path_to_any (target_states : list string) (from : option string) (m : machine)
    : result (option (list edge)) :=
  let targets : gset string := list_to_set (filter (fun s => nonempty s) (strip <$> target_states)) in
  if bool_decide (targets = ∅) then Ok None
  else
    let start := default (m_state m) from in
    if bool_decide (start ∈ targets) then Ok (Some [])
    else best_of start (sorted_set targets) None m.

(** ** Commands to devices *)
Section command.
Context `{!PyRepr} (is_ok : pyval -> bool).

(** [int(float(timeout_s) * 1000)] truncates towards zero. *)
Definition timeout_ms (timeout_s : option Q) : option Z :=
  (fun q => Z.max 1 (Z.quot (Qnum q * 1000) (Zpos (Qden q)))) <$> timeout_s.

(** [call] is the manager client's blocking request. *)
Definition command (call : dict -> option Z -> result pyval) (device_id action : string)
    (params : dict) (timeout_s : option Q) : pyM machine pyval :=
  has ← gets m_has_manager;
  _ ← guard_raise (negb has) (RuntimeError "manager not initialized");
  pid ← gets m_process_id;
  let req := [("type", PStr "command"); ("device_id", PStr device_id); ("action", PStr action);
              ("params", PDict params); ("caller_process_id", pid)] in
  _ ← modify (with_command req);
  resp ← lift (call req (timeout_ms timeout_s));
  _ ← guard_raise (negb (is_dict resp) || negb (is_ok resp)) (RuntimeError "command failed");
  mret resp.
End command.

(** ** Payloads *)
Definition edge_payload (e : edge) : pyval :=
  PDict [("id", PStr (e_id e)); ("from_state", PStr (e_from e)); ("to_state", PStr (e_to e));
         ("note", opt_str (e_note e))].

Definition _active_state_ids (m : machine) : list string :=
  if nonempty (m_state m) then [m_state m] else [].

(** [detail] is what the subclass's [_status_detail_payload] returns. *)
Definition _status_payload (detail : pyval) (now_mono : Q) (m : machine) : pyval :=
  let age := (now_mono - t_mono (m_state_since m))%Q in
  PDict [("state", PStr (m_state m));
         ("active_states", PList (PStr <$> _active_state_ids m));
         ("state_since", ts_payload (m_state_since m));
         ("state_age_s", PFloat (FFin (if Qle_bool 0 age then age else 0%Q)));
         ("last_error", opt_str (m_last_error m));
         ("last_transition", from_option PDict PNone (m_last_transition m));
         ("allowed_next_states", PList (PStr <$> allowed_next_states None m));
         ("status_detail", if is_dict detail then detail else PDict [])].

(** [row.get("ok") is False or row.get("event") == "error"] *)
Definition is_error_row (row : dict) : bool :=
  match dget row "ok" with PBool false => true | _ => false end ||
  bool_decide (dget row "event" = PStr "error").

Definition _history_tail_payload (limit : Z) (errors_only : bool) (m : machine) : list dict * Z :=
  let rows := if errors_only then filter (fun r => is_error_row r) (m_history m) else m_history m in
  let rows := if (0 <? limit) && (limit <? Z.of_nat (length rows))
              then drop (length rows - Z.to_nat limit) rows else rows in
  (rows, Z.of_nat (length rows)).

Definition history_payload (p : list dict * Z) : pyval :=
  PDict [("entries", PList (PDict <$> p.1)); ("count", PInt p.2)].

Definition _base_capability_methods (m : machine) : list MemberSpec :=
  let prefix := m_rpc_namespace m in
  [method (prefix +:+ ".status") None (Some "Get state machine status.");
   method (prefix +:+ ".graph") None (Some "Get static state-machine graph metadata.");
   method (prefix +:+ ".history.tail")
     (Some [param "limit" false (PInt 100) (Some "int");
            param "errors_only" false (PBool false) (Some "bool")])
     (Some "Get recent state-machine history entries.");
   method (prefix +:+ ".stop") None (Some "Stop the process loop.")].

(** *** The graph payload *)
Definition graph_states (m : machine) : gset string :=
  let tr := m_allowed_transitions m in
  let keys : gset string := dom tr in
  let all := map_fold (fun _ dsts acc => acc ∪ dsts) keys tr in
  if nonempty (m_state m) then {[m_state m]} ∪ all else all.

Record transition_row := mkRow {
  r_from : string;
  r_to : string;
  r_edge_id : option string;
  r_note : option string
}.

(** [str(x)] of a [str | None] value *)
Definition str_opt (o : option string) : string := default "None" o.

Definition transition_row_of (edges : list edge) (from to : string) : transition_row :=
  match find (fun e => String.eqb (strip (e_from e)) from && String.eqb (strip (e_to e)) to) edges with
  | Some e => mkRow from to (or_none (strip (e_id e))) (or_none (strip (str_opt (e_note e))))
  | None => mkRow from to None None
  end.

Definition graph_transitions (m : machine) : list transition_row :=
  let tr := m_allowed_transitions m in
  from ← sorted_set (dom tr);
  to ← sorted_set (targets_of tr from);
  [transition_row_of (m_graph_edges m) from to].

(** Action items are shared between [action_items] and [action_index]: the
    index holds positions in the list. *)
Record action_item := mkAction {
  a_name : string;
  a_doc : option string;
  a_params : list pyval;
  a_transitions : list pyval;
  a_effects : list pyval
}.

Record action_table := mkTable {
  at_items : list action_item;
  at_index : gmap string nat
}.

Definition param_payload (p : MemberParamSpec) : option pyval :=
  let pname := strip (p_name p) in
  if negb (nonempty pname) then None
  else Some (PDict [("name", PStr pname); ("kind", PStr (p_kind p));
                    ("required", PBool (p_required p)); ("default", p_default p);
                    ("annotation", opt_str (p_annotation p))]).

Definition add_item (it : action_item) (t : action_table) : action_table :=
  mkTable (at_items t ++ [it]) (<[a_name it := length (at_items t)]> (at_index t)).

Definition add_member (prefix : string) (t : action_table) (mb : MemberSpec) : action_table :=
  let name := strip (mb_name mb) in
  if negb (startswith name (prefix +:+ ".")) then t
  else if bool_decide (name ∈ [prefix +:+ ".status"; prefix +:+ ".graph";
                               prefix +:+ ".history.tail"; prefix +:+ ".stop"]) then t
  else
    let params := match mb_params mb with Some ps => omap param_payload ps | None => [] end in
    add_item (mkAction name (mb_doc mb ≫= or_none) params [] []) t.

(** [action_index.get(action)], or a fresh item appended to both. *)
Definition item_of (action : string) (t : action_table) : nat * action_table :=
  match at_index t !! action with
  | Some i => (i, t)
  | None => (length (at_items t), add_item (mkAction action None [] [] []) t)
  end.

Definition update_item (i : nat) (f : action_item -> action_item) (t : action_table) : action_table :=
  mkTable (alter f i (at_items t)) (at_index t).

Section graph_payload.
Context `{!PyRepr}.

Definition text_or_none (d : dict) (k : string) : pyval := opt_str (or_none (text_of d k)).

Definition add_action_transition (t : action_table) (raw : pyval) : action_table :=
  match raw with
  | PDict d =>
      let action := text_of d "action" in
      if negb (nonempty action) then t
      else
        let row := PDict [("from_state", text_or_none d "from_state");
                          ("to_state", text_or_none d "to_state");
                          ("note", text_or_none d "note")] in
        let '(i, t) := item_of action t in
        update_item i (fun a => mkAction (a_name a) (a_doc a) (a_params a)
                                  (a_transitions a ++ [row]) (a_effects a)) t
  | _ => t
  end.

Definition add_action_effect (t : action_table) (raw : pyval) : action_table :=
  match raw with
  | PDict d =>
      let action := text_of d "action" in
      let device_id := text_of d "device_id" in
      let device_action := text_of d "device_action" in
      if negb (nonempty action) || negb (nonempty device_id) || negb (nonempty device_action) then t
      else
        let params := dget d "params" in
        let row := PDict [("device_id", PStr device_id); ("device_action", PStr device_action);
                          ("params", if is_dict params then params else PNone);
                          ("note", text_or_none d "note")] in
        let '(i, t) := item_of action t in
        update_item i (fun a => mkAction (a_name a) (a_doc a) (a_params a)
                                  (a_transitions a) (a_effects a ++ [row])) t
  | _ => t
  end.

Fixpoint insert_by_name (x : action_item) (l : list action_item) : list action_item :=
  match l with
  | [] => [x]
  | y :: r => if String.leb (a_name x) (a_name y) then x :: y :: r else y :: insert_by_name x r
  end.

(** [action_items.sort(key=name)] is stable. *)
Definition sort_by_name (l : list action_item) : list action_item := foldr insert_by_name [] l.

Definition graph_actions (extra : list MemberSpec) (action_transitions action_effects : list pyval)
    (m : machine) : list action_item :=
  let t := foldl (add_member (m_rpc_namespace m)) (mkTable [] ∅) extra in
  let t := foldl add_action_transition t action_transitions in
  let t := foldl add_action_effect t action_effects in
  sort_by_name (at_items t).

Definition row_payload (r : transition_row) : pyval :=
  PDict [("from_state", PStr (r_from r)); ("to_state", PStr (r_to r));
         ("edge_id", opt_str (r_edge_id r)); ("note", opt_str (r_note r))].

Definition action_payload (a : action_item) : pyval :=
  PDict [("name", PStr (a_name a)); ("doc", opt_str (a_doc a)); ("params", PList (a_params a));
         ("transitions", PList (a_transitions a)); ("effects", PList (a_effects a))].

Definition _state_machine_graph_payload (extra : list MemberSpec)
    (action_transitions action_effects : list pyval) (m : machine) : pyval :=
  PDict [("namespace", PStr (m_rpc_namespace m));
         ("initial_state", opt_str (or_none (m_initial_state m)));
         ("states", PList (PStr <$> sorted_set (graph_states m)));
         ("transitions", PList (row_payload <$> graph_transitions m));
         ("edges", PList (edge_payload <$> m_graph_edges m));
         ("actions", PList (action_payload <$>
            graph_actions extra action_transitions action_effects m))].

(** ** The RPC handler

    [stop] is the (overridable) [_graceful_stop]; the remaining arguments
    are what the subclass's hooks return. *)
Context (stop : pyM machine unit) (exc_text : pyexc -> string).
Context (extra : list MemberSpec) (action_transitions action_effects : list pyval).
Context (detail : pyval).

Definition handle_state_machine_rpc (now_mono : Q) (req : dict) : pyM machine (option dict) :=
  let rtype := py_str (dget_or req "type" (PStr "")) in
  common ← _handle_common_rpc stop exc_text req;
  match common with
  | Some resp => mret (Some resp)
  | None =>
      m ← get;
      let prefix := m_rpc_namespace m in
      if String.eqb rtype "process.capabilities" then
        let members := _with_common_capabilities (_base_capability_methods m ++ extra) in
        mret (Some (rpc_ok (PDict req) (capabilities_payload members)))
      else if String.eqb rtype (prefix +:+ ".status") then
        mret (Some (rpc_ok (PDict req) (_status_payload detail now_mono m)))
      else if String.eqb rtype (prefix +:+ ".graph") then
        mret (Some (rpc_ok (PDict req)
          (_state_machine_graph_payload extra action_transitions action_effects m)))
      else if String.eqb rtype (prefix +:+ ".history.tail") then
        match py_or (dget_or req "params" (PDict [])) (PDict []) with
        | PDict params =>
            match py_int (dget_or params "limit" (PInt 100)) with
            | Ok limit =>
                let limit := Z.max 1 (Z.min limit (Z.of_nat _history_max)) in
                let errors_only := truthy (dget_or params "errors_only" (PBool false)) in
                mret (Some (rpc_ok (PDict req)
                  (history_payload (_history_tail_payload limit errors_only m))))
            | Err _ => mret (Some (rpc_invalid_params (PDict req) (Some "limit must be an int")))
            end
        | _ => mret (Some (rpc_invalid_params (PDict req) (Some "params must be a dict")))
        end
      else if String.eqb rtype (prefix +:+ ".stop") then
        _ ← modify with_stop;
        mret (Some (rpc_ok (PDict req) (PDict [("status", PStr "stopping")])))
      else mret None
  end.
End graph_payload.
