(* ===== verification/StatePlan.v ===== *)
(** * Path planning on the state graph

    [plan_state_path] of [state_machine_base.py] is a breadth-first search
    with parent pointers; here it is shown to find shortest paths. *)
From S2P Require Import Prelude PyVal StateMachine.

(** Chains of edges, the specification of a plan. *)
Inductive path (edges : list edge) : string -> string -> list edge -> Prop :=
| path_nil s : path edges s s []
| path_cons t e p : e ∈ edges -> path edges (e_to e) t p -> path edges (e_from e) t (e :: p).

Lemma path_snoc edges s e p :
  e ∈ edges -> path edges s (e_from e) p -> path edges s (e_to e) (p ++ [e]).
Proof.
  intros He Hp. remember (e_from e) as t eqn:Ht. induction Hp as [s|t e' p He' Hp IH]; subst; simpl.
  - constructor; [done|constructor].
  - constructor; auto.
Qed.

Section bfs.
Context (edges : list edge) (Hok : Forall edge_ok edges).

Lemma edge_in_ok e : e ∈ edges -> edge_ok e.
Proof. rewrite Forall_forall in Hok. auto. Qed.

Lemma adjacency_filter s :
  default [] (adjacency edges !! s) = filter (fun e => e_from e = s) edges.
Proof using Hok.
  induction edges as [|e l IH] using rev_ind; [done|].
  apply Forall_app in Hok as [Hl [(Hn&_&Hs&_) _]%Forall_cons].
  unfold adjacency. rewrite foldl_snoc. fold (adjacency l). cbn zeta. rewrite Hs, Hn. cbn [negb].
  rewrite filter_app, <- IH by done. cbn [filter list_filter]. destruct (decide (e_from e = s)) as [<-|Hne].
  - by rewrite lookup_insert_eq.
  - rewrite lookup_insert_ne by done. by rewrite app_nil_r.
Qed.

Context (start target : string).
Implicit Types (s : search) (d : string -> nat) (cur v : string).

(** The parent pointers form a tree rooted at [start] with depths [d]. *)
Record tree s d : Prop := {
  t_start : d start = 0%nat;
  t_dom v : v ∈ s_visited s <-> v = start \/ is_Some (s_parent s !! v);
  t_parent v u e : s_parent s !! v = Some (u, e) ->
    u ∈ s_visited s /\ e ∈ edges /\ e_from e = u /\ e_to e = v /\ d v = S (d u);
  t_size v : v ∈ s_visited s -> (d v <= size (s_parent s))%nat
}.

Definition closed_at s d v : Prop :=
  forall e, e ∈ edges -> e_from e = v -> e_to e ∈ s_visited s /\ (d (e_to e) <= S (d v))%nat.

(** While [cur] is expanded, with the edges [out] still to follow. *)
Record expanding cur (out : list edge) s d : Prop := {
  x_tree : tree s d;
  x_cur : cur ∈ s_visited s;
  x_target : target ∉ s_visited s;
  x_queue v : v ∈ s_queue s -> v ∈ s_visited s /\ (d cur <= d v)%nat;
  x_sorted : StronglySorted (fun u v => (d u <= d v)%nat) (s_queue s);
  x_levels v : v ∈ s_visited s -> (d v <= S (d cur))%nat;
  x_closed v : v ∈ s_visited s -> v ∉ s_queue s -> v ≠ cur -> closed_at s d v;
  x_done e : e ∈ edges -> e_from e = cur -> e ∈ out \/ e_to e ∈ s_visited s
}.

(** Any path to an unseen target goes through the frontier. *)
Lemma frontier cur out s d v p n :
  expanding cur out s d -> path edges v target p -> v ∈ s_visited s -> (d v <= n)%nat ->
  (S (d cur) <= n + length p)%nat.
Proof.
  intros Hx Hp. remember target as t eqn:Ht. revert n.
  induction Hp as [v|t e p He Hp IH]; intros n Hv Hd; subst; [by destruct (x_target _ _ _ _ Hx)|].
  simpl. destruct (decide (e_from e = cur)) as [E|E]; [rewrite <- E; lia|].
  destruct (decide (e_from e ∈ s_queue s)) as [Hq|Hq].
  { apply (x_queue _ _ _ _ Hx) in Hq as [_ Hq]. lia. }
  destruct (x_closed _ _ _ _ Hx _ Hv Hq E e He eq_refl) as [Hv' Hd'].
  specialize (IH eq_refl (S n) Hv'). lia.
Qed.

Definition bump d v n : string -> nat := fun x => if decide (x = v) then n else d x.

Lemma bump_eq d v n : bump d v n v = n.
Proof. unfold bump. by rewrite decide_True. Qed.
Lemma bump_ne d v n x : x ≠ v -> bump d v n x = d x.
Proof. intros. unfold bump. by rewrite decide_False. Qed.

Lemma bump_old s d v n x : v ∉ s_visited s -> x ∈ s_visited s -> bump d v n x = d x.
Proof. intros Hv Hx. apply bump_ne. by intros ->. Qed.

(** Discovering the end of [e] from [cur]. *)
Lemma tree_discover s d cur e q :
  tree s d -> cur ∈ s_visited s -> e ∈ edges -> e_from e = cur -> e_to e ∉ s_visited s ->
  tree (mkSearch q (<[e_to e := (cur, e)]> (s_parent s)) ({[e_to e]} ∪ s_visited s))
    (bump d (e_to e) (S (d cur))).
Proof.
  intros Ht Hc He Hf Hn.
  assert (s_parent s !! e_to e = None) as Hp.
  { destruct (s_parent s !! e_to e) eqn:E; [|done]. destruct Hn. apply (t_dom _ _ Ht). by right. }
  assert (start ∈ s_visited s) as Hs by (apply (t_dom _ _ Ht); by left).
  constructor; cbn [s_queue s_parent s_visited].
  - rewrite (bump_old s) by done. apply Ht.
  - intros v. rewrite elem_of_union, elem_of_singleton, (t_dom _ _ Ht).
    destruct (decide (v = e_to e)) as [->|Hne].
    + rewrite lookup_insert_eq. split; [right; by eexists|by left].
    + rewrite lookup_insert_ne by done. naive_solver.
  - intros v u e'. destruct (decide (v = e_to e)) as [->|Hne].
    + rewrite lookup_insert_eq. intros [= <- <-]. rewrite bump_eq, (bump_old s d _ _ cur) by done.
      split_and!; [set_solver|done..].
    + rewrite lookup_insert_ne by done. intros (Hu&?&?&?&?)%(t_parent _ _ Ht).
      rewrite (bump_ne _ _ _ v), (bump_old s _ _ _ u) by done. split_and!; [set_solver|done..].
  - intros v Hv. rewrite map_size_insert_None by done. destruct (decide (v = e_to e)) as [->|Hne].
    + rewrite bump_eq. pose proof (t_size _ _ Ht _ Hc). lia.
    + rewrite bump_ne by done. assert (v ∈ s_visited s) as Hv' by set_solver.
      pose proof (t_size _ _ Ht _ Hv'). lia.
Qed.

Lemma expanding_skip cur e out s d :
  expanding cur (e :: out) s d -> e_to e ∈ s_visited s -> expanding cur out s d.
Proof.
  intros [] Hv. constructor; auto. intros e' He' Hf.
  destruct (x_done0 e' He' Hf) as [[->|?]%elem_of_cons|?]; auto.
Qed.

Lemma expanding_push cur e out s d :
  expanding cur (e :: out) s d -> e ∈ edges -> e_from e = cur -> e_to e ∉ s_visited s ->
  e_to e ≠ target ->
  expanding cur out (mkSearch (s_queue s ++ [e_to e]) (<[e_to e := (cur, e)]> (s_parent s))
                       ({[e_to e]} ∪ s_visited s)) (bump d (e_to e) (S (d cur))).
Proof.
  intros Hx He Hf Hn Ht. pose proof Hx as [Htr Hc Htg Hq Hs Hlv Hcl Hdn].
  assert (bump d (e_to e) (S (d cur)) cur = d cur) as Hbc by (by apply (bump_old s)).
  constructor; cbn [s_queue s_parent s_visited]; rewrite ?Hbc.
  - by apply tree_discover.
  - set_solver.
  - set_solver.
  - intros v [[Hv Hd]%Hq|Hv]%elem_of_app.
    + rewrite (bump_old s) by done. split; [set_solver|done].
    + apply list_elem_of_singleton in Hv as ->. rewrite bump_eq. split; [set_solver|lia].
  - apply StronglySorted_app_2.
    + intros u v Hu ->%list_elem_of_singleton. rewrite bump_eq.
      apply Hq in Hu as [Hu _]. rewrite (bump_old s) by done. auto.
    + eapply StronglySorted_impl_In; [|exact Hs]. intros u v Hu Hv ?.
      apply Hq in Hu as [Hu _]. apply Hq in Hv as [Hv _]. by rewrite !(bump_old s) by done.
    + repeat constructor.
  - intros v Hv. destruct (decide (v = e_to e)) as [->|?]; [by rewrite bump_eq|].
    rewrite bump_ne by done. apply Hlv. set_solver.
  - intros v Hv Hvq Hvc e' He' <-. assert (e_from e' ∈ s_visited s) as Hv' by set_solver.
    destruct (Hcl (e_from e') Hv' ltac:(set_solver) Hvc e' He' eq_refl) as [H1 H2].
    rewrite !(bump_old s) by done. cbn [s_visited]. set_solver.
  - intros e' He' Hf'. destruct (Hdn e' He' Hf') as [[->|?]%elem_of_cons|?]; set_solver.
Qed.

(** ** The inner loop *)
Definition unseen s : gset string := list_to_set (e_to <$> edges) ∖ s_visited s.
Definition measure s : nat := length (s_queue s) + size (unseen s).

Lemma measure_push s e q parent :
  e ∈ edges -> e_to e ∉ s_visited s -> q = s_queue s ++ [e_to e] ->
  measure (mkSearch q parent ({[e_to e]} ∪ s_visited s)) = measure s.
Proof.
  intros He Hn ->. unfold measure, unseen. cbn [s_queue s_visited]. rewrite length_app. cbn [length].
  set (T := list_to_set (e_to <$> edges) : gset string).
  assert (e_to e ∈ T) as HT by (apply elem_of_list_to_set; by apply list_elem_of_fmap_2).
  replace (T ∖ s_visited s) with ({[e_to e]} ∪ (T ∖ ({[e_to e]} ∪ s_visited s))).
  - rewrite (size_union {[e_to e]}), size_singleton by set_solver. lia.
  - apply set_eq. intros x. destruct (decide (x = e_to e)); set_solver.
Qed.

(** What the inner loop leaves behind: the target with its depth, which no
    path beats, or the same invariant with nothing left to follow. *)
Definition expand_post cur d (r : bool * search) (m0 : nat) : Prop :=
  if r.1 then
    exists d', tree r.2 d' /\ target ∈ s_visited r.2 /\
      forall p, path edges start target p -> (d' target <= length p)%nat
  else measure r.2 = m0 /\ exists d', expanding cur [] r.2 d'.

Lemma expand_ok cur out s d :
  (forall e, e ∈ out -> e ∈ edges /\ e_from e = cur) -> expanding cur out s d ->
  expand_post cur d (expand target cur out s) (measure s).
Proof using Hok.
  revert s d. induction out as [|e out IH]; intros s d Hout Hx; simpl; [split; eauto|].
  destruct (Hout e ltac:(left)) as [He Hf]. pose proof (edge_in_ok e He) as (_&Hne&_&Hst).
  rewrite Hst, Hne. cbn [negb orb].
  assert (forall e', e' ∈ out -> e' ∈ edges /\ e_from e' = cur) as Hout' by (intros; apply Hout; by right).
  case_bool_decide as Hv; [by eapply IH, expanding_skip|].
  destruct (String.eqb_spec (e_to e) target) as [Et|Et].
  - exists (bump d (e_to e) (S (d cur))). split_and!.
    + apply tree_discover; [by eapply x_tree|by eapply x_cur|done..].
    + cbn [snd s_visited]. rewrite Et. set_solver.
    + intros p Hp. rewrite <- Et, bump_eq.
      assert (start ∈ s_visited s) as Hs by (apply (t_dom _ _ (x_tree _ _ _ _ Hx)); by left).
      apply (frontier cur (e :: out) s d start p 0 Hx Hp Hs).
      by rewrite (t_start _ _ (x_tree _ _ _ _ Hx)).
  - match goal with |- context [expand _ _ _ ?s'] =>
      pose proof (IH s' (bump d (e_to e) (S (d cur))) Hout'
        (expanding_push _ _ _ _ _ Hx He Hf Hv Et)) as Hpost end.
    unfold expand_post in *. case_match; [done|]. by rewrite measure_push in Hpost.
Qed.

(** ** The outer loop *)
Record searching s d : Prop := {
  g_tree : tree s d;
  g_target : target ∉ s_visited s;
  g_queue v : v ∈ s_queue s -> v ∈ s_visited s;
  g_sorted : StronglySorted (fun u v => (d u <= d v)%nat) (s_queue s);
  g_levels cur q v : s_queue s = cur :: q -> v ∈ s_visited s -> (d v <= S (d cur))%nat;
  g_closed v : v ∈ s_visited s -> v ∉ s_queue s -> closed_at s d v
}.

Lemma searching_pop s d cur q :
  searching s d -> s_queue s = cur :: q ->
  expanding cur (filter (fun e => e_from e = cur) edges) (mkSearch q (s_parent s) (s_visited s)) d.
Proof.
  intros [Ht Htg Hq Hs Hl Hc] E. rewrite E in *. apply StronglySorted_inv in Hs as [Hs Hall].
  rewrite Forall_forall in Hall. constructor; cbn [s_queue s_parent s_visited].
  - by destruct Ht.
  - apply Hq. left.
  - done.
  - intros v Hv. split; [apply Hq; by right|by apply Hall].
  - done.
  - eauto.
  - intros v Hv Hvq Hvc. apply Hc; [done|]. by apply not_elem_of_cons.
  - intros e He Hf. left. by apply list_elem_of_filter.
Qed.

Lemma expanding_done cur s d : expanding cur [] s d -> searching s d.
Proof.
  intros Hx. pose proof Hx as [Ht Hc Htg Hq Hs Hl Hcl Hdn]. constructor; try done.
  - intros v Hv. by apply Hq.
  - intros h q v E Hv. assert (h ∈ s_queue s) as [_ Hh]%Hq by (rewrite E; left).
    specialize (Hl v Hv). lia.
  - intros v Hv Hvq. destruct (decide (v = cur)) as [->|?]; [|by apply Hcl].
    intros e He Hf. destruct (Hdn e He Hf) as [Hin|Hto]; [by apply not_elem_of_nil in Hin|]. auto.
Qed.

Lemma searching_exhausted s d p :
  searching s d -> s_queue s = [] -> ~ path edges start target p.
Proof.
  intros [Ht Htg _ _ _ Hc] E Hp.
  assert (start ∈ s_visited s) as Hs by (apply (t_dom _ _ Ht); by left). clear Ht.
  assert (forall v t, path edges v t p -> v ∈ s_visited s -> t ∈ s_visited s) as Hstay; [|naive_solver].
  clear Hp. induction p as [|e p IH]; intros v t Hp Hv; inversion Hp; subst; [done|].
  eapply IH; [done|]. apply (Hc (e_from e)); [done|rewrite E; apply not_elem_of_nil|done|done].
Qed.

Definition bfs_post (r : bool * parents) : Prop :=
  if r.1 then exists s d, s_parent s = r.2 /\ tree s d /\ target ∈ s_visited s /\
      forall p, path edges start target p -> (d target <= length p)%nat
  else forall p, ~ path edges start target p.

Lemma bfs_ok fuel s d :
  searching s d -> (measure s < fuel)%nat ->
  exists r, bfs fuel (adjacency edges) target s = Some r /\ bfs_post r.
Proof using Hok.
  revert s d. induction fuel as [|fuel IH]; intros s d Hg Hm; [lia|]. cbn [bfs].
  destruct (s_queue s) as [|cur q] eqn:Eq.
  { eexists. split; [done|]. intros p. by eapply searching_exhausted. }
  rewrite adjacency_filter. pose proof (searching_pop _ _ _ _ Hg Eq) as Hx.
  assert (forall e, e ∈ filter (fun e => e_from e = cur) edges -> e ∈ edges /\ e_from e = cur) as Hout
    by (intros e [? ?]%list_elem_of_filter; done).
  pose proof (expand_ok cur _ _ _ Hout Hx) as Hpost.
  destruct (expand _ _ _ _) as [[] s']; unfold expand_post in Hpost; cbn [fst snd] in Hpost.
  - eexists. split; [done|]. destruct Hpost as (d'&?&?&?). by exists s', d'.
  - destruct Hpost as [Hm' [d' Hx']]. apply (IH s' d'); [by eapply expanding_done|].
    rewrite Hm'. unfold measure, unseen in *. cbn [s_queue s_visited]. rewrite Eq in Hm.
    cbn [length] in Hm. lia.
Qed.

Lemma searching_init : start ≠ target -> searching (mkSearch [start] ∅ {[start]}) (fun _ => 0%nat).
Proof.
  intros Hne. constructor; cbn [s_queue s_parent s_visited].
  - constructor; cbn [s_parent s_visited]; [done| |done|lia].
    intros v. rewrite lookup_empty. rewrite elem_of_singleton. split; [by left|].
    by intros [?|[? ?]].
  - set_solver.
  - set_solver.
  - repeat constructor.
  - lia.
  - set_solver.
Qed.

Lemma measure_init : (measure (mkSearch [start] ∅ {[start]}) <= S (length edges))%nat.
Proof.
  unfold measure, unseen. cbn [s_queue s_visited length].
  assert (size (list_to_set (e_to <$> edges) ∖ {[start]} : gset string) <=
    size (list_to_set (e_to <$> edges) : gset string))%nat as H1 by (apply subseteq_size; set_solver).
  assert (size (list_to_set (e_to <$> edges) : gset string) <= length edges)%nat; [|lia].
  clear. induction edges as [|e l IH]; [done|]. cbn [fmap list_fmap list_to_set length].
  rewrite size_union_alt. etrans; [apply Nat.add_le_mono_l, subseteq_size|].
  - apply subseteq_difference_l. reflexivity.
  - rewrite size_singleton. cbn. lia.
Qed.

(** ** Reading the path back *)
Lemma walk_back_ok s d fuel v acc :
  tree s d -> v ∈ s_visited s -> (d v < fuel)%nat ->
  exists p, path edges start v p /\ length p = d v /\
    walk_back fuel (s_parent s) start v acc = Ok (acc ++ reverse p).
Proof.
  intros Ht. revert v acc. induction fuel as [|fuel IH]; intros v acc Hv Hd; [lia|]. cbn [walk_back].
  destruct (String.eqb_spec v start) as [->|Hne].
  { exists []. rewrite (t_start _ _ Ht), app_nil_r. split_and!; [constructor|done|done]. }
  apply (t_dom _ _ Ht) in Hv as [?|[[u e] Hp]]; [done|]. rewrite Hp.
  apply (t_parent _ _ Ht) in Hp as (Hu&He&Hf&<-&Hdv).
  destruct (IH u (acc ++ [e]) Hu ltac:(lia)) as (p&Hp&Hlen&->).
  exists (p ++ [e]). split_and!.
  - apply path_snoc; [done|]. by rewrite Hf.
  - rewrite length_app. simpl. lia.
  - by rewrite reverse_snoc, <- app_assoc.
Qed.
End bfs.

(** [plan_state_path] on every input: it returns, a returned plan is a
    shortest path, and no plan means no path. *)
Definition plan_spec (edges : list edge) (start target : string) (r : option (list edge)) : Prop :=
  match r with
  | Some p => path edges start target p /\
      forall p', path edges start target p' -> (length p <= length p')%nat
  | None => forall p, ~ path edges start target p
  end.

Lemma nonempty_ne s : nonempty s = true <-> s ≠ "".
Proof. unfold nonempty. destruct (String.eqb_spec s ""); naive_solver. Qed.

Lemma plan_state_path_spec target from m :
  Forall edge_ok (m_graph_edges m) ->
  nonempty (default (m_state m) from) = true -> nonempty target = true ->
  exists r, plan_state_path target from m = Ok r /\
    plan_spec (m_graph_edges m) (default (m_state m) from) target r.
Proof.
  intros Hok Hs Ht. unfold plan_state_path. set (start := default (m_state m) from) in *.
  rewrite Hs, Ht. cbn [negb orb]. destruct (String.eqb_spec start target) as [<-|Hne].
  { eexists. split; [done|]. split; [constructor|]. intros. simpl. lia. }
  destruct (m_graph_edges m) as [|e0 l] eqn:E.
  { eexists. split; [done|]. intros p Hp. destruct Hp as [|? ? ? He]; [done|]. by apply not_elem_of_nil in He. }
  rewrite <- E in *. clear E e0 l.
  destruct (bfs_ok _ Hok start target (S (S (length (m_graph_edges m)))) _ _
    (searching_init _ Hok _ _ Hne)) as ([[] parent]&->&Hpost).
  { pose proof (measure_init (m_graph_edges m) Hok start). lia. }
  - destruct Hpost as (s&d&Hpa&Htr&Hv&Hmin). cbn [snd] in Hpa. subst parent.
    destruct (walk_back_ok _ _ _ _ (S (size (s_parent s))) target [] Htr Hv) as (p&Hp&Hlen&Hw).
    { pose proof (t_size _ _ _ _ Htr _ Hv). lia. }
    rewrite Hw. cbn [mbind result_bind]. eexists. split; [done|].
    cbn [app]. rewrite reverse_involutive. split; [done|]. rewrite Hlen. exact Hmin.
  - eexists. split; [done|]. exact Hpost.
Qed.
