(* ===== verification/StateTheorems.v ===== *)
(** * The guarantees of state-machine processes *)
From Stdlib Require Import QArith.
From S2P Require Import Prelude PyVal ProcessBase StateMachine StatePlan.
#[local] Open Scope Z_scope.

(** ** Normalised graphs *)
Section graphs.
Context `{!PyRepr}.

Lemma normalize_edge_ok idx item e : normalize_edge idx item = Some e -> edge_ok e.
Proof.
  destruct item as [| | | | | |d]; simpl; try done. unfold text_of.
  set (f := py_str (dget_or d "from_state" _)). set (t := py_str (dget_or d "to_state" _)).
  destruct (nonempty (strip f)) eqn:Hf; [|done]. destruct (nonempty (strip t)) eqn:Ht; [|done].
  simpl. intros [= <-]. unfold edge_ok. simpl. by rewrite !strip_idem.
Qed.

Lemma normalize_edges_ok raw : Forall edge_ok (_normalize_graph_edges raw).
Proof.
  apply Forall_forall. intros e. destruct raw as [| | | | |l|]; simpl;
    try (intros He; by apply not_elem_of_nil in He).
  intros (o&Ho&Ho')%list_elem_of_omap. unfold id in Ho'. subst o.
  apply elem_of_lookup_imap in Ho as (i&x&Hx&_). by eapply normalize_edge_ok.
Qed.

Lemma init_edges_ok pid ns st allowed raw now m :
  init pid ns st allowed raw now = Ok m -> Forall edge_ok (m_graph_edges m).
Proof.
  unfold init. destruct (negb _); [done|].
  match goal with |- context [mbind _ ?t] => destruct t as [tr|] end; [|done].
  cbn [mbind result_bind]. intros [= <-]. apply normalize_edges_ok.
Qed.
End graphs.

Lemma derived_targets edges s t :
  Forall edge_ok edges ->
  t ∈ targets_of (_derive_allowed_transitions_from_graph_edges edges) s <->
  exists e, e ∈ edges /\ e_from e = s /\ e_to e = t.
Proof.
  induction edges as [|e l IH] using rev_ind; intros Hok.
  { unfold targets_of. simpl. split; [set_solver|]. intros (e&He&_). by apply not_elem_of_nil in He. }
  apply Forall_app in Hok as [Hl [(Hn&Hn'&Hs&Hs') _]%Forall_cons]. specialize (IH Hl).
  unfold _derive_allowed_transitions_from_graph_edges. rewrite foldl_snoc.
  fold (_derive_allowed_transitions_from_graph_edges l). cbn zeta. rewrite Hs, Hs', Hn, Hn'. cbn [negb orb].
  unfold targets_of in *. destruct (decide (e_from e = s)) as [<-|Hne].
  - rewrite lookup_insert_eq. cbn [default]. cbn. rewrite elem_of_union, elem_of_singleton.
    setoid_rewrite elem_of_app. setoid_rewrite list_elem_of_singleton. naive_solver.
  - rewrite lookup_insert_ne by done. rewrite IH.
    setoid_rewrite elem_of_app. setoid_rewrite list_elem_of_singleton. naive_solver.
Qed.

(** C8. [plan_state_path] always returns: a plan it finds is a chain of graph
    edges from the start to the target, and no chain is shorter; when it
    answers [None] there is no chain at all. *)
Theorem plan_state_path_shortest target from m :
  Forall edge_ok (m_graph_edges m) ->
  nonempty (default (m_state m) from) = true -> nonempty target = true ->
  exists r, plan_state_path target from m = Ok r /\
    plan_spec (m_graph_edges m) (default (m_state m) from) target r.
Proof. apply plan_state_path_spec. Qed.

(** ** The nearest of several targets *)
Section any.
Context (m : machine) (Hok : Forall edge_ok (m_graph_edges m)) (start : string).
Context (Hstart : nonempty start = true).

Definition best_spec (targets : list string) (r : option (list edge)) : Prop :=
  match r with
  | Some p => (exists t, t ∈ targets /\ path (m_graph_edges m) start t p) /\
      forall t p', t ∈ targets -> path (m_graph_edges m) start t p' -> (length p <= length p')%nat
  | None => forall t p, t ∈ targets -> ~ path (m_graph_edges m) start t p
  end.

Lemma best_spec_snoc ts t best r :
  best_spec ts best -> plan_spec (m_graph_edges m) start t r ->
  best_spec (ts ++ [t])
    (match r, best with
     | None, _ => best
     | Some p, None => Some p
     | Some p, Some b => if (length p <? length b)%nat then Some p else best
     end).
Proof.
  assert (forall x, x ∈ ts ++ [t] <-> x ∈ ts \/ x = t) as Hin
    by (intros; by rewrite elem_of_app, list_elem_of_singleton).
  unfold best_spec, plan_spec. destruct best as [b|], r as [p|]; simpl; [|naive_solver..].
  intros [(t0&Ht0&Hb) Hmin] [Hp Hpmin]. destruct (Nat.ltb_spec (length p) (length b)).
  - split; [exists t; by rewrite Hin; auto|]. intros t' p' [Ht'| ->]%Hin Hp'; [|auto].
    specialize (Hmin t' p' Ht' Hp'). lia.
  - split; [exists t0; by rewrite Hin; auto|]. intros t' p' [Ht'| ->]%Hin Hp'; [eauto|].
    specialize (Hpmin p' Hp'). lia.
Qed.

Lemma best_of_ok ts done best :
  Forall (fun t => nonempty t = true) ts -> best_spec done best ->
  exists r, best_of start ts best m = Ok r /\ best_spec (done ++ ts) r.
Proof using Hok Hstart.
  revert done best. induction ts as [|t ts IH]; intros dn best Hne Hb; cbn [best_of].
  { exists best. by rewrite app_nil_r. }
  apply Forall_cons in Hne as [Ht Hne].
  destruct (plan_state_path_spec t (Some start) m Hok Hstart Ht) as (r&->&Hr). cbn [mbind result_bind].
  destruct (IH (dn ++ [t]) _ Hne (best_spec_snoc _ _ _ _ Hb Hr)) as (r'&->&Hr').
  exists r'. by rewrite <- app_assoc in Hr'.
Qed.
End any.

(** The set of targets [plan_state_path_to_any] considers. *)
Definition any_targets (target_states : list string) : gset string :=
  list_to_set (filter (fun s => nonempty s) (strip <$> target_states)).

Lemma any_targets_nonempty ts t : t ∈ any_targets ts -> nonempty t = true.
Proof.
  unfold any_targets. rewrite elem_of_list_to_set. intros [? _]%list_elem_of_filter.
  by destruct (nonempty t).
Qed.

(** [plan_state_path_to_any] returns a path to one of the requested
    states that is no longer than any path to any of them, and [None] exactly
    when none of them can be reached. *)
Theorem plan_to_any_shortest targets from m :
  Forall edge_ok (m_graph_edges m) -> nonempty (default (m_state m) from) = true ->
  exists r, plan_state_path_to_any targets from m = Ok r /\
    best_spec m (default (m_state m) from) (sorted_set (any_targets targets)) r.
Proof.
  intros Hok Hs. unfold plan_state_path_to_any. fold (any_targets targets).
  set (start := default (m_state m) from) in *. case_bool_decide as He.
  { eexists. split; [done|]. intros t p Ht. rewrite elem_of_sorted_set, He in Ht. set_solver. }
  case_bool_decide as Hin.
  { eexists. split; [done|]. split; [|intros; simpl; lia].
    exists start. rewrite elem_of_sorted_set. split; [done|constructor]. }
  apply (best_of_ok m Hok start Hs (sorted_set (any_targets targets)) [] None).
  - apply Forall_forall. intros t. rewrite elem_of_sorted_set. apply any_targets_nonempty.
  - intros t p Ht. by apply not_elem_of_nil in Ht.
Qed.

(** ** History *)
Lemma append_history_shape now entry m :
  (length (m_history m) <= _history_max)%nat ->
  m_history (_append_history_entry now entry m) =
    drop (S (length (m_history m)) - _history_max) (m_history m ++ [setdefault entry "ts" (ts_payload now)]).
Proof.
  intros Hl. unfold _append_history_entry, with_history. cbn [m_history set_field].
  rewrite length_app. cbn [length]. rewrite Nat.add_1_r.
  destruct (Nat.ltb_spec _history_max (S (length (m_history m)))); [done|].
  by replace (S (length (m_history m)) - _history_max)%nat with 0%nat by lia.
Qed.

Definition append_all (es : list (stamp * dict)) (m : machine) : machine :=
  foldl (fun m '(now, e) => _append_history_entry now e m) m es.

Definition stamped (e : stamp * dict) : dict := setdefault e.2 "ts" (ts_payload e.1).

(** The history keeps exactly the most recent 500 entries, in order, each
    with a timestamp; it never grows beyond that bound. *)
Theorem history_keeps_last es m :
  (length (m_history m) <= _history_max)%nat ->
  m_history (append_all es m) = last_n _history_max (m_history m ++ (stamped <$> es)) /\
  (length (m_history (append_all es m)) <= 500)%nat.
Proof.
  intros Hl. assert (m_history (append_all es m) =
    last_n _history_max (m_history m ++ (stamped <$> es))) as ->; [|split; [done|apply length_last_n]].
  revert m Hl. induction es as [|[now e] es IH]; intros m Hl; cbn [append_all foldl fmap list_fmap].
  { rewrite app_nil_r. unfold last_n. by replace (length (m_history m) - _history_max)%nat with 0%nat by lia. }
  fold (append_all es (_append_history_entry now e m)).
  assert (m_history (_append_history_entry now e m) = last_n _history_max (m_history m ++ [stamped (now, e)]))
    as Hstep.
  { rewrite append_history_shape by done. unfold last_n. rewrite length_app. cbn [length].
    by rewrite Nat.add_1_r. }
  rewrite IH by (rewrite Hstep; apply length_last_n). rewrite Hstep, last_n_app.
  by rewrite <- app_assoc.
Qed.

(** ** What each operation leaves alone *)
Lemma append_frame now e m :
  let m' := _append_history_entry now e m in
  m_state m' = m_state m /\ m_allowed_transitions m' = m_allowed_transitions m /\
  m_graph_edges m' = m_graph_edges m /\ m_last_transition m' = m_last_transition m /\
  m_initial_state m' = m_initial_state m /\ m_last_error m' = m_last_error m /\
  m_has_manager m' = m_has_manager m /\ m_published m' = m_published m.
Proof. done. Qed.

Lemma publish_frame f t r md o m :
  let m' := publish_transition_event f t r md o m in
  m_state m' = m_state m /\ m_allowed_transitions m' = m_allowed_transitions m /\
  m_graph_edges m' = m_graph_edges m /\ m_last_transition m' = m_last_transition m /\
  m_initial_state m' = m_initial_state m /\ m_history m' = m_history m.
Proof.
  unfold publish_transition_event. destruct (negb (m_has_manager m)); [done|].
  destruct o; simpl; destruct (m_last_error m) as [e|]; simpl; try done;
    [destruct (nonempty e)|destruct (nonempty e && _)]; done.
Qed.

Lemma set_last_error_frame now msg m :
  let m' := _set_last_error now msg m in
  m_state m' = m_state m /\ m_allowed_transitions m' = m_allowed_transitions m /\
  m_last_transition m' = m_last_transition m /\ m_initial_state m' = m_initial_state m.
Proof. unfold _set_last_error. destruct msg as [e|]; [destruct (nonempty e)|]; done. Qed.

(** A publish-failure message kept in [last_error]. *)
Definition publish_error (e : option string) : Prop :=
  exists s, e = Some s /\ nonempty s = true /\ startswith s _TRANSITION_PUBLISH_ERROR_PREFIX = true.

(** An operational error: any other non-empty message. *)
Definition operational_error (e : option string) : Prop :=
  exists s, e = Some s /\ nonempty s = true /\ startswith s _TRANSITION_PUBLISH_ERROR_PREFIX = false.

Definition no_error (e : option string) : Prop := e = None \/ e = Some "".

(** Publishing a transition never hides an operational error and never
    leaves a stale publish error: an operational error survives every
    outcome; with no error recorded a failed publish records one (with the
    publish prefix) and a successful one records none; a successful publish
    clears an earlier publish error. *)
Theorem publish_error_discipline from to reason metadata outcome m :
  m_has_manager m = true ->
  let m' := publish_transition_event from to reason metadata outcome m in
  (operational_error (m_last_error m) -> m_last_error m' = m_last_error m) /\
  (no_error (m_last_error m) ->
     match outcome with Some _ => publish_error (m_last_error m') | None => no_error (m_last_error m') end) /\
  (outcome = None -> publish_error (m_last_error m) -> m_last_error m' = None).
Proof.
  intros Hm. unfold publish_transition_event. rewrite Hm. cbn [negb].
  split_and!.
  - intros (s&Hs&Hn&Hp). destruct outcome; cbn [m_last_error with_published set_field]; rewrite Hs, Hn; [done|by rewrite Hp].
  - intros [Hs|Hs]; destruct outcome as [exc|]; cbn [m_last_error with_published set_field]; rewrite Hs;
      cbn [nonempty String.eqb negb andb with_error m_last_error set_field];
      try (by eexists; split_and!; [done|done|apply startswith_app]); [by left|by right].
  - intros -> (s&Hs&Hn&Hp). cbn [m_last_error with_published set_field]. by rewrite Hs, Hn, Hp.
Qed.

(** ** Transitions follow the graph *)
Section legal.
Context (on_exit on_enter :
  string -> option (string -> option string -> option dict -> pyM machine unit)).

(** Hooks may do anything except reassign the state or the graph. *)
Definition keeps_state (h : string -> option (string -> option string -> option dict -> pyM machine unit))
    : Prop :=
  forall st fn a r md m, h st = Some fn ->
    m_state (fn a r md m).2 = m_state m /\
    m_allowed_transitions (fn a r md m).2 = m_allowed_transitions m.

Lemma exit_keeps from to r md m : keeps_state on_exit ->
  m_state (_on_state_exit on_exit from to r md m).2 = m_state m /\
  m_allowed_transitions (_on_state_exit on_exit from to r md m).2 = m_allowed_transitions m.
Proof. intros Hk. unfold _on_state_exit. destruct (on_exit (lower from)) eqn:E; [by eapply Hk|done]. Qed.

Lemma enter_keeps from to r md m : keeps_state on_enter ->
  m_state (_on_state_enter on_enter from to r md m).2 = m_state m /\
  m_allowed_transitions (_on_state_enter on_enter from to r md m).2 = m_allowed_transitions m.
Proof. intros Hk. unfold _on_state_enter. destruct (on_enter (lower to)) eqn:E; [by eapply Hk|done]. Qed.

Lemma record_publish_state src dst r meta md now o m :
  let m' := publish_transition_event src dst r md o (record_transition src dst r meta now m) in
  m_state m' = dst /\ m_allowed_transitions m' = m_allowed_transitions m.
Proof.
  intros m'. destruct (publish_frame src dst r md o (record_transition src dst r meta now m))
    as (H1&H2&_). unfold m'. by rewrite H1, H2.
Qed.

(** The machine right after an allowed move out of [src]: the new state, when
    and why it was entered, the history entry and the bus event. *)
Definition moved (src dst : string) (reason : option string) (metadata : option dict)
    (now : stamp) (o : option string) (m1 m2 : machine) : Prop :=
  m2 = publish_transition_event src dst reason metadata o
         (record_transition src dst reason (or_empty metadata) now m1) /\
  m_state m2 = dst /\
  m_last_transition m2 =
    Some [("from_state", PStr src); ("to_state", PStr dst); ("reason", opt_str reason);
          ("ts", ts_payload now); ("metadata", PDict (or_empty metadata))].

Lemma moved_intro src dst reason metadata now o m1 :
  moved src dst reason metadata now o m1
    (publish_transition_event src dst reason metadata o
       (record_transition src dst reason (or_empty metadata) now m1)).
Proof.
  destruct (publish_frame src dst reason metadata o
              (record_transition src dst reason (or_empty metadata) now m1)) as (H1&_&_&H4&_).
  split; [done|]. split; [by rewrite H1|by rewrite H4].
Qed.

(** C38. For hooks that reassign neither the state nor the graph,
    [transition] moves only along the allowed graph. [False]: nothing has
    changed, and the move is not allowed (or the machine is already there and
    a no-op is not accepted). [True]: the machine was already there and
    nothing has changed, or the move was allowed, the exit hook ran in the
    old state, then the move was recorded and published, then the enter hook
    ran in the new state, and the machine is in it. An error is the exit
    hook's, raised in the old state with nothing recorded and the machine
    still in it, or the enter hook's, raised after the recorded move with the
    machine in the new state. *)
Theorem transition_legal dst reason metadata noop now o m :
  keeps_state on_exit -> keeps_state on_enter ->
  let '(r, m') := transition on_exit on_enter dst reason metadata noop now o m in
  let exit := _on_state_exit on_exit (m_state m) dst reason metadata in
  let enter := _on_state_enter on_enter (m_state m) dst reason metadata in
  match r with
  | Ok false =>
      m' = m /\ (m_state m = dst /\ noop = false \/
                m_state m <> dst /\ can_transition dst None m = false)
  | Ok true =>
      m_state m = dst /\ noop = true /\ m' = m \/
      m_state m <> dst /\ can_transition dst None m = true /\
      (exists m1 m2, exit m = (Ok tt, m1) /\ m_state m1 = m_state m /\
         moved (m_state m) dst reason metadata now o m1 m2 /\
         enter m2 = (Ok tt, m') /\ m_state m' = dst)
  | Err e =>
      m_state m <> dst /\ can_transition dst None m = true /\
      (exit m = (Err e, m') /\ m_state m' = m_state m \/
       exists m1 m2, exit m = (Ok tt, m1) /\ m_state m1 = m_state m /\
         moved (m_state m) dst reason metadata now o m1 m2 /\
         enter m2 = (Err e, m') /\ m_state m' = dst)
  end.
Proof.
  intros Hx He. unfold transition, mbind, pyM_bind, gets.
  destruct (String.eqb_spec (m_state m) dst) as [Es|Es]; [destruct noop; [by left|by split; [|left]]|].
  change (can_transition dst (Some (m_state m)) m) with (can_transition dst None m).
  destruct (can_transition dst None m) eqn:Hc; cbn [negb]; [|by split; [|right]].
  destruct (exit_keeps (m_state m) dst reason metadata m Hx) as [Hxs _].
  destruct (_on_state_exit _ _ _ _ _ m) as [[[]|e] m1] eqn:Eex; cbn [fst snd] in *;
    [|split_and!; [done..|by left]].
  unfold modify.
  pose proof (moved_intro (m_state m) dst reason metadata now o m1) as Hm. revert Hm.
  generalize (publish_transition_event (m_state m) dst reason metadata o
    (record_transition (m_state m) dst reason (or_empty metadata) now m1)). intros m2 Hm.
  destruct (enter_keeps (m_state m) dst reason metadata m2 He) as [Hes _].
  assert (m_state m2 = dst) as H2 by apply Hm.
  destruct (_on_state_enter _ _ _ _ _ m2) as [[[]|e'] m3] eqn:Een; cbn [snd] in Hes;
    [right|]; (split; [done|]; split; [done|]); [|right]; exists m1, m2; split_and!; congruence || done.
Qed.
End legal.

(** ** Following a plan *)
Definition no_hooks (st : string) :
  option (string -> option string -> option dict -> pyM machine unit) := None.

(** Every hook returns normally and leaves state and graph alone. *)
Definition quiet_hooks (h : string -> option (string -> option string -> option dict -> pyM machine unit))
    : Prop :=
  keeps_state h /\ forall st fn a r md m, h st = Some fn -> fst (fn a r md m) = Ok tt.

Section follow.
Context (on_exit on_enter :
  string -> option (string -> option string -> option dict -> pyM machine unit)).
Context (Hexit : quiet_hooks on_exit) (Henter : quiet_hooks on_enter).

(** The calls a client makes to follow a plan, edge by edge. *)
Definition follow (reason : option string) (metadata : option dict) (now : stamp)
    (outcome : option string) (plan : list edge) : pyM machine unit :=
  forM (fun e => ok ← transition on_exit on_enter (e_to e) reason metadata true now outcome;
                 guard_raise (negb ok) (RuntimeError "transition refused")) plan.

Lemma transition_moves dst reason metadata now o m :
  m_state m = dst \/ dst ∈ targets_of (m_allowed_transitions m) (m_state m) ->
  exists m', transition on_exit on_enter dst reason metadata true now o m = (Ok true, m') /\
    m_state m' = dst /\ m_allowed_transitions m' = m_allowed_transitions m.
Proof using Hexit Henter.
  intros Hal. unfold transition, mbind, pyM_bind, gets.
  destruct (String.eqb_spec (m_state m) dst) as [Es|Es]; [by exists m|].
  destruct Hal as [?|Hal]; [done|]. unfold can_transition. cbn [default].
  rewrite bool_decide_eq_true_2 by done. cbn [negb].
  destruct Hexit as [Hx Hx'], Henter as [He He'].
  destruct (exit_keeps on_exit (m_state m) dst reason metadata m Hx) as [Hxs Hxt].
  assert (fst (_on_state_exit on_exit (m_state m) dst reason metadata m) = Ok tt) as Hxo.
  { unfold _on_state_exit. destruct (on_exit _) eqn:E; [by eapply Hx'|done]. }
  destruct (_on_state_exit _ _ _ _ _ m) as [rx m1]; cbn [fst snd] in *. subst rx. unfold modify.
  destruct (record_publish_state (m_state m) dst reason (or_empty metadata) metadata now o m1)
    as [Hst Htr]. cbn zeta in Hst, Htr.
  match goal with |- context [_on_state_enter _ _ _ _ _ ?m2] => set (m2' := m2) in * end.
  destruct (enter_keeps on_enter (m_state m) dst reason metadata m2' He) as [Hes Het].
  assert (fst (_on_state_enter on_enter (m_state m) dst reason metadata m2') = Ok tt) as Heo.
  { unfold _on_state_enter. destruct (on_enter _) eqn:E; [by eapply He'|done]. }
  destruct (_on_state_enter _ _ _ _ _ m2') as [re m3]; cbn [fst snd] in *. subst re.
  exists m3. split; [done|]. split; congruence.
Qed.

(** On a machine whose transitions come from its graph edges, every
    plan returned by [plan_state_path] can be executed: calling
    [transition] along it is never refused and ends in the target state. *)
Theorem plan_is_executable target m p reason metadata now o :
  Forall edge_ok (m_graph_edges m) ->
  m_allowed_transitions m = _derive_allowed_transitions_from_graph_edges (m_graph_edges m) ->
  nonempty (m_state m) = true -> nonempty target = true ->
  plan_state_path target None m = Ok (Some p) ->
  exists m', follow reason metadata now o p m = (Ok tt, m') /\ m_state m' = target.
Proof using Hexit Henter.
  intros Hok Hal Hs Ht Hplan.
  destruct (plan_state_path_spec target None m Hok Hs Ht) as (r&Hr&Hspec).
  rewrite Hplan in Hr. simplify_eq. destruct Hspec as [Hp _]. cbn in Hp.
  remember (m_graph_edges m) as edges eqn:Eed. clear Hplan Hs Ht Eed.
  remember (m_state m) as s0 eqn:Es. revert m Hal Es.
  induction Hp as [s|t e p He Hp IH]; intros m Hal Es; cbn [follow forM]; [by exists m|].
  unfold mbind, pyM_bind.
  destruct (transition_moves (e_to e) reason metadata now o m) as (m1&->&Hm1&Hm1').
  { right. rewrite Hal, <- Es. apply derived_targets; [done|]. by exists e. }
  cbn [guard_raise negb mret pyM_ret]. destruct (IH m1) as (m2&Hm2&Ht2); [congruence|done|].
  exists m2. split; [exact Hm2|done].
Qed.
End follow.

(** ** The machine as a step relation *)
Definition sm_inv (m : machine) : Prop :=
  (length (m_history m) <= 500)%nat /\
  Forall (fun row => dhas row "ts" = true) (m_history m) /\
  match m_last_transition m with
  | None => m_state m = m_initial_state m
  | Some lt => dget lt "to_state" = PStr (m_state m) /\ dget lt "from_state" ≠ PStr (m_state m)
  end.

Section reach.
Context `{!PyRepr}.
Context (on_exit on_enter :
  string -> option (string -> option string -> option dict -> pyM machine unit)).
Context (stop : pyM machine unit) (exc_text : pyexc -> string) (is_ok : pyval -> bool).

(** One call of an operation of the process. *)
Inductive sm_step : machine -> machine -> Prop :=
| st_transition dst r md noop now o m :
    sm_step m (snd (transition on_exit on_enter dst r md noop now o m))
| st_force dst r md noop now o m :
    sm_step m (snd (force_transition dst r md noop now o m))
| st_error now msg m : sm_step m (_set_last_error now msg m)
| st_publish f t r md o m : sm_step m (publish_transition_event f t r md o m)
| st_command call dev act ps tmo m : sm_step m (snd (command is_ok call dev act ps tmo m))
| st_rpc extra ats aes detail now req m :
    sm_step m (snd (handle_state_machine_rpc stop exc_text extra ats aes detail now req m)).

(** Hooks, and the stop method, are themselves made of such calls. *)
Definition hook_preserves (fn : pyM machine unit) : Prop := forall m, sm_inv m -> sm_inv (snd (fn m)).
Definition hooks_preserve
    (h : string -> option (string -> option string -> option dict -> pyM machine unit)) : Prop :=
  forall st fn a r md, h st = Some fn -> hook_preserves (fn a r md).

Lemma dhas_setdefault_eq d k v : dhas (setdefault d k v) k = true.
Proof. rewrite dhas_setdefault, (bool_decide_eq_true_2 (k = k)) by done. apply orb_true_r. Qed.

Lemma inv_append now e m : sm_inv m -> sm_inv (_append_history_entry now e m).
Proof.
  intros (Hl&Hts&Hlt). split_and!; [| |exact Hlt]; rewrite append_history_shape by done.
  - rewrite length_drop, length_app. unfold _history_max. cbn [length]. lia.
  - apply Forall_drop, Forall_app. split; [done|]. apply Forall_singleton, dhas_setdefault_eq.
Qed.

Lemma inv_record src dst r meta now m :
  src ≠ dst -> sm_inv m -> sm_inv (record_transition src dst r meta now m).
Proof.
  intros Hne (Hl&Hts&_). unfold record_transition. apply inv_append. split_and!; [done|done|].
  cbn [m_last_transition m_state with_state set_field]. unfold dget. simpl. split; [done|]. congruence.
Qed.

Lemma inv_publish f t r md o m : sm_inv m -> sm_inv (publish_transition_event f t r md o m).
Proof.
  destruct (publish_frame f t r md o m) as (Hs&_&_&Hlt&Hi&Hh). unfold sm_inv.
  by rewrite Hs, Hlt, Hi, Hh.
Qed.

Lemma inv_error now msg m : sm_inv m -> sm_inv (_set_last_error now msg m).
Proof.
  intros Hi. unfold _set_last_error. destruct msg as [e|]; [destruct (nonempty e)|]; try exact Hi.
  by apply inv_append.
Qed.

Lemma inv_transition dst r md noop now o m :
  hooks_preserve on_exit -> hooks_preserve on_enter ->
  sm_inv m -> sm_inv (snd (transition on_exit on_enter dst r md noop now o m)).
Proof.
  intros Hx He Hi. unfold transition, mbind, pyM_bind, gets.
  destruct (String.eqb_spec (m_state m) dst) as [|Hne]; [done|]. destruct (negb _); [done|].
  assert (sm_inv (snd (_on_state_exit on_exit (m_state m) dst r md m))) as H1.
  { unfold _on_state_exit. destruct (on_exit _) eqn:E; [by eapply Hx|done]. }
  destruct (_on_state_exit _ _ _ _ _ m) as [[|] m1]; [|done]. unfold modify.
  match goal with |- context [_on_state_enter _ _ _ _ _ ?m2] => assert (sm_inv m2) as H2 end.
  { by apply inv_publish, inv_record. }
  match goal with |- context [_on_state_enter _ _ _ _ _ ?m2] =>
    assert (sm_inv (snd (_on_state_enter on_enter (m_state m) dst r md m2))) as H3 end.
  { unfold _on_state_enter. destruct (on_enter _) eqn:E; [by eapply He|done]. }
  by destruct (_on_state_enter _ _ _ _ _ _) as [[|] m3].
Qed.

Lemma inv_force dst r md noop now o m :
  sm_inv m -> sm_inv (snd (force_transition dst r md noop now o m)).
Proof.
  intros Hi. unfold force_transition, mbind, pyM_bind, gets.
  destruct (String.eqb_spec (m_state m) dst) as [|Hne]; [done|]. by apply inv_publish, inv_record.
Qed.

Lemma inv_command call dev act ps tmo m : sm_inv m -> sm_inv (snd (command is_ok call dev act ps tmo m)).
Proof.
  intros Hi. unfold command, mbind, pyM_bind, gets, guard_raise, lift, modify.
  destruct (negb (m_has_manager m)); [done|]. cbn [mret pyM_ret].
  match goal with |- context [call ?a ?b] => destruct (call a b) as [resp|] end; [|exact Hi].
  destruct (negb (is_dict resp) || negb (is_ok resp)); exact Hi.
Qed.

Lemma inv_rpc extra ats aes detail now req m :
  hook_preserves stop -> sm_inv m ->
  sm_inv (snd (handle_state_machine_rpc stop exc_text extra ats aes detail now req m)).
Proof.
  intros Hs Hi. unfold handle_state_machine_rpc, _handle_common_rpc, mbind, pyM_bind.
  destruct (String.eqb _ "process.stop").
  { specialize (Hs m Hi). by destruct (stop m) as [[|] m1]. }
  unfold get. repeat (case_match; try exact Hi).
Qed.

(** Whatever sequence of transitions, forced transitions, errors,
    publishes, device commands and RPCs a process performs, its history
    stays within 500 timestamped entries, and [last_transition] always
    describes the move into the current state (with no transition recorded,
    the machine is still in its initial state). *)
Theorem reachable_inv pid ns st allowed raw now m0 m :
  hooks_preserve on_exit -> hooks_preserve on_enter -> hook_preserves stop ->
  init pid ns st allowed raw now = Ok m0 -> rtc sm_step m0 m -> sm_inv m.
Proof.
  intros Hx He Hs Hm0 Hr. assert (sm_inv m0) as Hi.
  { revert Hm0. unfold init. destruct (negb _); [done|].
    match goal with |- context [mbind _ ?t] => destruct t end; [|done]. cbn [mbind result_bind].
    intros [= <-]. split_and!; [simpl; lia|constructor|done]. }
  clear Hm0. induction Hr as [m|m1 m2 m3 Hst _ IH]; [done|]. apply IH. destruct Hst.
  - by apply inv_transition.
  - by apply inv_force.
  - by apply inv_error.
  - by apply inv_publish.
  - by apply inv_command.
  - by apply inv_rpc.
Qed.
End reach.

(** ** The graph payload *)
Lemma graph_states_spec m s :
  s ∈ graph_states m <-> (exists f t, t ∈ targets_of (m_allowed_transitions m) f /\ s = t) \/
    s ∈ dom (m_allowed_transitions m) \/ (nonempty (m_state m) = true /\ s = m_state m).
Proof.
  unfold graph_states, targets_of. set (tr := m_allowed_transitions m).
  assert (forall (X : gset string), s ∈ map_fold (fun _ dsts acc => acc ∪ dsts) X tr <->
    s ∈ X \/ exists f D, tr !! f = Some D /\ s ∈ D) as Hf.
  { intros X. apply (map_fold_weak_ind (fun (r : gset string) (mm : transitions) =>
      s ∈ r <-> s ∈ X \/ exists f D, mm !! f = Some D /\ s ∈ D)).
    - setoid_rewrite lookup_empty. naive_solver.
    - intros i D mm r Hi IH. rewrite elem_of_union, IH. split.
      + intros [[?|(f&D'&Hfd&?)]|?]; [by left| |].
        * right. exists f, D'. rewrite lookup_insert_ne by (intros ->; congruence). done.
        * right. exists i, D. by rewrite lookup_insert_eq.
      + intros [?|(f&D'&Hfd&?)]; [auto|]. destruct (decide (i = f)) as [->|?].
        * rewrite lookup_insert_eq in Hfd. simplify_eq. auto.
        * rewrite lookup_insert_ne in Hfd by done. eauto 10. }
  assert ((exists f D, tr !! f = Some D /\ s ∈ D) <->
    (exists f t, t ∈ default ∅ (tr !! f) /\ s = t)) as He.
  { split; [intros (f&D&E&?); exists f, s; by rewrite E|].
    intros (f&t&Ht& ->). destruct (tr !! f) as [D|] eqn:E; [eauto|set_solver]. }
  destruct (nonempty (m_state m)); rewrite ?elem_of_union, ?elem_of_singleton, Hf, He; naive_solver.
Qed.

Lemma row_ends es f t :
  r_from (transition_row_of es f t) = f /\ r_to (transition_row_of es f t) = t.
Proof. unfold transition_row_of. by case_match. Qed.

Lemma graph_pairs m :
  (fun r => (r_from r, r_to r)) <$> graph_transitions m =
  sorted_set (dom (m_allowed_transitions m)) ≫= fun f =>
    pair f <$> sorted_set (targets_of (m_allowed_transitions m) f).
Proof.
  unfold graph_transitions. set (tr := m_allowed_transitions m).
  induction (sorted_set (dom tr)) as [|f l IH]; [done|]. cbn. rewrite fmap_app, IH. f_equal.
  induction (sorted_set (targets_of tr f)) as [|t k IHk]; [done|]. cbn. rewrite IHk.
  by destruct (row_ends (m_graph_edges m) f t) as [-> ->].
Qed.

(** The graph payload lists each allowed transition exactly once, and its
    state list contains both ends of every row and the current state. *)
Theorem graph_payload_complete m :
  NoDup ((fun r => (r_from r, r_to r)) <$> graph_transitions m) /\
  (forall f t, (f, t) ∈ ((fun r => (r_from r, r_to r)) <$> graph_transitions m) <->
     t ∈ targets_of (m_allowed_transitions m) f) /\
  (forall r, r ∈ graph_transitions m ->
     r_from r ∈ sorted_set (graph_states m) /\ r_to r ∈ sorted_set (graph_states m)).
Proof.
  set (tr := m_allowed_transitions m).
  assert (forall r, r ∈ graph_transitions m <-> exists f t, f ∈ dom tr /\ t ∈ targets_of tr f /\
    r = transition_row_of (m_graph_edges m) f t) as Hr.
  { intros r. unfold graph_transitions. rewrite list_elem_of_bind. fold tr.
    setoid_rewrite list_elem_of_bind. setoid_rewrite list_elem_of_singleton.
    setoid_rewrite elem_of_sorted_set. naive_solver. }
  assert (forall f t, t ∈ targets_of tr f -> f ∈ dom tr) as Hdom.
  { intros f t. unfold targets_of. rewrite elem_of_dom. destruct (tr !! f) eqn:E; [by eexists|set_solver]. }
  split_and!.
  - rewrite graph_pairs. apply NoDup_bind; [| |apply sorted_set_NoDup].
    + intros f f' [a b] _ _ (?&[= -> ->]&_)%list_elem_of_fmap (?&[= -> ->]&_)%list_elem_of_fmap. done.
    + intros f _. apply NoDup_fmap; [by intros ?? [= ?]|apply sorted_set_NoDup].
  - intros f t. rewrite list_elem_of_fmap. split.
    + intros (r&E&(f'&t'&_&Ht&->)%Hr). destruct (row_ends (m_graph_edges m) f' t') as [E1 E2].
      rewrite E1, E2 in E. by simplify_eq.
    + intros Ht. exists (transition_row_of (m_graph_edges m) f t).
      destruct (row_ends (m_graph_edges m) f t) as [-> ->]. split; [done|]. apply Hr. eauto 10.
  - intros r (f&t&Hf&Ht&->)%Hr. destruct (row_ends (m_graph_edges m) f t) as [-> ->].
    rewrite !elem_of_sorted_set, !graph_states_spec. eauto 10.
Qed.

(** ** The history RPC *)
Fixpoint last_char (s : string) : option ascii :=
  match s with
  | EmptyString => None
  | String c r => match last_char r with Some c' => Some c' | None => Some c end
  end.

Lemma last_char_app p c s : last_char (p +:+ String c s) = last_char (String c s).
Proof.
  induction p as [|c' p IH]; [done|].
  change (match last_char (p +:+ String c s) with Some x => Some x | None => Some c' end =
    last_char (String c s)). rewrite IH. simpl. by destruct (last_char s).
Qed.

Lemma suffix_neq p q c s c' s' :
  last_char (String c s) ≠ last_char (String c' s') ->
  String.eqb (p +:+ String c s) (q +:+ String c' s') = false.
Proof.
  intros Hne. apply String.eqb_neq. intros E. apply Hne.
  rewrite <- (last_char_app p c s), <- (last_char_app q c' s'). by rewrite E.
Qed.

(** [<ns>.history.tail] answers with the most recent rows of the
    (optionally error-only) history: exactly the last [limit] of them for the
    requested limit clamped to 1..500, and changes nothing. *)
Theorem history_tail_rpc `{!PyRepr} stop exc extra ats aes detail now req m ps z :
  dget_or req "type" (PStr "") = PStr (m_rpc_namespace m +:+ ".history.tail") ->
  py_or (dget_or req "params" (PDict [])) (PDict []) = PDict ps ->
  py_int (dget_or ps "limit" (PInt 100)) = Ok z ->
  let errors_only := truthy (dget_or ps "errors_only" (PBool false)) in
  let rows := last_n (Z.to_nat (Z.max 1 (Z.min z 500)))
    (if errors_only then filter (fun r => is_error_row r) (m_history m) else m_history m) in
  handle_state_machine_rpc stop exc extra ats aes detail now req m =
    (Ok (Some (rpc_ok (PDict req)
       (PDict [("entries", PList (PDict <$> rows)); ("count", PInt (Z.of_nat (length rows)))]))), m) /\
  (length rows <= 500)%nat.
Proof.
  intros Ht Hp Hz errors_only rows. split; [|unfold rows; etrans; [apply length_last_n|lia]].
  unfold handle_state_machine_rpc, _handle_common_rpc, mbind, pyM_bind, get. rewrite Ht. cbn [py_str].
  rewrite (suffix_neq _ "" _ _ "p" "rocess.stop") by done. cbn [String.append].
  rewrite (suffix_neq _ "" _ _ "p" "rocess.capabilities") by done.
  rewrite !(suffix_neq (m_rpc_namespace m) (m_rpc_namespace m)) by done.
  rewrite String.eqb_refl, Hp, Hz. unfold mret, pyM_ret. do 5 f_equal.
  unfold history_payload, _history_tail_payload. fold errors_only. cbn [fst snd].
  set (l := if errors_only then _ else _) in *.
  assert ((if (0 <? Z.max 1 (Z.min z (Z.of_nat _history_max))) &&
              (Z.max 1 (Z.min z (Z.of_nat _history_max)) <? Z.of_nat (length l))
           then drop (length l - Z.to_nat (Z.max 1 (Z.min z (Z.of_nat _history_max)))) l else l) = rows)
    as ->; [|done].
  unfold rows, last_n. fold l. change (Z.of_nat _history_max) with 500.
  rewrite (proj2 (Z.ltb_lt 0 _)) by lia. cbn [andb].
  destruct (Z.ltb_spec (Z.max 1 (Z.min z 500)) (Z.of_nat (length l))); [done|].
  by replace (length l - _)%nat with 0%nat by lia.
Qed.

(** ** A concrete machine *)
Module Machine.
#[export] Existing Instance plain_repr.

Definition edge_raw (f t : string) : pyval := PDict [("from_state", PStr f); ("to_state", PStr t)].
Definition raw : pyval :=
  PList [edge_raw "OFF" "WARM"; edge_raw "WARM" " ON "; edge_raw "OFF" "FAULT"; PStr "junk"].
Definition t0 : stamp := mkStamp 0 0.

Definition m0 : machine := Eval vm_compute in
  match init (PStr "p") "vac" "OFF" None raw t0 with
  | Ok m => m
  | Err _ => mkMachine PNone "" "" "" t0 None None None [] ∅ [] false false []
  end.

Lemma m0_init : init (PStr "p") "vac" "OFF" None raw t0 = Ok m0.
Proof. by vm_compute. Qed.

Lemma m0_edges : Forall edge_ok (m_graph_edges m0).
Proof. apply (init_edges_ok _ _ _ _ _ _ _ m0_init). Qed.

Definition plan_on : list edge :=
  [mkEdge "edge_0" "OFF" "WARM" None; mkEdge "edge_1" "WARM" "ON" None].

Lemma plan_state_path_shortest_witness :
  exists r, plan_state_path "ON" None m0 = Ok r /\ plan_spec (m_graph_edges m0) "OFF" "ON" r.
Proof. apply (plan_state_path_shortest "ON" None m0); [apply m0_edges|done|done]. Defined.

Lemma plan_to_any_shortest_witness :
  exists r, plan_state_path_to_any ["ON"; "FAULT"] None m0 = Ok r /\
    best_spec m0 "OFF" (sorted_set (any_targets ["ON"; "FAULT"])) r.
Proof. apply (plan_to_any_shortest ["ON"; "FAULT"] None m0); [apply m0_edges|done]. Defined.

Lemma history_keeps_last_witness :
  m_history (append_all [(t0, [("event", PStr "x")])] m0) =
    last_n _history_max (m_history m0 ++ (stamped <$> [(t0, [("event", PStr "x")])])) /\
  (length (m_history (append_all [(t0, [("event", PStr "x")])] m0)) <= 500)%nat.
Proof. apply (history_keeps_last [(t0, [("event", PStr "x")])] m0). cbn. lia. Defined.

Lemma publish_error_discipline_witness :
  publish_error (m_last_error (publish_transition_event "A" "B" None None (Some "boom") m0)).
Proof.
  destruct (publish_error_discipline "A" "B" None None (Some "boom") m0 eq_refl) as (_&H&_).
  apply H. by left.
Defined.

Lemma no_hooks_keep : keeps_state no_hooks.
Proof. done. Qed.
Lemma no_hooks_quiet : quiet_hooks no_hooks.
Proof. done. Qed.

Definition cold_hook (st : string)
    : option (string -> option string -> option dict -> pyM machine unit) :=
  if String.eqb st "warm" then Some (fun _ _ _ m => (Err (ValueError "too cold"), m)) else None.

Lemma cold_hook_keeps : keeps_state cold_hook.
Proof. intros st fn a r md m H. unfold cold_hook in H. case_match; by simplify_eq. Qed.

Lemma cold_transition : exists m',
  transition no_hooks cold_hook "WARM" None None true t0 None m0 = (Err (ValueError "too cold"), m').
Proof. eexists. vm_compute. reflexivity. Qed.

(** The enter hook of WARM raises: the machine is in WARM, and says where it
    came from. *)
Lemma transition_legal_witness :
  exists m', transition no_hooks cold_hook "WARM" None None true t0 None m0
             = (Err (ValueError "too cold"), m') /\
    can_transition "WARM" None m0 = true /\ m_state m' = "WARM".
Proof.
  destruct cold_transition as (m'&Hm). exists m'. split; [exact Hm|].
  pose proof (transition_legal no_hooks cold_hook "WARM" None None true t0 None m0
                no_hooks_keep cold_hook_keeps) as H.
  rewrite Hm in H. cbv beta iota zeta in H.
  destruct H as (_&Hc&[(H&_)|(m1&m2&_&_&_&_&Hs)]); [discriminate H|by split].
Defined.

Lemma plan_is_executable_witness :
  exists m', follow no_hooks no_hooks None None t0 None plan_on m0 = (Ok tt, m') /\ m_state m' = "ON".
Proof.
  apply (plan_is_executable no_hooks no_hooks no_hooks_quiet no_hooks_quiet "ON" m0 plan_on).
  - apply m0_edges.
  - by vm_compute.
  - done.
  - done.
  - by vm_compute.
Defined.

Lemma reachable_inv_witness :
  sm_inv (snd (transition no_hooks no_hooks "WARM" None None true t0 None m0)).
Proof.
  apply (reachable_inv no_hooks no_hooks (modify with_stop) (fun _ => "") (fun _ => true)
    (PStr "p") "vac" "OFF" None raw t0 m0); [done|done|by intros m Hm|apply m0_init|].
  apply rtc_once. constructor.
Defined.

Lemma history_tail_rpc_witness :
  exists r, handle_state_machine_rpc (modify with_stop) (fun _ => "") [] [] [] PNone 0
    [("type", PStr "vac.history.tail"); ("params", PDict [("limit", PStr "7")])] m0 = (Ok (Some r), m0).
Proof.
  destruct (history_tail_rpc (modify with_stop) (fun _ => "") [] [] [] PNone 0
    [("type", PStr "vac.history.tail"); ("params", PDict [("limit", PStr "7")])] m0
    [("limit", PStr "7")] 7) as [H _]; [done|done|done|]. by eexists.
Defined.

(** An edge declared without a note is listed with note [None] under
    [edges], but the row built for it under [transitions] carries the
    four-letter text None: [str] is applied to the missing value. *)
Example missing_note_becomes_text :
  e_note <$> m_graph_edges m0 = [None; None; None] /\
  r_note <$> graph_transitions m0 = [Some "None"; Some "None"; Some "None"].
Proof. by vm_compute. Qed.
End Machine.
