(* ===== verification/ManagedProcess.v ===== *)
(** * Supervision of managed processes

    The process half of [_manager/process_supervision.py], with the collision
    recovery of [_manager/process_recovery.py] and the heartbeat ingestion of
    [manager.py]: the handle of one process, its operations and the
    supervision tick.  The operating system is an environment: [poll] is a
    field of the child ([po_rc]), and what a spawn, a [terminate], a [kill] or
    a stop RPC does is an argument.  Effects (events, signals, spawns) are
    appended to a log. *)
From S2P Require Import Prelude PyVal PyNum ExitCodes ProcessLogs.
#[local] Open Scope Z_scope.

Inductive ManagedProcessState :=
| STOPPED | STARTING | RUNNING | STOPPING | EXITED | FAILED | CRASHLOOP.

#[export] Instance mps_eq_dec : EqDecision ManagedProcessState.
Proof. solve_decision. Defined.

(** A child process: its pid and what [poll()] returns. *)
Record Popen := mkPopen { po_pid : Z; po_rc : option Z }.

Record ProcessSpec := mkSpec {
  sp_process_id : string;
  sp_restart_policy : string;
  sp_restart_backoff_s : Q;
  sp_max_restarts : option Z;
  sp_heartbeat_period_s : Q;
  sp_heartbeat_timeout_s : Q;
  sp_heartbeat_hard_timeout_s : option Q;
  sp_shutdown_timeout_s : Q;
  sp_heartbeat_endpoint : option string;
  sp_process_data_endpoint : option string
}.

Record ProcessHandle := mkHandle {
  spec : ProcessSpec;
  popen : option Popen;
  state : ManagedProcessState;
  pid : option Z;
  popen_pid : option Z;
  heartbeat_pid : option Z;
  rpc_endpoint : option string;
  last_start_t_wall : option Q;
  last_start_t_mono : option Q;
  last_hb_t_wall : option Q;
  last_hb_t_mono : option Q;
  last_hb_recv_mono : option Q;
  last_heartbeat_payload : option pyval;
  last_exit_code : option Z;
  restart_count : Z;
  last_restart_t_mono : option Q;
  last_error : option string;
  last_error_kind : option string;
  last_signal_name : option string;
  last_failure_pid : option Z;
  last_heartbeat_age_s : option Q;
  last_liveness_age_s : option Q;
  last_heartbeat_received : option bool;
  heartbeat_stale_strikes : Z;
  last_stale_detected_mono : option Q;
  terminated_by_manager : bool;
  termination_reason : option string;
  termination_method : option string;
  termination_error : option string;
  recent_manager_loop_stall : bool;
  last_manager_loop_stall_duration_s : option Q;
  last_manager_loop_stall_source : option string;
  heartbeat_stall_reconcile_started_mono : option Q;
  heartbeat_stall_reconcile_deadline_mono : option Q;
  heartbeat_failure_trigger : option string;
  heartbeat_endpoint : string;
  process_data_endpoint : string;
  stop_requested_t_mono : option Q;
  next_restart_t_mono : option Q;
  startup_collision_retry_done : bool;
  kill_attempts : Z
}.

#[export] Instance handle_eta : Eta ProcessHandle := fun h =>
  mkHandle (spec h) (popen h) (state h) (pid h) (popen_pid h) (heartbeat_pid h) (rpc_endpoint h)
    (last_start_t_wall h) (last_start_t_mono h) (last_hb_t_wall h) (last_hb_t_mono h)
    (last_hb_recv_mono h) (last_heartbeat_payload h) (last_exit_code h) (restart_count h)
    (last_restart_t_mono h) (last_error h) (last_error_kind h) (last_signal_name h)
    (last_failure_pid h) (last_heartbeat_age_s h) (last_liveness_age_s h)
    (last_heartbeat_received h) (heartbeat_stale_strikes h) (last_stale_detected_mono h)
    (terminated_by_manager h) (termination_reason h) (termination_method h) (termination_error h)
    (recent_manager_loop_stall h) (last_manager_loop_stall_duration_s h)
    (last_manager_loop_stall_source h) (heartbeat_stall_reconcile_started_mono h)
    (heartbeat_stall_reconcile_deadline_mono h) (heartbeat_failure_trigger h)
    (heartbeat_endpoint h) (process_data_endpoint h) (stop_requested_t_mono h)
    (next_restart_t_mono h) (startup_collision_retry_done h) (kill_attempts h).

(** What the manager does to the outside world. *)
Inductive effect :=
| EProcess (topic : string) (st : ManagedProcessState)   (* _publish_process_event *)
| EManager (topic : string)                              (* _publish_manager_event *)
| ESpawn (p : Z)
| ETerminate (p : Z)
| EKill (p : Z)
| EConnect (endpoint : string).

(** The allocation of one family of endpoints of the manager. *)
Record port_pool := mkPool {
  pool_bind_base : string;
  pool_offset : Z;
  pool_connected : gset string
}.

Record pst := mkPst {
  handle : ProcessHandle;
  log : list effect;
  hb_pool : port_pool;
  data_pool : port_pool
}.

#[export] Instance pool_eta : Eta port_pool := fun p =>
  mkPool (pool_bind_base p) (pool_offset p) (pool_connected p).
#[export] Instance pst_eta : Eta pst := fun s => mkPst (handle s) (log s) (hb_pool s) (data_pool s).

Definition upd (f : ProcessHandle -> ProcessHandle) (s : pst) : pst := s <| handle := f (handle s) |>.
Definition emit (e : effect) (s : pst) : pst := s <| log := log s ++ [e] |>.
Definition publish_process_event (topic : string) (s : pst) : pst :=
  emit (EProcess topic (state (handle s))) s.

Lemma log_emit e s : log (emit e s) = log s ++ [e].
Proof. reflexivity. Qed.
Lemma log_upd f s : log (upd f s) = log s.
Proof. reflexivity. Qed.
Lemma log_publish topic s :
  log (publish_process_event topic s) = log s ++ [EProcess topic (state (handle s))].
Proof. reflexivity. Qed.
Lemma handle_emit e s : handle (emit e s) = handle s.
Proof. reflexivity. Qed.
Lemma handle_upd f s : handle (upd f s) = f (handle s).
Proof. reflexivity. Qed.
Lemma handle_publish topic s : handle (publish_process_event topic s) = handle s.
Proof. reflexivity. Qed.
#[export] Hint Rewrite log_emit log_upd log_publish handle_emit handle_upd handle_publish : evt.

(** [handle.popen is not None and handle.popen.poll() is None] *)
Definition alive (h : ProcessHandle) : bool :=
  match popen h with Some p => match po_rc p with None => true | Some _ => false end | None => false end.

(** [a or b] for integers that may be missing *)
Definition or_int (a b : option Z) : option Z :=
  match a with Some 0 => b | Some z => Some z | None => b end.
Definition or_str (a b : option string) : option string :=
  match a with Some s => if nonempty s then a else b | None => b end.

(** ** Endpoints *)

(** [s.rpartition(":")]: the parts before and after the last colon. *)
Fixpoint rpartition_colon (s : string) : option (string * string) :=
  match s with
  | EmptyString => None
  | String c r =>
      match rpartition_colon r with
      | Some (a, b) => Some (String c a, b)
      | None => if (c =? ":")%char then Some ("", r) else None
      end
  end.

Definition all_digits (s : string) : bool :=
  nonempty s && (fix go s := match s with
    | EmptyString => true
    | String c r => match digit_of c with Some _ => go r | None => false end
    end) s.

(** [resolve_process_heartbeat_endpoint] and [resolve_process_data_endpoint]
    are the same function of their own base, offset and override. *)
Definition resolve_endpoint (override : option string) (err : string) (p : port_pool)
    : result string * port_pool :=
  match override with
  | Some e => (Ok e, p)
  | None =>
      let '(host, port) := default ("", pool_bind_base p) (rpartition_colon (pool_bind_base p)) in
      if negb (nonempty host) || negb (all_digits port) then (Err (ValueError err), p)
      else
        (Ok (host +:+ ":" +:+ str_Z (default 0 (parse_digits port 0 false) + pool_offset p)),
         p <| pool_offset := pool_offset p + 1 |>)
  end.

Definition connect_endpoint (endpoint : string) (p : port_pool) : list effect * port_pool :=
  if bool_decide (endpoint ∈ pool_connected p) then ([], p)
  else ([EConnect endpoint], p <| pool_connected := {[endpoint]} ∪ pool_connected p |>).

(** ** Starting *)
Section ops.
Context (plat : platform) (signals : list (Z * string)).

(** The clock readings of one call. *)
Record clock := mkClock { now_wall : Q; now : Q }.

(** A child created by [Popen], or the text of the exception it raised. *)
Definition spawn_outcome : Type := Z + string.

Definition resolve_endpoints : pyM pst unit := fun s =>
  let h := handle s in
  let '(r1, hp) :=
    if nonempty (heartbeat_endpoint h) then (Ok (heartbeat_endpoint h), hb_pool s)
    else resolve_endpoint (sp_heartbeat_endpoint (spec h))
           "process_hb_bind_base must be tcp://host:port" (hb_pool s) in
  match r1 with
  | Err e => (Err e, s)
  | Ok ep =>
      let '(eff, hp) := connect_endpoint ep hp in
      let s := s <| handle := h <| heartbeat_endpoint := ep |> |> <| hb_pool := hp |>
                 <| log := log s ++ eff |> in
      let h := handle s in
      let '(r2, dp) :=
        if nonempty (process_data_endpoint h) then (Ok (process_data_endpoint h), data_pool s)
        else resolve_endpoint (sp_process_data_endpoint (spec h))
               "process_data_bind_base must be tcp://host:port" (data_pool s) in
      match r2 with
      | Err e => (Err e, s)
      | Ok dep =>
          let '(eff, dp) := connect_endpoint dep dp in
          (Ok tt, s <| handle := h <| process_data_endpoint := dep |> |> <| data_pool := dp |>
                    <| log := log s ++ eff |>)
      end
  end.

(** The field resets after a successful spawn. *)
Definition fresh_run (c : clock) (p : Z) (reset_collision_retry : bool) (h : ProcessHandle)
    : ProcessHandle :=
  let h := h <| kill_attempts := 0 |> <| popen := Some (mkPopen p None) |> in
  let h := h <| popen_pid := Some p |> <| heartbeat_pid := None |> <| pid := Some p |>
             <| state := STARTING |> <| rpc_endpoint := None |>
             <| last_start_t_wall := Some (now_wall c) |> <| last_start_t_mono := Some (now c) |>
             <| last_hb_t_wall := None |> <| last_hb_t_mono := None |>
             <| last_hb_recv_mono := None |> <| last_heartbeat_payload := None |>
             <| last_exit_code := None |> <| stop_requested_t_mono := None |>
             <| next_restart_t_mono := None |> in
  let h := h <| last_error := None |> <| last_error_kind := None |> <| last_signal_name := None |>
             <| last_failure_pid := None |> <| last_heartbeat_age_s := None |>
             <| last_liveness_age_s := None |> <| last_heartbeat_received := None |>
             <| heartbeat_stale_strikes := 0 |> <| last_stale_detected_mono := None |>
             <| terminated_by_manager := false |> <| termination_reason := None |>
             <| termination_method := None |> <| termination_error := None |>
             <| recent_manager_loop_stall := false |>
             <| last_manager_loop_stall_duration_s := None |>
             <| last_manager_loop_stall_source := None |>
             <| heartbeat_stall_reconcile_started_mono := None |>
             <| heartbeat_stall_reconcile_deadline_mono := None |>
             <| heartbeat_failure_trigger := None |> in
  if reset_collision_retry then h <| startup_collision_retry_done := false |> else h.

Definition start_process_handle (c : clock) (spawn : spawn_outcome) (reset_collision_retry : bool)
    : pyM pst unit := fun s =>
  if alive (handle s) then (Ok tt, s)
  else if bool_decide (state (handle s) = CRASHLOOP) then (Ok tt, s)
  else
    match resolve_endpoints s with
    | (Err e, s) => (Err e, s)
    | (Ok _, s) =>
        match spawn with
        | inr msg =>
            let s := upd (fun h => h <| popen := None |> <| pid := None |> <| popen_pid := None |>
                                     <| state := FAILED |> <| last_error := Some msg |>
                                     <| last_error_kind := Some "spawn_error" |>) s in
            (Err (RuntimeError msg), publish_process_event "manager.process.failed" s)
        | inl p =>
            let s := upd (fresh_run c p reset_collision_retry) (emit (ESpawn p) s) in
            (Ok tt, publish_process_event "manager.process.started" s)
        end
    end.

(** ** Stopping *)

(** The classification of a child found dead: shared by [stop_process_handle]
    and [update_managed_process_exit_state]. *)
Definition record_failure (rc : Z) (exiting_pid : option Z) (h : ProcessHandle) : ProcessHandle :=
  let h := h <| state := FAILED |> <| last_failure_pid := exiting_pid |>
             <| last_signal_name := derive_signal_name plat signals (PInt rc) |>
             <| last_error_kind := or_str (last_error_kind h) (Some "nonzero_exit") |> in
  match or_str (last_error h) None with
  | Some _ => h
  | None =>
      let description :=
        default ("exit code " +:+ str_Z rc) (or_str (describe_exit_code plat signals (PInt rc)) None) in
      h <| last_error := Some ("process exited: " +:+ description) |>
  end.

(** [stop_reply] is the answer of the [process.stop] RPC ([Err] when the call
    raises); [term] the text of the exception of [terminate()], if any. *)
Definition stop_process_handle (c : clock) (stop_reply : result pyval) (term : option string)
    (s : pst) : pst :=
  let h := handle s in
  match popen h with
  | None => upd (fun h => h <| state := STOPPED |>) s
  | Some p =>
      match po_rc p with
      | Some rc =>
          let exiting_pid := or_int (popen_pid h) (pid h) in
          let s := upd (fun h => h <| last_exit_code := Some rc |> <| popen := None |>
                                   <| rpc_endpoint := None |>) s in
          if negb (rc =? 0) then
            publish_process_event "manager.process.failed" (upd (record_failure rc exiting_pid) s)
          else
            publish_process_event "manager.process.exited" (upd (fun h => h <| state := EXITED |>) s)
      | None =>
          let graceful :=
            match rpc_endpoint h, stop_reply with
            | Some _, Ok (PDict d) => truthy (dget_or d "ok" (PBool false))
            | _, _ => false
            end in
          let s :=
            if graceful then s
            else match term with
                 | None => emit (ETerminate (po_pid p)) s
                 | Some exc => upd (fun h => h <| last_error := Some exc |>) s
                 end in
          let s := upd (fun h => h <| state := STOPPING |> <| stop_requested_t_mono := Some (now c) |>
                                   <| rpc_endpoint := None |>) s in
          publish_process_event "manager.process.stopping" s
      end
  end.

(** [Manager.restart_process] *)
Definition restart_process (c : clock) (stop_reply : result pyval) (term : option string) (s : pst)
    : pst :=
  let s := stop_process_handle c stop_reply term s in
  let s := upd (fun h => h <| next_restart_t_mono :=
                  Some (now c + sp_restart_backoff_s (spec h))%Q |>) s in
  publish_process_event "manager.process.restart_scheduled" s.

(** ** Restarting *)
Definition maybe_schedule_restart (t : Q) (s : pst) : pst :=
  let h := handle s in
  match next_restart_t_mono h with
  | Some _ => s
  | None =>
      let policy := upper (sp_restart_policy (spec h)) in
      if String.eqb policy "NEVER" then s
      else if String.eqb policy "ON_FAILURE" &&
              match last_exit_code h with None => true | Some rc => rc =? 0 end then s
      else
        let delay := fmax (sp_restart_backoff_s (spec h)) 0 in
        publish_process_event "manager.process.restart_scheduled"
          (upd (fun h => h <| next_restart_t_mono := Some (t + delay)%Q |>) s)
  end.

Definition try_restart_process (c : clock) (spawn : spawn_outcome) : pyM pst unit := fun s =>
  let h := handle s in
  if match sp_max_restarts (spec h) with Some m => m <=? restart_count h | None => false end then
    (Ok tt, publish_process_event "manager.process.crashloop"
              (upd (fun h => h <| state := CRASHLOOP |> <| next_restart_t_mono := None |>) s))
  else
    let s := upd (fun h => h <| restart_count := restart_count h + 1 |>
                             <| last_restart_t_mono := Some (now c) |>
                             <| next_restart_t_mono := None |>
                             <| stop_requested_t_mono := None |>) s in
    start_process_handle c spawn true s.

(** ** Collision recovery *)
Context `{!PyRepr}.

Definition str_contains (s sub : string) : bool :=
  match String.index 0 sub s with Some _ => true | None => false end.

Definition is_endpoint_collision_process_start_failure (h : ProcessHandle) : bool :=
  let err := lower (default "" (last_error h)) in
  str_contains err "already in use" || str_contains err "bind failed".

Definition collision_markers : list string :=
  ["already in use"; "bind failed"; "endpoint is likely already in use"; "address already in use"].

(** [history] is the manager's log history; the orphan cleanup itself acts
    on other processes and is not part of the handle. *)
Definition _maybe_recover_process_start_collision (c : clock) (history : list pyval)
    (spawn : spawn_outcome) (s : pst) : bool * pst :=
  let h := handle s in
  if negb (bool_decide (state h = STARTING)) then (false, s)
  else if startup_collision_retry_done h then (false, s)
  else
    let recent := lower (String.concat " " (_recent_process_logs history (sp_process_id (spec h)) 8)) in
    if negb (is_endpoint_collision_process_start_failure h) &&
       negb (existsb (str_contains recent) collision_markers) then (false, s)
    else
      let s := upd (fun h => h <| startup_collision_retry_done := true |>) s in
      let s := emit (EManager "manager.process.collision_recover") s in
      match start_process_handle c spawn false s with
      | (Ok _, s) => (true, s)
      | (Err e, s) =>
          let exc := match e with RuntimeError m | ValueError m => m | _ => "" end in
          (false, upd (fun h => h <| state := FAILED |>
                                  <| last_error := Some ("collision cleanup retry failed: " +:+ exc) |>
                                  <| last_error_kind := Some "collision_recover_failed" |>) s)
      end.

Definition update_managed_process_exit_state (c : clock) (history : list pyval)
    (spawn : spawn_outcome) (rc : Z) (s : pst) : bool * pst :=
  let exiting_pid := or_int (popen_pid (handle s)) (pid (handle s)) in
  let s := upd (fun h => h <| last_exit_code := Some rc |> <| popen := None |> <| pid := None |>
                           <| rpc_endpoint := None |>) s in
  if bool_decide (state (handle s) = STOPPING) then
    (false, publish_process_event "manager.process.exited" (upd (fun h => h <| state := EXITED |>) s))
  else if rc =? 0 then
    (false, publish_process_event "manager.process.exited" (upd (fun h => h <| state := STOPPED |>) s))
  else
    match _maybe_recover_process_start_collision c history spawn s with
    | (true, s) => (true, s)
    | (false, s) =>
        (false, publish_process_event "manager.process.failed" (upd (record_failure rc exiting_pid) s))
    end.

(** ** Heartbeats *)

(** A heartbeat message of this process that has passed the topic and
    payload checks; [hb_recv] is the manager's clock when it is processed. *)
Record heartbeat := mkHb {
  hb_pid : Z; hb_t_wall : Q; hb_t_mono : Q; hb_rpc_endpoint : string; hb_msg : pyval; hb_recv : Q
}.

Definition _ingest_process_heartbeat (hb : heartbeat) (s : pst) : pst :=
  let s := upd (fun h => h <| heartbeat_pid := Some (hb_pid hb) |> <| pid := Some (hb_pid hb) |>
                           <| last_hb_t_wall := Some (hb_t_wall hb) |>
                           <| last_hb_t_mono := Some (hb_t_mono hb) |>
                           <| last_hb_recv_mono := Some (hb_recv hb) |>
                           <| last_heartbeat_payload := Some (hb_msg hb) |>) s in
  let s := if bool_decide (state (handle s) = STARTING)
           then upd (fun h => h <| state := RUNNING |> <| startup_collision_retry_done := false |>) s
           else s in
  let ep := strip (hb_rpc_endpoint hb) in
  let s := if nonempty ep && negb (bool_decide (rpc_endpoint (handle s) = Some ep))
           then emit (EManager "manager.process.rpc_update") (upd (fun h => h <| rpc_endpoint := Some ep |>) s)
           else s in
  emit (EManager "manager.process.heartbeat") s.

(** The fields of the manager the checks read. *)
Record manager_ctx := mkCtx {
  loop_stall_warn_s : Q;
  current_pump_start_mono : option Q;
  current_pump_gap_s : option Q;
  last_loop_stall_mono : option Q;
  loop_stall_recent_s : Q;
  last_loop_stall_duration_s : option Q;
  startup_sequence_active : bool;
  startup_sequence_complete_mono : option Q;
  startup_grace_s : Q;
  startup_grace_hard_timeout_s : Q;
  heartbeat_hard_timeout_multiplier : Q;
  heartbeat_stale_strikes_to_fail : Z;
  heartbeat_stall_reconcile_period_multiplier : Q
}.

Definition _manager_loop_stall_context (m : manager_ctx) (t : Q) : bool * option string * option Q :=
  let threshold := loop_stall_warn_s m in
  let recent :=
    match last_loop_stall_mono m with
    | Some ls => if Qle_bool (t - ls) (loop_stall_recent_s m)
                 then (true, Some "recent_completed_pump", Some (default 0%Q (last_loop_stall_duration_s m)))
                 else (false, None, None)
    | None => (false, None, None)
    end in
  let gap :=
    match current_pump_gap_s m with
    | Some g => if Qltb threshold g then (true, Some "pre_pump_gap", Some g) else recent
    | None => recent
    end in
  match current_pump_start_mono m with
  | Some st => let a := fmax 0 (t - st)%Q in
               if Qltb threshold a then (true, Some "current_pump", Some a) else gap
  | None => gap
  end.

Definition _recent_manager_loop_stall (m : manager_ctx) (t : Q) : bool :=
  match last_loop_stall_mono m with
  | None => false
  | Some ls => Qle_bool (t - ls) (loop_stall_recent_s m)
  end.

Definition _in_startup_grace (m : manager_ctx) (t : Q) : bool :=
  if startup_sequence_active m then true
  else match startup_sequence_complete_mono m with
       | Some sc => Qle_bool (t - sc) (startup_grace_s m)
       | None => false
       end.

Definition _heartbeat_age_s (h : ProcessHandle) (t : Q) : option Q :=
  match last_hb_recv_mono h with
  | Some r => Some (t - r)%Q
  | None => (fun st => (t - st)%Q) <$> last_start_t_mono h
  end.

(** [_refresh_pending_process_heartbeats]: the queued heartbeats of this
    process are ingested. *)
Definition _refresh_pending_process_heartbeats (pending : list heartbeat) (s : pst) : pst :=
  foldl (fun s hb => _ingest_process_heartbeat hb s) s pending.

Definition hard_timeout_s (m : manager_ctx) (h : ProcessHandle) : Q :=
  match sp_heartbeat_hard_timeout_s (spec h) with
  | Some q => q
  | None => (sp_heartbeat_timeout_s (spec h) * fmax 1 (heartbeat_hard_timeout_multiplier m))%Q
  end.

Definition strikes_to_fail (m : manager_ctx) : Z := Z.max 1 (heartbeat_stale_strikes_to_fail m).
Definition period_s (h : ProcessHandle) : Q := fmax (1 # 1000) (sp_heartbeat_period_s (spec h)).

(** The branch for a fresh heartbeat. *)
Definition mark_fresh (age : Q) (h : ProcessHandle) : ProcessHandle :=
  h <| heartbeat_stale_strikes := 0 |> <| last_stale_detected_mono := None |>
    <| recent_manager_loop_stall := false |> <| last_manager_loop_stall_source := None |>
    <| heartbeat_stall_reconcile_started_mono := None |>
    <| heartbeat_stall_reconcile_deadline_mono := None |>
    <| heartbeat_failure_trigger := None |>
    <| last_heartbeat_age_s := match last_hb_recv_mono h with Some _ => Some age | None => None end |>.

Definition mark_stale_failed (m : manager_ctx) (age : Q) (msg : string) (h : ProcessHandle)
    : ProcessHandle :=
  h <| state := FAILED |> <| last_error_kind := Some "heartbeat_stale" |>
    <| heartbeat_failure_trigger :=
         Some (if Qle_bool (hard_timeout_s m h) age then "hard_timeout" else "stale_strikes") |>
    <| last_failure_pid := or_int (popen_pid h) (pid h) |>
    <| last_error := Some msg |> <| terminated_by_manager := false |>
    <| termination_reason := Some "heartbeat_stale" |>
    <| termination_method := None |> <| termination_error := None |>.

(** The final branch: the process is failed and its child terminated. *)
Definition fail_stale (m : manager_ctx) (t age : Q) (term : option string) (s : pst) : pst :=
  let received := match last_hb_recv_mono (handle s) with Some _ => true | None => false end in
  let timeout := sp_heartbeat_timeout_s (spec (handle s)) in
  let msg := if received : bool
             then "heartbeat stale (" +:+ fixed 2 age +:+ "s > " +:+ fixed 2 timeout +:+ "s)"
             else "no heartbeat received " +:+ fixed 2 age +:+ "s after spawn (timeout "
                  +:+ fixed 2 timeout +:+ "s)" in
  let s := upd (mark_stale_failed m age msg) s in
  let s :=
    match popen (handle s) with
    | Some p =>
        match po_rc p, term with
        | Some _, _ => s
        | None, None =>
            emit (ETerminate (po_pid p))
              (upd (fun h => h <| stop_requested_t_mono := Some t |> <| terminated_by_manager := true |>
                               <| termination_method := Some "terminate" |>) s)
        | None, Some exc =>
            upd (fun h => h <| termination_error := Some exc |>
                            <| last_error := Some (msg +:+ "; terminate failed: " +:+ exc) |>) s
        end
    | None => s
    end in
  publish_process_event "manager.process.failed" s.

(** The stale branch, piece by piece: the observation is recorded, *)
Definition note_stale (age : Q) (stall : bool * option string * option Q) (h : ProcessHandle)
    : ProcessHandle :=
  let received := match last_hb_recv_mono h with Some _ => true | None => false end in
  h <| last_heartbeat_received := Some received |> <| last_liveness_age_s := Some age |>
    <| last_heartbeat_age_s := if received : bool then Some age else None |>
    <| recent_manager_loop_stall := stall.1.1 |>
    <| last_manager_loop_stall_duration_s := stall.2 |>
    <| last_manager_loop_stall_source := stall.1.2 |>.

(** a reconciliation window is opened if the manager stalled and none is open, *)
Definition open_window (m : manager_ctx) (t : Q) (recent_stall : bool) (h : ProcessHandle)
    : ProcessHandle :=
  match heartbeat_stall_reconcile_deadline_mono h with
  | None =>
      if recent_stall then
        let mult := fmax 0 (heartbeat_stall_reconcile_period_multiplier m) in
        h <| heartbeat_stall_reconcile_started_mono := Some t |>
          <| heartbeat_stall_reconcile_deadline_mono := Some (t + period_s h * mult)%Q |>
      else h
  | Some _ => h
  end.

Definition in_window (t : Q) (h : ProcessHandle) : bool :=
  match heartbeat_stall_reconcile_deadline_mono h with Some d => Qltb t d | None => false end.

(** a strike is counted, at most one per heartbeat period, *)
Definition add_strike (t : Q) (h : ProcessHandle) : ProcessHandle :=
  if match last_stale_detected_mono h with None => true | Some l => Qle_bool (period_s h) (t - l) end
  then h <| heartbeat_stale_strikes := heartbeat_stale_strikes h + 1 |>
         <| last_stale_detected_mono := Some t |>
  else h.

Definition cap_strikes (m : manager_ctx) (h : ProcessHandle) : ProcessHandle :=
  h <| heartbeat_stale_strikes := Z.min (heartbeat_stale_strikes h) (strikes_to_fail m - 1) |>.

(** and the process is failed unless startup grace or the strikes defer it. *)
Definition strike_decide (m : manager_ctx) (t age : Q) (term : option string) (s : pst) : pst :=
  let grace_defer := _in_startup_grace m t && Qltb age (startup_grace_hard_timeout_s m) in
  let strike_defer := (heartbeat_stale_strikes (handle s) <? strikes_to_fail m) &&
                      Qltb age (hard_timeout_s m (handle s)) in
  if grace_defer || strike_defer then
    emit (EManager "manager.process.heartbeat_stale_deferred")
      (if grace_defer then upd (cap_strikes m) s else s)
  else fail_stale m t age term s.

Definition window_decide (m : manager_ctx) (t age : Q) (term : option string) (s : pst) : pst :=
  if in_window t (handle s) then emit (EManager "manager.process.heartbeat_stale_deferred") s
  else strike_decide m t age term (upd (add_strike t) s).

Definition stale_check (m : manager_ctx) (t age : Q) (term : option string) (s : pst) : pst :=
  let stall := _manager_loop_stall_context m t in
  window_decide m t age term (upd (open_window m t stall.1.1) (upd (note_stale age stall) s)).

Definition enforce_managed_process_heartbeat_timeout (m : manager_ctx) (t : Q)
    (pending : list heartbeat) (term : option string) (s : pst) : pst :=
  if negb (bool_decide (state (handle s) ∈ [STARTING; RUNNING])) then s
  else
    match _heartbeat_age_s (handle s) t with
    | None => s
    | Some age =>
        let timeout := sp_heartbeat_timeout_s (spec (handle s)) in
        let s := if Qltb timeout age then _refresh_pending_process_heartbeats pending s else s in
        match _heartbeat_age_s (handle s) t with
        | None => s
        | Some age =>
            if Qle_bool age timeout then upd (mark_fresh age) s
            else stale_check m t age term s
        end
    end.

(** ** Stop timeout, restart, and the tick *)
Definition _MAX_KILL_ATTEMPTS : Z := 5.

(** [kill] is the text of the exception raised by [kill()], if any. *)
Definition enforce_managed_process_stop_timeout (t : Q) (kill : option string) (s : pst) : pst :=
  let h := handle s in
  if negb (bool_decide (state h = STOPPING)) then s
  else
    match popen h with
    | None => s
    | Some p =>
        match po_rc p with
        | Some _ => s
        | None =>
            match stop_requested_t_mono h with
            | None => upd (fun h => h <| stop_requested_t_mono := Some t |>) s
            | Some t0 =>
                if Qle_bool (t - t0) (sp_shutdown_timeout_s (spec h)) then s
                else
                  let s := upd (fun h => h <| kill_attempts := kill_attempts h + 1 |>) s in
                  let s := match kill with
                           | None => emit (EKill (po_pid p)) s
                           | Some exc => upd (fun h => h <| last_error := Some exc |>) s
                           end in
                  if _MAX_KILL_ATTEMPTS <=? kill_attempts (handle s) then
                    let s := upd (fun h => h <| state := FAILED |>
                               <| last_error_kind := or_str (last_error_kind h) (Some "kill_escalated") |>) s in
                    let s := match or_str (last_error (handle s)) None with
                             | Some _ => s
                             | None => upd (fun h => h <| last_error :=
                                 Some ("process refused to exit after " +:+ str_Z (kill_attempts h)
                                       +:+ " kill() attempts (last poll() = None)") |>) s
                             end in
                    publish_process_event "manager.process.failed" s
                  else s
            end
        end
    end.

Definition maybe_restart_managed_process (c : clock) (spawn : spawn_outcome) : pyM pst unit := fun s =>
  let h := handle s in
  let s := if bool_decide (state h ∈ [FAILED; EXITED]) then
             match stop_requested_t_mono h with
             | None => maybe_schedule_restart (now c) s
             | Some _ => s
             end
           else s in
  match next_restart_t_mono (handle s) with
  | Some due =>
      if Qle_bool due (now c) then
        if alive (handle s) then (Ok tt, s) else try_restart_process c spawn s
      else (Ok tt, s)
  | None => (Ok tt, s)
  end.

(** What the environment answers during one tick. *)
Record tick_env := mkTick {
  te_clock : clock;
  te_history : list pyval;
  te_pending : list heartbeat;
  te_collision_spawn : spawn_outcome;
  te_restart_spawn : spawn_outcome;
  te_term : option string;
  te_kill : option string
}.

(** One iteration of [supervise_managed_processes]. *)
Definition supervise_tick (m : manager_ctx) (e : tick_env) : pyM pst unit := fun s =>
  let t := now (te_clock e) in
  let '(recovered, s) :=
    match popen (handle s) with
    | Some p =>
        match po_rc p with
        | Some rc => update_managed_process_exit_state (te_clock e) (te_history e)
                       (te_collision_spawn e) rc s
        | None => (false, s)
        end
    | None => (false, s)
    end in
  if recovered then (Ok tt, s)
  else
    let s := enforce_managed_process_heartbeat_timeout m t (te_pending e) (te_term e) s in
    let s := enforce_managed_process_stop_timeout t (te_kill e) s in
    maybe_restart_managed_process (te_clock e) (te_restart_spawn e) s.
End ops.
