(* ===== verification/ManagedTheorems.v ===== *)
(** * The guarantees of process supervision *)
From Stdlib Require Import Lqa.
From S2P Require Import Prelude PyVal PyNum ExitCodes ProcessLogs ManagedProcess.
#[local] Open Scope Z_scope.

(** ** Reading the log *)
Definition spawns (l : list effect) : list Z :=
  omap (fun e => match e with ESpawn p => Some p | _ => None end) l.
Definition kills (l : list effect) : list Z :=
  omap (fun e => match e with EKill p => Some p | _ => None end) l.
Definition terminations (l : list effect) : list Z :=
  omap (fun e => match e with ETerminate p => Some p | _ => None end) l.

Lemma spawns_app l k : spawns (l ++ k) = spawns l ++ spawns k.
Proof. apply omap_app. Qed.
Lemma kills_app l k : kills (l ++ k) = kills l ++ kills k.
Proof. apply omap_app. Qed.

Lemma terminations_app l k : terminations (l ++ k) = terminations l ++ terminations k.
Proof. apply omap_app. Qed.

(** A child that is starting up and has not been respawned yet: if it fails on
    an endpoint that is still in use, it is. *)
Definition recoverable (h : ProcessHandle) : bool :=
  bool_decide (state h = STARTING) && negb (startup_collision_retry_done h).

(** [calm s s']: the step from [s] to [s'] spawns nothing, gives no new chance
    of a respawn, and leaves the child, the restart counter and the endpoints'
    pools alone. *)
Record calm (s s' : pst) : Prop := {
  calm_spawns : spawns (log s') = spawns (log s);
  calm_popen : popen (handle s') = popen (handle s);
  calm_spec : spec (handle s') = spec (handle s);
  calm_count : restart_count (handle s') = restart_count (handle s);
  calm_recoverable : recoverable (handle s') = true -> recoverable (handle s) = true
}.

#[export] Instance calm_refl : Reflexive calm.
Proof. by constructor. Qed.
#[export] Instance calm_trans : Transitive calm.
Proof. intros s1 s2 s3 [] []. constructor; try congruence. auto. Qed.

Lemma calm_emit e s : spawns [e] = [] -> calm s (emit e s).
Proof. intros He. constructor; try done. cbn. by rewrite spawns_app, He, app_nil_r. Qed.
Lemma calm_publish topic s : calm s (publish_process_event topic s).
Proof. by apply calm_emit. Qed.
Lemma calm_upd f s :
  popen (f (handle s)) = popen (handle s) -> spec (f (handle s)) = spec (handle s) ->
  restart_count (f (handle s)) = restart_count (handle s) ->
  (recoverable (f (handle s)) = true -> recoverable (handle s) = true) -> calm s (upd f s).
Proof. by constructor. Qed.

(** A [let] over the state is opaque to [calm]: only that its value is calm
    matters for the rest. *)
Lemma calm_let a (v : pst) (b : pst -> pst) :
  calm a v -> (forall s', calm a s' -> calm a (b s')) -> calm a (let x := v in b x).
Proof. intros Hv Hb. exact (Hb v Hv). Qed.

Lemma calm_step a s s' : calm a s -> calm s s' -> calm a s'.
Proof. apply calm_trans. Qed.

(** The fields that matter are not touched, or the state becomes another than
    STARTING, or the respawn is used up. *)
Ltac calm_fields := apply calm_upd; [reflexivity..|solve [intros Hcalm; exact Hcalm | discriminate
                          | unfold recoverable; cbn; rewrite andb_false_r; discriminate]].

Ltac calm_tac :=
  lazymatch goal with
  | H : calm ?a ?s |- calm ?a ?s => exact H
  | |- calm ?a (let x := ?v in @?b x) =>
      lazymatch type of v with
      | pst => apply (calm_let a v b); [calm_tac | intros ? ?; cbv beta; calm_tac]
      | _ => change (calm a (b v)); cbv beta; calm_tac
      end
  | |- calm _ (upd _ _) => eapply calm_step; [|calm_fields]; calm_tac
  | |- calm _ (emit _ _) => eapply calm_step; [|apply calm_emit; reflexivity]; calm_tac
  | |- calm _ (publish_process_event _ _) => eapply calm_step; [|apply calm_publish]; calm_tac
  | |- calm _ (if ?b then _ else _) => destruct b; calm_tac
  | |- calm _ (match ?x with _ => _ end) => destruct x; calm_tac
  | |- calm ?a ?a => apply calm_refl
  | |- _ => idtac
  end.

Section calm_ops.
Lemma calm_ingest hb s : calm s (_ingest_process_heartbeat hb s).
Proof. cbv beta delta [_ingest_process_heartbeat]. calm_tac. Qed.

Lemma calm_refresh pending s : calm s (_refresh_pending_process_heartbeats pending s).
Proof.
  revert s. induction pending as [|hb l IH]; intros s; [reflexivity|].
  etrans; [apply calm_ingest|apply IH].
Qed.

Lemma calm_fail_stale m t age term s : calm s (fail_stale m t age term s).
Proof. cbv beta delta [fail_stale]. calm_tac. Qed.

Lemma open_window_frame m t rs h :
  let h' := open_window m t rs h in
  popen h' = popen h /\ spec h' = spec h /\ restart_count h' = restart_count h /\ state h' = state h /\
  recoverable h' = recoverable h.
Proof.
  unfold open_window. destruct (heartbeat_stall_reconcile_deadline_mono h); [done|].
  destruct rs; split_and!; reflexivity.
Qed.

Lemma add_strike_frame t h :
  let h' := add_strike t h in
  popen h' = popen h /\ spec h' = spec h /\ restart_count h' = restart_count h /\ state h' = state h /\
  heartbeat_stall_reconcile_deadline_mono h' = heartbeat_stall_reconcile_deadline_mono h /\
  recoverable h' = recoverable h.
Proof.
  unfold add_strike. match goal with |- context [if ?b then _ else h] => destruct b end;
    split_and!; reflexivity.
Qed.

Lemma calm_strike_decide m t age term s : calm s (strike_decide m t age term s).
Proof.
  cbv beta delta [strike_decide] zeta. destruct (_ || _); [|apply calm_fail_stale].
  eapply calm_step; [|apply calm_emit; reflexivity].
  destruct (_ && _); [calm_fields|reflexivity].
Qed.

Lemma calm_window_decide m t age term s : calm s (window_decide m t age term s).
Proof.
  unfold window_decide. destruct (in_window _ _); [by apply calm_emit|].
  eapply calm_step; [|apply calm_strike_decide]. destruct (add_strike_frame t (handle s)) as (?&?&?&?&?&E).
  apply calm_upd; [done..|by rewrite E].
Qed.

Lemma calm_open_window m t rs s : calm s (upd (open_window m t rs) s).
Proof.
  destruct (open_window_frame m t rs (handle s)) as (?&?&?&?&E). apply calm_upd; [done..|by rewrite E].
Qed.

Lemma calm_stale_check m t age term s : calm s (stale_check m t age term s).
Proof.
  eapply calm_step; [|apply calm_window_decide]. eapply calm_step; [|apply calm_open_window]. calm_fields.
Qed.

Lemma calm_heartbeat m t pending term s :
  calm s (enforce_managed_process_heartbeat_timeout m t pending term s).
Proof.
  unfold enforce_managed_process_heartbeat_timeout. destruct (negb _); [reflexivity|].
  destruct (_heartbeat_age_s (handle s) t) as [age|]; [|reflexivity].
  set (s1 := if Qltb _ _ then _ else _).
  assert (calm s s1) as H1 by (unfold s1; destruct (Qltb _ _); [apply calm_refresh|reflexivity]).
  etrans; [exact H1|]. destruct (_heartbeat_age_s (handle s1) t); [|reflexivity].
  destruct (Qle_bool _ _); [calm_fields|apply calm_stale_check].
Qed.

Lemma calm_stop_timeout t kill s : calm s (enforce_managed_process_stop_timeout t kill s).
Proof. cbv beta delta [enforce_managed_process_stop_timeout]. calm_tac. Qed.

Lemma calm_schedule t s : calm s (maybe_schedule_restart t s).
Proof. cbv beta delta [maybe_schedule_restart]. calm_tac. Qed.
End calm_ops.

(** ** At most one live child *)
Section children.
Context (plat : platform) (signals : list (Z * string)) `{!PyRepr}.

(** The pid of the child, when it is running. *)
Definition live (h : ProcessHandle) : list Z :=
  match popen h with
  | Some p => match po_rc p with None => [po_pid p] | Some _ => [] end
  | None => []
  end.

Lemma alive_live h : alive h = true <-> live h ≠ [].
Proof. unfold alive, live. destruct (popen h) as [[p [rc|]]|]; simpl; naive_solver. Qed.

Lemma not_alive_live h : alive h = false -> live h = [].
Proof. unfold alive, live. by destruct (popen h) as [[p [rc|]]|]. Qed.

(** [grows s s']: between [s] and [s'] either nothing was spawned and no
    live child was forgotten, or one child was spawned where none was alive. *)
Inductive grows (s s' : pst) : Prop :=
| grows_none : spawns (log s') = spawns (log s) -> live (handle s') = live (handle s) -> grows s s'
| grows_spawn p : live (handle s) = [] -> spawns (log s') = spawns (log s) ++ [p] ->
    live (handle s') = [p] -> grows s s'.

Lemma calm_grows s s' : calm s s' -> grows s s'.
Proof. intros [H1 H2 _ _ _]. apply grows_none; [done|]. unfold live. by rewrite H2. Qed.

Lemma grows_calm s s1 s' : grows s s1 -> calm s1 s' -> grows s s'.
Proof.
  intros Hg [Hs Hp _ _ _]. assert (live (handle s') = live (handle s1)) as Hl by (unfold live; by rewrite Hp).
  destruct Hg as [? ?|p ? ? ?]; [apply grows_none|apply (grows_spawn _ _ p)]; congruence.
Qed.

Lemma calm_grows_l s s1 s' : calm s s1 -> grows s1 s' -> grows s s'.
Proof.
  intros [Hs Hp _ _ _] Hg. assert (live (handle s1) = live (handle s)) as Hl by (unfold live; by rewrite Hp).
  destruct Hg as [? ?|p ? ? ?]; [apply grows_none|apply (grows_spawn _ _ p)]; congruence.
Qed.

(** Endpoint allocation neither spawns nor touches the child. *)
Lemma calm_resolve s : calm s (resolve_endpoints s).2.
Proof.
  cbv beta delta [resolve_endpoints].
  assert (forall e p, spawns (fst (connect_endpoint e p)) = []) as Hc
    by (intros; unfold connect_endpoint; by case_match).
  cbv zeta.
  match goal with |- context [if nonempty (heartbeat_endpoint ?h) then ?x else ?y] =>
    destruct (if nonempty (heartbeat_endpoint h) then x else y) as [[ep|e] hp] end; [|done].
  pose proof (Hc ep hp) as H1. destruct (connect_endpoint ep hp) as [eff hp'] eqn:E1. cbn [fst] in H1.
  match goal with |- context [if nonempty (process_data_endpoint ?h) then ?x else ?y] =>
    destruct (if nonempty (process_data_endpoint h) then x else y) as [[dep|e] dp] end.
  - pose proof (Hc dep dp) as H2. destruct (connect_endpoint dep dp) as [eff2 dp'] eqn:E2. cbn [fst] in H2.
    constructor; try reflexivity; [|by intros Hrec]. cbn [snd log set_field]. by rewrite !spawns_app, H1, H2, !app_nil_r.
  - constructor; try reflexivity; [|by intros Hrec]. cbn [snd log set_field]. by rewrite !spawns_app, H1, !app_nil_r.
Qed.

Lemma start_grows c spawn reset s : grows s (start_process_handle c spawn reset s).2.
Proof.
  cbv beta delta [start_process_handle]. destruct (alive (handle s)) eqn:Ha; [by apply grows_none|].
  destruct (bool_decide _); [by apply grows_none|]. pose proof (calm_resolve s) as Hr.
  destruct (resolve_endpoints s) as [[u|e] s1]; cbn [snd] in Hr; [|by apply calm_grows].
  apply (calm_grows_l _ _ _ Hr).
  assert (live (handle s1) = []) as Hl.
  { destruct Hr as [_ Hp _ _ _]. unfold live. rewrite Hp. by apply not_alive_live. }
  destruct spawn as [p|msg]; cbn [snd].
  - eapply grows_calm; [|apply calm_publish]. apply (grows_spawn _ _ p); [done| |].
    + cbn. by rewrite spawns_app.
    + by destruct reset.
  - eapply grows_calm; [|apply calm_publish]. by apply grows_none.
Qed.

Lemma record_failure_frame rc ep h :
  let h' := record_failure plat signals rc ep h in
  popen h' = popen h /\ spec h' = spec h /\ restart_count h' = restart_count h /\
  state h' = FAILED /\ stop_requested_t_mono h' = stop_requested_t_mono h /\
  next_restart_t_mono h' = next_restart_t_mono h.
Proof. unfold record_failure. by destruct (or_str _ _). Qed.

Lemma calm_record_failure rc ep s : calm s (upd (record_failure plat signals rc ep) s).
Proof.
  destruct (record_failure_frame rc ep (handle s)) as (?&?&?&E&_). apply calm_upd; [done..|].
  unfold recoverable. by rewrite E.
Qed.

Lemma stop_grows c reply term s : grows s (stop_process_handle plat signals c reply term s).
Proof.
  cbv beta delta [stop_process_handle] zeta. destruct (popen (handle s)) as [[p [rc|]]|] eqn:Ep; cbn [po_rc po_pid].
  - destruct (negb (rc =? 0)).
    + eapply grows_calm; [|apply calm_publish]. eapply grows_calm; [|apply calm_record_failure].
      apply grows_none; [done|]. unfold live. by rewrite Ep.
    + eapply grows_calm; [|apply calm_publish]. apply grows_none; [done|]. unfold live. by rewrite Ep.
  - apply calm_grows. calm_tac.
  - apply calm_grows. calm_tac.
Qed.

Lemma restart_grows c reply term s : grows s (restart_process plat signals c reply term s).
Proof.
  unfold restart_process. eapply grows_calm; [apply (stop_grows c reply term)|]. calm_tac.
Qed.

Lemma collision_grows c history spawn s :
  grows s (_maybe_recover_process_start_collision c history spawn s).2.
Proof.
  cbv beta delta [_maybe_recover_process_start_collision] zeta.
  destruct (negb (bool_decide (state _ = _))); [by apply grows_none|].
  destruct (startup_collision_retry_done _); [by apply grows_none|].
  destruct (_ && _); [by apply grows_none|].
  match goal with |- context [start_process_handle c spawn false ?s1] =>
    assert (grows s (start_process_handle c spawn false s1).2) as Hg end.
  { eapply calm_grows_l; [|apply start_grows]. calm_tac. }
  destruct (start_process_handle _ _ _ _) as [[u|e] s2]; [done|].
  eapply grows_calm; [exact Hg|]. cbn [snd]. calm_tac.
Qed.

Lemma exit_state_grows c history spawn rc s :
  live (handle s) = [] ->
  grows s (update_managed_process_exit_state plat signals c history spawn rc s).2.
Proof.
  intros Hl. cbv beta delta [update_managed_process_exit_state] zeta.
  match goal with |- context [bool_decide (state (handle ?v) = STOPPING)] => set (s1 := v) end.
  assert (grows s s1) as H1 by (apply grows_none; [done|by rewrite Hl]).
  assert (live (handle s1) = []) as Hl1 by done.
  destruct (bool_decide _).
  { cbn [snd]. eapply grows_calm; [exact H1|]. calm_tac. }
  destruct (rc =? 0).
  { cbn [snd]. eapply grows_calm; [exact H1|]. calm_tac. }
  pose proof (collision_grows c history spawn s1) as Hc.
  assert (grows s (_maybe_recover_process_start_collision c history spawn s1).2) as Hg.
  { destruct H1 as [Ha Hb|p ? Hs Hlp]; [|congruence].
    destruct Hc as [? ?|p ? ? ?]; [apply grows_none|apply (grows_spawn _ _ p)]; congruence. }
  destruct (_maybe_recover_process_start_collision _ _ _ _) as [[] s2]; [done|].
  eapply grows_calm; [exact Hg|]. cbn [snd]. eapply calm_step; [|apply calm_publish].
  apply calm_record_failure.
Qed.

Lemma restart_try_grows c spawn s : grows s (try_restart_process c spawn s).2.
Proof.
  cbv beta delta [try_restart_process] zeta.
  match goal with |- context [if ?b then _ else _] => destruct b end.
  - apply grows_none; [|reflexivity]. cbn. by rewrite spawns_app, app_nil_r.
  - match goal with |- context [start_process_handle c spawn true ?s1] =>
      pose proof (start_grows c spawn true s1) as Hg end.
    destruct Hg as [? ?|p ? ? ?]; [by apply grows_none|by apply (grows_spawn _ _ p)].
Qed.

Lemma maybe_restart_grows c spawn s : grows s (maybe_restart_managed_process c spawn s).2.
Proof.
  cbv beta delta [maybe_restart_managed_process] zeta.
  match goal with |- context [next_restart_t_mono (handle ?v)] => set (s1 := v) end.
  assert (calm s s1) as H1.
  { unfold s1. destruct (bool_decide _); [|reflexivity].
    destruct (stop_requested_t_mono _); [reflexivity|apply calm_schedule]. }
  apply (calm_grows_l _ _ _ H1).
  destruct (next_restart_t_mono (handle s1)); [|by apply grows_none].
  destruct (Qle_bool _ _); [|by apply grows_none]. destruct (alive _); [by apply grows_none|].
  apply restart_try_grows.
Qed.
End children.

#[export] Instance grows_trans : Transitive grows.
Proof.
  intros s1 s2 s3 [Ha Hb|p Ha Hb Hc] [Hd He|q Hd He Hf].
  - apply grows_none; congruence.
  - apply (grows_spawn _ _ q); congruence.
  - apply (grows_spawn _ _ p); congruence.
  - congruence.
Qed.

Section system.
Context (plat : platform) (signals : list (Z * string)) `{!PyRepr} (m : manager_ctx).

Lemma tick_grows e s : grows s (supervise_tick plat signals m e s).2.
Proof.
  cbv beta delta [supervise_tick] zeta.
  match goal with |- context [match ?v with (recovered, s0) => _ end] =>
    assert (grows s v.2) as H1; [|destruct v as [rec s1]; cbn [snd] in H1] end.
  { destruct (popen (handle s)) as [[p [rc|]]|] eqn:Ep; cbn [po_rc]; [|by apply grows_none..].
    apply exit_state_grows. unfold live. by rewrite Ep. }
  destruct rec; [done|]. etrans; [exact H1|].
  eapply calm_grows_l; [apply calm_heartbeat|]. eapply calm_grows_l; [apply calm_stop_timeout|].
  apply maybe_restart_grows.
Qed.

(** A call on the handle: by an operator, by the heartbeat socket or by the
    supervision loop. *)
Inductive mp_call : pst -> pst -> Prop :=
| call_start c spawn reset s : mp_call s (start_process_handle c spawn reset s).2
| call_stop c reply term s : mp_call s (stop_process_handle plat signals c reply term s)
| call_restart c reply term s : mp_call s (restart_process plat signals c reply term s)
| call_heartbeat hb s : mp_call s (_ingest_process_heartbeat hb s)
| call_tick e s : mp_call s (supervise_tick plat signals m e s).2.

Lemma call_grows s s' : mp_call s s' -> grows s s'.
Proof.
  destruct 1.
  - apply start_grows.
  - apply stop_grows.
  - apply restart_grows.
  - apply calm_grows, calm_ingest.
  - apply tick_grows.
Qed.

Definition child_exits (rc : Z) (s : pst) : pst :=
  upd (fun h => h <| popen := (fun p => mkPopen (po_pid p) (Some rc)) <$> popen h |>) s.

(** The handle together with the children the operating system is running:
    a spawn adds one, and the tracked child may exit at any time. *)
Inductive mp_step : pst * list Z -> pst * list Z -> Prop :=
| ms_call s s' os new :
    mp_call s s' -> spawns (log s') = spawns (log s) ++ new -> mp_step (s, os) (s', os ++ new)
| ms_exit s os p rc :
    popen (handle s) = Some (mkPopen p None) ->
    mp_step (s, os) (child_exits rc s, filter (fun q => q ≠ p) os).

(** C7. The manager never runs two children for one process and never
    loses track of a running one: whatever the operator, the heartbeats,
    the supervision loop and the child itself do, in any order, the
    children alive are exactly the one in the handle, or none. *)
Theorem one_live_child s0 s os :
  rtc mp_step (s0, live (handle s0)) (s, os) -> os = live (handle s) /\ (length os <= 1)%nat.
Proof.
  intros Hr. assert (os = live (handle s)) as ->.
  { remember (s0, live (handle s0)) as x eqn:Ex. remember (s, os) as y eqn:Ey.
    assert (x.2 = live (handle x.1)) as Hx by (by rewrite Ex). clear Ex. revert s os Ey.
    induction Hr as [x|x y z Hst _ IH]; intros s os Ey; [by subst|].
    apply (IH); [|done]. destruct Hst as [s1 s2 W new Hc Hn|s1 W p rc Hp]; cbn [fst snd] in *; subst W.
    - destruct (call_grows _ _ Hc) as [Hs Hl|p Hl Hs Hl'].
      + rewrite Hs in Hn. rewrite <- (app_nil_r (spawns _)) in Hn at 1. apply app_inv_head in Hn. subst new.
        by rewrite app_nil_r.
      + rewrite Hs in Hn. apply app_inv_head in Hn. subst new. by rewrite Hl, Hl'.
    - unfold live, child_exits. cbn. rewrite Hp. cbn [po_rc po_pid fmap option_fmap option_map].
      by rewrite filter_cons, decide_False by naive_solver. }
  split; [done|]. unfold live. destruct (popen (handle s)) as [[p [rc|]]|]; simpl; lia.
Qed.
End system.

(** ** Heartbeat staleness *)
Section staleness.
(** What ingesting heartbeats leaves: the state stays live, the newest
    heartbeat is recorded, nothing is signalled. *)
Lemma ingest_frame hb s :
  let s' := _ingest_process_heartbeat hb s in
  last_hb_recv_mono (handle s') = Some (hb_recv hb) /\
  state (handle s') = (if bool_decide (state (handle s) = STARTING) then RUNNING else state (handle s)) /\
  terminations (log s') = terminations (log s).
Proof.
  unfold _ingest_process_heartbeat. cbv zeta.
  match goal with |- context [bool_decide (state (handle (upd ?f s)) = STARTING)] =>
    change (state (handle (upd f s))) with (state (handle s)) end.
  destruct (bool_decide (state (handle s) = STARTING)); destruct (nonempty _ && negb _);
    (split_and!; [reflexivity|reflexivity|]); cbn [emit upd set_field log];
    rewrite ?terminations_app; by rewrite ?app_nil_r.
Qed.

Lemma refresh_frame pending s :
  let s' := _refresh_pending_process_heartbeats pending s in
  (state (handle s) ∈ [STARTING; RUNNING] -> state (handle s') ∈ [STARTING; RUNNING]) /\
  terminations (log s') = terminations (log s) /\
  (forall l hb, pending = l ++ [hb] -> last_hb_recv_mono (handle s') = Some (hb_recv hb)).
Proof.
  induction pending as [|hb pending IH] using rev_ind; [split_and!; [done|done|]; intros [|? ?] ?; done|].
  unfold _refresh_pending_process_heartbeats in *. rewrite foldl_snoc.
  destruct (ingest_frame hb (foldl (fun s hb => _ingest_process_heartbeat hb s) s pending)) as (H1&H2&H3).
  destruct IH as (I1&I2&_). cbn zeta in *. split_and!.
  - intros Hs. rewrite H2. case_bool_decide; [by right; left|auto].
  - congruence.
  - intros l hb' [_ ->]%app_inj_tail. done.
Qed.

Definition watched (s : pst) : Prop := state (handle s) ∈ [STARTING; RUNNING].

(** No false alarm: when the last heartbeat is within the timeout, or a
    fresh one is waiting on the socket, the staleness check does not fail
    the process and does not signal it; it clears the strikes and the
    reconciliation window. *)
Theorem fresh_heartbeat_never_fails m t pending term s age0 :
  watched s -> _heartbeat_age_s (handle s) t = Some age0 ->
  (age0 <= sp_heartbeat_timeout_s (spec (handle s)))%Q \/
  (exists l hb, pending = l ++ [hb] /\ (t - hb_recv hb <= sp_heartbeat_timeout_s (spec (handle s)))%Q) ->
  let s' := enforce_managed_process_heartbeat_timeout m t pending term s in
  watched s' /\ heartbeat_stale_strikes (handle s') = 0 /\
  heartbeat_stall_reconcile_deadline_mono (handle s') = None /\
  terminations (log s') = terminations (log s).
Proof.
  intros Hw Hage Hfresh. unfold enforce_managed_process_heartbeat_timeout.
  rewrite bool_decide_eq_true_2 by exact Hw. cbn [negb]. rewrite Hage. cbv zeta.
  set (timeout := sp_heartbeat_timeout_s (spec (handle s))) in *.
  assert (forall s1 a, watched s1 -> terminations (log s1) = terminations (log s) ->
    let s' := upd (mark_fresh a) s1 in watched s' /\ heartbeat_stale_strikes (handle s') = 0 /\
    heartbeat_stall_reconcile_deadline_mono (handle s') = None /\
    terminations (log s') = terminations (log s)) as Hmark by (intros; by split_and!).
  destruct (Qltb_spec timeout age0) as [Hlt|Hge].
  - destruct Hfresh as [?|(l&hb&Hp&Hhb)]; [lra|].
    destruct (refresh_frame pending s) as (R1&R2&R3). cbn zeta in R1, R2, R3.
    assert (_heartbeat_age_s (handle (_refresh_pending_process_heartbeats pending s)) t =
      Some (t - hb_recv hb)%Q) as -> by (unfold _heartbeat_age_s; by rewrite (R3 _ _ Hp)).
    rewrite Qle_bool_true by done.
    apply Hmark; [by apply R1|done].
  - rewrite Hage, Qle_bool_true by done. by apply Hmark.
Qed.

(** The reconciliation window leaves room to act at [t]: it has passed, or
    none is open and the manager did not stall. *)
Definition window_over (m : manager_ctx) (t : Q) (h : ProcessHandle) : Prop :=
  match heartbeat_stall_reconcile_deadline_mono h with
  | Some d => (d <= t)%Q
  | None => (_manager_loop_stall_context m t).1.1 = false
  end.

Lemma strike_decide_fails m t age term s :
  _in_startup_grace m t && Qltb age (startup_grace_hard_timeout_s m) = false ->
  (hard_timeout_s m (handle s) <= age)%Q -> strike_decide m t age term s = fail_stale m t age term s.
Proof.
  intros Hg Hh. unfold strike_decide. rewrite Hg, (Qltb_false age) by done.
  by rewrite andb_false_r.
Qed.

(** The handle after the observation is noted and a window maybe opened. *)
Definition noted (m : manager_ctx) (t age : Q) (s : pst) : ProcessHandle :=
  open_window m t (_manager_loop_stall_context m t).1.1
    (note_stale age (_manager_loop_stall_context m t) (handle s)).

Lemma handle_noted m t age s :
  handle (upd (open_window m t (_manager_loop_stall_context m t).1.1)
            (upd (note_stale age (_manager_loop_stall_context m t)) s)) = noted m t age s.
Proof. unfold noted. by rewrite !handle_upd. Qed.

Lemma note_stale_frame age stall h :
  let h' := note_stale age stall h in
  heartbeat_stall_reconcile_deadline_mono h' = heartbeat_stall_reconcile_deadline_mono h /\
  period_s h' = period_s h /\ spec h' = spec h /\ popen h' = popen h.
Proof. split_and!; reflexivity. Qed.

Lemma noted_window m t age s :
  window_over m t (handle s) ->
  in_window t (noted m t age s) = false /\ spec (noted m t age s) = spec (handle s) /\
  popen (noted m t age s) = popen (handle s).
Proof.
  intros Hw. unfold window_over in Hw. unfold noted.
  destruct (note_stale_frame age (_manager_loop_stall_context m t) (handle s)) as (Hd&_&Hs&Hp).
  set (h1 := note_stale _ _ _) in *. clearbody h1.
  destruct (open_window_frame m t (_manager_loop_stall_context m t).1.1 h1) as (E1&E2&_).
  rewrite E1, E2, Hs, Hp. split; [|done]. clear E1 E2. unfold in_window, open_window. rewrite Hd.
  destruct (heartbeat_stall_reconcile_deadline_mono (handle s)) as [d|] eqn:E.
  - rewrite Hd. by apply Qltb_false.
  - rewrite Hw, Hd. done.
Qed.

Lemma stale_check_fails m t age term s :
  window_over m t (handle s) -> (hard_timeout_s m (handle s) <= age)%Q ->
  (_in_startup_grace m t = false \/ (startup_grace_hard_timeout_s m <= age)%Q) ->
  exists s2, stale_check m t age term s = fail_stale m t age term s2 /\
    popen (handle s2) = popen (handle s) /\ log s2 = log s.
Proof.
  intros Hw Hh Hg.
  destruct (noted_window m t age s Hw) as (Hin&Hsp&Hpo). unfold stale_check, window_decide.
  rewrite handle_noted, Hin.
  eexists. split; [apply strike_decide_fails|].
  - apply andb_false_iff. destruct Hg; [by left|right; by apply Qltb_false].
  - rewrite handle_upd, handle_noted.
    destruct (add_strike_frame t (noted m t age s)) as (_&Asp&_).
    unfold hard_timeout_s in *. rewrite Asp, Hsp. done.
  - rewrite handle_upd, handle_noted.
    destruct (add_strike_frame t (noted m t age s)) as (Ap&_).
    split; [by rewrite Ap|reflexivity].
Qed.

Lemma mark_stale_failed_frame m age msg h :
  let h' := mark_stale_failed m age msg h in
  state h' = FAILED /\ last_error_kind h' = Some "heartbeat_stale" /\ popen h' = popen h /\
  next_restart_t_mono h' = next_restart_t_mono h.
Proof. split_and!; reflexivity. Qed.

Lemma fail_stale_result m t age term s :
  let s' := fail_stale m t age term s in
  state (handle s') = FAILED /\ last_error_kind (handle s') = Some "heartbeat_stale" /\
  (forall p, popen (handle s) = Some (mkPopen p None) -> term = None ->
     terminations (log s') = terminations (log s) ++ [p] /\ stop_requested_t_mono (handle s') = Some t /\
     next_restart_t_mono (handle s') = next_restart_t_mono (handle s)).
Proof.
  cbv beta delta [fail_stale] zeta.
  match goal with |- context [mark_stale_failed m age ?x] => set (msg := x) end.
  rewrite handle_upd. destruct (mark_stale_failed_frame m age msg (handle s)) as (_&_&Ep&_).
  rewrite Ep. destruct (popen (handle s)) as [[p [rc|]]|]; cbn [po_rc po_pid];
    [| destruct term as [exc|] |]; autorewrite with evt;
    (split_and!; [reflexivity|reflexivity|]); intros q Hq Ht; simplify_eq.
  rewrite !terminations_app, app_nil_r. split_and!; reflexivity.
Qed.

(** C39. A silent process is failed: once its heartbeat age has reached the
    hard timeout, any check made outside the startup grace and after the
    reconciliation window marks it FAILED and terminates its child. *)
Theorem hard_timeout_fails m t term s age p :
  watched s -> _heartbeat_age_s (handle s) t = Some age ->
  (sp_heartbeat_timeout_s (spec (handle s)) < age)%Q -> (hard_timeout_s m (handle s) <= age)%Q ->
  (_in_startup_grace m t = false \/ (startup_grace_hard_timeout_s m <= age)%Q) ->
  window_over m t (handle s) -> popen (handle s) = Some (mkPopen p None) ->
  let s' := enforce_managed_process_heartbeat_timeout m t [] term s in
  state (handle s') = FAILED /\ last_error_kind (handle s') = Some "heartbeat_stale" /\
  (term = None -> terminations (log s') = terminations (log s) ++ [p]).
Proof.
  intros Hw Hage Hlt Hh Hg Hwin Hp. unfold enforce_managed_process_heartbeat_timeout.
  rewrite bool_decide_eq_true_2 by exact Hw. cbn [negb]. rewrite Hage. cbv zeta.
  rewrite Qltb_true by done. cbn [_refresh_pending_process_heartbeats foldl].
  rewrite Hage, Qle_bool_false by done.
  destruct (stale_check_fails m t age term s Hwin Hh Hg) as (s2&->&Hp2&Hl2).
  destruct (fail_stale_result m t age term s2) as (F1&F2&F3). cbn zeta in F1, F2, F3.
  split; [done|]. split; [done|]. intros Ht. rewrite <- Hl2. by apply F3; [rewrite Hp2|].
Qed.

(** The reconciliation window is granted once per stale episode: while
    no fresh heartbeat arrives, an open window keeps its deadline however
    often the manager stalls again, and a new one never ends later than one
    (scaled) heartbeat period after the check that opened it. *)
Theorem reconcile_window_not_renewed m t term s age :
  watched s -> _heartbeat_age_s (handle s) t = Some age ->
  (sp_heartbeat_timeout_s (spec (handle s)) < age)%Q ->
  let s' := enforce_managed_process_heartbeat_timeout m t [] term s in
  match heartbeat_stall_reconcile_deadline_mono (handle s) with
  | Some d => heartbeat_stall_reconcile_deadline_mono (handle s') = Some d
  | None => heartbeat_stall_reconcile_deadline_mono (handle s') = None \/
      heartbeat_stall_reconcile_deadline_mono (handle s') =
        Some (t + period_s (handle s) * fmax 0 (heartbeat_stall_reconcile_period_multiplier m))%Q
  end.
Proof.
  intros Hw Hage Hlt. unfold enforce_managed_process_heartbeat_timeout.
  rewrite bool_decide_eq_true_2 by exact Hw. cbn [negb]. rewrite Hage. cbv zeta.
  rewrite Qltb_true by done. cbn [_refresh_pending_process_heartbeats foldl].
  rewrite Hage, Qle_bool_false by done.
  assert (forall s1, heartbeat_stall_reconcile_deadline_mono (handle (fail_stale m t age term s1)) =
    heartbeat_stall_reconcile_deadline_mono (handle s1)) as Hf.
  { intros s1. cbv beta delta [fail_stale] zeta.
    match goal with |- context [mark_stale_failed m age ?x] => set (msg := x) end.
    rewrite handle_upd. destruct (mark_stale_failed_frame m age msg (handle s1)) as (_&_&Ep&_).
    rewrite Ep. destruct (popen (handle s1)) as [[? []]|]; cbn [po_rc]; try (destruct term); reflexivity. }
  assert (forall s1, heartbeat_stall_reconcile_deadline_mono (handle (window_decide m t age term s1)) =
    heartbeat_stall_reconcile_deadline_mono (handle s1)) as Hwd.
  { intros s1. unfold window_decide. destruct (in_window t (handle s1)); [done|].
    destruct (add_strike_frame t (handle s1)) as (_&_&_&_&Ea&_). rewrite <- Ea, <- handle_upd.
    generalize (upd (add_strike t) s1). intros s2. unfold strike_decide.
    destruct (_ && Qltb age (startup_grace_hard_timeout_s m)); [done|]. cbn [orb].
    destruct (_ && _); [done|apply Hf]. }
  unfold stale_check. rewrite Hwd, handle_upd, handle_upd. unfold open_window.
  destruct (note_stale_frame age (_manager_loop_stall_context m t) (handle s)) as (Hd&Hpr&_).
  generalize dependent (note_stale age (_manager_loop_stall_context m t) (handle s)). intros h1 Hd Hpr.
  rewrite Hd. destruct (heartbeat_stall_reconcile_deadline_mono (handle s)) eqn:E; [done|].
  destruct (_manager_loop_stall_context m t).1.1; [right|by left]. rewrite <- Hpr. reflexivity.
Qed.
End staleness.

(** ** Restart budget *)
Section budget.
Context (plat : platform) (signals : list (Z * string)) `{!PyRepr} (m : manager_ctx).

(** [pot s]: the children spawned so far, and the one that may still be
    spawned in place of a child that is starting up. *)
Definition pot (s : pst) : Z :=
  Z.of_nat (length (spawns (log s))) + (if recoverable (handle s) then 1 else 0).

(** [same s s']: the counter does not move, and a child is spawned only in
    place of one that was starting up. *)
Record same (s s' : pst) : Prop := {
  sa_spec : spec (handle s') = spec (handle s);
  sa_count : restart_count (handle s') = restart_count (handle s);
  sa_pot : pot s' <= pot s
}.

(** [frugal s s']: that, or one restart within the budget, which is counted. *)
Record frugal (s s' : pst) : Prop := {
  fr_spec : spec (handle s') = spec (handle s);
  fr_count : restart_count (handle s') = restart_count (handle s) /\ pot s' <= pot s \/
    restart_count (handle s') = restart_count (handle s) + 1 /\ pot s' <= pot s + 2 /\
    match sp_max_restarts (spec (handle s)) with
    | Some k => restart_count (handle s) < k
    | None => True
    end
}.

Lemma same_frugal s s' : same s s' -> frugal s s'.
Proof. intros []. constructor; auto. Qed.
Lemma calm_same s s' : calm s s' -> same s s'.
Proof.
  intros [H1 _ H2 H3 H4]. constructor; [done..|]. unfold pot. rewrite H1.
  destruct (recoverable (handle s')); [|destruct (recoverable (handle s)); lia]. by rewrite H4.
Qed.
Lemma same_refl s : same s s.
Proof. by constructor. Qed.
Lemma same_trans s1 s2 s3 : same s1 s2 -> same s2 s3 -> same s1 s3.
Proof. intros [] []. constructor; [congruence..|lia]. Qed.
Lemma same_frugal_l s1 s2 s3 : same s1 s2 -> frugal s2 s3 -> frugal s1 s3.
Proof. intros [H1 H2 Hp] [H3 H4]. constructor; [congruence|]. rewrite <- H1, <- H2. intuition lia. Qed.

Lemma fresh_run_frame c p reset h :
  let h' := fresh_run c p reset h in
  spec h' = spec h /\ restart_count h' = restart_count h /\ state h' = STARTING /\
  popen h' = Some (mkPopen p None) /\
  (reset = false -> startup_collision_retry_done h' = startup_collision_retry_done h).
Proof. destruct reset; split_and!; try reflexivity; done. Qed.

(** A start spawns at most one child, which may be respawned once; the start
    of a respawn gives no further chance. *)
Lemma start_pot c spawn reset s :
  let s' := (start_process_handle c spawn reset s).2 in
  spec (handle s') = spec (handle s) /\ restart_count (handle s') = restart_count (handle s) /\
  pot s' <= pot s + 2 /\
  (reset = false -> startup_collision_retry_done (handle s) = true -> pot s' <= pot s + 1).
Proof.
  assert (0 <= pot s) as H0 by (unfold pot; case_match; lia).
  cbv beta delta [start_process_handle] zeta. destruct (alive (handle s)); [by cbn; split_and!; [done..|lia|lia]|].
  destruct (bool_decide _); [by cbn; split_and!; [done..|lia|lia]|]. pose proof (calm_resolve s) as Hr.
  assert (startup_collision_retry_done (handle (resolve_endpoints s).2) = startup_collision_retry_done (handle s)) as Hd.
  { cbv beta delta [resolve_endpoints] zeta.
    repeat (match goal with |- context [match ?x with _ => _ end] =>
      lazymatch x with (_, _) => fail | _ => destruct x end end; try reflexivity). }
  destruct (resolve_endpoints s) as [[u|e] s1]; cbn [snd] in Hr, Hd |- *;
    destruct (calm_same _ _ Hr) as [R1 R2 R3]; [|split_and!; [done..|lia|lia]].
  destruct spawn as [p|msg]; cbn [snd].
  - unfold pot in *. rewrite handle_publish, handle_upd, handle_emit. cbn [log emit publish_process_event upd set_field].
    rewrite !spawns_app, !length_app. cbn [spawns omap list_omap length].
    destruct (fresh_run_frame c p reset (handle s1)) as (->&->&Hst&_&Hre). split_and!; [congruence..| |].
    + repeat case_match; lia.
    + intros Hf Ht. assert (recoverable (fresh_run c p reset (handle s1)) = false) as ->.
      { unfold recoverable. by rewrite (Hre Hf), Hd, Ht, andb_false_r. }
      repeat case_match; lia.
  - unfold pot in *. rewrite handle_publish, handle_upd. cbn [log emit publish_process_event upd set_field].
    rewrite !spawns_app, !length_app. cbn [spawns omap list_omap length].
    split_and!; [exact R1|exact R2|..]; cbn; repeat case_match; lia.
Qed.

Lemma stop_same c reply term s : same s (stop_process_handle plat signals c reply term s).
Proof.
  cbv beta delta [stop_process_handle] zeta.
  assert (forall h', spec h' = spec (handle s) -> restart_count h' = restart_count (handle s) ->
    (recoverable h' = true -> recoverable (handle s) = true) -> same s (upd (fun _ => h') s)) as Hset.
  { intros h' H1 H2 H3. constructor; [done..|]. unfold pot. rewrite handle_upd. change (log (upd _ s)) with (log s).
    destruct (recoverable h'); [|destruct (recoverable (handle s)); lia]. by rewrite H3. }
  destruct (popen (handle s)) as [[p [rc|]]|]; cbn [po_rc po_pid].
  - destruct (negb (rc =? 0)).
    + eapply same_trans; [|eapply calm_same, calm_publish].
      eapply same_trans; [|eapply calm_same, calm_record_failure]. by apply Hset.
    + eapply same_trans; [|eapply calm_same, calm_publish]. by apply Hset.
  - apply calm_same. calm_tac.
  - by apply Hset.
Qed.

(** The one respawn of a child that was starting up *)
Lemma collision_same c history spawn s : same s (_maybe_recover_process_start_collision c history spawn s).2.
Proof.
  cbv beta delta [_maybe_recover_process_start_collision] zeta.
  destruct (bool_decide (state (handle s) = STARTING)) eqn:Est; cbn [negb]; [|apply same_refl].
  destruct (startup_collision_retry_done (handle s)) eqn:Ed; [apply same_refl|]. destruct (_ && _); [apply same_refl|].
  match goal with |- context [start_process_handle c spawn false ?v] => set (s1 := v) end.
  assert (pot s1 = pot s - 1) as Hp.
  { unfold pot, s1. cbn. rewrite spawns_app, length_app. unfold recoverable. cbn.
    rewrite Est, Ed, andb_false_r. cbn. lia. }
  destruct (start_pot c spawn false s1) as (H1&H2&_&H3). specialize (H3 eq_refl eq_refl).
  change (spec (handle s1)) with (spec (handle s)) in H1.
  change (restart_count (handle s1)) with (restart_count (handle s)) in H2.
  destruct (start_process_handle c spawn false s1) as [[u|e] s2]; cbn [snd] in *; [constructor; [done..|lia]|].
  eapply same_trans; [constructor; [exact H1|exact H2|lia]|]. apply calm_same. calm_tac.
Qed.

Lemma exit_state_same c history spawn rc s :
  same s (update_managed_process_exit_state plat signals c history spawn rc s).2.
Proof.
  cbv beta delta [update_managed_process_exit_state] zeta.
  match goal with |- context [bool_decide (state (handle ?v) = STOPPING)] => pose (s1 := v) end.
  assert (same s s1) as H1 by (by constructor). fold s1.
  destruct (bool_decide _); [eapply same_trans; [exact H1|apply calm_same; cbn [snd]; calm_tac]|].
  destruct (rc =? 0); [eapply same_trans; [exact H1|apply calm_same; cbn [snd]; calm_tac]|]. clearbody s1.
  eapply same_trans; [exact H1|]. pose proof (collision_same c history spawn s1) as H2.
  destruct (_maybe_recover_process_start_collision _ _ _ _) as [[] s2]; [exact H2|]. cbn [snd] in *.
  eapply same_trans; [exact H2|]. eapply same_trans; [|eapply calm_same, calm_publish].
  apply calm_same, calm_record_failure.
Qed.

Lemma try_restart_frugal c spawn s : frugal s (try_restart_process c spawn s).2.
Proof.
  cbv beta delta [try_restart_process] zeta.
  match goal with |- context [if ?b then _ else _] => destruct b eqn:Eb end.
  - apply same_frugal, calm_same. cbn [snd]. calm_tac.
  - match goal with |- context [start_process_handle c spawn true ?v] =>
      destruct (start_pot c spawn true v) as (H1 & H2 & H3 & _) end.
    constructor; [exact H1|]. right. split; [exact H2|]. split; [exact H3|].
    destruct (sp_max_restarts _); [by apply Z.leb_gt|done].
Qed.

Lemma maybe_restart_frugal c spawn s : frugal s (maybe_restart_managed_process c spawn s).2.
Proof.
  cbv beta delta [maybe_restart_managed_process] zeta.
  match goal with |- context [next_restart_t_mono (handle ?v)] => pose (s1 := v) end.
  assert (calm s s1) as H1.
  { unfold s1. destruct (bool_decide _); [|reflexivity].
    destruct (stop_requested_t_mono _); [reflexivity|apply calm_schedule]. }
  fold s1. clearbody s1. eapply same_frugal_l; [by apply calm_same|]. pose proof (same_frugal _ _ (same_refl s1)).
  destruct (next_restart_t_mono (handle s1)); [|done].
  destruct (Qle_bool _ _); [|done]. destruct (alive _); [done|].
  apply try_restart_frugal.
Qed.

Lemma tick_frugal e s : frugal s (supervise_tick plat signals m e s).2.
Proof.
  cbv beta delta [supervise_tick] zeta.
  match goal with |- context [match ?v with (recovered, s0) => _ end] =>
    assert (same s v.2) as H1; [|destruct v as [rec s1]; cbn [snd] in H1] end.
  { destruct (popen (handle s)) as [[p [rc|]]|]; cbn [po_rc]; [apply exit_state_same|apply same_refl..]. }
  destruct rec; [by apply same_frugal|]. eapply same_frugal_l; [exact H1|].
  eapply same_frugal_l; [apply calm_same, calm_heartbeat|].
  eapply same_frugal_l; [apply calm_same, calm_stop_timeout|]. apply maybe_restart_frugal.
Qed.

(** What may happen to a process, with the number of times it was asked to
    start: whatever the operator, the heartbeats, the supervision loop and the
    child do, in any order. *)
Inductive mp_history (s0 : pst) : nat -> pst -> Prop :=
| mh_begin : mp_history s0 0 s0
| mh_start n s c spawn reset : mp_history s0 n s -> mp_history s0 (S n) (start_process_handle c spawn reset s).2
| mh_stop n s c reply term : mp_history s0 n s -> mp_history s0 n (stop_process_handle plat signals c reply term s)
| mh_restart n s c reply term : mp_history s0 n s -> mp_history s0 n (restart_process plat signals c reply term s)
| mh_heartbeat n s hb : mp_history s0 n s -> mp_history s0 n (_ingest_process_heartbeat hb s)
| mh_tick n s e : mp_history s0 n s -> mp_history s0 n (supervise_tick plat signals m e s).2
| mh_exit n s p rc : mp_history s0 n s -> popen (handle s) = Some (mkPopen p None) -> mp_history s0 n (child_exits rc s).

Lemma history_frugal s0 n s :
  mp_history s0 n s ->
  spec (handle s) = spec (handle s0) /\
  restart_count (handle s0) <= restart_count (handle s) /\
  pot s <= pot s0 + 2 * (Z.of_nat n + (restart_count (handle s) - restart_count (handle s0))) /\
  forall k, sp_max_restarts (spec (handle s0)) = Some k -> restart_count (handle s0) <= k -> restart_count (handle s) <= k.
Proof.
  assert (forall n s s', frugal s s' ->
    (spec (handle s) = spec (handle s0) /\ restart_count (handle s0) <= restart_count (handle s) /\
     pot s <= pot s0 + 2 * (Z.of_nat n + (restart_count (handle s) - restart_count (handle s0))) /\
     forall k, sp_max_restarts (spec (handle s0)) = Some k -> restart_count (handle s0) <= k -> restart_count (handle s) <= k) ->
    (spec (handle s') = spec (handle s0) /\ restart_count (handle s0) <= restart_count (handle s') /\
     pot s' <= pot s0 + 2 * (Z.of_nat n + (restart_count (handle s') - restart_count (handle s0))) /\
     forall k, sp_max_restarts (spec (handle s0)) = Some k -> restart_count (handle s0) <= k -> restart_count (handle s') <= k)) as Hstep.
  { intros n1 s1 s1' [F1 F2] (H1 & H2 & H3 & H4). split_and!; [congruence|lia|lia|].
    intros k Hk Hc. specialize (H4 k Hk Hc). rewrite H1, Hk in F2. lia. }
  induction 1 as [|n s c spawn reset _ IH|n s c reply term _ IH|n s c reply term _ IH|n s hb _ IH|n s e _ IH|n s p rc _ IH _].
  - split_and!; [done|lia|lia|auto].
  - destruct (start_pot c spawn reset s) as (H1 & H2 & H3 & _), IH as (I1 & I2 & I3 & I4). rewrite H1, H2.
    split_and!; [done|done|lia|done].
  - eapply Hstep; [apply same_frugal, stop_same|exact IH].
  - eapply Hstep; [|exact IH]. apply same_frugal. unfold restart_process.
    eapply same_trans; [apply (stop_same c reply term)|]. apply calm_same. calm_tac.
  - eapply Hstep; [apply same_frugal, calm_same, calm_ingest|exact IH].
  - eapply Hstep; [apply tick_frugal|exact IH].
  - eapply Hstep; [|exact IH]. apply same_frugal. by constructor.
Qed.

(** C13. The restart budget bounds the children that are spawned, not only the
    counter: in any history with [n] requests to start, every request and
    every counted restart accounts for at most two children (the one it
    spawns, and one respawn when that one fails on an endpoint still in use
    before its first heartbeat), besides the respawn of a child that was
    starting up at the beginning; and the counter never passes
    [max_restarts]. So with a budget of [k] at most [2 (n + k) + 1] children
    are ever spawned. *)
Theorem restart_budget s0 n s :
  mp_history s0 n s ->
  let spawned := Z.of_nat (length (spawns (log s))) - Z.of_nat (length (spawns (log s0))) in
  let restarts := restart_count (handle s) - restart_count (handle s0) in
  0 <= restarts /\
  spawned <= (if recoverable (handle s0) then 1 else 0) + 2 * (Z.of_nat n + restarts) /\
  forall k, sp_max_restarts (spec (handle s0)) = Some k -> 0 <= restart_count (handle s0) <= k ->
    restart_count (handle s) <= k /\ spawned <= 2 * (Z.of_nat n + k) + 1.
Proof.
  intros (_ & H2 & H3 & H4)%history_frugal. cbv zeta. unfold pot in H3.
  split_and!; [lia|repeat case_match; lia|]. intros k Hk Hc. specialize (H4 k Hk ltac:(lia)).
  split; [done|]. repeat case_match; lia.
Qed.

Definition run_ticks (es : list tick_env) (s : pst) : pst :=
  foldl (fun s e => (supervise_tick plat signals m e s).2) s es.

Lemma heartbeat_idle t pending term s :
  ~ watched s -> enforce_managed_process_heartbeat_timeout m t pending term s = s.
Proof.
  intros Hw. unfold enforce_managed_process_heartbeat_timeout. by rewrite bool_decide_eq_false_2.
Qed.

Lemma stop_idle t kill s :
  state (handle s) ≠ STOPPING -> enforce_managed_process_stop_timeout t kill s = s.
Proof.
  intros Hs. unfold enforce_managed_process_stop_timeout. by rewrite bool_decide_eq_false_2.
Qed.

Lemma crashloop_tick e s :
  state (handle s) = CRASHLOOP -> popen (handle s) = None -> next_restart_t_mono (handle s) = None ->
  supervise_tick plat signals m e s = (Ok tt, s).
Proof.
  intros Hs Hp Hn. unfold supervise_tick. rewrite Hp.
  rewrite heartbeat_idle by (unfold watched; rewrite Hs; set_solver).
  rewrite stop_idle by congruence. unfold maybe_restart_managed_process.
  rewrite bool_decide_eq_false_2 by (rewrite Hs; set_solver). by rewrite Hn.
Qed.

(** A restart due when the budget is spent puts the process in
    CRASHLOOP, and there it stays: no later supervision tick changes the
    handle or spawns anything, and a plain start is ignored. *)
Theorem crashloop_is_final c spawn s k es c' spawn' reset :
  sp_max_restarts (spec (handle s)) = Some k -> k <= restart_count (handle s) ->
  popen (handle s) = None ->
  exists s1, try_restart_process c spawn s = (Ok tt, s1) /\ state (handle s1) = CRASHLOOP /\
    run_ticks es s1 = s1 /\ start_process_handle c' spawn' reset s1 = (Ok tt, s1).
Proof.
  intros Hk Hc Hp. unfold try_restart_process. rewrite Hk, (proj2 (Z.leb_le _ _) Hc).
  eexists. split; [reflexivity|]. split; [reflexivity|].
  match goal with |- run_ticks es ?v = _ /\ _ => assert (state (handle v) = CRASHLOOP /\
    popen (handle v) = None /\ next_restart_t_mono (handle v) = None) as (H1&H2&H3)
    by (split_and!; [reflexivity|exact Hp|reflexivity]); generalize dependent v end.
  intros v H1 H2 H3. split.
  - induction es as [|e es IH]; [done|]. cbn [run_ticks foldl]. by rewrite crashloop_tick.
  - unfold start_process_handle, alive. rewrite H2, H1. done.
Qed.
End budget.

(** ** Escalation, stale failures, collisions *)
Section outcomes.
Context (plat : platform) (signals : list (Z * string)) `{!PyRepr} (m : manager_ctx).

(** A process asked to stop at [t0] whose child [p] is still running. *)
Record stopping (t0 : Q) (p : Z) (s : pst) : Prop := {
  sg_popen : popen (handle s) = Some (mkPopen p None);
  sg_requested : stop_requested_t_mono (handle s) = Some t0
}.

Definition overdue (t0 : Q) (s : pst) (e : tick_env) : Prop :=
  (sp_shutdown_timeout_s (spec (handle s)) < now (te_clock e) - t0)%Q.

Lemma stop_timeout_kills t0 p t s :
  stopping t0 p s -> state (handle s) = STOPPING ->
  (sp_shutdown_timeout_s (spec (handle s)) < t - t0)%Q ->
  let s' := enforce_managed_process_stop_timeout t None s in
  stopping t0 p s' /\ kill_attempts (handle s') = kill_attempts (handle s) + 1 /\
  kills (log s') = kills (log s) ++ [p] /\ spec (handle s') = spec (handle s) /\
  state (handle s') = (if 5 <=? kill_attempts (handle s) + 1 then FAILED else STOPPING).
Proof.
  intros [Hp Hq] Hs Hd. unfold enforce_managed_process_stop_timeout.
  rewrite bool_decide_eq_true_2 by done. cbn [negb]. rewrite Hp. cbn [po_rc po_pid].
  rewrite Hq, Qle_bool_false by done. cbv zeta. rewrite handle_emit, handle_upd.
  change (kill_attempts (handle s <| kill_attempts := kill_attempts (handle s) + 1 |>))
    with (kill_attempts (handle s) + 1). unfold _MAX_KILL_ATTEMPTS.
  destruct (5 <=? kill_attempts (handle s) + 1).
  - match goal with |- context [match or_str (last_error (handle ?v)) None with _ => _ end] =>
      destruct (or_str (last_error (handle v)) None) end; autorewrite with evt; rewrite !kills_app, app_nil_r;
      (split_and!; [constructor; [exact Hp|exact Hq]|reflexivity..]).
  - autorewrite with evt. rewrite kills_app.
    split_and!; [constructor; [exact Hp|exact Hq]|reflexivity|reflexivity|reflexivity|exact Hs].
Qed.

Lemma stopping_tick t0 p e s :
  stopping t0 p s -> state (handle s) = STOPPING -> overdue t0 s e -> te_kill e = None ->
  supervise_tick plat signals m e s =
    (Ok tt, enforce_managed_process_stop_timeout (now (te_clock e)) None s).
Proof.
  intros Hst Hs Hd Hk. pose proof Hst as [Hp Hq]. unfold supervise_tick. rewrite Hp, Hk. cbn [po_rc].
  rewrite heartbeat_idle by (unfold watched; rewrite Hs; set_solver).
  destruct (stop_timeout_kills t0 p (now (te_clock e)) s Hst Hs Hd) as ([Hp' Hq']&_&_&_&Hs').
  cbn zeta in *. generalize dependent (enforce_managed_process_stop_timeout (now (te_clock e)) None s).
  intros s' Hp' Hq' _. unfold maybe_restart_managed_process. rewrite Hq'.
  assert (alive (handle s') = true) as Ha by (unfold alive; by rewrite Hp').
  destruct (bool_decide _); destruct (next_restart_t_mono (handle s')); try done;
    destruct (Qle_bool _ _); by rewrite ?Ha.
Qed.

(** A stop always ends: a child that ignores the stop request is sent a
    kill on every tick once the shutdown timeout has passed, and after at
    most five of them the process leaves STOPPING for FAILED. *)
Theorem stop_escalates t0 p es s :
  stopping t0 p s -> state (handle s) = STOPPING -> 0 <= kill_attempts (handle s) < 5 ->
  Forall (fun e => overdue t0 s e /\ te_kill e = None) es ->
  Z.of_nat (length es) = 5 - kill_attempts (handle s) ->
  let s' := run_ticks plat signals m es s in
  state (handle s') = FAILED /\ kills (log s') = kills (log s) ++ replicate (length es) p.
Proof.
  intros Hst Hs Hk Hall Hlen. revert s Hst Hs Hk Hall Hlen.
  induction es as [|e es IH]; intros s Hst Hs Hk Hall Hlen; [cbn [length] in Hlen; lia|].
  apply Forall_cons in Hall as [[Hd Hke] Hall]. cbn [run_ticks foldl length] in *.
  rewrite (stopping_tick _ _ _ _ Hst Hs Hd Hke). cbn [snd].
  destruct (stop_timeout_kills t0 p (now (te_clock e)) s Hst Hs Hd) as (Hst'&Ek&El&Esp&Es).
  cbn zeta in *. generalize dependent (enforce_managed_process_stop_timeout (now (te_clock e)) None s).
  intros s' Hst' Ek El Esp Es. fold (run_ticks plat signals m es s').
  destruct (Z.leb_spec 5 (kill_attempts (handle s) + 1)).
  - destruct es as [|e' es]; [|cbn [length] in Hlen; lia]. by split.
  - destruct (IH s') as [H1 H2]; [done|done|lia| |lia|].
    + eapply Forall_impl; [exact Hall|]. intros e' [? ?]. split; [|done]. unfold overdue in *. by rewrite Esp.
    + cbn zeta in *. split; [done|]. rewrite H2, El, <- app_assoc. done.
Qed.

(** The handle after a stale heartbeat has failed the process and its child
    has been terminated. *)
Definition abandoned (s : pst) : Prop :=
  (state (handle s) = FAILED \/ state (handle s) = STOPPED) /\
  is_Some (stop_requested_t_mono (handle s)) /\ next_restart_t_mono (handle s) = None.

(** What can happen to it without an operator: supervision ticks, late
    heartbeats, the exit of the child. *)
Inductive unattended : pst -> pst -> Prop :=
| un_tick e s : unattended s (supervise_tick plat signals m e s).2
| un_heartbeat hb s : unattended s (_ingest_process_heartbeat hb s)
| un_exit rc s : unattended s (child_exits rc s).

Lemma abandoned_maybe_restart c spawn s :
  abandoned s -> maybe_restart_managed_process c spawn s = (Ok tt, s).
Proof.
  intros (_&[t Ht]&Hn). unfold maybe_restart_managed_process. rewrite Ht.
  by destruct (bool_decide _); rewrite Hn.
Qed.

Lemma abandoned_exit c history spawn rc s :
  abandoned s ->
  let r := update_managed_process_exit_state plat signals c history spawn rc s in
  r.1 = false /\ abandoned r.2 /\ spawns (log r.2) = spawns (log s) /\ kills (log r.2) = kills (log s).
Proof.
  intros (Hs&Hq&Hn). cbv beta delta [update_managed_process_exit_state] zeta.
  match goal with |- context [bool_decide (state (handle ?v) = STOPPING)] => pose (s1 := v) end.
  assert (state (handle s1) = state (handle s) /\ stop_requested_t_mono (handle s1) = stop_requested_t_mono (handle s)
    /\ next_restart_t_mono (handle s1) = next_restart_t_mono (handle s) /\ log s1 = log s) as (E1&E2&E3&E4)
    by (split_and!; reflexivity).
  fold s1. clearbody s1. rewrite E1. rewrite bool_decide_eq_false_2 by (destruct Hs; congruence).
  destruct (rc =? 0).
  - cbn [fst snd]. unfold abandoned. autorewrite with evt. rewrite spawns_app, kills_app, !app_nil_r, E4.
    split_and!; [done|by right|by rewrite <- E2 in Hq|by rewrite <- E3 in Hn|done|done].
  - unfold _maybe_recover_process_start_collision. rewrite E1.
    rewrite bool_decide_eq_false_2 by (destruct Hs; congruence). cbn [negb fst snd].
    unfold abandoned. autorewrite with evt. rewrite spawns_app, kills_app, !app_nil_r, E4.
    destruct (record_failure_frame plat signals rc (or_int (popen_pid (handle s)) (pid (handle s))) (handle s1))
      as (_&_&_&R1&R2&R3). rewrite R1, R2, R3, E2, E3. split_and!; try done. by left.
Qed.

Lemma abandoned_step s s' :
  unattended s s' -> abandoned s ->
  abandoned s' /\ spawns (log s') = spawns (log s) /\ kills (log s') = kills (log s).
Proof.
  intros Hu Ha. destruct Hu as [e s|hb s|rc s]; [|..].
  - assert (forall s1, abandoned s1 ->
      maybe_restart_managed_process (te_clock e) (te_restart_spawn e)
        (enforce_managed_process_stop_timeout (now (te_clock e)) (te_kill e)
          (enforce_managed_process_heartbeat_timeout m (now (te_clock e)) (te_pending e) (te_term e) s1))
      = (Ok tt, s1)) as Hrest.
    { intros s1 H1. pose proof H1 as (Hs&_). rewrite heartbeat_idle
        by (unfold watched; destruct Hs as [-> | ->]; set_solver).
      rewrite stop_idle by (destruct Hs; congruence). by apply abandoned_maybe_restart. }
    unfold supervise_tick. destruct (popen (handle s)) as [[p [rc|]]|]; cbn [po_rc].
    + destruct (abandoned_exit (te_clock e) (te_history e) (te_collision_spawn e) rc s Ha) as (F1&F2&F3&F4).
      destruct (update_managed_process_exit_state _ _ _ _ _ _ _) as [rec s1]. cbn [fst snd] in *.
      subst rec. by rewrite Hrest.
    + by rewrite Hrest.
    + by rewrite Hrest.
  - destruct Ha as (Hs&Hq&Hn). unfold abandoned, _ingest_process_heartbeat. cbv zeta.
    match goal with |- context [bool_decide (state (handle (upd ?f s)) = STARTING)] =>
      change (state (handle (upd f s))) with (state (handle s)) end.
    rewrite (bool_decide_eq_false_2 (state (handle s) = STARTING)) by (destruct Hs; congruence).
    destruct (nonempty _ && negb _); autorewrite with evt; rewrite ?spawns_app, ?kills_app, ?app_nil_r;
      (split_and!; [exact Hs|exact Hq|exact Hn|reflexivity|reflexivity]).
  - split; [exact Ha|by split].
Qed.

(** A process failed for a stale heartbeat, whose child accepted the
    termination signal, is never restarted by the supervision loop, for any
    restart policy, and the child is never killed if it ignores the signal:
    the recorded stop request suppresses both. *)
Theorem stale_failure_is_abandoned t age s p s' :
  next_restart_t_mono (handle s) = None -> popen (handle s) = Some (mkPopen p None) ->
  let s1 := fail_stale m t age None s in
  rtc unattended s1 s' ->
  spawns (log s') = spawns (log s1) /\ kills (log s') = kills (log s1) /\
  next_restart_t_mono (handle s') = None.
Proof.
  intros Hn Hp s1 Hr. assert (abandoned s1) as Ha.
  { destruct (fail_stale_result m t age None s) as (F1&_&F3). destruct (F3 p Hp eq_refl) as (_&F4&F5).
    unfold s1, abandoned. rewrite F1, F4, F5. split_and!; [by left|by eexists|done]. }
  clearbody s1. induction Hr as [s1|s1 s2 s3 Hst _ IH]; [destruct Ha as (_&_&?); by split_and!|].
  destruct (abandoned_step _ _ Hst Ha) as (Ha2&E1&E2). destruct (IH Ha2) as (F1&F2&F3).
  split_and!; congruence.
Qed.
End outcomes.

(** ** Endpoints *)
Lemma append_inj p s t : p +:+ s = p +:+ t -> s = t.
Proof. induction p as [|c p IH]; [done|]. simpl. intros [= E]. auto. Qed.

(** [n] consecutive allocations from one pool. *)
Fixpoint allocate (n : nat) (err : string) (p : port_pool) : result (list string) * port_pool :=
  match n with
  | O => (Ok [], p)
  | S k =>
      match resolve_endpoint None err p with
      | (Ok e, p') => match allocate k err p' with
                      | (Ok es, p'') => (Ok (e :: es), p'')
                      | (Err x, p'') => (Err x, p'')
                      end
      | (Err x, p') => (Err x, p')
      end
  end.

(** Endpoints handed out from a well-formed base are pairwise distinct:
    no two processes are given the same port. *)
Theorem endpoints_distinct n err p host port :
  rpartition_colon (pool_bind_base p) = Some (host, port) ->
  nonempty host = true -> all_digits port = true ->
  exists es p', allocate n err p = (Ok es, p') /\ length es = n /\ NoDup es.
Proof.
  intros Hb Hh Hd. set (port0 := default 0 (parse_digits port 0 false)).
  assert (exists p', allocate n err p =
    (Ok ((fun i => host +:+ ":" +:+ str_Z (port0 + pool_offset p + Z.of_nat i)) <$> seq 0 n), p')) as [p' Ha].
  { revert p Hb. induction n as [|n IH]; intros p Hb; [by exists p|]. cbn [allocate].
    assert (exists q, resolve_endpoint None err p = (Ok (host +:+ ":" +:+ str_Z (port0 + pool_offset p)), q) /\
      pool_bind_base q = pool_bind_base p /\ pool_offset q = pool_offset p + 1) as (q&->&Hq1&Hq2).
    { unfold resolve_endpoint. rewrite Hb. cbn. rewrite Hh, Hd. by eexists. }
    destruct (IH q) as [p' ->]; [by rewrite Hq1|]. exists p'.
    rewrite <- cons_seq. cbn [fmap list_fmap]. rewrite Z.add_0_r. do 3 f_equal.
    rewrite <- fmap_S_seq, <- list_fmap_compose. apply list_fmap_ext. intros _ i _. cbn.
    do 3 f_equal. lia. }
  eexists _, p'. split; [exact Ha|]. split; [by rewrite length_fmap, length_seq|].
  apply NoDup_fmap; [|apply NoDup_seq]. intros i j E%append_inj%append_inj%str_Z_inj. lia.
Qed.

(** ** Startup collisions *)
Section collision.
Context (plat : platform) (signals : list (Z * string)) `{!PyRepr}.

Lemma start_ok_result c p s :
  alive (handle s) = false -> state (handle s) ≠ CRASHLOOP ->
  forall s1, start_process_handle c (inl p) false s = (Ok tt, s1) ->
  state (handle s1) = STARTING /\ popen (handle s1) = Some (mkPopen p None) /\
  startup_collision_retry_done (handle s1) = startup_collision_retry_done (handle s).
Proof.
  intros Ha Hs s1. cbv beta delta [start_process_handle]. rewrite Ha, bool_decide_eq_false_2 by done.
  assert (startup_collision_retry_done (handle (resolve_endpoints s).2) =
    startup_collision_retry_done (handle s)) as Hr.
  { cbv beta delta [resolve_endpoints] zeta.
    repeat (match goal with |- context [match ?x with _ => _ end] =>
      lazymatch x with (_, _) => fail | _ => destruct x end end; try reflexivity). }
  destruct (resolve_endpoints s) as [[u|e] s2]; cbn [snd] in Hr; [|done].
  intros [= <-]. rewrite handle_publish, handle_upd, handle_emit.
  destruct (fresh_run_frame c p false (handle s2)) as (_&_&->&->&Hc).
  split_and!; [done|done|]. rewrite <- Hr. by apply Hc.
Qed.

(** Startup-collision recovery is attempted once per start: when it has
    respawned a process that then dies again before its first heartbeat, the
    process is failed, not respawned. *)
Theorem collision_retry_once c history p rc s s1 c' history' spawn' rc' :
  update_managed_process_exit_state plat signals c history (inl p) rc s = (true, s1) ->
  rc' ≠ 0 ->
  exists s2, update_managed_process_exit_state plat signals c' history' spawn' rc' (child_exits rc' s1) =
      (false, s2) /\
    state (handle s2) = FAILED /\ spawns (log s2) = spawns (log s1).
Proof.
  intros Hup Hrc. assert (state (handle s1) = STARTING /\ startup_collision_retry_done (handle s1) = true) as [Hs Hd].
  { revert Hup. cbv beta delta [update_managed_process_exit_state] zeta.
    match goal with |- context [bool_decide (state (handle ?v) = STOPPING)] => pose (s0 := v) end.
    assert (alive (handle s0) = false) as Ha0 by reflexivity. fold s0. clearbody s0.
    destruct (bool_decide _); [done|]. destruct (rc =? 0); [done|].
    cbv beta delta [_maybe_recover_process_start_collision] zeta.
    destruct (negb (bool_decide (state (handle s0) = STARTING))) eqn:Est; [done|].
    apply negb_false_iff, bool_decide_eq_true in Est.
    destruct (startup_collision_retry_done (handle s0)); [done|]. destruct (_ && _); [done|].
    match goal with |- context [start_process_handle c (inl p) false ?v] =>
      pose proof (start_ok_result c p v Ha0) as Hok;
      destruct (start_process_handle c (inl p) false v) as [[[]|e] s2] end; [|done].
    intros [= ->]. destruct (Hok ltac:(intros E; rewrite handle_emit, handle_upd in E;
      change (state (handle s0) = CRASHLOOP) in E; congruence) s1 eq_refl) as (H1&_&H3). split; [done|].
    rewrite H3. reflexivity. }
  assert (state (handle (child_exits rc' s1)) = state (handle s1) /\
    startup_collision_retry_done (handle (child_exits rc' s1)) = startup_collision_retry_done (handle s1) /\
    log (child_exits rc' s1) = log s1) as (E1&E2&E3) by (split_and!; reflexivity).
  generalize dependent (child_exits rc' s1). intros s1' E1 E2 E3.
  cbv beta delta [update_managed_process_exit_state] zeta.
  match goal with |- context [bool_decide (state (handle ?v) = STOPPING)] => pose (s0 := v) end.
  assert (state (handle s0) = state (handle s1') /\
    startup_collision_retry_done (handle s0) = startup_collision_retry_done (handle s1') /\
    log s0 = log s1') as (F1&F2&F3) by (split_and!; reflexivity).
  fold s0. clearbody s0. rewrite bool_decide_eq_false_2 by congruence.
  rewrite (proj2 (Z.eqb_neq rc' 0) Hrc). unfold _maybe_recover_process_start_collision.
  rewrite bool_decide_eq_true_2 by congruence. cbn [negb]. rewrite F2, E2, Hd.
  eexists. split; [reflexivity|]. autorewrite with evt. rewrite spawns_app, app_nil_r, F3, E3.
  split; [|done]. apply record_failure_frame.
Qed.
End collision.

(** ** A concrete process *)
Module ProcDemo.
#[export] Existing Instance plain_repr.
#[local] Open Scope Z_scope.

Definition sp : ProcessSpec := mkSpec "hdf" "always" (1 # 2) (Some 1) 1 3 None 3 None None.
Definition blank : ProcessHandle :=
  mkHandle sp None STOPPED None None None None None None None None None None None 0 None None None
    None None None None None 0 None false None None None false None None None None None "" ""
    None None false 0.
Definition pool (b : string) : port_pool := mkPool b 0 ∅.
Definition s_blank : pst := mkPst blank [] (pool "tcp://127.0.0.1:7000") (pool "tcp://127.0.0.1:8000").

(** Running since time 0, with a live child. *)
Definition running (st : ManagedProcessState) : pst :=
  s_blank <| handle := blank <| state := st |> <| popen := Some (mkPopen 7 None) |>
               <| pid := Some 7 |> <| popen_pid := Some 7 |> <| last_hb_recv_mono := Some 0%Q |> |>.

Definition ctx : manager_ctx := mkCtx 1 None None None 10 None false None 10 30 3 2 (5 # 4).
Definition env (t : Q) : tick_env := mkTick (mkClock 0 t) [] [] (inr "spawn") (inr "spawn") None None.
Definition c0 : clock := mkClock 0 0.

Lemma one_live_child_witness :
  let s1 := (start_process_handle c0 (inl 7) true s_blank).2 in
  [7] = live (handle s1) /\ (length [7] <= 1)%nat.
Proof.
  apply (one_live_child Posix linux_signals ctx s_blank). apply rtc_once.
  apply (ms_call Posix linux_signals ctx s_blank _ [] [7]); [apply call_start|by vm_compute].
Defined.

Lemma fresh_heartbeat_never_fails_witness :
  let s' := enforce_managed_process_heartbeat_timeout ctx 20
    [mkHb 7 0 0 "" PNone 19] None (running RUNNING) in
  watched s' /\ heartbeat_stale_strikes (handle s') = 0 /\
  heartbeat_stall_reconcile_deadline_mono (handle s') = None /\
  terminations (log s') = terminations (log (running RUNNING)).
Proof.
  apply (fresh_heartbeat_never_fails ctx 20 [mkHb 7 0 0 "" PNone 19] None (running RUNNING) 20).
  - right. left.
  - by vm_compute.
  - right. exists [], (mkHb 7 0 0 "" PNone 19). split; [done|]. by vm_compute.
Defined.

Lemma hard_timeout_fails_witness :
  let s' := enforce_managed_process_heartbeat_timeout ctx 20 [] None (running RUNNING) in
  state (handle s') = FAILED /\ last_error_kind (handle s') = Some "heartbeat_stale" /\
  (None = @None string -> terminations (log s') = terminations (log (running RUNNING)) ++ [7]).
Proof.
  apply (hard_timeout_fails ctx 20 None (running RUNNING) 20 7); try by vm_compute.
  - right. left.
  - by left.
Defined.

Lemma reconcile_window_not_renewed_witness :
  let s' := enforce_managed_process_heartbeat_timeout ctx 20 [] None (running RUNNING) in
  heartbeat_stall_reconcile_deadline_mono (handle s') = None \/
  heartbeat_stall_reconcile_deadline_mono (handle s') =
    Some (20 + period_s (handle (running RUNNING)) * fmax 0 (5 # 4))%Q.
Proof.
  apply (reconcile_window_not_renewed ctx 20 None (running RUNNING) 20).
  - right. left.
  - by vm_compute.
  - by vm_compute.
Defined.

(** The operator starts the process, which dies at once and is restarted. *)
Definition died : pst := child_exits 1 (start_process_handle c0 (inl 7) true s_blank).2.
Definition tick_at (t : Q) (p : Z) : tick_env := mkTick (mkClock 0 t) [] [] (inl p) (inl p) None None.
Definition restarted : pst :=
  (supervise_tick Posix linux_signals ctx (tick_at 5 8) (supervise_tick Posix linux_signals ctx (tick_at 1 8) died).2).2.
Example restarted_children : spawns (log restarted) = [7; 8] /\ restart_count (handle restarted) = 1.
Proof. by vm_compute. Qed.

Lemma restart_budget_witness :
  restart_count (handle restarted) <= 1 /\ Z.of_nat (length (spawns (log restarted))) <= 5.
Proof.
  assert (mp_history Posix linux_signals ctx s_blank 1 restarted) as H.
  { do 2 apply mh_tick. apply (mh_exit _ _ _ _ _ _ 7); [apply mh_start, mh_begin|by vm_compute]. }
  destruct (restart_budget Posix linux_signals ctx s_blank 1 restarted H) as (_ & _ & Hk).
  destruct (Hk 1 eq_refl) as [H1 H2]; [by vm_compute|]. split; [exact H1|]. revert H2. cbn [length spawns log s_blank omap list_omap]. lia.
Defined.

Lemma crashloop_is_final_witness :
  let s := s_blank <| handle := blank <| state := FAILED |> <| restart_count := 1 |> |> in
  exists s1, try_restart_process c0 (inl 8) s = (Ok tt, s1) /\ state (handle s1) = CRASHLOOP /\
    run_ticks Posix linux_signals ctx [env 100; env 200] s1 = s1 /\
    start_process_handle c0 (inl 9) true s1 = (Ok tt, s1).
Proof.
  apply (crashloop_is_final Posix linux_signals ctx c0 (inl 8)
    (s_blank <| handle := blank <| state := FAILED |> <| restart_count := 1 |> |>) 1
    [env 100; env 200] c0 (inl 9) true); [done|by vm_compute|done].
Defined.

Definition s_stopping : pst :=
  running STOPPING <| handle := handle (running STOPPING) <| stop_requested_t_mono := Some 0%Q |> |>.

Lemma stop_escalates_witness :
  let s' := run_ticks Posix linux_signals ctx [env 4; env 5; env 6; env 7; env 8] s_stopping in
  state (handle s') = FAILED /\ kills (log s') = kills (log s_stopping) ++ replicate 5 7.
Proof.
  apply (stop_escalates Posix linux_signals ctx 0 7 [env 4; env 5; env 6; env 7; env 8] s_stopping).
  - by constructor.
  - done.
  - by vm_compute.
  - repeat (apply Forall_cons_2; [split; by vm_compute|]). apply Forall_nil_2.
  - done.
Defined.

Lemma endpoints_distinct_witness :
  exists es p', allocate 3 "bad base" (pool "tcp://127.0.0.1:7000") = (Ok es, p') /\
    length es = 3%nat /\ NoDup es.
Proof.
  apply (endpoints_distinct 3 "bad base" (pool "tcp://127.0.0.1:7000") "tcp://127.0.0.1" "7000");
    by vm_compute.
Defined.

(** A start that dies on a bound port. *)
Definition s_collided : pst :=
  running STARTING <| handle := handle (running STARTING) <| last_error := Some "Bind failed" |>
                        <| popen := Some (mkPopen 7 (Some 1)) |> |>.

Definition s_retried : pst :=
  (update_managed_process_exit_state Posix linux_signals c0 [] (inl 8) 1 s_collided).2.

Lemma collision_retry_once_witness :
  exists s2, update_managed_process_exit_state Posix linux_signals c0 [] (inl 9) 1 (child_exits 1 s_retried) =
      (false, s2) /\
    state (handle s2) = FAILED /\ spawns (log s2) = spawns (log s_retried).
Proof.
  apply (collision_retry_once Posix linux_signals c0 [] 8 1 s_collided s_retried c0 [] (inl 9) 1);
    [|done]. unfold s_retried. by vm_compute.
Defined.

(** When the recovery spawn itself fails, [manager.process.failed] is
    published twice: by the spawn and by the caller. *)
Example collision_spawn_failure_publishes_twice :
  log (update_managed_process_exit_state Posix linux_signals c0 [] (inr "no such file") 1 s_collided).2 =
  [EManager "manager.process.collision_recover"; EConnect "tcp://127.0.0.1:7000";
   EConnect "tcp://127.0.0.1:8000"; EProcess "manager.process.failed" FAILED;
   EProcess "manager.process.failed" FAILED].
Proof. by vm_compute. Qed.

(** The policy asks for a restart after every exit, the child exits with
    status 1, and minutes later nothing has been restarted. *)
Example stale_process_not_restarted :
  let s1 := enforce_managed_process_heartbeat_timeout ctx 20 [] None (running RUNNING) in
  let s2 := run_ticks Posix linux_signals ctx [env 22; env 60; env 600] (child_exits 1 s1) in
  state (handle s1) = FAILED /\ state (handle s2) = FAILED /\ popen (handle s2) = None /\
  next_restart_t_mono (handle s2) = None /\ spawns (log s2) = [].
Proof. by vm_compute. Qed.
End ProcDemo.
