(* ===== verification/DriverSupervision.v ===== *)
(** * Supervision of device drivers

    The driver half of [_manager/process_supervision.py], the staged heartbeat
    policy of [_manager/driver_heartbeat_policy.py], driver registration
    ([manager.py]) and heartbeat storage ([_manager/driver_pub.py]), for one
    device.  The operating system is an environment as in [ManagedProcess]. *)
From S2P Require Import Prelude PyVal PyNum ExitCodes ManagedProcess.
#[local] Open Scope Z_scope.

Record DeviceSpec := mkDevSpec {
  ds_device_id : string;
  ds_heartbeat_hard_timeout_s : option Q;
  ds_restart_on_heartbeat_timeout : bool;
  ds_stop_timeout_s : Q;
  ds_kill_timeout_s : Q;
  ds_restart_backoff_s : Q;
  ds_max_restarts : option Z;
  ds_restart_healthy_reset_s : Q
}.

(** The fields of a heartbeat that supervision reads. *)
Record Heartbeat := mkHeartbeat {
  h_pid : Z;
  h_device_reachable : bool;
  h_device_state : string;
  h_current_operation : option string;
  h_current_operation_started_mono : option Q
}.

Record DeviceHandle := mkDevice {
  d_spec : DeviceSpec;
  d_process : option Popen;
  d_rpc_endpoint : option string;
  d_pub_endpoint : option string;
  d_last_hb_recv_mono : option Q;
  d_last_hb : option Heartbeat;
  driver_process_state : ManagedProcessState;
  driver_pid : option Z;
  driver_popen_pid : option Z;
  driver_heartbeat_pid : option Z;
  driver_last_exit_code : option Z;
  driver_restart_count : Z;
  driver_last_restart_t_mono : option Q;
  driver_restart_healthy_since_mono : option Q;
  driver_restart_is_automatic : bool;
  driver_generation : Z;
  driver_registered_generation : option Z;
  driver_reconnect_after_restart : bool;
  driver_reconnect_generation : option Z;
  driver_last_error : option string;
  driver_last_error_kind : option string;
  driver_last_signal_name : option string;
  driver_last_failure_pid : option Z;
  driver_stop_requested_t_mono : option Q;
  driver_next_restart_t_mono : option Q;
  driver_heartbeat_stale_since_mono : option Q;
  driver_heartbeat_stale_max_age_s : option Q;
  driver_heartbeat_stale_generation : option (option Z * option Q);
  driver_running_since_mono : option Q;
  d_config_published : bool
}.

#[export] Instance device_eta : Eta DeviceHandle := fun h =>
  mkDevice (d_spec h) (d_process h) (d_rpc_endpoint h) (d_pub_endpoint h) (d_last_hb_recv_mono h)
    (d_last_hb h) (driver_process_state h) (driver_pid h) (driver_popen_pid h)
    (driver_heartbeat_pid h) (driver_last_exit_code h) (driver_restart_count h)
    (driver_last_restart_t_mono h) (driver_restart_healthy_since_mono h)
    (driver_restart_is_automatic h) (driver_generation h) (driver_registered_generation h)
    (driver_reconnect_after_restart h) (driver_reconnect_generation h) (driver_last_error h)
    (driver_last_error_kind h) (driver_last_signal_name h) (driver_last_failure_pid h)
    (driver_stop_requested_t_mono h) (driver_next_restart_t_mono h)
    (driver_heartbeat_stale_since_mono h) (driver_heartbeat_stale_max_age_s h)
    (driver_heartbeat_stale_generation h) (driver_running_since_mono h) (d_config_published h).

(** [_publish_soft_event]: the payload of a soft heartbeat event. *)
Inductive soft_extra :=
| SoftRecovered (stale_duration_s : Q) (max_heartbeat_age_s : option Q)
| SoftStale (heartbeat_received recent_manager_loop_stall in_startup_grace : bool).

Record soft_payload := mkSoft {
  sf_device_id : string;
  sf_heartbeat_age_s : Q;
  sf_heartbeat_timeout_s : Q;
  sf_heartbeat_hard_timeout_s : Q;
  sf_pid : option Z;
  sf_popen_pid : option Z;
  sf_heartbeat_pid : option Z;
  sf_driver_process_state : ManagedProcessState;
  sf_t_mono : Q;
  sf_current_operation : option string;
  sf_current_operation_started_mono : option Q;
  sf_current_operation_age_s : option Q;
  sf_extra : soft_extra
}.

Inductive deffect :=
| DDriver (topic : string) (st : ManagedProcessState)   (* _publish_driver_event *)
| DManager (topic : string)                             (* _publish_manager_event *)
| DSoft (topic : string) (payload : soft_payload)       (* _publish_soft_event *)
| DSpawn (p : Z) (generation : Z)
| DTerminate (p : Z)
| DKill (p : Z).

Record dst := mkDst { dh : DeviceHandle; dlog : list deffect }.
#[export] Instance dst_eta : Eta dst := fun s => mkDst (dh s) (dlog s).

Definition dupd (f : DeviceHandle -> DeviceHandle) (s : dst) : dst := s <| dh := f (dh s) |>.
Definition demit (e : deffect) (s : dst) : dst := s <| dlog := dlog s ++ [e] |>.
Definition publish_driver_event (topic : string) (s : dst) : dst :=
  demit (DDriver topic (driver_process_state (dh s))) s.

Lemma dh_demit e s : dh (demit e s) = dh s.
Proof. reflexivity. Qed.
Lemma dh_dupd f s : dh (dupd f s) = f (dh s).
Proof. reflexivity. Qed.
Lemma dh_publish topic s : dh (publish_driver_event topic s) = dh s.
Proof. reflexivity. Qed.
Lemma dlog_demit e s : dlog (demit e s) = dlog s ++ [e].
Proof. reflexivity. Qed.
Lemma dlog_dupd f s : dlog (dupd f s) = dlog s.
Proof. reflexivity. Qed.
Lemma dlog_publish topic s :
  dlog (publish_driver_event topic s) = dlog s ++ [DDriver topic (driver_process_state (dh s))].
Proof. reflexivity. Qed.
#[export] Hint Rewrite dh_demit dh_dupd dh_publish dlog_demit dlog_dupd dlog_publish : evt.

(** [handle.process is not None and handle.process.poll() is None] *)
Definition d_alive (h : DeviceHandle) : bool :=
  match d_process h with Some p => match po_rc p with None => true | Some _ => false end | None => false end.

Definition driver_is_started (h : DeviceHandle) : bool :=
  d_alive h || bool_decide (driver_process_state h ∈ [STARTING; RUNNING; STOPPING]).

Definition driver_is_stopped (h : DeviceHandle) : bool := negb (d_alive h).

Section driver_ops.
Context (plat : platform) (signals : list (Z * string)).
(** [_heartbeat_timeout_s] and [_heartbeat_hard_timeout_s] of the manager. *)
Context (heartbeat_timeout_s heartbeat_hard_timeout_s : Q).

(** ** Registration and heartbeats *)
Record DriverRegistration := mkReg {
  reg_rpc_endpoint : string;
  reg_pub_endpoint : string;
  reg_generation : option Z
}.

(** The state change of [_handle_registry] for a known device. *)
Definition _handle_registry (t : Q) (reg : DriverRegistration) (s : dst) : dst :=
  let h := dh s in
  if (0 <? driver_generation h) && negb (bool_decide (reg_generation reg = Some (driver_generation h))) then
    demit (DManager "manager.driver_registration_ignored") s
  else
    let s := dupd (fun h => h <| d_rpc_endpoint := Some (reg_rpc_endpoint reg) |>
                              <| d_pub_endpoint := Some (reg_pub_endpoint reg) |>
                              <| driver_registered_generation := reg_generation reg |>) s in
    let s :=
      if d_alive h || bool_decide (driver_process_state h = STARTING) then
        dupd (fun h => let h := h <| driver_process_state := RUNNING |> in
                       let h := if d_alive h then h <| driver_pid := po_pid <$> d_process h |> else h in
                       h <| driver_running_since_mono := Some t |>) s
      else
        match d_last_hb_recv_mono h with
        | Some hb => if Qle_bool (t - hb) heartbeat_timeout_s then
                       dupd (fun h => h <| driver_process_state := RUNNING |>
                                        <| driver_running_since_mono := Some t |>) s
                     else s
        | None => s
        end in
    let s := demit (DManager "manager.driver_registered") s in
    let s := publish_driver_event "manager.driver.running" s in
    dupd (fun h => h <| d_config_published := true |>) s.

Definition _store_heartbeat_on_handle (t : Q) (hb : Heartbeat) (s : dst) : dst :=
  dupd (fun h => h <| d_last_hb := Some hb |> <| d_last_hb_recv_mono := Some t |>
                   <| driver_heartbeat_pid := Some (h_pid hb) |> <| driver_pid := Some (h_pid hb) |>) s.

(** The messages the manager thread handles concurrently with a launch. *)
Inductive dmsg :=
| MRegister (t : Q) (reg : DriverRegistration)
| MHeartbeat (t : Q) (hb : Heartbeat).

Definition handle_msg (s : dst) (msg : dmsg) : dst :=
  match msg with
  | MRegister t reg => _handle_registry t reg s
  | MHeartbeat t hb => _store_heartbeat_on_handle t hb s
  end.

Definition handle_msgs (msgs : list dmsg) (s : dst) : dst := foldl handle_msg s msgs.

(** ** Starting *)

(** The fields cleared before a launch. *)
Definition begin_launch (h : DeviceHandle) : DeviceHandle :=
  let generation := driver_generation h + 1 in
  let h := h <| driver_generation := generation |> in
  let h := if driver_reconnect_after_restart h
           then h <| driver_reconnect_generation := Some generation |> else h in
  h <| d_last_hb := None |> <| d_last_hb_recv_mono := None |> <| driver_heartbeat_pid := None |>
    <| driver_running_since_mono := None |> <| driver_pid := None |> <| driver_popen_pid := None |>
    <| driver_process_state := STARTING |> <| driver_last_exit_code := None |>
    <| driver_stop_requested_t_mono := None |> <| driver_last_error := None |>
    <| driver_last_error_kind := None |> <| driver_last_signal_name := None |>
    <| driver_last_failure_pid := None |> <| driver_next_restart_t_mono := None |>.

(** After a failed [Popen]: the heartbeat fields of [old] are restored. *)
Definition abort_launch (old : DeviceHandle) (msg : string) (h : DeviceHandle) : DeviceHandle :=
  h <| d_last_hb := d_last_hb old |> <| d_last_hb_recv_mono := d_last_hb_recv_mono old |>
    <| driver_heartbeat_pid := driver_heartbeat_pid old |>
    <| driver_running_since_mono := driver_running_since_mono old |>
    <| d_process := None |> <| driver_pid := None |> <| driver_popen_pid := None |>
    <| driver_process_state := FAILED |> <| driver_last_error := Some msg |>
    <| driver_last_error_kind := Some "spawn_error" |>.

Definition finish_launch (p : Z) (h : DeviceHandle) : DeviceHandle :=
  let h := h <| driver_popen_pid := Some p |> in
  let h := match driver_heartbeat_pid h with None => h <| driver_pid := Some p |> | Some _ => h end in
  if bool_decide (driver_process_state h = RUNNING) then h
  else h <| driver_process_state := STARTING |>.

(** A launch runs on a worker while registrations and heartbeats are handled
    on the manager thread: [early] are those handled between the launch and
    the assignment of [handle.process], [late] those handled while the child
    is adopted.  Of the exception of [Popen], the text is kept. *)
Definition start_driver (spawn : spawn_outcome) (early late : list dmsg) : pyM dst unit := fun s =>
  if d_alive (dh s) then (Ok tt, s)
  else if bool_decide (driver_process_state (dh s) = CRASHLOOP) then (Ok tt, s)
  else
    let old := dh s in
    let s := dupd begin_launch s in
    match spawn with
    | inr msg =>
        let s := dupd (abort_launch old msg) s in
        (Err (RuntimeError msg), publish_driver_event "manager.driver.failed" s)
    | inl p =>
        let s := handle_msgs early (demit (DSpawn p (driver_generation (dh s))) s) in
        let s := handle_msgs late (dupd (fun h => h <| d_process := Some (mkPopen p None) |>) s) in
        let s := dupd (finish_launch p) s in
        (Ok tt, if bool_decide (driver_process_state (dh s) = RUNNING) then s
                else publish_driver_event "manager.driver.starting" s)
    end.

(** ** Stopping and restarting *)
Definition mark_device_offline (t : Q) (s : dst) : dst :=
  let age := (heartbeat_timeout_s + 1)%Q in
  demit (DManager "manager.liveness")
    (dupd (fun h => h <| d_last_hb_recv_mono := Some (t - age)%Q |>) s).

(** [term] and [kill] are the texts of the exceptions of the two signals. *)
Definition stop_driver (t : Q) (force : bool) (term kill : option string) (s : dst) : dst :=
  let s := dupd (fun h => h <| driver_next_restart_t_mono := None |>
                            <| driver_restart_is_automatic := false |>
                            <| driver_reconnect_after_restart := false |>
                            <| driver_reconnect_generation := None |>) s in
  let s := mark_device_offline t s in
  match d_process (dh s) with
  | Some (mkPopen p None) =>
      let signal (e : deffect) (exc : option string) (s : dst) :=
        match exc with
        | None => demit e s
        | Some x => dupd (fun h => h <| driver_last_error := Some x |>) s
        end in
      let s := if force then signal (DKill p) kill (signal (DTerminate p) term s) else s in
      let s := dupd (fun h => h <| driver_process_state := STOPPING |>
                                <| driver_stop_requested_t_mono := Some t |>) s in
      publish_driver_event "manager.driver.stopping" s
  | _ =>
      let s := dupd (fun h => h <| d_process := None |> <| driver_pid := None |>
                                <| driver_process_state := STOPPED |>
                                <| d_rpc_endpoint := None |> <| d_pub_endpoint := None |>) s in
      publish_driver_event "manager.driver.stopped" s
  end.

Definition restart_driver (t : Q) (force : bool) (term kill : option string)
    (new_spec : option DeviceSpec) (s : dst) : dst :=
  let s := publish_driver_event "manager.driver.restart_requested" s in
  let s := stop_driver t force term kill s in
  let s := match new_spec with
           | Some sp => dupd (fun h => h <| d_spec := sp |> <| d_config_published := false |>) s
           | None => s
           end in
  let s := dupd (fun h => h <| driver_next_restart_t_mono := Some (t + ds_restart_backoff_s (d_spec h))%Q |>
                            <| driver_restart_is_automatic := false |>) s in
  publish_driver_event "manager.driver.restart_scheduled" s.

Definition driver_failed (rc : Z) (exiting_pid : option Z) (h : DeviceHandle) : DeviceHandle :=
  let h := h <| driver_process_state := FAILED |> <| driver_last_failure_pid := exiting_pid |>
             <| driver_last_signal_name := derive_signal_name plat signals (PInt rc) |>
             <| driver_last_error_kind := or_str (driver_last_error_kind h) (Some "nonzero_exit") |> in
  match or_str (driver_last_error h) None with
  | Some _ => h
  | None =>
      let description :=
        default ("exit code " +:+ str_Z rc) (or_str (describe_exit_code plat signals (PInt rc)) None) in
      h <| driver_last_error := Some ("driver exited: " +:+ description) |>
  end.

Definition update_device_driver_exit_state (rc : Z) (s : dst) : dst :=
  let exiting_pid := or_int (driver_popen_pid (dh s)) (driver_pid (dh s)) in
  let s := dupd (fun h => h <| driver_last_exit_code := Some rc |> <| d_process := None |>
                            <| driver_pid := None |> <| driver_running_since_mono := None |>) s in
  if bool_decide (driver_process_state (dh s) = STOPPING) &&
     match driver_stop_requested_t_mono (dh s) with Some _ => true | None => false end then
    publish_driver_event "manager.driver.stopped" (dupd (fun h => h <| driver_process_state := STOPPED |>) s)
  else if bool_decide (driver_last_error_kind (dh s) = Some "heartbeat_stale") then
    publish_driver_event "manager.driver.failed"
      (dupd (fun h => h <| driver_process_state := FAILED |> <| driver_last_failure_pid := exiting_pid |>
                        <| driver_last_signal_name := derive_signal_name plat signals (PInt rc) |>) s)
  else if rc =? 0 then
    publish_driver_event "manager.driver.exited" (dupd (fun h => h <| driver_process_state := STOPPED |>) s)
  else publish_driver_event "manager.driver.failed" (dupd (driver_failed rc exiting_pid) s).

(** ** The staged heartbeat policy *)
Definition _episode_generation (h : DeviceHandle) : option Z * option Q :=
  (driver_popen_pid h, driver_running_since_mono h).

Definition _clear_stale_episode (h : DeviceHandle) : DeviceHandle :=
  h <| driver_heartbeat_stale_since_mono := None |> <| driver_heartbeat_stale_max_age_s := None |>
    <| driver_heartbeat_stale_generation := None |>.

Definition soft_payload_of (h : DeviceHandle) (age timeout hard t : Q) (extra : soft_extra)
    : soft_payload :=
  let started := d_last_hb h ≫= h_current_operation_started_mono in
  mkSoft (ds_device_id (d_spec h)) age timeout hard (driver_pid h) (driver_popen_pid h)
    (driver_heartbeat_pid h) (driver_process_state h) t (d_last_hb h ≫= h_current_operation)
    started ((fun x => fmax 0 (t - x)) <$> started) extra.

Definition _publish_soft_event (topic : string) (age timeout hard t : Q) (extra : soft_extra) (s : dst)
    : dst :=
  demit (DSoft topic (soft_payload_of (dh s) age timeout hard t extra)) s.

(** [hb is not None and (running_since is None or hb >= running_since)] *)
Definition heartbeat_from_current_run (h : DeviceHandle) : bool :=
  match d_last_hb_recv_mono h with
  | None => false
  | Some hb => match driver_running_since_mono h with None => true | Some r => Qle_bool r hb end
  end.

(** The instant the age is counted from. *)
Definition heartbeat_ref (h : DeviceHandle) : option Q :=
  if heartbeat_from_current_run h then d_last_hb_recv_mono h else driver_running_since_mono h.

(** [if proc.poll() is None: proc.terminate()], exceptions swallowed. *)
Definition terminate_quietly (term : option string) (s : dst) : dst :=
  match d_process (dh s) with
  | Some (mkPopen p None) => match term with None => demit (DTerminate p) s | Some _ => s end
  | _ => s
  end.

(** The one-threshold behaviour for callers without manager events; [hard]
    is the manager's hard timeout when it has one. *)
Definition _legacy_enforce_device_driver_heartbeat_timeout (m : manager_ctx) (hard : option Q) (t : Q)
    (term : option string) (s : dst) : dst :=
  if negb (bool_decide (driver_process_state (dh s) = RUNNING)) then s
  else
    match heartbeat_ref (dh s) with
    | None => s
    | Some ref =>
        let age := (t - ref)%Q in
        if Qle_bool age heartbeat_timeout_s then s
        else if Qltb age (default (heartbeat_timeout_s * 3)%Q hard) &&
                (_in_startup_grace m t || _recent_manager_loop_stall m t) then s
        else
          let received := heartbeat_from_current_run (dh s) in
          let s := dupd (fun h => h <| driver_process_state := FAILED |>
                                    <| driver_running_since_mono := None |>
                                    <| driver_stop_requested_t_mono := Some t |>
                                    <| driver_last_error_kind := Some "heartbeat_stale" |>) s in
          let s := match or_str (driver_last_error (dh s)) None with
                   | Some _ => s
                   | None =>
                       let msg :=
                         if received
                         then "driver heartbeat stale (" +:+ fixed 1 age +:+ "s > "
                              +:+ fixed 1 heartbeat_timeout_s +:+ "s)"
                         else "driver RUNNING but no heartbeat " +:+ fixed 1 age
                              +:+ "s after registering (timeout " +:+ fixed 1 heartbeat_timeout_s
                              +:+ "s)" in
                       dupd (fun h => h <| driver_last_error := Some msg |>) s
                   end in
          publish_driver_event "manager.driver.failed" (terminate_quietly term s)
    end.

(** A stale episode of an earlier generation is dropped. *)
Definition drop_old_episode (h : DeviceHandle) : DeviceHandle :=
  match driver_heartbeat_stale_since_mono h with
  | Some _ =>
      if bool_decide (driver_heartbeat_stale_generation h = Some (_episode_generation h)) then h
      else _clear_stale_episode h
  | None => h
  end.

Definition hard_timeout_of (h : DeviceHandle) : Q :=
  default heartbeat_hard_timeout_s (ds_heartbeat_hard_timeout_s (d_spec h)).

(** The heartbeat is fresh: an open episode ends with a "recovered" event. *)
Definition soft_recover (age hard t : Q) (s : dst) : dst :=
  match driver_heartbeat_stale_since_mono (dh s) with
  | Some since =>
      let extra := SoftRecovered (fmax 0 (t - since)) (driver_heartbeat_stale_max_age_s (dh s)) in
      dupd _clear_stale_episode
        (_publish_soft_event "manager.driver.heartbeat_recovered" age heartbeat_timeout_s hard t extra s)
  | None => s
  end.

(** The heartbeat is stale: an episode opens, or its maximal age grows. *)
Definition soft_stale (m : manager_ctx) (age hard t : Q) (s : dst) : dst :=
  match driver_heartbeat_stale_since_mono (dh s) with
  | None =>
      let s := dupd (fun h => h <| driver_heartbeat_stale_since_mono := Some t |>
                                <| driver_heartbeat_stale_max_age_s := Some age |>
                                <| driver_heartbeat_stale_generation := Some (_episode_generation h) |>) s in
      _publish_soft_event "manager.driver.heartbeat_stale" age heartbeat_timeout_s hard t
        (SoftStale (heartbeat_from_current_run (dh s)) (_recent_manager_loop_stall m t)
           (_in_startup_grace m t)) s
  | Some _ =>
      dupd (fun h => h <| driver_heartbeat_stale_max_age_s :=
              Some (fmax age (default 0%Q (driver_heartbeat_stale_max_age_s h))) |>) s
  end.

(** Beyond the hard timeout: failure, termination and the restart policy. *)
Definition hard_fail (age hard t : Q) (term : option string) (s : dst) : dst :=
  let s := dupd (fun h => h <| driver_process_state := FAILED |>
                            <| driver_running_since_mono := None |>
                            <| driver_stop_requested_t_mono := Some t |>
                            <| driver_last_error_kind := Some "heartbeat_stale" |>
                            <| driver_last_error :=
                                 Some ("driver heartbeat remained stale for " +:+ fixed 1 age
                                       +:+ "s (soft timeout " +:+ fixed 1 heartbeat_timeout_s
                                       +:+ "s, hard timeout " +:+ fixed 1 hard +:+ "s)") |>) s in
  let s := publish_driver_event "manager.driver.failed" (terminate_quietly term s) in
  if ds_restart_on_heartbeat_timeout (d_spec (dh s)) then
    let s := dupd (fun h => h <| driver_reconnect_after_restart :=
                                   match d_last_hb h with Some hb => h_device_reachable hb | None => false end |>
                              <| driver_reconnect_generation := None |>
                              <| driver_restart_is_automatic := true |>
                              <| driver_next_restart_t_mono :=
                                   Some (t + ds_restart_backoff_s (d_spec h))%Q |>) s in
    publish_driver_event "manager.driver.restart_scheduled" s
  else s.

(** The policy of a manager that can publish events; the code falls back to
    [_legacy_enforce_device_driver_heartbeat_timeout] for one that cannot. *)
Definition enforce_device_driver_heartbeat_timeout (m : manager_ctx) (t : Q) (term : option string)
    (s : dst) : dst :=
  if negb (bool_decide (driver_process_state (dh s) = RUNNING)) then s
  else
    match heartbeat_ref (dh s) with
    | None => s
    | Some ref =>
        let s := dupd drop_old_episode s in
        let age := fmax 0 (t - ref) in
        let hard := hard_timeout_of (dh s) in
        if Qle_bool age heartbeat_timeout_s then soft_recover age hard t s
        else
          let s := soft_stale m age hard t s in
          if Qltb age hard then s else hard_fail age hard t term s
    end.

(** ** Escalation, restarts and the restart budget *)

(** [reaped] is what [poll()] answers after the kill. *)
Definition enforce_device_driver_stop_timeout (t : Q) (kill : option string) (reaped : option Z)
    (s : dst) : dst :=
  let h := dh s in
  if negb (bool_decide (driver_process_state h = STOPPING)) &&
     negb (bool_decide (driver_process_state h = FAILED) &&
           bool_decide (driver_last_error_kind h ∈ [Some "heartbeat_stale"; Some "auto_reconnect_exhausted"]))
  then s
  else
    match driver_stop_requested_t_mono h, d_process h with
    | Some req, Some (mkPopen p None) =>
        let stop := ds_stop_timeout_s (d_spec h) in
        let s :=
          if Qltb stop (t - req) then
            let s := match kill with
                     | None => publish_driver_event "manager.driver.killing" (demit (DKill p) s)
                     | Some exc => dupd (fun h => h <| driver_last_error := Some exc |>) s
                     end in
            dupd (fun h => h <| d_process := Some (mkPopen p reaped) |>) s
          else s in
        if Qltb (stop + ds_kill_timeout_s (d_spec h)) (t - req) && d_alive (dh s) then
          publish_driver_event "manager.driver.kill_timeout"
            (dupd (fun h => h <| driver_process_state := FAILED |>
                              <| driver_last_error := Some "kill timeout" |>
                              <| driver_last_error_kind := Some "kill_timeout" |>
                              <| driver_last_failure_pid := driver_pid h |>) s)
        else s
    | _, _ => s
    end.

Definition maybe_restart_device_driver (t : Q) (spawn : spawn_outcome) (early late : list dmsg)
    : pyM dst unit := fun s =>
  let h := dh s in
  match driver_next_restart_t_mono h with
  | None => (Ok tt, s)
  | Some due =>
      if Qltb t due then (Ok tt, s)
      else if d_alive h then (Ok tt, s)
      else
        let automatic := driver_restart_is_automatic h in
        if automatic &&
           match ds_max_restarts (d_spec h) with Some m => m <=? driver_restart_count h | None => false end then
          (Ok tt, publish_driver_event "manager.driver.crashloop"
                    (dupd (fun h => h <| driver_process_state := CRASHLOOP |>
                                      <| driver_next_restart_t_mono := None |>
                                      <| driver_restart_is_automatic := false |>
                                      <| driver_reconnect_after_restart := false |>
                                      <| driver_reconnect_generation := None |>) s))
        else
          let s := dupd (fun h =>
                     let h := if automatic
                              then h <| driver_restart_count := driver_restart_count h + 1 |> else h in
                     h <| driver_last_restart_t_mono := Some t |>
                       <| driver_restart_healthy_since_mono := None |>
                       <| driver_next_restart_t_mono := None |>) s in
          start_driver spawn early late (publish_driver_event "manager.driver.restarting" s)
  end.

(** The latest heartbeat belongs to this run and is not older than the
    soft timeout. *)
Definition heartbeat_fresh (t : Q) (h : DeviceHandle) : bool :=
  match d_last_hb_recv_mono h with
  | None => false
  | Some hb => heartbeat_from_current_run h && Qle_bool (t - hb) heartbeat_timeout_s
  end.

Definition reset_driver_restart_budget_if_healthy (t : Q) (s : dst) : dst :=
  let h := dh s in
  let unhealthy := dupd (fun h => h <| driver_restart_healthy_since_mono := None |>) s in
  if driver_restart_count h <=? 0 then unhealthy
  else if negb (bool_decide (driver_process_state h = RUNNING)) then unhealthy
  else if negb (heartbeat_fresh t h) then unhealthy
  else
    match driver_restart_healthy_since_mono h with
    | None => dupd (fun h => h <| driver_restart_healthy_since_mono := Some t |>) s
    | Some since =>
        if Qltb (t - since) (ds_restart_healthy_reset_s (d_spec h)) then s
        else publish_driver_event "manager.driver.restart_budget_reset"
               (dupd (fun h => h <| driver_restart_count := 0 |>
                                 <| driver_restart_healthy_since_mono := None |>) s)
    end.

(** ** The supervision tick *)
Record dtick_env := mkDTick {
  dte_now : Q;
  dte_locked : bool;          (* another lifecycle operation holds the device's lock *)
  dte_spawn : spawn_outcome;
  dte_early : list dmsg;
  dte_late : list dmsg;
  dte_term : option string;
  dte_kill : option string;
  dte_reaped : option Z
}.

(** One iteration of [supervise_device_drivers], up to the release of the
    lock.  An exception of the restart leaves the loop. *)
Definition supervise_device_driver (m : manager_ctx) (e : dtick_env) : pyM dst unit := fun s =>
  if dte_locked e then (Ok tt, s)
  else
    let t := dte_now e in
    let s := match d_process (dh s) with
             | Some (mkPopen _ (Some rc)) => update_device_driver_exit_state rc s
             | _ => s
             end in
    let s := enforce_device_driver_heartbeat_timeout m t (dte_term e) s in
    let s := enforce_device_driver_stop_timeout t (dte_kill e) (dte_reaped e) s in
    match maybe_restart_device_driver t (dte_spawn e) (dte_early e) (dte_late e) s with
    | (Ok _, s) => (Ok tt, reset_driver_restart_budget_if_healthy t s)
    | (Err x, s) => (Err x, s)
    end.

(** ** Histories of one device *)

(** What can happen to a device between two observations. *)
Inductive devent :=
| VTick (m : manager_ctx) (e : dtick_env)
| VMessage (msg : dmsg)
| VExit (rc : Z)                                     (* the child's exit becomes visible to poll() *)
| VStart (spawn : spawn_outcome) (early late : list dmsg)
| VStop (t : Q) (force : bool) (term kill : option string)
| VRestart (t : Q) (force : bool) (term kill : option string) (new_spec : option DeviceSpec).

Definition child_exit (rc : Z) (h : DeviceHandle) : DeviceHandle :=
  match d_process h with
  | Some (mkPopen p None) => h <| d_process := Some (mkPopen p (Some rc)) |>
  | _ => h
  end.

Definition dapply (s : dst) (ev : devent) : dst :=
  match ev with
  | VTick m e => snd (supervise_device_driver m e s)
  | VMessage msg => handle_msg s msg
  | VExit rc => dupd (child_exit rc) s
  | VStart spawn early late => snd (start_driver spawn early late s)
  | VStop t force term kill => stop_driver t force term kill s
  | VRestart t force term kill sp => restart_driver t force term kill sp s
  end.

Definition drun (evs : list devent) (s : dst) : dst := foldl dapply s evs.
End driver_ops.
