(* ===== verification/DriverTheorems.v ===== *)
(** * The guarantees of driver supervision *)
From Stdlib Require Import Lqa.
From S2P Require Import Prelude PyVal PyNum ExitCodes ManagedProcess DriverSupervision.
#[local] Open Scope Z_scope.

(** ** Reading the log *)
Definition dspawns (l : list deffect) : list Z :=
  omap (fun e => match e with DSpawn p _ => Some p | _ => None end) l.
Definition softs (l : list deffect) : list string :=
  omap (fun e => match e with DSoft topic _ => Some topic | _ => None end) l.
Definition resets (l : list deffect) : list unit :=
  omap (fun e => match e with
                 | DDriver topic _ => if String.eqb topic "manager.driver.restart_budget_reset" then Some tt
                                      else None
                 | _ => None end) l.

Lemma dspawns_app l k : dspawns (l ++ k) = dspawns l ++ dspawns k.
Proof. apply omap_app. Qed.
Lemma softs_app l k : softs (l ++ k) = softs l ++ softs k.
Proof. apply omap_app. Qed.
Lemma resets_app l k : resets (l ++ k) = resets l ++ resets k.
Proof. apply omap_app. Qed.
#[export] Hint Rewrite dspawns_app softs_app resets_app : evt.

(** A stretch of the log with soft heartbeat events only. *)
Definition only_soft (l : list deffect) : Prop := Forall (fun e => exists tp pl, e = DSoft tp pl) l.

Lemma only_soft_silent l : only_soft l -> dspawns l = [] /\ resets l = [].
Proof. induction 1 as [|? ? (tp & pl & ->) _ [IH1 IH2]]; done. Qed.

(** ** Handles that differ at most in the stale episode *)
Definition same_run (h h' : DeviceHandle) : Prop := _clear_stale_episode h' = _clear_stale_episode h.

#[export] Instance same_run_equiv : Equivalence same_run.
Proof. split; repeat intro; unfold same_run in *; congruence. Qed.

Lemma same_run_proj {A} (f : DeviceHandle -> A) h h' :
  (forall x, f (_clear_stale_episode x) = f x) -> same_run h h' -> f h' = f h.
Proof. intros Hf Hs. by rewrite <- (Hf h'), <- (Hf h), Hs. Qed.

Lemma drop_old_episode_same h : same_run h (drop_old_episode h).
Proof. unfold drop_old_episode. by repeat case_match. Qed.

Section policy.
Context (heartbeat_timeout_s heartbeat_hard_timeout_s : Q).
Notation soft_stale := (soft_stale heartbeat_timeout_s).
Notation soft_recover := (soft_recover heartbeat_timeout_s).
Notation hard_fail := (hard_fail heartbeat_timeout_s).
Notation hard_timeout_of := (hard_timeout_of heartbeat_hard_timeout_s).
Notation enforce := (enforce_device_driver_heartbeat_timeout heartbeat_timeout_s heartbeat_hard_timeout_s).

Lemma soft_stale_same m age hard t s :
  same_run (dh s) (dh (soft_stale m age hard t s)) /\
  exists soft, dlog (soft_stale m age hard t s) = dlog s ++ soft /\ only_soft soft.
Proof.
  unfold DriverSupervision.soft_stale. destruct (driver_heartbeat_stale_since_mono (dh s)); cbv zeta.
  - split; [reflexivity|]. exists []. split; [by rewrite app_nil_r|constructor].
  - split; [reflexivity|]. eexists. unfold _publish_soft_event. autorewrite with evt. split; [done|].
    constructor; [by eexists _, _|constructor].
Qed.

Lemma soft_recover_same age hard t s :
  same_run (dh s) (dh (soft_recover age hard t s)) /\
  exists soft, dlog (soft_recover age hard t s) = dlog s ++ soft /\ only_soft soft.
Proof.
  unfold DriverSupervision.soft_recover. destruct (driver_heartbeat_stale_since_mono (dh s)); cbv zeta.
  - split; [reflexivity|]. eexists. unfold _publish_soft_event. autorewrite with evt. split; [done|].
    constructor; [by eexists _, _|constructor].
  - split; [reflexivity|]. exists []. split; [by rewrite app_nil_r|constructor].
Qed.

(** What a hard failure does to the handle and to the log. *)
Definition hard_failed (t : Q) (term : option string) (s s' : dst) : Prop :=
  driver_process_state (dh s') = FAILED /\
  driver_last_error_kind (dh s') = Some "heartbeat_stale" /\
  driver_stop_requested_t_mono (dh s') = Some t /\
  driver_running_since_mono (dh s') = None /\
  d_process (dh s') = d_process (dh s) /\
  d_spec (dh s') = d_spec (dh s) /\ driver_restart_count (dh s') = driver_restart_count (dh s) /\
  (if ds_restart_on_heartbeat_timeout (d_spec (dh s)) then
     driver_next_restart_t_mono (dh s') = Some (t + ds_restart_backoff_s (d_spec (dh s)))%Q /\
     driver_restart_is_automatic (dh s') = true
   else driver_next_restart_t_mono (dh s') = driver_next_restart_t_mono (dh s) /\
        driver_restart_is_automatic (dh s') = driver_restart_is_automatic (dh s)) /\
  exists soft, only_soft soft /\
    dlog s' = dlog s ++ soft ++
      match d_process (dh s), term with Some (mkPopen p None), None => [DTerminate p] | _, _ => [] end ++
      [DDriver "manager.driver.failed" FAILED] ++
      (if ds_restart_on_heartbeat_timeout (d_spec (dh s))
       then [DDriver "manager.driver.restart_scheduled" FAILED] else []).

Lemma hard_fail_spec age hard t term s : hard_failed t term s (hard_fail age hard t term s).
Proof.
  unfold hard_failed, DriverSupervision.hard_fail, terminate_quietly. cbv zeta.
  set (f := fun h : DeviceHandle => _). autorewrite with evt.
  change (d_process (f (dh s))) with (d_process (dh s)).
  destruct (d_process (dh s)) as [[p [rc|]]|] eqn:Ep; [| destruct term |];
    autorewrite with evt; change (d_spec (f (dh s))) with (d_spec (dh s));
    destruct (ds_restart_on_heartbeat_timeout (d_spec (dh s)));
    autorewrite with evt; split_and!; try reflexivity; try exact Ep; try done;
    exists []; (split; [constructor|]); subst f; cbn; rewrite <- ?app_assoc; reflexivity.
Qed.

Lemma hard_failed_same t term s s1 s' :
  same_run (dh s) (dh s1) ->
  (exists soft, dlog s1 = dlog s ++ soft /\ only_soft soft) ->
  hard_failed t term s1 s' -> hard_failed t term s s'.
Proof.
  intros Hs (soft & Hl & Hf). unfold hard_failed.
  rewrite (same_run_proj d_process _ _ ltac:(done) Hs), (same_run_proj d_spec _ _ ltac:(done) Hs),
    (same_run_proj driver_restart_count _ _ ltac:(done) Hs),
    (same_run_proj driver_next_restart_t_mono _ _ ltac:(done) Hs),
    (same_run_proj driver_restart_is_automatic _ _ ltac:(done) Hs).
  intros (?&?&?&?&?&?&?&?& soft' & Hf' & ->). split_and!; try done. exists (soft ++ soft'). split.
  - by apply Forall_app.
  - by rewrite Hl, <- !app_assoc.
Qed.

(** The policy, by the age of the heartbeat. *)
Lemma enforce_cases m t term s ref :
  driver_process_state (dh s) = RUNNING -> heartbeat_ref (dh s) = Some ref ->
  let age := fmax 0 (t - ref) in
  if Qle_bool age heartbeat_timeout_s || Qltb age (hard_timeout_of (dh s)) then
    same_run (dh s) (dh (enforce m t term s)) /\
    exists soft, dlog (enforce m t term s) = dlog s ++ soft /\ only_soft soft
  else hard_failed t term s (enforce m t term s).
Proof.
  intros Hr Href age. unfold DriverSupervision.enforce_device_driver_heartbeat_timeout.
  rewrite Hr, Href, bool_decide_eq_true_2 by done. cbv beta iota zeta delta [negb]. fold age.
  set (s0 := dupd drop_old_episode s).
  assert (same_run (dh s) (dh s0)) as Hs0 by apply drop_old_episode_same.
  assert (hard_timeout_of (dh s0) = hard_timeout_of (dh s)) as Hh
    by (by apply (same_run_proj hard_timeout_of)).
  assert (dlog s0 = dlog s) as Hl0 by reflexivity. clearbody s0. rewrite Hh.
  destruct (Qle_bool age heartbeat_timeout_s); cbn [orb].
  - destruct (soft_recover_same age (hard_timeout_of (dh s)) t s0) as (H1 & soft & H2 & H3).
    split; [by etrans|]. exists soft. by rewrite H2, Hl0.
  - destruct (soft_stale_same m age (hard_timeout_of (dh s)) t s0) as (H1 & soft & H2 & H3).
    generalize dependent (soft_stale m age (hard_timeout_of (dh s)) t s0). intros s1 H1 H2.
    rewrite Hl0 in H2. assert (same_run (dh s) (dh s1)) as Hs1 by (by etrans).
    destruct (Qltb age _).
    + split; [done|]. by exists soft.
    + apply (hard_failed_same _ _ _ s1); eauto. apply hard_fail_spec.
Qed.

Lemma enforce_idle m t term s :
  driver_process_state (dh s) <> RUNNING \/ heartbeat_ref (dh s) = None -> enforce m t term s = s.
Proof.
  intros H. unfold DriverSupervision.enforce_device_driver_heartbeat_timeout.
  destruct (bool_decide_reflect (driver_process_state (dh s) = RUNNING)); [|done]. cbn [negb].
  destruct H as [?| ->]; done.
Qed.

(** C14. The staged heartbeat policy.  While the age of the heartbeat has not
    crossed both the soft and the hard timeout, enforcement may open or close
    a stale episode and publish soft events, but nothing else of the handle
    changes: the driver stays RUNNING, and no signal, failure or restart is
    issued.  Once both are crossed, the driver is FAILED for a stale
    heartbeat, a live child is terminated, and an automatic restart is
    scheduled exactly when the device asks for it. *)
Theorem staged_heartbeat_policy m t term s ref :
  driver_process_state (dh s) = RUNNING -> heartbeat_ref (dh s) = Some ref ->
  let age := fmax 0 (t - ref) in
  let s' := enforce m t term s in
  ((age <= heartbeat_timeout_s \/ age < hard_timeout_of (dh s))%Q ->
     same_run (dh s) (dh s') /\ driver_process_state (dh s') = RUNNING /\
     exists soft, dlog s' = dlog s ++ soft /\ only_soft soft) /\
  ((heartbeat_timeout_s < age)%Q -> (hard_timeout_of (dh s) <= age)%Q -> hard_failed t term s s').
Proof.
  intros Hr Href age s'. pose proof (enforce_cases m t term s ref Hr Href) as Hc. cbv zeta in Hc.
  fold age s' in Hc. split.
  - intros Hage.
    assert (Qle_bool age heartbeat_timeout_s || Qltb age (hard_timeout_of (dh s)) = true) as E.
    { apply orb_true_iff. destruct Hage; [left; by apply Qle_bool_true|right; by apply Qltb_true]. }
    rewrite E in Hc. destruct Hc as [Hs Hl]. split_and!; try done.
    by rewrite (same_run_proj driver_process_state _ _ ltac:(done) Hs).
  - intros H1 H2. by rewrite Qle_bool_false, Qltb_false in Hc.
Qed.
End policy.

(** ** Steps that leave the restart machinery and the episode alone *)
Record dcalm (s s' : dst) : Prop := {
  dc_spawns : dspawns (dlog s') = dspawns (dlog s);
  dc_softs : softs (dlog s') = softs (dlog s);
  dc_resets : resets (dlog s') = resets (dlog s);
  dc_next : driver_next_restart_t_mono (dh s') = driver_next_restart_t_mono (dh s);
  dc_auto : driver_restart_is_automatic (dh s') = driver_restart_is_automatic (dh s);
  dc_count : driver_restart_count (dh s') = driver_restart_count (dh s);
  dc_spec : d_spec (dh s') = d_spec (dh s);
  dc_since : driver_heartbeat_stale_since_mono (dh s') = driver_heartbeat_stale_since_mono (dh s);
  dc_gen : driver_heartbeat_stale_generation (dh s') = driver_heartbeat_stale_generation (dh s);
  dc_generation : driver_generation (dh s') = driver_generation (dh s)
}.

#[export] Instance dcalm_refl : Reflexive dcalm.
Proof. by constructor. Qed.
#[export] Instance dcalm_trans : Transitive dcalm.
Proof. intros s1 s2 s3 [] []. constructor; congruence. Qed.

Lemma dcalm_emit e s : dspawns [e] = [] -> softs [e] = [] -> resets [e] = [] -> dcalm s (demit e s).
Proof.
  intros H1 H2 H3. constructor; try done; autorewrite with evt; rewrite ?H1, ?H2, ?H3; apply app_nil_r.
Qed.

Lemma dcalm_publish topic s :
  topic <> "manager.driver.restart_budget_reset" -> dcalm s (publish_driver_event topic s).
Proof. intros H%String.eqb_neq. apply dcalm_emit; try done. cbn. by rewrite H. Qed.

Lemma dcalm_upd f s : (forall l, dcalm (mkDst (dh s) l) (mkDst (f (dh s)) l)) -> dcalm s (dupd f s).
Proof. intros H. destruct (H (dlog s)). by constructor. Qed.

Lemma dcalm_let a (v : dst) (b : dst -> dst) :
  dcalm a v -> (forall s', dcalm a s' -> dcalm a (b s')) -> dcalm a (let x := v in b x).
Proof. intros Hv Hb. exact (Hb v Hv). Qed.

Ltac dcalm_fields :=
  try match goal with
      | |- context [if d_alive ?h then _ else _] => destruct (d_alive h)
      | |- context [match or_str ?x ?y with _ => _ end] => destruct (or_str x y)
      end;
  constructor; reflexivity.

Ltac dcalm_tac :=
  lazymatch goal with
  | H : dcalm ?a ?s |- dcalm ?a ?s => exact H
  | |- dcalm ?a (let x := ?v in @?b x) =>
      lazymatch type of v with
      | dst => apply (dcalm_let a v b); [dcalm_tac | intros ? ?; cbv beta; dcalm_tac]
      | _ => change (dcalm a (b v)); cbv beta; dcalm_tac
      end
  | |- dcalm _ (dupd _ _) => etrans; [|apply dcalm_upd; intros; cbv beta zeta; dcalm_fields]; dcalm_tac
  | |- dcalm _ (demit _ _) => etrans; [|apply dcalm_emit; reflexivity]; dcalm_tac
  | |- dcalm _ (publish_driver_event _ _) => etrans; [|apply dcalm_publish; discriminate]; dcalm_tac
  | |- dcalm _ (if ?b then _ else _) => destruct b; dcalm_tac
  | |- dcalm _ (match ?x with _ => _ end) => destruct x; dcalm_tac
  | |- dcalm ?a ?a => reflexivity
  | |- _ => idtac
  end.

Section calm_ops.
Context (plat : platform) (signals : list (Z * string)).
Context (heartbeat_timeout_s heartbeat_hard_timeout_s : Q).

Lemma dcalm_registry t reg s : dcalm s (_handle_registry heartbeat_timeout_s t reg s).
Proof.
  cbv beta delta [_handle_registry]. dcalm_tac.
Qed.

Lemma dcalm_msg msg s : dcalm s (handle_msg heartbeat_timeout_s s msg).
Proof.
  destruct msg; [apply dcalm_registry|]. cbv beta iota delta [handle_msg _store_heartbeat_on_handle]. dcalm_tac.
Qed.

Lemma dcalm_msgs msgs s : dcalm s (handle_msgs heartbeat_timeout_s msgs s).
Proof.
  revert s. induction msgs as [|x l IH]; intros s; [reflexivity|].
  etrans; [apply dcalm_msg|]. apply IH.
Qed.

Lemma dcalm_child_exit rc s : dcalm s (dupd (child_exit rc) s).
Proof. apply dcalm_upd. intros l. unfold child_exit. by repeat case_match; constructor. Qed.

Lemma child_exit_state rc h :
  driver_process_state (child_exit rc h) = driver_process_state h /\
  _episode_generation (child_exit rc h) = _episode_generation h.
Proof. unfold child_exit. by repeat case_match. Qed.

Lemma dcalm_exit_state rc s : dcalm s (update_device_driver_exit_state plat signals rc s).
Proof.
  cbv beta delta [update_device_driver_exit_state driver_failed]. dcalm_tac.
Qed.

Lemma dcalm_stop_timeout t kill reaped s :
  dcalm s (enforce_device_driver_stop_timeout t kill reaped s).
Proof. cbv beta delta [enforce_device_driver_stop_timeout]. dcalm_tac. Qed.

Lemma stop_timeout_state t kill reaped s :
  let h' := dh (enforce_device_driver_stop_timeout t kill reaped s) in
  (driver_process_state h' = driver_process_state (dh s) \/ driver_process_state h' = FAILED) /\
  _episode_generation h' = _episode_generation (dh s).
Proof.
  cbv beta delta [enforce_device_driver_stop_timeout] zeta.
  match goal with |- context [if ?b then s else _] => destruct b end; [by split; [left|]|].
  destruct (driver_stop_requested_t_mono (dh s)) as [req|]; [|by split; [left|]].
  destruct (d_process (dh s)) as [[p [rc|]]|]; [by split; [left|]| |by split; [left|]].
  destruct (Qltb _ (t - req)), (Qltb _ (t - req)), kill; cbn [andb];
    try match goal with |- context [if d_alive ?x then _ else _] => destruct (d_alive x) end;
    split; try reflexivity; (left; reflexivity) || (right; reflexivity).
Qed.

Lemma exit_state_stopped rc s :
  driver_process_state (dh (update_device_driver_exit_state plat signals rc s)) ∈ [STOPPED; FAILED].
Proof.
  cbv beta delta [update_device_driver_exit_state driver_failed] zeta. autorewrite with evt. cbv beta.
  repeat match goal with
         | |- context [if ?b then _ else _] => destruct b
         | |- context [match ?x with Some _ => _ | None => _ end] => destruct x
         end;
  autorewrite with evt; cbv beta;
  repeat match goal with
         | |- context [match ?x with Some _ => _ | None => _ end] => destruct x
         end; solve [left | right; left].
Qed.

(** ** Launching *)
Definition is_registration (msg : dmsg) : bool := match msg with MRegister _ _ => true | _ => false end.

(** What a launch that is not skipped leaves behind. *)
Record launched (quiet : Prop) (s s' : dst) : Prop := {
  la_spawns : (length (dspawns (dlog s')) <= length (dspawns (dlog s)) + 1)%nat;
  la_softs : softs (dlog s') = softs (dlog s);
  la_resets : resets (dlog s') = resets (dlog s);
  la_next : driver_next_restart_t_mono (dh s') = None;
  la_auto : driver_restart_is_automatic (dh s') = driver_restart_is_automatic (dh s);
  la_count : driver_restart_count (dh s') = driver_restart_count (dh s);
  la_spec : d_spec (dh s') = d_spec (dh s);
  la_since : driver_heartbeat_stale_since_mono (dh s') = driver_heartbeat_stale_since_mono (dh s);
  la_state : quiet -> driver_process_state (dh s') <> RUNNING
}.

Lemma quiet_msgs_state msgs s :
  existsb is_registration msgs = false ->
  driver_process_state (dh (handle_msgs heartbeat_timeout_s msgs s)) = driver_process_state (dh s).
Proof.
  revert s. induction msgs as [|[t reg|t hb] l IH]; intros s Hq; [done|done|].
  exact (IH _ Hq).
Qed.

Lemma finish_launch_frame p s :
  dcalm s (dupd (finish_launch p) s) /\
  (driver_process_state (dh (dupd (finish_launch p) s)) = RUNNING <-> driver_process_state (dh s) = RUNNING).
Proof.
  rewrite dh_dupd. cbv beta delta [finish_launch] zeta. split.
  - apply dcalm_upd. intros l. cbv beta.
    match goal with |- context [match ?x with Some _ => _ | None => _ end] => destruct x end;
      match goal with |- context [if ?b then _ else _] => destruct b end; constructor; reflexivity.
  - match goal with |- context [match ?x with Some _ => _ | None => _ end] => destruct x end;
      (case_bool_decide as E; [split; [intros _|intros _]; exact E|split; [discriminate|]]);
      intros Hr; destruct E; exact Hr.
Qed.

Lemma start_driver_cases spawn early late s :
  let s' := snd (start_driver heartbeat_timeout_s spawn early late s) in
  s' = s \/ launched (existsb is_registration (early ++ late) = false) s s'.
Proof.
  cbv beta delta [start_driver]. destruct (d_alive (dh s)); [by left|].
  case_bool_decide; [by left|]. right. cbv zeta. destruct spawn as [p|msg]; cbn [snd].
  - set (s0 := demit _ (dupd begin_launch s)).
    assert (dspawns (dlog s0) = dspawns (dlog s) ++ [p]) as Hsp
      by (unfold s0; autorewrite with evt; reflexivity).
    assert (softs (dlog s0) = softs (dlog s) /\ resets (dlog s0) = resets (dlog s)) as [Hso Hre]
      by (unfold s0; autorewrite with evt; cbn; by rewrite !app_nil_r).
    assert (driver_next_restart_t_mono (dh s0) = None /\ driver_process_state (dh s0) = STARTING /\
            driver_restart_is_automatic (dh s0) = driver_restart_is_automatic (dh s) /\
            driver_restart_count (dh s0) = driver_restart_count (dh s) /\
            d_spec (dh s0) = d_spec (dh s) /\
            driver_heartbeat_stale_since_mono (dh s0) = driver_heartbeat_stale_since_mono (dh s))
      as (Hnx & Hst & Hau & Hco & Hspc & Hsi).
    { unfold s0, begin_launch. autorewrite with evt. cbv zeta.
      match goal with |- context [if ?b then _ else _] => destruct b end; split_and!; reflexivity. }
    clearbody s0.
    pose proof (dcalm_msgs early s0) as C1. pose proof (quiet_msgs_state early s0) as Q1.
    generalize dependent (handle_msgs heartbeat_timeout_s early s0). intros s1 C1 Q1.
    set (s2 := dupd _ s1). assert (dcalm s1 s2) as C2 by (constructor; reflexivity).
    assert (driver_process_state (dh s2) = driver_process_state (dh s1)) as Q2 by reflexivity.
    clearbody s2.
    pose proof (dcalm_msgs late s2) as C3. pose proof (quiet_msgs_state late s2) as Q3.
    generalize dependent (handle_msgs heartbeat_timeout_s late s2). intros s3 C3 Q3.
    destruct (finish_launch_frame p s3) as [C4 Q4].
    generalize dependent (dupd (finish_launch p) s3). intros s4 C4 Q4.
    set (s5 := if bool_decide _ then s4 else _).
    assert (dcalm s4 s5) as C5 by (unfold s5; case_match; [reflexivity|by apply dcalm_publish]).
    assert (driver_process_state (dh s5) = driver_process_state (dh s4)) as Q5
      by (unfold s5; by case_match).
    clearbody s5.
    assert (dcalm s0 s5) as [] by (do 2 etrans; eassumption || (etrans; eassumption)).
    constructor; try congruence.
    + rewrite dc_spawns0, Hsp, length_app. cbn. lia.
    + rewrite existsb_app, orb_false_iff. intros [N1 N2]. rewrite Q5, Q4, Q3, Q2, Q1 by done. congruence.
  - unfold publish_driver_event. constructor; autorewrite with evt; cbn; rewrite ?app_nil_r; try reflexivity.
    + lia.
    + unfold begin_launch. cbv zeta. by destruct (driver_reconnect_after_restart _).
    + unfold begin_launch. cbv zeta. by destruct (driver_reconnect_after_restart _).
    + unfold begin_launch. cbv zeta. by destruct (driver_reconnect_after_restart _).
    + unfold begin_launch. cbv zeta. by destruct (driver_reconnect_after_restart _).
    + discriminate.
Qed.
End calm_ops.

Section histories.
Context (plat : platform) (signals : list (Z * string)).
Context (heartbeat_timeout_s heartbeat_hard_timeout_s : Q).
Notation exit_state := (update_device_driver_exit_state plat signals).
Notation enforce := (enforce_device_driver_heartbeat_timeout heartbeat_timeout_s heartbeat_hard_timeout_s).
Notation tick := (supervise_device_driver plat signals heartbeat_timeout_s heartbeat_hard_timeout_s).
Notation drun := (drun plat signals heartbeat_timeout_s heartbeat_hard_timeout_s).
Notation dapply := (dapply plat signals heartbeat_timeout_s heartbeat_hard_timeout_s).

(** A tick is the composition of its five stages: an invariant of the
    stages is an invariant of the tick. *)
Lemma tick_preserves (P : dst -> Prop) m e s :
  (forall rc x, P x -> P (exit_state rc x)) ->
  (forall x, P x -> P (enforce m (dte_now e) (dte_term e) x)) ->
  (forall x, P x -> P (enforce_device_driver_stop_timeout (dte_now e) (dte_kill e) (dte_reaped e) x)) ->
  (forall x, P x -> P (snd (maybe_restart_device_driver heartbeat_timeout_s (dte_now e) (dte_spawn e)
                              (dte_early e) (dte_late e) x))) ->
  (forall x, P x -> P (reset_driver_restart_budget_if_healthy heartbeat_timeout_s (dte_now e) x)) ->
  P s -> P (snd (tick m e s)).
Proof.
  intros H1 H2 H3 H4 H5 Hs. unfold supervise_device_driver. destruct (dte_locked e); [done|]. cbv zeta.
  set (s1 := match d_process (dh s) with Some (mkPopen _ (Some rc)) => _ | _ => _ end).
  assert (P s1) as Hs1 by (unfold s1; repeat case_match; auto). clearbody s1.
  specialize (H4 _ (H3 _ (H2 _ Hs1))).
  destruct (maybe_restart_device_driver _ _ _ _ _ _) as [[u|x] s4]; cbn [snd] in *; auto.
Qed.

Lemma drun_preserves (P : dst -> Prop) (ok : devent -> Prop) evs s :
  (forall ev x, ok ev -> P x -> P (dapply x ev)) -> Forall ok evs -> P s -> P (drun evs s).
Proof.
  intros Hstep Hev. revert s. induction Hev as [|ev l Hok _ IH]; intros s Hs; [done|].
  apply IH. by apply Hstep.
Qed.

(** ** Restarts after an operator stop *)
Definition no_registration (ev : devent) : bool :=
  match ev with
  | VMessage (MRegister _ _) => false
  | VTick _ e => negb (existsb is_registration (dte_early e ++ dte_late e))
  | VStart _ early late => negb (existsb is_registration (early ++ late))
  | _ => true
  end.
Definition no_operator (ev : devent) : bool :=
  match ev with VStart _ _ _ | VStop _ _ _ _ | VRestart _ _ _ _ _ => false | _ => true end.

Definition parked (n : nat) (s : dst) : Prop :=
  driver_next_restart_t_mono (dh s) = None /\ driver_process_state (dh s) <> RUNNING /\
  length (dspawns (dlog s)) = n.

Lemma parked_calm n s s' :
  dcalm s s' -> driver_process_state (dh s') <> RUNNING -> parked n s -> parked n s'.
Proof. intros [] Hr (?&?&?). split_and!; congruence. Qed.

Lemma parked_event n ev s :
  no_registration ev = true /\ no_operator ev = true -> parked n s -> parked n (dapply s ev).
Proof.
  intros [Hreg Hop] Hp. destruct ev as [m e|[t reg|t hb]|rc| | |]; try done; cbn [DriverSupervision.dapply].
  - apply tick_preserves; [..|exact Hp]; clear; intros.
    + eapply parked_calm; [apply dcalm_exit_state| |done].
      pose proof (exit_state_stopped plat signals rc x) as Hin.
      intros E. rewrite E in Hin. by apply list_elem_of_In in Hin as [|[|[]]].
    + rewrite enforce_idle; [done|]. left. apply H.
    + eapply parked_calm; [apply dcalm_stop_timeout| |done].
      destruct (stop_timeout_state (dte_now e) (dte_kill e) (dte_reaped e) x) as [[-> | ->] _]; [apply H|done].
    + unfold maybe_restart_device_driver. pose proof H as (E & _). cbv zeta. by rewrite E.
    + unfold reset_driver_restart_budget_if_healthy. destruct H as (Hn & Hr & Hs). cbv zeta.
      rewrite bool_decide_eq_false_2 by done. cbn [negb]. destruct (_ <=? 0); by split_and!.
  - eapply parked_calm; [apply dcalm_child_exit| |exact Hp].
    rewrite dh_dupd. rewrite (proj1 (child_exit_state rc (dh s))). apply Hp.
Qed.

Lemma stop_driver_effect t force term kill s :
  let s' := stop_driver heartbeat_timeout_s t force term kill s in
  driver_next_restart_t_mono (dh s') = None /\ driver_process_state (dh s') <> RUNNING /\
  dspawns (dlog s') = dspawns (dlog s) /\ softs (dlog s') = softs (dlog s) /\
  driver_heartbeat_stale_since_mono (dh s') = driver_heartbeat_stale_since_mono (dh s).
Proof.
  unfold stop_driver, mark_device_offline, publish_driver_event. cbv zeta.
  autorewrite with evt. cbv beta.
  match goal with |- context [d_process ?x] => change (d_process x) with (d_process (dh s)) end.
  destruct (d_process (dh s)) as [[p [rc|]]|], force; [| |destruct term, kill|..];
    autorewrite with evt; cbv beta; cbn; rewrite ?app_nil_r; split_and!; reflexivity || discriminate.
Qed.

Lemma stop_parks t force term kill s :
  parked (length (dspawns (dlog s))) (stop_driver heartbeat_timeout_s t force term kill s).
Proof.
  destruct (stop_driver_effect t force term kill s) as (?&?&E&_). split_and!; try done. by rewrite E.
Qed.

(** C36. Operator stop is final.  After [stop_driver], whatever supervision
    ticks, heartbeats and child exits follow, in any order, no driver
    process is spawned and the driver is never reported RUNNING again, until
    an operator command or a registration arrives. *)
Theorem operator_stop_is_final t force term kill s evs :
  forallb no_registration evs = true -> forallb no_operator evs = true ->
  let s0 := stop_driver heartbeat_timeout_s t force term kill s in
  length (dspawns (dlog (drun evs s0))) = length (dspawns (dlog s)) /\
  driver_process_state (dh (drun evs s0)) <> RUNNING.
Proof.
  intros Hreg Hop s0.
  enough (parked (length (dspawns (dlog s))) (drun evs s0)) as (_ & ? & ?) by done.
  apply (drun_preserves _ (fun ev => no_registration ev = true /\ no_operator ev = true)).
  - intros ev x Hok. by apply parked_event.
  - apply Forall_forall. intros ev Hin.
    rewrite forallb_forall in Hreg, Hop. by split; [apply Hreg|apply Hop]; apply list_elem_of_In.
  - apply stop_parks.
Qed.

(** ** The budget of automatic restarts *)
Definition n_spawns (s : dst) : Z := Z.of_nat (length (dspawns (dlog s))).
Definition n_resets (s : dst) : Z := Z.of_nat (length (resets (dlog s))).

(** Pending restarts are automatic, the counter is within the budget [M] and
    accounts for every spawn since [base], up to [M] per reset. *)
Definition budgeted (M base : Z) (s : dst) : Prop :=
  ds_max_restarts (d_spec (dh s)) = Some M /\
  (driver_next_restart_t_mono (dh s) <> None -> driver_restart_is_automatic (dh s) = true) /\
  0 <= driver_restart_count (dh s) <= M /\
  n_spawns s <= base + driver_restart_count (dh s) + M * n_resets s.

Lemma budgeted_calm M base s s' : dcalm s s' -> budgeted M base s -> budgeted M base s'.
Proof.
  intros [] (H1&H2&H3&H4). unfold budgeted, n_spawns, n_resets in *.
  rewrite dc_spawns0, dc_resets0, dc_next0, dc_auto0, dc_count0, dc_spec0. done.
Qed.

Lemma enforce_effect m t term x :
  let x' := enforce m t term x in
  dspawns (dlog x') = dspawns (dlog x) /\ resets (dlog x') = resets (dlog x) /\
  d_spec (dh x') = d_spec (dh x) /\ driver_restart_count (dh x') = driver_restart_count (dh x) /\
  (driver_next_restart_t_mono (dh x') = driver_next_restart_t_mono (dh x) /\
   driver_restart_is_automatic (dh x') = driver_restart_is_automatic (dh x) \/
   driver_restart_is_automatic (dh x') = true).
Proof.
  cbv zeta. destruct (decide (driver_process_state (dh x) = RUNNING)) as [Hr|Hr];
    [destruct (heartbeat_ref (dh x)) as [ref|] eqn:Href|];
    try (rewrite enforce_idle by auto; split_and!; auto; fail).
  pose proof (enforce_cases heartbeat_timeout_s heartbeat_hard_timeout_s m t term x ref Hr Href) as Hc.
  cbv zeta in Hc. generalize dependent (enforce m t term x). intros x' Hc. case_match.
  - destruct Hc as (Hs & soft & -> & [H1 H2]%only_soft_silent). autorewrite with evt.
    rewrite H1, H2, !app_nil_r.
    split_and!; try done; try (left; split); by apply same_run_proj with (h := dh x).
  - destruct Hc as (_&_&_&_&_&?&?&Hn& soft & [H1 H2]%only_soft_silent & ->). autorewrite with evt.
    rewrite H1, H2. split_and!; try done.
    1,2: destruct (d_process (dh x)) as [[p [rc|]]|], term, (ds_restart_on_heartbeat_timeout _);
      cbn; by rewrite app_nil_r.
    case_match; [right|left]; tauto.
Qed.

Lemma budgeted_enforce M base m t term x : budgeted M base x -> budgeted M base (enforce m t term x).
Proof.
  intros (H1&H2&H3&H4). destruct (enforce_effect m t term x) as (E1&E2&E3&E4&E5).
  unfold budgeted, n_spawns, n_resets in *. rewrite E1, E2, E3, E4. split; [done|]. split; [|done].
  destruct E5 as [[-> ->]|E5]; auto.
Qed.

Lemma budgeted_restart M base t spawn early late x :
  budgeted M base x ->
  budgeted M base (snd (maybe_restart_device_driver heartbeat_timeout_s t spawn early late x)).
Proof.
  intros Hb. pose proof Hb as (H1&H2&H3&H4). cbv beta delta [maybe_restart_device_driver]. cbv zeta.
  destruct (driver_next_restart_t_mono (dh x)) as [due|] eqn:En; [|done].
  destruct (Qltb t due); [done|]. destruct (d_alive (dh x)); [done|].
  rewrite H2, H1 by done. cbn [andb]. destruct (Z.leb_spec M (driver_restart_count (dh x))); cbn [snd].
  - unfold budgeted, n_spawns, n_resets in *. unfold publish_driver_event. autorewrite with evt.
    cbn. rewrite !app_nil_r. split_and!; tauto.
  - set (s1 := publish_driver_event _ _).
    assert (dspawns (dlog s1) = dspawns (dlog x) /\ resets (dlog s1) = resets (dlog x)) as [E1 E2]
      by (unfold s1, publish_driver_event; autorewrite with evt; cbn; by rewrite !app_nil_r).
    assert (driver_next_restart_t_mono (dh s1) = None /\ d_spec (dh s1) = d_spec (dh x) /\
            driver_restart_count (dh s1) = driver_restart_count (dh x) + 1) as (E3 & E4 & E5)
      by (split_and!; reflexivity).
    clearbody s1. pose proof (start_driver_cases heartbeat_timeout_s spawn early late s1) as Hc.
    cbv zeta in Hc. generalize dependent (snd (start_driver heartbeat_timeout_s spawn early late s1)).
    unfold budgeted, n_spawns, n_resets in *. intros s2 [-> | []].
    + rewrite E1, E2, E3, E4, E5. split_and!; try done; lia.
    + rewrite la_resets0, la_next0, la_spec0, la_count0, E2, E4, E5. rewrite E1 in la_spawns0.
      split_and!; try done; lia.
Qed.

Lemma budgeted_reset M base t x :
  budgeted M base x -> budgeted M base (reset_driver_restart_budget_if_healthy heartbeat_timeout_s t x).
Proof.
  intros Hb. pose proof Hb as (H1&H2&H3&H4). unfold reset_driver_restart_budget_if_healthy. cbv zeta.
  assert (forall v, budgeted M base (dupd (fun h => h <| driver_restart_healthy_since_mono := v |>) x)) as Hu
    by (intros v; split; [exact H1|split; [exact H2|split; [exact H3|exact H4]]]).
  destruct (_ <=? 0); [apply Hu|]. destruct (negb _); [apply Hu|]. destruct (negb _); [apply Hu|].
  destruct (driver_restart_healthy_since_mono (dh x)); [|apply Hu].
  match goal with |- context [if ?b then x else _] => destruct b end; [done|].
  unfold budgeted, n_spawns, n_resets in *. unfold publish_driver_event. autorewrite with evt.
  cbn. rewrite app_nil_r, length_app. cbn. split; [exact H1|]. split; [exact H2|]. lia.
Qed.

Lemma budgeted_event M base ev s :
  no_operator ev = true -> budgeted M base s -> budgeted M base (dapply s ev).
Proof.
  intros Hop Hb. destruct ev as [m e|msg|rc| | |]; try discriminate; cbn [DriverSupervision.dapply].
  - apply tick_preserves; [..|exact Hb]; intros.
    + eapply budgeted_calm; [apply dcalm_exit_state|done].
    + by apply budgeted_enforce.
    + eapply budgeted_calm; [apply dcalm_stop_timeout|done].
    + by apply budgeted_restart.
    + by apply budgeted_reset.
  - eapply budgeted_calm; [apply dcalm_msg|done].
  - eapply budgeted_calm; [apply dcalm_child_exit|done].
Qed.

(** The budget of automatic restarts.  For a device with at most [M]
    automatic restarts and no pending restart, along any history of ticks,
    registrations, heartbeats and child exits, the number of new driver
    processes is at most what is left of the budget plus [M] for every
    budget reset (which a continuously healthy run earns): a driver that
    never recovers is not restarted for ever. *)
Theorem driver_restart_budget M s evs :
  ds_max_restarts (d_spec (dh s)) = Some M ->
  driver_next_restart_t_mono (dh s) = None ->
  0 <= driver_restart_count (dh s) <= M ->
  forallb no_operator evs = true ->
  let s' := drun evs s in
  n_spawns s' - n_spawns s <= (M - driver_restart_count (dh s)) + M * (n_resets s' - n_resets s) /\
  0 <= driver_restart_count (dh s') <= M.
Proof.
  intros H1 H2 H3 Hop s'.
  enough (budgeted M (n_spawns s - driver_restart_count (dh s) - M * n_resets s) s') as (_&_&?&?)
    by (split; [lia|done]).
  apply (drun_preserves _ (fun ev => no_operator ev = true)).
  - intros ev x. apply budgeted_event.
  - apply Forall_forall. intros ev Hin%list_elem_of_In. rewrite forallb_forall in Hop. by apply Hop.
  - split_and!; try done; try lia.
Qed.

(** ** Soft heartbeat events *)

(** Whether an episode is open after a soft event, [None] when the event is
    out of place; [strict] also forbids a second "stale" in an episode. *)
Definition soft_step (strict : bool) (o : option bool) (topic : string) : option bool :=
  match o with
  | None => None
  | Some opened =>
      if String.eqb topic "manager.driver.heartbeat_stale"
      then if strict && opened then None else Some true
      else if String.eqb topic "manager.driver.heartbeat_recovered"
      then if opened then Some false else None
      else None
  end.
Definition soft_open (strict : bool) (l : list string) : option bool :=
  foldl (soft_step strict) (Some false) l.

Definition in_episode (h : DeviceHandle) : bool :=
  match driver_heartbeat_stale_since_mono h with Some _ => true | None => false end.
Definition current_episode (h : DeviceHandle) : Prop :=
  in_episode h = true -> driver_heartbeat_stale_generation h = Some (_episode_generation h).

Definition disciplined (strict : bool) (s : dst) : Prop :=
  exists o, soft_open strict (softs (dlog s)) = Some o /\ (in_episode (dh s) = true -> o = true) /\
    (strict = true -> o = in_episode (dh s) /\
                      (driver_process_state (dh s) = RUNNING -> current_episode (dh s))).

Lemma drop_old_episode_current h :
  current_episode (drop_old_episode h) /\
  (in_episode (drop_old_episode h) = true -> in_episode h = true) /\
  (current_episode h -> drop_old_episode h = h).
Proof.
  unfold current_episode, drop_old_episode, in_episode.
  destruct (driver_heartbeat_stale_since_mono h) eqn:E; [|by rewrite E].
  case_bool_decide as Hg; [rewrite E; tauto|]. split_and!; try done. intros Hc. by destruct Hg; apply Hc.
Qed.

(** One enforcement, seen from the episode it starts with. *)
Lemma enforce_softs m t term x ref :
  driver_process_state (dh x) = RUNNING -> heartbeat_ref (dh x) = Some ref ->
  let h0 := drop_old_episode (dh x) in let x' := enforce m t term x in
  (driver_process_state (dh x') = RUNNING -> current_episode (dh x')) /\
  ((softs (dlog x') = softs (dlog x) /\ in_episode (dh x') = in_episode h0) \/
   (softs (dlog x') = softs (dlog x) ++ ["manager.driver.heartbeat_recovered"] /\
    in_episode h0 = true /\ in_episode (dh x') = false) \/
   (softs (dlog x') = softs (dlog x) ++ ["manager.driver.heartbeat_stale"] /\
    in_episode h0 = false /\ in_episode (dh x') = true)).
Proof.
  intros Hr Href h0 x'. unfold x', enforce_device_driver_heartbeat_timeout.
  rewrite Hr, Href, bool_decide_eq_true_2 by done. cbv beta iota zeta delta [negb].
  set (s0 := dupd drop_old_episode x). assert (dh s0 = h0) as Eh by reflexivity.
  assert (dlog s0 = dlog x) as El by reflexivity.
  assert (current_episode (dh s0)) as Hcur by (rewrite Eh; apply drop_old_episode_current).
  rewrite <- Eh, <- El. clearbody s0. clear x' h0 Eh El Hr Href x.
  generalize (fmax 0 (t - ref)) as age. generalize (hard_timeout_of heartbeat_hard_timeout_s (dh s0)) as hard.
  intros hard age. destruct (Qle_bool age heartbeat_timeout_s).
  - unfold soft_recover, _publish_soft_event, in_episode.
    destruct (driver_heartbeat_stale_since_mono (dh s0)) eqn:Es; [|rewrite Es; tauto].
    autorewrite with evt. split; [done|]. right; left. done.
  - assert (let s1 := soft_stale heartbeat_timeout_s m age hard t s0 in
      (softs (dlog s1) = softs (dlog s0) /\ in_episode (dh s1) = in_episode (dh s0) \/
       softs (dlog s1) = softs (dlog s0) ++ ["manager.driver.heartbeat_stale"] /\
       in_episode (dh s0) = false /\ in_episode (dh s1) = true) /\ current_episode (dh s1)) as H1.
    { unfold soft_stale, _publish_soft_event, in_episode in *. cbv zeta.
      destruct (driver_heartbeat_stale_since_mono (dh s0)) eqn:Es; autorewrite with evt.
      - split; [left; split; [done|by cbn; rewrite Es]|]. intros _. apply Hcur. unfold in_episode. by rewrite Es.
      - split; [right; done|]. intros _. reflexivity. }
    cbv zeta in H1. generalize dependent (soft_stale heartbeat_timeout_s m age hard t s0).
    intros s1 [H1 Hc1]. destruct (Qltb age hard); [tauto|].
    assert (softs (dlog (hard_fail heartbeat_timeout_s age hard t term s1)) = softs (dlog s1) /\
            driver_heartbeat_stale_since_mono (dh (hard_fail heartbeat_timeout_s age hard t term s1))
              = driver_heartbeat_stale_since_mono (dh s1)) as [E1 E2].
    { unfold hard_fail, terminate_quietly. cbv zeta. autorewrite with evt.
      destruct (d_process _) as [[p [rc|]]|], term; autorewrite with evt;
        match goal with |- context [if ?b then _ else _] => destruct b end; autorewrite with evt;
        cbn [softs omap list_omap]; rewrite !app_nil_r; split; reflexivity. }
    destruct (hard_fail_spec heartbeat_timeout_s age hard t term s1) as (E3 & _).
    unfold in_episode in *. rewrite E1, E2, E3. split; [discriminate|tauto].
Qed.

Lemma disciplined_calm strict s s' :
  dcalm s s' ->
  (driver_process_state (dh s') = RUNNING ->
     driver_process_state (dh s) = RUNNING /\ _episode_generation (dh s') = _episode_generation (dh s)) \/
    strict = false ->
  disciplined strict s -> disciplined strict s'.
Proof.
  intros [] Hst (o & H1 & H2 & H3). exists o. unfold current_episode, in_episode in *.
  rewrite dc_softs0, dc_since0, dc_gen0. split_and!; [done..|]. intros Hs. destruct (H3 Hs) as [H4 H5].
  split; [done|]. intros Hr. destruct Hst as [Hst|]; [|congruence].
  destruct (Hst Hr) as [Hr' ->]. auto.
Qed.

Lemma disciplined_enforce strict m t term x :
  disciplined strict x -> disciplined strict (enforce m t term x).
Proof.
  intros Hd. destruct (decide (driver_process_state (dh x) = RUNNING)) as [Hr|Hr];
    [destruct (heartbeat_ref (dh x)) as [ref|] eqn:Href|]; try (rewrite enforce_idle by auto; exact Hd).
  destruct (enforce_softs m t term x ref Hr Href) as [Hcur Hcase]. cbv zeta in Hcase.
  destruct (drop_old_episode_current (dh x)) as (_ & Hdrop & Hid).
  destruct Hd as (o & H1 & H2 & H3).
  assert (strict = true -> o = in_episode (drop_old_episode (dh x))) as Hstr.
  { intros Hs. destruct (H3 Hs) as [-> Hc]. by rewrite Hid by auto. }
  unfold disciplined. destruct Hcase as [[-> E]|[(-> & E & E')|(-> & E & E')]].
  - exists o. rewrite E. split_and!; auto.
  - exists false. unfold soft_open in *. rewrite foldl_snoc, H1. cbn. rewrite (H2 (Hdrop E)), E'.
    split_and!; auto.
  - exists true. unfold soft_open in *. rewrite foldl_snoc, H1. cbn. rewrite E'.
    split_and!; auto. destruct strict; [|done]. by rewrite Hstr, E.
Qed.

Lemma disciplined_start strict spawn early late s :
  negb (existsb is_registration (early ++ late)) = true \/ strict = false ->
  disciplined strict s ->
  disciplined strict (snd (start_driver heartbeat_timeout_s spawn early late s)).
Proof.
  intros Hq Hd. destruct (start_driver_cases heartbeat_timeout_s spawn early late s) as [E|[]];
    [rewrite E; exact Hd|].
  destruct Hd as (o & H1 & H2 & H3). exists o. unfold in_episode in *.
  rewrite la_softs0, la_since0. split_and!; [done..|]. intros Hs. split; [by apply H3|].
  intros Hr. destruct Hq as [Hq%negb_true_iff|]; [|congruence]. by destruct (la_state0 Hq).
Qed.

Lemma disciplined_restart strict t spawn early late x :
  negb (existsb is_registration (early ++ late)) = true \/ strict = false ->
  disciplined strict x ->
  disciplined strict (snd (maybe_restart_device_driver heartbeat_timeout_s t spawn early late x)).
Proof.
  intros Hq Hd. cbv beta delta [maybe_restart_device_driver]. cbv zeta.
  destruct (driver_next_restart_t_mono (dh x)) as [due|]; [|done].
  destruct (Qltb t due); [done|]. destruct (d_alive (dh x)); [done|].
  match goal with |- context [if ?b then _ else start_driver _ _ _ _ _] => destruct b end; cbn [snd].
  - destruct Hd as (o & H1 & H2 & H3). exists o. unfold publish_driver_event. autorewrite with evt.
    cbn [softs omap list_omap]. rewrite app_nil_r. split_and!; [exact H1|exact H2|].
    intros Hs. split; [apply (H3 Hs)|discriminate].
  - apply disciplined_start; [done|].
    destruct Hd as (o & H1 & H2 & H3). exists o. unfold publish_driver_event. autorewrite with evt.
    cbn [softs omap list_omap]. rewrite app_nil_r.
    destruct (driver_restart_is_automatic (dh x)); (split_and!; [exact H1|exact H2|exact H3]).
Qed.

Lemma disciplined_reset strict t x :
  disciplined strict x ->
  disciplined strict (reset_driver_restart_budget_if_healthy heartbeat_timeout_s t x).
Proof.
  intros (o & H1 & H2 & H3). exists o. unfold reset_driver_restart_budget_if_healthy. cbv zeta.
  repeat match goal with
         | |- context [if ?b then _ else _] => destruct b
         | |- context [match ?y with Some _ => _ | None => _ end] => destruct y
         end; unfold publish_driver_event; autorewrite with evt; cbn [softs omap list_omap];
    rewrite ?app_nil_r; (split_and!; [exact H1|exact H2|exact H3]).
Qed.

Lemma disciplined_stop strict t force term kill s :
  disciplined strict s -> disciplined strict (stop_driver heartbeat_timeout_s t force term kill s).
Proof.
  intros (o & H1 & H2 & H3). exists o.
  destruct (stop_driver_effect t force term kill s) as (_ & Hr & _ & E1 & E2).
  unfold in_episode in *. rewrite E1, E2. split_and!; [done..|]. intros Hs. split; [by apply H3|]. done.
Qed.

Lemma disciplined_restart_driver strict t force term kill sp s :
  disciplined strict s -> disciplined strict (restart_driver heartbeat_timeout_s t force term kill sp s).
Proof.
  intros Hd. unfold restart_driver. cbv zeta.
  assert (disciplined strict (publish_driver_event "manager.driver.restart_requested" s)) as Hd0.
  { eapply disciplined_calm; [by apply dcalm_publish|left; intros Hr; exact (conj Hr eq_refl)|done]. }
  pose proof (disciplined_stop strict t force term kill _ Hd0) as Hd1.
  generalize dependent (stop_driver heartbeat_timeout_s t force term kill
                          (publish_driver_event "manager.driver.restart_requested" s)).
  intros s1 (o & H1 & H2 & H3). exists o. unfold publish_driver_event. autorewrite with evt.
  cbn [softs omap list_omap]. rewrite app_nil_r.
  destruct sp; autorewrite with evt; (split_and!; [exact H1|exact H2|exact H3]).
Qed.

Lemma disciplined_event strict ev s :
  no_registration ev = true \/ strict = false -> disciplined strict s -> disciplined strict (dapply s ev).
Proof.
  intros Hq Hd. destruct ev as [m e|[t reg|t hb]|rc|spawn early late| |]; cbn [DriverSupervision.dapply].
  - apply tick_preserves; [..|exact Hd]; intros.
    + eapply disciplined_calm; [apply dcalm_exit_state| |done]. left. intros Hr.
      pose proof (exit_state_stopped plat signals rc x) as Hin. rewrite Hr in Hin.
      by apply list_elem_of_In in Hin as [|[|[]]].
    + by apply disciplined_enforce.
    + eapply disciplined_calm; [apply dcalm_stop_timeout| |done]. left. intros Hr.
      destruct (stop_timeout_state (dte_now e) (dte_kill e) (dte_reaped e) x) as [[E|E] E'].
      * by rewrite <- E.
      * by rewrite E in Hr.
    + by apply disciplined_restart.
    + by apply disciplined_reset.
  - eapply disciplined_calm; [apply dcalm_msg| |done]. right. by destruct Hq.
  - eapply disciplined_calm; [apply dcalm_msg| |done]. left. intros Hr. exact (conj Hr eq_refl).
  - eapply disciplined_calm; [apply dcalm_child_exit| |done]. left. rewrite dh_dupd.
    destruct (child_exit_state rc (dh s)) as [-> ->]. done.
  - by apply disciplined_start.
  - by apply disciplined_stop.
  - by apply disciplined_restart_driver.
Qed.

(** Soft heartbeat events.  Over any history of a device that starts
    without a stale episode, a "heartbeat_recovered" event always closes the
    "heartbeat_stale" event before it (never two recoveries in a row, never
    one first); and while no registration starts a new generation, "stale"
    and "recovered" strictly alternate, so an episode is reported once. *)
Theorem soft_events_disciplined s evs :
  softs (dlog s) = [] -> driver_heartbeat_stale_since_mono (dh s) = None ->
  is_Some (soft_open false (softs (dlog (drun evs s)))) /\
  (forallb no_registration evs = true -> is_Some (soft_open true (softs (dlog (drun evs s))))).
Proof.
  intros Hl Hs.
  assert (forall strict, disciplined strict s) as Hd.
  { intros strict. exists false. unfold current_episode, in_episode. rewrite Hl, Hs. done. }
  enough (forall strict, (forall ev, ev ∈ evs -> no_registration ev = true \/ strict = false) ->
            disciplined strict (drun evs s)) as H.
  { split; [destruct (H false) as (o & -> & _); eauto|]. intros Hq. rewrite forallb_forall in Hq.
    destruct (H true) as (o & -> & _); [|eauto]. intros ev Hin%list_elem_of_In. auto. }
  intros strict Hq. apply (drun_preserves _ (fun ev => no_registration ev = true \/ strict = false)).
  - intros ev x. apply disciplined_event.
  - by apply Forall_forall.
  - apply Hd.
Qed.
End histories.

(** ** Launches that race with the child's first messages *)
Definition registers (g : Z) (msg : dmsg) : bool :=
  match msg with MRegister _ reg => bool_decide (reg_generation reg = Some g) | _ => false end.

(** The heartbeat fields after [msgs], from the fields before. *)
Definition heartbeat_fields (h : DeviceHandle) : option Heartbeat * option Q * option Z :=
  (d_last_hb h, d_last_hb_recv_mono h, driver_heartbeat_pid h).
Definition after_heartbeats (msgs : list dmsg) (start : option Heartbeat * option Q * option Z)
    : option Heartbeat * option Q * option Z :=
  foldl (fun acc msg => match msg with
                        | MHeartbeat t hb => (Some hb, Some t, Some (h_pid hb))
                        | MRegister _ _ => acc
                        end) start msgs.

Section launch.
Context (heartbeat_timeout_s : Q).
Notation handle_msgs := (handle_msgs heartbeat_timeout_s).
Notation handle_msg := (handle_msg heartbeat_timeout_s).

Definition launching (g : Z) (h : DeviceHandle) : Prop :=
  driver_generation h = g /\ driver_process_state h ∈ [STARTING; RUNNING].

Lemma registry_launching g t reg s :
  0 < g -> launching g (dh s) ->
  let h' := dh (_handle_registry heartbeat_timeout_s t reg s) in
  driver_generation h' = g /\ d_process h' = d_process (dh s) /\
  heartbeat_fields h' = heartbeat_fields (dh s) /\
  driver_process_state h' =
    (if bool_decide (reg_generation reg = Some g) then RUNNING else driver_process_state (dh s)).
Proof.
  intros Hg [Hgen Hst]. cbv beta delta [_handle_registry] zeta.
  rewrite Hgen. destruct (Z.ltb_spec 0 g); [|lia]. cbn [andb].
  case_bool_decide as Er; cbn [negb]; [|by split_and!].
  unfold publish_driver_event. autorewrite with evt. cbv beta.
  destruct (d_alive (dh s) || bool_decide (driver_process_state (dh s) = STARTING)) eqn:Ea;
    autorewrite with evt; cbv beta.
  - match goal with |- context [if d_alive ?x then _ else _] => destruct (d_alive x) end; by split_and!.
  - apply orb_false_iff in Ea as [_ Hns%bool_decide_eq_false].
    assert (driver_process_state (dh s) = RUNNING) as Hr
      by (apply list_elem_of_In in Hst as [|[|[]]]; congruence).
    destruct (d_last_hb_recv_mono (dh s)) as [hb|] eqn:Eh; [destruct (Qle_bool _ _)|];
      autorewrite with evt; by split_and!.
Qed.

Lemma msgs_launching g msgs s :
  0 < g -> launching g (dh s) ->
  let h' := dh (handle_msgs msgs s) in
  driver_generation h' = g /\ d_process h' = d_process (dh s) /\
  heartbeat_fields h' = after_heartbeats msgs (heartbeat_fields (dh s)) /\
  driver_process_state h' =
    (if existsb (registers g) msgs then RUNNING else driver_process_state (dh s)).
Proof.
  intros Hg. revert s. induction msgs as [|[t reg|t hb] l IH]; intros s Hl; [by destruct Hl|..].
  - destruct (registry_launching g t reg s Hg Hl) as (E1 & E2 & E3 & E4).
    destruct (IH (_handle_registry heartbeat_timeout_s t reg s)) as (F1 & F2 & F3 & F4).
    { split; [done|]. rewrite E4. case_match; [by right; left|apply Hl]. }
    cbn [DriverSupervision.handle_msgs foldl DriverSupervision.handle_msg] in *.
    unfold DriverSupervision.handle_msgs in F1, F2, F3, F4.
    rewrite F1, F2, F3, F4, E2, E3, E4. cbn [existsb registers after_heartbeats foldl].
    split_and!; try done. by case_bool_decide; destruct (existsb _ l).
  - exact (IH (_store_heartbeat_on_handle t hb s) Hl).
Qed.

Lemma finish_launch_fields p h :
  driver_generation (finish_launch p h) = driver_generation h /\ d_process (finish_launch p h) = d_process h /\
  heartbeat_fields (finish_launch p h) = heartbeat_fields h /\ driver_popen_pid (finish_launch p h) = Some p /\
  driver_process_state (finish_launch p h) =
    (if bool_decide (driver_process_state h = RUNNING) then RUNNING else STARTING).
Proof.
  cbv beta delta [finish_launch] zeta.
  match goal with |- context [match ?x with Some _ => _ | None => _ end] => destruct x end;
    case_bool_decide as E; (split_and!; try reflexivity);
    (rewrite bool_decide_eq_true_2 by exact E; exact E) ||
    (rewrite bool_decide_eq_false_2 by exact E; reflexivity).
Qed.

(** A launch and its child's first messages.  Whatever registrations and
    heartbeats the manager thread handles while the child is started and
    adopted, in any order and at any point of the launch: none is lost. The
    driver ends RUNNING exactly when a registration of this generation was
    among them (those of other generations are ignored) and STARTING
    otherwise, the heartbeat fields are those of the last heartbeat, and the
    child is tracked.  A launch that fails raises, leaves no child and keeps
    the heartbeat diagnostics of the previous run. *)
Theorem launch_keeps_messages p msg early late s :
  d_alive (dh s) = false -> driver_process_state (dh s) <> CRASHLOOP -> 0 <= driver_generation (dh s) ->
  let g := driver_generation (dh s) + 1 in
  let h' := dh (snd (start_driver heartbeat_timeout_s (inl p) early late s)) in
  let '(r, sf) := start_driver heartbeat_timeout_s (inr msg) early late s in
  (driver_generation h' = g /\ d_process h' = Some (mkPopen p None) /\ driver_popen_pid h' = Some p /\
   driver_process_state h' = (if existsb (registers g) (early ++ late) then RUNNING else STARTING) /\
   heartbeat_fields h' = after_heartbeats (early ++ late) (None, None, None)) /\
  (r = Err (RuntimeError msg) /\ dspawns (dlog sf) = dspawns (dlog s) /\ d_process (dh sf) = None /\
   driver_process_state (dh sf) = FAILED /\ driver_last_error (dh sf) = Some msg /\
   heartbeat_fields (dh sf) = heartbeat_fields (dh s) /\
   driver_running_since_mono (dh sf) = driver_running_since_mono (dh s)).
Proof.
  intros Ha Hc Hg. cbv beta delta [start_driver]. rewrite Ha, bool_decide_eq_false_2 by done.
  cbv zeta. cbn [snd]. split.
  - set (s0 := demit _ (dupd begin_launch s)).
    assert (launching (driver_generation (dh s) + 1) (dh s0) /\ heartbeat_fields (dh s0) = (None, None, None) /\
            driver_process_state (dh s0) = STARTING) as (Hl & Hf & Hst).
    { unfold launching, s0, begin_launch. autorewrite with evt. cbv zeta.
      match goal with |- context [if ?b then _ else _] => destruct b end; split_and!; try reflexivity; left. }
    clearbody s0. set (g := driver_generation (dh s) + 1) in *.
    destruct (msgs_launching g early s0 ltac:(lia) Hl) as (E1 & _ & E3 & E4).
    generalize dependent (handle_msgs early s0). intros s1 E1 E3 E4.
    set (s2 := dupd _ s1).
    assert (driver_generation (dh s2) = driver_generation (dh s1) /\ d_process (dh s2) = Some (mkPopen p None) /\
            heartbeat_fields (dh s2) = heartbeat_fields (dh s1) /\
            driver_process_state (dh s2) = driver_process_state (dh s1)) as (F1 & F2 & F3 & F4)
      by (split_and!; reflexivity).
    clearbody s2.
    assert (launching g (dh s2)) as Hl2.
    { split; [congruence|]. rewrite F4, E4, Hst. case_match; [right; left|left]. }
    destruct (msgs_launching g late s2 ltac:(lia) Hl2) as (G1 & G2 & G3 & G4).
    generalize dependent (handle_msgs late s2). intros s3 G1 G2 G3 G4.
    destruct (finish_launch_fields p (dh s3)) as (K1 & K2 & K3 & K4 & K5).
    match goal with |- context [if bool_decide ?P then ?a else ?b] =>
      assert (dh (if bool_decide P then a else b) = finish_launch p (dh s3)) as ->
        by (by destruct (bool_decide P)) end.
    rewrite K1, K2, K3, K4, K5, G1, G2, G3, G4, F2, F3, E3, F4, E4, Hf, Hst.
    split_and!; try done.
    + rewrite existsb_app. by destruct (existsb _ early), (existsb _ late).
    + unfold after_heartbeats. by rewrite foldl_app.
  - unfold publish_driver_event. autorewrite with evt. cbn [dspawns omap list_omap]. rewrite app_nil_r.
    split_and!; reflexivity.
Qed.
End launch.

(** ** Concrete histories *)
Module DriverDemo.
Definition dsp : DeviceSpec := mkDevSpec "laser" None true 3 2 (1 # 2) (Some 1) 300.
Definition dblank : DeviceHandle :=
  mkDevice dsp None None None None None STOPPED None None None None 0 None None false 0 None false None
    None None None None None None None None None None false.
Definition d_idle : dst := mkDst dblank [].
Definition mctx : manager_ctx := mkCtx 1 None None None 10 None false None 10 30 3 2 (5 # 4).
Definition hb (t : Q) : dmsg := MHeartbeat t (mkHeartbeat 9 true "OK" None None).
Definition reg (t : Q) (g : Z) : dmsg := MRegister t (mkReg "tcp://a:1" "tcp://a:2" (Some g)).
Definition denv (t : Q) (spawn : spawn_outcome) : dtick_env := mkDTick t false spawn [] [] None None None.
Definition tick (t : Q) : devent := VTick mctx (denv t (inl 8)).
(** The soft and hard timeouts are 2 s and 10 s. *)
Notation run := (drun Posix linux_signals 2 10).

(** Running since time 1, with a heartbeat at time 1. *)
Definition d_running : dst := run [VStart (inl 7) [] [reg 1 1; hb 1]] d_idle.

Lemma staged_heartbeat_policy_witness :
  let s' := enforce_device_driver_heartbeat_timeout 2 10 mctx 20 None d_running in
  hard_failed 20 None d_running s' /\ driver_next_restart_t_mono (dh s') = Some (20 + (1 # 2))%Q.
Proof.
  split; [|by vm_compute].
  apply (staged_heartbeat_policy 2 10 mctx 20 None d_running 1); by vm_compute.
Defined.

Lemma operator_stop_is_final_witness :
  let s0 := stop_driver 2 5 true None None d_running in
  let evs := [hb 5; hb 6] in
  let evs := map VMessage evs ++ [tick 9; VExit 0; tick 20; tick 30] in
  length (dspawns (dlog (run evs s0))) = length (dspawns (dlog d_running)) /\
  driver_process_state (dh (run evs s0)) <> RUNNING.
Proof.
  apply (operator_stop_is_final Posix linux_signals 2 10 5 true None None d_running
           [VMessage (hb 5); VMessage (hb 6); tick 9; VExit 0; tick 20; tick 30]); by vm_compute.
Defined.

(** Stale at 20, restarted once at 22, stale again and then out of budget. *)
Definition crash_evs : list devent :=
  [tick 20; VExit 1; tick 22; VMessage (reg 23 2); tick 40; VExit 1; tick 50; tick 60].

Lemma driver_restart_budget_witness :
  driver_process_state (dh (run crash_evs d_running)) = CRASHLOOP /\
  n_spawns (run crash_evs d_running) - n_spawns d_running
    <= (1 - 0) + 1 * (n_resets (run crash_evs d_running) - n_resets d_running) /\
  0 <= driver_restart_count (dh (run crash_evs d_running)) <= 1.
Proof.
  split; [by vm_compute|].
  apply (driver_restart_budget Posix linux_signals 2 10 1 d_running crash_evs); by vm_compute.
Defined.

Definition soft_evs : list devent :=
  [tick 5; tick 6; VMessage (hb 7); tick 8; tick 12; VMessage (hb 13); tick 14].

Lemma soft_events_disciplined_witness :
  softs (dlog (run soft_evs d_running)) =
    ["manager.driver.heartbeat_stale"; "manager.driver.heartbeat_recovered";
     "manager.driver.heartbeat_stale"; "manager.driver.heartbeat_recovered"] /\
  is_Some (soft_open false (softs (dlog (run soft_evs d_running)))) /\
  (forallb no_registration soft_evs = true ->
   is_Some (soft_open true (softs (dlog (run soft_evs d_running))))).
Proof.
  split; [by vm_compute|].
  apply (soft_events_disciplined Posix linux_signals 2 10 d_running soft_evs); by vm_compute.
Defined.

Lemma launch_keeps_messages_witness :
  let h' := dh (snd (start_driver 2 (inl 7) [hb 1; reg 1 1] [hb 2] d_idle)) in
  driver_process_state h' = RUNNING /\
  heartbeat_fields h' = after_heartbeats [hb 1; reg 1 1; hb 2] (None, None, None).
Proof.
  pose proof (launch_keeps_messages 2 7 "boom" [hb 1; reg 1 1] [hb 2] d_idle) as H.
  cbv zeta in H. destruct (start_driver 2 (inr "boom") _ _ _) as [r sf].
  destruct H as [(_ & _ & _ & H4 & H5) _]; [by vm_compute..|]. split; [exact H4|exact H5].
Defined.

(** A registration that is handled while the operator's stop is pending
    makes the driver RUNNING again: the stop timeout no longer applies, and
    the child that ignores the stop is never killed. *)
Example registration_cancels_stop :
  let stopped := run [VStart (inl 7) [] []; VStop 1 false None None] d_idle in
  let evs := [tick 20; tick 30; tick 40] in
  existsb (fun e => match e with DKill _ => true | _ => false end) (dlog (run evs stopped)) = true /\
  let late := [VMessage (reg 2 1); VMessage (hb 19); tick 20; VMessage (hb 29); tick 30;
               VMessage (hb 39); tick 40] in
  existsb (fun e => match e with DKill _ => true | _ => false end) (dlog (run late stopped)) = false /\
  driver_process_state (dh (run late stopped)) = RUNNING /\ d_alive (dh (run late stopped)) = true.
Proof. by vm_compute. Qed.
End DriverDemo.
