(* ===== verification/AutoReconnect.v ===== *)
(** * Automatic reconnection of devices

    The auto-reconnect half of the driver supervision in
    [_manager/process_supervision.py]: when a device is degraded or its
    telemetry is stale, reconnect attempts are dispatched to the lifecycle
    executor, with a cooldown, a budget, and an escalation to a driver
    restart.  The executor's queue is part of the state; a queued job runs as
    one step, in which the manager thread may handle messages between the
    job's own actions. *)
From Stdlib Require Import Qround.
From S2P Require Import Prelude PyVal PyNum ExitCodes ManagedProcess DriverSupervision.
#[local] Open Scope Z_scope.

Record AutoReconnectSpec := mkARSpec {
  ar_enabled : bool;
  ar_on_telemetry_stale_s : option Q;
  ar_on_degraded_s : option Q;
  ar_restart_driver_after_max_attempts : bool;
  ar_cooldown_s : Q;
  ar_max_attempts : option Z;
  ar_reset_attempts_after_ok_s : Q;
  ar_disconnect_timeout_ms : Z;
  ar_connect_timeout_ms : option Z
}.

(** The [auto_reconnect_*] fields of the handle. *)
Record ar_fields := mkAR {
  ar_attempts : Z;
  ar_last_attempt_mono : option Q;
  ar_last_attempt_wall : option Q;
  ar_healthy_since_mono : option Q;
  ar_last_success_mono : option Q;
  ar_last_error : option string;
  ar_suppressed : bool;
  ar_degraded_since_mono : option Q;
  ar_waiting_for_health : bool;
  ar_last_trigger : option string;
  ar_pending : bool
}.

#[export] Instance ar_eta : Eta ar_fields := fun f =>
  mkAR (ar_attempts f) (ar_last_attempt_mono f) (ar_last_attempt_wall f) (ar_healthy_since_mono f)
    (ar_last_success_mono f) (ar_last_error f) (ar_suppressed f) (ar_degraded_since_mono f)
    (ar_waiting_for_health f) (ar_last_trigger f) (ar_pending f).

(** Work queued on the lifecycle executor for the device. *)
Inductive job :=
| JReconnect (attempt : Z) (age_s : Q) (trigger : string) (generation : Z)
| JRestart (age_s : Q) (trigger : string) (generation : Z).

Definition job_trigger (j : job) : string :=
  match j with JReconnect _ _ tr _ | JRestart _ tr _ => tr end.
Definition job_generation (j : job) : Z :=
  match j with JReconnect _ _ _ g | JRestart _ _ g => g end.

Inductive aevent :=
| AEvent (topic : string) (status : ar_fields)
| ARpc (action : string) (timeout_ms : Z).

Record ast := mkAst {
  a_dev : dst;
  a_f : ar_fields;
  a_spec : AutoReconnectSpec;
  a_jobs : list job;
  a_log : list aevent
}.

#[export] Instance ast_eta : Eta ast := fun s => mkAst (a_dev s) (a_f s) (a_spec s) (a_jobs s) (a_log s).

Definition aset (f : ar_fields -> ar_fields) (s : ast) : ast := s <| a_f := f (a_f s) |>.
Definition _auto_reconnect_publish (topic : string) (s : ast) : ast :=
  s <| a_log := a_log s ++ [AEvent topic (a_f s)] |>.

Definition a_h (s : ast) : DeviceHandle := dh (a_dev s).

(** [_auto_reconnect_status] *)
Definition pnum (o : option Q) : pyval := from_option (fun q => PFloat (FFin q)) PNone o.
Definition _auto_reconnect_status (sp : AutoReconnectSpec) (f : ar_fields) : list (string * pyval) :=
  [("enabled", PBool (ar_enabled sp)); ("attempts", PInt (ar_attempts f));
   ("last_attempt_mono", pnum (ar_last_attempt_mono f)); ("last_attempt_wall", pnum (ar_last_attempt_wall f));
   ("last_success_mono", pnum (ar_last_success_mono f)); ("healthy_since_mono", pnum (ar_healthy_since_mono f));
   ("last_error", opt_str (ar_last_error f)); ("suppressed", PBool (ar_suppressed f));
   ("pending", PBool (ar_pending f)); ("cooldown_s", PFloat (FFin (ar_cooldown_s sp)));
   ("max_attempts", from_option PInt PNone (ar_max_attempts sp));
   ("on_telemetry_stale_s", pnum (ar_on_telemetry_stale_s sp)); ("on_degraded_s", pnum (ar_on_degraded_s sp));
   ("restart_driver_after_max_attempts", PBool (ar_restart_driver_after_max_attempts sp));
   ("degraded_since_mono", pnum (ar_degraded_since_mono f));
   ("waiting_for_health", PBool (ar_waiting_for_health f)); ("last_trigger", opt_str (ar_last_trigger f));
   ("reset_attempts_after_ok_s", PFloat (FFin (ar_reset_attempts_after_ok_s sp)))].

(** What the manager knows of the device's telemetry: the receive time of the
    newest bundle, the bundle's own time (the fallback) and, per signal, its
    receive time and quality. *)
Record telemetry := mkTelemetry {
  tm_last_recv_mono : option Q;
  tm_last_bundle_mono : option Q;
  tm_latest : list (Q * string)
}.

Definition _latest_telemetry_receive_mono (tm : telemetry) : option Q :=
  match tm_last_recv_mono tm with Some r => Some r | None => tm_last_bundle_mono tm end.

Definition _latest_telemetry_bundle_is_all_ok (tm : telemetry) (latest : Q) : bool :=
  let current := List.filter (fun '(r, _) => Qeq_bool r latest) (tm_latest tm) in
  match current with
  | [] => false
  | _ => forallb (fun '(_, quality) => String.eqb quality "OK") current
  end.

Definition hb_degraded (h : DeviceHandle) : bool :=
  match d_last_hb h with
  | None => false
  | Some hb => negb (h_device_reachable hb) || String.eqb (h_device_state hb) "DEGRADED"
  end.

Definition hb_ok (h : DeviceHandle) : bool :=
  match d_last_hb h with
  | None => false
  | Some hb => h_device_reachable hb && String.eqb (h_device_state hb) "OK"
  end.

Section auto_reconnect.
Context (heartbeat_timeout_s : Q) (device_rpc_timeout_ms : Z).

(** ** The budget is given back to a healthy device *)
Definition _auto_reconnect_reset_if_healthy (tm : telemetry) (t : Q) (s : ast) : ast :=
  let sp := a_spec s in
  let f := a_f s in
  let unhealthy := aset (fun f => f <| ar_healthy_since_mono := None |>) s in
  if negb (ar_enabled sp) || (ar_attempts f <=? 0) then s
  else
    match _latest_telemetry_receive_mono tm with
    | None => unhealthy
    | Some latest =>
        let threshold := match ar_on_telemetry_stale_s sp with Some x => Some x | None => ar_on_degraded_s sp end in
        let stale := match threshold with None => true | Some x => Qltb x (t - latest) end in
        if stale then unhealthy
        else
          let degraded_rule := match ar_on_degraded_s sp with Some _ => true | None => false end in
          if degraded_rule && negb (hb_ok (a_h s)) then unhealthy
          else
            let s := if degraded_rule then aset (fun f => f <| ar_degraded_since_mono := None |>) s else s in
            let unhealthy := aset (fun f => f <| ar_healthy_since_mono := None |>) s in
            let f := a_f s in
            let unproven :=
              match ar_last_success_mono f with
              | None => true
              | Some ok => Qle_bool latest ok || negb (_latest_telemetry_bundle_is_all_ok tm latest)
              end in
            if ar_waiting_for_health f && unproven then unhealthy
            else
              match ar_healthy_since_mono f with
              | None =>
                  let s' := aset (fun f => f <| ar_healthy_since_mono := Some t |>
                                             <| ar_waiting_for_health := false |>) s in
                  if ar_waiting_for_health f
                  then _auto_reconnect_publish "manager.device.auto_reconnect.recovered" s' else s'
              | Some since =>
                  if Qle_bool (ar_reset_attempts_after_ok_s sp) (t - since) then
                    _auto_reconnect_publish "manager.device.auto_reconnect.reset"
                      (aset (fun f => f <| ar_attempts := 0 |> <| ar_suppressed := false |>
                                        <| ar_last_error := None |>) s)
                  else s
              end
    end.

(** ** Deciding on an attempt *)

(** The first lock section: the degraded timer.  The trigger, its age and
    the state. *)
Definition degraded_timer (t : Q) (s : ast) : option string * option Q * ast :=
  match hb_degraded (a_h s), ar_on_degraded_s (a_spec s) with
  | true, Some threshold =>
      let newly := match ar_degraded_since_mono (a_f s) with None => true | Some _ => false end in
      let since := default t (ar_degraded_since_mono (a_f s)) in
      let s := aset (fun f => f <| ar_degraded_since_mono := Some since |>) s in
      let age := (t - since)%Q in
      let trigger := if Qle_bool threshold age then Some "degraded" else None in
      (trigger, Some age,
       if newly then _auto_reconnect_publish "manager.device.auto_reconnect.degraded" s else s)
  | _, _ => (None, None, aset (fun f => f <| ar_degraded_since_mono := None |>) s)
  end.

(** The telemetry trigger, when the first one did not fire. *)
Definition telemetry_trigger (tm : telemetry) (t : Q) (sp : AutoReconnectSpec)
    (trigger : option string) (age : option Q) : option string * option Q :=
  match trigger, ar_on_telemetry_stale_s sp, _latest_telemetry_receive_mono tm with
  | None, Some threshold, Some latest =>
      let telemetry_age := (t - latest)%Q in
      if Qltb threshold telemetry_age then (Some "telemetry_stale", Some telemetry_age) else (None, age)
  | _, _, _ => (trigger, age)
  end.

Definition over_max_attempts (sp : AutoReconnectSpec) (f : ar_fields) : bool :=
  match ar_max_attempts sp with Some m => m <=? ar_attempts f | None => false end.

(** The second lock section, for an active trigger. *)
Definition gate_attempt (t : Q) (trigger : string) (age : option Q) (s : ast)
    : bool * option Q * option string * ast :=
  let sp := a_spec s in
  let f := a_f s in
  if ar_pending f then (false, age, Some "pending", s)
  else if match ar_last_attempt_mono f with Some l => Qltb (t - l) (ar_cooldown_s sp) | None => false end then
    (false, age, Some "cooldown", s)
  else if over_max_attempts sp f then
    let will_restart := ar_restart_driver_after_max_attempts sp in
    let s := if negb will_restart && negb (ar_suppressed f) then
               _auto_reconnect_publish "manager.device.auto_reconnect.suppressed"
                 (aset (fun f => f <| ar_suppressed := true |>) s)
             else s in
    (false, age, Some (if will_restart then "restart_driver" else "max_attempts"), s)
  else (true, age, Some trigger, aset (fun f => f <| ar_last_trigger := Some trigger |>) s).

Definition _auto_reconnect_should_attempt (tm : telemetry) (t : Q) (s : ast)
    : bool * option Q * option string * ast :=
  let sp := a_spec s in
  if negb (ar_enabled sp) then (false, None, None, s)
  else if negb (bool_decide (driver_process_state (a_h s) = RUNNING)) then (false, None, None, s)
  else if match heartbeat_ref (a_h s) with Some ref => Qltb heartbeat_timeout_s (t - ref) | None => false end then
    (false, None, Some "heartbeat_stale", s)
  else
    match d_rpc_endpoint (a_h s) with
    | None => (false, None, None, s)
    | Some _ =>
        let '(trigger, age, s) := degraded_timer t s in
        let '(trigger, age) := telemetry_trigger tm t sp trigger age in
        match trigger with
        | None => (false, age, None, s)
        | Some trigger => gate_attempt t trigger age s
        end
    end.

(** ** Dispatching: [accepts] is whether the executor takes the job *)
Definition dispatch (accepts : bool) (j : job) (s : ast) : ast :=
  if accepts then s <| a_jobs := a_jobs s ++ [j] |>
  else aset (fun f => f <| ar_pending := false |>) s.

Definition _auto_reconnect_attempt (t wall : Q) (accepts : bool) (age : Q) (trigger : string) (s : ast) : ast :=
  let s := aset (fun f => f <| ar_attempts := ar_attempts f + 1 |> <| ar_last_attempt_mono := Some t |>
                            <| ar_last_attempt_wall := Some wall |> <| ar_last_error := None |>
                            <| ar_suppressed := false |> <| ar_pending := true |>) s in
  let j := JReconnect (ar_attempts (a_f s)) age trigger (driver_generation (a_h s)) in
  dispatch accepts j (_auto_reconnect_publish "manager.device.auto_reconnect.attempt" s).

Definition _schedule_auto_reconnect_driver_restart (accepts : bool) (age : Q) (trigger : string) (s : ast)
    : ast :=
  if ar_pending (a_f s) then s
  else
    let s := aset (fun f => f <| ar_pending := true |>) s in
    dispatch accepts (JRestart age trigger (driver_generation (a_h s))) s.

Definition _maybe_auto_reconnect_device (tm : telemetry) (t wall : Q) (accepts : bool) (s : ast) : ast :=
  let s := _auto_reconnect_reset_if_healthy tm t s in
  match _auto_reconnect_should_attempt tm t s with
  | (true, Some age, Some reason, s) => _auto_reconnect_attempt t wall accepts age reason s
  | (false, Some age, Some reason, s) =>
      if String.eqb reason "restart_driver" then
        _schedule_auto_reconnect_driver_restart accepts age
          (default "None" (ar_last_trigger (a_f s))) s
      else s
  | (_, _, _, s) => s
  end.

(** ** The queued jobs *)

(** Work queued for one generation of the driver is revalidated before it
    acts; [same_handle] is whether the device still has this handle. *)
Definition _auto_reconnect_trigger_is_active (same_handle : bool) (tm : telemetry) (t : Q)
    (generation : Z) (trigger : string) (s : ast) : bool :=
  let h := a_h s in
  if negb same_handle then false
  else if negb (driver_generation h =? generation) then false
  else if negb (bool_decide (driver_process_state h = RUNNING)) then false
  else if match heartbeat_ref h with Some ref => Qltb heartbeat_timeout_s (t - ref) | None => false end then false
  else if String.eqb trigger "degraded" then
    hb_degraded h &&
    match ar_degraded_since_mono (a_f s), ar_on_degraded_s (a_spec s) with
    | Some since, Some threshold => Qle_bool threshold (t - since)
    | _, _ => false
    end
  else if String.eqb trigger "telemetry_stale" then
    match ar_on_telemetry_stale_s (a_spec s), _latest_telemetry_receive_mono tm with
    | Some threshold, Some latest => Qltb threshold (t - latest)
    | _, _ => false
    end
  else false.

(** [Manager._device_heartbeat_age_s] *)
Definition _device_heartbeat_age_s (h : DeviceHandle) (t : Q) : option Q :=
  (fun ref => fmax 0 (t - ref)) <$> heartbeat_ref h.

Definition _auto_reconnect_rpc_timeout_ms (h : DeviceHandle) (t : Q) (configured_timeout_ms : Z) : result Z :=
  match _device_heartbeat_age_s h t with
  | None => Ok (Z.max 1 configured_timeout_ms)
  | Some age =>
      let remaining := (heartbeat_timeout_s - age)%Q in
      if Qle_bool remaining 0 then
        Err (TimeoutError "driver heartbeat became stale during auto-reconnect")
      else
        let remaining_ms := Z.max 1 (Qfloor (remaining * 1000)) in
        Ok (Z.max 1 (Z.min configured_timeout_ms remaining_ms))
  end.

Definition _device_rpc_status_ok (resp : pyval) : bool :=
  match resp with
  | PDict d =>
      let by_ok := match dget d "ok" with PBool b => b | _ => false end in
      match dget d "status" with
      | PStr st =>
          let norm := upper (strip st) in
          if String.eqb norm "OK" then true else if String.eqb norm "ERROR" then false else by_ok
      | _ => by_ok
      end
  | _ => false
  end.

Context `{!PyRepr}.

Definition _device_rpc_error_text (resp : pyval) : string :=
  match resp with
  | PDict d =>
      let text (v : pyval) := match v with PStr x => or_none (strip x) | _ => None end in
      let from_dict (v : pyval) :=
        match v with
        | PDict e => match text (dget e "message") with Some x => Some x | None => text (dget e "code") end
        | _ => None
        end in
      match text (dget d "error") with
      | Some x => x
      | None => default "device rpc error" (from_dict (dget d "error"))
      end
  | _ => py_str resp
  end.

(** What the worker thread meets: its clock readings, the messages the
    manager handles during its two RPCs, and the answer to the connect. *)
Record worker_env := mkWorker {
  w_same_handle : bool;
  w_telemetry : telemetry;
  w_check : Q;
  w_disconnect_t : Q;
  w_disconnect_msgs : list dmsg;
  w_connect_t : Q;
  w_connect_msgs : list dmsg;
  w_reply : result pyval;
  w_done : Q;
  w_term : option string
}.

Definition log_rpc (action : string) (timeout_ms : Z) (s : ast) : ast :=
  s <| a_log := a_log s ++ [ARpc action timeout_ms] |>.
Definition meanwhile (msgs : list dmsg) (s : ast) : ast :=
  s <| a_dev := handle_msgs heartbeat_timeout_s msgs (a_dev s) |>.

(** The disconnect, whose failures are swallowed. *)
Definition worker_disconnect (w : worker_env) (s : ast) : ast :=
  match _auto_reconnect_rpc_timeout_ms (a_h s) (w_disconnect_t w) (ar_disconnect_timeout_ms (a_spec s)) with
  | Ok ms => meanwhile (w_disconnect_msgs w) (log_rpc "disconnect_device" ms s)
  | Err _ => s
  end.

(** The connect: its response or the text of what went wrong. *)
Definition worker_connect (w : worker_env) (s : ast) : (pyval + string) * ast :=
  let configured := default device_rpc_timeout_ms (or_int (ar_connect_timeout_ms (a_spec s)) None) in
  match _auto_reconnect_rpc_timeout_ms (a_h s) (w_connect_t w) configured with
  | Err e => (inr (exc_str e), s)
  | Ok ms =>
      let s := meanwhile (w_connect_msgs w) (log_rpc "connect_device" ms s) in
      (match w_reply w with
       | Err e => inr (exc_str e)
       | Ok resp => if _device_rpc_status_ok resp then inl resp else inr (_device_rpc_error_text resp)
       end, s)
  end.

Definition job_done (s : ast) : ast := aset (fun f => f <| ar_pending := false |>) s.
Definition job_cancelled (s : ast) : ast :=
  job_done (_auto_reconnect_publish "manager.device.auto_reconnect.cancelled" s).

Definition _run_auto_reconnect (w : worker_env) (generation : Z) (trigger : string) (s : ast) : ast :=
  if negb (_auto_reconnect_trigger_is_active (w_same_handle w) (w_telemetry w) (w_check w) generation trigger s)
  then job_cancelled s
  else
    let s := worker_disconnect w s in
    match worker_connect w s with
    | (inl _, s) =>
        let s := aset (fun f => f <| ar_last_success_mono := Some (w_done w) |>
                                  <| ar_last_attempt_mono := Some (w_done w) |>
                                  <| ar_last_error := None |> <| ar_waiting_for_health := true |>) s in
        job_done (_auto_reconnect_publish "manager.device.auto_reconnect.success" s)
    | (inr exc, s) =>
        let s := aset (fun f => f <| ar_last_error := Some exc |>
                                  <| ar_last_attempt_mono := Some (w_done w) |>) s in
        job_done (_auto_reconnect_publish "manager.device.auto_reconnect.failed" s)
    end.

(** The escalation, on the handle. *)
Definition escalate (t : Q) (trigger : string) (age : Q) (attempts : Z) (h : DeviceHandle) : DeviceHandle :=
  h <| driver_process_state := FAILED |> <| driver_running_since_mono := None |>
    <| driver_stop_requested_t_mono := Some t |>
    <| driver_last_error_kind := Some "auto_reconnect_exhausted" |>
    <| driver_last_error := Some ("auto-reconnect trigger " +:+ repr_str trigger +:+ " remained active for "
         +:+ fixed 1 age +:+ "s after " +:+ str_Z attempts +:+ " reconnect attempts") |>
    <| driver_reconnect_after_restart := true |> <| driver_reconnect_generation := None |>
    <| driver_restart_is_automatic := true |>
    <| driver_next_restart_t_mono := Some (t + ds_restart_backoff_s (d_spec h))%Q |>.

Definition _run_auto_reconnect_driver_restart (w : worker_env) (age : Q) (trigger : string)
    (generation : Z) (s : ast) : ast :=
  let t := w_check w in
  if negb (_auto_reconnect_trigger_is_active (w_same_handle w) (w_telemetry w) t generation trigger s)
  then job_cancelled s
  else if negb (over_max_attempts (a_spec s) (a_f s)) then job_done s
  else
    let d := dupd (escalate t trigger age (ar_attempts (a_f s))) (a_dev s) in
    let s := aset (fun f => f <| ar_degraded_since_mono := None |>) s in
    let d := publish_driver_event "manager.driver.failed" (terminate_quietly (w_term w) d) in
    let d := publish_driver_event "manager.driver.restart_scheduled" d in
    job_done (_auto_reconnect_publish "manager.device.auto_reconnect.escalated" (s <| a_dev := d |>)).

(** ** Histories *)
Context (plat : platform) (signals : list (Z * string)) (heartbeat_hard_timeout_s : Q).

Inductive aop :=
| ATick (tm : telemetry) (t wall : Q) (accepts : bool)
| ADriver (ev : devent)
| AJob (w : worker_env).

Definition aapply (s : ast) (op : aop) : ast :=
  match op with
  | ATick tm t wall accepts => _maybe_auto_reconnect_device tm t wall accepts s
  | ADriver ev => s <| a_dev := dapply plat signals heartbeat_timeout_s heartbeat_hard_timeout_s (a_dev s) ev |>
  | AJob w =>
      match a_jobs s with
      | [] => s
      | j :: rest =>
          let s := s <| a_jobs := rest |> in
          match j with
          | JReconnect _ _ trigger generation => _run_auto_reconnect w generation trigger s
          | JRestart age trigger generation => _run_auto_reconnect_driver_restart w age trigger generation s
          end
      end
  end.

Definition arun (ops : list aop) (s : ast) : ast := foldl aapply s ops.
End auto_reconnect.
