(* ===== verification/AutoReconnectTheorems.v ===== *)
(** * The guarantees of automatic reconnection *)
From Stdlib Require Import Qround Lqa.
From S2P Require Import Prelude PyVal PyNum ExitCodes ManagedProcess DriverSupervision AutoReconnect.
#[local] Open Scope Z_scope.

(** ** Reading the log *)

(** The dispatch times of the attempts, oldest first. *)
Definition attempt_times (l : list aevent) : list Q :=
  omap (fun e => match e with
                 | AEvent topic st => if String.eqb topic "manager.device.auto_reconnect.attempt"
                                      then ar_last_attempt_mono st else None
                 | ARpc _ _ => None
                 end) l.
Definition budget_resets (l : list aevent) : list unit :=
  omap (fun e => match e with
                 | AEvent topic _ => if String.eqb topic "manager.device.auto_reconnect.reset" then Some tt else None
                 | ARpc _ _ => None
                 end) l.
Definition rpcs (l : list aevent) : list (string * Z) :=
  omap (fun e => match e with ARpc a ms => Some (a, ms) | AEvent _ _ => None end) l.

Lemma attempt_times_app l k : attempt_times (l ++ k) = attempt_times l ++ attempt_times k.
Proof. apply omap_app. Qed.
Lemma budget_resets_app l k : budget_resets (l ++ k) = budget_resets l ++ budget_resets k.
Proof. apply omap_app. Qed.
Lemma rpcs_app l k : rpcs (l ++ k) = rpcs l ++ rpcs k.
Proof. apply omap_app. Qed.
#[export] Hint Rewrite attempt_times_app budget_resets_app rpcs_app : evt.

(** ** Steps that dispatch nothing *)
Record aquiet (s s' : ast) : Prop := {
  aq_dev : a_dev s' = a_dev s;
  aq_spec : a_spec s' = a_spec s;
  aq_jobs : a_jobs s' = a_jobs s;
  aq_pending : ar_pending (a_f s') = ar_pending (a_f s);
  aq_last : ar_last_attempt_mono (a_f s') = ar_last_attempt_mono (a_f s);
  aq_times : attempt_times (a_log s') = attempt_times (a_log s);
  aq_rpcs : rpcs (a_log s') = rpcs (a_log s);
  aq_attempts : ar_attempts (a_f s') = ar_attempts (a_f s);
  aq_resets : budget_resets (a_log s') = budget_resets (a_log s)
}.

#[export] Instance aquiet_refl : Reflexive aquiet.
Proof. by constructor. Qed.
#[export] Instance aquiet_trans : Transitive aquiet.
Proof. intros s1 s2 s3 [] []. constructor; congruence. Qed.

Lemma aquiet_set f s :
  ar_pending (f (a_f s)) = ar_pending (a_f s) ->
  ar_last_attempt_mono (f (a_f s)) = ar_last_attempt_mono (a_f s) ->
  ar_attempts (f (a_f s)) = ar_attempts (a_f s) -> aquiet s (aset f s).
Proof. by constructor. Qed.

Lemma aquiet_publish topic s :
  topic <> "manager.device.auto_reconnect.attempt" -> topic <> "manager.device.auto_reconnect.reset" ->
  aquiet s (_auto_reconnect_publish topic s).
Proof.
  intros H1%String.eqb_neq H2%String.eqb_neq. constructor; try done; cbn; autorewrite with evt; cbn;
    by rewrite ?H1, ?H2, ?app_nil_r.
Qed.

(** The budget reset. *)
Definition gave_back (s s' : ast) : Prop :=
  a_dev s' = a_dev s /\ a_spec s' = a_spec s /\ a_jobs s' = a_jobs s /\
  ar_pending (a_f s') = ar_pending (a_f s) /\ ar_last_attempt_mono (a_f s') = ar_last_attempt_mono (a_f s) /\
  attempt_times (a_log s') = attempt_times (a_log s) /\ rpcs (a_log s') = rpcs (a_log s) /\
  ar_attempts (a_f s') = 0 /\ budget_resets (a_log s') = budget_resets (a_log s) ++ [tt].

Lemma reset_cases tm t s :
  let s' := _auto_reconnect_reset_if_healthy tm t s in aquiet s s' \/ gave_back s s'.
Proof.
  unfold _auto_reconnect_reset_if_healthy. cbv zeta.
  assert (forall s', aquiet s s' -> aquiet s (aset (fun f => f <| ar_healthy_since_mono := None |>) s')) as Hu.
  { intros s' H. etrans; [exact H|by apply aquiet_set]. }
  destruct (_ || _); [by left|].
  destruct (_latest_telemetry_receive_mono tm) as [latest|]; [|left; by apply Hu].
  match goal with |- context [if ?b then aset _ s else _] => destruct b end; [left; by apply Hu|].
  match goal with |- context [if ?b then aset _ s else _] => destruct b end; [left; by apply Hu|].
  match goal with |- context [aset _ (if ?b then ?x else s)] => set (s1 := if b then x else s) end.
  assert (aquiet s s1) as Hs1 by (unfold s1; destruct (ar_on_degraded_s _); [by apply aquiet_set|done]).
  clearbody s1.
  match goal with |- context [if ?b then aset _ s1 else _] => destruct b end; [left; by apply Hu|].
  destruct (ar_healthy_since_mono (a_f s1)).
  - destruct (Qle_bool _ _); [right|by left]. destruct Hs1. unfold gave_back. cbn. autorewrite with evt. cbn.
    rewrite !app_nil_r. split_and!; congruence.
  - left. etrans; [exact Hs1|]. destruct (ar_waiting_for_health (a_f s1)); [|by apply aquiet_set].
    etrans; [|by apply aquiet_publish]. by apply aquiet_set.
Qed.

Lemma degraded_timer_quiet t s : aquiet s (degraded_timer t s).2.
Proof.
  unfold degraded_timer. destruct (hb_degraded (a_h s)), (ar_on_degraded_s (a_spec s)); try by apply aquiet_set.
  cbv zeta. cbn [snd]. destruct (ar_degraded_since_mono (a_f s)); [by apply aquiet_set|].
  etrans; [|by apply aquiet_publish]. by apply aquiet_set.
Qed.

(** What a positive decision, and the decision to escalate, presuppose. *)
Definition may_attempt (t : Q) (s : ast) : Prop :=
  ar_pending (a_f s) = false /\
  (forall l, ar_last_attempt_mono (a_f s) = Some l -> (ar_cooldown_s (a_spec s) <= t - l)%Q) /\
  (forall m, ar_max_attempts (a_spec s) = Some m -> ar_attempts (a_f s) < m).

Lemma gate_cases t trigger age s :
  let '(b, _, _, s') := gate_attempt t trigger age s in
  aquiet s s' /\ (b = true -> may_attempt t s).
Proof.
  unfold gate_attempt. cbv zeta. destruct (ar_pending (a_f s)) eqn:Hp; [by split|].
  match goal with |- context [if ?b then (false, age, Some "cooldown", s) else _] => destruct b eqn:Hc end; [by split|].
  destruct (over_max_attempts (a_spec s) (a_f s)) eqn:Ho.
  - split; [|done]. match goal with |- context [if ?b then _ else s] => destruct b end; [|done].
    etrans; [|by apply aquiet_publish]. by apply aquiet_set.
  - split; [by apply aquiet_set|]. intros _. split; [done|]. split.
    + intros l Hl. rewrite Hl in Hc. by destruct (Qltb_spec (t - l) (ar_cooldown_s (a_spec s))).
    + intros m Hm. unfold over_max_attempts in Ho. rewrite Hm in Ho. by apply Z.leb_gt.
Qed.

Section decisions.
Context (heartbeat_timeout_s : Q).

Lemma should_attempt_cases tm t s :
  let '(b, _, _, s') := _auto_reconnect_should_attempt heartbeat_timeout_s tm t s in
  aquiet s s' /\ (b = true -> may_attempt t s').
Proof.
  unfold _auto_reconnect_should_attempt. cbv zeta. destruct (negb (ar_enabled _)); [by split|].
  destruct (negb _); [by split|].
  match goal with |- context [if ?b then (false, None, Some "heartbeat_stale", s) else _] => destruct b end;
    [by split|].
  destruct (d_rpc_endpoint (a_h s)); [|by split].
  pose proof (degraded_timer_quiet t s) as Hq. destruct (degraded_timer t s) as [[tr age] s1]. cbn in Hq.
  destruct (telemetry_trigger tm t (a_spec s) tr age) as [[trig|] age']; [|by split].
  pose proof (gate_cases t trig age' s1) as Hg. destruct (gate_attempt t trig age' s1) as [[[b a] r] s2].
  destruct Hg as [Hq2 Hm]. split; [by etrans|]. intros Hb. destruct (Hm Hb) as (H1 & H2 & H3), Hq2.
  unfold may_attempt. rewrite aq_pending0, aq_last0, aq_spec0, aq_attempts0. done.
Qed.

(** One pass of auto-reconnect for the device: quiet, an attempt that was
    allowed, or a scheduled escalation. *)
Definition attempted (t : Q) (accepts : bool) (s s' : ast) : Prop :=
  may_attempt t s /\ a_dev s' = a_dev s /\ a_spec s' = a_spec s /\
  ar_pending (a_f s') = accepts /\ ar_last_attempt_mono (a_f s') = Some t /\
  ar_attempts (a_f s') = ar_attempts (a_f s) + 1 /\
  attempt_times (a_log s') = attempt_times (a_log s) ++ [t] /\
  rpcs (a_log s') = rpcs (a_log s) /\ budget_resets (a_log s') = budget_resets (a_log s) /\
  exists j, a_jobs s' = a_jobs s ++ (if accepts then [j] else []).

Definition escalating (accepts : bool) (s s' : ast) : Prop :=
  ar_pending (a_f s) = false /\ a_dev s' = a_dev s /\ a_spec s' = a_spec s /\
  ar_pending (a_f s') = accepts /\ ar_last_attempt_mono (a_f s') = ar_last_attempt_mono (a_f s) /\
  ar_attempts (a_f s') = ar_attempts (a_f s) /\ a_log s' = a_log s /\
  exists j, a_jobs s' = a_jobs s ++ (if accepts then [j] else []).

Lemma attempt_attempted t wall accepts age trigger s :
  may_attempt t s -> attempted t accepts s (_auto_reconnect_attempt t wall accepts age trigger s).
Proof.
  intros Hm. unfold attempted, _auto_reconnect_attempt, dispatch. cbv zeta.
  destruct accepts; cbn; autorewrite with evt; cbn; rewrite ?app_nil_r; split_and!; try done;
    [by eexists|exists (JRestart age trigger 0); by rewrite ?app_nil_r].
Qed.

Lemma schedule_escalating accepts age trigger s :
  let s' := _schedule_auto_reconnect_driver_restart accepts age trigger s in
  s' = s \/ escalating accepts s s'.
Proof.
  unfold escalating, _schedule_auto_reconnect_driver_restart, dispatch. cbv zeta.
  destruct (ar_pending (a_f s)) eqn:Hp; [by left|right].
  destruct accepts; cbn; split_and!; try done;
    [by eexists|exists (JRestart age trigger 0); by rewrite ?app_nil_r].
Qed.

Lemma maybe_cases tm t wall accepts s :
  let s' := _maybe_auto_reconnect_device heartbeat_timeout_s tm t wall accepts s in
  exists s0 s1, (s0 = s \/ gave_back s s0) /\ aquiet s0 s1 /\
    (s' = s1 \/ attempted t accepts s1 s' \/ escalating accepts s1 s').
Proof.
  unfold _maybe_auto_reconnect_device. cbv zeta. set (r := _auto_reconnect_reset_if_healthy tm t s).
  pose proof (should_attempt_cases tm t r) as Hd.
  destruct (_auto_reconnect_should_attempt _ tm t r) as [[[b age] reason] s1]. destruct Hd as [Hq Hm].
  assert (exists s0, (s0 = s \/ gave_back s s0) /\ aquiet s0 s1) as (s0 & H0 & H01).
  { destruct (reset_cases tm t s) as [Hr|Hr]; [exists s|exists r]; fold r in Hr; split; auto. by etrans. }
  exists s0, s1. split; [done|]. split; [done|].
  destruct b, age as [age|], reason as [reason|]; try (by left).
  - right; left. by apply attempt_attempted, Hm.
  - destruct (String.eqb reason "restart_driver"); [|by left].
    destruct (schedule_escalating accepts age (default "None" (ar_last_trigger (a_f s1))) s1); auto.
Qed.
End decisions.

(** ** Jobs *)
Section jobs.
Context `{!PyRepr}.
Context (heartbeat_timeout_s : Q) (device_rpc_timeout_ms : Z).
Notation disconnect := (worker_disconnect heartbeat_timeout_s).
Notation connect := (worker_connect heartbeat_timeout_s device_rpc_timeout_ms).
Notation active := (_auto_reconnect_trigger_is_active heartbeat_timeout_s).

Definition run_job (w : worker_env) (j : job) (s : ast) : ast :=
  match j with
  | JReconnect _ _ trigger generation =>
      _run_auto_reconnect heartbeat_timeout_s device_rpc_timeout_ms w generation trigger s
  | JRestart age trigger generation =>
      _run_auto_reconnect_driver_restart heartbeat_timeout_s w age trigger generation s
  end.

(** A job's own bookkeeping. *)
Record job_frame (s s' : ast) : Prop := {
  jf_spec : a_spec s' = a_spec s;
  jf_jobs : a_jobs s' = a_jobs s;
  jf_attempts : ar_attempts (a_f s') = ar_attempts (a_f s);
  jf_times : attempt_times (a_log s') = attempt_times (a_log s);
  jf_resets : budget_resets (a_log s') = budget_resets (a_log s)
}.

#[export] Instance job_frame_trans : Transitive job_frame.
Proof. intros s1 s2 s3 [] []. constructor; congruence. Qed.

Lemma quiet_frame s s' : aquiet s s' -> job_frame s s'.
Proof. intros []. by constructor. Qed.

Lemma disconnect_frame w s : job_frame s (disconnect w s) /\ a_f (disconnect w s) = a_f s.
Proof.
  unfold worker_disconnect. case_match; [|by split]. split; [|done].
  constructor; cbn; autorewrite with evt; cbn; by rewrite ?app_nil_r.
Qed.

Lemma connect_frame w s : job_frame s (connect w s).2 /\ a_f (connect w s).2 = a_f s.
Proof.
  unfold worker_connect. cbv zeta. case_match; [|by split]. split; [|done].
  constructor; cbn; autorewrite with evt; cbn; by rewrite ?app_nil_r.
Qed.

Lemma cancelled_quiet s :
  job_frame s (job_cancelled s) /\ a_dev (job_cancelled s) = a_dev s /\ rpcs (a_log (job_cancelled s)) = rpcs (a_log s).
Proof. split_and!; try constructor; try done; cbn; autorewrite with evt; cbn; by rewrite ?app_nil_r. Qed.

Lemma finished_frame topic f s :
  topic <> "manager.device.auto_reconnect.attempt" -> topic <> "manager.device.auto_reconnect.reset" ->
  ar_attempts (f (a_f s)) = ar_attempts (a_f s) ->
  job_frame s (job_done (_auto_reconnect_publish topic (aset f s))).
Proof.
  intros H1%String.eqb_neq H2%String.eqb_neq H3. constructor; try done; cbn; autorewrite with evt; cbn;
    by rewrite ?H1, ?H2, ?app_nil_r.
Qed.

Lemma run_job_frame w j s :
  let s' := run_job w j s in
  job_frame s s' /\ ar_pending (a_f s') = false /\
  (ar_last_attempt_mono (a_f s') = ar_last_attempt_mono (a_f s) \/
   ar_last_attempt_mono (a_f s') = Some (w_done w)).
Proof.
  destruct j as [n age trigger g|age trigger g]; cbn [run_job]; cbv zeta.
  - unfold _run_auto_reconnect. destruct (negb _); [split_and!; [apply cancelled_quiet|done|by left]|].
    destruct (disconnect_frame w s) as [F1 E1]. generalize dependent (disconnect w s). intros s1 F1 E1.
    destruct (connect_frame w s1) as [F2 E2]. destruct (connect w s1) as [[resp|exc] s2]; cbn [snd] in *;
      (split; [etrans; [etrans; [exact F1|exact F2]|by apply finished_frame]|]); split; [done|by right|done|by right].
  - unfold _run_auto_reconnect_driver_restart. cbv zeta.
    destruct (negb _); [split_and!; [apply cancelled_quiet|done|by left]|].
    destruct (negb _); [split_and!; [by constructor|done|by left]|].
    split; [|split; [done|by left]]. constructor; cbn; autorewrite with evt; cbn; by rewrite ?app_nil_r.
Qed.

Lemma inactive_harmless w j s :
  active (w_same_handle w) (w_telemetry w) (w_check w) (job_generation j) (job_trigger j) s = false ->
  run_job w j s = job_cancelled s.
Proof.
  destruct j; cbn [job_generation job_trigger run_job]; intros Ha;
    unfold _run_auto_reconnect, _run_auto_reconnect_driver_restart; cbv zeta; by rewrite Ha.
Qed.

Lemma active_facts same tm t g trigger s :
  active same tm t g trigger s = true ->
  driver_generation (a_h s) = g /\ driver_process_state (a_h s) = RUNNING /\
  (forall ref, heartbeat_ref (a_h s) = Some ref -> (t - ref <= heartbeat_timeout_s)%Q) /\
  (trigger = "degraded" \/ trigger = "telemetry_stale").
Proof.
  unfold _auto_reconnect_trigger_is_active. cbv zeta. destruct same; cbn [negb]; [|done].
  destruct (Z.eqb_spec (driver_generation (a_h s)) g); [|done]. cbn [negb].
  case_bool_decide; [|done]. cbn [negb].
  match goal with |- context [if ?b then false else _] => destruct b eqn:Hr end; [done|].
  intros Htr. split_and!; try done.
  - intros ref E. rewrite E in Hr. destruct (Qltb_spec heartbeat_timeout_s (t - ref)); [done|]. done.
  - destruct (String.eqb_spec trigger "degraded"); [by left|].
    destruct (String.eqb_spec trigger "telemetry_stale"); [by right|done].
Qed.

(** RPCs of a reconnect stay inside the heartbeat window.  The timeout a
    reconnect worker gives an RPC is at least 1 ms and at most the configured
    one; when the driver has a heartbeat of age [age], either the heartbeat
    is already stale and the RPC is refused, or the timeout ends before the
    heartbeat could become stale (up to the minimum of 1 ms): holding the
    lifecycle lock for an RPC cannot hide a stale driver from supervision. *)
Theorem reconnect_rpc_within_window h t configured :
  match _auto_reconnect_rpc_timeout_ms heartbeat_timeout_s h t configured with
  | Ok ms => 1 <= ms <= Z.max 1 configured /\
             forall age, _device_heartbeat_age_s h t = Some age ->
               (age < heartbeat_timeout_s)%Q /\ (ms = 1 \/ (age + (ms # 1000) <= heartbeat_timeout_s)%Q)
  | Err _ => exists age, _device_heartbeat_age_s h t = Some age /\ (heartbeat_timeout_s <= age)%Q
  end.
Proof.
  unfold _auto_reconnect_rpc_timeout_ms. destruct (_device_heartbeat_age_s h t) as [age|]; [|split; [lia|done]].
  cbv zeta. destruct (Qleb_spec (heartbeat_timeout_s - age) 0) as [Hle|Hlt]; [exists age; split; [done|lra]|].
  split; [lia|]. intros ? [= <-]. split; [lra|].
  set (f := Qfloor ((heartbeat_timeout_s - age) * 1000)).
  destruct (Z.le_gt_cases (Z.max 1 (Z.min configured (Z.max 1 f))) 1) as [H1|H1]; [left; lia|right].
  assert (Z.max 1 (Z.min configured (Z.max 1 f)) <= f) as Hf by lia.
  generalize dependent (Z.max 1 (Z.min configured (Z.max 1 f))). intros ms _ Hms.
  pose proof (Qfloor_le ((heartbeat_timeout_s - age) * 1000)) as Hq. fold f in Hq.
  assert (inject_Z ms <= inject_Z f)%Q as Hi by (rewrite <- Zle_Qle; lia).
  assert ((ms # 1000) == inject_Z ms * (1 # 1000))%Q as -> by (unfold Qeq, inject_Z; cbn; lia).
  lra.
Qed.
End jobs.

(** ** Histories *)
Section histories.
Context `{!PyRepr}.
Context (heartbeat_timeout_s : Q) (device_rpc_timeout_ms : Z).
Context (plat : platform) (signals : list (Z * string)) (heartbeat_hard_timeout_s : Q).
Notation aapply := (aapply heartbeat_timeout_s device_rpc_timeout_ms plat signals heartbeat_hard_timeout_s).
Notation arun := (arun heartbeat_timeout_s device_rpc_timeout_ms plat signals heartbeat_hard_timeout_s).
Notation run_job := (run_job heartbeat_timeout_s device_rpc_timeout_ms).

Lemma aapply_job w s j rest :
  a_jobs s = j :: rest -> aapply s (AJob w) = run_job w j (s <| a_jobs := rest |>).
Proof. intros Hj. cbn [AutoReconnect.aapply]. rewrite Hj. by destruct j. Qed.

Lemma aapply_idle w s : a_jobs s = [] -> aapply s (AJob w) = s.
Proof. intros Hj. cbn [AutoReconnect.aapply]. by rewrite Hj. Qed.

(** *** One recovery in flight *)
Definition single_flight (s : ast) : Prop :=
  length (a_jobs s) = if ar_pending (a_f s) then 1%nat else 0%nat.

Lemma single_flight_step op s : single_flight s -> single_flight (aapply s op).
Proof.
  unfold single_flight. intros Hs. destruct op as [tm t wall accepts|ev|w]; [| done |].
  - cbn [AutoReconnect.aapply].
    destruct (maybe_cases heartbeat_timeout_s tm t wall accepts s) as (s0 & s1 & H0 & H01 & H1).
    cbv zeta in H1. generalize dependent (_maybe_auto_reconnect_device heartbeat_timeout_s tm t wall accepts s).
    intros s' H1.
    assert (length (a_jobs s1) = if ar_pending (a_f s1) then 1%nat else 0%nat) as Hs1.
    { destruct H01. rewrite aq_jobs0, aq_pending0. destruct H0 as [-> |(_ & _ & -> & -> & _)]; done. }
    destruct H1 as [-> |[(Hm & _ & _ & Hp & _ & _ & _ & _ & _ & j & Hj)|(Hp0 & _ & _ & Hp & _ & _ & _ & j & Hj)]]; [done|..].
    + destruct Hm as [Hp0 _]. rewrite Hj, Hp, length_app, Hs1, Hp0. by destruct accepts.
    + rewrite Hj, Hp, length_app, Hs1, Hp0. by destruct accepts.
  - destruct (a_jobs s) as [|j rest] eqn:Ej; [by rewrite aapply_idle, Ej|].
    rewrite (aapply_job w s j rest Ej).
    destruct (run_job_frame heartbeat_timeout_s device_rpc_timeout_ms w j (s <| a_jobs := rest |>)) as ([] & Hp & _).
    rewrite jf_jobs0, Hp. cbn in Hs |- *. destruct (ar_pending (a_f s)); [lia|done].
Qed.

(** C35. At most one recovery is in flight.  Over any history of supervision
    passes, driver events and executor jobs, in any order and whatever the
    cooldown, the executor holds a job for the device exactly while the
    pending flag is set, and never more than one; a finished job, however it
    ends, and a job the executor refuses leave the flag clear. *)
Theorem single_recovery_in_flight s ops :
  a_jobs s = [] -> ar_pending (a_f s) = false ->
  (length (a_jobs (arun ops s)) <= 1)%nat /\
  (ar_pending (a_f (arun ops s)) = true <-> a_jobs (arun ops s) <> []).
Proof.
  intros Hj Hp. assert (single_flight (arun ops s)) as Hs.
  { assert (single_flight s) as H0 by (unfold single_flight; by rewrite Hj, Hp). clear Hj Hp. revert s H0.
    induction ops as [|op ops IH]; intros s H0; [done|]. apply IH. by apply single_flight_step. }
  unfold single_flight in Hs. destruct (ar_pending (a_f (arun ops s))), (a_jobs (arun ops s)) as [|? [|]];
    cbn in *; split; try lia; by split.
Qed.

(** *** Budget and spacing of attempts *)

(** The clock of the supervision passes and of job completions does not run
    backwards. *)
Fixpoint clocked (t0 : Q) (ops : list aop) : Prop :=
  match ops with
  | [] => True
  | ATick _ t _ _ :: r => (t0 <= t)%Q /\ clocked t r
  | AJob w :: r => (t0 <= w_done w)%Q /\ clocked (w_done w) r
  | ADriver _ :: r => clocked t0 r
  end.

(** Every attempt comes at least [gap] after the one before. *)
Fixpoint spaced (gap : Q) (l : list Q) : Prop :=
  match l with
  | x :: (y :: _) as r => (gap <= y - x)%Q /\ spaced gap r
  | _ => True
  end.

Lemma spaced_snoc gap l t :
  spaced gap l -> (forall x, last l = Some x -> (gap <= t - x)%Q) -> spaced gap (l ++ [t]).
Proof.
  induction l as [|x [|y l] IH]; intros Hs Hl; [done| |].
  - cbn. split; [by apply Hl|done].
  - destruct Hs as [H1 H2]. split; [done|]. by apply IH.
Qed.

Record paced (M : Z) (gap : Q) (base : Z) (now : Q) (s : ast) : Prop := {
  pc_max : ar_max_attempts (a_spec s) = Some M;
  pc_gap : ar_cooldown_s (a_spec s) = gap;
  pc_count : 0 <= ar_attempts (a_f s) <= M;
  pc_budget : Z.of_nat (length (attempt_times (a_log s)))
              <= base + ar_attempts (a_f s) + M * Z.of_nat (length (budget_resets (a_log s)));
  pc_spaced : spaced gap (attempt_times (a_log s));
  pc_last : forall x, last (attempt_times (a_log s)) = Some x ->
              exists l, ar_last_attempt_mono (a_f s) = Some l /\ (x <= l)%Q;
  pc_now : forall l, ar_last_attempt_mono (a_f s) = Some l -> (l <= now)%Q
}.

Lemma paced_quiet M gap base now now' s s' :
  (now <= now')%Q -> aquiet s s' -> paced M gap base now s -> paced M gap base now' s'.
Proof.
  intros Hn [] []. constructor; rewrite ?aq_spec0, ?aq_attempts0, ?aq_times0, ?aq_resets0, ?aq_last0; try done.
  intros l Hl. specialize (pc_now0 l Hl). lra.
Qed.

Lemma paced_gave_back M gap base now s s' :
  gave_back s s' -> paced M gap base now s -> paced M gap base now s'.
Proof.
  intros (_ & E1 & _ & _ & E2 & E3 & _ & E4 & E5) [].
  constructor; rewrite ?E1, ?E2, ?E3, ?E4, ?E5; try done; [lia|]. rewrite length_app. cbn. lia.
Qed.

Lemma paced_attempted M gap base t accepts s s' :
  attempted t accepts s s' -> paced M gap base t s -> paced M gap base t s'.
Proof.
  intros ((_ & Hcool & Hmax) & _ & E1 & _ & E2 & E3 & E4 & _ & E5 & _) [].
  constructor; rewrite ?E1, ?E2, ?E3, ?E4, ?E5; try done.
  - specialize (Hmax _ pc_max0). lia.
  - rewrite length_app. cbn. lia.
  - apply spaced_snoc; [done|]. intros x Hx. destruct (pc_last0 x Hx) as (l & Hl & Hle).
    specialize (Hcool l Hl). rewrite pc_gap0 in Hcool. lra.
  - rewrite last_snoc. intros x [= <-]. exists t. split; [done|lra].
  - intros l [= <-]. lra.
Qed.

Lemma paced_job M gap base now now' w j s :
  (now <= now')%Q -> w_done w = now' -> paced M gap base now s -> paced M gap base now' (run_job w j s).
Proof.
  intros Hn Hd [].
  destruct (run_job_frame heartbeat_timeout_s device_rpc_timeout_ms w j s) as ([] & _ & Hl). cbv zeta in Hl.
  constructor; rewrite ?jf_spec0, ?jf_attempts0, ?jf_times0, ?jf_resets0; try done.
  - intros x Hx. destruct (pc_last0 x Hx) as (l & El & Hle). destruct Hl as [-> | ->]; [by exists l|].
    exists (w_done w). split; [done|]. specialize (pc_now0 l El). rewrite Hd. lra.
  - intros l. destruct Hl as [-> | ->]; [intros El; specialize (pc_now0 l El); lra|].
    intros [= <-]. rewrite Hd. lra.
Qed.

Lemma paced_run M gap base ops now s :
  clocked now ops -> paced M gap base now s -> exists now', paced M gap base now' (arun ops s).
Proof.
  revert now s. induction ops as [|op ops IH]; intros now s Hc Hp; [by exists now|].
  destruct op as [tm t wall accepts|ev|w]; cbn [clocked] in Hc.
  - destruct Hc as [Ht Hc]. eapply (IH t); [done|]. cbn [AutoReconnect.aapply].
    destruct (maybe_cases heartbeat_timeout_s tm t wall accepts s) as (s0 & s1 & H0 & H01 & H1).
    cbv zeta in H1. generalize dependent (_maybe_auto_reconnect_device heartbeat_timeout_s tm t wall accepts s).
    intros s' H1. assert (paced M gap base t s1) as Hp1.
    { eapply paced_quiet; [exact Ht|exact H01|]. destruct H0 as [-> |H0]; [done|by eapply paced_gave_back]. }
    destruct H1 as [-> |[H1|(_ & _ & E1 & _ & E2 & E3 & E4 & _)]]; [done|by eapply paced_attempted|].
    destruct Hp1. by constructor; rewrite ?E1, ?E2, ?E3, ?E4.
  - apply (IH now); [done|]. destruct Hp. by constructor.
  - destruct Hc as [Ht Hc]. eapply (IH (w_done w)); [done|].
    destruct (a_jobs s) as [|j rest] eqn:Ej.
    + rewrite aapply_idle by done. eapply paced_quiet; [exact Ht|reflexivity|done].
    + rewrite (aapply_job w s j rest Ej). eapply paced_job; [exact Ht|done|]. destruct Hp. by constructor.
Qed.

(** C40. Attempts are budgeted and spaced.  With a maximum of [M] attempts and
    a clock that does not run backwards, over any history from a device
    without attempts: the attempts dispatched are at most [M] plus [M] for
    every time a healthy device got its budget back, and two consecutive
    attempts are at least the cooldown apart. *)
Theorem attempts_budgeted_and_spaced M t0 s ops :
  ar_max_attempts (a_spec s) = Some M -> 0 <= M ->
  ar_attempts (a_f s) = 0 -> ar_last_attempt_mono (a_f s) = None -> a_log s = [] ->
  clocked t0 ops ->
  let s' := arun ops s in
  Z.of_nat (length (attempt_times (a_log s'))) <= M + M * Z.of_nat (length (budget_resets (a_log s'))) /\
  spaced (ar_cooldown_s (a_spec s)) (attempt_times (a_log s')) /\
  0 <= ar_attempts (a_f s') <= M.
Proof.
  intros HM HM0 Ha Hl Hlog Hc s'.
  assert (paced M (ar_cooldown_s (a_spec s)) 0 t0 s) as Hp.
  { constructor; rewrite ?Ha, ?Hl, ?Hlog; cbn; done || lia. }
  destruct (paced_run M _ 0 ops t0 s Hc Hp) as [now' []]. subst s'. split; [lia|]. by split.
Qed.

(** *** Queued work is revalidated *)

(** Queued recovery work is revalidated.  A job that runs after the
    driver changed generation, stopped running or let its heartbeat go stale
    is cancelled: it makes no RPC and leaves the driver untouched.  An
    escalation acts only on the running generation it was queued for, when
    the attempts are spent; it then fails the driver, terminates a live
    child and hands it to the automatic restart (with reconnection), and in
    no other case does it touch the driver. *)
Theorem queued_recovery_revalidated w s j rest :
  a_jobs s = j :: rest ->
  let s' := aapply s (AJob w) in
  let h := a_h s in
  (driver_generation h <> job_generation j \/ driver_process_state h <> RUNNING \/
   (exists ref, heartbeat_ref h = Some ref /\ (heartbeat_timeout_s < w_check w - ref)%Q) ->
     a_dev s' = a_dev s /\ rpcs (a_log s') = rpcs (a_log s) /\ a_jobs s' = rest /\
     ar_pending (a_f s') = false) /\
  (forall age trigger g, j = JRestart age trigger g ->
     rpcs (a_log s') = rpcs (a_log s) /\
     (a_dev s' = a_dev s \/
      driver_generation h = g /\ driver_process_state h = RUNNING /\ over_max_attempts (a_spec s) (a_f s) = true /\
      driver_process_state (a_h s') = FAILED /\
      driver_last_error_kind (a_h s') = Some "auto_reconnect_exhausted" /\
      driver_next_restart_t_mono (a_h s') = Some (w_check w + ds_restart_backoff_s (d_spec h))%Q /\
      driver_restart_is_automatic (a_h s') = true /\ driver_reconnect_after_restart (a_h s') = true /\
      forall p, d_process h = Some (mkPopen p None) -> w_term w = None -> DTerminate p ∈ dlog (a_dev s'))).
Proof.
  intros Hj s' h. unfold s'. rewrite (aapply_job w s j rest Hj). set (s0 := s <| a_jobs := rest |>).
  assert (a_h s0 = h /\ a_dev s0 = a_dev s /\ a_log s0 = a_log s /\ a_jobs s0 = rest /\ a_spec s0 = a_spec s /\
          a_f s0 = a_f s) as (E1 & E2 & E3 & E4 & E5 & E6) by done. clearbody s0.
  destruct (_auto_reconnect_trigger_is_active heartbeat_timeout_s (w_same_handle w) (w_telemetry w) (w_check w)
              (job_generation j) (job_trigger j) s0) eqn:Hact.
  - pose proof (active_facts _ _ _ _ _ _ _ Hact) as (F1 & F2 & F3 & _). rewrite E1 in F1, F2, F3. split.
    + intros [?|[?|(ref & Hr & Hlt)]]; [done|done|]. specialize (F3 ref Hr). lra.
    + intros age trigger g ->. cbn [job_generation job_trigger] in *. cbn [AutoReconnectTheorems.run_job].
      unfold _run_auto_reconnect_driver_restart. cbv zeta. rewrite Hact. cbn [negb].
      rewrite E5, E6. destruct (over_max_attempts (a_spec s) (a_f s)) eqn:Ho; cbn [negb].
      * split; [cbn; autorewrite with evt; cbn; by rewrite app_nil_r, E3|]. right.
        rewrite E2. unfold a_h. fold h. cbn [a_dev aset job_done _auto_reconnect_publish].
        unfold terminate_quietly. rewrite dh_dupd.
        change (d_process (escalate (w_check w) trigger age (ar_attempts (a_f s)) (dh (a_dev s))))
          with (d_process (dh (a_dev s))).
        destruct (d_process (dh (a_dev s))) as [[p [rc|]]|] eqn:Ep; [|destruct (w_term w) eqn:Et|];
          split_and!; try done; intros p' Hp' Ht; unfold h, a_h in Hp'; rewrite ?Ep in Hp'; simplify_eq;
          cbn; set_solver.
      * split; [cbn; by rewrite E3|]. left. exact E2.
  - rewrite (inactive_harmless _ _ w j s0 Hact).
    destruct (cancelled_quiet s0) as ([] & F1 & F2). split; [|intros; split; [congruence|left; congruence]].
    intros _. split_and!; congruence || done.
Qed.
End histories.

(** ** Concrete histories *)
Module ReconnectDemo.
#[local] Existing Instance plain_repr.
Definition dsp : DeviceSpec := mkDevSpec "laser" None true 3 2 (1 # 2) (Some 1) 300.
Definition dblank : DeviceHandle :=
  mkDevice dsp None None None None None STOPPED None None None None 0 None None false 0 None false None
    None None None None None None None None None None false.
Definition hb (t : Q) (st : string) : devent := VMessage (MHeartbeat t (mkHeartbeat 9 true st None None)).
Definition d_running : dst :=
  drun Posix linux_signals 2 10
    [VStart (inl 7) [] [MRegister 1 (mkReg "tcp://a:1" "tcp://a:2" (Some 1))]; hb 1 "OK"] (mkDst dblank []).

(** Degraded for 5 s or no telemetry for 10 s; one attempt, then a restart. *)
Definition asp : AutoReconnectSpec := mkARSpec true (Some 10%Q) (Some 5%Q) true 1 (Some 1) 120 1000 None.
Definition ar0 : ar_fields := mkAR 0 None None None None None false None false None false.
Definition a0 : ast := mkAst d_running ar0 asp [] [].
Definition tm (recv : Q) : telemetry := mkTelemetry (Some recv) None [(recv, "OK")].
Definition w (recv t : Q) : worker_env :=
  mkWorker true (tm recv) t t [] t [] (Err (RuntimeError "no reply")) t None.
Notation run := (arun 2 1500 Posix linux_signals 10).

Definition stale_ops : list aop :=
  [ADriver (hb 20 "OK"); ATick (tm 0) 20 0 true; ATick (tm 0) 20 0 true; AJob (w 0 20);
   ADriver (hb 22 "OK"); ATick (tm 0) 22 0 true].

Lemma single_recovery_in_flight_witness :
  let s := run (take 3 stale_ops) a0 in
  length (a_jobs s) = 1%nat /\ (length (a_jobs s) <= 1)%nat /\ (ar_pending (a_f s) = true <-> a_jobs s <> []).
Proof.
  split; [by vm_compute|].
  apply (single_recovery_in_flight 2 1500 Posix linux_signals 10 a0 (take 3 stale_ops)); by vm_compute.
Defined.

Lemma attempts_budgeted_and_spaced_witness :
  let s' := run stale_ops a0 in
  attempt_times (a_log s') = [20%Q] /\
  (Z.of_nat (length (attempt_times (a_log s'))) <= 1 + 1 * Z.of_nat (length (budget_resets (a_log s')))) /\
  spaced 1 (attempt_times (a_log s')) /\ 0 <= ar_attempts (a_f s') <= 1.
Proof.
  split; [by vm_compute|].
  apply (attempts_budgeted_and_spaced 2 1500 Posix linux_signals 10 1 0 a0 stale_ops); by vm_compute.
Defined.

(** The job of the last pass escalates the spent budget to a restart. *)
Lemma queued_recovery_revalidated_witness :
  let s := run stale_ops a0 in
  let s' := run [AJob (w 0 22)] s in
  a_jobs s = [JRestart 22 "telemetry_stale" 1] /\ driver_process_state (a_h s') = FAILED /\
  rpcs (a_log s') = rpcs (a_log s).
Proof.
  split; [by vm_compute|]. split; [by vm_compute|].
  refine (proj1 (proj2 (queued_recovery_revalidated 2 1500 Posix linux_signals 10 (w 0 22) (run stale_ops a0)
                          (JRestart 22 "telemetry_stale" 1) [] _) 22%Q "telemetry_stale" 1 _)); by vm_compute.
Defined.

(** The escalation is queued for the trigger of the last attempt, not for the
    active one.  Once the attempts are spent on stale telemetry, a device
    whose telemetry resumes but which stays degraded is never escalated: every
    pass queues a job that cancels itself. *)
Definition degraded_ops : list aop :=
  [ADriver (hb 30 "DEGRADED"); ATick (tm 30) 30 0 true;
   ADriver (hb 40 "DEGRADED"); ATick (tm 40) 40 0 true; AJob (w 40 40);
   ADriver (hb 50 "DEGRADED"); ATick (tm 50) 50 0 true; AJob (w 50 50)].

Example escalation_uses_stale_trigger :
  let s := run degraded_ops (run (take 4 stale_ops) a0) in
  omap (fun e => match e with AEvent t _ => Some t | _ => None end) (drop 2 (a_log s)) =
    ["manager.device.auto_reconnect.failed"; "manager.device.auto_reconnect.degraded";
     "manager.device.auto_reconnect.cancelled"; "manager.device.auto_reconnect.cancelled"] /\
  driver_process_state (a_h s) = RUNNING /\ hb_degraded (a_h s) = true.
Proof. by vm_compute. Qed.
End ReconnectDemo.
