(* ===== verification/InterceptorRoutes.v ===== *)
(** * Routes of command interceptors

    [_manager/interceptor_routes.py] and the manager's handlers over it in
    [_manager/route_handlers.py]: which processes are asked before a command
    goes to a device, in which order, and the cache of the answers. *)
From S2P Require Import Prelude PyVal Responses.
#[local] Open Scope Z_scope.

Record CommandInterceptorRoute := mkRoute {
  rt_process_id : string;
  rt_device_id : string;
  rt_action : string;
  rt_order : Z
}.

#[export] Instance route_eq_dec : EqDecision CommandInterceptorRoute.
Proof. solve_decision. Defined.

Abbreviation RouteKey := (string * string)%type.

Record InterceptorRouteState := mkRoutes {
  routes : list CommandInterceptorRoute;
  chain_cache : list (RouteKey * list CommandInterceptorRoute);
  next_order : Z;
  cache_generation : Z;
  max_cache : Z
}.

#[export] Instance routes_eta : Eta InterceptorRouteState := fun s =>
  mkRoutes (routes s) (chain_cache s) (next_order s) (cache_generation s) (max_cache s).

Definition route_payload (r : CommandInterceptorRoute) : pyval :=
  PDict [("process_id", PStr (rt_process_id r)); ("device_id", PStr (rt_device_id r));
         ("action", PStr (rt_action r)); ("order", PInt (rt_order r))].

Definition routes_snapshot (s : InterceptorRouteState) : list pyval :=
  route_payload <$> sort_by rt_order (routes s).

Definition routes_invalidate (s : InterceptorRouteState) : InterceptorRouteState :=
  s <| cache_generation := cache_generation s + 1 |> <| chain_cache := [] |>.

Definition routes_drop_process (process_id : string) (s : InterceptorRouteState)
    : bool * InterceptorRouteState :=
  let before := length (routes s) in
  let s := s <| routes := filter (fun r => rt_process_id r ≠ process_id) (routes s) |> in
  let changed := negb (bool_decide (length (routes s) = before)) in
  (changed, if changed then routes_invalidate s else s).

Section register.
Context `{!PyRepr}.

(** The loop of [register]: [seen] are the keys of this call. *)
Fixpoint register_loop (process_id : string) (raw : list pyval) (seen : list RouteKey)
    (added : list pyval) : pyM InterceptorRouteState (list pyval) :=
  match raw with
  | [] => mret added
  | PDict route :: rest =>
      let device_id := strip (py_str (dget_or route "device_id" (PStr ""))) in
      let action := strip (py_str (dget_or route "action" (PStr ""))) in
      if negb (nonempty device_id) || negb (nonempty action) then
        raise (ValueError "route.device_id and route.action are required")
      else if bool_decide ((device_id, action) ∈ seen) then
        register_loop process_id rest seen added
      else
        fun s =>
          let s := s <| next_order := next_order s + 1 |> in
          let entry := mkRoute process_id device_id action (next_order s) in
          let s := s <| routes := routes s ++ [entry] |> in
          register_loop process_id rest ((device_id, action) :: seen) (added ++ [route_payload entry]) s
  | _ :: _ => raise (TypeError "route must be an object")
  end.

Definition routes_register (process_id : string) (routes_raw : pyval) (replace : bool)
    : pyM InterceptorRouteState (list pyval) := fun s =>
  match routes_raw with
  | PList raw =>
      let s := if replace then snd (routes_drop_process process_id s) else s in
      match register_loop process_id raw [] [] s with
      | (Ok added, s) => (Ok added, routes_invalidate s)
      | (Err e, s) => (Err e, s)
      end
  | _ => (Err (TypeError "routes must be a list"), s)
  end.
End register.

Definition match_command_interceptor_route (r : CommandInterceptorRoute) (device_id action : string) : bool :=
  if negb (String.eqb (rt_device_id r) "*") && negb (String.eqb (rt_device_id r) device_id) then false
  else if negb (String.eqb (rt_action r) "*") && negb (String.eqb (rt_action r) action) then false
  else true.

(** The first route of every process. *)
Fixpoint first_per_process (seen : list string) (l : list CommandInterceptorRoute)
    : list CommandInterceptorRoute :=
  match l with
  | [] => []
  | r :: l' => if bool_decide (rt_process_id r ∈ seen) then first_per_process seen l'
               else r :: first_per_process (rt_process_id r :: seen) l'
  end.

Definition compute_chain (l : list CommandInterceptorRoute) (device_id action : string)
    : list CommandInterceptorRoute :=
  first_per_process []
    (sort_by rt_order (filter (fun r => match_command_interceptor_route r device_id action = true) l)).

(** [while len(cache) > max_items: pop the oldest] *)
Definition evict {V} (max_items : nat) (cache : list (RouteKey * V)) : list (RouteKey * V) :=
  drop (length cache - max_items) cache.

Definition routes_chain (device_id action : string) (s : InterceptorRouteState)
    : list CommandInterceptorRoute * InterceptorRouteState :=
  let key := (device_id, action) in
  match od_get (chain_cache s) key with
  | Some cached =>
      (cached, s <| chain_cache := od_set (od_pop (chain_cache s) key) key cached |>)
  | None =>
      let ordered := compute_chain (routes s) device_id action in
      let cache := od_set (chain_cache s) key ordered in
      let max_items := Z.max 32 (max_cache s) in
      (ordered, s <| chain_cache := evict (Z.to_nat max_items) cache |>)
  end.

(** ** The manager's side *)
Record route_mgr := mkRouteMgr {
  rm_state : InterceptorRouteState;
  rm_legacy_routes : list CommandInterceptorRoute;
  rm_legacy_order : Z;
  rm_legacy_cache : list (RouteKey * list CommandInterceptorRoute);
  rm_cache_max : Z;
  rm_events : list (string * pyval)
}.

#[export] Instance route_mgr_eta : Eta route_mgr := fun m =>
  mkRouteMgr (rm_state m) (rm_legacy_routes m) (rm_legacy_order m) (rm_legacy_cache m)
    (rm_cache_max m) (rm_events m).

Definition sync_legacy_fields (m : route_mgr) : route_mgr :=
  m <| rm_legacy_routes := routes (rm_state m) |> <| rm_legacy_order := next_order (rm_state m) |>
    <| rm_legacy_cache := chain_cache (rm_state m) |>.

Definition with_cache_max (m : route_mgr) : route_mgr :=
  m <| rm_state := rm_state m <| max_cache := rm_cache_max m |> |>.

Definition interceptor_snapshot (m : route_mgr) : list pyval * route_mgr :=
  let m := sync_legacy_fields m in (routes_snapshot (rm_state m), m).

Definition interceptor_invalidate (m : route_mgr) : route_mgr :=
  sync_legacy_fields (m <| rm_state := routes_invalidate (rm_state m) |>).

Definition interceptor_drop_process (process_id : string) (m : route_mgr) : bool * route_mgr :=
  let '(changed, st) := routes_drop_process process_id (rm_state m) in
  (changed, sync_legacy_fields (m <| rm_state := st |>)).

Definition interceptor_chain (device_id action : string) (m : route_mgr)
    : list CommandInterceptorRoute * route_mgr :=
  let m := with_cache_max m in
  let '(ordered, st) := routes_chain device_id action (rm_state m) in
  (ordered, sync_legacy_fields (m <| rm_state := st |>)).

Definition publish (topic : string) (payload : pyval) (m : route_mgr) : route_mgr :=
  m <| rm_events := rm_events m ++ [(topic, payload)] |>.

(** The clock readings of the payload are left out. *)
Definition publish_interceptor_routes_update (process_id : string) (rs : list pyval) (replace : bool)
    (m : route_mgr) : route_mgr :=
  publish "manager.command_interceptor.routes_updated"
    (PDict [("process_id", PStr process_id); ("routes", PList rs); ("replace", PBool replace)]) m.

Definition drop_command_interceptor_routes (process_id : string) (m : route_mgr) : route_mgr :=
  let '(changed, m) := interceptor_drop_process process_id m in
  if changed then publish_interceptor_routes_update process_id [] true m else m.

Definition unregister_command_interceptor_routes (process_id : string) (m : route_mgr) : bool * route_mgr :=
  let '(removed, m) := interceptor_drop_process process_id m in
  let '(snap, m) := interceptor_snapshot m in
  (removed, publish "manager.command_interceptor.routes_unregistered"
              (PDict [("process_id", PStr process_id); ("removed", PBool removed); ("routes", PList snap)]) m).

Section handlers.
Context `{!PyRepr}.
(** [process_id in manager._processes] *)
Context (known : string -> bool).

Definition interceptor_register (process_id : string) (routes_raw : pyval) (replace : bool)
    : pyM route_mgr (list pyval) := fun m =>
  let m := with_cache_max m in
  match routes_register process_id routes_raw replace (rm_state m) with
  | (Ok added, st) => (Ok added, sync_legacy_fields (m <| rm_state := st |>))
  | (Err e, st) => (Err e, m <| rm_state := st |>)
  end.

Definition register_command_interceptor_routes (process_id : string) (routes_raw : pyval)
    (replace : bool) : pyM route_mgr (list pyval) :=
  guard_raise (negb (known process_id)) (KeyError ("Unknown process_id " +:+ repr_str process_id)) ≫= fun _ =>
  interceptor_register process_id routes_raw replace ≫= fun added =>
  modify (publish_interceptor_routes_update process_id added replace) ≫= fun _ =>
  mret added.

Definition _reply (code : string) (message : option string) : pyval :=
  PDict (response_to_dict (failure code message PNone PNone false)).

Definition route_command_interceptor_register (req : list (string * pyval)) (m : route_mgr)
    : pyval * route_mgr :=
  let process_id := py_str (dget_or req "process_id" (PStr "")) in
  let routes_raw := dget_or req "routes" (PList []) in
  let replace := truthy (dget_or req "replace" (PBool false)) in
  if negb (nonempty process_id) then (_reply "invalid_register" (Some "missing process_id"), m)
  else
    match register_command_interceptor_routes process_id routes_raw replace m with
    | (Ok rs, m) => (PDict [("ok", PBool true); ("result", PDict [("routes", PList rs)])], m)
    | (Err e, m) => (_reply "register_failed" (Some (exc_str e)), m)
    end.

Definition route_command_interceptor_unregister (req : list (string * pyval)) (m : route_mgr)
    : pyval * route_mgr :=
  let process_id := strip (py_str (dget_or req "process_id" (PStr ""))) in
  if negb (nonempty process_id) then (_reply "invalid_unregister" (Some "missing process_id"), m)
  else
    let '(removed, m) := unregister_command_interceptor_routes process_id m in
    (PDict [("ok", PBool true);
            ("result", PDict [("process_id", PStr process_id); ("removed", PBool removed)])], m).

Definition route_command_interceptor_list (m : route_mgr) : pyval * route_mgr :=
  let '(snap, m) := interceptor_snapshot m in
  (PDict [("ok", PBool true); ("result", PDict [("routes", PList snap)])], m).
End handlers.
