(* ===== verification/CommandInterceptors.v ===== *)
(** * Running a command past its interceptors

    [utils/command_interceptors.py] and its use by the manager
    ([apply_command_interceptors] of [_manager/route_handlers.py]).  The
    interceptor processes, their availability and the clock are the
    environment [W]; calls and published events are logged. *)
From S2P Require Import Prelude PyVal PyNum Responses InterceptorRoutes.

Inductive ievent :=
| ICall (process_id : string) (request : pyval)
| IPublish (topic : string) (payload : pyval).

(** [(status, response, error)] of one interceptor call. *)
Definition CallResult : Type := string * pyval * option string.

Section interceptors.
Context `{!PyRepr}.
Context {W : Type}.
Context (is_route_available : string -> W -> bool).
Context (call_interceptor : string -> pyval -> W -> CallResult * W).
Context (monotonic : W -> Q).

Record ist := mkIst { iw : W; ilog : list ievent }.
Definition ilog_add (e : ievent) (s : ist) : ist := mkIst (iw s) (ilog s ++ [e]).

(** [None] and [PNone] fields are left out. *)
Definition build_interceptor_error (code message process_id device_id action : string)
    (interceptor_id rule details : pyval) : pyval :=
  let err := [("kind", PStr "command_interceptor"); ("code", PStr code); ("message", PStr message);
              ("process_id", PStr process_id); ("device_id", PStr device_id); ("action", PStr action)] in
  let err := if is_none interceptor_id then err else od_set err "interceptor_id" interceptor_id in
  let err := if is_none rule then err else od_set err "rule" rule in
  let err := if is_none details then err else od_set err "details" details in
  PDict err.

Definition _route_process_id (r : CommandInterceptorRoute) : string := strip (rt_process_id r).

Definition _emit_interceptor_error (err command : pyval) (s : ist) : ist :=
  ilog_add (IPublish "manager.command_interceptor.error" (PDict [("error", err); ("command", command)])) s.

Definition route_name (device_id action : string) : string := device_id +:+ "." +:+ action.

Definition _validate_route_availability (process_id device_id action : string) (w : W) : option pyval :=
  if negb (nonempty process_id) then
    Some (build_interceptor_error "INTERCEPTOR_BAD_ROUTE"
            ("Interceptor route missing process_id for " +:+ route_name device_id action)
            process_id device_id action PNone PNone PNone)
  else if is_route_available process_id w then None
  else Some (build_interceptor_error "INTERCEPTOR_UNAVAILABLE"
               ("Interceptor " +:+ repr_str process_id +:+ " unavailable for " +:+ route_name device_id action)
               process_id device_id action PNone PNone PNone).

Definition _build_call_error (process_id status_text : string) (call_error : option string)
    (device_id action : string) : option pyval :=
  if String.eqb status_text "ok" then None
  else if String.eqb status_text "timeout" then
    Some (build_interceptor_error "INTERCEPTOR_TIMEOUT"
            ("Interceptor " +:+ repr_str process_id +:+ " timed out for " +:+ route_name device_id action)
            process_id device_id action PNone PNone PNone)
  else
    let message :=
      match or_none (default "" call_error) with
      | Some e => "Interceptor " +:+ repr_str process_id +:+ " failed for " +:+ route_name device_id action
                  +:+ ": " +:+ e
      | None => "Interceptor " +:+ repr_str process_id +:+ " unavailable for " +:+ route_name device_id action
      end in
    Some (build_interceptor_error "INTERCEPTOR_UNAVAILABLE" message process_id device_id action
            PNone PNone PNone).

Definition bad_response (process_id message device_id action : string) (details : pyval) : pyval :=
  build_interceptor_error "INTERCEPTOR_BAD_RESPONSE"
    ("Interceptor " +:+ repr_str process_id +:+ message) process_id device_id action PNone PNone details.

(** The checked response, or the error. *)
Definition _validate_interceptor_response (process_id : string) (response : pyval)
    (distinct_ok_false_message : bool) (device_id action : string) : list (string * pyval) + pyval :=
  let details := PDict [("response", response)] in
  match response with
  | PDict d =>
      match dget d "ok" with
      | PBool false =>
          inr (bad_response process_id
                 (if distinct_ok_false_message then " returned error response"
                  else " returned invalid response") device_id action details)
      | _ => inl d
      end
  | _ => inr (bad_response process_id " returned invalid response" device_id action details)
  end.

Definition command_of (device_id action : string) (params : pyval) : list (string * pyval) :=
  [("device_id", PStr device_id); ("action", PStr action); ("params", params)].

(** The next command and the event of a modification, or an error. *)
Definition _apply_allow_response (process_id : string) (response current : list (string * pyval))
    (device_id action : string) : (list (string * pyval) * option pyval) + pyval :=
  if negb (dhas response "command") then inl (current, None)
  else
    match dget response "command" with
    | PDict raw =>
        let new_device := py_str (dget_or raw "device_id" (PStr device_id)) in
        let new_action := py_str (dget_or raw "action" (PStr action)) in
        if negb (String.eqb new_device device_id) || negb (String.eqb new_action action) then
          inr (bad_response process_id " attempted to change route" device_id action PNone)
        else
          let new_params := if dhas raw "params" then dget raw "params" else dget current "params" in
          if negb (is_dict new_params) then
            inr (bad_response process_id " returned invalid params" device_id action PNone)
          else
            let new_cmd := command_of device_id action new_params in
            if py_eqb (PDict new_cmd) (PDict current) then inl (new_cmd, None)
            else
              inl (new_cmd,
                   Some (PDict [("process_id", PStr process_id);
                                ("interceptor_id", dget response "interceptor_id");
                                ("rule", dget response "rule"); ("note", dget response "note");
                                ("before", PDict current); ("after", PDict new_cmd)]))
    | _ => inr (bad_response process_id " returned invalid command" device_id action PNone)
    end.

(** [inner.get] of a truthy error that is not a dict raises. *)
Definition _build_reject_error (process_id : string) (response : list (string * pyval))
    (device_id action : string) : result pyval :=
  match py_or (dget response "error") (PDict []) with
  | PDict inner =>
      let inner_code := py_str (dget_or inner "code" (PStr "CONDITION_FAILED")) in
      let inner_msg := py_str (dget_or inner "message" (PStr "Command rejected by interceptor")) in
      Ok (build_interceptor_error "INTERCEPTOR_REJECTED" inner_msg process_id device_id action
            (dget response "interceptor_id") (dget response "rule")
            (PDict [("code", PStr inner_code); ("message", PStr inner_msg);
                    ("details", dget_or inner "details" (PDict []))]))
  | _ => Err (AttributeError "object has no attribute 'get'")
  end.

Definition _build_interceptor_request (current : list (string * pyval)) (request_id : pyval)
    (caller_process_id : pyval) (w : W) : pyval :=
  let meta := [("request_id", request_id); ("t_mono", PFloat (FFin (monotonic w)))] in
  let meta := if truthy caller_process_id then od_set meta "caller_process_id" caller_process_id else meta in
  PDict [("type", PStr "command_interceptor.check"); ("command", PDict current); ("meta", PDict meta)].

Definition _call_interceptor_checked (process_id : string) (req : pyval)
    (distinct_ok_false_message : bool) (device_id action : string) (s : ist)
    : (list (string * pyval) + pyval) * ist :=
  let '((status, resp_raw, call_error), w) := call_interceptor process_id req (iw s) in
  let s := ilog_add (ICall process_id req) (mkIst w (ilog s)) in
  let status_text := lower (strip status) in
  (match _build_call_error process_id status_text call_error device_id action with
   | Some e => inr e
   | None => _validate_interceptor_response process_id resp_raw distinct_ok_false_message device_id action
   end, s).

(** The next command or the error of one decision. *)
Definition _apply_interceptor_decision (process_id : string) (response current : list (string * pyval))
    (device_id action : string) : pyM ist (list (string * pyval) + pyval) := fun s =>
  match dget response "allow" with
  | PBool true =>
      match _apply_allow_response process_id response current device_id action with
      | inl (new_cmd, Some ev) =>
          (Ok (inl new_cmd), ilog_add (IPublish "manager.command_interceptor.modified" ev) s)
      | inl (new_cmd, None) => (Ok (inl new_cmd), s)
      | inr e => (Ok (inr e), s)
      end
  | PBool false =>
      match _build_reject_error process_id response device_id action with
      | Ok e => (Ok (inr e), s)
      | Err x => (Err x, s)
      end
  | _ => (Ok (inr (bad_response process_id " returned invalid response" device_id action
                     (PDict [("response", PDict response)]))), s)
  end.

Definition _apply_interceptor_step (route : CommandInterceptorRoute) (current : list (string * pyval))
    (request_id caller_process_id : pyval) (distinct_ok_false_message : bool) (device_id action : string)
    : pyM ist (list (string * pyval) + pyval) := fun s =>
  let process_id := _route_process_id route in
  match _validate_route_availability process_id device_id action (iw s) with
  | Some e => (Ok (inr e), _emit_interceptor_error e (PDict current) s)
  | None =>
      let req := _build_interceptor_request current request_id caller_process_id (iw s) in
      match _call_interceptor_checked process_id req distinct_ok_false_message device_id action s with
      | (inr e, s) => (Ok (inr e), _emit_interceptor_error e (PDict current) s)
      | (inl resp, s) =>
          match _apply_interceptor_decision process_id resp current device_id action s with
          | (Ok (inr e), s) => (Ok (inr e), _emit_interceptor_error e (PDict current) s)
          | r => r
          end
      end
  end.

Fixpoint chain_loop (chain : list CommandInterceptorRoute) (cur : list (string * pyval))
    (request_id caller_process_id : pyval) (distinct_ok_false_message : bool) (device_id action : string)
    : pyM ist (bool * option (list (string * pyval)) * option pyval) :=
  match chain with
  | [] => mret (true, Some cur, None)
  | route :: rest =>
      _apply_interceptor_step route cur request_id caller_process_id distinct_ok_false_message
        device_id action ≫= fun r =>
      match r with
      | inl next => chain_loop rest next request_id caller_process_id distinct_ok_false_message
                      device_id action
      | inr e => mret (false, None, Some e)
      end
  end.

Definition apply_command_interceptor_chain (initial : list (string * pyval))
    (chain : list CommandInterceptorRoute) (request_id caller_process_id : pyval)
    (distinct_ok_false_message : bool)
    : pyM ist (bool * option (list (string * pyval)) * option pyval) :=
  let device_id := py_str (dget_or initial "device_id" (PStr "")) in
  let action := py_str (dget_or initial "action" (PStr "")) in
  chain_loop chain (command_of device_id action (dget_or initial "params" (PDict [])))
    request_id caller_process_id distinct_ok_false_message device_id action.

(** The manager's use: the chain comes from the route table. *)
Definition apply_command_interceptors (cmd : list (string * pyval)) (request_id caller_process_id : pyval)
    (m : route_mgr) (s : ist)
    : result (bool * option (list (string * pyval)) * option pyval) * ist * route_mgr :=
  let device_id := py_str (dget_or cmd "device_id" (PStr "")) in
  let action := py_str (dget_or cmd "action" (PStr "")) in
  let '(chain, m) := interceptor_chain device_id action m in
  let initial := command_of device_id action (dget_or cmd "params" (PDict [])) in
  (apply_command_interceptor_chain initial chain request_id caller_process_id true s, m).
End interceptors.
Arguments ist : clear implicits.
