(* ===== verification/InterceptorTheorems.v ===== *)
(** * The guarantees of command interception *)
From S2P Require Import Prelude PyVal PyNum Responses InterceptorRoutes CommandInterceptors.
#[local] Open Scope Z_scope.

(** ** The gate: a command passes exactly when every interceptor admits it *)
Section gate.
Context `{!PyRepr}.
Context {W : Type}.
Context (is_route_available : string -> W -> bool).
Context (call_interceptor : string -> pyval -> W -> CallResult * W).
Context (monotonic : W -> Q).
Context (request_id caller_process_id : pyval) (distinct : bool).
Context (device_id action : string).
#[local] Abbreviation dict := (list (string * pyval)).
#[local] Abbreviation step := (fun r c => _apply_interceptor_step is_route_available call_interceptor monotonic r c
                                 request_id caller_process_id distinct device_id action).
#[local] Abbreviation loop := (fun l c => chain_loop is_route_available call_interceptor monotonic l c
                                 request_id caller_process_id distinct device_id action).

(** What an admitting response may do to the command: nothing, or replace
    its parameters. *)
Definition rewritten (resp c c1 : dict) : Prop :=
  dhas resp "command" = false /\ c1 = c \/
  exists raw p, dhas resp "command" = true /\ dget resp "command" = PDict raw /\
    py_str (dget_or raw "device_id" (PStr device_id)) = device_id /\
    py_str (dget_or raw "action" (PStr action)) = action /\
    (if dhas raw "params" then dget raw "params" else dget c "params") = PDict p /\
    c1 = command_of device_id action (PDict p).

(** In the world [w], the interceptor of route [r] admits [c] as [c1]. *)
Definition admits (w : W) (c : dict) (r : CommandInterceptorRoute) (w1 : W) (c1 : dict) : Prop :=
  exists status resp cerr,
    _route_process_id r <> "" /\ is_route_available (_route_process_id r) w = true /\
    call_interceptor (_route_process_id r)
      (_build_interceptor_request monotonic c request_id caller_process_id w) w
      = ((status, PDict resp, cerr), w1) /\
    lower (strip status) = "ok" /\ dget resp "ok" <> PBool false /\ dget resp "allow" = PBool true /\
    rewritten resp c c1.

(** Every interceptor of the chain admits, each the command its predecessor
    left, in the world its predecessor left. *)
Inductive admitted : W -> dict -> list CommandInterceptorRoute -> W -> dict -> Prop :=
| admitted_nil w c : admitted w c [] w c
| admitted_cons w c r w1 c1 rest w2 c2 :
    admits w c r w1 c1 -> admitted w1 c1 rest w2 c2 -> admitted w c (r :: rest) w2 c2.

Definition calls (l : list ievent) : list string :=
  omap (fun e => match e with ICall p _ => Some p | _ => None end) l.
Lemma calls_app l k : calls (l ++ k) = calls l ++ calls k.
Proof. apply omap_app. Qed.

(** An error of this chain, published with the command it stopped. *)
Definition reported (c : dict) (e : pyval) (s : ist W) : Prop :=
  (exists d, e = PDict d /\ dget d "kind" = PStr "command_interceptor" /\
             dget d "device_id" = PStr device_id /\ dget d "action" = PStr action) /\
  last (ilog s) = Some (IPublish "manager.command_interceptor.error"
                            (PDict [("error", e); ("command", PDict c)])).

Lemma reported_emit c e s code msg pid i ru de :
  e = build_interceptor_error code msg pid device_id action i ru de ->
  reported c e (_emit_interceptor_error e (PDict c) s).
Proof.
  intros ->. split; [|by unfold _emit_interceptor_error, ilog_add; cbn; rewrite last_snoc].
  eexists. split; [reflexivity|].
  destruct (is_none i), (is_none ru), (is_none de); split_and!; reflexivity.
Qed.

(** One step, every way it can end. *)
Definition step_outcome (r : CommandInterceptorRoute) (c : dict) (s : ist W)
    (res : result (dict + pyval)) (s' : ist W) : Prop :=
  (exists c1, res = Ok (inl c1) /\ admits (iw s) c r (iw s') c1 /\
              calls (ilog s') = calls (ilog s) ++ [_route_process_id r]) \/
  (exists e, res = Ok (inr e) /\ reported c e s' /\
             (calls (ilog s') = calls (ilog s) \/
              calls (ilog s') = calls (ilog s) ++ [_route_process_id r])) \/
  (exists x, res = Err (AttributeError x) /\
             calls (ilog s') = calls (ilog s) ++ [_route_process_id r]).

Lemma allow_rewritten pid resp c c1 ev :
  _apply_allow_response pid resp c device_id action = inl (c1, ev) -> rewritten resp c c1.
Proof.
  unfold _apply_allow_response, rewritten. destruct (dhas resp "command"); cbn [negb]; [|naive_solver].
  destruct (dget resp "command") as [| | | | | |raw]; try discriminate.
  destruct (String.eqb_spec (py_str (dget_or raw "device_id" (PStr device_id))) device_id); [|discriminate].
  destruct (String.eqb_spec (py_str (dget_or raw "action" (PStr action))) action); [|discriminate].
  cbn [negb orb].
  destruct (if dhas raw "params" then dget raw "params" else dget c "params") as [| | | | | |p] eqn:Ep;
    try discriminate. cbn [is_dict negb]. destruct (py_eqb _ _); intros ?; simplify_eq; right; by exists raw, p.
Qed.

Lemma rewritten_allow pid resp c c1 :
  rewritten resp c c1 -> exists ev, _apply_allow_response pid resp c device_id action = inl (c1, ev).
Proof.
  unfold _apply_allow_response. intros [[-> ->]|(raw & p & -> & -> & -> & -> & -> & ->)]; [by eexists|].
  rewrite !String.eqb_refl. cbn [negb orb is_dict]. destruct (py_eqb _ _); eauto.
Qed.

Lemma allow_error pid resp c e :
  _apply_allow_response pid resp c device_id action = inr e ->
  exists msg, e = bad_response pid msg device_id action PNone.
Proof.
  unfold _apply_allow_response. repeat case_match; intros; simplify_eq; eauto.
Qed.

Definition is_error (pid : string) (e : pyval) : Prop :=
  exists code msg i ru de, e = build_interceptor_error code msg pid device_id action i ru de.

Lemma checked_cases pid req s x s1 :
  _call_interceptor_checked call_interceptor pid req distinct device_id action s = (x, s1) ->
  calls (ilog s1) = calls (ilog s) ++ [pid] /\
  match x with
  | inl resp => exists status cerr, call_interceptor pid req (iw s) = ((status, PDict resp, cerr), iw s1) /\
                  lower (strip status) = "ok" /\ dget resp "ok" <> PBool false
  | inr e => is_error pid e
  end.
Proof.
  unfold _call_interceptor_checked, is_error.
  destruct (call_interceptor pid req (iw s)) as [[[status resp] cerr] w1] eqn:Hc. cbv zeta.
  intros [= <- <-]. cbn. rewrite calls_app. split; [done|]. unfold _build_call_error.
  destruct (String.eqb_spec (lower (strip status)) "ok") as [Hok|]; 
    [|destruct (String.eqb _ "timeout"); cbn; by eexists _, _, _, _, _].
  unfold _validate_interceptor_response, bad_response.
  destruct resp as [| | | | | |resp]; try (by eexists _, _, _, _, _).
  destruct (dget resp "ok") as [|[]| | | | |] eqn:E; try (by eexists _, _, _, _, _);
    exists status, cerr; by rewrite E.
Qed.

Lemma decision_cases pid resp c (s : ist W) res s' :
  _apply_interceptor_decision pid resp c device_id action s = (res, s') ->
  iw s' = iw s /\ calls (ilog s') = calls (ilog s) /\
  match res with
  | Ok (inl c1) => dget resp "allow" = PBool true /\ rewritten resp c c1
  | Ok (inr e) => is_error pid e
  | Err x => exists m, x = AttributeError m
  end.
Proof.
  unfold _apply_interceptor_decision, is_error.
  destruct (dget resp "allow") as [|[]| | | | |] eqn:Hal;
    try (intros [= <- <-]; split_and!; try done; by eexists _, _, _, _, _).
  - destruct (_apply_allow_response pid resp c device_id action) as [[c1 [ev|]]|e] eqn:Hr;
      intros [= <- <-]; cbn; rewrite ?calls_app, ?app_nil_r; split_and!; try done.
    1,2: by eapply allow_rewritten.
    destruct (allow_error _ _ _ _ Hr) as [msg ->]. by eexists _, _, _, _, _.
  - unfold _build_reject_error. destruct (py_or _ _); intros [= <- <-]; split_and!; eauto.
    by eexists _, _, _, _, _.
Qed.

Lemma step_cases r c s : let '(res, s') := step r c s in step_outcome r c s res s'.
Proof.
  unfold _apply_interceptor_step, _validate_route_availability, step_outcome. cbv zeta.
  assert (forall e (s1 : ist W), calls (ilog (_emit_interceptor_error e (PDict c) s1)) = calls (ilog s1)) as Hem.
  { intros e s1. cbn. by rewrite calls_app, app_nil_r. }
  unfold nonempty. destruct (String.eqb_spec (_route_process_id r) "") as [Hp|Hp]; cbn [negb].
  { right; left. eexists. split; [done|]. split; [by eapply reported_emit|]. left. apply Hem. }
  destruct (is_route_available _ _) eqn:Ha.
  2:{ right; left. eexists. split; [done|]. split; [by eapply reported_emit|]. left. apply Hem. }
  destruct (_call_interceptor_checked _ _ _ _ _ _ _) as [[resp|e] s1] eqn:Hc; apply checked_cases in Hc as [Hcalls Hc].
  2:{ destruct Hc as (?&?&?&?&?&He). right; left. exists e. split; [done|].
      split; [by eapply reported_emit|]. right. by rewrite Hem. }
  destruct Hc as (status & cerr & Hcall & Hok & Hnf).
  destruct (_apply_interceptor_decision _ _ _ _ _ _) as [[[c1|e]|x] s2] eqn:Hd;
    apply decision_cases in Hd as (Hw & Hl & Hd); rewrite Hcalls in Hl.
  - left. exists c1. split; [done|]. split; [|done]. rewrite Hw. exists status, resp, cerr. naive_solver.
  - destruct Hd as (?&?&?&?&?&He). right; left. exists e. split; [done|].
    split; [by eapply reported_emit|]. right. by rewrite Hem.
  - destruct Hd as [m ->]. right; right. by exists m.
Qed.

(** An admitting interceptor makes the step succeed. *)
Lemma admits_step r c s w1 c1 :
  admits (iw s) c r w1 c1 -> exists s', step r c s = (Ok (inl c1), s') /\ iw s' = w1.
Proof.
  intros (status & resp & cerr & Hp & Ha & Hcall & Hok & Hnf & Hal & Hrw).
  unfold _apply_interceptor_step, _validate_route_availability, nonempty. cbv zeta.
  rewrite (proj2 (String.eqb_neq _ _) Hp), Ha. cbn [negb].
  unfold _call_interceptor_checked. rewrite Hcall. unfold _build_call_error. rewrite Hok, String.eqb_refl.
  unfold _validate_interceptor_response.
  assert (forall (A : Type) (a b : A), match dget resp "ok" with PBool false => a | _ => b end = b) as Hm
    by (intros; destruct (dget resp "ok") as [|[]| | | | |]; done).
  rewrite Hm. unfold _apply_interceptor_decision. rewrite Hal.
  destruct (rewritten_allow (_route_process_id r) resp c c1 Hrw) as [[ev|] ->]; eexists; by split.
Qed.

Lemma loop_cases chain c s :
  let '(res, s') := loop chain c s in
  (exists k, (k <= length chain)%nat /\
     calls (ilog s') = calls (ilog s) ++ (_route_process_id <$> take k chain)) /\
  ((exists c1, res = Ok (true, Some c1, None) /\ admitted (iw s) c chain (iw s') c1 /\
               calls (ilog s') = calls (ilog s) ++ (_route_process_id <$> chain)) \/
   (exists c1 e, res = Ok (false, None, Some e) /\ reported c1 e s') \/
   (exists x, res = Err (AttributeError x))).
Proof.
  revert c s. induction chain as [|r rest IH]; intros c s; cbn [chain_loop].
  { split; [exists 0%nat; cbn; by rewrite app_nil_r|]. left. exists c. rewrite app_nil_r.
    split_and!; [done|constructor|done]. }
  unfold mbind, pyM_bind. pose proof (step_cases r c s) as Hs. unfold step_outcome in Hs.
  destruct (_apply_interceptor_step _ _ _ _ _ _ _ _ _ _ _) as [res s1].
  destruct Hs as [(c1 & -> & Had & Hl)|[(e & -> & Hrep & Hl)|(x & -> & Hl)]].
  - specialize (IH c1 s1). destruct (chain_loop _ _ _ _ _ _ _ _ _ _ _) as [res s2].
    destruct IH as [(k & Hk & Hkl) IH]. rewrite Hl in Hkl. split.
    { exists (S k). cbn. split; [lia|]. by rewrite Hkl, <- app_assoc. }
    destruct IH as [(c2 & -> & Hadm & Hl2)|[Hx|Hx]]; [left|right; left; done|right; right; done].
    exists c2. split; [done|]. split; [by econstructor|]. by rewrite Hl2, Hl, <- app_assoc.
  - split; [|right; left; by exists c, e].
    destruct Hl as [Hl|Hl]; [exists 0%nat|exists 1%nat]; cbn; rewrite Hl, ?app_nil_r; split; try done; lia.
  - split; [|right; right; by exists x]. exists 1%nat. cbn. rewrite Hl. split; [lia|done].
Qed.

Lemma admitted_loop w c chain w1 c1 :
  admitted w c chain w1 c1 -> forall s, iw s = w ->
  exists s', loop chain c s = (Ok (true, Some c1, None), s') /\ iw s' = w1.
Proof.
  induction 1 as [w c|w c r w1 c1 rest w2 c2 Had Hrest IH]; intros s Hs; cbn [chain_loop].
  - by exists s.
  - subst w. destruct (admits_step _ _ _ _ _ Had) as (s1 & Hstep & Hw).
    unfold mbind, pyM_bind. rewrite Hstep. by apply IH.
Qed.

(** The route of an admitted command is the route it came with. *)
Lemma admitted_route w c chain w1 c1 :
  admitted w c chain w1 c1 -> (exists p, c = command_of device_id action p) ->
  exists p, c1 = command_of device_id action p.
Proof.
  induction 1 as [|w c r w1 c1 rest w2 c2 Had _ IH]; [done|]. intros Hc. apply IH.
  destruct Had as (?&?&?&_&_&_&_&_&_&[[_ ->]|(?&p&_&_&_&_&_&->)]); [done|by eexists].
Qed.
End gate.

Section gate_theorem.
Context `{!PyRepr}.
Context {W : Type}.
Context (is_route_available : string -> W -> bool).
Context (call_interceptor : string -> pyval -> W -> CallResult * W).
Context (monotonic : W -> Q).

(** C10. The interceptor gate.  A command gets through a chain exactly when
    every interceptor of the chain, asked in order, is available, answers in
    time and allows the command its predecessor left; the command that
    comes out still has the device and the action that went in, and every
    interceptor was called once.  In every other case no command comes out,
    only a prefix of the chain was called, and either a structured error is
    returned and published as the last event, or (a rejection whose error is
    not an object) an exception is raised. *)
Theorem interceptor_gate initial chain request_id caller_process_id distinct s :
  let device_id := py_str (dget_or initial "device_id" (PStr "")) in
  let action := py_str (dget_or initial "action" (PStr "")) in
  let c0 := command_of device_id action (dget_or initial "params" (PDict [])) in
  let '(res, s') := apply_command_interceptor_chain is_route_available call_interceptor monotonic
                      initial chain request_id caller_process_id distinct s in
  (forall c1, res = Ok (true, Some c1, None) <->
     exists w1, admitted is_route_available call_interceptor monotonic request_id caller_process_id
                  device_id action (iw s) c0 chain w1 c1) /\
  match res with
  | Ok (true, Some c1, None) =>
      (exists p, c1 = command_of device_id action p) /\
      calls (ilog s') = calls (ilog s) ++ (_route_process_id <$> chain)
  | Ok (false, None, Some e) =>
      (exists k, calls (ilog s') = calls (ilog s) ++ (_route_process_id <$> take k chain)) /\
      exists c1, reported device_id action c1 e s'
  | Err (AttributeError _) =>
      exists k, calls (ilog s') = calls (ilog s) ++ (_route_process_id <$> take k chain)
  | _ => False
  end.
Proof.
  intros device_id action c0. unfold apply_command_interceptor_chain. fold device_id action c0.
  pose proof (loop_cases is_route_available call_interceptor monotonic request_id caller_process_id
                distinct device_id action chain c0 s) as Hl.
  pose proof (fun w1 c1 Hadm => admitted_loop is_route_available call_interceptor monotonic request_id
                caller_process_id distinct device_id action (iw s) c0 chain w1 c1 Hadm s eq_refl) as Ha.
  cbv beta in Hl, Ha.
  destruct (chain_loop _ _ _ _ _ _ _ _ _ _ _) as [res s']. destruct Hl as [(k & _ & Hk) Hl]. split.
  - intros c1. split.
    + intros ->. destruct Hl as [(c2 & [= <-] & Hadm & _)|[(?&?&?&_)|(?&?)]]; [by eexists|done..].
    + intros (w1 & Hadm). destruct (Ha _ _ Hadm) as (s2 & Heq & _). by simplify_eq.
  - destruct Hl as [(c1 & -> & Hadm & Hc)|[(c1 & e & -> & Hr)|(x & ->)]]; [|by eauto..].
    split; [|done]. eapply admitted_route; [exact Hadm|]. by eexists.
Qed.
End gate_theorem.

(** ** Chains from the route table *)
Definition by_order (a b : CommandInterceptorRoute) : Prop := rt_order a < rt_order b.

(** [r] is the oldest route of its process that matches. *)
Definition oldest_match (l : list CommandInterceptorRoute) (device_id action : string)
    (r : CommandInterceptorRoute) : Prop :=
  r ∈ l /\ match_command_interceptor_route r device_id action = true /\
  forall r', r' ∈ l -> match_command_interceptor_route r' device_id action = true ->
    rt_process_id r' = rt_process_id r -> rt_order r <= rt_order r'.

Lemma first_per_process_elem seen l r :
  StronglySorted by_order l ->
  r ∈ first_per_process seen l <->
  r ∈ l /\ rt_process_id r ∉ seen /\
  forall r', r' ∈ l -> rt_process_id r' = rt_process_id r -> rt_order r <= rt_order r'.
Proof.
  intros Hs. revert seen. induction Hs as [|x l Hs IH Hx]; intros seen; cbn [first_per_process]; [set_solver|].
  rewrite Forall_forall in Hx. unfold by_order in Hx. case_bool_decide as Hin.
  - rewrite IH. split.
    + intros (H1 & H2 & H3). split_and!; [set_solver|done|]. intros r' [-> |Hr']%elem_of_cons Hp; [|auto].
      by rewrite Hp in Hin.
    + intros ([-> |H1]%elem_of_cons & H2 & H3); [done|]. split_and!; [done..|]. set_solver.
  - rewrite elem_of_cons, IH. split.
    + intros [-> |(H1 & H2 & H3)].
      * split_and!; [set_solver|done|]. intros r' [-> |Hr'%Hx]%elem_of_cons _; lia.
      * split_and!; [set_solver|set_solver|]. intros r' [-> |Hr']%elem_of_cons Hp; [|auto]. set_solver.
    + intros ([-> |H1]%elem_of_cons & H2 & H3); [by left|]. right. split_and!; [done| |set_solver].
      intros [Hp|]%elem_of_cons; [|done]. specialize (H3 x ltac:(set_solver) (eq_sym Hp)).
      specialize (Hx r H1). lia.
Qed.

Lemma first_per_process_sublist seen l : sublist (first_per_process seen l) l.
Proof.
  revert seen. induction l as [|x l IH]; intros seen; cbn; [constructor|].
  case_bool_decide; constructor; apply IH.
Qed.

Lemma first_per_process_NoDup seen l :
  NoDup (rt_process_id <$> first_per_process seen l) /\
  forall p, p ∈ seen -> p ∉ rt_process_id <$> first_per_process seen l.
Proof.
  revert seen. induction l as [|x l IH]; intros seen; cbn; [split; [constructor|set_solver]|].
  case_bool_decide as Hin; [apply IH|]. cbn. destruct (IH (rt_process_id x :: seen)) as [H1 H2]. split.
  - constructor; [|done]. apply H2. set_solver.
  - intros p Hp [->|Hp']%elem_of_cons; [done|]. by apply (H2 p); [set_solver|].
Qed.

Lemma compute_chain_exact l d a :
  StronglySorted by_order l ->
  StronglySorted by_order (compute_chain l d a) /\ NoDup (rt_process_id <$> compute_chain l d a) /\
  forall r, r ∈ compute_chain l d a <-> oldest_match l d a r.
Proof.
  intros Hs. unfold compute_chain.
  assert (StronglySorted by_order (filter (fun r => match_command_interceptor_route r d a = true) l)) as Hf.
  { eapply StronglySorted_sublist; [|exact Hs]. apply sublist_filter. }
  rewrite sort_by_id by (eapply StronglySorted_impl_In; [|exact Hf]; unfold key_le, by_order; intros; lia).
  split; [eapply StronglySorted_sublist; [apply first_per_process_sublist|exact Hf]|].
  split; [apply first_per_process_NoDup|]. intros r. rewrite first_per_process_elem by done.
  unfold oldest_match. setoid_rewrite list_elem_of_filter. set_solver.
Qed.

(** A process with a matching route is in the chain. *)
Lemma chain_has_process l d a r pid :
  StronglySorted by_order l -> r ∈ l -> match_command_interceptor_route r d a = true ->
  rt_process_id r = pid -> pid ∈ rt_process_id <$> compute_chain l d a.
Proof.
  intros Hs Hr Hm Hp. destruct (compute_chain_exact l d a Hs) as (_ & _ & Hex).
  enough (exists x, oldest_match l d a x /\ rt_process_id x = pid) as (x & Hx & <-).
  { apply list_elem_of_fmap. exists x. by rewrite Hex. }
  clear Hex. induction Hs as [|y l Hs IH Hy]; [set_solver|].
  destruct (decide (match_command_interceptor_route y d a = true /\ rt_process_id y = pid)) as [[Hmy Hpy]|Hn].
  - exists y. split; [|done]. split_and!; [left|done|]. intros r' [-> |Hr']%elem_of_cons _ _; [lia|].
    rewrite Forall_forall in Hy. specialize (Hy r' Hr'). unfold by_order in Hy. lia.
  - apply elem_of_cons in Hr as [-> |Hr]; [tauto|]. destruct (IH Hr) as (x & (H1 & H2 & H3) & H4).
    exists x. split; [|done]. split_and!; [by right|done|]. intros r' [-> |Hr']%elem_of_cons Hmr Hpr; [|auto].
    destruct Hn. split; congruence.
Qed.

(** ** The invariant of the table and of its cache *)
Definition cache_bound (m : route_mgr) : nat := Z.to_nat (Z.max 32 (rm_cache_max m)).

Lemma evict_kept {V} n (c : list (RouteKey * V)) :
  od_wf c -> od_wf (evict n c) /\ (forall k v, od_get (evict n c) k = Some v -> od_get c k = Some v) /\
  (length (evict n c) <= n)%nat.
Proof.
  intros Hwf. assert (take (length c - n) c ++ evict n c = c) as Hpre by apply take_drop. split_and!.
  - eapply od_wf_app_inv_r. by rewrite Hpre.
  - intros k v Hk. apply od_elem_get; [done|]. rewrite <- Hpre. apply elem_of_app. right. by apply od_get_elem.
  - unfold evict. rewrite length_drop. lia.
Qed.

Record routes_ok (m : route_mgr) : Prop := {
  ro_sorted : StronglySorted by_order (routes (rm_state m));
  ro_bound : Forall (fun r => rt_order r <= next_order (rm_state m)) (routes (rm_state m));
  ro_wf : od_wf (chain_cache (rm_state m));
  ro_cache : forall k l, od_get (chain_cache (rm_state m)) k = Some l ->
               l = compute_chain (routes (rm_state m)) k.1 k.2;
  ro_size : (length (chain_cache (rm_state m)) <= cache_bound m)%nat
}.

Section route_histories.
Context `{!PyRepr}.
Context (known : string -> bool).

(** The device and action a raw route asks for. *)
Definition raw_key (v : pyval) : option RouteKey :=
  match v with
  | PDict route => Some (strip (py_str (dget_or route "device_id" (PStr ""))),
                         strip (py_str (dget_or route "action" (PStr ""))))
  | _ => None
  end.

Record appended (pid : string) (raw : list pyval) (seen : list RouteKey)
    (res : result (list pyval)) (s s' : InterceptorRouteState) (new : list CommandInterceptorRoute) : Prop := {
  ap_routes : routes s' = routes s ++ new;
  ap_cache : chain_cache s' = chain_cache s;
  ap_max : max_cache s' = max_cache s;
  ap_next : next_order s <= next_order s';
  ap_sorted : StronglySorted by_order new;
  ap_new : Forall (fun r => rt_process_id r = pid /\ next_order s < rt_order r <= next_order s') new;
  ap_keys : forall added, res = Ok added -> forall v, v ∈ raw -> exists k, raw_key v = Some k /\
              (k ∈ seen \/ exists r, r ∈ new /\ (rt_device_id r, rt_action r) = k)
}.

Lemma register_loop_spec pid raw seen added s :
  exists new, let '(res, s') := register_loop pid raw seen added s in appended pid raw seen res s s' new.
Proof.
  revert seen added s. induction raw as [|v rest IH]; intros seen added s; cbn [register_loop].
  { exists []. constructor; try done; try constructor; [by rewrite app_nil_r|]. set_solver. }
  destruct v as [| | | | | |route];
    try (exists []; constructor; try done; try constructor; by rewrite app_nil_r).
  set (d := strip _). set (a := strip (py_str (dget_or route "action" _))).
  destruct (negb (nonempty d) || negb (nonempty a));
    [exists []; constructor; try done; try constructor; by rewrite app_nil_r|].
  case_bool_decide as Hseen.
  - destruct (IH seen added s) as [new Hn]. exists new.
    destruct (register_loop pid rest seen added s) as [res s']. destruct Hn. constructor; try done.
    intros ad Had v [-> |Hv]%elem_of_cons; [|by eapply ap_keys0]. exists (d, a). auto.
  - cbv zeta. set (s1 := s <| next_order := _ |>).
    set (entry := mkRoute pid d a (next_order s1)). set (s2 := s1 <| routes := _ |>).
    destruct (IH ((d, a) :: seen) (added ++ [route_payload entry]) s2) as [new Hn]. exists (entry :: new).
    destruct (register_loop pid rest _ _ s2) as [res s']. destruct Hn. cbn in *. constructor; try done.
    + by rewrite ap_routes0, <- app_assoc.
    + lia.
    + constructor; [done|]. eapply Forall_impl; [done|]. unfold by_order. cbn. lia.
    + constructor; [cbn; split; [done|lia]|]. eapply Forall_impl; [done|]. cbn. intros r [? ?]. split; [done|lia].
    + intros ad Had v [-> |Hv]%elem_of_cons.
      * exists (d, a). split; [done|]. right. exists entry. split; [left|done].
      * destruct (ap_keys0 ad Had v Hv) as (k & Hk & [[Hk'|Hk']%elem_of_cons|(r & Hr & Hrk)]); exists k;
          (split; [done|]); [right|left|right]; [|done|].
        -- exists entry. split; [left|done].
        -- exists r. split; [by right|done].
Qed.

(** *** Operations *)
Inductive rop :=
| RRegister (pid : string) (raw : pyval) (replace : bool)
| RUnregister (pid : string)
| RDrop (pid : string)
| RChain (device_id action : string)
| RList
| RInvalidate.

Definition rapply (op : rop) (m : route_mgr) : route_mgr :=
  match op with
  | RRegister pid raw replace => snd (register_command_interceptor_routes known pid raw replace m)
  | RUnregister pid => snd (unregister_command_interceptor_routes pid m)
  | RDrop pid => drop_command_interceptor_routes pid m
  | RChain d a => snd (interceptor_chain d a m)
  | RList => snd (route_command_interceptor_list m)
  | RInvalidate => interceptor_invalidate m
  end.

(** A registration that raises is excluded. *)
Definition rop_returns (op : rop) (m : route_mgr) : Prop :=
  match op with
  | RRegister pid raw replace =>
      exists added, fst (register_command_interceptor_routes known pid raw replace m) = Ok added
  | _ => True
  end.

Definition empty_table (cache_max : Z) : route_mgr :=
  mkRouteMgr (mkRoutes [] [] 0 0 cache_max) [] 0 [] cache_max [].

Inductive rreach (cache_max : Z) : route_mgr -> Prop :=
| rreach_init : rreach cache_max (empty_table cache_max)
| rreach_step op m : rreach cache_max m -> rop_returns op m -> rreach cache_max (rapply op m).

Lemma routes_ok_invalidated m st :
  StronglySorted by_order (routes st) -> Forall (fun r => rt_order r <= next_order st) (routes st) ->
  chain_cache st = [] -> routes_ok (m <| rm_state := st |>).
Proof. intros H1 H2 H3. constructor; cbn; rewrite ?H3; try done; [constructor|cbn; lia]. Qed.

(** Only the table, its cache and the configured size matter. *)
Lemma routes_ok_ext m m' :
  routes (rm_state m') = routes (rm_state m) -> chain_cache (rm_state m') = chain_cache (rm_state m) ->
  next_order (rm_state m') = next_order (rm_state m) -> rm_cache_max m' = rm_cache_max m ->
  routes_ok m -> routes_ok m'.
Proof. intros E1 E2 E3 E4 []. constructor; unfold cache_bound in *; by rewrite ?E1, ?E2, ?E3, ?E4. Qed.

Lemma routes_ok_drop pid m :
  routes_ok m -> let '(_, m') := interceptor_drop_process pid m in
  routes_ok m' /\ routes (rm_state m') = filter (fun r => rt_process_id r ≠ pid) (routes (rm_state m)) /\
  rm_cache_max m' = rm_cache_max m.
Proof.
  intros Hok. pose proof Hok as []. unfold interceptor_drop_process, routes_drop_process. cbv zeta. cbn [routes].
  set (st := rm_state m <| routes := _ |>).
  assert (StronglySorted by_order (routes st)) as Hs
    by (eapply StronglySorted_sublist; [apply sublist_filter|done]).
  assert (Forall (fun r => rt_order r <= next_order st) (routes st)) as Hb 
    by (rewrite Forall_forall in *; intros r Hr; apply ro_bound0; by apply list_elem_of_filter in Hr as [_ ?]).
  case_bool_decide as Hlen; cbn [negb].
  - split; [|done]. apply (routes_ok_ext m); try done. cbn. by apply filter_length_id.
  - split; [|done]. eapply (routes_ok_ext (m <| rm_state := routes_invalidate st |>)); try done.
    by apply routes_ok_invalidated.
Qed.

Lemma routes_ok_register pid raw replace m added m' :
  register_command_interceptor_routes known pid raw replace m = (Ok added, m') ->
  routes_ok m ->
  routes_ok m' /\ rm_cache_max m' = rm_cache_max m /\
  exists l new, raw = PList l /\
    routes (rm_state m') =
      (if replace then filter (fun r => rt_process_id r ≠ pid) (routes (rm_state m))
       else routes (rm_state m)) ++ new /\
    Forall (fun r => rt_process_id r = pid) new /\
    forall v, v ∈ l -> exists r, r ∈ new /\ raw_key v = Some (rt_device_id r, rt_action r).
Proof.
  unfold register_command_interceptor_routes, interceptor_register, routes_register, mbind, pyM_bind,
    guard_raise. destruct (negb (known pid)); [discriminate|]. cbn [mret pyM_ret]. cbv zeta.
  destruct raw as [| | | | |l|]; try discriminate.
  set (s0 := rm_state (with_cache_max m)).
  set (s1 := if replace then snd (routes_drop_process pid s0) else s0).
  intros Heq Hok.
  assert (routes s1 = (if replace then filter (fun r => rt_process_id r ≠ pid) (routes (rm_state m))
                       else routes (rm_state m)) /\ next_order s1 = next_order (rm_state m)) as [E1 E2].
  { unfold s1, routes_drop_process. destruct replace; [|done]. cbn. by case_bool_decide. }
  clearbody s1. destruct (register_loop_spec pid l [] [] s1) as [new Hn].
  destruct (register_loop pid l [] [] s1) as [[ad|e] s2]; [|discriminate].
  destruct Hn. injection Heq as <- <-. pose proof Hok as [].
  assert (StronglySorted by_order (routes s1) /\ Forall (fun r => rt_order r <= next_order s1) (routes s1))
    as [Hs1 Hb1].
  { rewrite E1, E2. destruct replace; [|done].
    split; [eapply StronglySorted_sublist; [apply sublist_filter|done]|].
    rewrite Forall_forall in *. intros r Hr. apply ro_bound0. by apply list_elem_of_filter in Hr as [_ ?]. }
  rewrite Forall_forall in Hb1, ap_new0. split; [|split; [done|]].
  - eapply (routes_ok_ext (m <| rm_state := routes_invalidate s2 |>)); try done.
    apply routes_ok_invalidated; [| |done]; cbn; rewrite ap_routes0.
    + apply StronglySorted_app. split_and!; [|done|done]. intros x y Hx Hy.
      specialize (Hb1 x Hx). specialize (ap_new0 y Hy). unfold by_order. lia.
    + apply Forall_forall. intros r [Hr|Hr]%elem_of_app; [specialize (Hb1 r Hr); lia|].
      specialize (ap_new0 r Hr). lia.
  - exists l, new. cbn. rewrite ap_routes0, E1. split_and!; try done.
    + apply Forall_forall. intros r Hr. by apply ap_new0.
    + intros v Hv. destruct (ap_keys0 ad eq_refl v Hv) as (k & -> & [Hk|(r & Hr & <-)]); [set_solver|]. by exists r.
Qed.

Lemma routes_ok_chain d a m :
  routes_ok m -> let '(l, m') := interceptor_chain d a m in
  routes_ok m' /\ routes (rm_state m') = routes (rm_state m) /\ rm_cache_max m' = rm_cache_max m /\
  l = compute_chain (routes (rm_state m)) d a.
Proof.
  intros Hok. pose proof Hok as []. unfold interceptor_chain, routes_chain. cbv zeta.
  destruct (od_get _ _) as [cached|] eqn:Ec; cbn in Ec.
  - cbn. pose proof (ro_cache0 _ _ Ec) as Hc. cbn in Hc. subst cached. split_and!; try done.
    assert ((d, a) ∉ od_keys (od_pop (chain_cache (rm_state m)) (d, a))) as Hnk
      by (rewrite od_keys_pop by done; tauto).
    constructor; try done; unfold cache_bound in *; cbn.
    + by apply od_wf_set, od_wf_pop.
    + intros k l Hk. destruct (decide (k = (d, a))) as [-> |Hne].
      * rewrite od_get_set_eq in Hk. by simplify_eq.
      * rewrite od_get_set_ne, od_get_pop_ne in Hk by done. by apply ro_cache0.
    + rewrite od_set_new, length_app by done. cbn. pose proof (od_length_pop _ _ _ Ec). lia.
  - cbn. split_and!; try done.
    assert ((d, a) ∉ od_keys (chain_cache (rm_state m))) as Hnk by by apply od_get_None.
    assert (forall k l, od_get (od_set (chain_cache (rm_state m)) (d, a) (compute_chain (routes (rm_state m)) d a)) k
              = Some l -> l = compute_chain (routes (rm_state m)) k.1 k.2) as Hget.
    { intros k l Hk. destruct (decide (k = (d, a))) as [-> |Hne].
      - rewrite od_get_set_eq in Hk. by simplify_eq.
      - rewrite od_get_set_ne in Hk by done. by apply ro_cache0. }
    set (c := od_set (chain_cache (rm_state m)) (d, a) (compute_chain (routes (rm_state m)) d a)) in *.
    assert (od_wf c) as Hwf by by apply od_wf_set.
    destruct (evict_kept (cache_bound m) c Hwf) as (Hwf' & Hkept & Hlen).
    constructor; [done|done|exact Hwf'| |exact Hlen]. intros k l Hk. apply Hget. exact (Hkept k l Hk).
Qed.

Lemma rreach_ok cache_max m : rreach cache_max m -> routes_ok m /\ rm_cache_max m = cache_max.
Proof.
  induction 1 as [|op m _ [Hok Hmax] Hret].
  { split; [|done]. constructor; cbn; try constructor; try done. lia. }
  destruct op as [pid raw replace|pid|pid|d a| |]; cbn [rapply].
  - destruct Hret as [added Hret].
    destruct (register_command_interceptor_routes known pid raw replace m) as [res m'] eqn:E. cbn in Hret. subst res.
    destruct (routes_ok_register _ _ _ _ _ _ E Hok) as (? & ? & _). cbn [snd]. split; [done|congruence].
  - unfold unregister_command_interceptor_routes. pose proof (routes_ok_drop pid m Hok) as Hd.
    destruct (interceptor_drop_process pid m) as [removed m'], Hd as (Hok' & _ & Hm). cbn.
    split; [by apply (routes_ok_ext m')|congruence].
  - unfold drop_command_interceptor_routes. pose proof (routes_ok_drop pid m Hok) as Hd.
    destruct (interceptor_drop_process pid m) as [removed m'], Hd as (Hok' & _ & Hm).
    destruct removed; (split; [by apply (routes_ok_ext m')|cbn; congruence]).
  - pose proof (routes_ok_chain d a m Hok) as Hd. destruct (interceptor_chain d a m) as [l m']. cbn.
    destruct Hd as (? & _ & ? & _). split; [done|congruence].
  - split; [by apply (routes_ok_ext m)|done].
  - split; [|done]. pose proof Hok as [].
    eapply (routes_ok_ext (m <| rm_state := routes_invalidate (rm_state m) |>)); try done.
    by apply routes_ok_invalidated.
Qed.

(** The chain of a command.  After any history of registrations that
    return, removals, lookups and invalidations, the chain looked up for a
    device and action, cached or not, holds exactly the oldest matching
    route of each process, in order of registration and without repeating a
    process; and the cache never holds more than its configured size (at
    least 32). *)
Theorem interceptor_chain_exact cache_max m d a :
  rreach cache_max m ->
  let '(l, m') := interceptor_chain d a m in
  (forall r, r ∈ l <-> oldest_match (routes (rm_state m)) d a r) /\
  StronglySorted by_order l /\ NoDup (rt_process_id <$> l) /\
  (Z.of_nat (length (chain_cache (rm_state m'))) <= Z.max 32 cache_max).
Proof.
  intros [Hok Hmax]%rreach_ok. pose proof (routes_ok_chain d a m Hok) as Hc.
  destruct (interceptor_chain d a m) as [l m'], Hc as (Hok' & _ & Hm & ->).
  destruct (compute_chain_exact (routes (rm_state m)) d a (ro_sorted _ Hok)) as (H1 & H2 & H3).
  split_and!; try done. pose proof (ro_size _ Hok') as Hs. unfold cache_bound in Hs. rewrite Hm, Hmax in Hs. lia.
Qed.

(** Registration takes effect at once.  After a registration that
    returns, the chain of every device and action it named includes the
    process (wildcards included); after the process is dropped, no chain
    includes it; other processes keep their routes throughout. *)
Theorem registration_takes_effect cache_max m pid raw replace added :
  rreach cache_max m ->
  fst (register_command_interceptor_routes known pid (PList raw) replace m) = Ok added ->
  let m1 := snd (register_command_interceptor_routes known pid (PList raw) replace m) in
  let m2 := drop_command_interceptor_routes pid m1 in
  (forall v d a d' a', v ∈ raw -> raw_key v = Some (d, a) ->
     (d = "*" \/ d = d') -> (a = "*" \/ a = a') ->
     pid ∈ rt_process_id <$> fst (interceptor_chain d' a' m1)) /\
  (forall d a, pid ∉ rt_process_id <$> fst (interceptor_chain d a m2)) /\
  (forall r, rt_process_id r <> pid -> r ∈ routes (rm_state m2) <-> r ∈ routes (rm_state m)).
Proof.
  intros [Hok _]%rreach_ok Hret m1 m2.
  assert (register_command_interceptor_routes known pid (PList raw) replace m = (Ok added, m1)) as E
    by (rewrite <- Hret; apply surjective_pairing).
  destruct (routes_ok_register _ _ _ _ _ _ E Hok) as (Hok1 & _ & l & new & [= <-] & Er & Hnew & Hkeys).
  unfold drop_command_interceptor_routes in m2. clearbody m1.
  pose proof (routes_ok_drop pid m1 Hok1) as Hd. destruct (interceptor_drop_process pid m1) as [ch m2'].
  destruct Hd as (Hok2' & Er2' & _).
  assert (routes_ok m2 /\ routes (rm_state m2) = filter (fun r => rt_process_id r ≠ pid) (routes (rm_state m1)))
    as [Hok2 Er2] by (unfold m2; destruct ch; [split; [by apply (routes_ok_ext m2')|done]|done]).
  clearbody m2. split_and!.
  - intros v d a d' a' Hv Hk Hd Ha. destruct (Hkeys v Hv) as (r & Hr & Hrk).
    pose proof (routes_ok_chain d' a' m1 Hok1) as Hc. destruct (interceptor_chain d' a' m1) as [c m1'].
    destruct Hc as (_ & _ & _ & ->). cbn [fst]. rewrite Hk in Hrk. injection Hrk as -> ->.
    apply chain_has_process with (r := r); [by apply Hok1|rewrite Er; set_solver| |].
    + unfold match_command_interceptor_route.
      destruct Hd as [-> | ->], Ha as [-> | ->]; rewrite ?String.eqb_refl;
        cbn; rewrite ?andb_false_r; cbn; by rewrite ?andb_false_r.
    + rewrite Forall_forall in Hnew. by apply Hnew.
  - intros d a. pose proof (routes_ok_chain d a m2 Hok2) as Hc. destruct (interceptor_chain d a m2) as [c m2''].
    destruct Hc as (_ & _ & _ & ->). cbn [fst]. intros (r & -> & Hr)%list_elem_of_fmap.
    apply compute_chain_exact in Hr as (Hr & _); [|by apply Hok2]. rewrite Er2 in Hr.
    by apply list_elem_of_filter in Hr as [? _].
  - intros r Hp. rewrite Er2, list_elem_of_filter, Er, elem_of_app. rewrite Forall_forall in Hnew.
    destruct replace; rewrite ?list_elem_of_filter; naive_solver.
Qed.
End route_histories.

(** ** Concrete tables *)
Module RouteDemo.
#[local] Existing Instance plain_repr.
Definition known (_ : string) : bool := true.
Definition raw (d a : string) : pyval := PDict [("device_id", PStr d); ("action", PStr a)].
Definition ops : list rop :=
  [RRegister "interlock" (PList [raw "laser" "set"; raw " laser" "set "]) false; RChain "laser" "set";
   RRegister "audit" (PList [raw "*" "set"]) false; RChain "laser" "set"; RChain "laser" "get"].
Definition table : route_mgr := foldl (fun m op => rapply known op m) (empty_table 2048) ops.

Lemma table_reached : rreach known 2048 table.
Proof.
  unfold table, ops. cbn [foldl].
  repeat (apply rreach_step; [|first [done | eexists; vm_compute; reflexivity]]). apply rreach_init.
Qed.

Lemma interceptor_chain_exact_witness :
  (rt_process_id <$> fst (interceptor_chain "laser" "set" table)) = ["interlock"; "audit"] /\
  (forall r, r ∈ fst (interceptor_chain "laser" "set" table) <->
             oldest_match (routes (rm_state table)) "laser" "set" r).
Proof.
  split; [by vm_compute|].
  pose proof (interceptor_chain_exact known 2048 table "laser" "set" table_reached) as H.
  destruct (interceptor_chain "laser" "set" table) as [l m']. exact (proj1 H).
Defined.

Lemma registration_takes_effect_witness :
  let m1 := snd (register_command_interceptor_routes known "limits" (PList [raw "laser" "*"]) false table) in
  "limits" ∈ (rt_process_id <$> fst (interceptor_chain "laser" "set" m1)).
Proof.
  refine (proj1 (registration_takes_effect known 2048 table "limits" [raw "laser" "*"] false
            [route_payload (mkRoute "limits" "laser" "*" 3)] table_reached _) (raw "laser" "*")
            "laser" "*" "laser" "set" _ _ _ _).
  - by vm_compute.
  - left.
  - by vm_compute.
  - by right.
  - by left.
Defined.

(** A registration that raises half-way keeps the routes it has added but
    not the invalidation: a chain that was cached before still omits them. *)
Example failed_registration_leaves_stale_chain :
  let '(res, m1) := register_command_interceptor_routes known "limits"
                      (PList [raw "laser" "set"; PNone]) false table in
  res = Err (TypeError "route must be an object") /\
  (rt_process_id <$> routes (rm_state m1)) = ["interlock"; "audit"; "limits"] /\
  (rt_process_id <$> fst (interceptor_chain "laser" "set" m1)) = ["interlock"; "audit"] /\
  (rt_process_id <$> compute_chain (routes (rm_state m1)) "laser" "set") = ["interlock"; "audit"; "limits"].
Proof. by vm_compute. Qed.

(** One interceptor that caps a parameter, and a later one that rejects
    with a textual error, which raises. *)
Definition call (pid : string) (req : pyval) (w : unit) : CallResult * unit :=
  (if String.eqb pid "audit"
   then ("ok", PDict [("allow", PBool true);
                      ("command", PDict [("params", PDict [("mw", PInt 5)])])], None)
   else ("ok", PDict [("allow", PBool false); ("error", PStr "closed")], None), tt).
Definition go (chain : list CommandInterceptorRoute) :=
  apply_command_interceptor_chain (fun _ _ => true) call (fun _ => 0%Q)
    [("device_id", PStr "laser"); ("action", PStr "set"); ("params", PDict [("mw", PInt 9)])] chain
    PNone PNone true (mkIst tt []).

Example audit_rewrites_params :
  fst (go [mkRoute "audit" "*" "set" 1]) =
    Ok (true, Some (command_of "laser" "set" (PDict [("mw", PInt 5)])), None).
Proof. by vm_compute. Qed.

Example textual_rejection_raises :
  exists x, fst (go [mkRoute "audit" "*" "set" 1; mkRoute "interlock" "laser" "set" 2]) = Err (AttributeError x).
Proof. by eexists; vm_compute. Qed.
End RouteDemo.
