(* ===== verification/Interlock.v ===== *)
(** * The interlock process ([processes/interlock.py])

    Rules that allow, reject or rewrite a command before it reaches its
    device: parsing of rulesets, evaluation of one rule, the process with its
    tables of rulesets and of disabled rules, and its RPC handlers.  The
    manager, the clocks, the YAML loader and the file system are the
    environment. *)
From S2P Require Import Prelude PyVal PyNum PyOps Expressions Conditions ProcessBase RulesCommon.
#[local] Open Scope Z_scope.

(** ** Rules *)
Record Rule := mkRule {
  ru_rule_id : string;
  ru_name : string;
  ru_device_id : string;
  ru_action : string;
  ru_telemetry : list TelemetryBinding;
  ru_condition : pyval;
  ru_on_block_message : option string;
  ru_on_block_code : option string;
  ru_allow_transform_params : option dict
}.

Record Ruleset := mkRuleset {
  rs_interceptor_id : string;
  rs_defaults_max_age_s : pyfloat;
  rs_rules : list Rule
}.

Record RulesetEntry := mkEntry {
  re_ruleset : Ruleset;
  re_enabled : bool;
  re_source : option string
}.

#[export] Instance entry_eta : Eta RulesetEntry := fun e =>
  mkEntry (re_ruleset e) (re_enabled e) (re_source e).

Section parse.
Context `{!PyRepr}.

(** [None], a string, or [str(x)] *)
Definition optional_text (v : pyval) : option string :=
  match v with PNone => None | PStr s => Some s | _ => Some (py_str v) end.

Definition rule_path (i : Z) (rest : string) : string := "rules[" +:+ str_Z i +:+ "]" +:+ rest.
Definition rule_parts (i : Z) (ks : list string) : list path_part := Key "rules" :: Idx i :: (Key <$> ks).

Definition _parse_on_block (rule_raw : dict) (i : Z) : result (option string * option string) :=
  on_block ← optional_dict (dget rule_raw "on_block") (rule_parts i ["on_block"]);
  Ok (optional_text (dget on_block "message"), optional_text (dget on_block "code")).

Definition _parse_allow_transform_params (rule_raw : dict) (i : Z) : result (option dict) :=
  if negb (dhas rule_raw "allow_transform") || is_none (dget rule_raw "allow_transform") then Ok None
  else
    at_ ← require_dict (dget rule_raw "allow_transform") (rule_parts i ["allow_transform"]);
    if dhas at_ "device_id" || dhas at_ "action" then
      Err (ConfigError (rule_path i ".allow_transform") "device_id/action rewrites are not supported")
    else
      match filter (fun k => k ≠ "params") (od_keys at_) with
      | _ :: _ =>
          Err (ConfigError (rule_path i ".allow_transform") "only params are supported in allow_transform")
      | [] =>
          match dget at_ "params" with
          | PNone => Ok (Some [])
          | PDict p => Ok (Some p)
          | _ => Err (ConfigError (rule_path i ".allow_transform.params") "params must be an object/dict")
          end
      end.

Definition _parse_interlock_rule (default_max_age_s : pyfloat) (i : Z) (rule_raw : dict) : result Rule :=
  name ← require_str (dget rule_raw "name") (rule_parts i ["name"]);
  match_ ← require_dict (dget rule_raw "match") (rule_parts i ["match"]);
  device_id ← require_str (dget match_ "device_id") (rule_parts i ["match"; "device_id"]);
  action ← require_str (dget match_ "action") (rule_parts i ["match"; "action"]);
  inputs ← optional_dict (dget rule_raw "inputs") (rule_parts i ["inputs"]);
  telemetry ← parse_telemetry_bindings inputs (rule_parts i ["inputs"]) default_max_age_s false true;
  if negb (dhas rule_raw "condition") then
    Err (ConfigError (rule_path i ".condition") "condition is required")
  else
    '(message, code) ← _parse_on_block rule_raw i;
    transform ← _parse_allow_transform_params rule_raw i;
    Ok (mkRule ("r" +:+ str_Z i) name device_id action telemetry (dget rule_raw "condition")
          message code transform).

(** [except ConfigError as e: raise ValueError(f"{source}: {e}")] *)
Definition with_source {A} (source : string) (r : result A) : result A :=
  match r with
  | Err (ConfigError p m) => Err (ValueError (source +:+ ": " +:+ exc_str (ConfigError p m)))
  | _ => r
  end.

Definition _parse_interlock_rules (rules_raw : list dict) (default_max_age_s : pyfloat)
    (source : string) : result (list Rule) :=
  mapi_result (fun i raw => with_source source (_parse_interlock_rule default_max_age_s i raw)) 0 rules_raw.

Definition _parse_ruleset (raw : pyval) (source : string) : result Ruleset :=
  obj ← require_dict raw [];
  _ ← parse_version obj false;
  interceptor_id ← require_str (dget obj "interceptor_id") [Key "interceptor_id"];
  defaults ← optional_dict (dget obj "defaults") [Key "defaults"];
  max_age ← coerce_float (dget defaults "max_age_s") (Some (FFin 2));
  rules_raw ← require_list_of_dicts (dget obj "rules") [Key "rules"];
  rules ← _parse_interlock_rules rules_raw max_age source;
  Ok (mkRuleset interceptor_id max_age rules).
End parse.

(** The distinct routes of a list of (device, action) pairs, in order. *)
Fixpoint distinct_routes (seen : list (string * string)) (l : list (string * string))
    : list (string * string) :=
  match l with
  | [] => []
  | k :: r => if bool_decide (k ∈ seen) then distinct_routes seen r else k :: distinct_routes (k :: seen) r
  end.

Definition rule_route (r : Rule) : string * string := (ru_device_id r, ru_action r).
Definition route_json (k : string * string) : pyval :=
  PDict [("device_id", PStr (fst k)); ("action", PStr (snd k))].

Definition _collect_routes (rulesets : list Ruleset) : list pyval :=
  route_json <$> distinct_routes [] (rule_route <$> (rulesets ≫= rs_rules)).

Definition _check_request_command (req : dict) : pyval :=
  match dget req "command" with
  | PNone => match dget req "params" with PDict p => dget p "command" | _ => PNone end
  | c => c
  end.

Definition _rule_matches (r : Rule) (device_id action : string) : bool :=
  if negb (String.eqb (ru_device_id r) "*") && negb (String.eqb (ru_device_id r) device_id) then false
  else if negb (String.eqb (ru_action r) "*") && negb (String.eqb (ru_action r) action) then false
  else true.

(** ** Telemetry of one rule *)
Definition or_null (s : string) : pyval := opt_str (or_none s).

Definition _telemetry_error (code message : string) (b : TelemetryBinding) (sample : option dict) : dict :=
  let details := [("binding", PStr (tb_alias b)); ("device", or_null (tb_device_id b));
                  ("process", opt_str (tb_process_id b)); ("signal", PStr (tb_signal b));
                  ("max_age_s", PFloat (tb_max_age_s b))] in
  let details := match sample with
                 | Some s => details ++ [("value", dget s "value"); ("quality", dget s "quality");
                                         ("t_mono", dget s "t_mono"); ("t_wall", dget s "t_wall");
                                         ("age_s", dget s "age_s")]
                 | None => details
                 end in
  [("code", PStr code); ("message", PStr message); ("details", PDict details)].

Definition _resolve_binding_age_s (sample : dict) (now_mono : Q) : option pyfloat :=
  let number v := match py_float v with Ok f => Some f | Err _ => None end in
  match dget sample "age_s", dget sample "t_mono" with
  | PNone, PNone => None
  | PNone, t => fsub (FFin now_mono) <$> number t
  | a, _ => number a
  end.

Definition _optional_binding_env `{!PyRepr} (b : TelemetryBinding) (sample : option dict) (ok : bool)
    (reason : string) (age_s : option pyfloat) : dict :=
  let field k := match sample with Some s => dget s k | None => PNone end in
  [("available", PBool (match sample with Some _ => true | None => false end)); ("ok", PBool ok);
   ("value", field "value"); ("units", field "units");
   ("quality", PStr (match sample with
                     | Some s => py_str (dget_or s "quality" (PStr "MISSING"))
                     | None => "MISSING"
                     end));
   ("t_mono", field "t_mono"); ("t_wall", field "t_wall");
   ("age_s", from_option PFloat PNone age_s); ("reason", PStr reason);
   ("device", or_null (tb_device_id b)); ("process", opt_str (tb_process_id b));
   ("signal", PStr (tb_signal b)); ("max_age_s", PFloat (tb_max_age_s b))].

(** The environment entry of a binding whose sample is accepted. *)
Definition accepted_binding_env (b : TelemetryBinding) (sample : dict) (quality : string)
    (age_s : pyfloat) : dict :=
  [("available", PBool true); ("ok", PBool true); ("value", dget sample "value");
   ("units", dget sample "units"); ("quality", PStr quality); ("t_mono", dget sample "t_mono");
   ("t_wall", dget sample "t_wall"); ("age_s", PFloat age_s); ("reason", PNone);
   ("device", or_null (tb_device_id b)); ("process", opt_str (tb_process_id b));
   ("signal", PStr (tb_signal b)); ("max_age_s", PFloat (tb_max_age_s b))].

(** [f"{x:.3f}"] *)
Definition fmt3 (f : pyfloat) : string :=
  match f with FFin q => fixed 3 q | FInf n => if n then "-inf" else "inf" | FNan => "nan" end.

Abbreviation getter := (string -> string -> option dict).

Definition _sample_for_binding (b : TelemetryBinding) (telemetry_getter : getter)
    (process_telemetry_getter : option getter) : option dict :=
  match tb_process_id b with
  | Some p => match process_telemetry_getter with Some g => g p (tb_signal b) | None => None end
  | None => telemetry_getter (tb_device_id b) (tb_signal b)
  end.

Section evaluate.
Context `{!PyRepr, !PyArith, !PyExpr}.

(** One binding: its environment entry, or the error of a required one. *)
Definition resolve_binding (b : TelemetryBinding) (sample : option dict) (now_mono : Q) : dict + dict :=
  let name := source_id b +:+ "." +:+ tb_signal b in
  let unusable code what reason sample age :=
    if tb_required b then inr (_telemetry_error code (what +:+ " for " +:+ name) b sample)
    else inl (_optional_binding_env b sample false reason age) in
  match sample with
  | None => unusable "TELEMETRY_MISSING" "Telemetry missing" "missing" None None
  | Some s =>
      let quality := py_str (dget_or s "quality" (PStr "MISSING")) in
      if negb (String.eqb (upper quality) "OK") then
        unusable "TELEMETRY_NOT_OK" "Telemetry not OK" ("quality=" +:+ quality) (Some s)
          (_resolve_binding_age_s s now_mono)
      else
        match _resolve_binding_age_s s now_mono with
        | None => unusable "TELEMETRY_MISSING" "Telemetry missing timestamp" "missing timestamp" (Some s) None
        | Some age =>
            if fltb (tb_max_age_s b) age then
              match unusable "TELEMETRY_STALE" "Telemetry stale" ("stale: age=" +:+ fmt3 age +:+ "s")
                      (Some s) (Some age) with
              | inr err => inr (match dget err "details" with
                                | PDict d => od_set err "details" (PDict (od_set d "age_s" (PFloat age)))
                                | _ => err
                                end)
              | r => r
              end
            else inl (accepted_binding_env b s quality age)
        end
  end.

Fixpoint resolve_bindings (bs : list TelemetryBinding) (telemetry_getter : getter)
    (process_telemetry_getter : option getter) (now_mono : Q) (env : Env) : Env * option dict :=
  match bs with
  | [] => (env, None)
  | b :: rest =>
      match resolve_binding b (_sample_for_binding b telemetry_getter process_telemetry_getter) now_mono with
      | inr err => (env, Some err)
      | inl e => resolve_bindings rest telemetry_getter process_telemetry_getter now_mono
                   (od_set env (tb_alias b) (PDict e))
      end
  end.

Definition _resolve_interlock_telemetry_env (rule : Rule) (telemetry_getter : getter)
    (process_telemetry_getter : option getter) (now_mono : Q) : Env * option dict :=
  resolve_bindings (ru_telemetry rule) telemetry_getter process_telemetry_getter now_mono [].

(** A condition that raises counts as false; the diagnostic callback may
    change the state but not the verdict. *)
Definition _evaluate_interlock_condition {S} (rule : Rule) (env : Env)
    (on_condition_error : option (pyexc -> pyM S unit)) (s : S) : bool * S :=
  match eval_condition env (ru_condition rule) with
  | Ok b => (b, s)
  | Err e => (false, match on_condition_error with Some cb => snd (cb e s) | None => s end)
  end.

Definition or_else (o : option string) (dflt : string) : string :=
  default dflt (o ≫= or_none).

Definition _condition_failed_error (rule : Rule) : dict :=
  [("code", PStr (or_else (ru_on_block_code rule) "CONDITION_FAILED"));
   ("message", PStr (or_else (ru_on_block_message rule) "Command rejected by interceptor"));
   ("details", PDict [])].

(** [dict(x)]; a sequence of pairs is accepted, as the constructor does. *)
Definition py_dict (v : pyval) : result dict :=
  match v with
  | PDict d => Ok d
  | _ =>
      items ← py_iter v;
      pairs ← mapM unpack2 items;
      foldl (fun acc '(k, x) => d ← acc; match k with PStr s => Ok (od_set d s x) | _ => type_error end)
        (Ok []) pairs
  end.

(** The rewritten command and the error; neither when the rule has no
    transform. *)
Definition _apply_interlock_transform (rule : Rule) (cmd : dict) (env : Env) : option dict * option dict :=
  match ru_allow_transform_params rule with
  | None => (None, None)
  | Some params =>
      let r := rendered ← render_templates env (PDict params);
               match rendered with
               | PDict new => old ← py_dict (dget_or cmd "params" (PDict [])); Ok (dict_update old new)
               | _ => Err (TypeError "allow_transform.params must be a dict")
               end in
      match r with
      | Ok new_params =>
          (Some [("device_id", dget cmd "device_id"); ("action", dget cmd "action");
                 ("params", PDict new_params)], None)
      | Err e =>
          (None, Some [("code", PStr "TRANSFORM_ERROR");
                       ("message", PStr (or_else (Some (exc_str e)) "Transform failed"));
                       ("details", PDict [])])
      end
  end.

Definition _build_interlock_env (cmd : dict) : Env :=
  [("params", dget_or cmd "params" (PDict [])); ("device_id", dget cmd "device_id");
   ("action", dget cmd "action")].

(** The verdict with the new command of a transform and the error of a
    rejection. *)
Inductive verdict :=
| Allow
| Reject (error : dict)
| Transform (new_cmd : dict).

Definition evaluate_interlock_rule {S} (rule : Rule) (cmd : dict) (telemetry_getter : getter)
    (process_telemetry_getter : option getter) (now_mono : Q)
    (on_condition_error : option (pyexc -> pyM S unit)) (s : S) : verdict * S :=
  let env := _build_interlock_env cmd in
  match _resolve_interlock_telemetry_env rule telemetry_getter process_telemetry_getter now_mono with
  | (_, Some err) => (Reject err, s)
  | (telemetry_env, None) =>
      let env := dict_update env telemetry_env in
      let '(cond_ok, s) := _evaluate_interlock_condition rule env on_condition_error s in
      if negb cond_ok then (Reject (_condition_failed_error rule), s)
      else
        match _apply_interlock_transform rule cmd env with
        | (_, Some err) => (Reject err, s)
        | (Some new_cmd, None) => (Transform new_cmd, s)
        | (None, None) => (Allow, s)
        end
  end.
End evaluate.
