(* ===== verification/InterlockProcess.v ===== *)
(** * The interlock process: state and RPC handlers ([processes/interlock.py])

    The tables of rulesets and of rule switches, the registration of routes
    with the manager after every change and its undoing when the manager
    refuses, and the check of a command.  The outside world [W] holds the
    manager, the telemetry caches of the client and the clock; error events
    handed to the background executor are queued. *)
From S2P Require Import Prelude PyVal PyNum PyOps Expressions Conditions ProcessBase RulesCommon Interlock.
#[local] Open Scope Z_scope.

Abbreviation rule_key := (string * string)%type.

Record interlock {W : Type} := mkInterlock {
  il_world : W;
  il_process_id : string;
  il_entries : list (string * RulesetEntry);
  il_order : list string;
  il_rule_enabled : list (rule_key * bool);
  il_error_last : list (rule_key * Q);
  il_error_queue : list dict;
  il_executor_up : bool;
  il_progress : progress;
  il_stop : bool
}.
Arguments interlock : clear implicits.

#[export] Instance interlock_eta {W} : Eta (interlock W) := fun s =>
  mkInterlock W (il_world s) (il_process_id s) (il_entries s) (il_order s) (il_rule_enabled s)
    (il_error_last s) (il_error_queue s) (il_executor_up s) (il_progress s) (il_stop s).

(** What the process finds around it. *)
Class InterlockWorld (W : Type) := {
  manager_call : pyval -> W -> result pyval * W;      (* [ManagerClient.call]; [PNone] on a timeout *)
  latest : W -> string -> string -> option dict;      (* [get_latest] *)
  latest_process : W -> string -> string -> option dict;
  clock : W -> Q * W;                                 (* [time.monotonic()] *)
  yaml_file : string -> W -> result pyval * W;
  yaml_text : string -> string -> result pyval;
  resolve_path : string -> string;                    (* [expanduser().resolve()] *)
  glob : string -> string -> W -> list string         (* sorted paths of a pattern *)
}.

(** ** Rule switches *)
Definition _rule_key (interceptor_id rule_id : string) : rule_key := (interceptor_id, rule_id).

Definition drop_states (interceptor_id : string) (m : list (rule_key * bool)) : list (rule_key * bool) :=
  foldl (fun acc k => if bool_decide (fst k = interceptor_id) then od_pop acc k else acc) m (od_keys m).

Definition default_states (interceptor_id : string) (rs : Ruleset) (m : list (rule_key * bool))
    : list (rule_key * bool) :=
  foldl (fun acc r => od_set acc (_rule_key interceptor_id (ru_rule_id r)) true)
    (drop_states interceptor_id m) (rs_rules rs).

Section process.
Context `{!PyRepr, !PyArith, !PyExpr} {W : Type} `{!InterlockWorld W}.
Context (exc_repr : pyexc -> string).
#[local] Abbreviation st := (interlock W).

Definition _drop_rule_states (interceptor_id : string) (s : st) : st :=
  s <| il_rule_enabled := drop_states interceptor_id (il_rule_enabled s) |>.

Definition _set_default_rule_states (interceptor_id : string) (rs : Ruleset) (s : st) : st :=
  s <| il_rule_enabled := default_states interceptor_id rs (il_rule_enabled s) |>.

Definition _rule_enabled_state (s : st) (interceptor_id rule_id : string) : bool :=
  default true (od_get (il_rule_enabled s) (_rule_key interceptor_id rule_id)).

Definition _iter_ruleset_entries (enabled_only : bool) (s : st) : list RulesetEntry :=
  omap (fun i => match od_get (il_entries s) i with
                 | Some e => if enabled_only && negb (re_enabled e) then None else Some e
                 | None => None
                 end) (il_order s).

(** The enabled rules in the order they are checked, with their ruleset. *)
Definition enabled_rules (s : st) : list (string * Rule) :=
  _iter_ruleset_entries true s ≫= fun e =>
    let i := rs_interceptor_id (re_ruleset e) in
    (fun r => (i, r)) <$> filter (fun r => _rule_enabled_state s i (ru_rule_id r) = true)
                            (rs_rules (re_ruleset e)).

Definition _routes_for_enabled_rules (s : st) : list pyval :=
  route_json <$> distinct_routes [] (rule_route <$> (enabled_rules s).*2).

Definition call_manager (req : pyval) : pyM st pyval := fun s =>
  let '(r, w) := manager_call req (il_world s) in (r, s <| il_world := w |>).

(** ** Condition errors: at most one event per key and period *)
Definition _rule_error_period_s : Q := 30.

Definition _condition_error_callback (interceptor_id rule_name : string) (exc : pyexc) : pyM st unit :=
  fun s =>
    let '(now, w) := clock (il_world s) in
    let s := s <| il_world := w |> in
    let key := (interceptor_id, rule_name) in
    let limited := match od_get (il_error_last s) key with
                   | Some last => Qltb (now - last) _rule_error_period_s
                   | None => false
                   end in
    if limited then (Ok tt, s)
    else
      let s := s <| il_error_last := od_set (il_error_last s) key now |> in
      let payload := [("process_id", PStr (il_process_id s)); ("interceptor_id", PStr interceptor_id);
                      ("rule", PStr rule_name); ("error", PStr (exc_repr exc))] in
      (Ok tt, if il_executor_up s then s <| il_error_queue := il_error_queue s ++ [payload] |> else s).

(** ** Registration with the manager *)
Definition _register_routes : pyM st unit := fun s =>
  let payload := PDict [("type", PStr "manager.interceptors.register");
                        ("process_id", PStr (il_process_id s));
                        ("routes", PList (_routes_for_enabled_rules s)); ("replace", PBool true)] in
  match call_manager payload s with
  | (Err e, s) => (Err e, s)
  | (Ok PNone, s) => (Err (RuntimeError "Failed to register interlock routes: no response"), s)
  | (Ok resp, s) =>
      let ok := match resp with PDict d => truthy (dget_or d "ok" (PBool false)) | _ => false end in
      if ok then (Ok tt, s)
      else (Err (RuntimeError ("Failed to register interlock routes: " +:+ py_str resp)), s)
  end.

Definition _unregister_command_interceptor_routes : pyM st unit := fun s =>
  if negb (nonempty (il_process_id s)) then
    (Err (RuntimeError "Cannot unregister command interceptor routes without process_id"), s)
  else
    let req := PDict [("type", PStr "manager.interceptors.unregister");
                      ("process_id", PStr (il_process_id s))] in
    match call_manager req s with
    | (Err e, s) => (Err e, s)
    | (Ok resp, s) =>
        let ok := match resp with PDict d => truthy (dget_or d "ok" (PBool false)) | _ => false end in
        if ok then (Ok tt, s)
        else (Err (RuntimeError ("Failed to unregister command interceptor routes: " +:+ py_str resp)), s)
    end.

(** The [finally] block runs whether or not the manager answered. *)
Definition _graceful_stop : pyM st unit := fun s =>
  let '(r, s) := _unregister_command_interceptor_routes s in
  (r, s <| il_executor_up := false |> <| il_stop := true |>).

(** ** Loading rulesets *)
Definition _load_ruleset (path : string) : pyM st Ruleset := fun s =>
  let '(raw, w) := yaml_file path (il_world s) in
  (raw ≫= fun v => _parse_ruleset v path, s <| il_world := w |>).

Definition _load_ruleset_text (text source : string) : result Ruleset :=
  raw ← yaml_text text source; _parse_ruleset raw source.

(** [rules] and [rules_dir] of the constructor *)
Definition resolve_rule_paths (rules : option (list string)) (rules_dir : option string) (w : W)
    : list string :=
  match rules with Some l => resolve_path <$> l | None => [] end ++
  match rules_dir with
  | Some d => glob (resolve_path d) "*.yml" w ++ glob (resolve_path d) "*.yaml" w
  | None => []
  end.

Fixpoint collect_rulesets (paths : list string) : pyM st (list RulesetEntry) :=
  match paths with
  | [] => mret []
  | p :: rest =>
      rs ← _load_ruleset p;
      more ← collect_rulesets rest;
      mret (mkEntry rs true (Some p) :: more)
  end.

Definition _normalize_rulesets_arg (rulesets : option (list RulesetEntry)) (rules : option (list string))
    (rules_dir : option string) : pyM st (list RulesetEntry) := fun s =>
  match rulesets with
  | Some l =>
      match rules, rules_dir with
      | None, None => (Ok l, s)
      | _, _ => (Err (ValueError "pass either rulesets= or rules=/rules_dir=, not both"), s)
      end
  | None =>
      match resolve_rule_paths rules rules_dir (il_world s) with
      | [] => (Err (ValueError "no rules provided: pass rulesets=, rules=, or rules_dir="), s)
      | paths => collect_rulesets paths s
      end
  end.

(** The constructor's loop over the rulesets. *)
Definition add_ruleset (entry : RulesetEntry) : pyM st unit := fun s =>
  let i := rs_interceptor_id (re_ruleset entry) in
  match od_get (il_entries s) i with
  | Some _ => (Err (ValueError ("Duplicate interceptor_id " +:+ repr_str i)), s)
  | None =>
      let s := s <| il_entries := od_set (il_entries s) i entry |> <| il_order := il_order s ++ [i] |> in
      (Ok tt, _set_default_rule_states i (re_ruleset entry) s)
  end.

Definition blank (w : W) (process_id : string) : st :=
  mkInterlock W w process_id [] [] [] [] [] true progress0 false.

Definition interlock_init (w : W) (process_id : string) (rulesets : option (list RulesetEntry))
    (rules : option (list string)) (rules_dir : option string) : result unit * st :=
  (l ← _normalize_rulesets_arg rulesets rules rules_dir;
   _ ← forM add_ruleset l;
   _register_routes) (blank w process_id).

(** ** Replies *)
Definition reply_ok (req_id : pyval) (res : dict) : dict :=
  [("request_id", req_id); ("ok", PBool true); ("result", PDict res)].
Definition reply_err (req_id : pyval) (err : dict) : dict :=
  [("request_id", req_id); ("ok", PBool false); ("error", PDict err)].
Definition reply_code (req_id : pyval) (code : string) : dict := reply_err req_id [("code", PStr code)].
Definition reply_exc (req_id : pyval) (code : string) (e : pyexc) : dict :=
  reply_err req_id [("code", PStr code); ("message", PStr (exc_str e))].

(** [req.get("params", {}) or {}] when it is a dict *)
Definition request_params (req : dict) : option dict :=
  match py_or (dget_or req "params" (PDict [])) (PDict []) with PDict p => Some p | _ => None end.

Definition binding_status (b : TelemetryBinding) : pyval :=
  PDict [("as", PStr (tb_alias b)); ("device_id", or_null (tb_device_id b));
         ("process_id", opt_str (tb_process_id b)); ("signal", PStr (tb_signal b));
         ("max_age_s", PFloat (tb_max_age_s b)); ("required", PBool (tb_required b))].

Definition _rule_status_payload (s : st) (interceptor_id : string) (r : Rule) : pyval :=
  PDict [("rule_id", PStr (ru_rule_id r)); ("name", PStr (ru_name r));
         ("enabled", PBool (_rule_enabled_state s interceptor_id (ru_rule_id r)));
         ("match", route_json (rule_route r));
         ("telemetry", PList (binding_status <$> ru_telemetry r)); ("condition", ru_condition r);
         ("on_block", PDict [("code", opt_str (ru_on_block_code r));
                             ("message", opt_str (ru_on_block_message r))]);
         ("has_allow_transform", PBool (bool_decide (is_Some (ru_allow_transform_params r))))].

Definition entry_item (s : st) (with_rules : bool) (e : RulesetEntry) : pyval :=
  let rs := re_ruleset e in
  let i := rs_interceptor_id rs in
  let on := length (filter (fun r => _rule_enabled_state s i (ru_rule_id r) = true) (rs_rules rs)) in
  PDict ([("interceptor_id", PStr i); ("enabled", PBool (re_enabled e)); ("source", opt_str (re_source e));
          ("rule_count", PInt (Z.of_nat (length (rs_rules rs)))); ("enabled_rule_count", PInt (Z.of_nat on));
          ("routes", PList (_collect_routes [rs]))] ++
         (if with_rules then [("rules", PList (_rule_status_payload s i <$> rs_rules rs))] else [])).

Definition listing (with_rules : bool) (req : dict) : pyM st dict := fun s =>
  (Ok (reply_ok (dget req "request_id")
         [("interceptors", PList (entry_item s with_rules <$> _iter_ruleset_entries false s))]), s).

Definition _rpc_interlock_list : dict -> pyM st dict := listing false.
Definition _rpc_interlock_status : dict -> pyM st dict := listing true.

Definition _interlock_capability_members : list MemberSpec :=
  let id := param "interceptor_id" true PNone (Some "str") in
  let rule := param "rule_id" true PNone (Some "str") in
  _with_common_capabilities
    [method "interlock.list" None (Some "List loaded interceptors.");
     method "interlock.status" None (Some "List loaded interceptors with per-rule enabled state.");
     method "interlock.load"
       (Some [param "path" false PNone (Some "str"); param "text" false PNone (Some "str");
              param "replace" false (PBool true) (Some "bool"); param "enable" false PNone (Some "bool");
              param "source" false PNone (Some "str")])
       (Some "Load/replace an interceptor ruleset.");
     method "interlock.enable" (Some [id]) (Some "Enable an interceptor ruleset.");
     method "interlock.disable" (Some [id]) (Some "Disable an interceptor ruleset.");
     method "interlock.enable_rule" (Some [id; rule]) (Some "Enable one rule inside an interceptor ruleset.");
     method "interlock.disable_rule" (Some [id; rule]) (Some "Disable one rule inside an interceptor ruleset.");
     method "interlock.enable_all" None (Some "Enable all interceptors.");
     method "interlock.disable_all" None (Some "Disable all interceptors.")].

Definition _rpc_interlock_capabilities (req : dict) : pyM st dict := fun s =>
  (Ok [("request_id", dget req "request_id"); ("ok", PBool true);
       ("result", capabilities_payload _interlock_capability_members)], s).

(** ** Changing the tables

    [guarded req_id undo]: register the routes of the changed state; when
    that fails undo the change and report it. *)
Definition guarded (req_id : pyval) (undo : st -> st) (res : dict) : pyM st dict := fun s =>
  match _register_routes s with
  | (Ok _, s) => (Ok (reply_ok req_id res), s)
  | (Err e, s) => (Ok (reply_exc req_id "route_update_failed" e), undo s)
  end.

(** The ruleset, its source, [replace] and [enable] of a load request, or
    the reply that refuses it. *)
Definition _rpc_interlock_load_prepare (req_id : pyval) (params : dict)
    : pyM st ((Ruleset * string * bool * pyval) + dict) := fun s =>
  let path := dget params "path" in
  let text := dget params "text" in
  let replace := truthy (dget_or params "replace" (PBool true)) in
  let enable_param := dget params "enable" in
  if Bool.eqb (is_none path) (is_none text) then
    (Ok (inr (reply_err req_id [("code", PStr "invalid_load"); ("message", PStr "path or text required")])), s)
  else
    let '(loaded, source, s) :=
      if negb (is_none path) then
        let '(r, s) := _load_ruleset (resolve_path (py_str path)) s in (r, py_str path, s)
      else
        let source := py_str (py_or (dget params "source") (PStr "rpc")) in
        (_load_ruleset_text (py_str text) source, source, s) in
    match loaded with
    | Ok rs => (Ok (inl (rs, source, replace, enable_param)), s)
    | Err e => (Ok (inr (reply_exc req_id "load_failed" e)), s)
    end.

Definition undo_load (interceptor_id : string) (existing : option RulesetEntry)
    (prev_rule_states : list (string * bool)) (s : st) : st :=
  let s := match existing with
           | None => s <| il_entries := od_pop (il_entries s) interceptor_id |>
                       <| il_order := filter (fun i => i ≠ interceptor_id) (il_order s) |>
           | Some e => s <| il_entries := od_set (il_entries s) interceptor_id e |>
           end in
  let s := _drop_rule_states interceptor_id s in
  s <| il_rule_enabled := foldl (fun m '(rule_id, b) => od_set m (_rule_key interceptor_id rule_id) b)
                            (il_rule_enabled s) prev_rule_states |>.

Definition _rpc_interlock_apply_loaded_ruleset (req_id : pyval) (rs : Ruleset) (source : string)
    (replace : bool) (enable_param : pyval) : pyM st dict := fun s =>
  let i := rs_interceptor_id rs in
  let existing := od_get (il_entries s) i in
  match existing, replace with
  | Some _, false => (Ok (reply_code req_id "interceptor_exists"), s)
  | _, _ =>
      let enabled := match enable_param with
                     | PNone => match existing with Some e => re_enabled e | None => true end
                     | v => truthy v
                     end in
      let prev := omap (fun '(k, b) => if bool_decide (fst k = i) then Some (snd k, b) else None)
                    (il_rule_enabled s) in
      let s := s <| il_entries := od_set (il_entries s) i (mkEntry rs enabled (Some source)) |> in
      let s := match existing with None => s <| il_order := il_order s ++ [i] |> | Some _ => s end in
      let s := _set_default_rule_states i rs s in
      guarded req_id (undo_load i existing prev)
        [("interceptor_id", PStr i); ("enabled", PBool enabled)] s
  end.

Definition _rpc_interlock_load (req : dict) : pyM st dict :=
  let req_id := dget req "request_id" in
  match request_params req with
  | None => mret (reply_code req_id "invalid_params")
  | Some params =>
      prepared ← _rpc_interlock_load_prepare req_id params;
      match prepared with
      | inr reply => mret reply
      | inl (rs, source, replace, enable_param) =>
          _rpc_interlock_apply_loaded_ruleset req_id rs source replace enable_param
      end
  end.

Definition set_entry_enabled (i : string) (b : bool) (s : st) : st :=
  match od_get (il_entries s) i with
  | Some e => s <| il_entries := od_set (il_entries s) i (e <| re_enabled := b |>) |>
  | None => s
  end.

Definition _rpc_interlock_enable_disable (enable : bool) (req : dict) : pyM st dict := fun s =>
  let req_id := dget req "request_id" in
  match request_params req with
  | None => (Ok (reply_code req_id "invalid_params"), s)
  | Some params =>
      let i := py_str (dget_or params "interceptor_id" (PStr "")) in
      if negb (nonempty i) then (Ok (reply_code req_id "missing_interceptor_id"), s)
      else
        match od_get (il_entries s) i with
        | None => (Ok (reply_code req_id "unknown_interceptor"), s)
        | Some e => guarded req_id (set_entry_enabled i (re_enabled e))
                      [("interceptor_id", PStr i); ("enabled", PBool enable)] (set_entry_enabled i enable s)
        end
  end.

Definition set_rule_enabled (key : rule_key) (b : bool) (s : st) : st :=
  s <| il_rule_enabled := od_set (il_rule_enabled s) key b |>.

Definition _rpc_interlock_enable_rule_disable_rule (enable : bool) (req : dict) : pyM st dict := fun s =>
  let req_id := dget req "request_id" in
  match request_params req with
  | None => (Ok (reply_code req_id "invalid_params"), s)
  | Some params =>
      let i := strip (py_str (dget_or params "interceptor_id" (PStr ""))) in
      let rule_id := strip (py_str (dget_or params "rule_id" (PStr ""))) in
      if negb (nonempty i) then (Ok (reply_code req_id "missing_interceptor_id"), s)
      else if negb (nonempty rule_id) then (Ok (reply_code req_id "missing_rule_id"), s)
      else
        match od_get (il_entries s) i with
        | None => (Ok (reply_code req_id "unknown_interceptor"), s)
        | Some e =>
            if negb (existsb (fun r => String.eqb (ru_rule_id r) rule_id) (rs_rules (re_ruleset e)))
            then (Ok (reply_code req_id "unknown_rule"), s)
            else
              let key := _rule_key i rule_id in
              let prev := _rule_enabled_state s i rule_id in
              guarded req_id (set_rule_enabled key prev)
                [("interceptor_id", PStr i); ("rule_id", PStr rule_id); ("enabled", PBool enable)]
                (set_rule_enabled key enable s)
        end
  end.

Definition set_all_enabled (b : bool) (s : st) : st :=
  s <| il_entries := (fun '(i, e) => (i, e <| re_enabled := b |>)) <$> il_entries s |>.

Definition restore_enabled (prev : list (string * bool)) (s : st) : st :=
  foldl (fun s '(i, b) => set_entry_enabled i b s) s prev.

Definition _rpc_interlock_enable_all_disable_all (enable : bool) (req : dict) : pyM st dict := fun s =>
  let req_id := dget req "request_id" in
  let prev := (fun '(i, e) => (i, re_enabled e)) <$> il_entries s in
  guarded req_id (restore_enabled prev)
    [("enabled", PBool enable); ("count", PInt (Z.of_nat (length (il_entries s))))]
    (set_all_enabled enable s).

(** ** Checking a command *)
Record checking := mkChecking {
  ck_cmd : dict;
  ck_modified : bool;
  ck_rule : option string;
  ck_interceptor : option string
}.

Definition allow_reply (req_id : pyval) (c : checking) : dict :=
  let resp := [("request_id", req_id); ("ok", PBool true); ("allow", PBool true)] in
  if ck_modified c then
    dict_update resp [("command", PDict (ck_cmd c)); ("interceptor_id", opt_str (ck_interceptor c));
                      ("rule", opt_str (ck_rule c)); ("note", PStr "transformed")]
  else resp.

Definition reject_reply (req_id : pyval) (i : string) (r : Rule) (err : dict) : dict :=
  [("request_id", req_id); ("ok", PBool true); ("allow", PBool false); ("interceptor_id", PStr i);
   ("rule", PStr (ru_name r)); ("error", py_or (PDict err) (PDict [("code", PStr "CONDITION_FAILED")]))].

(** The loop over the enabled rules that match. *)
Fixpoint check_loop (req_id : pyval) (device_id action : string) (now_mono : Q)
    (rules : list (string * Rule)) (c : checking) (s : st) : dict * st :=
  match rules with
  | [] => (allow_reply req_id c, s)
  | (i, r) :: rest =>
      if negb (_rule_matches r device_id action) then check_loop req_id device_id action now_mono rest c s
      else
        match evaluate_interlock_rule r (ck_cmd c) (latest (il_world s)) (Some (latest_process (il_world s)))
                now_mono (Some (_condition_error_callback i (ru_name r))) s with
        | (Reject err, s) => (reject_reply req_id i r err, s)
        | (Transform cmd, s) =>
            check_loop req_id device_id action now_mono rest
              (mkChecking cmd true (Some (ru_name r)) (Some i)) s
        | (Allow, s) => check_loop req_id device_id action now_mono rest c s
        end
  end.

Definition _rpc_interlock_check (req : dict) : pyM st dict := fun s =>
  let req_id := dget req "request_id" in
  match _check_request_command req with
  | PDict command =>
      let device_id := py_str (dget_or command "device_id" (PStr "")) in
      let action := py_str (dget_or command "action" (PStr "")) in
      let params := dget_or command "params" (PDict []) in
      let s := s <| il_progress := _set_phase "interlock_check" (Some (device_id +:+ "." +:+ action))
                                     (il_progress s) |> in
      if negb (nonempty device_id) || negb (nonempty action) || negb (is_dict params)
      then (Ok (reply_code req_id "invalid_command"), s)
      else
        let cmd := [("device_id", PStr device_id); ("action", PStr action); ("params", params)] in
        let '(now_mono, w) := clock (il_world s) in
        let s := s <| il_world := w |> in
        let '(resp, s) := check_loop req_id device_id action now_mono (enabled_rules s)
                            (mkChecking cmd false None None) s in
        (Ok resp, s)
  | _ => (Ok (reply_code req_id "invalid_command"), s)
  end.

(** ** Dispatch *)
Definition handlers : list (string * (dict -> pyM st dict)) :=
  [("process.capabilities", _rpc_interlock_capabilities);
   ("interlock.list", _rpc_interlock_list);
   ("interlock.status", _rpc_interlock_status);
   ("interlock.load", _rpc_interlock_load);
   ("interlock.enable", _rpc_interlock_enable_disable true);
   ("interlock.disable", _rpc_interlock_enable_disable false);
   ("interlock.enable_rule", _rpc_interlock_enable_rule_disable_rule true);
   ("interlock.disable_rule", _rpc_interlock_enable_rule_disable_rule false);
   ("interlock.enable_all", _rpc_interlock_enable_all_disable_all true);
   ("interlock.disable_all", _rpc_interlock_enable_all_disable_all false);
   ("command_interceptor.check", _rpc_interlock_check)].

Definition _rpc_registry : RpcDispatchRegistry (dict -> pyM st dict) :=
  build_registry handlers [("interlock.get_status", "interlock.status")].

Definition _handle_rpc (req : dict) : pyM st dict :=
  common ← _handle_common_rpc _graceful_stop exc_str req;
  match common with
  | Some reply => mret reply
  | None =>
      match dispatch_with_canonical _rpc_registry req with
      | Some (h, req') => h req'
      | None => mret (rpc_unknown (PDict req))
      end
  end.
End process.
