(* ===== verification/InterlockTheorems.v ===== *)
(** * The guarantees of the interlock

    The verdict on a command, the undoing of a change the manager refuses,
    the invariant of the tables, and the interplay with the manager's routes
    and interceptor chain. *)
From S2P Require Import Prelude PyVal PyNum PyOps Expressions Conditions ProcessBase RulesCommon.
From S2P Require Import InterceptorRoutes CommandInterceptors InterceptorTheorems Interlock InterlockProcess.
#[local] Open Scope Z_scope.

(** ** One rule *)
Section rules.
Context `{HR : !PyRepr, HA : !PyArith, HE : !PyExpr} {W : Type} `{HW : !InterlockWorld W}.

(** The sample of a binding is there, of good quality and not too old. *)
Definition usable_sample (b : TelemetryBinding) (now : Q) (sample : option dict) : Prop :=
  exists sm age, sample = Some sm /\
    upper (py_str (dget_or sm "quality" (PStr "MISSING"))) = "OK" /\
    _resolve_binding_age_s sm now = Some age /\ fltb (tb_max_age_s b) age = false.

Definition sample_of (w : W) (b : TelemetryBinding) : option dict :=
  _sample_for_binding b (latest w) (Some (latest_process w)).

Definition telemetry_usable (w : W) (now : Q) (r : Rule) : Prop :=
  Forall (fun b => tb_required b = true -> usable_sample b now (sample_of w b)) (ru_telemetry r).

(** The names a rule's expressions see. *)
Definition rule_env (w : W) (now : Q) (r : Rule) (cmd : dict) : Env :=
  dict_update (_build_interlock_env cmd)
    (fst (_resolve_interlock_telemetry_env r (latest w) (Some (latest_process w)) now)).

(** The command a rule that allows it leaves. *)
Definition rewrites (r : Rule) (env : Env) (cmd cmd' : dict) : Prop :=
  match ru_allow_transform_params r with
  | None => cmd' = cmd
  | Some p => exists rendered old, render_templates env (PDict p) = Ok (PDict rendered) /\
      py_dict (dget_or cmd "params" (PDict [])) = Ok old /\
      cmd' = [("device_id", dget cmd "device_id"); ("action", dget cmd "action");
              ("params", PDict (dict_update old rendered))]
  end.

Definition passes (w : W) (now : Q) (r : Rule) (cmd cmd' : dict) : Prop :=
  telemetry_usable w now r /\ eval_condition (rule_env w now r cmd) (ru_condition r) = Ok true /\
  rewrites r (rule_env w now r cmd) cmd cmd'.

(** Every enabled rule that matches passes, each on the command its
    predecessors left. *)
Inductive all_pass (w : W) (now : Q) (d a : string) : list (string * Rule) -> dict -> dict -> Prop :=
| all_pass_nil c : all_pass w now d a [] c c
| all_pass_skip i r rest c c' :
    _rule_matches r d a = false -> all_pass w now d a rest c c' -> all_pass w now d a ((i, r) :: rest) c c'
| all_pass_rule i r rest c c1 c' :
    _rule_matches r d a = true -> passes w now r c c1 -> all_pass w now d a rest c1 c' ->
    all_pass w now d a ((i, r) :: rest) c c'.

Lemma resolve_binding_spec b sample now :
  (exists e, resolve_binding b sample now = inl e) <->
  (tb_required b = true -> usable_sample b now sample).
Proof.
  unfold resolve_binding, usable_sample. destruct sample as [sm|].
  2:{ destruct (tb_required b); split; [intros [? ?]; done| |done|eauto].
      intros Hu. destruct (Hu eq_refl) as (?&?&?&_); done. }
  destruct (String.eqb_spec (upper (py_str (dget_or sm "quality" (PStr "MISSING")))) "OK") as [Hq|Hq]; cbn [negb].
  2:{ destruct (tb_required b); split; [intros [? ?]; done| |done|eauto].
      intros Hu. destruct (Hu eq_refl) as (?&?&[= <-]&?&_); done. }
  destruct (_resolve_binding_age_s sm now) as [age|] eqn:Ha.
  2:{ destruct (tb_required b); split; [intros [? ?]; done| |done|eauto].
      intros Hu. destruct (Hu eq_refl) as (?&?&[= <-]&_&?&_). congruence. }
  destruct (fltb (tb_max_age_s b) age) eqn:Hs.
  - destruct (tb_required b); split; [intros [? ?]; by destruct (dget _ _)| |done|eauto].
    intros Hu. destruct (Hu eq_refl) as (?&?&[= <-]&_&?&?). congruence.
  - split; [|eauto]. intros _ _. by exists sm, age.
Qed.

Lemma resolve_bindings_spec bs tg pg now env :
  snd (resolve_bindings bs tg pg now env) = None <->
  Forall (fun b => tb_required b = true -> usable_sample b now (_sample_for_binding b tg pg)) bs.
Proof.
  revert env. induction bs as [|b bs IH]; intros env; cbn [resolve_bindings]; [by split; constructor|].
  rewrite Forall_cons, <- resolve_binding_spec.
  destruct (resolve_binding b (_sample_for_binding b tg pg) now) as [e|err].
  - rewrite IH. naive_solver.
  - cbn. split; [done|]. by intros [[? ?] _].
Qed.

(** Every telemetry error has a code. *)
Lemma resolve_binding_code b sample now err :
  resolve_binding b sample now = inr err -> exists code, dget err "code" = PStr code.
Proof.
  unfold resolve_binding. destruct sample as [sm|]; [|destruct (tb_required b); naive_solver].
  destruct (negb _); [destruct (tb_required b); naive_solver|].
  destruct (_resolve_binding_age_s sm now) as [age|]; [|destruct (tb_required b); naive_solver].
  destruct (fltb _ _); [|done]. destruct (tb_required b); [|done]. cbn. intros [= <-]. by eexists.
Qed.

Lemma resolve_error_code bs tg pg now env env' err :
  resolve_bindings bs tg pg now env = (env', Some err) -> exists code, dget err "code" = PStr code.
Proof.
  revert env. induction bs as [|b bs IH]; intros env; cbn [resolve_bindings]; [done|].
  destruct (resolve_binding b _ now) as [e|e] eqn:E; [apply IH|]. intros [= _ <-]. by eapply resolve_binding_code.
Qed.

(** The evaluation of a rule, every way it can end: on an accepting one the
    state is untouched. *)
Lemma evaluate_rule_spec {S} r cmd w now (cb : pyexc -> pyM S unit) s :
  let '(v, s') := evaluate_interlock_rule r cmd (latest w) (Some (latest_process w)) now (Some cb) s in
  match v with
  | Allow => passes w now r cmd cmd /\ s' = s
  | Transform cmd' => passes w now r cmd cmd' /\ s' = s
  | Reject err => (forall cmd', ~ passes w now r cmd cmd') /\ (exists code, dget err "code" = PStr code) /\
                  (s' = s \/ exists e, s' = snd (cb e s))
  end.
Proof.
  unfold evaluate_interlock_rule.
  pose proof (resolve_bindings_spec (ru_telemetry r) (latest w) (Some (latest_process w)) now []) as Ht.
  unfold passes, rule_env, telemetry_usable, sample_of. cbv zeta.
  change (resolve_bindings (ru_telemetry r) (latest w) (Some (latest_process w)) now [])
    with (_resolve_interlock_telemetry_env r (latest w) (Some (latest_process w)) now) in Ht.
  destruct (_resolve_interlock_telemetry_env r (latest w) (Some (latest_process w)) now) as [tenv [err|]] eqn:Er.
  { cbn in Ht. split_and!; [|eapply resolve_error_code; exact Er|by left]. intros cmd' (Hu & _).
    apply Ht in Hu. done. }
  cbn in Ht. set (env := dict_update (_build_interlock_env cmd) tenv). cbn [fst]. fold env.
  unfold _evaluate_interlock_condition.
  destruct (eval_condition env (ru_condition r)) as [[]|e]; cbn [negb].
  - unfold _apply_interlock_transform, rewrites.
    destruct (ru_allow_transform_params r) as [p|]; [|naive_solver].
    destruct (render_templates env (PDict p)) as [rendered|e]; cbn [mbind result_bind].
    2:{ split_and!; [naive_solver|by eexists|by left]. }
    destruct rendered as [| | | | | |new]; try (split_and!; [naive_solver|by eexists|by left]).
    destruct (py_dict _) as [old|e]; cbn [mbind result_bind]; [naive_solver|].
    split_and!; [naive_solver|by eexists|by left].
  - split_and!; [naive_solver|by eexists|by left].
  - split_and!; [naive_solver|by eexists|]. right. by exists e.
Qed.
End rules.

(** ** The verdict on a command *)
Section check.
Context `{HR : !PyRepr, HA : !PyArith, HE : !PyExpr} {W : Type} `{HW : !InterlockWorld W}.
Context (exc_repr : pyexc -> string).

(** Rulesets, switches and the stop flag are the same. *)
Definition same_tables (s s' : interlock W) : Prop :=
  il_entries s' = il_entries s /\ il_order s' = il_order s /\ il_rule_enabled s' = il_rule_enabled s /\
  il_process_id s' = il_process_id s /\ il_stop s' = il_stop s.

Lemma callback_tables i n e s : same_tables s (snd (_condition_error_callback exc_repr i n e s)).
Proof.
  unfold _condition_error_callback. destruct (clock (il_world s)) as [t w]. cbv zeta.
  match goal with |- context [if ?b then _ else _] => destruct b end; [done|].
  cbn. by destruct (il_executor_up s).
Qed.

Lemma passes_det w now r c c1 c2 : passes w now r c c1 -> passes w now r c c2 -> c1 = c2.
Proof.
  intros (_ & _ & H1) (_ & _ & H2). unfold rewrites in *.
  destruct (ru_allow_transform_params r); [|congruence].
  destruct H1 as (?&?&E1&E2&->), H2 as (?&?&E3&E4&->). congruence.
Qed.

Lemma all_pass_det w now d a rules c c1 c2 :
  all_pass w now d a rules c c1 -> all_pass w now d a rules c c2 -> c1 = c2.
Proof.
  intros H1. revert c2. induction H1 as [|i r rest c c' Hm H1 IH|i r rest c x c' Hm Hp H1 IH];
    intros c2 H2; inversion H2; subst; try congruence; auto.
  apply IH. by rewrite (passes_det _ _ _ _ _ _ Hp ltac:(eassumption)).
Qed.

Lemma all_pass_app w now d a l k c c' :
  all_pass w now d a (l ++ k) c c' <->
  exists c1, all_pass w now d a l c c1 /\ all_pass w now d a k c1 c'.
Proof.
  split.
  - revert c. induction l as [|[i r] l IH]; intros c Hp; cbn in Hp; [exists c; by split; [constructor|]|].
    inversion Hp; subst; destruct (IH _ ltac:(eassumption)) as (y & ? & ?); exists y; split; try done.
    + by constructor.
    + by econstructor.
  - intros (c1 & Hl & Hk). induction Hl; [done|by constructor; auto|by econstructor; eauto].
Qed.

(** A command of this device and action with its parameters in an object. *)
Definition command_for (d a : string) (c : dict) : Prop := exists p, c = command_of d a (PDict p).

Lemma passes_command w now r d a c c1 : command_for d a c -> passes w now r c c1 -> command_for d a c1.
Proof.
  intros [p ->] (_ & _ & Hr). unfold rewrites in Hr.
  destruct (ru_allow_transform_params r); [|subst; by exists p].
  destruct Hr as (?&?&_&_&->). cbn. by eexists.
Qed.

Lemma all_pass_command w now d a rules c c1 :
  all_pass w now d a rules c c1 -> command_for d a c -> command_for d a c1.
Proof. induction 1; eauto using passes_command. Qed.

(** The first rule that does not let the command through. *)
Definition blocked_by (w : W) (now : Q) (d a : string) (rules : list (string * Rule)) (c : dict)
    (i : string) (r : Rule) : Prop :=
  exists pre post c1, rules = pre ++ (i, r) :: post /\ _rule_matches r d a = true /\
    all_pass w now d a pre c c1 /\ forall c', ~ passes w now r c1 c'.

Lemma blocked_not_passed w now d a rules c i r :
  blocked_by w now d a rules c i r -> forall c', ~ all_pass w now d a rules c c'.
Proof.
  intros (pre & post & c1 & -> & Hm & Hpre & Hno) c' (c2 & Hpre' & Hrest)%all_pass_app.
  rewrite (all_pass_det _ _ _ _ _ _ _ _ Hpre' Hpre) in *.
  inversion Hrest; subst; [congruence|]. by eapply Hno.
Qed.

Lemma check_loop_spec req_id d a now rules c s :
  let '(reply, s') := check_loop exc_repr req_id d a now rules c s in
  same_tables s s' /\ dget reply "ok" = PBool true /\ dget reply "request_id" = req_id /\
  ((exists c1, all_pass (il_world s) now d a rules (ck_cmd c) c1 /\ dget reply "allow" = PBool true /\
      s' = s /\
      (dget reply "command" = PDict c1 \/
       dget reply "command" = PNone /\ c1 = ck_cmd c /\ ck_modified c = false)) \/
   (exists i r, blocked_by (il_world s) now d a rules (ck_cmd c) i r /\ dget reply "allow" = PBool false /\
      dget reply "interceptor_id" = PStr i /\ dget reply "rule" = PStr (ru_name r) /\
      exists err code, dget reply "error" = PDict err /\ dget err "code" = PStr code)).
Proof.
  revert c s. induction rules as [|[i r] rest IH]; intros c s; cbn [check_loop].
  { split_and!; [done|by destruct c as [? [] ? ?]..|]. left. exists (ck_cmd c).
    destruct c as [cmd [] rn ii]; split_and!; try apply all_pass_nil; try done; [by left|by right]. }
  destruct (_rule_matches r d a) eqn:Hm; cbn [negb].
  2:{ specialize (IH c s). destruct (check_loop _ _ _ _ _ rest c s) as [reply s'].
      destruct IH as (H1 & H2 & H3 & [(c1 & Hp & ?)|(i' & r' & (pre & post & c1 & -> & ? & ? & ?) & ?)]);
        split_and!; try done; [left|right].
      - exists c1. split; [by apply all_pass_skip|done].
      - exists i', r'. split; [|done]. exists ((i, r) :: pre), post, c1. split_and!; try done. by apply all_pass_skip. }
  pose proof (evaluate_rule_spec r (ck_cmd c) (il_world s) now
                (_condition_error_callback exc_repr i (ru_name r)) s) as Hev.
  destruct (evaluate_interlock_rule _ _ _ _ _ _ _) as [v s1]. destruct v as [|err|cmd'].
  - destruct Hev as [Hp ->]. specialize (IH c s). destruct (check_loop _ _ _ _ _ rest c s) as [reply s'].
    destruct IH as (H1 & H2 & H3 & [(c1 & Hp1 & ?)|(i' & r' & (pre & post & c1 & -> & ? & ? & ?) & ?)]);
      split_and!; try done; [left|right].
    + exists c1. split; [by eapply all_pass_rule|done].
    + exists i', r'. split; [|done]. exists ((i, r) :: pre), post, c1. split_and!; try done.
      by eapply all_pass_rule.
  - destruct Hev as (Hno & [code Hc] & Hs).
    assert (same_tables s s1) as Hsame by (destruct Hs as [-> | [e ->]]; [done|apply callback_tables]).
    split_and!; try done. right. exists i, r. split_and!; try done.
    + exists [], rest, (ck_cmd c). split_and!; try done. apply all_pass_nil.
    + unfold reject_reply. destruct err as [|x err]; [discriminate|]. by exists (x :: err), code.
  - destruct Hev as [Hp ->].
    specialize (IH (mkChecking cmd' true (Some (ru_name r)) (Some i)) s).
    destruct (check_loop _ _ _ _ _ rest _ s) as [reply s'].
    destruct IH as (H1 & H2 & H3 & [(c1 & Hp1 & Ha & Hs & Hc)|(i' & r' & (pre & post & c1 & -> & ? & ? & ?) & ?)]);
      split_and!; try done; [left|right].
    + exists c1. split_and!; [by eapply all_pass_rule|done|done|]. cbn in Hc.
      destruct Hc as [|(_ & _ & ?)]; [by left|done].
    + exists i', r'. split; [|done]. exists ((i, r) :: pre), post, c1. split_and!; try done.
      by eapply all_pass_rule.
Qed.

(** The command of a check request that has a device, an action and an
    object of parameters. *)
Definition well_formed_check (req : dict) (d a : string) (p : dict) : Prop :=
  exists command, _check_request_command req = PDict command /\
    d = py_str (dget_or command "device_id" (PStr "")) /\ a = py_str (dget_or command "action" (PStr "")) /\
    dget_or command "params" (PDict []) = PDict p /\ d <> "" /\ a <> "".

Lemma check_spec req s d a p :
  well_formed_check req d a p ->
  let '(now, w) := clock (il_world s) in
  let c0 := command_of d a (PDict p) in
  exists reply s', _rpc_interlock_check exc_repr req s = (Ok reply, s') /\ same_tables s s' /\
    dget reply "ok" = PBool true /\ dget reply "request_id" = dget req "request_id" /\
    ((exists c1, all_pass w now d a (enabled_rules s) c0 c1 /\ dget reply "allow" = PBool true /\
        il_world s' = w /\
        (dget reply "command" = PDict c1 \/ dget reply "command" = PNone /\ c1 = c0)) \/
     (exists i r, blocked_by w now d a (enabled_rules s) c0 i r /\ dget reply "allow" = PBool false /\
        dget reply "interceptor_id" = PStr i /\ dget reply "rule" = PStr (ru_name r) /\
        exists err code, dget reply "error" = PDict err /\ dget err "code" = PStr code)).
Proof.
  intros (command & Hc & -> & -> & Hp & Hd & Ha). unfold _rpc_interlock_check. rewrite Hc, Hp.
  apply nonempty_true in Hd, Ha. rewrite Hd, Ha. cbv zeta. cbn [negb orb is_dict il_world].
  set (d := py_str _). set (a := py_str (dget_or command "action" (PStr ""))).
  match goal with |- context [s <| il_progress := ?v |>] => set (s0 := s <| il_progress := v |>) end.
  change (il_world s0) with (il_world s). destruct (clock (il_world s)) as [now w].
  match goal with |- context [check_loop _ _ _ _ _ (enabled_rules ?x) _ _] => set (s1 := x) end.
  change [("device_id", PStr d); ("action", PStr a); ("params", PDict p)] with (command_of d a (PDict p)).
  pose proof (check_loop_spec (dget req "request_id") d a now (enabled_rules s1)
                (mkChecking (command_of d a (PDict p)) false None None) s1) as Hl.
  destruct (check_loop _ _ _ _ _ _ _ _) as [reply s'] eqn:El.
  cbn [ck_cmd ck_modified] in Hl.
  change (enabled_rules s1) with (enabled_rules s) in Hl.
  change (il_world s1) with w in Hl.
  destruct Hl as (Ht & Hok & Hid & Hcase). exists reply, s'. split; [done|]. split; [exact Ht|].
  split_and!; try done. destruct Hcase as [(c1 & Hp1 & Hal & -> & Hcmd)|Hb]; [left|right; done].
  exists c1. split_and!; try done. destruct Hcmd as [|(? & ? & _)]; [by left|by right].
Qed.

(** C9. The verdict of the interlock.  Checking a well-formed command always
    returns a reply and changes no table.  The reply allows the command
    exactly when every enabled rule that matches its device and action
    passes, in order and each on the command its predecessors left: all its
    required telemetry is present, of good quality and not older than its
    limit, its condition evaluates to true without raising, and the parameters
    it rewrites, if any, render.  The allowed
    command has the same device and action and is returned when a rule has
    rewritten its parameters; a refusal names the first rule that does not
    pass, with an error code. *)
Theorem interlock_verdict_exact req s d a p :
  well_formed_check req d a p ->
  let '(now, w) := clock (il_world s) in
  let c0 := command_of d a (PDict p) in
  exists reply s', _rpc_interlock_check exc_repr req s = (Ok reply, s') /\ same_tables s s' /\
    (dget reply "allow" = PBool true <-> exists c1, all_pass w now d a (enabled_rules s) c0 c1) /\
    (forall c1, all_pass w now d a (enabled_rules s) c0 c1 -> command_for d a c1 /\
       (dget reply "command" = PDict c1 \/ dget reply "command" = PNone /\ c1 = c0)) /\
    ((forall c1, ~ all_pass w now d a (enabled_rules s) c0 c1) ->
       exists i r err code, dget reply "allow" = PBool false /\
         blocked_by w now d a (enabled_rules s) c0 i r /\ dget reply "interceptor_id" = PStr i /\
         dget reply "rule" = PStr (ru_name r) /\ dget reply "error" = PDict err /\ dget err "code" = PStr code).
Proof.
  intros Hwf. pose proof (check_spec req s d a p Hwf) as Hs. destruct (clock (il_world s)) as [now w].
  cbv zeta in *. destruct Hs as (reply & s' & Heq & Ht & _ & _ & Hcase). exists reply, s'. split_and!; try done.
  - split.
    + intros Hal. destruct Hcase as [(c1 & ? & _)|(i & r & _ & Hal' & _)]; [by exists c1|congruence].
    + intros [c1 Hp]. destruct Hcase as [(_ & _ & ? & _)|(i & r & Hb & _)]; [done|].
      by destruct (blocked_not_passed _ _ _ _ _ _ _ _ Hb c1).
  - intros c1 Hp. split; [eapply all_pass_command; [done|by eexists]|].
    destruct Hcase as [(c2 & Hp2 & _ & _ & Hcmd)|(i & r & Hb & _)].
    + by rewrite (all_pass_det _ _ _ _ _ _ _ _ Hp Hp2).
    + by destruct (blocked_not_passed _ _ _ _ _ _ _ _ Hb c1).
  - intros Hno. destruct Hcase as [(c2 & Hp2 & _)|(i & r & Hb & Hal & Hi & Hr & err & code & He & Hco)].
    + by destruct (Hno c2).
    + by exists i, r, err, code.
Qed.
End check.
