(* ===== verification/InterlockTables.v ===== *)
(** * The tables of the interlock

    The invariant of the ruleset and switch tables, kept by every request,
    and the undoing of a change the manager refuses. *)
From S2P Require Import Prelude PyVal PyNum PyOps Expressions Conditions ProcessBase RulesCommon.
From S2P Require Import Interlock InterlockProcess InterlockTheorems.
#[local] Open Scope Z_scope.

(** ** Ordered dictionaries *)
Section dicts.
Context {K V : Type} `{EqDecision K}.
Implicit Types d : list (K * V).

Lemma od_get_set d k v k' : od_get (od_set d k v) k' = if decide (k = k') then Some v else od_get d k'.
Proof. case_decide as Hk; [subst; apply od_get_set_eq|by apply od_get_set_ne]. Qed.

Lemma od_get_pop d k k' : od_wf d -> od_get (od_pop d k) k' = if decide (k = k') then None else od_get d k'.
Proof. intros Hd. case_decide as Hk; [subst; by apply od_get_pop_eq|by apply od_get_pop_ne]. Qed.

Lemma od_get_keys d k : is_Some (od_get d k) <-> k ∈ od_keys d.
Proof.
  split; [|apply od_get_key]. intros [v Hv]. apply od_get_elem in Hv.
  exact (list_elem_of_fmap_2 fst _ _ Hv).
Qed.

(** Writing several entries, the last one of a key winning. *)
Lemma od_get_sets {A} (f : A -> K * V) (l : list A) d k :
  od_get (foldl (fun m x => od_set m (fst (f x)) (snd (f x))) d l) k =
  match od_get (reverse (f <$> l)) k with Some v => Some v | None => od_get d k end.
Proof.
  revert d. induction l as [|x l IH]; intros d; [done|].
  rewrite fmap_cons, reverse_cons. cbn [foldl]. rewrite IH, od_get_app, od_get_set. destruct (f x) as [k' v']; cbn.
  destruct (od_get (reverse (f <$> l)) k); [done|]. by repeat case_decide.
Qed.

Lemma od_wf_sets {A} (g : A -> K) (h : A -> V) (l : list A) d :
  od_wf d -> od_wf (foldl (fun m x => od_set m (g x) (h x)) d l).
Proof. revert d. induction l as [|x l IH]; intros d Hd; cbn; [done|]. apply IH. by apply od_wf_set. Qed.
End dicts.

Lemma filter_ne_id {A} `{EqDecision A} (i : A) (l : list A) : i ∉ l -> filter (fun j => j ≠ i) l = l.
Proof.
  induction l as [|x l IH]; intros Hn; [done|]. rewrite filter_cons, decide_True by set_solver.
  f_equal. apply IH. set_solver.
Qed.

(** ** Switches of one ruleset *)
Lemma drop_fold_get i (ks : list rule_key) (m : list (rule_key * bool)) k :
  od_wf m ->
  od_wf (foldl (fun acc k => if bool_decide (fst k = i) then od_pop acc k else acc) m ks) /\
  od_get (foldl (fun acc k => if bool_decide (fst k = i) then od_pop acc k else acc) m ks) k =
    if decide (fst k = i /\ k ∈ ks) then None else od_get m k.
Proof.
  revert m. induction ks as [|x ks IH]; intros m Hm; cbn [foldl].
  { split; [done|]. rewrite decide_False; [done|]. set_solver. }
  case_bool_decide as Hx.
  - destruct (IH (od_pop m x) (od_wf_pop _ _ Hm)) as [Hwf Hget]. split; [done|]. rewrite Hget, od_get_pop by done.
    repeat case_decide; subst; set_solver.
  - destruct (IH m Hm) as [Hwf Hget]. split; [done|]. rewrite Hget. repeat case_decide; set_solver.
Qed.

Lemma drop_states_get i m k :
  od_wf m -> od_wf (drop_states i m) /\
  od_get (drop_states i m) k = if decide (fst k = i) then None else od_get m k.
Proof.
  intros Hm. unfold drop_states. destruct (drop_fold_get i (od_keys m) m k Hm) as [Hwf Hget].
  split; [done|]. rewrite Hget. repeat case_decide; try done; try tauto.
  destruct (od_get m k) eqn:E; [|done]. exfalso. apply H. split; [done|]. by apply od_get_keys.
Qed.

Lemma od_get_trues {A} (f : A -> rule_key) (l : list A) k :
  od_get ((fun x => (f x, true)) <$> l) k = if decide (k ∈ f <$> l) then Some true else None.
Proof.
  induction l as [|x l IH]; [done|]. cbn. rewrite IH. repeat case_decide; try done; set_solver.
Qed.

Lemma default_states_get i rs m k :
  od_wf m -> od_wf (default_states i rs m) /\
  od_get (default_states i rs m) k =
    if decide (fst k = i) then if decide (snd k ∈ ru_rule_id <$> rs_rules rs) then Some true else None
    else od_get m k.
Proof.
  intros Hm. destruct (drop_states_get i m k Hm) as [Hwf Hget]. unfold default_states. split.
  { by apply (od_wf_sets (fun r => _rule_key i (ru_rule_id r)) (fun _ => true)). }
  rewrite (od_get_sets (fun r => (_rule_key i (ru_rule_id r), true))), Hget.
  rewrite <- fmap_reverse, (od_get_trues (fun r => _rule_key i (ru_rule_id r))).
  destruct k as [j id]. cbn [fst snd]. unfold _rule_key.
  destruct (decide (j = i)) as [-> |Hj].
  - destruct (decide (id ∈ ru_rule_id <$> rs_rules rs)) as [Hin|Hin].
    + rewrite decide_True; [done|]. apply list_elem_of_fmap in Hin as (r & -> & Hr).
      apply list_elem_of_fmap. exists r. by rewrite elem_of_reverse.
    + rewrite decide_False; [done|]. intros (r & [= ->] & Hr)%list_elem_of_fmap. apply Hin.
      apply list_elem_of_fmap. exists r. by rewrite elem_of_reverse in Hr.
  - rewrite decide_False; [done|]. intros (r & [= -> ->] & _)%list_elem_of_fmap. done.
Qed.

(** The switches of a ruleset, taken out and put back. *)
Definition states_of (i : string) (m : list (rule_key * bool)) : list (string * bool) :=
  omap (fun '(k, b) => if bool_decide (fst k = i) then Some (snd k, b) else None) m.

Lemma states_of_wf i m : od_wf m -> od_wf (states_of i m).
Proof.
  induction m as [|[[j id] b] m IH]; intros Hm; [constructor|]. unfold od_wf in *. cbn in Hm.
  apply NoDup_cons in Hm as [Hn Hm]. cbn. case_bool_decide as Hj; cbn; [|auto]. constructor; [|auto].
  cbn in Hj. subst j. intros ([id' b'] & -> & Hin)%list_elem_of_fmap. apply Hn.
  apply list_elem_of_omap in Hin as ([[j x] y] & Hin & Hx). cbn in Hx. case_bool_decide; simplify_eq.
  cbn in *. subst. exact (list_elem_of_fmap_2 fst _ _ Hin).
Qed.

Lemma states_of_get i m id : od_wf m -> od_get (states_of i m) id = od_get m (i, id).
Proof.
  induction m as [|[[j x] b] m IH]; intros Hm; [done|].
  assert (od_wf m) as Hm' by (unfold od_wf in *; cbn in Hm; by apply NoDup_cons in Hm as [_ ?]).
  specialize (IH Hm'). cbn. case_bool_decide as Hj; cbn in Hj.
  - subst j. cbn. unfold states_of in IH. rewrite IH. repeat case_decide; naive_solver.
  - rewrite decide_False by naive_solver. exact IH.
Qed.

Lemma od_get_rev {K V} `{EqDecision K} (d : list (K * V)) k : od_wf d -> od_get (reverse d) k = od_get d k.
Proof.
  intros Hd. assert (od_wf (reverse d)) as Hr.
  { unfold od_wf, od_keys in *. rewrite fmap_reverse. by rewrite reverse_Permutation. }
  destruct (od_get d k) as [v|] eqn:E.
  - apply od_elem_get; [done|]. rewrite elem_of_reverse. by apply od_get_elem.
  - apply od_get_None. unfold od_keys. rewrite fmap_reverse, elem_of_reverse. by apply od_get_None.
Qed.

(** ** Invariant and observational equality of the process state *)
Section tables.
Context `{HR : !PyRepr, HA : !PyArith, HE : !PyExpr} {W : Type} `{HW : !InterlockWorld W}.
Context (exc_repr : pyexc -> string).
#[local] Abbreviation st := (interlock W).

Record il_inv (s : st) : Prop := {
  ii_order : NoDup (il_order s);
  ii_wf : od_wf (il_entries s);
  ii_keys : forall i, i ∈ il_order s <-> i ∈ od_keys (il_entries s);
  ii_ids : forall i e, od_get (il_entries s) i = Some e -> rs_interceptor_id (re_ruleset e) = i;
  ii_switches : od_wf (il_rule_enabled s)
}.

(** Two states that no request can tell apart by their tables. *)
Record il_equiv (s s' : st) : Prop := {
  ie_order : il_order s = il_order s';
  ie_entries : forall i, od_get (il_entries s) i = od_get (il_entries s') i;
  ie_switches : forall i r, _rule_enabled_state s i r = _rule_enabled_state s' i r;
  ie_process : il_process_id s = il_process_id s';
  ie_stop : il_stop s = il_stop s'
}.

#[export] Instance il_equiv_equivalence : Equivalence il_equiv.
Proof.
  split.
  - by intros s.
  - intros s s' []. constructor; intros; symmetry; auto.
  - intros s1 s2 s3 [] []. constructor; intros; etransitivity; eauto.
Qed.

#[export] Instance enabled_rules_proper : Proper (il_equiv ==> eq) (@enabled_rules W).
Proof.
  intros s s' [Ho He Hs _ _]. unfold enabled_rules, _iter_ruleset_entries. apply list_bind_ext.
  - intros e. f_equal. apply list_filter_iff. intros r. by rewrite Hs.
  - rewrite Ho. apply list_omap_ext, Forall_Forall2_diag, Forall_true. intros i. by rewrite He.
Qed.

(** The routes asked for depend on the enabled rules only. *)
#[export] Instance routes_proper : Proper (il_equiv ==> eq) (@_routes_for_enabled_rules W).
Proof. intros s s' Hs. unfold _routes_for_enabled_rules. by rewrite Hs. Qed.

(** Only the tables matter for the invariant. *)
Lemma il_inv_tables s s' :
  il_entries s' = il_entries s -> il_order s' = il_order s -> il_rule_enabled s' = il_rule_enabled s ->
  il_inv s -> il_inv s'.
Proof. intros E1 E2 E3 []. constructor; by rewrite ?E1, ?E2, ?E3. Qed.

Lemma il_equiv_tables s s' :
  il_entries s' = il_entries s -> il_order s' = il_order s -> il_rule_enabled s' = il_rule_enabled s ->
  il_process_id s' = il_process_id s -> il_stop s' = il_stop s -> il_equiv s s'.
Proof. intros E1 E2 E3 E4 E5. constructor; unfold _rule_enabled_state; intros; by rewrite ?E1, ?E2, ?E3, ?E4, ?E5. Qed.

(** The manager's answer to a registration changes the outside world only. *)
Lemma register_frame s : exists w, snd (_register_routes s) = s <| il_world := w |>.
Proof.
  unfold _register_routes, call_manager. destruct (manager_call _ _) as [r w]. exists w.
  destruct r as [[| | | | | |]|]; cbn; try done.
  match goal with |- context [if ?b then _ else _] => destruct b end; done.
Qed.

(** *** What the manager knows

    [covers pid w l] stands for: the outside world [w] sends the commands of
    the rules [l] past the process [pid].  A registration establishes it for the
    rules it names, and a refused one, of rules with clean names, keeps it. *)
Context (clean : Rule -> Prop) (covers : string -> W -> list (string * Rule) -> Prop).

Definition all_clean (s : st) : Prop :=
  forall i e, od_get (il_entries s) i = Some e -> Forall clean (rs_rules (re_ruleset e)).

Definition covered (s : st) : Prop := covers (il_process_id s) (il_world s) (enabled_rules s).

Record manager_keeps : Prop := {
  mk_clock : forall pid w l, covers pid w l -> covers pid (snd (clock w)) l;
  mk_yaml : forall pid w l p, covers pid w l -> covers pid (snd (yaml_file p w)) l;
  mk_registered : forall s s' l, all_clean s -> _register_routes s = (Ok tt, s') ->
                    covers (il_process_id s) (il_world s) l ->
                    covers (il_process_id s) (il_world s') (enabled_rules s);
  mk_refused : forall s s' e l, all_clean s -> _register_routes s = (Err e, s') ->
                 covers (il_process_id s) (il_world s) l -> covers (il_process_id s) (il_world s') l
}.
Context (Hmanager : manager_keeps).

Lemma all_clean_equiv s s' : il_equiv s s' -> all_clean s -> all_clean s'.
Proof. intros [_ He _ _ _] Hc i e Hi. eapply Hc. by rewrite He. Qed.

(** What one request may do: it answers; when it reports a failure the
    tables read as before; the invariant and, for clean rules, the cover
    hold after it. *)
Definition answers (C : Prop) (req_id : pyval) (s : st) (res : result dict * st) : Prop :=
  exists reply s', res = (Ok reply, s') /\ dget reply "request_id" = req_id /\ il_inv s' /\
    (dget reply "ok" = PBool true \/ dget reply "ok" = PBool false /\ il_equiv s s') /\
    il_process_id s' = il_process_id s /\
    (C -> all_clean s -> covered s -> all_clean s' /\ covered s').

Lemma answers_reply C req_id s s' reply :
  il_inv s -> il_entries s' = il_entries s -> il_order s' = il_order s ->
  il_rule_enabled s' = il_rule_enabled s -> il_process_id s' = il_process_id s -> il_stop s' = il_stop s ->
  (forall pid l, covers pid (il_world s) l -> covers pid (il_world s') l) ->
  dget reply "request_id" = req_id -> (dget reply "ok" = PBool true \/ dget reply "ok" = PBool false) ->
  answers C req_id s (Ok reply, s').
Proof.
  intros Hi E1 E2 E3 E4 E5 Hw Hid Hok. assert (il_equiv s s') as He by by apply il_equiv_tables.
  exists reply, s'. split_and!; [done|done|by eapply il_inv_tables| |done|].
  - destruct Hok; [by left|by right].
  - intros _ Hc Hv. split; [by eapply all_clean_equiv|]. unfold covered. rewrite <- (enabled_rules_proper _ _ He), E4. auto.
Qed.

(** A guarded change: the changed state keeps the invariant, and undoing it
    in any world gives the old tables back. *)
Lemma guarded_answers (C : Prop) req_id undo out s s1 :
  il_inv s1 -> il_world s1 = il_world s -> il_process_id s1 = il_process_id s ->
  (C -> all_clean s -> all_clean s1) ->
  (forall w, let s2 := undo (s1 <| il_world := w |>) in il_inv s2 /\ il_equiv s s2 /\ il_world s2 = w) ->
  answers C req_id s (guarded req_id undo out s1).
Proof.
  intros Hi Hw0 Hp Hc1 Hu. unfold guarded. destruct (register_frame s1) as [w Hw].
  destruct (_register_routes s1) as [[[]|e] s2] eqn:E; cbn in Hw; subst s2; unfold answers.
  - eexists _, _. split; [reflexivity|].
    split_and!; [done|by apply (il_inv_tables s1)|by left|done|]. intros HC Hc Hv.
    specialize (Hc1 HC Hc). split; [done|].
    assert (covers (il_process_id s1) (il_world s1) (enabled_rules s)) as Hv1 by by rewrite Hw0, Hp.
    exact (mk_registered Hmanager s1 _ _ Hc1 E Hv1).
  - eexists _, _. split; [reflexivity|]. destruct (Hu w) as (Hi2 & He & Hw2).
    split_and!; [done|done|by right|by destruct He|]. intros HC Hc Hv. split; [by eapply all_clean_equiv|].
    unfold covered. rewrite <- (enabled_rules_proper _ _ He), <- (ie_process _ _ He), <- Hp, Hw2. 
    assert (covers (il_process_id s1) (il_world s1) (enabled_rules s)) as Hv1 by by rewrite Hw0, Hp.
    exact (mk_refused Hmanager s1 _ _ _ (Hc1 HC Hc) E Hv1).
Qed.

(** *** Enabling and disabling rulesets *)
Lemma set_enabled_inv i b s : il_inv s -> il_inv (set_entry_enabled i b s).
Proof.
  intros Hi. unfold set_entry_enabled. destruct (od_get (il_entries s) i) as [e|] eqn:E; [|done].
  destruct Hi. constructor; cbn; try done.
  - by apply od_wf_set.
  - intros j. change (j ∈ il_order s <-> j ∈ od_keys (od_set (il_entries s) i (e <| re_enabled := b |>))).
    rewrite ii_keys0, od_keys_set_old; [done|]. apply od_get_keys. by rewrite E.
  - intros j e'. rewrite od_get_set. case_decide as Hj; [|apply ii_ids0]. intros [= <-]. subst. cbn.
    by apply ii_ids0.
Qed.

Lemma set_enabled_get i b (s : st) j :
  od_get (il_entries (set_entry_enabled i b s)) j =
  if decide (i = j) then (fun e => e <| re_enabled := b |>) <$> od_get (il_entries s) j
  else od_get (il_entries s) j.
Proof.
  unfold set_entry_enabled. destruct (od_get (il_entries s) i) as [e|] eqn:E; cbn.
  - rewrite od_get_set. case_decide; [subst; by rewrite E|done].
  - case_decide; [subst; by rewrite E|done].
Qed.

Lemma set_enabled_frame i b (s : st) :
  il_order (set_entry_enabled i b s) = il_order s /\
  il_rule_enabled (set_entry_enabled i b s) = il_rule_enabled s /\
  il_process_id (set_entry_enabled i b s) = il_process_id s /\ il_stop (set_entry_enabled i b s) = il_stop s /\
  il_world (set_entry_enabled i b s) = il_world s.
Proof. unfold set_entry_enabled. by destruct (od_get _ _). Qed.

Lemma set_enabled_clean i b s : all_clean s -> all_clean (set_entry_enabled i b s).
Proof.
  intros Hc j e. rewrite set_enabled_get. case_decide; [|apply Hc].
  destruct (od_get (il_entries s) j) as [e0|] eqn:E; [|done]. intros [= <-]. exact (Hc _ _ E).
Qed.

Lemma entry_eta_eq (e : RulesetEntry) b : e <| re_enabled := b |> <| re_enabled := re_enabled e |> = e.
Proof. by destruct e. Qed.

Lemma enable_answers C enable req s :
  il_inv s -> answers C (dget req "request_id") s (_rpc_interlock_enable_disable enable req s).
Proof.
  intros Hi. unfold _rpc_interlock_enable_disable. destruct (request_params req) as [p|];
    [|apply answers_reply; auto].
  match goal with |- context [negb ?b] => destruct b end; cbn [negb]; [|apply answers_reply; auto].
  set (i := py_str _). destruct (od_get (il_entries s) i) as [e|] eqn:E; [|apply answers_reply; auto].
  apply guarded_answers; [by apply set_enabled_inv|apply set_enabled_frame..|intros _; apply set_enabled_clean|].
  intros w. cbv zeta. set (s1 := set_entry_enabled i enable s).
  assert (il_inv (s1 <| il_world := w |>)) as Hi1
    by (apply (il_inv_tables s1); try done; by apply set_enabled_inv).
  destruct (set_enabled_frame i (re_enabled e) (s1 <| il_world := w |>)) as (F1 & F2 & F3 & F4 & F5).
  destruct (set_enabled_frame i enable s) as (G1 & G2 & G3 & G4 & _).
  split; [by apply set_enabled_inv|]. split; [|done]. subst s1. cbn in F1, F2, F3, F4.
  constructor; unfold _rule_enabled_state; intros; rewrite ?F1, ?F2, ?F3, ?F4; cbn; rewrite ?G1, ?G2, ?G3, ?G4; try done.
  rewrite set_enabled_get. cbn. rewrite set_enabled_get.
  case_decide as Hj; [|done]. subst. rewrite E. cbn. f_equal. symmetry. apply entry_eta_eq.
Qed.

(** *** Switches of single rules *)
Lemma set_rule_inv k b s : il_inv s -> il_inv (set_rule_enabled k b s).
Proof. intros []. constructor; cbn; try done. by apply od_wf_set. Qed.

Lemma set_rule_state k b (s : st) i r :
  _rule_enabled_state (set_rule_enabled k b s) i r =
  if decide (k = (i, r)) then b else _rule_enabled_state s i r.
Proof. unfold _rule_enabled_state, _rule_key. cbn. rewrite od_get_set. by case_decide. Qed.

Lemma enable_rule_answers C enable req s :
  il_inv s -> answers C (dget req "request_id") s (_rpc_interlock_enable_rule_disable_rule enable req s).
Proof.
  intros Hi. unfold _rpc_interlock_enable_rule_disable_rule. destruct (request_params req) as [p|];
    [|apply answers_reply; auto].
  cbv zeta. set (i := strip _). set (id := strip (py_str (dget_or p "rule_id" _))).
  destruct (nonempty i); cbn [negb]; [|apply answers_reply; auto].
  destruct (nonempty id); cbn [negb]; [|apply answers_reply; auto].
  destruct (od_get (il_entries s) i) as [e|] eqn:E; [|apply answers_reply; auto].
  destruct (existsb _ _); cbn [negb]; [|apply answers_reply; auto].
  apply guarded_answers; [by apply set_rule_inv|done..|]. intros w. cbv zeta. split; [|split; [|done]].
  { apply set_rule_inv. apply (il_inv_tables (set_rule_enabled (_rule_key i id) enable s)); try done.
    by apply set_rule_inv. }
  constructor; try done. intros j r. rewrite set_rule_state.
  change (_rule_enabled_state (set_rule_enabled (_rule_key i id) enable s <| il_world := w |>) j r)
    with (_rule_enabled_state (set_rule_enabled (_rule_key i id) enable s) j r).
  rewrite set_rule_state. unfold _rule_key. case_decide as Hk; [by simplify_eq|done].
Qed.

(** *** All rulesets at once *)
Lemma map_entries_get (d : list (string * RulesetEntry)) b j :
  od_get ((fun '(i, e) => (i, e <| re_enabled := b |>)) <$> d) j =
  (fun e => e <| re_enabled := b |>) <$> od_get d j.
Proof. induction d as [|[i e] d IH]; [done|]. cbn. by case_decide. Qed.

Lemma map_entries_keys (d : list (string * RulesetEntry)) b :
  od_keys ((fun '(i, e) => (i, e <| re_enabled := b |>)) <$> d) = od_keys d.
Proof. unfold od_keys. rewrite <- list_fmap_compose. apply list_fmap_ext. by intros ? [? ?]. Qed.

Lemma set_all_inv b s : il_inv s -> il_inv (set_all_enabled b s).
Proof.
  intros []. set (d' := (fun '(i, e) => (i, e <| re_enabled := b |>)) <$> il_entries s).
  assert (od_keys d' = od_keys (il_entries s)) as Hk by apply map_entries_keys. constructor.
  - done.
  - change (od_wf d'). unfold od_wf. by rewrite Hk.
  - intros i. change (i ∈ il_order s <-> i ∈ od_keys d'). by rewrite Hk.
  - intros i e. change (od_get d' i = Some e -> rs_interceptor_id (re_ruleset e) = i). unfold d'.
    rewrite map_entries_get. destruct (od_get (il_entries s) i) as [e0|] eqn:E; [|done]. intros [= <-]. exact (ii_ids0 _ _ E).
  - done.
Qed.

Lemma set_all_clean b s : all_clean s -> all_clean (set_all_enabled b s).
Proof.
  intros Hc i e. change (od_get ((fun '(i, e) => (i, e <| re_enabled := b |>)) <$> il_entries s) i = Some e ->
    Forall clean (rs_rules (re_ruleset e))). rewrite map_entries_get.
  destruct (od_get (il_entries s) i) as [e0|] eqn:E; [|done]. intros [= <-]. exact (Hc _ _ E).
Qed.

Lemma restore_get prev (s : st) j :
  od_wf prev ->
  od_get (il_entries (restore_enabled prev s)) j =
  match od_get prev j with
  | Some b => (fun e => e <| re_enabled := b |>) <$> od_get (il_entries s) j
  | None => od_get (il_entries s) j
  end.
Proof.
  unfold restore_enabled. revert s. induction prev as [|[i b] prev IH]; intros s Hwf; [done|].
  unfold od_wf in *. cbn in Hwf. apply NoDup_cons in Hwf as [Hn Hwf]. cbn [foldl]. rewrite IH by done.
  rewrite set_enabled_get. cbn. destruct (decide (i = j)) as [-> |Hij].
  - replace (od_get prev j) with (@None bool) by (symmetry; by apply od_get_None). done.
  - done.
Qed.

Lemma restore_frame prev (s : st) :
  il_order (restore_enabled prev s) = il_order s /\
  il_rule_enabled (restore_enabled prev s) = il_rule_enabled s /\
  il_process_id (restore_enabled prev s) = il_process_id s /\ il_stop (restore_enabled prev s) = il_stop s /\
  il_world (restore_enabled prev s) = il_world s.
Proof.
  unfold restore_enabled. revert s. induction prev as [|[i b] prev IH]; intros s; [done|]. cbn [foldl].
  destruct (IH (set_entry_enabled i b s)) as (-> & -> & -> & -> & ->). apply set_enabled_frame.
Qed.

Lemma restore_inv prev s : il_inv s -> il_inv (restore_enabled prev s).
Proof.
  unfold restore_enabled. revert s. induction prev as [|[i b] prev IH]; intros s Hi; [done|].
  apply IH. by apply set_enabled_inv.
Qed.

Lemma enable_all_answers C enable req s :
  il_inv s -> answers C (dget req "request_id") s (_rpc_interlock_enable_all_disable_all enable req s).
Proof.
  intros Hi. unfold _rpc_interlock_enable_all_disable_all.
  apply guarded_answers; [by apply set_all_inv|done|done|intros _; apply set_all_clean|]. intros w. cbv zeta.
  set (prev := (fun '(i, e) => (i, re_enabled e)) <$> il_entries s).
  set (s1 := set_all_enabled enable s <| il_world := w |>).
  assert (od_wf prev) as Hp.
  { unfold od_wf, od_keys, prev. rewrite <- list_fmap_compose.
    replace (_ <$> il_entries s) with (od_keys (il_entries s)); [apply Hi|].
    apply list_fmap_ext. by intros ? [? ?]. }
  split; [apply restore_inv, (il_inv_tables (set_all_enabled enable s)); try done; by apply set_all_inv|].
  destruct (restore_frame prev s1) as (F1 & F2 & F3 & F4 & F5). split; [|done].
  constructor; unfold _rule_enabled_state; intros; rewrite ?F1, ?F2, ?F3, ?F4; try done.
  rewrite restore_get by done. unfold s1. cbn. rewrite map_entries_get.
  assert (forall (d : list (string * RulesetEntry)) j,
            od_get ((fun '(i, e) => (i, re_enabled e)) <$> d) j = re_enabled <$> od_get d j) as Hg.
  { intros d j. induction d as [|[i' e] d IH]; [done|]. cbn. by case_decide. }
  unfold prev. rewrite Hg. destruct (od_get (il_entries s) i) as [e|]; [|done]. cbn. f_equal.
  symmetry. apply entry_eta_eq.
Qed.

(** *** Loading a ruleset *)
Definition loaded (rs : Ruleset) (e : RulesetEntry) (existing : option RulesetEntry) (s : st) : st :=
  let i := rs_interceptor_id rs in
  let s := s <| il_entries := od_set (il_entries s) i e |> in
  let s := match existing with None => s <| il_order := il_order s ++ [i] |> | Some _ => s end in
  _set_default_rule_states i rs s.

Lemma loaded_entries rs e ex s : il_entries (loaded rs e ex s) = od_set (il_entries s) (rs_interceptor_id rs) e.
Proof. by destruct ex. Qed.
Lemma loaded_order rs e ex s :
  il_order (loaded rs e ex s) = if ex then il_order s else il_order s ++ [rs_interceptor_id rs].
Proof. by destruct ex. Qed.
Lemma loaded_switches rs e ex s :
  il_rule_enabled (loaded rs e ex s) = default_states (rs_interceptor_id rs) rs (il_rule_enabled s).
Proof. by destruct ex. Qed.

Lemma not_in_order s i : il_inv s -> od_get (il_entries s) i = None -> i ∉ il_order s.
Proof. intros [] Hi Hin. apply ii_keys0 in Hin. by apply od_get_None in Hi. Qed.

Lemma loaded_inv rs e s :
  il_inv s -> re_ruleset e = rs ->
  il_inv (loaded rs e (od_get (il_entries s) (rs_interceptor_id rs)) s).
Proof.
  clear Hmanager covers clean. intros Hi He. set (i := rs_interceptor_id rs). pose proof Hi as [].
  constructor; rewrite ?loaded_entries, ?loaded_order, ?loaded_switches; fold i.
  - destruct (od_get (il_entries s) i) eqn:E; [done|]. pose proof (not_in_order _ _ Hi E).
    apply NoDup_app. split_and!; [done| |apply NoDup_singleton]. set_solver.
  - by apply od_wf_set.
  - intros j. rewrite od_keys_set, <- ii_keys0.
    destruct (od_get (il_entries s) i) eqn:E.
    + assert (i ∈ il_order s) by (apply ii_keys0, od_get_keys; by rewrite E). naive_solver.
    + rewrite elem_of_app, list_elem_of_singleton. tauto.
  - intros j e'. rewrite od_get_set. case_decide as Hj; [|apply ii_ids0].
    intros [= <-]. by rewrite He.
  - by apply default_states_get.
Qed.

Lemma loaded_clean rs e ex s :
  re_ruleset e = rs -> Forall clean (rs_rules rs) -> all_clean s -> all_clean (loaded rs e ex s).
Proof.
  intros He Hr Hc i e'. rewrite loaded_entries, od_get_set. case_decide; [|apply Hc].
  intros [= <-]. by rewrite He.
Qed.

Lemma undo_load_switches i ex prev (s : st) :
  il_rule_enabled (undo_load i ex prev s) =
  foldl (fun m '(rule_id, b) => od_set m (_rule_key i rule_id) b) (drop_states i (il_rule_enabled s)) prev.
Proof. by destruct ex. Qed.

Lemma undo_switches i rs m :
  od_wf m ->
  od_wf (foldl (fun m '(rule_id, b) => od_set m (_rule_key i rule_id) b)
           (drop_states i (default_states i rs m)) (states_of i m)) /\
  forall k, od_get (foldl (fun m '(rule_id, b) => od_set m (_rule_key i rule_id) b)
           (drop_states i (default_states i rs m)) (states_of i m)) k = od_get m k.
Proof.
  intros Hm. set (f := fun '(rule_id, b) => (_rule_key i rule_id, b) : rule_key * bool).
  assert (forall l d, foldl (fun m '(rule_id, b) => od_set m (_rule_key i rule_id) b) d l =
            foldl (fun m x => od_set m (fst (f x)) (snd (f x))) d l) as Hf.
  { intros l d. revert d. induction l as [|[x b] l IH]; intros d; cbn; auto. }
  assert (od_wf (default_states i rs m)) as Hd by (by apply (default_states_get i rs m (i, ""))).
  rewrite Hf. split.
  { apply (od_wf_sets (fun x => fst (f x)) (fun x => snd (f x))). by apply (drop_states_get i _ (i, "")). }
  intros [j id]. rewrite od_get_sets. destruct (drop_states_get i _ (j, id) Hd) as [_ ->].
  destruct (default_states_get i rs m (j, id) Hm) as [_ ->]. cbn [fst snd].
  rewrite <- fmap_reverse.
  assert (forall l : list (string * bool), od_get (f <$> l) (j, id) = if decide (j = i) then od_get l id else None) as Hg.
  { intros l. induction l as [|[x b] l IH]; cbn; [by case_decide|]. rewrite IH. unfold _rule_key.
    repeat case_decide; naive_solver. }
  rewrite Hg, od_get_rev, states_of_get by (done || by apply states_of_wf).
  case_decide as Hj; [subst; by destruct (od_get m (i, id))|done].
Qed.

Lemma apply_loaded_answers C req_id rs source replace enable s :
  il_inv s -> (C -> Forall clean (rs_rules rs)) ->
  answers C req_id s (_rpc_interlock_apply_loaded_ruleset req_id rs source replace enable s).
Proof.
  intros Hi Hcl. unfold _rpc_interlock_apply_loaded_ruleset. cbv zeta.
  set (i := rs_interceptor_id rs). set (ex := od_get (il_entries s) i).
  set (enabled := match enable with PNone => _ | _ => _ end).
  set (e := mkEntry rs enabled (Some source)).
  change (answers C req_id s
    match ex, replace with
    | Some _, false => (Ok (reply_code req_id "interceptor_exists"), s)
    | _, _ => guarded req_id (undo_load i ex (states_of i (il_rule_enabled s)))
                [("interceptor_id", PStr i); ("enabled", PBool enabled)] (loaded rs e ex s)
    end).
  assert (answers C req_id s (guarded req_id (undo_load i ex (states_of i (il_rule_enabled s)))
                [("interceptor_id", PStr i); ("enabled", PBool enabled)] (loaded rs e ex s))) as Hg.
  2:{ destruct ex, replace; try exact Hg. apply answers_reply; auto. }
  clearbody enabled. pose proof Hi as []. 
  apply guarded_answers; [by apply loaded_inv|by destruct ex|by destruct ex|by auto using loaded_clean|].
  intros w. cbv zeta. set (s2 := loaded rs e ex s <| il_world := w |>).
  set (s3 := undo_load i ex (states_of i (il_rule_enabled s)) s2).
  destruct (undo_switches i rs (il_rule_enabled s) ii_switches0) as [Hsw Hsg].
  assert (il_rule_enabled s3 = foldl (fun m '(rule_id, b) => od_set m (_rule_key i rule_id) b)
            (drop_states i (default_states i rs (il_rule_enabled s))) (states_of i (il_rule_enabled s))) as E3.
  { unfold s3. rewrite undo_load_switches. by destruct ex. }
  assert (il_order s3 = il_order s) as E2.
  { subst s3 s2. unfold ex. destruct (od_get (il_entries s) i) as [e0|] eqn:E; [done|].
    transitivity (filter (fun j => j ≠ i) (il_order s ++ [i])); [done|].
    pose proof (not_in_order _ _ Hi E) as Hn. rewrite filter_app, filter_cons, decide_False by naive_solver.
    rewrite app_nil_r. by apply filter_ne_id. }
  assert (forall j, od_get (il_entries s3) j = od_get (il_entries s) j) as E1.
  { intros j. subst s3 s2. unfold ex. destruct (od_get (il_entries s) i) as [e0|] eqn:E.
    - transitivity (od_get (od_set (od_set (il_entries s) i e) i e0) j); [done|].
      rewrite !od_get_set. case_decide; [subst; congruence|done].
    - transitivity (od_get (od_pop (od_set (il_entries s) i e) i) j); [done|].
      rewrite od_get_pop, od_get_set by (by apply od_wf_set). case_decide; [subst; congruence|done]. }
  assert (il_process_id s3 = il_process_id s /\ il_stop s3 = il_stop s /\ il_world s3 = w) as (E4 & E5 & E6)
    by (subst s3 s2; unfold undo_load, loaded; by destruct ex).
  split; [|split; [|done]].
  - assert (od_wf (il_entries s3)) as Hw3.
    { subst s3 s2. destruct ex; [apply od_wf_set|apply od_wf_pop]; by apply od_wf_set. }
    assert (forall j, j ∈ od_keys (il_entries s3) <-> j ∈ od_keys (il_entries s)) as Hk3
      by (intros j; rewrite <- !od_get_keys, E1; done).
    constructor; rewrite ?E2, ?E3; try done.
    + intros j. by rewrite Hk3.
    + intros j e'. rewrite E1. apply ii_ids0.
  - constructor; rewrite ?E2; try done. intros j r. unfold _rule_enabled_state. by rewrite E3, Hsg.
Qed.

(** Whatever ruleset the request loads is clean. *)
Definition loads_clean (req : dict) (s : st) : Prop :=
  forall p rs source replace enable s1, request_params req = Some p ->
    _rpc_interlock_load_prepare (dget req "request_id") p s = (Ok (inl (rs, source, replace, enable)), s1) ->
    Forall clean (rs_rules rs).

Lemma prepare_frame req_id p s r s1 :
  _rpc_interlock_load_prepare req_id p s = (r, s1) ->
  (exists w, s1 = s <| il_world := w |> /\ forall pid l, covers pid (il_world s) l -> covers pid w l) /\
  match r with
  | Ok (inr reply) => dget reply "request_id" = req_id /\ dget reply "ok" = PBool false
  | Ok (inl _) => True
  | Err _ => False
  end.
Proof.
  unfold _rpc_interlock_load_prepare. cbv zeta.
  assert (exists w, s = s <| il_world := w |> /\ forall pid l, covers pid (il_world s) l -> covers pid w l) as Hsame
    by (exists (il_world s); by destruct s).
  destruct (Bool.eqb _ _); [by intros [= <- <-]|]. destruct (negb _).
  - unfold _load_ruleset. pose proof (fun pid l => mk_yaml Hmanager pid (il_world s) l (resolve_path (py_str (dget p "path")))) as Hy.
    destruct (yaml_file _ _) as [raw w]. destruct (raw ≫= _) as [rs|e]; intros [= <- <-]; split; eauto.
  - destruct (_load_ruleset_text _ _) as [rs|e]; by intros [= <- <-].
Qed.

Lemma load_answers req s :
  il_inv s -> answers (loads_clean req s) (dget req "request_id") s (_rpc_interlock_load req s).
Proof.
  intros Hi. unfold _rpc_interlock_load. destruct (request_params req) as [p|] eqn:Ep; [|apply answers_reply; auto].
  unfold mbind, pyM_bind.
  destruct (_rpc_interlock_load_prepare _ p s) as [r s1] eqn:E.
  destruct (prepare_frame _ _ _ _ _ E) as [(w & -> & Hw) Hr].
  destruct r as [[[[[rs source] replace] enable]|reply]|x]; [| |done].
  - set (s1 := s <| il_world := w |>) in *.
    destruct (apply_loaded_answers (loads_clean req s) (dget req "request_id") rs source replace enable s1)
      as (reply & s' & E' & Hid & Hinv & Hok & Hp & Hc);
      [by apply (il_inv_tables s)|intros HC; by eapply HC|].
    assert (il_equiv s s1) as He by by apply il_equiv_tables.
    exists reply, s'. split_and!; try done.
    + destruct Hok as [|[? Heq]]; [by left|right]. split; [done|]. by etransitivity.
    + intros HC Hcl Hv. apply Hc; [done|done|]. apply Hw. exact Hv.
  - destruct Hr. apply answers_reply; auto.
Qed.

Lemma callback_covers i n e s pid l :
  covers pid (il_world s) l -> covers pid (il_world (snd (_condition_error_callback exc_repr i n e s))) l.
Proof.
  intros Hv. apply (mk_clock Hmanager) in Hv. unfold _condition_error_callback.
  destruct (clock (il_world s)) as [t w]. cbv zeta.
  match goal with |- context [if ?b then _ else _] => destruct b end; [done|]. cbn. by destruct (il_executor_up s).
Qed.

Lemma check_loop_covers req_id d a now rules c s pid l :
  covers pid (il_world s) l -> covers pid (il_world (snd (check_loop exc_repr req_id d a now rules c s))) l.
Proof.
  revert c s. induction rules as [|[i r] rest IH]; intros c s Hv; cbn [check_loop]; [done|].
  destruct (negb _); [auto|].
  pose proof (evaluate_rule_spec r (ck_cmd c) (il_world s) now
                (_condition_error_callback exc_repr i (ru_name r)) s) as Hev.
  destruct (evaluate_interlock_rule _ _ _ _ _ _ _) as [v s1].
  destruct v; [destruct Hev as [_ ->]; auto| |destruct Hev as [_ ->]; auto].
  destruct Hev as (_ & _ & [-> |[e ->]]); [done|by apply callback_covers].
Qed.

Lemma check_answers C req s :
  il_inv s -> answers C (dget req "request_id") s (_rpc_interlock_check exc_repr req s).
Proof.
  intros Hi. unfold _rpc_interlock_check.
  destruct (_check_request_command req) as [| | | | | |command]; try (apply answers_reply; by auto).
  cbv zeta. match goal with |- context [if ?b then _ else _] => destruct b end; [apply answers_reply; auto|].
  match goal with |- context [clock ?x] =>
    pose proof (fun pid l => mk_clock Hmanager pid x l) as Hck; destruct (clock x) as [now w] end.
  match goal with |- context [check_loop _ ?q ?d ?a ?n ?r ?c ?x] =>
    pose proof (check_loop_spec exc_repr q d a n r c x) as Hl;
    pose proof (check_loop_covers q d a n r c x) as Hlc;
    destruct (check_loop exc_repr q d a n r c x) as [reply s'] end.
  destruct Hl as ((E1 & E2 & E3 & E4 & E5) & Hok & Hid & _). apply answers_reply; auto.
Qed.

Lemma listing_answers C rules req s : il_inv s -> answers C (dget req "request_id") s (listing rules req s).
Proof. intros Hi. apply answers_reply; auto. Qed.

Lemma handler_answers h req s :
  h ∈ (handlers exc_repr).*2 -> il_inv s ->
  answers (loads_clean req s) (dget req "request_id") s (h req s).
Proof.
  intros Hh Hi.
  repeat (apply elem_of_cons in Hh as [-> |Hh];
    [eauto using listing_answers, load_answers, enable_answers, enable_rule_answers, enable_all_answers,
       check_answers; by apply answers_reply; auto|]).
  by apply not_elem_of_nil in Hh.
Qed.

Lemma canonical_request_id r req :
  dget (canonicalize_request (Handler := dict -> pyM st dict) r req) "request_id" = dget req "request_id".
Proof.
  unfold canonicalize_request. case_match; [|done]. unfold dget. by rewrite od_get_set_ne.
Qed.

Lemma loads_clean_canonical r req s :
  loads_clean req s -> loads_clean (canonicalize_request (Handler := dict -> pyM st dict) r req) s.
Proof.
  intros Hc p rs source replace enable s1. rewrite canonical_request_id. unfold canonicalize_request.
  case_match; [|apply Hc].
  replace (request_params (od_set req "type" _)) with (request_params req); [apply Hc|].
  unfold request_params, dget_or. by rewrite od_get_set_ne.
Qed.

Lemma handle_rpc_answers req s :
  il_inv s -> py_str (dget_or req "type" (PStr "")) <> "process.stop" ->
  answers (loads_clean req s) (dget req "request_id") s (_handle_rpc exc_repr req s).
Proof.
  intros Hi Ht. unfold _handle_rpc, mbind, pyM_bind, _handle_common_rpc.
  destruct (String.eqb_spec (py_str (dget_or req "type" (PStr ""))) "process.stop"); [done|].
  unfold dispatch_with_canonical.
  destruct (od_get (rg_handlers _) _) as [h|] eqn:E; cbn [fmap option_fmap option_map].
  - set (req' := canonicalize_request _ req).
    destruct (handler_answers h req' s) as (reply & s' & E' & Hid & Hinv & Hok & Hp & Hc); [|done|].
    { by apply add_handler_range in E as [[]%not_elem_of_nil|]. }
    exists reply, s'. split_and!; try done.
    + rewrite Hid. apply canonical_request_id.
    + intros HC. by apply Hc, loads_clean_canonical.
  - apply answers_reply; auto.
Qed.
End tables.

(** With nothing asked of the manager. *)
Lemma manager_keeps_trivial `{PyRepr} {W} `{!InterlockWorld W} :
  manager_keeps (W := W) (fun _ => True) (fun _ _ _ => True).
Proof. by constructor. Qed.

(** ** Histories *)
Section histories.
Context `{HR : !PyRepr, HA : !PyArith, HE : !PyExpr} {W : Type} `{HW : !InterlockWorld W}.
Context (exc_repr : pyexc -> string).
#[local] Abbreviation st := (interlock W).

Inductive il_reach : st -> Prop :=
| il_reach_init w pid rulesets rules rules_dir s :
    interlock_init w pid rulesets rules rules_dir = (Ok tt, s) -> il_reach s
| il_reach_rpc req s : il_reach s -> il_reach (snd (_handle_rpc exc_repr req s))
| il_reach_world w s : il_reach s -> il_reach (s <| il_world := w |>).

Lemma add_ruleset_inv e (s : st) r s' : add_ruleset e s = (r, s') -> il_inv s -> il_inv s'.
Proof.
  unfold add_ruleset. destruct (od_get _ _) eqn:E; intros [= <- <-] Hi; [done|].
  pose proof (loaded_inv (re_ruleset e) e s Hi eq_refl) as Hl. by rewrite E in Hl.
Qed.

Lemma add_rulesets_inv l (s : st) r s' : forM add_ruleset l s = (r, s') -> il_inv s -> il_inv s'.
Proof.
  revert s. induction l as [|e l IH]; intros s; cbn [forM]; [by intros [= <- <-]|].
  unfold mbind, pyM_bind. destruct (add_ruleset e s) as [[[]|x] s1] eqn:E; intros Hl Hi.
  - eapply IH; [exact Hl|]. by eapply add_ruleset_inv.
  - injection Hl as <- <-. by eapply add_ruleset_inv.
Qed.

Lemma collect_frame paths (s : st) r s' : collect_rulesets paths s = (r, s') -> exists w, s' = s <| il_world := w |>.
Proof.
  revert s r s'. induction paths as [|p paths IH]; intros s r s'; cbn [collect_rulesets].
  { intros [= _ <-]. exists (il_world s). by destruct s. }
  unfold mbind, pyM_bind, _load_ruleset. destruct (yaml_file _ _) as [raw w]. cbv zeta.
  destruct (raw ≫= _) as [rs|x]; [|intros [= _ <-]; by exists w].
  destruct (collect_rulesets paths _) as [[more|x] s1] eqn:E; intros [= _ <-];
    destruct (IH _ _ _ E) as [w' ->]; by exists w'.
Qed.

Lemma init_inv w pid rulesets rules rules_dir r s :
  interlock_init w pid rulesets rules rules_dir = (r, s) -> il_inv s.
Proof.
  assert (il_inv (blank w pid)) as Hb by (constructor; cbn; try constructor; set_solver).
  unfold interlock_init, mbind, pyM_bind.
  destruct (_normalize_rulesets_arg rulesets rules rules_dir (blank w pid)) as [[l|x] s1] eqn:E1.
  2:{ intros [= _ <-]. revert E1. unfold _normalize_rulesets_arg.
      destruct rulesets; [destruct rules, rules_dir; by intros [= _ <-]|].
      destruct (resolve_rule_paths _ _ _); [by intros [= _ <-]|]. intros [w' ->]%collect_frame.
      by apply (il_inv_tables (blank w pid)). }
  assert (il_inv s1) as H1.
  { revert E1. unfold _normalize_rulesets_arg.
    destruct rulesets; [destruct rules, rules_dir; try discriminate; by intros [= _ <-]|].
    destruct (resolve_rule_paths _ _ _); [discriminate|]. intros [w' ->]%collect_frame.
    by apply (il_inv_tables (blank w pid)). }
  destruct (forM add_ruleset l s1) as [[[]|x] s2] eqn:E2.
  - apply add_rulesets_inv in E2; [|done]. destruct (register_frame s2) as [w' Hw].
    destruct (_register_routes s2) as [r3 s3]. cbn in Hw. subst s3. intros [= _ <-].
    by apply (il_inv_tables s2).
  - intros [= _ <-]. by eapply add_rulesets_inv.
Qed.

Lemma handle_stop_inv req s :
  il_inv s -> py_str (dget_or req "type" (PStr "")) = "process.stop" ->
  il_inv (snd (_handle_rpc exc_repr req s)).
Proof.
  intros Hi Ht. unfold _handle_rpc, mbind, pyM_bind, _handle_common_rpc. rewrite Ht, String.eqb_refl.
  unfold _graceful_stop, _unregister_command_interceptor_routes, call_manager.
  destruct (negb _); [by apply (il_inv_tables s)|]. destruct (manager_call _ _) as [[resp|x] w]; cbn;
    [|by apply (il_inv_tables s)].
  match goal with |- context [if ?b then _ else _] => destruct b end; by apply (il_inv_tables s).
Qed.

Lemma il_reach_inv s : il_reach s -> il_inv s.
Proof.
  induction 1 as [w pid rulesets rules rules_dir s Hinit|req s _ IH|w s _ IH].
  - by eapply init_inv.
  - destruct (decide (py_str (dget_or req "type" (PStr "")) = "process.stop")) as [Ht|Ht].
    + by apply handle_stop_inv.
    + by destruct (handle_rpc_answers exc_repr _ _ manager_keeps_trivial req s IH Ht) as (reply & s' & -> & _ & ? & _).
  - by apply (il_inv_tables s).
Qed.

(** C33. Every request to a running interlock is answered, under its own id,
    and is all or nothing: after any history, a request that is not answered
    with [ok] true (an unknown action, bad parameters, a ruleset that does
    not load, a manager that refuses or does not answer the new routes)
    leaves rulesets, their order, their enabling and the switches of all
    their rules reading exactly as before. *)
Theorem interlock_requests_atomic req s :
  il_reach s -> py_str (dget_or req "type" (PStr "")) <> "process.stop" ->
  exists reply s', _handle_rpc exc_repr req s = (Ok reply, s') /\
    dget reply "request_id" = dget req "request_id" /\
    (dget reply "ok" = PBool true \/
     dget reply "ok" = PBool false /\ il_equiv s s' /\ enabled_rules s' = enabled_rules s).
Proof.
  intros Hr Ht. destruct (handle_rpc_answers exc_repr _ _ manager_keeps_trivial req s (il_reach_inv s Hr) Ht)
    as (reply & s' & E & Hid & _ & Hok & _).
  exists reply, s'. split_and!; try done. destruct Hok as [|[? He]]; [by left|right]. split_and!; try done.
  by rewrite He.
Qed.
End histories.
