(* ===== verification/InterlockSystem.v ===== *)
(** * Interlock, manager and interceptor chain together

    The interlock process of [processes/interlock.py] with the manager's
    route table ([_manager/interceptor_routes.py]) in its outside world, and
    the chain of [utils/command_interceptors.py] calling it: no command that
    an enabled rule matches gets past the manager without that rule. *)
From S2P Require Import Prelude PyVal PyNum PyOps Expressions Conditions ProcessBase Responses RulesCommon.
From S2P Require Import InterceptorRoutes CommandInterceptors InterceptorTheorems Interlock InterlockProcess.
From S2P Require Import InterlockTheorems InterlockTables.
#[local] Open Scope Z_scope.

(** How a call to the manager ends ([ManagerClient.call]): it is answered; the
    request is never delivered; or it is delivered but the reply does not come
    in time, and the manager has applied the request by then or applies it
    later. The last two look the same to the caller. *)
Inductive delivery := Answered | Undelivered | Unanswered (applied : bool).

(** The manager's table, how the next calls end (answered, where nothing is
    said), whether a request was delivered but not answered since the last
    registration that was, and the rest. *)
Record mworld {V : Type} := mkMworld {
  mw_mgr : route_mgr;
  mw_links : list delivery;
  mw_lost : bool;
  mw_rest : V
}.
Arguments mworld : clear implicits.

#[export] Instance mworld_eta {V} : Eta (mworld V) := fun w => mkMworld V (mw_mgr w) (mw_links w) (mw_lost w) (mw_rest w).

(** What the process finds around it besides the manager. *)
Class Surroundings (V : Type) := {
  sr_latest : V -> string -> string -> option dict;
  sr_latest_process : V -> string -> string -> option dict;
  sr_clock : V -> Q * V;
  sr_yaml_file : string -> V -> result pyval * V;
  sr_yaml_text : string -> string -> result pyval;
  sr_resolve_path : string -> string;
  sr_glob : string -> string -> V -> list string
}.

Section system.
Context `{HR : !PyRepr, HA : !PyArith, HE : !PyExpr} {V : Type} `{HV : !Surroundings V}.
Context (known : string -> bool) (exc_repr : pyexc -> string).

(** The manager's answer to a request about its routes *)
Definition answer_route_request (req : pyval) (m : route_mgr) : pyval * route_mgr :=
  match req with
  | PDict d =>
      if py_eqb (dget d "type") (PStr "manager.interceptors.register") then route_command_interceptor_register known d m
      else if py_eqb (dget d "type") (PStr "manager.interceptors.unregister") then route_command_interceptor_unregister d m
      else (PDict [("ok", PBool false)], m)
  | _ => (PDict [("ok", PBool false)], m)
  end.

Definition registered (req resp : pyval) : bool :=
  match req, resp with
  | PDict d, PDict r => py_eqb (dget d "type") (PStr "manager.interceptors.register") && truthy (dget_or r "ok" (PBool false))
  | _, _ => false
  end.

Definition call_route_table (req : pyval) (w : mworld V) : result pyval * mworld V :=
  let how := hd Answered (mw_links w) in
  let w := w <| mw_links := tail (mw_links w) |> in
  match how with
  | Undelivered => (Ok PNone, w)
  | Unanswered applied =>
      (Ok PNone, w <| mw_mgr := if applied then snd (answer_route_request req (mw_mgr w)) else mw_mgr w |> <| mw_lost := true |>)
  | Answered =>
      let '(resp, m) := answer_route_request req (mw_mgr w) in
      (Ok resp, w <| mw_mgr := m |> <| mw_lost := mw_lost w && negb (registered req resp) |>)
  end.

#[export] Instance system_world : InterlockWorld (mworld V) := {|
  manager_call := call_route_table;
  latest w := sr_latest (mw_rest w);
  latest_process w := sr_latest_process (mw_rest w);
  clock w := let '(t, v) := sr_clock (mw_rest w) in (t, w <| mw_rest := v |>);
  yaml_file p w := let '(r, v) := sr_yaml_file p (mw_rest w) in (r, w <| mw_rest := v |>);
  yaml_text := sr_yaml_text;
  resolve_path := sr_resolve_path;
  glob d pat w := sr_glob d pat (mw_rest w)
|}.
#[local] Abbreviation st := (interlock (mworld V)).

(** Names of a rule that are neither blank nor padded with blanks. *)
Definition clean_rule (r : Rule) : Prop :=
  strip (ru_device_id r) = ru_device_id r /\ strip (ru_action r) = ru_action r /\
  ru_device_id r <> "" /\ ru_action r <> "".

(** Every rule of [l] has its route in the manager's table, unless a request
    was left unanswered. *)
Definition routed (pid : string) (w : mworld V) (l : list (string * Rule)) : Prop :=
  routes_ok (mw_mgr w) /\
  (mw_lost w = false -> forall i r, (i, r) ∈ l -> exists rt, rt ∈ routes (rm_state (mw_mgr w)) /\ rt_process_id rt = pid /\
    rt_device_id rt = ru_device_id r /\ rt_action rt = ru_action r).

Lemma distinct_routes_elem seen l k : k ∈ distinct_routes seen l <-> k ∈ l /\ k ∉ seen.
Proof.
  revert seen. induction l as [|x l IH]; intros seen; cbn; [set_solver|].
  case_bool_decide as Hx; [|rewrite elem_of_cons]; rewrite IH; destruct (decide (k = x)); set_solver.
Qed.

Lemma enabled_rules_elem (s : st) i r :
  (i, r) ∈ enabled_rules s ->
  exists j e, od_get (il_entries s) j = Some e /\ re_enabled e = true /\ r ∈ rs_rules (re_ruleset e) /\
    i = rs_interceptor_id (re_ruleset e) /\ _rule_enabled_state s i (ru_rule_id r) = true.
Proof.
  intros (e & (r' & [= -> ->] & [Hen Hr]%list_elem_of_filter)%list_elem_of_fmap & (j & Hj & He)%list_elem_of_omap)%list_elem_of_bind.
  destruct (od_get (il_entries s) j) as [e'|] eqn:E; [|done].
  destruct (re_enabled e') eqn:Ee; cbn in He; simplify_eq. by exists j, e.
Qed.

Lemma enabled_rules_clean (s : st) i r : all_clean clean_rule s -> (i, r) ∈ enabled_rules s -> clean_rule r.
Proof.
  intros Hc (j & e & Hj & _ & Hr & _)%enabled_rules_elem. specialize (Hc _ _ Hj).
  rewrite Forall_forall in Hc. auto.
Qed.

Lemma route_json_key (r : Rule) : clean_rule r -> raw_key (route_json (rule_route r)) = Some (rule_route r).
Proof.
  intros (E1 & E2 & _). transitivity (Some (strip (ru_device_id r), strip (ru_action r))); [done|].
  by rewrite E1, E2.
Qed.

Definition clean_key (k : string * string) : Prop :=
  strip (fst k) = fst k /\ strip (snd k) = snd k /\ fst k <> "" /\ snd k <> "".

(** Routes with clean names are never refused by the table. *)
Lemma register_loop_clean pid ks seen added t :
  Forall clean_key ks -> exists r t', register_loop pid (route_json <$> ks) seen added t = (Ok r, t').
Proof.
  revert seen added t. induction ks as [|[d a] ks IH]; intros seen added t; [by eexists _, _|].
  intros [(E1 & E2 & E3 & E4) Hks]%Forall_cons. cbn [fst snd] in E1, E2, E3, E4. apply nonempty_true in E3, E4.
  rewrite fmap_cons. unfold route_json at 1. cbn [register_loop fst snd]. cbv zeta.
  change (py_str (dget_or [("device_id", PStr d); ("action", PStr a)] "device_id" (PStr ""))) with d.
  change (py_str (dget_or [("device_id", PStr d); ("action", PStr a)] "action" (PStr ""))) with a.
  rewrite E1, E2, E3, E4. cbn [negb orb]. case_bool_decide; by apply IH.
Qed.

Lemma routes_clean (s : st) :
  all_clean clean_rule s -> Forall clean_key (distinct_routes [] (rule_route <$> (enabled_rules s).*2)).
Proof.
  intros Hc. apply Forall_forall. intros k [Hk _]%distinct_routes_elem.
  apply list_elem_of_fmap in Hk as (r & -> & Hr). apply list_elem_of_fmap in Hr as ([i r'] & -> & Hr).
  destruct (enabled_rules_clean s i r' Hc Hr) as (? & ? & ? & ?). done.
Qed.

(** The answer of the table to this process's registration. *)
#[local] Abbreviation register_request s :=
  (PDict [("type", PStr "manager.interceptors.register"); ("process_id", PStr (il_process_id s));
          ("routes", PList (_routes_for_enabled_rules s)); ("replace", PBool true)]).
#[local] Abbreviation table_register s m :=
  (register_command_interceptor_routes known (il_process_id s) (PList (_routes_for_enabled_rules s)) true m).

Lemma register_reply (s : st) m :
  let '(resp, m') := answer_route_request (register_request s) m in
  resp <> PNone /\
  (nonempty (il_process_id s) = true /\ m' = snd (table_register s m) /\
     (registered (register_request s) resp = true <-> exists added, fst (table_register s m) = Ok added) \/
   m' = m /\ registered (register_request s) resp = false).
Proof.
  unfold answer_route_request. set (req := [("type", _); _; _; _]).
  change (py_eqb (dget req "type") (PStr "manager.interceptors.register")) with true. cbv iota.
  unfold route_command_interceptor_register.
  change (py_str (dget_or req "process_id" (PStr ""))) with (il_process_id s).
  change (dget_or req "routes" (PList [])) with (PList (_routes_for_enabled_rules s)).
  change (truthy (dget_or req "replace" (PBool false))) with true. cbv zeta.
  destruct (nonempty (il_process_id s)); cbn [negb]; [|by split; [|right]].
  destruct (table_register s m) as [[added|e] m']; cbn; (split; [done|left]); split_and!; try done; naive_solver.
Qed.

Lemma register_calls (s : st) :
  let '(res, w) := call_route_table (register_request s) (il_world s) in
  exists r, _register_routes s = (r, s <| il_world := w |>) /\
    (r = Ok tt <-> exists resp, res = Ok resp /\ registered (register_request s) resp = true).
Proof.
  unfold _register_routes, call_manager. cbn [manager_call system_world].
  destruct (call_route_table _ _) as [[resp|e] w]; [|eexists; split; [done|naive_solver]].
  assert (forall d, registered (register_request s) (PDict d) = truthy (dget_or d "ok" (PBool false))) as Hd by done.
  destruct resp as [| | | | | |d]; try (eexists; split; [done|]; split; [done|]; by intros (? & [= <-] & ?)).
  specialize (Hd d). destruct (truthy (dget_or d "ok" (PBool false))) eqn:Et; (eexists; split; [done|]).
  - split; [intros _; by exists (PDict d)|done].
  - split; [done|]. intros (? & [= <-] & ?). congruence.
Qed.

(** A registration that succeeds has been applied and answered; one that
    fails has left the table as it was, or was left unanswered. *)
Lemma register_answer (s : st) :
  let '(r, s') := _register_routes s in
  let w := il_world s in let w' := il_world s' in
  (r = Ok tt /\ mw_lost w' = false /\ mw_mgr w' = snd (table_register s (mw_mgr w)) /\
     exists added, fst (table_register s (mw_mgr w)) = Ok added) \/
  (r <> Ok tt /\ (mw_mgr w' = mw_mgr w \/ mw_mgr w' = snd (table_register s (mw_mgr w))) /\
     (mw_lost w' = true \/ mw_lost w' = mw_lost w /\
      (mw_mgr w' = mw_mgr w \/ forall added, fst (table_register s (mw_mgr w)) <> Ok added))).
Proof.
  pose proof (register_calls s) as Hc. unfold call_route_table in Hc.
  set (m := mw_mgr (il_world s)). pose proof (register_reply s m) as H.
  change (mw_mgr (il_world s <| mw_links := tail (mw_links (il_world s)) |>)) with m in Hc.
  destruct (hd Answered (mw_links (il_world s))) as [| |applied].
  - destruct (answer_route_request _ m) as [resp m']. destruct Hc as (r & -> & Hr). destruct H as [_ H].
    destruct (registered (register_request s) resp) eqn:Er.
    + left. destruct H as [(_ & -> & Hadd)|[_ ?]]; [|done]. split_and!; [|apply andb_false_r|done|by apply Hadd].
      apply Hr. by exists resp.
    + right. split; [intros ->; destruct (proj1 Hr eq_refl) as (? & [= <-] & ?); congruence|].
      destruct H as [(_ & -> & Hadd)|[-> _]]; (split; [auto|]); right; (split; [apply andb_true_r|]); [right|by left].
      intros added Ha. destruct Hadd as [_ Hadd]. by specialize (Hadd (ex_intro _ added Ha)).
  - destruct Hc as (r & -> & Hr). right. split_and!; [|by left|by right; split; [|left]].
    intros ->. by destruct (proj1 Hr eq_refl) as (? & [= <-] & ?).
  - destruct Hc as (r & -> & Hr). right. split_and!; [intros ->; by destruct (proj1 Hr eq_refl) as (? & [= <-] & ?)| |by left].
    destruct applied; [|by left]. change (snd (answer_route_request (register_request s) m) = m \/
      snd (answer_route_request (register_request s) m) = snd (table_register s m)).
    destruct (answer_route_request _ m) as [resp m']. destruct H as [_ [(_ & -> & _)|[-> _]]]; [by right|by left].
Qed.

Lemma register_clean_ok pid (s : st) m :
  all_clean clean_rule s -> known pid = true ->
  exists added m', register_command_interceptor_routes known pid (PList (_routes_for_enabled_rules s)) true m
                   = (Ok added, m').
Proof.
  intros Hc Hk. unfold register_command_interceptor_routes, mbind, pyM_bind, guard_raise. rewrite Hk.
  cbn [negb mret pyM_ret]. unfold interceptor_register, routes_register. cbv zeta.
  destruct (register_loop_clean pid _ [] [] (snd (routes_drop_process pid (rm_state (with_cache_max m))))
              (routes_clean s Hc)) as (r & t' & E).
  unfold _routes_for_enabled_rules. rewrite E. by eexists _, _.
Qed.

Lemma register_unknown pid raw replace m :
  known pid = false -> snd (register_command_interceptor_routes known pid raw replace m) = m /\
    exists e, fst (register_command_interceptor_routes known pid raw replace m) = Err e.
Proof. intros Hk. unfold register_command_interceptor_routes, mbind, pyM_bind, guard_raise. rewrite Hk. eauto. Qed.

(** Whatever becomes of a registration with clean names, the table is sound. *)
Lemma table_register_ok (s : st) m : all_clean clean_rule s -> routes_ok m -> routes_ok (snd (table_register s m)).
Proof.
  intros Hc Hok. destruct (known (il_process_id s)) eqn:Hk.
  - destruct (register_clean_ok (il_process_id s) s m Hc Hk) as (added & m' & E). rewrite E.
    by destruct (routes_ok_register _ _ _ _ _ _ _ E Hok).
  - by destruct (register_unknown (il_process_id s) (PList (_routes_for_enabled_rules s)) true m Hk) as [-> _].
Qed.

Lemma system_keeps : manager_keeps clean_rule routed.
Proof.
  constructor.
  - intros pid w l. cbn. by destruct (sr_clock (mw_rest w)).
  - intros pid w l p. cbn. by destruct (sr_yaml_file p (mw_rest w)).
  - intros s s' l Hc E [Hok _]. pose proof (register_answer s) as Hr. rewrite E in Hr. cbv zeta in Hr.
    destruct Hr as [(_ & _ & Hm & added & Ha)|[? _]]; [|done].
    set (m := mw_mgr (il_world s)) in *. set (pid := il_process_id s) in *.
    destruct (register_command_interceptor_routes known pid _ true m) as [r m1] eqn:Em. cbn in Hm, Ha. subst r.
    destruct (routes_ok_register _ _ _ _ _ _ _ Em Hok) as (Hok1 & _ & raw & new & [= <-] & Hrt & Hnew & Hkeys).
    split; [by rewrite Hm|]. intros _ i r Hin. rewrite Hm, Hrt. rewrite Forall_forall in Hnew.
    destruct (Hkeys (route_json (rule_route r))) as (rt & Hrn & Hk).
    { apply list_elem_of_fmap. exists (rule_route r). split; [done|]. apply distinct_routes_elem.
      split; [|set_solver]. apply list_elem_of_fmap. exists r. split; [done|].
      apply list_elem_of_fmap. by exists (i, r). }
    rewrite route_json_key in Hk by (by eapply enabled_rules_clean). injection Hk as Hd Ha.
    exists rt. split_and!; [set_solver|by apply Hnew|done|done].
  - intros s s' e l Hc E [Hok Hv]. pose proof (register_answer s) as Hr. rewrite E in Hr. cbv zeta in Hr.
    destruct Hr as [[? _]|(_ & Hm & Hl)]; [done|].
    assert (routes_ok (mw_mgr (il_world s'))) as Hok'.
    { destruct Hm as [->| ->]; [done|by apply table_register_ok]. }
    split; [done|]. intros Hlost. destruct Hl as [?|[Hl Hsame]]; [congruence|]. rewrite Hl in Hlost.
    enough (mw_mgr (il_world s') = mw_mgr (il_world s)) as -> by by apply Hv.
    destruct Hsame as [?|Hbad]; [done|]. destruct Hm as [?|Hm]; [done|].
    destruct (known (il_process_id s)) eqn:Hk.
    + destruct (register_clean_ok (il_process_id s) s (mw_mgr (il_world s)) Hc Hk) as (added & m' & Ereg).
      destruct (Hbad added). by rewrite Ereg.
    + rewrite Hm. apply register_unknown. done.
Qed.

(** ** Histories of the system

    The process starts and handles requests other than a stop; between two
    requests the world changes, but nobody else takes this process's routes
    away or breaks the table.  While a request of this process is unanswered
    the manager may still come to apply it. *)
Definition env_step (pid : string) (w w' : mworld V) : Prop :=
  routes_ok (mw_mgr w') /\ mw_lost w' = mw_lost w /\
  (mw_lost w = false ->
   forall rt, rt ∈ routes (rm_state (mw_mgr w)) -> rt_process_id rt = pid -> rt ∈ routes (rm_state (mw_mgr w'))).

Inductive sys_reach : st -> Prop :=
| sys_init w pid rulesets rules rules_dir s :
    routes_ok (mw_mgr w) -> interlock_init w pid rulesets rules rules_dir = (Ok tt, s) ->
    all_clean clean_rule s -> sys_reach s
| sys_rpc req s :
    sys_reach s -> py_str (dget_or req "type" (PStr "")) <> "process.stop" -> loads_clean clean_rule req s ->
    sys_reach (snd (_handle_rpc exc_repr req s))
| sys_env w s :
    sys_reach s -> env_step (il_process_id s) (il_world s) w -> sys_reach (s <| il_world := w |>).

Lemma env_step_routed pid w w' l : env_step pid w w' -> routed pid w l -> routed pid w' l.
Proof.
  intros (Hok & Hl & Hkeep) [_ Hr]. split; [done|]. rewrite Hl. intros Hlost i r Hin.
  destruct (Hr Hlost i r Hin) as (rt & ? & ? & ? & ?). exists rt. split_and!; auto.
Qed.

Lemma collect_mgr paths (s : st) r s' :
  collect_rulesets paths s = (r, s') -> mw_mgr (il_world s') = mw_mgr (il_world s).
Proof.
  revert s r s'. induction paths as [|p paths IH]; intros s r s'; cbn [collect_rulesets]; [by intros [= _ <-]|].
  unfold mbind, pyM_bind, _load_ruleset. cbn [yaml_file system_world].
  destruct (sr_yaml_file _ _) as [raw v]. cbv zeta.
  destruct (raw ≫= _) as [rs|x]; [|by intros [= _ <-]].
  destruct (collect_rulesets paths _) as [[more|x] s1] eqn:E; intros [= _ <-]; by apply IH in E.
Qed.

Lemma add_rulesets_world l (s : st) r s' :
  forM add_ruleset l s = (r, s') -> il_world s' = il_world s.
Proof.
  revert s. induction l as [|e l IH]; intros s; cbn [forM]; [by intros [= <- <-]|].
  unfold mbind, pyM_bind, add_ruleset. destruct (od_get _ _); [by intros [= _ <-]|].
  intros E. by rewrite (IH _ E).
Qed.

Lemma init_covered w pid rulesets rules rules_dir s :
  routes_ok (mw_mgr w) -> interlock_init w pid rulesets rules rules_dir = (Ok tt, s) ->
  all_clean clean_rule s -> covered routed s.
Proof.
  intros Hok Hinit Hc. unfold interlock_init, mbind, pyM_bind in Hinit.
  destruct (_normalize_rulesets_arg rulesets rules rules_dir (blank w pid)) as [[l|x] s1] eqn:E1; [|done].
  assert (mw_mgr (il_world s1) = mw_mgr w) as Hm1.
  { revert E1. unfold _normalize_rulesets_arg.
    destruct rulesets; [destruct rules, rules_dir; try discriminate; by intros [= _ <-]|].
    destruct (resolve_rule_paths _ _ _); [discriminate|]. apply collect_mgr. }
  destruct (forM add_ruleset l s1) as [[[]|x] s2] eqn:E2; [|done]. apply add_rulesets_world in E2.
  destruct (register_frame s2) as [w' Hw']. rewrite Hinit in Hw'. cbn in Hw'. subst s.
  refine (mk_registered _ _ system_keeps s2 _ [] Hc Hinit _). split; [by rewrite E2, Hm1|set_solver].
Qed.

Lemma sys_reach_ok s : sys_reach s -> il_inv s /\ all_clean clean_rule s /\ covered routed s.
Proof.
  induction 1 as [w pid rulesets rules rules_dir s Hok Hinit Hc|req s _ (Hi & Hc & Hv) Ht Hl|w s _ (Hi & Hc & Hv) Henv].
  - split_and!; [by eapply init_inv|done|by eapply init_covered].
  - destruct (handle_rpc_answers exc_repr _ _ system_keeps req s Hi Ht)
      as (reply & s' & E & _ & Hinv & _ & _ & Hcc). rewrite E. cbn. split; [done|]. by apply Hcc.
  - split_and!; [by apply (il_inv_tables s)|done|]. eapply env_step_routed; [exact Henv|exact Hv].
Qed.

(** ** The interlock in the chain

    The chain calls this process by its RPC handler, and other processes by
    [others]. *)
Section chain.
Context (pid : string) (others : string -> pyval -> st -> CallResult * st).
Context (is_route_available : string -> st -> bool) (monotonic : st -> Q).
Context (request_id caller_process_id : pyval).

Definition call_process (p : string) (req : pyval) (s : st) : CallResult * st :=
  if String.eqb p pid then
    match req with
    | PDict d =>
        match _handle_rpc exc_repr d s with
        | (Ok reply, s') => (("ok", PDict reply, None), s')
        | (Err e, s') => (("error", PNone, Some (exc_str e)), s')
        end
    | _ => (("error", PNone, None), s)
    end
  else others p req s.

(** The lookups in the dispatch table, whatever the handlers are. *)
Lemma check_lookup {H} (h1 h2 h3 h4 h5 h6 h7 h8 h9 h10 h11 : H) :
  let r := build_registry
    [("process.capabilities", h1); ("interlock.list", h2); ("interlock.status", h3); ("interlock.load", h4);
     ("interlock.enable", h5); ("interlock.disable", h6); ("interlock.enable_rule", h7);
     ("interlock.disable_rule", h8); ("interlock.enable_all", h9); ("interlock.disable_all", h10);
     ("command_interceptor.check", h11)] [("interlock.get_status", "interlock.status")] in
  canonical_action r (PStr "command_interceptor.check") = "command_interceptor.check" /\
  od_get (rg_handlers r) (normalize_rpc_action (PStr "command_interceptor.check")) = Some h11.
Proof. by vm_compute. Qed.

Lemma check_dispatch req s :
  dget req "type" = PStr "command_interceptor.check" ->
  _handle_rpc exc_repr req s = _rpc_interlock_check exc_repr req s.
Proof.
  intros Ht.
  assert (dget_or req "type" (PStr "") = PStr "command_interceptor.check") as Ht'.
  { unfold dget in Ht. unfold dget_or. destruct (od_get req "type"); [done|discriminate]. }
  unfold _handle_rpc, mbind, pyM_bind, _handle_common_rpc. rewrite Ht'. cbn [py_str].
  change (String.eqb "command_interceptor.check" "process.stop") with false. cbv iota.
  unfold dispatch_with_canonical, canonicalize_request. rewrite Ht, Ht'.
  pose proof (check_lookup (_rpc_interlock_capabilities (W := mworld V)) _rpc_interlock_list _rpc_interlock_status
    _rpc_interlock_load (_rpc_interlock_enable_disable true) (_rpc_interlock_enable_disable false)
    (_rpc_interlock_enable_rule_disable_rule true) (_rpc_interlock_enable_rule_disable_rule false)
    (_rpc_interlock_enable_all_disable_all true) (_rpc_interlock_enable_all_disable_all false)
    (_rpc_interlock_check exc_repr)) as [Hc Hg].
  unfold _rpc_registry, handlers.
  rewrite Hc. change (strip (py_str (PStr "command_interceptor.check"))) with "command_interceptor.check".
  rewrite String.eqb_refl. cbn [nonempty negb andb]. rewrite andb_false_r, Ht. by rewrite Hg.
Qed.

(** A check never changes the tables. *)
Lemma check_tables req s : same_tables s (snd (_rpc_interlock_check exc_repr req s)).
Proof.
  unfold _rpc_interlock_check.
  destruct (_check_request_command req) as [| | | | | |command]; try done. cbv zeta.
  match goal with |- context [if ?b then _ else _] => destruct b end; [done|].
  match goal with |- context [clock ?x] => destruct (clock x) as [now w] end.
  match goal with |- context [check_loop _ ?q ?d ?a ?n ?r ?c ?x] =>
    pose proof (check_loop_spec exc_repr q d a n r c x) as Hl; destruct (check_loop exc_repr q d a n r c x) as [reply s'] end.
  by destruct Hl as (Hl & _).
Qed.

Context (Hothers : forall p req s, same_tables s (snd (others p req s))).

#[local] Abbreviation admits_ := (admits is_route_available call_process monotonic request_id caller_process_id).
#[local] Abbreviation admitted_ := (admitted is_route_available call_process monotonic request_id caller_process_id).

Lemma admits_tables d a s c r s1 c1 : admits_ d a s c r s1 c1 -> same_tables s s1.
Proof.
  intros (status & resp & cerr & _ & _ & Hcall & _). unfold call_process in Hcall.
  destruct (String.eqb_spec (_route_process_id r) pid) as [Hp|Hp].
  - unfold _build_interceptor_request in Hcall. set (q := [_; _; _]) in Hcall.
    rewrite (check_dispatch q s eq_refl) in Hcall. pose proof (check_tables q s) as Hs.
    destruct (_rpc_interlock_check exc_repr q s) as [[reply|e] s']; [|discriminate].
    by injection Hcall as _ _ _ <-.
  - pose proof (Hothers (_route_process_id r)
      (_build_interceptor_request monotonic c request_id caller_process_id s) s) as Hs. by rewrite Hcall in Hs.
Qed.

Lemma same_tables_trans (s1 s2 s3 : st) : same_tables s1 s2 -> same_tables s2 s3 -> same_tables s1 s3.
Proof. intros (?&?&?&?&?) (?&?&?&?&?). split_and!; congruence. Qed.

Lemma same_tables_rules (s s' : st) : same_tables s s' -> enabled_rules s' = enabled_rules s.
Proof. intros (?&?&?&?&?). symmetry. by apply enabled_rules_proper, il_equiv_tables. Qed.

(** The turn of a route of the chain: what came before it, the state and the
    command it is asked about, and what comes after. *)
Lemma admitted_turn d a s c chain s2 c2 r :
  admitted_ d a s c chain s2 c2 -> (exists v, c = command_of d a v) -> r ∈ chain ->
  exists pre post s1 v s1' c1', chain = pre ++ r :: post /\ admitted_ d a s c pre s1 (command_of d a v) /\
    same_tables s s1 /\ admits_ d a s1 (command_of d a v) r s1' c1' /\ admitted_ d a s1' c1' post s2 c2.
Proof.
  induction 1 as [|s c x s1 c1 rest s2 c2 Had Hrest IH]; intros [v ->]; [by intros []%not_elem_of_nil|].
  intros [-> |Hr]%elem_of_cons.
  - exists [], rest, s, v, s1, c1. split_and!; try done. constructor.
  - destruct IH as (pre & post & s' & v' & s'' & c'' & -> & Hpre & Hst & Ha & Hpost); [|done|].
    { destruct Had as (?&?&?&_&_&_&_&_&_&[[_ ->]|(?&p&_&_&_&_&_&->)]); by eexists. }
    exists (x :: pre), post, s', v', s'', c''. split_and!; try done; [by econstructor|].
    eapply same_tables_trans; [by eapply admits_tables|done].
Qed.

(** When this process admits a command, its rules have passed. *)
Lemma admits_passed d a s v r s1 c1 :
  _route_process_id r = pid -> d <> "" -> a <> "" -> admits_ d a s (command_of d a v) r s1 c1 ->
  exists now w p c', clock (il_world s) = (now, w) /\ v = PDict p /\
    all_pass w now d a (enabled_rules s) (command_of d a (PDict p)) c'.
Proof.
  intros Hp Hd Ha (status & resp & cerr & _ & _ & Hcall & _ & _ & Hal & _). unfold call_process in Hcall.
  rewrite Hp, String.eqb_refl in Hcall. unfold _build_interceptor_request in Hcall. set (q := [_; _; _]) in Hcall.
  rewrite (check_dispatch q s eq_refl) in Hcall.
  destruct (is_dict v) eqn:Hv.
  - destruct v as [| | | | | |p]; try discriminate.
    assert (well_formed_check q d a p) as Hwf by (exists (command_of d a (PDict p)); split_and!; done).
    pose proof (check_spec exc_repr q s d a p Hwf) as Hs. destruct (clock (il_world s)) as [now w].
    destruct Hs as (reply & s' & E & _ & _ & _ & Hcase). rewrite E in Hcall. injection Hcall as _ <- _ _.
    destruct Hcase as [(c' & Hpass & _)|(i & ru & _ & Hf & _)]; [|congruence].
    by exists now, w, p, c'.
  - exfalso. unfold _rpc_interlock_check in Hcall.
    change (_check_request_command q) with (PDict (command_of d a v)) in Hcall.
    cbv beta iota zeta in Hcall.
    change (dget_or (command_of d a v) "params" (PDict [])) with v in Hcall. rewrite Hv in Hcall.
    rewrite orb_true_r in Hcall. injection Hcall as _ <- _ _. discriminate.
Qed.
End chain.

Lemma rule_route_match (r : Rule) rt d a :
  rt_device_id rt = ru_device_id r -> rt_action rt = ru_action r ->
  match_command_interceptor_route rt d a = _rule_matches r d a.
Proof. intros E1 E2. unfold match_command_interceptor_route, _rule_matches. by rewrite E1, E2. Qed.

(** C2. No bypass.  In every state of a running interlock and its manager
    (any start, any requests that load rulesets with clean names, any calls to
    the manager that are not delivered or not answered, any change by others
    that leaves this process's routes alone) in which no request of the
    interlock is left unanswered since its last registration, a command that
    an enabled rule matches and that comes out of the manager's interceptor
    chain has been checked: the interlock is in the chain, and at its turn,
    with the state and the parameters that the interceptors before it left of
    this very command, every enabled rule that matches it passed, telemetry
    and condition included; it was what the interlock then let through that
    the interceptors after it were asked about.  (After an unanswered request
    the table and the rules may differ: [InterlockDemo.lost_reply_bypass].) *)
Theorem no_bypass s others is_route_available monotonic cmd request_id caller log c1 t m' :
  let d := py_str (dget_or cmd "device_id" (PStr "")) in
  let a := py_str (dget_or cmd "action" (PStr "")) in
  let call := call_process (il_process_id s) others in
  let admitted_ := admitted is_route_available call monotonic request_id caller d a in
  sys_reach s -> mw_lost (il_world s) = false -> strip (il_process_id s) = il_process_id s -> d <> "" -> a <> "" ->
  (forall p req s, same_tables s (snd (others p req s))) ->
  (exists i r, (i, r) ∈ enabled_rules s /\ _rule_matches r d a = true) ->
  apply_command_interceptors is_route_available call monotonic
    cmd request_id caller (mw_mgr (il_world s)) (mkIst s log) = (Ok (true, Some c1, None), t, m') ->
  exists pre x post s1 p s2 c2 now w c',
    compute_chain (routes (rm_state (mw_mgr (il_world s)))) d a = pre ++ x :: post /\
    rt_process_id x = il_process_id s /\
    admitted_ s (command_of d a (dget_or cmd "params" (PDict []))) pre s1 (command_of d a (PDict p)) /\
    same_tables s s1 /\ clock (il_world s1) = (now, w) /\
    all_pass w now d a (enabled_rules s) (command_of d a (PDict p)) c' /\
    admits is_route_available call monotonic request_id caller d a s1 (command_of d a (PDict p)) x s2 c2 /\
    admitted_ s2 c2 post (iw t) c1.
Proof.
  intros d a call admitted_ Hr Hlost Hpid Hd Ha Hothers (i & ru & Hin & Hm) Happ.
  destruct (sys_reach_ok s Hr) as (_ & _ & [Hok Hrt]).
  destruct (Hrt Hlost i ru Hin) as (rt & Hrin & Hrp & Hrd & Hra).
  unfold apply_command_interceptors in Happ. fold d a in Happ.
  pose proof (routes_ok_chain known d a (mw_mgr (il_world s)) Hok) as Hch.
  destruct (interceptor_chain d a (mw_mgr (il_world s))) as [chain m1]. destruct Hch as (_ & _ & _ & ->).
  assert (il_process_id s ∈ rt_process_id <$> compute_chain (routes (rm_state (mw_mgr (il_world s)))) d a) as Hc.
  { eapply chain_has_process; [apply Hok|exact Hrin|by rewrite (rule_route_match ru)|done]. }
  apply list_elem_of_fmap in Hc as (x & Hx & Hxin). injection Happ as Happ _.
  set (chain := compute_chain _ d a) in *. unfold apply_command_interceptor_chain in Happ.
  change (py_str (dget_or (command_of d a (dget_or cmd "params" (PDict []))) "device_id" (PStr ""))) with d in Happ.
  change (py_str (dget_or (command_of d a (dget_or cmd "params" (PDict []))) "action" (PStr ""))) with a in Happ.
  change (dget_or (command_of d a (dget_or cmd "params" (PDict []))) "params" (PDict [])) with (dget_or cmd "params" (PDict [])) in Happ.
  set (v0 := dget_or cmd "params" _) in *.
  pose proof (loop_cases is_route_available call monotonic request_id caller true
                d a chain (command_of d a v0) (mkIst s log)) as Hl. cbv beta in Hl. rewrite Happ in Hl.
  destruct Hl as [_ [(c2 & [= <-] & Hadm & _)|[(?&?&?&_)|(?&?)]]]; [|done..]. cbn [iw] in Hadm.
  destruct (admitted_turn (il_process_id s) others is_route_available monotonic request_id caller Hothers
              d a s _ chain _ _ x Hadm ltac:(by eexists) Hxin) as (pre & post & s1 & v & s2 & c2 & Hch & Hpre & Hst & Hadx & Hpost).
  destruct (admits_passed (il_process_id s) others is_route_available monotonic request_id caller
              d a s1 v x s2 c2) as (now & w & p & c' & Hck & -> & Hpass); [|done|done|done|].
  { unfold _route_process_id. by rewrite <- Hx. }
  exists pre, x, post, s1, p, s2, c2, now, w, c'. split_and!; try done. by rewrite <- (same_tables_rules s s1).
Qed.
End system.

(** ** A concrete system *)
Module InterlockDemo.
#[local] Existing Instance plain_repr.
#[local] Instance arith : PyArith := {|
  float_pow _ _ := Err OverflowError; str_format _ _ := Err (TypeError "") |}.
(** The one expression of the rules below. *)
#[local] Instance syntax : PyExpr := {|
  parse_expr e := if String.eqb e "p.value" then inr (Attribute (Name "p") "value") else inl "invalid syntax";
  get_close_matches _ _ := [] |}.

Definition rule_yaml (device max_age : pyval) : pyval :=
  PDict [("name", PStr "pressure ok"); ("match", PDict [("device_id", device); ("action", PStr "set")]);
         ("inputs", PDict [("telemetry", PList [PDict [("as", PStr "p"); ("device", PStr "gauge");
                                                       ("signal", PStr "pressure"); ("max_age_s", max_age)]])]);
         ("condition", PDict [("lt", PList [PStr "${p.value}"; PInt 5])])].
Definition ruleset_yaml (device max_age : pyval) : pyval :=
  PDict [("version", PInt 1); ("interceptor_id", PStr "vacuum"); ("rules", PList [rule_yaml device max_age])].

(** The gauge reads the value of the surroundings; the text of a load
    request names the device of its rule. *)
#[local] Instance lab : Surroundings Z := {|
  sr_latest v d n :=
    if String.eqb d "gauge" && String.eqb n "pressure"
    then Some [("value", PInt v); ("quality", PStr "OK"); ("age_s", PInt 1)] else None;
  sr_latest_process _ _ _ := None;
  sr_clock v := (100%Q, v);
  sr_yaml_file _ v := (Err (FileNotFoundError ""), v);
  sr_yaml_text text _ := Ok (ruleset_yaml (PStr text) (PInt 2));
  sr_resolve_path p := p;
  sr_glob _ _ _ := []
|}.
Definition known (_ : string) : bool := true.
#[local] Existing Instance system_world.
#[local] Instance world : InterlockWorld (mworld Z) := system_world known.
Definition exc_repr (_ : pyexc) : string := "".

Definition ruleset (device max_age : pyval) : Ruleset :=
  match _parse_ruleset (ruleset_yaml device max_age) "demo" with
  | Ok rs => rs
  | Err _ => mkRuleset "" FNan []
  end.

Definition w0 (pressure : Z) : mworld Z := mkMworld Z (empty_table 2048) [] false pressure.
Definition start (pressure : Z) (device max_age : pyval) : result unit * interlock (mworld Z) :=
  interlock_init (w0 pressure) "interlock" (Some [mkEntry (ruleset device max_age) true None]) None None.
Definition s0 (pressure : Z) : interlock (mworld Z) := snd (start pressure (PStr "laser") (PInt 2)).

Definition cmd : dict := [("device_id", PStr "laser"); ("action", PStr "set"); ("params", PDict [("mw", PInt 9)])].
Definition check_req : dict := [("type", PStr "command_interceptor.check"); ("command", PDict cmd)].
Definition others (p : string) (req : pyval) (s : interlock (mworld Z)) : CallResult * interlock (mworld Z) :=
  (("error", PNone, None), s).
Definition run (s : interlock (mworld Z)) :=
  apply_command_interceptors (fun _ _ => true) (call_process known exc_repr "interlock" others) (fun _ => 0%Q)
    cmd PNone PNone (mw_mgr (il_world s)) (mkIst s []).

Lemma start_ok : start 3 (PStr "laser") (PInt 2) = (Ok tt, s0 3).
Proof. by vm_compute. Qed.

Lemma s0_clean : all_clean clean_rule (s0 3).
Proof.
  intros i e Hi. apply od_get_elem in Hi.
  assert (Forall (fun ie => Forall clean_rule (rs_rules (re_ruleset ie.2))) (il_entries (s0 3))) as Hf.
  { vm_compute. repeat constructor; discriminate. }
  rewrite Forall_forall in Hf. exact (Hf _ Hi).
Qed.

Lemma s0_reach : sys_reach known exc_repr (s0 3).
Proof. eapply (sys_init _ _ (w0 3)); [|exact start_ok|exact s0_clean]. exact (proj1 (rreach_ok known 2048 _ (rreach_init _ _))). Qed.

Lemma no_bypass_witness :
  exists pre x post s1 p now w c',
    compute_chain (routes (rm_state (mw_mgr (il_world (s0 3))))) "laser" "set" = pre ++ x :: post /\
    rt_process_id x = "interlock" /\ clock (il_world s1) = (now, w) /\
    all_pass w now "laser" "set" (enabled_rules (s0 3)) (command_of "laser" "set" (PDict p)) c'.
Proof.
  destruct (no_bypass known exc_repr (s0 3) others (fun _ _ => true) (fun _ => 0%Q) cmd PNone PNone []
           (command_of "laser" "set" (PDict [("mw", PInt 9)])) (snd (fst (run (s0 3)))) (snd (run (s0 3))))
    as (pre & x & post & s1 & p & s2 & c2 & now & w & c' & Hch & Hx & _ & _ & Hck & Hpass & _).
  - exact s0_reach.
  - by vm_compute.
  - by vm_compute.
  - done.
  - done.
  - intros p req s. by split_and!.
  - eexists "vacuum", _. split; [vm_compute; left|by vm_compute].
  - by vm_compute.
  - exists pre, x, post, s1, p, now, w, c'. split_and!; [exact Hch|exact Hx|exact Hck|exact Hpass].
Defined.

Lemma interlock_verdict_exact_witness :
  exists reply s', _rpc_interlock_check exc_repr check_req (s0 7) = (Ok reply, s') /\
    dget reply "allow" = PBool false.
Proof.
  assert (well_formed_check check_req "laser" "set" [("mw", PInt 9)]) as Hwf by by exists cmd.
  destruct (interlock_verdict_exact exc_repr check_req (s0 7) _ _ _ Hwf) as (reply & s' & E & _).
  exists reply, s'. split; [exact E|]. clear -E. revert E. generalize reply. vm_compute. intros r [= <- _]. done.
Defined.

Lemma interlock_requests_atomic_witness :
  exists reply s', _handle_rpc exc_repr [("type", PStr "interlock.enable"); ("request_id", PInt 4)] (s0 3) = (Ok reply, s') /\
    dget reply "request_id" = PInt 4 /\
    (dget reply "ok" = PBool true \/
     dget reply "ok" = PBool false /\ il_equiv (s0 3) s' /\ enabled_rules s' = enabled_rules (s0 3)).
Proof.
  apply (interlock_requests_atomic exc_repr [("type", PStr "interlock.enable"); ("request_id", PInt 4)] (s0 3)).
  - eapply il_reach_init. exact start_ok.
  - by vm_compute.
Defined.

(** A load whose rule has a blank device name is refused and undone here,
    but the manager has already dropped the routes of this process: the old
    rule is still listed as enabled and its command goes unchecked. *)
Definition blank_load : dict :=
  [("type", PStr "interlock.load"); ("params", PDict [("text", PStr "  ")])].

Example refused_load_unhooks_interlock :
  let '(reply, s1) := _handle_rpc exc_repr blank_load (s0 7) in
  (match reply with Ok r => dget r "ok" | Err _ => PNone end) = PBool false /\
  (enabled_rules s1).*2 = rs_rules (ruleset (PStr "laser") (PInt 2)) /\
  fst (interceptor_chain "laser" "set" (mw_mgr (il_world s1))) = [] /\
  fst (fst (run s1)) = Ok (true, Some cmd, None) /\
  fst (fst (run (s0 7))) <> Ok (true, Some cmd, None).
Proof. vm_compute. split_and!; try done. Qed.

(** Switching the rule off, and the manager's answer does not come in time: the
    request fails and the rule is on again here, but the manager has taken the
    routes away; the command goes unchecked. *)
Definition switch_off : dict := [("type", PStr "interlock.disable"); ("params", PDict [("interceptor_id", PStr "vacuum")])].
Definition deaf (pressure : Z) : interlock (mworld Z) :=
  s0 pressure <| il_world := il_world (s0 pressure) <| mw_links := [Unanswered true] |> |>.
Example lost_reply_bypass :
  let '(reply, s1) := _handle_rpc exc_repr switch_off (deaf 7) in
  (match reply with Ok r => dget r "ok" | Err _ => PNone end) = PBool false /\
  (enabled_rules s1).*2 = rs_rules (ruleset (PStr "laser") (PInt 2)) /\
  mw_lost (il_world s1) = true /\
  fst (fst (run s1)) = Ok (true, Some cmd, None) /\
  fst (fst (run (s0 7))) <> Ok (true, Some cmd, None).
Proof. vm_compute. split_and!; try done. Qed.

(** A rule whose device name is padded registers the route of the bare name
    and then never matches the commands it is asked about. *)
Example padded_rule_never_checks :
  let s := snd (start 7 (PStr " laser") (PInt 2)) in
  (rt_process_id <$> fst (interceptor_chain "laser" "set" (mw_mgr (il_world s)))) = ["interlock"] /\
  fst (fst (run s)) = Ok (true, Some cmd, None).
Proof. by vm_compute. Qed.

(** An age limit that is not a number accepts samples of any age. *)
Example nan_limit_never_stale :
  exists b e, parse_telemetry_binding [] (FFin 2) true
      (PDict [("as", PStr "p"); ("device", PStr "gauge"); ("signal", PStr "pressure");
              ("max_age_s", PStr "nan")]) = Ok b /\
    resolve_binding b (Some [("value", PInt 1); ("quality", PStr "OK"); ("age_s", PInt 86400)]) 0 = inl e /\
    dget e "ok" = PBool true.
Proof. eexists _, _. split_and!; [by vm_compute..|by vm_compute]. Qed.
End InterlockDemo.
