(* ===== verification/Watchdog.v ===== *)
(** * Watchdog rules ([processes/watchdog.py])

    Rules that act when telemetry alarms: parsing of rulesets, the trace of a
    condition kept for operators, and the evaluation of one rule over its
    mutable state (arming, stability, confirmation by distinct samples,
    latch and cooldown). *)
From S2P Require Import Prelude PyVal PyNum PyOps Expressions Conditions ProcessBase RulesCommon Interlock.
#[local] Open Scope Z_scope.

Inductive WatchdogAction :=
| CommandAction (device_id action : string) (params : dict) (timeout_s : option pyfloat) (retries : Z)
| ProcessAction (process_id action : string) (params : dict) (timeout_s : option pyfloat) (retries : Z).

Definition wa_action (a : WatchdogAction) : string :=
  match a with CommandAction _ x _ _ _ | ProcessAction _ x _ _ _ => x end.
Definition wa_params (a : WatchdogAction) : dict :=
  match a with CommandAction _ _ p _ _ | ProcessAction _ _ p _ _ => p end.
Definition wa_timeout_s (a : WatchdogAction) : option pyfloat :=
  match a with CommandAction _ _ _ t _ | ProcessAction _ _ _ t _ => t end.
Definition wa_retries (a : WatchdogAction) : Z :=
  match a with CommandAction _ _ _ _ r | ProcessAction _ _ _ _ r => r end.

Record WatchdogArm := mkArm {
  arm_condition : pyval;
  arm_disarm_condition : pyval;          (* [PNone] when there is none *)
  arm_disarm_on_trigger : bool
}.

Record WatchdogConfirmation := mkConfirmation {
  cf_sample_aliases : list string;
  cf_consecutive_samples : Z;
  cf_branch_conditions : dict
}.

Record WatchdogRule := mkWRule {
  wr_name : string;
  wr_severity : string;
  wr_message : option string;
  wr_telemetry : list TelemetryBinding;
  wr_condition : pyval;
  wr_stable_for_s : pyfloat;
  wr_cooldown_s : pyfloat;
  wr_latch : bool;
  wr_on_unknown : string;
  wr_actions : list WatchdogAction;
  wr_arm : option WatchdogArm;
  wr_confirmation : option WatchdogConfirmation
}.

Record WatchdogRuleset := mkWRuleset {
  ws_watchdog_id : string;
  ws_rules : list WatchdogRule;
  ws_enabled : bool
}.

Record WatchdogEntry := mkWEntry { we_ruleset : WatchdogRuleset; we_enabled : bool }.

(** ** Parsing *)
Section parse.
Context `{!PyRepr}.

(** [max(0.0, x)] *)
Definition fmax0 (f : pyfloat) : pyfloat := if fltb (FFin 0) f then f else FFin 0.

Definition _parse_watchdog_arm (rule_raw : dict) (i : Z) : result (option WatchdogArm) :=
  match dget rule_raw "arm" with
  | PNone => Ok None
  | raw =>
      arm ← require_dict raw (rule_parts i ["arm"]);
      if negb (dhas arm "condition") then
        Err (ConfigError (rule_path i ".arm.condition") "condition is required")
      else Ok (Some (mkArm (dget arm "condition") (dget arm "disarm_condition")
                       (coerce_bool (dget arm "disarm_on_trigger") false)))
  end.

Definition confirmation_parts (i : Z) (rest : list path_part) : list path_part :=
  Key "rules" :: Idx i :: Key "confirmation" :: rest.

(** The branches of [any]: their aliases in order and their conditions. *)
Definition parse_branch (i bi : Z) (branch_raw : pyval) : result (string * pyval) :=
  branch ← require_dict branch_raw (confirmation_parts i [Key "any"; Idx bi]);
  alias ← require_str (dget branch "sample_alias") (confirmation_parts i [Key "any"; Idx bi; Key "sample_alias"]);
  if negb (dhas branch "condition") then
    Err (ConfigError (rule_path i (".confirmation.any[" +:+ str_Z bi +:+ "].condition")) "condition is required")
  else Ok (alias, dget branch "condition").

Definition confirmation_sources (obj : dict) (i : Z) : result (list string * dict) :=
  match dget obj "any" with
  | PNone =>
      alias ← require_str (dget obj "sample_alias") (confirmation_parts i [Key "sample_alias"]);
      Ok ([alias], [])
  | any_raw =>
      if dhas obj "sample_alias" then
        Err (ConfigError (rule_path i ".confirmation") "use sample_alias or any, not both")
      else
        branches ← normalize_list any_raw (confirmation_parts i [Key "any"]);
        if negb (match branches with [] => false | _ => true end) || negb (forallb is_dict branches) then
          Err (ConfigError (rule_path i ".confirmation.any") "must be a non-empty list of objects")
        else
          parsed ← mapi_result (parse_branch i) 0 branches;
          Ok (fst <$> parsed, foldl (fun acc '(k, v) => od_set acc k v) [] parsed)
  end.

Definition _parse_watchdog_confirmation (rule_raw : dict) (i : Z) (telemetry : list TelemetryBinding)
    : result (option WatchdogConfirmation) :=
  match dget rule_raw "confirmation" with
  | PNone => Ok None
  | raw =>
      obj ← require_dict raw (confirmation_parts i []);
      '(aliases, branch_conditions) ← confirmation_sources obj i;
      if negb (bool_decide (NoDup aliases)) then
        Err (ConfigError (rule_path i ".confirmation") "sample aliases must be unique")
      else
        let unknown := filter (fun a => a ∉ (tb_alias <$> telemetry)) aliases in
        match unknown with
        | _ :: _ =>
            Err (ConfigError (rule_path i ".confirmation")
                   ("sample alias is not a telemetry input: " +:+
                    str_list (PStr <$> sorted_set (list_to_set unknown))))
        | [] =>
            n ← coerce_int (dget obj "consecutive_samples") (Some 0);
            if n <=? 0 then
              Err (ConfigError (rule_path i ".confirmation.consecutive_samples") "must be a positive integer")
            else Ok (Some (mkConfirmation aliases n branch_conditions))
        end
  end.

Definition action_path (i ai : Z) (rest : string) : string :=
  rule_path i (".actions[" +:+ str_Z ai +:+ "]" +:+ rest).
Definition action_parts (i ai : Z) (ks : list string) : list path_part :=
  Key "rules" :: Idx i :: Key "actions" :: Idx ai :: (Key <$> ks).

Definition parse_action (i ai : Z) (action_raw : pyval) : result WatchdogAction :=
  match action_raw with
  | PDict raw =>
      let has_command := dhas raw "command" in
      if Bool.eqb has_command (dhas raw "process") then
        Err (ConfigError (action_path i ai "") "each action must be exactly one of 'command' or 'process'")
      else
        let kind := if has_command then "command" else "process" in
        spec ← require_dict (dget raw kind) (action_parts i ai [kind]);
        action ← require_str (dget spec "action") (action_parts i ai [kind; "action"]);
        match py_or (dget_or spec "params" (PDict [])) (PDict []) with
        | PDict params =>
            timeout ← match dget spec "timeout_s" with PNone => Ok None | t => Some <$> py_float t end;
            retries ← coerce_int (dget spec "retries") (Some 0);
            let retries := if retries <? 0 then 0 else retries in
            if has_command then
              device_id ← require_str (dget spec "device_id") (action_parts i ai ["command"; "device_id"]);
              Ok (CommandAction device_id action params timeout retries)
            else
              process_id ← require_str (dget spec "process_id") (action_parts i ai ["process"; "process_id"]);
              Ok (ProcessAction process_id action params timeout retries)
        | _ => Err (ConfigError (action_path i ai ("." +:+ kind +:+ ".params")) "params must be a dict")
        end
  | _ => Err (ConfigError (action_path i ai "") "must be an object/dict")
  end.

Definition _parse_watchdog_actions (rule_raw : dict) (i : Z) : result (list WatchdogAction) :=
  raw ← normalize_list (dget rule_raw "actions") (rule_parts i ["actions"]);
  match raw with
  | [] => Err (ConfigError (rule_path i ".actions") "actions are required")
  | _ => mapi_result (parse_action i) 0 raw
  end.

Record watchdog_defaults := mkDefaults {
  wdf_max_age : pyfloat;
  wdf_stable : pyfloat;
  wdf_cooldown : pyfloat;
  wdf_latch : bool;
  wdf_on_unknown : string
}.

Definition _parse_watchdog_defaults (obj : dict) : result watchdog_defaults :=
  d ← optional_dict (dget obj "defaults") [Key "defaults"];
  max_age ← coerce_float (dget d "max_age_s") (Some (FFin 2));
  stable ← coerce_float (dget d "stable_for_s") (Some (FFin 0));
  cooldown ← coerce_float (dget d "cooldown_s") (Some (FFin 5));
  on_unknown ← parse_on_unknown (dget d "on_unknown") [Key "defaults"; Key "on_unknown"] "ignore";
  Ok (mkDefaults max_age stable cooldown (coerce_bool (dget d "latch") false) on_unknown).

(** [seen] are the names of the earlier rules. *)
Definition _parse_watchdog_rule (watchdog_id : string) (df : watchdog_defaults) (seen : list string)
    (i : Z) (rule_raw : dict) : result WatchdogRule :=
  name ← require_str (dget rule_raw "name") (rule_parts i ["name"]);
  if bool_decide (name ∈ seen) then
    Err (ConfigError (rule_path i ".name")
           ("duplicate rule " +:+ repr_str name +:+ " in watchdog " +:+ repr_str watchdog_id))
  else
    severity ← parse_severity (dget rule_raw "severity") (rule_parts i ["severity"]);
    inputs ← optional_dict (dget rule_raw "inputs") (rule_parts i ["inputs"]);
    telemetry ← parse_telemetry_bindings inputs (rule_parts i ["inputs"]) (wdf_max_age df) true false;
    if negb (dhas rule_raw "condition") then
      Err (ConfigError (rule_path i ".condition") "condition is required")
    else
      stable ← coerce_float (dget rule_raw "stable_for_s") (Some (wdf_stable df));
      cooldown ← coerce_float (dget rule_raw "cooldown_s") (Some (wdf_cooldown df));
      on_unknown ← parse_on_unknown (dget rule_raw "on_unknown") (rule_parts i ["on_unknown"]) (wdf_on_unknown df);
      arm ← _parse_watchdog_arm rule_raw i;
      confirmation ← _parse_watchdog_confirmation rule_raw i telemetry;
      actions ← _parse_watchdog_actions rule_raw i;
      Ok (mkWRule name severity (optional_text (dget rule_raw "message")) telemetry (dget rule_raw "condition")
            (fmax0 stable) (fmax0 cooldown) (coerce_bool (dget rule_raw "latch") (wdf_latch df))
            on_unknown actions arm confirmation).

Fixpoint parse_rules (watchdog_id : string) (df : watchdog_defaults) (source : string) (seen : list string)
    (i : Z) (raws : list dict) : result (list WatchdogRule) :=
  match raws with
  | [] => Ok []
  | raw :: rest =>
      r ← with_source source (_parse_watchdog_rule watchdog_id df seen i raw);
      rs ← parse_rules watchdog_id df source (wr_name r :: seen) (i + 1) rest;
      Ok (r :: rs)
  end.

Definition _parse_watchdog_rules (rules_raw : list dict) (watchdog_id : string) (df : watchdog_defaults)
    (source : string) : result (list WatchdogRule) :=
  parse_rules watchdog_id df source [] 0 rules_raw.

Definition _parse_watchdog_ruleset (raw : pyval) (source : string) : result WatchdogRuleset :=
  obj ← require_dict raw [];
  _ ← parse_version obj false;
  watchdog_id ← require_str (dget obj "watchdog_id") [Key "watchdog_id"];
  df ← _parse_watchdog_defaults obj;
  rules_raw ← require_list_of_dicts (dget obj "rules") [Key "rules"];
  rules ← _parse_watchdog_rules rules_raw watchdog_id df source;
  Ok (mkWRuleset watchdog_id rules (coerce_bool (dget obj "enabled") true)).
End parse.

(** ** The trace of a condition

    Traces keep rendered values; [_condition_trace_value] changes nothing
    about a value made of scalars, lists and dicts with text keys. *)
Section trace.
Context `{!PyRepr, !PyArith, !PyExpr}.
Context (exc_repr : pyexc -> string) (env : Env).

(** [_TRACE_COMPARATORS], in the order they are tried *)
Definition trace_comparators : list (string * (pyval -> pyval -> result bool)) :=
  [("eq", fun a b => Ok (py_eqb a b)); ("ne", fun a b => Ok (negb (py_eqb a b)));
   ("gt", py_order CGt); ("ge", py_order CGtE); ("lt", py_order CLt); ("le", py_order CLtE);
   ("abs_lt", fun a b => x ← py_abs a; py_order CLt x b)].

Definition _condition_comparison_trace (name : string) (f : pyval -> pyval -> result bool)
    (operands : pyval) : result dict :=
  '(a, b) ← unpack2 operands;
  l ← render_templates env a;
  r ← render_templates env b;
  res ← f l r;
  Ok [("kind", PStr "comparison"); ("operator", PStr name); ("result", PBool res); ("left", l); ("right", r)].

Definition child_result (child : dict) : pyval := dget child "result".

Definition _condition_group_result (name : string) (children : list dict) : pyval :=
  let results := child_result <$> children in
  let has v := existsb (pyval_eqb v) results in
  if String.eqb name "and" then
    if has (PBool false) then PBool false else if has PNone then PNone else PBool true
  else
    if has (PBool true) then PBool true else if has PNone then PNone else PBool false.

(** [_safe_condition_evaluation_trace] *)
Definition safe_trace (r : result dict) : dict :=
  match r with
  | Ok t => t
  | Err e => [("kind", PStr "error"); ("result", PNone);
              ("error", PStr (or_else (Some (exc_str e)) (exc_repr e)))]
  end.

Definition value_trace (kind : string) (v : pyval) : result dict :=
  resolved ← render_templates env v;
  Ok [("kind", PStr kind); ("result", PBool (truthy resolved)); ("resolved", resolved)].

Definition group_trace (name : string) (children : list dict) : dict :=
  [("kind", PStr "group"); ("operator", PStr name); ("result", _condition_group_result name children);
   ("children", PList (PDict <$> children))].

Definition not_trace (child : dict) : dict :=
  [("kind", PStr "not");
   ("result", match child_result child with PNone => PNone | v => PBool (negb (truthy v)) end);
   ("children", PList [PDict child])].

Record trace_operand := mkTraceOperand {
  to_raw : pyval;
  to_self : unit -> result dict;
  to_items : result (list (unit -> result dict))
}.

Definition trace_object (d : dict) (ops : list (string * trace_operand)) : result dict :=
  match od_get ops "always" with
  | Some o => value_trace "always" (to_raw o)
  | None =>
      match list_find (fun '(k, _) => is_Some (od_get ops k)) trace_comparators with
      | Some (_, (name, f)) =>
          match od_get ops name with
          | Some o => _condition_comparison_trace name f (to_raw o)
          | None => Ok []
          end
      | None =>
          let group name (next : result dict) :=
            match od_get ops name with
            | Some o => l ← to_items o; Ok (group_trace name ((fun t => safe_trace (t tt)) <$> l))
            | None => next
            end in
          group "and" (group "or"
            match od_get ops "not" with
            | Some o => Ok (not_trace (safe_trace (to_self o tt)))
            | None => Ok [("kind", PStr "value"); ("result", PBool false); ("resolved", PDict d)]
            end)
      end
  end.

Fixpoint _condition_evaluation_trace (cond : pyval) : result dict :=
  match cond with
  | PDict d =>
      trace_object d
        ((fix operands (d : dict) : list (string * trace_operand) :=
           match d with
           | [] => []
           | (k, v) :: r =>
               (k, mkTraceOperand v (fun _ => _condition_evaluation_trace v)
                     (match v with
                      | PList l => Ok ((fix items (l : list pyval) : list (unit -> result dict) :=
                                          match l with
                                          | [] => []
                                          | c :: l' => (fun _ => _condition_evaluation_trace c) :: items l'
                                          end) l)
                      | _ => fmap (M := result) (fmap (M := list) (fun c (_ : unit) => value_trace "value" c)) (py_iter v)
                      end)) :: operands r
           end) d)
  | _ => value_trace "value" cond
  end.

Definition _safe_condition_evaluation_trace (cond : pyval) : dict :=
  safe_trace (_condition_evaluation_trace cond).
End trace.

(** ** The state of one rule *)
Record confirmation_progress := mkProgressC {
  cp_count : Z;
  cp_last : pyval;                       (* [last_t_mono_recv] *)
  cp_evidence : list pyval
}.

Record RuleState := mkRuleState {
  st_stable_since : option Q;
  st_last_trigger : option Q;
  st_latched : bool;
  st_armed : bool;
  st_last_evaluated : option Q;
  st_alarm : option bool;
  st_unknown : option bool;
  st_snapshot : option dict;
  st_condition_evaluation : option dict;
  st_active_trip_id : option string;
  st_active_trip_recovered : bool;
  st_last_action_chain : option dict;
  st_confirmation : option (list (string * confirmation_progress))
}.

#[export] Instance rule_state_eta : Eta RuleState := fun s =>
  mkRuleState (st_stable_since s) (st_last_trigger s) (st_latched s) (st_armed s) (st_last_evaluated s)
    (st_alarm s) (st_unknown s) (st_snapshot s) (st_condition_evaluation s) (st_active_trip_id s)
    (st_active_trip_recovered s) (st_last_action_chain s) (st_confirmation s).

Definition fresh_state : RuleState :=
  mkRuleState None None false false None None None None None None false None None.

(** ** Telemetry of a rule *)
Definition _resolve_watchdog_binding_age_s (sample : dict) (now_mono : Q) : result (option pyfloat) :=
  match dget sample "age_s", dget sample "t_mono" with
  | PNone, PNone => Ok None
  | PNone, t => (fun f => Some (fsub (FFin now_mono) f)) <$> py_float t
  | a, _ => Some <$> py_float a
  end.

(** The names of an alias; [value] is [PNone] unless the sample is usable. *)
Definition alias_env (b : TelemetryBinding) (value age quality : pyval) (ok : bool) : dict :=
  [("value", value); ("age_s", age); ("quality", quality); ("device", PStr (tb_device_id b));
   ("signal", PStr (tb_signal b)); ("ok", PBool ok)].

(** The snapshot entry, the environment of the alias, and whether a required
    input is unknown. *)
Definition _resolve_watchdog_binding (b : TelemetryBinding) (telemetry_getter : getter) (now_mono : Q)
    : result (dict * option dict * bool) :=
  let entry := [("device", PStr (tb_device_id b)); ("signal", PStr (tb_signal b));
                ("max_age_s", PFloat (tb_max_age_s b))] in
  match telemetry_getter (tb_device_id b) (tb_signal b) with
  | None =>
      let entry := dict_update entry [("value", PNone); ("quality", PStr "MISSING"); ("age_s", PNone);
                                      ("ok", PBool false)] in
      Ok (if tb_required b then (entry, None, true)
          else (entry, Some (alias_env b PNone PNone (PStr "MISSING") false), false))
  | Some sample =>
      age_s ← _resolve_watchdog_binding_age_s sample now_mono;
      let quality := dget sample "quality" in
      let age := from_option PFloat PNone age_s in
      let entry := dict_update entry [("value", dget sample "value"); ("quality", quality); ("age_s", age);
                                      ("t_mono_recv", dget sample "t_mono_recv")] in
      let ok := py_eqb quality (PStr "OK") &&
                match age_s with Some f => fleb f (tb_max_age_s b) | None => false end in
      let entry := od_set entry "ok" (PBool ok) in
      Ok (if ok then (entry, Some (alias_env b (dget sample "value") age quality true), false)
          else if tb_required b then (entry, None, true)
          else (entry, Some (alias_env b PNone age quality false), false))
  end.

Fixpoint resolve_watchdog_bindings (bs : list TelemetryBinding) (telemetry_getter : getter) (now_mono : Q)
    (env : Env) (snapshot : dict) (unknown : bool) : result (Env * dict * bool) :=
  match bs with
  | [] => Ok (env, snapshot, unknown)
  | b :: rest =>
      '(entry, ae, is_unknown) ← _resolve_watchdog_binding b telemetry_getter now_mono;
      let env := match ae with Some e => od_set env (tb_alias b) (PDict e) | None => env end in
      resolve_watchdog_bindings rest telemetry_getter now_mono env
        (od_set snapshot (tb_alias b) (PDict entry)) (unknown || is_unknown)
  end.

Definition _resolve_watchdog_bindings (r : WatchdogRule) (telemetry_getter : getter) (now_mono : Q)
    : result (Env * dict * bool) :=
  resolve_watchdog_bindings (wr_telemetry r) telemetry_getter now_mono [("params", PDict [])] [] false.

Section evaluate.
Context `{!PyRepr, !PyArith, !PyExpr}.
Context (exc_repr : pyexc -> string).

(** The diagnostic callback changes the surroundings [S] only. *)
Section callback.
Context {S : Type} (on_condition_error : pyexc -> pyM S unit).

Definition report (e : pyexc) (s : S) : S := snd (on_condition_error e s).

Definition _evaluate_watchdog_alarm (r : WatchdogRule) (env : Env) (unknown : bool) (s : S)
    : bool * dict * S :=
  let trace := _safe_condition_evaluation_trace exc_repr env (wr_condition r) in
  if unknown then
    (String.eqb (wr_on_unknown r) "trigger",
     od_set (od_set trace "result" PNone) "unknown" (PBool true), s)
  else
    match eval_condition env (wr_condition r) with
    | Ok alarm => (alarm, od_set trace "result" (PBool alarm), s)
    | Err e => (false, od_set (od_set trace "result" PNone) "error"
                         (PStr (or_else (Some (exc_str e)) (exc_repr e))), report e s)
    end.

Definition _evaluate_watchdog_condition (cond : pyval) (env : Env) (unknown : bool) (s : S) : bool * S :=
  if unknown then (false, s)
  else match eval_condition env cond with
       | Ok b => (b, s)
       | Err e => (false, report e s)
       end.

Definition _update_watchdog_armed_state (r : WatchdogRule) (st : RuleState) (env : Env) (unknown : bool) (s : S)
    : RuleState * S :=
  match wr_arm r with
  | None => (st, s)
  | Some arm =>
      let '(disarm, s) := match arm_disarm_condition arm with
                          | PNone => (false, s)
                          | c => _evaluate_watchdog_condition c env unknown s
                          end in
      let st := if disarm : bool then st <| st_armed := false |> else st in
      let '(on, s) := _evaluate_watchdog_condition (arm_condition arm) env unknown s in
      (if on : bool then st <| st_armed := true |> else st, s)
  end.
End callback.

(** Without a callback. *)
Definition condition_holds (cond : pyval) (env : Env) : bool :=
  match eval_condition env cond with Ok b => b | Err _ => false end.

Definition _watchdog_stable_ready (r : WatchdogRule) (st : RuleState) (now_mono : Q) : bool * RuleState :=
  if fleb (wr_stable_for_s r) (FFin 0) then (true, st)
  else
    let since := default now_mono (st_stable_since st) in
    let st := st <| st_stable_since := Some since |> in
    (fleb (wr_stable_for_s r) (FFin (now_mono - since)), st).

Definition _watchdog_cooldown_ready (r : WatchdogRule) (st : RuleState) (now_mono : Q) : bool :=
  match st_last_trigger st with
  | None => true
  | Some t => fleb (wr_cooldown_s r) (FFin (now_mono - t))
  end.

Definition reset_progress (p : confirmation_progress) : confirmation_progress := mkProgressC 0 (cp_last p) [].

Definition _reset_watchdog_confirmation (st : RuleState) : RuleState :=
  match st_confirmation st with
  | None => st
  | Some m => st <| st_confirmation := Some (prod_map id reset_progress <$> m) |>
  end.

(** [l[-n:]] for a positive [n] *)
Definition last_n {A} (n : Z) (l : list A) : list A := drop (length l - Z.to_nat n) l.

(** One source: its progress after this evaluation, and whether it is ready. *)
Definition confirm_alias (cf : WatchdogConfirmation) (snapshot : dict) (env : Env) (alias : string)
    (p : confirmation_progress) : confirmation_progress * bool :=
  let entry := match dget_or snapshot alias (PDict []) with PDict d => d | _ => [] end in
  let marker := dget entry "t_mono_recv" in
  if negb (truthy (dget entry "ok")) || is_none marker then (mkProgressC 0 marker [], false)
  else if py_eqb marker (cp_last p) then (p, cf_consecutive_samples cf <=? cp_count p)
  else
    let branch_alarm := match od_get (cf_branch_conditions cf) alias with
                        | Some c => condition_holds c env
                        | None => true
                        end in
    if negb branch_alarm then (mkProgressC 0 marker [], false)
    else
      let count := cp_count p + 1 in
      let evidence := cp_evidence p ++ [PDict [("t_mono_recv", marker); ("value", dget entry "value");
                                               ("quality", dget entry "quality")]] in
      (mkProgressC count marker (last_n (cf_consecutive_samples cf) evidence), cf_consecutive_samples cf <=? count).

Fixpoint confirm_aliases (cf : WatchdogConfirmation) (snapshot : dict) (env : Env) (aliases : list string)
    (m : list (string * confirmation_progress)) (ready : bool) : list (string * confirmation_progress) * bool :=
  match aliases with
  | [] => (m, ready)
  | alias :: rest =>
      match od_get m alias with
      | None => (m, ready)               (* every alias has its progress *)
      | Some p =>
          let '(p', ok) := confirm_alias cf snapshot env alias p in
          confirm_aliases cf snapshot env rest (od_set m alias p') (ready || ok)
      end
  end.

Definition initial_progress (cf : WatchdogConfirmation) : list (string * confirmation_progress) :=
  foldl (fun acc a => od_set acc a (mkProgressC 0 PNone [])) [] (cf_sample_aliases cf).

Definition _watchdog_confirmation_ready (r : WatchdogRule) (st : RuleState) (snapshot : dict) (alarm : bool)
    (env : Env) : bool * RuleState :=
  match wr_confirmation r with
  | None => (true, st)
  | Some cf =>
      let m := default (initial_progress cf) (st_confirmation st) in
      let st := st <| st_confirmation := Some m |> in
      if negb alarm then (false, _reset_watchdog_confirmation st)
      else
        let '(m', ready) := confirm_aliases cf snapshot env (cf_sample_aliases cf) m false in
        (ready, st <| st_confirmation := Some m' |>)
  end.

Definition _watchdog_confirmation_alarm (r : WatchdogRule) (env : Env) (alarm : bool) : bool :=
  match wr_confirmation r with
  | Some cf =>
      match cf_branch_conditions cf with
      | [] => alarm
      | cs => alarm && existsb (fun '(_, c) => condition_holds c env) cs
      end
  | None => alarm
  end.

Definition _watchdog_confirmation_gate (r : WatchdogRule) (st : RuleState) (snapshot : dict)
    (alarm unknown : bool) (env : Env) : bool * RuleState :=
  if unknown && String.eqb (wr_on_unknown r) "trigger" then (true, _reset_watchdog_confirmation st)
  else _watchdog_confirmation_ready r st snapshot alarm env.

(** The decision once alarm and snapshot are recorded. *)
Definition decide_trigger (r : WatchdogRule) (st : RuleState) (snapshot : dict) (alarm unknown : bool)
    (env : Env) (now_mono : Q) : bool * RuleState :=
  let armed_rule := match wr_arm r with Some _ => true | None => false end in
  if armed_rule && negb (st_armed st) then
    (false, _reset_watchdog_confirmation (st <| st_stable_since := None |>))
  else if negb alarm then
    (false, snd (_watchdog_confirmation_ready r (st <| st_stable_since := None |>) snapshot alarm env))
  else if wr_latch r && st_latched st then (false, st)
  else
    let '(confirmed, st) := _watchdog_confirmation_gate r st snapshot alarm unknown env in
    let '(stable, st) := _watchdog_stable_ready r st now_mono in
    if negb stable || negb confirmed || negb (_watchdog_cooldown_ready r st now_mono) then (false, st)
    else
      let st := if wr_latch r then st <| st_latched := true |> else st in
      let st := match wr_arm r with
                | Some arm => if arm_disarm_on_trigger arm then st <| st_armed := false |> else st
                | None => st
                end in
      (true, st).

Record evaluation := mkEvaluation {
  ev_triggered : bool;
  ev_alarm : bool;
  ev_unknown : bool;
  ev_snapshot : dict;
  ev_state : RuleState
}.

Definition evaluate_watchdog_rule {S} (r : WatchdogRule) (st : RuleState) (telemetry_getter : getter)
    (now_mono : Q) (on_condition_error : pyexc -> pyM S unit) (s : S) : result evaluation * S :=
  match _resolve_watchdog_bindings r telemetry_getter now_mono with
  | Err e => (Err e, s)
  | Ok (env, snapshot, unknown) =>
      let '(st, s) := _update_watchdog_armed_state on_condition_error r st env unknown s in
      let '(alarm, trace, s) := _evaluate_watchdog_alarm on_condition_error r env unknown s in
      let alarm := if unknown then alarm else _watchdog_confirmation_alarm r env alarm in
      let st := st <| st_last_evaluated := Some now_mono |> <| st_alarm := Some alarm |>
                   <| st_unknown := Some unknown |> <| st_snapshot := Some snapshot |>
                   <| st_condition_evaluation := Some trace |> in
      let '(triggered, st) := decide_trigger r st snapshot alarm unknown env now_mono in
      (Ok (mkEvaluation triggered alarm unknown snapshot st), s)
  end.

Definition mark_watchdog_triggered (st : RuleState) (now_mono : Q) : RuleState :=
  st <| st_last_trigger := Some now_mono |>.

Definition _confirmation_status (r : WatchdogRule) (st : RuleState) : pyval :=
  match wr_confirmation r with
  | None => PNone
  | Some cf =>
      let m := default [] (st_confirmation st) in
      let progress alias := match od_get m alias with
                            | Some p => PDict [("count", PInt (cp_count p)); ("evidence", PList (cp_evidence p))]
                            | None => PDict [("count", PInt 0); ("evidence", PList [])]
                            end in
      PDict [("consecutive_samples", PInt (cf_consecutive_samples cf));
             ("sample_aliases", PList (PStr <$> cf_sample_aliases cf));
             ("any", py_or (PList ((fun '(alias, c) => PDict [("sample_alias", PStr alias); ("condition", c)])
                                     <$> cf_branch_conditions cf)) PNone);
             ("progress", PDict (foldl (fun acc alias => od_set acc alias (progress alias)) []
                                   (cf_sample_aliases cf)))]
  end.
End evaluate.
