(* ===== verification/WatchdogProcess.v ===== *)
(** * The watchdog process ([processes/watchdog.py])

    The tick over all rules, the hand-over of action chains to the worker,
    the execution of a chain with its retries, and the RPC handlers.  The
    outside world [W] holds the manager, the telemetry cache and the clock;
    published events are logged in order.  Durations, which only decorate
    payloads, are left out of them. *)
From S2P Require Import Prelude PyVal PyNum PyOps Expressions Conditions ProcessBase Responses RulesCommon.
From S2P Require Import Interlock Watchdog.
#[local] Open Scope Z_scope.

Abbreviation wkey := (string * string)%type.

(** A chain handed to the single worker, not yet done. *)
Record action_job := mkJob {
  jb_watchdog_id : string;
  jb_rule : WatchdogRule;
  jb_trip_id : string
}.
Definition jb_key (j : action_job) : wkey := (jb_watchdog_id j, wr_name (jb_rule j)).

Record watchdog {W : Type} := mkWatchdog {
  wd_world : W;
  wd_process_id : string;
  wd_entries : list (string * WatchdogEntry);
  wd_order : list string;
  wd_states : list (wkey * RuleState);
  wd_inflight : list wkey;
  wd_executor_up : bool;
  wd_jobs : list action_job;
  wd_error_last : list (wkey * Q);
  wd_events : list (string * dict)
}.
Arguments watchdog : clear implicits.

#[export] Instance watchdog_eta {W} : Eta (watchdog W) := fun s =>
  mkWatchdog W (wd_world s) (wd_process_id s) (wd_entries s) (wd_order s) (wd_states s) (wd_inflight s)
    (wd_executor_up s) (wd_jobs s) (wd_error_last s) (wd_events s).

Class WatchdogWorld (W : Type) := {
  w_call : pyval -> option Z -> W -> result pyval * W;   (* [ManagerClient.call]; [PNone] on a timeout *)
  w_latest : W -> string -> string -> option dict;       (* [get_latest] *)
  w_clock : W -> Q * W;                                  (* [time.monotonic()] *)
  w_uuid : W -> string * W                               (* [uuid.uuid4().hex] *)
}.

Section process.
Context `{!PyRepr, !PyArith, !PyExpr} {W : Type} `{!WatchdogWorld W}.
Context (exc_repr : pyexc -> string).
#[local] Abbreviation st := (watchdog W).

Definition _publish_event (topic : string) (payload : dict) (s : st) : st :=
  s <| wd_events := wd_events s ++ [(topic, payload)] |>.

Definition get_state (s : st) (k : wkey) : option RuleState := od_get (wd_states s) k.
Definition put_state (k : wkey) (rs : RuleState) (s : st) : st :=
  s <| wd_states := od_set (wd_states s) k rs |>.

(** ** Construction *)
Definition add_watchdog (rs : WatchdogRuleset) : pyM st unit := fun s =>
  match od_get (wd_entries s) (ws_watchdog_id rs) with
  | Some _ => (Err (ValueError ("Duplicate watchdog_id " +:+ repr_str (ws_watchdog_id rs))), s)
  | None => (Ok tt, s <| wd_entries := od_set (wd_entries s) (ws_watchdog_id rs) (mkWEntry rs (ws_enabled rs)) |>
                      <| wd_order := wd_order s ++ [ws_watchdog_id rs] |>)
  end.

Definition all_keys (rulesets : list WatchdogRuleset) : list wkey :=
  rulesets ≫= fun rs => (fun r => (ws_watchdog_id rs, wr_name r)) <$> ws_rules rs.

Definition loaded_rules (s : st) : list pyval :=
  wd_order s ≫= fun i =>
    match od_get (wd_entries s) i with
    | Some e => (fun r => PDict [("watchdog_id", PStr i); ("rule", PStr (wr_name r));
                                 ("severity", PStr (wr_severity r))]) <$> ws_rules (we_ruleset e)
    | None => []
    end.

Definition _publish_rules_loaded (s : st) : st :=
  _publish_event "manager.watchdog.rules_loaded"
    [("process_id", PStr (wd_process_id s)); ("watchdog_ids", PList (PStr <$> wd_order s));
     ("rules", PList (loaded_rules s))] s.

Definition watchdog_init (w : W) (process_id : string) (rulesets : list WatchdogRuleset) : result unit * st :=
  let s := mkWatchdog W w process_id [] [] [] [] true [] [] [] in
  match forM add_watchdog rulesets s with
  | (Err e, s) => (Err e, s)
  | (Ok _, s) =>
      let s := s <| wd_states := foldl (fun acc k => od_set acc k fresh_state) [] (all_keys rulesets) |> in
      (Ok tt, _publish_rules_loaded s)
  end.

(** ** Condition errors: at most one event per key and period *)
Definition _rule_error_period_s : Q := 30.

Definition _condition_error_callback (key : wkey) (exc : pyexc) : pyM st unit := fun s =>
  let '(now, w) := w_clock (wd_world s) in
  let s := s <| wd_world := w |> in
  let limited := match od_get (wd_error_last s) key with
                 | Some last => Qltb (now - last) _rule_error_period_s
                 | None => false
                 end in
  if limited then (Ok tt, s)
  else
    let s := s <| wd_error_last := od_set (wd_error_last s) key now |> in
    (Ok tt, _publish_event "manager.watchdog.rule_error"
              [("process_id", PStr (wd_process_id s)); ("watchdog_id", PStr (fst key)); ("rule", PStr (snd key));
               ("error", PStr (exc_repr exc))] s).

(** ** Events of a trip *)
Definition opt_bool (b : option bool) : pyval := from_option PBool PNone b.
Definition opt_dict (d : option dict) : pyval := from_option PDict PNone d.

Definition _publish_triggered (watchdog_id : string) (r : WatchdogRule) (unknown : bool) (snapshot : dict)
    (rs : RuleState) (trip_id : string) (s : st) : st :=
  _publish_event "manager.watchdog.triggered"
    [("process_id", PStr (wd_process_id s)); ("trip_id", PStr trip_id); ("watchdog_id", PStr watchdog_id);
     ("rule", PStr (wr_name r)); ("severity", PStr (wr_severity r));
     ("message", PStr (or_else (wr_message r) ("Watchdog " +:+ watchdog_id +:+ ":" +:+ wr_name r +:+ " triggered")));
     ("alarm", PBool true); ("unknown", PBool unknown); ("snapshot", PDict snapshot);
     ("timing", PDict [("stable_for_s", PFloat (wr_stable_for_s r)); ("cooldown_s", PFloat (wr_cooldown_s r));
                       ("latched", PBool (wr_latch r)); ("armed", PBool (st_armed rs))]);
     ("confirmation", _confirmation_status r rs)] s.

Definition _publish_latched (watchdog_id : string) (r : WatchdogRule) (rs : RuleState) (trip_id : string)
    (s : st) : st :=
  _publish_event "manager.watchdog.latched"
    [("process_id", PStr (wd_process_id s)); ("trip_id", PStr trip_id); ("watchdog_id", PStr watchdog_id);
     ("rule", PStr (wr_name r)); ("severity", PStr (wr_severity r)); ("alarm", opt_bool (st_alarm rs));
     ("unknown", opt_bool (st_unknown rs))] s.

Definition _publish_recovered (watchdog_id : string) (r : WatchdogRule) (rs : RuleState) (trip_id : string)
    (s : st) : st :=
  _publish_event "manager.watchdog.recovered"
    [("process_id", PStr (wd_process_id s)); ("trip_id", PStr trip_id); ("watchdog_id", PStr watchdog_id);
     ("rule", PStr (wr_name r)); ("alarm", PBool false); ("unknown", opt_bool (st_unknown rs));
     ("latched", PBool (st_latched rs)); ("snapshot", opt_dict (st_snapshot rs));
     ("condition_evaluation", opt_dict (st_condition_evaluation rs))] s.

(** ** Handing a chain to the worker *)
Definition discard (k : wkey) (l : list wkey) : list wkey := filter (fun x => x ≠ k) l.

Definition chain_record (trip_id state : string) (success : pyval) (count failed : nat) (more : dict) : dict :=
  [("trip_id", PStr trip_id); ("state", PStr state); ("success", success);
   ("action_count", PInt (Z.of_nat count)); ("succeeded_actions", PInt 0);
   ("failed_actions", PInt (Z.of_nat failed)); ("actions", PList [])] ++ more.

Definition chain_error_event (trip_id : string) (key : wkey) (error : string) (s : st) : st :=
  _publish_event "manager.watchdog.action_chain_error"
    [("process_id", PStr (wd_process_id s)); ("trip_id", PStr trip_id); ("watchdog_id", PStr (fst key));
     ("rule", PStr (snd key)); ("error", PStr error)] s.

Definition update_state (k : wkey) (f : RuleState -> RuleState) (s : st) : st :=
  match get_state s k with Some rs => put_state k (f rs) s | None => s end.

Definition _submit_actions (watchdog_id : string) (r : WatchdogRule) (trip_id : string) (s : st) : st :=
  let key := (watchdog_id, wr_name r) in
  let n := length (wr_actions r) in
  let set_chain c := update_state key (fun rs => rs <| st_last_action_chain := Some c |>) in
  let s := set_chain (chain_record trip_id "running" PNone n 0 []) s in
  if wd_executor_up s then s <| wd_jobs := wd_jobs s ++ [mkJob watchdog_id r trip_id] |>
  else
    let s := set_chain (chain_record trip_id "error" (PBool false) n n
                          [("error", PStr "action executor is unavailable")]) s in
    let s := s <| wd_inflight := discard key (wd_inflight s) |> in
    chain_error_event trip_id key "action executor is unavailable" s.

(** ** The tick *)
Definition has_error (rs : RuleState) : bool :=
  match st_condition_evaluation rs with Some t => negb (is_none (dget t "error")) | None => false end.

(** A trip is over when the alarm is known to be gone. *)
Definition recover (watchdog_id : string) (r : WatchdogRule) (key : wkey) (s : st) : st :=
  match get_state s key with
  | Some rs =>
      match st_active_trip_id rs, st_active_trip_recovered rs, st_alarm rs, st_unknown rs with
      | Some trip, false, Some false, Some false =>
          if has_error rs then s
          else
            let s := _publish_recovered watchdog_id r rs trip s in
            let rs := rs <| st_active_trip_recovered := true |> in
            put_state key (if st_latched rs then rs else rs <| st_active_trip_id := None |>) s
      | _, _, _, _ => s
      end
  | None => s
  end.

(** A triggered rule: skipped while its previous chain is in flight,
    otherwise committed, announced and handed over. *)
Definition trip (watchdog_id : string) (r : WatchdogRule) (key : wkey) (previous_latched : bool)
    (ev : evaluation) (now_mono : Q) (s : st) : st :=
  if bool_decide (key ∈ wd_inflight s) then s
  else
    let s := s <| wd_inflight := key :: wd_inflight s |> in
    let s := update_state key (fun rs => mark_watchdog_triggered rs now_mono) s in
    let '(trip_id, w) := w_uuid (wd_world s) in
    let s := s <| wd_world := w |> in
    let s := update_state key (fun rs => rs <| st_active_trip_id := Some trip_id |>
                                            <| st_active_trip_recovered := false |>) s in
    let rs := default fresh_state (get_state s key) in
    let s := _publish_triggered watchdog_id r (ev_unknown ev) (ev_snapshot ev) rs trip_id s in
    let s := if negb previous_latched && st_latched rs then _publish_latched watchdog_id r rs trip_id s else s in
    let s := _submit_actions watchdog_id r trip_id s in
    update_state key _reset_watchdog_confirmation s.

Definition evaluate_rule (watchdog_id : string) (now_mono : Q) (r : WatchdogRule) : pyM st unit := fun s =>
  let key := (watchdog_id, wr_name r) in
  match get_state s key with
  | None => (Err (KeyError ""), s)
  | Some rs =>
      match evaluate_watchdog_rule exc_repr r rs (w_latest (wd_world s)) now_mono
              (_condition_error_callback key) s with
      | (Err e, s) => (Err e, s)
      | (Ok ev, s) =>
          let s := put_state key (ev_state ev) s in
          let s := recover watchdog_id r key s in
          (Ok tt, if ev_triggered ev then trip watchdog_id r key (st_latched rs) ev now_mono s else s)
      end
  end.

Definition evaluate_ruleset (now_mono : Q) (watchdog_id : string) : pyM st unit := fun s =>
  match od_get (wd_entries s) watchdog_id with
  | None => (Err (KeyError watchdog_id), s)
  | Some e => if we_enabled e then forM (evaluate_rule watchdog_id now_mono) (ws_rules (we_ruleset e)) s
              else (Ok tt, s)
  end.

Definition _evaluate_rules : pyM st unit := fun s =>
  let '(now_mono, w) := w_clock (wd_world s) in
  forM (evaluate_ruleset now_mono) (wd_order s) (s <| wd_world := w |>).

(** ** Executing a chain, on the worker *)
Definition _TRIP_CONTEXT_ACTIONS : list string := ["sequencer.pause"; "sequencer.stop"].

Definition _with_trip_context (a : WatchdogAction) (watchdog_id : string) (r : WatchdogRule) (trip_id : string)
    : dict :=
  let params := wa_params a in
  if bool_decide (wa_action a ∈ _TRIP_CONTEXT_ACTIONS) then
    let params := setdefault params "reason"
      (PStr (or_else (wr_message r) ("watchdog rule " +:+ repr_str (wr_name r) +:+ " tripped"))) in
    let params := setdefault params "source" (PStr "watchdog") in
    setdefault params "trigger"
      (PDict [("watchdog_id", PStr watchdog_id); ("rule", PStr (wr_name r)); ("severity", PStr (wr_severity r));
              ("trip_id", PStr trip_id)])
  else params.

(** The event descriptor and the request of an action. *)
Definition action_request (caller : string) (a : WatchdogAction) (watchdog_id : string) (r : WatchdogRule)
    (trip_id : string) : dict * dict :=
  match a with
  | ProcessAction process_id action _ _ _ =>
      let params := PDict (_with_trip_context a watchdog_id r trip_id) in
      ([("process_id", PStr process_id); ("action", PStr action); ("params", params)],
       [("type", PStr "manager.processes.rpc"); ("process_id", PStr process_id);
        ("request", PDict [("type", PStr action); ("params", params)]); ("caller_process_id", PStr caller)])
  | CommandAction device_id action params _ _ =>
      ([("device_id", PStr device_id); ("action", PStr action); ("params", PDict params)],
       [("type", PStr "command"); ("device_id", PStr device_id); ("action", PStr action);
        ("params", PDict params); ("caller_process_id", PStr caller)])
  end.

(** [max(1, int(float(timeout_s) * 1000))] *)
Definition action_timeout_ms (a : WatchdogAction) : result (option Z) :=
  match wa_timeout_s a with
  | None => Ok None
  | Some t => z ← py_int (PFloat (fmul t (FFin 1000))); Ok (Some (Z.max 1 z))
  end.

Record chain_context := mkChainContext {
  cc_watchdog_id : string;
  cc_rule : WatchdogRule;
  cc_trip_id : string;
  cc_command : dict;
  cc_index : Z;
  cc_count : Z;
  cc_attempts : Z
}.

Definition _publish_action_event (topic : string) (c : chain_context) (attempt : Z) (error : option pyval)
    (s : st) : st :=
  let payload := [("process_id", PStr (wd_process_id s)); ("trip_id", PStr (cc_trip_id c));
                  ("watchdog_id", PStr (cc_watchdog_id c)); ("rule", PStr (wr_name (cc_rule c)));
                  ("command", PDict (cc_command c)); ("action_index", PInt (cc_index c));
                  ("action_count", PInt (cc_count c)); ("attempt", PInt attempt);
                  ("max_attempts", PInt (cc_attempts c))] in
  let payload := match error with Some e => payload ++ [("error", e)] | None => payload end in
  let s := _publish_event topic payload s in
  if String.eqb topic "manager.watchdog.action_started" then
    _publish_event "manager.watchdog.action_sent"
      [("process_id", PStr (wd_process_id s)); ("watchdog_id", PStr (cc_watchdog_id c));
       ("rule", PStr (wr_name (cc_rule c))); ("command", PDict (cc_command c)); ("attempt", PInt attempt);
       ("retries", PInt (cc_attempts c - 1))] s
  else s.

(** [_resp_ok] is [is_response_ok]. *)
Definition _resp_ok (resp : pyval) : bool := is_response_ok resp.

Definition action_result (c : chain_context) (ok : bool) (attempts : Z) (error : option pyval) : dict :=
  [("action_index", PInt (cc_index c)); ("command", PDict (cc_command c)); ("ok", PBool ok);
   ("attempts", PInt attempts)] ++ match error with Some e => [("error", e)] | None => [] end.

(** The attempts of one action; [left] further attempts are allowed. *)
Fixpoint attempt_action (req : dict) (a : WatchdogAction) (c : chain_context) (attempt : Z) (more : nat)
    : pyM st dict := fun s =>
  let s := _publish_action_event "manager.watchdog.action_started" c attempt None s in
  match action_timeout_ms a with
  | Err e => (Err e, s)
  | Ok timeout_ms =>
      let '(resp, w) := w_call (PDict req) timeout_ms (wd_world s) in
      let s := s <| wd_world := w |> in
      let succeeded := match resp with Ok v => negb (is_none v) && _resp_ok v | Err _ => false end in
      if succeeded then
        (Ok (action_result c true attempt None),
         _publish_action_event "manager.watchdog.action_succeeded" c attempt None s)
      else
        let error := match resp with
                     | Err e => PStr (exc_repr e)
                     | Ok PNone => PStr "timeout"
                     | Ok v => v
                     end in
        match more with
        | O => (Ok (action_result c false attempt (Some error)),
                _publish_action_event "manager.watchdog.action_failed" c attempt (Some error) s)
        | S k => attempt_action req a c (attempt + 1) k
                   (_publish_action_event "manager.watchdog.action_retry" c attempt (Some error) s)
        end
  end.

Fixpoint run_actions (watchdog_id : string) (r : WatchdogRule) (trip_id : string) (index : Z)
    (actions : list WatchdogAction) : pyM st (list dict) := fun s =>
  match actions with
  | [] => (Ok [], s)
  | a :: rest =>
      let '(command, req) := action_request (wd_process_id s) a watchdog_id r trip_id in
      let retries := Z.max 0 (wa_retries a) in
      let c := mkChainContext watchdog_id r trip_id command index (Z.of_nat (length (wr_actions r))) (1 + retries) in
      match attempt_action req a c 1 (Z.to_nat retries) s with
      | (Err e, s) => (Err e, s)
      | (Ok res, s) =>
          match run_actions watchdog_id r trip_id (index + 1) rest s with
          | (Err e, s) => (Err e, s)
          | (Ok results, s) => (Ok (res :: results), s)
          end
      end
  end.

Definition failed (result : dict) : bool := negb (truthy (dget result "ok")).

Definition _execute_actions (watchdog_id : string) (r : WatchdogRule) (trip_id : string) : pyM st dict := fun s =>
  match run_actions watchdog_id r trip_id 0 (wr_actions r) s with
  | (Err e, s) => (Err e, s)
  | (Ok results, s) =>
      let n := Z.of_nat (length (wr_actions r)) in
      let nf := Z.of_nat (length (filter (fun x => failed x = true) results)) in
      let summary := [("process_id", PStr (wd_process_id s)); ("trip_id", PStr trip_id);
                      ("watchdog_id", PStr watchdog_id); ("rule", PStr (wr_name r));
                      ("success", PBool (nf =? 0)); ("action_count", PInt n);
                      ("succeeded_actions", PInt (n - nf)); ("failed_actions", PInt nf);
                      ("actions", PList (PDict <$> results))] in
      (Ok summary, _publish_event "manager.watchdog.action_chain_completed" summary s)
  end.

Definition same_trip (rs : RuleState) (trip_id : string) : bool :=
  match st_last_action_chain rs with
  | Some c => py_eqb (dget c "trip_id") (PStr trip_id)
  | None => false
  end.

(** The completion callback: the key is in flight until the outcome is stored. *)
Definition _on_action_chain_done (outcome : result dict) (key : wkey) (trip_id : string) (s : st) : st :=
  let s :=
    match outcome with
    | Ok summary =>
        update_state key (fun rs =>
          if same_trip rs trip_id
          then rs <| st_last_action_chain := Some (od_set summary "state" (PStr "completed")) |> else rs) s
    | Err e =>
        let s := update_state key (fun rs =>
          match st_last_action_chain rs with
          | Some prev =>
              if same_trip rs trip_id then
                rs <| st_last_action_chain := Some (dict_update prev
                        [("state", PStr "error"); ("success", PBool false);
                         ("failed_actions", match py_int (dget_or prev "action_count" (PInt 0)) with
                                            | Ok z => PInt z | Err _ => PInt 0 end);
                         ("error", PStr (exc_repr e))]) |>
              else rs
          | None => rs
          end) s in
        chain_error_event trip_id key (exc_repr e) s
    end in
  s <| wd_inflight := discard key (wd_inflight s) |>.

(** The worker takes the oldest chain, runs it and reports. *)
Definition worker_step (s : st) : st :=
  match wd_jobs s with
  | [] => s
  | j :: rest =>
      let s := s <| wd_jobs := rest |> in
      let '(outcome, s) := _execute_actions (jb_watchdog_id j) (jb_rule j) (jb_trip_id j) s in
      _on_action_chain_done outcome (jb_key j) (jb_trip_id j) s
  end.

(** ** RPC handlers *)
Definition _clear_rule_state (watchdog_id rule_name : string) (request_id : pyval) (s : st)
    : option (bool * bool) * st :=
  let key := (watchdog_id, rule_name) in
  match get_state s key with
  | None => (None, s)
  | Some rs =>
      let prev_latched := st_latched rs in
      let prev_armed := st_armed rs in
      let trip_id := opt_str (st_active_trip_id rs) in
      let rs := rs <| st_latched := false |> <| st_armed := false |> <| st_stable_since := None |> in
      let rs := _reset_watchdog_confirmation rs in
      let rs := if prev_latched then rs <| st_active_trip_id := None |> <| st_active_trip_recovered := false |>
                else rs in
      let s := put_state key rs s in
      let ids := [("process_id", PStr (wd_process_id s))] in
      let prev := [("watchdog_id", PStr watchdog_id); ("rule", PStr rule_name);
                   ("previous_latched", PBool prev_latched); ("previous_armed", PBool prev_armed)] in
      let s := if prev_latched then
                 let payload := ids ++ [("trip_id", trip_id)] ++ prev ++
                                [("alarm", opt_bool (st_alarm rs)); ("unknown", opt_bool (st_unknown rs))] in
                 let payload := if is_none request_id then payload else od_set payload "request_id" request_id in
                 _publish_event "manager.watchdog.latch_cleared" payload s
               else s in
      (Some (prev_latched, prev_armed), _publish_event "manager.watchdog.cleared" (ids ++ prev) s)
  end.

Definition wreply_ok (req_id : pyval) (res : dict) : dict :=
  [("request_id", req_id); ("ok", PBool true); ("result", PDict res)].
Definition wreply_code (req_id : pyval) (code : string) (more : dict) : dict :=
  [("request_id", req_id); ("ok", PBool false); ("error", PDict ([("code", PStr code)] ++ more))].

Definition params_of (req : dict) : option dict :=
  match py_or (dget_or req "params" (PDict [])) (PDict []) with PDict p => Some p | _ => None end.

Definition _rpc_watchdog_enable_disable (enable : bool) (req : dict) : pyM st dict := fun s =>
  let req_id := dget req "request_id" in
  match params_of req with
  | None => (Ok (wreply_code req_id "invalid_params" []), s)
  | Some params =>
      let watchdog_id := dget params "watchdog_id" in
      if negb (truthy watchdog_id) then (Ok (wreply_code req_id "missing_watchdog_id" []), s)
      else
        let i := py_str watchdog_id in
        match od_get (wd_entries s) i with
        | None => (Ok (wreply_code req_id "unknown_watchdog" []), s)
        | Some e =>
            (Ok (wreply_ok req_id [("watchdog_id", PStr i); ("enabled", PBool enable)]),
             s <| wd_entries := od_set (wd_entries s) i (mkWEntry (we_ruleset e) enable) |>)
        end
  end.

Definition _rpc_watchdog_enable_all_disable_all (enable : bool) (req : dict) : pyM st dict := fun s =>
  (Ok (wreply_ok (dget req "request_id")
         [("enabled", PBool enable); ("count", PInt (Z.of_nat (length (wd_entries s))))]),
   s <| wd_entries := (fun '(i, e) => (i, mkWEntry (we_ruleset e) enable)) <$> wd_entries s |>).

Definition cleared_item (watchdog_id rule_name : string) (r : bool * bool) : dict :=
  [("watchdog_id", PStr watchdog_id); ("rule", PStr rule_name); ("previous_latched", PBool (fst r));
   ("previous_armed", PBool (snd r)); ("changed", PBool (fst r))].

Definition rule_keys (s : st) : list wkey :=
  wd_order s ≫= fun i =>
    match od_get (wd_entries s) i with
    | Some e => (fun r => (i, wr_name r)) <$> ws_rules (we_ruleset e)
    | None => []
    end.

Definition _rpc_watchdog_clear_all_latches (req_id : pyval) : pyM st dict := fun s =>
  let '(cleared, s) :=
    foldl (fun '(acc, s) '(i, n) =>
             match _clear_rule_state i n req_id s with
             | (Some r, s) => (acc ++ [PDict (cleared_item i n r)], s)
             | (None, s) => (acc, s)
             end) ([], s) (rule_keys s) in
  (Ok (wreply_ok req_id [("cleared", PList cleared)]), s).

Definition _rpc_watchdog_clear_scoped (req_id : pyval) (watchdog_id rule_name : string) : pyM st dict := fun s =>
  match od_get (wd_entries s) watchdog_id with
  | None => (Ok (wreply_code req_id "unknown_watchdog" []), s)
  | Some _ =>
      match _clear_rule_state watchdog_id rule_name req_id s with
      | (None, s) => (Ok (wreply_code req_id "unknown_rule" []), s)
      | (Some r, s) => (Ok (wreply_ok req_id (cleared_item watchdog_id rule_name r)), s)
      end
  end.

Definition _find_watchdog_rule_matches (rule_name : string) (s : st) : list wkey :=
  filter (fun k => snd k = rule_name) (rule_keys s).

Definition _rpc_watchdog_clear_unscoped (req_id : pyval) (rule_name : string) : pyM st dict := fun s =>
  match _find_watchdog_rule_matches rule_name s with
  | [] => (Ok (wreply_code req_id "unknown_rule" []), s)
  | [(i, n)] =>
      match _clear_rule_state i n req_id s with
      | (r, s) =>
          (Ok (wreply_ok req_id
                 (match r with
                  | Some r => cleared_item i n r
                  | None => [("watchdog_id", PStr i); ("rule", PStr n); ("previous_latched", PNone);
                             ("previous_armed", PNone); ("changed", PNone)]
                  end)), s)
      end
  | matches =>
      (Ok (wreply_code req_id "ambiguous_rule"
             [("matches", PList ((fun '(i, n) => PDict [("watchdog_id", PStr i); ("rule", PStr n)]) <$> matches))]), s)
  end.

Definition _rpc_watchdog_clear_latch (req : dict) : pyM st dict := fun s =>
  let req_id := dget req "request_id" in
  match params_of req with
  | None => (Ok (wreply_code req_id "invalid_params" []), s)
  | Some params =>
      if truthy (dget params "all") then _rpc_watchdog_clear_all_latches req_id s
      else
        let rule_name := dget params "rule" in
        if negb (truthy rule_name) then (Ok (wreply_code req_id "missing_rule" []), s)
        else
          match dget params "watchdog_id" with
          | PNone => _rpc_watchdog_clear_unscoped req_id (py_str rule_name) s
          | w => _rpc_watchdog_clear_scoped req_id (py_str w) (py_str rule_name) s
          end
  end.

Definition _action_status_payload (a : WatchdogAction) : pyval :=
  let payload := [("action", PStr (wa_action a)); ("params", PDict (wa_params a));
                  ("timeout_s", from_option PFloat PNone (wa_timeout_s a)); ("retries", PInt (wa_retries a))] in
  PDict (payload ++ match a with
                    | ProcessAction p _ _ _ _ => [("process_id", PStr p)]
                    | CommandAction d _ _ _ _ => [("device_id", PStr d)]
                    end).

(** [max(0.0, now - t)] *)
Definition age_of (now_mono : Q) (t : option Q) : pyval :=
  match t with Some t => PFloat (FFin (fmax 0 (now_mono - t))) | None => PNone end.
Definition opt_time (t : option Q) : pyval := match t with Some t => PFloat (FFin t) | None => PNone end.

Definition rule_status (now_mono : Q) (r : WatchdogRule) (rs : RuleState) : pyval :=
  PDict [("name", PStr (wr_name r)); ("severity", PStr (wr_severity r)); ("message", opt_str (wr_message r));
         ("condition", wr_condition r);
         ("arm", match wr_arm r with
                 | None => PNone
                 | Some a => PDict [("condition", arm_condition a); ("disarm_condition", arm_disarm_condition a);
                                    ("disarm_on_trigger", PBool (arm_disarm_on_trigger a))]
                 end);
         ("confirmation", _confirmation_status r rs);
         ("telemetry", PList ((fun b => PDict [("as", PStr (tb_alias b)); ("device_id", PStr (tb_device_id b));
                                               ("signal", PStr (tb_signal b)); ("max_age_s", PFloat (tb_max_age_s b));
                                               ("required", PBool (tb_required b))]) <$> wr_telemetry r));
         ("actions", PList (_action_status_payload <$> wr_actions r));
         ("stable_for_s", PFloat (wr_stable_for_s r)); ("cooldown_s", PFloat (wr_cooldown_s r));
         ("latch", PBool (wr_latch r)); ("on_unknown", PStr (wr_on_unknown r)); ("latched", PBool (st_latched rs));
         ("armed", PBool (st_armed rs)); ("alarm", opt_bool (st_alarm rs)); ("unknown", opt_bool (st_unknown rs));
         ("snapshot", opt_dict (st_snapshot rs)); ("condition_evaluation", opt_dict (st_condition_evaluation rs));
         ("last_evaluated_mono", opt_time (st_last_evaluated rs));
         ("last_evaluated_age_s", age_of now_mono (st_last_evaluated rs));
         ("stable_since_mono", opt_time (st_stable_since rs));
         ("stable_since_age_s", age_of now_mono (st_stable_since rs));
         ("last_trigger_mono", opt_time (st_last_trigger rs));
         ("last_trigger_age_s", age_of now_mono (st_last_trigger rs));
         ("active_trip_id", opt_str (st_active_trip_id rs));
         ("last_action_chain", opt_dict (st_last_action_chain rs))].

Definition _rpc_watchdog_status (req : dict) : pyM st dict := fun s =>
  let '(now_mono, w) := w_clock (wd_world s) in
  let s := s <| wd_world := w |> in
  let item i := match od_get (wd_entries s) i with
                | Some e =>
                    [PDict [("watchdog_id", PStr i); ("enabled", PBool (we_enabled e));
                            ("rules", PList ((fun r => rule_status now_mono r
                               (default fresh_state (get_state s (i, wr_name r)))) <$> ws_rules (we_ruleset e)))]]
                | None => []
                end in
  (Ok (wreply_ok (dget req "request_id") [("watchdogs", PList (wd_order s ≫= item))]), s).

Definition _watchdog_capability_members : list MemberSpec :=
  let id required := param "watchdog_id" required PNone (Some "str") in
  _with_common_capabilities
    [method "watchdog.status" None (Some "Get watchdog status.");
     method "watchdog.clear_latch"
       (Some [id false; param "rule" false PNone (Some "str"); param "all" false (PBool false) (Some "bool")])
       (Some "Clear latch for a rule or all rules.");
     method "watchdog.enable" (Some [id true]) (Some "Enable a watchdog ruleset.");
     method "watchdog.disable" (Some [id true]) (Some "Disable a watchdog ruleset.");
     method "watchdog.enable_all" None (Some "Enable all watchdogs.");
     method "watchdog.disable_all" None (Some "Disable all watchdogs.")].

Definition _rpc_watchdog_capabilities (req : dict) : pyM st dict := fun s =>
  (Ok [("request_id", dget req "request_id"); ("ok", PBool true);
       ("result", capabilities_payload _watchdog_capability_members)], s).

Definition watchdog_handlers : list (string * (dict -> pyM st dict)) :=
  [("process.capabilities", _rpc_watchdog_capabilities);
   ("watchdog.status", _rpc_watchdog_status);
   ("watchdog.enable", _rpc_watchdog_enable_disable true);
   ("watchdog.disable", _rpc_watchdog_enable_disable false);
   ("watchdog.enable_all", _rpc_watchdog_enable_all_disable_all true);
   ("watchdog.disable_all", _rpc_watchdog_enable_all_disable_all false);
   ("watchdog.clear_latch", _rpc_watchdog_clear_latch)].

Definition _watchdog_registry : RpcDispatchRegistry (dict -> pyM st dict) :=
  build_registry watchdog_handlers [("watchdog.get_status", "watchdog.status")].

(** [close]: no chain is accepted any more. *)
Definition watchdog_close (s : st) : st := s <| wd_executor_up := false |>.

Definition _watchdog_handle_rpc (graceful_stop : pyM st unit) (req : dict) : pyM st dict :=
  common ← _handle_common_rpc graceful_stop exc_str req;
  match common with
  | Some reply => mret reply
  | None =>
      match params_of req with
      | None => mret (rpc_invalid_params (PDict req) None)
      | Some _ =>
          match dispatch_with_canonical _watchdog_registry req with
          | Some (h, req') => h req'
          | None => mret (rpc_unknown (PDict req))
          end
      end
  end.
End process.
