(* ===== verification/WatchdogHistory.v ===== *)
(** * Histories of a watchdog

    Ticks, worker steps and requests in any order, with the events they
    publish and the clock reading each step starts with.  Trips of one rule
    are a cooldown apart, never overlap, and a latching rule trips again only
    after its latch was cleared; the chains in flight are exactly the chains
    pending on the worker. *)
From Stdlib Require Import Lqa.
From S2P Require Import Prelude PyVal PyNum PyOps Expressions Conditions ProcessBase Responses RulesCommon.
From S2P Require Import Interlock InterlockTables Watchdog WatchdogProcess WatchdogTheorems.
#[local] Open Scope Z_scope.

Abbreviation event := (string * dict)%type.

(** ** Events about one rule *)
Definition event_key (e : event) : option wkey :=
  match dget (snd e) "watchdog_id", dget (snd e) "rule" with
  | PStr i, PStr n => Some (i, n)
  | _, _ => None
  end.

Definition is_trip (k : wkey) (e : event) : Prop :=
  fst e = "manager.watchdog.triggered" /\ event_key e = Some k.
Definition is_done (k : wkey) (e : event) : Prop :=
  fst e ∈ ["manager.watchdog.action_chain_completed"; "manager.watchdog.action_chain_error"] /\
  event_key e = Some k.
Definition is_cleared (k : wkey) (e : event) : Prop :=
  fst e = "manager.watchdog.latch_cleared" /\ event_key e = Some k.

(** ** What one evaluation does to the state of its rule *)
Section evaluation.
Context `{HR : !PyRepr, HA : !PyArith, HE : !PyExpr}.
Context (exc_repr : pyexc -> string).

(** The fields that carry over from trip to trip. *)
Definition carries (a b : RuleState) : Prop :=
  st_last_trigger b = st_last_trigger a /\ st_latched b = st_latched a.

Lemma carries_refl a : carries a a.
Proof. done. Qed.
Lemma carries_trans a b c : carries a b -> carries b c -> carries a c.
Proof. intros [??] [??]. split; congruence. Qed.

Lemma reset_carries a : carries a (_reset_watchdog_confirmation a).
Proof. unfold _reset_watchdog_confirmation. by case_match. Qed.

Lemma confirmation_carries r a snap alarm env :
  carries a (snd (_watchdog_confirmation_ready r a snap alarm env)).
Proof.
  unfold _watchdog_confirmation_ready. destruct (wr_confirmation r); [|done].
  destruct (negb alarm); [eapply carries_trans; [|apply reset_carries]; done|].
  by destruct (confirm_aliases _ _ _ _ _ _).
Qed.

Lemma gate_carries r a snap alarm unknown env :
  carries a (snd (_watchdog_confirmation_gate r a snap alarm unknown env)).
Proof.
  unfold _watchdog_confirmation_gate. case_match; [apply reset_carries|apply confirmation_carries].
Qed.

Lemma stable_carries r a now : carries a (snd (_watchdog_stable_ready r a now)).
Proof. unfold _watchdog_stable_ready. by case_match. Qed.

(** A trigger needs an open latch and an elapsed cooldown, and closes the
    latch of a latching rule. *)
Lemma decide_trigger_carries r a snap alarm unknown env now :
  let '(triggered, b) := decide_trigger r a snap alarm unknown env now in
  st_last_trigger b = st_last_trigger a /\ (st_latched a = true -> st_latched b = true) /\
  (triggered = true -> alarm = true /\ _watchdog_cooldown_ready r a now = true /\
     (wr_latch r = true -> st_latched a = false /\ st_latched b = true)).
Proof.
  unfold decide_trigger. cbv zeta.
  destruct ((_ : bool) && negb (st_armed a)).
  { destruct (reset_carries (a <| st_stable_since := None |>)) as [E1 E2]. rewrite E1, E2. done. }
  destruct alarm; cbn [negb].
  2:{ destruct (confirmation_carries r (a <| st_stable_since := None |>) snap false env) as [E1 E2].
      cbn [fst snd]. rewrite E1, E2. done. }
  destruct (wr_latch r && st_latched a) eqn:EL; [done|].
  destruct (_watchdog_confirmation_gate r a snap true unknown env) as [confirmed b] eqn:EG.
  pose proof (gate_carries r a snap true unknown env) as [G1 G2]. rewrite EG in G1, G2. cbn in G1, G2.
  destruct (_watchdog_stable_ready r b now) as [stable c] eqn:ES.
  pose proof (stable_carries r b now) as [S1 S2]. rewrite ES in S1, S2. cbn in S1, S2.
  destruct (negb stable || negb confirmed || negb (_watchdog_cooldown_ready r c now)) eqn:EC.
  { rewrite S1, G1, S2, G2. done. }
  apply orb_false_iff in EC as [_ EC%negb_false_iff].
  assert (_watchdog_cooldown_ready r a now = true) as Hc.
  { revert EC. unfold _watchdog_cooldown_ready. by rewrite S1, G1. }
  destruct (wr_latch r) eqn:EW; destruct (wr_arm r) as [arm|]; try destruct (arm_disarm_on_trigger arm);
    cbn; rewrite ?S1, ?G1, ?S2, ?G2; cbn in EL; rewrite ?EL; split_and!; done.
Qed.

(** Reporting condition errors is all an evaluation does to its surroundings. *)
Section surroundings.
Context {S : Type} (cb : pyexc -> pyM S unit) (R : relation S) `{!PreOrder R}.
Hypothesis Hcb : forall e s, R s (report cb e s).

Lemma condition_surroundings c env unknown s : R s (snd (_evaluate_watchdog_condition cb c env unknown s)).
Proof. unfold _evaluate_watchdog_condition. destruct unknown; [done|]. case_match; [done|apply Hcb]. Qed.

Lemma armed_surroundings r a env unknown s :
  let '(b, s') := _update_watchdog_armed_state cb r a env unknown s in R s s' /\ carries a b.
Proof.
  unfold _update_watchdog_armed_state. destruct (wr_arm r) as [arm|]; [|done].
  destruct (match arm_disarm_condition arm with PNone => _ | _ => _ end) as [d s1] eqn:E1.
  assert (R s s1) as H1.
  { assert (forall c, _evaluate_watchdog_condition cb c env unknown s = (d, s1) -> R s s1) as Hc.
    { intros c Ec. pose proof (condition_surroundings c env unknown s) as Hs. by rewrite Ec in Hs. }
    destruct (arm_disarm_condition arm); try (by eapply Hc; exact E1). by injection E1 as _ <-. }
  destruct (_evaluate_watchdog_condition cb (arm_condition arm) env unknown s1) as [o s2] eqn:E2.
  pose proof (condition_surroundings (arm_condition arm) env unknown s1) as H2. rewrite E2 in H2.
  split; [by etrans|]. by destruct d, o.
Qed.

Lemma alarm_surroundings r env unknown s : R s (snd (_evaluate_watchdog_alarm exc_repr cb r env unknown s)).
Proof. unfold _evaluate_watchdog_alarm. destruct unknown; [done|]. case_match; [done|apply Hcb]. Qed.

Lemma evaluate_facts r a get now s :
  let '(res, s') := evaluate_watchdog_rule exc_repr r a get now cb s in
  R s s' /\
  forall ev, res = Ok ev ->
    st_last_trigger (ev_state ev) = st_last_trigger a /\
    (st_latched a = true -> st_latched (ev_state ev) = true) /\
    (ev_triggered ev = true -> _watchdog_cooldown_ready r a now = true /\
       (wr_latch r = true -> st_latched a = false /\ st_latched (ev_state ev) = true)).
Proof.
  unfold evaluate_watchdog_rule. destruct (_resolve_watchdog_bindings r get now) as [[[env snap] unknown]|e];
    [|by split].
  pose proof (armed_surroundings r a env unknown s) as Ha.
  destruct (_update_watchdog_armed_state cb r a env unknown s) as [b s1]. destruct Ha as [R1 [L1 L2]].
  pose proof (alarm_surroundings r env unknown s1) as R2.
  destruct (_evaluate_watchdog_alarm exc_repr cb r env unknown s1) as [[alarm tr] s2]. cbn in R2. cbv zeta.
  match goal with |- context [decide_trigger r ?c snap ?al unknown env now] =>
    pose proof (decide_trigger_carries r c snap al unknown env now) as Hd;
    destruct (decide_trigger r c snap al unknown env now) as [triggered d] end.
  cbn in Hd. rewrite L1, L2 in Hd. split; [by etrans|]. intros ev [= <-]. cbn.
  destruct Hd as (H1 & H2 & H3). split_and!; [done|done|]. intros Ht. destruct (H3 Ht) as (_ & Hc & Hl).
  split; [|done]. revert Hc. unfold _watchdog_cooldown_ready. cbn. by rewrite L1.
Qed.
End surroundings.
End evaluation.

(** ** Steps and histories *)
Inductive wop {W : Type} :=
| Tick
| Work
| Request (req : dict)
| Surroundings (w : W)                   (* telemetry arrives, time passes *)
| Close.
Arguments wop : clear implicits.

Section history.
Context `{HR : !PyRepr, HA : !PyArith, HE : !PyExpr} {W : Type} `{HW : !WatchdogWorld W}.
Context (exc_repr : pyexc -> string).
#[local] Abbreviation st := (watchdog W).

Definition perform (op : wop W) : pyM st unit := fun s =>
  match op with
  | Tick => _evaluate_rules exc_repr s
  | Work => (Ok tt, worker_step exc_repr s)
  | Request req => (Ok tt, snd (_watchdog_handle_rpc (fun s => (Ok tt, s)) req s))
  | Surroundings w => (Ok tt, s <| wd_world := w |>)
  | Close => (Ok tt, watchdog_close s)
  end.

Definition published (s s' : st) : list event := drop (length (wd_events s)) (wd_events s').

(** The events of a run, each with the clock reading its step starts with;
    an exception ends the run. *)
Fixpoint history (ops : list (wop W)) (s : st) : list (Q * event) :=
  match ops with
  | [] => []
  | op :: ops =>
      let '(r, s') := perform op s in
      (pair (fst (w_clock (wd_world s))) <$> published s s') ++
      match r with Ok _ => history ops s' | Err _ => [] end
  end.

(** ** Relations between states that the process keeps

    What only publishes events, calls the manager, clears rules and switches
    rulesets keeps any relation those single changes keep. *)
Section frames.
Context (R : relation st) {HP : PreOrder R}.
Hypothesis Hevent : forall topic p s, topic <> "manager.watchdog.triggered" -> R s (_publish_event topic p s).
Hypothesis Hworld : forall w s, R s (s <| wd_world := w |>).

Lemma action_event_keeps topic c attempt error s :
  topic <> "manager.watchdog.triggered" -> R s (_publish_action_event topic c attempt error s).
Proof.
  intros Ht. unfold _publish_action_event. cbv zeta. case_match; [etrans|]; by apply Hevent.
Qed.

Lemma attempt_keeps req a c attempt more s : R s (snd (attempt_action exc_repr req a c attempt more s)).
Proof.
  revert attempt s. induction more as [|more IH]; intros attempt s; cbn [attempt_action];
    set (s1 := _publish_action_event "manager.watchdog.action_started" c attempt None s);
    (transitivity s1; [by apply action_event_keeps|]);
    (destruct (action_timeout_ms a) as [tm|]; [|reflexivity]); destruct (w_call _ _ _) as [resp w]; cbv zeta;
    (transitivity (s1 <| wd_world := w |>); [apply Hworld|]); case_match; cbn [snd];
    try by apply action_event_keeps.
  etrans; [|apply IH]. by apply action_event_keeps.
Qed.

Lemma run_actions_keeps i r' trip n l s : R s (snd (run_actions exc_repr i r' trip n l s)).
Proof.
  revert n s. induction l as [|a l IH]; intros n s; cbn [run_actions]; [reflexivity|].
  destruct (action_request _ _ _ _ _) as [cmd req]. cbv zeta.
  match goal with |- context [attempt_action ?e ?q ?x ?c ?m ?z s] =>
    pose proof (attempt_keeps q x c m z s) as H1; destruct (attempt_action e q x c m z s) as [[res|x'] s1] end;
    cbn in *; [|done].
  specialize (IH (n + 1) s1). destruct (run_actions _ _ _ _ _ _ _) as [[results|x'] s2]; cbn in *; by etrans.
Qed.

Hypothesis Hclear : forall i n req_id s, R s (snd (_clear_rule_state i n req_id s)).
Hypothesis Hentries : forall (s : st) entries,
  (forall i, we_ruleset <$> od_get entries i = we_ruleset <$> od_get (wd_entries s) i) ->
  R s (s <| wd_entries := entries |>).

Lemma clear_all_keeps req_id keys acc s :
  R s (snd (foldl (fun '(acc, s) '(i, n) =>
             match _clear_rule_state i n req_id s with
             | (Some r, s) => (acc ++ [PDict (cleared_item i n r)], s)
             | (None, s) => (acc, s)
             end) (acc, s) keys)).
Proof.
  revert acc s. induction keys as [|[i n] keys IH]; intros acc s; [reflexivity|]. cbn [foldl].
  pose proof (Hclear i n req_id s) as H1. destruct (_clear_rule_state i n req_id s) as [[x|] s1];
    (etrans; [exact H1|apply IH]).
Qed.

Lemma enable_keeps b req s : R s (snd (_rpc_watchdog_enable_disable b req s)).
Proof.
  unfold _rpc_watchdog_enable_disable. destruct (params_of req) as [p|]; [|reflexivity].
  destruct (negb _); [reflexivity|]. cbv zeta. destruct (od_get (wd_entries s) _) as [e|] eqn:E; [|reflexivity].
  apply Hentries. intros j. rewrite od_get_set. case_decide; [subst; by rewrite E|done].
Qed.

Lemma enable_all_keeps b req s : R s (snd (_rpc_watchdog_enable_all_disable_all b req s)).
Proof.
  apply Hentries. intros j. induction (wd_entries s) as [|[i e] l IH]; [done|]. cbn.
  by case_decide.
Qed.

Lemma clear_latch_keeps req s : R s (snd (_rpc_watchdog_clear_latch req s)).
Proof.
  assert (forall i n s, R s (snd (_rpc_watchdog_clear_scoped (dget req "request_id") i n s))) as Hs.
  { intros i n s'. unfold _rpc_watchdog_clear_scoped. destruct (od_get _ _); [|reflexivity].
    pose proof (Hclear i n (dget req "request_id") s') as H1.
    by destruct (_clear_rule_state _ _ _ _) as [[]]. }
  unfold _rpc_watchdog_clear_latch. destruct (params_of req) as [p|]; [|reflexivity].
  destruct (truthy _).
  { unfold _rpc_watchdog_clear_all_latches.
    pose proof (clear_all_keeps (dget req "request_id") (rule_keys s) [] s) as H1.
    by destruct (foldl _ _ _). }
  destruct (negb _); [reflexivity|]. destruct (dget p "watchdog_id"); try apply Hs.
  unfold _rpc_watchdog_clear_unscoped. destruct (_find_watchdog_rule_matches _ _) as [|[i n] [|]]; try reflexivity.
  pose proof (Hclear i n (dget req "request_id") s) as H1.
  by destruct (_clear_rule_state _ _ _ _).
Qed.

Lemma status_keeps req s : R s (snd (_rpc_watchdog_status req s)).
Proof. unfold _rpc_watchdog_status. destruct (w_clock _). apply Hworld. Qed.

Lemma handler_keeps h req s : h ∈ (watchdog_handlers (W := W)).*2 -> R s (snd (h req s)).
Proof.
  intros Hh. repeat (apply elem_of_cons in Hh as [-> |Hh];
    [solve [apply enable_keeps | apply enable_all_keeps | apply clear_latch_keeps | apply status_keeps
           | reflexivity]|]).
  by apply not_elem_of_nil in Hh.
Qed.

Lemma request_keeps req s : R s (snd (_watchdog_handle_rpc (fun s => (Ok tt, s)) req s)).
Proof.
  unfold _watchdog_handle_rpc, mbind, pyM_bind, _handle_common_rpc. cbv zeta.
  destruct (String.eqb _ _); [reflexivity|]. destruct (params_of req); [|reflexivity].
  unfold dispatch_with_canonical. destruct (od_get (rg_handlers _) _) as [h|] eqn:E; [|reflexivity].
  cbn [fmap option_fmap option_map]. apply handler_keeps.
  by apply add_handler_range in E as [[]%not_elem_of_nil|].
Qed.

End frames.

(** ** One rule *)
Section rule.
Context (k : wkey) (r : WatchdogRule).

Definition last_of (s : st) : option Q := get_state s k ≫= st_last_trigger.
Definition latched_of (s : st) : bool := from_option st_latched false (get_state s k).

(** A stretch without a trip of the rule. *)
Record quiet (s : st) (evs : list event) (s' : st) : Prop := {
  q_events : wd_events s' = wd_events s ++ evs;
  q_notrip : Forall (fun e => ~ is_trip k e) evs;
  q_rules : forall i, we_ruleset <$> od_get (wd_entries s') i = we_ruleset <$> od_get (wd_entries s) i;
  q_last : last_of s' = last_of s;
  q_inflight : k ∈ wd_inflight s -> k ∈ wd_inflight s' \/ Exists (is_done k) evs;
  q_latched : latched_of s = true -> latched_of s' = true \/ Exists (is_cleared k) evs
}.

(** A trip at time [t]. *)
Record trips (t : Q) (s : st) (evs : list event) (s' : st) : Prop := {
  t_events : wd_events s' = wd_events s ++ evs;
  t_trip : exists pre e post, evs = pre ++ e :: post /\ is_trip k e /\
    Forall (fun e => ~ is_trip k e) pre /\ Forall (fun e => ~ is_trip k e) post /\
    (k ∈ wd_inflight s' \/ Exists (is_done k) post) /\
    (wr_latch r = true -> latched_of s = false /\ (latched_of s' = true \/ Exists (is_cleared k) post));
  t_rules : forall i, we_ruleset <$> od_get (wd_entries s') i = we_ruleset <$> od_get (wd_entries s) i;
  t_free : k ∉ wd_inflight s;
  t_cooldown : forall t0, last_of s = Some t0 -> fleb (wr_cooldown_s r) (FFin (t - t0)) = true;
  t_last : last_of s' = Some t
}.

Lemma quiet_refl s : quiet s [] s.
Proof. constructor; auto. by rewrite app_nil_r. Qed.

Lemma quiet_trans s e1 s1 e2 s2 : quiet s e1 s1 -> quiet s1 e2 s2 -> quiet s (e1 ++ e2) s2.
Proof.
  intros [A1 B1 C1 D1 E1 F1] [A2 B2 C2 D2 E2 F2]. constructor.
  - by rewrite A2, A1, app_assoc.
  - by apply Forall_app.
  - intros i. by rewrite C2, C1.
  - congruence.
  - rewrite Exists_app. naive_solver.
  - rewrite Exists_app. naive_solver.
Qed.

Lemma quiet_event s topic p : topic <> "manager.watchdog.triggered" -> quiet s [(topic, p)] (_publish_event topic p s).
Proof. intros Ht. constructor; auto. constructor; [|done]. by intros [? _]. Qed.

(** States that differ in nothing a history of the rule is about. *)
Lemma quiet_same (s s' : st) :
  wd_events s' = wd_events s -> wd_entries s' = wd_entries s -> wd_states s' = wd_states s ->
  wd_inflight s' = wd_inflight s -> quiet s [] s'.
Proof.
  intros E1 E2 E3 E4. constructor; unfold last_of, latched_of, get_state; rewrite ?E1, ?E2, ?E3, ?E4; auto.
  by rewrite app_nil_r.
Qed.

Lemma get_put k' rs (s : st) k0 : get_state (put_state k' rs s) k0 = if decide (k' = k0) then Some rs else get_state s k0.
Proof. apply od_get_set. Qed.

Lemma quiet_put k' a b (s : st) :
  get_state s k' = Some a -> st_last_trigger b = st_last_trigger a ->
  (st_latched a = true -> st_latched b = true) -> quiet s [] (put_state k' b s).
Proof.
  intros Ea El Et. constructor; auto; unfold last_of, latched_of; rewrite ?get_put, ?app_nil_r; try done;
    case_decide as Hk; auto; subst; rewrite Ea; cbn; auto.
Qed.

Lemma quiet_update k' f (s : st) :
  (forall a, st_last_trigger (f a) = st_last_trigger a /\ (st_latched a = true -> st_latched (f a) = true)) ->
  quiet s [] (update_state k' f s).
Proof.
  intros Hf. unfold update_state. destruct (get_state s k') as [a|] eqn:E; [|apply quiet_refl].
  destruct (Hf a). by eapply quiet_put.
Qed.

Lemma quiet_error k' e s : exists evs, quiet s evs (report (_condition_error_callback exc_repr k') e s).
Proof.
  unfold report, _condition_error_callback. destruct (w_clock (wd_world s)) as [now w]. cbv zeta.
  match goal with |- context [if ?b then _ else _] => destruct b end; cbn [snd].
  - exists []. by apply quiet_same.
  - eexists. eapply (quiet_trans _ []); [|by apply quiet_event]. by apply quiet_same.
Qed.

Definition unheard (s s' : st) : Prop := exists evs, quiet s evs s'.

#[local] Instance unheard_preorder : PreOrder unheard.
Proof.
  split; [by exists []; apply quiet_refl|]. intros s1 s2 s3 [e1 H1] [e2 H2].
  exists (e1 ++ e2). by eapply quiet_trans.
Qed.

Lemma unheard_event topic p s : topic <> "manager.watchdog.triggered" -> unheard s (_publish_event topic p s).
Proof. eexists. by apply quiet_event. Qed.

Lemma unheard_world (w : W) s : unheard s (s <| wd_world := w |>).
Proof. exists []. by apply quiet_same. Qed.

Lemma recover_unheard i r' k' s : unheard s (recover i r' k' s).
Proof.
  unfold recover. destruct (get_state s k') as [a|] eqn:E; [|reflexivity].
  destruct (st_active_trip_id a) as [trip|]; [|reflexivity]. destruct (st_active_trip_recovered a); [reflexivity|].
  destruct (st_alarm a) as [[]|]; try reflexivity. destruct (st_unknown a) as [[]|]; try reflexivity.
  destruct (has_error a); [reflexivity|]. cbv zeta.
  transitivity (_publish_recovered i r' a trip s); [by apply unheard_event|].
  exists []. eapply quiet_put; [exact E| |]; cbn; by destruct (st_latched a) eqn:?.
Qed.
Lemma recover_inflight i r' k' (s : st) : wd_inflight (recover i r' k' s) = wd_inflight s.
Proof. unfold recover. repeat case_match; done. Qed.

Lemma not_in_discard k' (s : st) : k' <> k -> k ∈ wd_inflight s -> k ∈ discard k' (wd_inflight s).
Proof. intros Hk Hi. apply list_elem_of_filter. done. Qed.

Lemma quiet_chain_error trip k' text (s : st) :
  unheard s (chain_error_event trip k' text (s <| wd_inflight := discard k' (wd_inflight s) |>)).
Proof.
  eexists [_]. constructor; auto.
  - by constructor; [intros [? _]|].
  - intros Hi. destruct (decide (k' = k)) as [->|Hk]; [right|left; by apply not_in_discard].
    left. split; [set_solver|]. by destruct k.
Qed.

Lemma chain_unheard k' c (s : st) :
  unheard s (update_state k' (fun rs => rs <| st_last_action_chain := Some c |>) s).
Proof. exists []. by apply quiet_update. Qed.

Lemma submit_unheard i r' trip s : unheard s (_submit_actions i r' trip s).
Proof.
  unfold _submit_actions. cbv zeta.
  match goal with |- context [wd_executor_up ?x] => transitivity x; [apply chain_unheard|generalize x; intros s1] end.
  destruct (wd_executor_up s1); [exists []; by apply quiet_same|].
  etrans; [apply chain_unheard|]. apply quiet_chain_error.
Qed.

Lemma reset_unheard k' (s : st) : unheard s (update_state k' _reset_watchdog_confirmation s).
Proof. exists []. apply quiet_update. intros a. destruct (reset_carries a) as [-> ->]. done. Qed.

(** What follows the announcement of a trip. *)
Lemma trip_rest i r' a trip (b : bool) s :
  unheard s (update_state (i, wr_name r') _reset_watchdog_confirmation
    (_submit_actions i r' trip (if b then _publish_latched i r' a trip s else s))).
Proof.
  etrans; [|apply reset_unheard]. etrans; [|apply submit_unheard].
  destruct b; [by apply unheard_event|reflexivity].
Qed.

Lemma put_other k' b (s : st) : k' <> k -> quiet s [] (put_state k' b s).
Proof.
  intros Hk. constructor; unfold last_of, latched_of; rewrite ?get_put, ?app_nil_r; try done; auto;
    rewrite decide_False by done; auto.
Qed.

Lemma update_other k' f (s : st) : k' <> k -> quiet s [] (update_state k' f s).
Proof.
  intros Hk. unfold update_state. case_match; [by apply put_other|apply quiet_refl].
Qed.

(** The state when a trip is announced. *)
Definition committed (key : wkey) (now : Q) (trip : string) (w : W) (s : st) : st :=
  update_state key (fun rs => rs <| st_active_trip_id := Some trip |> <| st_active_trip_recovered := false |>)
    (update_state key (fun rs => mark_watchdog_triggered rs now)
       (s <| wd_inflight := key :: wd_inflight s |>) <| wd_world := w |>).

Lemma update_frame key f (s : st) :
  wd_events (update_state key f s) = wd_events s /\ wd_entries (update_state key f s) = wd_entries s /\
  wd_inflight (update_state key f s) = wd_inflight s.
Proof. unfold update_state. by case_match. Qed.

Lemma committed_frame key now trip w (s : st) :
  wd_events (committed key now trip w s) = wd_events s /\ wd_entries (committed key now trip w s) = wd_entries s /\
  wd_inflight (committed key now trip w s) = key :: wd_inflight s.
Proof.
  unfold committed. edestruct update_frame as (-> & -> & ->). cbn.
  edestruct update_frame as (-> & -> & ->). done.
Qed.

Lemma get_update key f (s : st) k0 :
  get_state (update_state key f s) k0 = if decide (key = k0) then f <$> get_state s k0 else get_state s k0.
Proof.
  unfold update_state. destruct (get_state s key) eqn:E; [rewrite get_put|]; case_decide; subst; rewrite ?E; done.
Qed.

Lemma committed_state key now trip w (s : st) k0 :
  get_state (committed key now trip w s) k0 =
  if decide (key = k0)
  then (fun rs => mark_watchdog_triggered rs now <| st_active_trip_id := Some trip |>
                    <| st_active_trip_recovered := false |>) <$> get_state s k0
  else get_state s k0.
Proof.
  unfold committed. rewrite get_update.
  change (get_state (?x <| wd_world := w |>) k0) with (get_state x k0). rewrite get_update.
  case_decide; [|done]. by destruct (get_state s k0) eqn:E; unfold get_state in *; cbn; rewrite E.
Qed.

Lemma trip_other i r' pl ev now s : (i, wr_name r') <> k -> unheard s (trip i r' (i, wr_name r') pl ev now s).
Proof.
  intros Hk. unfold trip. case_bool_decide; [reflexivity|]. cbv zeta. destruct (w_uuid _) as [trip w].
  fold (committed (i, wr_name r') now trip w s). etrans; [|apply trip_rest].
  destruct (committed_frame (i, wr_name r') now trip w s) as (E1 & E2 & E3).
  pose proof (committed_state (i, wr_name r') now trip w s k) as E4. rewrite decide_False in E4 by done.
  eexists [_]. constructor.
  - cbn. by rewrite E1.
  - constructor; [|done]. intros [_ Hkey]. injection Hkey. done.
  - intros j. cbn. by rewrite E2.
  - unfold last_of. change (get_state (_publish_triggered _ _ _ _ _ _ ?x) k) with (get_state x k). by rewrite E4.
  - intros Hi. left. cbn. rewrite E3. by right.
  - unfold latched_of. change (get_state (_publish_triggered _ _ _ _ _ _ ?x) k) with (get_state x k).
    rewrite E4. auto.
Qed.

(** A trip of the rule itself. *)
Lemma trip_self pl ev now a s :
  k = (fst k, wr_name r) -> k ∉ wd_inflight s -> get_state s k = Some a ->
  exists e post, is_trip k e /\ Forall (fun e => ~ is_trip k e) post /\
  let s' := trip (fst k) r k pl ev now s in
  wd_events s' = wd_events s ++ e :: post /\
  (forall i, we_ruleset <$> od_get (wd_entries s') i = we_ruleset <$> od_get (wd_entries s) i) /\
  last_of s' = Some now /\ (k ∈ wd_inflight s' \/ Exists (is_done k) post) /\
  (st_latched a = true -> latched_of s' = true \/ Exists (is_cleared k) post).
Proof.
  intros Hk Hi Ha. unfold trip. rewrite bool_decide_false by done. cbv zeta. destruct (w_uuid _) as [trip w].
  fold (committed k now trip w s).
  destruct (committed_frame k now trip w s) as (E1 & E2 & E3).
  pose proof (committed_state k now trip w s k) as E4. rewrite decide_True, Ha in E4 by done. cbn in E4.
  rewrite E4. cbn [default].
  match goal with |- context [_publish_triggered ?x1 ?x2 ?x3 ?x4 ?x5 ?x6 ?x7] =>
    set (s1 := _publish_triggered x1 x2 x3 x4 x5 x6 x7) end.
  match goal with |- context [if ?b then _publish_latched ?x1 ?x2 ?x3 ?x4 _ else _] =>
    destruct (trip_rest (fst k) r x3 trip b s1) as [post [F1 F2 F3 F4 F5 F6]] end.
  rewrite <- Hk in F1, F3, F4, F5, F6.
  assert (get_state s1 k = get_state (committed k now trip w s) k) as Es by done.
  unfold last_of, latched_of in *. rewrite Es, E4 in F4, F6.
  eexists _, post. split_and!; [| exact F2 | | | | |].
  2:{ rewrite F1. cbn. by rewrite E1, <- app_assoc. }
  - split; [done|]. cbn. by rewrite Hk.
  - intros i. rewrite F3. cbn. by rewrite E2.
  - done.
  - apply F5. cbn. rewrite E3. by left.
  - done.
Qed.

(** ** Steps are stretches and trips *)
Inductive segments (t : Q) : st -> list event -> st -> Prop :=
| seg_nil s : segments t s [] s
| seg_quiet s e1 s1 e2 s2 : quiet s e1 s1 -> segments t s1 e2 s2 -> segments t s (e1 ++ e2) s2
| seg_trip s e1 s1 e2 s2 : trips t s e1 s1 -> segments t s1 e2 s2 -> segments t s (e1 ++ e2) s2.

Definition steps (t : Q) (s s' : st) : Prop := exists evs, segments t s evs s'.

Lemma segments_app t s e1 s1 e2 s2 : segments t s e1 s1 -> segments t s1 e2 s2 -> segments t s (e1 ++ e2) s2.
Proof.
  induction 1 as [|s e1 s1 e1' s1' Hq _ IH|s e1 s1 e1' s1' Hq _ IH]; intros H2; [done|..]; rewrite <- app_assoc;
    [eapply seg_quiet|eapply seg_trip]; eauto.
Qed.

#[local] Instance steps_preorder t : PreOrder (steps t).
Proof.
  split; [by exists []; constructor|]. intros s1 s2 s3 [e1 H1] [e2 H2]. exists (e1 ++ e2). by eapply segments_app.
Qed.

Lemma unheard_steps t s s' : unheard s s' -> steps t s s'.
Proof. intros [e He]. exists (e ++ []). eapply seg_quiet; [exact He|constructor]. Qed.

Definition same_rules (s s' : st) : Prop :=
  forall i, we_ruleset <$> od_get (wd_entries s') i = we_ruleset <$> od_get (wd_entries s) i.

Lemma steps_rules t s s' : steps t s s' -> same_rules s s'.
Proof.
  intros [evs Hs]. induction Hs as [|s e1 s1 e2 s2 Hq _ IH|s e1 s1 e2 s2 Hq _ IH]; intros i; [done|..];
    rewrite IH; apply Hq.
Qed.

(** The rule named [k] is [r]. *)
Definition rule_at (s : st) : Prop := forall i e r', od_get (wd_entries s) i = Some e ->
  r' ∈ ws_rules (we_ruleset e) -> (i, wr_name r') = k -> r' = r.

Lemma rule_at_same s s' : same_rules s s' -> rule_at s -> rule_at s'.
Proof.
  intros Hs Hr i e' r' He'. specialize (Hs i). rewrite He' in Hs.
  destruct (od_get (wd_entries s) i) as [e|] eqn:He; [|done]. injection Hs as ->. by apply Hr.
Qed.

Lemma recover_state i r' b (s : st) :
  get_state s k = Some b ->
  exists b', get_state (recover i r' k s) k = Some b' /\ st_latched b' = st_latched b.
Proof.
  intros Hb. unfold recover. rewrite Hb. repeat case_match; try (by exists b).
  all: eexists; rewrite get_put, decide_True by done; split; [done|]; cbn; congruence.
Qed.

(** An evaluation of the rule that triggers, from its result on. *)
Lemma triggered_self pl ev now a s :
  k = (fst k, wr_name r) -> get_state s k = Some a ->
  st_last_trigger (ev_state ev) = st_last_trigger a ->
  (st_latched a = true -> st_latched (ev_state ev) = true) ->
  _watchdog_cooldown_ready r a now = true ->
  (wr_latch r = true -> st_latched a = false /\ st_latched (ev_state ev) = true) ->
  steps now s (trip (fst k) r k pl ev now (recover (fst k) r k (put_state k (ev_state ev) s))).
Proof.
  intros Hk Ha L1 L2 L3 L4. set (s1 := put_state k (ev_state ev) s).
  assert (get_state s1 k = Some (ev_state ev)) as E1 by (unfold s1; by rewrite get_put, decide_True).
  assert (unheard s (recover (fst k) r k s1)) as [pre H1].
  { etrans; [exists []; by eapply quiet_put|]. apply recover_unheard. }
  destruct (recover_state (fst k) r _ s1 E1) as (b & Eb & Hb).
  assert (wd_inflight (recover (fst k) r k s1) = wd_inflight s) as Ei by (rewrite recover_inflight; done).
  destruct (decide (k ∈ wd_inflight s)) as [Hi|Hi].
  { apply unheard_steps. unfold trip. rewrite Ei, bool_decide_true by done. by exists pre. }
  destruct (trip_self pl ev now b (recover (fst k) r k s1)) as (e & post & He & Hpost & T1 & T2 & T3 & T4 & T5);
    [done|by rewrite Ei|done|].
  exists ((pre ++ e :: post) ++ []). eapply seg_trip; [|constructor]. destruct H1 as [Q1 Q2 Q3 Q4 Q5 Q6].
  constructor; [| | | | |].
  - by rewrite T1, Q1, app_assoc.
  - exists pre, e, post. split_and!; try done. intros Hw. destruct (L4 Hw) as [La Lb].
    split; [unfold latched_of; by rewrite Ha|]. apply T5. congruence.
  - intros i. by rewrite T2, Q3.
  - done.
  - intros t0. unfold last_of. rewrite Ha. cbn. intros Ht. revert L3. unfold _watchdog_cooldown_ready. by rewrite Ht.
  - done.
Qed.

Definition reports (s s' : st) : Prop := unheard s s' /\ wd_states s' = wd_states s.

#[export] Instance reports_preorder : PreOrder reports.
Proof.
  split; [intros x; by split; [reflexivity|]|]. intros x y z [H1 E1] [H2 E2]. split; [by etrans|congruence].
Qed.

Lemma error_reports key e s : reports s (report (_condition_error_callback exc_repr key) e s).
Proof.
  split; [apply quiet_error|]. unfold report, _condition_error_callback. destruct (w_clock _). by case_match.
Qed.

Lemma evaluate_rule_steps i r' now s :
  ((i, wr_name r') = k -> r' = r) -> steps now s (snd (evaluate_rule exc_repr i now r' s)).
Proof.
  intros Hr. unfold evaluate_rule. set (key := (i, wr_name r')).
  destruct (get_state s key) as [a|] eqn:Ea; [|reflexivity].
  pose proof (evaluate_facts exc_repr (_condition_error_callback exc_repr key) reports (error_reports key)
                r' a (w_latest (wd_world s)) now s) as Hf.
  destruct (evaluate_watchdog_rule _ _ _ _ _ _ _) as [[ev|x] s0]; destruct Hf as [[H0 Es] Hf];
    cbn [snd]; [|by apply unheard_steps].
  destruct (Hf _ eq_refl) as (L1 & L2 & L3). clear Hf.
  assert (get_state s0 key = Some a) as Ea0 by (unfold get_state; by rewrite Es).
  etrans; [by apply unheard_steps|].
  assert (unheard s0 (recover i r' key (put_state key (ev_state ev) s0))) as H1.
  { etrans; [exists []; by eapply quiet_put|]. apply recover_unheard. }
  destruct (ev_triggered ev); [|by apply unheard_steps].
  destruct (decide (key = k)) as [Hk|Hk].
  - pose proof (f_equal fst Hk) as Hi. cbn in Hi. pose proof (Hr Hk) as ->. subst i. clear Hr.
    subst key. rewrite Hk in *.
    destruct (L3 eq_refl) as [Hc Hl]. by eapply triggered_self.
  - etrans; [by apply unheard_steps|]. by apply unheard_steps, trip_other.
Qed.

Lemma forM_steps {A} (f : A -> pyM st unit) now l s :
  (forall x s, x ∈ l -> rule_at s -> steps now s (snd (f x s))) -> rule_at s -> steps now s (snd (forM f l s)).
Proof.
  revert s. induction l as [|x l IH]; intros s Hf Hr; [reflexivity|]. cbn [forM]. unfold mbind, pyM_bind.
  pose proof (Hf x s ltac:(by left) Hr) as Hx. destruct (f x s) as [[[]|e] s1]; cbn in *; [|done].
  etrans; [exact Hx|]. apply IH; [intros; apply Hf; [by right|done]|].
  eapply rule_at_same; [|exact Hr]. by eapply steps_rules.
Qed.

(** Rules of an entry stay the same, so a tick may be cut anywhere. *)
Lemma rules_of_entry i now rs s :
  (forall r', r' ∈ rs -> (i, wr_name r') = k -> r' = r) ->
  steps now s (snd (forM (evaluate_rule exc_repr i now) rs s)).
Proof.
  revert s. induction rs as [|x l IH]; intros s Hr; [reflexivity|]. cbn [forM]. unfold mbind, pyM_bind.
  pose proof (evaluate_rule_steps i x now s (Hr x ltac:(by left))) as Hx.
  destruct (evaluate_rule _ _ _ _ _) as [[[]|e] s1]; cbn in *; [|done].
  etrans; [exact Hx|]. apply IH. intros. apply Hr; [by right|done].
Qed.

Lemma tick_steps s : rule_at s -> steps (fst (w_clock (wd_world s))) s (snd (_evaluate_rules exc_repr s)).
Proof.
  intros Hr. unfold _evaluate_rules. destruct (w_clock (wd_world s)) as [now w]. cbn [fst].
  transitivity (s <| wd_world := w |>); [apply unheard_steps; exists []; by apply quiet_same|].
  apply forM_steps; [|done]. intros i s1 _ Hr1. unfold evaluate_ruleset.
  destruct (od_get (wd_entries s1) i) as [e|] eqn:E; [|reflexivity]. destruct (we_enabled e); [|reflexivity].
  apply rules_of_entry. intros r' Hr'. by eapply Hr1.
Qed.

(** ** The worker *)
(** A finished chain is announced, and then it no longer blocks its rule. *)
Lemma execute_announces i r' trip s :
  let '(out, s') := _execute_actions exc_repr i r' trip s in
  exists evs, quiet s evs s' /\ (forall v, out = Ok v -> (i, wr_name r') = k -> Exists (is_done k) evs).
Proof.
  unfold _execute_actions. pose proof (run_actions_keeps unheard unheard_event unheard_world i r' trip 0 (wr_actions r') s) as [evs H1].
  destruct (run_actions _ _ _ _ _ _ _) as [[results|x] s1]; cbn in H1; [|by exists evs].
  eexists (evs ++ [_]). split; [eapply quiet_trans; [exact H1|by apply quiet_event]|].
  intros v _ Hk. apply Exists_app. right. left. split; [set_solver|]. by rewrite <- Hk.
Qed.

Lemma discard_quiet k' evs (s s' : st) :
  quiet s evs s' -> (k' = k -> Exists (is_done k) evs) ->
  quiet s evs (s' <| wd_inflight := discard k' (wd_inflight s') |>).
Proof.
  intros [Q1 Q2 Q3 Q4 Q5 Q6] Hd. constructor; auto. intros [Hi|]%Q5; [|by right]. cbn.
  destruct (decide (k' = k)); [right; auto|left]. by apply not_in_discard.
Qed.

Lemma work_unheard s : unheard s (worker_step exc_repr s).
Proof.
  unfold worker_step. destruct (wd_jobs s) as [|j rest]; [reflexivity|]. cbv zeta.
  transitivity (s <| wd_jobs := rest |>); [exists []; by apply quiet_same|]. set (s1 := s <| wd_jobs := rest |>).
  pose proof (execute_announces (jb_watchdog_id j) (jb_rule j) (jb_trip_id j) s1) as Hx.
  destruct (_execute_actions _ _ _ _ _) as [[v|x] s2]; destruct Hx as (evs & Hq & Hd); unfold _on_action_chain_done.
  - exists (evs ++ []). apply discard_quiet.
    + eapply quiet_trans; [exact Hq|]. apply quiet_update. intros a. by case_match.
    + intros Hk. rewrite app_nil_r. by eapply Hd.
  - eexists (evs ++ [] ++ [_]). apply discard_quiet.
    + eapply quiet_trans; [exact Hq|]. eapply quiet_trans; [|by apply quiet_event].
      apply quiet_update. intros a. by repeat case_match.
    + intros Hk. apply Exists_app. right. apply Exists_app. right. left.
      split; [set_solver|]. transitivity (Some (fst (jb_key j), snd (jb_key j))); [done|]. by rewrite <- surjective_pairing, Hk.
Qed.

(** ** Requests *)
Lemma clear_unheard i n req_id s : unheard s (snd (_clear_rule_state i n req_id s)).
Proof.
  unfold _clear_rule_state. destruct (get_state s (i, n)) as [a|] eqn:Ea; [|reflexivity]. cbv zeta. cbn [snd].
  etrans; [|by apply unheard_event].
  match goal with |- unheard s (if _ then _publish_event _ _ ?x else _) => set (s1 := x) end.
  assert (last_of s1 = last_of s /\ ((i, n) <> k -> latched_of s1 = latched_of s)) as [L1 L2].
  { unfold last_of, latched_of, s1. rewrite get_put. split; [|intros; by rewrite decide_False].
    case_decide as Hk; [|done]. rewrite <- Hk, Ea. cbn [mbind option_bind].
    destruct (st_latched a); cbn; by rewrite (proj1 (reset_carries _)). }
  destruct (st_latched a) eqn:El.
  - eexists [_]. constructor; auto; [constructor; [by intros [? _]|done]|].
    intros Hl. destruct (decide ((i, n) = k)) as [Hk|Hk]; [right; left|left; rewrite <- Hl; by apply L2].
    split; [done|]. rewrite <- Hk. by destruct (is_none req_id).
  - exists []. constructor; auto; [by rewrite app_nil_r|]. intros Hl.
    destruct (decide ((i, n) = k)) as [Hk|Hk]; [|left; rewrite <- Hl; by apply L2].
    unfold latched_of in Hl. rewrite <- Hk, Ea in Hl. cbn in Hl. congruence.
Qed.

Lemma entries_unheard (s : st) entries :
  (forall i, we_ruleset <$> od_get entries i = we_ruleset <$> od_get (wd_entries s) i) ->
  unheard s (s <| wd_entries := entries |>).
Proof. intros H. exists []. constructor; auto. by rewrite app_nil_r. Qed.

(** Every step is a sequence of stretches and trips at its clock reading. *)
Lemma perform_steps op s : rule_at s -> steps (fst (w_clock (wd_world s))) s (snd (perform op s)).
Proof.
  intros Hr. destruct op; cbn [perform]; [by apply tick_steps|..]; apply unheard_steps; cbn [snd].
  - apply work_unheard.
  - apply request_keeps; auto using unheard_event, unheard_world, clear_unheard, entries_unheard with typeclass_instances.
  - exists []. by apply quiet_same.
  - exists []. by apply quiet_same.
Qed.

(** ** Trips in a history *)
Abbreviation stamped := (list (Q * event)).

(** Between two trips: a cooldown, the end of the first chain and, for a
    latching rule, the clearing of its latch. *)
Definition apart (h : stamped) : Prop :=
  forall h0 t1 e1 h2 t2 e2 h3, h = h0 ++ (t1, e1) :: h2 ++ (t2, e2) :: h3 -> is_trip k e1 -> is_trip k e2 ->
    fleb (wr_cooldown_s r) (FFin (t2 - t1)) = true /\ Exists (is_done k) h2.*2 /\
    (wr_latch r = true -> Exists (is_cleared k) h2.*2).

(** The state remembers what a later trip has to wait for. *)
Definition remembered (h : stamped) (s : st) : Prop :=
  forall h0 t1 e1 h2, h = h0 ++ (t1, e1) :: h2 -> is_trip k e1 ->
    (exists tl, last_of s = Some tl /\ (t1 <= tl)%Q) /\
    (k ∈ wd_inflight s \/ Exists (is_done k) h2.*2) /\
    (wr_latch r = true -> latched_of s = true \/ Exists (is_cleared k) h2.*2).

Lemma app_split {A} (h e h0 h2 : list A) x :
  h ++ e = h0 ++ x :: h2 ->
  (exists h2', h = h0 ++ x :: h2' /\ h2 = h2' ++ e) \/ (exists pre, h0 = h ++ pre /\ e = pre ++ x :: h2).
Proof.
  intros [m [[-> E]|[-> ->]]]%app_eq_app; [|right; by exists m].
  destruct m as [|y m]; cbn in E; [right; exists []; rewrite !app_nil_r; by split|].
  injection E as -> ->. left. by exists m.
Qed.

Lemma no_trip_split (t : Q) (evs : list event) (h0 : stamped) t1 e1 h2 :
  Forall (fun e => ~ is_trip k e) evs -> pair t <$> evs = h0 ++ (t1, e1) :: h2 -> ~ is_trip k e1.
Proof.
  intros Hn E. assert ((t1, e1) ∈ pair t <$> evs) as Hin by (rewrite E; set_solver).
  apply list_elem_of_fmap in Hin as (e & [= -> ->] & He). rewrite Forall_forall in Hn. auto.
Qed.

Lemma stamped_snd (t : Q) (evs : list event) : (pair t <$> evs).*2 = evs.
Proof. rewrite <- list_fmap_compose. apply list_fmap_id. Qed.

Lemma apart_quiet (t : Q) (evs : list event) h : Forall (fun e => ~ is_trip k e) evs -> apart h -> apart (h ++ (pair t <$> evs)).
Proof.
  intros Hn Ha h0 t1 e1 h2 t2 e2 h3 E T1 T2. rewrite app_comm_cons, app_assoc in E.
  apply app_split in E as [(h3' & -> & ->)|(pre & _ & E)]; [|by apply (no_trip_split _ _ _ _ _ _ Hn) in E].
  rewrite <- app_assoc in Ha. by eapply Ha.
Qed.

Lemma remembered_quiet (t : Q) s evs s' h : quiet s evs s' -> remembered h s -> remembered (h ++ (pair t <$> evs)) s'.
Proof.
  intros [Q1 Q2 Q3 Q4 Q5 Q6] Hm h0 t1 e1 h2 E T.
  apply app_split in E as [(h2' & -> & ->)|(pre & _ & E)]; [|by apply (no_trip_split _ _ _ _ _ _ Q2) in E].
  destruct (Hm _ _ _ _ eq_refl T) as (Hl & Hi & Hc). rewrite Q4, fmap_app, stamped_snd.
  split_and!; [done|rewrite Exists_app; naive_solver|]. intros Hw. rewrite Exists_app.
  destruct (Hc Hw); naive_solver.
Qed.

Lemma remembered_more (t : Q) (evs : list event) s h :
  Forall (fun e => ~ is_trip k e) evs -> remembered h s -> remembered (h ++ (pair t <$> evs)) s.
Proof.
  intros Hn Hm h0 t1 e1 h2 E T.
  apply app_split in E as [(h2' & -> & ->)|(pre & _ & E)]; [|by apply (no_trip_split _ _ _ _ _ _ Hn) in E].
  destruct (Hm _ _ _ _ eq_refl T) as (Hl & Hi & Hc). rewrite fmap_app.
  split_and!; [done|rewrite Exists_app; naive_solver|]. intros Hw. rewrite Exists_app.
  destruct (Hc Hw); naive_solver.
Qed.

Lemma fleb_mono c a b : (a <= b)%Q -> fleb c (FFin a) = true -> fleb c (FFin b) = true.
Proof.
  intros Hab. unfold fleb. destruct c as [q|[]|]; cbn; try done.
  destruct (Qltb_spec q a), (Qltb_spec q b); cbn; try done; [lra|].
  intros Hq%Qeq_bool_iff. apply Qeq_bool_iff. lra.
Qed.

Lemma fleb_nonneg c a : nonneg c -> fleb c (FFin a) = true -> (0 <= a)%Q.
Proof.
  unfold fleb. destruct c as [q|[]|]; cbn; try done. intros Hq.
  destruct (Qltb_spec q a); cbn; [lra|]. intros Ha%Qeq_bool_iff. lra.
Qed.

(** A trip after [h]. *)
Lemma apart_trip (t : Q) s (e : event) h :
  k ∉ wd_inflight s -> (forall t0, last_of s = Some t0 -> fleb (wr_cooldown_s r) (FFin (t - t0)) = true) ->
  (wr_latch r = true -> latched_of s = false) -> remembered h s -> apart h -> apart (h ++ [(t, e)]).
Proof.
  intros Hi Hc Hl Hm Ha h0 t1 e1 h2 t2 e2 h3 E T1 T2. rewrite app_comm_cons, app_assoc in E.
  apply app_split in E as [(h3' & -> & ->)|(pre & Eh & E)].
  { rewrite <- app_assoc in Ha. by eapply Ha. }
  destruct pre as [|x [|]]; try discriminate E. injection E as -> -> <-. rewrite app_nil_r in Eh. subst h.
  destruct (Hm _ _ _ _ eq_refl T1) as ((tl & Htl & Hle) & Hd & Hcl). split_and!.
  - eapply fleb_mono; [|by apply Hc]. lra.
  - by destruct Hd.
  - intros Hw. destruct (Hcl Hw) as [Hx|]; [|done]. by rewrite Hl in Hx.
Qed.

Lemma remembered_trip (t : Q) s (e : event) post s' h :
  nonneg (wr_cooldown_s r) ->
  (forall t0, last_of s = Some t0 -> fleb (wr_cooldown_s r) (FFin (t - t0)) = true) ->
  Forall (fun e => ~ is_trip k e) post ->
  last_of s' = Some t -> (k ∈ wd_inflight s' \/ Exists (is_done k) post) ->
  (wr_latch r = true -> latched_of s' = true \/ Exists (is_cleared k) post) ->
  remembered h s -> remembered (h ++ (t, e) :: (pair t <$> post)) s'.
Proof.
  intros Hn Hc Hp Hlast Hi Hl Hm h0 t1 e1 h2 E T.
  apply app_split in E as [(h2' & -> & ->)|(pre & _ & E)].
  - destruct (Hm _ _ _ _ eq_refl T) as ((tl & Htl & Hle) & _ & _).
    rewrite fmap_app, fmap_cons, stamped_snd. split_and!.
    + exists t. split; [done|]. pose proof (fleb_nonneg _ _ Hn (Hc _ Htl)). lra.
    + rewrite Exists_app, Exists_cons. naive_solver.
    + intros Hw. rewrite Exists_app, Exists_cons. destruct (Hl Hw); naive_solver.
  - destruct pre as [|x pre]; cbn in E.
    + injection E as <- <- <-. rewrite stamped_snd. split_and!; [exists t; split; [done|lra]|done|done].
    + injection E as _ E. by apply (no_trip_split _ _ _ _ _ _ Hp) in E.
Qed.

Lemma segments_apart t s evs s' h :
  nonneg (wr_cooldown_s r) -> segments t s evs s' -> remembered h s -> apart h ->
  remembered (h ++ (pair t <$> evs)) s' /\ apart (h ++ (pair t <$> evs)).
Proof.
  intros Hn Hs. revert h. induction Hs as [s|s e1 s1 e2 s2 Hq _ IH|s e1 s1 e2 s2 Ht _ IH]; intros h Hm Ha.
  - by rewrite app_nil_r.
  - rewrite fmap_app, app_assoc. apply IH; [by eapply remembered_quiet|]. apply apart_quiet; [apply Hq|done].
  - rewrite fmap_app, app_assoc.
    destruct Ht as [T1 (pre & e & post & -> & He & Hpre & Hpost & Hi & Hl) T3 T4 T5 T6].
    assert (forall x, x ++ (pair t <$> pre ++ e :: post) = ((x ++ (pair t <$> pre)) ++ [(t, e)]) ++ (pair t <$> post)) as Er.
    { intros x. by rewrite fmap_app, fmap_cons, <- !app_assoc. }
    apply (remembered_more t pre) in Hm; [|done]. apply (apart_quiet t pre) in Ha; [|done]. apply IH.
    + rewrite Er, <- app_assoc. eapply remembered_trip; try done. intros Hw. by apply Hl.
    + rewrite Er. apply apart_quiet; [done|]. eapply apart_trip; try done. intros Hw. by apply Hl.
Qed.

Lemma segments_events t s evs s' : segments t s evs s' -> wd_events s' = wd_events s ++ evs.
Proof.
  induction 1 as [s|s e1 s1 e2 s2 Hq _ IH|s e1 s1 e2 s2 Ht _ IH]; [by rewrite app_nil_r|..];
    rewrite IH; [rewrite (q_events _ _ _ Hq)|rewrite (t_events _ _ _ _ Ht)]; by rewrite app_assoc.
Qed.

Lemma history_apart ops s h :
  nonneg (wr_cooldown_s r) -> rule_at s -> remembered h s -> apart h -> apart (h ++ history ops s).
Proof.
  intros Hn. revert s h. induction ops as [|op ops IH]; intros s h Hr Hm Ha; cbn [history]; [by rewrite app_nil_r|].
  pose proof (perform_steps op s Hr) as Hs. destruct (perform op s) as [res s'] eqn:E. cbn [snd] in Hs.
  pose proof (rule_at_same _ _ (steps_rules _ _ _ Hs) Hr) as Hr'. destruct Hs as [evs Hs].
  assert (published s s' = evs) as ->.
  { unfold published. rewrite (segments_events _ _ _ _ Hs), drop_app_length. done. }
  destruct (segments_apart _ _ _ _ h Hn Hs Hm Ha) as [Hm' Ha']. rewrite app_assoc.
  destruct res; [by apply IH|by rewrite app_nil_r].
Qed.
End rule.

(** ** From the start *)
Lemma add_watchdog_entries rss (s s' : st) :
  forM add_watchdog rss s = (Ok tt, s') ->
  (forall i e, od_get (wd_entries s) i = Some e -> od_get (wd_entries s') i = Some e) /\
  (forall rs, rs ∈ rss -> we_ruleset <$> od_get (wd_entries s') (ws_watchdog_id rs) = Some rs).
Proof.
  revert s. induction rss as [|rs rss IH]; intros s; cbn [forM].
  { intros [= <-]. split; [done|]. by intros rs ?%not_elem_of_nil. }
  unfold mbind, pyM_bind. unfold add_watchdog at 1.
  destruct (od_get (wd_entries s) (ws_watchdog_id rs)) eqn:E; [done|]. intros [I1 I2]%IH. cbn in I1. split.
  - intros i e He. apply I1. rewrite od_get_set_ne; [done|]. congruence.
  - intros rs' [-> |Hrs]%elem_of_cons; [|auto]. by rewrite (I1 _ _ (od_get_set_eq _ _ _)).
Qed.

Lemma init_rule_at w pid rss s rs r :
  watchdog_init w pid rss = (Ok tt, s) -> rs ∈ rss -> r ∈ ws_rules rs -> NoDup (wr_name <$> ws_rules rs) ->
  rule_at (ws_watchdog_id rs, wr_name r) r s.
Proof.
  unfold watchdog_init. destruct (forM _ _ _) as [[[]|x] s1] eqn:E; [|done]. intros [= <-] Hrs Hr Hd.
  apply add_watchdog_entries in E as [_ E]. intros i e r' He Hr' [= -> Hname]. cbn in He.
  pose proof (E rs Hrs) as Ee. change (wd_entries _) with (wd_entries s1) in He. rewrite He in Ee. injection Ee as Ee.
  rewrite Ee in Hr'. apply list_elem_of_lookup in Hr as [n Hn], Hr' as [m Hm].
  assert (m = n) as ->; [|congruence]. eapply (NoDup_lookup (wr_name <$> ws_rules rs)); [done|..];
    rewrite list_lookup_fmap; [by rewrite Hm|rewrite Hn; cbn; by rewrite Hname].
Qed.

(** A watchdog process, whatever happened to it since its start. *)
Inductive wd_reach : st -> Prop :=
| wd_reach_init w pid rss s : watchdog_init w pid rss = (Ok tt, s) -> wd_reach s
| wd_reach_step op s : wd_reach s -> wd_reach (snd (perform op s)).

(** C6. Over any history of a watchdog started with parsed rulesets (ticks,
    worker steps, requests, changes around it, in any order), two trips of
    one rule are announced at tick times at least its cooldown apart; between
    them the first trip's action chain was reported finished; and if the
    rule latches, its latch was cleared in between. *)
Theorem trips_apart raws sources rss w pid s ops rs r :
  Forall2 (fun '(raw, source) rs => _parse_watchdog_ruleset raw source = Ok rs) (zip raws sources) rss ->
  watchdog_init w pid rss = (Ok tt, s) -> rs ∈ rss -> r ∈ ws_rules rs ->
  apart (ws_watchdog_id rs, wr_name r) r (history ops s).
Proof.
  intros Hp Hs Hrs Hr.
  assert (ruleset_promises rs) as [Hpr Hd].
  { apply list_elem_of_lookup in Hrs as [n Hn].
    destruct (Forall2_lookup_r _ _ _ _ _ Hp Hn) as ([raw source] & _ & E). by eapply parse_ruleset_promises. }
  rewrite Forall_forall in Hpr. apply (history_apart _ _ ops s []).
  - by apply Hpr.
  - by eapply init_rule_at.
  - intros [|] ? ? ?; discriminate.
  - intros [|] ? ? ? ? ? ?; discriminate.
Qed.
End history.
