(* ===== verification/WatchdogSustained.v ===== *)
(** * What a trigger of a watchdog rule rests on

    The life of a rule's state: evaluations, clearings and the bookkeeping
    of the process in between ([processes/watchdog.py]).  A trigger needs an
    alarm that held at every evaluation over the whole stability window, and
    enough new samples of one source, each confirming it, without a break. *)
From Stdlib Require Import Lqa.
From S2P Require Import Prelude PyVal PyNum PyOps Expressions Conditions ProcessBase Responses RulesCommon.
From S2P Require Import Interlock InterlockTables Watchdog WatchdogProcess WatchdogTheorems WatchdogHistory.
#[local] Open Scope Z_scope.

Section sustained.
Context `{HR : !PyRepr, HA : !PyArith, HE : !PyExpr}.
Context (exc_repr : pyexc -> string) (r : WatchdogRule).

(** One evaluation: when, from which telemetry, with which result. *)
Record observation := mkObs { ob_time : Q; ob_telemetry : getter; ob_result : evaluation }.

(** The rule was armed when it was decided. *)
Definition was_armed (ev : evaluation) : bool := ev_triggered ev || st_armed (ev_state ev).

Definition alarming (o : observation) : Prop :=
  ev_alarm (ob_result o) = true /\ (wr_arm r <> None -> was_armed (ob_result o) = true).

Definition ob_entry (alias : string) (o : observation) : dict :=
  match dget_or (ev_snapshot (ob_result o)) alias (PDict []) with PDict d => d | _ => [] end.
Definition ob_marker (alias : string) (o : observation) : pyval := dget (ob_entry alias o) "t_mono_recv".
Definition ob_env (o : observation) : Env :=
  match _resolve_watchdog_bindings r (ob_telemetry o) (ob_time o) with Ok (env, _, _) => env | Err _ => [] end.

(** The sample of [alias] was usable. *)
Definition usable (alias : string) (o : observation) : Prop :=
  truthy (dget (ob_entry alias o) "ok") = true /\ ob_marker alias o <> PNone.

(** The condition of the branch of [alias], if it has one, held. *)
Definition confirms (cf : WatchdogConfirmation) (alias : string) (o : observation) : Prop :=
  forall c, od_get (cf_branch_conditions cf) alias = Some c -> condition_holds c (ob_env o) = true.

(** [streak cf alias l n m]: in the evaluations [l] the source [alias] was
    always usable and delivered [n] new samples (ones with another reception
    time than the sample before), each confirming; [m] is the last one. *)
Inductive streak (cf : WatchdogConfirmation) (alias : string) : list observation -> Z -> pyval -> Prop :=
| streak_none m : streak cf alias [] 0 m
| streak_same l n m o :
    streak cf alias l n m -> usable alias o -> py_eqb (ob_marker alias o) m = true ->
    streak cf alias (l ++ [o]) n m
| streak_new l n m o :
    streak cf alias l n m -> usable alias o -> py_eqb (ob_marker alias o) m = false -> confirms cf alias o ->
    streak cf alias (l ++ [o]) (n + 1) (ob_marker alias o).

(** ** Lives of a rule's state *)

(** What the process notes about trips and chains. *)
Definition same_watch (a b : RuleState) : Prop :=
  st_stable_since b = st_stable_since a /\ st_latched b = st_latched a /\ st_armed b = st_armed a /\
  st_confirmation b = st_confirmation a.

Definition cleared (a : RuleState) : RuleState :=
  _reset_watchdog_confirmation (a <| st_latched := false |> <| st_armed := false |> <| st_stable_since := None |>).

Inductive lives : list observation -> RuleState -> Prop :=
| lives_fresh : lives [] fresh_state
| lives_eval {S} log a get now (cb : pyexc -> pyM S unit) s ev s' :
    lives log a -> evaluate_watchdog_rule exc_repr r a get now cb s = (Ok ev, s') ->
    lives (log ++ [mkObs now get ev]) (ev_state ev)
| lives_reset log a : lives log a -> lives log (_reset_watchdog_confirmation a)
| lives_cleared log a : lives log a -> lives log (cleared a)
| lives_noted log a b : lives log a -> same_watch a b -> lives log b.

(** ** What the state says about the evaluations so far *)
Definition stable_ok (log : list observation) (a : RuleState) : Prop :=
  forall t, st_stable_since a = Some t ->
    exists l1 o l2, log = l1 ++ o :: l2 /\ ob_time o = t /\ Forall alarming (o :: l2).

Definition progress_ok (cf : WatchdogConfirmation) (log : list observation) (alias : string)
    (p : confirmation_progress) : Prop :=
  exists l1 l2, log = l1 ++ l2 /\ Forall alarming l2 /\ streak cf alias l2 (cp_count p) (cp_last p).

Definition confirmation_ok (log : list observation) (a : RuleState) : Prop :=
  forall cf, wr_confirmation r = Some cf ->
    match st_confirmation a with
    | None => True
    | Some m =>
        Forall (fun alias => is_Some (od_get m alias)) (cf_sample_aliases cf) /\
        (wr_latch r && st_latched a = false -> forall alias p, alias ∈ cf_sample_aliases cf ->
           od_get m alias = Some p -> progress_ok cf log alias p)
    end.

Lemma reset_get (m : list (string * confirmation_progress)) alias :
  od_get (prod_map id reset_progress <$> m) alias = reset_progress <$> od_get m alias.
Proof. induction m as [|[k p] m IH]; [done|]. cbn. by case_decide. Qed.

Lemma progress_none cf log alias m : progress_ok cf log alias (mkProgressC 0 m []).
Proof. exists log, []. rewrite app_nil_r. split_and!; constructor. Qed.

Lemma reset_progress_none cf log alias p : progress_ok cf log alias (reset_progress p).
Proof. destruct p. apply progress_none. Qed.

Lemma reset_stable a : st_stable_since (_reset_watchdog_confirmation a) = st_stable_since a.
Proof. unfold _reset_watchdog_confirmation. by case_match. Qed.

(** Resetting the progress forgets the samples, whatever came before. *)
Lemma reset_confirmation_ok log log' a b :
  st_confirmation b = st_confirmation a -> confirmation_ok log a -> confirmation_ok log' (_reset_watchdog_confirmation b).
Proof.
  intros Eb Ha cf Hcf. specialize (Ha cf Hcf). unfold _reset_watchdog_confirmation. rewrite Eb.
  destruct (st_confirmation a) as [m|]; [|by rewrite Eb]. cbn. destruct Ha as [Hk _]. split.
  - eapply Forall_impl; [exact Hk|]. intros alias [p Hp]. rewrite reset_get, Hp. by eexists.
  - intros _ alias p _. rewrite reset_get. destruct (od_get m alias); [|done]. intros [= <-].
    apply reset_progress_none.
Qed.

Lemma initial_keys cf alias : alias ∈ cf_sample_aliases cf -> od_get (initial_progress cf) alias = Some (mkProgressC 0 PNone []).
Proof.
  unfold initial_progress. intros Hin.
  rewrite (od_get_sets (fun a => (a, mkProgressC 0 PNone [])) (cf_sample_aliases cf) [] alias).
  destruct (od_get (reverse _) alias) as [v|] eqn:E.
  - apply od_get_elem, elem_of_reverse, list_elem_of_fmap in E as (? & [= -> ->] & _). done.
  - exfalso. apply od_get_None in E. apply E. unfold od_keys. rewrite fmap_reverse. apply elem_of_reverse.
    rewrite <- list_fmap_compose. apply list_elem_of_fmap. by exists alias.
Qed.

Lemma initial_ok cf log alias p : od_get (initial_progress cf) alias = Some p -> progress_ok cf log alias p.
Proof.
  unfold initial_progress. rewrite (od_get_sets (fun a => (a, mkProgressC 0 PNone [])) (cf_sample_aliases cf) [] alias).
  destruct (od_get (reverse _) alias) as [v|] eqn:E; [|done]. intros [= <-].
  apply od_get_elem, elem_of_reverse, list_elem_of_fmap in E as (? & [= -> ->] & _). apply progress_none.
Qed.

(** ** One source at one evaluation *)
Lemma confirm_alias_ok cf log alias p o :
  alarming o -> progress_ok cf log alias p ->
  let '(p', ready) := confirm_alias cf (ev_snapshot (ob_result o)) (ob_env o) alias p in
  progress_ok cf (log ++ [o]) alias p' /\ (ready = true -> cf_consecutive_samples cf <= cp_count p').
Proof.
  intros Ho (l1 & l2 & -> & Hal & Hs). unfold confirm_alias. cbv zeta.
  fold (ob_entry alias o). fold (ob_marker alias o).
  destruct (negb (truthy (dget (ob_entry alias o) "ok")) || is_none (ob_marker alias o)) eqn:Eu.
  { split; [exact (progress_none _ _ _ _)|done]. }
  apply orb_false_iff in Eu as [Eok%negb_false_iff Em].
  assert (usable alias o) as Hu by (split; [done|]; by intros E; rewrite E in Em).
  assert (Forall alarming (l2 ++ [o])) as Hal' by (apply Forall_app; by split; [|constructor]).
  destruct (py_eqb (ob_marker alias o) (cp_last p)) eqn:Es.
  { split; [|by intros ?%Z.leb_le]. exists l1, (l2 ++ [o]). rewrite app_assoc. split_and!; [done|done|by apply streak_same]. }
  destruct (od_get (cf_branch_conditions cf) alias) as [c|] eqn:Ec; cbn.
  2:{ split; [|by intros ?%Z.leb_le]. exists l1, (l2 ++ [o]). rewrite app_assoc. split_and!; [done|done|].
      apply (streak_new cf alias l2 (cp_count p) (cp_last p)); [done|done|done|]. intros c. congruence. }
  destruct (condition_holds c (ob_env o)) eqn:Eh; cbn; [|split; [exact (progress_none _ _ _ _)|done]].
  split; [|by intros ?%Z.leb_le]. exists l1, (l2 ++ [o]). rewrite app_assoc. split_and!; [done|done|].
  apply (streak_new cf alias l2 (cp_count p) (cp_last p)); [done|done|done|]. intros c' Ec'. congruence.
Qed.

Lemma confirm_aliases_ok cf snap env aliases m ready m' ready' :
  NoDup aliases -> Forall (fun alias => is_Some (od_get m alias)) aliases ->
  confirm_aliases cf snap env aliases m ready = (m', ready') ->
  (forall alias, od_get m' alias =
     if decide (alias ∈ aliases) then (fun p => fst (confirm_alias cf snap env alias p)) <$> od_get m alias
     else od_get m alias) /\
  (ready' = true -> ready = true \/
     exists alias p, alias ∈ aliases /\ od_get m alias = Some p /\ snd (confirm_alias cf snap env alias p) = true).
Proof.
  revert m ready. induction aliases as [|a aliases IH]; intros m ready Hd Hk; cbn [confirm_aliases].
  { intros [= <- <-]. split; [done|auto]. }
  apply NoDup_cons in Hd as [Hn Hd]. apply Forall_cons in Hk as [[p Hp] Hk]. rewrite Hp.
  destruct (confirm_alias cf snap env a p) as [p' ok] eqn:Ep. intros E. apply IH in E as [I1 I2]; [|done|].
  2:{ eapply Forall_impl; [exact Hk|]. intros x Hx. rewrite od_get_set. by case_decide. }
  split.
  - intros alias. rewrite I1, od_get_set. destruct (decide (a = alias)) as [<-|Hne].
    + rewrite (decide_False (P := a ∈ aliases)), (decide_True (P := a ∈ a :: aliases)) by (done || left).
      by rewrite Hp; cbn; rewrite Ep.
    + repeat case_decide; try done; set_solver.
  - intros H. destruct (I2 H) as [[->|Hok]%orb_true_iff|(x & q & Hx & Hq & Hr)]; [by left| |].
    + right. exists a, p. split_and!; [by left|done|]. by rewrite Ep.
    + right. exists x, q. split_and!; [by right| |done]. rewrite od_get_set_ne in Hq; [done|]. by intros ->.
Qed.

(** ** The decision *)
Definition sustained (log : list observation) (now : Q) : Prop :=
  fleb (wr_stable_for_s r) (FFin 0) = true \/
  exists l1 o l2, log = l1 ++ o :: l2 /\ Forall alarming (o :: l2) /\
    fleb (wr_stable_for_s r) (FFin (now - ob_time o)) = true.

Definition confirmed (log : list observation) : Prop :=
  forall cf, wr_confirmation r = Some cf ->
    exists alias l1 l2 n m, alias ∈ cf_sample_aliases cf /\ log = l1 ++ l2 /\ Forall alarming l2 /\
      streak cf alias l2 n m /\ cf_consecutive_samples cf <= n.

Hypothesis Hpromise : rule_promises r.

Lemma ready_ok log a o :
  alarming o -> wr_latch r && st_latched a = false -> confirmation_ok log a ->
  let '(ready, b) := _watchdog_confirmation_ready r a (ev_snapshot (ob_result o)) true (ob_env o) in
  confirmation_ok (log ++ [o]) b /\ (ready = true -> confirmed (log ++ [o])) /\
  st_stable_since b = st_stable_since a /\ st_armed b = st_armed a /\ st_latched b = st_latched a.
Proof.
  intros Ho Hl Hc. unfold _watchdog_confirmation_ready. destruct (wr_confirmation r) as [cf|] eqn:Ecf.
  2:{ split_and!; try done; [intros cf ?; congruence|intros _ cf ?; congruence]. }
  specialize (Hc cf Ecf). cbv zeta. cbn [negb].
  set (m := default (initial_progress cf) (st_confirmation a)).
  assert (Forall (fun alias => is_Some (od_get m alias)) (cf_sample_aliases cf) /\
          forall alias p, alias ∈ cf_sample_aliases cf -> od_get m alias = Some p -> progress_ok cf log alias p) as [Hk Hp].
  { subst m. destruct (st_confirmation a) as [m|]; cbn [default].
    - destruct Hc as [? Hp]. split; [done|]. by apply Hp.
    - split; [|intros; by apply initial_ok]. apply Forall_forall. intros x Hx. rewrite initial_keys by done. by eexists. }
  destruct (rp_confirmation r Hpromise cf Ecf) as (_ & Hd & _).
  destruct (confirm_aliases cf _ _ _ m false) as [m' ready] eqn:E.
  apply confirm_aliases_ok in E as [E1 E2]; [|done..]. cbn.
  assert (forall alias p, od_get m' alias = Some p -> alias ∈ cf_sample_aliases cf -> progress_ok cf (log ++ [o]) alias p) as Hp'.
  { intros alias p. rewrite E1. intros Hg Hin. rewrite decide_True in Hg by done.
    destruct (od_get m alias) as [q|] eqn:Eq; [|done]. cbn in Hg. injection Hg as <-.
    pose proof (confirm_alias_ok cf log alias q o Ho (Hp _ _ Hin Eq)) as H. by destruct (confirm_alias _ _ _ _ _); destruct H. }
  split_and!; try done.
  - intros cf' Hcf'. rewrite Ecf in Hcf'. injection Hcf' as <-. cbn. split.
    + eapply Forall_impl; [exact Hk|]. intros alias [p Hp2]. rewrite E1, Hp2. case_decide; by eexists.
    + intros _ alias p Hin Hg. by apply Hp'.
  - intros Hr. destruct (E2 Hr) as [|(alias & q & Hin & Hq & Hok)]; [done|].
    intros cf' Hcf'. rewrite Ecf in Hcf'. injection Hcf' as <-.
    pose proof (confirm_alias_ok cf log alias q o Ho (Hp _ _ Hin Hq)) as H.
    destruct (confirm_alias _ _ _ _ _) as [p' ok]. cbn in Hok. destruct H as [(l1 & l2 & El & Hal & Hs) Hn].
    exists alias, l1, l2, (cp_count p'), (cp_last p'). split_and!; auto.
Qed.

Lemma stable_more log a o : alarming o -> stable_ok log a -> stable_ok (log ++ [o]) a.
Proof.
  intros Ho Hs t Ht. destruct (Hs t Ht) as (l1 & o' & l2 & -> & Et & Hal).
  exists l1, o', (l2 ++ [o]). rewrite <- app_assoc. split_and!; [done|done|].
  rewrite app_comm_cons. apply Forall_app. by split; [|constructor].
Qed.

Lemma stable_ready_ok log a now o :
  alarming o -> ob_time o = now -> stable_ok log a ->
  let '(ready, b) := _watchdog_stable_ready r a now in
  stable_ok (log ++ [o]) b /\ (ready = true -> sustained (log ++ [o]) now) /\
  st_confirmation b = st_confirmation a /\ st_armed b = st_armed a /\ st_latched b = st_latched a.
Proof.
  intros Ho Et Hs. unfold _watchdog_stable_ready.
  destruct (fleb (wr_stable_for_s r) (FFin 0)) eqn:E0.
  { split_and!; try done; [by apply stable_more|by left]. }
  cbv zeta. assert (stable_ok (log ++ [o]) (a <| st_stable_since := Some (default now (st_stable_since a)) |>)) as Hb.
  { intros t. cbn. destruct (st_stable_since a) as [t0|] eqn:E; cbn; intros [= <-].
    - by apply (stable_more log a).
    - exists log, o, []. split_and!; [done|done|by constructor]. }
  split_and!; try done. intros Hr. right. destruct (Hb _ eq_refl) as (l1 & o' & l2 & El & Eo & Hal).
  exists l1, o', l2. split_and!; [done|done|]. by rewrite Eo.
Qed.

Lemma confirmation_latched log a o :
  wr_latch r && st_latched a = true -> confirmation_ok log a -> confirmation_ok (log ++ [o]) a.
Proof.
  intros Hl Hc cf Hcf. specialize (Hc cf Hcf). destruct (st_confirmation a); [|done].
  destruct Hc as [? _]. split; [done|]. congruence.
Qed.

Lemma confirmation_fields log a b :
  st_confirmation b = st_confirmation a -> (wr_latch r && st_latched b = false -> wr_latch r && st_latched a = false) ->
  confirmation_ok log a -> confirmation_ok log b.
Proof.
  intros E1 E2 Hc cf Hcf. specialize (Hc cf Hcf). rewrite E1. destruct (st_confirmation a); [|done].
  destruct Hc as [? Hp]. split; [done|]. intros Hl. apply Hp. auto.
Qed.

Lemma no_alarm_ok log log' a snap env :
  confirmation_ok log a ->
  let b := snd (_watchdog_confirmation_ready r a snap false env) in
  confirmation_ok log' b /\ st_stable_since b = st_stable_since a.
Proof.
  intros Hc. unfold _watchdog_confirmation_ready. destruct (wr_confirmation r) as [cf|] eqn:Ecf; cbn [negb snd].
  2:{ split; [|done]. intros cf ?; congruence. }
  split; [|by rewrite reset_stable]. eapply (reset_confirmation_ok log log' (a <| st_confirmation := Some _ |>)); [done|].
  intros cf' Hcf'. rewrite Ecf in Hcf'. injection Hcf' as <-. specialize (Hc cf Ecf). cbn.
  destruct (st_confirmation a) as [m|]; [done|]. cbn. split; [|intros; by apply initial_ok].
  apply Forall_forall. intros x Hx. rewrite initial_keys by done. by eexists.
Qed.

Lemma gate_ok log a o unknown :
  alarming o -> wr_latch r && st_latched a = false -> confirmation_ok log a ->
  let '(ready, b) := _watchdog_confirmation_gate r a (ev_snapshot (ob_result o)) true unknown (ob_env o) in
  confirmation_ok (log ++ [o]) b /\
  (ready = true -> unknown = true /\ wr_on_unknown r = "trigger" \/ confirmed (log ++ [o])) /\
  st_stable_since b = st_stable_since a /\ st_armed b = st_armed a /\ st_latched b = st_latched a.
Proof.
  intros Ho Hl Hc. unfold _watchdog_confirmation_gate.
  destruct (unknown && String.eqb (wr_on_unknown r) "trigger") eqn:E.
  - apply andb_true_iff in E as [-> E%String.eqb_eq]. split_and!; [by eapply reset_confirmation_ok|by left|..];
      unfold _reset_watchdog_confirmation; by case_match.
  - pose proof (ready_ok log a o Ho Hl Hc) as H. destruct (_watchdog_confirmation_ready _ _ _ _ _).
    destruct H as (? & ? & ?). split_and!; auto; tauto.
Qed.

(** What a trigger does to the state of its rule. *)
Definition fired (c : RuleState) : RuleState :=
  let st := if wr_latch r then c <| st_latched := true |> else c in
  match wr_arm r with
  | Some arm => if arm_disarm_on_trigger arm then st <| st_armed := false |> else st
  | None => st
  end.

Lemma fired_fields c :
  st_stable_since (fired c) = st_stable_since c /\ st_confirmation (fired c) = st_confirmation c /\
  (wr_latch r && st_latched (fired c) = false -> wr_latch r && st_latched c = false).
Proof. unfold fired. destruct (wr_latch r), (wr_arm r) as [arm|]; try destruct (arm_disarm_on_trigger arm); done. Qed.

Lemma gate_armed a snap unknown env :
  st_armed (snd (_watchdog_confirmation_gate r a snap true unknown env)) = st_armed a.
Proof.
  unfold _watchdog_confirmation_gate, _watchdog_confirmation_ready, _reset_watchdog_confirmation.
  repeat case_match; done.
Qed.

Lemma stable_armed a now : st_armed (snd (_watchdog_stable_ready r a now)) = st_armed a.
Proof. unfold _watchdog_stable_ready. by case_match. Qed.

Lemma decide_ok log a get now triggered b alarm unknown env snap :
  let ev := mkEvaluation triggered alarm unknown snap b in
  let o := mkObs now get ev in
  ob_env o = env -> stable_ok log a -> confirmation_ok log a ->
  decide_trigger r a snap alarm unknown env now = (triggered, b) ->
  stable_ok (log ++ [o]) b /\ confirmation_ok (log ++ [o]) b /\
  (triggered = true -> alarm = true /\ sustained (log ++ [o]) now /\
     (unknown = true /\ wr_on_unknown r = "trigger" \/ confirmed (log ++ [o]))).
Proof.
  intros ev o He Hs Hc. unfold decide_trigger. cbv zeta.
  destruct ((match wr_arm r with Some _ => true | None => false end) && negb (st_armed a)) eqn:Ea.
  { intros [= <- <-]. split_and!; [|by eapply reset_confirmation_ok|done]. intros t. by rewrite reset_stable. }
  destruct alarm; cbn [negb].
  2:{ intros [= <- <-]. destruct (no_alarm_ok log (log ++ [o]) (a <| st_stable_since := None |>) snap env) as [H1 H2].
      { by apply (confirmation_fields log a). }
      split_and!; [|done|done]. intros t. by rewrite H2. }
  assert (wr_arm r <> None -> st_armed a = true) as Harm.
  { intros Hn. destruct (wr_arm r); [|done]. by destruct (st_armed a). }
  destruct (wr_latch r && st_latched a) eqn:El.
  { intros [= <- <-]. assert (alarming o) as Ho by by split. split_and!; [by apply stable_more| |done].
    by apply confirmation_latched. }
  pose proof (gate_armed a snap unknown env) as Eg. pose proof (gate_ok log a o unknown) as Hg.
  destruct (_watchdog_confirmation_gate r a snap true unknown env) as [confirmed_ c] eqn:EG.
  pose proof (stable_armed c now) as Es. pose proof (stable_ready_ok log c now o) as Hst.
  destruct (_watchdog_stable_ready r c now) as [stable d] eqn:ES. cbn in Eg, Es.
  destruct (negb stable || negb confirmed_ || negb (_watchdog_cooldown_ready r d now)) eqn:EC; intros E.
  - injection E as <- <-. assert (alarming o) as Ho by (split; [done|]; intros Hn; cbn; rewrite Es, Eg; auto).
    cbn [o ob_result ev ev_snapshot] in Hg. rewrite He, EG in Hg. destruct (Hg Ho El Hc) as (G1 & _ & G3 & G4 & G5).
    destruct Hst as (S1 & _ & S3 & S4 & S5); [done|done|intros t; rewrite G3; apply Hs|].
    split_and!; [done| |done]. apply (confirmation_fields _ c); [done|by rewrite S5|done].
  - apply orb_false_iff in EC as [[->%negb_false_iff ->%negb_false_iff]%orb_false_iff _].
    assert (triggered = true /\ b = fired d) as [-> ->] by (injection E as <- <-; done). clear E.
    assert (alarming o) as Ho by done.
    cbn [o ob_result ev ev_snapshot] in Hg. rewrite He, EG in Hg. destruct (Hg Ho El Hc) as (G1 & G2 & G3 & G4 & G5).
    destruct Hst as (S1 & S2 & S3 & S4 & S5); [done|done|intros t; rewrite G3; apply Hs|].
    destruct (fired_fields d) as (F1 & F2 & F3). split_and!; [| |auto].
    + intros t. rewrite F1. apply S1.
    + apply (confirmation_fields _ d); [done|done|]. apply (confirmation_fields _ c); [done|by rewrite S5|done].
Qed.

(** ** Over a life *)
Lemma armed_watch {S} (cb : pyexc -> pyM S unit) a env unknown s :
  let b := fst (_update_watchdog_armed_state cb r a env unknown s) in
  st_stable_since b = st_stable_since a /\ st_latched b = st_latched a /\ st_confirmation b = st_confirmation a.
Proof.
  unfold _update_watchdog_armed_state. destruct (wr_arm r) as [arm|]; [|done].
  destruct (match arm_disarm_condition arm with PNone => _ | _ => _ end) as [d s1].
  destruct (_evaluate_watchdog_condition cb (arm_condition arm) env unknown s1) as [on s2]. by destruct d, on.
Qed.

Lemma evaluate_ok {S} (cb : pyexc -> pyM S unit) log a get now s ev s' :
  stable_ok log a -> confirmation_ok log a -> evaluate_watchdog_rule exc_repr r a get now cb s = (Ok ev, s') ->
  let log' := log ++ [mkObs now get ev] in
  stable_ok log' (ev_state ev) /\ confirmation_ok log' (ev_state ev) /\
  (ev_triggered ev = true -> ev_alarm ev = true /\ sustained log' now /\
     (ev_unknown ev = true /\ wr_on_unknown r = "trigger" \/ confirmed log')).
Proof.
  intros Hs Hc. unfold evaluate_watchdog_rule.
  destruct (_resolve_watchdog_bindings r get now) as [[[env snap] unknown]|] eqn:Er; [|done].
  pose proof (armed_watch cb a env unknown s) as Ha.
  destruct (_update_watchdog_armed_state cb r a env unknown s) as [b s1]. destruct Ha as (A1 & A2 & A3).
  cbn [fst] in A1, A2, A3.
  destruct (_evaluate_watchdog_alarm exc_repr cb r env unknown s1) as [[alarm tr] s2]. cbv zeta.
  match goal with |- context [decide_trigger r ?c snap ?al unknown env now] =>
    destruct (decide_trigger r c snap al unknown env now) as [triggered d] eqn:E;
    pose proof (decide_ok log c get now triggered d al unknown env snap) as Hd end.
  intros [= <- <-]. apply Hd; [unfold ob_env; cbn; by rewrite Er| | |exact E].
  - intros t. cbn. rewrite A1. apply Hs.
  - apply (confirmation_fields _ a); [exact A3|cbn; by rewrite A2|done].
Qed.

Lemma lives_ok log a : lives log a -> stable_ok log a /\ confirmation_ok log a.
Proof.
  induction 1 as [|S log a get now cb s ev s' _ [IH1 IH2] E|log a _ [IH1 IH2]|log a _ [IH1 IH2]|log a b _ [IH1 IH2] Hb].
  - split; [done|]. by intros cf _.
  - by destruct (evaluate_ok cb log a get now s ev s' IH1 IH2 E) as (? & ? & _).
  - split; [intros t; rewrite reset_stable; apply IH1|by eapply (reset_confirmation_ok log log a)].
  - split; [intros t; unfold cleared; by rewrite reset_stable|by eapply (reset_confirmation_ok log log a)].
  - destruct Hb as (E1 & E2 & _ & E4). split; [intros t; rewrite E1; apply IH1|].
    apply (confirmation_fields _ a); [done|by rewrite E2|done].
Qed.
End sustained.

(** ** The states of a process are lives *)
Section process_lives.
Context `{HR : !PyRepr, HA : !PyArith, HE : !PyExpr} {W : Type} `{HW : !WatchdogWorld W}.
Context (exc_repr : pyexc -> string) (k : wkey) (r : WatchdogRule).
#[local] Abbreviation st := (watchdog W).
#[local] Abbreviation lives := (lives exc_repr r).

Definition live_at (s : st) : Prop := forall a, get_state s k = Some a -> exists log, lives log a.
Definition stays (s s' : st) : Prop := live_at s -> live_at s'.

#[local] Instance stays_preorder : PreOrder stays.
Proof. split; [intros s H; exact H|]. intros a b c H1 H2 H. auto. Qed.

Lemma stays_states (s s' : st) : wd_states s' = wd_states s -> stays s s'.
Proof. intros E H a. unfold get_state. rewrite E. apply H. Qed.

Lemma stays_put key b (s : st) : (key = k -> live_at s -> exists log, lives log b) -> stays s (put_state key b s).
Proof.
  intros Hb Hs a. rewrite get_put. case_decide as Hk; [|apply Hs]. intros [= <-]. by apply Hb.
Qed.

Lemma stays_update key f (s : st) :
  (forall log a, lives log a -> lives log (f a)) -> stays s (update_state key f s).
Proof.
  intros Hf Hs a. rewrite get_update. case_decide as Hk; [|apply Hs].
  destruct (get_state s k) as [b|] eqn:E; [|done]. intros [= <-]. destruct (Hs b E) as [log Hl]. eauto.
Qed.

Lemma stays_noted key f (s : st) : (forall a, same_watch a (f a)) -> stays s (update_state key f s).
Proof. intros Hf. apply stays_update. intros log a Hl. by eapply lives_noted. Qed.

Lemma recover_stays i r' key (s : st) : stays s (recover i r' key s).
Proof.
  unfold recover. destruct (get_state s key) as [a|] eqn:E; [|reflexivity].
  repeat case_match; try reflexivity; (etrans; [|apply stays_put]; [by apply stays_states|]);
    intros -> Hs; destruct (Hs a E) as [log Hl]; exists log; by eapply lives_noted.
Qed.

Lemma submit_stays i r' trip (s : st) : stays s (_submit_actions i r' trip s).
Proof.
  unfold _submit_actions. cbv zeta.
  match goal with |- context [wd_executor_up ?x] => transitivity x; [by apply stays_noted|generalize x; intros s1] end.
  destruct (wd_executor_up s1); [by apply stays_states|]. etrans; [|by apply stays_states]. by apply stays_noted.
Qed.

Lemma trip_stays i r' key pl ev now (s : st) : stays s (trip i r' key pl ev now s).
Proof.
  unfold trip. case_bool_decide; [reflexivity|]. cbv zeta. destruct (w_uuid _) as [trip w].
  fold (committed key now trip w s).
  transitivity (committed key now trip w s).
  { unfold committed. etrans; [|by apply stays_noted].
    match goal with |- stays s (?x <| wd_world := w |>) => transitivity x; [|by apply stays_states] end.
    etrans; [|by apply stays_noted]. by apply stays_states. }
  etrans; [|apply stays_update; intros; by apply lives_reset]. etrans; [|apply submit_stays].
  case_match; by apply stays_states.
Qed.

Lemma evaluate_rule_stays i r' now s :
  ((i, wr_name r') = k -> r' = r) -> stays s (snd (evaluate_rule exc_repr i now r' s)).
Proof.
  intros Hr. unfold evaluate_rule. set (key := (i, wr_name r')).
  destruct (get_state s key) as [a|] eqn:Ea; [|reflexivity].
  pose proof (evaluate_facts exc_repr (_condition_error_callback exc_repr key) (reports k) (error_reports exc_repr k key)
                r' a (w_latest (wd_world s)) now s) as Hf.
  destruct (evaluate_watchdog_rule exc_repr r' a _ now _ s) as [[ev|x] s0] eqn:E; destruct Hf as [[_ Es] _];
    cbn [snd]; [|by apply stays_states].
  transitivity (put_state key (ev_state ev) s0).
  { intros Hs. eapply stays_put; [|by eapply stays_states]. intros Hk Hl.
    destruct (Hl a) as [log Hlog]; [unfold get_state; rewrite Es, <- Hk; exact Ea|].
    rewrite (Hr Hk) in E. eexists. by eapply lives_eval. }
  etrans; [apply recover_stays|]. case_match; [apply trip_stays|reflexivity].
Qed.

Lemma tick_stays s : rule_at k r s -> stays s (snd (_evaluate_rules exc_repr s)).
Proof.
  intros Hr Hl. unfold _evaluate_rules. destruct (w_clock (wd_world s)) as [now w].
  apply (forM_keeps (fun s => rule_at k r s /\ live_at s)); [|by split]. intros i s1 _ [Hr1 Hl1].
  unfold evaluate_ruleset. destruct (od_get (wd_entries s1) i) as [e|] eqn:E; [|by split].
  destruct (we_enabled e); [|by split]. apply forM_keeps; [|by split]. intros r' s2 Hr' [Hr2 Hl2].
  assert ((i, wr_name r') = k -> r' = r) as Hk by (by eapply Hr1).
  split; [|by apply evaluate_rule_stays]. eapply rule_at_same; [|exact Hr2].
  eapply steps_rules, (evaluate_rule_steps exc_repr k r i r' now s2 Hk).
Qed.

Lemma work_stays s : stays s (worker_step exc_repr s).
Proof.
  unfold worker_step. destruct (wd_jobs s) as [|j rest]; [reflexivity|]. cbv zeta.
  transitivity (s <| wd_jobs := rest |>); [by apply stays_states|]. set (s1 := s <| wd_jobs := rest |>).
  assert (stays s1 (snd (_execute_actions exc_repr (jb_watchdog_id j) (jb_rule j) (jb_trip_id j) s1))) as Hx.
  { unfold _execute_actions.
    pose proof (run_actions_keeps exc_repr stays (fun _ _ _ _ => stays_states _ _ eq_refl)
      (fun _ _ => stays_states _ _ eq_refl) (jb_watchdog_id j) (jb_rule j) (jb_trip_id j) 0 (wr_actions (jb_rule j)) s1) as H1.
    destruct (run_actions _ _ _ _ _ _ _) as [[results|x] s2]; cbn [snd] in *; [|done].
    etrans; [exact H1|by apply stays_states]. }
  destruct (_execute_actions _ _ _ _ _) as [out s2]. etrans; [exact Hx|]. unfold _on_action_chain_done.
  destruct out as [v|x].
  - etrans; [|by apply stays_states]. apply stays_noted. intros a. by case_match.
  - do 2 (etrans; [|by apply stays_states]). apply stays_noted. intros a. by repeat case_match.
Qed.

Lemma clear_stays i n req_id (s : st) : stays s (snd (_clear_rule_state i n req_id s)).
Proof.
  unfold _clear_rule_state. destruct (get_state s (i, n)) as [a|] eqn:Ea; [|reflexivity]. cbv zeta. cbn [snd].
  match goal with |- stays s (_publish_event _ _ (if _ then _publish_event _ _ ?x else _)) =>
    transitivity x; [|case_match; by apply stays_states] end.
  apply stays_put. intros Hk Hl. destruct (Hl a) as [log Hlog]; [by rewrite <- Hk|]. exists log.
  destruct (st_latched a).
  - eapply lives_noted; [by apply lives_cleared|]. done.
  - by apply lives_cleared.
Qed.

Lemma perform_stays op s : rule_at k r s -> stays s (snd (perform exc_repr op s)).
Proof.
  intros Hr. destruct op; cbn [perform snd]; [by apply tick_stays|apply work_stays|..]; try by apply stays_states.
  apply (request_keeps stays); [intros; by apply stays_states|apply clear_stays|intros; by apply stays_states].
Qed.
End process_lives.

Section claim.
Context `{HR : !PyRepr, HA : !PyArith, HE : !PyExpr} {W : Type} `{HW : !WatchdogWorld W}.
Context (exc_repr : pyexc -> string).

(** A run of a watchdog from its start. *)
Definition run_ops (ops : list (wop W)) (s : watchdog W) : watchdog W :=
  foldl (fun s op => snd (perform exc_repr op s)) s ops.

Lemma run_lives ops (s : watchdog W) k r : rule_at k r s -> live_at exc_repr k r s -> live_at exc_repr k r (run_ops ops s).
Proof.
  revert s. induction ops as [|op ops IH]; intros s Hr Hl; [done|]. cbn [run_ops foldl]. apply IH.
  - eapply rule_at_same; [|exact Hr]. eapply steps_rules, (perform_steps exc_repr k r op s Hr).
  - by apply perform_stays.
Qed.

Lemma init_lives (w : W) pid rss (s : watchdog W) k r : watchdog_init w pid rss = (Ok tt, s) -> live_at exc_repr k r s.
Proof.
  unfold watchdog_init. destruct (forM _ _ _) as [[[]|x] s1]; [|done]. intros [= <-] a Ha.
  exists []. enough (a = fresh_state) as -> by constructor.
  unfold get_state in Ha. cbn in Ha. rewrite (od_get_sets (fun k => (k, fresh_state))) in Ha.
  destruct (od_get (reverse _) k) as [v|] eqn:E; [|done].
  apply od_get_elem, elem_of_reverse, list_elem_of_fmap in E as (? & [= -> ->] & _). congruence.
Qed.

(** C15. A rule of a running watchdog triggers only on a sustained, confirmed
    alarm.  Its state, after any run from the start, is the outcome of a
    sequence of evaluations; and whichever evaluations led to the state, an
    evaluation that triggers finds an alarm, and, unless the rule has no
    stability window, an earlier evaluation a full window ago since which
    every evaluation found the rule armed and alarming; and, if it asks for
    confirmation (and does not trigger on unknown inputs), at least the
    asked number of new samples of one source, each confirming, during
    evaluations that all found the rule armed and alarming and the source
    usable. *)
Theorem trigger_needs_sustained_alarm raws sources rss w pid s0 ops rs r a :
  Forall2 (fun '(raw, source) rs => _parse_watchdog_ruleset raw source = Ok rs) (zip raws sources) rss ->
  watchdog_init w pid rss = (Ok tt, s0) -> rs ∈ rss -> r ∈ ws_rules rs ->
  get_state (run_ops ops s0) (ws_watchdog_id rs, wr_name r) = Some a ->
  (exists log, lives exc_repr r log a) /\
  forall log now get (cb : pyexc -> pyM (watchdog W) unit) s ev s', lives exc_repr r log a ->
    evaluate_watchdog_rule exc_repr r a get now cb s = (Ok ev, s') -> ev_triggered ev = true ->
    let log' := log ++ [mkObs now get ev] in
    ev_alarm ev = true /\ sustained r log' now /\
    (ev_unknown ev = true /\ wr_on_unknown r = "trigger" \/ confirmed r log').
Proof.
  intros Hp Hs Hrs Hr Ha.
  assert (ruleset_promises rs) as [Hpr Hd].
  { apply list_elem_of_lookup in Hrs as [n Hn].
    destruct (Forall2_lookup_r _ _ _ _ _ Hp Hn) as ([raw source] & _ & E). by eapply parse_ruleset_promises. }
  rewrite Forall_forall in Hpr. split.
  - revert Ha. apply run_lives; [by eapply init_rule_at|by eapply init_lives].
  - intros log now get cb s ev s' Hl E Ht. destruct (lives_ok exc_repr r (Hpr r Hr) log a Hl) as [H1 H2].
    by eapply (evaluate_ok exc_repr r (Hpr r Hr) cb log a).
Qed.
End claim.
