(* ===== verification/WatchdogChains.v ===== *)
(** * Action chains of a watchdog

    A chain tries every action of its rule in order, each until it is
    accepted or its attempts are used up, whatever happened to the others;
    and the rules marked in flight are exactly those whose chain is pending
    on the worker. *)
From S2P Require Import Prelude PyVal PyNum PyOps Expressions Conditions ProcessBase Responses RulesCommon.
From S2P Require Import Interlock InterlockTables Watchdog WatchdogProcess WatchdogTheorems WatchdogHistory.
From S2P Require Import WatchdogSustained.
#[local] Open Scope Z_scope.

Section chains.
Context `{HR : !PyRepr, HA : !PyArith, HE : !PyExpr} {W : Type} `{HW : !WatchdogWorld W}.
Context (exc_repr : pyexc -> string).
#[local] Abbreviation st := (watchdog W).

(** ** What a chain asks of the manager *)
Definition accepted (resp : result pyval) : bool :=
  match resp with Ok v => negb (is_none v) && _resp_ok v | Err _ => false end.

(** [calls req tm w n ok w']: [n] calls of [req] take the world from [w] to
    [w']; all but the last are not accepted, and the last is iff [ok]. *)
Inductive calls (req : dict) (tm : option Z) : W -> nat -> bool -> W -> Prop :=
| calls_last w resp w' : w_call (PDict req) tm w = (resp, w') -> calls req tm w 1 (accepted resp) w'
| calls_more w resp w1 n ok w' :
    w_call (PDict req) tm w = (resp, w1) -> accepted resp = false -> calls req tm w1 n ok w' ->
    calls req tm w (S n) ok w'.

(** Actions are tried one after the other, each on the world the previous
    one left, however that one ended. *)
Inductive chain_calls (pid i : string) (r : WatchdogRule) (trip : string)
    : list WatchdogAction -> W -> list (nat * bool) -> W -> Prop :=
| chain_end w : chain_calls pid i r trip [] w [] w
| chain_action a rest w tm n ok w1 outcomes w' :
    action_timeout_ms a = Ok tm -> calls (snd (action_request pid a i r trip)) tm w n ok w1 ->
    (n <= S (Z.to_nat (wa_retries a)))%nat -> (ok = false -> n = S (Z.to_nat (wa_retries a))) ->
    chain_calls pid i r trip rest w1 outcomes w' ->
    chain_calls pid i r trip (a :: rest) w ((n, ok) :: outcomes) w'.

(** ** The definitions do that *)
Lemma action_event_frame topic c attempt error (s : st) :
  let s' := _publish_action_event topic c attempt error s in
  wd_world s' = wd_world s /\ wd_process_id s' = wd_process_id s.
Proof. unfold _publish_action_event. cbv zeta. by case_match. Qed.

Definition result_of (x : dict) (o : nat * bool) : Prop :=
  dget x "ok" = PBool (snd o) /\ dget x "attempts" = PInt (Z.of_nat (fst o)).

Lemma attempt_calls req a c tm attempt more (s : st) :
  action_timeout_ms a = Ok tm ->
  exists x s' n ok, attempt_action exc_repr req a c (Z.of_nat attempt) more s = (Ok x, s') /\
    wd_process_id s' = wd_process_id s /\
    calls req tm (wd_world s) n ok (wd_world s') /\ (n <= S more)%nat /\ (ok = false -> n = S more) /\
    dget x "ok" = PBool ok /\ dget x "attempts" = PInt (Z.of_nat (attempt + n - 1)).
Proof.
  intros Htm. revert attempt s. induction more as [|more IH]; intros attempt s; cbn [attempt_action]; rewrite Htm;
    set (s1 := _publish_action_event "manager.watchdog.action_started" c (Z.of_nat attempt) None s);
    destruct (action_event_frame "manager.watchdog.action_started" c (Z.of_nat attempt) None s) as [W1 P1];
    fold s1 in W1, P1; rewrite W1;
    destruct (w_call (PDict req) tm (wd_world s)) as [resp w] eqn:Ew;
    change (match resp with Ok v => negb (is_none v) && _resp_ok v | Err _ => false end) with (accepted resp);
    destruct (accepted resp) eqn:Ea; cbv zeta.
  1,3: eexists _, _, 1%nat, true; split; [done|];
       (destruct (action_event_frame "manager.watchdog.action_succeeded" c (Z.of_nat attempt) None
                    (s1 <| wd_world := w |>)) as [-> ->]);
       split_and!; [done| |lia|done|done|by replace (attempt + 1 - 1)%nat with attempt by lia];
       rewrite <- Ea; by constructor.
  - eexists _, _, 1%nat, false. split; [done|].
    edestruct action_event_frame as [-> ->].
    split_and!; [done| |lia|done|done|by replace (attempt + 1 - 1)%nat with attempt by lia].
    rewrite <- Ea. by constructor.
  - replace (Z.of_nat attempt + 1) with (Z.of_nat (S attempt)) by lia.
    match goal with |- context [attempt_action _ _ _ _ _ more ?z] => set (s2 := z) end.
    destruct (IH (S attempt) s2) as (x & s' & n & ok & E & P & C & Hn & Hf & Hx & Hat).
    eexists x, s', (S n), ok. split; [exact E|].
    assert (wd_world s2 = w /\ wd_process_id s2 = wd_process_id s) as [W2 P2].
    { unfold s2. edestruct action_event_frame as [-> ->]. done. }
    split_and!; [congruence| |lia|intros; rewrite Hf by done; done|done|rewrite Hat; do 2 f_equal; lia].
    rewrite W2 in C. by econstructor.
Qed.

(** The timeout, in milliseconds, of an action whose [timeout_s] is infinite
    or not a number cannot be computed. *)
Definition finite_timeout (a : WatchdogAction) : bool :=
  match wa_timeout_s a with Some (FInf _) | Some FNan => false | _ => true end.

Lemma finite_timeout_spec a :
  if finite_timeout a then exists tm, action_timeout_ms a = Ok tm
  else exists e, action_timeout_ms a = Err e.
Proof.
  unfold finite_timeout, action_timeout_ms. destruct (wa_timeout_s a) as [[q|b|]|]; cbn; eauto.
Qed.

(** Running a list of actions whose first [length pre] timeouts are finite:
    those actions are tried, and the chain goes on with the rest. *)
Lemma run_actions_calls i r trip idx pre post (s : st) :
  Forall (fun a => finite_timeout a = true) pre ->
  exists xs s' outcomes,
    wd_process_id s' = wd_process_id s /\
    chain_calls (wd_process_id s) i r trip pre (wd_world s) outcomes (wd_world s') /\
    Forall2 result_of xs outcomes /\
    run_actions exc_repr i r trip idx (pre ++ post) s =
      match run_actions exc_repr i r trip (idx + Z.of_nat (length pre)) post s' with
      | (Err e, t) => (Err e, t)
      | (Ok results, t) => (Ok (xs ++ results), t)
      end.
Proof.
  intros Ht. revert idx s. induction Ht as [|a pre Ha Ht IH]; intros idx s; cbn [run_actions app].
  { exists [], s, []. split_and!; [done|by constructor|by constructor|].
    cbn. rewrite Z.add_0_r. generalize (run_actions exc_repr i r trip idx post s). by intros [[] ?]. }
  pose proof (finite_timeout_spec a) as Htm. rewrite Ha in Htm. destruct Htm as [tm Htm].
  destruct (action_request (wd_process_id s) a i r trip) as [cmd req] eqn:Er. cbv zeta.
  replace (Z.to_nat (Z.max 0 (wa_retries a))) with (Z.to_nat (wa_retries a)) by lia.
  match goal with |- context [attempt_action _ req a ?c 1 ?m s] =>
    destruct (attempt_calls req a c tm 1 m s Htm) as (x & s1 & n & ok & E & P & C & Hn & Hf & Hx & Hat) end.
  change (Z.of_nat 1) with 1 in E. rewrite E.
  destruct (IH (idx + 1) s1) as (xs & s' & outcomes & P' & C' & Hxs & E').
  exists (x :: xs), s', ((n, ok) :: outcomes). split_and!; [congruence| | |].
  - econstructor; [exact Htm| |exact Hn|exact Hf|by rewrite <- P]. by rewrite Er.
  - constructor; [|done]. split; [done|]. cbn. rewrite Hat. do 2 f_equal. lia.
  - rewrite E'. replace (idx + 1 + Z.of_nat (length pre)) with (idx + Z.of_nat (length (a :: pre))) by (cbn; lia).
    generalize (run_actions exc_repr i r trip (idx + Z.of_nat (length (a :: pre))) post s').
    by intros [[] ?].
Qed.

(** An action without a timeout the code can compute ends the chain before
    it is requested. *)
Lemma run_actions_stops i r trip idx a post (s : st) e :
  action_timeout_ms a = Err e ->
  exists s', run_actions exc_repr i r trip idx (a :: post) s = (Err e, s') /\ wd_world s' = wd_world s.
Proof.
  intros He. cbn [run_actions]. destruct (action_request _ _ _ _ _) as [cmd req]. cbv zeta.
  match goal with |- context [attempt_action _ req a ?c 1 ?m s] =>
    exists (_publish_action_event "manager.watchdog.action_started" c 1 None s);
    split; [by destruct m; cbn [attempt_action]; rewrite He|apply action_event_frame] end.
Qed.

Lemma finite_prefix (l : list WatchdogAction) :
  Forall (fun a => finite_timeout a = true) l \/
  exists pre a post, l = pre ++ a :: post /\ Forall (fun a => finite_timeout a = true) pre /\
                     finite_timeout a = false.
Proof.
  induction l as [|a l [IH|(pre & b & post & -> & Hp & Hb)]].
  - left. constructor.
  - destruct (finite_timeout a) eqn:E; [left; by constructor|right]. by exists [], a, l.
  - destruct (finite_timeout a) eqn:E; right; [exists (a :: pre), b, post|exists [], a, (pre ++ b :: post)];
      split_and!; try done. by constructor.
Qed.

Lemma failed_count xs outcomes :
  Forall2 result_of xs outcomes ->
  length (filter (fun x => failed x = true) xs) = length (filter (fun o => snd o = false) outcomes).
Proof.
  induction 1 as [|x [n ok] xs outcomes [Hx _] _ IH]; [done|]. cbn in Hx.
  assert (failed x = negb ok) as Hf by (unfold failed; by rewrite Hx).
  rewrite !filter_cons. repeat case_decide; cbn in *; destruct ok; cbn in *; congruence.
Qed.

(** C30. Whatever the manager answers, or whether it answers at all, an action
    chain whose actions all have a finite timeout (or none) runs to its end:
    every action of the rule is requested, in order, on the world its
    predecessors left; each is requested until one call is accepted or
    1 + retries calls were made, and no further; and the summary that is
    returned and published counts the actions that failed and lists, per
    action, whether it was accepted and the number of calls. An action with
    an infinite or NaN timeout is the only thing that ends a chain early: the
    actions before it have been carried out like that, neither it nor any
    action after it is requested, and the chain raises. *)
Theorem chain_runs_to_end i r trip (s : st) :
  (Forall (fun a => finite_timeout a = true) (wr_actions r) /\
   exists summary s' outcomes results,
    _execute_actions exc_repr i r trip s = (Ok summary, s') /\
    chain_calls (wd_process_id s) i r trip (wr_actions r) (wd_world s) outcomes (wd_world s') /\
    let nf := Z.of_nat (length (filter (fun o => snd o = false) outcomes)) in
    last (wd_events s') = Some ("manager.watchdog.action_chain_completed", summary) /\
    dget summary "success" = PBool (nf =? 0) /\ dget summary "failed_actions" = PInt nf /\
    dget summary "succeeded_actions" = PInt (Z.of_nat (length (wr_actions r)) - nf) /\
    dget summary "actions" = PList (PDict <$> results) /\ Forall2 result_of results outcomes) \/
  (exists pre a post e s' outcomes,
    wr_actions r = pre ++ a :: post /\ Forall (fun a => finite_timeout a = true) pre /\
    finite_timeout a = false /\
    _execute_actions exc_repr i r trip s = (Err e, s') /\
    chain_calls (wd_process_id s) i r trip pre (wd_world s) outcomes (wd_world s')).
Proof.
  unfold _execute_actions.
  destruct (finite_prefix (wr_actions r)) as [Hf|(pre & a & post & El & Hf & Ha)]; [left|right].
  - split; [done|]. destruct (run_actions_calls i r trip 0 (wr_actions r) [] s Hf) as (xs & s1 & outcomes & P & C & Hx & E).
    rewrite app_nil_r in E. cbn [run_actions] in E. rewrite app_nil_r in E. rewrite E, (failed_count _ _ Hx).
    eexists _, _, outcomes, xs. split; [done|]. cbv zeta. split_and!; try done. cbn. by rewrite last_snoc.
  - destruct (run_actions_calls i r trip 0 pre (a :: post) s Hf) as (xs & s1 & outcomes & P & C & _ & E).
    pose proof (finite_timeout_spec a) as He. rewrite Ha in He. destruct He as [e He].
    destruct (run_actions_stops i r trip (0 + Z.of_nat (length pre)) a post s1 e He) as (s' & E' & Hw).
    rewrite El, E, E'. exists pre, a, post, e, s', outcomes. split_and!; try done. by rewrite Hw.
Qed.

(** ** In flight means pending *)
Definition queue_ok (s : st) : Prop :=
  NoDup (wd_inflight s) /\ wd_inflight s ≡ₚ jb_key <$> wd_jobs s.

Definition same_queue (s s' : st) : Prop := wd_inflight s' = wd_inflight s /\ wd_jobs s' = wd_jobs s.

#[local] Instance same_queue_preorder : PreOrder same_queue.
Proof. split; [done|]. intros a b c [E1 E2] [E3 E4]. split; congruence. Qed.

Lemma queue_same s s' : same_queue s s' -> queue_ok s -> queue_ok s'.
Proof. intros [E1 E2]. unfold queue_ok. by rewrite E1, E2. Qed.

Lemma update_queue key f (s : st) : same_queue s (update_state key f s).
Proof. unfold update_state. by case_match. Qed.

Lemma error_queue key e (s : st) : same_queue s (report (_condition_error_callback exc_repr key) e s).
Proof. unfold report, _condition_error_callback. destruct (w_clock _). by case_match. Qed.

Lemma recover_queue i r key (s : st) : same_queue s (recover i r key s).
Proof. unfold recover. repeat case_match; done. Qed.

Lemma submit_queue i r trip (s : st) :
  let s' := _submit_actions i r trip s in
  wd_executor_up s = true /\ wd_inflight s' = wd_inflight s /\ wd_jobs s' = wd_jobs s ++ [mkJob i r trip] \/
  wd_executor_up s = false /\ wd_inflight s' = discard (i, wr_name r) (wd_inflight s) /\ wd_jobs s' = wd_jobs s.
Proof.
  unfold _submit_actions. cbv zeta.
  assert (forall key f (s : st), wd_executor_up (update_state key f s) = wd_executor_up s) as Hup.
  { intros key f s0. unfold update_state. by case_match. }
  rewrite Hup. destruct (wd_executor_up s); [left|right]; (split; [done|]); cbn.
  - by edestruct update_queue as [-> ->].
  - do 2 edestruct update_queue as [-> ->]. done.
Qed.

Lemma trip_queue i r pl ev now (s : st) : queue_ok s -> queue_ok (trip i r (i, wr_name r) pl ev now s).
Proof.
  intros [Hd Hp]. unfold trip. case_bool_decide as Hi; [by split|]. cbv zeta. destruct (w_uuid _) as [trip w].
  eapply queue_same; [apply update_queue|].
  match goal with |- context [_submit_actions i r trip ?x] =>
    assert (wd_inflight x = (i, wr_name r) :: wd_inflight s /\ wd_jobs x = wd_jobs s) as [E1 E2];
    [|destruct (submit_queue i r trip x) as [(_ & E3 & E4)|(_ & E3 & E4)]; unfold queue_ok; rewrite E3, E4, E1, E2]
  end.
  { match goal with |- context [if ?b then _ else _] => destruct b end; cbn;
      (do 2 (edestruct update_queue as [E1 E2]; rewrite E1, E2; clear E1 E2; cbn)); done. }
  - split; [by constructor|]. rewrite fmap_app, Hp. cbn. by rewrite Permutation_cons_append.
  - unfold discard. rewrite filter_cons_False by (intros ?; done). by rewrite filter_ne_id.
Qed.

Lemma evaluate_rule_queue i now r (s : st) : queue_ok s -> queue_ok (snd (evaluate_rule exc_repr i now r s)).
Proof.
  intros Hs. unfold evaluate_rule. destruct (get_state s _) as [a|]; [|done].
  pose proof (evaluate_facts exc_repr (_condition_error_callback exc_repr (i, wr_name r)) same_queue (error_queue _)
                r a (w_latest (wd_world s)) now s) as Hf.
  destruct (evaluate_watchdog_rule _ _ _ _ _ _ _) as [[ev|x] s1]; destruct Hf as [Hq _]; cbn [snd];
    [|by eapply queue_same].
  assert (queue_ok (recover i r (i, wr_name r) (put_state (i, wr_name r) (ev_state ev) s1))) as H1.
  { eapply queue_same; [|exact Hs]. etrans; [exact Hq|]. etrans; [|apply recover_queue]. done. }
  destruct (ev_triggered ev); [by apply trip_queue|done].
Qed.

Lemma tick_queue (s : st) : queue_ok s -> queue_ok (snd (_evaluate_rules exc_repr s)).
Proof.
  intros Hs. unfold _evaluate_rules. destruct (w_clock (wd_world s)) as [now w]. apply forM_keeps; [|done].
  intros i s1 _ H1. unfold evaluate_ruleset. destruct (od_get _ _) as [e|]; [|done]. destruct (we_enabled e); [|done].
  apply forM_keeps; [|done]. intros r s2 _. apply evaluate_rule_queue.
Qed.

Lemma event_queue topic p (s : st) : topic <> "manager.watchdog.triggered" -> same_queue s (_publish_event topic p s).
Proof. done. Qed.

Lemma world_queue (w : W) (s : st) : same_queue s (s <| wd_world := w |>).
Proof. done. Qed.

(** One worker step ends the oldest chain and frees its rule. *)
Lemma work_takes (s : st) j rest :
  wd_jobs s = j :: rest ->
  wd_jobs (worker_step exc_repr s) = rest /\
  wd_inflight (worker_step exc_repr s) = discard (jb_key j) (wd_inflight s).
Proof.
  intros E. unfold worker_step. rewrite E. cbv zeta. set (s1 := s <| wd_jobs := rest |>).
  assert (same_queue s1 (snd (_execute_actions exc_repr (jb_watchdog_id j) (jb_rule j) (jb_trip_id j) s1))) as Hx.
  { unfold _execute_actions. pose proof (run_actions_keeps exc_repr same_queue event_queue world_queue (jb_watchdog_id j) (jb_rule j)
      (jb_trip_id j) 0 (wr_actions (jb_rule j)) s1) as H1.
    by destruct (run_actions _ _ _ _ _ _ _) as [[]]. }
  destruct (_execute_actions _ _ _ _ _) as [out s2]. destruct Hx as [E1 E2]. cbn in E1, E2.
  unfold _on_action_chain_done. destruct out; cbn; edestruct update_queue as [-> ->]; by rewrite E1, E2.
Qed.

Lemma work_queue (s : st) : queue_ok s -> queue_ok (worker_step exc_repr s).
Proof.
  intros [Hd Hp]. destruct (wd_jobs s) as [|j rest] eqn:E; [unfold worker_step; rewrite E; unfold queue_ok; by rewrite E|].
  destruct (work_takes s j rest E) as [E1 E2]. unfold queue_ok. rewrite E1, E2. cbn in Hp.
  split; [by apply NoDup_filter|]. unfold discard. rewrite Hp, filter_cons_False by (intros ?; done).
  rewrite filter_ne_id; [done|]. rewrite Hp in Hd. by apply NoDup_cons in Hd as [? _].
Qed.

Lemma clear_queue i n req_id (s : st) : same_queue s (snd (_clear_rule_state i n req_id s)).
Proof. unfold _clear_rule_state. destruct (get_state s _) as [a|]; [|done]. by destruct (st_latched a). Qed.

Lemma request_queue req (s : st) : same_queue s (snd (_watchdog_handle_rpc (fun s => (Ok tt, s)) req s)).
Proof.
  apply (request_keeps same_queue world_queue clear_queue). done.
Qed.

Lemma perform_queue op (s : st) : queue_ok s -> queue_ok (snd (perform exc_repr op s)).
Proof.
  intros Hs. destruct op; cbn [perform snd]; auto using tick_queue, work_queue.
  eapply queue_same; [apply request_queue|done].
Qed.

Lemma add_watchdog_queue rss (s s' : st) x : forM add_watchdog rss s = (x, s') -> same_queue s s'.
Proof.
  revert s. induction rss as [|rs rss IH]; intros s; cbn [forM]; [by intros [= _ <-]|].
  unfold mbind, pyM_bind. unfold add_watchdog at 1. destruct (od_get _ _); [by intros [= _ <-]|].
  intros H%IH. exact H.
Qed.

Lemma reach_queue s : wd_reach exc_repr s -> queue_ok s.
Proof.
  induction 1 as [w pid rss s E|op s _ IH]; [|by apply perform_queue].
  unfold watchdog_init in E. destruct (forM _ _ _) as [[[]|x] s1] eqn:E1; [|done]. injection E as <-.
  apply add_watchdog_queue in E1 as [E1 E2]. unfold queue_ok. cbn in *. rewrite E1, E2. split; constructor.
Qed.

Lemma drain_queue (s : st) :
  queue_ok s -> wd_inflight (Nat.iter (length (wd_jobs s)) (worker_step exc_repr) s) = [].
Proof.
  remember (length (wd_jobs s)) as n eqn:En. revert s En. induction n as [|n IH]; intros s En Hs.
  - destruct (wd_jobs s) eqn:E; [|done]. destruct Hs as [_ Hp]. rewrite E in Hp.
    by apply Permutation_nil_r in Hp.
  - rewrite Nat.iter_succ_r. apply IH; [|by apply work_queue].
    destruct (wd_jobs s) as [|j rest] eqn:E; [done|]. destruct (work_takes s j rest E) as [-> _]. cbn in En. lia.
Qed.

(** C37. After any history of a watchdog, the rules marked in flight are
    exactly those with an action chain pending on the worker, each with one
    chain only, so a rule is never blocked by a chain that is gone; and once
    the worker has worked off the chains pending now, with no new trip in
    between, no rule is blocked at all. *)
Theorem inflight_iff_pending s :
  wd_reach exc_repr s ->
  NoDup (jb_key <$> wd_jobs s) /\ (forall k, k ∈ wd_inflight s <-> k ∈ jb_key <$> wd_jobs s) /\
  wd_inflight (Nat.iter (length (wd_jobs s)) (worker_step exc_repr) s) = [].
Proof.
  intros Hs%reach_queue. split_and!; [|intros k|by apply drain_queue]; destruct Hs as [Hd Hp]; by rewrite <- Hp.
Qed.
End chains.

(** ** A watchdog in action *)
Module WatchdogDemo.
#[local] Existing Instance plain_repr.
#[local] Instance arith : PyArith := {|
  float_pow _ _ := Err OverflowError; str_format _ _ := Err (TypeError "") |}.
#[local] Instance syntax : PyExpr := {|
  parse_expr e := if String.eqb e "p.value" then inr (Attribute (Name "p") "value") else inl "invalid syntax";
  get_close_matches _ _ := [] |}.

(** Time, the reading of the gauge, which of the next calls are answered, and
    the trips so far. *)
Record lab := mkLab { lab_t : Q; lab_p : Z; lab_answers : list bool; lab_n : Z }.

#[local] Instance lab_world : WatchdogWorld lab := {|
  w_call _ _ w :=
    (match lab_answers w with
     | false :: _ => Ok PNone
     | _ => Ok (PDict [("ok", PBool true)])
     end, mkLab (lab_t w) (lab_p w) (tail (lab_answers w)) (lab_n w));
  w_latest w d n :=
    if String.eqb d "gauge" && String.eqb n "pressure"
    then Some [("value", PInt (lab_p w)); ("quality", PStr "OK"); ("age_s", PInt 1);
               ("t_mono_recv", PFloat (FFin (lab_t w)))] else None;
  w_clock w := (lab_t w, w);
  w_uuid w := (str_Z (lab_n w), mkLab (lab_t w) (lab_p w) (lab_answers w) (lab_n w + 1))
|}.
Definition exc_repr (_ : pyexc) : string := "".

Definition alarm_condition : pyval := PDict [("gt", PList [PStr "${p.value}"; PInt 5])].
Definition ruleset_yaml (timeout : pyval) : pyval :=
  PDict [("version", PInt 1); ("watchdog_id", PStr "vac"); ("defaults", PDict [("cooldown_s", PInt 10)]);
         ("rules", PList [PDict [
            ("name", PStr "over"); ("latch", PBool true);
            ("inputs", PDict [("telemetry", PList [PDict [("as", PStr "p"); ("device", PStr "gauge");
                                                          ("signal", PStr "pressure")]])]);
            ("condition", alarm_condition);
            ("actions", PList [
               PDict [("command", PDict [("device_id", PStr "laser"); ("action", PStr "off"); ("retries", PInt 1);
                                         ("timeout_s", timeout)])];
               PDict [("process", PDict [("process_id", PStr "seq"); ("action", PStr "sequencer.pause")])]])]])].
Definition ruleset (timeout : pyval) : WatchdogRuleset :=
  match _parse_watchdog_ruleset (ruleset_yaml timeout) "demo" with Ok rs => rs | Err _ => mkWRuleset "" [] false end.
Definition rs0 : WatchdogRuleset := ruleset (PInt 2).
Definition blank_rule : WatchdogRule :=
  mkWRule "" "" None [] PNone FNan FNan false "" [] None None.
Definition r0 : WatchdogRule := hd blank_rule (ws_rules rs0).
Definition at_ (t : Q) (p : Z) : lab := mkLab t p [false; true] 0.
Definition s0 : watchdog lab := snd (watchdog_init (at_ 100 7) "watchdog" [rs0]).

Definition clear : dict := [("type", PStr "watchdog.clear_latch"); ("params", PDict [("rule", PStr "over")])].
Definition day : list (wop lab) :=
  [Tick; Work; Surroundings (at_ 105 7); Tick; Request clear; Tick; Surroundings (at_ 110 7); Tick].
Definition topics (h : list (Q * event)) : list (Q * string) := prod_map id fst <$> h.

Lemma watchdog_ruleset_promises_witness : ruleset_promises rs0 /\ ws_rules rs0 = [r0].
Proof. split; [apply (watchdog_ruleset_promises (ruleset_yaml (PInt 2)) "demo"); by vm_compute|by vm_compute]. Defined.

(** The second trip is ten seconds after the first, and needs the clearing. *)
Lemma trips_apart_witness :
  apart ("vac", "over") r0 (history exc_repr day s0) /\
  length (filter (fun e => snd e = "manager.watchdog.triggered") (topics (history exc_repr day s0))) = 2%nat.
Proof.
  split; [|by vm_compute].
  apply (trips_apart exc_repr [ruleset_yaml (PInt 2)] ["demo"] [rs0] (at_ 100 7) "watchdog" s0 day rs0 r0).
  - constructor; [by vm_compute|constructor].
  - by vm_compute.
  - by left.
  - vm_compute. left.
Defined.

Lemma trace_agrees_witness :
  let env := [("p", PDict [("value", PInt 7)])] in
  let c := PDict [("or", PList [alarm_condition; PDict [("gt", PList [PNone; PInt 1])]])] in
  exists t, _condition_evaluation_trace exc_repr env c = Ok t /\
    _safe_condition_evaluation_trace exc_repr env c = t /\ dget t "result" = PBool true.
Proof. intros env c. apply trace_agrees; by vm_compute. Defined.

(** The first action is answered at its second call. *)
Lemma chain_runs_to_end_witness :
  exists summary s' outcomes, _execute_actions exc_repr "vac" r0 "0" s0 = (Ok summary, s') /\
    chain_calls "watchdog" "vac" r0 "0" (wr_actions r0) (wd_world s0) outcomes (wd_world s') /\
    dget summary "failed_actions" = PInt 0.
Proof.
  destruct (chain_runs_to_end exc_repr "vac" r0 "0" s0)
    as [(_ & summary & s' & outcomes & results & E & C & _)|(pre & a & post & e & s' & o & El & _ & Ha & _)].
  - exists summary, s', outcomes. split_and!; [exact E|exact C|]. clear -E. revert E. generalize summary. vm_compute.
    intros x [= <- _]. done.
  - assert (Forall (fun a => finite_timeout a = true) (wr_actions r0)) as Hf by (vm_compute; repeat constructor).
    rewrite El in Hf. apply Forall_app in Hf as [_ Hf]. apply Forall_cons in Hf as [Hf _].
    rewrite Ha in Hf. discriminate Hf.
Defined.

Definition ticked : watchdog lab := snd (perform exc_repr Tick s0).

Lemma inflight_iff_pending_witness :
  NoDup (jb_key <$> wd_jobs ticked) /\ (forall k, k ∈ wd_inflight ticked <-> k ∈ jb_key <$> wd_jobs ticked) /\
  wd_inflight (Nat.iter (length (wd_jobs ticked)) (worker_step exc_repr) ticked) = [] .
Proof.
  apply inflight_iff_pending. apply (wd_reach_step exc_repr Tick). apply (wd_reach_init _ (at_ 100 7) "watchdog" [rs0]).
  by vm_compute.
Defined.

(** A rule that wants its alarm for five seconds and three samples. *)
Definition patient_yaml : pyval :=
  PDict [("version", PInt 1); ("watchdog_id", PStr "vac");
         ("rules", PList [PDict [
            ("name", PStr "slow"); ("stable_for_s", PInt 5);
            ("confirmation", PDict [("sample_alias", PStr "p"); ("consecutive_samples", PInt 3)]);
            ("inputs", PDict [("telemetry", PList [PDict [("as", PStr "p"); ("device", PStr "gauge");
                                                          ("signal", PStr "pressure")]])]);
            ("condition", alarm_condition);
            ("actions", PList [PDict [("process", PDict [("process_id", PStr "seq"); ("action", PStr "sequencer.stop")])]])]])].
Definition rs1 : WatchdogRuleset :=
  match _parse_watchdog_ruleset patient_yaml "demo" with Ok rs => rs | Err _ => mkWRuleset "" [] false end.
Definition r1 : WatchdogRule := hd blank_rule (ws_rules rs1).
Definition s1 : watchdog lab := snd (watchdog_init (at_ 100 7) "watchdog" [rs1]).
Definition waiting : list (wop lab) := [Tick; Surroundings (at_ 103 7); Tick].
Definition a1 : RuleState := default fresh_state (get_state (run_ops exc_repr waiting s1) ("vac", "slow")).
Definition quiet_cb (_ : pyexc) : pyM (watchdog lab) unit := mret tt.

Lemma trigger_needs_sustained_alarm_witness :
  exists log ev s', lives exc_repr r1 log a1 /\
    evaluate_watchdog_rule exc_repr r1 a1 (w_latest (at_ 106 7)) 106 quiet_cb s1 = (Ok ev, s') /\
    ev_triggered ev = true /\ sustained r1 (log ++ [mkObs 106 (w_latest (at_ 106 7)) ev]) 106.
Proof.
  destruct (trigger_needs_sustained_alarm exc_repr [patient_yaml] ["demo"] [rs1] (at_ 100 7) "watchdog" s1 waiting
              rs1 r1 a1) as [[log Hl] H].
  - constructor; [by vm_compute|constructor].
  - by vm_compute.
  - by left.
  - vm_compute. left.
  - by vm_compute.
  - destruct (evaluate_watchdog_rule exc_repr r1 a1 (w_latest (at_ 106 7)) 106 quiet_cb s1) as [[ev|x] s'] eqn:E.
    2:{ exfalso. clear -E. revert E. generalize x s'. intros ? ?. vm_compute. discriminate. }
    assert (ev_triggered ev = true) as Ht.
    { clear -E. revert E. generalize s'. intros z. vm_compute. by intros [= <- _]. }
    exists log, ev, s'. split_and!; [exact Hl|done|done|].
    by destruct (H log 106%Q (w_latest (at_ 106 7)) quiet_cb s1 ev s' Hl E Ht) as (_ & Hs & _).
Defined.

(** An action with an infinite time limit: the request is never made, and
    neither are the requests of the actions after it. *)
Example infinite_timeout_aborts_chain :
  let r := hd blank_rule (ws_rules (ruleset (PFloat (FInf false)))) in
  length (wr_actions r) = 2%nat /\
  exists e s', _execute_actions exc_repr "vac" r "0" s0 = (Err e, s') /\ lab_answers (wd_world s') = [false; true].
Proof. cbv zeta. split; [by vm_compute|]. eexists _, _. split; vm_compute; reflexivity. Qed.

(** A latching rule cleared while its chain is still pending triggers again
    once the cooldown is over: its latch closes, but the trip is dropped,
    and no later tick makes it up. *)
Example dropped_trip_stays_latched :
  let ops := [Tick; Request clear; Surroundings (at_ 120 7); Tick; Work; Surroundings (at_ 200 7); Tick] in
  let h := topics (history exc_repr ops s0) in
  length (filter (fun e => snd e = "manager.watchdog.triggered") h) = 1%nat /\
  latched_of ("vac", "over") (foldl (fun s op => snd (perform exc_repr op s)) s0 ops) = true.
Proof. by vm_compute. Qed.
End WatchdogDemo.
