(* ===== verification/ScanPlan.v ===== *)
(** * Points of a two-dimensional scan ([scan_plan.py])

    The order in which a scan visits the points of a grid, as records for a
    loop.  NumPy's random generator is a parameter. *)
From Stdlib Require Import Lqa.
From S2P Require Import Prelude PyVal PyNum PyOps ProcessBase.
#[local] Open Scope Z_scope.

(** [np.random.default_rng(seed)] (which refuses some seeds), and of a
    generator: where a shuffle of [n] things takes each from, [count] indices
    below [n], and [count] distinct ones.  Without a seed NumPy draws a fresh
    generator each time; nothing below compares two draws. *)
Class Rng := {
  generator : Type;
  default_rng : option Z -> result generator;
  rng_shuffle : generator -> nat -> list nat;
  rng_integers : generator -> nat -> nat -> list nat;
  rng_choice : generator -> nat -> nat -> list nat
}.

(** What NumPy documents of them. *)
Class RngLaws `{!Rng} : Prop := {
  shuffle_perm g n : rng_shuffle g n ≡ₚ seq 0 n;
  integers_below g n count : (0 < n)%nat -> Forall (fun i => (i < n)%nat) (rng_integers g n count) /\
    length (rng_integers g n count) = count;
  choice_distinct g n count : (count <= n)%nat ->
    NoDup (rng_choice g n count) /\ Forall (fun i => (i < n)%nat) (rng_choice g n count) /\
    length (rng_choice g n count) = count
}.

(** [rng.shuffle(l)] *)
Definition shuffled `{!Rng} {A} (seed : option Z) (l : list A) : result (list A) :=
  g ← default_rng seed;
  Ok (omap (fun i => l !! i) (rng_shuffle g (length l))).

Definition coord : Type := nat * nat.            (* row, column *)

Definition _SCAN2D_PATTERNS : list string := ["raster"; "serpentine"; "random"; "center_out"].
Definition _SCAN2D_ORDERS : list string := ["row_major"; "col_major"].

Definition validate_scan2d_pattern (pattern : string) : result string :=
  let value := lower (strip (if String.eqb pattern "" then "serpentine" else pattern)) in
  if bool_decide (value ∈ _SCAN2D_PATTERNS) then Ok value
  else Err (ValueError "scan2d.pattern must be one of raster/serpentine/random/center_out").

Definition validate_scan2d_order (order : string) : result string :=
  let value := lower (strip (if String.eqb order "" then "row_major" else order)) in
  if bool_decide (value ∈ _SCAN2D_ORDERS) then Ok value
  else Err (ValueError "scan2d.order must be one of row_major/col_major").

(** The lines of the grid, in order: rows or columns. *)
Definition line (row_major : bool) (n : nat) (i : nat) : list coord :=
  (fun j => if row_major then (i, j) else (j, i)) <$> seq 0 n.

Definition lines (row_major : bool) (x_count y_count : nat) : list nat := seq 0 (if row_major then y_count else x_count).
Definition line_length (row_major : bool) (x_count y_count : nat) : nat := if row_major then x_count else y_count.

Definition grid (row_major : bool) (x_count y_count : nat) : list coord :=
  lines row_major x_count y_count ≫= line row_major (line_length row_major x_count y_count).

Definition _apply_serpentine (x_count y_count : nat) (row_major : bool) : list coord :=
  lines row_major x_count y_count ≫= fun i =>
    let l := line row_major (line_length row_major x_count y_count) i in
    if Nat.odd i then reverse l else l.

(** The squared distance from the centre, then row and column. *)
Definition _center_out_sort_key (x_count y_count : nat) (c : coord) : Q * nat * nat :=
  let '(row, col) := c in
  let dr := (inject_Z (Z.of_nat row) - inject_Z (Z.of_nat y_count - 1) / 2)%Q in
  let dc := (inject_Z (Z.of_nat col) - inject_Z (Z.of_nat x_count - 1) / 2)%Q in
  (dr * dr + dc * dc, row, col)%Q.

(** [<=] of two keys *)
Definition key_le (a b : Q * nat * nat) : Prop :=
  let '(q1, r1, c1) := a in let '(q2, r2, c2) := b in
  (q1 < q2)%Q \/ (q1 == q2)%Q /\ ((r1 < r2)%nat \/ r1 = r2 /\ (c1 <= c2)%nat).

#[export] Instance Qlt_dec' a b : Decision (a < b)%Q.
Proof. destruct (Qlt_le_dec a b); [by left|right; by apply Qle_not_lt]. Defined.
#[export] Instance Qeq_dec' a b : Decision (a == b)%Q := Qeq_dec a b.
#[export] Instance key_le_dec a b : Decision (key_le a b).
Proof. destruct a as [[q1 r1] c1], b as [[q2 r2] c2]. unfold key_le. apply _. Defined.

Definition coord_le (x_count y_count : nat) (a b : coord) : Prop :=
  key_le (_center_out_sort_key x_count y_count a) (_center_out_sort_key x_count y_count b).

(** [i / d] *)
Definition ratio (i d : nat) : pyval := PFloat (FFin (Qred (inject_Z (Z.of_nat i) / inject_Z (Z.of_nat d)))).
Definition fraction (i count : nat) : pyval :=
  if (1 <? count)%nat then ratio i (Nat.max 1 (count - 1)) else PFloat (FFin 0).
Definition of_nat (n : nat) : pyval := PInt (Z.of_nat n).

Definition scan_record (x_values y_values : list pyval) (total index : nat) (c : coord) : dict :=
  let '(row, col) := c in
  [("x", default PNone (x_values !! col)); ("y", default PNone (y_values !! row)); ("row", of_nat row);
   ("col", of_nat col); ("index", of_nat index); ("u", fraction col (length x_values));
   ("v", fraction row (length y_values)); ("count", of_nat total)].

Section scan.
Context `{HG : !Rng}.

Definition scan_order (pattern : string) (row_major : bool) (seed : option Z) (x_count y_count : nat)
    : result (list coord) :=
  if String.eqb pattern "serpentine" then Ok (_apply_serpentine x_count y_count row_major)
  else if String.eqb pattern "random" then shuffled seed (grid row_major x_count y_count)
  else if String.eqb pattern "center_out" then
    Ok (merge_sort (coord_le x_count y_count) (grid row_major x_count y_count))
  else Ok (grid row_major x_count y_count).

Definition generate_scan2d_records (x_values y_values : list pyval) (pattern order : string) (seed : option Z)
    : result (list dict) :=
  match x_values, y_values with
  | [], _ => Err (ValueError "scan2d.x must contain at least one point")
  | _, [] => Err (ValueError "scan2d.y must contain at least one point")
  | _, _ =>
      pattern_name ← validate_scan2d_pattern pattern;
      order_name ← validate_scan2d_order order;
      coords ← scan_order pattern_name (String.eqb order_name "row_major") seed
                 (length x_values) (length y_values);
      Ok (imap (scan_record x_values y_values (length coords)) coords)
  end.
End scan.

(** ** Every point once *)
Lemma omap_lookup_seq {A} (l k : list A) : omap (fun i => (k ++ l) !! i) (seq (length k) (length l)) = l.
Proof.
  revert k. induction l as [|x l IH]; intros k; [done|]. cbn [length seq omap list_omap].
  rewrite (lookup_app_r k (x :: l)), Nat.sub_diag by lia. cbn [lookup list_lookup]. f_equal.
  specialize (IH (k ++ [x])). rewrite length_app, Nat.add_comm in IH. cbn in IH.
  by rewrite <- app_assoc in IH.
Qed.

Lemma shuffled_perm `{HG : !Rng} `{HL : !RngLaws} {A} seed (l k : list A) :
  shuffled seed l = Ok k -> k ≡ₚ l.
Proof.
  unfold shuffled. destruct (default_rng seed) as [g|]; [|discriminate]. intros [= <-].
  rewrite (shuffle_perm g (length l)). pose proof (omap_lookup_seq l []) as E. cbn in E. by rewrite E.
Qed.

(** Which points there are. *)
Lemma elem_of_grid row_major nx ny r c : (r, c) ∈ grid row_major nx ny <-> (r < ny)%nat /\ (c < nx)%nat.
Proof.
  unfold grid, lines, line, line_length. rewrite list_elem_of_bind. destruct row_major; split.
  - intros (i & (j & [= -> ->] & Hj)%list_elem_of_fmap & Hi). apply elem_of_seq in Hj, Hi. lia.
  - intros [Hr Hc]. exists r. rewrite list_elem_of_fmap, elem_of_seq. split; [|lia]. exists c. rewrite elem_of_seq. split; [done|lia].
  - intros (i & (j & [= -> ->] & Hj)%list_elem_of_fmap & Hi). apply elem_of_seq in Hj, Hi. lia.
  - intros [Hr Hc]. exists c. rewrite list_elem_of_fmap, elem_of_seq. split; [|lia]. exists r. rewrite elem_of_seq. split; [done|lia].
Qed.

Lemma line_elem row_major n i c : c ∈ line row_major n i -> (if row_major then fst c else snd c) = i.
Proof. intros (j & -> & _)%list_elem_of_fmap. by destruct row_major. Qed.

Lemma NoDup_line row_major n i : NoDup (line row_major n i).
Proof. apply NoDup_fmap_2; [|apply NoDup_seq]. intros j k. destruct row_major; congruence. Qed.

Lemma NoDup_lines row_major n (ls : list nat) : NoDup ls -> NoDup (ls ≫= line row_major n).
Proof.
  induction 1 as [|i ls Hi _ IH]; [constructor|]. cbn. apply NoDup_app. split_and!; [apply NoDup_line| |done].
  intros c Hc (k & Hk & Hin)%list_elem_of_bind. apply line_elem in Hc, Hk. congruence.
Qed.

Lemma serpentine_perm nx ny row_major : _apply_serpentine nx ny row_major ≡ₚ grid row_major nx ny.
Proof.
  unfold _apply_serpentine, grid. induction (lines row_major nx ny) as [|i l IH]; [done|]. cbn. rewrite IH.
  destruct (Nat.odd i); [|done]. by rewrite reverse_Permutation.
Qed.

Lemma scan_order_perm `{HG : !Rng} `{HL : !RngLaws} pattern row_major seed nx ny coords :
  scan_order pattern row_major seed nx ny = Ok coords -> coords ≡ₚ grid row_major nx ny.
Proof.
  unfold scan_order. repeat case_match; [intros [= <-]; apply serpentine_perm|apply shuffled_perm| |by intros [= <-]].
  intros [= <-]. apply merge_sort_Permutation.
Qed.

(** ** Neighbours in a serpentine scan *)

(** One step along one axis. *)
Definition adjacent (a b : coord) : Prop :=
  fst a = fst b /\ (snd b = S (snd a) \/ snd a = S (snd b)) \/
  snd a = snd b /\ (fst b = S (fst a) \/ fst a = S (fst b)).

Lemma Sorted_app_join {A} (R : relation A) (l k : list A) :
  Sorted R l -> Sorted R k -> (forall x y, last l = Some x -> head k = Some y -> R x y) -> Sorted R (l ++ k).
Proof.
  intros Hl Hk Hj. induction l as [|x l IH]; [done|]. cbn. apply Sorted_inv in Hl as [Hl Hx]. constructor.
  - apply IH; [done|]. intros y z Hy. apply Hj. destruct l; [done|]. exact Hy.
  - destruct l as [|y l]; cbn.
    + destruct k as [|z k]; constructor. by apply Hj.
    + constructor. by inversion Hx.
Qed.

Lemma line_adjacent row_major n i : Sorted adjacent (line row_major n i).
Proof.
  unfold line. generalize 0%nat. induction n as [|n IH]; intros k; [constructor|]. cbn. constructor; [apply IH|].
  destruct n; constructor. destruct row_major; unfold adjacent; cbn; auto.
Qed.

Lemma Sorted_reverse {A} (R : relation A) (l : list A) : Symmetric R -> Sorted R l -> Sorted R (reverse l).
Proof.
  intros HR Hl. induction Hl as [|x l Hl IH Hx]; [constructor|]. rewrite reverse_cons. apply Sorted_app_join; [done|by repeat constructor|].
  intros y z. rewrite last_reverse. intros Hy [= <-]. symmetry. destruct l; [done|]. cbn in Hy. injection Hy as <-. by inversion Hx.
Qed.

#[export] Instance adjacent_sym : Symmetric adjacent.
Proof. intros a b. unfold adjacent. naive_solver. Qed.

Definition serpentine_line (row_major : bool) (n i : nat) : list coord :=
  if Nat.odd i then reverse (line row_major n i) else line row_major n i.

(** Where a line of a serpentine starts and ends. *)
Definition point (row_major : bool) (i j : nat) : coord := if row_major then (i, j) else (j, i).

Lemma line_ends row_major n i :
  head (line row_major (S n) i) = Some (point row_major i 0) /\ last (line row_major (S n) i) = Some (point row_major i n).
Proof.
  split; [by destruct row_major|]. unfold line. rewrite seq_S, fmap_app. cbn. rewrite last_snoc. by destruct row_major.
Qed.

Lemma serpentine_ends row_major n i :
  head (serpentine_line row_major (S n) i) = Some (point row_major i (if Nat.odd i then n else 0)) /\
  last (serpentine_line row_major (S n) i) = Some (point row_major i (if Nat.odd i then 0 else n)).
Proof.
  unfold serpentine_line. destruct (line_ends row_major n i) as [Hh Hl]. destruct (Nat.odd i); [|by split].
  rewrite head_reverse, last_reverse. by split.
Qed.

Lemma serpentine_adjacent nx ny row_major : Sorted adjacent (_apply_serpentine nx ny row_major).
Proof.
  unfold _apply_serpentine. set (n := line_length row_major nx ny).
  change (fun i => _) with (serpentine_line row_major n). unfold lines. generalize (if row_major then ny else nx). intros m.
  destruct n as [|n].
  { enough ((seq 0 m ≫= serpentine_line row_major 0) = []) as -> by constructor.
    induction (seq 0 m) as [|i l IH]; [done|]. cbn. rewrite IH. unfold serpentine_line. by destruct (Nat.odd i). }
  generalize 0%nat. induction m as [|m IH]; intros k; [constructor|]. cbn [seq mbind list_bind].
  apply Sorted_app_join; [| apply IH|].
  - unfold serpentine_line. destruct (Nat.odd k); [apply Sorted_reverse; [apply _|]|]; apply line_adjacent.
  - intros x y Hx Hy. rewrite (proj2 (serpentine_ends row_major n k)) in Hx. injection Hx as <-.
    destruct m as [|m]; [done|]. cbn [seq mbind list_bind] in Hy.
    assert (head (serpentine_line row_major (S n) (S k)) = Some y) as Hy'.
    { destruct (serpentine_line row_major (S n) (S k)) eqn:E; [|done].
      pose proof (proj1 (serpentine_ends row_major n (S k))) as H. by rewrite E in H. }
    rewrite (proj1 (serpentine_ends row_major n (S k))) in Hy'. injection Hy' as <-.
    rewrite Nat.odd_succ, <- Nat.negb_odd. destruct (Nat.odd k), row_major; unfold adjacent, point; cbn; auto.
Qed.

(** ** Outwards from the centre *)
#[export] Instance key_le_total : Total key_le.
Proof.
  intros [[q1 r1] c1] [[q2 r2] c2]. unfold key_le.
  destruct (Qlt_le_dec q1 q2) as [|Hle]; [by left; left|]. destruct (Qlt_le_dec q2 q1); [by right; left|].
  assert (q1 == q2)%Q by lra. assert (q2 == q1)%Q by lra.
  destruct (Nat.lt_trichotomy r1 r2) as [|[->|]]; [left; right; auto| |right; right; auto].
  destruct (Nat.le_gt_cases c1 c2); [left|right]; right; split; auto; right; split; auto; lia.
Qed.

#[export] Instance coord_le_total nx ny : Total (coord_le nx ny).
Proof. intros a b. apply key_le_total. Qed.

Lemma length_grid row_major nx ny : length (grid row_major nx ny) = (nx * ny)%nat.
Proof.
  unfold grid, lines, line_length.
  assert (forall n ls, length (ls ≫= line row_major n) = (length ls * n)%nat) as H.
  { intros n ls. induction ls as [|i ls IH]; [done|]. cbn. rewrite length_app, IH. unfold line. by rewrite length_fmap, length_seq. }
  rewrite H, length_seq. destruct row_major; lia.
Qed.

(** C18. A two-dimensional scan visits every point of its grid exactly once,
    whatever its pattern and order, given a generator that shuffles: its
    records are those of the points in some order without repetition, each
    with its coordinates, its position in that order and the number of
    points. A raster goes through the points line by line, in a serpentine
    scan each point is a neighbour of the one before, and a scan from the
    centre goes outwards. It is refused only for an axis without points, an
    unknown pattern or order, or a seed that the generator refuses. *)
Theorem scan_visits_each_point_once `{HG : !Rng} `{HL : !RngLaws} xs ys pattern order seed :
  match generate_scan2d_records xs ys pattern order seed with
  | Ok records =>
      exists p o coords, validate_scan2d_pattern pattern = Ok p /\ validate_scan2d_order order = Ok o /\
        records = imap (scan_record xs ys (length xs * length ys)) coords /\
        NoDup coords /\ (forall r c, (r, c) ∈ coords <-> (r < length ys)%nat /\ (c < length xs)%nat) /\
        length records = (length xs * length ys)%nat /\ records <> [] /\
        (p = "raster" -> coords = grid (String.eqb o "row_major") (length xs) (length ys)) /\
        (p = "serpentine" -> Sorted adjacent coords) /\
        (p = "center_out" -> Sorted (coord_le (length xs) (length ys)) coords)
  | Err e =>
      xs = [] \/ ys = [] \/ validate_scan2d_pattern pattern = Err e \/ validate_scan2d_order order = Err e \/
      validate_scan2d_pattern pattern = Ok "random" /\ default_rng seed = Err e
  end.
Proof.
  unfold generate_scan2d_records. destruct xs as [|x xs], ys as [|y ys]; [auto..|].
  set (xs' := x :: xs). set (ys' := y :: ys).
  destruct (validate_scan2d_pattern pattern) as [p|] eqn:Ep; cbn [mbind result_bind]; [|auto].
  destruct (validate_scan2d_order order) as [o|] eqn:Eo; cbn [mbind result_bind]; [|auto].
  destruct (scan_order p (String.eqb o "row_major") seed (length xs') (length ys')) as [coords|e] eqn:Ec; cbn [mbind result_bind].
  - pose proof (scan_order_perm _ _ _ _ _ _ Ec) as Hp.
    assert (length coords = (length xs' * length ys')%nat) as El by (by rewrite Hp, length_grid).
    exists p, o, coords. rewrite El. split_and!; [done|done|done| | | | | | |].
    + rewrite Hp. apply NoDup_lines, NoDup_seq.
    + intros r c. rewrite Hp. apply elem_of_grid.
    + by rewrite length_imap.
    + intros E%(f_equal length). by rewrite length_imap, El in E.
    + intros ->. by injection Ec as <-.
    + intros ->. injection Ec as <-. apply serpentine_adjacent.
    + intros ->. injection Ec as <-. apply Sorted_merge_sort, _.
  - do 4 right. unfold scan_order in Ec. destruct (String.eqb_spec p "serpentine"); [done|].
    destruct (String.eqb_spec p "random") as [->|]; [|by destruct (String.eqb p "center_out")].
    split; [done|]. unfold shuffled in Ec. destruct (default_rng seed); [done|]. by injection Ec as ->.
Qed.

Module ScanDemo.
(** A generator that shuffles by turning things round. *)
#[local] Instance turning : Rng := {|
  generator := unit;
  default_rng _ := Ok tt;
  rng_shuffle _ n := reverse (seq 0 n);
  rng_integers _ n count := replicate count 0%nat;
  rng_choice _ n count := seq 0 count
|}.

Definition xs : list pyval := PInt <$> [1; 2; 3].
Definition ys : list pyval := PInt <$> [10; 20].

Example serpentine_cells :
  (fun r => (dget r "row", dget r "col")) <$>
    match generate_scan2d_records xs ys " Serpentine" "" None with Ok l => l | Err _ => [] end =
  (fun '(r, c) => (PInt r, PInt c)) <$> [(0, 0); (0, 1); (0, 2); (1, 2); (1, 1); (1, 0)].
Proof. by vm_compute. Qed.

#[local] Instance turning_laws : RngLaws.
Proof.
  constructor; cbn.
  - intros _ n. apply reverse_Permutation.
  - intros _ n count Hn. split; [by apply Forall_replicate|by rewrite length_replicate].
  - intros _ n count Hn. split_and!; [apply NoDup_seq| |apply length_seq].
    apply Forall_forall. intros i Hi%elem_of_seq. lia.
Qed.

Lemma scan_visits_each_point_once_witness :
  exists records coords, generate_scan2d_records xs ys "serpentine" "col_major" None = Ok records /\
    records = imap (scan_record xs ys 6) coords /\ Sorted adjacent coords.
Proof.
  pose proof (scan_visits_each_point_once xs ys "serpentine" "col_major" None) as H.
  destruct (generate_scan2d_records xs ys "serpentine" "col_major" None) as [records|] eqn:E; [|discriminate E].
  destruct H as (p & o & coords & Ep & _ & Er & _ & _ & _ & _ & _ & Hs & _).
  exists records, coords. split_and!; [done|exact Er|apply Hs]. by injection Ep as <-.
Defined.
End ScanDemo.
