(* ===== verification/Ranges.v ===== *)
(** * Generated values of loops ([sequencer/ranges.py])

    The values a [for] step of a sequence runs over: ranges, spaces, triangles
    and scans, with offset, shuffle, serpentine and sampling.  NumPy's spaces
    and its random generator are parameters. *)
From Stdlib Require Import Lqa Qround Qabs.
From S2P Require Import Prelude PyVal PyNum PyOps Expressions Conditions Responses ProcessBase ScanPlan.
#[local] Open Scope Z_scope.

(** [np.linspace], [np.logspace] with its base, [np.geomspace] *)
Class Spaces := {
  np_linspace : pyfloat -> pyfloat -> Z -> result (list pyfloat);
  np_logspace : pyfloat -> pyfloat -> Z -> pyfloat -> result (list pyfloat);
  np_geomspace : pyfloat -> pyfloat -> Z -> result (list pyfloat)
}.

(** [math.ceil] and [round] of a float *)
Definition float_to_int (f : Q -> Z) (x : pyfloat) : result Z :=
  match x with
  | FFin q => Ok (f q)
  | FInf _ => Err OverflowError
  | FNan => Err (ValueError "cannot convert float NaN to integer")
  end.
Definition math_ceil : pyfloat -> result Z := float_to_int Qceiling.
Definition py_round : pyfloat -> result Z := float_to_int round_half_even.

Definition _RANGE_STOP_TOL : Q := 1 # 1000000000.

Definition _GENERATOR_FIELDS : list (string * (list string * list string)) :=
  [("range", (["start"; "stop"], ["step"])); ("linspace", (["start"; "stop"; "num"], []));
   ("logspace", (["start"; "stop"; "num"], ["base"])); ("geomspace", (["start"; "stop"; "num"], []));
   ("triangle", (["start"; "stop"; "num"], [])); ("centered_triangle", (["center"; "span"; "num"], ["dir"]))].
Definition _GENERATOR_KINDS : list string := od_keys _GENERATOR_FIELDS ++ ["values"; "scan2d"].
Definition _GEN_MODIFIER_KEYS : list string := ["offset"; "sample"; "seed"; "serpentine"; "shuffle"].

Section ranges.
Context `{HR : !PyRepr, HA : !PyArith, HE : !PyExpr, HN : !Spaces, HG : !Rng}.

Definition unknown_key_message (owner key : string) (allowed : list string) (hint : option string) : string :=
  let names := sorted_set (list_to_set allowed) in
  let text := owner +:+ " has unknown key " +:+ repr_str key in
  let text := match get_close_matches key names with
              | c :: _ => text +:+ " (did you mean " +:+ repr_str c +:+ "?)"
              | [] => text
              end in
  let text := match hint with Some h => if String.eqb h "" then text else text +:+ "; " +:+ h | None => text end in
  text +:+ ". Valid keys: " +:+ join ", " names.

(** ** The shape of a generator *)
Definition _check_generator_fields (kind : string) (params : pyval) : result dict :=
  match params with
  | PDict d =>
      let '(required, optional) := default ([], []) (od_get _GENERATOR_FIELDS kind) in
      match list_find (fun k => k ∉ required ++ optional) (od_keys d) with
      | Some (_, key) => Err (ValueError (unknown_key_message ("gen." +:+ kind) key (required ++ optional) None))
      | None =>
          match filter (fun name => dhas d name = false) required with
          | [] => Ok d
          | missing => Err (ValueError ("gen." +:+ kind +:+ " is missing required field(s): " +:+ join ", " missing))
          end
      end
  | _ => Err (TypeError ("gen." +:+ kind +:+ " must be a dict"))
  end.

Definition validate_gen_keys (gen_spec : dict) : result unit :=
  let kinds := filter (fun k => k ∈ _GENERATOR_KINDS) (od_keys gen_spec) in
  match list_find (fun k => k ∉ _GENERATOR_KINDS ++ _GEN_MODIFIER_KEYS) (od_keys gen_spec) with
  | Some (_, key) =>
      Err (ValueError (unknown_key_message "gen spec" key (_GENERATOR_KINDS ++ _GEN_MODIFIER_KEYS) None))
  | None =>
      match kinds with
      | [] => Err (ValueError ("gen spec must include one of " +:+ join "/" _GENERATOR_KINDS))
      | [kind] =>
          match od_get _GENERATOR_FIELDS kind, dget gen_spec kind with
          | Some _, PDict d => _ ← _check_generator_fields kind (PDict d); Ok tt
          | _, _ => Ok tt
          end
      | _ => Err (ValueError ("gen spec must contain exactly one generator, got: " +:+ join ", " kinds))
      end
  end.

(** ** Modifiers and records *)
Fixpoint map_result {A B} (f : A -> result B) (l : list A) : result (list B) :=
  match l with
  | [] => Ok []
  | x :: r => y ← f x; ys ← map_result f r; Ok (y :: ys)
  end.

Record modifiers := mkModifiers {
  md_offset : option pyfloat;
  md_shuffle : bool;
  md_seed : option Z;
  md_serpentine : bool;
  md_serpentine_index : option Z
}.

(** [[v + offset for v in out]] *)
Definition shift (offset : option pyfloat) (values : list pyval) : result (list pyval) :=
  match offset with
  | Some o => map_result (fun v => py_add v (PFloat o)) values
  | None => Ok values
  end.

Definition _apply_modifiers (values : list pyval) (m : modifiers) : result (list pyval) :=
  out ← shift (md_offset m) values;
  out ← if md_shuffle m then shuffled (md_seed m) out else Ok out;
  Ok (match md_serpentine_index m with
      | Some i => if md_serpentine m && (i mod 2 =? 1) then reverse out else out
      | None => out
      end).

Definition scalar_record (total index : nat) (value : pyval) : dict :=
  [("value", value); ("index", of_nat index); ("u", fraction index total); ("count", of_nat total)].

Definition _wrap_scalar_records (values : list pyval) : list dict :=
  imap (scalar_record (length values)) values.

(** ** Numbers *)
Definition _coerce_int (value : pyval) (name : string) (minimum : Z) : result Z :=
  match py_int value with
  | Err _ => Err (TypeError (name +:+ " must be an integer"))
  | Ok out => if out <? minimum then Err (ValueError (name +:+ " must be >= " +:+ str_Z minimum)) else Ok out
  end.

Definition _coerce_float (value : pyval) (name : string) (positive : bool) : result pyfloat :=
  match py_float value with
  | Err _ => Err (TypeError (name +:+ " must be a number"))
  | Ok out => if positive && fleb out (FFin 0) then Err (ValueError (name +:+ " must be > 0")) else Ok out
  end.

(** [isinstance(v, (int, float))] *)
Definition is_number (v : pyval) : bool :=
  match v with PBool _ | PInt _ | PFloat _ => true | _ => false end.

Definition _normalize_step_counts (raw : pyval) : result (Z * Z) :=
  if is_number raw then n ← _coerce_int raw "scan2d.steps" 1; Ok (n, n)
  else match raw with
       | PDict d =>
           x ← _coerce_int (dget d "x") "scan2d.steps.x" 1;
           y ← _coerce_int (dget d "y") "scan2d.steps.y" 1;
           Ok (x, y)
       | _ => Err (TypeError "scan2d.steps must be a number or an object with x/y")
       end.

Definition _normalize_pitch (raw : pyval) : result (pyfloat * pyfloat) :=
  if is_number raw then p ← _coerce_float raw "scan2d.pitch" true; Ok (p, p)
  else match raw with
       | PDict d =>
           x ← _coerce_float (dget d "x") "scan2d.pitch.x" true;
           y ← _coerce_float (dget d "y") "scan2d.pitch.y" true;
           Ok (x, y)
       | _ => Err (TypeError "scan2d.pitch must be a number or an object with x/y")
       end.

Definition _normalize_center (raw : pyval) : result (pyfloat * pyfloat) :=
  match raw with
  | PDict d =>
      cx ← _coerce_float (dget d "x") "scan2d.center.x" false;
      cy ← _coerce_float (dget d "y") "scan2d.center.y" false;
      Ok (cx, cy)
  | _ => Err (TypeError "scan2d.center must be an object with x/y")
  end.

Definition _normalize_size (raw : dict) : result (pyfloat * pyfloat) :=
  if dhas raw "size" then
    let size := dget raw "size" in
    if is_number size then w ← _coerce_float size "scan2d.size" true; Ok (w, w)
    else match size with
         | PDict d =>
             w ← _coerce_float (dget d "width") "scan2d.size.width" true;
             h ← _coerce_float (dget d "height") "scan2d.size.height" true;
             Ok (w, h)
         | _ => Err (TypeError "scan2d.size must be a number or an object with width/height")
         end
  else
    w ← _coerce_float (dget raw "width") "scan2d.width" true;
    h ← _coerce_float (dget raw "height") "scan2d.height" true;
    Ok (w, h).

Definition floats (l : list pyfloat) : list pyval := PFloat <$> l.

Definition _linspace_from_pitch (start stop pitch : pyfloat) : result (list pyval) :=
  q ← fdiv (fsub stop start) pitch;
  n ← py_round q;
  floats <$> np_linspace start stop (Z.max 1 (n + 1)).

Definition _explicit_axis_values (axis_raw : pyval) (name : string) : result (list pyval) :=
  match axis_raw with
  | PDict d =>
      if negb (dhas d "linspace") || negb (length d =? 1)%nat then
        Err (TypeError ("scan2d." +:+ name +:+ " must contain exactly one linspace spec"))
      else
        match dget d "linspace" with
        | PDict p =>
            let path k := "scan2d." +:+ name +:+ ".linspace." +:+ k in
            start ← _coerce_float (dget p "start") (path "start") false;
            stop ← _coerce_float (dget p "stop") (path "stop") false;
            num ← _coerce_int (dget p "num") (path "num") 1;
            floats <$> np_linspace start stop num
        | _ => Err (TypeError ("scan2d." +:+ name +:+ ".linspace must be an object"))
        end
  | _ => Err (TypeError ("scan2d." +:+ name +:+ " must be an object"))
  end.

Definition opt_int (v : pyval) : result (option Z) :=
  match v with PNone => Ok None | _ => Some <$> py_int v end.

Definition shorthand_keys : list string := ["center"; "size"; "width"; "height"; "steps"; "pitch"].

(** The axes of the form with a centre and a size. *)
Definition shorthand_axes (spec : dict) : result (list pyval * list pyval) :=
  if negb (dhas spec "center") then Err (ValueError "scan2d shorthand requires center")
  else if Bool.eqb (dhas spec "steps") (dhas spec "pitch") then
    Err (ValueError "scan2d shorthand requires exactly one of steps or pitch")
  else
    '(cx, cy) ← _normalize_center (dget spec "center");
    '(width, height) ← _normalize_size spec;
    half_w ← fdiv width (FFin 2);
    half_h ← fdiv height (FFin 2);
    let '(x0, x1) := (fsub cx half_w, fadd cx half_w) in
    let '(y0, y1) := (fsub cy half_h, fadd cy half_h) in
    if dhas spec "steps" then
      '(nx, ny) ← _normalize_step_counts (dget spec "steps");
      xs ← np_linspace x0 x1 nx;
      ys ← np_linspace y0 y1 ny;
      Ok (floats xs, floats ys)
    else
      '(px, py) ← _normalize_pitch (dget spec "pitch");
      xs ← _linspace_from_pitch x0 x1 px;
      ys ← _linspace_from_pitch y0 y1 py;
      Ok (xs, ys).

Definition _generate_scan2d_from_spec (raw : pyval) : result (list dict) :=
  match raw with
  | PDict spec =>
      pattern ← validate_scan2d_pattern (py_str (dget_or spec "pattern" (PStr "serpentine")));
      order ← validate_scan2d_order (py_str (dget_or spec "order" (PStr "row_major")));
      seed ← opt_int (dget spec "seed");
      if match seed with Some _ => negb (String.eqb pattern "random") | None => false end then
        Err (ValueError "scan2d.seed is only valid when pattern=random")
      else
        let explicit := dhas spec "x" || dhas spec "y" in
        if explicit && existsb (dhas spec) shorthand_keys then
          Err (ValueError "scan2d cannot mix explicit x/y axes with center/size shorthand")
        else
          '(xs, ys) ←
            (if explicit then
               if negb (dhas spec "x") || negb (dhas spec "y") then
                 Err (ValueError "scan2d explicit form requires both x and y")
               else
                 xs ← _explicit_axis_values (dget spec "x") "x";
                 ys ← _explicit_axis_values (dget spec "y") "y";
                 Ok (xs, ys)
             else shorthand_axes spec);
          generate_scan2d_records xs ys pattern order seed
  | _ => Err (TypeError "gen.scan2d must be a dict")
  end.

(** ** Sampling *)
Definition restamp (total index : nat) (record : dict) : dict :=
  od_set (od_set (od_set record "index" (of_nat index)) "count" (of_nat total)) "u" (fraction index total).

Definition _apply_sample (records : list dict) (sample_spec : pyval) (env : Env) : result (list dict) :=
  spec ← render_templates env sample_spec;
  match spec with
  | PDict spec =>
      count ← _coerce_int (dget spec "count") "sample.count" 1;
      let replace := truthy (dget_or spec "replace" (PBool false)) in
      seed ← opt_int (dget spec "seed");
      let n := length records in
      match records with
      | [] => Ok []
      | _ =>
          rng ← default_rng seed;
          indices ←
            (if replace then Ok (rng_integers rng n (Z.to_nat count))
             else if Z.of_nat n <? count then
               Err (ValueError ("sample.count=" +:+ str_Z count +:+ " exceeds population size " +:+
                                str_Z (Z.of_nat n) +:+ " with replace=false"))
             else Ok (rng_choice rng n (Z.to_nat count)));
          let sampled := omap (fun i => records !! i) indices in
          Ok (imap (restamp (length sampled)) sampled)
      end
  | _ => Err (TypeError "gen.sample must be a dict")
  end.

(** ** Scalar generators *)
Definition field (d : dict) (k : string) : result pyfloat := py_float (dget d k).

Definition range_values (d : dict) : result (list pyval) :=
  start ← field d "start";
  stop ← field d "stop";
  step ← py_float (dget_or d "step" (PInt 1));
  if fzero step then Err (ValueError "range.step must be non-zero")
  else if fltb (fmul (fsub stop start) step) (FFin 0) then
    Err (ValueError ("range step direction is wrong: start=" +:+ py_str (PFloat start) +:+ " stop=" +:+
                     py_str (PFloat stop) +:+ " step=" +:+ py_str (PFloat step) +:+ " would never reach stop"))
  else
    q ← fdiv (fsub stop start) step;
    n ← math_ceil (fsub q (FFin _RANGE_STOP_TOL));
    Ok ((fun i => PFloat (fadd start (fmul (FFin (inject_Z (Z.of_nat i))) step))) <$> seq 0 (Z.to_nat n)).

Definition linspace_values (d : dict) : result (list pyval) :=
  start ← field d "start";
  stop ← field d "stop";
  num ← py_int (dget d "num");
  floats <$> np_linspace start stop num.

Definition triangle_values (d : dict) : result (list pyval) :=
  start ← field d "start";
  stop ← field d "stop";
  num ← py_int (dget d "num");
  if num <? 2 then Err (ValueError "triangle.num must be >= 2")
  else
    forward ← np_linspace start stop num;
    backward ← np_linspace stop start num;
    Ok (floats (forward ++ backward)).

Definition centered_triangle_values (d : dict) : result (list pyval) :=
  center ← field d "center";
  span ← field d "span";
  num ← py_int (dget d "num");
  direction ← py_int (dget_or d "dir" (PInt 1));
  if num <? 3 then Err (ValueError "centered_triangle.num must be >= 3")
  else if num mod 2 =? 0 then Err (ValueError "centered_triangle.num must be odd so the center is included")
  else if negb ((direction =? 1) || (direction =? -1)) then Err (ValueError "centered_triangle.dir must be 1 or -1")
  else
    half_span ← fdiv span (FFin 2);
    let upper := fadd center half_span in
    let lower := fsub center half_span in
    let first_edge := if direction =? 1 then upper else lower in
    let second_edge := if direction =? 1 then lower else upper in
    edge_to_edge ← np_linspace first_edge second_edge num;
    let center_index := Z.to_nat (num / 2) in
    Ok (floats (reverse (take (S center_index) edge_to_edge) ++ edge_to_edge ++ reverse (drop center_index edge_to_edge))).

Definition logspace_values (d : dict) : result (list pyval) :=
  start ← field d "start";
  stop ← field d "stop";
  num ← py_int (dget d "num");
  base ← py_float (dget_or d "base" (PFloat (FFin 10)));
  floats <$> np_logspace start stop num base.

Definition geomspace_values (d : dict) : result (list pyval) :=
  start ← field d "start";
  stop ← field d "stop";
  num ← py_int (dget d "num");
  floats <$> np_geomspace start stop num.

(** The generators that take fields, in the order they are looked for. *)
Definition generators : list (string * (dict -> result (list pyval))) :=
  [("range", range_values); ("linspace", linspace_values); ("triangle", triangle_values);
   ("centered_triangle", centered_triangle_values); ("logspace", logspace_values);
   ("geomspace", geomspace_values)].

Definition gen_values (gen_spec : dict) (env : Env) : result (list pyval) :=
  match list_find (fun g => dhas gen_spec (fst g) = true) generators with
  | Some (_, (kind, f)) =>
      params ← render_templates env (dget gen_spec kind);
      d ← _check_generator_fields kind params;
      f d
  | None =>
      if dhas gen_spec "values" then
        params ← render_templates env (dget gen_spec "values");
        match params with
        | PList values => Ok values
        | _ => Err (TypeError "gen.values must be a list")
        end
      else Err (ValueError ("gen spec must include one of " +:+
                            "range/linspace/triangle/centered_triangle/logspace/geomspace/values/scan2d"))
  end.

Definition offset_val (gen_spec : dict) (env : Env) : result (option pyfloat) :=
  match dget gen_spec "offset" with
  | PNone => Ok None
  | o => v ← render_templates env o; Some <$> py_float v
  end.

Definition _generate_core (gen_spec : dict) (env : Env) (serpentine_index : option Z) : result (list dict) :=
  if dhas gen_spec "scan2d" then
    if negb (length gen_spec =? 1)%nat then Err (ValueError "scan2d must be the only generator in its gen spec")
    else
      rendered ← render_templates env (dget gen_spec "scan2d");
      _generate_scan2d_from_spec rendered
  else
    _ ← validate_gen_keys gen_spec;
    offset ← offset_val gen_spec env;
    seed ← match dget gen_spec "seed" with
           | PNone => Ok None
           | o => v ← render_templates env o; opt_int v
           end;
    values ← gen_values gen_spec env;
    out ← _apply_modifiers values
            (mkModifiers offset (truthy (dget_or gen_spec "shuffle" (PBool false))) seed
               (truthy (dget_or gen_spec "serpentine" (PBool false))) serpentine_index);
    Ok (_wrap_scalar_records out).

Definition generate_from_gen (gen_spec : pyval) (env : Env) (serpentine_index : option Z) : result (list dict) :=
  match gen_spec with
  | PDict d =>
      match dget d "sample" with
      | PNone => _generate_core d env serpentine_index
      | sample =>
          records ← _generate_core (filter (fun kv => fst kv <> "sample") d) env serpentine_index;
          _apply_sample records sample env
      end
  | _ => Err (TypeError "gen spec must be a dict")
  end.
End ranges.

(** ** The points of a range *)
Lemma Qceiling_gt (i : Z) (q : Q) : (i < Qceiling q)%Z <-> (inject_Z i < q)%Q.
Proof.
  split.
  - intros H. destruct (Qlt_le_dec (inject_Z i) q) as [|Hle]; [done|]. apply Qceiling_resp_le in Hle.
    rewrite Qceiling_Z in Hle. lia.
  - intros H. pose proof (Qle_ceiling q) as Hc. rewrite Zlt_Qlt. lra.
Qed.

(** In steps, how far the stop is. *)
Lemma steps_to_stop (span s x : Q) : ~ s == 0 -> (0 <= span * s)%Q ->
  (x < span / s <-> x * Qabs s < Qabs span)%Q.
Proof.
  intros Hs Hd. assert (span == span / s * s)%Q as E by (field; done). set (k := (span / s)%Q) in *.
  assert (0 < Qabs s)%Q as Hp by (apply (Qabs_case s (fun y => 0 < y)%Q); intros; destruct (Q_dec s 0) as [[|]|]; lra || done).
  assert (0 <= k)%Q as Hk.
  { destruct (Qlt_le_dec k 0) as [Hn|]; [|done]. assert (0 < s * s)%Q by (destruct (Q_dec s 0) as [[|]|]; [nra|nra|done]).
    rewrite E in Hd. nra. }
  rewrite E, Qabs_Qmult, (Qabs_pos k Hk). split; [nra|]. intros H. destruct (Qlt_le_dec x k); [done|nra].
Qed.

Section range_theorems.
Context `{HR : !PyRepr}.

(** In exact arithmetic, a [range] generator refuses a step of zero and a
    step that leads away from the stop, and only those; otherwise its points
    are [start + i * step] for exactly the [i] that lie before the stop, the
    stop itself and what comes within the tolerance of it left out. *)
Theorem range_points d a b s :
  field d "start" = Ok (FFin a) -> field d "stop" = Ok (FFin b) ->
  py_float (dget_or d "step" (PInt 1)) = Ok (FFin s) ->
  match range_values d with
  | Err _ => (s == 0 \/ (b - a) * s < 0)%Q
  | Ok values =>
      ~ (s == 0)%Q /\ (0 <= (b - a) * s)%Q /\
      forall i, match values !! i with
                | Some v => ((inject_Z (Z.of_nat i) + _RANGE_STOP_TOL) * Qabs s < Qabs (b - a))%Q /\
                            exists q, v = PFloat (FFin q) /\ (q == a + inject_Z (Z.of_nat i) * s)%Q
                | None => (Qabs (b - a) <= (inject_Z (Z.of_nat i) + _RANGE_STOP_TOL) * Qabs s)%Q
                end
  end.
Proof.
  intros Ea Eb Es. unfold range_values. rewrite Ea, Eb, Es. cbn [mbind result_bind].
  destruct (fzero (FFin s)) eqn:Ez; [left; by apply Qeq_bool_eq|]. cbn in Ez. apply Qeq_bool_neq in Ez.
  assert (fdiv (fsub (FFin b) (FFin a)) (FFin s) = Ok (FFin (Qred (Qred (b + - a) / s)))) as Ed.
  { unfold fdiv. cbn [fzero]. destruct (Qeq_bool s 0) eqn:E; [|done]. by apply Qeq_bool_eq in E. }
  rewrite Ed. cbn [mbind result_bind fsub fadd fneg fmul fltb math_ceil float_to_int].
  assert (Qred (Qred (b + - a) * s) == (b - a) * s)%Q as Em by (rewrite !Qred_correct; ring).
  destruct (Qltb_spec (Qred (Qred (b + - a) * s)) 0) as [El|Hd]; [right; lra|]. rewrite Em in Hd.
  set (n := Qceiling _). split_and!; [done|done|]. intros i. rewrite list_lookup_fmap.
  assert ((Z.of_nat i < n)%Z <-> ((inject_Z (Z.of_nat i) + _RANGE_STOP_TOL) * Qabs s < Qabs (b - a))%Q) as Hn.
  { unfold n. rewrite Qceiling_gt, <- steps_to_stop by done. rewrite !Qred_correct.
    split; intros H; unfold Qminus in *; lra. }
  destruct (seq 0 (Z.to_nat n) !! i) as [j|] eqn:Ej; cbn.
  - apply lookup_seq in Ej as [-> Hi]. split; [apply Hn; lia|]. eexists. split; [done|]. rewrite !Qred_correct. done.
  - apply lookup_ge_None in Ej. rewrite length_seq in Ej. apply Qnot_lt_le. rewrite <- Hn. lia.
Qed.
End range_theorems.

(** ** The records a loop runs over *)
Section record_theorems.
Context `{HR : !PyRepr, HA : !PyArith, HE : !PyExpr, HN : !Spaces, HG : !Rng, HL : !RngLaws}.

Lemma imap_const_id {A} (l : list A) : imap (fun _ x => x) l = l.
Proof. apply list_eq. intros i. rewrite list_lookup_imap. by destruct (l !! i). Qed.

(** Each record has its position and their number. *)
Definition stamped (records : list dict) : Prop :=
  forall i r, records !! i = Some r -> dget r "index" = of_nat i /\ dget r "count" = of_nat (length records).

Lemma stamped_imap {A} (f : nat -> nat -> A -> dict) (l : list A) n :
  (forall n i x, dget (f n i x) "index" = of_nat i /\ dget (f n i x) "count" = of_nat n) ->
  n = length l -> stamped (imap (f n) l).
Proof.
  intros Hf -> i r. rewrite list_lookup_imap, length_imap. destruct (l !! i); [|done]. intros [= <-]. apply Hf.
Qed.

Lemma restamp_stamps n i r : dget (restamp n i r) "index" = of_nat i /\ dget (restamp n i r) "count" = of_nat n.
Proof. unfold restamp. by rewrite dget_set_ne, (dget_set_ne _ _ "index"), !dget_set_eq, dget_set_ne, dget_set_eq. Qed.

Lemma scan_stamped xs ys pattern order seed records :
  generate_scan2d_records xs ys pattern order seed = Ok records -> stamped records.
Proof.
  unfold generate_scan2d_records. destruct xs as [|x xs], ys as [|y ys]; try discriminate.
  destruct (validate_scan2d_pattern pattern); [|discriminate]. destruct (validate_scan2d_order order); [|discriminate].
  cbn [mbind result_bind]. destruct (scan_order _ _ _ _ _); [|discriminate]. intros [= <-].
  apply stamped_imap; [by intros n i [r c]|done].
Qed.

Lemma scan_spec_stamped raw records : _generate_scan2d_from_spec raw = Ok records -> stamped records.
Proof.
  unfold _generate_scan2d_from_spec. destruct raw; try discriminate.
  intros (pattern & _ & (order & _ & (seed & _ & H)%bind_Ok)%bind_Ok)%bind_Ok.
  do 2 (case_match; [discriminate|]). apply bind_Ok in H as ([xs ys] & _ & H). by apply scan_stamped in H.
Qed.

Lemma modified values m out :
  _apply_modifiers values m = Ok out ->
  exists shifted mixed, shift (md_offset m) values = Ok shifted /\ mixed ≡ₚ shifted /\
    (md_shuffle m = false -> mixed = shifted) /\
    out = match md_serpentine_index m with
          | Some i => if md_serpentine m && (i mod 2 =? 1) then reverse mixed else mixed
          | None => mixed
          end.
Proof.
  unfold _apply_modifiers. intros (shifted & Es & (mixed & Em & [= <-])%bind_Ok)%bind_Ok. exists shifted, mixed.
  destruct (md_shuffle m); [|injection Em as <-]; split_and!; try done. by apply shuffled_perm in Em.
Qed.

Lemma core_stamped d env k records : _generate_core d env k = Ok records -> stamped records.
Proof.
  unfold _generate_core. destruct (dhas d "scan2d"); [destruct (negb _); [discriminate|]|].
  - intros (rendered & _ & H)%bind_Ok. by apply scan_spec_stamped in H.
  - intros (? & _ & (? & _ & (? & _ & (? & _ & (out & _ & [= <-])%bind_Ok)%bind_Ok)%bind_Ok)%bind_Ok)%bind_Ok.
    by apply stamped_imap.
Qed.

(** What sampling draws: records of the population, distinct ones unless
    replacement is asked for. *)
Lemma sample_draws records spec env out :
  _apply_sample records spec env = Ok out ->
  exists sp indices, render_templates env spec = Ok (PDict sp) /\
    out = imap (restamp (length indices)) (omap (fun i => records !! i) indices) /\
    Forall (fun i => (i < length records)%nat) indices /\
    (truthy (dget_or sp "replace" (PBool false)) = false -> NoDup indices) /\
    length out = length indices /\
    (records <> [] -> py_int (dget sp "count") = Ok (Z.of_nat (length out))).
Proof.
  unfold _apply_sample. intros (v & -> & H)%bind_Ok. destruct v as [| | | | | |sp]; try discriminate.
  apply bind_Ok in H as (count & Ec & (seed & _ & H)%bind_Ok). exists sp.
  assert (py_int (dget sp "count") = Ok count /\ 1 <= count) as [Ei Hc].
  { unfold _coerce_int in Ec. destruct (py_int _) as [c|]; [|discriminate]. destruct (Z.ltb_spec c 1); [discriminate|].
    injection Ec as ->. by split. }
  destruct records as [|r0 records]; [exists []; injection H as <-; split_and!; try done; constructor|].
  set (l := r0 :: records) in *. apply bind_Ok in H as (g & _ & (indices & Hi & [= <-])%bind_Ok).
  assert (Forall (fun i => (i < length l)%nat) indices /\ length indices = Z.to_nat count /\
    (truthy (dget_or sp "replace" (PBool false)) = false -> NoDup indices)) as (Hlt & Hlen & Hnd).
  { destruct (truthy _).
    - injection Hi as <-. destruct (integers_below g (length l) (Z.to_nat count)); [cbn; lia|done].
    - destruct (Z.ltb_spec (Z.of_nat (length l)) count); [discriminate|]. injection Hi as <-.
      destruct (choice_distinct g (length l) (Z.to_nat count)) as (? & ? & ?); [lia|done]. }
  assert (length (omap (fun i => l !! i) indices) = length indices) as El.
  { clear -Hlt. induction Hlt as [|i ids Hi _ IH]; [done|]. cbn. destruct (lookup_lt_is_Some_2 l i Hi) as [x ->]. cbn. by rewrite IH. }
  exists indices. rewrite length_imap, El. split_and!; try done. intros _. rewrite Ei, Hlen. f_equal. lia.
Qed.

(** The records of a generator are numbered in the order the loop runs
    over them and each carries their number.  Without sampling, a scalar
    generator yields each of its values once, the offset added: in order
    when not shuffled, and turned round by a serpentine loop in its odd
    passes.  With sampling the records are drawn from those of the generator,
    as many as asked for and each at most once unless replacement is asked
    for. *)
Theorem generated_records d env k records :
  generate_from_gen (PDict d) env k = Ok records ->
  stamped records /\
  (dget d "sample" = PNone -> dhas d "scan2d" = false ->
   exists offset values shifted mixed, offset_val d env = Ok offset /\ gen_values d env = Ok values /\
     shift offset values = Ok shifted /\ mixed ≡ₚ shifted /\
     (truthy (dget_or d "shuffle" (PBool false)) = false -> mixed = shifted) /\
     (fun r => dget r "value") <$> records =
       match k with
       | Some i => if truthy (dget_or d "serpentine" (PBool false)) && (i mod 2 =? 1) then reverse mixed else mixed
       | None => mixed
       end) /\
  (dget d "sample" <> PNone ->
   exists population sp indices, _generate_core (filter (fun kv => fst kv <> "sample") d) env k = Ok population /\
     render_templates env (dget d "sample") = Ok (PDict sp) /\
     records = imap (restamp (length indices)) (omap (fun i => population !! i) indices) /\
     Forall (fun i => (i < length population)%nat) indices /\
     (truthy (dget_or sp "replace" (PBool false)) = false -> NoDup indices) /\
     (population <> [] -> py_int (dget sp "count") = Ok (Z.of_nat (length records)))).
Proof.
  cbn [generate_from_gen]. destruct (decide (dget d "sample" = PNone)) as [Es|Es].
  - rewrite Es. intros H. split_and!; [by apply core_stamped in H| |done]. intros _ Hs. unfold _generate_core in H. rewrite Hs in H.
    apply bind_Ok in H as (? & _ & (offset & Eo & (seed & _ & (values & Ev & (out & Em & [= <-])%bind_Ok)%bind_Ok)%bind_Ok)%bind_Ok).
    apply modified in Em as (shifted & mixed & ? & ? & ? & ->). exists offset, values, shifted, mixed. split_and!; try done.
    unfold _wrap_scalar_records. rewrite fmap_imap. apply imap_const_id.
  - intros H. assert (_generate_core (filter (fun kv => fst kv <> "sample") d) env k ≫=
      (fun population => _apply_sample population (dget d "sample") env) = Ok records) as H' by (by destruct (dget d "sample")).
    apply bind_Ok in H' as (population & Ep & Hs). apply sample_draws in Hs as (sp & indices & Er & -> & ? & ? & ? & ?).
    rewrite length_imap in *. split_and!; [by apply stamped_imap; [apply restamp_stamps|]|done|]. intros _.
    exists population, sp, indices. by rewrite ?length_imap.
Qed.
End record_theorems.

Module RangesDemo.
#[local] Existing Instance plain_repr.
#[local] Existing Instance ScanDemo.turning.
#[local] Existing Instance ScanDemo.turning_laws.
#[local] Instance arith : PyArith := {|
  float_pow _ _ := Err OverflowError; str_format _ _ := Err (TypeError "") |}.
#[local] Instance syntax : PyExpr := {| parse_expr _ := inl "invalid syntax"; get_close_matches _ _ := [] |}.
(** Spaces of one point *)
#[local] Instance spaces : Spaces := {|
  np_linspace a _ _ := Ok [a]; np_logspace a _ _ _ := Ok [a]; np_geomspace a _ _ := Ok [a] |}.

Definition tenths (stop : Q) : dict := [("start", PInt 0); ("stop", PFloat (FFin stop)); ("step", PFloat (FFin (1 # 10)))].
Definition values_of (r : result (list dict)) : list pyval :=
  match r with Ok l => (fun d => dget d "value") <$> l | Err _ => [] end.
Definition tenth (n : Z) : pyval := PFloat (FFin (Qred (n # 10))).

(** A stop a little above the third tenth does not make it a point. *)
Example stop_within_tolerance :
  range_values (tenths (3000000001 # 10000000000)) = Ok (tenth <$> [0; 1; 2]).
Proof. by vm_compute. Qed.

Example odd_pass_turned :
  values_of (generate_from_gen (PDict [("range", PDict (tenths (3 # 10))); ("serpentine", PBool true);
                                       ("offset", PInt 1)]) [] (Some 3)) = tenth <$> [12; 11; 10].
Proof. by vm_compute. Qed.

Lemma range_points_witness :
  exists values, range_values (tenths (3 # 10)) = Ok values /\ values !! 3%nat = None /\
    ((inject_Z 2 + _RANGE_STOP_TOL) * Qabs (1 # 10) < Qabs ((3 # 10) - 0))%Q.
Proof.
  pose proof (range_points (tenths (3 # 10)) 0 (3 # 10) (1 # 10) eq_refl eq_refl eq_refl) as H.
  destruct (range_values (tenths (3 # 10))) as [values|] eqn:E; [|discriminate E]. destruct H as (_ & _ & H).
  exists values. assert (values = tenth <$> [0; 1; 2]) as -> by (by injection E as <-). split_and!; [done|done|].
  apply (H 2%nat).
Defined.

Definition sampled : dict :=
  [("values", PList [PStr "a"; PStr "b"; PStr "c"]); ("sample", PDict [("count", PInt 2)])].

Lemma generated_records_witness :
  exists records (indices : list nat), generate_from_gen (PDict sampled) [] None = Ok records /\ stamped records /\
    length records = 2%nat /\ NoDup indices.
Proof.
  destruct (generate_from_gen (PDict sampled) [] None) as [records|] eqn:E; [|discriminate E].
  destruct (generated_records sampled [] None records E) as (Hst & _ & Hs).
  destruct Hs as (population & sp & indices & Ep & Er & Hr & _ & Hnd & _); [discriminate|].
  assert (sp = [("count", PInt 2)]) as -> by (by injection Er as <-).
  assert (length records = 2%nat) as Hl by (by injection E as <-).
  exists records, indices. split_and!; [done|done|done|by apply Hnd].
Defined.
End RangesDemo.
