(* ===== verification/RunRecords.v ===== *)
(** * What a run of the sequencer keeps

    The log of its events, the durations of its steps and the resolution of
    its variables: [sequencer/run_events.py], [sequencer/progress.py] and
    [sequencer/var_resolution.py]. *)
From Stdlib Require Import Lqa.
From S2P Require Import Prelude PyVal PyNum PyOps Expressions Conditions Responses ProcessBase.
#[local] Open Scope Z_scope.

(** * The event log of a run ([sequencer/run_events.py])

    A bounded list of what happened during a sequencer run; an event that
    repeats the last one is counted, not added. *)

Definition _STEP_FIELDS : list string := ["kind"; "summary"; "path"; "line"; "branch"].

Definition _step_ref (step : pyval) : option dict :=
  match step with
  | PDict d => Some ((fun k => (k, dget d k)) <$> _STEP_FIELDS)
  | _ => None
  end.

(** Severity, kind, message, path of the step, source *)
Definition event_key : Type := string * string * string * pyval * pyval.

#[export] Instance event_key_eq_dec : EqDecision event_key.
Proof. solve_decision. Defined.

Record run_event := mkEvent {
  ev_key : event_key;
  ev_step : option dict;
  ev_elapsed_s : Q;
  ev_last_elapsed_s : Q;
  ev_count : Z;
  ev_trigger : pyval
}.
Definition ev_severity (e : run_event) : string := let '(sev, _, _, _, _) := ev_key e in sev.

#[export] Instance run_event_eta : Eta run_event := fun e =>
  mkEvent (ev_key e) (ev_step e) (ev_elapsed_s e) (ev_last_elapsed_s e) (ev_count e) (ev_trigger e).

(** The newest event is the last of the list. *)
Record RunEventLog := mkLog {
  lg_max_events : Z;
  lg_events : list run_event;
  lg_dropped : Z;
  lg_seq : Z
}.

#[export] Instance RunEventLog_eta : Eta RunEventLog := fun l =>
  mkLog (lg_max_events l) (lg_events l) (lg_dropped l) (lg_seq l).

Definition new_log (max_events : Z) : RunEventLog := mkLog (Z.max 1 max_events) [] 0 0.

Definition log_reset (l : RunEventLog) : RunEventLog :=
  l <| lg_events := [] |> <| lg_dropped := 0 |> <| lg_seq := lg_seq l + 1 |>.

Definition ref_path (step_ref : option dict) : pyval := dget (default [] step_ref) "path".

Definition log_record (severity kind message : string) (elapsed_s : Q) (step source trigger : pyval)
    (l : RunEventLog) : RunEventLog :=
  let step_ref := _step_ref step in
  let key := (severity, kind, message, ref_path step_ref, source) in
  let l := l <| lg_seq := lg_seq l + 1 |> in
  match last (lg_events l) with
  | Some e =>
      if decide (ev_key e = key) then
        l <| lg_events := take (pred (length (lg_events l))) (lg_events l) ++
               [e <| ev_count := ev_count e + 1 |> <| ev_last_elapsed_s := elapsed_s |>] |>
      else
        let events := lg_events l ++ [mkEvent key step_ref elapsed_s elapsed_s 1 trigger] in
        if lg_max_events l <? Z.of_nat (length events)
        then l <| lg_events := drop 1 events |> <| lg_dropped := lg_dropped l + 1 |>
        else l <| lg_events := events |>
  | None => l <| lg_events := [mkEvent key step_ref elapsed_s elapsed_s 1 trigger] |>
  end.

Definition event_payload (e : run_event) : pyval :=
  let '(severity, kind, message, _, source) := ev_key e in
  PDict ([("severity", PStr severity); ("kind", PStr kind); ("message", PStr message); ("source", source);
          ("step", from_option PDict PNone (ev_step e)); ("elapsed_s", PFloat (FFin (ev_elapsed_s e)));
          ("last_elapsed_s", PFloat (FFin (ev_last_elapsed_s e))); ("count", PInt (ev_count e))] ++
         if is_none (ev_trigger e) then [] else [("trigger", ev_trigger e)]).

Definition log_snapshot (l : RunEventLog) : dict :=
  [("seq", PInt (lg_seq l)); ("dropped", PInt (lg_dropped l)); ("events", PList (event_payload <$> lg_events l))].

Definition log_summary (latest : Z) (l : RunEventLog) : dict :=
  let events := lg_events l in
  let count p := Z.of_nat (length (filter (fun e => p (ev_severity e) = true) events)) in
  [("seq", PInt (lg_seq l)); ("count", PInt (Z.of_nat (length events))); ("dropped", PInt (lg_dropped l));
   ("errors", PInt (count (fun s => String.eqb s "error" || String.eqb s "critical")));
   ("warnings", PInt (count (fun s => String.eqb s "warning")));
   ("latest", PList (if 0 <? latest
                     then event_payload <$> drop (length events - Z.to_nat latest) events else []))].

(** ** What the log keeps *)

(** A call of [record]. *)
Record recorded := mkRecorded {
  rc_severity : string; rc_kind : string; rc_message : string; rc_elapsed_s : Q;
  rc_step : pyval; rc_source : pyval; rc_trigger : pyval
}.
Definition rc_key (r : recorded) : event_key :=
  (rc_severity r, rc_kind r, rc_message r, ref_path (_step_ref (rc_step r)), rc_source r).
Definition record_all (l : RunEventLog) (rs : list recorded) : RunEventLog :=
  foldl (fun l r => log_record (rc_severity r) (rc_kind r) (rc_message r) (rc_elapsed_s r)
                      (rc_step r) (rc_source r) (rc_trigger r) l) l rs.

(** The reference: the whole history, with neighbours of one key as one event. *)
Definition add_event (r : recorded) (events : list run_event) : list run_event :=
  let fresh := mkEvent (rc_key r) (_step_ref (rc_step r)) (rc_elapsed_s r) (rc_elapsed_s r) 1 (rc_trigger r) in
  match last events with
  | Some e => if decide (ev_key e = rc_key r)
              then take (pred (length events)) events ++
                   [e <| ev_count := ev_count e + 1 |> <| ev_last_elapsed_s := rc_elapsed_s r |>]
              else events ++ [fresh]
  | None => events ++ [fresh]
  end.
Definition history (rs : list recorded) : list run_event := foldl (fun es r => add_event r es) [] rs.

(** The log is the end of a history, as much of it as fits. *)
Definition log_of (max : Z) (h : list run_event) (l : RunEventLog) : Prop :=
  lg_max_events l = max /\ Z.of_nat (length (lg_events l)) <= max /\
  exists old, h = old ++ lg_events l /\ lg_dropped l = Z.of_nat (length old) /\
    (old = [] \/ Z.of_nat (length (lg_events l)) = max).

Lemma add_event_app r old e events : last events = Some e -> add_event r (old ++ events) = old ++ add_event r events.
Proof.
  intros (k & ->)%last_Some. unfold add_event. rewrite app_assoc, !last_snoc, !length_app. cbn.
  rewrite !Nat.add_1_r. cbn. rewrite <- length_app, !take_app_length. case_decide; by rewrite <- !app_assoc.
Qed.

Lemma length_add_event r events :
  length (add_event r events) = length events \/ length (add_event r events) = S (length events).
Proof.
  unfold add_event. destruct (last events) as [e|] eqn:El; [|right; rewrite length_app; cbn; lia].
  apply last_Some in El as [k ->]. case_decide; [left|right]; rewrite ?length_app, ?length_take, ?length_app; cbn; lia.
Qed.

Lemma log_record_of max h l r :
  1 <= max -> log_of max h l ->
  log_of max (add_event r h)
    (log_record (rc_severity r) (rc_kind r) (rc_message r) (rc_elapsed_s r) (rc_step r) (rc_source r) (rc_trigger r) l).
Proof.
  intros Hmax (Em & Hle & old & -> & Ed & Hfull).
  set (l' := log_record _ _ _ _ _ _ _ l).
  destruct (last (lg_events l)) as [e|] eqn:El.
  - rewrite (add_event_app r old e) by done.
    assert (l' = let es := add_event r (lg_events l) in
      if max <? Z.of_nat (length es)
      then l <| lg_seq := lg_seq l + 1 |> <| lg_events := drop 1 es |> <| lg_dropped := lg_dropped l + 1 |>
      else l <| lg_seq := lg_seq l + 1 |> <| lg_events := es |>) as ->.
    { unfold l', log_record, add_event. fold (rc_key r). cbn. rewrite El, Em. case_decide; [|done]. cbn.
      rewrite (proj2 (Z.ltb_ge _ _)); [done|]. apply last_Some in El as [k Ek].
      rewrite Ek, !length_app, length_take in *. rewrite length_app. cbn in *. lia. }
    destruct (length_add_event r (lg_events l)) as [Hl|Hl].
    + cbv zeta. rewrite (proj2 (Z.ltb_ge _ _)) by lia. split_and!; cbn; [done|lia|]. exists old. rewrite Hl. split_and!; done.
    + cbv zeta. destruct (Z.ltb_spec max (Z.of_nat (length (add_event r (lg_events l))))) as [Hgt|].
      * destruct (add_event r (lg_events l)) as [|x es] eqn:Ex; [cbn in Hgt; lia|]. cbn [length] in *.
        split_and!; cbn; [done|rewrite drop_0; lia|]. exists (old ++ [x]). rewrite drop_0, <- app_assoc, length_app. cbn.
        split_and!; [done|lia|right; lia].
      * split_and!; cbn; [done|lia|]. exists old. split_and!; [done|done|]. destruct Hfull as [|Hfull]; [by left|lia].
  - apply last_None in El. rewrite El, app_nil_r in *. cbn [length] in *. destruct Hfull as [->|]; [|lia].
    assert (l' = l <| lg_seq := lg_seq l + 1 |> <| lg_events := add_event r [] |>) as ->
      by (unfold l', log_record; cbn; by rewrite El).
    split_and!; cbn; [done|lia|]. exists []. split_and!; [done|done|by left].
Qed.

Lemma record_all_of max h l rs :
  1 <= max -> log_of max h l -> log_of max (foldl (fun es r => add_event r es) h rs) (record_all l rs).
Proof.
  intros Hmax. revert h l. induction rs as [|r rs IH]; intros h l Hl; [done|]. cbn. by apply IH, log_record_of.
Qed.

(** The event log of a run is the end of its history, in which an event
    that repeats the one before is counted: the log holds as many of the
    newest as its bound allows, never more, and the number it reports as
    dropped is that of the older ones. *)
Theorem event_log_keeps_newest max_events rs :
  let l := record_all (new_log max_events) rs in
  Z.of_nat (length (lg_events l)) <= Z.max 1 max_events /\
  exists old, history rs = old ++ lg_events l /\ lg_dropped l = Z.of_nat (length old) /\
    (old = [] \/ Z.of_nat (length (lg_events l)) = Z.max 1 max_events).
Proof.
  cbv zeta. apply (record_all_of (Z.max 1 max_events) [] (new_log max_events) rs); [lia|].
  split_and!; cbn; [done|lia|]. exists []. split_and!; [done|done|by left].
Qed.

Module RunEventsDemo.
Definition ev (kind : string) (t : Q) : recorded := mkRecorded "info" kind "m" t PNone PNone PNone.
Example repeats_counted :
  (fun e => (ev_count e, ev_last_elapsed_s e)) <$>
    lg_events (record_all (new_log 2) [ev "pause" 1; ev "resume" 2; ev "resume" 3; ev "stop" 4]) = [(2, 3%Q); (1, 4%Q)].
Proof. by vm_compute. Qed.
End RunEventsDemo.

(** * Step durations ([sequencer/progress.py])

    The running means behind the sequencer's estimate of the time left.  A
    step object is known by its identity, a number. *)

Definition _INSTANT_KINDS : list string := ["assign"; "for"; "repeat"; "if"; "while"; "atomic"; "try"; "use"].
Definition _UNREPRESENTATIVE_KINDS : list string := ["sleep"; "pause"].

Record _RunningMean := mkMean { rm_count : Z; rm_total_s : Q }.
Definition no_mean : _RunningMean := mkMean 0 0.
Definition mean_add (d : Q) (m : _RunningMean) : _RunningMean := mkMean (rm_count m + 1) (rm_total_s m + d).
Definition mean_s (m : _RunningMean) : Q := rm_total_s m / inject_Z (rm_count m).

Record StepDurationStats := mkStats {
  sd_by_step : list (Z * _RunningMean);
  sd_by_kind : list (string * _RunningMean);
  sd_representative : _RunningMean;
  sd_overall : _RunningMean;
  sd_sleep_overhead : _RunningMean
}.
#[export] Instance StepDurationStats_eta : Eta StepDurationStats := fun s =>
  mkStats (sd_by_step s) (sd_by_kind s) (sd_representative s) (sd_overall s) (sd_sleep_overhead s).

Definition stats_clear : StepDurationStats := mkStats [] [] no_mean no_mean no_mean.

Definition record_sleep_overhead (overhead_s : Q) (s : StepDurationStats) : StepDurationStats :=
  s <| sd_sleep_overhead := mean_add (fmax 0 overhead_s) (sd_sleep_overhead s) |>.

Definition sleep_overhead_s (s : StepDurationStats) : Q :=
  if rm_count (sd_sleep_overhead s) =? 0 then 0 else mean_s (sd_sleep_overhead s).

Definition mean_at {K} `{EqDecision K} (k : K) (d : Q) (l : list (K * _RunningMean)) : list (K * _RunningMean) :=
  od_set l k (mean_add d (default no_mean (od_get l k))).

Definition stats_record (step : Z) (kind : string) (duration_s : Q) (s : StepDurationStats) : StepDurationStats :=
  let d := fmax 0 duration_s in
  let s := s <| sd_by_step := mean_at step d (sd_by_step s) |> <| sd_by_kind := mean_at kind d (sd_by_kind s) |> in
  let s := if bool_decide (kind ∈ _UNREPRESENTATIVE_KINDS) then s
           else s <| sd_representative := mean_add d (sd_representative s) |> in
  s <| sd_overall := mean_add d (sd_overall s) |>.

Definition has_measurements (s : StepDurationStats) : bool := 0 <? rm_count (sd_overall s).

Definition measured (step : Z) (s : StepDurationStats) : option (Z * Q) :=
  match od_get (sd_by_step s) step with
  | Some m => if rm_count m =? 0 then None else Some (rm_count m, mean_s m)
  | None => None
  end.

Definition run_counts (s : StepDurationStats) : list (Z * Z) := prod_map id rm_count <$> sd_by_step s.

Definition estimate (step : Z) (kind : string) (s : StepDurationStats) : option Q :=
  match od_get (sd_by_step s) step with
  | Some m => Some (mean_s m)
  | None =>
      match od_get (sd_by_kind s) kind with
      | Some m => Some (mean_s m)
      | None =>
          if bool_decide (kind ∈ _INSTANT_KINDS) then Some 0%Q
          else if negb (rm_count (sd_representative s) =? 0) then Some (mean_s (sd_representative s))
          else if negb (rm_count (sd_overall s) =? 0) then Some (mean_s (sd_overall s))
          else None
      end
  end.

(** ** The means of steps and of kinds count the same executions *)
Definition counts {K} (l : list (K * _RunningMean)) : Z := foldr (fun km n => rm_count (snd km) + n) 0 l.
Definition totals {K} (l : list (K * _RunningMean)) : Q := foldr (fun km q => rm_total_s (snd km) + q)%Q 0%Q l.

(** Every execution is counted once per step, once per kind and once overall,
    and a mean that exists is one of executions. *)
Definition stats_ok (s : StepDurationStats) : Prop :=
  counts (sd_by_step s) = rm_count (sd_overall s) /\ (totals (sd_by_step s) == rm_total_s (sd_overall s))%Q /\
  counts (sd_by_kind s) = rm_count (sd_overall s) /\ (totals (sd_by_kind s) == rm_total_s (sd_overall s))%Q /\
  Forall (fun km => 0 < rm_count (snd km)) (sd_by_step s) /\ Forall (fun km => 0 < rm_count (snd km)) (sd_by_kind s).

Lemma mean_at_sums {K} `{EqDecision K} (k : K) d (l : list (K * _RunningMean)) :
  counts (mean_at k d l) = counts l + 1 /\ (totals (mean_at k d l) == totals l + d)%Q /\
  (Forall (fun km => 0 < rm_count (snd km)) l -> Forall (fun km => 0 < rm_count (snd km)) (mean_at k d l)).
Proof.
  unfold mean_at. induction l as [|[k' m] l (IHc & IHt & IHp)]; [split_and!; cbn; [done|lra|by repeat constructor]|].
  cbn [od_set od_get]. destruct (decide (k' = k)) as [->|Hne].
  - cbn. split_and!; [lia|lra|]. intros [Hm Hl]%Forall_cons. constructor; [cbn in *; lia|done].
  - unfold counts, totals in *. cbn [foldr snd]. rewrite IHc, IHt. split_and!; [lia|lra|]. intros [Hm Hl]%Forall_cons. constructor; [done|auto].
Qed.

Lemma stats_record_ok step kind d s : stats_ok s -> stats_ok (stats_record step kind d s).
Proof.
  intros (Hc & Ht & Hkc & Hkt & Hp & Hkp). unfold stats_record. set (e := fmax 0 d).
  destruct (mean_at_sums step e (sd_by_step s)) as (H1 & H2 & H3).
  destruct (mean_at_sums kind e (sd_by_kind s)) as (H4 & H5 & H6).
  unfold stats_ok. case_match; cbn -[counts totals]; rewrite H1, H2, H4, H5; split_and!; first [lia|lra|solve [auto]].
Qed.

(** * The variables of a sequence ([sequencer/var_resolution.py])

    Variables may be templates over one another; they are rendered in passes
    until nothing changes or a bound on the passes is reached. *)

Section vars.
Context `{HR : !PyRepr, HA : !PyArith, HE : !PyExpr}.

Fixpoint contains_template (v : pyval) : bool :=
  match v with
  | PStr s => has_template s
  | PList l => existsb contains_template l
  | PDict d => existsb (fun kv => contains_template (snd kv)) d
  | _ => false
  end.

Definition _vars_env (resolved : dict) : Env := od_set resolved "vars" (PDict resolved).

(** One variable of a pass: rendered in the environment of the start of the
    pass; a variable that cannot be rendered stays as it is. *)
Definition resolve_var (env : Env) (acc : dict * bool) (kv : string * pyval) : dict * bool :=
  match render_templates env (snd kv) with
  | Ok rendered => if py_eqb rendered (snd kv) then acc else (od_set (fst acc) (fst kv) rendered, true)
  | Err _ => acc
  end.

Definition resolve_pass (resolved : dict) : dict * bool :=
  foldl (resolve_var (_vars_env resolved)) (resolved, false) resolved.

Fixpoint resolve_passes (n : nat) (resolved : dict) : dict :=
  match n with
  | O => resolved
  | S n => let '(next, changed) := resolve_pass resolved in if changed then resolve_passes n next else next
  end.

Definition max_passes (vars : dict) : nat := Nat.max 4 (length vars * 4).

Definition resolve_vars (raw_vars : dict) : dict :=
  match raw_vars with
  | [] => []
  | _ => resolve_passes (max_passes raw_vars) raw_vars
  end.

(** Names read while running, and errors *)
Definition unresolved_var (resolved : dict) (acc : list (string * pyval) * dict) (kv : string * pyval)
    : list (string * pyval) * dict :=
  let '(runtime, errors) := acc in
  let '(key, value) := kv in
  if negb (contains_template value) then acc
  else
    match render_templates (_vars_env resolved) value with
    | Err (UnknownNameError m name) =>
        if dhas resolved name then (runtime, od_set errors key (PStr m))
        else (od_set runtime key (PList [PStr name]), errors)
    | Err e => (runtime, od_set errors key (PStr (exc_str e)))
    | Ok rendered =>
        if contains_template rendered
        then (runtime, od_set errors key
                (PStr (key +:+ " can't be resolved: it refers back to itself through other vars")))
        else acc
    end.

Definition unresolved_vars (resolved : dict) : list (string * pyval) * dict :=
  foldl (unresolved_var resolved) ([], []) resolved.

Fixpoint json_safe (v : pyval) : pyval :=
  match v with
  | PFloat (FFin _) | PNone | PBool _ | PInt _ | PStr _ => v
  | PFloat f => PStr (str_float f)
  | PDict d => PDict (prod_map id json_safe <$> d)
  | PList l => PList (json_safe <$> l)
  end.

Definition evaluate_one (env : Env) (out : dict) (e : pyval) : dict :=
  match e with
  | PStr text =>
      if dhas out text then out
      else od_set out text
        (PDict match render_templates env (PStr text) with
               | Ok v => [("ok", PBool true); ("value", json_safe v)]
               | Err (UnknownNameError _ name) =>
                   [("ok", PBool false); ("runtime", PBool true); ("names", PList [PStr name])]
               | Err e => [("ok", PBool false); ("error", PStr (exc_str e))]
               end)
  | _ => out
  end.

Definition evaluate_expressions (expressions : list pyval) (resolved_vars : dict) : dict :=
  foldl (evaluate_one (_vars_env resolved_vars)) [] expressions.

(** ** What the passes leave *)

(** Nothing of it renders to something else. *)
Definition settled (resolved : dict) : Prop :=
  forall k v w, (k, v) ∈ resolved -> render_templates (_vars_env resolved) v = Ok w -> py_eqb w v = true.

Lemma resolve_fold_keys env l acc :
  (forall k, k ∈ od_keys l -> k ∈ od_keys (fst acc)) ->
  od_keys (fst (foldl (resolve_var env) acc l)) = od_keys (fst acc).
Proof.
  revert acc. induction l as [|[k v] l IH]; intros acc Hk; [done|]. cbn [foldl].
  assert (od_keys (fst (resolve_var env acc (k, v))) = od_keys (fst acc)) as E.
  { unfold resolve_var. cbn [fst snd]. destruct (render_templates env v) as [w|]; [|done]. destruct (py_eqb w v); [done|]. cbn [fst].
    apply od_keys_set_old, Hk. by left. }
  rewrite IH, E; [done|]. intros k' Hk'. rewrite E. apply Hk. by right.
Qed.

(** A pass that changes nothing is the end. *)
Lemma resolve_fold_unchanged env l acc :
  snd (foldl (resolve_var env) acc l) = false ->
  foldl (resolve_var env) acc l = acc /\ snd acc = false /\
  Forall (fun kv => forall w, render_templates env (snd kv) = Ok w -> py_eqb w (snd kv) = true) l.
Proof.
  revert acc. induction l as [|[k v] l IH]; intros acc H; [done|]. cbn [foldl] in *.
  destruct (IH _ H) as (E & Hs & Hl). unfold resolve_var in *. cbn [fst snd] in *.
  destruct (render_templates env v) as [w|] eqn:Er.
  - destruct (py_eqb w v) eqn:Eq; [|done]. split_and!; [done|done|]. constructor; [|done]. cbn [snd]. rewrite Er. by intros w' [= <-].
  - split_and!; [done|done|]. constructor; [|done]. cbn [snd]. by rewrite Er.
Qed.

Lemma resolve_passes_settle n vars :
  settled (resolve_passes n vars) \/ snd (resolve_pass (resolve_passes n vars)) = true.
Proof.
  revert vars. induction n as [|n IH]; intros vars; cbn [resolve_passes].
  - destruct (snd (resolve_pass vars)) eqn:E; [by right|left].
    destruct (resolve_fold_unchanged (_vars_env vars) vars (vars, false) E) as (_ & _ & H).
    rewrite Forall_forall in H. intros k v w Hkv. exact (H (k, v) Hkv w).
  - destruct (resolve_pass vars) as [next changed] eqn:E. destruct changed; [apply IH|]. left.
    pose proof (resolve_fold_unchanged (_vars_env vars) vars (vars, false)) as H. fold (resolve_pass vars) in H.
    rewrite E in H. destruct (H eq_refl) as ([= ->] & _ & Hl). rewrite Forall_forall in Hl.
    intros k v w Hkv. exact (Hl (k, v) Hkv w).
Qed.

Lemma resolve_passes_keys n vars : od_keys (resolve_passes n vars) = od_keys vars.
Proof.
  revert vars. induction n as [|n IH]; intros vars; [done|]. cbn [resolve_passes].
  assert (od_keys (fst (resolve_pass vars)) = od_keys vars) as E
    by exact (resolve_fold_keys (_vars_env vars) vars (vars, false) (fun _ H => H)).
  destruct (resolve_pass vars) as [next [|]]; cbn [fst] in E; [by rewrite IH|done].
Qed.

(** Resolving the variables of a sequence keeps their names and their
    order, and ends in at most four passes per variable (four at least):
    either no variable renders to anything else any more, or the last pass
    still changed something, as variables that refer to one another in a
    circle do. *)
Theorem resolve_vars_settles vars :
  od_keys (resolve_vars vars) = od_keys vars /\
  (settled (resolve_vars vars) \/ snd (resolve_pass (resolve_vars vars)) = true).
Proof.
  unfold resolve_vars. destruct vars as [|kv vars]; [split; [done|left; by intros k v w Hk%elem_of_nil]|].
  split; [apply resolve_passes_keys|apply resolve_passes_settle].
Qed.
End vars.
