(* ===== verification/AdaptiveController.v ===== *)
(** * The controller of an adaptive step ([adaptive/controller.py])

    [adaptive.adaptive_grid_1d]: its configuration, the points it suggests and
    what it learns from a trial.  The learner itself belongs to the package
    [adaptive], which is a parameter: a learner lives in the world and is named
    by a token. *)
From S2P Require Import Prelude PyVal PyNum PyOps Expressions Conditions Responses ProcessBase.
#[local] Open Scope Z_scope.

(** A point of a learner, [x] or the tuple [(seed, x)], and what [ask] returns:
    a pair of a list and something else, a list, or a point. *)
Inductive candidate := Point (x : pyval) | SeedPoint (seed x : pyval).
Inductive asked := AskedPair (points : list candidate) | AskedList (points : list candidate) | AskedOne (c : candidate).

Record AdaptivePackage {W : Type} := mkPackage {
  pk_curvature : option (dict -> W -> result Z * W);      (* [learner.learner1D.curvature_loss_function] *)
  pk_takes_loss : bool -> bool;                           (* [loss_per_interval] is a parameter of the class *)
  pk_learner : bool -> pyfloat * pyfloat -> option Z -> dict -> W -> result Z * W;
  pk_ask : Z -> W -> result asked * W;                    (* [ask(1, tell_pending=False)] *)
  pk_tell : Z -> candidate -> pyfloat -> W -> result unit * W;
  pk_loss : option (Z -> W -> result pyval * W)           (* [loss()], where it is callable *)
}.
Arguments AdaptivePackage : clear implicits.

Record adaptive_controller := mkController {
  ct_param_name : string;
  ct_param_spec : dict;
  ct_bounds : pyfloat * pyfloat;
  ct_repeats : Z;
  ct_learner_kind : string;
  ct_uses_average : bool;
  ct_average_kwargs : dict;
  ct_loss_kind : string;
  ct_loss_params : dict;
  ct_min_loss : option pyfloat;
  ct_trial_index : Z;
  ct_last_loss : option pyfloat;
  ct_converged : bool;
  ct_stop_reason : option string;
  ct_learner : Z
}.
#[export] Instance adaptive_controller_eta : Eta adaptive_controller := fun c =>
  mkController (ct_param_name c) (ct_param_spec c) (ct_bounds c) (ct_repeats c) (ct_learner_kind c) (ct_uses_average c)
    (ct_average_kwargs c) (ct_loss_kind c) (ct_loss_params c) (ct_min_loss c) (ct_trial_index c) (ct_last_loss c)
    (ct_converged c) (ct_stop_reason c) (ct_learner c).

(** [isinstance(v, (str, bytes, bytearray, int, float))] *)
Definition number_or_text (v : pyval) : bool :=
  match v with PBool _ | PInt _ | PFloat _ | PStr _ => true | _ => false end.

(** [float(v)] of such a value *)
Definition numeric (v : pyval) : result pyfloat := if number_or_text v then py_float v else type_error.

(** [d.get(k) or {}] where only a dict will do *)
Definition sub_dict (d : dict) (k : string) : option dict :=
  match py_or (dget d k) (PDict []) with PDict x => Some x | _ => None end.

Section config.
Context `{HR : !PyRepr}.

(** [str(d.get(k, "") or "").strip()] *)
Definition text_field (d : dict) (k : string) : string := strip (py_str (py_or (dget_or d k (PStr "")) (PStr ""))).

Definition _parse_learner_kind (config : dict) (repeats : Z) : result string :=
  match dget config "learner_kind" with
  | PNone => Ok (if 1 <? repeats then "average_learner1d" else "learner1d")
  | raw =>
      let kind := lower (strip (py_str raw)) in
      if String.eqb kind "learner1d" || String.eqb kind "average_learner1d" then Ok kind
      else Err (ValueError "adaptive.controller.config.learner_kind must be 'learner1d' or 'average_learner1d'")
  end.

Definition sample_count (config : dict) (name : string) (default : Z) : result Z :=
  match od_get config name with
  | None => Ok default
  | Some v =>
      let message := "adaptive.controller.config." +:+ name +:+ " must be a positive integer" in
      match py_int v with
      | Err _ => Err (TypeError message)
      | Ok n => if n <? 1 then Err (ValueError message) else Ok n
      end
  end.

Fixpoint float_kwargs (config : dict) (names : list string) (params : dict) : result dict :=
  match names with
  | [] => Ok params
  | name :: rest =>
      match od_get config name with
      | None => float_kwargs config rest params
      | Some v =>
          let message := "adaptive.controller.config." +:+ name +:+ " must be finite numeric" in
          match py_float v with
          | Err _ => Err (TypeError message)
          | Ok (FFin q) => float_kwargs config rest (od_set params name (PFloat (FFin q)))
          | Ok _ => Err (ValueError message)
          end
      end
  end.

Definition _parse_average_kwargs (config : dict) (repeats : Z) : result dict :=
  if repeats <=? 1 then Ok []
  else
    min_samples ← sample_count config "min_samples" repeats;
    max_samples ← sample_count config "max_samples" repeats;
    params ← float_kwargs config ["delta"; "alpha"; "neighbor_sampling"; "min_error"]
               [("min_samples", PInt min_samples); ("max_samples", PInt max_samples)];
    if max_samples <? min_samples then Err (ValueError "adaptive.controller.config.max_samples must be >= min_samples")
    else Ok params.

Definition _parse_min_loss (config : dict) : result (option pyfloat) :=
  match dget config "min_loss" with
  | PNone => Ok None
  | raw => match py_float raw with
           | Err _ => Err (TypeError "adaptive.controller.config.min_loss must be numeric")
           | Ok v => if fltb v (FFin 0) then Err (ValueError "adaptive.controller.config.min_loss must be >= 0")
                     else Ok (Some v)
           end
  end.

Fixpoint curvature_params (raw : dict) (names : list string) (params : dict) : result dict :=
  match names with
  | [] => Ok params
  | name :: rest =>
      match od_get raw name with
      | None => curvature_params raw rest params
      | Some v =>
          let field := "adaptive.controller.config.loss.params." +:+ name in
          match py_float v with
          | Err _ => Err (TypeError (field +:+ " must be numeric"))
          | Ok x => if fltb x (FFin 0) then Err (ValueError (field +:+ " must be >= 0"))
                    else curvature_params raw rest (od_set params name (PFloat x))
          end
      end
  end.

Definition _parse_loss_config (config : dict) : result (string * dict) :=
  match dget config "loss" with
  | PNone => Ok ("curvature", [])
  | PDict raw =>
      let kind := lower (strip (py_str (py_or (dget_or raw "kind" (PStr "curvature")) (PStr "curvature")))) in
      if negb (String.eqb kind "default" || String.eqb kind "curvature") then
        Err (ValueError ("unsupported adaptive.controller.config.loss.kind " +:+ repr_str kind))
      else
        match sub_dict raw "params" with
        | None => Err (TypeError "adaptive.controller.config.loss.params must be a dict")
        | Some params_raw =>
            if String.eqb kind "curvature" then
              params ← curvature_params params_raw ["area_factor"; "euclid_factor"; "horizontal_factor"] [];
              Ok (kind, params)
            else match params_raw with
                 | [] => Ok (kind, [])
                 | _ => Err (ValueError "adaptive.controller.config.loss.params is only supported for curvature loss in v1")
                 end
        end
  | _ => Err (TypeError "adaptive.controller.config.loss must be a dict")
  end.

(** What [__init__] learns from the specification, before it builds the
    learner: the controller lacks only that. *)
Definition controller_settings (controller_spec space : dict) (repeats : Z) : result (Z -> adaptive_controller) :=
  match sub_dict controller_spec "config" with
  | None => Err (TypeError "adaptive.controller.config must be a dict")
  | Some config =>
      match space with
      | [(name, PDict spec)] =>
          let param_type := lower (text_field spec "type") in
          if negb (String.eqb param_type "float" || String.eqb param_type "int") then
            Err (ValueError "adaptive.adaptive_grid_1d requires a numeric space parameter (float or int)")
          else
            match (lo ← numeric (dget spec "min"); up ← numeric (dget spec "max"); Ok (lo, up)) with
            | Err _ => Err (TypeError "adaptive.adaptive_grid_1d requires numeric min/max bounds")
            | Ok (lo, up) =>
                if fleb up lo then Err (ValueError "adaptive.adaptive_grid_1d requires max > min")
                else
                  let repeats := Z.max 1 repeats in
                  kind ← _parse_learner_kind config repeats;
                  kwargs ← _parse_average_kwargs config repeats;
                  '(loss_kind, loss_params) ← _parse_loss_config config;
                  min_loss ← _parse_min_loss config;
                  Ok (mkController name spec (lo, up) repeats kind (String.eqb kind "average_learner1d") kwargs
                        loss_kind loss_params min_loss 0 None false None)
            end
      | [_] => Err (TypeError "adaptive.adaptive_grid_1d parameter spec must be a dict")
      | _ => Err (ValueError "adaptive.adaptive_grid_1d requires exactly one space parameter")
      end
  end.
End config.

Section controller.
Context `{HR : !PyRepr} {W : Type} (package : option (AdaptivePackage W)).
#[local] Abbreviation M := (pyM (adaptive_controller * W)).

(** ** The learner *)
Definition _build_loss_per_interval (pk : AdaptivePackage W) (kind : string) (params : dict) : pyM W (option Z) := fun w =>
  if String.eqb kind "default" then (Ok None, w)
  else
    match pk_curvature pk with
    | None => (Err (RuntimeError "adaptive package does not expose learner.learner1D.curvature_loss_function"), w)
    | Some factory =>
        match factory params w with
        | (Ok f, w) => (Ok (Some f), w)
        | (Err _, w) => (Err (RuntimeError "failed to construct adaptive curvature loss function"), w)
        end
    end.

Definition _construct_learner (pk : AdaptivePackage W) (average : bool) (bounds : pyfloat * pyfloat) (loss : option Z)
    (kwargs : dict) : pyM W Z :=
  pk_learner pk average bounds (if pk_takes_loss pk average then loss else None) kwargs.

Definition _build_learner (c : adaptive_controller) : pyM W Z :=
  match package with
  | None => raise (RuntimeError "adaptive.adaptive_grid_1d requires the optional 'adaptive' package")
  | Some pk =>
      loss ← _build_loss_per_interval pk (ct_loss_kind c) (ct_loss_params c);
      _construct_learner pk (ct_uses_average c) (ct_bounds c) loss (if ct_uses_average c then ct_average_kwargs c else [])
  end.

Definition create_adaptive_controller (controller_spec space : dict) (repeats : Z) : pyM W adaptive_controller :=
  let kind := text_field controller_spec "kind" in
  if negb (nonempty kind) then raise (TypeError "adaptive.controller.kind is required")
  else if negb (String.eqb kind "adaptive.adaptive_grid_1d") then
    raise (RuntimeError ("adaptive controller " +:+ repr_str kind +:+ " is not supported in v1"))
  else
    make ← lift (controller_settings controller_spec space repeats);
    learner ← _build_learner (make 0);
    mret (make learner).

(** A method of the learner *)
Definition learner {A} (f : AdaptivePackage W -> Z -> W -> result A * W) : M A := fun '(c, w) =>
  match package with
  | Some pk => let '(r, w) := f pk (ct_learner c) w in (r, (c, w))
  | None => (Err (RuntimeError ""), (c, w))                (* there is a learner, so there is the package *)
  end.
Definition on_controller (f : adaptive_controller -> adaptive_controller) : M unit := modify (fun '(c, w) => (f c, w)).

(** ** Suggestions *)
Definition _unwrap_candidates (raw : asked) : list candidate :=
  match raw with AskedPair l | AskedList l => l | AskedOne c => [c] end.

Definition suggest : M dict :=
  raw ← learner pk_ask;
  '(c, _) ← get;
  match _unwrap_candidates raw with
  | [] => raise (RuntimeError "adaptive learner returned no candidates")
  | candidate :: _ =>
      let meta := ("trial_index", PInt (ct_trial_index c)) ::
                  match ct_last_loss c with Some l => [("adaptive_loss", PFloat l)] | None => [] end in
      '(meta, x) ← (if ct_uses_average c then
                      match candidate with
                      | SeedPoint seed x => k ← lift (py_int seed); mret (meta ++ [("seed", PInt k)], Some x)
                      | Point _ => raise (RuntimeError "AverageLearner1D returned an unexpected candidate shape")
                      end
                    else mret (meta, match candidate with Point x => Some x | SeedPoint _ _ => None end));
      _ ← on_controller (fun c => c <| ct_trial_index := ct_trial_index c + 1 |>);
      v ← lift (match x with Some x => py_float x | None => type_error end);
      mret [("params_raw", PDict [(ct_param_name c, PFloat v)]); ("meta", PDict meta)]
  end.

(** ** What a trial teaches *)
Definition learn_loss (c : adaptive_controller) (raw : pyval) : adaptive_controller :=
  match py_float raw with
  | Ok (FFin q) =>
      let c := c <| ct_last_loss := Some (FFin q) |> in
      match ct_min_loss c with
      | Some limit => if fleb (FFin q) limit then c <| ct_converged := true |> <| ct_stop_reason := Some "min_loss" |> else c
      | None => c
      end
  | _ => c
  end.

Definition _update_convergence_from_loss : M unit := fun '(c, w) =>
  match package ≫= pk_loss with
  | None => (Ok tt, (c, w))
  | Some loss =>
      match loss (ct_learner c) w with
      | (Err _, w) => (Ok tt, (c, w))
      | (Ok raw, w) => (Ok tt, (learn_loss c raw, w))
      end
  end.

Definition first_key (d : dict) : option string := fst <$> head d.

Definition _primary_metric_name (trial : dict) : option string :=
  match sub_dict trial "metrics" ≫= first_key with
  | Some k => Some k
  | None => sub_dict trial "replicates" ≫= first_key
  end.

(** The numbers of a list *)
Definition floats_of (l : list pyval) : list pyfloat :=
  omap (fun v => match v with PNone => None | _ => match py_float v with Ok f => Some f | Err _ => None end end) l.

Definition _replicate_values (trial : dict) (metric_name : option string) : list pyfloat :=
  match metric_name with
  | None | Some "" => []
  | Some name =>
      match sub_dict trial "replicates" with
      | Some replicates => match dget replicates name with PList l => floats_of l | _ => [] end
      | None => []
      end
  end.

Fixpoint tell_values (seed : Z) (x : pyfloat) (values : list pyfloat) : M unit :=
  match values with
  | [] => mret tt
  | v :: rest =>
      _ ← learner (fun pk l => pk_tell pk l (SeedPoint (PInt seed) (PFloat x)) v);
      tell_values (seed + 1) x rest
  end.

Definition score_of (trial : dict) : option pyfloat :=
  match dget trial "score" with
  | PNone => None
  | v => match py_float v with Ok f => Some f | Err _ => None end
  end.

Definition seed_start (proposal : dict) : Z :=
  match sub_dict proposal "meta" with
  | Some meta => match od_get meta "seed" with
                 | Some v => match py_int v with Ok k => k | Err _ => 0 end
                 | None => 0
                 end
  | None => 0
  end.

Definition tell (proposal trial : dict) : M unit :=
  if negb (truthy (dget trial "ok")) then mret tt
  else
    '(c, _) ← get;
    match sub_dict trial "params" ≫= (fun params => od_get params (ct_param_name c)) with
    | None => mret tt
    | Some v =>
        match py_float v with
        | Err _ => mret tt
        | Ok x =>
            if ct_uses_average c then
              let values := match _replicate_values trial (_primary_metric_name trial) with
                            | [] => option_list (score_of trial)
                            | l => l
                            end in
              match values with
              | [] => mret tt
              | _ =>
                  _ ← tell_values (seed_start proposal) x values;
                  _update_convergence_from_loss
              end
            else
              match score_of trial with
              | None => mret tt
              | Some y =>
                  _ ← learner (fun pk l => pk_tell pk l (Point (PFloat x)) y);
                  _update_convergence_from_loss
              end
        end
    end.

Definition should_stop (c : adaptive_controller) : bool := ct_converged c.

Definition controller_status (c : adaptive_controller) : dict :=
  [("loss", from_option PFloat PNone (ct_last_loss c)); ("converged", PBool (ct_converged c));
   ("stop_reason", opt_str (ct_stop_reason c)); ("loss_kind", PStr (ct_loss_kind c));
   ("learner_kind", PStr (ct_learner_kind c))].
End controller.
