(* ===== verification/SequencerData.v ===== *)
(** * Steps and state of the sequencer ([sequencer/ast.py], [sequencer/runtime.py])

    The steps of a sequence, the frames of the runtime's stack and the state
    of [SequencerRuntime], with what it asks of its callers.  Of the progress
    estimate it keeps what is measured, not the caches of the walk over the
    remaining work, which only [status] and [plan] read. *)
From S2P Require Import Prelude PyVal PyNum PyOps Expressions Conditions Responses ProcessBase.
From S2P Require Import Ranges RunRecords AdaptiveController.
#[local] Open Scope Z_scope.

(** ** Steps *)

(** The identity of a step object and its [disabled] flag. *)
Record step_header := mkHeader { h_id : Z; h_disabled : bool }.

(** An adaptive step, but for its body *)
Record adaptive_spec := mkAdaptive {
  ad_id : string;
  ad_controller : dict;
  ad_space : dict;
  ad_bind : list (string * string);
  ad_state : option dict;
  ad_observe : dict;
  ad_stopping : option dict;
  ad_constraints : option (list pyval);
  ad_fail_on_trial_error : bool
}.

Inductive step :=
| CallStep (h : step_header) (device action : string) (params : dict) (save_as : option string)
    (extract assign : option dict) (process : option string)
| SetStep (h : step_header) (device name : string) (value : pyval)
| SleepStep (h : step_header) (seconds : pyval)
| WaitUntilStep (h : step_header) (raw : dict)
| ForStep (h : step_header) (bind : list (string * string)) (in_expr : pyval) (body : list step)
| RepeatStep (h : step_header) (times : pyval) (body : list step)
| IfStep (h : step_header) (condition : pyval) (then_steps : list step) (else_steps : option (list step))
| WhileStep (h : step_header) (condition : pyval) (body : list step)
| AtomicStep (h : step_header) (name : option string) (body : list step)
| PauseStep (h : step_header) (reason : option string)
| ParallelStep (h : step_header) (body : list step)
| TryStep (h : step_header) (body finally_steps : list step)
| AssignStep (h : step_header) (values : dict)
| SetContextStep (h : step_header) (streams : pyval) (fields : dict)
| UseStep (h : step_header) (sequence_id : string) (args : option dict)
| AdaptiveStep (h : step_header) (spec : adaptive_spec) (body : list step).

Definition header (s : step) : step_header :=
  match s with
  | CallStep h _ _ _ _ _ _ _ | SetStep h _ _ _ | SleepStep h _ | WaitUntilStep h _ | ForStep h _ _ _
  | RepeatStep h _ _ | IfStep h _ _ _ | WhileStep h _ _ | AtomicStep h _ _ | PauseStep h _ | ParallelStep h _
  | TryStep h _ _ | AssignStep h _ | SetContextStep h _ _ | UseStep h _ _
  | AdaptiveStep h _ _ => h
  end.
Definition step_id (s : step) : Z := h_id (header s).
Definition disabled (s : step) : bool := h_disabled (header s).

Record SequenceSpec := mkSpec { sp_version : Z; sp_meta : dict; sp_vars : dict; sp_steps : list step }.

(** [type(step).__name__] *)
Definition type_name (s : step) : string :=
  match s with
  | CallStep _ _ _ _ _ _ _ _ => "CallStep" | SetStep _ _ _ _ => "SetStep" | SleepStep _ _ => "SleepStep"
  | WaitUntilStep _ _ => "WaitUntilStep" | ForStep _ _ _ _ => "ForStep" | RepeatStep _ _ _ => "RepeatStep"
  | IfStep _ _ _ _ => "IfStep" | WhileStep _ _ _ => "WhileStep" | AtomicStep _ _ _ => "AtomicStep"
  | PauseStep _ _ => "PauseStep" | ParallelStep _ _ => "ParallelStep" | TryStep _ _ _ => "TryStep"
  | AssignStep _ _ => "AssignStep" | SetContextStep _ _ _ => "SetContextStep" | UseStep _ _ _ => "UseStep"
  | AdaptiveStep _ _ _ => "AdaptiveStep"
  end.

Definition step_kind (s : step) : string :=
  match s with
  | CallStep _ _ _ _ _ _ _ _ => "call" | SetStep _ _ _ _ => "set" | SleepStep _ _ => "sleep"
  | WaitUntilStep _ _ => "wait_until" | ForStep _ _ _ _ => "for" | RepeatStep _ _ _ => "repeat"
  | IfStep _ _ _ _ => "if" | WhileStep _ _ _ => "while" | AtomicStep _ _ _ => "atomic"
  | PauseStep _ _ => "pause" | ParallelStep _ _ => "parallel" | TryStep _ _ _ => "try"
  | AssignStep _ _ => "assign" | SetContextStep _ _ _ => "set_context" | UseStep _ _ _ => "use"
  | AdaptiveStep _ _ _ => "adaptive"
  end.

(** The truth of an optional string, dict or text *)
Definition opt_true (o : option string) : bool := match o with Some s => nonempty s | None => false end.
Definition dict_true (o : option dict) : bool := match o with Some (_ :: _) => true | _ => false end.

Section summary.
Context `{HR : !PyRepr}.

Definition _compact_text (value : pyval) (max_len : nat) : string :=
  let text := strip (py_replace (String "010" "") " " (py_str value)) in
  if (String.length text <=? max_len)%nat then text
  else rstrip (String.substring 0 (max_len - 3) text) +:+ "...".

Definition gen_kind (in_expr : pyval) : string :=
  match in_expr with
  | PDict d =>
      match dget d "gen" with
      | PDict g => match filter (fun k => k ∉ ["offset"; "shuffle"; "seed"; "serpentine"]) (od_keys g) with
                   | k :: _ => k
                   | [] => "generator"
                   end
      | _ => "iterable"
      end
  | _ => "iterable"
  end.

Definition step_summary (s : step) : option string :=
  Some match s with
  | CallStep _ device action _ _ _ _ process =>
      strip ("call " +:+ (if opt_true process then "process " else "") +:+
             (if opt_true process then default "" process else device) +:+ "." +:+ action)
  | SetStep _ device name _ => "set " +:+ device +:+ "." +:+ name
  | SleepStep _ seconds => "sleep " +:+ _compact_text seconds 80 +:+ "s"
  | WaitUntilStep _ raw =>
      join " " (["wait_until"] ++
        (if is_none (dget raw "condition") then [] else [_compact_text (dget raw "condition") 48]) ++
        (if is_none (dget raw "timeout_s") then [] else ["timeout " +:+ py_str (dget raw "timeout_s") +:+ "s"]))
  | ForStep _ bind in_expr _ =>
      let names := join ", " ((fun '(k, v) => k +:+ "->" +:+ v) <$> bind) in
      "for " +:+ (if nonempty names then names else "items") +:+ " in " +:+ gen_kind in_expr
  | RepeatStep _ times _ => "repeat " +:+ _compact_text times 80
  | IfStep _ condition _ _ => "if " +:+ _compact_text condition 64
  | WhileStep _ condition _ => "while " +:+ _compact_text condition 64
  | AtomicStep _ name _ => if opt_true name then "atomic " +:+ default "" name else "atomic"
  | PauseStep _ reason => if opt_true reason then "pause " +:+ default "" reason else "pause"
  | ParallelStep _ _ => "parallel"
  | TryStep _ _ _ => "try"
  | AssignStep _ values =>
      let names := join ", " (od_keys values) in if nonempty names then "assign " +:+ names else "assign"
  | SetContextStep _ _ _ => "set_context"
  | UseStep _ sequence_id _ => "use " +:+ sequence_id
  | AdaptiveStep _ spec _ => "adaptive " +:+ ad_id spec
  end.
End summary.

(** ** Frames *)

(** What a frame does when it is left: [_exit] of an atomic block,
    [_restore_vars] of a used sequence, [on_adaptive_exit] of the body of a
    trial, whose frame is the next one on the stack. *)
Inductive exit_action :=
| ExitAtomic
| ExitUse (previous_vars : dict) (sequence_name : string)
| ExitAdaptive.

Record adaptive_frame := mkAdaptiveFrame {
  af_spec : adaptive_spec;
  af_study_id : string;
  af_controller : adaptive_controller;
  af_rendered_controller : dict;
  af_rendered_space : dict;
  af_started_t : Q;
  af_proposal : option dict;
  af_trials_completed : Z;
  af_best_score : option pyfloat;
  af_no_improve_trials : Z
}.
#[export] Instance adaptive_frame_eta : Eta adaptive_frame := fun a =>
  mkAdaptiveFrame (af_spec a) (af_study_id a) (af_controller a) (af_rendered_controller a) (af_rendered_space a)
    (af_started_t a) (af_proposal a) (af_trials_completed a) (af_best_score a) (af_no_improve_trials a).

Inductive frame :=
| Frame (steps : list step) (index : nat) (on_exit : option exit_action) (run_during_unwind : bool)
| ForFrame (bind : list (string * string)) (records : list dict) (index : nat) (body : list step)
| RepeatFrame (remaining : Z) (body : list step)
| TryFrame (finally_steps : list step) (finalizing : bool)
| WhileFrame (condition : pyval) (body : list step) (passes : nat)
| AdaptiveFrame (a : adaptive_frame) (body : list step).

Definition body_frame (steps : list step) : frame := Frame steps 0 None false.

(** ** State *)
Inductive run_state := IDLE | RUNNING | PAUSED | STOPPED | ERROR.
#[export] Instance run_state_eq_dec : EqDecision run_state.
Proof. solve_decision. Defined.

Inductive loop_mode := LoopOnce | LoopRepeat | LoopContinuous.

Record wait_state := mkWait {
  ws_start_t : Q;
  ws_timeout_s : pyfloat;
  ws_every_s : pyfloat;
  ws_next_sample_t : pyfloat;
  ws_stable_for_s : pyfloat;
  ws_condition : pyval;
  ws_sample_spec : dict;
  ws_reduce_spec : option dict;
  ws_samples : list (pyfloat * pyval);
  ws_max_samples : Z;
  ws_stable_since : option Q;
  ws_last_value : pyval;
  ws_last_age_s : option pyfloat;
  ws_telemetry_label : option string;
  ws_telemetry_max_age_s : option pyfloat;
  ws_last_call_error : option string
}.
#[export] Instance wait_state_eta : Eta wait_state := fun w =>
  mkWait (ws_start_t w) (ws_timeout_s w) (ws_every_s w) (ws_next_sample_t w) (ws_stable_for_s w) (ws_condition w)
    (ws_sample_spec w) (ws_reduce_spec w) (ws_samples w) (ws_max_samples w) (ws_stable_since w) (ws_last_value w)
    (ws_last_age_s w) (ws_telemetry_label w) (ws_telemetry_max_age_s w) (ws_last_call_error w).

(** [_AdaptiveObserveState]; its frame is the one on top of the stack. *)
Record observe_state := mkObserve {
  ob_proposal : dict;
  ob_trial : dict;
  ob_repeats : Z;
  ob_metrics_spec : dict;
  ob_current_repeat : Z;
  ob_started_t : Q;
  ob_next_check_t : option Q
}.
#[export] Instance observe_state_eta : Eta observe_state := fun o =>
  mkObserve (ob_proposal o) (ob_trial o) (ob_repeats o) (ob_metrics_spec o) (ob_current_repeat o) (ob_started_t o)
    (ob_next_check_t o).

(** What the runtime keeps for adaptive steps *)
Record adaptive_state := mkAdaptiveState {
  ad_observing : option observe_state;
  ad_studies : list (string * dict);
  ad_start_modes : list (string * string);
  ad_outputs : list dict                  (* [_analysis_outputs] *)
}.
#[export] Instance adaptive_state_eta : Eta adaptive_state := fun a =>
  mkAdaptiveState (ad_observing a) (ad_studies a) (ad_start_modes a) (ad_outputs a).

Record StepSourceInfo := mkSource {
  si_path : string; si_line : pyval; si_column : pyval; si_source : pyval;
  si_kind : string; si_summary : option string; si_branch : option string
}.

(** Clocks and counts of a run *)
Record run_stats := mkRunStats {
  rs_completed_steps : Z;
  rs_durations : StepDurationStats;
  rs_active_step : option step;
  rs_active_started : option Q;
  rs_active_sleep_s : option pyfloat;
  rs_last_finished : Q;
  rs_started : option Q;
  rs_ended : option Q;
  rs_paused_total_s : Q;
  rs_paused_started : option Q;
  rs_progress_finished : bool
}.
#[export] Instance run_stats_eta : Eta run_stats := fun r =>
  mkRunStats (rs_completed_steps r) (rs_durations r) (rs_active_step r) (rs_active_started r) (rs_active_sleep_s r)
    (rs_last_finished r) (rs_started r) (rs_ended r) (rs_paused_total_s r) (rs_paused_started r) (rs_progress_finished r).

Record runtime {W : Type} := mkRuntime {
  rt_world : W;
  rt_spec : option SequenceSpec;
  rt_vars : dict;
  rt_base_vars : dict;
  rt_env : dict;
  rt_stack : list frame;                  (* the top of the stack first *)
  rt_state : run_state;
  rt_pause_requested : bool;
  rt_stop_requested : bool;
  rt_last_error : option string;
  rt_last_error_detail : option dict;
  rt_pending_state : option run_state;    (* [_pending_terminal_state] *)
  rt_pending_error : option string;
  rt_cleanup_failed : bool;
  rt_cleanup_errors : list pyval;
  rt_run_events : RunEventLog;
  rt_pause_info : option dict;
  rt_pause_request_info : option dict;
  rt_sleep_until : option pyfloat;
  rt_wait_state : option wait_state;
  rt_set_context_state : option Z;        (* a dispatch, by a token *)
  rt_parallel_state : option Z;
  rt_parallel_pending_failure : option string;
  rt_atomic_depth : Z;
  rt_current_step : option string;
  rt_current_step_detail : option dict;
  rt_step_source_info : list (Z * StepSourceInfo);
  rt_context_id : Z;
  rt_stats : run_stats;
  rt_run_id : Z;
  rt_next_run_id : Z;
  rt_loop_mode : loop_mode;
  rt_loops_target : option Z;
  rt_loops_completed : Z;
  rt_vars_override_active : dict;
  rt_use_stack : list string;
  rt_adaptive : adaptive_state
}.
Arguments runtime : clear implicits.

#[export] Instance runtime_eta {W} : Eta (runtime W) := fun s =>
  mkRuntime W (rt_world s) (rt_spec s) (rt_vars s) (rt_base_vars s) (rt_env s) (rt_stack s) (rt_state s)
    (rt_pause_requested s) (rt_stop_requested s) (rt_last_error s) (rt_last_error_detail s) (rt_pending_state s)
    (rt_pending_error s) (rt_cleanup_failed s) (rt_cleanup_errors s) (rt_run_events s) (rt_pause_info s)
    (rt_pause_request_info s) (rt_sleep_until s) (rt_wait_state s) (rt_set_context_state s) (rt_parallel_state s)
    (rt_parallel_pending_failure s) (rt_atomic_depth s) (rt_current_step s) (rt_current_step_detail s)
    (rt_step_source_info s) (rt_context_id s) (rt_stats s) (rt_run_id s) (rt_next_run_id s) (rt_loop_mode s)
    (rt_loops_target s) (rt_loops_completed s) (rt_vars_override_active s) (rt_use_stack s) (rt_adaptive s).

(** ** Branches of a parallel step *)
Record ParallelBranchOperation := mkOperation { op_source_index : option Z; op_step : step }.
Record ParallelBranchPlan := mkPlan {
  pp_index : Z; pp_operations : list ParallelBranchOperation; pp_env : dict; pp_path : string;
  pp_atomic : bool; pp_repeat_count : option Z
}.
Record ParallelBranchResult := mkBranchResult {
  pr_index : Z; pr_ok : bool; pr_outputs : dict; pr_error : option string; pr_path : option string
}.

(** ** What the runtime asks of its callers

    The callbacks it is built with; one that may be missing is an option.  A
    dispatch in flight lives in the world and is named by a token. *)
Class SequencerWorld (W : Type) := {
  q_clock : W -> Q * W;                                             (* [time.monotonic()] *)
  q_call_device : string -> string -> pyval -> W -> result dict * W;
  q_call_process : option (string -> string -> pyval -> W -> result dict * W);
  q_get_telemetry : string -> string -> W -> result (option dict) * W;
  q_get_process_telemetry : option (string -> string -> W -> result (option dict) * W);
  q_set_stream_context : string -> string -> Z -> dict -> W -> result unit * W;
  q_expect_streams : option (list (string * string) -> Z -> W -> result unit * W);
  q_resolve_use : option (string -> W -> result SequenceSpec * W);
  q_set_context : option ((list (string * string) -> Z -> dict -> W -> result Z * W) *
                          (Z -> Q -> W -> result (bool * option string) * W));
  q_parallel : option ((list ParallelBranchPlan -> W -> result Z * W) *
                       (Z -> W -> result (bool * list ParallelBranchResult) * W));
  q_cancel : Z -> W -> W;                                           (* [cancel()] of a dispatch, errors ignored *)
  q_getattr : pyval -> string -> option pyval;                      (* an attribute of a value of the language *)
  q_adaptive : option (AdaptivePackage W)                           (* [import adaptive] *)
}.

(** The functions of [statistics] it uses, and [math.sqrt] of a count *)
Record Statistics := mkStatistics {
  st_fmean : list pyfloat -> result pyfloat;
  st_stdev : list pyfloat -> result pyfloat;
  st_median : list pyfloat -> result pyfloat;
  st_sqrt : Z -> pyfloat
}.

(** What it asks of templates, conditions, generators and variables. *)
Class Templates := {
  tp_render : Env -> pyval -> result pyval;
  tp_condition : Env -> pyval -> result bool;
  tp_generate : dict -> Env -> option Z -> result (list dict);
  tp_resolve_vars : dict -> dict;
  tp_json_dumps : pyval -> result string;                           (* [json.dumps(v, default=str)] *)
  tp_format_g : pyfloat -> string;                                  (* [f"{x:g}"] *)
  tp_format_1f : pyfloat -> string;                                 (* [f"{x:.1f}"] *)
  tp_statistics : Statistics
}.

(** The components of this development provide them. *)
Definition components_templates `{HR : !PyRepr, HA : !PyArith, HE : !PyExpr, HN : !Spaces, HG : !ScanPlan.Rng}
    (json_dumps : pyval -> result string) (format_g format_1f : pyfloat -> string) (statistics : Statistics) : Templates := {|
  tp_render := render_templates;
  tp_condition := eval_condition;
  tp_generate d env k := generate_from_gen (PDict d) env k;
  tp_resolve_vars := resolve_vars;
  tp_json_dumps := json_dumps;
  tp_format_g := format_g;
  tp_format_1f := format_1f;
  tp_statistics := statistics
|}.
