(* ===== verification/SequencerCore.v ===== *)
(** * Control of a run ([sequencer/runtime.py])

    Requests to load, start, pause, resume, stop and fail, the bookkeeping of
    time and events, and the way a run ends: through the cleanup of its
    stack where there is any. *)
From S2P Require Import Prelude PyVal PyNum PyOps Expressions Conditions Responses ProcessBase.
From S2P Require Import RunRecords SequencerData.
#[local] Open Scope Z_scope.

(** ** Methods that may not return

    They wait for something from outside for as long as it takes: [None] is
    "not ended yet". *)
Definition pyL (S A : Type) : Type := S -> option (result A * S).
#[export] Instance pyL_ret {S} : MRet (pyL S) := fun A a s => Some (Ok a, s).
#[export] Instance pyL_bind {S} : MBind (pyL S) := fun A B f m s =>
  match m s with
  | None => None
  | Some (Ok a, s') => f a s'
  | Some (Err e, s') => Some (Err e, s')
  end.
(** A method that returns *)
Definition up {S A} (m : pyM S A) : pyL S A := fun s => Some (m s).
(** [try: m except Exception as e: h(e)] *)
Definition except {S A} (m : pyL S A) (h : pyexc -> pyL S A) : pyL S A := fun s =>
  match m s with
  | Some (Err e, s') => h e s'
  | r => r
  end.

Definition live_state (x : run_state) : bool := match x with RUNNING | PAUSED => true | _ => false end.

Section core.
Context `{HR : !PyRepr, HT : !Templates} {W : Type} `{HW : !SequencerWorld W}.
#[local] Abbreviation st := (runtime W).
#[local] Abbreviation M := (pyM (runtime W)).

(** ** The outside *)
Definition outside {A} (f : W -> result A * W) : M A := fun s =>
  let '(r, w) := f (rt_world s) in (r, s <| rt_world := w |>).
Definition monotonic : M Q := outside (fun w => let '(t, w) := q_clock w in (Ok t, w)).
Definition cancel (token : option Z) : M unit :=
  match token with
  | Some k => outside (fun w => (Ok tt, q_cancel k w))
  | None => mret tt
  end.

Definition _clear_set_context_state : M unit := fun s =>
  cancel (rt_set_context_state s) (s <| rt_set_context_state := None |>).

Definition _clear_parallel_state : M unit := fun s =>
  cancel (rt_parallel_state s) (s <| rt_parallel_state := None |> <| rt_parallel_pending_failure := None |>).

(** ** Time *)
Definition elapsed (now : Q) (r : run_stats) : Q :=
  match rs_started r with
  | None => 0
  | Some started =>
      let effective_now := default now (rs_ended r) in
      let paused := match rs_paused_started r with
                    | Some p => (rs_paused_total_s r + fmax 0 (effective_now - p))%Q
                    | None => rs_paused_total_s r
                    end in
      fmax 0 (effective_now - started - paused)
  end.

Definition mark_pause_started (now : Q) (r : run_stats) : run_stats :=
  match rs_paused_started r with
  | Some _ => r
  | None => r <| rs_paused_started := Some now |>
  end.

Definition mark_pause_ended (now : Q) (r : run_stats) : run_stats :=
  match rs_paused_started r with
  | Some p => r <| rs_paused_total_s := (rs_paused_total_s r + fmax 0 (now - p))%Q |> <| rs_paused_started := None |>
  | None => r
  end.

Definition abandon_active_step (now : Q) (r : run_stats) : run_stats :=
  match rs_active_step r with
  | None => r
  | Some _ => r <| rs_active_step := None |> <| rs_active_started := None |> <| rs_active_sleep_s := None |>
                <| rs_last_finished := elapsed now r |>
  end.

Definition begin_active_step (s : step) (now : Q) (r : run_stats) : run_stats :=
  let r := abandon_active_step now r in
  r <| rs_active_step := Some s |> <| rs_active_started := Some (elapsed now r) |>.

(** What a sleep took beyond what it asked for; of an endless one, nothing. *)
Definition overhead (duration_s : Q) (asked : pyfloat) : Q :=
  match asked with FFin q => duration_s - q | _ => 0 end.

Definition finish_active_step (now : Q) (r : run_stats) : run_stats :=
  match rs_active_step r with
  | None => r
  | Some s =>
      let end_elapsed := elapsed now r in
      let duration_s := fmax 0 (end_elapsed - rs_last_finished r) in
      let durations := stats_record (step_id s) (step_kind s) duration_s (rs_durations r) in
      let durations := match s, rs_active_sleep_s r with
                       | SleepStep _ _, Some asked => record_sleep_overhead (overhead duration_s asked) durations
                       | _, _ => durations
                       end in
      r <| rs_last_finished := end_elapsed |> <| rs_active_step := None |> <| rs_active_started := None |>
        <| rs_completed_steps := rs_completed_steps r + 1 |> <| rs_durations := durations |>
        <| rs_active_sleep_s := None |>
  end.

(** [_reset_progress] *)
Definition no_stats : run_stats := mkRunStats 0 stats_clear None None None 0 None None 0 None false.

(** [SequencerRuntime(...)] *)
Definition new_runtime (w : W) : st :=
  mkRuntime W w None [] [] [] [] IDLE false false None None None None false [] (new_log 200) None None None None None None
    None 0 None None [] (-1) no_stats 0 1 LoopOnce None 0 [] [] (mkAdaptiveState None [] [] []).

Definition on_stats (f : run_stats -> run_stats) : M unit := modify (fun s => s <| rt_stats := f (rt_stats s) |>).
Definition _mark_pause_started (now : Q) : M unit := on_stats (mark_pause_started now).
Definition _mark_pause_ended (now : Q) : M unit := on_stats (mark_pause_ended now).
Definition _abandon_active_step (now : Q) : M unit := on_stats (abandon_active_step now).
Definition _begin_active_step (s : step) (now : Q) : M unit := on_stats (begin_active_step s now).
Definition _finish_active_step (now : Q) : M unit := on_stats (finish_active_step now).
Definition run_ended (now : Q) : M unit := on_stats (fun r => r <| rs_ended := Some now |>).
Definition finish_now : M unit := now ← monotonic; _finish_active_step now.

(** ** Events and errors *)
Definition detail_value (d : option dict) : pyval := from_option PDict PNone d.

Definition _record_event (severity kind message : string) (step source trigger : pyval) : M unit :=
  now ← monotonic;
  modify (fun s =>
    let step := if is_none step then detail_value (rt_current_step_detail s) else step in
    s <| rt_run_events := log_record severity kind message (elapsed now (rt_stats s)) step source trigger
                            (rt_run_events s) |>).

Definition _format_step_detail (source_info : list (Z * StepSourceInfo)) (x : step) : dict :=
  match od_get source_info (step_id x) with
  | Some i => [("kind", PStr (si_kind i)); ("summary", opt_str (si_summary i)); ("path", PStr (si_path i));
               ("line", si_line i); ("column", si_column i); ("source", si_source i); ("branch", opt_str (si_branch i))]
  | None => [("kind", PStr (step_kind x)); ("summary", opt_str (step_summary x)); ("path", PNone);
             ("line", PNone); ("column", PNone); ("source", PNone); ("branch", PNone)]
  end.

Definition _update_current_step_detail (values : dict) : M unit := modify (fun s =>
  s <| rt_current_step_detail := Some (dict_update (default [] (rt_current_step_detail s)) values) |>).

Definition _format_error_text (detail : dict) : string :=
  let message := py_str (py_or (dget detail "message") (PStr "sequencer error")) in
  match dget detail "step" with
  | PDict step =>
      let '(source, line, path, branch) := (dget step "source", dget step "line", dget step "path", dget step "branch") in
      let location :=
        if truthy source || truthy line || truthy path then
          [py_str (py_or source (PStr "sequence")) +:+
           (if is_none line then "" else ":" +:+ py_str line) +:+
           (if truthy path then " (" +:+ py_str path +:+ ")" else "")]
        else [] in
      let parts := (if truthy (dget step "summary") then [py_str (dget step "summary")] else []) ++ location ++
                   (if truthy branch then ["branch " +:+ py_str branch] else []) in
      match parts with
      | [] => message
      | _ => message +:+ " [" +:+ join "; " parts +:+ "]"
      end
  | _ => message
  end.

Definition _make_error_detail (message : string) (current : option dict) : dict :=
  let step := match current with Some (kv :: d) => PDict (kv :: d) | _ => PNone end in
  let detail := [("message", PStr message); ("formatted", PStr ""); ("step", step); ("cleanup_errors", PList [])] in
  od_set detail "formatted" (PStr (_format_error_text detail)).

(** ** The end of a run *)
Definition has_unwind_work (f : frame) : bool :=
  match f with
  | Frame _ _ (Some _) _ => true
  | Frame _ _ None unwind => unwind
  | TryFrame (_ :: _) false => true
  | _ => false
  end.
Definition _has_terminal_unwind_work (stack : list frame) : bool := existsb has_unwind_work stack.

(** No sleep, wait or dispatch is left. *)
Definition on_adaptive (f : adaptive_state -> adaptive_state) : M unit :=
  modify (fun s => s <| rt_adaptive := f (rt_adaptive s) |>).
Definition set_observing (o : option observe_state) : M unit := on_adaptive (fun a => a <| ad_observing := o |>).

Definition drop_pending_work : M unit :=
  _ ← modify (fun s => s <| rt_sleep_until := None |> <| rt_wait_state := None |>);
  _ ← _clear_set_context_state;
  _ ← set_observing None;
  _clear_parallel_state.

Definition _begin_terminal_unwind (state : run_state) (error : option string) : M bool := fun s =>
  match rt_pending_state s with
  | Some _ => (Ok (match rt_stack s with [] => false | _ => true end), s)
  | None =>
      if negb (_has_terminal_unwind_work (rt_stack s)) then (Ok false, s)
      else
        (now ← monotonic;
         _ ← _abandon_active_step now;
         _ ← modify (fun s => s <| rt_pending_state := Some state |> <| rt_pending_error := error |>
                                <| rt_cleanup_failed := false |> <| rt_cleanup_errors := [] |>);
         _ ← drop_pending_work;
         _ ← modify (fun s => s <| rt_current_step := None |> <| rt_current_step_detail := None |>);
         mret true) s
  end.

Definition contains (needle s : string) : bool := 0 <? py_count needle s.

Definition _note_cleanup_failure (message : string) : M unit := fun s =>
  let detail := _make_error_detail message (rt_current_step_detail s) in
  let s := s <| rt_cleanup_failed := true |> <| rt_cleanup_errors := rt_cleanup_errors s ++ [PDict detail] |> in
  match _record_event "error" "cleanup_failed" message (dget detail "step") PNone PNone s with
  | (Err e, s) => (Err e, s)
  | (Ok _, s) =>
      let cleanup_message := "cleanup failed: " +:+ message in
      let s := match rt_last_error_detail s with
               | Some d => s <| rt_last_error_detail := Some (od_set d "cleanup_errors" (PList (rt_cleanup_errors s))) |>
               | None => s
               end in
      let error := match rt_pending_error s with
                   | Some e => if nonempty e
                               then if contains cleanup_message e then e else e +:+ "; " +:+ cleanup_message
                               else cleanup_message
                   | None => cleanup_message
                   end in
      (Ok tt, s <| rt_pending_error := Some error |>)
  end.

(** Whether the run goes on to its cleanup. *)
Definition _handle_runtime_exception (exc : pyexc) : M bool := fun s =>
  let message := exc_str exc in
  match rt_pending_state s with
  | Some _ => (_ ← _note_cleanup_failure message; mret true) s
  | None =>
      let detail := _make_error_detail message (rt_current_step_detail s) in
      (_ ← modify (fun s => s <| rt_last_error_detail := Some detail |>);
       _ ← _record_event "error" "step_failed" message (dget detail "step") PNone PNone;
       _begin_terminal_unwind ERROR (Some message)) s
  end.

(** A step that fails by itself; the tick it was in is over. *)
Definition _fail_step (message : string) : M bool := fun s =>
  match rt_pending_state s with
  | Some _ => (_ ← _note_cleanup_failure message; mret true) s
  | None =>
      let detail := _make_error_detail message (rt_current_step_detail s) in
      (_ ← modify (fun s => s <| rt_last_error_detail := Some detail |>);
       _ ← _record_event "error" "step_failed" message (dget detail "step") PNone PNone;
       unwinding ← _begin_terminal_unwind ERROR (Some message);
       _ ← (if unwinding : bool then mret tt
            else modify (fun s => s <| rt_last_error := Some message |> <| rt_state := ERROR |>));
       mret true) s
  end.

Definition _finish_pending_terminal : M unit := fun s =>
  let state := default STOPPED (rt_pending_state s) in
  let error := rt_pending_error s in
  let final := if rt_cleanup_failed s then ERROR else state in
  (_ ← modify (fun s => s <| rt_pending_state := None |> <| rt_pending_error := None |> <| rt_cleanup_failed := false |>);
   _ ← drop_pending_work;
   _ ← modify (fun s =>
     let failed := bool_decide (final = ERROR) in
     s <| rt_state := final |> <| rt_last_error := if failed then error else None |>
       <| rt_last_error_detail := if failed then rt_last_error_detail s else None |>);
   now ← monotonic;
   run_ended now) s.

Definition _should_continue_run_loops (s : st) : bool :=
  bool_decide (rt_state s = RUNNING) &&
  match rt_loop_mode s, rt_loops_target s with
  | LoopContinuous, _ => true
  | _, Some target => rt_loops_completed s <? target
  | _, None => false
  end.

Definition _prepare_next_run_loop : M unit := fun s =>
  match rt_spec s with
  | None => (_ ← modify (fun s => s <| rt_state := STOPPED |>); now ← monotonic; run_ended now) s
  | Some spec =>
      (_ ← modify (fun s => s <| rt_stack := [body_frame (sp_steps spec)] |> <| rt_env := [] |>);
       _ ← drop_pending_work;
       _ ← modify (fun s => s <| rt_pending_state := None |> <| rt_pending_error := None |> <| rt_cleanup_failed := false |>
                              <| rt_cleanup_errors := [] |> <| rt_atomic_depth := 0 |> <| rt_current_step := None |>
                              <| rt_current_step_detail := None |> <| rt_use_stack := [] |>);
       _ ← monotonic;                 (* [_loop_started_elapsed_s] *)
       mret tt) s
  end.

(** ** Pauses *)
Definition text_or_none (v : pyval) : pyval :=
  match v with PNone => PNone | PStr "" => PNone | _ => PStr (py_str v) end.

Definition _pause_info (reason source trigger : pyval) : dict :=
  [("reason", text_or_none reason); ("source", text_or_none source);
   ("trigger", if is_dict trigger then trigger else PNone)].

Definition _enter_pause (info : dict) : M unit :=
  now ← monotonic;
  _ ← modify (fun s => s <| rt_pause_info := Some (od_set info "elapsed_s" (PFloat (FFin (elapsed now (rt_stats s))))) |>
                         <| rt_pause_request_info := None |>);
  let source := py_or (dget info "source") (PStr "unknown") in
  let automatic := py_eqb source (PStr "watchdog") || negb (is_none (dget info "trigger")) in
  let reason := dget info "reason" in
  _record_event (if automatic then "warning" else "info") "pause"
    ("Paused by " +:+ py_str source +:+ (if truthy reason then ": " +:+ py_str reason else ""))
    PNone source (dget info "trigger").

Definition _interruptible (s : st) : bool :=
  (rt_atomic_depth s =? 0) && match rt_parallel_state s with None => true | Some _ => false end.

(** Whether a request to stop or to pause took effect. *)
Definition _check_stop_pause : M bool := fun s =>
  if rt_stop_requested s && _interruptible s then
    (now ← monotonic;
     _ ← _mark_pause_ended now;
     _ ← modify (fun s => s <| rt_stop_requested := false |>);
     unwinding ← _begin_terminal_unwind STOPPED None;
     _ ← (if unwinding : bool then mret tt
          else
            _ ← _clear_set_context_state;
            _ ← _abandon_active_step now;
            _ ← modify (fun s => s <| rt_state := STOPPED |>);
            run_ended now);
     mret true) s
  else if rt_pause_requested s && _interruptible s then
    (now ← monotonic;
     _ ← _mark_pause_started now;
     _ ← modify (fun s => s <| rt_state := PAUSED |>);
     info ← gets (fun s => match rt_pause_request_info s with
                           | Some (kv :: d) => kv :: d
                           | _ => _pause_info PNone PNone PNone
                           end);
     _ ← _enter_pause info;
     mret true) s
  else (Ok false, s).

(** ** Requests *)
Definition live (s : st) : bool := live_state (rt_state s).

Definition load (spec : SequenceSpec) (source_info : list (Z * StepSourceInfo)) : M unit := fun s =>
  if bool_decide (rt_state s = RUNNING) then (Err (RuntimeError "Cannot load while running"), s)
  else
    (_ ← modify (fun s =>
       s <| rt_spec := Some spec |> <| rt_base_vars := sp_vars spec |> <| rt_vars := tp_resolve_vars (sp_vars spec) |>
         <| rt_env := [] |> <| rt_stack := [] |> <| rt_pause_requested := false |> <| rt_stop_requested := false |>
         <| rt_last_error := None |> <| rt_last_error_detail := None |> <| rt_pending_state := None |>
         <| rt_pending_error := None |> <| rt_cleanup_failed := false |> <| rt_cleanup_errors := [] |>);
     _ ← drop_pending_work;
     modify (fun s =>
       s <| rt_atomic_depth := 0 |> <| rt_current_step := None |> <| rt_current_step_detail := None |>
         <| rt_step_source_info := source_info |> <| rt_state := IDLE |> <| rt_loop_mode := LoopOnce |>
         <| rt_loops_target := None |> <| rt_loops_completed := 0 |> <| rt_vars_override_active := [] |>
         <| rt_use_stack := [] |> <| rt_stats := no_stats |>
         <| rt_adaptive := rt_adaptive s <| ad_start_modes := [] |> |>)) s.

(** The loops asked for. *)
Definition loop_request (repeat_count : pyval) (continuous : bool) : result (loop_mode * option Z) :=
  if continuous then Ok (LoopContinuous, None)
  else
    target ← match repeat_count with
             | PNone => Ok 1
             | v => match py_int v with
                    | Err _ => Err (TypeError "sequencer.start repeat_count must be an integer")
                    | Ok n => if n <=? 0 then Err (ValueError "sequencer.start repeat_count must be > 0") else Ok n
                    end
             end;
    Ok (if 1 <? target then LoopRepeat else LoopOnce, Some target).

Fixpoint override_map (items : dict) (acc : dict) : result dict :=
  match items with
  | [] => Ok acc
  | (raw_key, v) :: rest =>
      let key := strip raw_key in
      if nonempty key then override_map rest (od_set acc key v)
      else Err (ValueError "sequencer.start vars_override keys must be non-empty")
  end.

Definition overrides (vars_override : pyval) (spec_vars : dict) : result dict :=
  o ← match vars_override with
      | PNone => Ok []
      | PDict d => override_map d []
      | _ => Err (TypeError "sequencer.start vars_override must be a dict")
      end;
  match spec_vars with
  | [] => match o with
          | [] => Ok []
          | _ => Err (ValueError "sequencer.start vars_override cannot be used when sequence.vars is empty")
          end
  | _ => match sorted_set (list_to_set (filter (fun k => dhas spec_vars k = false) (od_keys o))) with
         | [] => Ok o
         | unknown => Err (ValueError ("sequencer.start vars_override contains unknown keys: " +:+ join ", " unknown))
         end
  end.

(** The run as it begins *)
Definition begin_run (mode : loop_mode) (target : option Z) (o : dict) (spec : SequenceSpec) (s : st) : st :=
  s <| rt_vars := tp_resolve_vars (dict_update (rt_base_vars s) o) |> <| rt_vars_override_active := o |>
    <| rt_run_id := rt_next_run_id s |> <| rt_next_run_id := rt_next_run_id s + 1 |> <| rt_loop_mode := mode |>
    <| rt_loops_target := target |> <| rt_loops_completed := 0 |> <| rt_use_stack := [] |>
    <| rt_stack := [body_frame (sp_steps spec)] |>.

(** The studies it continues *)
Fixpoint start_modes (raw : dict) (out : list (string * string)) : result (list (string * string)) :=
  match raw with
  | [] => Ok out
  | (raw_key, raw_value) :: rest =>
      let study_id := strip raw_key in
      if negb (nonempty study_id) then Err (TypeError "sequencer.start adaptive override keys must be non-empty")
      else
        match raw_value with
        | PDict d =>
            let mode := lower (strip (py_str (py_or (dget_or d "mode" (PStr "reset")) (PStr "reset")))) in
            if bool_decide (mode ∈ ["reset"; "resume"; "warm_start"]) then start_modes rest (od_set out study_id mode)
            else Err (ValueError ("unsupported adaptive start mode " +:+ repr_str mode +:+ " for " +:+ repr_str study_id))
        | _ => Err (TypeError ("sequencer.start adaptive override for " +:+ repr_str study_id +:+ " must be a dict"))
        end
  end.
Definition _normalize_adaptive_start_modes (raw : pyval) : result (list (string * string)) :=
  match raw with
  | PNone => Ok []
  | PDict d => start_modes d []
  | _ => Err (TypeError "sequencer.start adaptive override must be a dict")
  end.

(** What is left of the run before it *)
Definition forget_run (modes : list (string * string)) (s : st) : st :=
  s <| rt_adaptive := rt_adaptive s <| ad_start_modes := modes |> |> <| rt_pause_requested := false |>
    <| rt_stop_requested := false |> <| rt_last_error := None |> <| rt_last_error_detail := None |>
    <| rt_pending_state := None |> <| rt_pending_error := None |> <| rt_cleanup_failed := false |>
    <| rt_cleanup_errors := [] |> <| rt_env := [] |>.

(** Its clocks and its log *)
Definition begin_clocks : M unit :=
  _ ← drop_pending_work;
  _ ← modify (fun s =>
    s <| rt_atomic_depth := 0 |> <| rt_current_step := None |> <| rt_current_step_detail := None |>
      <| rt_stats := no_stats |>);
  now ← monotonic;
  modify (fun s =>
    s <| rt_stats := rt_stats s <| rs_started := Some now |> <| rs_ended := None |> |>
      <| rt_run_events := log_reset (rt_run_events s) |> <| rt_pause_info := None |>
      <| rt_pause_request_info := None |> <| rt_state := RUNNING |>).

Definition start (adaptive repeat_count : pyval) (continuous : bool) (vars_override : pyval) : M unit := fun s =>
  match rt_spec s with
  | None => (Err (RuntimeError "No sequence loaded"), s)
  | Some spec =>
      ('(mode, target) ← lift (loop_request repeat_count continuous);
       o ← lift (overrides vars_override (sp_vars spec));
       _ ← modify (begin_run mode target o spec);
       modes ← lift (_normalize_adaptive_start_modes adaptive);
       _ ← modify (forget_run modes);
       begin_clocks) s
  end.

Definition request_pause (reason source trigger : pyval) : M unit := modify (fun s =>
  let info := if match rt_pause_request_info s with None => true | Some _ => false end || negb (rt_pause_requested s)
              then Some (_pause_info reason source trigger) else rt_pause_request_info s in
  s <| rt_pause_request_info := info |> <| rt_pause_requested := true |>).

Definition resume (source : pyval) : M unit := fun s =>
  match rt_state s with
  | PAUSED =>
      (now ← monotonic;
       paused ← gets (fun s => (fun p => fmax 0 (now - p)) <$> rs_paused_started (rt_stats s));
       _ ← _mark_pause_ended now;
       _ ← modify (fun s => s <| rt_pause_requested := false |> <| rt_state := RUNNING |>);
       _ ← _record_event "info" "resume"
             ("Resumed" +:+ match paused with Some p => " after " +:+ fixed 0 p +:+ " s" | None => "" end)
             PNone source PNone;
       modify (fun s => s <| rt_pause_info := None |> <| rt_pause_request_info := None |>)) s
  | _ => (Ok tt, s)
  end.

Definition request_stop (reason source : pyval) : M unit := fun s =>
  (_ ← (if live s && negb (rt_stop_requested s)
        then _record_event "info" "stop"
               ("Stop requested" +:+ (if truthy reason then ": " +:+ py_str reason else "")) PNone source PNone
        else mret tt);
   _ ← modify (fun s => s <| rt_stop_requested := true |>);
   if bool_decide (rt_state s = PAUSED) then
     now ← monotonic;
     _ ← _mark_pause_ended now;
     modify (fun s => s <| rt_pause_requested := false |> <| rt_state := RUNNING |>)
   else mret tt) s.

Definition fail (reason : string) : M unit := fun s =>
  if negb (live s) then (Ok tt, s)
  else
    let reason := if nonempty reason then reason else "external fault" in
    (_ ← _record_event "error" "external_fault" reason PNone PNone PNone;
     now ← monotonic;
     _ ← _mark_pause_ended now;
     _ ← modify (fun s => s <| rt_pause_requested := false |> <| rt_stop_requested := false |>);
     parallel ← gets rt_parallel_state;
     match parallel with
     | Some _ => modify (fun s => s <| rt_parallel_pending_failure := Some reason |>)
     | None =>
         _ ← drop_pending_work;
         unwinding ← _begin_terminal_unwind ERROR (Some reason);
         if unwinding : bool then modify (fun s => s <| rt_state := RUNNING |>)
         else
           _ ← _abandon_active_step now;
           _ ← modify (fun s => s <| rt_last_error := Some reason |> <| rt_state := ERROR |>);
           run_ended now
     end) s.

(** A warning another process logged during the run *)
Definition note_external_log (severity message : string) (source : pyval) : M unit := fun s =>
  if live s then _record_event severity "log" message PNone source PNone s else (Ok tt, s).

Definition run_events (s : st) : dict := dict_update [("run_id", PInt (rt_run_id s))] (log_snapshot (rt_run_events s)).
End core.
