(* ===== verification/SequencerValues.v ===== *)
(** * Values of a running sequence ([sequencer/runtime.py])

    What a step reads: the environment of its templates, values taken from
    telemetry or from the reply of a call, conditions, and the records of a
    loop. *)
From S2P Require Import Prelude PyVal PyNum PyOps Expressions Conditions Responses ProcessBase.
From S2P Require Import ScanPlan AdaptiveController SequencerData SequencerCore.
#[local] Open Scope Z_scope.

Definition _build_env_view (env vars : dict) : Env := od_set (dict_update env vars) "vars" (PDict vars).

(** ** Values *)
Definition type_label (v : pyval) : string :=
  match v with
  | PNone => "None" | PBool _ => "bool" | PInt _ => "int" | PFloat _ => "float"
  | PStr _ => "str" | PList _ => "list" | PDict _ => "dict"
  end.
Definition _article (v : pyval) : string := match v with PNone => "None" | _ => "a " +:+ type_label v end.

(** [v == "..."] *)
Definition is_str (v : pyval) (k : string) : bool := match v with PStr s => String.eqb s k | _ => false end.

(** [result[ref]] of a list or a string; [None] where it raises. *)
Definition py_index (v ref : pyval) : option pyval :=
  items ← match v with PList l => Some l | PStr s => Some (chars s) | _ => None end;
  i ← as_int ref;
  let i := if i <? 0 then i + Z.of_nat (length items) else i in
  if i <? 0 then None else items !! Z.to_nat i.

Definition _PERMANENT_CALL_ERROR_CODES : list string :=
  ["unknown_command"; "bad_parameters"; "command_not_allowed"; "invalid_params"; "unknown_device"; "unknown_process";
   "unknown_request"].

(** [_CallFailed.permanent] *)
Definition permanent (error : pyval) : bool :=
  match error with
  | PDict d =>
      let listed v := match v with PStr c => bool_decide (c ∈ _PERMANENT_CALL_ERROR_CODES) | _ => false end in
      match dget d "retryable" with
      | PBool false => true
      | _ => listed (dget d "code") ||
             match dget d "details" with PDict details => listed (dget details "error_code") | _ => false end
      end
  | _ => false
  end.

(** [float(v)] where a [TypeError] or a [ValueError] means no value. *)
Definition try_float (v : pyval) : result (option pyfloat) :=
  match py_float v with
  | Ok f => Ok (Some f)
  | Err (TypeError _) | Err (ValueError _) => Ok None
  | Err e => Err e
  end.

(** [max(0.0, x)] *)
Definition fmax0 (x : pyfloat) : pyfloat := if fltb (FFin 0) x then x else FFin 0.

(** Attributes of a loop record *)
Definition iterable_record (total index : nat) (item : pyval) : dict :=
  match item with
  | PDict d => setdefault (setdefault (setdefault d "index" (of_nat index)) "count" (of_nat total)) "u" (fraction index total)
  | _ => [("value", item); ("index", of_nat index); ("u", fraction index total); ("count", of_nat total)]
  end.
Definition _records_from_iterable (items : list pyval) : list dict := imap (iterable_record (length items)) items.

Definition _serpentine_index (env : dict) : result (option Z) :=
  match dget env "__loop_index" with PNone => Ok None | v => Some <$> py_int v end.

Section values.
Context `{HR : !PyRepr, HT : !Templates} {W : Type} `{HW : !SequencerWorld W}.
#[local] Abbreviation st := (runtime W).
#[local] Abbreviation M := (pyM (runtime W)).

Definition _as_float (v : pyval) (what : string) : result pyfloat :=
  match py_float v with
  | Err (TypeError _) | Err (ValueError _) => Err (ValueError (what +:+ ", got " +:+ repr v))
  | r => r
  end.

Definition _as_int (v : pyval) (what : string) : result Z :=
  match py_int v with
  | Err (TypeError _) | Err (ValueError _) => Err (ValueError (what +:+ ", got " +:+ repr v))
  | r => r
  end.

Definition _extract_from_result (r spec : pyval) (label : string) : result pyval :=
  let kind := match spec with PDict d => dget_or d "kind" (PStr "scalar") | _ => PStr "scalar" end in
  let ref := match spec with PDict d => dget d "ref" | _ => PNone end in
  if is_str kind "scalar" then Ok r
  else if is_str kind "key" then
    match r with
    | PDict d =>
        match ref with
        | PList _ | PDict _ => type_error                     (* unhashable *)
        | _ => match match ref with PStr k => od_get d k | _ => None end with
               | Some v => Ok v
               | None =>
                   let keys := join ", " (od_keys d) in
                   Err (ValueError (label +:+ ": result has no key " +:+ repr ref +:+ " (keys: " +:+
                                    (if nonempty keys then keys else "(none)") +:+ ")"))
               end
        end
    | _ => Err (ValueError (label +:+ ": call result is " +:+ _article r +:+ ", not a mapping with key " +:+ repr ref))
    end
  else if is_str kind "index" then
    match match r with PList l => Some (length l) | PStr s => Some (String.length s) | _ => None end with
    | None => Err (ValueError (label +:+ ": call result is " +:+ _article r +:+ ", not a list with index " +:+ repr ref))
    | Some n =>
        match py_index r ref with
        | Some v => Ok v
        | None => Err (ValueError (label +:+ ": cannot take index " +:+ repr ref +:+ " of a result with " +:+
                                   str_Z (Z.of_nat n) +:+ " items"))
        end
    end
  else if is_str kind "attr" then
    match match ref with PStr a => q_getattr r a | _ => None end with
    | Some v => Ok v
    | None => Err (ValueError (label +:+ ": call result (" +:+ type_label r +:+ ") has no attribute " +:+ repr ref))
    end
  else Err (ValueError (label +:+ ": unknown extractor kind " +:+ repr kind)).

Definition _response_error_text (resp : dict) (target : option string) : string :=
  let error := dget resp "error" in
  let rest := if truthy error then py_str error else "request failed" in
  match error with
  | PDict e =>
      let code := dget e "code" in
      let who := if opt_true target then "process " +:+ repr_str (default "" target) else "the process" in
      let message :=
        if negb (truthy (dget e "message")) && py_eqb code (PStr "unknown_process")
        then PStr (who +:+ " is not registered with the manager")
        else if negb (truthy (dget e "message")) && py_eqb code (PStr "process_not_running")
        then PStr (who +:+ " is not running")
        else dget e "message" in
      if truthy message && truthy code then py_str message +:+ " (" +:+ py_str code +:+ ")"
      else if truthy message then py_str message
      else if truthy code then py_str code
      else rest
  | _ => rest
  end.

(** ** Calls and telemetry *)
Definition env_view (s : st) : Env := _build_env_view (rt_env s) (rt_vars s).
Definition _env_view : M Env := gets env_view.
Definition set_env (k : string) (v : pyval) : M unit := modify (fun s => s <| rt_env := od_set (rt_env s) k v |>).

Definition _dispatch_call (device : string) (process : option string) (action : string) (params : pyval) : M dict :=
  if opt_true process then
    match q_call_process with
    | None => mret [("ok", PBool false); ("error", PStr "process calls not supported (call_process not wired)")]
    | Some f => outside (f (default "" process) action params)
    end
  else outside (q_call_device device action params).

Definition _dispatch_get_telemetry (device : string) (process : option string) (signal : string) : M (option dict) :=
  if opt_true process then
    match q_get_process_telemetry with
    | None => mret None
    | Some f => outside (f (default "" process) signal)
    end
  else outside (q_get_telemetry device signal).

(** Of [age_s], the age since [t_mono_recv] and since [t_mono], the first that
    is a number. *)
Definition age_field (sample : dict) (k : string) (since : bool) (other : M (option pyfloat)) : M (option pyfloat) :=
  if number_or_text (dget sample k) then
    now ← (if since then (t ← monotonic; mret (FFin t)) else mret (FFin 0));
    x ← lift (try_float (dget sample k));
    match x with
    | Some f => mret (Some (fmax0 (if since then fsub now f else f)))
    | None => other
    end
  else other.

Definition _telemetry_sample_age_s (sample : dict) : M (option pyfloat) :=
  age_field sample "age_s" false (age_field sample "t_mono_recv" true (age_field sample "t_mono" true (mret None))).

(** [str(render_templates(v, env) or "").strip()] *)
Definition render_text (env : Env) (v : pyval) : result string :=
  r ← tp_render env v;
  Ok (strip (py_str (py_or r (PStr "")))).

Definition _render_call_target (call_spec : dict) (env : Env) : result (string * option string * string) :=
  device ← render_text env (dget_or call_spec "device" (PStr ""));
  process ← render_text env (dget_or call_spec "process" (PStr ""));
  action ← render_text env (dget_or call_spec "action" (PStr ""));
  if nonempty device && nonempty process then
    Err (ValueError "call may set only one of device / process after rendering")
  else if (negb (nonempty device) && negb (nonempty process)) || negb (nonempty action) then
    Err (ValueError "call target rendered empty device/process or action")
  else Ok (device, or_none process, action).

Definition resolve_telemetry (env : Env) (raw : pyval) : M pyval :=
  rendered ← lift (tp_render env raw);
  match rendered with
  | PDict spec =>
      let device := py_str (dget_or spec "device" (PStr "")) in
      let process := py_str (dget_or spec "process" (PStr "")) in
      let signal := py_str (dget_or spec "signal" (PStr "")) in
      if (negb (nonempty device) && negb (nonempty process)) || negb (nonempty signal) then mret PNone
      else
        max_age ← lift (py_float (match dget_or spec "max_age_s" (PInt 0) with PNone => PInt 0 | v => v end));
        sample ← _dispatch_get_telemetry device (or_none process) signal;
        match sample with
        | None | Some [] => mret PNone
        | Some sample =>
            age ← _telemetry_sample_age_s sample;
            if negb (fzero max_age) && match age with None => true | Some a => fltb max_age a end
            then mret PNone
            else mret (dget sample "value")
        end
  | _ => mret PNone
  end.

Definition resolve_call (env : Env) (raw : pyval) : M pyval :=
  match raw with
  | PDict call_spec =>
      view ← _env_view;
      '(device, process, action) ← lift (_render_call_target call_spec view);
      let params := match py_or (dget_or call_spec "params" (PDict [])) (PDict []) with PDict d => PDict d | _ => PDict [] end in
      params ← lift (tp_render env params);
      resp ← _dispatch_call device process action params;
      if negb (truthy (dget resp "ok")) then
        raise (CallFailed ("call " +:+ default device process +:+ "." +:+ action +:+ " failed: " +:+
                           _response_error_text resp process) (permanent (dget resp "error")))
      else
        match dget call_spec "extract" with
        | PDict e => lift (_extract_from_result (dget resp "result") (PDict e) "extract")
        | _ => mret (dget resp "result")
        end
  | _ => mret PNone
  end.

Fixpoint _resolve_value (env : Env) (v : pyval) {struct v} : M pyval :=
  match v with
  | PDict d =>
      if dhas d "telemetry" then resolve_telemetry env (dget d "telemetry")
      else if dhas d "call" then resolve_call env (dget d "call")
      else
        (fix go (d : dict) : M dict :=
           match d with
           | [] => mret []
           | (k, x) :: rest => y ← _resolve_value env x; ys ← go rest; mret ((k, y) :: ys)
           end) d ≫= fun out => mret (PDict out)
  | PList l =>
      (fix go (l : list pyval) : M (list pyval) :=
         match l with
         | [] => mret []
         | x :: rest => y ← _resolve_value env x; ys ← go rest; mret (y :: ys)
         end) l ≫= fun out => mret (PList out)
  | _ => lift (tp_render env v)
  end.

(** ** Conditions *)
Definition _condition_holds (cond : pyval) (view : Env) : M bool :=
  v ← _resolve_value view cond;
  lift (tp_condition view v).

Definition not_evaluated (kind : string) (e : pyexc) : pyexc :=
  ValueError (kind +:+ " condition could not be evaluated: " +:+ exc_str e).

(** While polling, a failure for want of a value is "not yet". *)
Definition not_yet (e : pyexc) : bool :=
  match e with
  | CallFailed _ permanent => negb permanent
  | OperandError _ none_involved => none_involved
  | TemplateError _ | UnknownNameError _ _ | ValueTooLargeError _ => false
  | _ => true
  end.

Definition _eval_condition (cond : pyval) (kind : string) (polling : bool) : M bool := fun s =>
  match _condition_holds cond (env_view s) s with
  | (Ok b, s) => (Ok b, s)
  | (Err e, s) =>
      if polling && not_yet e then
        (Ok false, match e, rt_wait_state s with
                   | CallFailed m _, Some w => s <| rt_wait_state := Some (w <| ws_last_call_error := Some m |>) |>
                   | _, _ => s
                   end)
      else (Err (not_evaluated kind e), s)
  end.

(** ** Loop records *)
Definition _record_index (record : dict) (fallback : Z) : Z :=
  match py_int (dget_or record "index" (PInt fallback)) with Ok i => i | Err _ => fallback end.

Definition _bind_record (bind : list (string * string)) (record : dict) (index : Z) : M unit :=
  _ ← forM (fun '(source, name) =>
        match od_get record source with
        | None => raise (KeyError ("loop record is missing bound field " +:+ repr_str source))
        | Some v => set_env name v
        end) bind;
  set_env "__loop_index" (PInt (_record_index record index)).

Definition _records_from_rendered (rendered : pyval) (view : Env) (serpentine_index : option Z) : result (list dict) :=
  match rendered with
  | PList l => Ok (_records_from_iterable l)
  | PDict d =>
      match od_get d "gen" with
      | Some (PDict gen) => tp_generate gen view serpentine_index
      | _ => Ok (_records_from_iterable [rendered])
      end
  | _ => Ok (_records_from_iterable [rendered])
  end.

Definition _resolve_iterable (value : pyval) : M (list dict) :=
  view ← _env_view;
  rendered ← lift (tp_render view value);
  env ← gets rt_env;
  k ← lift (_serpentine_index env);
  lift (_records_from_rendered rendered view k).
End values.
