(* ===== verification/SequencerParallel.v ===== *)
(** * Parallel steps ([sequencer/runtime.py])

    How a parallel step is split into branches that share no target and no
    output, and how one branch runs in a worker.  Where a branch clashes with
    others in several ways the source reports one of them; the model reports
    the first. *)
From S2P Require Import Prelude PyVal PyNum PyOps Expressions Conditions Responses ProcessBase.
From S2P Require Import SequencerData SequencerValues.
#[local] Open Scope Z_scope.

(** [except (TypeError, ValueError)] *)
Definition type_or_value_error (e : pyexc) : bool :=
  match e with
  | TypeError _ | ValueError _ | ConfigError _ _ | TemplateError _ | UnknownNameError _ _ | ValueTooLargeError _
  | OperandError _ _ | YamlLoadError _ _ _ _ => true
  | _ => false
  end.

(** [extract_value] of [_driver/plans.py]; [value[ref]] *)
Definition py_getitem (v ref : pyval) : result pyval :=
  match v, ref with
  | PDict d, PStr k => match od_get d k with Some x => Ok x | None => Err (KeyError k) end
  | PDict _, (PList _ | PDict _) => type_error
  | PDict _, _ => Err (KeyError "")
  | _, _ => match py_index v ref with
            | Some x => Ok x
            | None => match v, as_int ref with
                      | PList _, Some _ | PStr _, Some _ => Err (IndexError "")
                      | _, _ => type_error
                      end
            end
  end.

Section parallel.
Context `{HR : !PyRepr, HT : !Templates} {W : Type} `{HW : !SequencerWorld W}.

Definition extract_value (v kind ref : pyval) : result pyval :=
  if is_str kind "scalar" then Ok v
  else if is_none ref then Err (ValueError ("Extractor kind " +:+ repr kind +:+ " requires ref"))
  else if is_str kind "index" || is_str kind "key" then py_getitem v ref
  else if is_str kind "attr" then
    match ref with
    | PStr a => match q_getattr v a with Some x => Ok x | None => Err (AttributeError a) end
    | _ => Err (TypeError "attr extractor requires str ref")
    end
  else Err (ValueError ("Unknown extractor kind " +:+ repr kind)).

Definition parallel_repeat_count (times : pyval) (env : Env) : result Z :=
  match (v ← tp_render env times; py_int v) with
  | Err e => if type_or_value_error e then Err (ValueError "parallel repeat.times must render to an integer") else Err e
  | Ok n => if n <=? 0 then Err (ValueError "parallel repeat.times must be greater than zero") else Ok n
  end.

Definition is_leaf (x : step) : bool :=
  match x with CallStep _ _ _ _ _ _ _ _ | SetStep _ _ _ _ => true | _ => false end.

Fixpoint body_operations (kind : string) (index : Z) (body : list step) : result (list ParallelBranchOperation) :=
  match body with
  | [] => Ok []
  | child :: rest =>
      if disabled child then body_operations kind (index + 1) rest
      else if is_leaf child then
        ops ← body_operations kind (index + 1) rest;
        Ok (mkOperation (Some index) child :: ops)
      else Err (ValueError ("parallel " +:+ kind +:+ " branches currently support only " +:+ "call and set steps"))
  end.

Definition parallel_branch_operations (x : step) (env : Env) : result (list ParallelBranchOperation) :=
  match x with
  | CallStep _ _ _ _ _ _ _ _ | SetStep _ _ _ _ => Ok [mkOperation None x]
  | AtomicStep _ _ body => body_operations "atomic" 0 body
  | RepeatStep _ times body => _ ← parallel_repeat_count times env; body_operations "repeat" 0 body
  | _ => Err (ValueError "parallel branches currently support only call, set, atomic, and repeat steps")
  end.

Definition parallel_step_output_names (x : step) : list string :=
  match x with
  | CallStep _ _ _ _ save_as extract assign _ =>
      (if opt_true save_as then [default "" save_as] else []) ++
      (if dict_true extract then [if opt_true save_as then default "" save_as else "value"] else []) ++
      match assign with Some d => od_keys d | None => [] end
  | _ => []
  end.

(** The device ([false]) or process ([true]) an operation goes to *)
Definition target : Type := bool * string.

Definition operation_target (path : string) (env : Env) (x : step) : result target :=
  match x with
  | SetStep _ device _ _ =>
      d ← render_text env (PStr device);
      if nonempty d then Ok (false, d) else Err (ValueError (path +:+ ": set.device rendered empty"))
  | CallStep _ device _ _ _ _ _ process =>
      d ← render_text env (PStr device);
      p ← render_text env (PStr (default "" process));
      if nonempty d && nonempty p then Err (ValueError (path +:+ ": call may set only one of device / process"))
      else if nonempty p then Ok (true, p)
      else if nonempty d then Ok (false, d)
      else Err (ValueError (path +:+ ": call target rendered empty"))
  | _ => Err (ValueError "")                                     (* not an operation *)
  end.

Definition target_kind (t : target) : string := if fst t then "process" else "device".

(** Owners so far, of targets and of output names *)
Definition owners : Type := list (target * Z) * list (string * Z).

Definition claim_branch (index : Z) (targets : list target) (outputs : list string) (o : owners) : result owners :=
  match list_find (fun t => is_Some (od_get (fst o) t)) targets with
  | Some (_, t) =>
      Err (ValueError ("parallel branches " +:+ str_Z (default 0 (od_get (fst o) t)) +:+ " and " +:+ str_Z index +:+
                       " both target " +:+ target_kind t +:+ " " +:+ repr_str (snd t)))
  | None =>
      match list_find (fun n => is_Some (od_get (snd o) n)) outputs with
      | Some (_, n) =>
          Err (ValueError ("parallel branches " +:+ str_Z (default 0 (od_get (snd o) n)) +:+ " and " +:+ str_Z index +:+
                           " both write output " +:+ repr_str n))
      | None => Ok (foldl (fun acc t => od_set acc t index) (fst o) targets,
                    foldl (fun acc n => od_set acc n index) (snd o) outputs)
      end
  end.

Definition plan_branch (env : Env) (parent_path : string) (index : Z) (branch : step) (o : owners)
    : result (ParallelBranchPlan * owners) :=
  ops ← parallel_branch_operations branch env;
  let path := parent_path +:+ ".parallel.do[" +:+ str_Z index +:+ "]" in
  targets ← mapM (fun p => operation_target path env (op_step p)) ops;
  o ← claim_branch index targets (ops ≫= fun p => parallel_step_output_names (op_step p)) o;
  count ← match branch with
          | RepeatStep _ times _ => Some <$> parallel_repeat_count times env
          | _ => Ok None
          end;
  Ok (mkPlan index ops env path (match branch with AtomicStep _ _ _ => true | _ => false end) count, o).

Fixpoint plan_branches (env : Env) (parent_path : string) (index : Z) (body : list step) (o : owners)
    : result (list ParallelBranchPlan) :=
  match body with
  | [] => Ok []
  | branch :: rest =>
      if disabled branch then plan_branches env parent_path (index + 1) rest o
      else
        '(plan, o) ← plan_branch env parent_path index branch o;
        plans ← plan_branches env parent_path (index + 1) rest o;
        Ok (plan :: plans)
  end.

(** ** A branch in a worker *)
Record branch_env := mkBranchEnv { be_env : dict; be_outputs : dict }.
Definition be_set (k : string) (v : pyval) (b : branch_env) : branch_env :=
  mkBranchEnv (od_set (be_env b) k v) (od_set (be_outputs b) k v).

Fixpoint assign_outputs (r : pyval) (items : dict) (b : branch_env) : result branch_env :=
  match items with
  | [] => Ok b
  | (key, PDict spec) :: rest =>
      v ← extract_value r (dget_or spec "kind" (PStr "scalar")) (dget spec "ref");
      assign_outputs r rest (be_set key v b)
  | _ :: rest => assign_outputs r rest b
  end.

(** What a call leaves in the environment of its branch. *)
Definition call_outputs (save_as : option string) (extract assign : option dict) (response : dict) (b : branch_env)
    : result branch_env :=
  if dict_true extract && dict_true assign then Err (ValueError "extract and assign are mutually exclusive")
  else
    let b := if opt_true save_as then be_set (default "" save_as) (PDict response) b else b in
    b ← match extract with
        | Some (kv :: e) =>
            v ← extract_value (dget response "result") (dget_or (kv :: e) "kind" (PStr "scalar")) (dget (kv :: e) "ref");
            Ok (be_set (if opt_true save_as then default "" save_as else "value") v b)
        | _ => Ok b
        end;
    match assign with
    | Some d => assign_outputs (dget response "result") d b
    | None => Ok b
    end.

Definition response_failure (response : dict) : pyexc :=
  let error := match dget response "error" with
               | PDict e => py_or (py_or (dget e "message") (dget e "code")) (PDict e)
               | v => v
               end in
  RuntimeError (py_str (py_or error (PStr "request failed"))).

Definition run_operation (x : step) (b : branch_env) : W -> result branch_env * W := fun w =>
  let env := be_env b in
  match x with
  | SetStep _ device name value =>
      match (d ← render_text env (PStr device);
             if nonempty d then Ok d else Err (ValueError "set.device rendered empty")) with
      | Err e => (Err e, w)
      | Ok d =>
          match tp_render env value with
          | Err e => (Err e, w)
          | Ok v => match q_call_device d "set" (PDict [("name", PStr name); ("value", v)]) w with
                    | (Ok response, w) => (Ok b, w)
                    | (Err e, w) => (Err e, w)
                    end
          end
      end
  | CallStep _ device action params save_as extract assign process =>
      match (d ← render_text env (PStr device);
             p ← render_text env (PStr (default "" process));
             a ← render_text env (PStr action);
             if nonempty d && nonempty p then Err (ValueError "call may set only one of device / process")
             else if (negb (nonempty d) && negb (nonempty p)) || negb (nonempty a)
             then Err (ValueError "call target rendered empty device/process or action")
             else v ← tp_render env (PDict params); Ok (d, p, a, v)) with
      | Err e => (Err e, w)
      | Ok (d, p, a, v) =>
          let '(r, w) := if nonempty p then
                           match q_call_process with
                           | None => (Err (RuntimeError "process calls not supported"), w)
                           | Some f => f p a v w
                           end
                         else q_call_device d a v w in
          match r with
          | Err e => (Err e, w)
          | Ok response =>
              (if negb (truthy (dget response "ok")) then Err (response_failure response)
               else call_outputs save_as extract assign response b, w)
          end
      end
  | _ => (Ok b, w)
  end.

Definition operation_path (plan : ParallelBranchPlan) (iteration : Z) (p : ParallelBranchOperation) : string :=
  let source := match op_source_index p with Some i => str_Z i | None => "None" end in
  match pp_repeat_count plan with
  | Some n => pp_path plan +:+ ".repeat.do[" +:+ source +:+ "] (iteration " +:+ str_Z (iteration + 1) +:+ "/" +:+
              str_Z n +:+ ")"
  | None => if pp_atomic plan then pp_path plan +:+ ".atomic.do[" +:+ source +:+ "]" else pp_path plan
  end.

(** Operations in order, up to the first that fails: its error and path. *)
Fixpoint run_operations (plan : ParallelBranchPlan) (ops : list (Z * ParallelBranchOperation)) (b : branch_env)
    : W -> (branch_env + pyexc * string) * W := fun w =>
  match ops with
  | [] => (inl b, w)
  | (i, p) :: rest =>
      match run_operation (op_step p) b w with
      | (Ok b, w) => run_operations plan rest b w
      | (Err e, w) => (inr (e, operation_path plan i p), w)
      end
  end.

Definition iterations (plan : ParallelBranchPlan) : list (Z * ParallelBranchOperation) :=
  let n := match pp_repeat_count plan with Some 0 | None => 1 | Some n => n end in
  seq 0 (Z.to_nat n) ≫= fun i => (fun p => (Z.of_nat i, p)) <$> pp_operations plan.

Definition run_parallel_branch (plan : ParallelBranchPlan) : W -> ParallelBranchResult * W := fun w =>
  match run_operations plan (iterations plan) (mkBranchEnv (pp_env plan) []) w with
  | (inl b, w) => (mkBranchResult (pp_index plan) true (be_outputs b) None None, w)
  | (inr (e, path), w) => (mkBranchResult (pp_index plan) false [] (Some (exc_str e)) (Some path), w)
  end.
End parallel.
