(* ===== verification/SequencerWait.v ===== *)
(** * Waiting for a condition ([sequencer/runtime.py])

    [wait_until]: sample at intervals, reduce the samples of a window, and go
    on once the condition has held long enough, or fail at the timeout. *)
From S2P Require Import Prelude PyVal PyNum PyOps Expressions Conditions Responses ProcessBase.
From S2P Require Import AdaptiveController SequencerData SequencerCore SequencerValues.
#[local] Open Scope Z_scope.

Definition _MIN_WAIT_EVERY_S : pyfloat := FFin (5 # 1000).

(** [max(a, b)] *)
Definition float_max (a b : pyfloat) : pyfloat := if fltb a b then b else a.

(** [sum(values)] *)
Fixpoint py_sum (acc : pyval) (l : list pyval) : result pyval :=
  match l with
  | [] => Ok acc
  | x :: rest => acc ← py_add acc x; py_sum acc rest
  end.

Section wait.
Context `{HR : !PyRepr, HT : !Templates} {W : Type} `{HW : !SequencerWorld W}.
#[local] Abbreviation st := (runtime W).
#[local] Abbreviation M := (pyM (runtime W)).

Definition render_seconds (env : Env) (raw : dict) (name : string) (dflt : pyval) : result pyfloat :=
  v ← tp_render env (match dget_or raw name dflt with PNone => dflt | v => v end);
  _as_float v ("wait_until." +:+ name +:+ " must be a number").

Definition max_samples_of (env : Env) (reduce_spec : option dict) : Z :=
  let n := match reduce_spec with
           | Some d => match dget d "max_samples" with
                       | PNone => 10000
                       | v => match (r ← tp_render env v; py_int r) with Ok n => n | Err _ => 10000 end
                       end
           | None => 10000
           end in
  Z.max 1 n.

Definition _start_wait_until (raw : dict) : M unit :=
  env ← _env_view;
  timeout_s ← lift (render_seconds env raw "timeout_s" (PInt 0));
  every_s ← lift (render_seconds env raw "every_s" (PFloat (FFin (1 # 10))));
  stable_for_s ← lift (render_seconds env raw "stable_for_s" (PInt 0));
  sample ← lift (tp_render env (dget_or raw "sample" (PDict [])));
  reduce ← lift (match dget raw "reduce" with PDict d => tp_render env (PDict d) | _ => Ok PNone end);
  let reduce_spec := match reduce with PDict d => Some d | _ => None end in
  now ← monotonic;
  modify (fun s => s <| rt_wait_state :=
    Some (mkWait now timeout_s (float_max every_s _MIN_WAIT_EVERY_S) (FFin now) stable_for_s (dget raw "condition")
            (match sample with PDict d => d | _ => [] end) reduce_spec [] (max_samples_of env reduce_spec)
            None PNone None None None None) |>).

Definition _describe_condition (cond : pyval) (limit : nat) : string :=
  let text := match tp_json_dumps cond with Ok t => t | Err _ => py_str cond end in
  if (String.length text <=? limit)%nat then text else String.substring 0 (limit - 3) text +:+ "...".

Definition _wait_timeout_message (ws : wait_state) : string :=
  let seen :=
    match ws_last_value ws with
    | PNone =>
        match ws_telemetry_label ws, ws_last_age_s ws with
        | Some label, Some age =>
            if nonempty label then
              "latest telemetry for " +:+ label +:+ " is " +:+ tp_format_1f age +:+ "s old (max_age_s=" +:+
              tp_format_g (match ws_telemetry_max_age_s ws with Some m => if fzero m then FFin 0 else m | None => FFin 0 end) +:+ ")"
            else "no sample was received"
        | Some label, None =>
            if nonempty label then
              "no telemetry for " +:+ label +:+ " (" +:+
              match ws_telemetry_max_age_s ws with
              | Some m => if fzero m then "signal not found"
                          else "signal not found or older than max_age_s=" +:+ tp_format_g m
              | None => "signal not found"
              end +:+ ")"
            else "no sample was received"
        | None, _ => "no sample was received"
        end
    | v => "last sample " +:+ _describe_condition v 80 +:+
           match ws_last_age_s ws with Some age => " (" +:+ tp_format_1f age +:+ "s old)" | None => "" end
    end in
  join "; " (["wait_until timed out after " +:+ tp_format_g (ws_timeout_s ws) +:+ "s";
              "condition " +:+ _describe_condition (ws_condition ws) 200 +:+ " was not met"; seen] ++
             match ws_last_call_error ws with
             | Some e => if nonempty e then ["last sample call failed: " +:+ e] else []
             | None => []
             end).

Definition set_wait (w : option wait_state) : M unit := modify (fun s => s <| rt_wait_state := w |>).

(** The time a telemetry sample was taken, where it has one. *)
Definition sample_time (cached : dict) : option pyfloat :=
  let raw := if number_or_text (dget cached "t_mono_recv") then dget cached "t_mono_recv" else dget cached "t_mono" in
  if number_or_text raw then match py_float raw with Ok t => Some t | Err _ => None end else None.

(** What the sample of a telemetry signal says about itself. *)
Definition note_telemetry (spec : pyval) (ws : wait_state) : M (wait_state * option pyfloat) :=
  match spec with
  | PDict spec =>
      let device := py_str (dget_or spec "device" (PStr "")) in
      let process := py_str (dget_or spec "process" (PStr "")) in
      let signal := py_str (dget_or spec "signal" (PStr "")) in
      if (nonempty device || nonempty process) && nonempty signal then
        let ws := ws <| ws_telemetry_label := Some ((if nonempty device then device else process) +:+ "." +:+ signal) |> in
        _ ← set_wait (Some ws);
        max_age ← lift (if truthy (dget spec "max_age_s") then try_float (dget spec "max_age_s") else Ok None);
        let ws := ws <| ws_telemetry_max_age_s := max_age |> in
        _ ← set_wait (Some ws);
        cached ← _dispatch_get_telemetry device (or_none process) signal;
        match cached with
        | Some cached =>
            age ← _telemetry_sample_age_s cached;
            mret (ws <| ws_last_age_s := age |>, sample_time cached)
        | None => mret (ws, None)
        end
      else mret (ws, None)
  | _ => mret (ws, None)
  end.

Definition add_sample (now : Q) (ts : option pyfloat) (sample : pyval) (samples : list (pyfloat * pyval))
    : list (pyfloat * pyval) :=
  match ts with
  | None => samples ++ [(FFin now, sample)]
  | Some t => match last samples with
              | Some (t', _) => if float_eqb t' t then samples else samples ++ [(t, sample)]
              | None => samples ++ [(t, sample)]
              end
  end.

Definition keep_window (now : Q) (reduce_spec : option dict) (samples : list (pyfloat * pyval))
    : result (list (pyfloat * pyval)) :=
  match reduce_spec with
  | Some (kv :: d) =>
      w ← py_float (dget_or (kv :: d) "window_s" (PInt 0));
      Ok (if fzero w then samples else filter (fun tv => fleb (fsub (FFin now) (fst tv)) w = true) samples)
  | _ => Ok samples
  end.

Definition keep_newest (n : Z) (samples : list (pyfloat * pyval)) : list (pyfloat * pyval) :=
  drop (length samples - Z.to_nat n) samples.

Definition reduced (reduce_spec : option dict) (samples : list (pyfloat * pyval)) (sample : pyval) : result pyval :=
  match reduce_spec with
  | Some (kv :: d) =>
      let method := py_str (dget_or (kv :: d) "method" (PStr "mean")) in
      match filter (fun v => is_none v = false) (snd <$> samples) with
      | [] => Ok sample
      | x :: rest =>
          if String.eqb method "mean" then
            total ← py_sum (PInt 0) (x :: rest); py_div total (PInt (Z.of_nat (length (x :: rest))))
          else if String.eqb method "min" then py_minmax CLt [PList (x :: rest)]
          else if String.eqb method "max" then py_minmax CGt [PList (x :: rest)]
          else Ok (List.last (x :: rest) x)
      end
  | _ => Ok sample
  end.

(** The verdict on a sample: done, or wait for the next. *)
Definition settle (now : Q) (ok : bool) : M bool := fun s =>
  match rt_wait_state s with
  | None => (Ok true, s)
  | Some ws =>
      let again ws := (Ok false, s <| rt_wait_state := Some (ws <| ws_next_sample_t := fadd (FFin now) (ws_every_s ws) |>) |>) in
      let done_ := (Ok true, s <| rt_wait_state := None |>) in
      if ok then
        if fzero (ws_stable_for_s ws) then done_
        else
          let since := default now (ws_stable_since ws) in
          if fleb (ws_stable_for_s ws) (FFin (now - since)) then done_
          else again (ws <| ws_stable_since := Some since |>)
      else again (ws <| ws_stable_since := None |>)
  end.

(** A sample that was obtained. *)
Definition take_sample (now : Q) (ws : wait_state) (sample : pyval) : M bool :=
  let ws := ws <| ws_last_call_error := None |> <| ws_last_value := sample |> <| ws_last_age_s := None |> in
  _ ← set_wait (Some ws);
  '(ws, ts) ← (if dhas (ws_sample_spec ws) "telemetry" then note_telemetry (dget (ws_sample_spec ws) "telemetry") ws
               else mret (ws, None));
  let ws := ws <| ws_samples := add_sample now ts sample (ws_samples ws) |> in
  _ ← set_wait (Some ws);
  samples ← lift (keep_window now (ws_reduce_spec ws) (ws_samples ws));
  let ws := ws <| ws_samples := keep_newest (ws_max_samples ws) samples |> in
  _ ← set_wait (Some ws);
  value ← lift (reduced (ws_reduce_spec ws) (ws_samples ws) sample);
  _ ← set_env "sample" sample;
  _ ← set_env "samples" (PList (snd <$> ws_samples ws));
  _ ← set_env "sample_reduced" value;
  ok ← _eval_condition (ws_condition ws) "wait_until" true;
  settle now ok.

(** The sample, or the failed call ([except _CallFailed]). *)
Definition try_sample (view : Env) (spec : dict) : M (pyval + string * bool) := fun s =>
  match _resolve_value view (PDict spec) s with
  | (Err (CallFailed m p), s) => (Ok (inr (m, p)), s)
  | (Err e, s) => (Err e, s)
  | (Ok v, s) => (Ok (inl v), s)
  end.

(** Whether the wait is over, one way or the other. *)
Definition _step_wait_until (now : Q) : M bool :=
  blocked ← _check_stop_pause;
  if blocked : bool then mret false
  else
    wait ← gets rt_wait_state;
    match wait with
    | None => mret true
    | Some ws =>
        if negb (fzero (ws_timeout_s ws)) && fltb (ws_timeout_s ws) (FFin (now - ws_start_t ws)) then
          _ ← set_wait None;
          _ ← _fail_step (_wait_timeout_message ws);
          mret true
        else if fltb (FFin now) (ws_next_sample_t ws) then mret false
        else
          view ← _env_view;
          sample ← try_sample view (ws_sample_spec ws);
          match sample with
          | inr (m, true) =>
              _ ← set_wait None;
              _ ← _fail_step ("wait_until sample " +:+ m);
              mret true
          | inr (m, false) =>
              _ ← set_wait (Some (ws <| ws_last_call_error := Some m |>
                                     <| ws_next_sample_t := fadd (FFin now) (ws_every_s ws) |>));
              mret false
          | inl v => take_sample now ws v
          end
    end.
End wait.
