(* ===== verification/SequencerAdaptive.v ===== *)
(** * Adaptive steps ([sequencer/runtime.py])

    A controller proposes parameters, the body of the step runs with them, and
    what was observed is told to the controller, until one of the stopping
    rules holds.  The frame of the step is on top of the stack whenever one of
    these methods runs.  Values are immutable here, so the copies
    [_clone_adaptive_value] makes are the values themselves. *)
From S2P Require Import Prelude PyVal PyNum PyOps Expressions Conditions Responses ProcessBase Ranges.
From S2P Require Import AdaptiveController SequencerData SequencerCore SequencerValues SequencerParallel SequencerWait.
#[local] Open Scope Z_scope.

Definition _ADAPTIVE_OBSERVE_POLL_S : Q := 2 # 100.

(** [min(l)] of a list that begins with [x] *)
Definition float_min (l : list pyfloat) (x : pyfloat) : pyfloat := foldl (fun a b => if fltb b a then b else a) x l.

(** ** Parameters *)
Section space.
Context `{HR : !PyRepr}.

(** [round(x)] of [(value - origin) / step], back on the grid *)
Definition snapped (value origin step_size : pyfloat) : result pyfloat :=
  q ← fdiv (fsub value origin) step_size;
  n ← py_round q;
  Ok (fadd origin (fmul (FFin (inject_Z n)) step_size)).

(** [max(lower, min(upper, value))] *)
Definition clamp (lower upper value : pyfloat) : pyfloat :=
  float_max lower (if fltb value upper then value else upper).

Definition snap_to_grid (name : string) (spec : dict) (lower value : pyfloat) : result pyfloat :=
  let field := "adaptive.space." +:+ name in
  if truthy (dget_or spec "snap" (PBool false)) && negb (is_none (dget spec "step")) then
    match py_float (dget spec "step") with
    | Err _ => Err (TypeError (field +:+ ".step must be numeric"))
    | Ok step_size =>
        if fleb step_size (FFin 0) then Err (ValueError (field +:+ ".step must be > 0"))
        else match py_float (dget_or spec "origin" (PFloat lower)) with
             | Err _ => Err (TypeError (field +:+ ".origin must be numeric"))
             | Ok origin => snapped value origin step_size
             end
    end
  else Ok value.

Definition param_type (spec : dict) : string := lower (text_field spec "type").

Definition _coerce_adaptive_param (name : string) (spec : dict) (raw_value : pyval) : result pyval :=
  let field := "adaptive.space." +:+ name in
  let type := param_type spec in
  if String.eqb type "categorical" then
    match dget spec "choices" with
    | PList (c :: choices) =>
        if existsb (py_eqb raw_value) (c :: choices) then Ok raw_value
        else Err (ValueError ("adaptive controller proposed invalid value " +:+ repr raw_value +:+ " for " +:+ repr_str name))
    | _ => Err (TypeError (field +:+ ".choices must be a non-empty list"))
    end
  else if negb (String.eqb type "float" || String.eqb type "int") then
    Err (ValueError (field +:+ ".type " +:+ repr_str type +:+ " is not supported in v1"))
  else
    match (v ← numeric raw_value; lo ← numeric (dget spec "min"); up ← numeric (dget spec "max"); Ok (v, lo, up)) with
    | Err _ => Err (TypeError (field +:+ " requires numeric min/max and numeric values"))
    | Ok (value, lower, upper) =>
        if fleb upper lower then Err (ValueError (field +:+ " requires max > min"))
        else
          value ← snap_to_grid name spec lower value;
          let value := clamp lower upper value in
          if String.eqb type "int" then PInt <$> py_round value else Ok (PFloat value)
    end.

Fixpoint _apply_adaptive_space (space params_raw : dict) : result dict :=
  match space with
  | [] => Ok []
  | (name, PDict spec) :: rest =>
      match od_get params_raw name with
      | None => Err (KeyError ("adaptive controller proposal is missing parameter " +:+ repr_str name))
      | Some raw_value =>
          v ← _coerce_adaptive_param name spec raw_value;
          params ← _apply_adaptive_space rest params_raw;
          Ok ((name, v) :: params)
      end
  | (name, _) :: _ => Err (TypeError ("adaptive.space." +:+ name +:+ " must be a dict"))
  end.

(** Whether a parameter of an earlier trial fits *)
Definition value_matches (spec : dict) (raw_value : pyval) : bool :=
  let type := param_type spec in
  if String.eqb type "categorical" then
    match dget spec "choices" with PList l => existsb (py_eqb raw_value) l | _ => false end
  else if negb (String.eqb type "float" || String.eqb type "int") then false
  else
    match (v ← numeric raw_value; lo ← numeric (dget spec "min"); up ← numeric (dget spec "max"); Ok (v, lo, up)) with
    | Err _ => false
    | Ok (value, lower, upper) => negb (fltb value lower || fltb upper value || fleb upper lower)
    end.

Definition _trial_matches_adaptive_space (trial space : dict) : bool :=
  match dget trial "params" with
  | PDict params =>
      forallb (fun '(name, spec) =>
        match spec, od_get params name with
        | PDict spec, Some v => value_matches spec v
        | _, _ => false
        end) space
  | _ => false
  end.

Definition same_keys (a b : dict) : bool :=
  forallb (fun k => dhas b k) (od_keys a) && forallb (fun k => dhas a k) (od_keys b).

Definition _select_reusable_adaptive_trials (studies : list (string * dict)) (study_id controller_kind : string)
    (space : dict) : list dict :=
  match od_get studies study_id with
  | None => []
  | Some raw =>
      if negb (String.eqb (text_field raw "controller_kind") controller_kind) then []
      else
        match dget raw "space", dget raw "trials" with
        | PDict old_space, PList trials =>
            if same_keys old_space space then
              omap (fun t => match t with
                             | PDict trial => if truthy (dget trial "ok") && _trial_matches_adaptive_space trial space
                                              then Some trial else None
                             | _ => None
                             end) trials
            else []
        | _, _ => []
        end
  end.

(** ** Observations *)
Definition _adaptive_observe_uses_analysis (observe : dict) : bool :=
  match dget observe "metrics" with
  | PDict metrics =>
      existsb (fun '(_, source) => match source with
                                   | PDict source => String.eqb (text_field source "kind") "analysis_output"
                                   | _ => false
                                   end) metrics
  | _ => false
  end.

Definition new_trial (context_id : Z) (proposal : dict) : dict :=
  let part k := match py_or (dget proposal k) (PDict []) with PDict d => PDict d | _ => PDict [] end in
  [("ok", PBool true); ("context_id", PInt context_id); ("params_raw", part "params_raw"); ("params", part "params");
   ("proposal_meta", part "meta"); ("state", PDict []); ("metrics", PDict []); ("replicates", PDict []);
   ("aggregates", PDict []); ("score", PNone)].

Definition failed_trial (trial : dict) (message : string) : dict :=
  od_set (od_set trial "ok" (PBool false)) "error" (PDict [("message", PStr message)]).
End space.

Section aggregates.
Context `{HT : !Templates}.

Definition _build_adaptive_aggregates (values : list pyval) : result dict :=
  let out := [("n", PInt (Z.of_nat (length values)));
              ("n_ok", PInt (Z.of_nat (length (filter (fun v => is_none v = false) values))))] in
  match floats_of values with
  | [] => Ok out
  | x :: rest =>
      let numbers := x :: rest in
      let count := Z.of_nat (length numbers) in
      mean ← st_fmean tp_statistics numbers;
      std ← (if 1 <? count then st_stdev tp_statistics numbers else Ok (FFin 0));
      median ← st_median tp_statistics numbers;
      sem ← fdiv std (st_sqrt tp_statistics count);
      Ok (out ++ [("mean", PFloat mean); ("std", PFloat std); ("min", PFloat (float_min rest x));
                  ("max", PFloat (foldl float_max x rest)); ("median", PFloat median); ("sem", PFloat sem)])
  end.

Fixpoint _finalize_adaptive_metrics_from_replicates (replicates : dict) : result (dict * dict) :=
  match replicates with
  | [] => Ok ([], [])
  | (name, values) :: rest =>
      let values := match values with PList l => l | _ => [] end in
      stats ← _build_adaptive_aggregates values;
      let metric := match od_get stats "mean" with
                    | Some m => m
                    | None => default PNone (last values)
                    end in
      '(metrics, aggregates) ← _finalize_adaptive_metrics_from_replicates rest;
      Ok ((name, metric) :: metrics, (name, PDict stats) :: aggregates)
  end.
End aggregates.

(** [name_stat] of every aggregate *)
Definition aggregate_names (aggregates : dict) : dict :=
  aggregates ≫= fun '(name, stats) =>
    match stats with
    | PDict stats => (fun '(stat, v) => (name +:+ "_" +:+ stat, v)) <$> stats
    | _ => []
    end.

Section adaptive.
Context `{HR : !PyRepr, HT : !Templates} {W : Type} `{HW : !SequencerWorld W}.
#[local] Abbreviation st := (runtime W).
#[local] Abbreviation M := (pyM (runtime W)).
#[local] Abbreviation L := (pyL (runtime W)).

(** ** The frame of the step *)
Definition current_frame : M adaptive_frame := fun s =>
  match rt_stack s with
  | AdaptiveFrame a _ :: _ => (Ok a, s)
  | _ => (Err (RuntimeError ""), s)                          (* it is on top *)
  end.
Definition on_frame (f : adaptive_frame -> adaptive_frame) : M unit := modify (fun s =>
  match rt_stack s with
  | AdaptiveFrame a body :: rest => s <| rt_stack := AdaptiveFrame (f a) body :: rest |>
  | _ => s
  end).
(** A method of its controller *)
Definition controller_call {A} (f : pyM (adaptive_controller * W) A) : M A :=
  a ← current_frame;
  '(r, c) ← outside (fun w => let '(r, (c, w)) := f (af_controller a, w) in (Ok (r, c), w));
  _ ← on_frame (fun a => a <| af_controller := c |>);
  lift r.

(** ** Studies *)
Definition _coerce_positive_int (raw : pyval) (name : string) : M Z :=
  view ← _env_view;
  match (v ← tp_render view raw; py_int v) with
  | Err _ => raise (TypeError (name +:+ " must be an integer"))
  | Ok n => if n <=? 0 then raise (ValueError (name +:+ " must be > 0")) else mret n
  end.

Definition _create_adaptive_controller (spec : adaptive_spec) (controller space : dict) : M adaptive_controller :=
  repeats ← _coerce_positive_int (dget_or (ad_observe spec) "repeats" (PInt 1)) "adaptive.observe.repeats";
  outside (create_adaptive_controller q_adaptive controller space repeats).

(** [dict(v)] of a dict *)
Definition as_dict (v : pyval) : M dict := match v with PDict d => mret d | _ => raise (TypeError "") end.

(** A trial told again; whether it was. *)
Definition _replay_adaptive_trial (c : adaptive_controller) (trial : dict) : M (bool * adaptive_controller) :=
  match dget trial "params" with
  | PDict (kv :: params) =>
      params_raw ← as_dict (py_or (dget trial "params_raw") (PDict (kv :: params)));
      meta ← as_dict (py_or (dget trial "proposal_meta") (PDict []));
      let proposal := [("params_raw", PDict params_raw); ("params", PDict (kv :: params)); ("meta", PDict meta)] in
      outside (fun w =>
        match tell q_adaptive proposal trial (c, w) with
        | (Ok _, (c, w)) => (Ok (true, c), w)
        | (Err _, (c, w)) => (Ok (false, c), w)
        end)
  | _ => mret (false, c)
  end.

Fixpoint replay (c : adaptive_controller) (replayed : Z) (trials : list dict) : M (Z * adaptive_controller) :=
  match trials with
  | [] => mret (replayed, c)
  | trial :: rest =>
      '(ok, c) ← _replay_adaptive_trial c trial;
      replay c (if ok : bool then replayed + 1 else replayed) rest
  end.

Definition study_record (kind : string) (space : dict) (trials : list dict) (mode : string) (now : Q) : dict :=
  [("controller_kind", PStr kind); ("space", PDict space); ("trials", PList (PDict <$> trials));
   ("last_mode", PStr mode); ("last_updated_mono", PFloat (FFin now))].

Definition start_mode (s : st) (study_id : string) : string :=
  default "reset" (od_get (ad_start_modes (rt_adaptive s)) study_id).

Definition _prepare_adaptive_study (spec : adaptive_spec) (c : adaptive_controller) (controller space : dict)
    : M (Z * adaptive_controller) :=
  let study_id := ad_id spec in
  mode ← gets (fun s => start_mode s study_id);
  let kind := text_field controller "kind" in
  trials ← gets (fun s => if bool_decide (mode ∈ ["resume"; "warm_start"])
                          then _select_reusable_adaptive_trials (ad_studies (rt_adaptive s)) study_id kind space
                          else []);
  now ← monotonic;
  _ ← on_adaptive (fun a => a <| ad_studies := od_set (ad_studies a) study_id (study_record kind space trials mode now) |>);
  replay c 0 trials.

Definition _store_adaptive_trial (trial : dict) : M unit :=
  a ← current_frame;
  now ← monotonic;                                           (* of the default record *)
  s ← get;
  let study_id := af_study_id a in
  let record := default (study_record (text_field (af_rendered_controller a) "kind") (af_rendered_space a) []
                           (start_mode s study_id) now) (od_get (ad_studies (rt_adaptive s)) study_id) in
  let trials := match dget record "trials" with PList l => l | _ => [] end in
  now ← monotonic;
  let record := od_set (od_set record "trials" (PList (trials ++ [PDict trial]))) "last_updated_mono" (PFloat (FFin now)) in
  on_adaptive (fun a => a <| ad_studies := od_set (ad_studies a) study_id record |>).

(** [adaptive_status] and [clear_adaptive_studies] *)
Definition study_snapshot (raw : dict) : dict :=
  let text k := let v := py_str (py_or (dget_or raw k (PStr "")) (PStr "")) in opt_str (or_none v) in
  [("controller_kind", text "controller_kind");
   ("trial_count", PInt (match dget raw "trials" with PList l => Z.of_nat (length l) | _ => 0 end));
   ("last_mode", text "last_mode")].
Definition _adaptive_studies_snapshot (s : st) : dict :=
  (fun '(k, raw) => (k, PDict (study_snapshot raw))) <$> ad_studies (rt_adaptive s).

Definition clear_adaptive_studies (study_id : option string) : M Z := fun s =>
  let studies := ad_studies (rt_adaptive s) in
  let keep l := s <| rt_adaptive := rt_adaptive s <| ad_studies := l |> |> in
  match study_id with
  | None => (Ok (Z.of_nat (length studies)), keep [])
  | Some k => match od_get studies k with
              | Some _ => (Ok 1, keep (od_pop studies k))
              | None => (Ok 0, s)
              end
  end.

Definition record_analysis_output (payload : pyval) : M unit :=
  match payload with
  | PDict d => on_adaptive (fun a => a <| ad_outputs := last_n 512 (ad_outputs a ++ [d]) |>)
  | _ => mret tt
  end.

(** ** Stopping *)
Definition rendered_limit {A} (read : pyval -> result A) (raw : pyval) (message : string) : M A :=
  view ← _env_view;
  match (v ← tp_render view raw; read v) with
  | Err _ => raise (TypeError message)
  | Ok n => mret n
  end.

(** [limit] of a rule, where it is given *)
Definition stopping_rule {A} (stopping : dict) (name what : string) (read : pyval -> result A) (test : A -> M bool) : M bool :=
  match dget stopping name with
  | PNone => mret false
  | raw => limit ← rendered_limit read raw ("adaptive.stopping." +:+ name +:+ " must be " +:+ what); test limit
  end.

Definition minimizes (a : adaptive_frame) : bool :=
  String.eqb (py_str (py_or (dget_or (af_rendered_controller a) "direction" (PStr "maximize")) (PStr "maximize"))) "minimize".

Definition _adaptive_should_stop (a : adaptive_frame) : M bool :=
  let stopping := default [] (ad_stopping (af_spec a)) in
  trials ← stopping_rule stopping "max_trials" "an integer" py_int
             (fun limit => mret ((0 <=? limit) && (limit <=? af_trials_completed a)));
  if trials : bool then mret true else
  late ← stopping_rule stopping "max_runtime_s" "a number" py_float (fun limit =>
           if fleb (FFin 0) limit then now ← monotonic; mret (fleb limit (FFin (now - af_started_t a))) else mret false);
  if late : bool then mret true else
  reached ← match af_best_score a with
            | None => mret false
            | Some best => stopping_rule stopping "target_score" "a number" py_float (fun target =>
                             mret (if minimizes a then fleb best target else fleb target best))
            end;
  if reached : bool then mret true else
  stopping_rule stopping "patience" "an integer" py_int
    (fun limit => mret ((0 <=? limit) && (limit <=? af_no_improve_trials a))).

(** ** Proposals *)
Definition _prepare_adaptive_proposal : M dict :=
  a ← current_frame;
  raw ← controller_call (suggest q_adaptive);
  match py_or (dget raw "params_raw") (PDict []) with
  | PDict (kv :: params_raw) =>
      match py_or (dget raw "meta") (PDict []) with
      | PDict meta =>
          params ← lift (_apply_adaptive_space (af_rendered_space a) (kv :: params_raw));
          mret [("params_raw", PDict (kv :: params_raw)); ("params", PDict params); ("meta", PDict meta)]
      | _ => raise (TypeError "adaptive controller proposal meta must be a dict")
      end
  | _ => raise (TypeError "adaptive controller proposal must include params_raw")
  end.

Definition _bind_adaptive_proposal (bind : list (string * string)) (proposal : dict) : M unit :=
  match py_or (dget proposal "params") (PDict []), py_or (dget proposal "meta") (PDict []) with
  | PDict params, PDict meta =>
      let source_values := dict_update params meta in
      forM (fun '(source, target) =>
        match od_get source_values source with
        | None => raise (KeyError ("adaptive proposal is missing bound field " +:+ repr_str source))
        | Some v => set_env target v
        end) bind
  | _, _ => raise (TypeError "adaptive proposal params/meta must be dicts")
  end.

(** ** The step *)
Definition _execute_adaptive_step (spec : adaptive_spec) (body : list step) : M bool :=
  match ad_constraints spec with
  | Some (_ :: _) => _fail_step "adaptive.constraints are not supported in v1"
  | _ =>
      view ← _env_view;
      controller ← lift (tp_render view (PDict (ad_controller spec)));
      match controller with
      | PDict rendered_controller =>
          space ← lift (tp_render view (PDict (ad_space spec)));
          match space with
          | PDict rendered_space =>
              c ← _create_adaptive_controller spec rendered_controller rendered_space;
              '(replayed, c) ← _prepare_adaptive_study spec c rendered_controller rendered_space;
              now ← monotonic;
              _ ← modify (fun s => s <| rt_stack :=
                    AdaptiveFrame (mkAdaptiveFrame spec (ad_id spec) c rendered_controller rendered_space now None replayed None 0)
                      body :: rt_stack s |>);
              mret false
          | _ => _fail_step "adaptive.space must render to a dict"
          end
      | _ => _fail_step "adaptive.controller must render to a dict"
      end
  end.

(** ** The end of a trial *)
Definition track_score (trial : dict) (a : adaptive_frame) : adaptive_frame :=
  let worse := a <| af_no_improve_trials := af_no_improve_trials a + 1 |> in
  match score_of trial with
  | None => worse
  | Some score =>
      let better := a <| af_best_score := Some score |> <| af_no_improve_trials := 0 |> in
      match af_best_score a with
      | None => better
      | Some best => if (if minimizes a then fltb score best else fltb best score) then better else worse
      end
  end.
Definition _update_adaptive_tracking (trial : dict) : M unit := on_frame (track_score trial).

Definition _publish_adaptive_trial_env (trial : dict) : M unit :=
  modify (fun s =>
    let env := match sub_dict trial "metrics" with Some m => dict_update (rt_env s) m | None => rt_env s end in
    let env := match sub_dict trial "aggregates" with Some a => dict_update env (aggregate_names a) | None => env end in
    s <| rt_env := match od_get trial "score" with Some v => od_set env "score" v | None => env end |>).

(** [controller.tell(proposal, trial)] and the record of the study, where a
    failing trial does not end the run *)
Definition tell_and_store (fail_on_trial_error : bool) (proposal trial : dict) : M unit :=
  _ ← (if truthy (dget trial "ok") || negb fail_on_trial_error
       then controller_call (tell q_adaptive proposal trial) else mret tt);
  _store_adaptive_trial trial.

Definition _finalize_adaptive_trial (proposal trial : dict) : M unit :=
  let trial := od_pop trial "_observe_started_mono" in
  a ← current_frame;
  _ ← _update_adaptive_tracking trial;
  _ ← _publish_adaptive_trial_env trial;
  let fail_on := ad_fail_on_trial_error (af_spec a) in
  told ← (fun s => let '(r, s) := tell_and_store fail_on proposal trial s in (Ok r, s));
  _ ← on_frame (fun a => a <| af_proposal := None |> <| af_trials_completed := af_trials_completed a + 1 |>);
  _ ← lift told;
  if negb (truthy (dget trial "ok")) && fail_on then
    let error := match sub_dict trial "error" with Some d => d | None => [] end in
    modify (fun s => s <| rt_last_error := Some (py_str (py_or (dget error "message") (PStr "adaptive trial failed"))) |>
                       <| rt_state := ERROR |>)
  else mret tt.

(** ** Sources *)

(** Until a sample is there and fresh, or the time is over *)
Fixpoint poll_telemetry (fuel : nat) (device process signal : string) (timeout_s max_age_s deadline : pyfloat) : L pyval :=
  match fuel with
  | O => fun _ => None
  | S fuel =>
      sample ← up (_dispatch_get_telemetry device (or_none process) signal);
      fresh ← up (match sample with
                  | None | Some [] => mret None
                  | Some d =>
                      age ← _telemetry_sample_age_s d;
                      mret (if fzero max_age_s || match age with Some a => fleb a max_age_s | None => false end
                            then Some (dget d "value") else None)
                  end);
      match fresh with
      | Some v => mret v
      | None =>
          over ← (if fleb timeout_s (FFin 0) then mret true else t ← up monotonic; mret (fleb deadline (FFin t)));
          if over : bool then
            up (raise (RuntimeError ("adaptive telemetry source timed out for " +:+
                                     (if nonempty process then process else device) +:+ "." +:+ signal)))
          else poll_telemetry fuel device process signal timeout_s max_age_s deadline
      end
  end.

Definition _sample_adaptive_telemetry (fuel : nat) (config : dict) : L pyval :=
  let device := text_field config "device" in
  let process := text_field config "process" in
  let signal := text_field config "signal" in
  if (negb (nonempty device) && negb (nonempty process)) || negb (nonempty signal) then
    up (raise (ValueError "adaptive telemetry source requires device-or-process and signal"))
  else
    timeout_s ← up (lift (py_float (py_or (dget_or config "timeout_s" (PFloat (FFin 0))) (PFloat (FFin 0)))));
    max_age_s ← up (lift (py_float (py_or (dget_or config "max_age_s" (PFloat (FFin 0))) (PFloat (FFin 0)))));
    now ← up monotonic;
    poll_telemetry fuel device process signal timeout_s max_age_s (fadd (FFin now) (fmax0 timeout_s)).

Definition _sample_adaptive_call (config : dict) : M pyval :=
  view ← _env_view;
  '(device, process, action) ← lift (_render_call_target config view);
  match py_or (dget_or config "params" (PDict [])) (PDict []) with
  | PDict params =>
      rendered ← lift (tp_render view (PDict params));
      resp ← _dispatch_call device process action rendered;
      if negb (truthy (dget_or resp "ok" (PBool false))) then
        raise (RuntimeError (py_str (dget_or resp "error" (PStr "adaptive call source failed"))))
      else
        match dget config "extract" with
        | PDict e => lift (extract_value (dget resp "result") (dget_or e "kind" (PStr "scalar")) (dget e "ref"))
        | _ => mret (dget resp "result")
        end
  | _ => raise (TypeError "adaptive call source params must be a dict")
  end.

Definition _sample_adaptive_source (fuel : nat) (source : pyval) : L pyval :=
  match source with
  | PDict source =>
      let kind := text_field source "kind" in
      match py_or (dget source "config") (PDict []) with
      | PDict config =>
          view ← up _env_view;
          rendered ← up (lift (tp_render view (PDict config)));
          match rendered with
          | PDict rendered =>
              if String.eqb kind "analysis_output" then
                up (raise (RuntimeError
                  "adaptive analysis_output sources are asynchronous and must be sampled by the adaptive runtime"))
              else if String.eqb kind "telemetry" then _sample_adaptive_telemetry fuel rendered
              else if String.eqb kind "call" then up (_sample_adaptive_call rendered)
              else up (raise (ValueError ("unsupported adaptive source kind " +:+ repr_str kind)))
          | _ => up (raise (TypeError "adaptive source config must render to a dict"))
          end
      | _ => up (raise (TypeError "adaptive source config must be a dict"))
      end
  | _ => up (raise (TypeError "adaptive source specs must be dicts"))
  end.

Fixpoint _collect_adaptive_state (fuel : nat) (state_spec : dict) : L dict :=
  match state_spec with
  | [] => mret []
  | (name, source) :: rest =>
      v ← _sample_adaptive_source fuel source;
      out ← _collect_adaptive_state fuel rest;
      mret ((name, v) :: out)
  end.

(** One value of each metric, added to its replicates *)
Fixpoint sample_metrics (fuel : nat) (metrics_spec replicates : dict) : L dict :=
  match metrics_spec with
  | [] => mret replicates
  | (name, source) :: rest =>
      v ← _sample_adaptive_source fuel source;
      let bucket := match dget replicates name with PList l => l | _ => [] end in
      sample_metrics fuel rest (od_set replicates name (PList (bucket ++ [v])))
  end.
Fixpoint sample_repeats (fuel n : nat) (metrics_spec replicates : dict) : L dict :=
  match n with
  | O => mret replicates
  | S n => replicates ← sample_metrics fuel metrics_spec replicates; sample_repeats fuel n metrics_spec replicates
  end.

Definition empty_replicates (metrics_spec : dict) : dict := (fun '(name, _) => (name, PList [])) <$> metrics_spec.

Definition _collect_adaptive_metrics (fuel : nat) (observe : dict) : L (dict * dict * dict) :=
  match dget observe "metrics" with
  | PDict (kv :: metrics_spec) =>
      repeats ← up (_coerce_positive_int (dget_or observe "repeats" (PInt 1)) "adaptive.observe.repeats");
      replicates ← sample_repeats fuel (Z.to_nat repeats) (kv :: metrics_spec) (empty_replicates (kv :: metrics_spec));
      '(metrics, aggregates) ← up (lift (_finalize_adaptive_metrics_from_replicates replicates));
      mret (metrics, replicates, aggregates)
  | _ => up (raise (TypeError "adaptive.observe.metrics must be a non-empty dict"))
  end.

Definition _compute_adaptive_score (observe metrics aggregates : dict) : M pyval :=
  view ← _env_view;
  let env := dict_update (dict_update view metrics) (aggregate_names aggregates) in
  match dget observe "score" with
  | PNone => mret (match metrics with [(_, v)] => v | _ => PNone end)
  | score_spec => lift (tp_render env score_spec)
  end.

(** [except Exception as exc] of a trial *)
Definition or_failed {A} (trial : dict) (m : L A) (k : A -> L dict) : L dict := fun s =>
  match m s with
  | None => None
  | Some (Err e, s) => Some (Ok (failed_trial trial (exc_str e)), s)
  | Some (Ok a, s) => k a s
  end.

Definition _collect_adaptive_trial (fuel : nat) (spec : adaptive_spec) (proposal : dict) : L dict :=
  context_id ← up (gets rt_context_id);
  let trial := new_trial context_id proposal in
  or_failed trial (if dict_true (ad_state spec) then _collect_adaptive_state fuel (default [] (ad_state spec)) else mret [])
    (fun state =>
  let trial := od_set trial "state" (PDict state) in
  or_failed trial (_collect_adaptive_metrics fuel (ad_observe spec)) (fun '(metrics, replicates, aggregates) =>
  let trial := od_set (od_set (od_set trial "metrics" (PDict metrics)) "replicates" (PDict replicates))
                 "aggregates" (PDict aggregates) in
  or_failed trial (up (_compute_adaptive_score (ad_observe spec) metrics aggregates)) (fun score =>
  let trial := od_set trial "score" score in
  mret (if is_none score then failed_trial trial "adaptive step requires a numeric score in v1"
        else match py_float score with
             | Ok f => od_set trial "score" (PFloat f)
             | Err _ => failed_trial trial "adaptive score must be numeric"
             end)))).

(** ** Observing outputs of an analysis *)
Definition on_observing (f : observe_state -> observe_state) : M unit :=
  on_adaptive (fun a => a <| ad_observing := f <$> ad_observing a |>).
Definition on_trial (f : dict -> dict) : M unit := on_observing (fun o => o <| ob_trial := f (ob_trial o) |>).

Definition _start_adaptive_observation (fuel : nat) (proposal : dict) : L unit :=
  a ← up current_frame;
  context_id ← up (gets rt_context_id);
  let trial := new_trial context_id proposal in
  let spec := af_spec a in
  state ← (fun s => match (if dict_true (ad_state spec) then _collect_adaptive_state fuel (default [] (ad_state spec)) else mret []) s with
                    | None => None
                    | Some (r, s) => Some (Ok r, s)
                    end : option (result (result dict) * st));
  match state with
  | Err e => up (_finalize_adaptive_trial proposal (failed_trial trial (exc_str e)))
  | Ok state =>
      let trial := od_set trial "state" (PDict state) in
      match dget (ad_observe spec) "metrics" with
      | PDict (kv :: metrics_spec) =>
          repeats ← up (_coerce_positive_int (dget_or (ad_observe spec) "repeats" (PInt 1)) "adaptive.observe.repeats");
          let trial := od_set trial "replicates" (PDict (empty_replicates (kv :: metrics_spec))) in
          now ← up monotonic;
          up (set_observing (Some (mkObserve proposal trial repeats (kv :: metrics_spec) 0 now None)))
      | _ => up (_finalize_adaptive_trial proposal (failed_trial trial "adaptive.observe.metrics must be a non-empty dict"))
      end
  end.

Definition _after_adaptive_body (fuel : nat) : L unit :=
  a ← up current_frame;
  match af_proposal a with
  | None => mret tt
  | Some proposal =>
      if _adaptive_observe_uses_analysis (ad_observe (af_spec a)) then _start_adaptive_observation fuel proposal
      else
        trial ← _collect_adaptive_trial fuel (af_spec a) proposal;
        up (_finalize_adaptive_trial proposal trial)
  end.

Definition _extract_analysis_output_value (payload config : dict) : result pyval :=
  match dget config "extract" with
  | PDict e => extract_value (dget payload "value") (dget_or e "kind" (PStr "scalar")) (dget e "ref")
  | _ => Ok (match od_get payload "value" with Some v => v | None => PDict payload end)
  end.

(** What to do with an output: not this one, an old one, or the value. *)
Inductive output_match := NotThis | Stale | Matched.
Definition match_output (workspace_id output_id : string) (require_current : bool) (current : option Z) (payload : dict)
    : output_match :=
  if negb (String.eqb (text_field payload "workspace_id") workspace_id) then NotThis
  else if negb (String.eqb (text_field payload "output_id") output_id) then NotThis
  else if require_current then
    match dget payload "context_id" with
    | PNone => NotThis
    | v => match py_int v, current with
           | Ok k, Some c => if k <? c then Stale else if k =? c then Matched else NotThis
           | _, _ => NotThis
           end
    end
  else Matched.

(** The first output that is one, with its index *)
Fixpoint find_output (f : dict -> output_match) (i : nat) (outputs : list dict) : option (nat * dict * bool) :=
  match outputs with
  | [] => None
  | payload :: rest =>
      match f payload with
      | NotThis => find_output f (S i) rest
      | Stale => Some (i, payload, false)
      | Matched => Some (i, payload, true)
      end
  end.

(** [None] is [_NO_STEP_READY]. *)
Definition _try_sample_analysis_output (source : dict) : M (option pyval) :=
  trial ← gets (fun s => match ad_observing (rt_adaptive s) with Some o => ob_trial o | None => [] end);
  match py_or (dget source "config") (PDict []) with
  | PDict config =>
      view ← _env_view;
      rendered ← lift (tp_render view (PDict config));
      match rendered with
      | PDict rendered =>
          let workspace_id := text_field rendered "workspace_id" in
          let output_id := text_field rendered "output_id" in
          if negb (nonempty workspace_id) || negb (nonempty output_id) then
            raise (ValueError "adaptive analysis_output source requires workspace_id and output_id")
          else
            let require_current := truthy (dget_or rendered "require_current_context" (PBool true)) in
            timeout_s ← lift (py_float (py_or (dget_or rendered "timeout_s" (PFloat (FFin 5))) (PFloat (FFin 0))));
            current ← lift (match dget trial "context_id" with PNone => Ok None | v => Some <$> py_int v end);
            outputs ← gets (fun s => ad_outputs (rt_adaptive s));
            match find_output (match_output workspace_id output_id require_current current) 0 outputs with
            | Some (i, payload, matched) =>
                _ ← on_adaptive (fun a => a <| ad_outputs := delete i (ad_outputs a) |>);
                if matched : bool then v ← lift (_extract_analysis_output_value payload rendered); mret (Some v)
                else mret None
            | None =>
                if fltb (FFin 0) timeout_s then
                  _ ← on_trial (fun t => if is_none (dget t "error") then od_set t "error" (PDict []) else t);
                  now ← monotonic;
                  _ ← on_trial (fun t => setdefault t "_observe_started_mono" (PFloat (FFin now)));
                  trial ← gets (fun s => match ad_observing (rt_adaptive s) with Some o => ob_trial o | None => [] end);
                  now ← monotonic;
                  started ← lift (py_float (dget trial "_observe_started_mono"));
                  if fleb timeout_s (fsub (FFin now) started) then
                    raise (RuntimeError ("adaptive analysis_output timed out for " +:+ workspace_id +:+ "." +:+ output_id))
                  else mret None
                else mret None
            end
      | _ => raise (TypeError "adaptive analysis_output config must render to a dict")
      end
  | _ => raise (TypeError "adaptive analysis_output config must be a dict")
  end.

(** The outputs of this repeat: [None] when one is still missing. *)
Fixpoint analysis_values (metrics_spec values : dict) : M (option dict) :=
  match metrics_spec with
  | [] => mret (Some values)
  | (name, PDict source) :: rest =>
      if String.eqb (text_field source "kind") "analysis_output" then
        v ← _try_sample_analysis_output source;
        match v with
        | None => mret None
        | Some v => analysis_values rest (od_set values name v)
        end
      else analysis_values rest values
  | _ => raise (TypeError "adaptive source specs must be dicts")
  end.

Fixpoint other_values (fuel : nat) (metrics_spec values : dict) : L dict :=
  match metrics_spec with
  | [] => mret values
  | (name, source) :: rest =>
      if dhas values name then other_values fuel rest values
      else v ← _sample_adaptive_source fuel source; other_values fuel rest (od_set values name v)
  end.

(** The values of a repeat join the replicates. *)
Definition add_replicates (values replicates : dict) : dict :=
  foldl (fun reps '(name, v) => od_set reps name (PList (match dget reps name with PList l => l ++ [v] | _ => [v] end)))
    replicates values.

(** Whether it was the last repeat *)
Definition _collect_adaptive_repeat (fuel : nat) (now : Q) (o : observe_state) : L bool :=
  found ← up (analysis_values (ob_metrics_spec o) []);
  match found with
  | None => _ ← up (on_observing (fun o => o <| ob_next_check_t := Some (now + _ADAPTIVE_OBSERVE_POLL_S)%Q |>)); mret false
  | Some values =>
      _ ← up (on_observing (fun o => o <| ob_next_check_t := None |>));
      values ← other_values fuel (ob_metrics_spec o) values;
      _ ← up (on_trial (fun t => match dget t "replicates" with
                                 | PDict reps => od_set t "replicates" (PDict (add_replicates values reps))
                                 | _ => t
                                 end));
      _ ← up (on_observing (fun o => o <| ob_current_repeat := ob_current_repeat o + 1 |>));
      mret (ob_repeats o <=? ob_current_repeat o + 1)
  end.

(** The score of the replicates *)
Definition finish_observed (observe trial : dict) : L dict :=
  let replicates := match sub_dict trial "replicates" with Some d => d | None => [] end in
  or_failed trial (up (lift (_finalize_adaptive_metrics_from_replicates replicates))) (fun '(metrics, aggregates) =>
  let trial := od_set (od_set trial "metrics" (PDict metrics)) "aggregates" (PDict aggregates) in
  or_failed trial (up (_compute_adaptive_score observe metrics aggregates)) (fun score =>
  let trial := od_set trial "score" score in
  or_failed trial (up (if is_none score then raise (RuntimeError "adaptive step requires a numeric score in v1")
                       else lift (py_float score))) (fun f =>
  mret (od_set trial "score" (PFloat f))))).

(** The trial observed so far *)
Definition observed_trial (s : st) : dict := match ad_observing (rt_adaptive s) with Some o => ob_trial o | None => [] end.

Definition finish_observation (proposal trial : dict) : M bool :=
  _ ← set_observing None;
  _ ← _finalize_adaptive_trial proposal trial;
  mret true.

Definition complete_observation (proposal : dict) : L bool :=
  a ← up current_frame;
  trial ← up (gets observed_trial);
  trial ← finish_observed (ad_observe (af_spec a)) trial;
  up (finish_observation proposal trial).

(** Whether the observation is over *)
Definition _step_adaptive_observation (fuel : nat) (now : Q) : L bool :=
  state ← up (gets (fun s => ad_observing (rt_adaptive s)));
  match state with
  | None => mret true
  | Some o =>
      if negb (truthy (dget (ob_trial o) "ok")) then up (finish_observation (ob_proposal o) (ob_trial o))
      else if ob_current_repeat o <? ob_repeats o then
        collected ← except (last ← _collect_adaptive_repeat fuel now o; mret (Ok last)) (fun e => mret (Err e));
        match collected with
        | Ok _ => mret false                                  (* the next call completes it *)
        | Err e =>
            trial ← up (gets observed_trial);
            up (finish_observation (ob_proposal o) (failed_trial trial (exc_str e)))
        end
      else complete_observation (ob_proposal o)
  end.
End adaptive.
