(* ===== verification/SequencerSteps.v ===== *)
(** * The handlers of the steps ([sequencer/runtime.py])

    Each handler answers whether the tick it runs in is over: because the
    step waits for something, pauses the run or has failed. *)
From S2P Require Import Prelude PyVal PyNum PyOps Expressions Conditions Responses ProcessBase.
From S2P Require Import SequencerData SequencerCore SequencerValues SequencerParallel SequencerWait SequencerAdaptive.
#[local] Open Scope Z_scope.

Definition SEQUENCER_RUN_ID_FIELD : string := "sequencer_run_id".

(** ["a.b"] or ["a/b"] at the first separator *)
Definition split_first (sep item : string) : option (string * string) :=
  match py_split sep item with
  | x :: (_ :: _) as parts => Some (x, join sep (tail parts))
  | _ => None
  end.

Definition stream_of `{HR : !PyRepr} (item : pyval) : list (string * string) :=
  match item with
  | PDict d =>
      let device := py_str (dget_or d "device" (PStr "")) in
      let stream := py_str (dget_or d "stream" (PStr "")) in
      if nonempty device && nonempty stream then [(device, stream)] else []
  | PStr s => match split_first "." s with
              | Some p => [p]
              | None => option_list (split_first "/" s)
              end
  | _ => []
  end.
Definition _normalize_streams `{HR : !PyRepr} (streams : pyval) : list (string * string) :=
  match streams with PList l => l ≫= stream_of | _ => [] end.

(** The branches in the order of their index. *)
Definition in_order (results : list ParallelBranchResult) : list ParallelBranchResult := sort_by pr_index results.

Section steps.
Context `{HR : !PyRepr, HT : !Templates} {W : Type} `{HW : !SequencerWorld W}.
#[local] Abbreviation st := (runtime W).
#[local] Abbreviation M := (pyM (runtime W)).

Definition push (f : frame) : M unit := modify (fun s => s <| rt_stack := f :: rt_stack s |>).

(** ** Control flow *)
Definition _execute_for_step (bind : list (string * string)) (in_expr : pyval) (body : list step) : M bool :=
  records ← _resolve_iterable in_expr;
  _ ← push (ForFrame bind records 0 body);
  mret false.

Definition _execute_repeat_step (times : pyval) (body : list step) : M bool :=
  view ← _env_view;
  v ← lift (tp_render view times);
  n ← lift (_as_int v "repeat.times must be an integer");
  _ ← push (RepeatFrame n body);
  mret false.

Definition _execute_if_step (condition : pyval) (then_steps : list step) (else_steps : option (list step)) : M bool :=
  ok ← _eval_condition condition "if" false;
  _ ← push (body_frame (if ok : bool then then_steps else default [] else_steps));
  mret false.

Definition _execute_while_step (condition : pyval) (body : list step) : M bool :=
  _ ← push (WhileFrame condition body 0);
  mret false.

Definition _execute_atomic_step (body : list step) : M bool :=
  _ ← modify (fun s => s <| rt_atomic_depth := rt_atomic_depth s + 1 |>);
  _ ← push (Frame body 0 (Some ExitAtomic) false);
  mret false.

Definition _execute_try_step (body finally_steps : list step) : M bool :=
  _ ← push (TryFrame finally_steps false);
  _ ← push (body_frame body);
  mret false.

Definition _resolve_use_spec (sequence_id : string) : M SequenceSpec :=
  let name := strip sequence_id in
  if negb (nonempty name) then raise (ValueError "use.id must not be empty")
  else match q_resolve_use with
       | None => raise (RuntimeError ("use step " +:+ repr_str name +:+ " requires a configured sequence library"))
       | Some f => outside (f name)
       end.

Definition _merged_use_vars (spec : SequenceSpec) (args : option dict) : M dict :=
  vars ← gets rt_vars;
  let merged := dict_update vars (sp_vars spec) in
  if dict_true args then
    view ← _env_view;
    rendered ← lift (tp_render view (PDict (default [] args)));
    match rendered with
    | PDict d => mret (tp_resolve_vars (dict_update merged d))
    | _ => raise (TypeError "use.args must render to a dict")
    end
  else mret (tp_resolve_vars merged).

Definition _execute_use_step (sequence_id : string) (args : option dict) : M bool :=
  let name := strip sequence_id in
  uses ← gets rt_use_stack;
  if bool_decide (name ∈ uses) then
    raise (RuntimeError ("recursive use sequence detected: " +:+ join " -> " (uses ++ [name])))
  else
    spec ← _resolve_use_spec sequence_id;
    merged ← _merged_use_vars spec args;
    _ ← modify (fun s => s <| rt_use_stack := rt_use_stack s ++ [name] |>
                           <| rt_stack := Frame (sp_steps spec) 0 (Some (ExitUse (rt_vars s) name)) false :: rt_stack s |>
                           <| rt_vars := merged |>);
    mret false.

(** ** Waiting and pausing *)
Definition _execute_pause_step (reason : option string) : M bool :=
  view ← _env_view;
  text ← (if opt_true reason then lift (tp_render view (PStr (default "" reason))) else mret PNone);
  _ ← modify (fun s => s <| rt_pause_requested := true |>);
  now ← monotonic;
  _ ← _mark_pause_started now;
  _ ← modify (fun s => s <| rt_state := PAUSED |>);
  _ ← _enter_pause (_pause_info text (PStr "sequence") PNone);
  mret true.

Definition _execute_sleep_step (seconds : pyval) : M bool :=
  view ← _env_view;
  v ← lift (tp_render view seconds);
  n ← lift (_as_float v "sleep: expected seconds as a number");
  now ← monotonic;
  _ ← modify (fun s => s <| rt_sleep_until := Some (fadd (FFin now) n) |>
                         <| rt_stats := rt_stats s <| rs_active_sleep_s := Some (fmax0 n) |> |>);
  mret true.

Definition _execute_wait_until_step (raw : dict) : M bool := _ ← _start_wait_until raw; mret true.

(** ** Values *)
Definition _execute_assign_step (values : dict) : M bool :=
  _ ← forM (fun '(k, v) => view ← _env_view; x ← _resolve_value view v; set_env k x) values;
  mret false.

Definition _execute_set_step (device name : string) (value : pyval) : M bool :=
  view ← _env_view;
  d ← lift (render_text view (PStr device));
  _ ← _update_current_step_detail [("device", PStr d); ("name", PStr name)];
  if negb (nonempty d) then _fail_step "set.device rendered empty"
  else
    v ← lift (tp_render view value);
    resp ← outside (q_call_device d "set" (PDict [("name", PStr name); ("value", v)]));
    if negb (truthy (dget resp "ok")) then _fail_step (_response_error_text resp None)
    else mret false.

Definition assign_results (r : pyval) (items : dict) : M unit :=
  forM (fun '(k, spec) =>
    match spec with
    | PDict d => v ← lift (_extract_from_result r (PDict d) ("assign " +:+ k)); set_env k v
    | _ => mret tt
    end) items.

Definition _execute_call_step (device action : string) (params : dict) (save_as : option string)
    (extract assign : option dict) (process : option string) : M bool :=
  view ← _env_view;
  '(d, p, a) ← lift (_render_call_target [("device", PStr device); ("process", PStr (default "" process));
                                          ("action", PStr action)] view);
  _ ← _update_current_step_detail
        [("target_kind", PStr (if opt_true p then "process" else "device")); ("device", opt_str (or_none d));
         ("process", opt_str p); ("action", PStr a)];
  v ← lift (tp_render view (PDict params));
  resp ← _dispatch_call d p a v;
  if negb (truthy (dget resp "ok")) then _fail_step (_response_error_text resp (Some (default d p)))
  else
    let name := default "" save_as in
    _ ← (if opt_true save_as then set_env name (PDict resp) else mret tt);
    if dict_true extract && dict_true assign then _fail_step "extract and assign are mutually exclusive"
    else
      _ ← (if dict_true extract then
             let target := if opt_true save_as then name else "value" in
             x ← lift (_extract_from_result (dget resp "result") (PDict (default [] extract)) ("extract " +:+ target));
             set_env target x
           else mret tt);
      _ ← (if dict_true assign then assign_results (dget resp "result") (default [] assign) else mret tt);
      mret false.

(** ** Stream contexts *)
Definition context_fields (run_id : Z) (rendered : pyval) : result dict :=
  match rendered with
  | PDict d => Ok (od_set d SEQUENCER_RUN_ID_FIELD (PInt run_id))
  | _ => type_error
  end.

(** The synchronous way, for callers without a dispatcher. *)
Definition set_contexts (streams : list (string * string)) (ctx_id : Z) (fields : dict) : M unit :=
  _ ← match streams, q_expect_streams with
      | _ :: _, Some f => outside (f streams ctx_id)
      | _, _ => mret tt
      end;
  forM (fun '(device, stream) => outside (q_set_stream_context device stream ctx_id fields)) streams.

Definition _execute_set_context_step (streams : pyval) (fields : dict) : M bool :=
  _ ← modify (fun s => s <| rt_context_id := rt_context_id s + 1 |>);
  ctx_id ← gets rt_context_id;
  view ← _env_view;
  rendered ← lift (tp_render view (PDict fields));
  run_id ← gets rt_run_id;
  fields ← lift (context_fields run_id rendered);
  let streams := _normalize_streams streams in
  match q_set_context with
  | Some (begin, _) =>
      token ← outside (begin streams ctx_id fields);
      _ ← modify (fun s => s <| rt_set_context_state := Some token |>);
      mret true
  | None => fun s =>
      match set_contexts streams ctx_id fields s with
      | (Ok _, s) => (Ok false, s)
      | (Err e, s) => _fail_step ("set_context failed: " +:+ exc_str e) s
      end
  end.

Definition _step_set_context (now : Q) : M bool :=
  blocked ← _check_stop_pause;
  if blocked : bool then mret false
  else
    state ← gets rt_set_context_state;
    match state, q_set_context with
    | None, _ => mret true
    | Some _, None => _ ← _clear_set_context_state; mret true
    | Some token, Some (_, poll) =>
        '(finished, error) ← outside (poll token now);
        if negb finished then mret false
        else
          _ ← _clear_set_context_state;
          _ ← match error with
              | Some e => _ ← _fail_step ("set_context failed: " +:+ e); mret tt
              | None => mret tt
              end;
          mret true
    end.

(** ** Parallel steps *)
Definition _execute_parallel_step (body : list step) : M bool := fun s =>
  if 0 <? rt_atomic_depth s then _fail_step "parallel is not allowed inside an atomic block" s
  else
    match q_parallel with
    | None => _fail_step "parallel dispatcher is not configured" s
    | Some (begin, _) =>
        let env := env_view s in
        let parent_path := py_str (py_or (dget (default [] (rt_current_step_detail s)) "path") (PStr "parallel")) in
        match plan_branches env parent_path 0 body ([], []) with
        | Err e => _fail_step (exc_str e) s
        | Ok [] => (Ok false, s)
        | Ok plans =>
            (token ← outside (begin plans);
             _ ← modify (fun s => s <| rt_parallel_state := Some token |>);
             mret true) s
        end
    end.

Definition branch_failure (r : ParallelBranchResult) : string :=
  "branch " +:+ str_Z (pr_index r) +:+ " (" +:+ (if opt_true (pr_path r) then default "" (pr_path r) else "parallel") +:+
  "): " +:+ (if opt_true (pr_error r) then default "" (pr_error r) else "request failed").

Definition _step_parallel : M bool := fun s =>
  match rt_parallel_state s, q_parallel with
  | None, _ => (Ok true, s)
  | Some _, None => (Err (RuntimeError ""), s)                  (* [assert] *)
  | Some token, Some (_, poll) =>
      ('(finished, results) ← outside (poll token);
       if negb finished then mret false
       else
         pending ← gets rt_parallel_pending_failure;
         _ ← modify (fun s => s <| rt_parallel_state := None |> <| rt_parallel_pending_failure := None |>);
         let ordered := in_order results in
         match pending with
         | Some reason =>
             _ ← modify (fun s => s <| rt_pause_requested := false |> <| rt_stop_requested := false |>);
             _ ← _fail_step reason;
             mret true
         | None =>
             match filter (fun r => pr_ok r = false) ordered with
             | [] =>
                 _ ← modify (fun s => s <| rt_env := foldl (fun env r => dict_update env (pr_outputs r)) (rt_env s) ordered |>);
                 mret true
             | failures =>
                 _ ← _fail_step ("parallel failed: " +:+ join "; " (branch_failure <$> failures));
                 mret true
             end
         end) s
  end.

(** ** Dispatch *)
Definition handler (x : step) : M bool :=
  match x with
  | ParallelStep _ body => _execute_parallel_step body
  | PauseStep _ reason => _execute_pause_step reason
  | SleepStep _ seconds => _execute_sleep_step seconds
  | WaitUntilStep _ raw => _execute_wait_until_step raw
  | ForStep _ bind in_expr body => _execute_for_step bind in_expr body
  | RepeatStep _ times body => _execute_repeat_step times body
  | IfStep _ condition then_steps else_steps => _execute_if_step condition then_steps else_steps
  | WhileStep _ condition body => _execute_while_step condition body
  | AtomicStep _ _ body => _execute_atomic_step body
  | TryStep _ body finally_steps => _execute_try_step body finally_steps
  | AssignStep _ values => _execute_assign_step values
  | SetContextStep _ streams fields => _execute_set_context_step streams fields
  | UseStep _ sequence_id args => _execute_use_step sequence_id args
  | SetStep _ device name value => _execute_set_step device name value
  | CallStep _ device action params save_as extract assign process =>
      _execute_call_step device action params save_as extract assign process
  | AdaptiveStep _ spec body => _execute_adaptive_step spec body
  end.

Definition _execute_step (x : step) : M bool :=
  _ ← modify (fun s => s <| rt_current_step := Some (type_name x) |>
                         <| rt_current_step_detail := Some (_format_step_detail (rt_step_source_info s) x) |>);
  handler x.
End steps.
