(* ===== verification/SequencerTick.v ===== *)
(** * The step loop ([sequencer/runtime.py])

    Which step comes next, from the frames of the stack or, once the run is
    to end, from its cleanup; and one tick, which runs steps up to a budget.
    The loops of the source that need not end ([while] bodies are chosen by
    the sequence, an adaptive trial waits for telemetry) have fuel: [None] is
    "not ended yet", and more fuel never changes a result that is there. *)
From S2P Require Import Prelude PyVal PyNum PyOps Expressions Conditions Responses ProcessBase.
From S2P Require Import SequencerData SequencerCore SequencerValues SequencerWait AdaptiveController SequencerAdaptive SequencerSteps.
#[local] Open Scope Z_scope.

(** [StepResult]: a step, [_NO_STEP_READY], or [None]. *)
Inductive step_result := NextStep (x : step) | NoStepReady | NoStep.

Definition _TICK_BUDGET_S : Q := 10 # 1000.
Definition _TICK_MAX_STEPS : Z := 200.

Definition run_during_unwind (f : frame) : bool := match f with Frame _ _ _ u => u | _ => false end.

(** [_innermost_unwind_body], as the number of frames above it. *)
Fixpoint above_unwind_body (stack : list frame) : option nat :=
  match stack with
  | [] => None
  | f :: rest => if run_during_unwind f then Some O else S <$> above_unwind_body rest
  end.

(** The sequence [name] is left: the top of the uses, or wherever it is. *)
Definition drop_use (name : string) (uses : list string) : list string :=
  match last uses with
  | Some top => if String.eqb top name then take (pred (length uses)) uses
                else match list_find (eq name) uses with
                     | Some (i, _) => delete i uses
                     | None => uses
                     end
  | None => uses
  end.

Section tick.
Context `{HR : !PyRepr, HT : !Templates} {W : Type} `{HW : !SequencerWorld W}.
#[local] Abbreviation st := (runtime W).
#[local] Abbreviation M := (pyM (runtime W)).
#[local] Abbreviation L := (pyL (runtime W)).

Definition set_stack (l : list frame) : M unit := modify (fun s => s <| rt_stack := l |>).

(** [on_exit()] of a frame *)
Definition run_exit (fuel : nat) (e : exit_action) : L unit :=
  match e with
  | ExitAtomic => up (modify (fun s => s <| rt_atomic_depth := rt_atomic_depth s - 1 |>))
  | ExitUse previous_vars name =>
      up (modify (fun s => s <| rt_vars := previous_vars |> <| rt_use_stack := drop_use name (rt_use_stack s) |>))
  | ExitAdaptive => _after_adaptive_body fuel
  end.

Definition observing (s : st) : bool := match ad_observing (rt_adaptive s) with Some _ => true | None => false end.

(** ** Running *)

(** A frame left in the course of the run *)
Definition exit_round (fuel : nat) (e : exit_action) (rest : list frame) : L (option step_result) :=
  _ ← up (set_stack rest);
  before ← up (gets rt_atomic_depth);
  _ ← run_exit fuel e;
  s ← up get;
  mret (if bool_decide (rt_state s <> RUNNING) then Some NoStep
        else if observing s || ((0 <? before) && (rt_atomic_depth s =? 0)) then Some NoStepReady
        else None).

(** The next trial of an adaptive step, or its end *)
Definition adaptive_round (a : adaptive_frame) (body : list step) (rest : list frame) : M (option step_result) :=
  match af_proposal a with
  | Some _ => mret (Some NoStepReady)
  | None =>
      stop ← _adaptive_should_stop a;
      if (stop : bool) || should_stop (af_controller a) then _ ← set_stack rest; mret None
      else
        proposal ← _prepare_adaptive_proposal;
        _ ← on_frame (fun a => a <| af_proposal := Some proposal |>);
        _ ← _bind_adaptive_proposal (ad_bind (af_spec a)) proposal;
        _ ← push (Frame body 0 (Some ExitAdaptive) false);
        mret None
  end.

(** One round of [_next_step_above]; [None] is [continue]. *)
Definition next_round (fuel base : nat) : L (option step_result) := fun s =>
  match rt_stack s with
  | [] => Some (Ok (Some NoStep), s)
  | f :: rest =>
      if (length (f :: rest) <=? base)%nat then Some (Ok (Some NoStep), s)
      else
        match f with
        | Frame steps index on_exit unwind =>
            match steps !! index, on_exit with
            | None, Some e => exit_round fuel e rest s
            | None, None => Some ((_ ← set_stack rest; mret None) s)
            | Some x, _ =>
                Some ((_ ← set_stack (Frame steps (S index) on_exit unwind :: rest);
                       mret (if disabled x then None else Some (NextStep x))) s)
            end
        | ForFrame bind records index body =>
            match records !! index with
            | None => Some ((_ ← set_stack rest; mret None) s)
            | Some record =>
                Some ((_ ← set_stack (ForFrame bind records (S index) body :: rest);
                       _ ← _bind_record bind record (Z.of_nat index);
                       _ ← push (body_frame body);
                       mret None) s)
            end
        | RepeatFrame remaining body =>
            if remaining <=? 0 then Some ((_ ← set_stack rest; mret None) s)
            else Some ((_ ← set_stack (body_frame body :: RepeatFrame (remaining - 1) body :: rest); mret None) s)
        | TryFrame finally_steps true => Some ((_ ← set_stack rest; mret None) s)
        | TryFrame finally_steps false =>
            Some ((_ ← set_stack (match finally_steps with
                                  | [] => TryFrame [] true :: rest
                                  | _ => Frame finally_steps 0 None true :: TryFrame finally_steps true :: rest
                                  end);
                   mret None) s)
        | WhileFrame condition body passes =>
            Some ((ok ← _eval_condition condition "while" false;
                   _ ← set_stack (if ok : bool then body_frame body :: WhileFrame condition body (S passes) :: rest else rest);
                   mret None) s)
        | AdaptiveFrame a body => Some (adaptive_round a body rest s)
        end
  end.

Fixpoint _next_step_above (fuel : nat) (base : nat) (s : st) : option (result step_result * st) :=
  match fuel with
  | O => None
  | S fuel =>
      match next_round fuel base s with
      | None => None
      | Some (Ok None, s) => _next_step_above fuel base s
      | Some (Ok (Some r), s) => Some (Ok r, s)
      | Some (Err e, s) => Some (Err e, s)
      end
  end.

(** ** Cleanup *)

(** A frame left during cleanup: what it waited for goes with it. *)
Definition leave (fuel : nat) (on_exit : option exit_action) : L unit :=
  match on_exit with
  | None => mret tt
  | Some e =>
      _ ← run_exit fuel e;
      _ ← up (modify (fun s => s <| rt_sleep_until := None |> <| rt_wait_state := None |>));
      _ ← up _clear_set_context_state;
      up (set_observing None)
  end.

(** One round of the cleanup on the top frame, where nothing runs above the
    innermost [finally] body. *)
Definition unwind_round (fuel : nat) : L (option step_result) := fun s =>
  match rt_stack s with
  | [] => Some (Ok (Some NoStep), s)
  | f :: rest =>
      match f with
      | Frame steps index on_exit true =>
          match steps !! index with
          | None => (_ ← up (set_stack rest); _ ← leave fuel on_exit; mret None) s
          | Some x => Some ((_ ← set_stack (Frame steps (S index) on_exit true :: rest);
                             mret (if disabled x then None else Some (NextStep x))) s)
          end
      | Frame _ _ on_exit false => (_ ← up (set_stack rest); _ ← leave fuel on_exit; mret None) s
      | TryFrame finally_steps false =>
          Some ((_ ← set_stack (match finally_steps with
                                | [] => TryFrame [] true :: rest
                                | _ => Frame finally_steps 0 None true :: TryFrame finally_steps true :: rest
                                end);
                 mret None) s)
      | _ => Some ((_ ← set_stack rest; mret None) s)
      end
  end.

Fixpoint _next_terminal_unwind_step (fuel : nat) (s : st) : option (result step_result * st) :=
  match fuel with
  | O => None
  | S fuel =>
      match above_unwind_body (rt_stack s) with
      | Some (S above) =>
          match _next_step_above fuel (length (rt_stack s) - S above) s with
          | None => None
          | Some (Ok NoStep, s) => _next_terminal_unwind_step fuel s
          | r => r
          end
      | _ =>
          match unwind_round fuel s with
          | None => None
          | Some (Ok None, s) => _next_terminal_unwind_step fuel s
          | Some (Ok (Some r), s) => Some (Ok r, s)
          | Some (Err e, s) => Some (Err e, s)
          end
      end
  end.

Definition _next_step (fuel : nat) (s : st) : option (result step_result * st) :=
  match rt_pending_state s with
  | Some _ => _next_terminal_unwind_step fuel s
  | None => _next_step_above fuel 0 s
  end.

(** ** A tick *)

(** The sequence is done: the next pass of the run, or its end. *)
Definition end_of_pass : M bool := fun s =>
  match rt_pending_state s with
  | Some _ => (_ ← _finish_pending_terminal; mret false) s
  | None =>
      if bool_decide (rt_state s = RUNNING) then
        (_ ← modify (fun s => s <| rt_loops_completed := rt_loops_completed s + 1 |>);
         more ← gets _should_continue_run_loops;
         if more : bool then _ ← _prepare_next_run_loop; mret true
         else
           _ ← modify (fun s => s <| rt_state := STOPPED |>);
           now ← monotonic;
           _ ← run_ended now;
           _ ← on_stats (fun r => r <| rs_progress_finished := true |>);
           mret false) s
      else (Ok false, s)
  end.

Definition waiting (s : st) : bool :=
  match rt_sleep_until s, rt_wait_state s, rt_set_context_state s, rt_parallel_state s with
  | None, None, None, None => false
  | _, _, _, _ => true
  end.

(** A step, from [_begin_active_step] to the check of the budget: [Some b]
    ends the tick with [b]. *)
Definition run_step (x : step) (deadline : Q) (executed : Z) : M (option bool) :=
  t ← monotonic;
  _ ← _begin_active_step x t;
  over ← _execute_step x;
  if over : bool then
    s ← get;
    _ ← (if waiting s then mret tt else finish_now);
    mret (Some false)
  else
    _ ← finish_now;
    s ← get;
    if _interruptible s then
      if _TICK_MAX_STEPS <=? executed + 1 then mret (Some true)
      else t ← monotonic; mret (if Qle_bool deadline t then Some true else None)
    else mret None.

Fixpoint tick_loop (fuel : nat) (deadline : Q) (executed : Z) (s : st) : option (result bool * st) :=
  match fuel with
  | O => None
  | S fuel =>
      if bool_decide (rt_state s <> RUNNING) then Some (Ok false, s)
      else
        match _check_stop_pause s with
        | (Err e, s) => Some (Err e, s)
        | (Ok true, s) => Some (Ok false, s)
        | (Ok false, s) =>
            match _next_step fuel s with
            | None => None
            | Some (Err e, s) => Some (Err e, s)
            | Some (Ok NoStepReady, s) => Some (Ok false, s)
            | Some (Ok NoStep, s) =>
                match end_of_pass s with
                | (Err e, s) => Some (Err e, s)
                | (Ok true, s) => tick_loop fuel deadline executed s
                | (Ok false, s) => Some (Ok false, s)
                end
            | Some (Ok (NextStep x), s) =>
                match run_step x deadline executed s with
                | (Err e, s) => Some (Err e, s)
                | (Ok (Some b), s) => Some (Ok b, s)
                | (Ok None, s) => tick_loop fuel deadline (executed + 1) s
                end
            end
        end
  end.

(** What is in progress: [true] when the tick may go on. *)
Definition finish_if (over : M bool) : M bool :=
  b ← over;
  if b : bool then _ ← finish_now; mret true else mret false.

Definition poll_sleep (now : Q) : M bool := fun s =>
  match rt_sleep_until s with
  | None => (Ok true, s)
  | Some t => if fltb (FFin now) t then (Ok false, s)
              else (_ ← modify (fun s => s <| rt_sleep_until := None |>); _ ← _finish_active_step now; mret true) s
  end.
Definition poll_wait (now : Q) : M bool := fun s =>
  match rt_wait_state s with None => (Ok true, s) | Some _ => finish_if (_step_wait_until now) s end.
Definition poll_context (now : Q) : M bool := fun s =>
  match rt_set_context_state s with None => (Ok true, s) | Some _ => finish_if (_step_set_context now) s end.
Definition poll_parallel : M bool := fun s =>
  match rt_parallel_state s with None => (Ok true, s) | Some _ => finish_if _step_parallel s end.

Definition poll_waits (now : Q) : M bool :=
  slept ← poll_sleep now;
  if negb slept then mret false
  else
    waited ← poll_wait now;
    if negb waited then mret false
    else
      context ← poll_context now;
      if negb context then mret false else poll_parallel.

Definition poll_all (fuel : nat) : L bool :=
  now ← up monotonic;
  ready ← up (poll_waits now);
  if negb ready then mret false else _step_adaptive_observation fuel now.

(** The body of the [try] of [tick]. *)
Definition tick_body (fuel : nat) (s : st) : option (result bool * st) :=
  match rt_pending_state s, rt_stack s with
  | Some _, [] => Some ((_ ← _finish_pending_terminal; mret false) s)
  | _, _ =>
      match _check_stop_pause s with
      | (Err e, s) => Some (Err e, s)
      | (Ok true, s) => Some (Ok false, s)
      | (Ok false, s) =>
          match poll_all fuel s with
          | None => None
          | Some (Err e, s) => Some (Err e, s)
          | Some (Ok false, s) => Some (Ok false, s)
          | Some (Ok true, s) =>
              match monotonic s with
              | (Err e, s) => Some (Err e, s)
              | (Ok t, s) => tick_loop fuel (t + _TICK_BUDGET_S)%Q 0 s
              end
          end
      end
  end.

Definition crash (e : pyexc) : M bool :=
  unwinding ← _handle_runtime_exception e;
  if unwinding : bool then mret false
  else
    _ ← modify (fun s => match rt_last_error_detail s with
                         | Some _ => s
                         | None => s <| rt_last_error_detail := Some (_make_error_detail (exc_str e) (rt_current_step_detail s)) |>
                         end);
    now ← monotonic;
    _ ← _abandon_active_step now;
    _ ← modify (fun s => s <| rt_last_error := Some (exc_str e) |> <| rt_state := ERROR |>);
    now ← monotonic;
    _ ← run_ended now;
    mret false.

(** [true] when there is more work right now. *)
Definition tick (fuel : nat) (s : st) : option (result bool * st) :=
  if bool_decide (rt_state s <> RUNNING) then Some (Ok false, s)
  else
    match tick_body fuel s with
    | None => None
    | Some (Err e, s) => Some (crash e s)
    | Some (Ok b, s) => Some (Ok b, s)
    end.
End tick.
