(* ===== verification/SequencerFrames.v ===== *)
(** * What the parts of the runtime touch

    Reading values, keeping time and noting events change neither the stack
    of a run nor its state; the handlers of the steps only push frames.  The
    theorems on runs rest on these. *)
From S2P Require Import Prelude PyVal PyNum PyOps Expressions Conditions Responses ProcessBase.
From S2P Require Import RunRecords AdaptiveController SequencerData SequencerCore SequencerValues SequencerParallel SequencerWait SequencerAdaptive SequencerSteps.
From S2P Require Import SequencerTick.
#[local] Open Scope Z_scope.

(** ** Relations a computation keeps *)
Section keeps.
Context {S : Type} (R : relation S) `{!PreOrder R}.

(** It leaves a related state, also when it raises. *)
Definition keeps {A} (m : pyM S A) : Prop := forall s, R s (snd (m s)).

Lemma keeps_ret {A} (a : A) : keeps (mret a).
Proof. intros s. reflexivity. Qed.
Lemma keeps_raise {A} e : keeps (raise e : pyM S A).
Proof. intros s. reflexivity. Qed.
Lemma keeps_lift {A} (r : result A) : keeps (lift r).
Proof. intros s. reflexivity. Qed.
Lemma keeps_get : keeps get.
Proof. intros s. reflexivity. Qed.
Lemma keeps_gets {A} (f : S -> A) : keeps (gets f).
Proof. intros s. reflexivity. Qed.
Lemma keeps_modify f : (forall s, R s (f s)) -> keeps (modify f).
Proof. intros H s. apply H. Qed.
Lemma keeps_bind {A B} (m : pyM S A) (f : A -> pyM S B) : keeps m -> (forall a, keeps (f a)) -> keeps (m ≫= f).
Proof.
  intros Hm Hf s. unfold mbind, pyM_bind. specialize (Hm s). destruct (m s) as [[a|e] s']; [|done].
  etrans; [exact Hm|apply Hf].
Qed.
Lemma keeps_forM {A} (f : A -> pyM S unit) l : (forall x, keeps (f x)) -> keeps (forM f l).
Proof. intros Hf. induction l as [|x l IH]; [apply keeps_ret|]. apply keeps_bind; [apply Hf|done]. Qed.
End keeps.

Create HintDb keeps.
#[export] Hint Resolve keeps_ret keeps_raise keeps_lift keeps_get keeps_gets : keeps.

(** Follow the structure of a computation. *)
Ltac keeps_step :=
  first [ progress intros
        | solve [auto with keeps typeclass_instances]
        | apply keeps_bind; [typeclasses eauto| |]
        | apply keeps_modify; intros ?; solve [reflexivity | by repeat case_match]
        | apply keeps_forM; [typeclasses eauto|]
        | case_match ].
Ltac keeps := repeat keeps_step.

Section frames.
Context `{HR : !PyRepr, HT : !Templates} {W : Type} `{HW : !SequencerWorld W}.
#[local] Abbreviation st := (runtime W).
#[local] Abbreviation M := (pyM (runtime W)).

(** ** The core of the state *)

(** Stack, depth of atomic blocks, sequences in use, their variables, state,
    pending end, the parallel step in flight, and the steps of the sequence. *)
Record core := mkCore {
  co_stack : list frame; co_atomic : Z; co_uses : list string; co_vars : dict;
  co_state : run_state; co_pending : option run_state; co_parallel : option Z; co_program : option (list step)
}.
Definition core_of (s : st) : core :=
  mkCore (rt_stack s) (rt_atomic_depth s) (rt_use_stack s) (rt_vars s) (rt_state s) (rt_pending_state s) (rt_parallel_state s)
    (sp_steps <$> rt_spec s).
Definition same_core (s s' : st) : Prop := core_of s' = core_of s.

#[export] Instance same_core_preorder : PreOrder same_core.
Proof. split; [done|]. intros a b c Hab Hbc. unfold same_core in *. congruence. Qed.

#[local] Abbreviation quiet := (keeps same_core).

Lemma outside_quiet {A} (f : W -> result A * W) : quiet (outside f).
Proof. intros s. unfold outside. by destruct (f (rt_world s)). Qed.
Lemma monotonic_quiet : quiet monotonic.
Proof. apply outside_quiet. Qed.
Lemma on_stats_quiet f : quiet (on_stats f).
Proof. by apply keeps_modify. Qed.
Lemma set_env_quiet k v : quiet (set_env k v).
Proof. by apply keeps_modify. Qed.
Lemma set_wait_quiet w : quiet (set_wait w).
Proof. by apply keeps_modify. Qed.
Lemma _env_view_quiet : quiet _env_view.
Proof. apply keeps_gets, _. Qed.
#[local] Hint Resolve outside_quiet monotonic_quiet on_stats_quiet set_env_quiet set_wait_quiet _env_view_quiet : keeps.

Lemma finish_now_quiet : quiet finish_now.
Proof. unfold finish_now, _finish_active_step. keeps. Qed.
Lemma _record_event_quiet a b c d e f : quiet (_record_event a b c d e f).
Proof. unfold _record_event. keeps. Qed.
Lemma _update_detail_quiet v : quiet (_update_current_step_detail v).
Proof. unfold _update_current_step_detail. keeps. Qed.
Lemma _enter_pause_quiet i : quiet (_enter_pause i).
Proof. pose proof _record_event_quiet. unfold _enter_pause. keeps. Qed.
Lemma cancel_quiet k : quiet (cancel k).
Proof. unfold cancel. keeps. Qed.
Lemma _clear_set_context_quiet : quiet _clear_set_context_state.
Proof. intros s. unfold _clear_set_context_state. etrans; [|apply cancel_quiet]. done. Qed.
#[local] Hint Resolve finish_now_quiet _record_event_quiet _update_detail_quiet _enter_pause_quiet cancel_quiet
  _clear_set_context_quiet : keeps.

(** ** Values *)
Lemma _dispatch_call_quiet d p a v : quiet (_dispatch_call d p a v).
Proof. unfold _dispatch_call. keeps. Qed.
Lemma _dispatch_telemetry_quiet d p x : quiet (_dispatch_get_telemetry d p x).
Proof. unfold _dispatch_get_telemetry. keeps. Qed.
#[local] Hint Resolve _dispatch_call_quiet _dispatch_telemetry_quiet : keeps.

Lemma age_field_quiet d k b o : quiet o -> quiet (age_field d k b o).
Proof. intros Ho. unfold age_field. keeps. Qed.
Lemma _telemetry_age_quiet d : quiet (_telemetry_sample_age_s d).
Proof. unfold _telemetry_sample_age_s. repeat apply age_field_quiet. apply keeps_ret, _. Qed.
#[local] Hint Resolve _telemetry_age_quiet : keeps.

Lemma resolve_telemetry_quiet env v : quiet (resolve_telemetry env v).
Proof. unfold resolve_telemetry. keeps. Qed.
Lemma resolve_call_quiet env v : quiet (resolve_call env v).
Proof. unfold resolve_call. keeps. Qed.
#[local] Hint Resolve resolve_telemetry_quiet resolve_call_quiet : keeps.

Lemma _resolve_value_quiet env v : quiet (_resolve_value env v).
Proof.
  induction v as [| | | | |l IH|d IH] using pyval_ind'; try apply keeps_lift, _.
  - cbn [_resolve_value]. apply keeps_bind; [apply _| |keeps].
    induction IH as [|x l Hx _ IHl]; [keeps|]. keeps.
  - cbn [_resolve_value]. destruct (dhas d "telemetry"); [keeps|]. destruct (dhas d "call"); [keeps|].
    apply keeps_bind; [apply _| |keeps].
    induction IH as [|[k x] d Hx _ IHd]; [keeps|]. keeps.
Qed.
#[local] Hint Resolve _resolve_value_quiet : keeps.

Lemma _condition_holds_quiet c v : quiet (_condition_holds c v).
Proof. unfold _condition_holds. keeps. Qed.
Lemma _eval_condition_quiet c k p : quiet (_eval_condition c k p).
Proof.
  intros s. unfold _eval_condition. pose proof (_condition_holds_quiet c (env_view s) s) as H.
  destruct (_condition_holds c (env_view s) s) as [[b|e] s1]; [done|]. cbn in H. repeat case_match; cbn; done.
Qed.
Lemma _bind_record_quiet b r i : quiet (_bind_record b r i).
Proof. unfold _bind_record. keeps. Qed.
Lemma _resolve_iterable_quiet v : quiet (_resolve_iterable v).
Proof. unfold _resolve_iterable. keeps. Qed.
Lemma _resolve_use_spec_quiet i : quiet (_resolve_use_spec i).
Proof. unfold _resolve_use_spec. keeps. Qed.
Lemma _merged_use_vars_quiet sp a : quiet (_merged_use_vars sp a).
Proof. unfold _merged_use_vars. keeps. Qed.
Lemma assign_results_quiet r l : quiet (assign_results r l).
Proof. unfold assign_results. keeps. Qed.
Lemma set_contexts_quiet l i f : quiet (set_contexts l i f).
Proof. unfold set_contexts. keeps. Qed.
Lemma _start_wait_until_quiet raw : quiet (_start_wait_until raw).
Proof. unfold _start_wait_until. keeps. Qed.
#[local] Hint Resolve _condition_holds_quiet _eval_condition_quiet _bind_record_quiet _resolve_iterable_quiet
  _resolve_use_spec_quiet _merged_use_vars_quiet assign_results_quiet set_contexts_quiet _start_wait_until_quiet : keeps.

Lemma note_telemetry_quiet spec ws : quiet (note_telemetry spec ws).
Proof. unfold note_telemetry. keeps. Qed.
#[local] Hint Resolve note_telemetry_quiet : keeps.
Lemma settle_quiet now ok : quiet (settle now ok).
Proof. intros s. unfold settle. by repeat case_match. Qed.
#[local] Hint Resolve settle_quiet : keeps.
Lemma take_sample_quiet now ws v : quiet (take_sample now ws v).
Proof. unfold take_sample. keeps. Qed.
Lemma _note_cleanup_failure_quiet m : quiet (_note_cleanup_failure m).
Proof.
  intros s. unfold _note_cleanup_failure. set (s0 := _ <| rt_cleanup_errors := _ |>).
  pose proof (_record_event_quiet "error" "cleanup_failed" m
                (dget (_make_error_detail m (rt_current_step_detail s)) "step") PNone PNone s0) as H.
  destruct (_record_event _ _ _ _ _ _ s0) as [[[]|e] s1]; [|done]. by repeat case_match.
Qed.
#[local] Hint Resolve take_sample_quiet _note_cleanup_failure_quiet : keeps.

Lemma on_adaptive_quiet f : quiet (on_adaptive f).
Proof. by apply keeps_modify. Qed.
Lemma set_observing_quiet o : quiet (set_observing o).
Proof. apply on_adaptive_quiet. Qed.
#[local] Hint Resolve on_adaptive_quiet set_observing_quiet : keeps.
Lemma _coerce_positive_int_quiet v n : quiet (_coerce_positive_int v n).
Proof. unfold _coerce_positive_int. keeps. Qed.
Lemma as_dict_quiet v : quiet (as_dict v).
Proof. unfold as_dict. keeps. Qed.
#[local] Hint Resolve _coerce_positive_int_quiet as_dict_quiet : keeps.
Lemma _create_controller_quiet spec c d : quiet (_create_adaptive_controller spec c d).
Proof. unfold _create_adaptive_controller. keeps. Qed.
Lemma _replay_trial_quiet c t : quiet (_replay_adaptive_trial c t).
Proof. unfold _replay_adaptive_trial. keeps. Qed.
#[local] Hint Resolve _create_controller_quiet _replay_trial_quiet : keeps.
Lemma replay_quiet c n l : quiet (replay c n l).
Proof. revert c n. induction l as [|t l IH]; intros c n; cbn [replay]; keeps. Qed.
#[local] Hint Resolve replay_quiet : keeps.
Lemma _prepare_study_quiet spec c d d' : quiet (_prepare_adaptive_study spec c d d').
Proof. unfold _prepare_adaptive_study. keeps. Qed.
#[local] Hint Resolve _prepare_study_quiet : keeps.

(** ** Computations that always return, by what they do to the core *)
#[export] Instance core_eta : Eta core := fun c =>
  mkCore (co_stack c) (co_atomic c) (co_uses c) (co_vars c) (co_state c) (co_pending c) (co_parallel c) (co_program c).

Definition acts {A} (f : core -> core) (m : M A) : Prop :=
  forall s, exists a, fst (m s) = Ok a /\ core_of (snd (m s)) = f (core_of s).

Lemma acts_ret {A} (a : A) : acts (fun c => c) (mret a).
Proof. intros s. by exists a. Qed.
Lemma acts_modify f g : (forall s, core_of (f s) = g (core_of s)) -> acts g (modify f).
Proof. intros H s. exists tt. by split; [|apply H]. Qed.
Lemma acts_bind {A B} f g (m : M A) (k : A -> M B) :
  acts f m -> (forall a, acts g (k a)) -> acts (fun c => g (f c)) (m ≫= k).
Proof.
  intros Hm Hk s. unfold mbind, pyM_bind. destruct (Hm s) as (a & Ea & Ec). destruct (m s) as [r s1]. cbn in *. subst r.
  rewrite <- Ec. apply Hk.
Qed.
Lemma acts_monotonic : acts (fun c => c) monotonic.
Proof. intros s. unfold monotonic, outside. destruct (q_clock _) as [t w]. by exists t. Qed.
Lemma acts_on_stats f : acts (fun c => c) (on_stats f).
Proof. by apply acts_modify. Qed.
Lemma acts_cancel k : acts (fun c => c) (cancel k).
Proof. unfold cancel. destruct k; [|apply acts_ret]. intros s. by exists tt. Qed.
Lemma acts_record_event a b c d e f : acts (fun c => c) (_record_event a b c d e f).
Proof. unfold _record_event. apply (acts_bind (fun c => c) (fun c => c)); [apply acts_monotonic|intros]. by apply acts_modify. Qed.

Lemma acts_gets {A} (f : st -> A) : acts (fun c => c) (gets f).
Proof. intros s. by exists (f s). Qed.
Lemma acts_enter_pause i : acts (fun c => c) (_enter_pause i).
Proof.
  unfold _enter_pause. apply (acts_bind (fun c => c) (fun c => c)); [apply acts_monotonic|intros t].
  apply (acts_bind (fun c => c) (fun c => c)); [by apply acts_modify|intros _]. apply acts_record_event.
Qed.

Lemma acts_clear_set_context : acts (fun c => c) _clear_set_context_state.
Proof. intros s. unfold _clear_set_context_state. destruct (acts_cancel (rt_set_context_state s) (s <| rt_set_context_state := None |>)) as (a & ? & ?). by exists a. Qed.
Lemma acts_clear_parallel : acts (fun c => c <| co_parallel := None |>) _clear_parallel_state.
Proof.
  intros s. unfold _clear_parallel_state.
  destruct (acts_cancel (rt_parallel_state s) (s <| rt_parallel_state := None |> <| rt_parallel_pending_failure := None |>)) as (a & ? & E).
  exists a. by rewrite E.
Qed.
Lemma acts_drop_pending_work : acts (fun c => c <| co_parallel := None |>) drop_pending_work.
Proof.
  unfold drop_pending_work. apply (acts_bind (fun c => c)); [by apply acts_modify|intros _].
  apply (acts_bind (fun c => c)); [apply acts_clear_set_context|intros _].
  apply (acts_bind (fun c => c)); [by apply acts_modify|intros _]. apply acts_clear_parallel.
Qed.

(** The run is to end: its cleanup begins, or it is over at once. *)
Definition unwinding_core (state : run_state) (c : core) : core :=
  c <| co_pending := Some state |> <| co_parallel := None |>.

Lemma begin_unwind state error s :
  match rt_pending_state s with
  | Some _ => _begin_terminal_unwind state error s = (Ok (match rt_stack s with [] => false | _ => true end), s)
  | None =>
      if _has_terminal_unwind_work (rt_stack s)
      then fst (_begin_terminal_unwind state error s) = Ok true /\
           core_of (snd (_begin_terminal_unwind state error s)) = unwinding_core state (core_of s)
      else _begin_terminal_unwind state error s = (Ok false, s)
  end.
Proof.
  unfold _begin_terminal_unwind. destruct (rt_pending_state s); [done|].
  destruct (_has_terminal_unwind_work (rt_stack s)); [|done]. cbn [negb].
  match goal with |- fst (?m s) = _ /\ _ => assert (acts (unwinding_core state) m) as H end.
  { apply (acts_bind (fun c => c)); [apply acts_monotonic|intros t].
    apply (acts_bind (fun c => c)); [apply acts_on_stats|intros _].
    apply (acts_bind (fun c => c <| co_pending := Some state |>)); [by apply acts_modify|intros _].
    apply (acts_bind (fun c => c <| co_parallel := None |>) (fun c => c)); [apply acts_drop_pending_work|intros _].
    apply (acts_bind (fun c => c) (fun c => c)); [by apply acts_modify|intros _; apply acts_ret]. }
  match goal with |- fst (?m s) = _ /\ _ => destruct (H s) as (a & Ea & Ec); rewrite Ec; split; [|done] end.
  rewrite Ea. f_equal. revert Ea. clear. unfold mbind, pyM_bind, mret, pyM_ret.
  repeat (match goal with |- context [match ?m ?x with (_, _) => _ end] => destruct (m x) as [[?|?] ?] end; cbn; try discriminate).
  congruence.
Qed.

(** The same, with the value returned. *)
Definition does {A} (f : core -> core) (a : A) (m : M A) : Prop :=
  forall s, fst (m s) = Ok a /\ core_of (snd (m s)) = f (core_of s).
Lemma does_bind {A B} f g (m : M A) (k : A -> M B) b :
  acts f m -> (forall a, does g b (k a)) -> does (fun c => g (f c)) b (m ≫= k).
Proof.
  intros Hm Hk s. unfold mbind, pyM_bind. destruct (Hm s) as (a & Ea & Ec). destruct (m s) as [r s1]. cbn in *. subst r.
  rewrite <- Ec. apply Hk.
Qed.
Lemma does_ret {A} (a : A) : does (fun c => c) a (mret a).
Proof. by intros s. Qed.
Lemma does_acts {A} f (a : A) m : does f a m -> acts f m.
Proof. intros H s. exists a. apply H. Qed.

Lemma acts_note_cleanup_failure m : acts (fun c => c) (_note_cleanup_failure m).
Proof.
  intros s. pose proof (_note_cleanup_failure_quiet m s) as Hq. exists tt. split; [|exact Hq].
  unfold _note_cleanup_failure. match goal with |- context [_record_event ?a ?b ?c ?d ?e ?f ?s0] =>
    destruct (acts_record_event a b c d e f s0) as (v & Ev & _); destruct (_record_event a b c d e f s0) as [r s1] end.
  cbn in Ev. by subst r.
Qed.

(** Noting a failure is quiet. *)
Lemma noted_failure {A} (d : dict) m v (k : M A) s :
  exists s1, core_of s1 = core_of s /\
    (_ ← modify (fun s => s <| rt_last_error_detail := Some d |>);
     _ ← _record_event "error" "step_failed" m v PNone PNone; k) s = k s1.
Proof.
  destruct (acts_record_event "error" "step_failed" m v PNone PNone (s <| rt_last_error_detail := Some d |>)) as (u & Eu & Ec).
  unfold mbind, pyM_bind. cbn [modify]. destruct (_record_event _ _ _ _ _ _ _) as [r s1]. cbn in Eu, Ec. subst r. by exists s1.
Qed.

Lemma same_core_fields s s1 : core_of s1 = core_of s ->
  rt_stack s1 = rt_stack s /\ rt_pending_state s1 = rt_pending_state s /\ rt_state s1 = rt_state s.
Proof. intros E. split_and!; [by apply (f_equal co_stack) in E|by apply (f_equal co_pending) in E|by apply (f_equal co_state) in E]. Qed.

(** A failed step. *)
Definition fail_core (c : core) : core :=
  match co_pending c with
  | Some _ => c
  | None => if _has_terminal_unwind_work (co_stack c) then unwinding_core ERROR c else c <| co_state := ERROR |>
  end.

Lemma fail_step_core m : does fail_core true (_fail_step m).
Proof.
  intros s. unfold _fail_step, fail_core. cbn [co_pending co_stack core_of]. destruct (rt_pending_state s) eqn:Ep.
  { apply (does_bind (fun c => c) (fun c => c)); [apply acts_note_cleanup_failure|intros _; apply does_ret]. }
  set (d := _make_error_detail _ _). set (v := dget d "step").
  match goal with |- context [_record_event _ _ _ _ _ _ ≫= (fun _ => ?k)] => destruct (noted_failure d m v k s) as (s1 & Ec & ->) end.
  destruct (same_core_fields _ _ Ec) as (Es1 & Ep1 & _).
  pose proof (begin_unwind ERROR (Some m) s1) as H. rewrite Ep1, Es1, Ep in H. unfold mbind, pyM_bind.
  destruct (_has_terminal_unwind_work (rt_stack s)).
  - destruct (_begin_terminal_unwind ERROR (Some m) s1) as [r s2]. cbn in H. destruct H as [-> H2]. cbn. by rewrite H2, Ec.
  - rewrite H. cbn. by rewrite <- Ec.
Qed.

(** An exception, where it escapes the tick. *)
Lemma handle_exception_core e s :
  fst (_handle_runtime_exception e s) =
    Ok (match rt_pending_state s with Some _ => true | None => _has_terminal_unwind_work (rt_stack s) end) /\
  core_of (snd (_handle_runtime_exception e s)) =
    match rt_pending_state s with
    | Some _ => core_of s
    | None => if _has_terminal_unwind_work (rt_stack s) then unwinding_core ERROR (core_of s) else core_of s
    end.
Proof.
  unfold _handle_runtime_exception. set (m := exc_str e). destruct (rt_pending_state s) eqn:Ep.
  { apply (does_bind (fun c => c) (fun c => c)); [apply acts_note_cleanup_failure|intros _; apply does_ret]. }
  set (d := _make_error_detail _ _). set (v := dget d "step").
  destruct (noted_failure d m v (_begin_terminal_unwind ERROR (Some m)) s) as (s1 & Ec & ->).
  destruct (same_core_fields _ _ Ec) as (Es1 & Ep1 & _).
  pose proof (begin_unwind ERROR (Some m) s1) as H. rewrite Ep1, Es1, Ep in H.
  destruct (_has_terminal_unwind_work (rt_stack s)).
  - destruct H as [H1 H2]. by rewrite H1, H2, Ec.
  - rewrite H. cbn. by rewrite Ec.
Qed.

(** A tick that crashed. *)
Definition crash_core (c : core) : core := fail_core c.

Lemma crash_core_of e : does crash_core false (crash e).
Proof.
  intros s. unfold crash, crash_core, fail_core. cbn [co_pending co_stack core_of]. set (k := fun unwinding : bool => _).
  unfold mbind, pyM_bind. destruct (handle_exception_core e s) as [H1 H2].
  destruct (_handle_runtime_exception e s) as [r s1]. cbn in H1, H2. subst r.
  destruct (rt_pending_state s); [by split; [|exact H2]|].
  destruct (_has_terminal_unwind_work (rt_stack s)); [by split; [|exact H2]|].
  rewrite <- H2. enough (does (fun c => c <| co_state := ERROR |>) false (k false)) as H by apply H. clear.
  apply (does_bind (fun c => c)); [apply acts_modify; intros; by case_match|intros _].
  apply (does_bind (fun c => c)); [apply acts_monotonic|intros t].
  apply (does_bind (fun c => c)); [apply acts_on_stats|intros _].
  apply (does_bind (fun c => c <| co_state := ERROR |>) (fun c => c)); [by apply acts_modify|intros _].
  apply (does_bind (fun c => c) (fun c => c)); [apply acts_monotonic|intros t'].
  apply (does_bind (fun c => c) (fun c => c)); [apply acts_on_stats|intros _]. apply does_ret.
Qed.

(** ** What a handler may do *)
Definition opens_block (x : step) : bool :=
  match x with AtomicStep _ _ _ | TryStep _ _ _ => true | _ => false end.

Inductive after_handler (x : step) (c : core) : core -> Prop :=
| AHquiet : opens_block x = false -> after_handler x c c
| AHfail : opens_block x = false -> after_handler x c (fail_core c)
| AHfor h bind in_expr records body : x = ForStep h bind in_expr body ->
    after_handler x c (c <| co_stack := ForFrame bind records 0 body :: co_stack c |>)
| AHrepeat h times n body : x = RepeatStep h times body ->
    after_handler x c (c <| co_stack := RepeatFrame n body :: co_stack c |>)
| AHwhile h condition body : x = WhileStep h condition body ->
    after_handler x c (c <| co_stack := WhileFrame condition body 0 :: co_stack c |>)
| AHif h condition then_steps else_steps b : x = IfStep h condition then_steps else_steps ->
    after_handler x c (c <| co_stack := body_frame (if b : bool then then_steps else default [] else_steps) :: co_stack c |>)
| AHtry h body finally_steps : x = TryStep h body finally_steps ->
    after_handler x c (c <| co_stack := body_frame body :: TryFrame finally_steps false :: co_stack c |>)
| AHatomic h name body : x = AtomicStep h name body ->
    after_handler x c (c <| co_stack := Frame body 0 (Some ExitAtomic) false :: co_stack c |> <| co_atomic := co_atomic c + 1 |>)
| AHuse h sequence_id args steps name merged : x = UseStep h sequence_id args -> name ∉ co_uses c ->
    after_handler x c (c <| co_stack := Frame steps 0 (Some (ExitUse (co_vars c) name)) false :: co_stack c |>
                         <| co_uses := co_uses c ++ [name] |> <| co_vars := merged |>)
| AHadaptive h a body : x = AdaptiveStep h (af_spec a) body ->
    after_handler x c (c <| co_stack := AdaptiveFrame a body :: co_stack c |>)
| AHpause h reason : x = PauseStep h reason -> after_handler x c (c <| co_state := PAUSED |>)
| AHparallel h body token : x = ParallelStep h body -> co_atomic c <= 0 ->
    after_handler x c (c <| co_parallel := Some token |>).

Section ends.
Context (Q : core -> core -> Prop).
Definition ends {A} (m : M A) : Prop := forall s, Q (core_of s) (core_of (snd (m s))).

Lemma ends_quiet {A} (m : M A) : (forall c, Q c c) -> quiet m -> ends m.
Proof. intros HQ Hm s. rewrite (Hm s). apply HQ. Qed.
Lemma ends_bind {A B} (m : M A) (f : A -> M B) : (forall c, Q c c) -> quiet m -> (forall a, ends (f a)) -> ends (m ≫= f).
Proof.
  intros HQ Hm Hf s. unfold mbind, pyM_bind. specialize (Hm s). destruct (m s) as [[a|e] s1]; cbn in *.
  - rewrite <- Hm. apply Hf.
  - rewrite Hm. apply HQ.
Qed.
Lemma ends_last {A B} (m : M A) (f : A -> M B) : ends m -> (forall a, quiet (f a)) -> ends (m ≫= f).
Proof.
  intros Hm Hf s. unfold mbind, pyM_bind. specialize (Hm s). destruct (m s) as [[a|e] s1]; cbn in *; [|done].
  by rewrite (Hf a s1).
Qed.
Lemma ends_does {A} f (a : A) m : (forall c, Q c (f c)) -> does f a m -> ends m.
Proof. intros HQ Hd s. destruct (Hd s) as [_ ->]. apply HQ. Qed.
Lemma ends_modify f : (forall s, Q (core_of s) (core_of (f s))) -> ends (modify f).
Proof. intros HQ s. apply HQ. Qed.
End ends.

Section handlers.
Context (x : step).
Lemma ends_fail m : opens_block x = false -> ends (after_handler x) (_fail_step m).
Proof. intros Hx. eapply ends_does; [|apply fail_step_core]. by constructor. Qed.
Lemma ends_same {A} (m : M A) : opens_block x = false -> quiet m -> ends (after_handler x) m.
Proof. intros Hx. apply ends_quiet. by constructor. Qed.
Lemma ends_then {A B} (m : M A) (f : A -> M B) : opens_block x = false ->
  quiet m -> (forall a, ends (after_handler x) (f a)) -> ends (after_handler x) (m ≫= f).
Proof. intros Hx. apply ends_bind. by constructor. Qed.
End handlers.

Ltac ends_step :=
  first [ progress intros
        | apply ends_fail; reflexivity
        | apply ends_same; [reflexivity|solve [keeps]]
        | apply ends_then; [reflexivity|solve [keeps]|]
        | apply ends_last; [|solve [keeps]]
        | apply ends_modify; intros ?; first [by econstructor]
        | case_match ].
Ltac ends := repeat ends_step.

Lemma handler_core x : ends (after_handler x) (handler x).
Proof.
  destruct x; cbn [handler].
  - unfold _execute_call_step. ends.
  - unfold _execute_set_step. ends.
  - unfold _execute_sleep_step. ends.
  - unfold _execute_wait_until_step. ends.
  - unfold _execute_for_step. ends.
  - unfold _execute_repeat_step. ends.
  - unfold _execute_if_step. apply ends_then; [done|auto with keeps|intros b]. apply ends_last; [|keeps].
    apply ends_modify. intros s. destruct b; [by apply (AHif _ (core_of s) h condition then_steps else_steps true)|].
    by apply (AHif _ (core_of s) h condition then_steps else_steps false).
  - unfold _execute_while_step. ends.
  - unfold _execute_atomic_step. intros s. by apply (AHatomic _ (core_of s) h name body).
  - unfold _execute_pause_step. ends.
  - intros s. unfold _execute_parallel_step. destruct (Z.ltb_spec 0 (rt_atomic_depth s)) as [|Hd]; [by apply ends_fail|].
    destruct q_parallel as [[begin poll]|]; [|by apply ends_fail].
    destruct (plan_branches _ _ _ _ _) as [[|p ps]|]; [by constructor| |by apply ends_fail].
    unfold mbind, pyM_bind. pose proof (outside_quiet (begin (p :: ps)) s) as Ho. destruct (outside _ s) as [[t|e] s1]; cbn in *.
    + rewrite <- Ho. eapply (AHparallel _ (core_of s1) h body t); [done|].
      change (co_atomic (core_of s1) <= 0). by rewrite Ho.
    + rewrite Ho. by constructor.
  - unfold _execute_try_step. intros s. by apply (AHtry _ (core_of s) h body finally_steps).
  - unfold _execute_assign_step. ends.
  - unfold _execute_set_context_step. ends. intros s. set (l := _normalize_streams streams).
    pose proof (set_contexts_quiet l a0 a4 s) as Hq. destruct (set_contexts l a0 a4 s) as [[[]|e] s1]; cbn in Hq.
    + rewrite <- Hq. by constructor.
    + rewrite <- Hq. by apply ends_fail.
  - unfold _execute_use_step. intros s. unfold mbind at 1, pyM_bind at 1. cbn [gets]. case_bool_decide as Hn; [by constructor|].
    revert s Hn. set (name := strip sequence_id). intros s Hn.
    pose proof (_resolve_use_spec_quiet sequence_id s) as H1. unfold mbind at 1, pyM_bind at 1.
    destruct (_resolve_use_spec sequence_id s) as [[spec|e] s1]; cbn in H1; [|rewrite <- H1; by constructor].
    pose proof (_merged_use_vars_quiet spec args s1) as H2. unfold mbind at 1, pyM_bind at 1.
    destruct (_merged_use_vars spec args s1) as [[merged|e] s2]; cbn in H2; [|rewrite <- H1, <- H2; by constructor].
    unfold same_core in *. rewrite H1 in H2. rewrite <- H2. eapply (AHuse _ (core_of s2)); [done|]. by rewrite H2.
  - unfold _execute_adaptive_step. ends.
Qed.

Lemma execute_step_core x : ends (after_handler x) (_execute_step x).
Proof.
  unfold _execute_step. intros s. unfold mbind, pyM_bind. cbn [modify].
  match goal with |- context [handler x ?s1] => exact (handler_core x s1) end.
Qed.

(** ** Requests that take effect *)
Definition stop_core (c : core) : core :=
  match co_pending c with
  | Some _ => match co_stack c with [] => c <| co_state := STOPPED |> | _ => c end
  | None => if _has_terminal_unwind_work (co_stack c) then unwinding_core STOPPED c else c <| co_state := STOPPED |>
  end.

(** What holds of the state whatever it was before. *)
Definition leaves {A} (P : st -> Prop) (m : M A) : Prop := forall s, P (snd (m s)).
Definition still (P : st -> Prop) : relation st := fun s s' => P s -> P s'.
#[local] Instance still_preorder P : PreOrder (still P).
Proof. split; [by intros s H|]. intros a b c H1 H2 H. by apply H2, H1. Qed.

#[local] Hint Extern 1 (keeps (still _) (modify _)) => (apply keeps_modify; let x := fresh in intros ? x; exact x) : keeps.

Lemma leaves_bind {A B} f P (m : M A) (k : A -> M B) :
  acts f m -> (forall a, leaves P (k a)) -> leaves P (m ≫= k).
Proof.
  intros Hm Hk s. unfold mbind, pyM_bind. destruct (Hm s) as (a & Ea & _). destruct (m s) as [r s1].
  cbn in Ea. subst r. apply Hk.
Qed.
Lemma leaves_modify {B} P g (k : unit -> M B) :
  (forall s, P (g s)) -> keeps (still P) (k tt) -> leaves P (modify g ≫= k).
Proof. intros Hg Hk s. apply Hk, Hg. Qed.

Section request_flags.
Context (P : st -> Prop) (P_world : forall s w, P s -> P (s <| rt_world := w |>))
  (P_stats : forall s x, P s -> P (s <| rt_stats := x |>)) (P_events : forall s x, P s -> P (s <| rt_run_events := x |>)).

Lemma outside_still {A} (f : W -> result A * W) : keeps (still P) (outside f).
Proof. intros s. unfold outside. destruct (f (rt_world s)) as [r w]. exact (P_world s w). Qed.
Lemma on_stats_still f : keeps (still P) (on_stats f).
Proof. apply keeps_modify. intros s. exact (P_stats s _). Qed.
Lemma monotonic_still : keeps (still P) monotonic.
Proof. apply outside_still. Qed.
Lemma cancel_still k : keeps (still P) (cancel k).
Proof. unfold cancel. destruct k; [apply outside_still|apply keeps_ret, _]. Qed.
Lemma record_event_still a b c d e f : keeps (still P) (_record_event a b c d e f).
Proof.
  apply keeps_bind; [apply _|apply monotonic_still|]. intros now. apply keeps_modify. intros s. exact (P_events s _).
Qed.
End request_flags.

Definition stop_taken (s : st) : Prop := rt_stop_requested s = false.
Lemma drop_pending_taken : keeps (still stop_taken) drop_pending_work.
Proof.
  assert (forall k, keeps (still stop_taken) (cancel k)) as Hc by (intros; by apply cancel_still).
  assert (keeps (still stop_taken) _clear_set_context_state) by (intros s H; by apply Hc).
  assert (keeps (still stop_taken) _clear_parallel_state) by (intros s Hs; by apply Hc).
  unfold drop_pending_work, set_observing, on_adaptive. keeps.
Qed.
Lemma begin_unwind_taken state error : keeps (still stop_taken) (_begin_terminal_unwind state error).
Proof.
  intros s. unfold _begin_terminal_unwind. destruct (rt_pending_state s); [done|]. destruct (negb _); [done|].
  match goal with |- still _ _ (snd (?m s)) => enough (keeps (still stop_taken) m) as H by apply H end.
  pose proof drop_pending_taken. apply keeps_bind; [apply _|by apply monotonic_still|intros now].
  apply keeps_bind; [apply _|by apply on_stats_still|intros _]. keeps.
Qed.

(** A stop that takes effect *)
Lemma check_stop s : rt_stop_requested s && _interruptible s = true ->
  let '(r, t) := _check_stop_pause s in
  r = Ok true /\ core_of t = stop_core (core_of s) /\ rt_stop_requested t = false.
Proof.
  intros E. unfold _check_stop_pause. rewrite E.
  match goal with |- context [?m s] => enough (does stop_core true m /\ leaves stop_taken m) as [H Ht] end.
  { destruct (H s) as [H1 H2]. specialize (Ht s). revert H1 H2 Ht. by case_match; cbn. }
  clear E s. split.
  - apply (does_bind (fun c => c)); [apply acts_monotonic|intros now].
    apply (does_bind (fun c => c)); [apply acts_on_stats|intros _].
    apply (does_bind (fun c => c)); [by apply acts_modify|intros _]. intros s.
    pose proof (begin_unwind STOPPED None s) as H. unfold stop_core. cbn [co_pending co_stack core_of].
    set (k := fun unwinding : bool => _). unfold mbind, pyM_bind.
    assert (does (fun c => c <| co_state := STOPPED |>) true (k false)) as Hk.
    { unfold k. apply (does_bind (fun c => c <| co_state := STOPPED |>) (fun c => c)); [|intros _; apply does_ret].
      apply (acts_bind (fun c => c)); [apply acts_clear_set_context|intros _].
      apply (acts_bind (fun c => c)); [apply acts_on_stats|intros _].
      apply (acts_bind (fun c => c <| co_state := STOPPED |>) (fun c => c)); [by apply acts_modify|intros _]. apply acts_on_stats. }
    destruct (rt_pending_state s).
    + rewrite H. destruct (rt_stack s); [apply Hk|done].
    + destruct (_has_terminal_unwind_work (rt_stack s)).
      * destruct (_begin_terminal_unwind STOPPED None s) as [r s1]. cbn in H. destruct H as [-> H2]. by split; [|exact H2].
      * rewrite H. apply Hk.
  - apply (leaves_bind (fun c => c)); [apply acts_monotonic|intros now].
    apply (leaves_bind (fun c => c)); [apply acts_on_stats|intros _].
    apply leaves_modify; [done|]. pose proof begin_unwind_taken.
    assert (forall f, keeps (still stop_taken) (on_stats f)) by (intros f; by apply on_stats_still).
    unfold _abandon_active_step, run_ended.
    assert (keeps (still stop_taken) _clear_set_context_state).
    { intros s Hs. by apply (cancel_still stop_taken). }
    keeps.
Qed.

(** A pause that takes effect *)
Definition pause_entered (s : st) : Prop := (exists info, rt_pause_info s = Some info) /\ rt_pause_request_info s = None.
Lemma check_pause s :
  rt_stop_requested s && _interruptible s = false -> rt_pause_requested s && _interruptible s = true ->
  let '(r, t) := _check_stop_pause s in
  r = Ok true /\ core_of t = core_of s <| co_state := PAUSED |> /\ pause_entered t.
Proof.
  intros E1 E2. unfold _check_stop_pause. rewrite E1, E2.
  match goal with |- context [?m s] =>
    enough (does (fun c => c <| co_state := PAUSED |>) true m /\ leaves pause_entered m) as [H Ht] end.
  { destruct (H s) as [H1 H2]. specialize (Ht s). revert H1 H2 Ht. by case_match; cbn. }
  clear E1 E2 s. split.
  - apply (does_bind (fun c => c)); [apply acts_monotonic|intros now].
    apply (does_bind (fun c => c)); [apply acts_on_stats|intros _].
    apply (does_bind (fun c => c <| co_state := PAUSED |>) (fun c => c)); [by apply acts_modify|intros _].
    apply (does_bind (fun c => c) (fun c => c)); [apply acts_gets|intros info].
    apply (does_bind (fun c => c) (fun c => c)); [apply acts_enter_pause|intros _; apply does_ret].
  - apply (leaves_bind (fun c => c)); [apply acts_monotonic|intros now].
    apply (leaves_bind (fun c => c)); [apply acts_on_stats|intros _].
    apply (leaves_bind (fun c => c <| co_state := PAUSED |>)); [by apply acts_modify|intros _].
    apply (leaves_bind (fun c => c)); [apply acts_gets|intros info]. intros s. unfold mbind at 1, pyM_bind at 1.
    assert (leaves pause_entered (_enter_pause info)) as H.
    { apply (leaves_bind (fun c => c)); [apply acts_monotonic|intros t].
      apply leaves_modify; [intros s1; split; [by eexists|done]|]. by apply record_event_still. }
    specialize (H s). by destruct (_enter_pause info s) as [[] s1].
Qed.

Lemma check_core s :
  exists b, fst (_check_stop_pause s) = Ok b /\
    let c := core_of s in let c' := core_of (snd (_check_stop_pause s)) in
    if b : bool then co_atomic c = 0 /\ co_parallel c = None /\ (c' = stop_core c \/ c' = c <| co_state := PAUSED |>)
    else c' = c.
Proof.
  assert (forall b, b && _interruptible s = true -> co_atomic (core_of s) = 0 /\ co_parallel (core_of s) = None) as Hi.
  { intros b H. apply andb_prop in H as [_ H]. unfold _interruptible in H. apply andb_prop in H as [Ha Hp].
    apply Z.eqb_eq in Ha. split; [done|]. by cbn; destruct (rt_parallel_state s). }
  pose proof (check_stop s) as Hs. pose proof (check_pause s) as Hp.
  destruct (rt_stop_requested s && _interruptible s) eqn:E1;
    [|destruct (rt_pause_requested s && _interruptible s) eqn:E2].
  - specialize (Hs eq_refl). destruct (_check_stop_pause s) as [r t]. destruct Hs as (-> & H & _). exists true. naive_solver.
  - specialize (Hp eq_refl eq_refl). destruct (_check_stop_pause s) as [r t]. destruct Hp as (-> & H & _). exists true. naive_solver.
  - exists false. unfold _check_stop_pause. by rewrite E1, E2.
Qed.
End frames.
