(* ===== verification/SequencerTrials.v ===== *)
(** * What a trial touches

    The methods of an adaptive step run with its frame on top of the stack:
    they write to that frame, and a failing trial may end the run. *)
From S2P Require Import Prelude PyVal PyNum PyOps Expressions Conditions Responses ProcessBase.
From S2P Require Import AdaptiveController SequencerData SequencerCore SequencerValues SequencerParallel SequencerWait.
From S2P Require Import SequencerAdaptive SequencerSteps SequencerTick SequencerFrames.
#[local] Open Scope Z_scope.

Definition flagged (a : adaptive_frame) : bool := ad_fail_on_trial_error (af_spec a).

(** Nothing, or the frame on top takes note of a trial, which ends the run
    where [may_fail] holds and the step asks for it. *)
Inductive trial (may_fail : bool) (c : core) : core -> Prop :=
| TrialNone : trial may_fail c c
| TrialNote a a' body rest state : co_stack c = AdaptiveFrame a body :: rest -> af_spec a' = af_spec a ->
    state = co_state c \/ (state = ERROR /\ may_fail && flagged a = true) ->
    trial may_fail c (c <| co_stack := AdaptiveFrame a' body :: rest |> <| co_state := state |>).

#[export] Instance trial_preorder b : PreOrder (trial b).
Proof.
  split; [constructor|]. intros c1 c2 c3 H12 H23. destruct H12 as [|a a1 body rest state E Ea Hs]; [done|].
  destruct H23 as [|b1 b2 body' rest' state' E' Ea' Hs']; [by econstructor|]. cbn in E', Hs'. injection E' as -> -> ->.
  unshelve (eapply (TrialNote b c1 a b2 body' rest' state' E _ _)); [congruence|].
  unfold flagged in *. rewrite Ea in Hs'. destruct Hs' as [->|Hs']; [done|by right].
Qed.

Lemma trial_weaken c c' : trial false c c' -> trial true c c'.
Proof. destruct 1 as [|a a' body rest state E Ea Hs]; [constructor|]. econstructor; [done|done|]. destruct Hs as [->|[_ [=]]]. by left. Qed.

Lemma trial_state c c' : trial false c c' -> co_state c' = co_state c.
Proof. destruct 1 as [|a a' body rest state _ _ [->|[_ [=]]]]; done. Qed.

Section trials.
Context `{HR : !PyRepr, HT : !Templates} {W : Type} `{HW : !SequencerWorld W}.
#[local] Abbreviation st := (runtime W).
#[local] Abbreviation M := (pyM (runtime W)).
#[local] Abbreviation L := (pyL (runtime W)).

Definition tries (b : bool) (s s' : st) : Prop := trial b (core_of s) (core_of s').
#[export] Instance tries_preorder b : PreOrder (tries b).
Proof. split; [intros s; unfold tries; reflexivity|]. intros x y z. unfold tries. apply transitivity. Qed.

Lemma quiet_tries {A} b (m : M A) : keeps same_core m -> keeps (tries b) m.
Proof. intros H s. unfold tries. rewrite (H s). constructor. Qed.

(** ** Methods that may not return *)
Definition keepsL {A} (R : relation st) (m : L A) : Prop := forall s r s', m s = Some (r, s') -> R s s'.

Section keepsL.
Context (R : relation st) `{!PreOrder R}.
Lemma keepsL_ret {A} (a : A) : keepsL R (mret a).
Proof. intros s r s' [= _ <-]. reflexivity. Qed.
Lemma keepsL_none {A} : keepsL R (fun _ => None : option (result A * st)).
Proof. by intros s r s'. Qed.
Lemma keepsL_up {A} (m : M A) : keeps R m -> keepsL R (up m).
Proof. intros H s r s' [= E]. specialize (H s). by rewrite E in H. Qed.
Lemma keepsL_bind {A B} (m : L A) (f : A -> L B) : keepsL R m -> (forall a, keepsL R (f a)) -> keepsL R (m ≫= f).
Proof.
  intros Hm Hf s r s'. unfold mbind, pyL_bind. destruct (m s) as [[[a|e] s1]|] eqn:E; [|intros [= _ <-]; by eapply Hm|done].
  intros Ef. transitivity s1; [by eapply Hm|by eapply Hf].
Qed.
Lemma keepsL_except {A} (m : L A) (h : pyexc -> L A) : keepsL R m -> (forall e, keepsL R (h e)) -> keepsL R (except m h).
Proof.
  intros Hm Hh s r s'. unfold except. destruct (m s) as [[[a|e] s1]|] eqn:E; [intros [= _ <-]; by eapply Hm| |done].
  intros Ef. transitivity s1; [by eapply Hm|by eapply Hh].
Qed.
Lemma keepsL_failed {A} t (m : L A) (k : A -> L dict) : keepsL R m -> (forall a, keepsL R (k a)) -> keepsL R (or_failed t m k).
Proof.
  intros Hm Hk s r s'. unfold or_failed. destruct (m s) as [[[a|e] s1]|] eqn:E; [|intros [= _ <-]; by eapply Hm|done].
  intros Ef. transitivity s1; [by eapply Hm|by eapply Hk].
Qed.
Lemma keepsL_caught {A} (m : L A) :
  keepsL R m -> keepsL R (fun s => match m s with None => None | Some (r, s) => Some (Ok r, s) end : option (result (result A) * st)).
Proof. intros Hm s r s'. destruct (m s) as [[r1 s1]|] eqn:E; [|done]. intros [= _ <-]. by eapply Hm. Qed.
End keepsL.

#[local] Hint Resolve keepsL_ret keepsL_none : keeps.
#[local] Hint Resolve quiet_tries : keeps.
#[local] Hint Resolve outside_quiet monotonic_quiet set_env_quiet _env_view_quiet _dispatch_call_quiet
  _dispatch_telemetry_quiet _telemetry_age_quiet on_adaptive_quiet set_observing_quiet _coerce_positive_int_quiet : keeps.

Ltac keepsL_step :=
  first [ progress intros
        | solve [auto with keeps typeclass_instances]
        | apply keepsL_up; [solve [keeps]]
        | apply keepsL_bind; [typeclasses eauto| |]
        | apply keepsL_failed; [typeclasses eauto| |]
        | apply keepsL_except; [typeclasses eauto| |]
        | case_match ].
Ltac keepsL := repeat keepsL_step.

(** ** The frame *)
Lemma current_frame_quiet : keeps same_core (current_frame : M adaptive_frame).
Proof. intros s. unfold current_frame. by repeat case_match. Qed.
#[local] Hint Resolve current_frame_quiet : keeps.

Lemma on_frame_tries b f : (forall a, af_spec (f a) = af_spec a) -> keeps (tries b) (on_frame f).
Proof.
  intros Hf s. unfold on_frame, tries. cbn. destruct (rt_stack s) as [|[| | | | |a body] rest] eqn:E; try constructor.
  apply (TrialNote b (core_of s) a (f a) body rest (rt_state s)); [exact E|apply Hf|by left].
Qed.
Lemma on_frame_controller b c : keeps (tries b) (on_frame (fun a => a <| af_controller := c |>)).
Proof. by apply on_frame_tries. Qed.
#[local] Hint Resolve on_frame_controller : keeps.
Lemma controller_call_tries {A} b (f : pyM (adaptive_controller * W) A) : keeps (tries b) (controller_call f).
Proof. unfold controller_call. keeps. Qed.
#[local] Hint Resolve controller_call_tries : keeps.

(** ** The end of a trial *)
Lemma track_score_spec t a : af_spec (track_score t a) = af_spec a.
Proof. unfold track_score. by repeat case_match. Qed.
Lemma _store_trial_quiet t : keeps same_core (_store_adaptive_trial t : M unit).
Proof. unfold _store_adaptive_trial. keeps. Qed.
#[local] Hint Resolve _store_trial_quiet : keeps.
Lemma tell_and_store_tries b f p t : keeps (tries b) (tell_and_store f p t).
Proof. unfold tell_and_store. keeps. Qed.

(** The frame is still there, with its step. *)
Lemma trial_top c c' a body rest : trial false c c' -> co_stack c = AdaptiveFrame a body :: rest ->
  exists a', co_stack c' = AdaptiveFrame a' body :: rest /\ af_spec a' = af_spec a.
Proof.
  destruct 1 as [|a0 a' body' rest' state E Ea _]; intros Ec; [by exists a|]. rewrite E in Ec. injection Ec as -> -> ->. by exists a'.
Qed.

(** A trial on what was there at first *)
Lemma keeps_top {A} (k : M A) s a body rest :
  rt_stack s = AdaptiveFrame a body :: rest ->
  (forall s1 a1, tries false s s1 -> rt_stack s1 = AdaptiveFrame a1 body :: rest -> af_spec a1 = af_spec a ->
     tries true s1 (snd (k s1))) ->
  forall s1, tries false s s1 -> tries true s (snd (k s1)).
Proof.
  intros E Hk s1 H1. destruct (trial_top _ _ _ _ _ H1 E) as (a1 & E1 & Ea). transitivity s1; [by apply trial_weaken|by eapply Hk].
Qed.

Lemma _finalize_trial_tries p t : keeps (tries true) (_finalize_adaptive_trial p t).
Proof.
  intros s. unfold _finalize_adaptive_trial. set (t' := od_pop _ _). unfold mbind at 1, pyM_bind at 1, current_frame.
  destruct (rt_stack s) as [|[| | | | |a body] rest] eqn:E; try (unfold tries; reflexivity).
  set (fail_on := ad_fail_on_trial_error _).
  assert (forall (B : Type) (m : M B) (k : B -> M unit) s0, tries false s s0 -> keeps (tries false) m ->
    (forall b s1, tries false s s1 -> tries true s (snd (k b s1))) -> tries true s (snd ((m ≫= k) s0))) as Hbind.
  { intros B m k s0 H0 Hm Hk. unfold mbind, pyM_bind. specialize (Hm s0). destruct (m s0) as [[b|e] s1]; cbn in *.
    - apply Hk. by transitivity s0.
    - apply trial_weaken. change (tries false s s1). by transitivity s0. }
  apply Hbind; [reflexivity|apply on_frame_tries, track_score_spec|intros _ s1 H1].
  apply Hbind; [done|apply quiet_tries; unfold _publish_adaptive_trial_env; keeps|intros _ s2 H2].
  apply Hbind; [done| |intros told s3 H3].
  { intros s3. pose proof (tell_and_store_tries false fail_on p t' s3) as H. by destruct (tell_and_store fail_on p t' s3). }
  apply Hbind; [done|by apply on_frame_tries|intros _ s4 H4]. apply Hbind; [done|keeps|intros _ s5 H5].
  revert s5 H5. apply (keeps_top _ s a body rest E). intros s5 a5 _ E5 Ea5. destruct (_ && fail_on) eqn:Ef; [|constructor].
  assert (trial true (core_of s5) (core_of s5 <| co_stack := AdaptiveFrame a5 body :: rest |> <| co_state := ERROR |>)) as Ht;
    [|unfold tries; replace (core_of (snd _)) with (core_of s5 <| co_stack := AdaptiveFrame a5 body :: rest |> <| co_state := ERROR |>);
      [exact Ht|by rewrite <- E5]].
  eapply (TrialNote true (core_of s5) a5 a5 body rest ERROR); [exact E5|done|right; split; [done|]].
  apply andb_prop in Ef as [_ Ef]. unfold flagged. by rewrite Ea5.
Qed.
#[local] Hint Resolve _finalize_trial_tries : keeps.

(** ** Sources *)
#[local] Abbreviation calm := (keepsL same_core).

Lemma poll_telemetry_calm fuel d p x t m dl : calm (poll_telemetry fuel d p x t m dl).
Proof. induction fuel as [|fuel IH]; cbn [poll_telemetry]; keepsL. Qed.
#[local] Hint Resolve poll_telemetry_calm : keeps.
Lemma _sample_telemetry_calm fuel c : calm (_sample_adaptive_telemetry fuel c).
Proof. unfold _sample_adaptive_telemetry. keepsL. Qed.
Lemma _sample_call_quiet c : keeps same_core (_sample_adaptive_call c : M pyval).
Proof. unfold _sample_adaptive_call. keeps. Qed.
#[local] Hint Resolve _sample_telemetry_calm _sample_call_quiet : keeps.
Lemma _sample_source_calm fuel v : calm (_sample_adaptive_source fuel v).
Proof. unfold _sample_adaptive_source. keepsL. Qed.
#[local] Hint Resolve _sample_source_calm : keeps.
Lemma _collect_state_calm fuel d : calm (_collect_adaptive_state fuel d).
Proof. induction d as [|[k v] d IH]; cbn [_collect_adaptive_state]; keepsL. Qed.
Lemma sample_metrics_calm fuel d r : calm (sample_metrics fuel d r).
Proof. revert r. induction d as [|[k v] d IH]; intros r; cbn [sample_metrics]; keepsL. Qed.
#[local] Hint Resolve _collect_state_calm sample_metrics_calm : keeps.
Lemma sample_repeats_calm fuel n d r : calm (sample_repeats fuel n d r).
Proof. revert r. induction n as [|n IH]; intros r; cbn [sample_repeats]; keepsL. Qed.
#[local] Hint Resolve sample_repeats_calm : keeps.
Lemma _collect_metrics_calm fuel d : calm (_collect_adaptive_metrics fuel d).
Proof. unfold _collect_adaptive_metrics. keepsL. Qed.
Lemma _compute_score_quiet o m a : keeps same_core (_compute_adaptive_score o m a : M pyval).
Proof. unfold _compute_adaptive_score. keeps. Qed.
#[local] Hint Resolve _collect_metrics_calm _compute_score_quiet : keeps.
Lemma _collect_trial_calm fuel a p : calm (_collect_adaptive_trial fuel a p).
Proof. unfold _collect_adaptive_trial. keepsL. Qed.

Lemma calm_tries {A} b (m : L A) : calm m -> keepsL (tries b) m.
Proof. intros H s r s' E. unfold tries. rewrite (H s r s' E). constructor. Qed.
#[local] Hint Resolve calm_tries _collect_trial_calm : keeps.

(** ** Observations *)
Lemma on_observing_quiet f : keeps same_core (on_observing f : M unit).
Proof. apply on_adaptive_quiet. Qed.
Lemma on_trial_quiet f : keeps same_core (on_trial f : M unit).
Proof. apply on_observing_quiet. Qed.
#[local] Hint Resolve on_observing_quiet on_trial_quiet : keeps.
Lemma _try_sample_output_quiet d : keeps same_core (_try_sample_analysis_output d : M (option pyval)).
Proof. unfold _try_sample_analysis_output. keeps. Qed.
#[local] Hint Resolve _try_sample_output_quiet : keeps.
Lemma analysis_values_quiet d v : keeps same_core (analysis_values d v : M (option dict)).
Proof. revert v. induction d as [|[k []] d IH]; intros v; cbn [analysis_values]; keeps. Qed.
Lemma other_values_calm fuel d v : calm (other_values fuel d v).
Proof. revert v. induction d as [|[k x] d IH]; intros v; cbn [other_values]; keepsL. Qed.
#[local] Hint Resolve analysis_values_quiet other_values_calm : keeps.
Lemma _collect_repeat_calm fuel now o : calm (_collect_adaptive_repeat fuel now o).
Proof. unfold _collect_adaptive_repeat. keepsL. Qed.
Lemma finish_observed_calm o t : calm (finish_observed o t).
Proof. unfold finish_observed. keepsL. Qed.
#[local] Hint Resolve _collect_repeat_calm finish_observed_calm : keeps.

Lemma _start_observation_tries fuel p : keepsL (tries true) (_start_adaptive_observation fuel p).
Proof.
  unfold _start_adaptive_observation. keepsL. apply keepsL_caught. keepsL.
Qed.
#[local] Hint Resolve _start_observation_tries : keeps.

(** Leaving the body of a trial *)
Lemma _after_body_tries fuel : keepsL (tries true) (_after_adaptive_body fuel).
Proof. unfold _after_adaptive_body. keepsL. Qed.

Lemma _step_observation_tries fuel now : keepsL (tries true) (_step_adaptive_observation fuel now).
Proof. unfold _step_adaptive_observation. keepsL. Qed.

(** ** The next trial *)
Lemma stopping_rule_quiet {A} d n w (read : pyval -> result A) test :
  (forall x, keeps same_core (test x : M bool)) -> keeps same_core (stopping_rule d n w read test).
Proof. intros H. unfold stopping_rule, rendered_limit. keeps. Qed.
Lemma _should_stop_quiet a : keeps same_core (_adaptive_should_stop a : M bool).
Proof.
  unfold _adaptive_should_stop.
  repeat (first [apply stopping_rule_quiet; keeps | keeps_step]).
Qed.
Lemma _prepare_proposal_tries : keeps (tries false) (_prepare_adaptive_proposal : M dict).
Proof. unfold _prepare_adaptive_proposal. keeps. Qed.
Lemma _bind_proposal_quiet b p : keeps same_core (_bind_adaptive_proposal b p : M unit).
Proof. unfold _bind_adaptive_proposal. keeps. Qed.
End trials.
