(* ===== verification/SequencerMachine.v ===== *)
(** * The abstract machine of a run

    The moves a run can make on its core: rounds of the step loop, steps
    given to their handlers, requests, failures and ends.  A tick, and every
    request between ticks, is a sequence of such moves. *)
From S2P Require Import Prelude PyVal PyNum PyOps Expressions Conditions Responses ProcessBase.
From S2P Require Import SequencerData SequencerCore SequencerValues SequencerParallel SequencerWait SequencerAdaptive SequencerSteps.
From S2P Require Import SequencerTick SequencerFrames SequencerTrials.
#[local] Open Scope Z_scope.

(** ** Moves *)
Definition leave_core (e : exit_action) (c : core) : core :=
  match e with
  | ExitAtomic => c <| co_atomic := co_atomic c - 1 |>
  | ExitUse previous_vars name => c <| co_vars := previous_vars |> <| co_uses := drop_use name (co_uses c) |>
  | ExitAdaptive => c
  end.
Definition leave_frame (on_exit : option exit_action) (c : core) : core :=
  match on_exit with Some e => leave_core e c | None => c end.

Definition with_stack (l : list frame) (c : core) : core := c <| co_stack := l |>.

(** [finally] begins, or there is nothing to do in it. *)
Definition finalize (finally_steps : list step) (rest : list frame) : list frame :=
  match finally_steps with
  | [] => TryFrame [] true :: rest
  | _ => Frame finally_steps 0 None true :: TryFrame finally_steps true :: rest
  end.

(** The top frame advances by itself. *)
Inductive advance : core -> core -> Prop :=
| AdvSkip c steps i x e u rest : co_stack c = Frame steps i e u :: rest -> steps !! i = Some x -> disabled x = true ->
    advance c (with_stack (Frame steps (S i) e u :: rest) c)
| AdvLeave c steps i e u rest : co_stack c = Frame steps i e u :: rest -> steps !! i = None ->
    advance c (leave_frame e (with_stack rest c))
| AdvForEnd c bind records i body rest : co_stack c = ForFrame bind records i body :: rest -> records !! i = None ->
    advance c (with_stack rest c)
| AdvForNext c bind records i body rest new : co_stack c = ForFrame bind records i body :: rest ->
    new = [] \/ new = [body_frame body] -> records !! i <> None ->
    advance c (with_stack (new ++ ForFrame bind records (S i) body :: rest) c)
| AdvRepeatEnd c n body rest : co_stack c = RepeatFrame n body :: rest -> n <= 0 -> advance c (with_stack rest c)
| AdvRepeatNext c n body rest : co_stack c = RepeatFrame n body :: rest -> 0 < n ->
    advance c (with_stack (body_frame body :: RepeatFrame (n - 1) body :: rest) c)
| AdvTryFinally c steps rest : co_stack c = TryFrame steps false :: rest -> advance c (with_stack (finalize steps rest) c)
| AdvTryEnd c steps rest : co_stack c = TryFrame steps true :: rest -> advance c (with_stack rest c)
| AdvWhileEnd c cond body k rest : co_stack c = WhileFrame cond body k :: rest -> advance c (with_stack rest c)
| AdvWhileNext c cond body k rest : co_stack c = WhileFrame cond body k :: rest ->
    advance c (with_stack (body_frame body :: WhileFrame cond body (S k) :: rest) c)
| AdvAdaptiveEnd c a body rest : co_stack c = AdaptiveFrame a body :: rest -> advance c (with_stack rest c)
| AdvAdaptiveNext c a body rest : co_stack c = AdaptiveFrame a body :: rest ->
    advance c (with_stack (Frame body 0 (Some ExitAdaptive) false :: AdaptiveFrame a body :: rest) c).

(** A frame that cleanup leaves unfinished. *)
Inductive discard : core -> core -> Prop :=
| DiscardFrame c steps i e rest : co_stack c = Frame steps i e false :: rest -> discard c (leave_frame e (with_stack rest c))
| DiscardLoop c f rest : co_stack c = f :: rest ->
    match f with ForFrame _ _ _ _ | RepeatFrame _ _ | WhileFrame _ _ _ | TryFrame _ true | AdaptiveFrame _ _ => True | _ => False end ->
    discard c (with_stack rest c).

(** The top frame may run: the run goes on, or it is part of a [finally]. *)
Definition in_finally (stack : list frame) : Prop := Exists (fun f => run_during_unwind f = true) stack.
Definition may_run (c : core) : Prop := co_pending c = None \/ in_finally (co_stack c).

(** The run goes on; in cleanup also where a failing trial has ended it. *)
Definition active (c : core) : Prop := co_state c = RUNNING \/ (co_state c = ERROR /\ co_pending c <> None).

(** A step is taken from the top frame. *)
Definition takes (c : core) (x : step) (c' : core) : Prop :=
  exists steps i e u rest, co_stack c = Frame steps i e u :: rest /\ steps !! i = Some x /\ disabled x = false /\
    c' = with_stack (Frame steps (S i) e u :: rest) c.

(** What a run does to the devices goes through steps: each is logged with
    the core it was handed over in. *)
Definition dispatch := (core * step)%type.

Inductive move : core -> list dispatch -> core -> Prop :=
| MAdvance c c' : active c -> may_run c -> advance c c' -> move c [] c'
| MFinalize c steps rest : co_stack c = TryFrame steps false :: rest -> co_pending c <> None ->
    move c [] (with_stack (finalize steps rest) c)
| MDiscard c c' : co_pending c <> None -> ~ in_finally (co_stack c) -> discard c c' -> move c [] c'
| MTrial c c' : trial true c c' -> move c [] c'
| MStep c x c' c'' : active c -> may_run c -> takes c x c' -> after_handler x c' c'' -> move c [(c', x)] c''
| MStop c : co_atomic c = 0 -> co_parallel c = None -> move c [] (stop_core c)
| MPause c : co_atomic c = 0 -> co_parallel c = None -> move c [] (c <| co_state := PAUSED |>)
| MFail c : move c [] (fail_core c)
| MJoin c : move c [] (c <| co_parallel := None |>)
| MEnd c state : co_stack c = [] -> state = ERROR \/ co_pending c = Some state ->
    move c [] (c <| co_pending := None |> <| co_parallel := None |> <| co_state := state |>)
| MNextPass c steps : co_stack c = [] -> co_pending c = None -> co_program c = Some steps ->
    move c [] (c <| co_stack := [body_frame steps] |> <| co_parallel := None |> <| co_pending := None |>
                 <| co_atomic := 0 |> <| co_uses := [] |>)
| MDone c : co_stack c = [] -> co_pending c = None -> move c [] (c <| co_state := STOPPED |>)
| MRunning c : live_state (co_state c) = true -> move c [] (c <| co_state := RUNNING |>)
| MOver c : (_has_terminal_unwind_work (co_stack c) = false /\ co_pending c = None) \/ co_stack c = [] -> move c [] (c <| co_state := ERROR |>).

Inductive moves : core -> list dispatch -> core -> Prop :=
| MovesNil c : moves c [] c
| MovesCons c log c1 log' c2 : move c log c1 -> moves c1 log' c2 -> moves c (log ++ log') c2.

(** ** What a move leaves alone *)
Lemma moves_one c log c' : move c log c' -> moves c log c'.
Proof. intros H. rewrite <- (app_nil_r log). econstructor; [done|constructor]. Qed.

Lemma moves_app c l1 c1 l2 c2 : moves c l1 c1 -> moves c1 l2 c2 -> moves c (l1 ++ l2) c2.
Proof.
  intros H. revert l2 c2. induction H as [c|c log c1 log' c2 Hm _ IH]; intros l2 c3 H2; [done|].
  rewrite <- app_assoc. econstructor; [done|]. by apply IH.
Qed.

(** What stays as it is while frames advance: state, pending end, parallel step. *)
Definition same_status (c c' : core) : Prop :=
  co_state c' = co_state c /\ co_pending c' = co_pending c /\ co_parallel c' = co_parallel c.

#[export] Instance same_status_preorder : PreOrder same_status.
Proof. split; [done|]. intros a b c (?&?&?) (?&?&?). unfold same_status. intuition congruence. Qed.

(** The same, but a trial may have failed. *)
Definition kept_status (c c' : core) : Prop :=
  (co_state c' = co_state c \/ co_state c' = ERROR) /\ co_pending c' = co_pending c /\ co_parallel c' = co_parallel c.
#[export] Instance kept_status_preorder : PreOrder kept_status.
Proof.
  split; [intros c; split_and!; auto|]. intros a b c (H1 & ? & ?) (H2 & ? & ?). split_and!; [|congruence|congruence].
  destruct H2 as [-> | ->]; auto.
Qed.
Lemma same_kept c c' : same_status c c' -> kept_status c c'.
Proof. intros (? & ? & ?). split_and!; auto. Qed.

Lemma leave_frame_status e l c : same_status c (leave_frame e (with_stack l c)) /\ co_stack (leave_frame e (with_stack l c)) = l.
Proof. by destruct e as [[]|]. Qed.

Lemma advance_status c c' : advance c c' -> same_status c c'.
Proof. destruct 1; try done. apply leave_frame_status. Qed.

Lemma advance_tail c c' : advance c c' -> exists new, co_stack c' = new ++ tail (co_stack c).
Proof.
  destruct 1 as [c steps i x e u rest E|c steps i e u rest E|c bind rs i body rest E|c bind rs i body rest new E|c n body rest E|
    c n body rest E|c steps rest E|c steps rest E|c cond body k rest E|c cond body k rest E|c a body rest E|c a body rest E];
    rewrite E; cbn.
  - by exists [Frame steps (S i) e u].
  - exists []. by apply leave_frame_status.
  - by exists [].
  - exists (new ++ [ForFrame bind rs (S i) body]). by rewrite <- app_assoc.
  - by exists [].
  - by exists [body_frame body; RepeatFrame (n - 1) body].
  - destruct steps; [by exists [TryFrame [] true]|]. by eexists [Frame _ _ _ _; TryFrame _ _].
  - by exists [].
  - by exists [].
  - by exists [body_frame body; WhileFrame cond body (S k)].
  - by exists [].
  - by eexists [Frame _ _ _ _; AdaptiveFrame _ _].
Qed.

Section refinement.
Context `{HR : !PyRepr, HT : !Templates} {W : Type} `{HW : !SequencerWorld W}.
#[local] Abbreviation st := (runtime W).
#[local] Abbreviation M := (pyM (runtime W)).

(** ** Rounds *)

(** A frame takes note, advances, and takes note of what was left. *)
Definition stride (c c' : core) : Prop := exists c1 c2, trial false c c1 /\ advance c1 c2 /\ trial true c2 c'.
Definition turn (c c' : core) : Prop := trial false c c' \/ stride c c'.

Lemma stride_advance c c' : advance c c' -> stride c c'.
Proof. intros H. exists c, c'. split_and!; [constructor|done|constructor]. Qed.
Lemma turn_refl c : turn c c.
Proof. left. constructor. Qed.

Lemma run_exit_trial fuel e (s : st) r s' :
  run_exit fuel e s = Some (r, s') -> trial true (leave_core e (core_of s)) (core_of s').
Proof. destruct e; cbn; [intros [= _ <-]; constructor..|]. apply _after_body_tries. Qed.

(** What a round that found a step, or none, did. *)
Definition round_move (s : st) (r : result (option step_result)) (s' : st) : Prop :=
  match r with
  | Ok (Some (NextStep x)) => takes (core_of s) x (core_of s')
  | Ok None => stride (core_of s) (core_of s') /\ (rt_state s = RUNNING -> rt_state s' = RUNNING)
  | Ok (Some NoStep) => turn (core_of s) (core_of s') /\ rt_state s' <> RUNNING
  | _ => turn (core_of s) (core_of s')
  end.

Lemma exit_round_moves fuel steps i e u rest (s : st) r s' :
  rt_stack s = Frame steps i (Some e) u :: rest -> steps !! i = None -> exit_round fuel e rest s = Some (r, s') ->
  round_move s r s'.
Proof.
  intros Es Ei. unfold exit_round, mbind, pyL_bind. cbn [up set_stack modify gets get].
  set (s1 := s <| rt_stack := rest |>). destruct (run_exit fuel e s1) as [[r2 s2]|] eqn:Ex; [|done].
  assert (stride (core_of s) (core_of s2)) as Ht.
  { exists (core_of s), (leave_frame (Some e) (with_stack rest (core_of s))).
    split_and!; [constructor|by apply (AdvLeave (core_of s) steps i (Some e) u rest)|exact (run_exit_trial _ _ _ _ _ Ex)]. }
  destruct r2 as [[]|e2]; intros [= <- <-]; [|by right]. case_bool_decide as Hs; [by split; [right|]|]. destruct (_ || _); [by right|]. by split.
Qed.

Lemma adaptive_round_moves a body rest (s : st) :
  rt_stack s = AdaptiveFrame a body :: rest ->
  match adaptive_round a body rest s with (r, s') => round_move s r s' end.
Proof.
  intros Es. unfold adaptive_round. destruct (af_proposal a); [apply turn_refl|].
  pose proof (_should_stop_quiet a s) as Hq. unfold mbind at 1, pyM_bind at 1. destruct (_adaptive_should_stop a s) as [[stop|e] s1]; cbn in Hq.
  2: { change (turn (core_of s) (core_of s1)). rewrite Hq. apply turn_refl. }
  destruct (same_core_fields _ _ Hq) as (Es1 & _ & Hst). rewrite Es in Es1. destruct (stop || _).
  { split; [|intros Hr; transitivity (rt_state s1); [done|congruence]]. apply stride_advance. rewrite <- Hq. by apply (AdvAdaptiveEnd (core_of s1) a body rest). }
  unfold mbind at 1, pyM_bind at 1. pose proof (_prepare_proposal_tries s1) as Hp. destruct (_prepare_adaptive_proposal s1) as [[p|e] s2].
  2: { cbn in *. unfold tries in Hp. rewrite Hq in Hp. by left. }
  unfold mbind at 1, pyM_bind at 1. set (f := fun a0 : adaptive_frame => a0 <| af_proposal := Some p |>).
  pose proof (on_frame_tries false f (fun _ => eq_refl) s2) as Hf. destruct (on_frame f s2) as [[[]|e] s3] eqn:Eo; [|by unfold on_frame in Eo].
  cbn in Hp, Hf. assert (trial false (core_of s) (core_of s3)) as H3.
  { rewrite <- Hq. exact (transitivity (R := tries false) Hp Hf). }
  unfold mbind at 1, pyM_bind at 1. pose proof (_bind_proposal_quiet (ad_bind (af_spec a)) p s3) as Hb.
  destruct (_bind_adaptive_proposal _ p s3) as [[[]|e] s4]; cbn in Hb.
  2: { cbn. rewrite Hb. by left. }
  rewrite <- Hb in H3. destruct (trial_top _ _ _ _ _ H3 Es) as (a' & E' & Ea'). split.
  - exists (core_of s4), (with_stack (Frame body 0 (Some ExitAdaptive) false :: AdaptiveFrame a' body :: rest) (core_of s4)).
    split_and!; [exact H3|by eapply AdvAdaptiveNext|]. unfold with_stack. rewrite <- E'. constructor.
  - intros Hr. transitivity (rt_state s4); [done|]. apply trial_state in H3. cbn in H3. congruence.
Qed.

Lemma next_round_moves fuel base s r s' :
  (base < length (rt_stack s))%nat -> next_round fuel base s = Some (r, s') -> round_move s r s'.
Proof.
  intros Hb. unfold next_round. destruct (rt_stack s) as [|f rest] eqn:Es; [cbn in Hb; lia|].
  assert (co_stack (core_of s) = f :: rest) as Ec by done.
  rewrite (proj2 (Nat.leb_gt _ _)) by done. destruct f as [steps i e u|bind rs i body|n body|fs [|]|cond body k|a body].
  - destruct (steps !! i) as [x|] eqn:Ei.
    + intros [= <- <-]. cbn. destruct (disabled x) eqn:Ed; [split; [|done]; by eapply stride_advance, AdvSkip|]. by exists steps, i, e, u, rest.
    + destruct e as [e|]; [by apply (exit_round_moves fuel steps i e u)|]. intros [= <- <-].
      split; [|done]. by apply stride_advance, (AdvLeave (core_of s) steps i None u rest).
  - destruct (rs !! i) as [x|] eqn:Ei; [|intros [= <- <-]; split; [|done]; by eapply stride_advance, AdvForEnd].
    unfold mbind, pyM_bind. cbn [set_stack modify]. set (s0 := s <| rt_stack := _ |>).
    pose proof (_bind_record_quiet bind x (Z.of_nat i) s0) as Hq.
    destruct (_bind_record bind x (Z.of_nat i) s0) as [[[]|e] s1]; cbn in *; intros [= <- <-].
    + split.
      * apply stride_advance. match goal with |- advance _ (core_of ?s2) =>
          assert (core_of s2 = with_stack ([body_frame body] ++ ForFrame bind rs (S i) body :: rest) (core_of s)) as -> end.
        { transitivity (with_stack (body_frame body :: co_stack (core_of s1)) (core_of s1)); [done|]. by rewrite Hq. }
        eapply AdvForNext; [done|by right|by rewrite Ei].
      * intros Hr. apply (f_equal co_state) in Hq. cbn in *. by rewrite Hq.
    + right. apply stride_advance. rewrite Hq. apply (AdvForNext (core_of s) bind rs i body rest []); [done|by left|by rewrite Ei].
  - destruct (Z.leb_spec n 0); intros [= <- <-]; (split; [|done]); apply stride_advance; [by eapply AdvRepeatEnd|by eapply AdvRepeatNext].
  - intros [= <- <-]. split; [|done]. by eapply stride_advance, AdvTryEnd.
  - intros [= <- <-]. split; [|done]. apply stride_advance, (AdvTryFinally (core_of s) fs rest Ec).
  - unfold mbind, pyM_bind. pose proof (_eval_condition_quiet cond "while" false s) as Hq.
    destruct (_eval_condition cond "while" false s) as [[b|e] s1]; cbn in *; intros [= <- <-]; [|cbn; rewrite Hq; apply turn_refl].
    split; [|intros Hr; apply (f_equal co_state) in Hq; cbn in *; by rewrite Hq]. apply stride_advance.
    match goal with |- advance _ (core_of ?s2) => assert (core_of s2 = with_stack (rt_stack s2) (core_of s)) as -> by (by rewrite <- Hq) end.
    destruct b; cbn; [by eapply AdvWhileNext|by eapply AdvWhileEnd].
  - intros [= H]. pose proof (adaptive_round_moves a body rest s Es) as Hm. by destruct (adaptive_round a body rest s); simplify_eq.
Qed.

(** Frames advance and take note, silently. *)
Inductive advances : core -> core -> Prop :=
| AdvancesNil c : advances c c
| AdvancesCons c c1 c2 : active c -> may_run c -> advance c c1 -> advances c1 c2 -> advances c c2
| AdvancesTrial c c1 c2 : trial true c c1 -> advances c1 c2 -> advances c c2.

Lemma advances_moves c c' : advances c c' -> moves c [] c'.
Proof.
  induction 1 as [|c c1 c2 Hx Hr Ha _ IH|c c1 c2 Ht _ IH]; [constructor|..]; change [] with ([] ++ [] : list dispatch);
    (econstructor; [|done]); [by apply MAdvance|by apply MTrial].
Qed.

Lemma trial_status c c' : trial true c c' -> kept_status c c'.
Proof. destruct 1 as [|a a' body rest state E Ea Hs]; [done|]. split_and!; [|done|done]. destruct Hs as [->|[-> _]]; auto. Qed.
Lemma advances_status c c' : advances c c' -> kept_status c c'.
Proof.
  induction 1 as [|c c1 c2 _ _ Ha _ IH|c c1 c2 Ht _ IH]; [done|..]; (etrans; [|done]);
    [by apply same_kept, advance_status|by apply trial_status].
Qed.

(** What lies below what may run: nothing, or the body of a [finally]. *)
Definition grounded (base : nat) (c : core) : Prop :=
  exists top below, co_stack c = top ++ below /\ length below = base /\ (co_pending c = None \/ in_finally below).

Lemma grounded_may_run base c : grounded base c -> may_run c.
Proof.
  intros (top & below & E & _ & [H|H]); [by left|right]. rewrite E. unfold in_finally. rewrite Exists_app. by right.
Qed.

Lemma grounded_advance base c c' :
  grounded base c -> (base < length (co_stack c))%nat -> advance c c' -> grounded base c'.
Proof.
  intros (top & below & E & Hl & H) Hb Ha. destruct (advance_tail _ _ Ha) as [new En].
  destruct (advance_status _ _ Ha) as (_ & Hp & _). rewrite E in Hb, En. destruct top as [|f top]; [cbn in Hb; lia|].
  exists (new ++ top), below. split_and!; [by rewrite En, <- app_assoc|done|]. by rewrite Hp.
Qed.

Lemma grounded_trial base b c c' : trial b c c' -> grounded base c -> grounded base c'.
Proof.
  destruct 1 as [|a a' body rest state E _ _]; [done|]. intros (top & below & Ec & Hl & H). rewrite E in Ec.
  destruct top as [|f top]; cbn in Ec; [|injection Ec as <- ->; exists (AdaptiveFrame a' body :: top), below; done].
  subst below. exists [], (AdaptiveFrame a' body :: rest). split_and!; [done|done|]. destruct H as [H|H]; [by left|right].
  inversion H; subst; [done|by right].
Qed.

Lemma trial_length b c c' : trial b c c' -> length (co_stack c') = length (co_stack c).
Proof. destruct 1 as [|a a' body rest state E _ _]; [done|]. by rewrite E. Qed.

Lemma kept_active c c' : kept_status c c' -> (co_state c = RUNNING -> co_state c' = RUNNING \/ co_pending c <> None) ->
  active c -> active c'.
Proof.
  intros (Hs & Hp & _) Hr [Ha|[Ha Hpe]]; unfold active; rewrite Hp.
  - destruct (Hr Ha) as [?|?]; [by left|]. rewrite Ha in Hs. destruct Hs as [?|?]; [by left|by right].
  - rewrite Ha in Hs. right. by destruct Hs.
Qed.
Lemma trial_active c c' : trial false c c' -> active c -> active c'.
Proof.
  intros H. pose proof (trial_state _ _ H) as Hs. apply kept_active; [by apply trial_status, trial_weaken|]. rewrite Hs. auto.
Qed.

Lemma stride_advances base c c' :
  active c -> turn c c' -> grounded base c -> (base < length (co_stack c))%nat -> advances c c' /\ grounded base c'.
Proof.
  intros Hx [H1|(c1 & c2 & H1 & H2 & H3)] Hg Hb; pose proof (grounded_trial _ _ _ _ H1 Hg) as Hg1.
  { split; [|done]. eapply AdvancesTrial; [by apply trial_weaken|constructor]. }
  pose proof (trial_active _ _ H1 Hx) as Hx1. rewrite <- (trial_length _ _ _ H1) in Hb.
  split; [|eapply grounded_trial; [done|by eapply grounded_advance]]. eapply AdvancesTrial; [by apply trial_weaken|].
  eapply AdvancesCons; [done|by eapply grounded_may_run|done|]. eapply AdvancesTrial; [done|constructor].
Qed.

Lemma advances_app c c1 c2 : advances c c1 -> advances c1 c2 -> advances c c2.
Proof. induction 1; intros; [done|eapply AdvancesCons; [done|done|done|auto]|eapply AdvancesTrial; [done|auto]]. Qed.

(** ** The step loop *)
Definition step_found (c : core) (r : result step_result) (c' : core) : Prop :=
  match r with
  | Ok (NextStep x) => exists c1, advances c c1 /\ may_run c1 /\ takes c1 x c'
  | _ => advances c c'
  end.

Lemma step_found_app c c1 r c2 : advances c c1 -> step_found c1 r c2 -> step_found c r c2.
Proof.
  intros Ha. destruct r as [[x| |]|e]; cbn; [|by apply advances_app..].
  intros (c3 & H & Hr). exists c3. split; [by eapply advances_app|done].
Qed.

Lemma takes_grounded base c x c' :
  takes c x c' -> grounded base c -> (base < length (co_stack c))%nat -> grounded base c'.
Proof.
  intros (steps & i & e & u & rest & Es & _ & _ & ->) (top & below & E & Hl & Hp) Hb.
  destruct top as [|f top]; [cbn in E; rewrite E, <- Hl in Hb; lia|].
  rewrite Es in E. injection E as <- E. exists (Frame steps (S i) e u :: top), below. by rewrite E.
Qed.

Lemma next_step_above_moves fuel base s r s' :
  active (core_of s) -> grounded base (core_of s) -> _next_step_above fuel base s = Some (r, s') ->
  step_found (core_of s) r (core_of s') /\
  match r with
  | Ok NoStep => rt_state s' = RUNNING -> (length (rt_stack s') <= base)%nat
  | Ok (NextStep _) => rt_state s = RUNNING -> rt_state s' = RUNNING
  | _ => True
  end.
Proof.
  revert s. induction fuel as [|fuel IH]; intros s Hx Hg H; [done|]. cbn [_next_step_above] in H.
  destruct (Nat.le_gt_cases (length (rt_stack s)) base) as [Hle|Hgt].
  { assert (next_round fuel base s = Some (Ok (Some NoStep), s)) as E.
    { unfold next_round. destruct (rt_stack s); [done|]. by rewrite (proj2 (Nat.leb_le _ _)). }
    rewrite E in H. injection H as <- <-. split; [constructor|done]. }
  destruct (next_round fuel base s) as [[r1 s1]|] eqn:En; [|done]. pose proof (next_round_moves _ _ _ _ _ Hgt En) as Hm.
  assert (turn (core_of s) (core_of s1) -> advances (core_of s) (core_of s1) /\ grounded base (core_of s1)) as Ht.
  { intros Ht. by eapply stride_advances. }
  destruct r1 as [[[x| |]|]|e]; cbn in Hm.
  - injection H as <- <-. split.
    + exists (core_of s). split_and!; [constructor|by eapply grounded_may_run|done].
    + intros Hrun. destruct Hm as (? & ? & ? & ? & ? & _ & _ & _ & E). apply (f_equal co_state) in E. cbn in E. congruence.
  - injection H as <- <-. split; [by apply Ht|done].
  - injection H as <- <-. destruct Hm as [Hm Hs]. split; [by apply Ht|done].
  - destruct Hm as [Hm Hs]. destruct (Ht (or_intror Hm)) as [Ha Hg1].
    assert (active (core_of s1)) as Hx1 by (eapply kept_active; [by apply advances_status|auto|done]).
    destruct (IH s1 Hx1 Hg1 H) as [Hf Hn]. split; [by eapply step_found_app|].
    destruct r as [[x| |]|e]; auto.
  - injection H as <- <-. split; [by apply Ht|done].
Qed.

Lemma in_finally_above stack n : above_unwind_body stack = Some n -> in_finally (drop n stack) /\ (n < length stack)%nat.
Proof.
  revert n. induction stack as [|f l IH]; intros n; [done|]. cbn. destruct (run_during_unwind f) eqn:E.
  - intros [= <-]. split; [by left|lia].
  - destruct (above_unwind_body l) as [m|]; [|done]. intros [= <-]. destruct (IH m eq_refl). split; [done|lia].
Qed.
Lemma not_in_finally stack : above_unwind_body stack = None -> ~ in_finally stack.
Proof.
  induction stack as [|f l IH]; [intros _ H; inversion H|]. cbn. destruct (run_during_unwind f) eqn:E; [done|].
  destruct (above_unwind_body l); [done|]. intros _ H. inversion H; [congruence|]. by apply IH.
Qed.

(** ** Cleanup *)
Lemma leave_trial fuel e (s : st) r s' :
  leave fuel e s = Some (r, s') -> trial true (leave_frame e (core_of s)) (core_of s').
Proof.
  unfold leave. destruct e as [e|]; [|intros [= _ <-]; constructor]. unfold mbind, pyL_bind.
  destruct (run_exit fuel e s) as [[[[]|x] s1]|] eqn:E; [|intros [= _ <-]; by eapply run_exit_trial|done].
  intros H. transitivity (core_of s1); [by eapply run_exit_trial|]. clear E. cbn [up modify] in H.
  match type of H with context [_clear_set_context_state ?s0] => pose proof (_clear_set_context_quiet s0) as Hq;
    destruct (_clear_set_context_state s0) as [[[]|x] s2] end; cbn in Hq; injection H as _ <-;
    [change (trial true (core_of s1) (core_of s2))|]; rewrite Hq; constructor.
Qed.

(** One round of the cleanup. *)
Definition unwind_move (c : core) (r : result (option step_result)) (c' : core) : Prop :=
  match r with
  | Ok None | Err _ => moves c [] c'
  | Ok (Some (NextStep x)) => may_run c /\ takes c x c'
  | Ok (Some NoStep) => c' = c /\ co_stack c = []
  | _ => False
  end /\ kept_status c c'.

Lemma leave_round fuel e rest (s : st) r s' :
  ((_ ← up (set_stack rest); _ ← leave fuel e; mret None) : pyL (runtime W) (option step_result)) s = Some (r, s') ->
  move (core_of s) [] (leave_frame e (with_stack rest (core_of s))) -> unwind_move (core_of s) r (core_of s').
Proof.
  unfold mbind, pyL_bind. cbn [up set_stack modify]. set (s1 := s <| rt_stack := rest |>).
  destruct (leave fuel e s1) as [[r2 s2]|] eqn:El; [|done]. pose proof (leave_trial _ _ _ _ _ El) as Ht. intros H Hm.
  assert (moves (core_of s) [] (core_of s2) /\ kept_status (core_of s) (core_of s2)) as [? ?].
  { split; [|etrans; [apply same_kept, (proj1 (leave_frame_status e rest (core_of s)))|by apply trial_status]].
    apply (moves_app _ [] (leave_frame e (core_of s1)) []); [by apply moves_one|by apply moves_one, MTrial]. }
  destruct r2 as [[]|x]; injection H as <- <-; by split.
Qed.

Lemma unwind_round_moves fuel s r s' :
  active (core_of s) -> rt_pending_state s <> None -> (forall n, above_unwind_body (rt_stack s) <> Some (S n)) ->
  unwind_round fuel s = Some (r, s') -> unwind_move (core_of s) r (core_of s').
Proof.
  intros Hx Hp Hn. unfold unwind_round. destruct (rt_stack s) as [|f rest] eqn:Es; [by intros [= <- <-]|].
  assert (co_stack (core_of s) = f :: rest) as Ec by done. change (co_pending (core_of s) <> None) in Hp.
  assert (run_during_unwind f = false -> ~ in_finally (co_stack (core_of s))) as Hnf.
  { intros Hf. rewrite Ec. apply not_in_finally. cbn. rewrite Hf. destruct (above_unwind_body rest) as [n|] eqn:En; [|done].
    exfalso. apply (Hn n). cbn. by rewrite Hf, En. }
  assert (match f with ForFrame _ _ _ _ | RepeatFrame _ _ | WhileFrame _ _ _ | TryFrame _ true | AdaptiveFrame _ _ => True | _ => False end ->
    Some ((_ ← set_stack rest; mret None : M (option step_result)) s) = Some (r, s') -> unwind_move (core_of s) r (core_of s')) as Hloop.
  { intros Hf [= <- <-]. split; [|by apply same_kept]. apply moves_one, MDiscard; [done|apply Hnf; by destruct f|]. by eapply DiscardLoop. }
  destruct f as [steps i e [|]|bind rs i body|n body|fs [|]|cond body k|a body]; [..|by apply Hloop]; try (by apply Hloop).
  - assert (may_run (core_of s)) as Hr by (right; rewrite Ec; by left). destruct (steps !! i) as [x|] eqn:Ei.
    + intros [= <- <-]. cbn. destruct (disabled x) eqn:Ed; (split; [|by apply same_kept]).
      * apply moves_one, MAdvance; [done|done|]. by eapply AdvSkip.
      * split; [done|]. by exists steps, i, e, true, rest.
    + intros H. eapply leave_round; [exact H|]. apply MAdvance; [done|done|]. by eapply AdvLeave.
  - intros H. eapply leave_round; [exact H|]. apply MDiscard; [done|by apply Hnf|]. by eapply DiscardFrame.
  - intros [= <- <-]. split; [|by apply same_kept]. by apply moves_one, (MFinalize (core_of s) fs rest).
Qed.

(** A step, or why there is none. *)
Definition found (c : core) (r : result step_result) (c' : core) : Prop :=
  match r with
  | Ok (NextStep x) => exists c1, moves c [] c1 /\ may_run c1 /\ takes c1 x c' /\ kept_status c c1
  | _ => moves c [] c' /\ kept_status c c'
  end.

Lemma moves_found c c1 r c2 : moves c [] c1 -> kept_status c c1 -> found c1 r c2 -> found c r c2.
Proof.
  intros Hm Hs. destruct r as [[x| |]|e]; cbn.
  - intros (c3 & H & Hr & Ht & Hs'). exists c3. split_and!; [by apply (moves_app c [] c1 [])|done|done|by etrans].
  - intros (H & Hs'). split; [by apply (moves_app c [] c1 [])|by etrans].
  - intros (H & Hs'). split; [by apply (moves_app c [] c1 [])|by etrans].
  - intros (H & Hs'). split; [by apply (moves_app c [] c1 [])|by etrans].
Qed.

Lemma step_found_found c r c' : step_found c r c' -> found c r c'.
Proof.
  destruct r as [[x| |]|e]; cbn; intros H; try (split; [by apply advances_moves|by apply advances_status]).
  destruct H as (c1 & Ha & Hr & Ht). exists c1. split_and!; [by apply advances_moves|done|done|by apply advances_status].
Qed.

Lemma next_unwind_step_moves fuel s r s' :
  active (core_of s) -> rt_pending_state s <> None -> _next_terminal_unwind_step fuel s = Some (r, s') ->
  found (core_of s) r (core_of s') /\ (r = Ok NoStep -> rt_stack s' = []).
Proof.
  revert s. induction fuel as [|fuel IH]; intros s Hx Hp H; [done|]. cbn [_next_terminal_unwind_step] in H.
  assert (forall s1 : st, moves (core_of s) [] (core_of s1) -> kept_status (core_of s) (core_of s1) ->
    _next_terminal_unwind_step fuel s1 = Some (r, s') -> found (core_of s) r (core_of s') /\ (r = Ok NoStep -> rt_stack s' = [])) as Hgo.
  { intros s1 Hm Hs H1. pose proof Hs as (_ & Hpe & _). cbn in Hpe.
    destruct (IH s1) as [Hf Hn]; [|by rewrite Hpe|done|]; [eapply kept_active; [done|auto|done]|].
    split; [|done]. by eapply moves_found. }
  destruct (above_unwind_body (rt_stack s)) as [[|n]|] eqn:Ea.
  2: { destruct (in_finally_above _ _ Ea) as [Hf Hl].
    destruct (_next_step_above fuel (length (rt_stack s) - S n) s) as [[r1 s1]|] eqn:E1; [|done].
    assert (grounded (length (rt_stack s) - S n) (core_of s)) as Hg.
    { exists (take (S n) (rt_stack s)), (drop (S n) (rt_stack s)). cbn. rewrite take_drop, length_drop. auto. }
    destruct (next_step_above_moves _ _ _ _ _ Hx Hg E1) as (Hfd & _).
    destruct r1 as [[x| |]|e]; try (injection H as <- <-; split; [by apply step_found_found|done]).
    apply (Hgo s1); [by apply advances_moves|by apply advances_status|done]. }
  all: destruct (unwind_round fuel s) as [[r1 s1]|] eqn:Eu; [|done];
    destruct (unwind_round_moves fuel s r1 s1 Hx Hp) as [Hm Hst]; [by rewrite Ea|done|];
    destruct r1 as [[[x| |]|]|e]; try done;
    [injection H as <- <-; split; [exists (core_of s); destruct Hm; split_and!; [constructor|done|done|done]|done]
    |injection H as <- <-; destruct Hm as [E Hemp]; split; [split; [rewrite E; constructor|done]|]; intros _;
      apply (f_equal co_stack) in E; cbn in *; congruence
    |by apply (Hgo s1)
    |injection H as <- <-; by split].
Qed.

(** No step is left: the run is over, or the pass. *)
Definition none_left (s s' : st) (r : result step_result) : Prop :=
  match r with
  | Ok NoStep => rt_pending_state s <> None \/ rt_state s' = RUNNING -> rt_stack s' = []
  | Ok (NextStep _) => active (core_of s')
  | _ => True
  end.

Lemma next_step_moves fuel s r s' :
  rt_state s = RUNNING -> _next_step fuel s = Some (r, s') -> found (core_of s) r (core_of s') /\ none_left s s' r.
Proof.
  intros Hrun. unfold _next_step. destruct (rt_pending_state s) as [p|] eqn:Ep.
  - intros H. destruct (next_unwind_step_moves fuel s r s') as [Hf Hn]; [by left|by rewrite Ep|done|]. split; [done|].
    destruct r as [[x| |]|e]; try done; [|intros _; by apply Hn]. destruct Hf as (c1 & _ & _ & Ht & (Hst & Hpe & _)).
    destruct Ht as (? & ? & ? & ? & ? & _ & _ & _ & E). pose proof (f_equal co_state E) as E1. pose proof (f_equal co_pending E) as E2.
    cbn in *. unfold active. cbn. rewrite Hrun in Hst. rewrite E1, E2, Hpe, Ep. destruct Hst as [-> | ->]; [by left|by right].
  - intros H. destruct (next_step_above_moves fuel 0 s r s') as (Hf & Hn); [by left| |done|].
    + exists (rt_stack s), []. cbn. rewrite app_nil_r, Ep. auto.
    + split; [by apply step_found_found|]. destruct r as [[x| |]|e]; try done; [left; by apply Hn|].
      intros [Hx|Hx]; [by rewrite Ep in Hx|]. specialize (Hn Hx). destruct (rt_stack s'); [done|cbn in Hn; lia].
Qed.
End refinement.
