(* ===== verification/SequencerRuns.v ===== *)
(** * Ticks and requests as moves of the machine

    A run is a sequence of ticks and requests; its log is the steps handed to
    their handlers.  Every run is one of the abstract machine with the same
    log. *)
From S2P Require Import Prelude PyVal PyNum PyOps Expressions Conditions Responses ProcessBase.
From S2P Require Import SequencerData SequencerCore SequencerValues SequencerParallel SequencerWait SequencerAdaptive SequencerSteps.
From S2P Require Import SequencerTick SequencerFrames SequencerTrials SequencerMachine.
#[local] Open Scope Z_scope.

#[export] Hint Resolve outside_quiet monotonic_quiet on_stats_quiet set_env_quiet set_wait_quiet _env_view_quiet
  finish_now_quiet _record_event_quiet _update_detail_quiet _enter_pause_quiet cancel_quiet _clear_set_context_quiet
  _dispatch_call_quiet _dispatch_telemetry_quiet _telemetry_age_quiet resolve_telemetry_quiet resolve_call_quiet
  _resolve_value_quiet _condition_holds_quiet _eval_condition_quiet _bind_record_quiet _resolve_iterable_quiet
  note_telemetry_quiet settle_quiet take_sample_quiet _note_cleanup_failure_quiet : keeps.

Section runs.
Context `{HR : !PyRepr, HT : !Templates} {W : Type} `{HW : !SequencerWorld W}.
#[local] Abbreviation st := (runtime W).
#[local] Abbreviation M := (pyM (runtime W)).

(** ** The log of a tick *)
Fixpoint tick_loop_log (fuel : nat) (deadline : Q) (executed : Z) (s : st) : option (list dispatch * (result bool * st)) :=
  match fuel with
  | O => None
  | S fuel =>
      if bool_decide (rt_state s <> RUNNING) then Some ([], (Ok false, s))
      else
        match _check_stop_pause s with
        | (Err e, s) => Some ([], (Err e, s))
        | (Ok true, s) => Some ([], (Ok false, s))
        | (Ok false, s) =>
            match _next_step fuel s with
            | None => None
            | Some (Err e, s) => Some ([], (Err e, s))
            | Some (Ok NoStepReady, s) => Some ([], (Ok false, s))
            | Some (Ok NoStep, s) =>
                match end_of_pass s with
                | (Err e, s) => Some ([], (Err e, s))
                | (Ok true, s) => tick_loop_log fuel deadline executed s
                | (Ok false, s) => Some ([], (Ok false, s))
                end
            | Some (Ok (NextStep x), s) =>
                let c := core_of s in
                match run_step x deadline executed s with
                | (Err e, s) => Some ([(c, x)], (Err e, s))
                | (Ok (Some b), s) => Some ([(c, x)], (Ok b, s))
                | (Ok None, s) => prod_map (cons (c, x)) id <$> tick_loop_log fuel deadline (executed + 1) s
                end
            end
        end
  end.

Definition tick_body_log (fuel : nat) (s : st) : option (list dispatch * (result bool * st)) :=
  match rt_pending_state s, rt_stack s with
  | Some _, [] => Some ([], (_ ← _finish_pending_terminal; mret false) s)
  | _, _ =>
      match _check_stop_pause s with
      | (Err e, s) => Some ([], (Err e, s))
      | (Ok true, s) => Some ([], (Ok false, s))
      | (Ok false, s) =>
          match poll_all fuel s with
          | None => None
          | Some (Err e, s) => Some ([], (Err e, s))
          | Some (Ok false, s) => Some ([], (Ok false, s))
          | Some (Ok true, s) =>
              match monotonic s with
              | (Err e, s) => Some ([], (Err e, s))
              | (Ok t, s) => tick_loop_log fuel (t + _TICK_BUDGET_S)%Q 0 s
              end
          end
      end
  end.

Definition tick_log (fuel : nat) (s : st) : option (list dispatch * (result bool * st)) :=
  if bool_decide (rt_state s <> RUNNING) then Some ([], (Ok false, s))
  else
    match tick_body_log fuel s with
    | None => None
    | Some (log, (Err e, s)) => Some (log, crash e s)
    | Some (log, (Ok b, s)) => Some (log, (Ok b, s))
    end.

Lemma tick_loop_log_erased fuel deadline executed s :
  snd <$> tick_loop_log fuel deadline executed s = tick_loop fuel deadline executed s.
Proof.
  revert executed s. induction fuel as [|fuel IH]; intros executed s; [done|]. cbn [tick_loop_log tick_loop].
  case_bool_decide; [done|]. destruct (_check_stop_pause s) as [[[|]|e] s1]; [done| |done].
  destruct (_next_step fuel s1) as [[[[x| |]|e] s2]|]; [|done..| |done|done].
  - destruct (run_step x deadline executed s2) as [[[b|]|e] s3]; [done| |done]. rewrite <- IH.
    by destruct (tick_loop_log fuel deadline (executed + 1) s3) as [[]|].
  - by destruct (end_of_pass s2) as [[[|]|e] s3].
Qed.

(** The log changes nothing else. *)
Lemma tick_log_erased fuel s : snd <$> tick_log fuel s = tick fuel s.
Proof.
  unfold tick_log, tick. case_bool_decide; [done|].
  assert (snd <$> tick_body_log fuel s = tick_body fuel s) as <-.
  { unfold tick_body_log, tick_body. destruct (rt_pending_state s), (rt_stack s); try done;
      (destruct (_check_stop_pause s) as [[[|]|e] s1]; [done| |done]; destruct (poll_all fuel s1) as [[[[|]|e] s2]|]; [|done..];
       destruct (monotonic s2) as [[t|e] s3]; [apply tick_loop_log_erased|done]). }
  by destruct (tick_body_log fuel s) as [[log [[b|e] s1]]|].
Qed.

(** ** Silent computations *)
Definition silently (s s' : st) : Prop := moves (core_of s) [] (core_of s').
#[export] Instance silently_preorder : PreOrder silently.
Proof. split; [constructor|]. intros a b c H1 H2. exact (moves_app _ [] _ [] _ H1 H2). Qed.

Lemma quiet_silently {A} (m : M A) : keeps same_core m -> keeps silently m.
Proof. intros H s. unfold silently. rewrite (H s). constructor. Qed.
Lemma move_silently s s' : move (core_of s) [] (core_of s') -> silently s s'.
Proof. apply moves_one. Qed.
Lemma note_silently (f : st -> st) : (forall s, core_of (f s) = core_of s) -> keeps silently (modify f).
Proof. intros H. apply quiet_silently, keeps_modify, H. Qed.
#[local] Hint Resolve quiet_silently : keeps.
#[local] Hint Extern 2 (keeps silently (modify _)) => (apply note_silently; intros; reflexivity) : keeps.

Lemma fail_silently m : keeps silently (_fail_step m).
Proof. intros s. apply move_silently. rewrite (proj2 (fail_step_core m s)). apply MFail. Qed.
Lemma crash_silently e : keeps silently (crash e).
Proof. intros s. apply move_silently. rewrite (proj2 (crash_core_of e s)). apply MFail. Qed.
Lemma check_silently : keeps silently _check_stop_pause.
Proof.
  intros s. destruct (check_core s) as (b & _ & H). cbv zeta in H. destruct b.
  - destruct H as (Ha & Hp & [E|E]); apply move_silently; rewrite E; [by apply MStop|by apply MPause].
  - unfold silently. rewrite H. constructor.
Qed.
#[local] Hint Resolve fail_silently check_silently : keeps.

Lemma try_sample_quiet v d : keeps same_core (try_sample v d).
Proof.
  intros s. unfold try_sample. pose proof (_resolve_value_quiet v (PDict d) s) as H.
  destruct (_resolve_value v (PDict d) s) as [[x|e] s1]; [done|]. by destruct e.
Qed.
#[local] Hint Resolve try_sample_quiet : keeps.

Lemma step_wait_silently now : keeps silently (_step_wait_until now).
Proof. unfold _step_wait_until. keeps. Qed.
Lemma step_context_silently now : keeps silently (_step_set_context now).
Proof. unfold _step_set_context. keeps. Qed.
Lemma join_silently (f : st -> st) :
  (forall s, core_of (f s) = core_of s <| co_parallel := None |>) -> keeps silently (modify f).
Proof. intros H. apply keeps_modify. intros s. apply move_silently. rewrite H. apply MJoin. Qed.
Lemma step_parallel_silently : keeps silently _step_parallel.
Proof.
  intros s. unfold _step_parallel. destruct (rt_parallel_state s) as [token|]; [|constructor].
  destruct q_parallel as [[begin poll]|]; [|constructor].
  match goal with |- silently s (snd (?m s)) => enough (keeps silently m) as H by apply H end.
  apply keeps_bind; [apply _|auto with keeps|intros [finished results]]. destruct finished; [|keeps]. cbn [negb].
  apply keeps_bind; [apply _|keeps|intros pending].
  apply keeps_bind; [apply _|by apply join_silently|intros _]. keeps.
Qed.
#[local] Hint Resolve step_wait_silently step_context_silently step_parallel_silently : keeps.

Lemma finish_if_silently m : keeps silently m -> keeps silently (finish_if m).
Proof. intros H. unfold finish_if. keeps. Qed.
Lemma poll_waits_silently now : keeps silently (poll_waits now).
Proof.
  assert (forall t, keeps silently (poll_sleep t)) as H1.
  { intros t s. unfold poll_sleep. destruct (rt_sleep_until s); [|constructor]. case_match; constructor. }
  assert (forall t, keeps silently (poll_wait t)) as H2.
  { intros t s. unfold poll_wait. destruct (rt_wait_state s); [|constructor]. apply finish_if_silently. auto with keeps. }
  assert (forall t, keeps silently (poll_context t)) as H3.
  { intros t s. unfold poll_context. destruct (rt_set_context_state s); [|constructor]. apply finish_if_silently. auto with keeps. }
  assert (keeps silently poll_parallel) as H4.
  { intros s. unfold poll_parallel. destruct (rt_parallel_state s); [|constructor]. apply finish_if_silently. auto with keeps. }
  unfold poll_waits. keeps.
Qed.

Lemma trials_silently {A} (m : pyL st A) : keepsL (tries true) m -> keepsL silently m.
Proof. intros H s r s' E. apply move_silently, MTrial. by eapply H. Qed.
Lemma poll_all_silently fuel : keepsL silently (poll_all fuel : pyL st bool).
Proof.
  unfold poll_all. apply keepsL_bind; [apply _|apply keepsL_up; auto with keeps|intros now].
  apply keepsL_bind; [apply _|apply keepsL_up, poll_waits_silently|intros ready].
  destruct ready; [apply trials_silently, _step_observation_tries|apply keepsL_ret, _].
Qed.

(** ** The end of a pass *)
Lemma finish_pending_core s : exists state,
  (state = ERROR \/ state = default STOPPED (rt_pending_state s)) /\ exists a, fst (_finish_pending_terminal s) = Ok a /\
  core_of (snd (_finish_pending_terminal s)) =
    core_of s <| co_pending := None |> <| co_parallel := None |> <| co_state := state |>.
Proof.
  unfold _finish_pending_terminal. set (final := if rt_cleanup_failed s then ERROR else default STOPPED (rt_pending_state s)).
  exists final. split; [subst final; destruct (rt_cleanup_failed s); auto|]. set (error := rt_pending_error s).
  match goal with |- exists a, fst (?m s) = _ /\ _ =>
    enough (acts (fun c => c <| co_pending := None |> <| co_parallel := None |> <| co_state := final |>) m) as H by apply (H s) end.
  apply (acts_bind (fun c => c <| co_pending := None |>) (fun c => c <| co_parallel := None |> <| co_state := final |>));
    [by apply acts_modify|intros _].
  apply (acts_bind (fun c => c <| co_parallel := None |>) (fun c => c <| co_state := final |>));
    [apply acts_drop_pending_work|intros _].
  apply (acts_bind (fun c => c <| co_state := final |>) (fun c => c)); [by apply acts_modify|intros _].
  apply (acts_bind (fun c => c) (fun c => c)); [apply acts_monotonic|intros now]. apply acts_on_stats.
Qed.

Lemma finish_silently {A} (k : unit -> M A) s :
  rt_pending_state s <> None -> rt_stack s = [] -> (forall u, keeps same_core (k u)) ->
  silently s (snd ((u ← _finish_pending_terminal; k u) s)).
Proof.
  intros Hp Hs Hk. destruct (finish_pending_core s) as (state & Hst & a & Ea & Ec). unfold mbind, pyM_bind.
  destruct (_finish_pending_terminal s) as [r s1]. cbn in Ea, Ec. subst r. unfold silently. rewrite (Hk a s1), Ec.
  apply moves_one, MEnd; [done|]. destruct Hst as [->| ->]; [by left|right]. cbn. by destruct (rt_pending_state s).
Qed.

Lemma done_silently (k : M bool) s :
  rt_pending_state s = None -> rt_stack s = [] -> keeps same_core k ->
  silently s (snd ((_ ← modify (fun s => s <| rt_state := STOPPED |>); k) s)).
Proof. intros Hp Hs Hk. unfold mbind, pyM_bind. cbn. unfold silently. rewrite Hk. apply moves_one, (MDone (core_of s)); done. Qed.

Lemma next_pass_silently s :
  rt_pending_state s = None -> rt_stack s = [] -> silently s (snd (_prepare_next_run_loop s)).
Proof.
  intros Hp Hs. unfold _prepare_next_run_loop. destruct (rt_spec s) as [spec|] eqn:Esp.
  - match goal with |- silently s (snd (?m s)) => enough (acts (fun c => c <| co_stack := [body_frame (sp_steps spec)] |>
      <| co_parallel := None |> <| co_pending := None |> <| co_atomic := 0 |> <| co_uses := [] |>) m) as H end.
    { destruct (H s) as (a & _ & Ec). unfold silently. rewrite Ec. apply moves_one, MNextPass; [done|done|]. cbn. by rewrite Esp. }
    apply (acts_bind (fun c => c <| co_stack := [body_frame (sp_steps spec)] |>)
      (fun c => c <| co_parallel := None |> <| co_pending := None |> <| co_atomic := 0 |> <| co_uses := [] |>));
      [by apply acts_modify|intros _].
    apply (acts_bind (fun c => c <| co_parallel := None |>)
      (fun c => c <| co_pending := None |> <| co_atomic := 0 |> <| co_uses := [] |>)); [apply acts_drop_pending_work|intros _].
    apply (acts_bind (fun c => c <| co_pending := None |> <| co_atomic := 0 |> <| co_uses := [] |>) (fun c => c));
      [by apply acts_modify|intros _].
    apply (acts_bind (fun c => c) (fun c => c)); [apply acts_monotonic|intros _; apply acts_ret].
  - unfold mbind, pyM_bind, monotonic, outside. cbn. destruct (q_clock _) as [t w]. apply move_silently, (MDone (core_of s)); done.
Qed.

Lemma end_of_pass_silently s :
  (rt_pending_state s <> None \/ rt_state s = RUNNING -> rt_stack s = []) -> silently s (snd (end_of_pass s)).
Proof.
  intros Hs. unfold end_of_pass. destruct (rt_pending_state s) as [p|] eqn:Ep.
  { apply (finish_silently (fun _ => mret false)); [by rewrite Ep|apply Hs; by left|keeps]. }
  case_bool_decide as Hrun; [|constructor]. specialize (Hs (or_intror Hrun)). unfold mbind at 1, pyM_bind at 1. cbn [modify]. unfold mbind at 1, pyM_bind at 1. cbn [gets].
  set (s1 := s <| rt_loops_completed := _ |>). change (silently s) with (silently s1). destruct (_should_continue_run_loops s1).
  - pose proof (next_pass_silently s1 Ep Hs) as H. unfold mbind, pyM_bind. by destruct (_prepare_next_run_loop s1) as [[[]|e] s2].
  - apply done_silently; [done|done|keeps].
Qed.

(** ** A step *)
Lemma begin_step_quiet x t : keeps same_core (_begin_active_step x t : M unit).
Proof. unfold _begin_active_step. keeps. Qed.

Lemma run_step_core x deadline executed : ends (after_handler x) (run_step x deadline executed : M (option bool)).
Proof.
  unfold run_step. intros s. unfold mbind at 1, pyM_bind at 1. destruct (acts_monotonic s) as (t & Et & Ec).
  destruct (monotonic s) as [r s1]. cbn in Et, Ec. subst r. unfold mbind at 1, pyM_bind at 1.
  destruct (acts_on_stats (begin_active_step x t) s1) as (u & Eu & Ec1). change (on_stats (begin_active_step x t)) with (_begin_active_step x t : M unit) in *.
  destruct (_begin_active_step x t s1) as [r s2]. cbn in Eu, Ec1. subst r. rewrite <- Ec, <- Ec1.
  match goal with |- after_handler x _ (core_of (snd (?m s2))) => enough (ends (after_handler x) m) as H by apply H end.
  apply ends_last; [apply execute_step_core|keeps].
Qed.

(** ** A tick *)
Lemma check_goes_on s s1 : _check_stop_pause s = (Ok false, s1) -> core_of s1 = core_of s.
Proof. intros E. destruct (check_core s) as (b & Hb & H). rewrite E in Hb, H. cbn in Hb, H. injection Hb as <-. exact H. Qed.

Lemma tick_loop_moves fuel deadline executed s log r s' :
  tick_loop_log fuel deadline executed s = Some (log, (r, s')) -> moves (core_of s) log (core_of s').
Proof.
  revert executed s log. induction fuel as [|fuel IH]; intros executed s log H; [done|]. cbn [tick_loop_log] in H.
  case_bool_decide as Hrun; [simplify_eq; constructor|].
  pose proof (check_silently s) as Hc. pose proof (check_goes_on s) as Hc'.
  destruct (_check_stop_pause s) as [[[|]|e] s1]; cbn in Hc; [by simplify_eq| |by simplify_eq].
  specialize (Hc' s1 eq_refl). destruct (same_core_fields _ _ Hc') as (_ & _ & Hs1). rewrite Hrun in Hs1. rewrite <- Hc'.
  destruct (_next_step fuel s1) as [[r2 s2]|] eqn:En; [|done]. pose proof (next_step_moves fuel s1 r2 s2 Hs1 En) as [Hf Hn].
  destruct r2 as [[x| |]|e]; cbn [found none_left] in Hf, Hn; [|destruct Hf; by simplify_eq| |destruct Hf; by simplify_eq].
  - destruct Hf as (c1 & Hm & Hr & Ht & _). pose proof (run_step_core x deadline executed s2) as Hh.
    assert (moves (core_of s1) [(core_of s2, x)] (core_of (snd (run_step x deadline executed s2)))) as Hm2.
    { apply (moves_app _ [] c1 [(core_of s2, x)]); [done|]. apply moves_one. eapply MStep; [|done|done|done].
      destruct Ht as (? & ? & ? & ? & ? & _ & _ & _ & E). pose proof (f_equal co_state E) as E1. pose proof (f_equal co_pending E) as E2.
      cbn in E1, E2. unfold active. by rewrite <- E1, <- E2. }
    destruct (run_step x deadline executed s2) as [[[b|]|e] s3]; [by simplify_eq| |by simplify_eq].
    destruct (tick_loop_log fuel deadline (executed + 1) s3) as [[log3 [r3 s4]]|] eqn:E3; [|done]. cbn in H. simplify_eq.
    apply (moves_app _ [(core_of s2, x)] _ log3 _ Hm2). by eapply IH.
  - destruct Hf as (Hm & (_ & Hpe & _)). cbn in Hpe. rewrite <- Hpe in Hn.
    pose proof (end_of_pass_silently s2 Hn) as Hend.
    destruct (end_of_pass s2) as [[[|]|e] s3]; cbn in Hend;
      [|simplify_eq; by apply (moves_app _ [] _ [] _ Hm)..].
    change log with ([] ++ log). apply (moves_app _ [] _ log _ Hm). change log with ([] ++ log).
    apply (moves_app _ [] _ log _ Hend). by eapply IH.
Qed.

Lemma tick_moves fuel s log r s' : tick_log fuel s = Some (log, (r, s')) -> moves (core_of s) log (core_of s').
Proof.
  unfold tick_log. case_bool_decide; [intros; simplify_eq; constructor|].
  assert (forall log r s', tick_body_log fuel s = Some (log, (r, s')) -> moves (core_of s) log (core_of s')) as Hb.
  { clear. intros log r s'. unfold tick_body_log. destruct (rt_pending_state s) as [p|] eqn:Ep, (rt_stack s) as [|f l] eqn:Es.
    1: { intros [= <- H]. change s' with (snd (r, s')). rewrite <- H.
         apply (finish_silently (fun _ => mret false) s); [by rewrite Ep|done|keeps]. }
    all: pose proof (check_silently s) as Hc; destruct (_check_stop_pause s) as [[[|]|e] s1]; cbn in Hc;
      [by intros; simplify_eq| |by intros; simplify_eq];
      pose proof (poll_all_silently fuel s1) as Hw; destruct (poll_all fuel s1) as [[[[|]|e] s2]|]; [..|done];
      specialize (Hw _ _ eq_refl); unfold silently in Hw;
      [|intros; simplify_eq; by apply (moves_app _ [] _ [] _ Hc)..];
      pose proof (monotonic_quiet s2) as Hq; destruct (monotonic s2) as [[t|e] s3]; cbn in Hq; intros Ht;
      [apply tick_loop_moves in Ht; rewrite Hq in Ht; apply (moves_app _ [] _ log _ Hc), (moves_app _ [] _ log _ Hw), Ht
      |simplify_eq; rewrite Hq; by apply (moves_app _ [] _ [] _ Hc)]. }
  destruct (tick_body_log fuel s) as [[log1 [[b|e] s1]]|] eqn:Et; [| |done]; intros; simplify_eq; [by eapply Hb|].
  specialize (Hb _ _ _ eq_refl). pose proof (crash_silently e s1) as Hc. destruct (crash e s1) as [r2 s2]. simplify_eq.
  rewrite <- (app_nil_r log). by apply (moves_app _ log _ []  _ Hb).
Qed.

(** ** Requests between ticks *)
Lemma resume_silently source : keeps silently (resume source).
Proof.
  intros s. unfold resume. destruct (rt_state s) eqn:Es; try constructor.
  match goal with |- silently s (snd (?m s)) => enough (acts (fun c => c <| co_state := RUNNING |>) m) as H end.
  { destruct (H s) as (a & _ & Ec). apply move_silently. rewrite Ec. apply MRunning. cbn. by rewrite Es. }
  clear. apply (acts_bind (fun c => c)); [apply acts_monotonic|intros now].
  apply (acts_bind (fun c => c)); [apply acts_gets|intros paused].
  apply (acts_bind (fun c => c)); [apply acts_on_stats|intros _].
  apply (acts_bind (fun c => c <| co_state := RUNNING |>) (fun c => c)); [by apply acts_modify|intros _].
  apply (acts_bind (fun c => c) (fun c => c)); [apply acts_record_event|intros _]. by apply acts_modify.
Qed.

Lemma stop_silently reason source : keeps silently (request_stop reason source).
Proof.
  intros s. unfold request_stop. set (b := bool_decide _). assert (b = true -> rt_state s = PAUSED) as Hb.
  { intros E. by apply bool_decide_eq_true in E. }
  match goal with |- silently s (snd (?m s)) => enough (acts (fun c => if b then c <| co_state := RUNNING |> else c) m) as H end.
  { destruct (H s) as (a & _ & Ec). unfold silently. rewrite Ec. destruct b; [|constructor]. apply moves_one, MRunning. cbn. by rewrite Hb. }
  apply (acts_bind (fun c => c)); [destruct (_ && _); [apply acts_record_event|apply acts_ret]|intros _].
  apply (acts_bind (fun c => c)); [by apply acts_modify|intros _]. destruct b; [|apply acts_ret].
  apply (acts_bind (fun c => c)); [apply acts_monotonic|intros now].
  apply (acts_bind (fun c => c)); [apply acts_on_stats|intros _]. by apply acts_modify.
Qed.

(** An end that was asked for from outside. *)
Lemma end_silently reason (now : Q) s : live_state (rt_state s) = true ->
  silently s (snd ((unwinding ← _begin_terminal_unwind ERROR (Some reason);
         if unwinding : bool then modify (fun s => s <| rt_state := RUNNING |>)
         else
           _ ← _abandon_active_step now;
           _ ← modify (fun s => s <| rt_last_error := Some reason |> <| rt_state := ERROR |>);
           run_ended now) s)).
Proof.
  intros Hl. pose proof (begin_unwind ERROR (Some reason) s) as H. unfold mbind at 1, pyM_bind at 1.
  set (k := fun _ : unit => _).
  assert (forall s0 : st, core_of (snd ((_abandon_active_step now ≫= k) s0)) = core_of s0 <| co_state := ERROR |>) as Hk by done.
  destruct (rt_pending_state s) eqn:Ep.
  - rewrite H. destruct (rt_stack s) eqn:Es; [|by apply move_silently, MRunning].
    apply move_silently. rewrite Hk. apply MOver. by right.
  - destruct (_has_terminal_unwind_work (rt_stack s)) eqn:Ew.
    + destruct (_begin_terminal_unwind ERROR (Some reason) s) as [r s1]. cbn in H. destruct H as [-> H].
      trans s1; [|apply move_silently, MRunning; by rewrite H]. apply move_silently. rewrite H.
      replace (unwinding_core ERROR (core_of s)) with (fail_core (core_of s)); [apply MFail|]. unfold fail_core. cbn [co_pending co_stack core_of]. by rewrite Ep, Ew.
    + rewrite H. apply move_silently. rewrite Hk. apply MOver. by left.
Qed.

Lemma request_fail_silently reason : keeps silently (fail reason).
Proof.
  intros s. unfold fail. destruct (live s) eqn:El; [|constructor]. cbn [negb]. set (why := if nonempty reason then _ else _).
  match goal with |- silently s (snd (?m s)) =>
    enough (forall s, live_state (rt_state s) = true -> silently s (snd (m s))) as H by (apply H; exact El) end.
  assert (forall (A B : Type) (m : M A) (k : A -> M B), acts (fun c => c) m ->
    (forall a s, live_state (rt_state s) = true -> silently s (snd (k a s))) ->
    forall s, live_state (rt_state s) = true -> silently s (snd ((m ≫= k) s))) as Hbind.
  { intros A B m k Hm Hk s0 Hl. unfold mbind, pyM_bind. destruct (Hm s0) as (a & Ea & Ec).
    destruct (m s0) as [r s1]. cbn in Ea, Ec. subst r. unfold silently. rewrite <- Ec. apply Hk.
    apply (f_equal co_state) in Ec. cbn in Ec. by rewrite Ec. }
  clear s El. apply Hbind; [apply acts_record_event|intros _]. apply Hbind; [apply acts_monotonic|intros now].
  apply Hbind; [apply acts_on_stats|intros _]. apply Hbind; [by apply acts_modify|intros _].
  apply Hbind; [apply acts_gets|intros [token|] s Hl]; [by apply note_silently|].
  unfold mbind at 1, pyM_bind at 1. destruct (acts_drop_pending_work s) as (a & Ea & Ec). destruct (drop_pending_work s) as [r s1].
  cbn in Ea, Ec. subst r. trans s1; [apply move_silently; rewrite Ec; apply MJoin|]. apply end_silently.
  apply (f_equal co_state) in Ec. cbn in Ec. by rewrite Ec.
Qed.

(** ** Runs *)

(** What happens to a run: ticks, and requests between them. *)
Inductive op :=
| OpTick (fuel : nat)
| OpPause (reason source trigger : pyval)
| OpResume (source : pyval)
| OpStop (reason source : pyval)
| OpFail (reason : string)
| OpLog (severity message : string) (source : pyval)
| OpOutput (payload : pyval)
| OpClear (study_id : option string).

Definition run_op (o : op) (s : st) : option (list dispatch * st) :=
  match o with
  | OpTick fuel => '(log, (_, s)) ← tick_log fuel s; Some (log, s)
  | OpPause reason source trigger => Some ([], snd (request_pause reason source trigger s))
  | OpResume source => Some ([], snd (resume source s))
  | OpStop reason source => Some ([], snd (request_stop reason source s))
  | OpFail reason => Some ([], snd (fail reason s))
  | OpLog severity message source => Some ([], snd (note_external_log severity message source s))
  | OpOutput payload => Some ([], snd (record_analysis_output payload s))
  | OpClear study_id => Some ([], snd (clear_adaptive_studies study_id s))
  end.

Fixpoint run_ops (ops : list op) (s : st) : option (list dispatch * st) :=
  match ops with
  | [] => Some ([], s)
  | o :: ops =>
      '(log, s) ← run_op o s;
      '(log', s) ← run_ops ops s;
      Some (log ++ log', s)
  end.

Lemma run_op_moves o s log s' : run_op o s = Some (log, s') -> moves (core_of s) log (core_of s').
Proof.
  destruct o as [fuel|reason source trigger|source|reason source|reason|severity message source|payload|study_id]; cbn [run_op].
  - destruct (tick_log fuel s) as [[l [r s1]]|] eqn:E; [|done]. cbn. intros [= <- <-]. by eapply tick_moves.
  - intros [= <- <-]. constructor.
  - intros [= <- <-]. apply resume_silently.
  - intros [= <- <-]. apply stop_silently.
  - intros [= <- <-]. apply request_fail_silently.
  - intros [= <- <-]. unfold note_external_log. destruct (live s); [|constructor].
    apply (quiet_silently _ (_record_event_quiet severity "log" message PNone source PNone)).
  - intros [= <- <-]. destruct payload; constructor.
  - intros [= <- <-]. unfold clear_adaptive_studies. repeat case_match; constructor.
Qed.

Lemma run_ops_moves ops s log s' : run_ops ops s = Some (log, s') -> moves (core_of s) log (core_of s').
Proof.
  revert s log. induction ops as [|o ops IH]; intros s log H; cbn in H; [simplify_eq; constructor|].
  destruct (run_op o s) as [[l1 s1]|] eqn:E1; [|done]. cbn in H. destruct (run_ops ops s1) as [[l2 s2]|] eqn:E2; [|done].
  cbn in H. simplify_eq. eapply moves_app; [by eapply run_op_moves|by eapply IH].
Qed.
End runs.
