(* ===== verification/SequencerTheorems.v ===== *)
(** * What a run guarantees

    Invariants of the machine, by induction on its moves, carried to the ticks
    and requests of [sequencer/runtime.py]: cleanup runs whatever ends the run,
    nothing else runs then, and blocks that were entered are left. *)
From S2P Require Import Prelude PyVal PyNum PyOps Expressions Conditions Responses ProcessBase.
From S2P Require Import SequencerData SequencerCore SequencerValues SequencerParallel SequencerWait SequencerAdaptive SequencerSteps.
From S2P Require Import SequencerTick SequencerFrames SequencerTrials SequencerMachine SequencerRuns ScanPlan Ranges.
#[local] Open Scope Z_scope.

(** ** Cleanup that is owed *)

(** What is left of the [finally] bodies that have begun, and all of those
    that have not. *)
Definition enabled (l : list step) : list step := filter (fun x => disabled x = false) l.
Definition frame_cleanup (f : frame) : list step :=
  match f with
  | Frame steps i _ true => enabled (drop i steps)
  | TryFrame finally_steps false => enabled finally_steps
  | _ => []
  end.
Definition cleanup (stack : list frame) : list step := stack ≫= frame_cleanup.

Lemma cleanup_cons f l : cleanup (f :: l) = frame_cleanup f ++ cleanup l.
Proof. done. Qed.

Lemma no_work_no_cleanup stack : _has_terminal_unwind_work stack = false -> cleanup stack = [].
Proof.
  induction stack as [|f l IH]; [done|]. rewrite cleanup_cons. intros [Hf Hl]%orb_false_iff. rewrite (IH Hl), app_nil_r.
  destruct f as [steps i [e|] [|]| | |[|x fs] [|]| |]; done.
Qed.

(** [owed] first, then what came on top of it. *)
Definition settles (c : core) (log : list dispatch) (c' : core) : Prop :=
  exists finished rest, cleanup (co_stack c) = finished ++ rest /\ finished `sublist_of` log.*2 /\
    rest `suffix_of` cleanup (co_stack c').

Lemma settles_suffix c log c' : cleanup (co_stack c) `suffix_of` cleanup (co_stack c') -> settles c log c'.
Proof. intros H. exists [], (cleanup (co_stack c)). split_and!; [done|apply sublist_nil_l|done]. Qed.

Lemma settles_app c l1 c1 l2 c2 : settles c l1 c1 -> settles c1 l2 c2 -> settles c (l1 ++ l2) c2.
Proof.
  intros (f1 & r1 & E1 & S1 & [p1 P1]) (f2 & r2 & E2 & S2 & P2). rewrite E2 in P1. unfold settles. rewrite fmap_app.
  destruct (app_eq_inv _ _ _ _ P1) as [(k & -> & ->)|(k & -> & ->)].
  - exists (f1 ++ k), r2. split_and!; [by rewrite <- app_assoc|apply sublist_app; [done|]|done].
    etrans; [|exact S2]. by apply sublist_inserts_l.
  - exists f1, r1. split_and!; [done|by apply sublist_inserts_r|]. etrans; [by apply suffix_app_r|done].
Qed.

Lemma advance_cleanup c c' : advance c c' -> cleanup (co_stack c') = cleanup (co_stack c).
Proof.
  destruct 1 as [c steps i x e u rest E Hi Hd|c steps i e u rest E Hi|c bind rs i body rest E|c bind rs i body rest new E Hn|
    c n body rest E|c n body rest E|c steps rest E|c steps rest E|c cond body k rest E|c cond body k rest E|c a body rest E|c a body rest E]; rewrite E.
  - cbn. destruct u; [|done]. unfold enabled. rewrite (drop_S _ _ _ Hi), filter_cons_False; [done|congruence].
  - rewrite (proj2 (leave_frame_status e rest c)). cbn. destruct u; [|done]. by rewrite drop_ge by (by apply lookup_ge_None).
  - done.
  - by destruct Hn as [-> | ->].
  - done.
  - done.
  - unfold finalize. destruct steps; done.
  - done.
  - done.
  - done.
  - done.
  - done.
Qed.

Lemma trial_cleanup b c c' : trial b c c' -> cleanup (co_stack c') = cleanup (co_stack c).
Proof. destruct 1 as [|a a' body rest state E _ _]; [done|]. by rewrite E. Qed.

Lemma discard_cleanup c c' : discard c c' -> cleanup (co_stack c') = cleanup (co_stack c).
Proof.
  destruct 1 as [c steps i e rest E|c f rest E Hf]; rewrite E.
  - by rewrite (proj2 (leave_frame_status e rest c)).
  - by destruct f as [| | |fs [|]| |].
Qed.

(** A handler only adds frames. *)
Lemma after_handler_stack x c c' : after_handler x c c' -> exists new, co_stack c' = new ++ co_stack c.
Proof.
  assert (exists new, co_stack (fail_core c) = new ++ co_stack c) as Hf.
  { exists []. unfold fail_core. by repeat case_match. }
  destruct 1; try done; try (by exists []); (eexists [_]; reflexivity) || (eexists [_; _]; reflexivity).
Qed.

Lemma takes_settles c x c' c'' : takes c x c' -> after_handler x c' c'' -> settles c [(c', x)] c''.
Proof.
  intros (steps & i & e & u & rest & E & Hi & Hd & ->) Ha. destruct (after_handler_stack _ _ _ Ha) as [new En]. cbn in En.
  unfold settles. rewrite En. unfold cleanup. rewrite bind_app, E. cbn. destruct u.
  - exists [x]. eexists. split_and!; [|done|by apply suffix_app_r].
    unfold enabled. by rewrite (drop_S _ _ _ Hi), filter_cons_True.
  - exists []. eexists. split_and!; [done|apply sublist_nil_l|by apply suffix_app_r].
Qed.

Lemma stop_core_stack c : co_stack (stop_core c) = co_stack c.
Proof. unfold stop_core. by repeat case_match. Qed.
Lemma fail_core_stack c : co_stack (fail_core c) = co_stack c.
Proof. unfold fail_core. by repeat case_match. Qed.

Lemma move_settles c log c' : move c log c' -> settles c log c'.
Proof.
  destruct 1 as [c c' _ _ Ha|c fs rest E|c c' _ _ Hd|c c' Hd|c x c' c'' _ _ Ht Hh|c|c|c|c|c st E|c st E|c E|c|c].
  - apply settles_suffix. by rewrite (advance_cleanup _ _ Ha).
  - apply settles_suffix. rewrite <- (advance_cleanup c (with_stack (finalize fs rest) c)); [done|by apply AdvTryFinally].
  - apply settles_suffix. by rewrite (discard_cleanup _ _ Hd).
  - apply settles_suffix. by rewrite (trial_cleanup _ _ _ Hd).
  - by eapply takes_settles.
  - apply settles_suffix. by rewrite stop_core_stack.
  - by apply settles_suffix.
  - apply settles_suffix. by rewrite fail_core_stack.
  - by apply settles_suffix.
  - by apply settles_suffix.
  - apply settles_suffix. by rewrite E.
  - by apply settles_suffix.
  - by apply settles_suffix.
  - by apply settles_suffix.
Qed.

Lemma moves_settles c log c' : moves c log c' -> settles c log c'.
Proof.
  induction 1 as [c|c log c1 log' c2 Hm _ IH]; [by apply settles_suffix|].
  eapply settles_app; [by apply move_settles|done].
Qed.

(** What is owed from a step on: its own [finally] first. *)
Definition owed (d : dispatch) : list step :=
  (match snd d with TryStep _ _ finally_steps => enabled finally_steps | _ => [] end) ++ cleanup (co_stack (fst d)).

Lemma after_handler_owed x c c' : after_handler x c c' -> owed (c, x) `suffix_of` cleanup (co_stack c').
Proof.
  intros H. unfold owed. cbn [fst snd]. assert (cleanup (co_stack c) `suffix_of` cleanup (co_stack c')) as Hs.
  { destruct (after_handler_stack _ _ _ H) as [new ->]. unfold cleanup. rewrite bind_app. by apply suffix_app_r. }
  destruct x as [| | | | | | | | | | |h body fs| | | |]; try exact Hs.
  by inversion H; simplify_eq.
Qed.

(** A run, cut at one of its steps. *)
Lemma moves_cut c log c' l1 d l2 : moves c log c' -> log = l1 ++ d :: l2 ->
  exists c0 c2, moves c l1 c0 /\ takes c0 (snd d) (fst d) /\ after_handler (snd d) (fst d) c2 /\ moves c2 l2 c'.
Proof.
  intros H. revert l1. induction H as [c|c log c1 log' c2 Hm Hms IH]; intros l1 E; [by destruct l1|].
  assert (log = [] \/ exists e, log = [e]) as [-> | [e ->]] by (destruct Hm; eauto).
  - destruct (IH l1 E) as (c0 & c3 & H1 & H2). exists c0, c3. split; [|done]. by apply (MovesCons c [] c1).
  - destruct l1 as [|e' l1]; cbn in E; injection E as <- E.
    + exists c. inversion Hm as [| | | |? x c' c'' _ _ Ht Hh| | | | | | | | |]; subst. exists c1. by split_and!; [constructor|..].
    + destruct (IH l1 E) as (c0 & c3 & H1 & H2). exists c0, c3. split; [|done]. by apply (MovesCons c [e] c1 l1).
Qed.

Lemma moves_owed c log c' l1 d l2 : moves c log c' -> log = l1 ++ d :: l2 ->
  exists finished rest, owed d = finished ++ rest /\ finished `sublist_of` l2.*2 /\ rest `suffix_of` cleanup (co_stack c').
Proof.
  intros H E. destruct (moves_cut _ _ _ _ _ _ H E) as (c0 & c2 & _ & _ & Hh & Hms). destruct d as [c1 x]. cbn in Hh.
  destruct (after_handler_owed _ _ _ Hh) as [pre Hp]. destruct (moves_settles _ _ _ Hms) as (f & r & Ef & Hf & Hr).
  rewrite Ef in Hp. destruct (app_eq_inv _ _ _ _ Hp) as [(k & -> & ->)|(k & -> & ->)].
  - exists k, r. split_and!; [done| |done]. etrans; [|exact Hf]. by apply sublist_inserts_l.
  - exists [], (owed (c1, x)). split_and!; [done|apply sublist_nil_l|]. etrans; [by apply suffix_app_r|done].
Qed.

(** ** A run that is over owes nothing *)

(** A failing trial of such a step ends the run on the spot. *)
Definition aborts (x : step) : bool := match x with AdaptiveStep _ spec _ => ad_fail_on_trial_error spec | _ => false end.
Definition lenient (log : list dispatch) : Prop := Forall (fun d => aborts (snd d) = false) log.
Definition lenient_frame (f : frame) : Prop := match f with AdaptiveFrame a _ => flagged a = false | _ => True end.

Record over_is_clean (c : core) : Prop := {
  ov_clean : live_state (co_state c) = false -> _has_terminal_unwind_work (co_stack c) = false;
  ov_pending : co_pending c <> None -> live_state (co_state c) = true \/ co_stack c = [];
  ov_lenient : Forall lenient_frame (co_stack c)
}.

Lemma discard_work c c' : discard c c' -> _has_terminal_unwind_work (co_stack c) = false ->
  _has_terminal_unwind_work (co_stack c') = false.
Proof.
  destruct 1 as [c steps i e rest E|c f rest E Hf]; rewrite E; [rewrite (proj2 (leave_frame_status e rest c))|];
    cbn; by intros [_ H]%orb_false_iff.
Qed.

Lemma advance_nonempty c c' : advance c c' -> co_stack c <> [].
Proof. destruct 1 as [? ? ? ? ? ? ? E| | | | | | | | | | |]; congruence. Qed.

(** Frames come and go, adaptive ones stay as they are. *)
Lemma advance_lenient c c' : advance c c' -> Forall lenient_frame (co_stack c) -> Forall lenient_frame (co_stack c').
Proof.
  destruct 1 as [c steps i x e u rest E Hi Hd|c steps i e u rest E Hi|c bind rs i body rest E|c bind rs i body rest new E Hn|
    c n body rest E|c n body rest E|c steps rest E|c steps rest E|c cond body k rest E|c cond body k rest E|c a body rest E|c a body rest E];
    rewrite E; intros [Hf Hr]%Forall_cons; rewrite ?(proj2 (leave_frame_status _ _ _)); cbn;
    try (destruct Hn as [-> | ->]); try (unfold finalize; case_match); repeat constructor; done.
Qed.

Lemma discard_tail c c' : discard c c' -> same_status c c' /\ exists f, co_stack c = f :: co_stack c'.
Proof.
  destruct 1 as [c steps i e rest E|c f rest E Hf]; [|split; [done|by exists f]].
  destruct (leave_frame_status e rest c) as [H1 H2]. split; [done|]. eexists. by rewrite H2.
Qed.

(** What moves within the stack of a run keep *)
Lemma within_clean c c' : same_status c c' -> co_stack c <> [] ->
  (_has_terminal_unwind_work (co_stack c) = false -> _has_terminal_unwind_work (co_stack c') = false) ->
  (Forall lenient_frame (co_stack c) -> Forall lenient_frame (co_stack c')) -> over_is_clean c -> over_is_clean c'.
Proof.
  intros (Hs & Hp & _) Hne Hw Hl [Hc Hpe Hle]. constructor; [rewrite Hs; auto| |auto].
  rewrite Hs, Hp. intros H. destruct (Hpe H) as [?|?]; [by left|done].
Qed.

Lemma work_live c : over_is_clean c -> _has_terminal_unwind_work (co_stack c) = true -> live_state (co_state c) = true.
Proof. intros [Hc _ _] E. destruct (live_state (co_state c)); [done|]. by rewrite Hc in E. Qed.

Lemma fail_core_clean c : over_is_clean c -> over_is_clean (fail_core c).
Proof.
  intros H. pose proof H as [Hc Hp Hl]. unfold fail_core. destruct (co_pending c) as [p|] eqn:Ep; [by constructor; rewrite ?Ep|].
  destruct (_has_terminal_unwind_work (co_stack c)) eqn:E.
  - assert (live_state (co_state c) = true) as Hlive by (by apply work_live).
    constructor; cbn; [by rewrite Hlive|by left|done].
  - by constructor; cbn; rewrite ?Ep.
Qed.
Lemma stop_core_clean c : over_is_clean c -> over_is_clean (stop_core c).
Proof.
  intros H. pose proof H as [Hc Hp Hl]. unfold stop_core. destruct (co_pending c) as [p|] eqn:Ep.
  - destruct (co_stack c) eqn:E; [|by constructor; rewrite ?Ep, ?E]. constructor; cbn; rewrite ?E; [done|by right|constructor].
  - destruct (_has_terminal_unwind_work (co_stack c)) eqn:E.
    + assert (live_state (co_state c) = true) as Hlive by (by apply work_live).
      constructor; cbn; [by rewrite Hlive|by left|done].
    + by constructor; cbn; rewrite ?Ep.
Qed.

Lemma trial_clean c c' : trial true c c' -> over_is_clean c -> over_is_clean c'.
Proof.
  destruct 1 as [|a a' body rest state E Ea Hs]; [done|]. intros [Hc Hp Hl]. rewrite E in *. apply Forall_cons in Hl as [Hf Hl].
  assert (state = co_state c) as -> by (destruct Hs as [?|[_ Hx]]; [done|]; cbn in Hx, Hf; congruence).
  constructor; cbn; [exact Hc|intros H; destruct (Hp H); [by left|done]|]. constructor; [|done]. unfold lenient_frame, flagged in *. by rewrite Ea.
Qed.

Lemma active_running c : active c -> co_stack c <> [] -> over_is_clean c -> co_state c = RUNNING.
Proof. intros [?|[Hs Hpe]] Hne [_ Hp _]; [done|]. destruct (Hp Hpe) as [H|]; [by rewrite Hs in H|done]. Qed.

Lemma step_clean c x c' c'' : active c -> takes c x c' ->
  after_handler x c' c'' -> aborts x = false -> over_is_clean c -> over_is_clean c''.
Proof.
  intros Hr Ht Hh Hx Hcl. destruct Ht as (steps & i & e & u & rest & E & _ & _ & ->).
  assert (co_state c = RUNNING) as Hrun by (apply active_running; [done|by rewrite E|done]).
  destruct Hcl as [Hc Hp Hl]. rewrite E in *. apply Forall_cons in Hl as [_ Hl]. set (c1 := with_stack _ c) in Hh.
  assert (over_is_clean c1) as H1 by (by constructor; cbn; rewrite ?Hrun; [|left|constructor]).
  assert (forall c2 new, co_stack c2 = new ++ co_stack c1 -> live_state (co_state c2) = true -> Forall lenient_frame new -> over_is_clean c2) as Hnew.
  { intros c2 new E2 Hl2 Hn. constructor; [by rewrite Hl2|by left|]. rewrite E2. apply Forall_app. split; [done|apply H1]. }
  destruct Hh; subst;
    first [exact H1 | by apply fail_core_clean
          | match goal with |- over_is_clean ?c2 => let l := eval cbn in (co_stack c2) in
              lazymatch l with
              | ?f :: ?g :: Frame _ _ _ _ :: _ => apply (Hnew c2 [f; g])
              | ?f :: Frame steps _ _ _ :: _ => apply (Hnew c2 [f])
              | _ => apply (Hnew c2 [])
              end end];
    cbn; rewrite ?Hrun; by repeat constructor.
Qed.

Lemma move_clean c log c' : move c log c' -> lenient log -> over_is_clean c -> over_is_clean c'.
Proof.
  destruct 1 as [c c' Hrun _ Ha|c fs rest E|c c' _ _ Hd|c c' Hd|c x c' c'' Hrun _ Ht Hh|c|c|c|c|c st E|c st E|c E|c Hl|c Hw]; intros Hlen Hc.
  - assert (co_state c = RUNNING) as Hr by (apply active_running; [done|by eapply advance_nonempty|done]).
    destruct (advance_status _ _ Ha) as (Hs & _ & _). rewrite Hr in Hs. constructor; rewrite ?Hs; [done|by left|].
    eapply advance_lenient; [done|apply Hc].
  - apply (within_clean c); [done|by rewrite E|rewrite E; by destruct fs|apply advance_lenient; by apply AdvTryFinally|done].
  - destruct (discard_tail _ _ Hd) as [Hs [f Ef]].
    apply (within_clean c); [done|by rewrite Ef|by apply discard_work|rewrite Ef; by intros [_ ?]%Forall_cons|done].
  - by eapply trial_clean.
  - apply Forall_cons in Hlen as [Hx _]. by eapply step_clean.
  - by apply stop_core_clean.
  - destruct Hc as [Hc Hp Hl]. constructor; cbn; [done|by left|done].
  - by apply fail_core_clean.
  - by destruct Hc; constructor.
  - destruct Hc as [Hc Hp Hl]. constructor; cbn; [by rewrite E|done|done].
  - constructor; cbn; [done|done|by repeat constructor].
  - destruct Hc as [Hc Hp Hl]. constructor; cbn; [by rewrite E|by right|done].
  - destruct Hc as [Hc Hp Hls]. constructor; cbn; [done|by left|done].
  - destruct Hc as [Hc Hp Hl]. constructor; cbn; [intros _; by destruct Hw as [[Hw _]| ->]| |done].
    destruct Hw as [[_ ->]| ->]; [done|by right].
Qed.

Lemma moves_clean c log c' : moves c log c' -> lenient log -> over_is_clean c -> over_is_clean c'.
Proof. induction 1 as [|c log c1 log' c2 Hm _ IH]; [done|]. intros [H1 H2]%Forall_app H. by eapply IH, move_clean. Qed.

(** ** Once the run is to end, only cleanup runs *)
Definition cleanup_only (d : dispatch) : Prop :=
  (co_state (fst d) = RUNNING \/ (co_state (fst d) = ERROR /\ co_pending (fst d) <> None)) /\
  (co_pending (fst d) <> None -> in_finally (co_stack (fst d))).

Lemma moves_cleanup_only c log c' : moves c log c' -> Forall cleanup_only log.
Proof.
  induction 1 as [|c log c1 log' c2 Hm _ IH]; [constructor|]. apply Forall_app. split; [|done].
  destruct Hm as [| | | |c x c' c'' Hrun Hr Ht Hh| | | | | | | | |]; constructor; [|constructor].
  destruct Ht as (steps & i & e & u & rest & E & _ & _ & ->). split; [done|]. cbn. destruct Hr as [Hr|Hr]; [done|].
  intros _. unfold in_finally in *. rewrite E in Hr. inversion Hr as [? ? Hf|]; [by left|by right].
Qed.

(** ** Blocks *)

(** What is still to be done when frames are left, the innermost first. *)
Definition frame_exit (f : frame) : option exit_action := match f with Frame _ _ e _ => e | _ => None end.
Definition exits (stack : list frame) : list exit_action := omap frame_exit stack.

Fixpoint atomic_blocks (l : list exit_action) : Z :=
  match l with
  | [] => 0
  | ExitAtomic :: l => 1 + atomic_blocks l
  | _ :: l => atomic_blocks l
  end.
Definition use_name (e : exit_action) : option string := match e with ExitUse _ name => Some name | _ => None end.
Definition used (l : list exit_action) : list string := reverse (omap use_name l).
Lemma used_use vars name l : used (ExitUse vars name :: l) = used l ++ [name].
Proof. apply reverse_cons. Qed.
(** The variables once every block is left. *)
Definition outer_vars (l : list exit_action) (vars : dict) : dict :=
  foldl (fun v e => match e with ExitUse previous_vars _ => previous_vars | _ => v end) vars l.

Record balanced (vars : dict) (c : core) : Prop := {
  bal_atomic : co_atomic c = atomic_blocks (exits (co_stack c));
  bal_uses : co_uses c = used (exits (co_stack c));
  bal_nodup : NoDup (co_uses c);
  bal_vars : outer_vars (exits (co_stack c)) (co_vars c) = vars
}.

(** Frames with nothing to do at their end do not matter. *)
Definition same_blocks (c c' : core) : Prop :=
  exits (co_stack c') = exits (co_stack c) /\ co_atomic c' = co_atomic c /\ co_uses c' = co_uses c /\ co_vars c' = co_vars c.

Lemma same_blocks_balanced vars c c' : same_blocks c c' -> balanced vars c -> balanced vars c'.
Proof. intros (E1 & E2 & E3 & E4) [Ha Hu Hn Hv]. constructor; rewrite ?E1, ?E2, ?E3, ?E4; done. Qed.

Lemma drop_use_snoc name l : drop_use name (l ++ [name]) = l.
Proof.
  unfold drop_use. rewrite last_snoc, String.eqb_refl, length_app. cbn. rewrite Nat.add_1_r. cbn. by rewrite take_app_length.
Qed.

Lemma leave_balanced vars c steps i e u rest :
  co_stack c = Frame steps i e u :: rest -> balanced vars c -> balanced vars (leave_frame e (with_stack rest c)).
Proof.
  intros E [Ha Hu Hn Hv]. rewrite E in *. destruct e as [[|previous name|]|]; [| |by constructor..]; cbn [exits omap list_omap frame_exit atomic_blocks outer_vars foldl] in *.
  - constructor; cbn; [|done|done|done]. rewrite Ha. lia.
  - rewrite used_use in Hu. rewrite Hu in Hn. apply NoDup_app in Hn as (Hn & _ & _).
    constructor; cbn; [|by rewrite Hu, drop_use_snoc|by rewrite Hu, drop_use_snoc|done].
    done.
Qed.

Lemma advance_balanced vars c c' : advance c c' -> balanced vars c -> balanced vars c'.
Proof.
  destruct 1 as [c steps i x e u rest E Hi Hd|c steps i e u rest E Hi|c bind rs i body rest E|c bind rs i body rest new E Hn|
    c n body rest E|c n body rest E|c steps rest E|c steps rest E|c cond body k rest E|c cond body k rest E|c a body rest E|c a body rest E];
    try (apply same_blocks_balanced; by repeat split; rewrite E).
  - by eapply leave_balanced.
  - apply same_blocks_balanced. repeat split. rewrite E. by destruct Hn as [-> | ->].
  - apply same_blocks_balanced. repeat split. rewrite E. by destruct steps.
  - intros [Ha Hu Hn Hv]. rewrite E in *. by constructor.
Qed.

Lemma trial_balanced vars b c c' : trial b c c' -> balanced vars c -> balanced vars c'.
Proof. destruct 1 as [|a a' body rest state E _ _]; [done|]. apply same_blocks_balanced. repeat split. by rewrite E. Qed.

Lemma discard_balanced vars c c' : discard c c' -> balanced vars c -> balanced vars c'.
Proof.
  destruct 1 as [c steps i e rest E|c f rest E Hf]; [by eapply leave_balanced|].
  apply same_blocks_balanced. repeat split. rewrite E. by destruct f as [| | |fs [|]| |].
Qed.

Lemma fail_core_blocks c : same_blocks c (fail_core c).
Proof. unfold fail_core. by repeat case_match. Qed.
Lemma stop_core_blocks c : same_blocks c (stop_core c).
Proof. unfold stop_core. by repeat case_match. Qed.

Lemma after_handler_balanced vars x c c' : after_handler x c c' -> balanced vars c -> balanced vars c'.
Proof.
  destruct 1 as [| | | | | | |h name body Ex|h id args steps name merged Ex Hn| | |]; try by apply same_blocks_balanced.
  - apply same_blocks_balanced, fail_core_blocks.
  - intros [Ha Hu Hd Hv]. constructor; cbn; [|done|done|done]. rewrite Ha. apply Z.add_comm.
  - intros [Ha Hu Hd Hv]. constructor; cbn.
    + done.
    + by rewrite Hu, <- (used_use (co_vars c)).
    + apply NoDup_app. split_and!; [done| |apply NoDup_singleton]. intros y Hy ->%list_elem_of_singleton. done.
    + done.
Qed.

Lemma move_balanced vars c log c' : move c log c' -> balanced vars c -> balanced vars c'.
Proof.
  destruct 1 as [c c' _ _ Ha|c fs rest E|c c' _ _ Hd|c c' Hd|c x c' c'' _ _ Ht Hh|c|c|c|c|c st E|c steps E|c E|c|c];
    try by apply same_blocks_balanced.
  - by apply advance_balanced.
  - apply advance_balanced. by apply AdvTryFinally.
  - by apply discard_balanced.
  - by eapply trial_balanced.
  - intros Hc. eapply after_handler_balanced; [done|]. destruct Ht as (steps & i & e & u & rest & E & _ & _ & ->).
    revert Hc. apply same_blocks_balanced. repeat split. by rewrite E.
  - apply same_blocks_balanced, stop_core_blocks.
  - apply same_blocks_balanced, fail_core_blocks.
  - intros [Ha Hu Hn Hv]. rewrite E in *. by constructor; [| |constructor|].
Qed.

Lemma moves_balanced vars c log c' : moves c log c' -> balanced vars c -> balanced vars c'.
Proof. induction 1 as [|c log c1 log' c2 Hm _ IH]; [done|]. intros H. by eapply IH, move_balanced. Qed.

(** A run that is over is in no block. *)
Lemma no_work_no_exits stack : _has_terminal_unwind_work stack = false -> exits stack = [].
Proof.
  induction stack as [|f l IH]; [done|]. cbn. intros [Hf Hl]%orb_false_iff. specialize (IH Hl). unfold exits in IH. cbn. rewrite IH.
  by destruct f as [steps i [e|] [|]| | | | |].
Qed.

Section theorems.
Context `{HR : !PyRepr, HT : !Templates} {W : Type} `{HW : !SequencerWorld W}.
#[local] Abbreviation st := (runtime W).

(** ** From a start *)
Definition started (s : st) : Prop :=
  exists adaptive repeat_count continuous vars_override s0, start adaptive repeat_count continuous vars_override s0 = (Ok tt, s).

Lemma acts_result {A} f (m : pyM st A) s r s' : acts f m -> m s = (r, s') -> core_of s' = f (core_of s).
Proof. intros Ha E. destruct (Ha s) as (a & _ & Ec). by rewrite E in Ec. Qed.

Lemma begin_run_core mode target o spec (s : st) : exists vars, core_of (begin_run mode target o spec s) =
  mkCore [body_frame (sp_steps spec)] (rt_atomic_depth s) [] vars (rt_state s) (rt_pending_state s) (rt_parallel_state s) (sp_steps <$> rt_spec s).
Proof. exists (tp_resolve_vars (dict_update (rt_base_vars s) o)). destruct s. by vm_compute. Qed.

Lemma forget_run_core modes (s : st) : core_of (forget_run modes s) = core_of s <| co_pending := None |>.
Proof. destruct s. by vm_compute. Qed.

Lemma begin_clocks_core : acts (fun c => c <| co_parallel := None |> <| co_atomic := 0 |> <| co_state := RUNNING |>) (begin_clocks : pyM st unit).
Proof.
  apply (acts_bind (fun c => c <| co_parallel := None |>) (fun c => c <| co_atomic := 0 |> <| co_state := RUNNING |>));
    [apply acts_drop_pending_work|intros _].
  apply (acts_bind (fun c => c <| co_atomic := 0 |>) (fun c => c <| co_state := RUNNING |>)); [by apply acts_modify|intros _].
  apply (acts_bind (fun c => c) (fun c => c <| co_state := RUNNING |>)); [apply acts_monotonic|intros now]. by apply acts_modify.
Qed.

Lemma bind_lift {A B} (r : result A) (k : A -> pyM st B) s :
  (lift r ≫= k) s = match r with Ok a => k a s | Err e => (Err e, s) end.
Proof. by destruct r. Qed.
Lemma bind_modify {B} f (k : unit -> pyM st B) s : (modify f ≫= k) s = k tt (f s).
Proof. done. Qed.

Lemma started_core s : started s ->
  exists steps, core_of s = mkCore [body_frame steps] 0 [] (rt_vars s) RUNNING None None (Some steps).
Proof.
  intros (ad & rc & cont & ov & s0 & H). unfold start in H. destruct (rt_spec s0) as [spec|] eqn:Esp; [|discriminate H].
  exists (sp_steps spec). rewrite bind_lift in H. destruct (loop_request rc cont) as [[mode target]|]; [|discriminate H].
  rewrite bind_lift in H. destruct (overrides ov (sp_vars spec)) as [o|]; [|discriminate H]. rewrite bind_modify in H.
  destruct (begin_run_core mode target o spec s0) as [vars E]. rewrite Esp in E. revert H E. generalize (begin_run mode target o spec s0).
  intros s1 H E. rewrite bind_lift in H. destruct (_normalize_adaptive_start_modes ad) as [modes|]; [|discriminate H].
  rewrite bind_modify in H. apply (acts_result _ _ _ _ _ begin_clocks_core) in H. rewrite forget_run_core, E in H. rewrite H.
  apply (f_equal co_vars) in H. cbn in H. by rewrite H.
Qed.

Lemma started_balanced s : started s -> balanced (rt_vars s) (core_of s).
Proof. intros [steps ->]%started_core. constructor; [done|done|constructor|done]. Qed.
Lemma started_clean s : started s -> over_is_clean (core_of s).
Proof. intros [steps ->]%started_core. by constructor; [| |repeat constructor]. Qed.

Lemma over_owes_nothing s log (s' : st) rest : started s -> moves (core_of s) log (core_of s') -> lenient log -> live s' = false ->
  rest `suffix_of` cleanup (rt_stack s') -> rest = [].
Proof.
  intros Hs H Hle Hl Hsuf. assert (cleanup (rt_stack s') = []) as Hc.
  { apply no_work_no_cleanup, (ov_clean _ (moves_clean _ _ _ H Hle (started_clean s Hs))), Hl. }
  rewrite Hc in Hsuf. by apply suffix_nil_inv in Hsuf.
Qed.

(** ** The properties *)

(** C3. Cleanup runs: at any step of a run, the enabled steps of the [finally]
    blocks it is in ([owed]; for a [try] its own too) are, in order and after
    that step, either given to their handlers or still owed, whatever happens
    next - steps and cleanup steps that fail, ticks that raise, stops, pauses
    and external faults; and once the run is over none is owed, unless it had
    an adaptive step with [fail_on_trial_error]. *)
Theorem finally_always_runs s ops log s' l1 d l2 :
  started s -> run_ops ops s = Some (log, s') -> log = l1 ++ d :: l2 ->
  exists finished rest, owed d = finished ++ rest /\ finished `sublist_of` l2.*2 /\
    rest `suffix_of` cleanup (rt_stack s') /\ (live s' = false -> lenient log -> rest = []).
Proof.
  intros Hs H%run_ops_moves E. destruct (moves_owed _ _ _ _ _ _ H E) as (finished & rest & Eo & Hsub & Hsuf).
  exists finished, rest. split_and!; [done|done|done|]. intros Hl Hle. by apply (over_owes_nothing s log s').
Qed.

(** C19. Only cleanup runs once a run is to end: every step that is given to
    its handler is while the state is RUNNING (or, in cleanup that a failing
    adaptive trial has cut short, ERROR), and when the end is pending then
    within the body of a [finally] that is on the stack. *)
Theorem only_cleanup_runs_then ops (s : st) log s' : run_ops ops s = Some (log, s') -> Forall cleanup_only log.
Proof. intros H%run_ops_moves. by eapply moves_cleanup_only. Qed.

(** C17. Blocks that were entered are left: at every point of a run the depth
    of atomic blocks and the sequences in use are those of the frames on the
    stack, no sequence is in use twice, and leaving those frames gives back the
    variables of the start; once the run is over no block is open and the
    variables are those of the start, unless it had an adaptive step with
    [fail_on_trial_error]. *)
Theorem blocks_are_left s ops log s' :
  started s -> run_ops ops s = Some (log, s') ->
  let blocks := exits (rt_stack s') in
  rt_atomic_depth s' = atomic_blocks blocks /\ rt_use_stack s' = used blocks /\ NoDup (rt_use_stack s') /\
  outer_vars blocks (rt_vars s') = rt_vars s /\
  (live s' = false -> lenient log -> rt_atomic_depth s' = 0 /\ rt_use_stack s' = [] /\ rt_vars s' = rt_vars s).
Proof.
  intros Hs H%run_ops_moves. destruct (moves_balanced _ _ _ _ H (started_balanced s Hs)) as [Ha Hu Hn Hv].
  cbn [core_of co_atomic co_uses co_vars co_stack] in Ha, Hu, Hn, Hv.
  split_and!; [done|done|done|done|]. intros Hl Hle.
  assert (exits (rt_stack s') = []) as Hb.
  { apply no_work_no_exits, (ov_clean _ (moves_clean _ _ _ H Hle (started_clean s Hs))), Hl. }
  rewrite Hb in Ha, Hu, Hv. by split_and!.
Qed.

(** C16. A request to stop or to pause takes effect at the next check exactly
    when no atomic block is open on the stack and no parallel step is in
    flight; otherwise the check changes nothing, so that atomic blocks and
    parallel steps are never interrupted. A stop that takes effect is used up,
    and the run is STOPPED, or, when there is cleanup on its stack, is to end
    STOPPED after that cleanup (a run that is already cleaning up goes on
    doing so). A pause that takes effect, when no stop does, makes the run
    PAUSED, says why, and leaves its stack, its variables and its pending end
    as they were. *)
Theorem interrupted_outside_atomic s ops log s' :
  started s -> run_ops ops s = Some (log, s') ->
  let free := (atomic_blocks (exits (rt_stack s')) =? 0) &&
              match rt_parallel_state s' with None => true | Some _ => false end in
  let '(r, t) := _check_stop_pause s' in
  if rt_stop_requested s' && free then
    r = Ok true /\ rt_stop_requested t = false /\ rt_stack t = rt_stack s' /\ rt_vars t = rt_vars s' /\
    match rt_pending_state s', rt_stack s' with
    | Some p, _ :: _ => rt_pending_state t = Some p /\ rt_state t = rt_state s'
    | Some _, [] => rt_state t = STOPPED
    | None, stack =>
        if _has_terminal_unwind_work stack then rt_pending_state t = Some STOPPED /\ rt_state t = rt_state s'
        else rt_pending_state t = None /\ rt_state t = STOPPED
    end
  else if rt_pause_requested s' && free then
    r = Ok true /\ rt_state t = PAUSED /\ pause_entered t /\
    core_of t = core_of s' <| co_state := PAUSED |>
  else r = Ok false /\ t = s'.
Proof.
  intros Hs H%run_ops_moves. destruct (moves_balanced _ _ _ _ H (started_balanced s Hs)) as [Ha _ _ _].
  cbn [core_of co_atomic co_stack] in Ha. cbv zeta. rewrite <- Ha.
  change (_ && match rt_parallel_state s' with None => true | Some _ => false end) with (_interruptible s').
  pose proof (check_stop s') as Hst. pose proof (check_pause s') as Hp.
  destruct (rt_stop_requested s' && _interruptible s') eqn:E1;
    [|destruct (rt_pause_requested s' && _interruptible s') eqn:E2].
  - specialize (Hst eq_refl). destruct (_check_stop_pause s') as [r t]. destruct Hst as (-> & Hc & Hf).
    unfold stop_core in Hc. cbn [core_of co_pending co_stack] in Hc.
    destruct (rt_pending_state s') eqn:Ep, (rt_stack s') eqn:Ek; cbn [existsb _has_terminal_unwind_work] in *;
      try case_match; unfold core_of, unwinding_core in Hc; cbn in Hc; injection Hc as Hk Hat Hu Hv Hst Hpe Hpa Hpr;
      split_and!; congruence.
  - specialize (Hp eq_refl eq_refl). destruct (_check_stop_pause s') as [r t]. destruct Hp as (-> & Hc & Hi).
    split_and!; [done| |done|done]. unfold core_of in Hc. by injection Hc.
  - unfold _check_stop_pause. by rewrite E1, E2.
Qed.

(** The runtime refines the machine: a tick that ends is a sequence of
    the machine's moves, with the steps it gave to their handlers. *)
Theorem tick_refines_machine fuel (s : st) r s' :
  tick fuel s = Some (r, s') -> exists log, tick_log fuel s = Some (log, (r, s')) /\ moves (core_of s) log (core_of s').
Proof.
  rewrite <- tick_log_erased. destruct (tick_log fuel s) as [[log [r1 s1]]|] eqn:E; [|done]. cbn. intros [= -> ->].
  exists log. split; [done|]. by eapply tick_moves.
Qed.

(** ** A run that ends without an end

    A step that fails where there is nothing to clean up ends the run, and
    leaves its clock running: no other end does. *)
Lemma record_event_stats a b c d e f (s : st) :
  exists s1, _record_event a b c d e f s = (Ok tt, s1) /\ rt_stats s1 = rt_stats s /\ core_of s1 = core_of s.
Proof. unfold _record_event, mbind, pyM_bind, monotonic, outside. destruct (q_clock (rt_world s)) as [t w]. by eexists. Qed.

Lemma failed_run_not_ended m (s : st) :
  rt_pending_state s = None -> _has_terminal_unwind_work (rt_stack s) = false ->
  rt_state (snd (_fail_step m s)) = ERROR /\ rs_ended (rt_stats (snd (_fail_step m s))) = rs_ended (rt_stats s).
Proof.
  intros Hp Hw. enough (exists s1 : st, rt_stats s1 = rt_stats s /\
    _fail_step m s = (Ok true, s1 <| rt_last_error := Some m |> <| rt_state := ERROR |>)) as (s1 & Es & ->).
  { split; [done|]. change (rs_ended (rt_stats s1) = rs_ended (rt_stats s)). by rewrite Es. }
  unfold _fail_step. rewrite Hp. set (d := _make_error_detail _ _). rewrite bind_modify.
  set (s0 := s <| rt_last_error_detail := Some d |>). unfold mbind at 1, pyM_bind at 1.
  destruct (record_event_stats "error" "step_failed" m (dget d "step") PNone PNone s0) as (s1 & -> & Es & Ec).
  destruct (same_core_fields _ _ Ec) as (Es1 & Ep1 & _). pose proof (begin_unwind ERROR (Some m) s1) as H.
  rewrite Ep1, Es1 in H. change (rt_pending_state s0) with (rt_pending_state s) in H. change (rt_stack s0) with (rt_stack s) in H.
  rewrite Hp, Hw in H. unfold mbind, pyM_bind. rewrite H. by exists s1.
Qed.
End theorems.

(** ** A run that fails in the middle *)
Module SequencerDemo.
#[local] Existing Instance plain_repr.
#[local] Existing Instance ScanDemo.turning.
#[local] Existing Instance RangesDemo.arith.
#[local] Existing Instance RangesDemo.syntax.
#[local] Existing Instance RangesDemo.spaces.
(** Exact means; nothing here asks for the other figures. *)
Definition statistics : Statistics := {|
  st_fmean l := fdiv (foldl fadd (FFin 0) l) (FFin (inject_Z (Z.of_nat (length l))));
  st_stdev _ := Ok (FFin 0);
  st_median l := Ok (default FNan (head l));
  st_sqrt _ := FFin 1
|}.
#[local] Instance templates : Templates := components_templates (fun _ => Ok "") (fun _ => "") (fun _ => "") statistics.

(** A supply that refuses to [ramp]; the world is its clock. *)
#[local] Instance supply : SequencerWorld Z := {|
  q_clock w := ((w # 100000)%Q, w + 1);
  q_call_device _ action _ w :=
    (Ok (if String.eqb action "ramp" then [("ok", PBool false)] else [("ok", PBool true)]), w);
  q_call_process := None;
  q_get_telemetry _ _ w := (Ok None, w);
  q_get_process_telemetry := None;
  q_set_stream_context _ _ _ _ w := (Ok tt, w);
  q_expect_streams := None;
  q_resolve_use := None;
  q_set_context := None;
  q_parallel := None;
  q_cancel _ w := w;
  q_getattr _ _ := None;
  q_adaptive := None
|}.

Definition call (id : Z) (action : string) : step := CallStep (mkHeader id false) "psu" action [] None None None None.
Definition spec : SequenceSpec :=
  mkSpec 1 [] [("level", PInt 3)]
    [TryStep (mkHeader 1 false) [AtomicStep (mkHeader 2 false) None [call 3 "on"; call 4 "ramp"; call 5 "hold"]] [call 6 "off"];
     call 7 "log"].

Definition begun : runtime Z := snd (start PNone PNone false PNone (snd (load spec [] (new_runtime 0)))).
Lemma begun_started : started begun.
Proof. exists PNone, PNone, false, PNone, (snd (load spec [] (new_runtime 0))). by vm_compute. Qed.

(** The first tick ends at the step that fails, the second one cleans up. *)
Definition after (ops : list op) (s : runtime Z) : list dispatch * runtime Z := default ([], s) (run_ops ops s).
Definition failed : runtime Z := snd (after [OpTick 50] begun).
Definition ended : runtime Z := snd (after [OpTick 50; OpTick 50] failed).

Example trace :
  (fun d => step_id (snd d)) <$> fst (after [OpTick 50; OpTick 50; OpTick 50] begun) = [1; 2; 3; 4; 6] /\
  rt_state ended = ERROR.
Proof. by vm_compute. Qed.

Lemma runs_to_failed : run_ops [OpTick 50] begun = Some (fst (after [OpTick 50] begun), failed).
Proof. by vm_compute. Qed.
Lemma runs_to_ended : run_ops [OpTick 50; OpTick 50] failed = Some (fst (after [OpTick 50; OpTick 50] failed), ended).
Proof. by vm_compute. Qed.

(** The step that failed, and what came after. *)
Definition whole : list dispatch := fst (after [OpTick 50; OpTick 50; OpTick 50] begun).
Definition ramped : dispatch := default (core_of begun, call 0 "") (whole !! 3%nat).
Lemma runs_to_end : run_ops [OpTick 50; OpTick 50; OpTick 50] begun = Some (whole, ended).
Proof. by vm_compute. Qed.

Lemma finally_always_runs_witness :
  snd ramped = call 4 "ramp" /\ owed ramped = [call 6 "off"] /\ [call 6 "off"] `sublist_of` (drop 4 whole).*2.
Proof.
  destruct (finally_always_runs _ _ _ _ (take 3 whole) ramped (drop 4 whole) begun_started runs_to_end)
    as (f & r & E & Hs & _ & Hr); [by vm_compute|].
  assert (owed ramped = [call 6 "off"]) as Ec by (by vm_compute). split_and!; [by vm_compute|exact Ec|].
  rewrite Hr, app_nil_r in E; [|by vm_compute|by vm_compute; repeat constructor]. rewrite <- Ec, E. exact Hs.
Defined.

Lemma only_cleanup_runs_then_witness : Forall cleanup_only (fst (after [OpTick 50; OpTick 50] failed)).
Proof. exact (only_cleanup_runs_then _ _ _ _ runs_to_ended). Defined.

Lemma blocks_are_left_witness :
  rt_atomic_depth failed = 1 /\ rt_atomic_depth failed = atomic_blocks (exits (rt_stack failed)).
Proof. split; [by vm_compute|]. exact (proj1 (blocks_are_left _ _ _ _ begun_started runs_to_failed)). Defined.

Definition stop_asked : runtime Z := snd (after [OpStop (PStr "smoke") (PStr "operator")] begun).
Definition pause_asked : runtime Z := snd (after [OpPause (PStr "lunch") (PStr "operator") PNone] begun).
Lemma runs_to_stop_asked : run_ops [OpStop (PStr "smoke") (PStr "operator")] begun = Some ([], stop_asked).
Proof. by vm_compute. Qed.
Lemma runs_to_pause_asked : run_ops [OpPause (PStr "lunch") (PStr "operator") PNone] begun = Some ([], pause_asked).
Proof. by vm_compute. Qed.

(** Nothing interrupts the atomic block of [failed]. *)
Lemma interrupted_outside_atomic_witness :
  rt_state (snd (_check_stop_pause stop_asked)) = STOPPED /\
  rt_state (snd (_check_stop_pause pause_asked)) = PAUSED /\
  snd (_check_stop_pause (failed <| rt_stop_requested := true |>)) = failed <| rt_stop_requested := true |>.
Proof.
  pose proof (interrupted_outside_atomic _ _ _ _ begun_started runs_to_stop_asked) as H1.
  pose proof (interrupted_outside_atomic _ _ _ _ begun_started runs_to_pause_asked) as H2.
  split_and!; [| |by vm_compute].
  - destruct (_check_stop_pause stop_asked) as [r t]. cbn [snd].
    apply H1.
  - destruct (_check_stop_pause pause_asked) as [r t]. cbn [snd]. apply H2.
Defined.

Lemma tick_refines_machine_witness : exists log, moves (core_of begun) log (core_of failed).
Proof.
  destruct (tick_refines_machine 50 begun (Ok false) failed) as (log & _ & H); [by vm_compute|]. by exists log.
Defined.
End SequencerDemo.
