(* ===== verification/SequencerEnds.v ===== *)
(** * When the search for the next step ends

    [_next_step_above] and [_next_terminal_unwind_step] loop over frames until
    one has a step.  A [while] whose body has an enabled step ends the search
    at that step; one whose body has none is searched for as long as its
    condition holds. *)
From S2P Require Import Prelude PyVal PyNum PyOps Expressions Conditions Responses ProcessBase.
From S2P Require Import SequencerData SequencerCore SequencerValues SequencerParallel SequencerWait SequencerAdaptive SequencerSteps.
From S2P Require Import SequencerTick SequencerFrames SequencerTrials SequencerMachine SequencerRuns SequencerTheorems ScanPlan Ranges.

#[local] Open Scope nat_scope.

(** ** A measure *)

(** A body with a step to run *)
Definition busy (l : list step) : bool := existsb (fun x => negb (disabled x)) l.
(** Frames the search goes over in a bounded number of rounds: [while] bodies
    are busy, and no trial is to be taken (a trial may wait for its samples). *)
Definition searchable_frame (f : frame) : Prop :=
  match f with
  | WhileFrame _ body _ => busy body = true
  | Frame _ _ (Some ExitAdaptive) _ | AdaptiveFrame _ _ => False
  | _ => True
  end.
Definition searchable (stack : list frame) : Prop := Forall searchable_frame stack.

(** The rounds over a frame, at most. *)
Definition cost (f : frame) : nat :=
  match f with
  | Frame steps i _ _ => S (length steps - i)
  | ForFrame _ records i body => (length records - i) * (length body + 3) + 1
  | RepeatFrame n body => Z.to_nat n * (length body + 3) + 1
  | TryFrame finally_steps false => length finally_steps + 3
  | TryFrame _ true => 1
  | WhileFrame _ body _ | AdaptiveFrame _ body => length body + 3
  end.
Definition work (stack : list frame) : nat := sum_list (cost <$> stack).

Lemma work_cons f l : work (f :: l) = cost f + work l.
Proof. done. Qed.

(** The rounds until a step is found: the search stops in a frame that has
    one. *)
Fixpoint rounds (stack : list frame) : nat :=
  match stack with
  | [] => 1
  | f :: rest =>
      match f with
      | Frame steps i _ _ => if busy (drop i steps) then cost f else cost f + rounds rest
      | _ => cost f + rounds rest
      end
  end.

Lemma rounds_work stack : rounds stack <= S (work stack).
Proof.
  induction stack as [|f l IH]; [cbn; lia|]. rewrite work_cons. cbn [rounds]. destruct f; [case_match|..]; lia.
Qed.

Lemma cost_pos f : 1 <= cost f.
Proof. destruct f as [| | |fs [|]| |]; cbn [cost]; nia. Qed.
Lemma rounds_pos stack : 1 <= rounds stack.
Proof.
  destruct stack as [|f l]; [done|]. pose proof (cost_pos f). cbn [rounds]. destruct f; [case_match|..]; lia.
Qed.

Lemma rounds_body body rest : busy body = true -> rounds (body_frame body :: rest) = S (length body).
Proof. intros E. cbn. rewrite drop_0, E. lia. Qed.
Lemma rounds_body_le body rest : rounds (body_frame body :: rest) <= S (length body) + rounds rest.
Proof. cbn. rewrite drop_0. case_match; lia. Qed.

Lemma busy_drop l i x : l !! i = Some x -> disabled x = true -> busy (drop i l) = busy (drop (S i) l).
Proof. intros Hi Hd. rewrite (drop_S _ _ _ Hi). cbn. by rewrite Hd. Qed.

Lemma rounds_finalize steps rest : rounds (finalize steps rest) < length steps + 3 + rounds rest.
Proof.
  unfold finalize. destruct steps as [|x l]; [cbn; lia|]. cbn [rounds]. rewrite drop_0.
  case_match; cbn; lia.
Qed.

Lemma advance_rounds c c' : advance c c' -> searchable (co_stack c) ->
  rounds (co_stack c') < rounds (co_stack c) /\ searchable (co_stack c').
Proof.
  destruct 1 as [c steps i x e u rest E Hi Hd|c steps i e u rest E Hi|c bind rs i body rest E|c bind rs i body rest new E Hn Hi|
    c n body rest E|c n body rest E|c steps rest E|c steps rest E|c cond body k rest E|c cond body k rest E|c a body rest E|c a body rest E];
    rewrite E; intros [Hf Hl]%Forall_cons.
  - cbn. rewrite (busy_drop _ _ _ Hi Hd). pose proof (lookup_lt_Some _ _ _ Hi). split; [case_match; nia|by constructor].
  - rewrite (proj2 (leave_frame_status e rest c)). apply lookup_ge_None in Hi. cbn. rewrite drop_ge by done. cbn. split; [nia|done].
  - change (co_stack (with_stack ?l c)) with l. cbn [rounds cost]. split; [nia|done].
  - assert (i < length rs) as Hlt by (apply lookup_lt_is_Some; by destruct (rs !! i)).
    assert (length rs - i = S (length rs - S i)) as El by nia.
    change (co_stack (with_stack ?l c)) with l. destruct Hn as [-> | ->]; cbn [app];
      [cbn [rounds cost]; rewrite El; split; [nia|by constructor]|].
    split; [|by repeat constructor]. pose proof (rounds_body_le body (ForFrame bind rs (S i) body :: rest)) as Hb.
    eapply Nat.le_lt_trans; [exact Hb|]. cbn [rounds cost]. rewrite El. nia.
  - change (co_stack (with_stack ?l c)) with l. cbn [rounds cost]. split; [nia|done].
  - change (co_stack (with_stack ?l c)) with l. split; [|by repeat constructor].
    eapply Nat.le_lt_trans; [apply rounds_body_le|]. cbn [rounds cost]. replace (Z.to_nat n) with (S (Z.to_nat (n - 1))) by nia. nia.
  - change (co_stack (with_stack ?l c)) with l. split; [apply rounds_finalize|]. unfold finalize. destruct steps; by repeat constructor.
  - change (co_stack (with_stack ?l c)) with l. cbn [rounds cost]. split; [nia|done].
  - change (co_stack (with_stack ?l c)) with l. cbn [rounds cost]. split; [nia|done].
  - change (co_stack (with_stack ?l c)) with l. rewrite rounds_body by done. cbn [rounds cost]. split; [nia|by repeat constructor].
  - done.
  - done.
Qed.

Lemma trial_searchable b c c' : trial b c c' -> searchable (co_stack c) -> c' = c.
Proof. destruct 1 as [|a a' body rest state E _ _]; [done|]. rewrite E. intros H. by inversion H. Qed.

Lemma stride_rounds c c' : stride c c' -> searchable (co_stack c) ->
  advance c c' /\ rounds (co_stack c') < rounds (co_stack c) /\ searchable (co_stack c').
Proof.
  intros (c1 & c2 & H1 & H2 & H3) Hw. apply trial_searchable in H1 as ->; [|done]. destruct (advance_rounds _ _ H2 Hw) as [Hr Hw'].
  by apply trial_searchable in H3 as ->.
Qed.

Section ends.
Context `{HR : !PyRepr, HT : !Templates} {W : Type} `{HW : !SequencerWorld W}.
#[local] Abbreviation st := (runtime W).

(** ** Running *)
Lemma next_round_base fuel base (s : st) : length (rt_stack s) <= base -> next_round fuel base s = Some (Ok (Some NoStep), s).
Proof. intros Hle. unfold next_round. destruct (rt_stack s); [done|]. by rewrite (proj2 (Nat.leb_le _ _)). Qed.

Lemma next_round_returns fuel base (s : st) : searchable (rt_stack s) -> next_round fuel base s <> None.
Proof.
  unfold next_round. destruct (rt_stack s) as [|f rest]; [done|]. intros [Hf _]%Forall_cons. case_match; [done|].
  destruct f as [steps i [[]|] u| | |fs [|]| |]; repeat case_match; try done.
Qed.

Lemma next_step_above_ends fuel base s :
  searchable (rt_stack s) -> rounds (rt_stack s) <= fuel -> _next_step_above fuel base s <> None.
Proof.
  revert s. induction fuel as [|fuel IH]; intros s Hw Hf.
  { pose proof (rounds_pos (rt_stack s)). lia. }
  cbn [_next_step_above]. destruct (Nat.le_gt_cases (length (rt_stack s)) base) as [Hle|Hgt].
  { by rewrite next_round_base. }
  pose proof (next_round_returns fuel base s Hw) as Hn. destruct (next_round fuel base s) as [[r1 s1]|] eqn:En; [|done].
  pose proof (next_round_moves _ _ _ _ _ Hgt En) as Hm. destruct r1 as [[[x| |]|]|e]; try done. destruct Hm as [Hm _].
  destruct (stride_rounds _ _ Hm Hw) as (_ & Hr & Hw'). cbn in Hr. apply IH; [done|lia].
Qed.

(** What is below is left alone. *)
Definition bottom (base : nat) (l : list frame) : list frame := drop (length l - base) l.

Lemma bottom_tail base (new l : list frame) : base < length l -> bottom base (new ++ tail l) = bottom base l.
Proof.
  intros Hb. destruct l as [|f t]; [cbn in Hb; lia|]. cbn in *. unfold bottom. rewrite drop_app_ge by (rewrite length_app; lia).
  cbn [length]. replace (S (length t) - base) with (S (length t - base)) by lia. cbn. f_equal. rewrite length_app. lia.
Qed.
Lemma bottom_length base l : base <= length l -> length (bottom base l) = base.
Proof. intros H. unfold bottom. rewrite length_drop. lia. Qed.

Lemma next_step_above_bottom fuel base s s' :
  rt_state s = RUNNING -> searchable (rt_stack s) -> base <= length (rt_stack s) ->
  _next_step_above fuel base s = Some (Ok NoStep, s') ->
  rt_stack s' = bottom base (rt_stack s) /\ rt_state s' = RUNNING /\ rt_pending_state s' = rt_pending_state s.
Proof.
  revert s. induction fuel as [|fuel IH]; intros s Hrun Hw Hb H; [done|]. cbn [_next_step_above] in H.
  destruct (Nat.le_gt_cases (length (rt_stack s)) base) as [Hle|Hgt].
  { rewrite next_round_base in H by done. injection H as <-. unfold bottom. by replace (length (rt_stack s) - base) with 0 by lia. }
  destruct (next_round fuel base s) as [[r1 s1]|] eqn:Er; [|done].
  pose proof (next_round_moves _ _ _ _ _ Hgt Er) as Hm. destruct r1 as [[[x| |]|]|e]; try done.
  { exfalso. destruct Hm as [[Ht|Ht] Hx]; apply Hx; [by apply trial_state in Ht; cbn in Ht; congruence|].
    destruct (stride_rounds _ _ Ht Hw) as (Ha & _ & _). destruct (advance_status _ _ Ha) as (Hs & _). cbn in Hs. congruence. }
  destruct Hm as [Hm _]. destruct (stride_rounds _ _ Hm Hw) as (Ha & _ & Hw1).
  clear Hm. rename Ha into Hm. destruct (advance_tail _ _ Hm) as [new En]. destruct (advance_status _ _ Hm) as (Hst & Hpe & _). cbn in En, Hst, Hpe.
  rewrite <- (bottom_tail base new) by done. change (tail (rt_stack s)) with (tail (co_stack (core_of s))).
  rewrite <- Hpe. cbn [core_of co_stack]. rewrite <- En. apply IH; [congruence|done| |done].
  rewrite En, length_app. assert (length (tail (rt_stack s)) = pred (length (rt_stack s))) as El by (by destruct (rt_stack s)). lia.
Qed.

(** ** Cleanup *)
Lemma work_bottom base l : base < length l -> work (bottom base l) < work l.
Proof.
  unfold bottom. intros Hb. destruct l as [|f t]; [cbn in Hb; lia|]. cbn in Hb. cbn [length].
  replace (S (length t) - base) with (S (length t - base)) by lia. cbn [drop]. rewrite work_cons. pose proof (cost_pos f).
  enough (work (drop (length t - base) t) <= work t) by lia. generalize (length t - base). clear.
  induction t as [|g t IH]; intros [|n]; cbn [drop]; try lia. rewrite work_cons. specialize (IH n). lia.
Qed.

Lemma bind_set_stack {A} l (a : A) (s : st) : exists s', rt_stack s' = l /\ (_ ← set_stack l; mret a) s = (Ok a, s').
Proof. by exists (s <| rt_stack := l |>). Qed.

(** A frame whose exit is no trial is left. *)
Lemma leaves_frame fuel e rest (s : st) : e <> Some ExitAdaptive -> exists s1, rt_stack s1 = rest /\
  ((_ ← up (set_stack rest); _ ← leave fuel e; mret None) : pyL st (option step_result)) s = Some (Ok None, s1).
Proof.
  intros He. unfold mbind, pyL_bind. cbn [up set_stack modify]. set (s0 := s <| rt_stack := rest |>).
  destruct e as [e|]; [|by exists s0]. unfold leave, mbind, pyL_bind.
  assert (exists s1, run_exit fuel e s0 = Some (Ok tt, s1) /\ rt_stack s1 = rest) as (s1 & -> & E1).
  { destruct e; [by eexists|by eexists|done]. }
  cbn [up modify]. match goal with |- context [_clear_set_context_state ?s2] => destruct (acts_clear_set_context s2) as (a & Ea & Ec);
    destruct (_clear_set_context_state s2) as [r s3] end. cbn in Ea, Ec. subst r. eexists. split; [|done].
  apply (f_equal co_stack) in Ec. cbn in *. by rewrite Ec.
Qed.

Lemma unwind_round_work fuel s : searchable (rt_stack s) ->
  match unwind_round fuel s with
  | Some (Ok None, s') => work (rt_stack s') < work (rt_stack s) /\ searchable (rt_stack s')
  | Some _ => True
  | None => False
  end.
Proof.
  intros Hw. unfold unwind_round. destruct (rt_stack s) as [|f rest] eqn:Es; [done|]. apply Forall_cons in Hw as [Hf Hl].
  assert (work rest < work (f :: rest) /\ searchable rest) as Hpop.
  { rewrite work_cons. pose proof (cost_pos f). split; [lia|done]. }
  assert (forall e, e <> Some ExitAdaptive ->
    match ((_ ← up (set_stack rest); _ ← leave fuel e; mret None) : pyL st (option step_result)) s with
    | Some (Ok None, s') => work (rt_stack s') < work (f :: rest) /\ searchable (rt_stack s')
    | Some _ => True
    | None => False
    end) as Hleave.
  { intros e He. destruct (leaves_frame fuel e rest s He) as (s1 & E1 & ->). rewrite E1. apply Hpop. }
  destruct f as [steps i e [|]|bind rs i body|n body|fs [|]|cond body k|a body];
    [|by apply Hleave; intros ->|..]; cbn [fst snd].
  - destruct (steps !! i) as [x|] eqn:Ei; [|apply Hleave; by intros ->].
    match goal with |- context [set_stack ?l ≫= (fun _ => mret ?a)] => destruct (bind_set_stack l a s) as (s1 & E1 & ->) end.
    destruct (disabled x); [|done]. rewrite E1, !work_cons. cbn [cost].
    pose proof (lookup_lt_Some _ _ _ Ei). split; [nia|by constructor].
  - apply Hpop.
  - apply Hpop.
  - apply Hpop.
  - match goal with |- context [set_stack ?l ≫= (fun _ => mret ?a)] => destruct (bind_set_stack l a s) as (s1 & E1 & ->) end.
    rewrite E1. destruct fs as [|y fs]; rewrite !work_cons; cbn [cost length]; (split; [nia|by repeat constructor]).
  - apply Hpop.
  - apply Hpop.
Qed.

Lemma unwind_round_running fuel s r s' : searchable (rt_stack s) -> rt_state s = RUNNING ->
  unwind_round fuel s = Some (r, s') -> rt_state s' = RUNNING.
Proof.
  intros Hw Hrun. unfold unwind_round. destruct (rt_stack s) as [|f rest] eqn:Es; [by intros [= _ <-]|].
  assert (forall e, ((_ ← up (set_stack rest); _ ← leave fuel e; mret None) : pyL st (option step_result)) s = Some (r, s') ->
    rt_state s' = RUNNING) as Hleave.
  { intros e. unfold mbind, pyL_bind. cbn [up set_stack modify]. set (s0 := s <| rt_stack := rest |>).
    destruct (leave fuel e s0) as [[r1 s1]|] eqn:El; [|done]. intros H.
    assert (trial true (leave_frame e (core_of s0)) (core_of s1)) as Ht by (by eapply leave_trial).
    apply trial_searchable in Ht; [|apply Forall_cons in Hw as [_ Hw]; by destruct e as [[]|]].
    assert (s' = s1) as -> by (destruct r1 as [[]|]; by injection H). apply (f_equal co_state) in Ht. cbn in Ht. rewrite Ht.
    by destruct e as [[]|]. }
  destruct f as [steps i e [|]|bind rs i body|n body|fs [|]|cond body k|a body]; try (by intros [= _ <-]); try apply Hleave.
  destruct (steps !! i); [by intros [= _ <-]|apply Hleave].
Qed.

Lemma next_unwind_step_ends fuel s :
  rt_state s = RUNNING -> rt_pending_state s <> None -> searchable (rt_stack s) -> work (rt_stack s) + 1 < fuel ->
  _next_terminal_unwind_step fuel s <> None.
Proof.
  revert s. induction fuel as [|fuel IH]; intros s Hrun Hp Hw Hf; [lia|]. cbn [_next_terminal_unwind_step].
  pose proof (rounds_work (rt_stack s)) as Hr.
  destruct (above_unwind_body (rt_stack s)) as [[|n]|] eqn:Ea.
  2: { destruct (in_finally_above _ _ Ea) as [_ Hl].
    set (base := length (rt_stack s) - S n). assert (base < length (rt_stack s)) as Hb by (unfold base; lia).
    destruct (_next_step_above fuel base s) as [[r1 s1]|] eqn:E1.
    - destruct r1 as [[x| |]|e]; try done. destruct (next_step_above_bottom _ _ _ _ Hrun Hw (Nat.lt_le_incl _ _ Hb) E1) as (Es & Est & Epe).
      pose proof (work_bottom base (rt_stack s) Hb). apply IH; [done|by rewrite Epe| |rewrite Es; lia].
      rewrite Es. by apply Forall_drop.
    - exfalso. revert E1. apply next_step_above_ends; [done|lia]. }
  all: pose proof (unwind_round_work fuel s Hw) as Hu; destruct (unwind_round fuel s) as [[r1 s1]|] eqn:Eu; [|done];
    destruct (unwind_round_moves fuel s r1 s1) as [_ (Hst & Hpe & _)]; [by left|done|by rewrite Ea|done|];
    pose proof (unwind_round_running fuel s r1 s1 Hw Hrun Eu) as Hs1;
    destruct r1 as [[r|]|e]; try done; cbn in Hpe; destruct Hu as [Hu Hw'];
    apply IH; [done|congruence|done|lia].
Qed.

(** C29. The search for the next step ends: when every [while] on the stack
    has an enabled step in its body and no adaptive trial is in progress,
    [_next_step] returns, running or cleaning up, after rounds that are bounded
    by the frames of the stack. *)
Theorem next_step_ends fuel s :
  rt_state s = RUNNING -> searchable (rt_stack s) -> work (rt_stack s) + 1 < fuel -> exists r, _next_step fuel s = Some r.
Proof.
  intros Hrun Hw Hf. unfold _next_step.
  assert (match rt_pending_state s with Some _ => _next_terminal_unwind_step fuel s | None => _next_step_above fuel 0 s end <> None) as H.
  { destruct (rt_pending_state s) eqn:Ep; [apply next_unwind_step_ends; [done|by rewrite Ep|done|done]|].
    apply next_step_above_ends; [done|]. pose proof (rounds_work (rt_stack s)). lia. }
  destruct (match rt_pending_state s with Some _ => _ | None => _ end) as [r|]; [by exists r|done].
Qed.

(** ** A [while] with nothing to do *)
Definition idle_while (cond : pyval) (stack : list frame) : Prop :=
  exists body k rest, busy body = false /\
    (stack = WhileFrame cond body k :: rest \/ exists i, stack = Frame body i None false :: WhileFrame cond body k :: rest).

Lemma busy_false l i x : busy l = false -> l !! i = Some x -> disabled x = true.
Proof.
  revert i. induction l as [|y l IH]; intros i; [done|]. cbn. intros [Hy Hl]%orb_false_iff. destruct i; cbn; [|by apply IH].
  intros [= ->]. by apply negb_false_iff in Hy.
Qed.

(** It is searched for ever, in one tick. *)
Theorem idle_while_never_ends cond fuel s :
  (forall s : st, fst (_eval_condition cond "while" false s) = Ok true) ->
  idle_while cond (rt_stack s) -> _next_step_above fuel 0 s = None.
Proof.
  intros Hc. revert s. induction fuel as [|fuel IH]; intros s Hi; [done|]. cbn [_next_step_above].
  destruct Hi as (body & k & rest & Hb & [E|[i E]]).
  - unfold next_round. rewrite E. cbn [length Nat.leb]. unfold mbind, pyM_bind. specialize (Hc s).
    destruct (_eval_condition cond "while" false s) as [r s1]. cbn in Hc. subst r. cbn. apply IH.
    exists body, (S k), rest. split; [done|]. right. by exists 0.
  - unfold next_round. rewrite E. cbn [length Nat.leb]. destruct (body !! i) as [x|] eqn:Ei.
    + unfold mbind, pyM_bind. cbn. rewrite (busy_false _ _ _ Hb Ei). apply IH. exists body, k, rest. split; [done|]. right. by exists (S i).
    + cbn. apply IH. exists body, k, rest. split; [done|by left].
Qed.

(** ** A continuous run with nothing to do *)
Record idle_run (steps : list step) (s : st) : Prop := {
  idle_state : rt_state s = RUNNING;
  idle_pending : rt_pending_state s = None;
  idle_requests : rt_stop_requested s = false /\ rt_pause_requested s = false;
  idle_mode : rt_loop_mode s = LoopContinuous;
  idle_spec : sp_steps <$> rt_spec s = Some steps;
  idle_waits : rt_set_context_state s = None /\ rt_parallel_state s = None
}.

Lemma idle_pass fuel steps i s : busy steps = false -> rt_stack s = [Frame steps i None false] ->
  _next_step_above fuel 0 s = None \/ _next_step_above fuel 0 s = Some (Ok NoStep, s <| rt_stack := [] |>).
Proof.
  intros Hb. revert i s. induction fuel as [|fuel IH]; intros i s E; [by left|]. cbn [_next_step_above]. unfold next_round.
  rewrite E. cbn [length Nat.leb]. destruct (steps !! i) as [x|] eqn:Ei.
  - unfold mbind, pyM_bind, set_stack, modify, mret, pyM_ret. rewrite (busy_false _ _ _ Hb Ei).
    destruct (IH (S i) (s <| rt_stack := [Frame steps (S i) None false] |>)) as [H|H]; [done|left; exact H|right].
    rewrite H. by destruct s.
  - unfold mbind, pyM_bind, set_stack, modify, mret, pyM_ret. destruct fuel; [by left|by right].
Qed.

Lemma idle_next_pass steps s : idle_run steps s ->
  exists s', end_of_pass (s <| rt_stack := [] |>) = (Ok true, s') /\ idle_run steps s' /\ rt_stack s' = [body_frame steps].
Proof.
  intros [Hs Hp [Hq1 Hq2] Hm Hsp [Hc Hpar]]. destruct s. cbn in *. subst. destruct rt_spec as [spec|]; [|done]. cbn in Hsp.
  injection Hsp as <-. match goal with |- context [end_of_pass ?x] => exists (snd (end_of_pass x)) end.
  split; [|split; [constructor|]]; vm_compute;
    match goal with |- context [match ?m rt_world with (_, _) => _ end] => by destruct (m rt_world) end.
Qed.

(** One tick goes over it for ever: the budget is not looked at between
    passes. *)
Theorem idle_run_never_ends fuel deadline executed steps i s :
  busy steps = false -> idle_run steps s -> rt_stack s = [Frame steps i None false] -> tick_loop fuel deadline executed s = None.
Proof.
  intros Hb. revert i s. induction fuel as [|fuel IH]; intros i s Hi E; [done|]. cbn [tick_loop].
  pose proof Hi as [Hs Hp [Hq1 Hq2] Hm Hsp Hw]. rewrite bool_decide_false by (intros H; by apply H). unfold _check_stop_pause.
  rewrite Hq1, Hq2. cbn [andb]. unfold _next_step. rewrite Hp. destruct (idle_pass fuel steps i s Hb E) as [-> | ->]; [done|].
  destruct (idle_next_pass steps s Hi) as (s' & -> & Hi' & E'). by apply (IH 0).
Qed.
End ends.

Module SequencerEndsDemo.
#[local] Existing Instance plain_repr.
#[local] Existing Instance ScanDemo.turning.
#[local] Existing Instance RangesDemo.arith.
#[local] Existing Instance RangesDemo.syntax.
#[local] Existing Instance RangesDemo.spaces.
#[local] Existing Instance SequencerDemo.templates.
#[local] Existing Instance SequencerDemo.supply.

(** Within a [while], and to clean up. *)
Definition searching : runtime Z :=
  SequencerDemo.begun <| rt_pending_state := Some ERROR |>
    <| rt_stack := [WhileFrame (PBool true) [SequencerDemo.call 1 "on"] 0; TryFrame [SequencerDemo.call 6 "off"] false] |>.
Lemma next_step_ends_witness : exists r, _next_step 12 searching = Some r.
Proof.
  apply (next_step_ends 12 searching); [done| |by apply Nat.ltb_lt; vm_compute].
  repeat constructor.
Defined.

Lemma always_true (s : runtime Z) : fst (_eval_condition (PBool true) "while" false s) = Ok true.
Proof. done. Qed.
(** [while: true, do: []], which the parser accepts. *)
Lemma idle_while_never_ends_witness :
  forall fuel, _next_step_above fuel 0 (SequencerDemo.begun <| rt_stack := [WhileFrame (PBool true) [] 0] |>) = None.
Proof.
  intros fuel. apply (idle_while_never_ends (PBool true) fuel); [exact always_true|].
  exists [], 0, []. split; [done|by left].
Defined.

Definition idle : runtime Z :=
  snd (start PNone PNone true PNone (snd (load (mkSpec 1 [] [] [SleepStep (mkHeader 1 true) (PInt 1)]) [] (new_runtime 0%Z)))).
Lemma idle_run_never_ends_witness : forall fuel, tick_loop fuel 1 0 idle = None.
Proof.
  intros fuel. apply (idle_run_never_ends fuel 1 0 [SleepStep (mkHeader 1 true) (PInt 1)] 0); [done| |by vm_compute].
  constructor; by vm_compute.
Defined.
End SequencerEndsDemo.
