(* ===== verification/SequencerBranches.v ===== *)
(** * Between ticks

    What joining the branches of a parallel step leaves, and how long the
    process may wait before the runtime needs its next tick. *)
From Stdlib Require Import Lqa Qround.
From S2P Require Import Prelude PyVal PyNum PyOps Expressions Conditions Responses ProcessBase ScanPlan Ranges SequencerData.
From S2P Require Import SequencerCore SequencerValues SequencerParallel SequencerWait SequencerAdaptive SequencerSteps.
From S2P Require Import SequencerTick SequencerFrames SequencerTrials SequencerMachine SequencerRuns SequencerTheorems.
#[local] Open Scope Z_scope.

(** * Waiting between ticks ([sequencer/runtime.py], [sequencer/sequencer.py])

    How long the process may wait for requests before the runtime needs its
    next tick. *)

Definition _PARALLEL_POLL_S : Q := 5 # 1000.

(** Instants the runtime has to be called at: a sleep, the next sample, the
    timeout or the end of the stable time of a wait, the next look at an
    observation or at the branches of a parallel step. *)
Definition wait_deadlines (ws : wait_state) : list pyfloat :=
  [ws_next_sample_t ws] ++
  (if fzero (ws_timeout_s ws) then [] else [fadd (FFin (ws_start_t ws)) (ws_timeout_s ws)]) ++
  match ws_stable_since ws with
  | Some t => if fzero (ws_stable_for_s ws) then [] else [fadd (FFin t) (ws_stable_for_s ws)]
  | None => []
  end.

Section poll.
Context `{HR : !PyRepr, HT : !Templates} {W : Type} `{HW : !SequencerWorld W}.
#[local] Abbreviation st := (runtime W).
#[local] Abbreviation M := (pyM (runtime W)).

Definition deadlines : M (list pyfloat) :=
  s ← get;
  let waits := from_option (fun t => [t]) [] (rt_sleep_until s) ++ from_option wait_deadlines [] (rt_wait_state s) ++
               from_option (fun t => [FFin t]) [] (ad_observing (rt_adaptive s) ≫= ob_next_check_t) in
  match rt_parallel_state s with
  | None => mret waits
  | Some _ => now ← monotonic; mret (waits ++ [FFin (now + _PARALLEL_POLL_S)])
  end.

Definition next_poll_timeout_ms (ceiling_ms floor_ms : Z) : M Z :=
  let floor_ms := Z.max 1 floor_ms in
  state ← gets rt_state;
  if bool_decide (state <> RUNNING) then mret ceiling_ms
  else
    ds ← deadlines;
    match ds with
    | [] => mret ceiling_ms
    | d :: ds =>
        now ← monotonic;
        n ← lift (math_ceil (fmul (fsub (float_min ds d) (FFin now)) (FFin 1000)));
        mret (Z.max floor_ms (Z.min ceiling_ms n))
    end.

(** ** The poll and the deadlines *)
Definition finite (l : list pyfloat) : Prop := Forall (fun d => exists q, d = FFin q) l.

Lemma float_min_finite x l : finite l -> exists q, float_min l (FFin x) = FFin q /\ (q <= x)%Q /\
  Forall (fun d => exists p, d = FFin p /\ (q <= p)%Q) l /\ FFin q ∈ FFin x :: l.
Proof.
  intros Hl. revert x. induction Hl as [|d l [p ->] _ IH]; intros x.
  { exists x. split_and!; [done|apply Qle_refl|constructor|by left]. }
  cbn. destruct (Qltb_spec p x) as [Hlt|Hle].
  - destruct (IH p) as (q & E & Hq & Hf & Hin). exists q.
    split_and!; [done|lra|by constructor; [exists p|]|by right].
  - destruct (IH x) as (q & E & Hq & Hf & Hin). exists q.
    split_and!; [done|done|constructor; [exists p; split; [done|lra]|done]|].
    apply elem_of_cons in Hin as [->|Hin]; [by left|by right; right].
Qed.

(** Between ticks the process waits neither too long nor for nothing: with
    finite deadlines the timeout is between the floor (at least 1 ms) and the
    ceiling, never past the first whole millisecond after a deadline unless
    that is below the floor, and where it is below the ceiling some deadline
    has come by then. *)
Theorem poll_wakes_in_time ceiling floor s ds :
  rt_state s = RUNNING -> fst (deadlines s) = Ok ds -> ds <> [] -> finite ds ->
  exists r now, fst (next_poll_timeout_ms ceiling floor s) = Ok r /\ fst (monotonic (snd (deadlines s))) = Ok now /\
    Z.max 1 floor <= r <= Z.max (Z.max 1 floor) ceiling /\
    (forall d, FFin d ∈ ds -> r <= Z.max (Z.max 1 floor) (Qceiling ((d - now) * 1000))) /\
    (r < ceiling -> exists d, FFin d ∈ ds /\ ((d - now) * 1000 <= inject_Z r)%Q).
Proof.
  intros Hrun Hd Hne Hf. unfold next_poll_timeout_ms, mbind, pyM_bind. cbn [gets]. rewrite bool_decide_false by (intros H; by apply H).
  destruct (deadlines s) as [r0 s1]. cbn in Hd |- *. subst r0. destruct ds as [|d ds]; [done|].
  inversion Hf as [|? ? [x ->] Hfs]; subst. destruct (float_min_finite x ds Hfs) as (q & Eq & Hqx & Hqs & Hin).
  unfold monotonic, outside. destruct (q_clock (rt_world s1)) as [now w]. rewrite Eq. cbn.
  set (n := Qceiling _). assert (n = Qceiling ((q - now) * 1000)) as En.
  { unfold n. apply Qceiling_comp. rewrite !Qred_correct. reflexivity. }
  exists (Z.max (Z.max 1 floor) (Z.min ceiling n)), now. split_and!; [done|done|lia|lia| |].
  - intros p Hp. assert (q <= p)%Q as Hqp.
    { apply elem_of_cons in Hp as [[= ->]|Hp]; [done|]. rewrite Forall_forall in Hqs. by destruct (Hqs _ Hp) as (p' & [= <-] & ?). }
    assert (n <= Qceiling ((p - now) * 1000)) by (rewrite En; apply Qceiling_resp_le; lra). lia.
  - intros Hlt. exists q. split; [done|]. apply Qle_trans with (inject_Z n); [rewrite En; apply Qle_ceiling|].
    rewrite <- Zle_Qle. lia.
Qed.

(** A sleep without end, or of no length at all, leaves no timeout: the
    exception leaves the loop of the process, and no cleanup runs. *)
Lemma endless_sleep_raises ceiling floor t s :
  rt_state s = RUNNING -> rt_sleep_until s = Some t -> t = FInf false \/ t = FNan ->
  rt_wait_state s = None -> ad_observing (rt_adaptive s) = None -> rt_parallel_state s = None ->
  exists e, fst (next_poll_timeout_ms ceiling floor s) = Err e.
Proof.
  intros Hrun Hs Ht Hw Ho Hp. unfold next_poll_timeout_ms, deadlines, mbind, pyM_bind. cbn [gets get].
  rewrite bool_decide_false by (intros H; by apply H). rewrite Hs, Hw, Ho, Hp. cbn. unfold monotonic, outside.
  destruct (q_clock (rt_world s)) as [now w]. destruct Ht as [-> | ->]; by eexists.
Qed.
End poll.

Module SequencerPollDemo.
#[local] Existing Instance plain_repr.
#[local] Existing Instance ScanDemo.turning.
#[local] Existing Instance RangesDemo.arith.
#[local] Existing Instance RangesDemo.syntax.
#[local] Existing Instance RangesDemo.spaces.
#[local] Existing Instance SequencerDemo.templates.
#[local] Existing Instance SequencerDemo.supply.

Definition sleeping (seconds : pyfloat) : runtime Z :=
  snd (SequencerDemo.after [OpTick 50] (snd (start PNone PNone false PNone (snd (load
    (mkSpec 1 [] [] [TryStep (mkHeader 1 false) [SleepStep (mkHeader 2 false) (PFloat seconds)] [SequencerDemo.call 3 "off"]])
    [] (new_runtime 0)))))).

Lemma poll_wakes_in_time_witness :
  exists r now, fst (next_poll_timeout_ms 50 1 (sleeping (FFin (1 # 100)))) = Ok r /\ 1 <= r <= 50 /\ r < 50 /\
    fst (monotonic (snd (deadlines (sleeping (FFin (1 # 100)))))) = Ok now.
Proof.
  destruct (fst (deadlines (sleeping (FFin (1 # 100))))) as [ds|] eqn:E; [|by vm_compute in E].
  assert (ds <> [] /\ finite ds) as [Hne Hf].
  { vm_compute in E. injection E as <-. split; [done|]. repeat constructor. by eexists. }
  destruct (poll_wakes_in_time 50 1 (sleeping (FFin (1 # 100))) ds) as (r & now & Hr & Hn & Hb & _); [by vm_compute|done|done|done|].
  exists r, now. split_and!; [exact Hr|lia|lia| |exact Hn].
  assert (fst (next_poll_timeout_ms 50 1 (sleeping (FFin (1 # 100)))) = Ok 10) as E10 by (by vm_compute).
  rewrite E10 in Hr. injection Hr as <-. lia.
Defined.

(** [sleep: .inf], within a [try]: the supply is never switched off. *)
Example endless_sleep : fst (next_poll_timeout_ms 50 1 (sleeping (FInf false))) = Err OverflowError.
Proof. by vm_compute. Qed.
End SequencerPollDemo.

(** * Branches of a parallel step

    What joining the branches leaves, in whatever order they finish, and what
    one branch makes of the replies it gets. *)

Lemma in_order_unique (results ordered : list ParallelBranchResult) :
  NoDup (pr_index <$> results) -> ordered ≡ₚ results -> StronglySorted (Prelude.key_le pr_index) ordered -> in_order results = ordered.
Proof.
  intros Hn Hp Hs. apply (sorted_unique pr_index); [apply sort_by_sorted|done| |].
  - unfold in_order. by rewrite sort_by_perm.
  - unfold in_order. by rewrite sort_by_perm.
Qed.

Section branches.
Context `{HR : !PyRepr, HT : !Templates} {W : Type} `{HW : !SequencerWorld W}.
#[local] Abbreviation st := (runtime W).

Definition merge_outputs (env : dict) (ordered : list ParallelBranchResult) : dict :=
  foldl (fun env r => dict_update env (pr_outputs r)) env ordered.

(** Failing leaves the environment as it is. *)
Definition same_env (s s' : st) : Prop := rt_env s' = rt_env s.
#[local] Instance same_env_preorder : PreOrder same_env.
Proof. split; [done|]. intros a b c H1 H2. unfold same_env in *. congruence. Qed.

Lemma outside_env {A} (f : W -> result A * W) : keeps same_env (outside f).
Proof. intros s. unfold outside. by destruct (f (rt_world s)). Qed.
#[local] Hint Resolve outside_env : keeps.
Lemma record_event_env a b c d e f : keeps same_env (_record_event a b c d e f).
Proof. unfold _record_event, monotonic. keeps. Qed.
Lemma cancel_env k : keeps same_env (cancel k).
Proof. unfold cancel. keeps. Qed.
Lemma drop_pending_work_env : keeps same_env drop_pending_work.
Proof.
  unfold drop_pending_work. apply keeps_bind; [apply _|keeps|intros _].
  apply keeps_bind; [apply _|intros s|intros _; apply keeps_bind; [apply _|by apply keeps_modify|intros _ s]].
  - pose proof (cancel_env (rt_set_context_state s) (s <| rt_set_context_state := None |>)) as H. exact H.
  - pose proof (cancel_env (rt_parallel_state s) (s <| rt_parallel_state := None |> <| rt_parallel_pending_failure := None |>)) as H.
    exact H.
Qed.
#[local] Hint Resolve record_event_env drop_pending_work_env : keeps.
Lemma begin_unwind_env state error : keeps same_env (_begin_terminal_unwind state error).
Proof.
  intros s. unfold _begin_terminal_unwind. destruct (rt_pending_state s); [done|]. destruct (negb _); [done|].
  match goal with |- same_env s (snd (?k s)) => enough (keeps same_env k) as H by apply H end.
  unfold monotonic, _abandon_active_step, on_stats. keeps.
Qed.
Lemma note_cleanup_failure_env m : keeps same_env (_note_cleanup_failure m).
Proof.
  intros s. unfold _note_cleanup_failure. match goal with |- context [_record_event ?a ?b ?c ?d ?e ?f ?s0] =>
    pose proof (record_event_env a b c d e f s0) as Hr; destruct (_record_event a b c d e f s0) as [[[]|x] s1] end; [|done].
  unfold same_env in *. cbn in Hr |- *. by destruct (rt_last_error_detail s1).
Qed.
#[local] Hint Resolve begin_unwind_env note_cleanup_failure_env : keeps.
Lemma fail_step_env m : keeps same_env (_fail_step m).
Proof.
  intros s. unfold _fail_step. destruct (rt_pending_state s);
    match goal with |- same_env s (snd (?k s)) => enough (keeps same_env k) as H by apply H end; keeps.
Qed.

(** Branches of a parallel step are joined in the order of the step, in
    whatever order they finished: when all went well the environment takes
    their outputs branch by branch, and when one failed it takes none and the
    step fails with the errors in that order. *)
Theorem parallel_joined_in_order s token begin poll results w ordered :
  rt_parallel_state s = Some token -> rt_parallel_pending_failure s = None ->
  q_parallel = Some (begin, poll) -> poll token (rt_world s) = (Ok (true, results), w) ->
  NoDup (pr_index <$> results) -> ordered ≡ₚ results -> StronglySorted (Prelude.key_le pr_index) ordered ->
  let s' := snd (_step_parallel s) in
  fst (_step_parallel s) = Ok true /\
  match filter (fun r => pr_ok r = false) ordered with
  | [] => rt_env s' = merge_outputs (rt_env s) ordered /\ core_of s' = core_of s <| co_parallel := None |>
  | failures => rt_env s' = rt_env s /\ core_of s' = fail_core (core_of s <| co_parallel := None |>) /\
                s' = snd (_fail_step ("parallel failed: " +:+ join "; " (branch_failure <$> failures))
                            (s <| rt_world := w |> <| rt_parallel_state := None |> <| rt_parallel_pending_failure := None |>))
  end.
Proof.
  intros Ht Hf Hq Hp Hn Hperm Hs. rewrite <- (in_order_unique results ordered Hn Hperm Hs). cbv zeta.
  unfold _step_parallel. rewrite Ht, Hq. unfold mbind, pyM_bind, outside. rewrite Hp. cbn [negb].
  unfold gets, modify. change (rt_parallel_pending_failure (s <| rt_world := w |>)) with (rt_parallel_pending_failure s). rewrite Hf.
  set (s1 := s <| rt_world := w |> <| rt_parallel_state := None |> <| rt_parallel_pending_failure := None |>).
  destruct (filter (fun r => pr_ok r = false) (in_order results)) as [|r rs]; [done|].
  set (m := "parallel failed: " +:+ _). pose proof (fail_step_env m s1) as He. destruct (fail_step_core m s1) as [E1 E2].
  destruct (_fail_step m s1) as [x s2]. cbn in E1, E2, He |- *. by subst x.
Qed.

(** The reply to a [set] in a branch is not looked at: one that says it
    failed leaves the branch a success, where a [set] outside fails. *)
Lemma parallel_set_reply_ignored plan h device name value d v response w w' :
  pp_operations plan = [mkOperation None (SetStep h device name value)] -> pp_repeat_count plan = None ->
  render_text (pp_env plan) (PStr device) = Ok d -> nonempty d = true -> tp_render (pp_env plan) value = Ok v ->
  q_call_device d "set" (PDict [("name", PStr name); ("value", v)]) w = (Ok response, w') ->
  run_parallel_branch plan w = (mkBranchResult (pp_index plan) true [] None None, w').
Proof.
  intros Ho Hr Hd Hne Hv Hc.
  assert (iterations plan = [(0, mkOperation None (SetStep h device name value))]) as E.
  { unfold iterations. by rewrite Hr, Ho. }
  unfold run_parallel_branch. rewrite E. cbn [run_operations op_step run_operation be_env]. rewrite Hd. cbn [mbind result_bind].
  by rewrite Hne, Hv, Hc.
Qed.
End branches.

Module SequencerBranchesDemo.
#[local] Existing Instance plain_repr.
#[local] Existing Instance ScanDemo.turning.
#[local] Existing Instance RangesDemo.arith.
#[local] Existing Instance RangesDemo.syntax.
#[local] Existing Instance RangesDemo.spaces.
#[local] Existing Instance SequencerDemo.templates.

(** The second branch finishes first; the first says how it went. *)
Definition finished (first_ok : bool) : list ParallelBranchResult :=
  [mkBranchResult 1 true [("a", PInt 2)] None None; mkBranchResult 0 first_ok [("a", PInt 1)] None None].

Definition begin_bench (_ : list ParallelBranchPlan) (w : bool) : result Z * bool := (Ok 0, w).
Definition poll_bench (_ : Z) (w : bool) : result (bool * list ParallelBranchResult) * bool := (Ok (true, finished w), w).

(** A bench whose devices refuse everything. *)
#[local] Instance bench : SequencerWorld bool := {|
  q_clock w := (0%Q, w);
  q_call_device _ _ _ w := (Ok [("ok", PBool false)], w);
  q_call_process := None;
  q_get_telemetry _ _ w := (Ok None, w);
  q_get_process_telemetry := None;
  q_set_stream_context _ _ _ _ w := (Ok tt, w);
  q_expect_streams := None;
  q_resolve_use := None;
  q_set_context := None;
  q_parallel := Some (begin_bench, poll_bench);
  q_cancel _ w := w;
  q_getattr _ _ := None;
  q_adaptive := None
|}.

Definition joining : runtime bool := new_runtime true <| rt_parallel_state := Some 0 |>.

Lemma parallel_joined_in_order_witness :
  rt_env (snd (_step_parallel joining)) = merge_outputs [] (reverse (finished true)) /\
  merge_outputs [] (reverse (finished true)) = [("a", PInt 2)].
Proof.
  destruct (parallel_joined_in_order joining 0 begin_bench poll_bench (finished true) true (reverse (finished true)))
    as (_ & H & _); [done|done|done|done|by vm_compute; repeat (constructor; [set_solver|]); constructor|apply reverse_Permutation| |by split; [exact H|]].
  repeat constructor; cbn; unfold Prelude.key_le; cbn; lia.
Defined.

Example refused_set_is_a_success :
  pr_ok (fst (run_parallel_branch (mkPlan 0 [mkOperation None (SetStep (mkHeader 1 false) "psu" "level" (PInt 3))] [] "p" false None) true))
  = true.
Proof. by vm_compute. Qed.
End SequencerBranchesDemo.
