(* ===== verification/SequencerGate.v ===== *)
(** * Watchdogs of a sequence ([sequencer/ast.py])

    A sequence that requires watchdogs is wrapped when it is parsed: they are
    enabled before its steps and disabled in a [finally].  With the runtime's
    guarantees, whatever is done while they may be enabled is followed by
    disabling all of them. *)
From S2P Require Import Prelude PyVal PyNum PyOps Expressions Conditions Responses ProcessBase.
From S2P Require Import SequencerData SequencerCore SequencerValues SequencerParallel SequencerWait SequencerAdaptive SequencerSteps.
From S2P Require Import SequencerTick SequencerFrames SequencerTrials SequencerMachine SequencerRuns SequencerTheorems ScanPlan Ranges.
#[local] Open Scope Z_scope.

Definition named (v : pyval) : bool := match v with PStr s => nonempty (strip s) | _ => false end.

Definition _normalize_watchdog_ids (raw_ids : pyval) : result (option (list string)) :=
  let bad := Err (TypeError "requires.watchdog_ids must be a non-empty list of non-empty strings") in
  match raw_ids with
  | PNone => Ok None
  | PList [] => bad
  | PList l => if forallb named l then Ok (Some (omap (fun v => match v with PStr s => Some s | _ => None end) l)) else bad
  | _ => bad
  end.

Section gate.
(** The identities of the new step objects *)
Context (fresh : bool -> nat -> Z).

Definition watchdog_call (id : Z) (action watchdog_id : string) : step :=
  CallStep (mkHeader id false) "" action [("watchdog_id", PStr watchdog_id)] None None None (Some "watchdog").

Definition enable_steps (watchdog_ids : list string) : list step :=
  imap (fun i wid => watchdog_call (fresh true i) "watchdog.enable" wid) watchdog_ids.
Definition disable_steps (watchdog_ids : list string) : list step :=
  imap (fun i wid => watchdog_call (fresh false i) "watchdog.disable" wid) watchdog_ids.

Definition _apply_watchdog_gate (gate_id : Z) (steps : list step) (watchdog_ids : option (list string)) : list step :=
  match watchdog_ids with
  | None => steps
  | Some ids => [TryStep (mkHeader gate_id false) (enable_steps ids ++ steps) (disable_steps ids)]
  end.
End gate.

(** ** A program that is one [try] *)

(** A call that is enabled *)
Definition plain_call (x : step) : Prop :=
  disabled x = false /\ match x with CallStep _ _ _ _ _ _ _ _ => True | _ => False end.

Lemma plain_enabled l : Forall plain_call l -> enabled l = l.
Proof.
  unfold enabled. induction 1 as [|x l [Hd _] _ IH]; [done|]. rewrite filter_cons_True by done. by rewrite IH.
Qed.

Lemma finalize_cases l rest :
  finalize l rest = TryFrame l true :: rest \/ finalize l rest = Frame l 0 None true :: TryFrame l true :: rest.
Proof. destruct l; [by left|by right]. Qed.

Section wrapped.
Context (h : step_header) (body final : list step).
Context (Hcalls : Forall plain_call final).
#[local] Abbreviation gate := (TryStep h body final).
#[local] Abbreviation outer i := (Frame [gate] i None false).

(** The stack is that of the program, the body of the [try], its [finally],
    or what is left. *)
Inductive wrapped : list frame -> Prop :=
| WrEmpty : wrapped []
| WrOuter i : wrapped [outer i]
| WrBody above : wrapped (above ++ [TryFrame final false; outer 1%nat])
| WrFinal j : wrapped [Frame final j None true; TryFrame final true; outer 1%nat]
| WrDone : wrapped [TryFrame final true; outer 1%nat].

(** What a step finds on the stack. *)
Definition covered (d : dispatch) : Prop :=
  snd d = gate \/ snd d ∈ final \/ final `suffix_of` cleanup (co_stack (fst d)).

Lemma body_cleanup above : final `suffix_of` cleanup (above ++ [TryFrame final false; outer 1%nat]).
Proof. unfold cleanup. rewrite bind_app. cbn. rewrite plain_enabled, app_nil_r by done. by apply suffix_app_r. Qed.

(** Where the stack is and what is on top. *)
Inductive wrapped_at (f : frame) (t : list frame) : Prop :=
| AtOuter i : f = outer i -> t = [] -> wrapped_at f t
| AtBody : (forall new, wrapped (new ++ t)) -> (forall new, final `suffix_of` cleanup (new ++ t)) -> wrapped_at f t
| AtTry : f = TryFrame final false -> t = [outer 1%nat] -> wrapped_at f t
| AtFinal j : f = Frame final j None true -> t = [TryFrame final true; outer 1%nat] -> wrapped_at f t
| AtDone : f = TryFrame final true -> t = [outer 1%nat] -> wrapped_at f t.

Lemma wrapped_top f t : wrapped (f :: t) -> wrapped_at f t.
Proof.
  intros H. inversion H as [|i E|above E|j E|E]; subst; [by eapply AtOuter| |by eapply AtFinal|by apply AtDone].
  destruct above as [|g above]; simplify_eq/=; [by apply AtTry|].
  apply AtBody; intros new; rewrite app_assoc; [constructor|apply body_cleanup].
Qed.

Lemma wrapped_finalize : wrapped (finalize final [outer 1%nat]).
Proof. destruct (finalize_cases final [outer 1%nat]) as [-> | ->]; [apply WrDone|apply (WrFinal 0)]. Qed.

Lemma wrapped_advance c c' : advance c c' -> wrapped (co_stack c) -> wrapped (co_stack c').
Proof.
  intros Ha Hw. destruct (co_stack c) as [|f t] eqn:Ec; [destruct Ha; congruence|].
  destruct (advance_tail _ _ Ha) as [new En]. rewrite Ec in En. cbn in En. apply wrapped_top in Hw. destruct Hw as [i -> ->|Hb _| -> ->|j -> ->| -> ->].
  - destruct Ha; rewrite Ec in *; simplify_eq; [apply WrOuter|]. rewrite (proj2 (leave_frame_status _ _ _)). constructor.
  - rewrite En. apply Hb.
  - destruct Ha; rewrite Ec in *; simplify_eq. apply wrapped_finalize.
  - destruct Ha; rewrite Ec in *; simplify_eq; [apply WrFinal|]. rewrite (proj2 (leave_frame_status _ _ _)). constructor.
  - destruct Ha; rewrite Ec in *; simplify_eq. apply WrOuter.
Qed.

Lemma wrapped_trial b c c' : trial b c c' -> wrapped (co_stack c) -> wrapped (co_stack c').
Proof.
  destruct 1 as [|a a' b' rest state E _ _]; [done|]. rewrite E. intros Hw. apply wrapped_top in Hw. cbn.
  destruct Hw as [i Ef _|Hb _|Ef _|j Ef _|Ef _]; [done| |done..]. apply (Hb [AdaptiveFrame a' b']).
Qed.

Lemma wrapped_discard c c' : discard c c' -> wrapped (co_stack c) -> wrapped (co_stack c').
Proof.
  intros Hd Hw. assert (exists f t, co_stack c = f :: t /\ co_stack c' = t) as (f & t & Ec & Et).
  { destruct Hd as [c steps i e rest E|c f rest E Hf]; rewrite E; [|by exists f, rest].
    exists (Frame steps i e false), rest. by rewrite (proj2 (leave_frame_status e rest c)). }
  rewrite Et. rewrite Ec in Hw. apply wrapped_top in Hw. destruct Hw as [i -> ->|Hb _| -> ->|j -> ->| -> ->].
  - constructor.
  - apply (Hb []).
  - destruct Hd; rewrite Ec in *; simplify_eq. done.
  - destruct Hd; rewrite Ec in *; simplify_eq. done.
  - apply WrOuter.
Qed.

(** A step of the program, and what its handler leaves. *)
Lemma wrapped_step c x c1 c2 : takes c x c1 -> after_handler x c1 c2 -> wrapped (co_stack c) ->
  covered (c1, x) /\ wrapped (co_stack c2).
Proof.
  intros (steps & i & e & u & rest & Ec & Hi & Hd & ->) Hh Hw. rewrite Ec in Hw. apply wrapped_top in Hw.
  destruct (after_handler_stack _ _ _ Hh) as [new En]. cbn in En. destruct Hw as [i' Ef ->|Hb Hs|Ef ->|j Ef ->|Ef ->]; simplify_eq.
  - assert (i' = 0%nat /\ x = gate) as [-> ->].
    { destruct i' as [|i']; [by injection Hi as <-|]. by destruct i'. }
    split; [by left|]. inversion Hh; simplify_eq. apply (WrBody [body_frame body]).
  - split; [right; right|rewrite En].
    + apply (Hs [Frame steps (S i) e u]).
    + change (Frame steps (S i) e u :: rest) with ([Frame steps (S i) e u] ++ rest). rewrite app_assoc. apply Hb.
  - split; [right; left; by eapply list_elem_of_lookup_2|].
    rewrite Forall_forall in Hcalls. destruct (Hcalls x) as [_ Hx]; [by eapply list_elem_of_lookup_2|].
    destruct x; try done. inversion Hh; simplify_eq; [apply WrFinal|]. rewrite fail_core_stack. apply WrFinal.
Qed.

Definition gated (c : core) : Prop := wrapped (co_stack c) /\ co_program c = Some [gate].

Lemma leave_program e l c : co_program (leave_frame e (with_stack l c)) = co_program c.
Proof. by destruct e as [[]|]. Qed.
Lemma move_program c log c' : move c log c' -> co_program c' = co_program c.
Proof.
  destruct 1 as [c c' _ _ Ha| |c c' _ _ Hd|c c' Hd|c x c' c'' _ _ Ht Hh|c|c|c|c| | | | |]; try done.
  - destruct Ha; try done. apply leave_program.
  - destruct Hd; [apply leave_program|done].
  - by destruct Hd.
  - destruct Ht as (steps & i & e & u & rest & _ & _ & _ & ->). destruct Hh; try done. unfold fail_core. by repeat case_match.
  - unfold stop_core. by repeat case_match.
  - unfold fail_core. by repeat case_match.
Qed.

Lemma move_gated c log c' : move c log c' -> gated c -> gated c' /\ Forall covered log.
Proof.
  intros Hm [Hw Hp]. pose proof (move_program _ _ _ Hm) as Hp'. rewrite Hp in Hp'. unfold gated. rewrite Hp'. clear Hp'.
  destruct Hm as [c c' _ _ Ha|c fs rest E|c c' _ _ Hd|c c' Hd|c x c1 c2 _ _ Ht Hh|c|c|c|c|c state|c steps E Hn Hst|c|c|c]; try done.
  - split_and!; [by eapply wrapped_advance|done|constructor].
  - split_and!; [|done|constructor]. apply (wrapped_advance c); [by apply AdvTryFinally|done].
  - split_and!; [by eapply wrapped_discard|done|constructor].
  - split_and!; [by eapply wrapped_trial|done|constructor].
  - destruct (wrapped_step _ _ _ _ Ht Hh Hw). split_and!; [done|done|by constructor; [|constructor]].
  - rewrite stop_core_stack. done.
  - rewrite fail_core_stack. done.
  - rewrite Hp in Hst. injection Hst as <-. split_and!; [apply WrOuter|done|constructor].
Qed.

Lemma moves_gated c log c' : moves c log c' -> gated c -> gated c' /\ Forall covered log.
Proof.
  induction 1 as [c|c log c1 log' c2 Hm _ IH]; intros Hg; [done|]. destruct (move_gated _ _ _ Hm Hg) as [H1 Hl].
  destruct (IH H1) as [H2 Hl']. split; [done|]. by apply Forall_app.
Qed.
End wrapped.

Lemma disable_plain fresh ids : Forall plain_call (disable_steps fresh ids).
Proof. unfold disable_steps. apply Forall_lookup. intros i x. rewrite list_lookup_imap. by destruct (ids !! i) as [wid|]; [intros [= <-]|]. Qed.

Section theorems.
Context `{HR : !PyRepr, HT : !Templates} {W : Type} `{HW : !SequencerWorld W}.
#[local] Abbreviation st := (runtime W).

(** C20. The watchdogs a sequence requires are disabled again: in a run of a
    sequence wrapped by [_apply_watchdog_gate], by the time the run is over,
    every step that was given to its handler - the calls that enable them and
    all steps of the sequence - and is not itself one of the disabling calls
    was followed by all of them, in order, however the run ended - but for
    adaptive steps with [fail_on_trial_error]. *)
Theorem watchdogs_disabled_after s ops log s' fresh gate_id steps ids l1 d l2 :
  started s -> sp_steps <$> rt_spec s = Some (_apply_watchdog_gate fresh gate_id steps (Some ids)) ->
  run_ops ops s = Some (log, s') -> lenient log -> live s' = false -> log = l1 ++ d :: l2 -> snd d ∉ disable_steps fresh ids ->
  disable_steps fresh ids `sublist_of` l2.*2.
Proof.
  intros Hs Hp H%run_ops_moves Hle Hl E Hd. set (h := mkHeader gate_id false). set (body := enable_steps fresh ids ++ steps).
  pose proof (disable_plain fresh ids) as Hplain. set (final := disable_steps fresh ids) in *.
  assert (gated h body final (core_of s)) as Hg.
  { destruct (started_core s Hs) as (prog & Ec). assert (prog = [TryStep h body final]) as ->.
    { apply (f_equal co_program) in Ec. cbn in Ec. rewrite Hp in Ec. by injection Ec as <-. }
    split; rewrite Ec; [apply (WrOuter h body final 0)|done]. }
  destruct (moves_gated h body final Hplain _ _ _ H Hg) as [_ Hf]. rewrite E in Hf. apply Forall_app in Hf as [_ Hf].
  apply Forall_cons in Hf as [Hc _]. destruct (moves_owed _ _ _ _ _ _ H E) as (fin & rest & Eo & Hsub & Hsuf).
  rewrite (over_owes_nothing s log s' rest Hs H Hle Hl Hsuf), app_nil_r in Eo. subst fin. etrans; [|exact Hsub].
  unfold owed. destruct Hc as [-> | [Hc|Hc]]; [|done|].
  - rewrite plain_enabled by done. by apply sublist_inserts_r.
  - apply sublist_inserts_l. destruct Hc as [pre ->]. by apply sublist_inserts_l.
Qed.
End theorems.

Module SequencerGateDemo.
#[local] Existing Instance plain_repr.
#[local] Existing Instance ScanDemo.turning.
#[local] Existing Instance RangesDemo.arith.
#[local] Existing Instance RangesDemo.syntax.
#[local] Existing Instance RangesDemo.spaces.
#[local] Existing Instance SequencerDemo.templates.

(** Processes that answer, a supply that refuses to [ramp]. *)
#[local] Instance desk : SequencerWorld Z := {|
  q_clock w := ((w # 100000)%Q, w + 1);
  q_call_device _ action _ w :=
    (Ok (if String.eqb action "ramp" then [("ok", PBool false)] else [("ok", PBool true)]), w);
  q_call_process := Some (fun _ _ _ w => (Ok [("ok", PBool true)], w));
  q_get_telemetry _ _ w := (Ok None, w);
  q_get_process_telemetry := None;
  q_set_stream_context _ _ _ _ w := (Ok tt, w);
  q_expect_streams := None;
  q_resolve_use := None;
  q_set_context := None;
  q_parallel := None;
  q_cancel _ w := w;
  q_getattr _ _ := None;
  q_adaptive := None
|}.

Definition fresh (enable : bool) (i : nat) : Z := Z.of_nat i + if enable then 100 else 200.
Definition ids : list string := ["laser"; "cryo"].
Definition program : list step := _apply_watchdog_gate fresh 300 [SequencerDemo.call 1 "ramp"; SequencerDemo.call 2 "hold"] (Some ids).
Definition begun : runtime Z := snd (start PNone PNone false PNone (snd (load (mkSpec 1 [] [] program) [] (new_runtime 0)))).
Definition ticks : list op := replicate 4 (OpTick 50).
Definition log : list dispatch := from_option fst [] (run_ops ticks begun).
Definition ended : runtime Z := from_option snd begun (run_ops ticks begun).

Example gate_trace : (fun d => step_id (snd d)) <$> log = [300; 100; 101; 1; 200; 201].
Proof. by vm_compute. Qed.

Lemma gate_started : started begun.
Proof. exists PNone, PNone, false, PNone, (snd (load (mkSpec 1 [] [] program) [] (new_runtime 0))). by vm_compute. Qed.
Lemma gate_ends : run_ops ticks begun = Some (log, ended).
Proof. by vm_compute. Qed.
Definition ramped : dispatch := default (core_of begun, SequencerDemo.call 0 "") (log !! 3%nat).

Lemma watchdogs_disabled_after_witness :
  snd ramped = SequencerDemo.call 1 "ramp" /\ disable_steps fresh ids `sublist_of` (drop 4 log).*2.
Proof.
  assert (snd ramped = SequencerDemo.call 1 "ramp") as Er by (by vm_compute). split; [exact Er|].
  refine (watchdogs_disabled_after begun ticks log ended fresh 300 [SequencerDemo.call 1 "ramp"; SequencerDemo.call 2 "hold"] ids
           (take 3 log) ramped (drop 4 log) gate_started _ gate_ends _ _ _ _).
  - by vm_compute.
  - by vm_compute; repeat constructor.
  - by vm_compute.
  - by vm_compute.
  - rewrite Er. intros H. vm_compute in H. repeat (apply elem_of_cons in H as [?|H]; [discriminate|]). by apply elem_of_nil in H.
Defined.
End SequencerGateDemo.
