(* ===== verification/AdaptiveTheorems.v ===== *)
(** * What an adaptive step promises

    The body of an adaptive step runs with parameters within the declared
    space, whatever the learner proposes ([proposal_within_space]); the best
    score and the patience counter are those of the trials
    ([best_score_tracked]); a search that is resumed is told only trials that
    went well and fit the space it is resumed on ([study_prepared]).  The
    examples at the end are runs of the whole runtime. *)
From Stdlib Require Import QArith Lqa.
From S2P Require Import Prelude PyVal PyNum PyOps Expressions Conditions Responses ProcessBase ScanPlan Ranges RunRecords.
From S2P Require Import AdaptiveController SequencerData SequencerCore SequencerValues SequencerParallel SequencerWait.
From S2P Require Import SequencerAdaptive SequencerSteps SequencerTick SequencerFrames SequencerTrials SequencerMachine SequencerRuns SequencerTheorems.
#[local] Open Scope Z_scope.

(** ** The order of floats *)
Definition number (x : pyfloat) : Prop := x <> FNan.

Lemma Qeq_bool_spec a b : BoolSpec (a == b)%Q (~ a == b)%Q (Qeq_bool a b).
Proof. destruct (Qeq_bool a b) eqn:E; constructor; [by apply Qeq_bool_iff|by apply Qeq_bool_neq]. Qed.

(** Case analysis on floats and the comparisons of their values *)
Ltac floats :=
  intros; repeat match goal with x : pyfloat |- _ => destruct x as [?|[]|] end;
  unfold number, fleb, float_eqb in *; simpl in *; try congruence;
  repeat first
    [ match goal with |- context [Qltb ?a ?b] => destruct (Qltb_spec a b) end
    | match goal with |- context [Qeq_bool ?a ?b] => destruct (Qeq_bool_spec a b) end
    | match goal with H : context [Qltb ?a ?b] |- _ => destruct (Qltb_spec a b) end
    | match goal with H : context [Qeq_bool ?a ?b] |- _ => destruct (Qeq_bool_spec a b) end ];
  simpl in *; try done; try lra.

Lemma fltb_irrefl x : fltb x x = false.
Proof. floats. Qed.
Lemma fltb_trans x y z : fltb x y = true -> fltb y z = true -> fltb x z = true.
Proof. floats. Qed.
(** The scores not beaten so far stay so when the best one is beaten. *)
Lemma fltb_weak x y z : number x -> number y -> fltb x y = false -> fltb x z = true -> fltb y z = true.
Proof. floats. Qed.
Lemma fltb_weak_r x y z : number y -> number z -> fltb y z = false -> fltb x z = true -> fltb x y = true.
Proof. floats. Qed.

(** ** Rounding and clamping *)
Lemma round_half_even_near q : (inject_Z (round_half_even q) - (1 # 2) <= q <= inject_Z (round_half_even q) + (1 # 2))%Q.
Proof.
  destruct q as [n d]. unfold round_half_even. simpl.
  pose proof (Z.div_mod n (Zpos d) ltac:(done)) as E. pose proof (Z.mod_pos_bound n (Zpos d) ltac:(done)) as B.
  assert (forall k, 2 * k * Zpos d - Zpos d <= 2 * n <= 2 * k * Zpos d + Zpos d ->
    (inject_Z k - (1 # 2) <= n # d <= inject_Z k + (1 # 2))%Q) as near.
  { intros k Hk. unfold inject_Z, Qle, Qminus, Qplus, Qopp. simpl. lia. }
  destruct (Z.ltb_spec (2 * (n - n `div` Zpos d * Zpos d)) (Zpos d));
    [|destruct (Z.ltb_spec (Zpos d) (2 * (n - n `div` Zpos d * Zpos d))); [|destruct (Z.even _)]]; apply near; nia.
Qed.

Lemma clamp_within lo up x : number lo -> number up -> fleb up lo = false ->
  fleb lo (clamp lo up x) = true /\ fleb (clamp lo up x) up = true.
Proof. unfold clamp, float_max. intros. destruct (fltb x up) eqn:?, (fltb lo _) eqn:?; split; floats. Qed.

(** ** Proposals *)
Section proposals.
Context `{HR : !PyRepr}.

(** A value the space allows for a parameter *)
Definition allowed (spec : dict) (v : pyval) : Prop :=
  (param_type spec = "categorical" /\ exists choices, dget spec "choices" = PList choices /\ existsb (py_eqb v) choices = true) \/
  exists lo up x, numeric (dget spec "min") = Ok lo /\ numeric (dget spec "max") = Ok up /\
    (number lo -> number up -> fleb lo x = true /\ fleb x up = true) /\
    ((param_type spec = "float" /\ v = PFloat x) \/
     (param_type spec = "int" /\ exists q n, x = FFin q /\ v = PInt n /\ (inject_Z n - (1 # 2) <= q <= inject_Z n + (1 # 2))%Q)).

Lemma coerced_allowed name spec raw v : _coerce_adaptive_param name spec raw = Ok v -> allowed spec v.
Proof.
  unfold _coerce_adaptive_param, allowed. destruct (String.eqb_spec (param_type spec) "categorical") as [Et|_].
  { destruct (dget spec "choices") as [| | | | |[|c l]|] eqn:Ec; try done.
    destruct (existsb _ _) eqn:Ex; [|done]. intros [= ->]. left. eauto. }
  destruct (String.eqb_spec (param_type spec) "float") as [Et|]; [|destruct (String.eqb_spec (param_type spec) "int") as [Et|]; [|done]].
  all: rewrite Et; simpl; destruct (numeric raw) as [x|] eqn:?; simpl; [|done].
  all: destruct (numeric (dget spec "min")) as [lo|] eqn:?; simpl; [|done].
  all: destruct (numeric (dget spec "max")) as [up|] eqn:?; simpl; [|done].
  all: destruct (fleb up lo) eqn:?; [done|].
  all: destruct (snap_to_grid name spec lo x) as [y|] eqn:?; simpl; [|done].
  - intros [= <-]. right. exists lo, up, (clamp lo up y). split_and!; eauto using clamp_within.
  - destruct (clamp lo up y) as [q| |] eqn:Ey; try done. intros [= <-]. right. exists lo, up, (clamp lo up y).
    split_and!; eauto using clamp_within. right. split; [done|]. exists q, (round_half_even q).
    split_and!; [done|done|apply round_half_even_near..].
Qed.

(** An adaptive proposal that is accepted stays within the declared space,
    whatever the learner suggested: it has the parameters of the space in their
    order, a categorical one is among its choices, a float lies within its
    bounds after snapping, and an int is a float within the bounds rounded to
    the nearest integer. *)
Theorem proposal_within_space space params_raw params : _apply_adaptive_space space params_raw = Ok params ->
  Forall2 (fun '(name, spec) '(name', v) => name = name' /\ exists d, spec = PDict d /\ allowed d v) space params.
Proof.
  revert params. induction space as [|[name spec] space IH]; intros params; simpl; [by intros [= <-]; constructor|].
  destruct spec; try done. destruct (od_get params_raw name) as [raw|]; [|done].
  destruct (_coerce_adaptive_param name _ raw) as [v|] eqn:E; simpl; [|done].
  destruct (_apply_adaptive_space space params_raw) as [rest|]; simpl; [|done].
  intros [= <-]. constructor; [|by apply IH]. eauto using coerced_allowed.
Qed.
End proposals.

(** ** Scores *)

(** [x] is a better score than [y]. *)
Definition beats (minimize : bool) (x y : pyfloat) : bool := if minimize then fltb x y else fltb y x.

Lemma beats_irrefl m x : beats m x x = false.
Proof. destruct m; apply fltb_irrefl. Qed.
Lemma beats_trans m x y z : beats m x y = true -> beats m y z = true -> beats m x z = true.
Proof. destruct m; cbn; eauto using fltb_trans. Qed.
(** Nothing that did not beat the old best beats the new one. *)
Lemma beats_step m x best new : number x -> number best -> number new ->
  beats m x best = false -> beats m new best = true -> beats m new x = true.
Proof. destruct m; cbn; eauto using fltb_weak, fltb_weak_r. Qed.
Lemma beats_asym m x y : beats m x y = true -> beats m y x = false.
Proof. intros H. apply not_true_iff_false. intros H'. pose proof (beats_trans m x y x H H') as E. by rewrite beats_irrefl in E. Qed.

Section scores.
Context `{HR : !PyRepr}.

(** The frame after some trials, and its counters *)
Definition tracked (a : adaptive_frame) (trials : list dict) : adaptive_frame := foldl (fun a t => track_score t a) a trials.

(** The earliest of the best scores, and the trials since *)
Definition best_of (minimize : bool) (trials : list dict) (best : option pyfloat) (since : Z) : Prop :=
  match best with
  | None => (forall t, t ∈ trials -> score_of t = None) /\ since = Z.of_nat (length trials)
  | Some x => exists i t, trials !! i = Some t /\ score_of t = Some x /\ since = Z.of_nat (length trials - S i) /\
      forall j u y, trials !! j = Some u -> score_of u = Some y ->
        beats minimize y x = false /\ ((j < i)%nat -> beats minimize x y = true)
  end.

Lemma minimizes_track t a : minimizes (track_score t a) = minimizes a.
Proof. unfold track_score. by repeat case_match. Qed.

Lemma best_of_worse m trials t best since :
  best_of m trials best since -> (forall y x, score_of t = Some y -> best = Some x -> beats m y x = false) ->
  (best = None -> score_of t = None) -> best_of m (trials ++ [t]) best (since + 1).
Proof.
  destruct best as [x|]; cbn.
  - intros (i & u & Hi & Hu & -> & Hb) Hw _. pose proof (lookup_lt_Some _ _ _ Hi) as Hl. exists i, u.
    rewrite lookup_app_l, length_app by done. cbn. split_and!; [done|done|lia|].
    intros j v y [Hj|[Hj Hv]]%lookup_app_Some Hy; [by apply (Hb j v)|].
    apply list_lookup_singleton_Some in Hv as [_ <-]. split; [by eapply Hw|lia].
  - intros [Hn ->] _ Ht. rewrite length_app. cbn. split; [|lia]. intros u [Hu|Hu]%elem_of_app; [by apply Hn|].
    apply list_elem_of_singleton in Hu as ->. by apply Ht.
Qed.

Lemma best_of_better m trials t best since y :
  best_of m trials best since -> score_of t = Some y -> (forall u x, u ∈ trials ++ [t] -> score_of u = Some x -> number x) ->
  (forall x, best = Some x -> beats m y x = true) -> best_of m (trials ++ [t]) (Some y) 0.
Proof.
  intros Hb Hy Hnum Hbeat. exists (length trials), t.
  assert ((trials ++ [t]) !! length trials = Some t) as Hl by by apply list_lookup_middle.
  split_and!; [done|done|rewrite length_app; cbn; lia|]. intros j u z [Hj|[Hj Hv]]%lookup_app_Some Hz.
  - assert (beats m y z = true) as Hw.
    { destruct best as [x|]; cbn in Hb.
      - destruct Hb as (i & v & Hi & Hv & _ & Hall). destruct (Hall j u z Hj Hz) as [Hle _].
        assert (forall k w, trials !! k = Some w -> w ∈ trials ++ [t]) as Hin.
        { intros k w Hw. apply elem_of_app. left. by eapply list_elem_of_lookup_2. }
        apply (beats_step m z x); eauto. apply (Hnum t); [|done]. apply elem_of_app. right. by apply list_elem_of_singleton.
      - destruct Hb as [Hn _]. apply list_elem_of_lookup_2, Hn in Hj. congruence. }
    split; [by apply beats_asym|done].
  - apply list_lookup_singleton_Some in Hv as [Hj0 <-]. rewrite Hy in Hz. injection Hz as <-. split; [apply beats_irrefl|lia].
Qed.

(** Over the trials of a step, whose scores are numbers, the best score a
    frame keeps is the earliest score that no other trial beats, in the
    direction of the controller, and its patience counter is the number of
    trials since; without a score there is no best one and the counter is the
    number of trials. *)
Theorem best_score_tracked a trials :
  af_best_score a = None -> af_no_improve_trials a = 0 -> (forall t x, t ∈ trials -> score_of t = Some x -> number x) ->
  best_of (minimizes a) trials (af_best_score (tracked a trials)) (af_no_improve_trials (tracked a trials)).
Proof.
  intros Hb Hi. induction trials as [|t trials IH] using rev_ind; intros Hn.
  { cbn. rewrite Hb, Hi. split; [by intros ? ?%not_elem_of_nil|done]. }
  assert (best_of (minimizes a) trials (af_best_score (tracked a trials)) (af_no_improve_trials (tracked a trials))) as H.
  { apply IH. intros u x Hu. apply Hn, elem_of_app. by left. }
  assert (minimizes (tracked a trials) = minimizes a) as Em.
  { clear. induction trials as [|t l IH] using rev_ind; [done|]. unfold tracked in *. rewrite foldl_snoc, minimizes_track. done. }
  unfold tracked in *. rewrite foldl_snoc. set (b := foldl _ a trials) in *. clearbody b. unfold track_score.
  destruct (score_of t) as [y|] eqn:Ey; [|cbn; apply best_of_worse; [done|congruence|done]].
  destruct (af_best_score b) as [x|] eqn:Ex; [|cbn; by eapply best_of_better]. rewrite Em.
  destruct (if minimizes a then fltb y x else fltb x y) eqn:E; cbn.
  - eapply best_of_better; [done|done|done|]. intros z [= <-]. exact E.
  - rewrite Ex. apply best_of_worse; [done| |done]. intros y' x' Hy [= <-]. rewrite Ey in Hy. injection Hy as <-. exact E.
Qed.
End scores.

(** ** Studies *)
Section studies.
Context `{HR : !PyRepr, HT : !Templates} {W : Type} `{HW : !SequencerWorld W}.
#[local] Abbreviation st := (runtime W).

(** A value of an earlier trial that lies in the space as it is *)
Definition inside (spec : dict) (v : pyval) : Prop :=
  (param_type spec = "categorical" /\ exists choices, dget spec "choices" = PList choices /\ existsb (py_eqb v) choices = true) \/
  ((param_type spec = "float" \/ param_type spec = "int") /\ exists x lo up,
    numeric v = Ok x /\ numeric (dget spec "min") = Ok lo /\ numeric (dget spec "max") = Ok up /\
    (number lo -> number up -> number x -> fleb lo x = true /\ fleb x up = true)).

(** A trial that went well and lies in the space *)
Definition reusable (space trial : dict) : Prop :=
  truthy (dget trial "ok") = true /\ exists params, dget trial "params" = PDict params /\
    Forall (fun '(name, spec) => exists d v, spec = PDict d /\ od_get params name = Some v /\ inside d v) space.

Lemma not_fltb_fleb x y : number x -> number y -> fltb x y = false -> fleb y x = true.
Proof. floats. Qed.

Lemma value_matches_inside spec v : value_matches spec v = true -> inside spec v.
Proof.
  unfold value_matches, inside. destruct (String.eqb_spec (param_type spec) "categorical") as [Et|_].
  { destruct (dget spec "choices") eqn:?; try done. eauto. }
  destruct (String.eqb_spec (param_type spec) "float") as [Et|]; [|destruct (String.eqb_spec (param_type spec) "int") as [Et|]; [|done]].
  all: rewrite Et; simpl; destruct (numeric v) as [x|] eqn:?; simpl; [|done].
  all: destruct (numeric (dget spec "min")) as [lo|] eqn:?; simpl; [|done].
  all: destruct (numeric (dget spec "max")) as [up|] eqn:?; simpl; [|done].
  all: destruct (fltb x lo) eqn:?, (fltb up x) eqn:?; try done; intros _; right; (split; [by auto|]).
  all: exists x, lo, up; split_and!; eauto using not_fltb_fleb.
Qed.

Lemma selected_reusable studies id kind space t :
  t ∈ _select_reusable_adaptive_trials studies id kind space ->
  reusable space t /\ exists raw trials, od_get studies id = Some raw /\ dget raw "trials" = PList trials /\ PDict t ∈ trials.
Proof.
  unfold _select_reusable_adaptive_trials. destruct (od_get studies id) as [raw|]; [|by intros ?%not_elem_of_nil].
  destruct (negb _); [by intros ?%not_elem_of_nil|].
  destruct (dget raw "space") as [| | | | | |old]; try by intros ?%not_elem_of_nil.
  destruct (dget raw "trials") as [| | | | |trials|] eqn:Et; try by intros ?%not_elem_of_nil.
  destruct (same_keys old space); [|by intros ?%not_elem_of_nil].
  intros (v & Hv & Hs)%list_elem_of_omap. destruct v as [| | | | | |trial]; try done.
  destruct (truthy (dget trial "ok")) eqn:Eok; [|done]. destruct (_trial_matches_adaptive_space trial space) eqn:Em; [|done].
  injection Hs as ->. split; [|eauto]. split; [done|]. unfold _trial_matches_adaptive_space in Em.
  destruct (dget t "params") as [| | | | | |params]; try done. exists params. split; [done|].
  apply Forall_forall. intros [name spec] Hin.
  rewrite forallb_forall in Em. specialize (Em (name, spec) (proj1 (list_elem_of_In _ _) Hin)). cbn in Em.
  destruct spec as [| | | | | |d]; try done. destruct (od_get params name) as [v|]; [|done].
  exists d, v. split_and!; [done|done|by apply value_matches_inside].
Qed.

(** Replaying tells the learner only. *)
Definition same_adaptive (s s' : st) : Prop := rt_adaptive s' = rt_adaptive s.
#[local] Instance same_adaptive_preorder : PreOrder same_adaptive.
Proof. split; [done|]. intros a b c Hab Hbc. unfold same_adaptive in *. congruence. Qed.
Lemma outside_same_adaptive {A} (f : W -> result A * W) : keeps same_adaptive (outside f).
Proof. intros s. unfold outside. by destruct (f (rt_world s)). Qed.
#[local] Hint Resolve outside_same_adaptive : keeps.
Lemma replay_one_same c t : keeps same_adaptive (_replay_adaptive_trial c t).
Proof. unfold _replay_adaptive_trial, as_dict. keeps. Qed.
#[local] Hint Resolve replay_one_same : keeps.
Lemma replay_same c n l : keeps same_adaptive (replay c n l).
Proof. revert c n. induction l as [|t l IH]; intros c n; cbn [replay]; keeps. Qed.
Lemma replay_count c n l s n' c' s' : replay c n l s = (Ok (n', c'), s') -> n <= n' <= n + Z.of_nat (length l).
Proof.
  revert c n s. induction l as [|t l IH]; intros c n s; cbn [replay length].
  { intros [= <- _ _]. lia. }
  unfold mbind, pyM_bind. destruct (_replay_adaptive_trial c t s) as [[[ok c1]|e] s1]; [|done].
  intros H%IH. destruct ok; lia.
Qed.

(** The trials a mode of starting begins with *)
Definition first_trials (s : st) (id kind : string) (space : dict) : list dict :=
  if bool_decide (start_mode s id ∈ ["resume"; "warm_start"])
  then _select_reusable_adaptive_trials (ad_studies (rt_adaptive s)) id kind space else [].

(** When an adaptive step begins, its study is recorded anew, under its
    kind of controller and its space: with no trial, unless the run resumes or
    warm-starts the study, and then with trials of the earlier record that went
    well and lie in the space of this run.  The trials counted as completed are
    among them, and every other study is as it was. *)
Theorem study_prepared spec c controller space s n c' s' :
  _prepare_adaptive_study spec c controller space s = (Ok (n, c'), s') ->
  let kind := text_field controller "kind" in
  let trials := first_trials s (ad_id spec) kind space in
  (exists now, ad_studies (rt_adaptive s') =
     od_set (ad_studies (rt_adaptive s)) (ad_id spec) (study_record kind space trials (start_mode s (ad_id spec)) now)) /\
  0 <= n <= Z.of_nat (length trials) /\ Forall (reusable space) trials /\
  (forall id, id <> ad_id spec -> od_get (ad_studies (rt_adaptive s')) id = od_get (ad_studies (rt_adaptive s)) id) /\
  (start_mode s (ad_id spec) = "reset" -> trials = []).
Proof.
  unfold _prepare_adaptive_study, mbind, pyM_bind, gets. cbn. fold (first_trials s (ad_id spec) (text_field controller "kind") space).
  unfold first_trials at 1. set (trials := if bool_decide _ then _ else _).
  pose proof (outside_same_adaptive (fun w => let '(t, w) := q_clock w in (Ok t, w)) s) as Hm.
  unfold monotonic. destruct (outside _ s) as [[now|e] s1]; [|done]. unfold on_adaptive, modify. cbn in Hm.
  match goal with |- replay _ _ _ ?s = _ -> _ => set (s2 := s) end. intros H.
  pose proof (replay_same c 0 trials s2) as Hr. rewrite H in Hr. pose proof (replay_count _ _ _ _ _ _ _ H) as Hc.
  cbn in Hr. assert (ad_studies (rt_adaptive s') = od_set (ad_studies (rt_adaptive s)) (ad_id spec)
    (study_record (text_field controller "kind") space trials (start_mode s (ad_id spec)) now)) as E.
  { rewrite Hr. unfold s2. cbn. by rewrite Hm. }
  change (first_trials s (ad_id spec) (text_field controller "kind") space) with trials. split_and!; [by exists now|lia|lia|..].
  - apply Forall_forall. intros t Ht. unfold trials in Ht. case_bool_decide; [|by apply not_elem_of_nil in Ht].
    by apply selected_reusable in Ht as [? _].
  - intros id Hid. rewrite E, od_get_set_ne by done. done.
  - intros Em. unfold trials. rewrite Em. by rewrite bool_decide_eq_false_2 by set_solver.
Qed.
End studies.

(** ** A search on a supply *)
Module AdaptiveDemo.
#[local] Existing Instance plain_repr.
#[local] Existing Instance ScanDemo.turning.
#[local] Existing Instance RangesDemo.arith.
#[local] Existing Instance RangesDemo.syntax.
#[local] Existing Instance RangesDemo.spaces.
#[local] Existing Instance SequencerDemo.templates.

(** A learner that always asks for 99 *)
Definition package : AdaptivePackage Z :=
  mkPackage Z None (fun _ => false) (fun _ _ _ _ w => (Ok 0, w)) (fun _ w => (Ok (AskedPair [Point (PFloat (FFin 99))]), w))
    (fun _ _ _ w => (Ok tt, w)) None.

(** [read] returns one, [broken] and [ramp] are refused. *)
#[local] Instance lab : SequencerWorld Z := {|
  q_clock w := ((w # 100000)%Q, w + 1);
  q_call_device _ action _ w :=
    (Ok (if bool_decide (action ∈ ["broken"; "ramp"]) then [("ok", PBool false)]
         else [("ok", PBool true); ("result", PFloat (FFin 1))]), w);
  q_call_process := None;
  q_get_telemetry _ _ w := (Ok None, w);
  q_get_process_telemetry := None;
  q_set_stream_context _ _ _ _ w := (Ok tt, w);
  q_expect_streams := None;
  q_resolve_use := None;
  q_set_context := None;
  q_parallel := None;
  q_cancel _ w := w;
  q_getattr _ _ := None;
  q_adaptive := Some package
|}.

Definition controller : dict :=
  [("kind", PStr "adaptive.adaptive_grid_1d"); ("config", PDict [("loss", PDict [("kind", PStr "default")])])].
Definition space : dict := [("x", PDict [("type", PStr "float"); ("min", PInt 0); ("max", PInt 10)])].
Definition call_source (action : string) : pyval :=
  PDict [("kind", PStr "call"); ("config", PDict [("device", PStr "psu"); ("action", PStr action)])].
Definition output_source (id : string) : pyval :=
  PDict [("kind", PStr "analysis_output"); ("config", PDict [("workspace_id", PStr "w"); ("output_id", PStr id);
    ("require_current_context", PBool false)])].

(** Two trials of [body], observed as [metrics] say *)
Definition search (metrics : dict) (fail_on_trial_error : bool) (body : list step) : step :=
  AdaptiveStep (mkHeader 2 false)
    (mkAdaptive "tune" controller space [("x", "x")] None [("metrics", PDict metrics); ("score", if (length metrics =? 1)%nat then PNone else PInt 1)]
       (Some [("max_trials", PInt 2)]) None fail_on_trial_error) body.
Definition sequence (metrics : dict) (fail_on_trial_error : bool) (body : list step) : SequenceSpec :=
  mkSpec 1 [] [] [TryStep (mkHeader 1 false) [search metrics fail_on_trial_error body] [SequencerDemo.call 9 "off"]].
Definition begun (spec : SequenceSpec) : runtime Z := snd (start PNone PNone false PNone (snd (load spec [] (new_runtime 0)))).
Definition after (ops : list op) (s : runtime Z) : list dispatch * runtime Z := default ([], s) (run_ops ops s).
Definition ids (r : list dispatch * runtime Z) : list Z := (fun d => step_id (snd d)) <$> fst r.
Definition trials_of (s : runtime Z) : list dict :=
  match od_get (ad_studies (rt_adaptive s)) "tune" with
  | Some record => match dget record "trials" with
                   | PList l => omap (fun v => match v with PDict d => Some d | _ => None end) l
                   | _ => []
                   end
  | None => []
  end.
Definition ticks : list op := repeat (OpTick 50) 8.

(** The learner asks for 99, the body runs with 10, twice. *)
Definition tuned : list dispatch * runtime Z :=
  after ticks (begun (sequence [("a", call_source "read")] false [SequencerDemo.call 3 "set"])).
Example search_runs : ids tuned = [1; 2; 3; 3; 9] /\ rt_state (snd tuned) = STOPPED /\
  (fun t => (dget t "params", dget t "score")) <$> trials_of (snd tuned) =
    replicate 2 (PDict [("x", PFloat (FFin 10))], PFloat (FFin 1)).
Proof. by vm_compute. Qed.

(** A failing trial that is to end the run ends it at once: step 9 is the
    [finally] of the block around the search. *)
Definition broken : list dispatch * runtime Z :=
  after ticks (begun (sequence [("a", call_source "broken")] true [SequencerDemo.call 3 "set"])).
Example trial_error_skips_finally : ids broken = [1; 2; 3] /\ rt_state (snd broken) = ERROR.
Proof. by vm_compute. Qed.

(** A body that fails half-way is observed, scored and recorded all the same. *)
Definition cut : list dispatch * runtime Z :=
  after ticks (begun (sequence [("a", call_source "read")] false [SequencerDemo.call 3 "ramp"; SequencerDemo.call 4 "set"])).
Example interrupted_trial_counts : ids cut = [1; 2; 3; 9] /\ rt_state (snd cut) = ERROR /\
  (fun t => (dget t "ok", dget t "score")) <$> trials_of (snd cut) = [(PBool true, PFloat (FFin 1))].
Proof. by vm_compute. Qed.

(** Two outputs of an analysis: the trial ends when both are there at once, but
    not when the first one is looked at before the second arrives. *)
Definition output (id : string) : op :=
  OpOutput (PDict [("workspace_id", PStr "w"); ("output_id", PStr id); ("value", PInt 1)]).
Definition two_outputs : SequenceSpec :=
  sequence [("a", output_source "a"); ("b", output_source "b")] false [SequencerDemo.call 3 "set"].
Definition together : runtime Z := snd (after (ticks ++ [output "a"; output "b"] ++ ticks) (begun two_outputs)).
Definition one_by_one : runtime Z := snd (after (ticks ++ [output "a"] ++ ticks ++ [output "b"] ++ ticks) (begun two_outputs)).
Example early_output_is_lost : length (trials_of together) = 1%nat /\ length (trials_of one_by_one) = 0%nat /\
  ad_outputs (rt_adaptive one_by_one) = match output "b" with OpOutput (PDict d) => [d] | _ => [] end.
Proof. by vm_compute. Qed.

(** An integer may leave bounds that are no integers. *)
Example rounded_out_of_bounds :
  _coerce_adaptive_param "n" [("type", PStr "int"); ("min", PInt 0); ("max", PFloat (FFin (16 # 10)))] (PInt 5) = Ok (PInt 2).
Proof. by vm_compute. Qed.

(** Starting again replaces the run in progress: its [finally] is forgotten. *)
Definition restarted : runtime Z :=
  snd (start PNone PNone false PNone
    (snd (after [OpTick 50] (begun (sequence [("a", output_source "a")] false [SequencerDemo.call 3 "set"]))))).
Example restart_forgets_finally :
  cleanup (rt_stack (snd (after [OpTick 50] (begun (sequence [("a", output_source "a")] false [SequencerDemo.call 3 "set"])))))
    = [SequencerDemo.call 9 "off"] /\
  cleanup (rt_stack restarted) = [] /\ rt_state restarted = RUNNING.
Proof. by vm_compute. Qed.

(** A refused start has already replaced the run. *)
Example refused_start :
  let running := snd (after [OpTick 50] (begun (sequence [("a", output_source "a")] false [SequencerDemo.call 3 "set"]))) in
  let '(r, s) := start (PDict [("tune", PDict [("mode", PStr "again")])]) PNone false PNone running in
  match r with Ok _ => false | Err _ => true end = true /\ rt_run_id s = rt_run_id running + 1 /\ cleanup (rt_stack s) = [] /\
  rt_state s = RUNNING.
Proof. by vm_compute. Qed.

(** A [while] of a [finally] whose condition cannot be evaluated holds up the
    cleanup: each tick notes the error once more, and step 9 waits for ever. *)
Definition stuck : list dispatch * runtime Z :=
  after (repeat (OpTick 50) 20) (begun (mkSpec 1 [] []
    [TryStep (mkHeader 1 false) [SequencerDemo.call 2 "ramp"]
       [WhileStep (mkHeader 3 false) (PStr "${nope}") [SequencerDemo.call 4 "set"]; SequencerDemo.call 9 "off"]])).
Example cleanup_never_ends :
  ids stuck = [1; 2; 3] /\ rt_state (snd stuck) = RUNNING /\ (15 <= length (rt_cleanup_errors (snd stuck)))%nat.
Proof. split_and!; [by vm_compute..|]. apply Nat.leb_le. by vm_compute. Qed.

Lemma proposal_within_space_witness :
  _apply_adaptive_space space [("x", PFloat (FFin 99))] = Ok [("x", PFloat (FFin 10))] /\
  exists d, PDict [("type", PStr "float"); ("min", PInt 0); ("max", PInt 10)] = PDict d /\ allowed d (PFloat (FFin 10)).
Proof.
  assert (_apply_adaptive_space space [("x", PFloat (FFin 99))] = Ok [("x", PFloat (FFin 10))]) as E by (by vm_compute).
  split; [exact E|]. pose proof (proposal_within_space space _ _ E) as H. apply Forall2_cons in H as [[_ Ha] _]. exact Ha.
Defined.

Definition frame0 : adaptive_frame :=
  mkAdaptiveFrame (mkAdaptive "tune" controller space [] None [] None None false) "tune"
    (mkController "x" [] (FFin 0, FFin 10) 1 "learner1d" false [] "default" [] None 0 None false None 0) controller space 0 None 0 None 0.
Definition scored (scores : list pyval) : list dict := (fun v => [("score", v)]) <$> scores.
Definition some_trials : list dict := scored [PNone; PInt 2; PInt 5; PInt 5; PNone].

Lemma best_score_tracked_witness :
  af_best_score (tracked frame0 some_trials) = Some (FFin 5) /\ af_no_improve_trials (tracked frame0 some_trials) = 2 /\
  best_of false some_trials (Some (FFin 5)) 2.
Proof.
  split_and!; [by vm_compute|by vm_compute|].
  apply (best_score_tracked frame0 some_trials); [by vm_compute|by vm_compute|].
  intros t x Ht. unfold some_trials, scored in Ht. cbn in Ht.
  repeat (apply elem_of_cons in Ht as [->|Ht]; [by intros [= <-]|]). by apply not_elem_of_nil in Ht.
Defined.

(** The study goes on where it was: both trials fit, and are told again. *)
Definition resumed : runtime Z :=
  snd (start (PDict [("tune", PDict [("mode", PStr "resume")])]) PNone false PNone (snd tuned)).
Definition tune_spec : adaptive_spec :=
  mkAdaptive "tune" controller space [("x", "x")] None [] None None false.
Definition taken_over : list dict := first_trials resumed (ad_id tune_spec) (text_field controller "kind") space.
Lemma prepares : exists n c s', _prepare_adaptive_study tune_spec (af_controller frame0) controller space resumed = (Ok (n, c), s').
Proof.
  assert (match fst (_prepare_adaptive_study tune_spec (af_controller frame0) controller space resumed) with
          | Ok _ => true | Err _ => false end = true) as H by (by vm_compute).
  revert H. destruct (_prepare_adaptive_study _ _ _ _ _) as [[[n c]|e] s']; [|done]. intros _. by exists n, c, s'.
Qed.
Lemma two_taken_over : length taken_over = 2%nat.
Proof. by vm_compute. Qed.

Lemma study_prepared_witness : length taken_over = 2%nat /\ Forall (reusable space) taken_over.
Proof.
  split; [exact two_taken_over|]. destruct prepares as (n & c & s' & E).
  exact (proj1 (proj2 (proj2 (study_prepared tune_spec _ _ _ _ _ _ _ E)))).
Defined.
End AdaptiveDemo.
