(* ===== verification/RunForm.v ===== *)
(** * The run form of a sequence ([sequencer/run_form.py])

    The top-level [form:] block is checked against the declared variables when
    a sequence is loaded. *)
From S2P Require Import Prelude PyVal PyNum PyOps Expressions Conditions Responses ProcessBase.
#[local] Open Scope Z_scope.

Definition FIELD_TYPES : list string := ["checkbox"; "number"; "integer"; "text"; "select"; "chips"; "target"; "range"].
Definition _FORM_KEYS : list string := ["title"; "presets"; "summary"; "sections"].
Definition _SECTION_KEYS : list string := ["title"; "toggle"; "fields"; "wide"; "column"].
Definition SECTION_COLUMNS : list string := ["left"; "right"].
Definition _COMMON_FIELD_KEYS : list string := ["type"; "label"; "enabled_by"].
Definition _FIELD_KEYS : list (string * list string) :=
  [("checkbox", ["var"]);
   ("number", ["var"; "min"; "max"; "step"; "unit"]);
   ("integer", ["var"; "min"; "max"; "unit"]);
   ("text", ["var"]);
   ("select", ["var"; "options"; "options_call"; "empty_label"]);
   ("chips", ["var"; "options"; "includes"]);
   ("target", ["var"; "catalog"; "other"; "other_exclude"; "other_defaults"; "sets"]);
   ("range", ["target"; "relative"; "from"; "to"; "points"])].
Definition _OPTIONS_CALL_KEYS : list string := ["device"; "action"; "params"; "list"; "value"; "label"].

(** [for x in l: f(x)], where [f] may raise *)
Fixpoint check_all {A} (f : nat -> A -> result unit) (i : nat) (l : list A) : result unit :=
  match l with
  | [] => Ok tt
  | x :: rest => _ ← f i x; check_all f (S i) rest
  end.

(** The elements of a list *)
Definition indexed (where_ : string) (i : nat) : string := where_ +:+ "[" +:+ str_Z (Z.of_nat i) +:+ "]".

Section form.
Context `{HR : !PyRepr}.

Definition form_dict (value : pyval) (where_ : string) : result dict :=
  match value with PDict d => Ok d | _ => Err (TypeError (where_ +:+ " must be a dict")) end.

Definition form_keys (obj : dict) (where_ : string) (allowed : list string) : result unit :=
  match merge_sort String.le (filter (fun k => k ∉ allowed) (od_keys obj)) with
  | [] => Ok tt
  | unknown => Err (TypeError (where_ +:+ " has unknown key(s): " +:+ join ", " unknown))
  end.

Section vars.
Context (vars_map : dict).

Definition _check_var (name : pyval) (where_ : string) : result string :=
  match name with
  | PStr s =>
      if negb (nonempty (strip s)) then Err (TypeError (where_ +:+ " must name a var"))
      else if dhas vars_map s then Ok s
      else Err (TypeError (where_ +:+ " names " +:+ repr_str s +:+ ", which is not declared in vars"))
  | _ => Err (TypeError (where_ +:+ " must name a var"))
  end.
Definition check_var (where_ : string) (name : pyval) : result unit := _ ← _check_var name where_; Ok tt.

Definition _check_options (options : pyval) (where_ : string) : result unit :=
  match options with
  | PList l =>
      check_all (fun i option => match option with
                                 | PDict d => if dhas d "value" then Ok tt
                                              else Err (TypeError (indexed where_ i +:+ " must be a dict with a value"))
                                 | _ => Err (TypeError (indexed where_ i +:+ " must be a dict with a value"))
                                 end) 0 l
  | _ => Err (TypeError (where_ +:+ " must be a list of {value, label}"))
  end.

Definition all_text (v : pyval) : bool :=
  match v with PList l => forallb (fun x => match x with PStr _ => true | _ => false end) l | _ => false end.
Definition is_bool (v : pyval) : bool := match v with PBool _ => true | _ => false end.
(** A text that is not blank *)
Definition some_text (v : pyval) : bool := match v with PStr s => nonempty (strip s) | _ => false end.

Definition check_target (obj : dict) (where_ : string) : result unit :=
  catalog ← _check_var (dget obj "catalog") (where_ +:+ ".catalog");
  match dget vars_map catalog with
  | PList _ =>
      if negb (is_bool (dget_or obj "other" (PBool true))) then Err (TypeError (where_ +:+ ".other must be true or false"))
      else if negb (all_text (dget_or obj "other_exclude" (PList []))) then
        Err (TypeError (where_ +:+ ".other_exclude must be a list of device ids"))
      else
        _ ← form_dict (dget_or obj "other_defaults" (PDict [])) (where_ +:+ ".other_defaults");
        sets ← form_dict (dget_or obj "sets" (PDict [])) (where_ +:+ ".sets");
        check_all (fun _ '(name, key) =>
          _ ← _check_var (PStr name) (where_ +:+ ".sets");
          if some_text key then Ok tt else Err (TypeError (where_ +:+ ".sets." +:+ name +:+ " must name a target key"))) 0 sets
  | _ => Err (TypeError (where_ +:+ ".catalog " +:+ repr_str catalog +:+ " must be a list of targets"))
  end.

Definition check_options_call (obj : dict) (where_ : string) : result unit :=
  if dhas obj "options" then Err (TypeError (where_ +:+ " sets both options and options_call"))
  else
    call ← form_dict (dget obj "options_call") (where_ +:+ ".options_call");
    _ ← form_keys call (where_ +:+ ".options_call") _OPTIONS_CALL_KEYS;
    check_all (fun _ key => if some_text (dget call key) then Ok tt
                            else Err (TypeError (where_ +:+ ".options_call." +:+ key +:+ " must be a non-empty string")))
      0 ["device"; "action"].

(** The checks of a field of a known kind *)
Definition check_kind (kind : string) (obj : dict) (where_ : string) : result unit :=
  if String.eqb kind "range" then
    check_all (fun _ key => check_var (where_ +:+ "." +:+ key) (dget obj key)) 0 ["target"; "relative"; "from"; "to"; "points"]
  else
    _ ← _check_var (dget obj "var") (where_ +:+ ".var");
    _ ← (if String.eqb kind "target" then check_target obj where_ else Ok tt);
    _ ← (if String.eqb kind "chips" && dhas obj "includes" then check_var (where_ +:+ ".includes") (dget obj "includes") else Ok tt);
    _ ← (if String.eqb kind "chips" || (String.eqb kind "select" && negb (dhas obj "options_call")) then
           options ← _check_var (dget obj "options") (where_ +:+ ".options");
           _check_options (dget vars_map options) (where_ +:+ ".options (" +:+ options +:+ ")")
         else Ok tt);
    if String.eqb kind "select" && dhas obj "options_call" then check_options_call obj where_ else Ok tt.

(** The kind of a field *)
Definition field_kind (obj : dict) : option string :=
  match dget obj "type" with PStr k => if bool_decide (k ∈ FIELD_TYPES) then Some k else None | _ => None end.

Definition _check_field (field : pyval) (where_ : string) : result (string * dict) :=
  obj ← form_dict field where_;
  match field_kind obj with
  | None => Err (TypeError (where_ +:+ ".type must be one of " +:+ join ", " FIELD_TYPES +:+ ", got " +:+ repr (dget obj "type")))
  | Some kind =>
      _ ← form_keys obj where_ (_COMMON_FIELD_KEYS ++ default [] (od_get _FIELD_KEYS kind));
      _ ← (if dhas obj "enabled_by" then check_var (where_ +:+ ".enabled_by") (dget obj "enabled_by") else Ok tt);
      _ ← check_kind kind obj where_;
      Ok (kind, obj)
  end.

(** The fields of a section: what is scanned, and what moves it *)
Fixpoint check_fields (where_ : string) (i : nat) (fields : list pyval) (targets ranges : list pyval)
    : result (list pyval * list pyval) :=
  match fields with
  | [] => Ok (targets, ranges)
  | field :: rest =>
      '(kind, obj) ← _check_field field (indexed (where_ +:+ ".fields") i);
      if String.eqb kind "target" then check_fields where_ (S i) rest (targets ++ [dget obj "var"]) ranges
      else if String.eqb kind "range" then check_fields where_ (S i) rest targets (ranges ++ [dget obj "target"])
      else check_fields where_ (S i) rest targets ranges
  end.

Definition check_section (where_ : string) (section_raw : pyval) (targets ranges : list pyval) : result (list pyval * list pyval) :=
  section ← form_dict section_raw where_;
  _ ← form_keys section where_ _SECTION_KEYS;
  _ ← (if dhas section "toggle" then check_var (where_ +:+ ".toggle") (dget section "toggle") else Ok tt);
  _ ← (if dhas section "wide" && negb (is_bool (dget section "wide")) then Err (TypeError (where_ +:+ ".wide must be true or false"))
       else Ok tt);
  _ ← (if dhas section "column" then
         if negb (match dget section "column" with PStr c => bool_decide (c ∈ SECTION_COLUMNS) | _ => false end) then
           Err (TypeError (where_ +:+ ".column must be one of " +:+ join ", " SECTION_COLUMNS))
         else if match dget section "wide" with PBool true => true | _ => false end then
           Err (TypeError (where_ +:+ " sets both wide and column"))
         else Ok tt
       else Ok tt);
  match dget section "fields" with
  | PList (f :: fields) => check_fields where_ 0 (f :: fields) targets ranges
  | _ => Err (TypeError (where_ +:+ ".fields must be a non-empty list"))
  end.

Fixpoint check_sections (i : nat) (sections : list pyval) (targets ranges : list pyval) : result (list pyval * list pyval) :=
  match sections with
  | [] => Ok (targets, ranges)
  | raw :: rest =>
      '(targets, ranges) ← check_section (indexed "form.sections" i) raw targets ranges;
      check_sections (S i) rest targets ranges
  end.

Definition check_preset (i : nat) (preset_raw : pyval) : result unit :=
  let where_ := indexed "form.presets" i in
  preset ← form_dict preset_raw where_;
  _ ← form_keys preset where_ ["label"; "set"];
  set ← form_dict (dget preset "set") (where_ +:+ ".set");
  check_all (fun _ name => check_var (where_ +:+ ".set") (PStr name)) 0 (od_keys set).

Definition check_summary (i : nat) (item_raw : pyval) : result unit :=
  let where_ := indexed "form.summary" i in
  item ← form_dict item_raw where_;
  _ ← form_keys item where_ ["label"; "product"];
  match dget item "label", dget item "product" with
  | PStr _, PList (p :: product) => check_all (fun _ name => check_var (where_ +:+ ".product") name) 0 (p :: product)
  | PStr _, _ => Err (TypeError (where_ +:+ ".product must be a non-empty list of vars"))
  | _, _ => Err (TypeError (where_ +:+ ".label must be a string"))
  end.

(** At most one target, at most one range, and the range moves the target. *)
Definition check_target_range (targets ranges : list pyval) : result unit :=
  if (1 <? length targets)%nat then Err (TypeError "form has more than one target field")
  else if (1 <? length ranges)%nat then Err (TypeError "form has more than one range field")
  else
    match ranges with
    | r :: _ =>
        if existsb (py_eqb r) targets then Ok tt
        else Err (TypeError ("form range field's target " +:+ repr r +:+ " must name the form's target field var"))
    | [] => Ok tt
    end.

Definition validate_run_form (raw : pyval) : result dict :=
  form ← form_dict raw "form";
  _ ← form_keys form "form" _FORM_KEYS;
  match dget form "sections" with
  | PList (s :: sections) =>
      '(targets, ranges) ← check_sections 0 (s :: sections) [] [];
      _ ← check_target_range targets ranges;
      presets ← py_iter (py_or (dget_or form "presets" (PList [])) (PList []));
      _ ← check_all check_preset 0 presets;
      match dget_or form "summary" (PList []) with
      | PList summary => _ ← check_all check_summary 0 summary; Ok form
      | _ => Err (TypeError "form.summary must be a list of {label, product}")
      end
  | _ => Err (TypeError "form.sections must be a non-empty list")
  end.
End vars.
End form.
