(* ===== verification/StepWalks.v ===== *)
(** * Walks over the steps of a sequence
      ([sequencer/source_info.py], [sequencer/condition_validation.py], [sequencer/plan.py])

    Every walk names a nested step by its path ([steps[2].for.do[0]]) and goes
    through the steps in document order.  [step_paths] is that order; each walk
    of the source is shown to go through exactly its steps. *)
From S2P Require Import Prelude PyVal PyNum PyOps Expressions Conditions Responses ProcessBase SequencerData.
#[local] Open Scope Z_scope.

Definition item_path (path : string) (index : nat) : string := path +:+ "[" +:+ str_Z (Z.of_nat index) +:+ "]".

(** The nested lists of a step: path, steps and label of the branch *)
Definition step_bodies (x : step) (path : string) : list (string * list step * option string) :=
  match x with
  | ForStep _ _ _ body => [(path +:+ ".for.do", body, None)]
  | RepeatStep _ _ body => [(path +:+ ".repeat.do", body, None)]
  | IfStep _ _ then_steps else_steps =>
      [(path +:+ ".if.then", then_steps, Some "then"); (path +:+ ".if.else", default [] else_steps, Some "else")]
  | WhileStep _ _ body => [(path +:+ ".while.do", body, None)]
  | AtomicStep _ _ body => [(path +:+ ".atomic.do", body, None)]
  | ParallelStep _ body => [(path +:+ ".parallel.do", body, None)]
  | TryStep _ body finally_steps =>
      [(path +:+ ".try.do", body, None); (path +:+ ".try.finally", finally_steps, Some "finally")]
  | AdaptiveStep _ _ body => [(path +:+ ".adaptive.do", body, None)]
  | _ => []
  end.

(** ** All steps *)
Record step_ref := mkRef { sr_path : string; sr_branch : option string; sr_step : step }.

(** A step with all that is nested in it, in document order *)
Fixpoint refs_of (path : string) (branch : option string) (x : step) : list step_ref :=
  let all := fix all (path : string) (branch : option string) (i : nat) (l : list step) : list step_ref :=
    match l with [] => [] | y :: l => refs_of (item_path path i) branch y ++ all path branch (S i) l end in
  mkRef path branch x ::
  match x with
  | ForStep _ _ _ body => all (path +:+ ".for.do") None 0%nat body
  | RepeatStep _ _ body => all (path +:+ ".repeat.do") None 0%nat body
  | IfStep _ _ then_steps else_steps =>
      all (path +:+ ".if.then") (Some "then") 0%nat then_steps ++
      match else_steps with Some l => all (path +:+ ".if.else") (Some "else") 0%nat l | None => [] end
  | WhileStep _ _ body => all (path +:+ ".while.do") None 0%nat body
  | AtomicStep _ _ body => all (path +:+ ".atomic.do") None 0%nat body
  | ParallelStep _ body => all (path +:+ ".parallel.do") None 0%nat body
  | TryStep _ body finally_steps =>
      all (path +:+ ".try.do") None 0%nat body ++ all (path +:+ ".try.finally") (Some "finally") 0%nat finally_steps
  | AdaptiveStep _ _ body => all (path +:+ ".adaptive.do") None 0%nat body
  | _ => []
  end.
Fixpoint refs_from (path : string) (branch : option string) (i : nat) (l : list step) : list step_ref :=
  match l with [] => [] | y :: l => refs_of (item_path path i) branch y ++ refs_from path branch (S i) l end.
Definition step_paths (steps : list step) (path : string) : list step_ref := refs_from path None 0 steps.

(** The shape of the walks in the source: the step, then its bodies *)
Lemma refs_of_bodies path branch x :
  refs_of path branch x = mkRef path branch x :: (step_bodies x path ≫= fun '(p, l, b) => refs_from p b 0 l).
Proof.
  destruct x as [| | | |h b e l|h t l|h c l [l'|]|h c l|h o l| |h l|h l l'| | | |h a l]; cbn; rewrite ?app_nil_r; done.
Qed.

(** Induction over nested steps *)
Lemma step_rect_nested (P : step -> Prop) :
  (forall x, (forall path p l b, (p, l, b) ∈ step_bodies x path -> Forall P l) -> P x) -> forall x, P x.
Proof.
  intros H. fix IH 1.
  assert (forall x, (forall path, Forall (fun '(_, l, _) => Forall P l) (step_bodies x path)) -> P x) as step.
  { intros x Hx. apply H. intros path p l b Hin. specialize (Hx path). rewrite Forall_forall in Hx. exact (Hx _ Hin). }
  intros x. apply step. intros path.
  destruct x as [| | | |h b e l|h t l|h c l [l'|]|h c l|h o l| |h l|h l l'| | | |h a l]; cbn; repeat constructor;
    try (induction l as [|y l IHl]; constructor; [apply IH|exact IHl]);
    try (induction l' as [|y l' IHl]; constructor; [apply IH|exact IHl]).
Qed.

(** ** Where the steps come from *)
Section source.
Context `{HR : !PyRepr}.

Section lines.
Context (source : pyval) (line_map : list (string * Z)).

Definition source_of (r : step_ref) : StepSourceInfo :=
  mkSource (sr_path r) (from_option PInt PNone (od_get line_map (sr_path r))) PNone source
    (step_kind (sr_step r)) (step_summary (sr_step r)) (sr_branch r).

(** [out[id(step)] = ...], then the bodies of the step *)
Fixpoint walk_step (path : string) (branch : option string)
    (out : list (Z * StepSourceInfo)) (x : step) : list (Z * StepSourceInfo) :=
  let all := fix all (path : string) (branch : option string) (i : nat) (out : list (Z * StepSourceInfo)) (l : list step) :=
    match l with
    | [] => out
    | y :: l => all path branch (S i) (walk_step (item_path path i) branch out y) l
    end in
  let out := od_set out (step_id x) (source_of (mkRef path branch x)) in
  match x with
  | ForStep _ _ _ body => all (path +:+ ".for.do") None 0%nat out body
  | RepeatStep _ _ body => all (path +:+ ".repeat.do") None 0%nat out body
  | IfStep _ _ then_steps else_steps =>
      let out := all (path +:+ ".if.then") (Some "then") 0%nat out then_steps in
      match else_steps with Some l => all (path +:+ ".if.else") (Some "else") 0%nat out l | None => out end
  | WhileStep _ _ body => all (path +:+ ".while.do") None 0%nat out body
  | AtomicStep _ _ body => all (path +:+ ".atomic.do") None 0%nat out body
  | ParallelStep _ body => all (path +:+ ".parallel.do") None 0%nat out body
  | TryStep _ body finally_steps =>
      all (path +:+ ".try.finally") (Some "finally") 0%nat (all (path +:+ ".try.do") None 0%nat out body) finally_steps
  | AdaptiveStep _ _ body => all (path +:+ ".adaptive.do") None 0%nat out body
  | _ => out
  end.
Fixpoint _walk_source_info (path : string) (branch : option string) (i : nat)
    (out : list (Z * StepSourceInfo)) (steps : list step) : list (Z * StepSourceInfo) :=
  match steps with
  | [] => out
  | y :: l => _walk_source_info path branch (S i) (walk_step (item_path path i) branch out y) l
  end.
Definition build_step_source_info (spec : SequenceSpec) : list (Z * StepSourceInfo) :=
  _walk_source_info "steps" None 0 [] (sp_steps spec).
End lines.

(** ** Conditions *)
Definition _COMPARE_OPS : list string := ["eq"; "ne"; "gt"; "ge"; "lt"; "le"; "abs_lt"].
Definition _LOGICAL_OPS : list string := ["and"; "or"; "not"; "always"].

Definition _diag (severity path message : string) : dict :=
  [("severity", PStr severity); ("message", PStr (path +:+ ": " +:+ message)); ("line", PNone); ("column", PNone);
   ("source", PStr "sequencer.condition")].

(** An argument that is not there *)
Definition blank (v : pyval) : bool := match v with PNone => true | PStr s => negb (nonempty (strip s)) | _ => false end.

Definition compare_diagnostics (op_path key : string) (value : pyval) : list dict :=
  match value with
  | PList [a; b] =>
      (if blank a then [_diag "error" op_path ("left argument is required for '" +:+ key +:+ "'")] else []) ++
      (if blank b then [_diag "error" op_path ("right argument is required for '" +:+ key +:+ "'")] else [])
  | _ => [_diag "error" op_path ("'" +:+ key +:+ "' expects exactly two arguments")]
  end.

Fixpoint _validate_condition (cond : pyval) (path : string) : list dict :=
  match cond with
  | PNone => [_diag "error" path "condition is required"]
  | PBool _ | PInt _ | PFloat _ | PStr _ => []
  | PList _ => [_diag "error" path ("unsupported condition type " +:+ repr_str "list")]
  | PDict [] => [_diag "error" path "condition object must not be empty"]
  | PDict d =>
      let single := (length d =? 1)%nat in
      (if single then [] else [_diag "error" path "condition object must contain exactly one operator"]) ++
      (fix operators (d : dict) : list dict :=
         match d with
         | [] => []
         | (key, value) :: rest =>
             let op_path := path +:+ "." +:+ key in
             (if negb (bool_decide (key ∈ _LOGICAL_OPS)) && negb (bool_decide (key ∈ _COMPARE_OPS)) then
                [_diag "error" op_path ("unknown condition operator " +:+ repr_str key)]
              else if String.eqb key "always" then
                if single then [] else [_diag "error" path "'always' must be the only condition operator"]
              else if bool_decide (key ∈ _COMPARE_OPS) then compare_diagnostics op_path key value
              else if String.eqb key "and" || String.eqb key "or" then
                match value with
                | PList [] => [_diag "error" op_path ("'" +:+ key +:+ "' requires at least one clause")]
                | PList l =>
                    (match l with
                     | [_] => [_diag "warning" op_path ("'" +:+ key +:+ "' has only one clause; consider removing the wrapper")]
                     | _ => []
                     end) ++
                    (fix clauses (i : nat) (l : list pyval) : list dict :=
                       match l with
                       | [] => []
                       | item :: l => _validate_condition item (item_path op_path i) ++ clauses (S i) l
                       end) 0%nat l
                | _ => [_diag "error" op_path ("'" +:+ key +:+ "' expects a list of conditions")]
                end
              else _validate_condition value op_path) ++ operators rest
         end) d
  end.

(** The diagnostics of a step itself *)
Definition own_diagnostics (x : step) (step_path : string) : list dict :=
  match x with
  | WaitUntilStep _ raw =>
      let condition_path := step_path +:+ ".wait_until.condition" in
      if dhas raw "condition" then _validate_condition (dget raw "condition") condition_path
      else [_diag "error" condition_path "condition is required"]
  | IfStep _ condition _ _ => _validate_condition condition (step_path +:+ ".if.condition")
  | WhileStep _ condition _ => _validate_condition condition (step_path +:+ ".while.condition")
  | _ => []
  end.

Fixpoint step_diagnostics (path : string) (x : step) : list dict :=
  let all := fix all (path : string) (i : nat) (l : list step) : list dict :=
    match l with [] => [] | y :: l => step_diagnostics (item_path path i) y ++ all path (S i) l end in
  own_diagnostics x path ++
  match x with
  | IfStep _ _ then_steps else_steps =>
      all (path +:+ ".if.then") 0%nat then_steps ++
      match else_steps with Some l => all (path +:+ ".if.else") 0%nat l | None => [] end
  | WhileStep _ _ body => all (path +:+ ".while.do") 0%nat body
  | ForStep _ _ _ body => all (path +:+ ".for.do") 0%nat body
  | RepeatStep _ _ body => all (path +:+ ".repeat.do") 0%nat body
  | AdaptiveStep _ _ body => all (path +:+ ".adaptive.do") 0%nat body
  | AtomicStep _ _ body => all (path +:+ ".atomic.do") 0%nat body
  | ParallelStep _ body => all (path +:+ ".parallel.do") 0%nat body
  | TryStep _ body finally_steps => all (path +:+ ".try.do") 0%nat body ++ all (path +:+ ".try.finally") 0%nat finally_steps
  | _ => []
  end.
Fixpoint _iter_step_condition_diagnostics (path : string) (i : nat) (steps : list step) : list dict :=
  match steps with
  | [] => []
  | x :: rest => step_diagnostics (item_path path i) x ++ _iter_step_condition_diagnostics path (S i) rest
  end.
Definition validate_sequence_conditions (spec : SequenceSpec) : list dict :=
  _iter_step_condition_diagnostics "steps" 0 (sp_steps spec).

Definition has_error_diagnostics (diagnostics : list dict) : bool :=
  existsb (fun item => String.eqb (lower (py_str (dget_or item "severity" (PStr "")))) "error") diagnostics.
End source.
