(* ===== verification/SequenceParser.v ===== *)
(** * The parser of sequences ([sequencer/ast.py])

    From the data of a YAML document to the steps the runtime executes.  The
    parser recurses on the nesting of the document: its fuel is one unit per
    level, and [parse_sequence] takes the depth of the document, which
    [ParserTheorems] shows is enough.  The state is the number of step objects
    made so far, which names the next one. *)
From S2P Require Import Prelude PyVal PyNum PyOps Expressions Conditions Responses ProcessBase Ranges.
From S2P Require Import SequencerData SequencerCore SequencerValues SequencerParallel SequencerGate RunForm StepWalks.
#[local] Open Scope Z_scope.

(** [difflib.get_close_matches(word, kinds, n=1, cutoff=0.5)] *)
Class LooseMatches := { loose_matches : string -> list string -> list string }.

Definition SEQUENCER_RUN_ID_FIELD : string := "sequencer_run_id".
Definition EXTRACTOR_KINDS : list string := ["scalar"; "index"; "key"; "attr"].

(** Step kinds in detection order *)
Definition _STEP_KINDS : list string :=
  ["call"; "set"; "sleep"; "wait_until"; "for"; "repeat"; "if"; "while"; "atomic"; "pause"; "parallel"; "try"; "assign";
   "set_context"; "use"; "adaptive"].
Definition _STEP_EXTRA_KEYS : list (string * list string) := [("call", ["save_as"; "extract"; "assign"])].
Definition _STEP_INNER_KEYS : list (string * list string) :=
  [("call", ["device"; "process"; "action"; "params"]);
   ("set", ["device"; "name"; "value"]);
   ("wait_until", ["timeout_s"; "every_s"; "stable_for_s"; "sample"; "condition"; "reduce"]);
   ("for", ["bind"; "in"; "do"]);
   ("repeat", ["times"; "do"]);
   ("if", ["condition"; "then"; "else"]);
   ("while", ["condition"; "do"]);
   ("atomic", ["name"; "do"]);
   ("pause", ["reason"]);
   ("parallel", ["do"]);
   ("try", ["do"; "finally"]);
   ("set_context", ["streams"; "fields"]);
   ("use", ["id"; "args"]);
   ("adaptive", ["id"; "controller"; "space"; "bind"; "state"; "observe"; "stopping"; "constraints"; "do"; "fail_on_trial_error"])].
Definition _REDUCE_KEYS : list string := ["method"; "window_s"; "max_samples"].
Definition _TOP_LEVEL_KEYS : list string := ["version"; "meta"; "vars"; "context_columns"; "requires"; "form"; "steps"].
Definition _REQUIRES_KNOWN_KEYS : list string := ["watchdog_ids"; "hdf_writing"].

(** The errors that already name their step: [SequenceParseError] *)
Definition is_parse_error (e : pyexc) : bool := match e with SequenceParseError _ _ => true | _ => false end.

Definition _require_dict (raw : pyval) (name : string) : result dict :=
  match raw with PDict d => Ok d | _ => Err (TypeError (name +:+ " must be a dict")) end.
Definition _require_list (raw : pyval) (name : string) : result (list pyval) :=
  match raw with PList l => Ok l | _ => Err (TypeError (name +:+ " must be a list")) end.

Section parser.
Context `{HR : !PyRepr, HE : !PyExpr, HL : !LooseMatches}.

(** ** Keys *)
Definition _check_keys (obj : dict) (owner : string) (allowed misplaced : list string) (hint : string -> string) : result unit :=
  match list_find (fun k => k ∉ allowed) (od_keys obj) with
  | None => Ok tt
  | Some (_, key) =>
      Err (TypeError (unknown_key_message owner key allowed (if bool_decide (key ∈ misplaced) then Some (hint key) else None)))
  end.

Definition _detect_step_kind (obj : dict) : result string :=
  match list_find (fun kind => dhas obj kind = true) _STEP_KINDS with
  | Some (_, kind) => Ok kind
  | None =>
      match filter (fun k => k <> "disabled") (od_keys obj) with
      | [] => Err (TypeError ("step has no kind; use one of: " +:+ join ", " _STEP_KINDS))
      | first :: _ =>
          let hint := match loose_matches first _STEP_KINDS with
                      | close :: _ => " (did you mean " +:+ repr_str close +:+ "?)"
                      | [] => ""
                      end in
          Err (TypeError ("Unknown step kind " +:+ repr_str first +:+ hint +:+ ". Valid step kinds: " +:+ join ", " _STEP_KINDS))
      end
  end.

Definition _validate_step_keys (obj : dict) (kind : string) : result unit :=
  let extras := default [] (od_get _STEP_EXTRA_KEYS kind) in
  let step_keys := kind :: "disabled" :: extras in
  match list_find (fun k => k ∉ step_keys) (od_keys obj) with
  | Some (_, key) =>
      let hint := if bool_decide (key ∈ _STEP_KINDS)
                  then Some (repr_str key +:+ " is a step kind of its own and cannot be combined with " +:+ repr_str kind +:+
                             "; put it in a separate step")
                  else None in
      Err (TypeError (unknown_key_message (kind +:+ " step") key step_keys hint))
  | None =>
      match dget obj kind with
      | PDict body =>
          _ ← match od_get _STEP_INNER_KEYS kind with
              | Some inner =>
                  _check_keys body kind inner extras
                    (fun key => repr_str key +:+ " belongs next to " +:+ repr_str kind +:+ ", not inside it")
              | None => Ok tt
              end;
          if String.eqb kind "wait_until" then
            match dget body "reduce" with
            | PDict reduce => _check_keys reduce "wait_until.reduce" _REDUCE_KEYS [] (fun _ => "")
            | _ => Ok tt
            end
          else Ok tt
      | _ => Ok tt
      end
  end.

Definition _parse_disabled (obj : dict) : bool := truthy (dget_or obj "disabled" (PBool false)).

(** [kind in EXTRACTOR_KINDS] *)
Definition is_extractor_kind (v : pyval) : bool := match v with PStr k => bool_decide (k ∈ EXTRACTOR_KINDS) | _ => false end.

Definition _validate_extractor (spec : dict) (name : string) : result unit :=
  let kind := dget_or spec "kind" (PStr "scalar") in
  if negb (is_extractor_kind kind) then
    Err (TypeError (name +:+ ".kind must be one of " +:+ join ", " EXTRACTOR_KINDS +:+ ", got " +:+ repr kind))
  else if is_str kind "scalar" then Ok tt
  else
    match dget spec "ref" with
    | PNone => Err (TypeError (name +:+ ".ref is required for kind " +:+ repr kind))
    | PStr _ => Ok tt
    | _ => if is_str kind "attr" then Err (TypeError (name +:+ ".ref must be a string for kind 'attr'")) else Ok tt
    end.

(** ** Steps without a body

    A step but for its identity and its [disabled] flag. *)
#[local] Abbreviation built := (step_header -> step).

(** [str(d.get(k, ""))] *)
Definition text_of (d : dict) (k : string) : string := py_str (dget_or d k (PStr "")).

Definition optional_dict_of (v : pyval) (message : string) : result (option dict) :=
  match v with PNone => Ok None | PDict d => Ok (Some d) | _ => Err (TypeError message) end.

Fixpoint validate_assign (assign : dict) : result unit :=
  match assign with
  | [] => Ok tt
  | (key, PDict spec) :: rest => _ ← _validate_extractor spec ("assign." +:+ key); validate_assign rest
  | _ :: rest => validate_assign rest
  end.

Definition str_opt (v : pyval) : option string := match v with PNone => None | _ => Some (py_str v) end.

Definition parse_call (obj : dict) : result built :=
  call ← _require_dict (dget obj "call") "call";
  let device := text_of call "device" in
  let process := text_of call "process" in
  let action := text_of call "action" in
  if nonempty device && nonempty process then Err (TypeError "call may set only one of device / process")
  else if negb (nonempty device) && negb (nonempty process) then Err (TypeError "call.device or call.process is required")
  else if negb (nonempty action) then Err (TypeError "call.action is required")
  else
    match py_or (dget_or call "params" (PDict [])) (PDict []) with
    | PDict params =>
        extract ← optional_dict_of (dget obj "extract") "extract must be a dict";
        assign ← optional_dict_of (dget obj "assign") "assign must be a dict";
        _ ← match extract with Some e => _validate_extractor e "extract" | None => Ok tt end;
        _ ← validate_assign (default [] assign);
        Ok (fun h => CallStep h device action params (str_opt (dget obj "save_as")) extract assign (or_none process))
    | _ => Err (TypeError "call.params must be a dict")
    end.

Definition parse_set (obj : dict) : result built :=
  val ← _require_dict (dget obj "set") "set";
  let device := text_of val "device" in
  let name := text_of val "name" in
  if negb (nonempty device) || negb (nonempty name) then Err (TypeError "set.device and set.name are required")
  else Ok (fun h => SetStep h device name (dget val "value")).

Definition parse_wait_until (obj : dict) : result built :=
  w ← _require_dict (dget obj "wait_until") "wait_until";
  Ok (fun h => WaitUntilStep h w).

Definition parse_pause (obj : dict) : result built :=
  let reason := match dget obj "pause" with PDict d => dget d "reason" | v => v end in
  Ok (fun h => PauseStep h (str_opt reason)).

Definition parse_assign (obj : dict) : result built :=
  match dget obj "assign" with
  | PDict values => Ok (fun h => AssignStep h values)
  | _ => Err (TypeError "assign must be a dict")
  end.

Definition parse_set_context (obj : dict) : result built :=
  sc ← _require_dict (dget obj "set_context") "set_context";
  match py_or (dget_or sc "fields" (PDict [])) (PDict []) with
  | PDict fields =>
      if dhas fields SEQUENCER_RUN_ID_FIELD then
        Err (TypeError ("set_context.fields must not set " +:+ repr_str SEQUENCER_RUN_ID_FIELD +:+
                        ": it is reserved and injected automatically by the sequencer runtime"))
      else Ok (fun h => SetContextStep h (dget_or sc "streams" (PList [])) fields)
  | _ => Err (TypeError "set_context.fields must be a dict")
  end.

Definition parse_use (obj : dict) : result built :=
  '(sequence_id, args) ←
    match dget obj "use" with
    | PStr s => Ok (strip s, None)
    | PDict raw_use =>
        match dget raw_use "args" with
        | PNone => Ok (strip (text_of raw_use "id"), None)
        | PDict args => Ok (strip (text_of raw_use "id"), Some args)
        | _ => Err (TypeError "use.args must be a dict")
        end
    | _ => Err (TypeError "use must be a string id or a dict")
    end;
  if negb (nonempty sequence_id) then Err (TypeError "use.id is required")
  else Ok (fun h => UseStep h sequence_id args).

(** The names a loop or a search binds *)
Fixpoint bind_entries (owner : string) (raw : dict) (bind : list (string * string)) : result (list (string * string)) :=
  match raw with
  | [] => Ok bind
  | (raw_key, raw_value) :: rest =>
      let key := strip raw_key in
      let value := strip (py_str raw_value) in
      if negb (nonempty key) || negb (nonempty value) then Err (TypeError (owner +:+ ".bind entries must map non-empty names"))
      else bind_entries owner rest (od_set bind key value)
  end.

Definition for_bind (raw : pyval) : result (list (string * string)) :=
  bind ← match raw with
         | PStr s => if nonempty (strip s) then Ok [("value", strip s)] else Err (TypeError "for.bind must not be empty")
         | PDict d => bind_entries "for" d []
         | _ => Err (TypeError "for.bind is required")
         end;
  match bind with [] => Err (TypeError "for.bind must not be empty") | _ => Ok bind end.

Definition validate_in (in_expr : pyval) : result unit :=
  match in_expr with
  | PDict d => match dget d "gen" with PDict gen => validate_gen_keys gen | _ => Ok tt end
  | _ => Ok tt
  end.

(** An adaptive step but for its body *)
Definition parse_adaptive_spec (raw_step : dict) : result adaptive_spec :=
  let step_id := strip (text_of raw_step "id") in
  if negb (nonempty step_id) then Err (TypeError "adaptive.id is required")
  else
    controller ← _require_dict (dget raw_step "controller") "adaptive.controller";
    space ← _require_dict (dget raw_step "space") "adaptive.space";
    bind_raw ← _require_dict (dget raw_step "bind") "adaptive.bind";
    bind ← bind_entries "adaptive" bind_raw [];
    match bind with
    | [] => Err (TypeError "adaptive.bind must not be empty")
    | _ =>
        state ← optional_dict_of (dget raw_step "state") "adaptive.state must be a dict";
        observe ← _require_dict (dget raw_step "observe") "adaptive.observe";
        stopping ← optional_dict_of (dget raw_step "stopping") "adaptive.stopping must be a dict";
        constraints ← match dget raw_step "constraints" with
                      | PNone => Ok None
                      | PList l => Ok (Some l)
                      | _ => Err (TypeError "adaptive.constraints must be a list")
                      end;
        Ok (mkAdaptive step_id controller space bind state observe stopping constraints
              (truthy (dget_or raw_step "fail_on_trial_error" (PBool false))))
    end.

(** ** Steps with bodies *)
#[local] Abbreviation L := (pyL Z).

Definition new_id : L Z := up (fun n => (Ok n, n + 1)).

(** [except SequenceParseError: raise], [except (TypeError, ValueError)] *)
Definition located {A} (step_path : string) (m : L A) : L A :=
  except m (fun e => up (raise (if is_parse_error e || negb (type_or_value_error e) then e
                                else SequenceParseError (step_path +:+ ": " +:+ exc_str e) step_path))).


Section steps.
Context (_parse_step : pyval -> string -> L step).

Fixpoint parse_items (path : string) (index : nat) (items : list pyval) : L (list step) :=
  match items with
  | [] => mret []
  | item :: rest =>
      let step_path := item_path path index in
      x ← located step_path (_parse_step item step_path);
      xs ← parse_items path (S index) rest;
      mret (x :: xs)
  end.

Definition _parse_steps (raw : pyval) (path : string) : L (list step) :=
  items ← up (lift (_require_list raw (default path (last (py_split "." path)))));
  parse_items path 0 items.

Definition parse_for (obj : dict) (path : string) : L built :=
  f ← up (lift (_require_dict (dget obj "for") "for"));
  bind ← up (lift (for_bind (dget f "bind")));
  _ ← up (lift (validate_in (dget f "in")));
  body ← _parse_steps (dget_or f "do" (PList [])) (path +:+ ".for.do");
  mret (fun h => ForStep h bind (dget f "in") body).

Definition parse_repeat (obj : dict) (path : string) : L built :=
  rep ← up (lift (_require_dict (dget obj "repeat") "repeat"));
  body ← _parse_steps (dget_or rep "do" (PList [])) (path +:+ ".repeat.do");
  mret (fun h => RepeatStep h (dget_or rep "times" (PInt 1)) body).

Definition parse_if (obj : dict) (path : string) : L built :=
  cond ← up (lift (_require_dict (dget obj "if") "if"));
  then_steps ← _parse_steps (dget_or cond "then" (PList [])) (path +:+ ".if.then");
  else_steps ← match dget cond "else" with
               | PNone => mret None
               | raw => l ← _parse_steps raw (path +:+ ".if.else"); mret (Some l)
               end;
  mret (fun h => IfStep h (dget cond "condition") then_steps else_steps).

Definition parse_while (obj : dict) (path : string) : L built :=
  w ← up (lift (_require_dict (dget obj "while") "while"));
  _ ← up (guard_raise (negb (dhas w "condition")) (TypeError "while.condition is required"));
  body ← _parse_steps (dget_or w "do" (PList [])) (path +:+ ".while.do");
  mret (fun h => WhileStep h (dget w "condition") body).

Definition parse_atomic (obj : dict) (path : string) : L built :=
  atom ← up (lift (_require_dict (dget obj "atomic") "atomic"));
  body ← _parse_steps (dget_or atom "do" (PList [])) (path +:+ ".atomic.do");
  mret (fun h => AtomicStep h (str_opt (dget atom "name")) body).

Definition parse_parallel (obj : dict) (path : string) : L built :=
  par ← up (lift (_require_dict (dget obj "parallel") "parallel"));
  body ← _parse_steps (dget_or par "do" (PList [])) (path +:+ ".parallel.do");
  mret (fun h => ParallelStep h body).

Definition parse_try (obj : dict) (path : string) : L built :=
  tr ← up (lift (_require_dict (dget obj "try") "try"));
  _ ← up (guard_raise (negb (dhas tr "do")) (TypeError "try.do is required"));
  body ← _parse_steps (dget_or tr "do" (PList [])) (path +:+ ".try.do");
  finally_steps ← _parse_steps (dget_or tr "finally" (PList [])) (path +:+ ".try.finally");
  mret (fun h => TryStep h body finally_steps).

Definition parse_adaptive (obj : dict) (path : string) : L built :=
  raw_step ← up (lift (_require_dict (dget obj "adaptive") "adaptive"));
  spec ← up (lift (parse_adaptive_spec raw_step));
  body ← _parse_steps (dget_or raw_step "do" (PList [])) (path +:+ ".adaptive.do");
  match body with
  | [] => up (raise (TypeError "adaptive.do must not be empty"))
  | _ => mret (fun h => AdaptiveStep h spec body)
  end.

Definition parse_kind (obj : dict) (path : string) : L built :=
  let flat r := up (lift r) in
  if dhas obj "call" then flat (parse_call obj)
  else if dhas obj "set" then flat (parse_set obj)
  else if dhas obj "sleep" then mret (fun h => SleepStep h (dget obj "sleep"))
  else if dhas obj "wait_until" then flat (parse_wait_until obj)
  else if dhas obj "for" then parse_for obj path
  else if dhas obj "repeat" then parse_repeat obj path
  else if dhas obj "if" then parse_if obj path
  else if dhas obj "while" then parse_while obj path
  else if dhas obj "atomic" then parse_atomic obj path
  else if dhas obj "pause" then flat (parse_pause obj)
  else if dhas obj "parallel" then parse_parallel obj path
  else if dhas obj "try" then parse_try obj path
  else if dhas obj "assign" then flat (parse_assign obj)
  else if dhas obj "set_context" then flat (parse_set_context obj)
  else if dhas obj "use" then flat (parse_use obj)
  else if dhas obj "adaptive" then parse_adaptive obj path
  else up (raise (TypeError ("Unknown step type: " +:+ str_list (PStr <$> od_keys obj)))).
End steps.

Fixpoint _parse_step (fuel : nat) (raw : pyval) (path : string) : L step :=
  match fuel with
  | O => fun _ => None
  | S fuel =>
      obj ← up (lift (_require_dict raw "step"));
      kind ← up (lift (_detect_step_kind obj));
      _ ← up (lift (_validate_step_keys obj kind));
      make ← parse_kind (_parse_step fuel) obj path;
      id ← new_id;
      mret (make (mkHeader id (_parse_disabled obj)))
  end.

(** ** Ids in a sequence *)
Fixpoint step_adaptive_ids (x : step) : list string :=
  let all := fix all (l : list step) : list string := match l with [] => [] | y :: l => step_adaptive_ids y ++ all l end in
  match x with
  | AdaptiveStep _ spec body => ad_id spec :: all body
  | ForStep _ _ _ body | RepeatStep _ _ body | WhileStep _ _ body | AtomicStep _ _ body | ParallelStep _ body => all body
  | IfStep _ _ then_steps else_steps => all then_steps ++ match else_steps with Some l => all l | None => [] end
  | TryStep _ body finally_steps => all body ++ all finally_steps
  | _ => []
  end.
Definition _iter_adaptive_ids (steps : list step) : list string := steps ≫= step_adaptive_ids.

Fixpoint step_use_ids (x : step) : list string :=
  let all := fix all (l : list step) : list string := match l with [] => [] | y :: l => step_use_ids y ++ all l end in
  match x with
  | UseStep _ sequence_id _ => [sequence_id]
  | AdaptiveStep _ _ body
  | ForStep _ _ _ body | RepeatStep _ _ body | WhileStep _ _ body | AtomicStep _ _ body | ParallelStep _ body => all body
  | IfStep _ _ then_steps else_steps => all then_steps ++ match else_steps with Some l => all l | None => [] end
  | TryStep _ body finally_steps => all body ++ all finally_steps
  | _ => []
  end.
Definition iter_use_ids (steps : list step) : list string := steps ≫= step_use_ids.

(** The first id that is there twice *)
Fixpoint duplicate (seen l : list string) : option string :=
  match l with
  | [] => None
  | x :: rest => if bool_decide (x ∈ seen) then Some x else duplicate (x :: seen) rest
  end.

(** ** Sequences *)

(** What is parsed: what the runtime executes, and what its process reads *)
Record sequence := mkSequence {
  sq_spec : SequenceSpec;
  sq_context_columns : option (list (string * string));
  sq_watchdog_ids : option (list string);
  sq_require_hdf_writing : bool;
  sq_form : option dict
}.

Fixpoint column_types (raw : dict) (columns : list (string * string)) : result (list (string * string)) :=
  match raw with
  | [] => Ok columns
  | (name, value) :: rest =>
      if String.eqb name SEQUENCER_RUN_ID_FIELD then
        Err (TypeError ("context_columns must not declare " +:+ repr_str SEQUENCER_RUN_ID_FIELD +:+
                        ": it is reserved and added automatically (int64) by the sequencer"))
      else
        let dtype := lower (py_str value) in
        if bool_decide (dtype ∈ ["float64"; "int64"; "bool"]) then column_types rest (od_set columns name dtype)
        else Err (TypeError ("context_columns[" +:+ repr_str name +:+ "] has unsupported dtype " +:+ repr_str dtype))
  end.

(** [requires]: the watchdogs and whether data is to be written *)
Definition parse_requires (raw : pyval) : result (pyval * bool) :=
  match raw with
  | PNone => Ok (PNone, false)
  | PDict d =>
      match sorted_set (list_to_set (od_keys d) ∖ list_to_set _REQUIRES_KNOWN_KEYS) with
      | [] =>
          match dget_or d "hdf_writing" (PBool false) with
          | PBool b => Ok (dget d "watchdog_ids", b)
          | _ => Err (TypeError "requires.hdf_writing must be a bool")
          end
      | unknown => Err (TypeError ("requires has unknown key(s): " +:+ join ", " unknown))
      end
  | _ => Err (TypeError "requires must be a dict")
  end.

(** [meta], which is documentation *)
Definition parse_meta (meta : pyval) : result dict :=
  match meta with
  | PDict d =>
      if dhas d "context_columns" then
        Err (TypeError ("meta.context_columns is no longer supported -- move context_columns " +:+
          "to the top level (sibling to meta/vars/steps). `meta` is documentation " +:+
          "only (name/description); engine-consumed fields belong at the top level."))
      else if dhas d "watchdog_ids" then
        Err (TypeError ("meta.watchdog_ids is no longer supported -- move watchdog_ids to " +:+
          "requires.watchdog_ids (a new top-level `requires:` key, sibling to " +:+
          "meta/vars/steps). `meta` is documentation only (name/description); " +:+
          "engine-consumed fields belong at the top level."))
      else Ok d
  | _ => Err (TypeError "meta must be a dict")
  end.

Definition parse_columns (raw : pyval) : result (option (list (string * string))) :=
  match raw with
  | PNone => Ok None
  | PDict d => Some <$> column_types d []
  | _ => Err (TypeError "context_columns must be a dict")
  end.

(** The steps with the gate around them, whose objects are new *)
Definition gated (steps : list step) (watchdog_ids : option (list string)) : L (list step) := fun n =>
  let k := Z.of_nat (length (default [] watchdog_ids)) in
  Some (Ok (_apply_watchdog_gate (fun enable i => n + (if enable : bool then 0 else k) + Z.of_nat i) (n + 2 * k) steps watchdog_ids),
        n + 2 * k + 1).

(** Everything but the steps *)
Definition parse_rest (obj : dict) (version : Z) (steps : list step) : L sequence :=
  meta ← up (lift (parse_meta (py_or (dget_or obj "meta" (PDict [])) (PDict []))));
  vars_raw ← up (lift (_require_dict (py_or (dget_or obj "vars" (PDict [])) (PDict [])) "vars"));
  '(watchdog_ids_raw, require_hdf_writing) ← up (lift (parse_requires (dget obj "requires")));
  context_columns ← up (lift (parse_columns (dget obj "context_columns")));
  _ ← up (lift (match duplicate [] (_iter_adaptive_ids steps) with
                | Some id => Err (TypeError ("duplicate adaptive.id " +:+ repr_str id))
                | None => Ok tt
                end));
  watchdog_ids ← up (lift (_normalize_watchdog_ids watchdog_ids_raw));
  steps ← gated steps watchdog_ids;
  form ← up (lift (match dget obj "form" with PNone => Ok None | raw => Some <$> validate_run_form vars_raw raw end));
  mret (mkSequence (mkSpec version meta vars_raw steps) context_columns watchdog_ids require_hdf_writing form).

(** Nesting of a document *)
Fixpoint depth (v : pyval) : nat :=
  match v with
  | PList l => S (foldr (fun x n => depth x `max` n)%nat 0%nat l)
  | PDict d => S ((fix all (d : dict) : nat := match d with [] => 0%nat | (_, x) :: d => (depth x `max` all d)%nat end) d)
  | _ => 1%nat
  end.

Definition parse_sequence (raw : pyval) : L sequence :=
  obj ← up (lift (_require_dict raw "sequence"));
  _ ← up (lift (_check_keys obj "sequence" _TOP_LEVEL_KEYS [] (fun _ => "")));
  version ← up (lift (py_int (dget_or obj "version" (PInt 1))));
  steps ← _parse_steps (_parse_step (depth raw)) (dget_or obj "steps" (PList [])) "steps";
  parse_rest obj version steps.
End parser.
