(* ===== verification/WalkTheorems.v ===== *)
(** * What the walks over a sequence promise

    Source info, condition diagnostics and the ids of used sequences all go
    through the same steps ([fold_refs], [collect_refs]); with one record per
    step object source info is exact ([source_info_exact]); and a condition that passes
    validation means what its operators say, where the evaluator would take
    anything else for false ([validated_conditions_meaning]). *)
From S2P Require Import Prelude PyVal PyNum PyOps Expressions Conditions Responses ProcessBase.
From S2P Require Import SequencerData StepWalks SequenceParser.
#[local] Open Scope Z_scope.

Section walks.
Context `{HR : !PyRepr}.

(** ** Every walk is a pass over [refs_of] *)
Section fold.
Context {A : Type} (visit : A -> step_ref -> A).

(** A walk that visits a step and then its bodies *)
Lemma fold_refs (walk : string -> option string -> A -> step -> A)
    (walk_all : string -> option string -> nat -> A -> list step -> A) :
  (forall p b i a l, walk_all p b i a l = match l with [] => a | y :: l => walk_all p b (S i) (walk (item_path p i) b a y) l end) ->
  (forall p b a x, walk p b a x = foldl (fun a '(q, l, c) => walk_all q c 0%nat a l) (visit a (mkRef p b x)) (step_bodies x p)) ->
  forall p b i a l, walk_all p b i a l = foldl visit a (refs_from p b i l).
Proof.
  intros Hall Hwalk.
  assert (forall l, Forall (fun x => forall p b a, walk p b a x = foldl visit a (refs_of p b x)) l ->
    forall p b i a, walk_all p b i a l = foldl visit a (refs_from p b i l)) as lists.
  { induction 1 as [|x l Hx _ IH]; intros p b i a; rewrite Hall; [done|]. cbn. by rewrite foldl_app, IH, Hx. }
  assert (forall x p b a, walk p b a x = foldl visit a (refs_of p b x)) as step.
  { intros x. induction x as [x IH] using step_rect_nested. intros p b a. rewrite Hwalk, refs_of_bodies. cbn.
    specialize (IH p). revert IH. generalize (visit a (mkRef p b x)). generalize (step_bodies x p) as bs.
    intros bs. induction bs as [|[[q l] c] bs IHb]; intros a' IH; [done|]. cbn. rewrite foldl_app.
    rewrite lists by (eapply IH; by left). apply IHb. intros q' l' c' Hin. eapply IH. by right. }
  intros p b i a l. apply lists, Forall_forall. intros x _. apply step.
Qed.
End fold.

Lemma walk_source_is_fold source lm p b i out l :
  _walk_source_info source lm p b i out l =
  foldl (fun out r => od_set out (step_id (sr_step r)) (source_of source lm r)) out (refs_from p b i l).
Proof.
  apply (fold_refs _ (fun p b out x => walk_step source lm p b out x) (fun p b i out l => _walk_source_info source lm p b i out l)).
  - intros ? ? ? ? []; done.
  - intros p' b' a x. by destruct x as [| | | | | |h c l1 [l2|]| | | | | | | | |].
Qed.

(** Walks that collect *)
Lemma collect_refs {B} (own : step_ref -> list B) (walk : string -> option string -> step -> list B)
    (walk_all : string -> option string -> nat -> list step -> list B) :
  (forall p b i l, walk_all p b i l = match l with [] => [] | y :: l => walk (item_path p i) b y ++ walk_all p b (S i) l end) ->
  (forall p b x, walk p b x = own (mkRef p b x) ++ (step_bodies x p ≫= fun '(q, l, c) => walk_all q c 0%nat l)) ->
  forall p b i l, walk_all p b i l = refs_from p b i l ≫= own.
Proof.
  intros Hall Hwalk.
  assert (forall l, Forall (fun x => forall p b, walk p b x = refs_of p b x ≫= own) l ->
    forall p b i, walk_all p b i l = refs_from p b i l ≫= own) as lists.
  { induction 1 as [|x l Hx _ IH]; intros p b i; rewrite Hall; [done|]. cbn. by rewrite bind_app, IH, Hx. }
  assert (forall x p b, walk p b x = refs_of p b x ≫= own) as step.
  { intros x. induction x as [x IH] using step_rect_nested. intros p b. rewrite Hwalk, refs_of_bodies. cbn. f_equal.
    specialize (IH p). revert IH. generalize (step_bodies x p) as bs.
    intros bs. induction bs as [|[[q l] c] bs IHb]; intros IH; [done|]. cbn. rewrite bind_app.
    rewrite lists by (eapply IH; by left). f_equal. apply IHb. intros q' l' c' Hin. eapply IH. by right. }
  intros p b i l. apply lists, Forall_forall. intros x _. apply step.
Qed.

Lemma diagnostics_collect p i l :
  _iter_step_condition_diagnostics p i l = refs_from p None i l ≫= fun r => own_diagnostics (sr_step r) (sr_path r).
Proof.
  apply (collect_refs _ (fun p _ x => step_diagnostics p x) (fun p _ i l => _iter_step_condition_diagnostics p i l)).
  - intros ? ? ? []; done.
  - intros p' b' x. destruct x as [| | | | | |h c l1 [l2|]| | | | | | | | |]; cbn; rewrite ?app_nil_r; done.
Qed.

Lemma use_ids_collect p i l :
  iter_use_ids l = refs_from p None i l ≫= fun r => match sr_step r with UseStep _ id _ => [id] | _ => [] end.
Proof.
  apply (collect_refs _ (fun _ _ x => step_use_ids x) (fun _ _ _ l => iter_use_ids l)).
  - intros ? ? ? []; done.
  - intros p' b' x. destruct x as [| | | | | |h c l1 [l2|]| | | | | | | | |]; cbn; rewrite ?app_nil_r; done.
Qed.
Lemma adaptive_ids_collect p i l :
  _iter_adaptive_ids l = refs_from p None i l ≫= fun r => match sr_step r with AdaptiveStep _ spec _ => [ad_id spec] | _ => [] end.
Proof.
  apply (collect_refs _ (fun _ _ x => step_adaptive_ids x) (fun _ _ _ l => _iter_adaptive_ids l)).
  - intros ? ? ? []; done.
  - intros p' b' x. destruct x as [| | | | | |h c l1 [l2|]| | | | | | | | |]; cbn; rewrite ?app_nil_r; done.
Qed.

(** ** Source info *)
Lemma fold_sets {V} (key : step_ref -> Z) (val : step_ref -> V) l out :
  NoDup (od_keys out ++ (key <$> l)) -> foldl (fun out r => od_set out (key r) (val r)) out l = out ++ ((fun r => (key r, val r)) <$> l).
Proof.
  revert out. induction l as [|r l IH]; intros out H; cbn; [by rewrite app_nil_r|].
  assert (key r ∉ od_keys out) as Hn.
  { intros Hin. apply NoDup_app in H as (_ & H & _). apply (H _ Hin). by left. }
  rewrite od_set_new by done. rewrite IH; [by rewrite <- app_assoc|]. unfold od_keys in *. by rewrite fmap_app, <- app_assoc.
Qed.

Lemma source_info_exact spec source lm :
  NoDup ((fun r => step_id (sr_step r)) <$> step_paths (sp_steps spec) "steps") ->
  build_step_source_info source lm spec =
    (fun r => (step_id (sr_step r), source_of source lm r)) <$> step_paths (sp_steps spec) "steps".
Proof. intros H. unfold build_step_source_info. rewrite walk_source_is_fold.
  by apply (fold_sets (fun r => step_id (sr_step r)) (source_of source lm) (step_paths (sp_steps spec) "steps") []).
Qed.
End walks.

(** ** What a valid condition means *)
Inductive compare_op := OpEq | OpNe | OpGt | OpGe | OpLt | OpLe | OpAbsLt.
(** A constant, or a template *)
Inductive atom := ABool (b : bool) | AInt (z : Z) | AFloat (f : pyfloat) | AStr (s : string).
Inductive condition :=
| Truth (x : atom)
| Always (v : pyval)
| Compare (op : compare_op) (a b : pyval)
| All (clauses : list condition)
| Any (clauses : list condition)
| Negated (c : condition).

Lemma condition_ind' (P : condition -> Prop) :
  (forall x, P (Truth x)) -> (forall v, P (Always v)) -> (forall op a b, P (Compare op a b)) ->
  (forall l, Forall P l -> P (All l)) -> (forall l, Forall P l -> P (Any l)) ->
  (forall c, P c -> P (Negated c)) -> forall c, P c.
Proof.
  intros Ht Ha Hc Hl Ho Hn. fix go 1. intros [x|v|op a b|l|l|c]; [apply Ht|apply Ha|apply Hc| | |apply Hn, go].
  - apply Hl. induction l; constructor; [apply go|done].
  - apply Ho. induction l; constructor; [apply go|done].
Qed.

Definition op_name (op : compare_op) : string :=
  match op with OpEq => "eq" | OpNe => "ne" | OpGt => "gt" | OpGe => "ge" | OpLt => "lt" | OpLe => "le" | OpAbsLt => "abs_lt" end.
Definition atom_value (x : atom) : pyval :=
  match x with ABool b => PBool b | AInt z => PInt z | AFloat f => PFloat f | AStr s => PStr s end.

(** How a condition is written: an object with its one operator *)
Fixpoint written (c : condition) : pyval :=
  match c with
  | Truth x => atom_value x
  | Always v => PDict [("always", v)]
  | Compare op a b => PDict [(op_name op, PList [a; b])]
  | All l => PDict [("and", PList (written <$> l))]
  | Any l => PDict [("or", PList (written <$> l))]
  | Negated c => PDict [("not", written c)]
  end.

(** Both operands of a comparison are given, and [and] and [or] have clauses. *)
Fixpoint complete (c : condition) : bool :=
  match c with
  | Truth _ | Always _ => true
  | Compare _ a b => negb (blank a) && negb (blank b)
  | All l | Any l => negb (bool_decide (l = [])) && forallb complete l
  | Negated c => complete c
  end.

(** What is written determines the condition. *)
Lemma written_inj : Inj (=) (=) written.
Proof.
  assert (forall l, Forall (fun c => forall c', written c = written c' -> c = c') l ->
    forall l', written <$> l = written <$> l' -> l = l') as Hlist.
  { induction 1 as [|c l Hc _ IH]; intros [|c' l']; try done. cbn. intros [= H1 H2]. f_equal; auto. }
  intros c. induction c as [x|v|op a b|l IH|l IH|c IH] using condition_ind'; intros [y|w|op' a' b'|l'|l'|c'];
    try (by destruct x); try (by destruct x, y; cbn; intros [=]; subst); try (by destruct op'); try (by destruct op);
    try (by destruct y); cbn; intros [= H]; subst; try done; f_equal; eauto.
  destruct op, op'; by try discriminate.
Qed.

Section meaning.
Context `{HR : !PyRepr, HA : !PyArith, HE : !PyExpr} (env : Env).

Definition compare_meaning (op : compare_op) (a b : pyval) : result bool :=
  match op with
  | OpAbsLt => abs_lt env (PList [a; b])
  | _ =>
      x ← render_templates env a;
      y ← render_templates env b;
      match op with
      | OpEq => Ok (py_eqb x y)
      | OpNe => Ok (negb (py_eqb x y))
      | OpGt => _compare CGt x y
      | OpGe => _compare CGtE x y
      | OpLt => _compare CLt x y
      | _ => _compare CLtE x y
      end
  end.

(** Clauses are evaluated in order, until one decides. *)
Fixpoint meaning (c : condition) : result bool :=
  match c with
  | Truth (ABool b) => Ok b
  | Truth x => truth env (atom_value x)
  | Always v => truth env v
  | Compare op a b => compare_meaning op a b
  | All l => (fix all (l : list condition) : result bool :=
                match l with [] => Ok true | c :: l => b ← meaning c; if b : bool then all l else Ok false end) l
  | Any l => (fix any (l : list condition) : result bool :=
                match l with [] => Ok false | c :: l => b ← meaning c; if b : bool then Ok true else any l end) l
  | Negated c => negb <$> meaning c
  end.

Lemma has_error_app a b : has_error_diagnostics (a ++ b) = has_error_diagnostics a || has_error_diagnostics b.
Proof. apply existsb_app. Qed.
Lemma no_error_app a b : has_error_diagnostics (a ++ b) = false -> has_error_diagnostics a = false /\ has_error_diagnostics b = false.
Proof. rewrite has_error_app. by intros []%orb_false_iff. Qed.
Lemma no_error_in {A} (f : A -> list dict) l x :
  has_error_diagnostics (l ≫= f) = false -> x ∈ l -> has_error_diagnostics (f x) = false.
Proof. intros H Hx. revert H. induction Hx as [x l|x y l _ IH]; cbn; intros [H1 H2]%no_error_app; auto. Qed.
Lemma error_found p m l : has_error_diagnostics (_diag "error" p m :: l) = true.
Proof. done. Qed.

(** *** The evaluator *)
Lemma eval_compare op a b : eval_condition env (PDict [(op_name op, PList [a; b])]) = compare_meaning op a b.
Proof. by destruct op. Qed.

Lemma eval_clauses l : Forall (fun c => eval_condition env (written c) = meaning c) l ->
  all_results ((fun c (_ : unit) => eval_condition env c) <$> (written <$> l)) = meaning (All l) /\
  any_results ((fun c (_ : unit) => eval_condition env c) <$> (written <$> l)) = meaning (Any l).
Proof.
  induction 1 as [|c l Hc _ [Ha Ho]]; [done|].
  cbn. rewrite Hc. split; destruct (meaning c) as [[]|]; cbn; done.
Qed.

Lemma eval_written c : eval_condition env (written c) = meaning c.
Proof.
  induction c as [[]|v|op a b|l IH|l IH|c IH] using condition_ind'; try done.
  - apply eval_compare.
  - cbn [written]. rewrite eval_condition_dict. apply (eval_clauses _ IH).
  - cbn [written]. rewrite eval_condition_dict. apply (eval_clauses _ IH).
  - cbn [written]. rewrite eval_condition_dict.
    change (negb <$> eval_condition env (written c) = negb <$> meaning c). by rewrite IH.
Qed.

(** *** The validator *)
Lemma op_name_compares key : key ∈ _COMPARE_OPS -> exists op, key = op_name op.
Proof.
  unfold _COMPARE_OPS. intros Hk. repeat (apply elem_of_cons in Hk as [->|Hk]); [..|by apply not_elem_of_nil in Hk].
  - by exists OpEq.
  - by exists OpNe.
  - by exists OpGt.
  - by exists OpGe.
  - by exists OpLt.
  - by exists OpLe.
  - by exists OpAbsLt.
Qed.

Lemma compare_valid key v p : has_error_diagnostics (compare_diagnostics p key v) = false ->
  exists a b, v = PList [a; b] /\ blank a = false /\ blank b = false.
Proof.
  destruct v as [| | | | |[|a [|b [|]]]|]; try done. unfold compare_diagnostics. intros [Ha Hb]%no_error_app.
  exists a, b. by destruct (blank a), (blank b).
Qed.

Definition formula (v : pyval) : Prop := exists c, v = written c /\ complete c = true.
Definition accepted (v : pyval) : Prop := exists path, has_error_diagnostics (_validate_condition v path) = false.

Lemma formula_list l : Forall formula l -> exists cs, l = written <$> cs /\ forallb complete cs = true.
Proof.
  induction 1 as [|v l (c & -> & Hc) _ (cs & -> & Hcs)]; [by exists []|]. exists (c :: cs). cbn. by rewrite Hc, Hcs.
Qed.

Lemma clauses_accepted p i l :
  has_error_diagnostics ((fix clauses (i : nat) (l : list pyval) : list dict :=
    match l with [] => [] | item :: l => _validate_condition item (item_path p i) ++ clauses (S i) l end) i l) = false ->
  Forall accepted l.
Proof.
  revert i. induction l as [|v l IH]; intros i H; [constructor|]. apply no_error_app in H as [Hv Hl].
  constructor; [by eexists|by eapply IH].
Qed.

(** Only an object with one known operator is accepted. *)
Lemma accepted_dict d : accepted (PDict d) ->
  (exists v, d = [("always", v)]) \/
  (exists op a b, d = [(op_name op, PList [a; b])] /\ blank a = false /\ blank b = false) \/
  (exists key l, d = [(key, PList l)] /\ (key = "and" \/ key = "or") /\ l <> [] /\ Forall accepted l) \/
  (exists v, d = [("not", v)] /\ accepted v).
Proof.
  intros [path H]. destruct d as [|[key v] [|e d]]; [done| |by cbn in H].
  cbn in H. rewrite app_nil_r in H. repeat case_bool_decide; cbn in H; [..|done].
  all: destruct (String.eqb_spec key "always") as [->|Ha]; [left; by exists v|].
  1,3: apply compare_valid in H as (a & b & -> & Hb); destruct (op_name_compares key) as [op ->]; [done|];
       right; left; by eexists _, _, _.
  unfold _LOGICAL_OPS in *. destruct (String.eqb_spec key "and") as [->|Hand]; cbn in H.
  { destruct v as [| | | | |[|x l]|]; try done.
    right. right. left. exists "and", (x :: l). apply no_error_app in H as [_ H].
    split_and!; [done|auto|done|by eapply clauses_accepted]. }
  destruct (String.eqb_spec key "or") as [->|Hor]; cbn in H.
  { destruct v as [| | | | |[|x l]|]; try done.
    right. right. left. exists "or", (x :: l). apply no_error_app in H as [_ H].
    split_and!; [done|auto|done|by eapply clauses_accepted]. }
  right. right. right. exists v. split; [|by eexists].
  assert (key = "not") as -> by set_solver. done.
Qed.

Lemma accepted_formula v : (accepted v -> formula v) /\
  match v with PList l => Forall (fun x => accepted x -> formula x) l | _ => True end.
Proof.
  induction v as [|b|z|f|s|l IH|d IH] using pyval_ind'.
  - split; [|done]. intros [p H]. done.
  - split; [|done]. intros _. by exists (Truth (ABool b)).
  - split; [|done]. intros _. by exists (Truth (AInt z)).
  - split; [|done]. intros _. by exists (Truth (AFloat f)).
  - split; [|done]. intros _. by exists (Truth (AStr s)).
  - split; [intros [p H]; done|]. eapply Forall_impl; [exact IH|]. by intros ? [].
  - split; [|done].
    intros [(v & ->)|[(op & a & b & -> & Ha & Hb)|[(key & l & -> & Hk & Hn & Hl)|(v & -> & Hv)]]]%accepted_dict.
    + by exists (Always v).
    + exists (Compare op a b). split; [done|]. cbn. by rewrite Ha, Hb.
    + apply Forall_cons in IH as [[_ IH] _]. cbn in IH.
      assert (Forall formula l) as Hd.
      { apply Forall_forall. intros x Hx. rewrite Forall_forall in IH, Hl. by apply IH, Hl. }
      apply formula_list in Hd as (cs & -> & Hcs).
      destruct Hk as [->| ->]; [exists (All cs)|exists (Any cs)]; (split; [done|]); cbn; rewrite Hcs;
        by destruct cs.
    + apply Forall_cons in IH as [[IH _] _]. destruct (IH Hv) as (c & Ec & Em). simpl in Ec. subst v.
      by exists (Negated c).
Qed.

#[local] Arguments has_error_diagnostics : simpl never.

Lemma clauses_valid p i l :
  Forall (fun c => forall path, complete c = true -> has_error_diagnostics (_validate_condition (written c) path) = false) l ->
  forallb complete l = true ->
  has_error_diagnostics ((fix clauses (i : nat) (l : list pyval) : list dict :=
    match l with [] => [] | item :: l => _validate_condition item (item_path p i) ++ clauses (S i) l end) i (written <$> l)) = false.
Proof.
  intros H. revert i. induction H as [|c l Hc _ IH]; intros i; [done|]. cbn. intros [H1 H2]%andb_prop.
  by rewrite has_error_app, Hc, IH.
Qed.

Lemma clauses_object key l path : key = "and" \/ key = "or" -> l <> [] ->
  Forall (fun c => forall path, complete c = true -> has_error_diagnostics (_validate_condition (written c) path) = false) l ->
  forallb complete l = true ->
  has_error_diagnostics (_validate_condition (PDict [(key, PList (written <$> l))]) path) = false.
Proof.
  intros Hk Hl IH H. destruct l as [|c l]; [done|].
  pose proof (clauses_valid (path +:+ "." +:+ key) 0 _ IH H) as Hc. revert Hc.
  assert (bool_decide (key ∈ _LOGICAL_OPS) = true /\ bool_decide (key ∈ _COMPARE_OPS) = false) as [E1 E2]
    by (by destruct Hk as [->| ->]).
  cbn. rewrite E1, E2. destruct Hk as [->| ->], l as [|c' l]; cbn; rewrite ?app_nil_r; done.
Qed.

Lemma formula_accepted c path : complete c = true -> has_error_diagnostics (_validate_condition (written c) path) = false.
Proof.
  revert path. induction c as [[]|v|op a b|l IH|l IH|c IH] using condition_ind'; intros path H; try done.
  - cbn in H. apply andb_prop in H as [Ha%negb_true_iff Hb%negb_true_iff].
    destruct op; cbn; by rewrite Ha, Hb.
  - cbn [complete] in H. apply andb_prop in H as [Hn%negb_true_iff%bool_decide_eq_false H].
    apply (clauses_object "and"); [by left|done..].
  - cbn [complete] in H. apply andb_prop in H as [Hn%negb_true_iff%bool_decide_eq_false H].
    apply (clauses_object "or"); [by right|done..].
  - cbn. rewrite app_nil_r. by apply IH.
Qed.

(** The condition of a step *)
Definition condition_of (x : step) : option pyval :=
  match x with
  | WaitUntilStep _ raw => Some (dget raw "condition")
  | IfStep _ condition _ _ | WhileStep _ condition _ => Some condition
  | _ => None
  end.

Lemma own_valid x p :
  has_error_diagnostics (own_diagnostics x p) = false <-> forall cond, condition_of x = Some cond -> formula cond.
Proof.
  assert (forall v q, has_error_diagnostics (_validate_condition v q) = false <-> formula v) as Hv.
  { intros v q. split; [intros H; by apply accepted_formula; eexists|].
    intros (c & -> & Hc). by apply formula_accepted. }
  destruct x as [| | |h raw| | |h c l1 l2|h c l| | | | | | | |]; cbn; try done; [|rewrite Hv; naive_solver..].
  destruct (dhas raw "condition") eqn:Hh; [rewrite Hv; naive_solver|]. split; [done|].
  intros H. specialize (H _ eq_refl). assert (dget raw "condition" = PNone) as E.
  { unfold dget. unfold dhas in Hh. by destruct (od_get raw "condition"). }
  rewrite E in H. destruct H as ([[]| | | | |] & [=] & _).
Qed.

Lemma no_error_all {A} (f : A -> list dict) l :
  has_error_diagnostics (l ≫= f) = false <-> forall x, x ∈ l -> has_error_diagnostics (f x) = false.
Proof.
  split; [intros H x; by apply no_error_in|]. induction l as [|x l IH]; intros H; [done|].
  cbn. rewrite has_error_app, H by left. apply IH. intros y Hy. apply H. by right.
Qed.

(** C28. A sequence passes validation exactly when the condition of every
    wait, [if] and [while], at any depth, is a formula of the condition
    language: a constant or a template, [always], a comparison of two given
    operands, [and]/[or] over one or more formulas, or [not] of a formula,
    each the single operator of its object. And the evaluator gives every
    such formula the meaning of its operators: constants and templates their
    truth, comparisons that of the two rendered operands, [and]/[or] that of
    the clauses in order until one decides, [not] the negation. *)
Theorem validated_conditions_meaning spec :
  (has_error_diagnostics (validate_sequence_conditions spec) = false <->
   forall r cond, r ∈ step_paths (sp_steps spec) "steps" -> condition_of (sr_step r) = Some cond ->
     exists c, cond = written c /\ complete c = true) /\
  forall c, eval_condition env (written c) = meaning c.
Proof.
  split; [|exact eval_written]. unfold validate_sequence_conditions. rewrite diagnostics_collect, no_error_all.
  split.
  - intros H r cond Hr. apply own_valid with (p := sr_path r). by apply H.
  - intros H r Hr. apply own_valid. intros cond. by apply H.
Qed.
End meaning.
