(* ===== verification/ParserTheorems.v ===== *)
(** * What the parser of sequences promises

    It ends on every document; the steps it makes satisfy what the runtime
    relies on and have paths that lead back to where they are written
    ([parsed_steps]); its errors name the step they are about
    ([parse_errors_located]). *)
From S2P Require Import Prelude PyVal PyNum PyOps Expressions Conditions Responses ProcessBase Ranges.
From S2P Require Import SequencerData SequencerCore SequencerValues SequencerParallel SequencerGate RunForm StepWalks SequenceParser WalkTheorems.
#[local] Open Scope Z_scope.

(** ** Paths into a document *)
Inductive seg := At (index : nat) | Part (kind part : string).

Fixpoint render_path (path : string) (segs : list seg) : string :=
  match segs with
  | [] => path
  | At i :: segs => render_path (item_path path i) segs
  | Part kind part :: segs => render_path (path +:+ "." +:+ kind +:+ "." +:+ part) segs
  end.

Fixpoint fetch (v : pyval) (segs : list seg) : option pyval :=
  match segs with
  | [] => Some v
  | At i :: segs => match v with PList l => l !! i ≫= fun x => fetch x segs | _ => None end
  | Part kind part :: segs =>
      match v with
      | PDict obj => match od_get obj kind with
                     | Some (PDict f) => od_get f part ≫= fun x => fetch x segs
                     | _ => None
                     end
      | _ => None
      end
  end.

(** ** Total correctness of parsers

    A parser started at [n] ends: with a value that satisfies [K], or raising
    an exception that satisfies [Q]. *)
Definition wp {A} (m : pyL Z A) (n : Z) (K : A -> Z -> Prop) (Q : pyexc -> Prop) : Prop :=
  match m n with
  | Some (Ok a, n') => K a n'
  | Some (Err e, _) => Q e
  | None => False
  end.

Lemma wp_ret {A} (a : A) n (K : A -> Z -> Prop) Q : K a n -> wp (mret a) n K Q.
Proof. done. Qed.
Lemma wp_raise {A} e n (K : A -> Z -> Prop) (Q : pyexc -> Prop) : Q e -> wp (up (raise e)) n K Q.
Proof. done. Qed.
Lemma wp_lift {A} (r : result A) n (K : A -> Z -> Prop) (Q : pyexc -> Prop) :
  (forall a, r = Ok a -> K a n) -> (forall e, r = Err e -> Q e) -> wp (up (lift r)) n K Q.
Proof. unfold wp, up, lift. destruct r; auto. Qed.
Lemma wp_bind {A B} (m : pyL Z A) (f : A -> pyL Z B) n K Q :
  wp m n (fun a n' => wp (f a) n' K Q) Q -> wp (m ≫= f) n K Q.
Proof. unfold wp, mbind, pyL_bind. by destruct (m n) as [[[]]|]. Qed.
Lemma wp_mono {A} (m : pyL Z A) n (K K' : A -> Z -> Prop) (Q Q' : pyexc -> Prop) :
  wp m n K Q -> (forall a n', K a n' -> K' a n') -> (forall e, Q e -> Q' e) -> wp m n K' Q'.
Proof. unfold wp. destruct (m n) as [[[]]|]; auto. Qed.
Lemma wp_guard b e n (K : unit -> Z -> Prop) (Q : pyexc -> Prop) :
  (b = false -> K tt n) -> (b = true -> Q e) -> wp (up (guard_raise b e)) n K Q.
Proof. destruct b; unfold wp, up, guard_raise; cbn; auto. Qed.

(** ** Exceptions of the checks *)
Definition plain {A} (r : result A) : Prop := match r with Err e => type_or_value_error e = true | Ok _ => True end.

Lemma plain_bind {A B} (r : result A) (f : A -> result B) : plain r -> (forall a, plain (f a)) -> plain (r ≫= f).
Proof. destruct r; [by intros _ H; apply H|done]. Qed.
Lemma plain_fmap {A B} (f : A -> B) (r : result A) : plain r -> plain (f <$> r).
Proof. by destruct r. Qed.
Lemma plain_err {A} (r : result A) e : plain r -> r = Err e -> type_or_value_error e = true.
Proof. by intros H ->. Qed.

Create HintDb plain.
Ltac plain_step :=
  first [ done | progress intros | solve [auto with plain nocore] | apply plain_bind | case_match ].
Ltac plain := repeat plain_step.

Section checks.
Context `{HR : !PyRepr, HE : !PyExpr, HL : !LooseMatches}.

Lemma require_dict_plain v s : plain (_require_dict v s).
Proof. unfold _require_dict. plain. Qed.
Lemma require_list_plain v s : plain (_require_list v s).
Proof. unfold _require_list. plain. Qed.
Lemma check_keys_plain o s a b h : plain (_check_keys o s a b h).
Proof. unfold _check_keys. plain. Qed.
#[local] Hint Resolve require_dict_plain require_list_plain check_keys_plain : plain.
Lemma detect_kind_plain o : plain (_detect_step_kind o).
Proof. unfold _detect_step_kind. plain. Qed.
Lemma validate_keys_plain o k : plain (_validate_step_keys o k).
Proof. unfold _validate_step_keys. plain. Qed.
Lemma extractor_plain d s : plain (_validate_extractor d s).
Proof. unfold _validate_extractor. plain. Qed.
Lemma optional_dict_plain v s : plain (optional_dict_of v s).
Proof. unfold optional_dict_of. plain. Qed.
#[local] Hint Resolve detect_kind_plain validate_keys_plain extractor_plain optional_dict_plain : plain.
Lemma validate_assign_plain d : plain (validate_assign d).
Proof. induction d as [|[k v] d IH]; cbn; plain. Qed.
#[local] Hint Resolve validate_assign_plain : plain.
Lemma parse_call_plain o : plain (parse_call o).
Proof. unfold parse_call. plain. Qed.
Lemma parse_set_plain o : plain (parse_set o).
Proof. unfold parse_set. plain. Qed.
Lemma parse_wait_plain o : plain (parse_wait_until o).
Proof. unfold parse_wait_until. plain. Qed.
Lemma parse_assign_plain o : plain (parse_assign o).
Proof. unfold parse_assign. plain. Qed.
Lemma parse_set_context_plain o : plain (parse_set_context o).
Proof. unfold parse_set_context. plain. Qed.
Lemma parse_use_plain o : plain (parse_use o).
Proof. unfold parse_use. plain. Qed.
Lemma bind_entries_plain s d b : plain (bind_entries s d b).
Proof. revert b. induction d as [|[k v] d IH]; intros b; cbn; plain. Qed.
#[local] Hint Resolve bind_entries_plain : plain.
Lemma for_bind_plain v : plain (for_bind v).
Proof. unfold for_bind. plain. Qed.
Lemma generator_fields_plain k v : plain (_check_generator_fields k v).
Proof. unfold _check_generator_fields. plain. Qed.
#[local] Hint Resolve generator_fields_plain : plain.
Lemma validate_gen_plain d : plain (validate_gen_keys d).
Proof. unfold validate_gen_keys. plain. Qed.
#[local] Hint Resolve validate_gen_plain : plain.
Lemma validate_in_plain v : plain (validate_in v).
Proof. unfold validate_in. plain. Qed.
Lemma adaptive_spec_plain d : plain (parse_adaptive_spec d).
Proof. unfold parse_adaptive_spec. plain. Qed.
End checks.
#[export] Hint Resolve require_dict_plain require_list_plain detect_kind_plain validate_keys_plain parse_call_plain parse_set_plain
  parse_wait_plain parse_assign_plain parse_set_context_plain parse_use_plain for_bind_plain validate_in_plain
  adaptive_spec_plain : plain.

(** ** What the runtime relies on *)
Definition extractor_ok (spec : dict) : Prop :=
  exists k, dget_or spec "kind" (PStr "scalar") = PStr k /\ k ∈ EXTRACTOR_KINDS /\ (k = "scalar" \/ dget spec "ref" <> PNone) /\
    (k = "attr" -> exists s, dget spec "ref" = PStr s).

Definition names_bound (bind : list (string * string)) : Prop :=
  bind <> [] /\ Forall (fun '(k, v) => k <> "" /\ v <> "") bind.

Section steps_ok.
Context `{HR : !PyRepr, HE : !PyExpr, HL : !LooseMatches}.

(** A step, whatever its body: a call has one target and an action, and what it
    extracts can be asked for; names are there where they are needed; the run
    id is not overwritten; a search has something to run. *)
Definition step_ok (x : step) : Prop :=
  match x with
  | CallStep _ device action _ _ extract assign process =>
      action <> "" /\ ((device <> "" /\ process = None) \/ (device = "" /\ exists p, process = Some p /\ p <> "")) /\
      (forall e, extract = Some e -> extractor_ok e) /\
      (forall a k e, assign = Some a -> (k, PDict e) ∈ a -> extractor_ok e)
  | SetStep _ device name _ => device <> "" /\ name <> ""
  | ForStep _ bind in_expr _ =>
      names_bound bind /\ forall d g, in_expr = PDict d -> dget d "gen" = PDict g -> validate_gen_keys g = Ok tt
  | SetContextStep _ _ fields => dhas fields SEQUENCER_RUN_ID_FIELD = false
  | UseStep _ sequence_id _ => sequence_id <> "" /\ strip sequence_id = sequence_id
  | AdaptiveStep _ spec body => ad_id spec <> "" /\ names_bound (ad_bind spec) /\ body <> []
  | _ => True
  end.

Lemma nonempty_spec s : nonempty s = true <-> s <> "".
Proof. unfold nonempty. destruct (String.eqb_spec s ""); cbn; split; congruence. Qed.
Lemma nonempty_false s : nonempty s = false <-> s = "".
Proof. unfold nonempty. destruct (String.eqb_spec s ""); cbn; split; congruence. Qed.

Lemma extractor_valid spec name : _validate_extractor spec name = Ok tt -> extractor_ok spec.
Proof.
  unfold _validate_extractor, extractor_ok. destruct (dget_or spec "kind" (PStr "scalar")) as [| | | |k| |] eqn:Ek; cbn; try done.
  case_bool_decide as Hk; cbn; [|done]. destruct (String.eqb_spec k "scalar") as [->|Hs].
  { intros _. exists "scalar". split_and!; [done|done|by left|done]. }
  intros H. exists k. split_and!; [done|done| |].
  - right. intros E. by rewrite E in H.
  - intros ->. cbn in H. destruct (dget spec "ref") as [| | | |s| |]; try done. by exists s.
Qed.

Lemma assign_valid a k e : validate_assign a = Ok tt -> (k, PDict e) ∈ a -> extractor_ok e.
Proof.
  induction a as [|[k' v] a IH]; cbn; [by intros _ ?%not_elem_of_nil|].
  intros H [[= <- <-]|Hin]%elem_of_cons.
  - destruct (_validate_extractor e _) as [[]|] eqn:E; [|done]. by apply extractor_valid in E.
  - apply IH; [|done]. destruct v; try done. by destruct (_validate_extractor _ _) as [[]|].
Qed.

Lemma bind_entries_named owner raw bind bind' : bind_entries owner raw bind = Ok bind' ->
  Forall (fun '(k, v) => k <> "" /\ v <> "") bind -> Forall (fun '(k, v) => k <> "" /\ v <> "") bind'.
Proof.
  revert bind. induction raw as [|[k v] raw IH]; intros bind; cbn; [by intros [= ->]|].
  destruct (nonempty (strip k)) eqn:Ek; cbn; [|done]. destruct (nonempty (strip (py_str v))) eqn:Ev; cbn; [|done].
  apply nonempty_spec in Ek, Ev. intros H Hb. apply (IH _ H). clear -Hb Ek Ev.
  induction Hb as [|[k' v'] l Hx Hl IHl]; cbn; [by repeat constructor|]. case_decide; constructor; try done.
  by destruct Hx.
Qed.

Lemma for_bind_named raw bind : for_bind raw = Ok bind -> names_bound bind.
Proof.
  unfold for_bind, names_bound. destruct raw as [| | | |s| |d]; cbn; try done.
  - destruct (nonempty (strip s)) eqn:E; cbn; [|done]. apply nonempty_spec in E. intros [= <-]. by repeat constructor.
  - destruct (bind_entries "for" d []) as [b|] eqn:E; cbn; [|done]. apply bind_entries_named in E; [|constructor].
    destruct b; [done|]. by intros [= <-].
Qed.

(** What a parser of one kind makes: such a step, without nested ones *)
Definition makes (kind : string) (r : result (step_header -> step)) : Prop :=
  forall make, r = Ok make -> forall h, header (make h) = h /\ step_kind (make h) = kind /\ step_ok (make h) /\
    forall p, step_bodies (make h) p = [].

Lemma parse_call_makes obj : makes "call" (parse_call obj).
Proof.
  intros make. unfold parse_call. destruct (dget obj "call") as [| | | | | |c]; cbn; try done.
  set (dev := text_of c "device"). set (proc := text_of c "process"). set (act := text_of c "action"). clearbody dev proc act.
  destruct (nonempty dev && nonempty proc) eqn:E1; [done|]. destruct (negb (nonempty dev) && negb (nonempty proc)) eqn:E2; [done|].
  destruct (nonempty act) eqn:E3; cbn; [|done]. destruct (py_or _ _) as [| | | | | |params]; try done.
  destruct (optional_dict_of (dget obj "extract") _) as [ex|]; cbn; [|done].
  destruct (optional_dict_of (dget obj "assign") _) as [asg|]; cbn; [|done].
  destruct (match ex with Some e => _ | None => Ok tt end) as [[]|] eqn:Ex; cbn; [|done].
  destruct (validate_assign (default [] asg)) as [[]|] eqn:Ea; cbn; [|done]. intros [= <-] h. cbn. split_and!; try done.
  - by apply nonempty_spec.
  - unfold or_none. destruct (nonempty dev) eqn:Ed, (nonempty proc) eqn:Ep; try done.
    + left. by apply nonempty_spec in Ed.
    + right. apply nonempty_false in Ed. apply nonempty_spec in Ep. eauto.
  - intros e ->. by apply extractor_valid in Ex.
  - intros a k e ->. by apply assign_valid.
Qed.

Lemma parse_set_makes obj : makes "set" (parse_set obj).
Proof.
  intros make. unfold parse_set. destruct (dget obj "set") as [| | | | | |c]; cbn; try done.
  destruct (nonempty (text_of c "device")) eqn:E1; cbn; [|done]. destruct (nonempty (text_of c "name")) eqn:E2; cbn; [|done].
  intros [= <-] h. cbn. split_and!; try done; by apply nonempty_spec.
Qed.
Lemma parse_wait_makes obj : makes "wait_until" (parse_wait_until obj).
Proof. intros make. unfold parse_wait_until. destruct (dget obj "wait_until"); cbn; try done. by intros [= <-] h. Qed.
Lemma parse_pause_makes obj : makes "pause" (parse_pause obj).
Proof. intros make. unfold parse_pause. by intros [= <-] h. Qed.
Lemma parse_assign_makes obj : makes "assign" (parse_assign obj).
Proof. intros make. unfold parse_assign. destruct (dget obj "assign"); try done. by intros [= <-] h. Qed.
Lemma parse_set_context_makes obj : makes "set_context" (parse_set_context obj).
Proof.
  intros make. unfold parse_set_context. destruct (dget obj "set_context") as [| | | | | |c]; cbn; try done.
  destruct (py_or _ _) as [| | | | | |f]; try done. destruct (dhas f SEQUENCER_RUN_ID_FIELD) eqn:E; [done|].
  intros [= <-] h. done.
Qed.
Lemma parse_use_makes obj : makes "use" (parse_use obj).
Proof.
  intros make. unfold parse_use. destruct (match dget obj "use" with PStr _ => _ | _ => _ end) as [[id args]|] eqn:Eid; cbn; [|done].
  assert (strip id = id) as Hs by (destruct (dget obj "use"); try done; repeat case_match; simplify_eq; apply strip_idem).
  destruct (nonempty id) eqn:E; cbn; [|done]. intros [= <-] h. split_and!; try done. split; [by apply nonempty_spec|done].
Qed.

Lemma adaptive_spec_named raw spec : parse_adaptive_spec raw = Ok spec -> ad_id spec <> "" /\ names_bound (ad_bind spec).
Proof.
  unfold parse_adaptive_spec. destruct (nonempty (strip (text_of raw "id"))) eqn:E; cbn; [|done].
  destruct (dget raw "controller") as [| | | | | |controller]; cbn; try done. destruct (dget raw "space"); cbn; try done.
  destruct (dget raw "bind") as [| | | | | |b]; cbn; try done.
  destruct (bind_entries "adaptive" b []) as [bind|] eqn:Eb; cbn; [|done]. apply bind_entries_named in Eb; [|constructor].
  destruct bind as [|kv bind]; [done|]. intros H.
  repeat match type of H with
    | (match ?r with _ => _ end ≫= _) = _ => destruct r; cbn in H; try discriminate H
    | (?r ≫= _) = _ => destruct r; cbn in H; [|discriminate H]
    end; injection H as <-; cbn; (split; [by apply nonempty_spec|by split]).
Qed.
End steps_ok.

(** ** Nesting *)
Lemma depth_pos v : (1 <= depth v)%nat.
Proof. destruct v; cbn; lia. Qed.
Lemma depth_item x l : x ∈ l -> (depth x < depth (PList l))%nat.
Proof. induction 1 as [x l|x y l _ IH]; cbn in *; lia. Qed.
Lemma depth_get d k v : od_get d k = Some v -> (depth v < depth (PDict d))%nat.
Proof. induction d as [|[k' v'] d IH]; cbn in *; [done|]. case_decide; [intros [= ->]; lia|]. intros Hv%IH. lia. Qed.
Lemma depth_dget d k : (depth (dget d k) <= depth (PDict d))%nat.
Proof.
  unfold dget. destruct (od_get d k) as [v|] eqn:E; [apply depth_get in E; cbn -[depth]; lia|apply (depth_pos (PDict d))].
Qed.
Lemma depth_dget_or d k : (depth (dget_or d k (PList [])) <= depth (PDict d))%nat.
Proof.
  unfold dget_or. destruct (od_get d k) as [v|] eqn:E; [apply depth_get in E; cbn -[depth]; lia|apply (depth_pos (PDict d))].
Qed.

(** ** Objects made by a parser have numbers of their own *)
Definition span (n : Z) (l : list Z) (n' : Z) : Prop := n <= n' /\ Forall (fun k => n <= k < n') l /\ NoDup l.

Lemma span_nil n : span n [] n.
Proof. split_and!; [lia|constructor..]. Qed.
Lemma span_app n l m l' n' : span n l m -> span m l' n' -> span n (l ++ l') n'.
Proof.
  intros (H1 & H2 & H3) (H1' & H2' & H3'). split_and!; [lia| |].
  - apply Forall_app. split; (eapply Forall_impl; [eassumption|]); cbn; lia.
  - apply NoDup_app. split_and!; [done| |done]. intros k Hk Hk'. rewrite Forall_forall in H2, H2'.
    specialize (H2 _ Hk). specialize (H2' _ Hk'). lia.
Qed.
Lemma span_cons n l m : span n l m -> span n (m :: l) (m + 1).
Proof.
  intros (H1 & H2 & H3). split_and!; [lia| |].
  - constructor; [lia|]. eapply Forall_impl; [exact H2|]. cbn. lia.
  - constructor; [|done]. intros Hk. rewrite Forall_forall in H2. specialize (H2 _ Hk). lia.
Qed.

Section parser_ok.
Context `{HR : !PyRepr, HE : !PyExpr, HL : !LooseMatches}.

Definition ids (rs : list step_ref) : list Z := (fun r => step_id (sr_step r)) <$> rs.

(** A step and the place in the document it was made from *)
Definition made_from (raw : pyval) (path : string) (r : step_ref) : Prop :=
  exists segs obj, sr_path r = render_path path segs /\ fetch raw segs = Some (PDict obj) /\
    _detect_step_kind obj = Ok (step_kind (sr_step r)) /\ disabled (sr_step r) = _parse_disabled obj /\ step_ok (sr_step r).

(** An error that names the step it is about: parsing that step raises the
    exception it reports. *)
Definition blames (raw : pyval) (path : string) (e : pyexc) : Prop :=
  exists segs item cause, segs <> [] /\ fetch raw segs = Some item /\
    e = SequenceParseError (render_path path segs +:+ ": " +:+ exc_str cause) (render_path path segs) /\
    type_or_value_error cause = true /\
    exists fuel n n', _parse_step fuel item (render_path path segs) n = Some (Err cause, n').

(** *** The steps that are written in a document

    Where each is, of which kind, and whether it is disabled: a step, then the
    steps of its bodies, each in the order of the document. *)
Definition entry : Type := string * string * bool.
Definition note (r : step_ref) : entry := (sr_path r, step_kind (sr_step r), disabled (sr_step r)).

Definition body_parts (kind : string) : list string :=
  if String.eqb kind "if" then ["then"; "else"]
  else if String.eqb kind "try" then ["do"; "finally"]
  else if bool_decide (kind ∈ ["for"; "repeat"; "while"; "atomic"; "parallel"; "adaptive"]) then ["do"]
  else [].

Section listed.
Context (listed : pyval -> string -> list entry).
Fixpoint listed_from (path : string) (i : nat) (items : list pyval) : list entry :=
  match items with [] => [] | x :: l => listed x (item_path path i) ++ listed_from path (S i) l end.
Definition listed_body (raw : pyval) (path : string) : list entry :=
  match raw with PList items => listed_from path 0 items | _ => [] end.
Definition listed_parts (obj : dict) (kind path : string) : list entry :=
  match dget obj kind with
  | PDict f => body_parts kind ≫= fun part => listed_body (dget_or f part (PList [])) (path +:+ "." +:+ kind +:+ "." +:+ part)
  | _ => []
  end.
End listed.

Fixpoint listed (fuel : nat) (raw : pyval) (path : string) : list entry :=
  match fuel, raw with
  | S fuel, PDict obj =>
      match _detect_step_kind obj with
      | Ok kind => (path, kind, _parse_disabled obj) :: listed_parts (listed fuel) obj kind path
      | Err _ => []
      end
  | _, _ => []
  end.

(** Any fuel above the nesting lists the same. *)
Lemma listed_body_ext f g raw path :
  (forall x p, (depth x < depth raw)%nat -> f x p = g x p) -> listed_body f raw path = listed_body g raw path.
Proof.
  intros H. destruct raw as [| | | | |l|]; try done. cbn [listed_body].
  assert (forall x p, x ∈ l -> f x p = g x p) as Hl by (intros x p Hx; by apply H, depth_item). clear H.
  generalize 0%nat. induction l as [|x l IH]; intros i; [done|]. cbn. rewrite Hl by left. f_equal.
  apply IH. intros y p Hy. apply Hl. by right.
Qed.

Lemma listed_enough fuel fuel' raw path : (depth raw <= fuel)%nat -> (depth raw <= fuel')%nat -> listed fuel raw path = listed fuel' raw path.
Proof.
  revert fuel' raw path. induction fuel as [|fuel IH]; intros [|fuel'] raw path H1 H2; try (pose proof (depth_pos raw); lia).
  destruct raw as [| | | | | |obj]; try done. cbn [listed]. destruct (_detect_step_kind obj) as [kind|]; [|done]. f_equal.
  unfold listed_parts. destruct (dget obj kind) as [| | | | | |f] eqn:Ef; try done.
  assert (depth (PDict f) <= depth (PDict obj))%nat as Hf by (rewrite <- Ef; apply depth_dget).
  induction (body_parts kind) as [|part parts IHp]; [done|]. cbn [mbind list_bind]. f_equal; [|exact IHp].
  apply listed_body_ext. intros x p Hx. pose proof (depth_dget_or f part). apply IH; lia.
Qed.

(** All the steps of a list, which are those listed in [W] *)
Definition made_all (raw : pyval) (path : string) (p : string) (i : nat) (l : list step) (n n' : Z) (W : list entry) : Prop :=
  forall b, Forall (made_from raw path) (refs_from p b i l) /\ span n (ids (refs_from p b i l)) n' /\
    note <$> refs_from p b i l = W.

(** Into an item, and into a part *)
Lemma made_from_item l i x path r : l !! i = Some x -> made_from x (item_path path i) r -> made_from (PList l) path r.
Proof.
  intros Hi (segs & obj & Ep & Ef & H). exists (At i :: segs), obj. split_and!; [done| |apply H..]. cbn. by rewrite Hi.
Qed.
Lemma blames_item l i x path e : l !! i = Some x -> blames x (item_path path i) e -> blames (PList l) path e.
Proof.
  intros Hi (segs & item & cause & _ & Ef & H). exists (At i :: segs), item, cause. split_and!; [done| |apply H..]. cbn. by rewrite Hi.
Qed.

Section part.
Context (obj f : dict) (kind part path : string) (Hf : dget obj kind = PDict f).
#[local] Abbreviation inner := (dget_or f part (PList [])).

Lemma fetch_part segs v : segs <> [] \/ (exists d, v = PDict d) -> fetch inner segs = Some v ->
  fetch (PDict obj) (Part kind part :: segs) = Some v.
Proof.
  intros Hs Hv. cbn. unfold dget in Hf. destruct (od_get obj kind) as [g|]; cbn in Hf; [subst g|done].
  unfold dget_or in Hv. destruct (od_get f part) as [u|]; cbn in Hv |- *; [done|].
  destruct segs as [|[i|]]; cbn in Hv; try done. injection Hv as <-. destruct Hs as [|[d Hd]]; done.
Qed.
Lemma made_from_part r : made_from inner (path +:+ "." +:+ kind +:+ "." +:+ part) r -> made_from (PDict obj) path r.
Proof.
  intros (segs & o & Ep & Ef & H). exists (Part kind part :: segs), o. split_and!; [done| |apply H..]. apply fetch_part; eauto.
Qed.
Lemma blames_part e : blames inner (path +:+ "." +:+ kind +:+ "." +:+ part) e -> blames (PDict obj) path e.
Proof.
  intros (segs & item & cause & Hs & Ef & H). exists (Part kind part :: segs), item, cause.
  split_and!; [done| |apply H..]. apply fetch_part; eauto.
Qed.
End part.

Definition step_errors (raw : pyval) (path : string) (e : pyexc) : Prop := type_or_value_error e = true \/ blames raw path e.

Definition step_result (fuel : nat) : Prop := forall raw path n, (depth raw <= fuel)%nat ->
  wp (_parse_step fuel raw path) n
    (fun x n' => forall b, Forall (made_from raw path) (refs_of path b x) /\ span n (ids (refs_of path b x)) n' /\
       note <$> refs_of path b x = listed fuel raw path)
    (step_errors raw path).

(** ** Lists of steps *)
Lemma parse_items_ok fuel whole path i items n : step_result fuel ->
  (forall x, x ∈ whole -> (depth x <= fuel)%nat) -> drop i whole = items ->
  wp (parse_items (_parse_step fuel) path i items) n
    (fun l n' => made_all (PList whole) path path i l n n' (listed_from (listed fuel) path i items)) (blames (PList whole) path).
Proof.
  intros Hstep Hd. revert i n. induction items as [|x items IH]; intros i n Hi; cbn [parse_items].
  { apply wp_ret. intros b. split_and!; [constructor|apply span_nil|done]. }
  assert (whole !! i = Some x) as Hx by (rewrite <- (Nat.add_0_r i), <- lookup_drop, Hi; done).
  assert (drop (S i) whole = items) as Hi' by (by rewrite <- Nat.add_1_r, <- drop_drop, Hi).
  apply wp_bind. unfold wp at 1, located, except.
  pose proof (Hstep x (item_path path i) n (Hd x ltac:(by eapply list_elem_of_lookup_2))) as Hs. unfold wp in Hs.
  destruct (_parse_step fuel x (item_path path i) n) as [[[y|e] n1]|] eqn:Ep; [| |done].
  - apply wp_bind. eapply wp_mono; [apply (IH (S i) n1 Hi')| |done]. intros l n2 Hl. apply wp_ret. intros b.
    destruct (Hs b) as (Hm & Hsp & Hn). destruct (Hl b) as (Hml & Hspl & Hnl). cbn. unfold ids. rewrite !fmap_app. split_and!.
    + apply Forall_app. split; [|done]. eapply Forall_impl; [exact Hm|]. intros r. by apply made_from_item.
    + by eapply span_app.
    + by rewrite Hn, Hnl.
  - cbn. destruct Hs as [Hown|Hb].
    + destruct (is_parse_error e) eqn:Epe; [by destruct e|]. rewrite Hown. cbn. exists [At i], x, e.
      split_and!; [done|by cbn; rewrite Hx|done|done|by eexists _, _, _].
    + assert (is_parse_error e = true) as Epe by (by destruct Hb as (? & ? & ? & _ & _ & -> & _)).
      rewrite Epe. cbn. by eapply blames_item.
Qed.

Lemma parse_steps_ok fuel raw path n : step_result fuel -> (depth raw <= S fuel)%nat ->
  wp (_parse_steps (_parse_step fuel) raw path) n
    (fun l n' => made_all raw path path 0 l n n' (listed_body (listed fuel) raw path)) (step_errors raw path).
Proof.
  intros Hstep Hd. unfold _parse_steps. apply wp_bind, wp_lift.
  - intros items E. destruct raw as [| | | | |l|]; try done. injection E as <-.
    eapply wp_mono; [apply (parse_items_ok fuel l); [done| |done]|done|by right].
    intros x Hx%depth_item. lia.
  - intros e E. left. by eapply plain_err; [apply require_list_plain|].
Qed.

(** ** Steps *)

(** A step without its identity, whose nested steps are fine *)
Definition making (fuel : nat) (obj : dict) (kind path : string) (n : Z) (make : step_header -> step) (n' : Z) : Prop :=
  forall h, header (make h) = h /\ step_kind (make h) = kind /\ step_ok (make h) /\
    let nested := step_bodies (make h) path ≫= fun '(p, l, b) => refs_from p b 0 l in
    Forall (made_from (PDict obj) path) nested /\ span n (ids nested) n' /\
    note <$> nested = listed_parts (listed fuel) obj kind path.

Lemma listed_flat f obj kind path : body_parts kind = [] -> listed_parts f obj kind path = [].
Proof. unfold listed_parts. intros ->. by destruct (dget obj kind). Qed.

Lemma flat_ok fuel obj kind path n (r : result (step_header -> step)) : makes kind r -> plain r -> body_parts kind = [] ->
  wp (up (lift r)) n (making fuel obj kind path n) (step_errors (PDict obj) path).
Proof.
  intros Hm Hp Hk. apply wp_lift.
  - intros make E h. destruct (Hm make E h) as (H1 & H2 & H3 & H4). rewrite H4, listed_flat by done. cbn.
    split_and!; [done..|constructor|apply span_nil|done].
  - intros e E. left. by eapply plain_err.
Qed.

Lemma ids_app a b : ids (a ++ b) = ids a ++ ids b.
Proof. apply fmap_app. Qed.

Section bodies.
Context (fuel : nat) (Hstep : step_result fuel) (obj : dict) (Hd : (depth (PDict obj) <= S fuel)%nat) (path : string).

Lemma body_ok kind part f n : dget obj kind = PDict f ->
  wp (_parse_steps (_parse_step fuel) (dget_or f part (PList [])) (path +:+ "." +:+ kind +:+ "." +:+ part)) n
    (fun l n' => made_all (PDict obj) path (path +:+ "." +:+ kind +:+ "." +:+ part) 0 l n n'
       (listed_body (listed fuel) (dget_or f part (PList [])) (path +:+ "." +:+ kind +:+ "." +:+ part))) (step_errors (PDict obj) path).
Proof.
  intros Hf. eapply wp_mono; [apply parse_steps_ok; [done|]| |].
  - pose proof (depth_dget_or f part) as H1. pose proof (depth_dget obj kind) as H2. rewrite Hf in H2. lia.
  - intros l n' H b. destruct (H b) as (Hm & Hs). split; [|done]. eapply Forall_impl; [exact Hm|].
    intros r. by apply made_from_part.
  - intros e [He|Hb]; [by left|right]. by eapply blames_part.
Qed.

(** The value of a kind is a dict *)
Lemma require_ok {A} kind n (k : dict -> pyL Z A) K :
  (forall f, dget obj kind = PDict f -> wp (k f) n K (step_errors (PDict obj) path)) ->
  wp (f ← up (lift (_require_dict (dget obj kind) kind)); k f) n K (step_errors (PDict obj) path).
Proof.
  intros H. apply wp_bind, wp_lift.
  - intros f E. apply H. destruct (dget obj kind); try done. by injection E as ->.
  - intros e E. left. by eapply plain_err; [apply require_dict_plain|].
Qed.

Lemma check_ok {A B} (r : result A) n (k : A -> pyL Z B) K : plain r ->
  (forall a, r = Ok a -> wp (k a) n K (step_errors (PDict obj) path)) ->
  wp (a ← up (lift r); k a) n K (step_errors (PDict obj) path).
Proof. intros Hp H. apply wp_bind, wp_lift; [done|]. intros e E. left. by eapply plain_err. Qed.

(** One body, of a step that is fine by itself *)
Lemma one_body kind part f n (mk : list step -> step_header -> step) : dget obj kind = PDict f -> body_parts kind = [part] ->
  (forall l h, header (mk l h) = h /\ step_kind (mk l h) = kind /\ step_ok (mk l h) /\
     step_bodies (mk l h) path = [(path +:+ "." +:+ kind +:+ "." +:+ part, l, None)]) ->
  wp (body ← _parse_steps (_parse_step fuel) (dget_or f part (PList [])) (path +:+ "." +:+ kind +:+ "." +:+ part);
      mret (mk body)) n (making fuel obj kind path n) (step_errors (PDict obj) path).
Proof.
  intros Hf Hk Hmk. apply wp_bind. eapply wp_mono; [by apply body_ok| |done]. intros l n' H. apply wp_ret. intros h.
  destruct (Hmk l h) as (H1 & H2 & H3 & H4). rewrite H4. unfold listed_parts. rewrite Hf, Hk. cbn [mbind list_bind]. rewrite !app_nil_r.
  split_and!; [done..|apply H|apply H|apply H].
Qed.

(** Two bodies *)
Lemma two_bodies kind l1 l2 p1 p2 b1 b2 n n1 n2 (make : step_header -> step) W1 W2 :
  made_all (PDict obj) path p1 0 l1 n n1 W1 -> made_all (PDict obj) path p2 0 l2 n1 n2 W2 ->
  listed_parts (listed fuel) obj kind path = W1 ++ W2 ->
  (forall h, header (make h) = h /\ step_kind (make h) = kind /\ step_ok (make h) /\
     step_bodies (make h) path = [(p1, l1, b1); (p2, l2, b2)]) ->
  making fuel obj kind path n make n2.
Proof.
  intros Ha Hb HW Hmk h. destruct (Hmk h) as (H1 & H2 & H3 & H4). rewrite H4. cbn. rewrite app_nil_r, ids_app, fmap_app.
  destruct (Ha b1) as (Ha1 & Ha2 & Ha3), (Hb b2) as (Hb1 & Hb2 & Hb3).
  split_and!; [done..| |by eapply span_app|by rewrite HW, Ha3, Hb3]. by apply Forall_app.
Qed.

Lemma parse_for_ok n : wp (parse_for (_parse_step fuel) obj path) n (making fuel obj "for" path n) (step_errors (PDict obj) path).
Proof.
  unfold parse_for. apply require_ok. intros f Hf. apply check_ok; [apply for_bind_plain|]. intros bind Eb%for_bind_named.
  apply check_ok; [apply validate_in_plain|]. intros [] Ei.
  apply (one_body "for" "do" f n (fun l h => ForStep h bind (dget f "in") l) Hf eq_refl). intros l h. split_and!; try done.
  split; [done|]. intros d g Ed Eg. unfold validate_in in Ei. by rewrite Ed, Eg in Ei.
Qed.
Lemma parse_repeat_ok n : wp (parse_repeat (_parse_step fuel) obj path) n (making fuel obj "repeat" path n) (step_errors (PDict obj) path).
Proof.
  unfold parse_repeat. apply require_ok. intros f Hf.
  by apply (one_body "repeat" "do" f n (fun l h => RepeatStep h (dget_or f "times" (PInt 1)) l) Hf eq_refl).
Qed.
Lemma parse_while_ok n : wp (parse_while (_parse_step fuel) obj path) n (making fuel obj "while" path n) (step_errors (PDict obj) path).
Proof.
  unfold parse_while. apply require_ok. intros f Hf. apply wp_bind, wp_guard; [intros _|by left].
  by apply (one_body "while" "do" f n (fun l h => WhileStep h (dget f "condition") l) Hf eq_refl).
Qed.
Lemma parse_atomic_ok n : wp (parse_atomic (_parse_step fuel) obj path) n (making fuel obj "atomic" path n) (step_errors (PDict obj) path).
Proof.
  unfold parse_atomic. apply require_ok. intros f Hf.
  by apply (one_body "atomic" "do" f n (fun l h => AtomicStep h (str_opt (dget f "name")) l) Hf eq_refl).
Qed.
Lemma parse_parallel_ok n :
  wp (parse_parallel (_parse_step fuel) obj path) n (making fuel obj "parallel" path n) (step_errors (PDict obj) path).
Proof.
  unfold parse_parallel. apply require_ok. intros f Hf. by apply (one_body "parallel" "do" f n (fun l h => ParallelStep h l) Hf eq_refl).
Qed.
Lemma parse_adaptive_ok n :
  wp (parse_adaptive (_parse_step fuel) obj path) n (making fuel obj "adaptive" path n) (step_errors (PDict obj) path).
Proof.
  unfold parse_adaptive. apply require_ok. intros f Hf. apply check_ok; [apply adaptive_spec_plain|].
  intros spec [Hi Hb]%adaptive_spec_named. apply wp_bind. eapply wp_mono; [by apply (body_ok "adaptive" "do")| |done].
  intros [|x l] n' H; [by left|]. apply wp_ret. intros h. cbn -[refs_from]. rewrite app_nil_r.
  assert (listed_parts (listed fuel) obj "adaptive" path =
    listed_body (listed fuel) (dget_or f "do" (PList [])) (path +:+ "." +:+ "adaptive" +:+ "." +:+ "do")) as ->.
  { unfold listed_parts. rewrite Hf. apply app_nil_r. }
  split_and!; try done; apply H.
Qed.
Lemma parse_try_ok n : wp (parse_try (_parse_step fuel) obj path) n (making fuel obj "try" path n) (step_errors (PDict obj) path).
Proof.
  unfold parse_try. apply require_ok. intros f Hf. apply wp_bind, wp_guard; [intros _|by left].
  apply wp_bind. eapply wp_mono; [by apply (body_ok "try" "do")| |done]. intros l1 n1 H1.
  apply wp_bind. eapply wp_mono; [by apply (body_ok "try" "finally")| |done]. intros l2 n2 H2. apply wp_ret.
  eapply two_bodies; [exact H1|exact H2| |intros h; split_and!; [done..|reflexivity]].
  unfold listed_parts. rewrite Hf. cbn [mbind list_bind body_parts]. cbn -[listed_body dget_or]. by rewrite app_nil_r.
Qed.
Lemma parse_if_ok n : wp (parse_if (_parse_step fuel) obj path) n (making fuel obj "if" path n) (step_errors (PDict obj) path).
Proof.
  unfold parse_if. apply require_ok. intros f Hf.
  apply wp_bind. eapply wp_mono; [by apply (body_ok "if" "then")| |done]. intros l1 n1 H1. apply wp_bind.
  assert (forall l2 n2, made_all (PDict obj) path (path +:+ ".if.else") 0 (default [] l2) n1 n2
      (listed_body (listed fuel) (dget_or f "else" (PList [])) (path +:+ "." +:+ "if" +:+ "." +:+ "else")) ->
    making fuel obj "if" path n (fun h => IfStep h (dget f "condition") l1 l2) n2) as Hmk.
  { intros l2 n2 H2. eapply two_bodies; [exact H1|exact H2| |intros h; split_and!; [done..|reflexivity]].
    unfold listed_parts. rewrite Hf. cbn -[listed_body dget_or]. by rewrite app_nil_r. }
  destruct (dget f "else") eqn:Ee.
  { apply wp_ret, wp_ret, Hmk. intros b. split_and!; [constructor|apply span_nil|].
    unfold dget_or, dget in *. by destruct (od_get f "else") as [v|]; cbn in *; subst. }
  all: rewrite <- Ee; replace (dget f "else") with (dget_or f "else" (PList []))
    by (unfold dget_or, dget in *; by destruct (od_get f "else")).
  all: apply wp_bind; eapply wp_mono; [by apply (body_ok "if" "else")| |done]; intros l2 n2 H2; by apply wp_ret, wp_ret, Hmk.
Qed.

(** ** The kind that is found is the kind that is parsed *)
Lemma find_kind {A} k ks (f : string -> A) (z : A) :
  match list_find (fun k => dhas obj k = true) (k :: ks) with Some (_, x) => f x | None => z end =
  if dhas obj k then f k else match list_find (fun k => dhas obj k = true) ks with Some (_, x) => f x | None => z end.
Proof.
  cbn. destruct (dhas obj k) eqn:E; [by rewrite decide_True|]. rewrite decide_False by congruence.
  by destruct (list_find _ ks) as [[]|].
Qed.

Lemma kind_ok kind n : _detect_step_kind obj = Ok kind ->
  wp (parse_kind (_parse_step fuel) obj path) n (making fuel obj kind path n) (step_errors (PDict obj) path).
Proof.
  unfold _detect_step_kind, _STEP_KINDS, parse_kind. rewrite !find_kind.
  destruct (dhas obj "call"); [intros [= <-]; apply flat_ok; [apply parse_call_makes|apply parse_call_plain|done]|].
  destruct (dhas obj "set"); [intros [= <-]; apply flat_ok; [apply parse_set_makes|apply parse_set_plain|done]|].
  destruct (dhas obj "sleep").
  { intros [= <-]. apply wp_ret. intros h. rewrite listed_flat by done. cbn. split_and!; [done..|constructor|apply span_nil|done]. }
  destruct (dhas obj "wait_until"); [intros [= <-]; apply flat_ok; [apply parse_wait_makes|apply parse_wait_plain|done]|].
  destruct (dhas obj "for"); [intros [= <-]; apply parse_for_ok|].
  destruct (dhas obj "repeat"); [intros [= <-]; apply parse_repeat_ok|].
  destruct (dhas obj "if"); [intros [= <-]; apply parse_if_ok|].
  destruct (dhas obj "while"); [intros [= <-]; apply parse_while_ok|].
  destruct (dhas obj "atomic"); [intros [= <-]; apply parse_atomic_ok|].
  destruct (dhas obj "pause"); [intros [= <-]; apply flat_ok; [apply parse_pause_makes|done|done]|].
  destruct (dhas obj "parallel"); [intros [= <-]; apply parse_parallel_ok|].
  destruct (dhas obj "try"); [intros [= <-]; apply parse_try_ok|].
  destruct (dhas obj "assign"); [intros [= <-]; apply flat_ok; [apply parse_assign_makes|apply parse_assign_plain|done]|].
  destruct (dhas obj "set_context"); [intros [= <-]; apply flat_ok; [apply parse_set_context_makes|apply parse_set_context_plain|done]|].
  destruct (dhas obj "use"); [intros [= <-]; apply flat_ok; [apply parse_use_makes|apply parse_use_plain|done]|].
  destruct (dhas obj "adaptive"); [intros [= <-]; apply parse_adaptive_ok|].
  cbn. by case_match.
Qed.
End bodies.

Theorem parse_step_ok fuel : step_result fuel.
Proof.
  induction fuel as [|fuel IH]; intros raw path n Hd; [pose proof (depth_pos raw); lia|]. cbn [_parse_step].
  apply wp_bind, wp_lift; [|intros e E; left; by eapply plain_err; [apply require_dict_plain|]].
  intros obj E. destruct raw as [| | | | | |d]; try done. injection E as ->.
  apply check_ok; [apply detect_kind_plain|]. intros kind Ek. apply check_ok; [apply validate_keys_plain|]. intros [] _.
  apply wp_bind. eapply wp_mono; [by apply kind_ok| |done]. intros make n1 Hm.
  apply wp_bind. unfold wp at 1, new_id, up. apply wp_ret. intros b.
  destruct (Hm (mkHeader n1 (_parse_disabled obj))) as (Hh & Hk & Ho & Hnest & Hspan & Hlist).
  rewrite refs_of_bodies. unfold ids. cbn [fmap list_fmap]. split_and!.
  - constructor; [|done]. exists [], obj. split_and!; [done|done| | |done]; cbn; [by rewrite Hk|].
    unfold disabled. by rewrite Hh.
  - unfold step_id at 1. cbn [sr_step]. rewrite Hh. by apply span_cons.
  - cbn [listed]. rewrite Ek, <- Hlist.
    unfold note at 1, disabled. cbn [sr_path sr_step]. by rewrite Hk, Hh.
Qed.
End parser_ok.

(** ** Whole sequences *)

(** A step and its nested steps, wherever they are *)
Fixpoint all_steps (x : step) : list step :=
  let all := fix all (l : list step) : list step := match l with [] => [] | y :: l => all_steps y ++ all l end in
  x ::
  match x with
  | AdaptiveStep _ _ body
  | ForStep _ _ _ body | RepeatStep _ _ body | WhileStep _ _ body | AtomicStep _ _ body | ParallelStep _ body => all body
  | IfStep _ _ then_steps else_steps => all then_steps ++ match else_steps with Some l => all l | None => [] end
  | TryStep _ body finally_steps => all body ++ all finally_steps
  | _ => []
  end.

Lemma steps_anywhere p b i l : sr_step <$> refs_from p b i l = l ≫= all_steps.
Proof.
  transitivity (refs_from p b i l ≫= fun r => [sr_step r]).
  { induction (refs_from p b i l) as [|r rs IH]; [done|]. cbn. by f_equal. }
  symmetry. apply (collect_refs _ (fun _ _ x => all_steps x) (fun _ _ _ l => l ≫= all_steps)).
  - intros ? ? ? []; done.
  - intros p' b' x. destruct x as [| | | | | |h c l1 [l2|]| | | | | | | | |]; cbn; rewrite ?app_nil_r; done.
Qed.
Lemma ids_anywhere p b i l : ids (refs_from p b i l) = step_id <$> (l ≫= all_steps).
Proof. rewrite <- (steps_anywhere p b i). unfold ids. by rewrite <- list_fmap_compose. Qed.

Lemma span_mono n l m n' : span n l m -> m <= n' -> span n l n'.
Proof. intros (H1 & H2 & H3) Hm. split_and!; [lia| |done]. eapply Forall_impl; [exact H2|]. cbn. lia. Qed.
Lemma span_perm n l l' m : l ≡ₚ l' -> span n l m -> span n l' m.
Proof. intros Hp (H1 & H2 & H3). split_and!; [done|by rewrite <- Hp|by rewrite <- Hp]. Qed.

(** The calls of the gate *)
Definition gate_calls (n : Z) (action : string) (wids : list string) : list step :=
  imap (fun i wid => watchdog_call (n + Z.of_nat i) action wid) wids.

Lemma gate_calls_cons n action w wids : gate_calls n action (w :: wids) = watchdog_call n action w :: gate_calls (n + 1) action wids.
Proof.
  unfold gate_calls. cbn [imap]. rewrite Z.add_0_r. f_equal. apply imap_ext. intros i x _. cbn. f_equal. lia.
Qed.
Lemma gate_calls_flat n action wids : gate_calls n action wids ≫= all_steps = gate_calls n action wids.
Proof. revert n. induction wids as [|w wids IH]; intros n; [done|]. rewrite gate_calls_cons. cbn. f_equal. apply IH. Qed.
Lemma gate_calls_span n action wids : span n (step_id <$> gate_calls n action wids) (n + Z.of_nat (length wids)).
Proof.
  revert n. induction wids as [|w wids IH]; intros n; [rewrite Z.add_0_r; apply span_nil|]. rewrite gate_calls_cons.
  destruct (IH (n + 1)) as (H1 & H2 & H3). cbn in *. split_and!; [lia| |].
  - constructor; [lia|]. eapply Forall_impl; [exact H2|]. cbn. lia.
  - constructor; [|done]. intros Hin. rewrite Forall_forall in H2. specialize (H2 _ Hin). lia.
Qed.

Section sequences.
Context `{HR : !PyRepr, HE : !PyExpr, HL : !LooseMatches}.
#[local] Abbreviation source obj := (dget_or obj "steps" (PList [])).

Lemma gate_calls_ok n action wids : action <> "" -> Forall step_ok (gate_calls n action wids).
Proof.
  intros Ha. revert n. induction wids as [|w wids IH]; intros n; [constructor|]. rewrite gate_calls_cons. constructor; [|done].
  cbn. split_and!; [done| |done|done]. right. split; [done|]. by exists "watchdog".
Qed.

(** The steps that are written in a document *)
Definition document_entries (obj : dict) : list entry := listed_body (listed (depth (PDict obj))) (source obj) "steps".

(** The steps of a document, before the gate *)
Lemma document_steps obj n :
  wp (_parse_steps (_parse_step (depth (PDict obj))) (source obj) "steps") n
    (fun l n' => made_all (source obj) "steps" "steps" 0 l n n' (document_entries obj)) (step_errors (source obj) "steps").
Proof. apply parse_steps_ok; [apply parse_step_ok|]. pose proof (depth_dget_or obj "steps"). lia. Qed.

Lemma made_all_ok raw path p i l n n' W : made_all raw path p i l n n' W ->
  Forall step_ok (l ≫= all_steps) /\ span n (step_id <$> (l ≫= all_steps)) n'.
Proof.
  intros H. destruct (H None) as (Hm & Hs & _). rewrite ids_anywhere in Hs. split; [|done].
  rewrite <- (steps_anywhere p None i). apply Forall_fmap. eapply Forall_impl; [exact Hm|].
  by intros r (segs & obj & _ & _ & _ & _ & ?).
Qed.

(** The gate around them: its steps are fine too, and all objects are different. *)
Lemma gated_ok l wids n n1 : Forall step_ok (l ≫= all_steps) -> span n (step_id <$> (l ≫= all_steps)) n1 ->
  wp (gated l wids) n1
    (fun l' n2 => (exists fresh g, l' = _apply_watchdog_gate fresh g l wids) /\
       Forall step_ok (l' ≫= all_steps) /\ span n (step_id <$> (l' ≫= all_steps)) n2)
    (fun _ => False).
Proof.
  intros Hok Hs. unfold wp, gated. split; [by eexists _, _|]. destruct wids as [wids|]; cbn [_apply_watchdog_gate].
  2: { split; [done|]. eapply span_mono; [done|]. cbn. lia. }
  change (default [] (Some wids)) with wids. set (k := Z.of_nat (length wids)).
  assert (enable_steps (fun enable i => n1 + (if enable : bool then 0 else k) + Z.of_nat i) wids = gate_calls n1 "watchdog.enable" wids) as ->.
  { apply imap_ext. intros i x _. f_equal. lia. }
  assert (disable_steps (fun enable i => n1 + (if enable : bool then 0 else k) + Z.of_nat i) wids = gate_calls (n1 + k) "watchdog.disable" wids) as ->.
  { apply imap_ext. intros i x _. done. }
  set (g := mkHeader (n1 + 2 * k) false). set (body := gate_calls n1 "watchdog.enable" wids ++ l).
  set (final := gate_calls (n1 + k) "watchdog.disable" wids).
  assert ([TryStep g body final] ≫= all_steps =
    TryStep g body final :: (gate_calls n1 "watchdog.enable" wids ++ (l ≫= all_steps)) ++ final) as ->.
  { transitivity (TryStep g body final :: (body ≫= all_steps) ++ (final ≫= all_steps)).
    - change (mbind (M := list) all_steps [TryStep g body final]) with (all_steps (TryStep g body final) ++ []).
      by rewrite app_nil_r.
    - unfold body, final. by rewrite bind_app, !gate_calls_flat. }
  split.
  - constructor; [done|]. rewrite !Forall_app. split_and!; [by apply gate_calls_ok|done|by apply gate_calls_ok].
  - cbn [fmap list_fmap]. change (step_id (TryStep g body final)) with (n1 + 2 * k).
    replace (n1 + 2 * k) with (n1 + k + k) by lia. apply span_cons. rewrite !fmap_app. apply (span_app _ _ (n1 + k)); [|apply gate_calls_span].
    eapply span_perm; [apply Permutation_app_comm|]. apply (span_app _ _ n1); [done|apply gate_calls_span].
Qed.

(** ** The checks of the rest *)
Lemma check_all_plain {A} (f : nat -> A -> result unit) i l : (forall j x, plain (f j x)) -> plain (check_all f i l).
Proof. intros Hf. revert i. induction l as [|x l IH]; intros i; cbn; plain. Qed.
Lemma form_dict_plain v w : plain (form_dict v w).
Proof. unfold form_dict. plain. Qed.
Lemma form_keys_plain d w a : plain (form_keys d w a).
Proof. unfold form_keys. plain. Qed.
Lemma check_var_plain vs v w : plain (_check_var vs v w).
Proof. unfold _check_var. plain. Qed.
#[local] Hint Resolve form_dict_plain form_keys_plain check_var_plain : plain.
#[local] Ltac form := repeat (plain_step || (apply check_all_plain; intros)).
Lemma check_var'_plain vs v w : plain (check_var vs v w).
Proof. unfold check_var. plain. Qed.
#[local] Hint Resolve check_var'_plain : plain.
Lemma check_options_plain v w : plain (_check_options v w).
Proof. unfold _check_options. form. Qed.
Lemma check_target_plain vs d w : plain (check_target vs d w).
Proof. unfold check_target. form. Qed.
Lemma check_options_call_plain d w : plain (check_options_call d w).
Proof. unfold check_options_call. form. Qed.
#[local] Hint Resolve check_options_plain check_target_plain check_options_call_plain : plain.
Lemma check_kind_plain vs k d w : plain (check_kind vs k d w).
Proof. unfold check_kind. form. Qed.
#[local] Hint Resolve check_kind_plain : plain.
Lemma check_field_plain vs v w : plain (_check_field vs v w).
Proof. unfold _check_field. form. Qed.
#[local] Hint Resolve check_field_plain : plain.
Lemma check_fields_plain vs w i l ts rs : plain (check_fields vs w i l ts rs).
Proof. revert i ts rs. induction l as [|x l IH]; intros i ts rs; cbn; form. Qed.
#[local] Hint Resolve check_fields_plain : plain.
Lemma check_section_plain vs w v ts rs : plain (check_section vs w v ts rs).
Proof. unfold check_section. form. Qed.
#[local] Hint Resolve check_section_plain : plain.
Lemma check_sections_plain vs i l ts rs : plain (check_sections vs i l ts rs).
Proof. revert i ts rs. induction l as [|x l IH]; intros i ts rs; cbn; form. Qed.
Lemma check_preset_plain vs i v : plain (check_preset vs i v).
Proof. unfold check_preset. form. Qed.
Lemma check_summary_plain vs i v : plain (check_summary vs i v).
Proof. unfold check_summary. form. Qed.
Lemma target_range_plain ts rs : plain (check_target_range ts rs).
Proof. unfold check_target_range. form. Qed.
Lemma py_iter_plain v : plain (py_iter v).
Proof. unfold py_iter. plain. Qed.
#[local] Hint Resolve check_sections_plain check_preset_plain check_summary_plain target_range_plain py_iter_plain : plain.
Lemma run_form_plain vs v : plain (validate_run_form vs v).
Proof. unfold validate_run_form. form. Qed.
Lemma requires_plain v : plain (parse_requires v).
Proof. unfold parse_requires. plain. Qed.
Lemma meta_plain v : plain (parse_meta v).
Proof. unfold parse_meta. plain. Qed.
Lemma column_types_plain d c : plain (column_types d c).
Proof. revert c. induction d as [|[k v] d IH]; intros c; cbn; plain. Qed.
Lemma watchdog_ids_plain v : plain (_normalize_watchdog_ids v).
Proof. unfold _normalize_watchdog_ids. plain. Qed.

(** ** Sequences *)
Lemma no_duplicate seen l : duplicate seen l = None -> NoDup l /\ Forall (fun x => x ∉ seen) l.
Proof.
  revert seen. induction l as [|x l IH]; intros seen; cbn; [by split; constructor|]. case_bool_decide as Hx; [done|].
  intros [Hn Hf]%IH. rewrite Forall_forall in Hf. split; constructor; try done.
  - intros Hin. apply (Hf _ Hin). by left.
  - apply Forall_forall. intros y Hy Hs. apply (Hf _ Hy). by right.
Qed.

Definition column_ok (c : string * string) : Prop := c.1 <> SEQUENCER_RUN_ID_FIELD /\ c.2 ∈ ["float64"; "int64"; "bool"].
Lemma column_types_ok d cols cols' : column_types d cols = Ok cols' -> Forall column_ok cols -> Forall column_ok cols'.
Proof.
  revert cols. induction d as [|[k v] d IH]; intros cols; cbn -[SEQUENCER_RUN_ID_FIELD]; [by intros [= ->]|].
  destruct (String.eqb_spec k SEQUENCER_RUN_ID_FIELD) as [|Hk]; [done|]. case_bool_decide as Hv; [|done].
  intros H Hc. apply (IH _ H). clear -Hc Hk Hv.
  induction Hc as [|[k' v'] l Hx Hl IHl]; cbn; [apply Forall_singleton; by split|]. case_decide; constructor; try done. by destruct Hx.
Qed.

Lemma named_texts l : Forall (fun y => exists s, y = PStr s /\ strip s <> "") l ->
  Forall (fun s => strip s <> "") (omap (fun v => match v with PStr s => Some s | _ => None end) l).
Proof. induction 1 as [|y k (s & -> & Hs) _ IH]; cbn; [constructor|]. by constructor. Qed.

Lemma watchdog_ids_named v wids : _normalize_watchdog_ids v = Ok (Some wids) -> wids <> [] /\ Forall (fun s => strip s <> "") wids.
Proof.
  unfold _normalize_watchdog_ids. destruct v as [| | | | |[|x l]|]; try done. destruct (forallb named (x :: l)) eqn:E; [|done].
  intros [= <-]. assert (Forall (fun y => exists s, y = PStr s /\ strip s <> "") (x :: l)) as H.
  { apply Forall_forall. intros y Hy%list_elem_of_In. rewrite forallb_forall in E. specialize (E y Hy).
    destruct y as [| | | |s| |]; try done. exists s. split; [done|]. by apply nonempty_spec. }
  split; [by apply Forall_cons in H as [(s & -> & _) _]|]. exact (named_texts _ H).
Qed.

(** What a parsed sequence promises *)
Record sequence_ok (raw : pyval) (sq : sequence) : Prop := {
  so_source : exists obj steps fresh g, raw = PDict obj /\
    sp_steps (sq_spec sq) = _apply_watchdog_gate fresh g steps (sq_watchdog_ids sq) /\
    (forall fuel, (depth (PDict obj) <= fuel)%nat ->
       note <$> step_paths steps "steps" = listed_body (listed fuel) (source obj) "steps") /\
    Forall (made_from (source obj) "steps") (step_paths steps "steps") /\ NoDup (_iter_adaptive_ids steps);
  so_steps : Forall step_ok (sp_steps (sq_spec sq) ≫= all_steps);
  so_distinct : NoDup (step_id <$> (sp_steps (sq_spec sq) ≫= all_steps));
  so_watchdogs : forall wids, sq_watchdog_ids sq = Some wids -> wids <> [] /\ Forall (fun s => strip s <> "") wids;
  so_columns : forall cols, sq_context_columns sq = Some cols -> Forall column_ok cols
}.

(** An error names a step only if it is about that step. *)
Definition honest (raw : pyval) (e : pyexc) : Prop :=
  is_parse_error e = true -> exists obj, raw = PDict obj /\ blames (source obj) "steps" e.
Lemma plain_honest {A} (r : result A) raw e : plain r -> r = Err e -> honest raw e.
Proof. intros Hp He Hb. apply (plain_err _ _ Hp) in He. by destruct e. Qed.

Lemma rest_check {A B} (r : result A) n raw (k : A -> pyL Z B) K : plain r ->
  (forall a, r = Ok a -> wp (k a) n K (honest raw)) -> wp (a ← up (lift r); k a) n K (honest raw).
Proof. intros Hp H. apply wp_bind, wp_lift; [done|]. intros e E. by eapply plain_honest. Qed.

Lemma parse_rest_ok obj version steps n n1 : made_all (source obj) "steps" "steps" 0 steps n n1 (document_entries obj) ->
  wp (parse_rest obj version steps) n1 (fun sq _ => sequence_ok (PDict obj) sq) (honest (PDict obj)).
Proof.
  intros Hm. unfold parse_rest. apply rest_check; [apply meta_plain|]. intros meta _.
  apply rest_check; [apply require_dict_plain|]. intros vars _. apply rest_check; [apply requires_plain|]. intros [wraw hdf] _.
  apply rest_check; [unfold parse_columns; destruct (dget obj "context_columns"); try done; apply plain_fmap, column_types_plain|].
  intros cols Ec. apply rest_check; [by case_match|]. intros [] Ed.
  assert (NoDup (_iter_adaptive_ids steps)) as Hid by (destruct (duplicate [] _) eqn:E; [done|by apply no_duplicate in E as [? _]]).
  apply rest_check; [apply watchdog_ids_plain|]. intros wids Ew. apply wp_bind. destruct (made_all_ok _ _ _ _ _ _ _ _ Hm) as [Hok Hspan].
  eapply wp_mono; [by apply gated_ok| |done]. intros l n2 ((fresh & g & ->) & Hl & Hs).
  apply rest_check; [destruct (dget obj "form"); try done; apply plain_fmap, run_form_plain|]. intros form _.
  apply wp_ret. constructor; cbn; [|done|apply Hs| |].
  - exists obj, steps, fresh, g. split_and!; try done; [|apply (Hm None)]. intros fuel Hd.
    change (depth (PDict obj) <= fuel)%nat in Hd. transitivity (document_entries obj); [apply (Hm None)|]. apply listed_body_ext. intros x p Hx.
    pose proof (depth_dget_or obj "steps"). apply listed_enough; lia.
  - intros w ->. by apply watchdog_ids_named in Ew.
  - intros c ->. unfold parse_columns in Ec. destruct (dget obj "context_columns") as [| | | | | |d]; try done.
    destruct (column_types d []) as [c'|] eqn:E; [|done]. injection Ec as <-. eapply column_types_ok; [done|constructor].
Qed.

Lemma parse_sequence_ok raw n : wp (parse_sequence raw) n (fun sq _ => sequence_ok raw sq) (honest raw).
Proof.
  unfold parse_sequence. apply wp_bind, wp_lift; [|intros e E; by eapply plain_honest; [apply require_dict_plain|]].
  intros obj E. destruct raw as [| | | | | |d]; try done. injection E as ->.
  apply rest_check; [apply check_keys_plain|]. intros [] _. apply wp_bind, wp_lift.
  - intros version _. apply wp_bind. eapply wp_mono; [apply document_steps|intros l n1 Hm; by apply (parse_rest_ok obj version l n n1)|].
    intros e [He|Hb] Hp; [by destruct e|]. by exists obj.
  - intros e Ee Hp. exfalso. unfold py_int in Ee. repeat case_match; simplify_eq; done.
Qed.

(** C21. Parsing a sequence ends on every document.  A sequence that parses has
    steps the runtime can rely on (one target per call, names where they are
    needed, extractors that exist, a body in every search, no run id
    overwritten), all of them different objects.  Inside the watchdog gate the
    steps are exactly those of the document, none left out and none added: in
    the order of the document, at every depth and in every body ([do], [then],
    [else], [finally]), with their paths, kinds and [disabled] flags; and each
    path leads back to where the step is written.  Searches have ids of their
    own; the watchdogs of the gate are named and context columns have known
    types. *)
Theorem parsed_sequences_are_sound raw n :
  exists r n', parse_sequence raw n = Some (r, n') /\ forall sq, r = Ok sq -> sequence_ok raw sq.
Proof.
  pose proof (parse_sequence_ok raw n) as H. unfold wp in H. destruct (parse_sequence raw n) as [[[sq|e] n']|]; [| |done].
  - exists (Ok sq), n'. split; [done|]. by intros ? [= <-].
  - by exists (Err e), n'.
Qed.

(** C23. An error of the parser that names a step is about that step: following
    the path in the document leads to an item, and parsing this item alone
    raises the exception the message reports after the path. *)
Theorem parse_errors_located raw n msg path n' :
  parse_sequence raw n = Some (Err (SequenceParseError msg path), n') ->
  exists obj segs item cause fuel m m', raw = PDict obj /\ fetch (source obj) segs = Some item /\
    path = render_path "steps" segs /\ msg = path +:+ ": " +:+ exc_str cause /\ is_parse_error cause = false /\
    _parse_step fuel item path m = Some (Err cause, m').
Proof.
  intros E. pose proof (parse_sequence_ok raw n) as H. unfold wp in H. rewrite E in H.
  destruct (H eq_refl) as (obj & -> & segs & item & cause & _ & Hf & [= -> ->] & Hc & fuel & m & m' & Hp).
  exists obj, segs, item, cause, fuel, m, m'. split_and!; try done. by destruct cause.
Qed.
End sequences.

(** ** A document *)
Module ParserDemo.
#[local] Existing Instance plain_repr.
#[local] Existing Instance RangesDemo.syntax.
#[local] Existing Instance RangesDemo.arith.
#[local] Instance no_matches : LooseMatches := {| loose_matches _ _ := [] |}.

Definition call_doc (fields : dict) : pyval := PDict [("call", PDict fields)].
Definition switch (action : string) : pyval := call_doc [("device", PStr "psu"); ("action", PStr action)].
Definition document (body : list pyval) : pyval :=
  PDict [("requires", PDict [("watchdog_ids", PList [PStr "laser"])]);
         ("steps", PList [
            PDict [("try", PDict [
              ("do", PList [PDict [("for", PDict [("bind", PStr "x"); ("in", PList [PInt 1; PInt 2]); ("do", PList body)])]]);
              ("finally", PList [switch "off"])])]])].

Definition good : pyval :=
  document [switch "on"; PDict [("while", PDict [("condition", PDict [("lt", PList [PStr "${x}"; PInt 3])]); ("do", PList [switch "step"])])]].
Definition parsed (raw : pyval) : option sequence := match parse_sequence raw 0 with Some (Ok sq, _) => Some sq | _ => None end.
Definition spec_of (raw : pyval) : SequenceSpec := from_option sq_spec (mkSpec 0 [] [] []) (parsed raw).

(** The steps as they are found, in the gate *)
Example parsed_paths :
  (fun r => (sr_path r, step_kind (sr_step r))) <$> step_paths (sp_steps (spec_of good)) "steps" =
    [("steps[0]", "try"); ("steps[0].try.do[0]", "call"); ("steps[0].try.do[1]", "try");
     ("steps[0].try.do[1].try.do[0]", "for"); ("steps[0].try.do[1].try.do[0].for.do[0]", "call");
     ("steps[0].try.do[1].try.do[0].for.do[1]", "while"); ("steps[0].try.do[1].try.do[0].for.do[1].while.do[0]", "call");
     ("steps[0].try.do[1].try.finally[0]", "call"); ("steps[0].try.finally[0]", "call")].
Proof. by vm_compute. Qed.

(** A call without an action, in a loop within a [try] *)
Definition bad : pyval := document [switch "on"; call_doc [("device", PStr "psu")]].
Example bad_error : option_map fst (parse_sequence bad 0) = Some (Err (SequenceParseError
  "steps[0].try.do[0].for.do[1]: call.action is required" "steps[0].try.do[0].for.do[1]")).
Proof. by vm_compute. Qed.

Lemma parse_errors_located_witness :
  exists segs item fuel m m' cause, render_path "steps" segs = "steps[0].try.do[0].for.do[1]" /\
    _parse_step fuel item "steps[0].try.do[0].for.do[1]" m = Some (Err cause, m').
Proof.
  destruct (parse_sequence bad 0) as [[r n']|] eqn:E; [|by vm_compute in E].
  assert (r = Err (SequenceParseError "steps[0].try.do[0].for.do[1]: call.action is required" "steps[0].try.do[0].for.do[1]")) as ->.
  { pose proof bad_error as Hb. rewrite E in Hb. by injection Hb. }
  destruct (parse_errors_located bad 0 _ _ n' E) as (obj & segs & item & cause & fuel & m & m' & _ & _ & Hp & _ & _ & Hs).
  by exists segs, item, fuel, m, m', cause.
Defined.

(** A device that is left blank in the document is a device of the name None. *)
Example blank_device : (fun sq => sp_steps (sq_spec sq)) <$>
    parsed (PDict [("steps", PList [call_doc [("device", PNone); ("action", PStr "on")]])]) =
  Some [CallStep (mkHeader 0 false) "None" "on" [] None None None None].
Proof. by vm_compute. Qed.

Lemma good_valid : has_error_diagnostics (validate_sequence_conditions (spec_of good)) = false.
Proof. by vm_compute. Qed.
Definition loop_ref : step_ref :=
  default (mkRef "" None (SleepStep (mkHeader 0 false) PNone)) (step_paths (sp_steps (spec_of good)) "steps" !! 5%nat).
Lemma validated_conditions_meaning_witness :
  exists c, PDict [("lt", PList [PStr "${x}"; PInt 3])] = written c /\ complete c = true /\
    eval_condition [("x", PInt 2)] (PDict [("lt", PList [PStr "${x}"; PInt 3])]) = meaning [("x", PInt 2)] c.
Proof.
  destruct (validated_conditions_meaning [("x", PInt 2)] (spec_of good)) as [[H _] He].
  destruct (H good_valid loop_ref (PDict [("lt", PList [PStr "${x}"; PInt 3])])) as (c & Hc & Hw).
  - apply (list_elem_of_lookup_2 _ 5). by vm_compute.
  - by vm_compute.
  - exists c. split; [exact Hc|]. split; [exact Hw|]. rewrite Hc. apply He.
Defined.
End ParserDemo.
