(* ===== verification/ParserRoundTrip.v ===== *)
(** * Every well-formed step can be written down ([sequencer/ast.py])

    [written_step] writes a step as a document with every field spelled out;
    parsing it gives the step back, but for the identities of the objects.  So
    the parser loses no field, mixes none up, and accepts every kind of step. *)
From S2P Require Import Prelude PyVal PyNum PyOps Expressions Conditions Responses ProcessBase Ranges.
From S2P Require Import SequencerData SequencerCore SequencerValues SequencerParallel SequencerGate RunForm StepWalks SequenceParser WalkTheorems.
From S2P Require Import ParserTheorems.
#[local] Open Scope Z_scope.

(** ** Writing *)
Definition opt_field {A} (k : string) (f : A -> pyval) (o : option A) : dict := match o with Some a => [(k, f a)] | None => [] end.
Definition bind_doc (bind : list (string * string)) : pyval := PDict ((fun '(k, v) => (k, PStr v)) <$> bind).

Fixpoint written_step (x : step) : pyval :=
  let all := fix all (l : list step) : list pyval := match l with [] => [] | y :: l => written_step y :: all l end in
  let doc fields := PDict (fields ++ [("disabled", PBool (disabled x))]) in
  match x with
  | CallStep _ device action params save_as extract assign process =>
      doc ([("call", PDict (match process with
                            | Some p => [("process", PStr p)]
                            | None => [("device", PStr device)]
                            end ++ [("action", PStr action); ("params", PDict params)]))] ++
           opt_field "save_as" PStr save_as ++ opt_field "extract" PDict extract ++ opt_field "assign" PDict assign)
  | SetStep _ device name value => doc [("set", PDict [("device", PStr device); ("name", PStr name); ("value", value)])]
  | SleepStep _ seconds => doc [("sleep", seconds)]
  | WaitUntilStep _ raw => doc [("wait_until", PDict raw)]
  | ForStep _ bind in_expr body => doc [("for", PDict [("bind", bind_doc bind); ("in", in_expr); ("do", PList (all body))])]
  | RepeatStep _ times body => doc [("repeat", PDict [("times", times); ("do", PList (all body))])]
  | IfStep _ condition then_steps else_steps =>
      doc [("if", PDict ([("condition", condition); ("then", PList (all then_steps))] ++
                         match else_steps with Some l => [("else", PList (all l))] | None => [] end))]
  | WhileStep _ condition body => doc [("while", PDict [("condition", condition); ("do", PList (all body))])]
  | AtomicStep _ name body => doc [("atomic", PDict (opt_field "name" PStr name ++ [("do", PList (all body))]))]
  | PauseStep _ reason => doc [("pause", PDict (opt_field "reason" PStr reason))]
  | ParallelStep _ body => doc [("parallel", PDict [("do", PList (all body))])]
  | TryStep _ body finally_steps => doc [("try", PDict [("do", PList (all body)); ("finally", PList (all finally_steps))])]
  | AssignStep _ values => doc [("assign", PDict values)]
  | SetContextStep _ streams fields => doc [("set_context", PDict [("streams", streams); ("fields", PDict fields)])]
  | UseStep _ sequence_id args => doc [("use", PDict ([("id", PStr sequence_id)] ++ opt_field "args" PDict args))]
  | AdaptiveStep _ spec body =>
      doc [("adaptive", PDict ([("id", PStr (ad_id spec)); ("controller", PDict (ad_controller spec)); ("space", PDict (ad_space spec));
             ("bind", bind_doc (ad_bind spec)); ("observe", PDict (ad_observe spec)); ("do", PList (all body));
             ("fail_on_trial_error", PBool (ad_fail_on_trial_error spec))] ++
             opt_field "state" PDict (ad_state spec) ++ opt_field "stopping" PDict (ad_stopping spec) ++
             opt_field "constraints" PList (ad_constraints spec)))]
  end.

(** ** Up to the identities of objects *)
Definition anonymous (h : step_header) : step_header := mkHeader 0 (h_disabled h).
Fixpoint erase (x : step) : step :=
  let all := fix all (l : list step) : list step := match l with [] => [] | y :: l => erase y :: all l end in
  match x with
  | CallStep h a b c d e f g => CallStep (anonymous h) a b c d e f g
  | SetStep h a b c => SetStep (anonymous h) a b c
  | SleepStep h a => SleepStep (anonymous h) a
  | WaitUntilStep h a => WaitUntilStep (anonymous h) a
  | ForStep h a b body => ForStep (anonymous h) a b (all body)
  | RepeatStep h a body => RepeatStep (anonymous h) a (all body)
  | IfStep h a l o => IfStep (anonymous h) a (all l) match o with Some k => Some (all k) | None => None end
  | WhileStep h a body => WhileStep (anonymous h) a (all body)
  | AtomicStep h a body => AtomicStep (anonymous h) a (all body)
  | PauseStep h a => PauseStep (anonymous h) a
  | ParallelStep h body => ParallelStep (anonymous h) (all body)
  | TryStep h body l => TryStep (anonymous h) (all body) (all l)
  | AssignStep h a => AssignStep (anonymous h) a
  | SetContextStep h a b => SetContextStep (anonymous h) a b
  | UseStep h a b => UseStep (anonymous h) a b
  | AdaptiveStep h a body => AdaptiveStep (anonymous h) a (all body)
  end.

(** ** What can be written *)
Definition clean (s : string) : Prop := strip s = s /\ s <> "".
Definition clean_bind (bind : list (string * string)) : Prop :=
  bind <> [] /\ NoDup bind.*1 /\ Forall (fun '(k, v) => clean k /\ clean v) bind.

Section writable.
Context `{HR : !PyRepr, HE : !PyExpr, HL : !LooseMatches}.

(** A step by itself: it is one the runtime can rely on, its names have no
    blanks around them, and a wait has no keys but its own. *)
Definition writable (x : step) : Prop :=
  step_ok x /\
  match x with
  | WaitUntilStep _ raw => _validate_step_keys [("wait_until", PDict raw)] "wait_until" = Ok tt
  | ForStep _ bind in_expr _ => clean_bind bind
  | UseStep _ sequence_id _ => clean sequence_id
  | AdaptiveStep _ spec _ => clean (ad_id spec) /\ clean_bind (ad_bind spec)
  | _ => True
  end.

(** ** The checks accept it *)
Lemma extractor_accepts spec name : extractor_ok spec -> _validate_extractor spec name = Ok tt.
Proof.
  intros (k & Ek & Hk & Hr & Ha). unfold _validate_extractor. rewrite Ek. cbn [is_extractor_kind is_str].
  rewrite bool_decide_eq_true_2 by done. cbn. destruct (String.eqb_spec k "scalar") as [|Hs]; [done|].
  destruct Hr as [|Hr]; [done|]. destruct (dget spec "ref") as [| | | |s| |] eqn:Er; try done.
  all: destruct (String.eqb_spec k "attr") as [Ea|]; [|done]; destruct (Ha Ea) as [s E]; done.
Qed.
Lemma assign_accepts a : (forall k e, (k, PDict e) ∈ a -> extractor_ok e) -> validate_assign a = Ok tt.
Proof.
  induction a as [|[k v] a IH]; intros H; [done|]. cbn.
  assert (validate_assign a = Ok tt) as E by (apply IH; intros k' e Hin; apply (H k'); by right).
  destruct v as [| | | | | |e]; try done. rewrite (extractor_accepts e) by (apply (H k); by left). exact E.
Qed.
Lemma bind_accepts owner bind acc : NoDup (acc.*1 ++ bind.*1) -> Forall (fun '(k, v) => clean k /\ clean v) bind ->
  bind_entries owner ((fun '(k, v) => (k, PStr v)) <$> bind) acc = Ok (acc ++ bind).
Proof.
  revert acc. induction bind as [|[k v] bind IH]; intros acc Hn Hc; cbn [fmap list_fmap bind_entries]; [by rewrite app_nil_r|].
  apply Forall_cons in Hc as [[[Ek Hk] [Ev Hv]] Hc]. change (py_str (PStr v)) with v. rewrite Ek, Ev. apply nonempty_spec in Hk, Hv. rewrite Hk, Hv. cbn [negb orb].
  assert (k ∉ od_keys acc) as Hnew.
  { intros Hin. apply NoDup_app in Hn as (_ & Hd & _). apply (Hd k); [done|by left]. }
  rewrite od_set_new by done. rewrite IH; [by rewrite <- app_assoc| |done]. by rewrite fmap_app, <- app_assoc.
Qed.
Lemma clean_bind_accepts owner bind : clean_bind bind -> bind_entries owner ((fun '(k, v) => (k, PStr v)) <$> bind) [] = Ok bind.
Proof. intros (_ & Hn & Hc). by apply bind_accepts. Qed.

(** ** Reading it back *)
#[local] Abbreviation never := (fun _ : pyexc => False).

Definition reads (fuel : nat) (x : step) : Prop := forall path n, (depth (written_step x) <= fuel)%nat ->
  wp (_parse_step fuel (written_step x) path) n (fun y _ => erase y = erase x) never.

Lemma bind_ok_intro {A B} (r : result A) (k : A -> result B) a b : r = Ok a -> k a = Ok b -> r ≫= k = Ok b.
Proof. by intros -> H. Qed.
Lemma read_ok {A B} (r : result A) a n (k : A -> pyL Z B) K : r = Ok a -> wp (k a) n K never -> wp (b ← up (lift r); k b) n K never.
Proof. intros -> H. by apply wp_bind. Qed.

Lemma read_items fuel path i l n : Forall (reads fuel) l -> Forall (fun x => depth (written_step x) <= fuel)%nat l ->
  wp (parse_items (_parse_step fuel) path i (written_step <$> l)) n (fun l' _ => erase <$> l' = erase <$> l) never.
Proof.
  intros Hr Hd. revert i n. induction Hr as [|x l Hx _ IH]; intros i n; [by apply wp_ret|].
  apply Forall_cons in Hd as [Hdx Hd]. cbn [fmap list_fmap parse_items]. apply wp_bind. unfold wp at 1, located, except.
  pose proof (Hx (item_path path i) n Hdx) as H. unfold wp in H.
  destruct (_parse_step fuel (written_step x) (item_path path i) n) as [[[y|e] n1]|]; [|done..].
  apply wp_bind. eapply wp_mono; [by apply (IH Hd)| |done]. intros l' n2 E. apply wp_ret. cbn. by rewrite H, E.
Qed.

Lemma read_steps fuel path l n : Forall (reads fuel) l -> (depth (PList (written_step <$> l)) <= S fuel)%nat ->
  wp (_parse_steps (_parse_step fuel) (PList (written_step <$> l)) path) n (fun l' _ => erase <$> l' = erase <$> l) never.
Proof.
  intros Hr Hd. unfold _parse_steps. eapply read_ok; [done|]. apply read_items; [done|].
  apply Forall_forall. intros x Hx. assert (written_step x ∈ written_step <$> l) as Hin by (by apply list_elem_of_fmap_2).
  apply depth_item in Hin. lia.
Qed.

(** A document whose kind is read by [p] *)
Lemma read_step fuel obj kind (p : pyL Z (step_header -> step)) x path n :
  written_step x = PDict obj -> _detect_step_kind obj = Ok kind -> _validate_step_keys obj kind = Ok tt ->
  _parse_disabled obj = disabled x -> parse_kind (_parse_step fuel) obj path = p ->
  wp p n (fun make _ => forall id, erase (make (mkHeader id (disabled x))) = erase x) never ->
  wp (_parse_step (S fuel) (written_step x) path) n (fun y _ => erase y = erase x) never.
Proof.
  intros -> Hk Hv Hd <- Hw. cbn [_parse_step]. eapply read_ok; [done|]. eapply read_ok; [exact Hk|]. eapply read_ok; [exact Hv|].
  apply wp_bind. eapply wp_mono; [exact Hw| |done]. intros make n1 Hm.
  apply wp_bind. unfold wp at 1, new_id, up. apply wp_ret. rewrite Hd. apply Hm.
Qed.

Lemma read_flat fuel obj kind (r : result (step_header -> step)) make x path n :
  written_step x = PDict obj -> _detect_step_kind obj = Ok kind -> _validate_step_keys obj kind = Ok tt ->
  _parse_disabled obj = disabled x -> parse_kind (_parse_step fuel) obj path = up (lift r) -> r = Ok make ->
  (forall id, erase (make (mkHeader id (disabled x))) = erase x) ->
  wp (_parse_step (S fuel) (written_step x) path) n (fun y _ => erase y = erase x) never.
Proof. intros Hw Hk Hv Hd Hp -> Hm. by eapply read_step. Qed.

Lemma read_body fuel x obj kind f part l path n : written_step x = PDict obj -> (depth (written_step x) <= S fuel)%nat ->
  od_get obj kind = Some (PDict f) -> od_get f part = Some (PList (written_step <$> l)) -> Forall (reads fuel) l ->
  wp (_parse_steps (_parse_step fuel) (dget_or f part (PList [])) path) n (fun l' _ => erase <$> l' = erase <$> l) never.
Proof.
  intros Hx Hd Hk Hp Hl. unfold dget_or. rewrite Hp. apply read_steps; [done|].
  apply depth_get in Hk, Hp. rewrite Hx in Hd. lia.
Qed.

(** A list in its place *)
Lemma read_then {A B} (m : pyL Z A) (k : A -> pyL Z B) (P : A -> Prop) n K : wp m n (fun a _ => P a) never ->
  (forall a n', P a -> wp (k a) n' K never) -> wp (a ← m; k a) n K never.
Proof. intros Hm Hk. apply wp_bind. eapply wp_mono; [exact Hm|auto|done]. Qed.

(** What [parse_call] and the others read *)
Lemma parse_call_fields obj call device process action params save_as extract assign :
  dget obj "call" = PDict call -> text_of call "device" = device -> text_of call "process" = process ->
  text_of call "action" = action -> dget_or call "params" (PDict []) = PDict params ->
  str_opt (dget obj "save_as") = save_as -> dget obj "extract" = from_option PDict PNone extract ->
  dget obj "assign" = from_option PDict PNone assign ->
  nonempty action = true -> nonempty device = negb (nonempty process) ->
  (forall e, extract = Some e -> extractor_ok e) ->
  (forall a k e, assign = Some a -> (k, PDict e) ∈ a -> extractor_ok e) ->
  parse_call obj = Ok (fun h => CallStep h device action params save_as extract assign (or_none process)).
Proof.
  intros Ec Ed Epr Ea Ep Es Ee Eas Ha Ht He Hs. unfold parse_call. rewrite Ec. cbn [_require_dict mbind result_bind].
  rewrite Ed, Epr, Ea, Ep, Ha, Ht.
  replace (py_or (PDict params) (PDict [])) with (PDict params) by (by destruct params).
  assert (optional_dict_of (dget obj "extract") "extract must be a dict" = Ok extract) as -> by (rewrite Ee; by destruct extract).
  assert (optional_dict_of (dget obj "assign") "assign must be a dict" = Ok assign) as -> by (rewrite Eas; by destruct assign).
  assert (match extract with Some e => _validate_extractor e "extract" | None => Ok tt end = Ok tt) as Ev.
  { destruct extract; [|done]. by apply extractor_accepts, He. }
  assert (validate_assign (default [] assign) = Ok tt) as Ev'.
  { destruct assign; [|done]. apply assign_accepts. intros k e. by apply Hs. }
  cbn [mbind result_bind]. rewrite Ev, Ev', Es. by destruct (nonempty process).
Qed.

Section kinds.
Context (fuel : nat) (path : string) (n : Z).
#[local] Abbreviation back x := (wp (_parse_step (S fuel) (written_step x) path) n (fun y _ => erase y = erase x) never).

Lemma read_call h device action params save_as extract assign process :
  writable (CallStep h device action params save_as extract assign process) ->
  back (CallStep h device action params save_as extract assign process).
Proof.
  intros [(Ha & Ht & He & Hs) _]. apply nonempty_spec in Ha.
  eapply (read_flat _ _ "call" (parse_call _) (fun h => CallStep h device action params save_as extract assign process));
    [reflexivity| | | |reflexivity| |done].
  - by destruct process.
  - by destruct process, save_as, extract, assign.
  - by destruct process, save_as, extract, assign.
  - destruct Ht as [[Hd ->]|[-> (p & -> & Hp)]].
    + apply nonempty_spec in Hd. apply (parse_call_fields _ [("device", PStr device); ("action", PStr action); ("params", PDict params)]
        device "" action params save_as extract assign); try done; by destruct save_as, extract, assign.
    + apply nonempty_spec in Hp. rewrite (parse_call_fields _ [("process", PStr p); ("action", PStr action); ("params", PDict params)]
        "" p action params save_as extract assign); try done; try (by destruct save_as, extract, assign).
      * unfold or_none. by rewrite Hp.
      * by rewrite Hp.
Qed.

Lemma read_set h device name value : writable (SetStep h device name value) -> back (SetStep h device name value).
Proof.
  intros [[Hd Hn] _]. apply nonempty_spec in Hd, Hn.
  eapply (read_flat _ _ "set" (parse_set _) (fun h => SetStep h device name value)); [reflexivity..| |done].
  unfold parse_set. match goal with |- context [dget ?o "set"] => change (dget o "set") with
    (PDict [("device", PStr device); ("name", PStr name); ("value", value)]) end. cbn [_require_dict mbind result_bind].
  change (text_of [("device", PStr device); ("name", PStr name); ("value", value)] "device") with device.
  change (text_of [("device", PStr device); ("name", PStr name); ("value", value)] "name") with name.
  by rewrite Hd, Hn.
Qed.
Lemma read_sleep h seconds : back (SleepStep h seconds).
Proof. eapply (read_step _ _ "sleep"); [reflexivity|reflexivity|by destruct seconds|reflexivity|reflexivity|]. by apply wp_ret. Qed.
Lemma read_wait h raw : writable (WaitUntilStep h raw) -> back (WaitUntilStep h raw).
Proof.
  intros [_ Hk]. eapply (read_flat _ _ "wait_until" (parse_wait_until _) (fun h => WaitUntilStep h raw));
    [reflexivity|reflexivity|exact Hk|reflexivity|reflexivity|reflexivity|done].
Qed.
Lemma read_pause h reason : back (PauseStep h reason).
Proof.
  destruct reason as [reason|].
  - eapply (read_flat _ _ "pause" (parse_pause _) (fun h => PauseStep h (Some reason))); [reflexivity..|done].
  - eapply (read_flat _ _ "pause" (parse_pause _) (fun h => PauseStep h None)); [reflexivity..|done].
Qed.
Lemma read_assign h values : back (AssignStep h values).
Proof. eapply (read_flat _ _ "assign" (parse_assign _) (fun h => AssignStep h values)); [reflexivity..|done]. Qed.
Lemma read_set_context h streams fields : writable (SetContextStep h streams fields) -> back (SetContextStep h streams fields).
Proof.
  intros [Hf _]. cbn -[SEQUENCER_RUN_ID_FIELD] in Hf.
  eapply (read_flat _ _ "set_context" (parse_set_context _) (fun h => SetContextStep h streams fields)); [reflexivity..| |done].
  unfold parse_set_context. match goal with |- context [dget ?o "set_context"] => change (dget o "set_context") with
    (PDict [("streams", streams); ("fields", PDict fields)]) end. cbn [_require_dict mbind result_bind].
  change (dget_or [("streams", streams); ("fields", PDict fields)] "fields" (PDict [])) with (PDict fields).
  replace (py_or (PDict fields) (PDict [])) with (PDict fields) by (by destruct fields). by rewrite Hf.
Qed.
Lemma read_use h sequence_id args : writable (UseStep h sequence_id args) -> back (UseStep h sequence_id args).
Proof.
  intros [_ [Hc Hn]]. apply nonempty_spec in Hn.
  eapply (read_flat _ _ "use" (parse_use _) (fun h => UseStep h sequence_id args)); [reflexivity|reflexivity|by destruct args|reflexivity|reflexivity| |done].
  unfold parse_use. match goal with |- context [dget ?o "use"] => change (dget o "use") with
    (PDict ([("id", PStr sequence_id)] ++ opt_field "args" PDict args)) end. cbv beta iota.
  change (text_of ([("id", PStr sequence_id)] ++ opt_field "args" PDict args) "id") with sequence_id. rewrite Hc.
  destruct args as [args|].
  - change (dget ([("id", PStr sequence_id)] ++ opt_field "args" PDict (Some args)) "args") with (PDict args).
    cbn [mbind result_bind]. by rewrite Hn.
  - change (dget ([("id", PStr sequence_id)] ++ opt_field "args" PDict None) "args") with PNone.
    cbn [mbind result_bind]. by rewrite Hn.
Qed.

(** *** Steps with bodies *)
Lemma read_for h bind in_expr body : writable (ForStep h bind in_expr body) -> Forall (reads fuel) body ->
  (depth (written_step (ForStep h bind in_expr body)) <= S fuel)%nat -> back (ForStep h bind in_expr body).
Proof.
  intros [[_ Hi] Hb] Hl Hd. eapply (read_step _ _ "for" (parse_for _ _ _)); [reflexivity..|].
  unfold parse_for. eapply read_ok; [reflexivity|]. eapply (read_ok _ bind).
  { change (for_bind (bind_doc bind) = Ok bind). unfold for_bind, bind_doc. rewrite clean_bind_accepts by done.
    destruct Hb as [Hne _]. by destruct bind. }
  eapply (read_ok _ tt).
  { change (validate_in in_expr = Ok tt). destruct in_expr as [| | | | | |d]; try done. cbn. destruct (dget d "gen") as [| | | | | |g] eqn:Eg; try done.
    by apply (Hi d). }
  eapply read_then; [eapply (read_body _ (ForStep h bind in_expr body) _ "for" _ "do" body); [reflexivity|exact Hd|reflexivity|reflexivity|assumption]|].
  intros l' n' E. apply wp_ret. intros id. cbn. by f_equal.
Qed.
Lemma read_repeat h times body : Forall (reads fuel) body ->
  (depth (written_step (RepeatStep h times body)) <= S fuel)%nat -> back (RepeatStep h times body).
Proof.
  intros Hl Hd. eapply (read_step _ _ "repeat" (parse_repeat _ _ _)); [reflexivity..|]. unfold parse_repeat. eapply read_ok; [reflexivity|].
  eapply read_then; [eapply (read_body _ (RepeatStep h times body) _ "repeat" _ "do" body); [reflexivity|exact Hd|reflexivity|reflexivity|assumption]|]. intros l' n' E. apply wp_ret. intros id. cbn. by f_equal.
Qed.
Lemma read_while h condition body : Forall (reads fuel) body ->
  (depth (written_step (WhileStep h condition body)) <= S fuel)%nat -> back (WhileStep h condition body).
Proof.
  intros Hl Hd. eapply (read_step _ _ "while" (parse_while _ _ _)); [reflexivity..|]. unfold parse_while. eapply read_ok; [reflexivity|].
  apply wp_bind, wp_guard; [intros _|done].
  eapply read_then; [eapply (read_body _ (WhileStep h condition body) _ "while" _ "do" body); [reflexivity|exact Hd|reflexivity|reflexivity|assumption]|]. intros l' n' E. apply wp_ret. intros id. cbn. by f_equal.
Qed.
Lemma read_atomic h name body : Forall (reads fuel) body ->
  (depth (written_step (AtomicStep h name body)) <= S fuel)%nat -> back (AtomicStep h name body).
Proof.
  intros Hl Hd. eapply (read_step _ _ "atomic" (parse_atomic _ _ _)); [reflexivity|reflexivity|by destruct name|reflexivity|reflexivity|].
  unfold parse_atomic. eapply read_ok; [reflexivity|].
  eapply read_then; [eapply (read_body _ (AtomicStep h name body) _ "atomic" _ "do" body); [reflexivity|exact Hd|reflexivity|by destruct name|done]|].
  intros l' n' E. apply wp_ret. intros id. destruct name; cbn; by f_equal.
Qed.
Lemma read_parallel h body : Forall (reads fuel) body ->
  (depth (written_step (ParallelStep h body)) <= S fuel)%nat -> back (ParallelStep h body).
Proof.
  intros Hl Hd. eapply (read_step _ _ "parallel" (parse_parallel _ _ _)); [reflexivity..|]. unfold parse_parallel. eapply read_ok; [reflexivity|].
  eapply read_then; [eapply (read_body _ (ParallelStep h body) _ "parallel" _ "do" body); [reflexivity|exact Hd|reflexivity|reflexivity|assumption]|]. intros l' n' E. apply wp_ret. intros id. cbn. by f_equal.
Qed.
Lemma read_try h body final : Forall (reads fuel) body -> Forall (reads fuel) final ->
  (depth (written_step (TryStep h body final)) <= S fuel)%nat -> back (TryStep h body final).
Proof.
  intros Hl Hf Hd. eapply (read_step _ _ "try" (parse_try _ _ _)); [reflexivity..|]. unfold parse_try. eapply read_ok; [reflexivity|].
  apply wp_bind, wp_guard; [intros _|done].
  eapply read_then; [eapply (read_body _ (TryStep h body final) _ "try" _ "do" body); [reflexivity|exact Hd|reflexivity|reflexivity|assumption]|]. intros l1 n1 E1.
  eapply read_then; [eapply (read_body _ (TryStep h body final) _ "try" _ "finally" final); [reflexivity|exact Hd|reflexivity|reflexivity|assumption]|]. intros l2 n2 E2.
  apply wp_ret. intros id. cbn. by f_equal.
Qed.
Lemma read_if h condition l o : Forall (reads fuel) l -> Forall (reads fuel) (default [] o) ->
  (depth (written_step (IfStep h condition l o)) <= S fuel)%nat -> back (IfStep h condition l o).
Proof.
  intros Hl Ho Hd. eapply (read_step _ _ "if" (parse_if _ _ _)); [reflexivity|reflexivity|by destruct o|reflexivity|reflexivity|].
  unfold parse_if. eapply read_ok; [reflexivity|].
  eapply read_then; [eapply (read_body _ (IfStep h condition l o) _ "if" _ "then" l); [reflexivity|exact Hd|reflexivity|reflexivity|assumption]|]. intros l1 n1 E1. destruct o as [k|].
  - apply wp_bind. set (f := [("condition", condition); ("then", PList (written_step <$> l)); ("else", PList (written_step <$> k))]).
    match goal with |- wp ?m _ _ _ => change m with
      (l ← _parse_steps (_parse_step fuel) (dget_or f "else" (PList [])) (path +:+ ".if.else"); mret (Some l) : pyL Z (option (list step))) end.
    eapply read_then; [eapply (read_body _ (IfStep h condition l (Some k)) _ "if" f "else" k); [reflexivity|exact Hd|reflexivity|reflexivity|exact Ho]|].
    intros l2 n2 E2. apply wp_ret, wp_ret. intros id. exact (f_equal2 (fun a b => IfStep (anonymous h) condition a (Some b)) E1 E2).
  - apply wp_bind, wp_ret, wp_ret. intros id. exact (f_equal (fun a => IfStep (anonymous h) condition a None) E1).
Qed.
Lemma read_adaptive h spec body : writable (AdaptiveStep h spec body) -> Forall (reads fuel) body ->
  (depth (written_step (AdaptiveStep h spec body)) <= S fuel)%nat -> back (AdaptiveStep h spec body).
Proof.
  intros [(_ & _ & Hne) [[Hid Hidn] Hb]] Hl Hd. apply nonempty_spec in Hidn. destruct spec as [id0 ctrl space bind state observe stopping constraints fail].
  cbn [ad_id ad_bind] in *.
  eapply (read_step _ _ "adaptive" (parse_adaptive _ _ _)); [reflexivity|reflexivity|by destruct state, stopping, constraints|reflexivity|reflexivity|].
  unfold parse_adaptive. eapply read_ok; [reflexivity|].
  eapply (read_ok _ (mkAdaptive id0 ctrl space bind state observe stopping constraints fail)).
  { unfold parse_adaptive_spec. match goal with |- context [text_of ?d "id"] => change (text_of d "id") with id0 end. rewrite Hid, Hidn.
    cbn [negb]. eapply bind_ok_intro; [reflexivity|]. eapply bind_ok_intro; [reflexivity|]. eapply bind_ok_intro; [reflexivity|].
    eapply bind_ok_intro; [by apply clean_bind_accepts|]. destruct Hb as [Hbne _]. destruct bind as [|kv bind]; [done|].
    eapply (bind_ok_intro _ _ state); [by destruct state, stopping, constraints|]. eapply bind_ok_intro; [reflexivity|].
    eapply (bind_ok_intro _ _ stopping); [by destruct state, stopping, constraints|].
    eapply (bind_ok_intro _ _ constraints); [by destruct state, stopping, constraints|]. by destruct fail. }
  eapply read_then; [eapply (read_body _ (AdaptiveStep h _ body) _ "adaptive" _ "do" body); [reflexivity|exact Hd|reflexivity|reflexivity|done]|]. intros l' n' E.
  destruct l' as [|y l']; [by destruct body|]. apply wp_ret. intros id.
  exact (f_equal (AdaptiveStep (anonymous h) _) E).
Qed.
End kinds.

(** ** All steps *)
Lemma read_any x : Forall writable (all_steps x) -> forall fuel, reads fuel x.
Proof.
  induction x as [x IH] using step_rect_nested. intros Hw fuel path n Hd.
  destruct fuel as [|fuel]; [pose proof (depth_pos (written_step x)); lia|].
  assert (writable x) as Hx by (by destruct x; apply Forall_cons in Hw as [? _]).
  assert (forall p l b, (p, l, b) ∈ step_bodies x "" -> Forall writable (l ≫= all_steps) -> Forall (reads fuel) l) as Hl.
  { intros p l b Hin Hwl. pose proof (IH "" p l b Hin) as HP. clear -HP Hwl. induction HP as [|y l Hy _ IHl]; [constructor|].
    cbn in Hwl. apply Forall_app in Hwl as [Hwy Hwl]. constructor; [by apply Hy|by apply IHl]. }
  destruct x as [| | | |h b e l|h t l|h c l o|h c l|h o l| |h l|h l l'| | | |h a l].
  - by apply read_call.
  - by apply read_set.
  - apply read_sleep.
  - by apply read_wait.
  - apply read_for; [done| |done]. eapply Hl; [by left|]. by apply Forall_cons in Hw as [_ ?].
  - apply read_repeat; [|done]. eapply Hl; [by left|]. by apply Forall_cons in Hw as [_ ?].
  - apply Forall_cons in Hw as [_ Hw]. apply Forall_app in Hw as [Hw1 Hw2]. apply read_if; [| |done].
    + eapply Hl; [by left|done].
    + eapply Hl; [right; by left|]. destruct o as [k|]; [done|constructor].
  - apply read_while; [|done]. eapply Hl; [by left|]. by apply Forall_cons in Hw as [_ ?].
  - apply read_atomic; [|done]. eapply Hl; [by left|]. by apply Forall_cons in Hw as [_ ?].
  - apply read_pause.
  - apply read_parallel; [|done]. eapply Hl; [by left|]. by apply Forall_cons in Hw as [_ ?].
  - apply Forall_cons in Hw as [_ Hw]. apply Forall_app in Hw as [Hw1 Hw2]. apply read_try; [| |done].
    + eapply Hl; [by left|done].
    + eapply Hl; [right; by left|done].
  - apply read_assign.
  - by apply read_set_context.
  - by apply read_use.
  - apply read_adaptive; [done| |done]. eapply Hl; [by left|]. by apply Forall_cons in Hw as [_ ?].
Qed.

(** C22. Every list of steps the runtime can rely on, with names without blanks
    around them, is the parse of a document: written down with every field
    spelled out and parsed again, at any path, it comes back, but for the
    identities of the step objects. *)
Theorem written_steps_parse l path n : Forall writable (l ≫= all_steps) ->
  exists l' n', _parse_steps (_parse_step (depth (PList (written_step <$> l)))) (PList (written_step <$> l)) path n = Some (Ok l', n') /\
    erase <$> l' = erase <$> l.
Proof.
  intros Hw. set (fuel := depth _).
  assert (Forall (reads fuel) l) as Hr.
  { clearbody fuel. clear -Hw. induction l as [|x l IH]; [constructor|]. cbn in Hw. apply Forall_app in Hw as [Hx Hl].
    constructor; [by apply read_any|by apply IH]. }
  pose proof (read_steps fuel path l n Hr ltac:(unfold fuel; lia)) as H. unfold wp in H.
  destruct (_parse_steps _ _ path n) as [[[l'|e] n']|]; [|done..]. by exists l', n'.
Qed.
End writable.

Module RoundTripDemo.
#[local] Existing Instance plain_repr.
#[local] Existing Instance RangesDemo.syntax.
#[local] Existing Instance ParserDemo.no_matches.

Definition h : step_header := mkHeader 0 false.
Definition steps : list step :=
  [ForStep h [("value", "x")] (PList [PInt 1])
     [CallStep (mkHeader 0 true) "psu" "set" [("v", PStr "${x}")] (Some "r") None None None;
      IfStep h (PBool true) [SleepStep h (PInt 1)] (Some [UseStep h "cool" None])]].

Lemma steps_writable : Forall writable (steps ≫= all_steps).
Proof.
  cbn. repeat constructor; try done; try (by intros ? ? [= <-]); try (by left); try (by intros ? ? ?).
  apply not_elem_of_nil.
Qed.
Lemma written_steps_parse_witness :
  exists l' n', _parse_steps (_parse_step (depth (PList (written_step <$> steps)))) (PList (written_step <$> steps)) "steps" 0 = Some (Ok l', n') /\
    erase <$> l' = erase <$> steps.
Proof. exact (written_steps_parse steps "steps" 0 steps_writable). Defined.
End RoundTripDemo.
