(* ===== verification/SequenceLibrary.v ===== *)
(** * Documents and the library of sequences

    [utils/yaml_helpers.py], the line maps of [sequencer/sequencer.py] and
    [sequencer/library.py]. *)
From S2P Require Import Prelude PyVal PyNum PyOps Expressions Conditions Responses ProcessBase Ranges SequencerData SequencerCore.
From S2P Require Import StepWalks SequenceParser.
#[local] Open Scope Z_scope.

(** * Documents and the lines they come from
      ([utils/yaml_helpers.py] and the line maps of [sequencer/sequencer.py])

    PyYAML is the class [Yaml]: what it loads, and the tree of nodes it
    composes, each with the line it starts on.  A line map takes the path of a
    step in the parsed sequence to the line of its node; where the parser has
    wrapped the sequence in the gate of its watchdogs, the paths are moved into
    the gate. *)

(** What is known of an error of PyYAML *)
Record yaml_problem := mkProblem {
  yp_text : string;                       (* [str(e)] *)
  yp_problem : option string;
  yp_context : option string;
  yp_mark : option (Z * Z)                (* line and column of its mark, from 0 *)
}.

(** Nodes of [yaml.compose], with [start_mark.line] *)
Inductive ynode :=
| YScalar (line : Z) (value : string)
| YSequence (line : Z) (items : list ynode)
| YMapping (line : Z) (items : list (ynode * ynode)).

Class Yaml := {
  yaml_load : bool -> string -> yaml_problem + pyval;      (* [yaml.load] with YAML 1.2 floats or [yaml.safe_load] *)
  yaml_compose : string -> option (option ynode)           (* [None] if it raises *)
}.

(** [str(e).splitlines()[0]] *)
Definition line_end (c : ascii) : bool := bool_decide (N_of_ascii c ∈ [10; 11; 12; 13; 28; 29; 30]%N).
Fixpoint first_line (s : string) : string :=
  match s with
  | EmptyString => ""
  | String c r => if line_end c then "" else String c (first_line r)
  end.

Definition opt_nonempty (o : option string) : option string :=
  match o with Some s => or_none s | None => None end.

Definition problem_detail (e : yaml_problem) : string :=
  match opt_nonempty (yp_problem e) with
  | Some problem => problem +:+ match opt_nonempty (yp_context e) with Some c => " (" +:+ c +:+ ")" | None => "" end
  | None => if nonempty (yp_text e) then first_line (yp_text e) else "invalid YAML"
  end.

Definition load_yaml_text `{HY : !Yaml} (yaml12_floats : bool) (source text : string) : result pyval :=
  match yaml_load yaml12_floats text with
  | inr v => Ok v
  | inl e => Err (YamlLoadError (problem_detail e) source ((fun m => fst m + 1) <$> yp_mark e) ((fun m => snd m + 1) <$> yp_mark e))
  end.

(** ** Lines of steps *)
Definition _STEP_BODY_CONTAINERS : list (string * list string) :=
  [("for", ["do"]); ("repeat", ["do"]); ("while", ["do"]); ("if", ["then"; "else"]); ("atomic", ["do"]); ("parallel", ["do"]);
   ("adaptive", ["do"]); ("use", ["do"]); ("try", ["do"; "finally"])].

Definition node_line (n : ynode) : Z := match n with YScalar l _ | YSequence l _ | YMapping l _ => l end.

Fixpoint mapping_get (items : list (ynode * ynode)) (key : string) : option ynode :=
  match items with
  | [] => None
  | (YScalar _ k, v) :: rest => if String.eqb k key then Some v else mapping_get rest key
  | _ :: rest => mapping_get rest key
  end.
Definition _yaml_mapping_get (node : ynode) (key : string) : option ynode :=
  match node with YMapping _ items => mapping_get items key | _ => None end.

#[local] Abbreviation line_map := (list (string * Z)).

(** [_yaml_mapping_get] and the walk of what it finds, in one *)
Fixpoint _walk_step_lines (seq_node : ynode) (path : string) (m : line_map) : line_map :=
  match seq_node with
  | YSequence _ items =>
      (fix steps (i : nat) (items : list ynode) (m : line_map) : line_map :=
         match items with
         | [] => m
         | item :: rest =>
             let step_path := item_path path i in
             let m := od_set m step_path (node_line item + 1) in
             steps (S i) rest
               (match item with
                | YMapping _ entries =>
                    (fix keys (entries : list (ynode * ynode)) (m : line_map) : line_map :=
                       match entries with
                       | [] => m
                       | (YScalar _ kind, value) :: more =>
                           keys more
                             ((fix parts (cs : list string) (m : line_map) : line_map :=
                                 match cs with
                                 | [] => m
                                 | c :: cs =>
                                     parts cs
                                       (match value with
                                        | YMapping _ inner =>
                                            (fix find (inner : list (ynode * ynode)) : line_map :=
                                               match inner with
                                               | [] => m
                                               | (YScalar _ k, child) :: others =>
                                                   if String.eqb k c
                                                   then _walk_step_lines child (step_path +:+ "." +:+ kind +:+ "." +:+ c) m
                                                   else find others
                                               | _ :: others => find others
                                               end) inner
                                        | _ => m
                                        end)
                                 end) (default [] (od_get _STEP_BODY_CONTAINERS kind)) m)
                       | _ :: more => keys more m
                       end) entries m
                | _ => m
                end)
         end) 0%nat items m
  | _ => m
  end.

(** The line of a path, or of the closest step around it *)
Definition under (key path : string) : bool :=
  String.eqb path key || startswith path (key +:+ ".") || startswith path (key +:+ "[").
Fixpoint closest (m : line_map) (path : string) (best : option Z) (best_len : Z) : option Z :=
  match m with
  | [] => best
  | (key, line) :: rest =>
      if under key path && (best_len <? Z.of_nat (String.length key))
      then closest rest path (Some line) (Z.of_nat (String.length key))
      else closest rest path best best_len
  end.
Definition _line_for_path (m : line_map) (path : string) : option Z := closest m path None (-1).

(** [re.match(r"^steps\[(\d+)\](.*)$", key)] *)
Fixpoint digits_then (s : string) (acc : Z) (seen : bool) : option (Z * string) :=
  match s with
  | EmptyString => None
  | String c r =>
      match digit_of c with
      | Some d => digits_then r (10 * acc + d) true
      | None => if (c =? "]")%char && seen then Some (acc, r) else None
      end
  end.
Definition step_key (key : string) : option (Z * string) :=
  if startswith key "steps[" then
    match digits_then (String.substring 6 (String.length key - 6) key) 0 false with
    | Some (i, rest) => if 0 <? py_count (String "010" "") rest then None else Some (i, rest)
    | None => None
    end
  else None.

Definition requires_line (root : option ynode) : option Z :=
  match root with
  | Some (YMapping _ items) =>
      foldl (fun found '(k, _) => match k with YScalar line "requires" => Some (line + 1) | _ => found end) None items
  | _ => None
  end.

Fixpoint gate_lines (line : Z) (i n : nat) (m : line_map) : line_map :=
  match n with
  | O => m
  | S n =>
      let m := od_set m (item_path "steps[0].try.do" i) line in
      gate_lines line (S i) n (od_set m (item_path "steps[0].try.finally" i) line)
  end.

Definition least (l : list Z) : option Z :=
  match l with [] => None | x :: r => Some (foldl Z.min x r) end.

Definition _remap_for_watchdog_gate (m : line_map) (root : option ynode) (offset : nat) : line_map :=
  let remapped := foldl (fun out '(key, line) =>
    match step_key key with
    | Some (i, rest) => od_set out ("steps[0].try.do[" +:+ str_Z (i + Z.of_nat offset) +:+ "]" +:+ rest) line
    | None => out
    end) [] m in
  match (match requires_line root with Some l => Some l | None => least (snd <$> m) end) with
  | Some gate_line => gate_lines gate_line 0 offset (od_set remapped "steps[0]" gate_line)
  | None => remapped
  end.

Definition _build_step_line_map `{HY : !Yaml} (text : string) (watchdog_ids : list string) : line_map :=
  if negb (nonempty text) then []
  else
    match yaml_compose text with
    | None => []
    | Some root =>
        let m := match root with
                 | Some node => match _yaml_mapping_get node "steps" with
                                | Some steps_node => _walk_step_lines steps_node "steps" []
                                | None => []
                                end
                 | None => []
                 end in
        match watchdog_ids with
        | [] => m
        | _ => _remap_for_watchdog_gate m root (length watchdog_ids)
        end
    end.

(** * The library of sequences ([sequencer/library.py])

    A manifest names sequence files; the library parses them and accepts them
    only if every sequence they use is in the library and no sequence uses
    itself, directly or through others.  The file system is
    the class [LibraryFiles]; the parser threads the identity of the next
    step object. *)

(** Files as the library sees them while it loads *)
Class LibraryFiles := {
  lf_resolve : option string -> string -> string;          (* [Path(text).expanduser()], absolute under a directory, resolved *)
  lf_parent : string -> string;                            (* [path.parent] *)
  lf_is_file : string -> bool;
  lf_is_dir : string -> bool;
  lf_read_text : string -> result string;
  lf_glob : bool -> string -> string -> list string;       (* recursive or not, directory, pattern; sorted *)
  lf_relative_to : string -> string -> option string;      (* [path.relative_to(base)], which may raise *)
  lf_parts : string -> list string                         (* [rel.with_suffix("").parts] *)
}.

Record SequenceLibraryEntry := mkEntry {
  se_sequence_id : string;
  se_path : string;
  se_source : string;
  se_label : option string;
  se_description : option string;
  se_tags : list string;
  se_editable_vars : list string;
  se_use_ids : list string;
  se_spec : sequence;
  se_text : string
}.
#[local] Abbreviation entries_t := (list (string * SequenceLibraryEntry)).

Record SequenceLibrary := mkLibrary {
  lb_manifest_path : string;
  lb_description_policy : string;
  lb_entries : entries_t;
  lb_warnings : list string
}.

(** ** The graph of uses *)
Abbreviation use_graph := (list (string * list string)).

(** [sorted(set(item.strip() for item in use_ids if item.strip()))] *)
Definition use_targets (use_ids : list string) : list string :=
  sorted_set (list_to_set (filter (fun s => nonempty s = true) (strip <$> use_ids))).

Section graph.
Context `{HR : !PyRepr}.

(** The graph, which names only entries *)
Fixpoint build_use_graph (known : entries_t) (todo : entries_t) (graph : use_graph) : result use_graph :=
  match todo with
  | [] => Ok graph
  | (sequence_id, entry) :: rest =>
      let targets := use_targets (se_use_ids entry) in
      match filter (fun t => t ∉ od_keys known) targets with
      | target :: _ =>
          Err (ValueError ("sequence " +:+ repr_str sequence_id +:+ " references unknown use.id " +:+ repr_str target))
      | [] => build_use_graph known rest (od_set graph sequence_id targets)
      end
  end.

Section visit.
Context (graph : use_graph).

(** The path back to the node that is still open *)
Definition use_cycle (stack : list string) (node : string) : list string :=
  match list_find (fun x => x = node) stack with
  | Some (idx, _) => drop idx stack ++ [node]
  | None => stack ++ [node]
  end.

(** [visited]: 1 is open, 2 is done.  The stack is that of the calls: it is
    pushed and popped around the loop. *)
Fixpoint visit (fuel : nat) (stack : list string) (node : string) (visited : gmap string Z) : option (result (gmap string Z)) :=
  match fuel with
  | O => None
  | S fuel =>
      match default 0 (visited !! node) with
      | 2 => Some (Ok visited)
      | 1 => Some (Err (ValueError ("sequence library use cycle detected: " +:+ join " -> " (use_cycle stack node))))
      | _ =>
          (fix visit_all (l : list string) (visited : gmap string Z) : option (result (gmap string Z)) :=
             match l with
             | [] => Some (Ok (<[node := 2]> visited))
             | nxt :: rest =>
                 match visit fuel (stack ++ [node]) nxt visited with
                 | Some (Ok visited) => visit_all rest visited
                 | r => r
                 end
             end) (default [] (od_get graph node)) (<[node := 1]> visited)
      end
  end.

Fixpoint visit_roots (fuel : nat) (nodes : list string) (visited : gmap string Z) : option (result unit) :=
  match nodes with
  | [] => Some (Ok tt)
  | node :: rest =>
      match visit fuel [] node visited with
      | Some (Ok visited) => visit_roots fuel rest visited
      | Some (Err e) => Some (Err e)
      | None => None
      end
  end.
End visit.

(** A path of open nodes has no node twice, so the nodes bound its length. *)
Definition _validate_use_graph (entries : entries_t) : option (result unit) :=
  match build_use_graph entries entries [] with
  | Err e => Some (Err e)
  | Ok graph => visit_roots graph (S (length graph)) (sorted_set (list_to_set (od_keys graph))) ∅
  end.
End graph.

(** ** Loading *)
Definition _normalize_optional_string `{HR : !PyRepr} (value : pyval) : option string :=
  match value with
  | PNone => None
  | _ => let text := strip (py_str value) in if nonempty text then Some text else None
  end.

Definition _normalize_string_list `{HR : !PyRepr} (value : pyval) (field_name : string) : result (list string) :=
  match value with
  | PNone => Ok []
  | PList l => Ok (filter (fun s => nonempty s = true) ((fun v => strip (py_str v)) <$> l))
  | _ => Err (TypeError (field_name +:+ " must be a list of strings"))
  end.

Section library.
Context `{HR : !PyRepr, HE : !PyExpr, HL : !LooseMatches, HY : !Yaml, HF : !LibraryFiles}.
#[local] Abbreviation L := (pyL Z).

(** [str(d.get(key, default) or default).strip()] *)
Definition stripped (d : dict) (key dflt : string) : string := strip (py_str (py_or (dget d key) (PStr dflt))).

Definition _resolve_path (base_dir raw_path field_name : string) : result string :=
  let text := strip raw_path in
  if nonempty text then Ok (lf_resolve (Some base_dir) text)
  else Err (ValueError (field_name +:+ " path must not be empty")).

Definition _display_path (path base_dir : string) : string := default path (lf_relative_to path base_dir).

Definition _build_entry (sequence_id : string) (entry_obj : dict) (source base_dir : string) (tags : list string) : L SequenceLibraryEntry :=
  let raw_path := stripped entry_obj "path" "" in
  let field := "sequences[" +:+ repr_str sequence_id +:+ "]" in
  _ ← up (guard_raise (negb (nonempty raw_path))
            (ValueError ("sequence library entry " +:+ repr_str sequence_id +:+ " is missing path")));
  path ← up (lift (_resolve_path base_dir raw_path field));
  _ ← up (guard_raise (negb (lf_is_file path))
            (FileNotFoundError ("sequence library entry " +:+ repr_str sequence_id +:+ " file does not exist: " +:+ path)));
  text ← up (lift (lf_read_text path));
  raw ← up (lift (load_yaml_text true path text));
  spec ← except (parse_sequence raw) (fun exc =>
           up (raise (ValueError ("sequence library entry " +:+ repr_str sequence_id +:+ " failed to parse: " +:+ exc_str exc))));
  explicit_tags ← up (lift (_normalize_string_list (dget entry_obj "tags") (field +:+ ".tags")));
  editable_vars ← up (lift (_normalize_string_list (dget entry_obj "editable_vars") (field +:+ ".editable_vars")));
  mret (mkEntry sequence_id (_display_path path base_dir) source (_normalize_optional_string (dget entry_obj "label"))
          (_normalize_optional_string (dget entry_obj "description")) (tags ++ explicit_tags) editable_vars
          (sorted_set (list_to_set (iter_use_ids (sp_steps (sq_spec spec))))) spec text).

Definition entry_object (sequence_id : string) (raw_entry : pyval) : result dict :=
  match raw_entry with
  | PStr path => Ok [("path", PStr path)]
  | PDict d => Ok d
  | _ => Err (TypeError ("sequence library entry " +:+ repr_str sequence_id +:+ " must be a dict or string path"))
  end.

(** What the policy says of an entry without a description *)
Definition description_warning (policy sequence_id : string) (entry : SequenceLibraryEntry) : result (list string) :=
  if bool_decide (policy ∈ ["warn"; "error"]) && negb (match se_description entry with Some d => nonempty d | None => false end) then
    let message := "sequence library entry " +:+ repr_str sequence_id +:+ " is missing description" in
    if String.eqb policy "error" then Err (ValueError message) else Ok [message]
  else Ok [].

Fixpoint explicit_entries (policy base_dir : string) (items : dict) (entries : entries_t) (warnings : list string) :
    L (entries_t * list string) :=
  match items with
  | [] => mret (entries, warnings)
  | (raw_id, raw_entry) :: rest =>
      let sequence_id := strip raw_id in
      _ ← up (guard_raise (negb (nonempty sequence_id)) (ValueError "sequence library explicit ids must be non-empty"));
      entry_obj ← up (lift (entry_object sequence_id raw_entry));
      entry ← _build_entry sequence_id entry_obj "explicit" base_dir [];
      warned ← up (lift (description_warning policy sequence_id entry));
      explicit_entries policy base_dir rest (od_set entries sequence_id entry) (warnings ++ warned)
  end.

Definition _generate_autoload_id (path root_dir : string) (namespace : option string) : result string :=
  match lf_relative_to path root_dir with
  | None => Err (ValueError "")
  | Some rel =>
      match filter (fun s => nonempty s = true) (strip <$> lf_parts rel) with
      | [] => Ok ""
      | parts =>
          let generated := join "." parts in
          Ok (match namespace with Some n => if nonempty n then n +:+ "." +:+ generated else generated | None => generated end)
      end
  end.

Fixpoint autoload_files (base_dir root_dir : string) (namespace : option string) (tags : list string) (paths : list string)
    (entries : entries_t) : L entries_t :=
  match paths with
  | [] => mret entries
  | path :: rest =>
      if negb (lf_is_file path) then autoload_files base_dir root_dir namespace tags rest entries
      else
        generated ← up (lift (_generate_autoload_id path root_dir namespace));
        if negb (nonempty generated) || bool_decide (generated ∈ od_keys entries)
        then autoload_files base_dir root_dir namespace tags rest entries
        else
          entry ← _build_entry generated [("path", PStr path)] "autoload" base_dir tags;
          autoload_files base_dir root_dir namespace tags rest (od_set entries generated entry)
  end.

Definition autoload_dir (base_dir item_label : string) (raw_item : pyval) (entries : entries_t) : L entries_t :=
  item ← up (lift (match raw_item with PDict d => Ok d | _ => Err (TypeError (item_label +:+ " must be a dict")) end));
  let raw_dir := stripped item "dir" "" in
  _ ← up (guard_raise (negb (nonempty raw_dir)) (ValueError (item_label +:+ ".dir is required")));
  let pattern := stripped item "pattern" "*.yaml" in
  _ ← up (guard_raise (negb (nonempty pattern)) (ValueError (item_label +:+ ".pattern must not be empty")));
  let namespace := _normalize_optional_string (dget item "namespace") in
  let recursive := truthy (dget_or item "recursive" (PBool false)) in
  tags ← up (lift (_normalize_string_list (dget item "tags") (item_label +:+ ".tags")));
  autoload_dir ← up (lift (_resolve_path base_dir raw_dir (item_label +:+ ".dir")));
  _ ← up (guard_raise (negb (lf_is_dir autoload_dir))
            (FileNotFoundError (item_label +:+ ".dir does not exist or is not a directory: " +:+ autoload_dir)));
  autoload_files base_dir autoload_dir namespace tags (lf_glob recursive autoload_dir pattern) entries.

Fixpoint autoload_dirs (base_dir : string) (index : nat) (items : list pyval) (entries : entries_t) : L entries_t :=
  match items with
  | [] => mret entries
  | raw_item :: rest =>
      entries ← autoload_dir base_dir ("autoload_dirs[" +:+ str_Z (Z.of_nat index) +:+ "]") raw_item entries;
      autoload_dirs base_dir (S index) rest entries
  end.

(** [raw.get(key, ...) or ...], of the expected type *)
Definition manifest_dict (raw : dict) (key : string) : result dict :=
  match py_or (dget raw key) (PDict []) with
  | PDict d => Ok d
  | _ => Err (TypeError ("sequence library manifest '" +:+ key +:+ "' must be a dict"))
  end.
Definition manifest_list (raw : dict) (key : string) : result (list pyval) :=
  match py_or (dget raw key) (PList []) with
  | PList l => Ok l
  | _ => Err (TypeError ("sequence library manifest '" +:+ key +:+ "' must be a list"))
  end.

Definition manifest_root (raw : pyval) : result dict :=
  match raw with
  | PNone => Ok []
  | PDict d => Ok d
  | _ => Err (TypeError "sequence library manifest root must be a dict")
  end.

Definition checked (entries : entries_t) : L unit := fun n => (fun r => (r, n)) <$> _validate_use_graph entries.

Definition _load_entries (lib : SequenceLibrary) : L (entries_t * list string) :=
  let source := lb_manifest_path lib in
  manifest_text ← up (lift (lf_read_text source));
  loaded ← up (lift (load_yaml_text false source manifest_text));
  raw ← up (lift (manifest_root loaded));
  version ← up (lift (py_int (dget_or raw "version" (PInt 1))));
  _ ← up (guard_raise (negb (version =? 1))
            (ValueError ("unsupported sequence library manifest version " +:+ str_Z version +:+ "; expected 1")));
  let base_dir := lf_parent source in
  explicit ← up (lift (manifest_dict raw "sequences"));
  '(entries, warnings) ← explicit_entries (lb_description_policy lib) base_dir explicit [] [];
  dirs ← up (lift (manifest_list raw "autoload_dirs"));
  entries ← autoload_dirs base_dir 0 dirs entries;
  _ ← checked entries;
  mret (entries, warnings).

(** ** The library *)
Definition new_library (manifest_path description_policy : string) : result SequenceLibrary :=
  let path := lf_resolve None manifest_path in
  if negb (lf_is_file path) then Err (FileNotFoundError ("sequence library manifest not found: " +:+ path))
  else
    let policy := lower (strip (if nonempty description_policy then description_policy else "warn")) in
    if bool_decide (policy ∈ ["off"; "warn"; "error"]) then Ok (mkLibrary path policy [] [])
    else Err (ValueError "sequence library description_policy must be one of off|warn|error").

Definition reload (lib : SequenceLibrary) : L SequenceLibrary :=
  '(entries, warnings) ← _load_entries lib;
  mret (mkLibrary (lb_manifest_path lib) (lb_description_policy lib) entries warnings).
End library.

Definition has (lib : SequenceLibrary) (sequence_id : string) : bool := bool_decide (strip sequence_id ∈ od_keys (lb_entries lib)).

Definition get_entry `{HR : !PyRepr} (lib : SequenceLibrary) (sequence_id : string) : result SequenceLibraryEntry :=
  let key := strip sequence_id in
  if negb (nonempty key) then Err (ValueError "sequence_id must not be empty")
  else match od_get (lb_entries lib) key with
       | Some entry => Ok entry
       | None => Err (KeyError ("unknown sequence library id " +:+ repr_str key))
       end.

Definition get_spec `{HR : !PyRepr} (lib : SequenceLibrary) (sequence_id : string) : result SequenceSpec :=
  sq_spec ∘ se_spec <$> get_entry lib sequence_id.

Definition to_public_dict (e : SequenceLibraryEntry) : dict :=
  [("id", PStr (se_sequence_id e)); ("path", PStr (se_path e)); ("source", PStr (se_source e));
   ("label", opt_str (se_label e)); ("description", opt_str (se_description e)); ("tags", PList (PStr <$> se_tags e));
   ("editable_vars", PList (PStr <$> se_editable_vars e));
   ("vars", PList (PStr <$> sorted_set (list_to_set (od_keys (sp_vars (sq_spec (se_spec e)))))));
   ("use_ids", PList (PStr <$> se_use_ids e));
   ("has_form", PBool (match sq_form (se_spec e) with Some _ => true | None => false end))].

Definition list_entries (lib : SequenceLibrary) : list pyval :=
  omap (fun k => PDict ∘ to_public_dict <$> od_get (lb_entries lib) k)
    (sorted_set (list_to_set (od_keys (lb_entries lib)))).
