(* ===== verification/LibraryTheorems.v ===== *)
(** * A library that loads has no cycles

    The depth-first search over the graph of uses ends, accepts exactly the
    graphs without a cycle, and names a cycle where there is one.  So in a
    library that loads every use finds its sequence, and following uses ends. *)
From stdpp Require Import relations.
From S2P Require Import Prelude PyVal PyNum PyOps Expressions Conditions Responses ProcessBase.
From S2P Require Import Ranges SequencerData SequencerCore StepWalks SequenceParser WalkTheorems ParserTheorems SequenceLibrary.
#[local] Open Scope Z_scope.

Lemma tc_first {A} (R : relation A) x z : tc R x z -> exists y, R x y /\ rtc R y z.
Proof. destruct 1 as [x z H|x y z H Ht]; [exists z; by split|]. exists y. split; [done|by apply tc_rtc]. Qed.
Lemma tc_last {A} (R : relation A) x z : tc R x z -> exists y, R y z.
Proof. induction 1 as [x z H|x y z _ _ IH]; [by exists x|done]. Qed.

Section search.
Context `{HR : !PyRepr} (graph : use_graph).

Definition uses (x y : string) : Prop := y ∈ default [] (od_get graph x).

(** Every node of the list uses the next one. *)
Definition chain (c : list string) : Prop := forall i a b, c !! i = Some a -> c !! S i = Some b -> uses a b.
Definition cycle (c : list string) : Prop := exists x l, c = x :: l ++ [x] /\ chain c.

Lemma chain_tc c x : chain (x :: c) -> forall y, y ∈ c -> tc uses x y.
Proof.
  revert x. induction c as [|z c IH]; intros x Hc y Hy; [by apply not_elem_of_nil in Hy|].
  assert (uses x z) as Hxz by (apply (Hc 0%nat); done).
  apply elem_of_cons in Hy as [->|Hy]; [by apply tc_once|]. eapply tc_l; [done|]. apply (IH z); [|done].
  intros i a b Ha Hb. by apply (Hc (S i)).
Qed.
Lemma cycle_tc c : cycle c -> exists x, tc uses x x.
Proof. intros (x & l & -> & Hc). exists x. eapply chain_tc; [done|]. apply elem_of_app. right. by left. Qed.

Lemma chain_snoc c x y : chain (c ++ [x]) -> uses x y -> chain ((c ++ [x]) ++ [y]).
Proof.
  intros Hc Hu i a b Ha Hb. destruct (decide (S i < length (c ++ [x])))%nat as [Hi|Hi].
  - rewrite lookup_app_l in Hb by done. rewrite lookup_app_l in Ha by lia. by apply (Hc i).
  - assert (S i = length (c ++ [x])) as E.
    { apply lookup_lt_Some in Hb. rewrite !length_app in *. cbn in *. lia. }
    rewrite lookup_app_r in Hb by lia. rewrite E, Nat.sub_diag in Hb. injection Hb as <-.
    rewrite length_app in E. cbn in E. assert (i = length c) as -> by lia.
    rewrite lookup_app_l in Ha by (rewrite length_app; cbn; lia). rewrite list_lookup_middle in Ha by done. by injection Ha as <-.
Qed.

Lemma chain_one x : chain [x].
Proof. intros [|i] a b _ Hb; [done|by destruct i]. Qed.

Lemma use_cycle_spec stack node : node ∈ stack -> chain (stack ++ [node]) -> cycle (use_cycle stack node).
Proof.
  intros Hin Hc. unfold use_cycle. destruct (list_find (fun x => x = node) stack) as [[idx y]|] eqn:E.
  2: { exfalso. apply list_find_None in E. rewrite Forall_forall in E. by apply (E node). }
  apply list_find_Some in E as (Hi & -> & _). exists node, (drop (S idx) stack). split.
  - by rewrite (drop_S stack node idx Hi).
  - intros i a b Ha Hb. apply (Hc (idx + i)%nat).
    + rewrite <- Ha, <- lookup_drop, drop_app_le; [done|]. apply lookup_lt_Some in Hi. lia.
    + rewrite <- Hb, <- Nat.add_succ_r, <- lookup_drop, drop_app_le; [done|]. apply lookup_lt_Some in Hi. lia.
Qed.

(** ** What the marks mean: the open nodes are those of the stack, what a done
    node uses is done, and no done node is on a cycle. *)
Record marks_ok (stack : list string) (visited : gmap string Z) : Prop := {
  mk_values : forall x v, visited !! x = Some v -> v = 1 \/ v = 2;
  mk_open : forall x, visited !! x = Some 1 <-> x ∈ stack;
  mk_done : forall x y, visited !! x = Some 2 -> uses x y -> visited !! y = Some 2;
  mk_acyclic : forall x, visited !! x = Some 2 -> ~ tc uses x x
}.

Lemma done_reaches stack V x y : marks_ok stack V -> V !! x = Some 2 -> rtc uses x y -> V !! y = Some 2.
Proof. intros Hm Hx H. revert Hx. induction H as [|x z y Hu _ IH]; [done|]. intros Hx. by eapply IH, mk_done. Qed.

Lemma marks_enter stack V node : marks_ok stack V -> V !! node = None -> marks_ok (stack ++ [node]) (<[node := 1]> V).
Proof.
  intros [Hv Ho Hd Ha] Hn. split.
  - intros x v. destruct (decide (x = node)) as [->|]; rewrite ?lookup_insert_eq, ?lookup_insert_ne by done; [|by apply Hv].
    intros [= <-]. by left.
  - intros x. rewrite elem_of_app, list_elem_of_singleton. destruct (decide (x = node)) as [->|];
      rewrite ?lookup_insert_eq, ?lookup_insert_ne by done; [split; [by right|done]|]. rewrite Ho. naive_solver.
  - intros x y Hx Hu. destruct (decide (x = node)) as [->|]; [by rewrite lookup_insert_eq in Hx|].
    rewrite lookup_insert_ne in Hx by done. pose proof (Hd _ _ Hx Hu) as Hy. rewrite lookup_insert_ne; [done|]. by intros <-; rewrite Hn in Hy.
  - intros x Hx. destruct (decide (x = node)) as [->|]; [by rewrite lookup_insert_eq in Hx|].
    rewrite lookup_insert_ne in Hx by done. by apply Ha.
Qed.

Lemma marks_leave stack V node : marks_ok (stack ++ [node]) V -> node ∉ stack -> (forall y, uses node y -> V !! y = Some 2) ->
  marks_ok stack (<[node := 2]> V).
Proof.
  intros Hm Hn Hall. pose proof Hm as [Hv Ho Hd Ha].
  assert (V !! node = Some 1) as Hopen by (apply Ho, elem_of_app; right; by left). split.
  - intros x v. destruct (decide (x = node)) as [->|]; rewrite ?lookup_insert_eq, ?lookup_insert_ne by done; [|by apply Hv].
    intros [= <-]. by right.
  - intros x. destruct (decide (x = node)) as [->|]; rewrite ?lookup_insert_eq, ?lookup_insert_ne by done; [done|].
    rewrite Ho, elem_of_app, list_elem_of_singleton. naive_solver.
  - intros x y Hx Hu. assert (V !! y = Some 2) as Hy.
    { destruct (decide (x = node)) as [->|]; [by apply Hall|]. rewrite lookup_insert_ne in Hx by done. by apply (Hd x). }
    destruct (decide (y = node)) as [->|]; [by rewrite Hopen in Hy|]. by rewrite lookup_insert_ne.
  - intros x Hx Hc. destruct (decide (x = node)) as [->|].
    + destruct (tc_first _ _ _ Hc) as (y & Hu & Hr).
      pose proof (done_reaches _ _ _ _ Hm (Hall _ Hu) Hr) as E. by rewrite Hopen in E.
    + rewrite lookup_insert_ne in Hx by done. by apply (Ha x).
Qed.

(** ** The search *)
Context (Hclosed : forall x y, uses x y -> y ∈ od_keys graph).
#[local] Abbreviation nodes := (list_to_set (C := gset string) (od_keys graph)).
Definition left_over (V : gmap string Z) : nat := size (nodes ∖ dom V).
Definition grows (V V' : gmap string Z) : Prop := dom V ⊆ dom V' /\ forall x, V !! x = Some 2 -> V' !! x = Some 2.

Definition cycle_error (e : pyexc) : Prop :=
  exists c, cycle c /\ e = ValueError ("sequence library use cycle detected: " +:+ join " -> " c).

Definition visit_ok (stack : list string) (node : string) (V : gmap string Z) (r : option (result (gmap string Z))) : Prop :=
  match r with
  | Some (Ok V') => marks_ok stack V' /\ V' !! node = Some 2 /\ grows V V'
  | Some (Err e) => cycle_error e
  | None => False
  end.

#[local] Abbreviation visit_all fuel stack node :=
  (fix visit_all (l : list string) (visited : gmap string Z) : option (result (gmap string Z)) :=
     match l with
     | [] => Some (Ok (<[node := 2]> visited))
     | nxt :: rest => match visit graph fuel (stack ++ [node]) nxt visited with Some (Ok visited) => visit_all rest visited | r => r end
     end).

Lemma grows_trans V1 V2 V3 : grows V1 V2 -> grows V2 V3 -> grows V1 V3.
Proof. intros [A B] [C D]. split; [set_solver|auto]. Qed.
Lemma left_over_mono V V' : grows V V' -> (left_over V' <= left_over V)%nat.
Proof. intros [H _]. unfold left_over. apply subseteq_size. set_solver. Qed.
Lemma left_over_enter V node : V !! node = None -> node ∈ od_keys graph -> (left_over (<[node := 1%Z]> V) < left_over V)%nat.
Proof.
  intros Hn Hk. unfold left_over. apply subset_size. rewrite dom_insert. apply not_elem_of_dom in Hn.
  assert (node ∈ nodes) as Hin by by apply elem_of_list_to_set. split; [set_solver|]. intros Hsub. specialize (Hsub node). set_solver.
Qed.

Lemma visit_all_ok fuel stack node l V :
  (forall nxt V, marks_ok (stack ++ [node]) V -> uses node nxt -> (left_over V < fuel)%nat ->
     visit_ok (stack ++ [node]) nxt V (visit graph fuel (stack ++ [node]) nxt V)) ->
  node ∉ stack -> marks_ok (stack ++ [node]) V -> (left_over V < fuel)%nat ->
  (forall y, uses node y -> y ∈ l \/ V !! y = Some 2) -> (forall y, y ∈ l -> uses node y) ->
  match visit_all fuel stack node l V with
  | Some (Ok V') => marks_ok stack V' /\ V' !! node = Some 2 /\ grows V V'
  | Some (Err e) => cycle_error e
  | None => False
  end.
Proof.
  intros Hvisit Hn. revert V. induction l as [|nxt l IH]; intros V Hm Hf Hall Hin.
  - split_and!; [|by rewrite lookup_insert_eq|].
    + apply marks_leave; try done. intros y Hu. destruct (Hall y Hu) as [Hy|]; [by apply not_elem_of_nil in Hy|done].
    + split; [rewrite dom_insert; set_solver|]. intros x Hx. destruct (decide (x = node)) as [->|]; [by rewrite lookup_insert_eq|].
      by rewrite lookup_insert_ne.
  - pose proof (Hvisit nxt V Hm (Hin nxt ltac:(by left)) Hf) as H. unfold visit_ok in H.
    destruct (visit graph fuel (stack ++ [node]) nxt V) as [[V1|e]|]; [|done|done]. destruct H as (Hm1 & Hd1 & Hg).
    assert (left_over V1 < fuel)%nat as Hf1 by (pose proof (left_over_mono _ _ Hg); lia).
    assert (forall y, uses node y -> y ∈ l \/ V1 !! y = Some 2) as Hall1.
    { intros y Hu. destruct (Hall y Hu) as [[->|Hy]%elem_of_cons|Hy]; [by right|by left|right; by apply Hg]. }
    specialize (IH V1 Hm1 Hf1 Hall1 (fun y Hy => Hin y (list_elem_of_further _ _ _ Hy))).
    destruct (visit_all fuel stack node l V1) as [[V2|e]|]; [|done|done].
    destruct IH as (? & ? & ?). split_and!; [done|done|]. by eapply grows_trans.
Qed.

Lemma visit_spec fuel : forall stack node V, marks_ok stack V -> chain (stack ++ [node]) -> node ∈ od_keys graph ->
  (left_over V < fuel)%nat -> visit_ok stack node V (visit graph fuel stack node V).
Proof.
  induction fuel as [|fuel IH]; intros stack node V Hm Hc Hk Hf; [lia|].
  cbn [visit]. destruct (V !! node) as [v|] eqn:Ev; cbn [default].
  - destruct (mk_values _ _ Hm _ _ Ev) as [->| ->]; cbn.
    + eexists. split; [|done]. apply use_cycle_spec; [|done]. by apply (mk_open _ _ Hm).
    + split_and!; [done|done|done].
  - assert (node ∉ stack) as Hn by (rewrite <- (mk_open _ _ Hm); by rewrite Ev).
    pose proof (left_over_enter V node Ev Hk) as Hlt. pose proof (marks_enter _ _ _ Hm Ev) as Hm1.
    epose proof (visit_all_ok fuel stack node (default [] (od_get graph node)) (<[node := 1]> V) _ Hn Hm1 ltac:(lia) _ _) as H.
    Unshelve.
    + cbn. destruct (visit_all fuel stack node _ _) as [[V'|e]|]; [|done|done]. destruct H as (? & ? & Hg). split_and!; [done|done|].
      eapply grows_trans; [|done]. split; [rewrite dom_insert; set_solver|]. intros x Hx. rewrite lookup_insert_ne; [done|].
      by intros <-; rewrite Ev in Hx.
    + intros nxt V1 HmV Hu HfV. apply IH; [done|by apply chain_snoc|by eapply Hclosed|done].
    + intros y Hu. by left.
    + intros y Hy. done.
Qed.

Lemma visit_roots_spec fuel l V : (left_over V < fuel)%nat -> marks_ok [] V -> Forall (fun x => x ∈ od_keys graph) l ->
  (forall x, x ∈ od_keys graph -> x ∈ l \/ V !! x = Some 2) ->
  match visit_roots graph fuel l V with
  | Some (Ok _) => forall x, ~ tc uses x x
  | Some (Err e) => cycle_error e
  | None => False
  end.
Proof.
  revert V. induction l as [|node l IH]; intros V Hf Hm Hl Hall; cbn.
  - intros x Hc. assert (x ∈ od_keys graph) as Hx.
    { destruct (tc_last _ _ _ Hc) as (y & Hu). by apply Hclosed in Hu. }
    destruct (Hall x Hx) as [H|H]; [by apply not_elem_of_nil in H|]. by apply (mk_acyclic _ _ Hm x).
  - apply Forall_cons in Hl as [Hk Hl]. pose proof (visit_spec fuel [] node V Hm) as H. unfold visit_ok in H.
    specialize (H (chain_one node) Hk Hf). destruct (visit graph fuel [] node V) as [[V1|e]|]; [|done|done]. destruct H as (Hm1 & Hd & Hg). apply IH; [|done|done|].
    + pose proof (left_over_mono _ _ Hg). lia.
    + intros x Hx. destruct (Hall x Hx) as [[->|H]%elem_of_cons|H]; [by right|by left|right; by apply Hg].
Qed.
End search.

(** ** The verdict on the entries *)
Section verdict.
Context `{HR : !PyRepr}.
#[local] Abbreviation entries_t := (list (string * SequenceLibraryEntry)).

(** One sequence uses another. *)
Definition entry_uses (entries : entries_t) (x y : string) : Prop :=
  exists e, od_get entries x = Some e /\ y ∈ use_targets (se_use_ids e).
Definition uses_known (entries : entries_t) : Prop := forall x y, entry_uses entries x y -> y ∈ od_keys entries.

Definition unknown_error (entries : entries_t) (e : pyexc) : Prop :=
  exists x y, entry_uses entries x y /\ y ∉ od_keys entries /\
    e = ValueError ("sequence " +:+ repr_str x +:+ " references unknown use.id " +:+ repr_str y).

Definition graph_of (entries : entries_t) : use_graph := (fun '(id, e) => (id, use_targets (se_use_ids e))) <$> entries.

Lemma graph_keys entries : od_keys (graph_of entries) = od_keys entries.
Proof. unfold od_keys, graph_of. induction entries as [|[] l IH]; [done|]. cbn. by f_equal. Qed.
Lemma graph_get entries x : od_get (graph_of entries) x = use_targets ∘ se_use_ids <$> od_get entries x.
Proof. unfold graph_of. induction entries as [|[k e] l IH]; [done|]. cbn. by case_decide. Qed.
Lemma graph_uses entries x y : uses (graph_of entries) x y <-> entry_uses entries x y.
Proof.
  unfold uses, entry_uses. rewrite graph_get. destruct (od_get entries x) as [e|]; cbn.
  - split; [by exists e|]. by intros (? & [= <-] & ?).
  - split; [by intros ?%not_elem_of_nil|]. by intros (? & ? & _).
Qed.

Lemma build_spec known todo done_ : od_wf known -> known = done_ ++ todo ->
  match build_use_graph known todo (graph_of done_) with
  | Ok g => g = graph_of known /\ forall id e t, (id, e) ∈ todo -> t ∈ use_targets (se_use_ids e) -> t ∈ od_keys known
  | Err e => unknown_error known e
  end.
Proof.
  intros Hwf. revert done_. induction todo as [|[id e] todo IH]; intros done_ Hk; cbn.
  { rewrite app_nil_r in Hk. split; [by rewrite Hk|]. by intros ? ? ? ?%not_elem_of_nil. }
  assert ((id, e) ∈ known) as Hin by (rewrite Hk; apply elem_of_app; right; by left).
  destruct (filter (fun t => t ∉ od_keys known) (use_targets (se_use_ids e))) as [|t l] eqn:E.
  - assert (forall t, t ∈ use_targets (se_use_ids e) -> t ∈ od_keys known) as Hall.
    { intros t Ht. destruct (decide (t ∈ od_keys known)) as [|Hn]; [done|]. exfalso.
      apply (not_elem_of_nil t). rewrite <- E. by apply list_elem_of_filter. }
    specialize (IH (done_ ++ [(id, e)])). rewrite <- app_assoc in IH. specialize (IH Hk).
    assert (od_set (graph_of done_) id (use_targets (se_use_ids e)) = graph_of (done_ ++ [(id, e)])) as ->.
    { unfold graph_of at 2. rewrite fmap_app. apply od_set_new. rewrite graph_keys. intros Hd. unfold od_wf in Hwf.
      rewrite Hk, od_keys_app in Hwf. apply NoDup_app in Hwf as (_ & Hwf & _). apply (Hwf _ Hd). by left. }
    destruct (build_use_graph known todo _) as [g|err]; [|done]. destruct IH as [-> IH]. split; [done|].
    intros id' e' t [[= -> ->]|H]%elem_of_cons; [by apply Hall|by eapply IH].
  - assert (t ∈ filter (fun t => t ∉ od_keys known) (use_targets (se_use_ids e))) as Ht by (rewrite E; by left).
    apply list_elem_of_filter in Ht as [Hn Ht]. exists id, t. split_and!; [|done|done]. exists e. split; [|done].
    by apply od_elem_get.
Qed.

Definition entry_cycle (entries : entries_t) (c : list string) : Prop :=
  exists x l, c = x :: l ++ [x] /\ forall i a b, c !! i = Some a -> c !! S i = Some b -> entry_uses entries a b.

Lemma acyclic_same entries x y : tc (uses (graph_of entries)) x y <-> tc (entry_uses entries) x y.
Proof. split; apply tc_congruence with (f := id); intros a b; apply graph_uses. Qed.

Definition cycle_found (entries : entries_t) (e : pyexc) : Prop :=
  exists c, entry_cycle entries c /\ e = ValueError ("sequence library use cycle detected: " +:+ join " -> " c).

Lemma left_over_start entries : (left_over (graph_of entries) ∅ < S (length (graph_of entries)))%nat.
Proof.
  unfold left_over. rewrite graph_keys. apply Nat.lt_succ_r.
  transitivity (size (list_to_set (C := gset string) (od_keys entries))); [apply subseteq_size; set_solver|].
  rewrite <- (length_fmap fst (graph_of entries)). change (fst <$> graph_of entries) with (od_keys (graph_of entries)).
  rewrite graph_keys. generalize (od_keys entries) as l. induction l as [|x l IH]; [done|]. cbn. rewrite size_union_alt, size_singleton.
  pose proof (subseteq_size (list_to_set l ∖ {[x]}) (list_to_set (C := gset string) l)) as H. specialize (H ltac:(set_solver)). lia.
Qed.

Lemma marks_start g : marks_ok g [] ∅.
Proof. split; intros x; rewrite lookup_empty; try done. split; [done|by intros ?%not_elem_of_nil]. Qed.

Lemma validated entries : od_wf entries ->
  match _validate_use_graph entries with
  | Some (Ok _) => uses_known entries /\ forall x, ~ tc (entry_uses entries) x x
  | Some (Err e) => unknown_error entries e \/ cycle_found entries e
  | None => False
  end.
Proof.
  intros Hwf. unfold _validate_use_graph. pose proof (build_spec entries entries [] Hwf eq_refl) as Hb.
  change (graph_of []) with (@nil (string * list string)) in Hb.
  destruct (build_use_graph entries entries []) as [g|err]; [|by left]. destruct Hb as [-> Hk].
  assert (uses_known entries) as Hknown.
  { intros x y (e & He & Hy). eapply Hk; [by apply od_get_elem|done]. }
  assert (forall x, x ∈ sorted_set (list_to_set (od_keys (graph_of entries))) <-> x ∈ od_keys (graph_of entries)) as Hroots.
  { intros x. by rewrite elem_of_sorted_set, elem_of_list_to_set. }
  assert (forall x y, uses (graph_of entries) x y -> y ∈ od_keys (graph_of entries)) as Hclosed.
  { intros x y Hu%graph_uses. rewrite graph_keys. by eapply Hknown. }
  pose proof (visit_roots_spec (graph_of entries)) as H. specialize (H Hclosed _ _ _ (left_over_start entries) (marks_start _)
    (proj2 (Forall_forall _ _) (fun x => proj1 (Hroots x))) (fun x Hx => or_introl (proj2 (Hroots x) Hx))).
  destruct (visit_roots _ _ _ _) as [[[]|e]|]; [| |done].
  - split; [done|]. intros x Hc. by apply (H x), acyclic_same.
  - right. destruct H as (c & (x & l & -> & Hc) & ->). exists (x :: l ++ [x]). split; [|done].
    exists x, l. split; [done|]. intros i a b Ha Hb. by apply graph_uses, (Hc i).
Qed.

Lemma entry_cycle_tc entries c : entry_cycle entries c -> exists x, tc (entry_uses entries) x x.
Proof.
  intros (x & l & -> & Hc). destruct (cycle_tc (graph_of entries) (x :: l ++ [x])) as (y & Hy).
  - exists x, l. split; [done|]. intros i a b Ha Hb. by apply graph_uses, (Hc i).
  - exists y. by apply acyclic_same.
Qed.

(** C26. The check of a library ends and is exact: it accepts the entries if and
    only if every sequence they use is in the library and none uses itself,
    directly or through others; it rejects them with an error that names a use
    of an unknown sequence or spells out a cycle of uses. *)
Theorem use_graph_exact entries : od_wf entries ->
  exists r, _validate_use_graph entries = Some r /\
    (r = Ok tt <-> uses_known entries /\ forall x, ~ tc (entry_uses entries) x x) /\
    (forall e, r = Err e -> unknown_error entries e \/ cycle_found entries e).
Proof.
  intros Hwf. pose proof (validated entries Hwf) as H. destruct (_validate_use_graph entries) as [[[]|e]|]; [| |done].
  - exists (Ok tt). by split_and!.
  - exists (Err e). split_and!; [done| |by intros ? [= <-]]. split; [done|]. intros [Hk Ha]. exfalso.
    destruct H as [(x & y & Hu & Hn & _)|(c & Hc & _)]; [by apply Hk in Hu|].
    apply entry_cycle_tc in Hc as (x & Hx). by apply (Ha x).
Qed.
End verdict.

(** ** Loading *)
Section loading.
Context `{HR : !PyRepr, HE : !PyExpr, HL : !LooseMatches, HY : !Yaml, HF : !LibraryFiles}.
#[local] Abbreviation entries_t := (list (string * SequenceLibraryEntry)).
#[local] Abbreviation ends m n K := (wp m n K (fun _ => True)).

Definition steps_of (e : SequenceLibraryEntry) : list step := sp_steps (sq_spec (se_spec e)).

Record entry_made (id : string) (e : SequenceLibraryEntry) : Prop := {
  em_id : se_sequence_id e = id;
  em_uses : se_use_ids e = sorted_set (list_to_set (iter_use_ids (steps_of e)));
  em_parsed : exists raw, sequence_ok raw (se_spec e)
}.
Record entries_ok (entries : entries_t) : Prop := {
  eo_wf : od_wf entries;
  eo_made : forall id e, od_get entries id = Some e -> entry_made id e
}.

Lemma entries_ok_set entries id e : entries_ok entries -> entry_made id e -> entries_ok (od_set entries id e).
Proof.
  intros [Hwf Hm] He. split; [by apply od_wf_set|]. intros id' e'. destruct (decide (id = id')) as [<-|].
  - rewrite od_get_set_eq. by intros [= <-].
  - rewrite od_get_set_ne by done. apply Hm.
Qed.

Lemma ends_check {A B} (r : result A) (k : A -> pyL Z B) n K : (forall a, r = Ok a -> ends (k a) n K) -> ends (a ← up (lift r); k a) n K.
Proof. intros H. by apply wp_bind, wp_lift. Qed.
Lemma ends_guard {B} b e (k : unit -> pyL Z B) n K : ends (k tt) n K -> ends (a ← up (guard_raise b e); k a) n K.
Proof. intros H. by apply wp_bind, wp_guard. Qed.

Lemma build_entry_ok id obj source base tags n : ends (_build_entry id obj source base tags) n (fun e _ => entry_made id e).
Proof.
  unfold _build_entry. apply ends_guard, ends_check. intros path _. apply ends_guard, ends_check. intros text _.
  apply ends_check. intros raw _. apply wp_bind. unfold wp at 1, except. pose proof (parse_sequence_ok raw n) as H. unfold wp in H.
  destruct (parse_sequence raw n) as [[[sq|e] n']|]; [|done|done].
  apply ends_check. intros tags' _. apply ends_check. intros vars _. apply wp_ret. split; [done|done|by exists raw].
Qed.

Lemma explicit_ok policy base items entries warnings n : entries_ok entries ->
  ends (explicit_entries policy base items entries warnings) n (fun r _ => entries_ok r.1).
Proof.
  revert entries warnings n. induction items as [|[raw_id raw] items IH]; intros entries warnings n Ho; cbn; [done|].
  apply ends_guard, ends_check. intros obj _. apply wp_bind. eapply wp_mono; [apply build_entry_ok| |done].
  intros e n' He. apply ends_check. intros warned _. by apply IH, entries_ok_set.
Qed.

Lemma autoload_files_ok base root ns tags paths entries n : entries_ok entries ->
  ends (autoload_files base root ns tags paths entries) n (fun r _ => entries_ok r).
Proof.
  revert entries n. induction paths as [|path paths IH]; intros entries n Ho; cbn; [done|].
  destruct (negb (lf_is_file path)); [by apply IH|]. apply ends_check. intros id _. destruct (_ || _); [by apply IH|].
  apply wp_bind. eapply wp_mono; [apply build_entry_ok| |done]. intros e n' He. by apply IH, entries_ok_set.
Qed.

Lemma autoload_dirs_ok base i items entries n : entries_ok entries ->
  ends (autoload_dirs base i items entries) n (fun r _ => entries_ok r).
Proof.
  revert i entries n. induction items as [|raw items IH]; intros i entries n Ho; cbn; [done|].
  apply wp_bind. apply (wp_mono _ _ (fun r _ => entries_ok r) _ (fun _ => True)); [|intros r n' Hr; by apply IH|done]. unfold autoload_dir. apply ends_check. intros item _.
  apply ends_guard, ends_guard, ends_check. intros tags _. apply ends_check. intros dir _. apply ends_guard. by apply autoload_files_ok.
Qed.

Lemma load_entries_ok lib n :
  ends (_load_entries lib) n (fun r _ => entries_ok r.1 /\ uses_known r.1 /\ forall x, ~ tc (entry_uses r.1) x x).
Proof.
  unfold _load_entries. apply ends_check. intros text _. apply ends_check. intros loaded _. apply ends_check. intros raw _.
  apply ends_check. intros version _. apply ends_guard, ends_check. intros explicit _. apply wp_bind.
  eapply wp_mono; [apply explicit_ok; split; [constructor|done]| |done]. intros [entries warnings] n1 Ho. apply ends_check. intros dirs _.
  apply wp_bind. eapply wp_mono; [by apply autoload_dirs_ok| |done]. intros entries' n2 Ho'. apply wp_bind.
  unfold wp at 1, checked. pose proof (validated entries' (eo_wf _ Ho')) as H.
  destruct (_validate_use_graph entries') as [[[]|e]|]; [|done|done]. apply wp_ret. by split.
Qed.

(** One sequence of the library uses another. *)
Definition library_uses (lib : SequenceLibrary) (x y : string) : Prop :=
  exists e u, od_get (lb_entries lib) x = Some e /\ u ∈ iter_use_ids (steps_of e) /\ y = strip u.

Lemma use_named e u : (exists raw, sequence_ok raw (se_spec e)) -> u ∈ iter_use_ids (steps_of e) -> strip u <> "".
Proof.
  intros [raw Hok] Hu. pose proof (so_steps _ _ Hok) as Hs. rewrite <- (steps_anywhere "" None 0) in Hs.
  rewrite (use_ids_collect "" 0) in Hu. apply list_elem_of_bind in Hu as (r & Hu & Hr). rewrite Forall_fmap, Forall_forall in Hs.
  specialize (Hs r Hr). cbn in Hs. destruct (sr_step r); cbn in Hu; try by apply not_elem_of_nil in Hu.
  apply list_elem_of_singleton in Hu as ->. destruct Hs as [Hn Hst]. by rewrite Hst.
Qed.

Lemma library_uses_entry entries lib x y : entries_ok entries -> lb_entries lib = entries ->
  library_uses lib x y -> entry_uses entries x y.
Proof.
  intros Ho <- (e & u & He & Hu & ->). exists e. split; [done|]. pose proof (eo_made _ Ho _ _ He) as Hm.
  unfold use_targets. rewrite elem_of_sorted_set, elem_of_list_to_set, list_elem_of_filter. split.
  - apply nonempty_spec. eapply use_named; [apply Hm|done].
  - apply list_elem_of_fmap. exists u. split; [done|]. by rewrite (em_uses _ _ Hm), elem_of_sorted_set, elem_of_list_to_set.
Qed.

(** C27. Loading a library ends.  In a library that loads, every sequence that a
    step of any of its sequences uses is found in the library, each entry under
    its own id, and following uses from one sequence to the next always ends:
    no sequence is ever expanded inside itself. *)
Theorem library_uses_end lib n :
  exists r n', reload lib n = Some (r, n') /\
    forall lib', r = Ok lib' ->
      (forall x y, library_uses lib' x y -> exists e, get_entry lib' y = Ok e /\ se_sequence_id e = y) /\
      forall x, sn (library_uses lib') x.
Proof.
  pose proof (load_entries_ok lib n) as H. unfold wp in H. unfold reload, mbind, pyL_bind.
  destruct (_load_entries lib n) as [[[[entries warnings]|e] n']|]; [|by exists (Err e), n'|done].
  destruct H as (Ho & Hk & Ha). cbn in Ho, Hk, Ha. eexists (Ok _), n'. split; [done|]. intros lib' [= <-].
  set (lib' := mkLibrary _ _ _ _).
  assert (forall x y, library_uses lib' x y -> entry_uses entries x y) as Hsub by (intros x y; by apply library_uses_entry).
  split.
  - intros x y Hu. pose proof (Hk _ _ (Hsub _ _ Hu)) as Hy. destruct Hu as (e & u & He & Hu & ->).
    destruct (od_get entries (strip u)) as [e'|] eqn:E; [|by apply od_get_None in E].
    exists e'. unfold get_entry. rewrite strip_idem.
    rewrite (proj2 (nonempty_spec _)) by (eapply use_named; [apply (eo_made _ Ho _ _ He)|done]). cbn [negb lb_entries lib'].
    rewrite E. split; [done|]. apply (em_id _ _ (eo_made _ Ho _ _ E)).
  - intros x. apply tc_finite_sn.
    + intros y Hc. apply (Ha y). eapply tc_congruence with (f := id); [|exact Hc]. by intros a b; apply Hsub.
    + exists (od_keys entries). intros y Hc. destruct (tc_last _ _ _ Hc) as (z & Hz). by eapply Hk, Hsub.
Qed.
End loading.

(** ** A library *)
Module LibraryDemo.
#[local] Existing Instance plain_repr.
#[local] Existing Instance RangesDemo.syntax.
#[local] Existing Instance RangesDemo.arith.
#[local] Instance no_matches : LooseMatches := {| loose_matches _ _ := [] |}.

Definition use_doc (id : string) : pyval := PDict [("use", PStr id)].
Definition sequence_doc (used : list string) : pyval := PDict [("steps", PList (use_doc <$> used))].
Definition manifest : pyval :=
  PDict [("sequences", PDict [("scan", PStr "scan.yaml"); ("home", PStr "home.yaml"); ("park", PStr "park.yaml")])].

(** [scan] uses [home] and [park], [home] uses [park], and [park] what is given. *)
#[local] Instance files : LibraryFiles := {|
  lf_resolve _ p := p; lf_parent _ := ""; lf_is_file _ := true; lf_is_dir _ := false; lf_read_text p := Ok p;
  lf_glob _ _ _ := []; lf_relative_to p _ := Some p; lf_parts _ := [] |}.
Definition documents (park_uses : list string) : Yaml := {|
  yaml_compose _ := None;
  yaml_load _ text := inr (
    if String.eqb text "scan.yaml" then sequence_doc ["home"; "park"]
    else if String.eqb text "home.yaml" then sequence_doc [" park "]
    else if String.eqb text "park.yaml" then sequence_doc park_uses
    else manifest) |}.

Definition loaded (park_uses : list string) : option (result (list string)) :=
  match reload (HY := documents park_uses) (mkLibrary "library.yaml" "warn" [] []) 0 with
  | Some (Ok lib, _) => Some (Ok (od_keys (lb_entries lib)))
  | Some (Err e, _) => Some (Err e)
  | None => None
  end.

Example no_cycle : loaded [] = Some (Ok ["scan"; "home"; "park"]).
Proof. by vm_compute. Qed.
Example long_cycle : loaded ["scan"] = Some (Err (ValueError "sequence library use cycle detected: home -> park -> scan -> home")).
Proof. by vm_compute. Qed.
Example unknown_use : loaded ["away"] = Some (Err (ValueError "sequence 'park' references unknown use.id 'away'")).
Proof. by vm_compute. Qed.

Definition no_steps : sequence := mkSequence (mkSpec 1 [] [] []) None None false None.
Definition entry (id : string) (used : list string) : string * SequenceLibraryEntry :=
  (id, mkEntry id "" "explicit" None None [] [] used no_steps "").
Definition two : list (string * SequenceLibraryEntry) := [entry "scan" ["home"]; entry "home" ["scan"]].

Lemma two_wf : od_wf two.
Proof. apply (bool_decide_unpack _). by vm_compute. Qed.

Lemma use_graph_exact_witness :
  od_wf two /\ exists e, _validate_use_graph two = Some (Err e) /\ (unknown_error two e \/ cycle_found two e).
Proof.
  split; [exact two_wf|]. destruct (use_graph_exact two two_wf) as (r & Hr & _ & He).
  destruct r as [[]|e]; [by vm_compute in Hr|]. exists e. split; [exact Hr|]. by apply He.
Defined.
End LibraryDemo.
