(* ===== verification/StartChecks.v ===== *)
(** * What a start checks ([sequencer/sequencer.py])

    Before the first step of a run the process asks the manager for the state
    of every device the sequence refers to.  The devices are collected from
    the enabled steps, with names and values rendered in the variables of the
    run. *)
From S2P Require Import Prelude PyVal PyNum PyOps Expressions Conditions Responses ProcessBase.
From S2P Require Import SequencerData SequencerCore SequencerValues StepWalks.
#[local] Open Scope Z_scope.

(** [needle in s] *)
Definition has_text (needle s : string) : bool := 0 <? py_count needle s.
(** [s.split(sep, 1)[0]] *)
Definition before (sep s : string) : string := default s (head (py_split sep s)).

Section devices.
Context `{HR : !PyRepr, HT : !Templates}.
Context (depth : nat) (env : Env).
#[local] Abbreviation devices := (gset string).

Definition _check_devices_connected_add (raw_device : pyval) (device_ids : devices) : devices :=
  match raw_device with
  | PNone => device_ids
  | _ =>
      match tp_render env raw_device with
      | Err _ => device_ids
      | Ok rendered =>
          let device_id := strip (py_str (py_or rendered (PStr ""))) in
          if nonempty device_id then {[device_id]} ∪ device_ids else device_ids
      end
  end.

(** The device of a [telemetry] or [call] source *)
Definition source_device (rendered : dict) (key : string) (device_ids : devices) : devices :=
  match dget rendered key with
  | PDict spec => if truthy (dget spec "process") then device_ids else _check_devices_connected_add (dget spec "device") device_ids
  | _ => device_ids
  end.

(** Values are rendered again at every level, so that the recursion is not
    bounded by the value: [depth] is how deep the interpreter goes.  Below it
    rendering raises, and the value is skipped. *)
Fixpoint _check_devices_connected_scan_value (depth : nat) (value : pyval) (device_ids : devices) : devices :=
  match depth with
  | O => device_ids
  | S depth =>
      match tp_render env value with
      | Ok (PList l) => foldl (fun ids item => _check_devices_connected_scan_value depth item ids) device_ids l
      | Ok (PDict rendered) =>
          foldl (fun ids '(_, nested) => _check_devices_connected_scan_value depth nested ids)
            (source_device rendered "call" (source_device rendered "telemetry" device_ids)) rendered
      | _ => device_ids
      end
  end.
#[local] Abbreviation scan_value := (_check_devices_connected_scan_value depth).

Definition stream_device (item : pyval) (device_ids : devices) : devices :=
  match item with
  | PDict d => _check_devices_connected_add (dget d "device") device_ids
  | PStr s =>
      let raw := strip s in
      if has_text "." raw then {[before "." raw]} ∪ device_ids
      else if has_text "/" raw then {[before "/" raw]} ∪ device_ids
      else device_ids
  | _ => device_ids
  end.

Definition _dc_walk_set_context (streams : pyval) (fields : dict) (device_ids : devices) : devices :=
  let rendered := match tp_render env streams with Ok v => v | Err _ => streams end in
  let device_ids := match rendered with PList l => foldl (fun ids item => stream_device item ids) device_ids l | _ => device_ids end in
  scan_value (PDict fields) device_ids.

(** What a step refers to by itself *)
Definition own_devices (x : step) (device_ids : devices) : devices :=
  match x with
  | CallStep _ device _ params _ _ _ process =>
      scan_value (PDict params) (if opt_true process then device_ids else _check_devices_connected_add (PStr device) device_ids)
  | SetStep _ device _ value => scan_value value (_check_devices_connected_add (PStr device) device_ids)
  | SetContextStep _ streams fields => _dc_walk_set_context streams fields device_ids
  | WaitUntilStep _ raw => scan_value (PDict raw) device_ids
  | AssignStep _ values => scan_value (PDict values) device_ids
  | IfStep _ condition _ _ => scan_value condition device_ids
  | WhileStep _ condition _ => scan_value condition device_ids
  | AdaptiveStep _ spec _ => scan_value (PDict (ad_observe spec)) device_ids
  | _ => device_ids
  end.

Fixpoint _check_devices_connected_walk_step (x : step) (device_ids : devices) : devices :=
  let walk_steps := fix walk_steps (l : list step) (device_ids : devices) : devices :=
    match l with
    | [] => device_ids
    | y :: l => walk_steps l (if disabled y then device_ids else _check_devices_connected_walk_step y device_ids)
    end in
  let device_ids := own_devices x device_ids in
  match x with
  | ForStep _ _ _ body | RepeatStep _ _ body | AtomicStep _ _ body | ParallelStep _ body | WhileStep _ _ body
  | AdaptiveStep _ _ body => walk_steps body device_ids
  | IfStep _ _ then_steps else_steps =>
      let device_ids := walk_steps then_steps device_ids in
      match else_steps with Some l => walk_steps l device_ids | None => device_ids end
  | TryStep _ body finally_steps => walk_steps finally_steps (walk_steps body device_ids)
  | _ => device_ids
  end.

Fixpoint _check_devices_connected_walk_steps (steps : list step) (device_ids : devices) : devices :=
  match steps with
  | [] => device_ids
  | y :: l =>
      _check_devices_connected_walk_steps l (if disabled y then device_ids else _check_devices_connected_walk_step y device_ids)
  end.
End devices.

(** ** The verdict on a device *)
Section verdict.
Context `{HR : !PyRepr, HE : !PyExpr}.

Definition device_online (item : dict) : bool :=
  let liveness := py_str (dget_or item "liveness" (PStr "")) in
  let device_state := py_str (py_or (dget_or item "device_state" (PStr "")) (PStr "")) in
  String.eqb (if nonempty liveness then liveness else "UNKNOWN") "ONLINE" && negb (bool_decide (device_state ∈ ["DEGRADED"; "DISCONNECTED"])).

Definition _device_start_problem (device_id : string) (status_by_device : list (string * dict)) : option string :=
  match od_get status_by_device device_id with
  | None =>
      let close := get_close_matches device_id (sorted_set (list_to_set (od_keys status_by_device))) in
      let hint := match close with [] => "" | _ => " (did you mean " +:+ join ", " (repr_str <$> close) +:+ "?)" end in
      Some (device_id +:+ " (not configured" +:+ hint +:+ ")")
  | Some item =>
      if device_online item then None
      else
        let liveness := py_str (dget_or item "liveness" (PStr "")) in
        let liveness := if nonempty liveness then liveness else "UNKNOWN" in
        let device_state := py_str (py_or (dget_or item "device_state" (PStr "")) (PStr "")) in
        let states := if nonempty device_state && negb (String.eqb device_state liveness) then [liveness; device_state] else [liveness] in
        let last_error := dget item "last_error" in
        Some (device_id +:+ " (configured but " +:+ join "/" states +:+
              (if truthy last_error then "; last error: " +:+ py_str last_error else "") +:+ ")")
  end.

(** The devices in the answer to [device.list_status]; [None] is no answer. *)
Definition listed_devices (resp : option dict) : list (string * dict) :=
  match resp with
  | Some d =>
      match dget d "result" with
      | PList l =>
          foldl (fun out item =>
            match item with
            | PDict i =>
                let device_id := strip (py_str (dget_or i "device_id" (PStr ""))) in
                if nonempty device_id then od_set out device_id i else out
            | _ => out
            end) [] l
      | _ => []
      end
  | None => []
  end.

Definition start_problems (device_ids : gset string) (status_by_device : list (string * dict)) : list string :=
  omap (fun d => _device_start_problem d status_by_device) (sorted_set device_ids).

Lemma no_start_problems device_ids st : start_problems device_ids st = [] ->
  forall d, d ∈ device_ids -> exists item, od_get st d = Some item /\ device_online item = true.
Proof.
  intros H d Hd. unfold start_problems in H. destruct (_device_start_problem d st) as [p|] eqn:E.
  { exfalso. apply (not_elem_of_nil p). rewrite <- H. apply list_elem_of_omap. exists d. by rewrite elem_of_sorted_set. }
  unfold _device_start_problem in E. destruct (od_get st d) as [item|]; [|done]. exists item. split; [done|].
  by destruct (device_online item).
Qed.
End verdict.

(** ** The walk goes through every enabled step *)
Section walked.
Context `{HR : !PyRepr, HT : !Templates} (depth : nat) (env : Env).

(** The steps a run may get to *)
Fixpoint enabled_below (x : step) : list step :=
  let all := fix all (l : list step) : list step :=
    match l with [] => [] | y :: l => (if disabled y then [] else enabled_below y) ++ all l end in
  x :: match x with
       | ForStep _ _ _ body | RepeatStep _ _ body | AtomicStep _ _ body | ParallelStep _ body | WhileStep _ _ body
       | AdaptiveStep _ _ body => all body
       | IfStep _ _ then_steps else_steps => all then_steps ++ match else_steps with Some l => all l | None => [] end
       | TryStep _ body finally_steps => all body ++ all finally_steps
       | _ => []
       end.
Fixpoint enabled_steps (l : list step) : list step :=
  match l with [] => [] | y :: l => (if disabled y then [] else enabled_below y) ++ enabled_steps l end.

#[local] Abbreviation own := (fun ids x => own_devices depth env x ids).

Lemma enabled_bodies x : enabled_below x = x :: (step_bodies x "" ≫= fun '(_, l, _) => enabled_steps l).
Proof. by destruct x as [| | | |h b e l|h t l|h c l [l'|]|h c l|h o l| |h l|h l l'| | | |h a l]; cbn; rewrite ?app_nil_r. Qed.
Lemma walk_bodies x ids : _check_devices_connected_walk_step depth env x ids =
  foldl (fun ids '(_, l, _) => _check_devices_connected_walk_steps depth env l ids) (own ids x) (step_bodies x "").
Proof. by destruct x as [| | | |h b e l|h t l|h c l [l'|]|h c l|h o l| |h l|h l l'| | | |h a l]. Qed.

Lemma walk_fold l ids : _check_devices_connected_walk_steps depth env l ids = foldl own ids (enabled_steps l).
Proof.
  set (agrees := fun y => forall ids, _check_devices_connected_walk_step depth env y ids = foldl own ids (enabled_below y)).
  assert (forall l, Forall agrees l -> forall ids, _check_devices_connected_walk_steps depth env l ids = foldl own ids (enabled_steps l)) as lists.
  { induction 1 as [|y k Hy _ IH]; intros ids'; [done|]. cbn. rewrite IH, foldl_app. by destruct (disabled y); [|rewrite Hy]. }
  apply lists, Forall_forall. intros x _. clear l ids. induction x as [x IH] using step_rect_nested. intros ids.
  rewrite walk_bodies, enabled_bodies. cbn [foldl]. specialize (IH ""). revert IH. generalize (own_devices depth env x ids). generalize (step_bodies x "") as bs.
  intros bs. induction bs as [|[[q l] c] bs IHb]; intros ids' IH; [done|]. cbn. rewrite foldl_app.
  rewrite lists by (eapply IH; by left). apply IHb. intros q' l' c' Hin. eapply IH. by right.
Qed.

(** Nothing that was collected is lost. *)
Lemma foldl_grows {A} (f : gset string -> A -> gset string) l ids :
  (forall ids x, ids ⊆ f ids x) -> ids ⊆ foldl f ids l.
Proof. intros H. revert ids. induction l as [|x l IH]; intros ids; [done|]. cbn. etransitivity; [apply H|apply IH]. Qed.
Lemma add_grows v ids : ids ⊆ _check_devices_connected_add env v ids.
Proof. unfold _check_devices_connected_add. repeat case_match; set_solver. Qed.
Lemma source_grows d k ids : ids ⊆ source_device env d k ids.
Proof. unfold source_device. repeat case_match; try done. apply add_grows. Qed.
Lemma scan_grows n v ids : ids ⊆ _check_devices_connected_scan_value env n v ids.
Proof.
  revert v ids. induction n as [|n IH]; intros v ids; cbn; [done|]. destruct (tp_render env v) as [[| | | | |l|d]|]; try done.
  - by apply foldl_grows.
  - do 2 (etransitivity; [apply source_grows|]). apply foldl_grows. by intros ids' [].
Qed.
Lemma own_grows x ids : ids ⊆ own ids x.
Proof.
  destruct x; cbn beta iota delta [own_devices]; try done; try apply scan_grows.
  - etransitivity; [|apply scan_grows]. destruct (opt_true process); [done|apply add_grows].
  - etransitivity; [|apply scan_grows]. apply add_grows.
  - unfold _dc_walk_set_context. etransitivity; [|apply scan_grows].
    match goal with |- context [match ?v with PList _ => _ | _ => _ end] => destruct v end; try done. apply foldl_grows. intros ids' item.
    destruct item; cbn; try done; [repeat case_match; set_solver|apply add_grows].
Qed.

Lemma walk_collects x l d ids :
  x ∈ enabled_steps l -> (forall ids, d ∈ own ids x) -> d ∈ _check_devices_connected_walk_steps depth env l ids.
Proof.
  intros (l1 & l2 & E)%list_elem_of_split Hx. rewrite walk_fold, E, foldl_app. cbn. eapply (foldl_grows own); [intros; apply own_grows|apply Hx].
Qed.

(** The device a step commands *)
Definition commanded (x : step) : option string :=
  match x with
  | CallStep _ device _ _ _ _ _ process => if opt_true process then None else Some device
  | SetStep _ device _ _ => Some device
  | _ => None
  end.

Lemma commanded_own x device v ids : commanded x = Some device -> tp_render env (PStr device) = Ok v ->
  strip (py_str (py_or v (PStr ""))) <> "" -> strip (py_str (py_or v (PStr ""))) ∈ own ids x.
Proof.
  intros Hc Hr Hn. assert (forall ids, strip (py_str (py_or v (PStr ""))) ∈ _check_devices_connected_add env (PStr device) ids) as Hadd.
  { intros ids'. unfold _check_devices_connected_add. rewrite Hr. unfold nonempty. rewrite (proj2 (String.eqb_neq _ _) Hn). cbn. set_solver. }
  destruct x; cbn beta iota delta [own_devices commanded] in Hc |- *; try done.
  - destruct (opt_true process); [done|]. injection Hc as <-. apply scan_grows, Hadd.
  - injection Hc as <-. apply scan_grows, Hadd.
Qed.
End walked.
