(* ===== verification/SequencerProcess.v ===== *)
(** * The process of the sequencer ([sequencer/sequencer.py])

    It loads sequences from text, files and the library, starts, pauses,
    resumes and stops the runtime on request, and fails a run when a driver or
    the data writer logs a fault.  The runtime is part of its state; the
    manager, the files and the clock are the class [SequencerLink].  The
    status, the plan and the preflight reports are not modelled: their
    handlers are given to the dispatch table. *)
From S2P Require Import Prelude PyVal PyNum PyOps Expressions Conditions Responses ProcessBase ProcessLogs RulesCommon.
From S2P Require Import RunRecords SequencerData SequencerCore SequencerValues SequencerAdaptive StepWalks SequenceParser.
From S2P Require Import SequenceLibrary StartChecks.
#[local] Open Scope Z_scope.

Class SequencerLink (W : Type) := {
  lk_call : dict -> W -> option dict * W;                 (* [ManagerClient.call]; [None] without an answer *)
  lk_publish : string -> dict -> W -> W;                  (* [publish_event] *)
  lk_time : W -> Q * W;                                   (* [time.time()] *)
  lk_files : W -> LibraryFiles;                           (* the files as they are now *)
  lk_cwd : W -> string;
  lk_stderr : string -> W -> W;
  lk_recursion : nat                                      (* how deep the interpreter recurses *)
}.

(** What was loaded, to be put back *)
Record loaded_snapshot := mkSnapshot {
  sn_spec : sequence; sn_text : string; sn_source : string; sn_source_kind : string;
  sn_active : option string; sn_run_id : option Z
}.

Record process {W : Type} := mkProcess {
  ps_runtime : runtime W;
  ps_process_id : string;
  ps_context_columns : option (list (string * string));
  ps_loaded_spec : option sequence;
  ps_loaded_source : option string;
  ps_loaded_source_kind : option string;
  ps_loaded_text : option string;
  ps_loaded_revision : Z;
  ps_loaded_run_id : option Z;
  ps_active_sequence_id : option string;
  ps_library_path : option string;
  ps_autoload_sequence_id : option string;
  ps_description_policy : string;
  ps_library : option SequenceLibrary;
  ps_library_error : option string;
  ps_library_warnings : list string;
  ps_progress_mono : Q;                    (* [_last_progress_event_mono] *)
  ps_progress_signature : option (list pyval);
  ps_autoload_error : option (string * Q * option string);   (* message, time, source *)
  ps_pending_logs : list dict;
  ps_last_error_sent : bool;
  ps_stop : bool;                          (* [_stop_evt] *)
  ps_next_object : Z                       (* identities of step objects *)
}.
Arguments process : clear implicits.
#[export] Instance process_eta {W} : Eta (process W) := fun p =>
  mkProcess W (ps_runtime p) (ps_process_id p) (ps_context_columns p) (ps_loaded_spec p) (ps_loaded_source p)
    (ps_loaded_source_kind p) (ps_loaded_text p) (ps_loaded_revision p) (ps_loaded_run_id p) (ps_active_sequence_id p)
    (ps_library_path p) (ps_autoload_sequence_id p) (ps_description_policy p) (ps_library p) (ps_library_error p)
    (ps_library_warnings p) (ps_progress_mono p) (ps_progress_signature p) (ps_autoload_error p) (ps_pending_logs p)
    (ps_last_error_sent p) (ps_stop p) (ps_next_object p).

Definition _EXTERNAL_FAULT_SEVERITIES : list string := ["warning"; "error"; "critical"].

(** The columns told to the data writer *)
Definition _effective_context_columns (declared : option (list (string * string))) : option (list (string * string)) :=
  match declared with
  | None | Some [] => None
  | Some columns => Some (od_set columns SEQUENCER_RUN_ID_FIELD "int64")
  end.

(** [resp] as a dict with [ok]; [None] is no answer *)
Definition _normalize_call_response (resp : option dict) : dict :=
  match resp with
  | None => [("ok", PBool false); ("error", PStr "timeout")]
  | Some d =>
      if dhas d "ok" then d
      else if py_eqb (dget d "status") (PStr "OK") then [("ok", PBool true); ("result", dget d "result")]
      else if py_eqb (dget d "status") (PStr "ERROR") then [("ok", PBool false); ("error", dget_or d "error" (PStr "unknown"))]
      else d
  end.

Section faults.
Context `{HR : !PyRepr}.

Definition _normalize_log_severity (raw : pyval) : string := normalize_log_severity raw "info".

(** [str(d.get(k, "") or "").strip()] *)
Definition entry_text (entry : dict) (k : string) : string := strip (py_str (py_or (dget entry k) (PStr ""))).
Definition first_text (texts : list string) : string := default "" (head (filter (fun s => nonempty s = true) texts)).

(** The reason a log entry gives to end the run, if it does *)
Definition _should_trigger_external_sequencer_fault (entry : dict) : option string :=
  if negb (bool_decide (_normalize_log_severity (dget entry "severity") ∈ _EXTERNAL_FAULT_SEVERITIES)) then None
  else
    let source_kind := lower (entry_text entry "source_kind") in
    let source_id := entry_text entry "source_id" in
    let target :=
      if String.eqb source_kind "driver" then Some (first_text [source_id; entry_text entry "device_id"; "driver"])
      else if String.eqb source_kind "process" && (String.eqb source_id "hdf_writer" || String.eqb (entry_text entry "process_id") "hdf_writer")
      then Some "hdf_writer" else None in
    (fun target => "External fault from " +:+ source_kind +:+ ":" +:+ target +:+ ": " +:+
       first_text [entry_text entry "message"; entry_text entry "topic"; "external fault"]) <$> target.
End faults.

Section process.
Context `{HR : !PyRepr, HE : !PyExpr, HA : !PyArith, HL : !LooseMatches, HY : !Yaml, HT : !Templates}.
Context {W : Type} `{HW : !SequencerWorld W} `{HK : !SequencerLink W}.
#[local] Abbreviation st := (process W).
#[local] Abbreviation M := (pyM (process W)).

(** ** The runtime and the world within *)
Definition on_runtime {A} (m : pyM (runtime W) A) : M A := fun p =>
  let '(r, rt) := m (ps_runtime p) in (r, p <| ps_runtime := rt |>).
Definition in_world {A} (f : W -> A * W) : M A := on_runtime (outside (fun w => let '(a, w) := f w in (Ok a, w))).
Definition world_does (f : W -> W) : M unit := in_world (fun w => (tt, f w)).

(** Parsing, which always ends *)
Definition parsing {A} (m : pyL Z A) : M A := fun p =>
  match m (ps_next_object p) with
  | Some (r, n) => (r, p <| ps_next_object := n |>)
  | None => (Err (RuntimeError ""), p)
  end.

(** [try: ... except Exception as e: ...] *)
Definition caught {A} (m : M A) (h : pyexc -> M A) : M A := fun p =>
  match m p with
  | (Err e, p) => h e p
  | r => r
  end.

(** ** Events and logs *)
Definition _publish_lifecycle_event (event : string) (ok : bool) (source message : string) (payload : option dict) : M unit := fun p =>
  world_does (lk_publish "sequencer.lifecycle"
    ([("version", PInt 1); ("process_id", PStr (ps_process_id p)); ("event", PStr event); ("ok", PBool ok);
      ("source", PStr source); ("message", PStr message)] ++ match payload with Some d => [("payload", PDict d)] | None => [] end)) p.

Definition _try_publish_log_payload (payload : dict) : M bool :=
  resp ← in_world (lk_call [("type", PStr "manager.logs.publish"); ("payload", PDict payload)]);
  mret match resp with Some d => py_eqb (dget d "ok") (PBool true) && match dget d "ok" with PBool _ => true | _ => false end | None => false end.

(** [deque(maxlen=200)] *)
Definition _queue_log_payload (payload : dict) : M unit := modify (fun p =>
  p <| ps_pending_logs := last_n 200 (ps_pending_logs p ++ [payload]) |>).

Fixpoint _flush_pending_logs (max_items : nat) : M unit := fun p =>
  match max_items, ps_pending_logs p with
  | S n, payload :: _ =>
      (sent ← _try_publish_log_payload payload;
       if sent : bool then
         _ ← modify (fun p => p <| ps_pending_logs := tail (ps_pending_logs p) |>);
         _flush_pending_logs n
       else mret tt) p
  | _, _ => (Ok tt, p)
  end.

Definition log_payload (process_id severity message : string) (details : dict) (wall mono : Q) (text : string) : dict :=
  [("version", PInt 1); ("severity", PStr severity); ("topic", PStr "sequencer"); ("source_kind", PStr "process");
   ("source_id", PStr process_id); ("device_id", PNone); ("process_id", PStr process_id); ("message", PStr message);
   ("payload_json", PStr text); ("ts", PDict [("t_wall", PFloat (FFin wall)); ("t_mono", PFloat (FFin mono))])].

Definition _publish_log (severity message : string) (details : dict) : M unit := fun p =>
  (text ← lift (tp_json_dumps (PDict (dict_update [("process_id", PStr (ps_process_id p))] details)));
   wall ← in_world lk_time;
   mono ← in_world q_clock;
   let payload := log_payload (ps_process_id p) severity message details wall mono text in
   sent ← _try_publish_log_payload payload;
   if sent : bool then mret tt
   else if bool_decide (lower (strip severity) ∈ ["error"; "critical"])
   then world_does (lk_stderr ("[sequencer][" +:+ severity +:+ "] " +:+ message))
   else _queue_log_payload payload) p.

(** ** Loading *)
Definition yaml_diagnostic (e : pyexc) : dict :=
  let '(message, line, column) :=
    match e with
    | YamlLoadError detail _ line column =>
        (if nonempty detail then detail else exc_str e, from_option PInt PNone line, from_option PInt PNone column)
    | _ => (exc_str e, PNone, PNone)
    end in
  [("severity", PStr "error"); ("message", PStr message); ("line", line); ("column", column); ("source", PStr "yaml")].

Definition parse_diagnostic (text : string) (e : pyexc) : dict :=
  let line := match e with
              | SequenceParseError _ path => from_option PInt PNone (_line_for_path (_build_step_line_map text []) path)
              | _ => PNone
              end in
  [("severity", PStr "error"); ("message", PStr (exc_str e)); ("line", line); ("column", PNone); ("source", PStr "sequencer")].

(** The sequence, if it is one, and what there is to say about it *)
Definition _load_sequence_text (text source : string) : M (option sequence * list dict) :=
  match load_yaml_text true source text with
  | Err e => mret (None, [yaml_diagnostic e])
  | Ok raw =>
      caught
        (spec ← parsing (parse_sequence raw);
         let diagnostics := validate_sequence_conditions (sq_spec spec) in
         mret (if has_error_diagnostics diagnostics then None else Some spec, diagnostics))
        (fun e => mret (None, [parse_diagnostic text e]))
  end.

Definition _clear_autoload_error : M unit := modify (fun p => p <| ps_autoload_error := None |>).
Definition _set_autoload_error (message : string) (source : option string) : M unit :=
  wall ← in_world lk_time;
  modify (fun p => p <| ps_autoload_error := Some (message, wall, opt_nonempty source) |>).

Definition mark_loaded (spec : sequence) (text source source_kind : string) (active : option string) (p : st) : st :=
  p <| ps_loaded_revision := ps_loaded_revision p + 1 |> <| ps_context_columns := _effective_context_columns (sq_context_columns spec) |>
    <| ps_loaded_spec := Some spec |> <| ps_loaded_source := Some source |> <| ps_loaded_source_kind := Some source_kind |>
    <| ps_loaded_text := Some text |> <| ps_loaded_run_id := None |> <| ps_active_sequence_id := active |>.
Definition forget_progress (p : st) : st := p <| ps_progress_signature := None |> <| ps_progress_mono := 0%Q |>.

Definition _set_loaded_sequence (spec : sequence) (text source source_kind : string) (active : option string) : M unit :=
  let info := build_step_source_info (PStr source) (_build_step_line_map text (default [] (sq_watchdog_ids spec))) (sq_spec spec) in
  _ ← on_runtime (load (sq_spec spec) info);
  _ ← modify (mark_loaded spec text source source_kind active);
  _ ← _clear_autoload_error;
  modify forget_progress.

Definition _set_loaded_sequence_from_library_entry (entry : SequenceLibraryEntry) : M unit :=
  _set_loaded_sequence (se_spec entry) (se_text entry) (se_path entry) "library" (Some (se_sequence_id entry)).

Definition _loaded_sequence_snapshot (p : st) : option loaded_snapshot :=
  match ps_loaded_spec p, ps_loaded_text p with
  | Some spec, Some text =>
      Some (mkSnapshot spec text (default "" (ps_loaded_source p)) (default "" (ps_loaded_source_kind p))
              (ps_active_sequence_id p) (ps_loaded_run_id p))
  | _, _ => None
  end.

Definition _restore_loaded_sequence (snapshot : option loaded_snapshot) : M unit :=
  match snapshot with
  | None => mret tt
  | Some sn => fun p =>
      match _set_loaded_sequence (sn_spec sn) (sn_text sn) (sn_source sn) (sn_source_kind sn) (sn_active sn) p with
      | (Err e, p) => _publish_log "error" ("sequencer could not restore the previously loaded sequence: " +:+ exc_str e) [] p
      | (Ok _, p) => (Ok tt, p <| ps_loaded_run_id := sn_run_id sn |>)
      end
  end.

(** ** The library *)
Definition open_library (path : string) (policy : string) : M SequenceLibrary :=
  files ← in_world (fun w => (lk_files w, w));
  library ← lift (new_library (HF := files) path policy);
  parsing (reload (HF := files) library).

Definition warn_library (warning : string) : M unit := _publish_log "warning" ("sequencer sequence library warning: " +:+ warning) [].

Definition _load_sequence_library (initial : bool) : M bool := fun p =>
  match opt_nonempty (ps_library_path p) with
  | None => (Ok false, p <| ps_library := None |> <| ps_library_error := None |> <| ps_library_warnings := [] |>)
  | Some path =>
      match open_library path (ps_description_policy p) p with
      | (Err e, p) =>
          (_ ← modify (fun p => p <| ps_library_error := Some (exc_str e) |>);
           _ ← (if initial then _publish_log "error" ("sequencer sequence library load failed: " +:+ exc_str e) [] else mret tt);
           mret false) p
      | (Ok library, p) =>
          (_ ← modify (fun p => p <| ps_library := Some library |> <| ps_library_error := None |>
                                  <| ps_library_warnings := lb_warnings library |>);
           _ ← forM warn_library (lb_warnings library);
           mret true) p
      end
  end.

Definition _resolve_use_sequence_spec (p : st) (sequence_id : string) : result SequenceSpec :=
  match ps_library p with
  | None => Err (RuntimeError ("use step " +:+ repr_str sequence_id +:+ " requires sequence_library_path to be configured"))
  | Some library => get_spec library sequence_id
  end.

Definition _library_list_payload (p : st) : dict :=
  let entries := from_option list_entries [] (ps_library p) in
  [("configured", PBool (bool_decide (opt_nonempty (ps_library_path p) <> None))); ("manifest_path", opt_str (ps_library_path p));
   ("resolved_manifest_path", opt_str (lb_manifest_path <$> ps_library p));
   ("process_cwd", PStr (lk_cwd (rt_world (ps_runtime p)))); ("description_policy", PStr (ps_description_policy p));
   ("active_sequence_id", opt_str (ps_active_sequence_id p)); ("autoload_sequence_id", opt_str (ps_autoload_sequence_id p));
   ("entry_count", PInt (Z.of_nat (length entries))); ("warnings", PList (PStr <$> ps_library_warnings p));
   ("last_error", opt_str (ps_library_error p)); ("entries", PList entries)].

(** ** Requests *)
(** [req.get("params", {}) or {}], where it is a dict *)
Definition req_params (req : dict) : option dict :=
  match py_or (dget req "params") (PDict []) with PDict d => Some d | _ => None end.
Definition with_params (req : dict) (f : dict -> M dict) : M dict :=
  match req_params req with
  | Some params => f params
  | None => mret (rpc_invalid_params (PDict req) None)
  end.

Definition columns_value (c : option (list (string * string))) : pyval :=
  match c with Some l => PDict ((fun '(k, v) => (k, PStr v)) <$> l) | None => PNone end.

(** The text to load: of the file, or of the request *)
Definition requested_text (params : dict) : M (option (string * string)) :=
  let path := dget params "path" in
  let text := dget params "text" in
  if truthy path then
    files ← in_world (fun w => (lk_files w, w));
    seq_text ← lift (lf_read_text (LibraryFiles := files) (py_str path));
    mret (Some (py_str path, seq_text))
  else if truthy text then mret (Some ("sequence_yaml", py_str text))
  else mret None.

Definition first_message (diagnostics : list dict) : string :=
  match diagnostics with
  | d :: _ => py_str (dget_or d "message" (PStr "sequence validation failed"))
  | [] => "sequence validation failed"
  end.

(** A load that failed, as it is told and answered *)
Definition load_failed (req : dict) (code message : string) (payload extra : dict) (told : option string) : M dict :=
  _ ← _publish_lifecycle_event "load_failed" false "rpc" message (Some payload);
  mret (rpc_err (PDict req) code told extra).

Definition diagnostics_value (l : list dict) : pyval := PList (PDict <$> l).

Definition load_text (req params : dict) (source seq_text : string) : M dict :=
  '(spec, diagnostics) ← _load_sequence_text seq_text source;
  match spec with
  | None =>
      load_failed req "invalid_sequence" (first_message diagnostics)
        [("diagnostics", diagnostics_value diagnostics); ("loaded_source", PStr source)]
        [("diagnostics", diagnostics_value diagnostics)] (Some (first_message diagnostics))
  | Some spec =>
      _ ← _set_loaded_sequence spec seq_text source (if truthy (dget params "path") then "path" else "rpc") None;
      columns ← gets ps_context_columns;
      _ ← _publish_lifecycle_event "load_ok" true "rpc" "sequence loaded"
            (Some [("loaded_source", PStr source); ("context_columns", columns_value columns)]);
      mret (rpc_ok (PDict req) (PDict [("status", PStr "loaded")]))
  end.

Definition _rpc_sequencer_load (req : dict) : M dict := with_params req (fun params p =>
  match requested_text params p with
  | (Err e, p) =>
      load_failed req "read_failed" (exc_str e) [("loaded_source", PStr (py_str (dget params "path")))] [] (Some (exc_str e)) p
  | (Ok None, p) => load_failed req "missing_yaml" "missing_yaml" [("loaded_source", PStr "sequence_yaml")] [] None p
  | (Ok (Some (source, seq_text)), p) => load_text req params source seq_text p
  end).

Definition _rpc_sequencer_validate (req : dict) : M dict := with_params req (fun params p =>
  match requested_text params p with
  | (Err e, p) => (Ok (rpc_err (PDict req) "read_failed" (Some (exc_str e)) []), p)
  | (Ok None, p) => (Ok (rpc_err (PDict req) "missing_yaml" None []), p)
  | (Ok (Some (source, seq_text)), p) =>
      ('(spec, diagnostics) ← _load_sequence_text seq_text source;
       mret (rpc_ok (PDict req) (PDict [("valid", PBool (match spec with Some _ => true | None => false end));
                                        ("diagnostics", diagnostics_value diagnostics)]))) p
  end).

Definition _loaded_yaml_reload_kind (p : st) : option string :=
  match opt_nonempty (ps_active_sequence_id p) with
  | Some _ => Some "library"
  | None =>
      match opt_nonempty (ps_loaded_source p), ps_loaded_source_kind p with
      | Some _, Some kind => if bool_decide (kind ∈ ["autoload_path"; "path"]) then Some "path" else None
      | _, _ => None
      end
  end.

Definition _rpc_sequencer_loaded_yaml (req : dict) : M dict := fun p =>
  let kind := _loaded_yaml_reload_kind p in
  (Ok (rpc_ok (PDict req) (PDict
     [("loaded", PBool (match rt_spec (ps_runtime p) with Some _ => true | None => false end));
      ("source", opt_str (ps_loaded_source p)); ("source_kind", opt_str (ps_loaded_source_kind p));
      ("active_sequence_id", opt_str (ps_active_sequence_id p)); ("text", opt_str (ps_loaded_text p));
      ("revision", PInt (ps_loaded_revision p)); ("run_id", from_option PInt PNone (ps_loaded_run_id p));
      ("reloadable", PBool (match kind with Some _ => true | None => false end)); ("reload_kind", opt_str kind)])), p).

Definition _rpc_sequencer_library_list (req : dict) : M dict := fun p => (Ok (rpc_ok (PDict req) (PDict (_library_list_payload p))), p).

Definition _rpc_sequencer_library_reload (req : dict) : M dict := fun p =>
  match opt_nonempty (ps_library_path p) with
  | None => (Ok (rpc_err (PDict req) "library_not_configured" (Some "sequencer sequence_library_path is not configured") []), p)
  | Some _ =>
      (ok ← _load_sequence_library false;
       if ok : bool then _rpc_sequencer_library_list req
       else gets (fun p => rpc_err (PDict req) "library_reload_failed"
                             (Some (default "sequence library reload failed" (opt_nonempty (ps_library_error p)))) [])) p
  end.

(** The library and the id a request names *)
Definition with_library (req : dict) (f : SequenceLibrary -> string -> M dict) : M dict := with_params req (fun params p =>
  let sequence_id := strip (py_str (dget_or params "sequence_id" (PStr ""))) in
  if negb (nonempty sequence_id) then (Ok (rpc_err (PDict req) "missing_sequence_id" None []), p)
  else
    match ps_library p with
    | None => (Ok (rpc_err (PDict req) "library_not_configured" (Some "sequencer sequence library is not configured") []), p)
    | Some library => f library sequence_id p
    end).

Definition _rpc_sequencer_library_form (req : dict) : M dict := with_library req (fun library sequence_id =>
  match get_entry library sequence_id with
  | Err (KeyError m) => mret (rpc_err (PDict req) "unknown_sequence_id" (Some (exc_str (KeyError m))) [])
  | Err e => lift (Err e)
  | Ok entry =>
      match sq_form (se_spec entry) with
      | None => mret (rpc_err (PDict req) "no_form" (Some ("sequence " +:+ repr_str sequence_id +:+ " has no form")) [])
      | Some form =>
          mret (rpc_ok (PDict req) (PDict [("sequence_id", PStr sequence_id); ("label", opt_str (se_label entry)); ("form", PDict form);
                                           ("vars", PDict (sp_vars (sq_spec (se_spec entry))))]))
      end
  end).

Definition load_entry (library : SequenceLibrary) (sequence_id : string) : M SequenceLibraryEntry :=
  entry ← lift (get_entry library sequence_id);
  _ ← _set_loaded_sequence_from_library_entry entry;
  mret entry.

Definition _rpc_sequencer_library_load (req : dict) : M dict := with_library req (fun library sequence_id p =>
  match load_entry library sequence_id p with
  | (Err (KeyError m), p) => (Ok (rpc_err (PDict req) "unknown_sequence_id" (Some (exc_str (KeyError m))) []), p)
  | (Err e, p) => load_failed req "load_failed" (exc_str e) [("active_sequence_id", PStr sequence_id)] [] (Some (exc_str e)) p
  | (Ok entry, p) =>
      (_ ← _publish_lifecycle_event "load_ok" true "rpc" "sequence loaded from library"
             (Some [("active_sequence_id", PStr sequence_id); ("loaded_source", PStr (se_path entry));
                    ("context_columns", columns_value (ps_context_columns p))]);
       mret (rpc_ok (PDict req) (PDict [("status", PStr "loaded"); ("active_sequence_id", PStr sequence_id)]))) p
  end).
End process.
