(* ===== verification/SequencerControl.v ===== *)
(** * Starting and controlling runs ([sequencer/sequencer.py])

    The start of a run with its preconditions and the way back, the requests
    of operators, faults other processes log, loading at start-up and the
    dispatch of requests. *)
From S2P Require Import Prelude PyVal PyNum PyOps Expressions Conditions Responses ProcessBase ProcessLogs RulesCommon.
From S2P Require Import RunRecords SequencerData SequencerCore SequencerValues SequencerAdaptive StepWalks SequenceParser.
From S2P Require Import SequenceLibrary StartChecks SequencerProcess.
#[local] Open Scope Z_scope.

Section control.
Context `{HR : !PyRepr, HE : !PyExpr, HA : !PyArith, HL : !LooseMatches, HY : !Yaml, HT : !Templates}.
Context {W : Type} `{HW : !SequencerWorld W} `{HK : !SequencerLink W}.
#[local] Abbreviation st := (process W).
#[local] Abbreviation M := (pyM (process W)).

(** ** Calls through the manager *)
Definition _call_device (device_id action : string) (params : dict) : M dict :=
  resp ← in_world (lk_call [("type", PStr "command"); ("device_id", PStr device_id); ("action", PStr action); ("params", PDict params)]);
  mret (_normalize_call_response resp).

Definition _call_process (process_id action : string) (params : dict) : M dict :=
  resp ← in_world (lk_call [("type", PStr "manager.processes.rpc"); ("process_id", PStr process_id);
                            ("request", PDict [("type", PStr action); ("params", PDict params)])]);
  mret (_normalize_call_response resp).

(** ** The start of a run *)
Definition _check_devices_connected (spec : sequence) (resolved_vars : dict) : M (list string) :=
  let device_ids := _check_devices_connected_walk_steps lk_recursion (_vars_env resolved_vars) (sp_steps (sq_spec spec)) ∅ in
  if bool_decide (device_ids = ∅) then mret []
  else
    resp ← in_world (lk_call [("type", PStr "device.list_status")]);
    mret (start_problems device_ids (listed_devices resp)).

Definition writing_active (resp : dict) : bool :=
  match dget resp "result" with PDict result => truthy (dget result "writing_active") | _ => false end.

(** A run that may not begin *)
Definition refuse_run (req : dict) (reason : string) : M (option dict) :=
  _ ← on_runtime (fail reason);
  mret (Some (rpc_err (PDict req) "start_failed" (Some reason) [])).

(** The answer, if a precondition does not hold *)
Definition _check_start_preconditions (req : dict) : M (option dict) := fun p =>
  match ps_loaded_spec p with
  | None => (Ok None, p)
  | Some spec =>
      (writing ← (if sq_require_hdf_writing spec
                  then resp ← _call_process "hdf_writer" "hdf.status" []; mret (writing_active resp)
                  else mret true);
       if negb writing then refuse_run req "requires.hdf_writing: hdf_writer is not currently writing"
       else
         vars ← gets (fun p => rt_vars (ps_runtime p));
         missing ← _check_devices_connected spec vars;
         match missing with
         | [] => mret None
         | _ => refuse_run req ("devices not connected: " +:+ join ", " missing)
         end) p
  end.

(** The entry of the library a start asks for; before it nothing has changed *)
Definition start_entry (params : dict) (p : st) : result (option SequenceLibraryEntry) :=
  match dget params "adaptive" with
  | PNone | PDict _ =>
      let sequence_id := match dget params "sequence_id" with PNone => "" | v => strip (py_str v) end in
      if negb (nonempty sequence_id) then Ok None
      else match ps_library p with
           | None => Err (RuntimeError "sequencer.start sequence_id requires configured sequence library")
           | Some library => Some <$> get_entry library sequence_id
           end
  | _ => Err (TypeError "sequencer.start params.adaptive must be a dict")
  end.

Definition continuous_param (params : dict) : result bool :=
  match dget_or params "continuous" (PBool false) with
  | PBool b => Ok b
  | PNone => Ok false
  | _ => Err (TypeError "sequencer.start params.continuous must be a bool")
  end.
Definition override_param (params : dict) : result pyval :=
  match dget params "vars_override" with
  | PNone => Ok PNone
  | PDict d => Ok (PDict d)
  | _ => Err (TypeError "sequencer.start params.vars_override must be a dict")
  end.

(** From the load of the entry to the check of the preconditions *)
Definition begin_start (req params : dict) (entry : option SequenceLibraryEntry) : M (option dict) :=
  _ ← match entry with Some e => _set_loaded_sequence_from_library_entry e | None => mret tt end;
  continuous ← lift (continuous_param params);
  vars_override ← lift (override_param params);
  _ ← on_runtime (start (dget params "adaptive") (dget params "repeat_count") continuous vars_override);
  _ ← modify forget_progress;
  _check_start_preconditions req.

Definition start_error (req : dict) (previous : option loaded_snapshot) (e : pyexc) : M dict :=
  _ ← _restore_loaded_sequence previous;
  _ ← _publish_lifecycle_event "start" false "rpc" (exc_str e) None;
  mret (rpc_err (PDict req) "start_failed" (Some (exc_str e)) []).

Definition run_started (req : dict) : M dict := fun p =>
  let rt := ps_runtime p in
  (_ ← modify (fun p => p <| ps_loaded_run_id := Some (rt_run_id rt) |>);
   _ ← _publish_lifecycle_event "start" true "rpc" "sequencer started"
         (Some [("run_id", PInt (rt_run_id rt)); ("active_sequence_id", opt_str (ps_active_sequence_id p));
                ("loaded_source", opt_str (ps_loaded_source p)); ("context_columns", columns_value (ps_context_columns p));
                ("vars_override", PDict (rt_vars_override_active rt)); ("vars", PDict (rt_vars rt))]);
   mret (rpc_ok (PDict req) (PDict [("status", PStr "running")]))) p.

Definition _rpc_sequencer_start (req : dict) : M dict := with_params req (fun params p =>
  match start_entry params p with
  | Err e => start_error req None e p
  | Ok entry =>
      let previous := match entry with Some _ => _loaded_sequence_snapshot p | None => None end in
      match begin_start req params entry p with
      | (Err e, p) => start_error req previous e p
      | (Ok (Some failure), p) => (_ ← _restore_loaded_sequence previous; mret failure) p
      | (Ok None, p) => run_started req p
      end
  end).

(** ** Operators *)
Definition _control_params (req : dict) : dict := match py_or (dget req "params") (PDict []) with PDict d => d | _ => [] end.

(** A request to the runtime, told and answered *)
Definition controlled (req : dict) (event code message status : string) (m : pyM (runtime W) unit) : M dict := fun p =>
  match on_runtime m p with
  | (Err e, p) =>
      (_ ← _publish_lifecycle_event event false "rpc" (exc_str e) None;
       mret (rpc_err (PDict req) code (Some (exc_str e)) [])) p
  | (Ok _, p) =>
      (_ ← _publish_lifecycle_event event true "rpc" message None;
       mret (rpc_ok (PDict req) (PDict [("status", PStr status)]))) p
  end.

Definition _rpc_sequencer_pause (req : dict) : M dict :=
  let params := _control_params req in
  controlled req "pause" "pause_failed" "pause requested" "pause_requested"
    (request_pause (dget params "reason") (dget params "source") (dget params "trigger")).
Definition _rpc_sequencer_resume (req : dict) : M dict :=
  controlled req "resume" "resume_failed" "sequencer resumed" "running" (resume (dget (_control_params req) "source")).
Definition _rpc_sequencer_stop (req : dict) : M dict :=
  let params := _control_params req in
  controlled req "stop" "stop_failed" "stop requested" "stop_requested"
    (request_stop (dget params "reason") (dget params "source")).

Definition _rpc_sequencer_run_events (req : dict) : M dict := fun p =>
  (Ok (rpc_ok (PDict req) (PDict (run_events (ps_runtime p)))), p).

Definition _rpc_sequencer_adaptive_clear (req : dict) : M dict := with_params req (fun params =>
  let study_id := strip (py_str (dget_or params "study_id" (PStr ""))) in
  if negb (nonempty study_id) then mret (rpc_err (PDict req) "missing_study_id" None [])
  else
    cleared ← on_runtime (clear_adaptive_studies (Some study_id));
    mret (rpc_ok (PDict req) (PDict [("cleared", PInt cleared); ("study_id", PStr study_id)]))).

Definition _rpc_sequencer_adaptive_clear_all (req : dict) : M dict :=
  cleared ← on_runtime (clear_adaptive_studies None);
  mret (rpc_ok (PDict req) (PDict [("cleared", PInt cleared)])).

(** ** Variables *)
Definition formula_text (v : pyval) : result string :=
  match v with PStr s => Ok s | _ => tp_json_dumps (json_safe v) end.

Definition _resolve_vars_source (text : pyval) (p : st) : result dict :=
  match text with
  | PNone => Ok (rt_base_vars (ps_runtime p))
  | _ =>
      match load_yaml_text true "sequence_yaml" (py_str text) with
      | Err (YamlLoadError detail source line column) =>
          Err (ValueError (if nonempty detail then detail else exc_str (YamlLoadError detail source line column)))
      | Err e => Err (ValueError (exc_str e))
      | Ok (PDict raw) => match dget raw "vars" with PDict d => Ok d | _ => Ok [] end
      | Ok _ => Ok []
      end
  end.

Fixpoint formulas_of (raw_vars : dict) : result dict :=
  match raw_vars with
  | [] => Ok []
  | (k, v) :: rest =>
      if contains_template v then
        text ← formula_text v;
        more ← formulas_of rest;
        Ok ((k, PStr text) :: more)
      else formulas_of rest
  end.

Definition stripped_keys (d : dict) : dict := foldl (fun acc '(k, v) => od_set acc (strip k) v) [] d.
Definition names_value (names : list string) : pyval := PList (PStr <$> sorted_set (list_to_set names)).
Definition changed_vars (base resolved : dict) : dict :=
  filter (fun '(k, v) => py_eqb (json_safe (dget resolved k)) (json_safe v) = false) base.

Definition is_text (v : pyval) : bool := match v with PStr _ => true | _ => false end.

Definition resolved_answer (raw_vars overrides : dict) (expressions : list pyval) : result dict :=
  let override_map := stripped_keys overrides in
  let applied := filter (fun '(k, _) => dhas raw_vars k = true) override_map in
  let resolved := resolve_vars (dict_update raw_vars applied) in
  let '(runtime_vars, errors) := unresolved_vars resolved in
  let base := match applied with [] => resolved | _ => resolve_vars raw_vars end in
  formulas ← formulas_of raw_vars;
  Ok [("vars", json_safe (PDict resolved)); ("base_vars", json_safe (PDict (changed_vars base resolved)));
      ("formulas", PDict formulas); ("derived", names_value (od_keys formulas)); ("overridden", names_value (od_keys applied));
      ("unknown_overrides", names_value (od_keys (filter (fun '(k, _) => dhas raw_vars k = false) override_map)));
      ("runtime_vars", PDict runtime_vars); ("errors", PDict errors);
      ("expressions", PDict (evaluate_expressions (filter (fun e => is_text e = true) expressions) resolved))].

Definition _rpc_sequencer_resolve_vars (req : dict) : M dict := with_params req (fun params p =>
  match py_or (dget params "vars_override") (PDict []), py_or (dget params "expressions") (PList []) with
  | PDict overrides, PList expressions =>
      match _resolve_vars_source (dget params "text") p with
      | Err e => (Ok (rpc_err (PDict req) "invalid_yaml" (Some (exc_str e)) []), p)
      | Ok raw_vars => lift (rpc_ok (PDict req) ∘ PDict <$> resolved_answer raw_vars overrides expressions) p
      end
  | _, _ => (Ok (rpc_invalid_params (PDict req) None), p)
  end).

(** ** Faults of others *)
Definition _note_external_warning (payload : dict) : M unit := fun p =>
  let severity := _normalize_log_severity (dget payload "severity") in
  let source_id := strip (py_str (py_or (py_or (dget payload "source_id") (dget payload "process_id")) (PStr ""))) in
  let source_kind := entry_text payload "source_kind" in
  let message := strip (py_str (py_or (py_or (dget payload "message") (dget payload "topic")) (PStr ""))) in
  if negb (bool_decide (severity ∈ _EXTERNAL_FAULT_SEVERITIES)) || negb (nonempty source_id)
     || String.eqb source_id (ps_process_id p) || negb (nonempty message) then (Ok tt, p)
  else on_runtime (note_external_log (if String.eqb severity "critical" then "error" else severity) message
                     (PStr ((if nonempty source_kind then source_kind else "process") +:+ ":" +:+ source_id))) p.

Definition fault_payload (payload : dict) : dict :=
  (fun k => (k, dget payload k)) <$> ["topic"; "source_kind"; "source_id"; "process_id"; "device_id"; "severity"].

(** The log entries that have arrived; the first that ends the run is the last looked at. *)
Fixpoint _drain_external_fault_logs (payloads : list pyval) : M unit := fun p =>
  match payloads with
  | [] => (Ok tt, p)
  | PDict payload :: rest =>
      if negb (bool_decide (rt_state (ps_runtime p) = RUNNING)) then _drain_external_fault_logs rest p
      else
        match _should_trigger_external_sequencer_fault payload with
        | None => (_ ← _note_external_warning payload; _drain_external_fault_logs rest) p
        | Some reason =>
            (_ ← on_runtime (fail reason);
             _ ← _publish_lifecycle_event "error" false "external_trigger" reason (Some (fault_payload payload));
             _ ← _publish_log "error" reason [];
             modify (fun p => p <| ps_last_error_sent := true |>)) p
        end
  | _ :: rest => _drain_external_fault_logs rest p
  end.

Definition _drain_analysis_outputs (payloads : list pyval) : M unit :=
  forM (fun payload => match payload with PDict _ => on_runtime (record_analysis_output payload) | _ => mret tt end) payloads.

(** ** Loading at start-up *)
Definition autoload_failed (message log : string) (payload : dict) (source : option string) : M unit :=
  _ ← _set_autoload_error message source;
  _ ← _publish_lifecycle_event "load_failed" false "autoload" message (Some payload);
  _publish_log "error" log [].

Definition autoload_entry (library : SequenceLibrary) (seq_id : string) : M unit :=
  entry ← load_entry library seq_id;
  columns ← gets ps_context_columns;
  _ ← _publish_lifecycle_event "load_ok" true "autoload" "sequencer autoloaded library sequence"
        (Some [("loaded_source", PStr (se_path entry)); ("active_sequence_id", PStr seq_id); ("context_columns", columns_value columns)]);
  _publish_log "info" ("sequencer autoloaded library sequence: " +:+ seq_id) [].

Definition _try_autoload_sequence_id (sequence_id : string) : M unit := fun p =>
  let seq_id := strip sequence_id in
  if negb (nonempty seq_id) then (Ok tt, p)
  else
    match ps_library p with
    | None => _set_autoload_error "sequencer autoload_sequence_id requires a loaded sequence library" (ps_library_path p) p
    | Some library =>
        caught (autoload_entry library seq_id) (fun e =>
          autoload_failed (exc_str e) ("sequencer autoload sequence_id failed for " +:+ repr_str seq_id +:+ ": " +:+ exc_str e)
            [("active_sequence_id", PStr seq_id)] (Some seq_id)) p
    end.

Definition autoload_message (diagnostics : list dict) : string :=
  match diagnostics with
  | d :: _ => py_str (dget_or d "message" (PStr "sequence validation failed during autoload"))
  | [] => "sequence validation failed during autoload"
  end.

Definition autoload_file (path : string) : M unit :=
  files ← in_world (fun w => (lk_files w, w));
  seq_text ← lift (lf_read_text (LibraryFiles := files) path);
  '(spec, diagnostics) ← _load_sequence_text seq_text path;
  match spec with
  | None =>
      let message := autoload_message diagnostics in
      autoload_failed message ("sequencer autoload failed: " +:+ message)
        [("diagnostics", diagnostics_value diagnostics); ("loaded_source", PStr path)] (Some path)
  | Some spec =>
      _ ← _set_loaded_sequence spec seq_text path "autoload_path" None;
      columns ← gets ps_context_columns;
      _ ← _publish_lifecycle_event "load_ok" true "autoload" "sequencer autoloaded sequence"
            (Some [("loaded_source", PStr path); ("context_columns", columns_value columns)]);
      _publish_log "info" ("sequencer autoloaded sequence: " +:+ path) []
  end.

Definition _try_autoload_path (path : string) : M unit :=
  caught (autoload_file path) (fun e =>
    autoload_failed (exc_str e) ("sequencer autoload read failed for " +:+ repr_str path +:+ ": " +:+ exc_str e)
      [("loaded_source", PStr path)] (Some path)).

(** The end of [__init__] *)
Definition autoload (autoload_path : option string) : M unit := fun p =>
  (_ ← match opt_nonempty (ps_library_path p) with
       | None => mret tt
       | Some _ =>
           _ ← _load_sequence_library true;
           match opt_nonempty (ps_autoload_sequence_id p) with Some id => _try_autoload_sequence_id id | None => mret tt end
       end;
   text ← gets ps_loaded_text;
   match opt_nonempty autoload_path, text with
   | Some path, None => _try_autoload_path path
   | _, _ => mret tt
   end) p.

(** ** Dispatch *)
(** [_graceful_stop] of the base class *)
Definition _graceful_stop : M unit := modify (fun p => p <| ps_stop := true |>).

(** The handlers of reports, which are not modelled *)
Context (reports : list (string * (dict -> M dict))).

Definition sequencer_handlers : list (string * (dict -> M dict)) :=
  reports ++
  [("sequencer.adaptive.clear", _rpc_sequencer_adaptive_clear); ("sequencer.adaptive.clear_all", _rpc_sequencer_adaptive_clear_all);
   ("sequencer.loaded_yaml", _rpc_sequencer_loaded_yaml); ("sequencer.load", _rpc_sequencer_load);
   ("sequencer.validate", _rpc_sequencer_validate); ("sequencer.library.list", _rpc_sequencer_library_list);
   ("sequencer.library.reload", _rpc_sequencer_library_reload); ("sequencer.library.load", _rpc_sequencer_library_load);
   ("sequencer.library.form", _rpc_sequencer_library_form); ("sequencer.start", _rpc_sequencer_start);
   ("sequencer.pause", _rpc_sequencer_pause); ("sequencer.resume", _rpc_sequencer_resume); ("sequencer.stop", _rpc_sequencer_stop);
   ("sequencer.run_events", _rpc_sequencer_run_events); ("sequencer.resolve_vars", _rpc_sequencer_resolve_vars)].

Definition _sequencer_registry : RpcDispatchRegistry (dict -> M dict) :=
  build_registry sequencer_handlers
    [("sequencer.run", "sequencer.start"); ("sequencer.get_status", "sequencer.status");
     ("sequencer.get_loaded_yaml", "sequencer.loaded_yaml"); ("sequencer.library.get", "sequencer.library.load");
     ("sequencer.clear_adaptive", "sequencer.adaptive.clear"); ("sequencer.clear_all_adaptive", "sequencer.adaptive.clear_all")].

Definition _sequencer_handle_rpc (req : dict) : M dict :=
  common ← _handle_common_rpc _graceful_stop exc_str req;
  match common with
  | Some reply => mret reply
  | None =>
      match dispatch_with_canonical _sequencer_registry req with
      | Some (h, req') => h req'
      | None => mret (rpc_unknown (PDict req))
      end
  end.
End control.
