(* ===== verification/ProcessTheorems.v ===== *)
(** * What the process of the sequencer guarantees

    A start that is refused leaves what was loaded as it was and no run going;
    a run that is started has passed the checks; and what the process reports
    as loaded is what the runtime executes. *)
From S2P Require Import Prelude PyVal PyNum PyOps Expressions Conditions Responses ProcessBase ProcessLogs RulesCommon.
From S2P Require Import RunRecords SequencerData SequencerCore SequencerValues SequencerAdaptive SequencerFrames SequencerTheorems.
From S2P Require Import SequencerTick SequencerMachine SequencerRuns ScanPlan Ranges StepWalks SequenceParser SequenceLibrary LibraryTheorems.
From S2P Require Import StartChecks SequencerProcess SequencerControl.
#[local] Open Scope Z_scope.

Section runtime_facts.
Context `{HR : !PyRepr, HT : !Templates} {W : Type} `{HW : !SequencerWorld W}.
#[local] Abbreviation st := (runtime W).

(** ** The sequence the runtime has *)
Definition same_spec (s s' : st) : Prop := rt_spec s' = rt_spec s.
#[export] Instance same_spec_preorder : PreOrder same_spec.
Proof. split; [done|]. intros a b c Hab Hbc. unfold same_spec in *. congruence. Qed.
#[local] Abbreviation steady := (keeps same_spec).

Lemma outside_steady {A} (f : W -> result A * W) : steady (outside f).
Proof. intros s. unfold outside. by destruct (f (rt_world s)). Qed.
Lemma monotonic_steady : steady monotonic.
Proof. apply outside_steady. Qed.
Lemma cancel_steady k : steady (cancel k).
Proof. unfold cancel. destruct k; [apply outside_steady|apply keeps_ret, _]. Qed.
Lemma clear_context_steady : steady _clear_set_context_state.
Proof. intros s. unfold _clear_set_context_state. etrans; [|apply cancel_steady]. done. Qed.
Lemma clear_parallel_steady : steady _clear_parallel_state.
Proof. intros s. unfold _clear_parallel_state. etrans; [|apply cancel_steady]. done. Qed.
#[local] Hint Resolve outside_steady monotonic_steady cancel_steady clear_context_steady clear_parallel_steady : keeps.

Lemma on_stats_steady f : steady (on_stats f).
Proof. by apply keeps_modify. Qed.
Lemma drop_work_steady : steady drop_pending_work.
Proof. unfold drop_pending_work, set_observing, on_adaptive. keeps. Qed.
Lemma record_event_steady a b c d e f : steady (_record_event a b c d e f).
Proof. unfold _record_event. keeps. Qed.
#[local] Hint Resolve on_stats_steady drop_work_steady record_event_steady : keeps.

Lemma unwind_steady state error : steady (_begin_terminal_unwind state error).
Proof.
  intros s. unfold _begin_terminal_unwind. destruct (rt_pending_state s); [done|]. destruct (negb _); [done|].
  match goal with |- same_spec s (snd (?m s)) => assert (steady m) as H; [|apply H] end. unfold _abandon_active_step. keeps.
Qed.
#[local] Hint Resolve unwind_steady : keeps.

Lemma fail_steady reason : steady (fail reason).
Proof.
  intros s. unfold fail. destruct (negb (live s)); [done|]. match goal with |- same_spec s (snd (?m s)) => assert (steady m) as H; [|apply H] end.
  unfold _mark_pause_ended, _abandon_active_step, run_ended. keeps.
Qed.
Lemma start_steady a r c o : steady (start a r c o).
Proof.
  intros s. unfold start. destruct (rt_spec s); [|done].
  match goal with |- same_spec s (snd (?m s)) => assert (steady m) as H; [|apply H] end. unfold begin_clocks. keeps.
Qed.
Lemma request_pause_steady a b c : steady (request_pause a b c).
Proof. unfold request_pause. keeps. Qed.
Lemma resume_steady a : steady (resume a).
Proof.
  intros s. unfold resume. destruct (rt_state s); try done.
  match goal with |- same_spec s (snd (?m s)) => assert (steady m) as H; [|apply H] end. unfold _mark_pause_ended. keeps.
Qed.
Lemma request_stop_steady a b : steady (request_stop a b).
Proof.
  intros s. unfold request_stop. match goal with |- same_spec s (snd (?m s)) => assert (steady m) as H; [|apply H] end.
  unfold _mark_pause_ended. keeps.
Qed.
Lemma note_steady a b c : steady (note_external_log a b c).
Proof. intros s. unfold note_external_log. destruct (live s); [apply record_event_steady|done]. Qed.
Lemma clear_studies_steady i : steady (clear_adaptive_studies i).
Proof. intros s. unfold clear_adaptive_studies. by repeat case_match. Qed.
Lemma record_output_steady v : steady (record_analysis_output v).
Proof. unfold record_analysis_output, on_adaptive. keeps. Qed.

(** ** Loads *)
Lemma load_spec spec info (s : st) :
  if bool_decide (rt_state s = RUNNING) then load spec info s = (Err (RuntimeError "Cannot load while running"), s)
  else fst (load spec info s) = Ok tt /\ rt_spec (snd (load spec info s)) = Some spec /\ rt_state (snd (load spec info s)) = IDLE.
Proof.
  unfold load. case_bool_decide; [done|]. rewrite bind_modify. set (s1 := s <| rt_spec := _ |> <| rt_base_vars := _ |> <| rt_vars := _ |> <| rt_env := _ |>
    <| rt_stack := _ |> <| rt_pause_requested := _ |> <| rt_stop_requested := _ |> <| rt_last_error := _ |> <| rt_last_error_detail := _ |>
    <| rt_pending_state := _ |> <| rt_pending_error := _ |> <| rt_cleanup_failed := _ |> <| rt_cleanup_errors := _ |>).
  unfold mbind, pyM_bind. pose proof (drop_work_steady s1) as Hs. destruct (acts_drop_pending_work s1) as (a & Ea & _).
  destruct (drop_pending_work s1) as [r s2]. cbn in Ea, Hs. subst r. cbn. by rewrite Hs.
Qed.

(** ** The state a start leaves *)
Lemma start_result a r c o (s s' : st) res : start a r c o s = (res, s') ->
  match res with
  | Ok _ => exists spec, rt_spec s = Some spec /\
              core_of s' = mkCore [body_frame (sp_steps spec)] 0 [] (rt_vars s') RUNNING None None (Some (sp_steps spec))
  | Err _ => rt_state s' = rt_state s
  end.
Proof.
  intros E. destruct res as [[]|e].
  - destruct (started_core s') as [steps Hc]; [by exists a, r, c, o, s|]. pose proof (start_steady a r c o s) as Hs. rewrite E in Hs. cbn in Hs.
    pose proof (f_equal co_program Hc) as Hp. cbn in Hp. rewrite Hs in Hp. destruct (rt_spec s) as [spec|]; [|done]. cbn in Hp.
    injection Hp as <-. by exists spec.
  - unfold start in E. destruct (rt_spec s) as [spec|]; [|by injection E as _ <-]. rewrite bind_lift in E.
    destruct (loop_request r c) as [[mode target]|]; [|by injection E as _ <-]. rewrite bind_lift in E.
    destruct (overrides o (sp_vars spec)) as [ov|]; [|by injection E as _ <-]. rewrite bind_modify, bind_lift in E.
    destruct (_normalize_adaptive_start_modes a) as [modes|]; [|by injection E as _ <-]. rewrite bind_modify in E.
    destruct (begin_clocks_core (forget_run modes (begin_run mode target ov spec s))) as (x & Ex & _). by rewrite E in Ex.
Qed.

(** A run none of whose steps was given out is over at once. *)
Lemma acts_run {A} f (m : pyM st A) s : acts f m ->
  exists a s1, core_of s1 = f (core_of s) /\ m s = (Ok a, s1).
Proof. intros H. destruct (H s) as (a & Ea & Ec). destruct (m s) as [r s1]. cbn in Ea, Ec. subst r. by exists a, s1. Qed.
Lemma bind_run {A B} (m : pyM st A) (k : A -> pyM st B) s a s1 : m s = (Ok a, s1) -> (m ≫= k) s = k a s1.
Proof. intros E. unfold mbind, pyM_bind. by rewrite E. Qed.

Lemma fail_new_run reason (s : st) steps vars prog :
  core_of s = mkCore [body_frame steps] 0 [] vars RUNNING None None prog ->
  exists s', fail reason s = (Ok tt, s') /\ rt_state s' = ERROR.
Proof.
  intros Hc. unfold fail. assert (live s = true) as -> by (unfold live; by rewrite (f_equal co_state Hc : rt_state s = RUNNING)). cbn [negb].
  generalize (if nonempty reason then reason else "external fault"). intros why.
  destruct (acts_run _ (_record_event "error" "external_fault" why PNone PNone PNone) s (acts_record_event _ _ _ _ _ _)) as (u & s1 & E1 & R1).
  rewrite (bind_run _ _ _ _ _ R1). destruct (acts_run _ monotonic s1 acts_monotonic) as (now & s2 & E2 & R2). rewrite (bind_run _ _ _ _ _ R2).
  destruct (acts_run _ (_mark_pause_ended now) s2 (acts_on_stats _)) as (u3 & s3 & E3 & R3). rewrite (bind_run _ _ _ _ _ R3). rewrite bind_modify.
  set (s4 := s3 <| rt_pause_requested := false |> <| rt_stop_requested := false |>).
  assert (core_of s4 = core_of s) as E4 by (transitivity (core_of s3); [done|by rewrite E3, E2, E1]). rewrite Hc in E4.
  assert (rt_parallel_state s4 = None) as Ep by exact (f_equal co_parallel E4).
  rewrite (bind_run (gets rt_parallel_state) _ s4 (rt_parallel_state s4) s4 eq_refl), Ep.
  destruct (acts_run _ drop_pending_work s4 acts_drop_pending_work) as (u5 & s5 & E5 & R5). rewrite (bind_run _ _ _ _ _ R5). rewrite E4 in E5.
  pose proof (begin_unwind ERROR (Some why) s5) as Hu. rewrite (f_equal co_pending E5 : rt_pending_state s5 = None) in Hu.
  rewrite (f_equal co_stack E5 : rt_stack s5 = [body_frame steps]) in Hu. cbn in Hu. rewrite (bind_run _ _ _ _ _ Hu).
  by eexists.
Qed.
End runtime_facts.

Section process_facts.
Context `{HR : !PyRepr, HE : !PyExpr, HA : !PyArith, HL : !LooseMatches, HY : !Yaml, HT : !Templates}.
Context {W : Type} `{HW : !SequencerWorld W} `{HK : !SequencerLink W}.
#[local] Abbreviation st := (process W).
#[local] Abbreviation M := (pyM (process W)).

(** ** What is loaded *)
Record loaded_view := mkLoaded {
  lv_spec : option sequence; lv_text : option string; lv_source : option string; lv_kind : option string;
  lv_active : option string; lv_run_id : option Z; lv_columns : option (list (string * string)); lv_runtime : option SequenceSpec
}.
Definition loaded (p : st) : loaded_view :=
  mkLoaded (ps_loaded_spec p) (ps_loaded_text p) (ps_loaded_source p) (ps_loaded_source_kind p) (ps_active_sequence_id p)
    (ps_loaded_run_id p) (ps_context_columns p) (rt_spec (ps_runtime p)).

#[export] Instance loaded_view_eta : Eta loaded_view := fun v =>
  mkLoaded (lv_spec v) (lv_text v) (lv_source v) (lv_kind v) (lv_active v) (lv_run_id v) (lv_columns v) (lv_runtime v).

(** What the process reports is what the runtime has. *)
Definition view_ok (v : loaded_view) : Prop :=
  match lv_spec v with
  | Some sq => lv_runtime v = Some (sq_spec sq) /\ lv_columns v = _effective_context_columns (sq_context_columns sq) /\
               lv_text v <> None /\ lv_source v <> None /\ lv_kind v <> None
  | None => v = mkLoaded None None None None None None None None
  end.
Definition in_step (p : st) : Prop := view_ok (loaded p).

(** ** What does not touch it *)
Definition same_view (p p' : st) : Prop := loaded p' = loaded p /\ core_of (ps_runtime p') = core_of (ps_runtime p).
#[export] Instance same_view_preorder : PreOrder same_view.
Proof. split; [done|]. intros a b c [] []. split; congruence. Qed.
#[local] Abbreviation calm := (keeps same_view).

Lemma in_world_calm {A} (f : W -> A * W) : calm (in_world f).
Proof. intros p. unfold in_world, on_runtime, outside. by destruct (f (rt_world (ps_runtime p))). Qed.
Lemma world_does_calm f : calm (world_does f).
Proof. apply in_world_calm. Qed.
Lemma lifecycle_calm e ok src msg pl : calm (_publish_lifecycle_event e ok src msg pl).
Proof. intros p. apply world_does_calm. Qed.
#[local] Hint Resolve in_world_calm world_does_calm lifecycle_calm : keeps.
Lemma try_publish_calm d : calm (_try_publish_log_payload d).
Proof. unfold _try_publish_log_payload. keeps. Qed.
Lemma queue_calm d : calm (_queue_log_payload d).
Proof. unfold _queue_log_payload. keeps. Qed.
#[local] Hint Resolve try_publish_calm queue_calm : keeps.
Lemma publish_log_calm sev msg d : calm (_publish_log sev msg d).
Proof. intros p. unfold _publish_log. match goal with |- same_view p (snd (?m p)) => assert (calm m) as H; [|apply H] end. keeps. Qed.
Lemma parsing_calm {A} (m : pyL Z A) : calm (parsing m).
Proof. intros p. unfold parsing. by destruct (m (ps_next_object p)) as [[]|]. Qed.
Lemma load_text_calm text source : calm (_load_sequence_text text source).
Proof.
  unfold _load_sequence_text. destruct (load_yaml_text true source text) as [raw|e]; [|apply keeps_ret, _].
  intros p. unfold caught. unfold mbind, pyM_bind. pose proof (parsing_calm (parse_sequence raw) p) as H.
  by destruct (parsing (parse_sequence raw) p) as [[spec|e] p1].
Qed.
Lemma call_process_calm a b c : calm (_call_process a b c).
Proof. unfold _call_process. keeps. Qed.
#[local] Hint Resolve publish_log_calm parsing_calm load_text_calm call_process_calm : keeps.
Lemma check_devices_calm sq vars : calm (_check_devices_connected sq vars).
Proof. unfold _check_devices_connected. keeps. Qed.

(** ** Loading *)
Definition view_of (sq : sequence) (text source kind : string) (active : option string) (run_id : option Z) : loaded_view :=
  mkLoaded (Some sq) (Some text) (Some source) (Some kind) active run_id (_effective_context_columns (sq_context_columns sq)) (Some (sq_spec sq)).

Lemma mark_loaded_view sq text source kind active (p : st) : loaded (mark_loaded sq text source kind active p) =
  view_of sq text source kind active None <| lv_runtime := rt_spec (ps_runtime p) |>.
Proof. by destruct p. Qed.
Lemma mark_loaded_rest sq text source kind active (p : st) :
  ps_runtime (mark_loaded sq text source kind active p) = ps_runtime p /\ ps_library (mark_loaded sq text source kind active p) = ps_library p.
Proof. by destruct p. Qed.
Lemma after_load_view (p : st) : let p' := forget_progress (p <| ps_autoload_error := None |>) in
  loaded p' = loaded p /\ ps_runtime p' = ps_runtime p /\ ps_library p' = ps_library p.
Proof. by destruct p. Qed.
Lemma set_runtime_view (p : st) s : loaded (p <| ps_runtime := s |>) = loaded p <| lv_runtime := rt_spec s |>.
Proof. by destruct p. Qed.

Lemma set_loaded_spec sq text source kind active (p : st) :
  let '(r, p') := _set_loaded_sequence sq text source kind active p in
  if bool_decide (rt_state (ps_runtime p) = RUNNING) then r = Err (RuntimeError "Cannot load while running") /\ same_view p p'
  else r = Ok tt /\ loaded p' = view_of sq text source kind active None /\ rt_state (ps_runtime p') = IDLE /\ ps_library p' = ps_library p.
Proof.
  unfold _set_loaded_sequence. set (info := build_step_source_info _ _ _). unfold mbind, pyM_bind, on_runtime.
  pose proof (load_spec (sq_spec sq) info (ps_runtime p)) as H. case_bool_decide.
  - rewrite H. split; [done|]. by destruct p.
  - destruct (load (sq_spec sq) info (ps_runtime p)) as [r s]. cbn [fst snd] in H. destruct H as (-> & Hs & Hi).
    unfold modify, _clear_autoload_error, modify. set (p1 := p <| ps_runtime := s |>). set (p2 := mark_loaded _ _ _ _ _ p1).
    assert (ps_runtime p1 = s /\ ps_library p1 = ps_library p) as [Er El] by (by destruct p).
    pose proof (mark_loaded_view sq text source kind active p1) as H2. pose proof (mark_loaded_rest sq text source kind active p1) as [R2 L2].
    fold p2 in H2, R2, L2. pose proof (after_load_view p2) as (H3 & R3 & L3). split; [done|].
    rewrite H3, H2, R3, L3, R2, L2, Er, El, Hs. by split_and!.
Qed.

Lemma restore_spec previous (p : st) r p' : _restore_loaded_sequence previous p = (r, p') ->
  match previous with
  | None => r = Ok tt /\ p' = p
  | Some sn =>
      if bool_decide (rt_state (ps_runtime p) = RUNNING) then same_view p p'
      else loaded p' = view_of (sn_spec sn) (sn_text sn) (sn_source sn) (sn_source_kind sn) (sn_active sn) (sn_run_id sn) /\
           rt_state (ps_runtime p') = IDLE
  end.
Proof.
  unfold _restore_loaded_sequence. destruct previous as [sn|]; [|by intros [= <- <-]].
  pose proof (set_loaded_spec (sn_spec sn) (sn_text sn) (sn_source sn) (sn_source_kind sn) (sn_active sn) p) as H.
  destruct (_set_loaded_sequence _ _ _ _ _ p) as [q p1]. case_bool_decide.
  - destruct H as [-> Hv]. intros E. etrans; [exact Hv|]. pose proof (publish_log_calm "error"
      ("sequencer could not restore the previously loaded sequence: " +:+ exc_str (RuntimeError "Cannot load while running")) [] p1) as Hl. by rewrite E in Hl.
  - destruct H as (-> & Hv & Hi & _). intros [= <- <-].
    assert (loaded (p1 <| ps_loaded_run_id := sn_run_id sn |>) = loaded p1 <| lv_run_id := sn_run_id sn |>) as -> by (by destruct p1).
    rewrite Hv. split; [done|by destruct p1].
Qed.

(** What was loaded, by its snapshot *)
Lemma snapshot_view (p : st) : in_step p -> ps_loaded_spec p <> None ->
  exists sn, _loaded_sequence_snapshot p = Some sn /\
    loaded p = view_of (sn_spec sn) (sn_text sn) (sn_source sn) (sn_source_kind sn) (sn_active sn) (sn_run_id sn).
Proof.
  unfold in_step, view_ok, _loaded_sequence_snapshot, loaded, view_of. cbn. destruct (ps_loaded_spec p) as [sq|]; [|done]. intros (Hr & Hc & Ht & Hs & Hk) _.
  destruct (ps_loaded_text p) as [text|]; [|done]. destruct (ps_loaded_source p) as [source|]; [|done].
  destruct (ps_loaded_source_kind p) as [kind|]; [|done]. eexists. split; [done|]. cbn. by rewrite Hr, Hc.
Qed.

(** ** The start of a run *)
Definition list_request : dict := [("type", PStr "device.list_status")].
Definition hdf_request : dict :=
  [("type", PStr "manager.processes.rpc"); ("process_id", PStr "hdf_writer");
   ("request", PDict [("type", PStr "hdf.status"); ("params", PDict [])])].

(** The questions of a start that begins in world [w]: the data writer, if the
    sequence requires it, and then the manager, if the sequence uses devices. *)
Definition sequence_devices (sq : sequence) (vars : dict) : gset string :=
  _check_devices_connected_walk_steps lk_recursion (_vars_env vars) (sp_steps (sq_spec sq)) ∅.
Definition after_hdf (sq : sequence) (w : W) : W :=
  if sq_require_hdf_writing sq then snd (lk_call hdf_request w) else w.
Definition after_list (sq : sequence) (vars : dict) (w : W) : W :=
  if bool_decide (sequence_devices sq vars = ∅) then w else snd (lk_call list_request w).

(** In world [w] the data writer says that it writes, the manager lists every
    device of the sequence as online. *)
Definition writer_ready (sq : sequence) (w : W) : Prop :=
  sq_require_hdf_writing sq = true -> writing_active (_normalize_call_response (fst (lk_call hdf_request w))) = true.
Definition devices_ready (sq : sequence) (vars : dict) (w : W) : Prop :=
  forall d, d ∈ sequence_devices sq vars ->
    exists item, od_get (listed_devices (fst (lk_call list_request w))) d = Some item /\ device_online item = true.

#[local] Abbreviation world p := (rt_world (ps_runtime p)).

Lemma in_world_run {A} (f : W -> A * W) (p : st) :
  exists p', in_world f p = (Ok (fst (f (world p))), p') /\ same_view p p' /\ world p' = snd (f (world p)).
Proof.
  pose proof (in_world_calm f p) as H. unfold in_world, on_runtime, outside in *.
  destruct (f (rt_world (ps_runtime p))) as [a w]. by eexists.
Qed.

Lemma check_devices_spec sq vars (p : st) : exists missing p', _check_devices_connected sq vars p = (Ok missing, p') /\ same_view p p' /\
  world p' = after_list sq vars (world p) /\ (missing = [] -> devices_ready sq vars (world p)).
Proof.
  unfold _check_devices_connected, after_list. fold (sequence_devices sq vars). case_bool_decide as Hd.
  - exists [], p. split_and!; [done|done|done|]. intros _ d. rewrite Hd. set_solver.
  - fold list_request. destruct (in_world_run (lk_call list_request) p) as (p' & E & Hv & Hw). unfold mbind, pyM_bind. rewrite E.
    eexists _, p'. split_and!; [done|done|done|]. intros Hm d Hin. by eapply no_start_problems.
Qed.

Lemma refuse_spec req reason (p : st) steps vars prog :
  core_of (ps_runtime p) = mkCore [body_frame steps] 0 [] vars RUNNING None None prog ->
  exists p', refuse_run req reason p = (Ok (Some (rpc_err (PDict req) "start_failed" (Some reason) [])), p') /\
    loaded p' = loaded p /\ rt_state (ps_runtime p') = ERROR.
Proof.
  intros Hc. unfold refuse_run, mbind, pyM_bind, on_runtime. pose proof (fail_steady reason (ps_runtime p)) as Hs.
  destruct (fail_new_run reason (ps_runtime p) steps vars prog Hc) as (s & E & He). rewrite E in Hs |- *. eexists. split; [done|].
  rewrite set_runtime_view. split; [|by destruct p]. unfold same_spec in Hs. cbn in Hs. rewrite Hs. by destruct p.
Qed.

Lemma preconditions_spec req (p : st) steps vars prog :
  core_of (ps_runtime p) = mkCore [body_frame steps] 0 [] vars RUNNING None None prog ->
  exists r p', _check_start_preconditions req p = (Ok r, p') /\
    match r with
    | None => same_view p p' /\ forall sq, ps_loaded_spec p = Some sq ->
        writer_ready sq (world p) /\ devices_ready sq (rt_vars (ps_runtime p)) (after_hdf sq (world p)) /\
        world p' = after_list sq (rt_vars (ps_runtime p)) (after_hdf sq (world p))
    | Some failure => dget failure "ok" = PBool false /\ loaded p' = loaded p /\ rt_state (ps_runtime p') = ERROR
    end.
Proof.
  intros Hc. unfold _check_start_preconditions. destruct (ps_loaded_spec p) as [sq|]; [|by exists None, p].
  assert (exists writing p1, (if sq_require_hdf_writing sq
      then resp ← _call_process "hdf_writer" "hdf.status" []; mret (writing_active resp) else mret true) p = (Ok writing, p1) /\ same_view p p1 /\
      world p1 = after_hdf sq (world p) /\ (writing = true -> writer_ready sq (world p))) as (writing & p1 & E1 & Hv1 & Hw1 & Hw).
  { unfold writer_ready, after_hdf. destruct (sq_require_hdf_writing sq); [|by exists true, p].
    unfold _call_process. fold hdf_request. destruct (in_world_run (lk_call hdf_request) p) as (p1 & E & Hv & Hw).
    unfold mbind, pyM_bind. rewrite E. eexists _, p1. by split_and!. }
  unfold mbind at 1, pyM_bind at 1. rewrite E1. destruct Hv1 as [Hl1 Hc1]. rewrite Hc in Hc1. destruct writing; cbn [negb].
  2: { destruct (refuse_spec req "requires.hdf_writing: hdf_writer is not currently writing" p1 _ _ _ Hc1) as (p2 & E2 & Hl2 & He).
       rewrite E2. eexists _, p2. split; [done|]. split_and!; [done| |done]. congruence. }
  unfold mbind at 1, pyM_bind at 1, gets at 1.
  destruct (check_devices_spec sq (rt_vars (ps_runtime p1)) p1) as (missing & p2 & E2 & [Hl2 Hc2] & Hw2 & Hm).
  unfold mbind, pyM_bind. rewrite E2. rewrite Hc1 in Hc2. destruct missing as [|x missing].
  - exists None, p2. split; [done|]. split; [split; congruence|]. intros ? [= <-].
    assert (rt_vars (ps_runtime p) = rt_vars (ps_runtime p1)) as ->.
    { transitivity vars; [exact (f_equal co_vars Hc)|exact (eq_sym (f_equal co_vars Hc1))]. }
    rewrite <- Hw1. split_and!; [by apply Hw|by apply Hm|done].
  - destruct (refuse_spec req ("devices not connected: " +:+ join ", " (x :: missing)) p2 _ _ _ Hc2) as (p3 & E3 & Hl3 & He).
    rewrite E3. eexists _, p3. split; [done|]. split_and!; [done| |done]. congruence.
Qed.

(** A start up to its checks: the entry of the library is loaded, and the run
    is begun. *)
Definition prepared (params : dict) (entry : option SequenceLibraryEntry) : M unit :=
  _ ← match entry with Some e => _set_loaded_sequence_from_library_entry e | None => mret tt end;
  continuous ← lift (continuous_param params);
  vars_override ← lift (override_param params);
  _ ← on_runtime (start (dget params "adaptive") (dget params "repeat_count") continuous vars_override);
  modify forget_progress.

Lemma begin_start_prepared req params entry (p : st) :
  begin_start req params entry p =
  match prepared params entry p with
  | (Ok _, p) => _check_start_preconditions req p
  | (Err e, p) => (Err e, p)
  end.
Proof.
  unfold begin_start, prepared, mbind, pyM_bind.
  repeat (match goal with |- context [match ?m ?q with (_, _) => _ end] => destruct (m q) as [[?|?] ?] end; try done).
Qed.

(** What a start has done when it comes to its answer *)
Definition begun (p p' : st) (entry : option SequenceLibraryEntry) : loaded_view :=
  match entry with
  | Some e => view_of (se_spec e) (se_text e) (se_path e) "library" (Some (se_sequence_id e)) None
  | None => loaded p
  end.

Lemma load_entry_spec entry (p : st) : in_step p ->
  let '(r, p1) := match entry with Some e => _set_loaded_sequence_from_library_entry e | None => mret tt end p in
  match r with
  | Err _ => entry <> None /\ rt_state (ps_runtime p) = RUNNING /\ same_view p p1
  | Ok _ => loaded p1 = begun p p1 entry /\ in_step p1 /\ ((entry = None /\ p1 = p) \/ rt_state (ps_runtime p1) = IDLE)
  end.
Proof.
  intros Hin. destruct entry as [e|]; [|split_and!; try done; by left]. unfold _set_loaded_sequence_from_library_entry.
  pose proof (set_loaded_spec (se_spec e) (se_text e) (se_path e) "library" (Some (se_sequence_id e)) p) as H.
  destruct (_set_loaded_sequence _ _ _ _ _ p) as [r1 p1]. case_bool_decide; destruct H as [-> H].
  - by split_and!.
  - destruct H as (Hl & Hi & _). split_and!; [done| |by right]. unfold in_step. rewrite Hl. by split_and!.
Qed.

Lemma prepared_spec params entry (p : st) : in_step p ->
  let '(r, p') := prepared params entry p in
  match r with
  | Ok _ => exists sq, loaded p' = begun p p' entry /\ in_step p' /\ ps_loaded_spec p' = Some sq /\
      core_of (ps_runtime p') = mkCore [body_frame (sp_steps (sq_spec sq))] 0 [] (rt_vars (ps_runtime p')) RUNNING None None (Some (sp_steps (sq_spec sq)))
  | Err _ =>
      (entry <> None /\ rt_state (ps_runtime p) = RUNNING /\ same_view p p') \/
      (loaded p' = begun p p' entry /\
       (entry = None /\ rt_state (ps_runtime p') = rt_state (ps_runtime p) \/ rt_state (ps_runtime p') = IDLE))
  end.
Proof.
  intros Hin. unfold prepared. unfold mbind at 1, pyM_bind at 1. pose proof (load_entry_spec entry p Hin) as H1.
  revert H1. match goal with |- context [match ?x with (_, _) => _ end] => destruct x as [[[]|e] p1] end; intros H1; [|by left]. destruct H1 as (Hl1 & Hin1 & Hst).
  assert (entry = None /\ rt_state (ps_runtime p1) = rt_state (ps_runtime p) \/ rt_state (ps_runtime p1) = IDLE) as Hst'.
  { destruct Hst as [[? ->]|]; auto. }
  unfold mbind at 1, pyM_bind at 1, lift at 1. destruct (continuous_param params) as [continuous|e]; [|by right].
  unfold mbind at 1, pyM_bind at 1, lift at 1. destruct (override_param params) as [ov|e]; [|by right].
  unfold mbind at 1, pyM_bind at 1, on_runtime at 1.
  destruct (start (dget params "adaptive") (dget params "repeat_count") continuous ov (ps_runtime p1)) as [r2 s2] eqn:E2.
  pose proof (start_result _ _ _ _ _ _ _ E2) as H2. pose proof (start_steady (dget params "adaptive") (dget params "repeat_count") continuous ov (ps_runtime p1)) as Hs2.
  rewrite E2 in Hs2. unfold same_spec in Hs2. cbn in Hs2. set (p2 := p1 <| ps_runtime := s2 |>).
  assert (loaded p2 = loaded p1) as Hl2 by (unfold p2; rewrite set_runtime_view, Hs2; by destruct p1).
  assert (ps_runtime p2 = s2) as Hr2 by (by destruct p1).
  destruct r2 as [[]|e].
  2: { right. rewrite Hr2, H2. split_and!; [|done]. by rewrite Hl2, Hl1; destruct entry. }
  unfold modify at 1. set (p3 := forget_progress p2).
  assert (loaded p3 = loaded p2 /\ ps_runtime p3 = s2) as [Hl3 Hr3] by (unfold p3; rewrite <- Hr2; by destruct p2).
  destruct H2 as (spec & Hspec & Hc).
  assert (loaded p3 = loaded p1) as Hl31 by congruence.
  pose proof Hin1 as Hin2. unfold in_step, view_ok in Hin1. cbn [lv_spec loaded] in Hin1. destruct (ps_loaded_spec p1) as [sq|] eqn:Esq.
  - exists sq. assert (sq_spec sq = spec) as <-.
    { destruct Hin1 as [Hr _]. cbn in Hr. rewrite Hr in Hspec. by injection Hspec. }
    split_and!; [by rewrite Hl31, Hl1; destruct entry| | |].
    + unfold in_step. by rewrite Hl31.
    + rewrite <- Esq. exact (f_equal lv_spec Hl31).
    + by rewrite Hr3, Hc.
  - exfalso. apply (f_equal lv_runtime) in Hin1. cbn in Hin1. by rewrite Hin1 in Hspec.
Qed.

(** What is known of a start when its checks are done *)
Definition checked (p3 p' : st) (sq : sequence) : Prop :=
  let w := world p3 in let vars := rt_vars (ps_runtime p3) in
  writer_ready sq w /\ devices_ready sq vars (after_hdf sq w) /\ world p' = after_list sq vars (after_hdf sq w).

Lemma begin_start_spec req params entry (p : st) : in_step p ->
  let '(r, p') := begin_start req params entry p in
  match r with
  | Ok None => exists sq p3, prepared params entry p = (Ok tt, p3) /\ same_view p3 p' /\
      loaded p' = begun p p' entry /\ in_step p' /\ ps_loaded_spec p' = Some sq /\
      core_of (ps_runtime p') = mkCore [body_frame (sp_steps (sq_spec sq))] 0 [] (rt_vars (ps_runtime p')) RUNNING None None (Some (sp_steps (sq_spec sq))) /\
      checked p3 p' sq
  | Ok (Some failure) => loaded p' = begun p p' entry /\ dget failure "ok" = PBool false /\ rt_state (ps_runtime p') = ERROR
  | Err _ =>
      (entry <> None /\ rt_state (ps_runtime p) = RUNNING /\ same_view p p') \/
      (loaded p' = begun p p' entry /\
       (entry = None /\ rt_state (ps_runtime p') = rt_state (ps_runtime p) \/ rt_state (ps_runtime p') = IDLE))
  end.
Proof.
  intros Hin. rewrite begin_start_prepared. pose proof (prepared_spec params entry p Hin) as H.
  destruct (prepared params entry p) as [[[]|e] p3]; [|exact H]. destruct H as (sq & Hl3 & Hin3 & Hsq & Hc).
  destruct (preconditions_spec req p3 _ _ _ Hc) as (r & p4 & -> & H4). destruct r as [failure|].
  - destruct H4 as (Hf & Hl4 & He). split_and!; [|done|done]. rewrite Hl4, Hl3. by destruct entry.
  - destruct H4 as [[Hl4 Hc4] Hready]. exists sq, p3.
    split; [done|]. split; [by split|]. split; [|split; [|split; [|split; [|by apply Hready]]]].
    + rewrite Hl4, Hl3. by destruct entry.
    + unfold in_step. by rewrite Hl4.
    + rewrite <- Hsq. exact (f_equal lv_spec Hl4).
    + rewrite Hc4, (f_equal co_vars Hc4 : rt_vars (ps_runtime p4) = rt_vars (ps_runtime p3)). exact Hc.
Qed.

Lemma start_error_spec req previous e (p : st) reply p' : start_error req previous e p = (Ok reply, p') ->
  dget reply "ok" = PBool false /\
  exists p1, _restore_loaded_sequence previous p = (Ok tt, p1) /\ same_view p1 p'.
Proof.
  unfold start_error, mbind, pyM_bind. destruct (_restore_loaded_sequence previous p) as [[[]|x] p1]; [|done].
  pose proof (lifecycle_calm "start" false "rpc" (exc_str e) None p1) as H.
  destruct (_publish_lifecycle_event "start" false "rpc" (exc_str e) None p1) as [[[]|x] p2]; [|done]. intros [= <- <-]. split; [done|].
  by exists p1.
Qed.

Lemma run_started_spec req (p : st) reply p' : run_started req p = (Ok reply, p') ->
  dget reply "ok" = PBool true /\ loaded p' = loaded p <| lv_run_id := Some (rt_run_id (ps_runtime p)) |> /\
  core_of (ps_runtime p') = core_of (ps_runtime p).
Proof.
  unfold run_started, mbind, pyM_bind, modify. set (p1 := p <| ps_loaded_run_id := _ |>).
  assert (loaded p1 = loaded p <| lv_run_id := Some (rt_run_id (ps_runtime p)) |> /\ ps_runtime p1 = ps_runtime p) as [Hl Hr] by (by destruct p).
  match goal with |- context [_publish_lifecycle_event ?a ?b ?c ?d ?e p1] => pose proof (lifecycle_calm a b c d e p1) as [H1 H2];
    destruct (_publish_lifecycle_event a b c d e p1) as [[[]|x] p2]; [|done] end.
  intros [= <- <-]. cbn in H1, H2. split_and!; [done|congruence|congruence].
Qed.

(** C24. A start that is refused leaves the sequence as it was: what was loaded
    is loaded again, with its text, source, library id, context columns and
    the run it last belonged to, in the process and in the runtime, also if
    the start had already loaded another sequence of the library in its place;
    only where nothing was loaded before does the entry that was asked for
    stay loaded. Process and runtime are in step, and the state of the
    runtime is the one it had, IDLE or ERROR: a refused start leaves nothing
    running that was not. It does not bring back a run that was paused or
    going: that run is replaced when the new one is begun. *)
Theorem refused_start_restores_sequence req (p : st) reply p' :
  in_step p -> _rpc_sequencer_start req p = (Ok reply, p') -> dget reply "ok" = PBool false ->
  (loaded p' = loaded p \/
   ps_loaded_spec p = None /\ exists params e, req_params req = Some params /\ start_entry params p = Ok (Some e) /\
     loaded p' = view_of (se_spec e) (se_text e) (se_path e) "library" (Some (se_sequence_id e)) None) /\
  in_step p' /\
  (rt_state (ps_runtime p') = rt_state (ps_runtime p) \/ rt_state (ps_runtime p') = IDLE \/ rt_state (ps_runtime p') = ERROR).
Proof.
  intros Hin E Hok. assert (forall A B : Prop, (A -> in_step p') -> A /\ B -> A /\ in_step p' /\ B) as Hsplit by tauto.
  apply Hsplit.
  { unfold in_step. intros [->|(_ & params & e & _ & _ & ->)]; [exact Hin|by split_and!]. }
  clear Hsplit. unfold _rpc_sequencer_start, with_params in E. destruct (req_params req) as [params|]; [|injection E as _ <-; by split; left].
  destruct (start_entry params p) as [entry|e] eqn:Een.
  2: { apply start_error_spec in E as (_ & p1 & E1 & [H1 H2]). apply restore_spec in E1 as [_ ->].
       split; [by left|left]. exact (f_equal co_state H2). }
  set (previous := match entry with Some _ => _loaded_sequence_snapshot p | None => None end) in E.
  (* after the restore of what [begin_start] had left loaded *)
  assert (forall p1 p2 : st, _restore_loaded_sequence previous p1 = (Ok tt, p2) -> loaded p1 = begun p p1 entry ->
    (entry = None \/ rt_state (ps_runtime p1) <> RUNNING) ->
    (loaded p2 = loaded p \/ ps_loaded_spec p = None /\ exists params' e, Some params = Some params' /\ start_entry params' p = Ok (Some e) /\
       loaded p2 = view_of (se_spec e) (se_text e) (se_path e) "library" (Some (se_sequence_id e)) None) /\
    (rt_state (ps_runtime p2) = IDLE \/ rt_state (ps_runtime p2) = rt_state (ps_runtime p1))) as Hback.
  { intros p1 p2 E2 Hb Hn. apply restore_spec in E2. unfold previous in E2. destruct entry as [en|].
    2: { destruct E2 as [_ ->]. split; [by left|by right]. }
    destruct Hn as [|Hn]; [done|]. destruct (ps_loaded_spec p) as [sq|] eqn:Esq.
    - destruct (snapshot_view p Hin) as (sn & Esn & Hv); [congruence|]. rewrite Esn in E2. rewrite bool_decide_false in E2 by done.
      destruct E2 as [H1 H2]. split; [left; by rewrite H1, <- Hv|by left].
    - assert (_loaded_sequence_snapshot p = None) as En by (unfold _loaded_sequence_snapshot; by rewrite Esq).
      rewrite En in E2. destruct E2 as [_ ->]. split; [|by right]. right. split; [done|]. by exists params, en. }
  pose proof (begin_start_spec req params entry p Hin) as H. destruct (begin_start req params entry p) as [[[failure|]|e] p1].
  - destruct H as (Hb & Hf & He). unfold mbind, pyM_bind in E.
    destruct (_restore_loaded_sequence previous p1) as [[[]|x] p2] eqn:E2; [|done]. injection E as <- <-.
    destruct (Hback _ _ E2 Hb) as [Hl Hs]; [right; by rewrite He|]. split; [done|]. rewrite He in Hs. tauto.
  - apply run_started_spec in E as (Ht & _). by rewrite Ht in Hok.
  - apply start_error_spec in E as (_ & p2 & E2 & [H1 H2]).
    rewrite (f_equal co_state H2 : rt_state (ps_runtime p') = rt_state (ps_runtime p2)), H1.
    destruct H as [(Hne & Hrun & [H3 H4])|(Hb & Hst)].
    + apply (f_equal co_state) in H4. change (rt_state (ps_runtime p1) = rt_state (ps_runtime p)) in H4.
      apply restore_spec in E2. unfold previous in E2. destruct entry as [en|]; [|done].
      destruct (_loaded_sequence_snapshot p) as [sn|].
      * rewrite H4, Hrun in E2. cbn in E2. destruct E2 as [H5 H6]. split; [left; congruence|left].
        etrans; [exact (f_equal co_state H6)|done].
      * destruct E2 as [_ ->]. split; [by left|by left].
    + destruct (Hback _ _ E2 Hb) as [Hl Hs]; [destruct Hst as [[-> _]| ->]; [by left|by right]|]. split; [done|].
      destruct Hst as [[_ Hst]|Hst]; rewrite Hst in Hs; tauto.
Qed.

(** C25. A start that is accepted has been checked, in this start: with [p3]
    the process in which the entry asked for has been loaded and the run begun,
    the data writer was asked in the world of [p3], if the sequence requires
    it, and said that it writes; the manager was asked next, in the world
    this left, for its list of devices (unless the sequence uses none), and
    that list shows as online every device that an enabled step of the
    sequence, at any depth, calls or sets, under the name rendered in the
    variables of the run; nothing else happened to the outside before the run
    was announced; and the run stands at the first step of the loaded
    sequence. *)
Theorem started_run_checked req (p : st) reply p' :
  in_step p -> _rpc_sequencer_start req p = (Ok reply, p') -> dget reply "ok" = PBool true ->
  exists params entry p3 p4 sq,
    req_params req = Some params /\ start_entry params p = Ok entry /\ prepared params entry p = (Ok tt, p3) /\
    run_started req p4 = (Ok reply, p') /\
    ps_loaded_spec p3 = Some sq /\ ps_loaded_spec p' = Some sq /\ in_step p' /\ rt_state (ps_runtime p') = RUNNING /\
    rt_stack (ps_runtime p') = [body_frame (sp_steps (sq_spec sq))] /\ rt_vars (ps_runtime p') = rt_vars (ps_runtime p3) /\
    let vars := rt_vars (ps_runtime p3) in
    let w := world p3 in
    writer_ready sq w /\ world p4 = after_list sq vars (after_hdf sq w) /\
    forall x device v, x ∈ enabled_steps (sp_steps (sq_spec sq)) -> commanded x = Some device ->
      tp_render (_vars_env vars) (PStr device) = Ok v ->
      let d := strip (py_str (py_or v (PStr ""))) in d <> "" ->
      sequence_devices sq vars <> ∅ /\
      exists item, od_get (listed_devices (fst (lk_call list_request (after_hdf sq w)))) d = Some item /\ device_online item = true.
Proof.
  intros Hin E Hok. unfold _rpc_sequencer_start, with_params in E. destruct (req_params req) as [params|]; [|by injection E as <- _].
  destruct (start_entry params p) as [entry|e] eqn:Een; [|apply start_error_spec in E as (Ht & _); by rewrite Ht in Hok].
  pose proof (begin_start_spec req params entry p Hin) as H. destruct (begin_start req params entry p) as [[[failure|]|e] p4].
  - destruct H as (_ & Hf & _). unfold mbind, pyM_bind in E. destruct (_restore_loaded_sequence _ p4) as [[[]|x] p2]; [|done].
    injection E as <- _. by rewrite Hf in Hok.
  - destruct H as (sq & p3 & Ep & [Hl4 Hc4] & _ & Hin1 & Hsq & Hc & Hw & Hd & Hw4). pose proof E as Erun.
    apply run_started_spec in E as (_ & Hl & Hc'). rewrite Hc in Hc'.
    assert (rt_vars (ps_runtime p') = rt_vars (ps_runtime p3)) as Hv.
    { etrans; [exact (f_equal co_vars Hc')|exact (f_equal co_vars Hc4)]. }
    exists params, entry, p3, p4, sq.
    split_and!; [done|done|done|done|by rewrite <- Hsq; exact (eq_sym (f_equal lv_spec Hl4))
                |by rewrite <- Hsq; exact (f_equal lv_spec Hl)| |exact (f_equal co_state Hc')|exact (f_equal co_stack Hc')|done|].
    + unfold in_step in *. rewrite Hl. unfold view_ok in *. cbn in *. rewrite Hsq in *. done.
    + split_and!; [done|done|]. intros x device v Hx Hcmd Hr d Hne.
      assert (d ∈ sequence_devices sq (rt_vars (ps_runtime p3))) as Hdev.
      { unfold sequence_devices. eapply walk_collects; [done|]. intros ids. by eapply commanded_own. }
      split; [set_solver|by apply Hd].
  - apply start_error_spec in E as (Ht & _). by rewrite Ht in Hok.
Qed.

(** ** Requests keep process and runtime in step *)
Definition stays (p p' : st) : Prop := in_step p -> in_step p'.
#[export] Instance stays_preorder : PreOrder stays.
Proof. split; [intros p H; exact H|]. intros a b c Hab Hbc Ha. by apply Hbc, Hab. Qed.

Lemma view_stays (p p' : st) : loaded p' = loaded p -> stays p p'.
Proof. intros H Hp. unfold in_step. by rewrite H. Qed.
Lemma calm_stays {A} (m : M A) : calm m -> keeps stays m.
Proof. intros H p. apply view_stays, H. Qed.
Lemma runtime_stays {A} (m : pyM (runtime W) A) : keeps same_spec m -> keeps stays (on_runtime m).
Proof.
  intros H p. apply view_stays. unfold on_runtime. specialize (H (ps_runtime p)). unfold same_spec in H. destruct (m (ps_runtime p)) as [r s]. cbn in H |- *.
  rewrite set_runtime_view, H. by destruct p.
Qed.
Lemma set_loaded_stays sq text source kind active : keeps stays (_set_loaded_sequence sq text source kind active).
Proof.
  intros p. pose proof (set_loaded_spec sq text source kind active p) as H. destruct (_set_loaded_sequence _ _ _ _ _ p) as [r p']. cbn [snd].
  case_bool_decide; destruct H as [_ H]; [by apply view_stays, H|]. destruct H as (Hl & _). intros _. unfold in_step. rewrite Hl. by split_and!.
Qed.
Lemma restore_stays previous : keeps stays (_restore_loaded_sequence previous).
Proof.
  intros p. destruct (_restore_loaded_sequence previous p) as [r p'] eqn:E. apply restore_spec in E. cbn [snd].
  destruct previous as [sn|]; [|by destruct E as [_ ->]]. case_bool_decide; [by apply view_stays, E|].
  destruct E as [Hl _]. intros _. unfold in_step. rewrite Hl. by split_and!.
Qed.
#[local] Hint Extern 1 (keeps stays (_publish_lifecycle_event _ _ _ _ _)) => apply calm_stays, lifecycle_calm : keeps.
#[local] Hint Extern 1 (keeps stays (_publish_log _ _ _)) => apply calm_stays, publish_log_calm : keeps.
#[local] Hint Extern 1 (keeps stays (in_world _)) => apply calm_stays, in_world_calm : keeps.
#[local] Hint Extern 1 (keeps stays (parsing _)) => apply calm_stays, parsing_calm : keeps.
#[local] Hint Extern 1 (keeps stays (_load_sequence_text _ _)) => apply calm_stays, load_text_calm : keeps.
#[local] Hint Resolve set_loaded_stays restore_stays : keeps.

#[local] Ltac by_parts := match goal with |- stays ?p (snd (?m ?p)) => let H := fresh in assert (keeps stays m) as H; [keeps|apply H] end.
(** After a first part that is looked at with its result *)
#[local] Ltac after m := match goal with |- stays ?p _ =>
  let H := fresh in assert (keeps stays m) as H; [keeps|specialize (H p); destruct (m p) as [[?|?] ?p]; cbn [snd] in H; (etrans; [exact H|]); clear H] end.

Lemma controlled_stays req a b c d m : keeps same_spec m -> keeps stays (controlled req a b c d m).
Proof. intros Hm%runtime_stays p. unfold controlled. specialize (Hm p). destruct (on_runtime m p) as [[?|?] p1]; cbn [snd] in Hm; (etrans; [exact Hm|]); by_parts. Qed.
Lemma start_error_stays req previous e : keeps stays (start_error req previous e).
Proof. unfold start_error. keeps. Qed.
Lemma load_failed_stays req a b c d e : keeps stays (load_failed req a b c d e).
Proof. unfold load_failed. keeps. Qed.
Lemma requested_text_stays params : keeps stays (requested_text params).
Proof. unfold requested_text. keeps. Qed.
#[local] Hint Resolve start_error_stays load_failed_stays requested_text_stays : keeps.
Lemma load_text_stays req params source text : keeps stays (SequencerProcess.load_text req params source text).
Proof. unfold SequencerProcess.load_text. keeps. Qed.
Lemma load_entry_stays library id : keeps stays (load_entry library id).
Proof. unfold load_entry, _set_loaded_sequence_from_library_entry. keeps. Qed.
#[local] Hint Resolve load_text_stays load_entry_stays : keeps.

Lemma with_params_stays req (f : dict -> M dict) : (forall params, keeps stays (f params)) -> keeps stays (with_params req f).
Proof. intros H. unfold with_params. destruct (req_params req); [apply H|apply keeps_ret, _]. Qed.
Lemma with_library_stays req (f : SequenceLibrary -> string -> M dict) : (forall library id, keeps stays (f library id)) -> keeps stays (with_library req f).
Proof.
  intros H. apply with_params_stays. intros params p. cbv beta zeta. case_match; [done|]. destruct (ps_library p); [apply H|done].
Qed.

Lemma run_id_stays (p : st) v : in_step p -> ps_loaded_spec p <> None -> in_step (p <| ps_loaded_run_id := v |>).
Proof.
  intros Hp Hl. unfold in_step in *. assert (loaded (p <| ps_loaded_run_id := v |>) = loaded p <| lv_run_id := v |>) as -> by (by destruct p).
  unfold view_ok in *. cbn in *. by destruct (ps_loaded_spec p).
Qed.
Lemma start_stays req : keeps stays (_rpc_sequencer_start req).
Proof.
  apply with_params_stays. intros params p Hin. destruct (start_entry params p) as [entry|e]; [|by apply start_error_stays].
  pose proof (begin_start_spec req params entry p Hin) as H. destruct (begin_start req params entry p) as [r p1].
  assert (forall v, loaded p1 = begun p p1 v -> in_step p1) as Hb.
  { intros v Hv. unfold in_step. rewrite Hv. destruct v; [by split_and!|exact Hin]. }
  destruct r as [[failure|]|e].
  - destruct H as (Hl & _). unfold mbind, pyM_bind. pose proof (restore_stays (match entry with Some _ => _loaded_sequence_snapshot p | None => None end) p1) as Hr.
    destruct (_restore_loaded_sequence _ p1) as [[[]|x] p2]; by apply Hr, (Hb entry).
  - destruct H as (sq & p3 & _ & _ & _ & Hin1 & Hsq & _). unfold run_started, mbind, pyM_bind, modify.
    match goal with |- context [_publish_lifecycle_event ?a ?b ?c ?d ?e ?q] => pose proof (lifecycle_calm a b c d e q) as [Hc _];
      destruct (_publish_lifecycle_event a b c d e q) as [[?|?] p2] end; (eapply view_stays; [exact Hc|]); apply run_id_stays; congruence.
  - apply start_error_stays. destruct H as [(_ & _ & [Hl _])|(Hl & _)]; [by eapply view_stays|by apply (Hb entry)].
Qed.

Lemma library_stays initial : keeps stays (_load_sequence_library initial).
Proof.
  intros p. unfold _load_sequence_library. destruct (opt_nonempty (ps_library_path p)) as [path|]; [|apply view_stays; by destruct p].
  unfold open_library. generalize (ps_description_policy p). intros policy.
  match goal with |- context [match ?m p with _ => _ end] => after m end; unfold warn_library; match goal with |- stays ?q (snd (?m ?q)) =>
    let H := fresh in assert (keeps stays m) as H; [|apply H] end;
    (apply keeps_bind; [typeclasses eauto|apply keeps_modify; intros q; apply view_stays; by destruct q|intros ?]); keeps.
Qed.
#[local] Hint Resolve start_stays library_stays : keeps.

Lemma load_rpc_stays req : keeps stays (_rpc_sequencer_load req).
Proof. apply with_params_stays. intros params p. after (requested_text params); [repeat case_match; by_parts|by_parts]. Qed.
Lemma validate_stays req : keeps stays (_rpc_sequencer_validate req).
Proof. apply with_params_stays. intros params p. after (requested_text params); [repeat case_match; try done; by_parts|done]. Qed.
Lemma library_load_stays req : keeps stays (_rpc_sequencer_library_load req).
Proof.
  apply with_library_stays. intros library id p. after (load_entry library id); [by_parts|]. destruct e; try done; by_parts.
Qed.
Lemma library_form_stays req : keeps stays (_rpc_sequencer_library_form req).
Proof. apply with_library_stays. intros library id. destruct (get_entry library id) as [en|[]]; keeps. Qed.
Lemma library_reload_stays req : keeps stays (_rpc_sequencer_library_reload req).
Proof. intros p. unfold _rpc_sequencer_library_reload. destruct (opt_nonempty (ps_library_path p)); [|done]. by_parts. Qed.
Lemma adaptive_clear_stays req : keeps stays (_rpc_sequencer_adaptive_clear req).
Proof. apply with_params_stays. intros params. pose proof (fun i => runtime_stays _ (clear_studies_steady i)) as H. cbv beta zeta. keeps. Qed.
Lemma resolve_vars_stays req : keeps stays (_rpc_sequencer_resolve_vars req).
Proof. apply with_params_stays. intros params p. by repeat case_match. Qed.

Context (reports : list (string * (dict -> M dict))).
Context (Hreports : Forall (fun h => forall req, keeps stays (snd h req)) reports).

Lemma handlers_stay : Forall (fun h => forall req, keeps stays (snd h req)) (sequencer_handlers reports).
Proof.
  apply Forall_app. split; [exact Hreports|]. repeat constructor; cbn [snd]; intros req.
  - apply adaptive_clear_stays.
  - unfold _rpc_sequencer_adaptive_clear_all. pose proof (runtime_stays _ (clear_studies_steady None)) as H. keeps.
  - intros p. reflexivity.
  - apply load_rpc_stays.
  - apply validate_stays.
  - intros p. reflexivity.
  - apply library_reload_stays.
  - apply library_load_stays.
  - apply library_form_stays.
  - apply start_stays.
  - apply controlled_stays, request_pause_steady.
  - apply controlled_stays, resume_steady.
  - apply controlled_stays, request_stop_steady.
  - intros p. reflexivity.
  - apply resolve_vars_stays.
Qed.

(** Every request, whatever it asks for and however it is answered, leaves the
    process and its runtime in step: the sequence, text, source and columns the
    process reports are those of the sequence the runtime has. *)
Theorem requests_keep_in_step req : keeps stays (_sequencer_handle_rpc reports req).
Proof.
  unfold _sequencer_handle_rpc. apply keeps_bind; [apply _| |].
  - intros p. unfold _handle_common_rpc. destruct (String.eqb _ _); [|done]. unfold _graceful_stop, modify. apply view_stays. by destruct p.
  - intros [reply|]; [apply keeps_ret, _|]. destruct (dispatch_with_canonical _ req) as [[h req']|] eqn:E; [|apply keeps_ret, _].
    unfold dispatch_with_canonical in E. destruct (od_get _ _) as [h'|] eqn:E'; [|done]. injection E as -> _.
    unfold _sequencer_registry, build_registry in E'. cbn [rg_handlers] in E'. apply add_handler_range in E' as [E'|E']; [by apply not_elem_of_nil in E'|].
    apply list_elem_of_fmap in E' as ([key g] & -> & Hin). pose proof handlers_stay as Hs. rewrite Forall_forall in Hs. apply (Hs _ Hin).
Qed.

(** Faults and outputs of other processes *)
Lemma faults_keep_in_step payloads : keeps stays (_drain_external_fault_logs payloads).
Proof.
  induction payloads as [|payload rest IH]; intros p; [done|]. cbn [_drain_external_fault_logs]. destruct payload; try apply IH.
  destruct (negb _); [apply IH|]. pose proof (fun r => runtime_stays _ (fail_steady r)) as Hf.
  assert (keeps stays (_note_external_warning d)) as Hn.
  { intros q. unfold _note_external_warning. cbv zeta. destruct (_ || _); [done|]. apply runtime_stays, note_steady. }
  assert (keeps stays (modify (fun q : st => q <| ps_last_error_sent := true |>))) as Hm.
  { apply keeps_modify. intros q. apply view_stays. by destruct q. }
  destruct (_should_trigger_external_sequencer_fault d); by_parts.
Qed.
End process_facts.

(** ** A supply and its library *)
Module ProcessDemo.
#[local] Existing Instance plain_repr.
#[local] Existing Instance ScanDemo.turning.
#[local] Existing Instance RangesDemo.arith.
#[local] Existing Instance RangesDemo.syntax.
#[local] Existing Instance RangesDemo.spaces.
#[local] Existing Instance SequencerDemo.templates.
#[local] Existing Instance SequencerDemo.supply.
#[local] Existing Instance LibraryDemo.no_matches.
#[local] Existing Instance LibraryDemo.files.
#[local] Instance no_yaml : Yaml := {| yaml_load _ _ := inr PNone; yaml_compose _ := None |}.

(** The manager lists one supply. *)
Definition link (liveness : string) : SequencerLink Z := {|
  lk_call req w := (Some (if py_eqb (dget req "type") (PStr "device.list_status")
                          then [("result", PList [PDict [("device_id", PStr "psu"); ("liveness", PStr liveness)]])]
                          else [("ok", PBool true)]), w);
  lk_publish _ _ w := w; lk_time w := (0%Q, w); lk_files _ := LibraryDemo.files; lk_cwd _ := ""; lk_stderr _ w := w;
  lk_recursion := 3 |}.

Definition sequence_of (steps : list step) : sequence := mkSequence (mkSpec 1 [] [] steps) None None false None.
Definition switch_on (id : Z) : step := CallStep (mkHeader id false) "psu" "on" [] None None None None.
Definition guarded : sequence :=
  sequence_of [TryStep (mkHeader 1 false) [PauseStep (mkHeader 2 false) None; switch_on 3] [SequencerDemo.call 4 "off"]].
Definition other : sequence := sequence_of [RepeatStep (mkHeader 5 false) (PInt 2) [switch_on 6]].
Definition library : SequenceLibrary :=
  mkLibrary "library.yaml" "off" [("other", mkEntry "other" "other.yaml" "explicit" None None [] [] [] other "text")] [].

Definition empty : process Z :=
  mkProcess Z (new_runtime 0) "sequencer" None None None None None 0 None None (Some "library.yaml") None "off" (Some library) None [] 0 None None [] false false 0.
Definition ready : process Z := snd (_set_loaded_sequence guarded "guarded" "guarded.yaml" "path" None empty).
Lemma ready_in_step : in_step ready.
Proof. unfold in_step. by vm_compute. Qed.

Definition start_other : dict := [("type", PStr "sequencer.start"); ("params", PDict [("sequence_id", PStr "other")])].
Definition start_here : dict := [("type", PStr "sequencer.start")].
Definition offline : SequencerLink Z := link "OFFLINE".
Definition online : SequencerLink Z := link "ONLINE".

(** The supply is not there: another sequence of the library is not started,
    and the one that was loaded is loaded again. *)
Example refused : fst (_rpc_sequencer_start (HK := offline) start_other ready) =
  Ok (rpc_err (PDict start_other) "start_failed" (Some "devices not connected: psu (configured but OFFLINE)") []).
Proof. by vm_compute. Qed.

Definition offline_reply : dict :=
  rpc_err (PDict start_other) "start_failed" (Some "devices not connected: psu (configured but OFFLINE)") [].
Lemma refused_pair : exists p', _rpc_sequencer_start (HK := offline) start_other ready = (Ok offline_reply, p').
Proof.
  exists (snd (_rpc_sequencer_start (HK := offline) start_other ready)). unfold offline_reply. rewrite <- refused. apply surjective_pairing.
Qed.
Lemma offline_refused : dget offline_reply "ok" = PBool false.
Proof. reflexivity. Qed.
Lemma ready_loaded : ps_loaded_spec ready <> None.
Proof. by vm_compute. Qed.
Lemma ready_idle : rt_state (ps_runtime ready) <> RUNNING.
Proof. by vm_compute. Qed.

Lemma refused_start_restores_sequence_witness : exists p', _rpc_sequencer_start (HK := offline) start_other ready = (Ok offline_reply, p') /\
  loaded p' = loaded ready /\ rt_state (ps_runtime p') <> RUNNING.
Proof.
  destruct refused_pair as [p' E]. exists p'. split; [exact E|].
  destruct (refused_start_restores_sequence (HK := offline) start_other ready offline_reply p' ready_in_step E offline_refused)
    as [[Hl|[Hl _]] [_ Hs]]; [|destruct (ready_loaded Hl)].
  split; [exact Hl|]. intros Hr. pose proof ready_idle as Hi. rewrite Hr in Hs.
  destruct Hs as [Hs|[Hs|Hs]]; [by apply Hi|discriminate Hs..].
Defined.

Example accepted : fst (_rpc_sequencer_start (HK := online) start_here ready) = Ok (rpc_ok (PDict start_here) (PDict [("status", PStr "running")])).
Proof. by vm_compute. Qed.
Definition running_reply : dict := rpc_ok (PDict start_here) (PDict [("status", PStr "running")]).
Lemma accepted_pair : exists p', _rpc_sequencer_start (HK := online) start_here ready = (Ok running_reply, p').
Proof.
  exists (snd (_rpc_sequencer_start (HK := online) start_here ready)). unfold running_reply. rewrite <- accepted. apply surjective_pairing.
Qed.
Lemma online_accepted : dget running_reply "ok" = PBool true.
Proof. reflexivity. Qed.
Lemma started_run_checked_witness : exists p', _rpc_sequencer_start (HK := online) start_here ready = (Ok running_reply, p') /\
  rt_state (ps_runtime p') = RUNNING /\ rt_stack (ps_runtime p') <> [].
Proof.
  destruct accepted_pair as [p' E]. exists p'. split; [exact E|].
  destruct (started_run_checked (HK := online) start_here ready running_reply p' ready_in_step E online_accepted) 
    as (params & entry & p3 & p4 & sq & _ & _ & _ & _ & _ & _ & _ & Hs & Hk & _).
  split; [exact Hs|]. rewrite Hk. discriminate.
Defined.

(** A sequence that is loaded while a run is paused takes its place: what the
    run had still to clean up is forgotten. *)
Definition load_other : dict := [("type", PStr "sequencer.library.load"); ("params", PDict [("sequence_id", PStr "other")])].
Definition paused : process Z :=
  let p := snd (_rpc_sequencer_start (HK := online) start_here ready) in p <| ps_runtime := snd (SequencerDemo.after [OpTick 50] (ps_runtime p)) |>.
Definition reloaded : process Z := snd (_rpc_sequencer_library_load (HK := online) load_other paused).
Example paused_run_forgotten :
  rt_state (ps_runtime paused) = PAUSED /\ (step_id <$> cleanup (rt_stack (ps_runtime paused))) = [4] /\
  rt_state (ps_runtime reloaded) = IDLE /\ rt_stack (ps_runtime reloaded) = [].
Proof. by vm_compute. Qed.
End ProcessDemo.
