(* ===== verification/CommandRouting.v ===== *)
(** * Commands on their way to a driver

    [_manager/device_routing.py] (the [command], connect and disconnect
    routes) and [_manager/rpc_calls.py] (the exchange with a driver), with
    [connect_device] and its identity check of [manager.py].  A call waits for
    a socket: it takes fuel, one unit per poll, and gives [None] when it is
    not back yet; [RoutingTheorems] shows when there is fuel with which it is.

    Around it: the sockets and clocks ([RouterWorld]), the interceptor
    processes, the handlers of the subscriptions ([_manager/driver_pub.py] and
    the process ones) that are pumped while a call waits, the
    stream path of [_manager/driver_pub.py] and the mirrors of the federation
    hub are parameters. *)
From S2P Require Import Prelude PyVal PyNum Responses ProcessBase ManagedProcess DriverSupervision.
From S2P Require Import InterceptorRoutes CommandInterceptors Conditions ProcessLogs.
#[local] Open Scope Z_scope.

(** ** Calls that wait *)
Definition waitM (S A : Type) : Type := S -> option (result A * S).
#[export] Instance waitM_ret {S} : MRet (waitM S) := fun A a s => Some (Ok a, s).
#[export] Instance waitM_bind {S} : MBind (waitM S) := fun A B f m s =>
  match m s with
  | Some (Ok a, s') => f a s'
  | Some (Err e, s') => Some (Err e, s')
  | None => None
  end.
Definition at_once {S A} (m : pyM S A) : waitM S A := fun s => Some (m s).
Definition fails {S A} (e : pyexc) : waitM S A := at_once (raise e).
(** [try: ... except Exception as e: ...] *)
Definition except {S A} (m : waitM S A) (handler : pyexc -> waitM S A) : waitM S A := fun s =>
  match m s with
  | Some (Err e, s') => handler e s'
  | r => r
  end.

(** ** The state the routes work on *)
Record ConnectCheckSpec := mkCheck {
  cc_enabled : bool;
  cc_identity : dict;
  cc_on_fail : string
}.

(** A handle: what supervision keeps ([DriverSupervision]), its spec's
    identity check, and the fields of its RPC socket. *)
Record device := mkDevEntry {
  dv_handle : DeviceHandle;
  dv_connect_check : ConnectCheckSpec;
  dv_rpc_sock : bool;
  dv_rpc_fail_count : Z;
  dv_rpc_last_fail : option Q;
  dv_capabilities : pyval;
  dv_connect_check_last : option dict
}.
#[export] Instance dev_entry_eta : Eta device := fun d =>
  mkDevEntry (dv_handle d) (dv_connect_check d) (dv_rpc_sock d) (dv_rpc_fail_count d) (dv_rpc_last_fail d) (dv_capabilities d)
    (dv_connect_check_last d).

(** What leaves the manager: events, and requests to drivers. *)
Inductive outward :=
| Published (topic : string) (payload : dict)
| Sent (endpoint : string) (envelope : dict).

Record router {W : Type} := mkRouter {
  ro_devices : list (string * device);
  ro_routes : route_mgr;
  ro_rpc_seq : Z;
  ro_ingest_errors : Z;
  ro_out : list outward;
  ro_world : W
}.
Arguments router : clear implicits.
#[export] Instance router_eta {W} : Eta (router W) := fun s =>
  mkRouter W (ro_devices s) (ro_routes s) (ro_rpc_seq s) (ro_ingest_errors s) (ro_out s) (ro_world s).

(** The sockets the manager subscribes with *)
Inductive subscription := _sub | _process_hb_sub | _process_data_sub.

Class RouterWorld (W : Type) := {
  rw_wall : W -> Q * W;                                  (* time.time() *)
  rw_clock : W -> Q * W;                                 (* time.monotonic() *)
  rw_send : string -> dict -> W -> result unit * W;      (* json_dumps and send *)
  rw_poll : string -> Z -> W -> result bool * W;         (* poll(ms, POLLIN) *)
  rw_waiting : subscription -> W -> result bool * W;     (* poll(0, POLLIN) *)
  rw_recv : string -> W -> result pyval * W;             (* recv, parsed; [None] if it does not parse *)
  rw_json : pyval -> option string                       (* json.dumps; [None] if it raises *)
}.

(** ** Texts and replies *)
Definition unhashable (v : pyval) : bool := match v with PList _ | PDict _ => true | _ => false end.
Definition hash_error : pyexc := TypeError "unhashable type".

Definition _effective_status_ok (resp : dict) : result (option bool) :=
  let status := dget resp "status" in
  if unhashable status then Err hash_error
  else if py_eqb status (PStr "OK") then Ok (Some true)
  else if py_eqb status (PStr "ERROR") then Ok (Some false)
  else if dhas resp "ok" then Ok (Some (match dget resp "ok" with PBool true => true | _ => false end))
  else Ok None.

(** [type(v).__name__] *)
Definition class_name (v : pyval) : string :=
  match v with
  | PNone => "NoneType" | PBool _ => "bool" | PInt _ => "int" | PFloat _ => "float" | PStr _ => "str"
  | PList _ => "list" | PDict _ => "dict"
  end.

Section texts.
Context `{HR : !PyRepr}.

Definition py_repr (v : pyval) : string := match v with PStr s => repr_str s | _ => py_str v end.

Definition _rpc_failure (code : string) (message : option string) (details : pyval) : dict :=
  response_to_dict (failure code message details PNone false).

Definition _unknown_device_response (device_id : string) : dict :=
  _rpc_failure "unknown_device" (Some ("Unknown device_id " +:+ repr_str device_id)) PNone.

(** [str(v or "").strip()] *)
Definition stripped_text (v : pyval) : string := strip (py_str (py_or v (PStr ""))).

Definition _normalize_command_source (source_kind source_id caller_process_id : pyval) : string * option string :=
  let kind := lower (stripped_text source_kind) in
  let source := stripped_text source_id in
  let caller := stripped_text caller_process_id in
  let '(kind, source) :=
    if nonempty kind then (kind, source)
    else if nonempty caller then ("process", if nonempty source then source else caller)
    else ("manager", if nonempty source then source else "rpc") in
  let source := if negb (nonempty source) && String.eqb kind "process" && nonempty caller then caller else source in
  (kind, if nonempty source then Some source else None).

Definition _device_rpc_status_ok (resp : dict) : bool :=
  let by_ok := match dget resp "ok" with PBool b => b | _ => false end in
  match dget resp "status" with
  | PStr status =>
      if String.eqb (upper (strip status)) "OK" then true
      else if String.eqb (upper (strip status)) "ERROR" then false
      else by_ok
  | _ => by_ok
  end.

Definition nonblank (v : pyval) : option string := match v with PStr s => or_none (strip s) | _ => None end.

Definition _device_rpc_error_text (resp : dict) : string :=
  match nonblank (dget resp "error") with
  | Some text => text
  | None =>
      match dget resp "error" with
      | PDict err =>
          match nonblank (dget err "message"), nonblank (dget err "code") with
          | Some text, _ => text
          | None, Some text => text
          | None, None => "device rpc error"
          end
      | _ => "device rpc error"
      end
  end.

(** [yield]s in order: descriptors, or the descriptors a map of streams holds *)
Fixpoint _iter_stream_result_descriptors (result : pyval) : list pyval :=
  match result with
  | PList l => (fix go l := match l with [] => [] | x :: r => _iter_stream_result_descriptors x ++ go r end) l
  | PDict d =>
      if truthy (dget d "shm_name") then [PDict d]
      else filter (fun v => match v with PDict e => truthy (dget e "shm_name") | _ => false end = true) (snd <$> d)
  | _ => []
  end.
End texts.

Section routing.
Context `{HR : !PyRepr} {W : Type} `{HW : !RouterWorld W}.
#[local] Abbreviation st := (router W).
Context (available : string -> st -> bool) (ask : string -> pyval -> st -> CallResult * st).
(** Whether this is the manager's main thread; [_handle_driver_pub],
    [_handle_process_pub] and [_handle_process_data_pub]; the chunk path of
    [driver_pub.py] *)
Context (main_thread : bool) (handle_pub : subscription -> pyM st unit) (ingest_chunk : pyval -> pyM st unit).
(** [is_mirrored_device] of the federation hub *)
Context (mirrored : string -> bool).
Context (device_rpc_timeout_ms : Z) (heartbeat_timeout_s : Q).

Definition in_world {A} (f : W -> result A * W) : pyM st A := fun s =>
  let '(r, w) := f (ro_world s) in (r, s <| ro_world := w |>).
Definition monotonic : pyM st Q := in_world (fun w => let '(t, w) := rw_clock w in (Ok t, w)).
Definition wall : pyM st Q := in_world (fun w => let '(t, w) := rw_wall w in (Ok t, w)).
Definition out (e : outward) : pyM st unit := modify (fun s => s <| ro_out := ro_out s ++ [e] |>).
Definition _publish_manager_event (topic : string) (payload : dict) : pyM st unit := out (Published topic payload).

(** [{"t_wall": time.time(), "t_mono": time.monotonic()}] *)
Definition stamp : pyM st pyval :=
  w ← wall; m ← monotonic; mret (PDict [("t_wall", PFloat (FFin w)); ("t_mono", PFloat (FFin m))]).

Definition on_device (device_id : string) (f : device -> device) : pyM st unit := modify (fun s =>
  match od_get (ro_devices s) device_id with
  | Some d => s <| ro_devices := od_set (ro_devices s) device_id (f d) |>
  | None => s
  end).

Definition _safe_json (value : pyval) : string :=
  let text := default (py_str value) (rw_json value) in
  if (4000 <? String.length text)%nat then String.substring 0 4000 text +:+ "...(truncated)" else text.

Definition _device_heartbeat_age_s (h : DeviceHandle) (now_mono : Q) : option Q :=
  let from_current_run := match d_last_hb_recv_mono h, driver_running_since_mono h with
                          | Some hb, Some since => Qle_bool since hb
                          | Some _, None => true
                          | None, _ => false
                          end in
  let ref := if from_current_run then d_last_hb_recv_mono h else driver_running_since_mono h in
  (fun r => fmax 0 (now_mono - r)) <$> ref.

(** ** The exchange with a driver *)
Definition send_to (endpoint : string) (request : dict) : pyM st unit := fun s =>
  match rw_send endpoint request (ro_world s) with
  | (Ok _, w) => out (Sent endpoint request) (s <| ro_world := w |>)
  | (Err e, w) => (Err e, s <| ro_world := w |>)
  end.

(** [while sub.poll(0): handle()] *)
Fixpoint drain (fuel : nat) (sub : subscription) : waitM st unit :=
  match fuel with
  | O => fun _ => None
  | S fuel =>
      waiting ← at_once (in_world (rw_waiting sub));
      if negb waiting then mret tt else (_ ← at_once (handle_pub sub); drain fuel sub)
  end.

Definition _pump_manager_subscriptions (fuel : nat) : waitM st unit :=
  if negb main_thread then mret tt
  else _ ← drain fuel _sub; _ ← drain fuel _process_hb_sub; drain fuel _process_data_sub.

Fixpoint wait_reply (fuel : nat) (endpoint : string) (deadline : Q) (response_filter : dict -> bool) : waitM st dict :=
  match fuel with
  | O => fun _ => None
  | S fuel =>
      t ← at_once monotonic;
      let remaining := (deadline - t)%Q in
      if Qle_bool remaining 0 then fails ZmqAgain
      else
        let step_ms := Qround.Qfloor (fmin 50 (fmax 1 (remaining * 1000))) in
        ready ← at_once (in_world (rw_poll endpoint step_ms));
        if negb ready then (_ ← _pump_manager_subscriptions fuel; wait_reply fuel endpoint deadline response_filter)
        else
          v ← at_once (in_world (rw_recv endpoint));
          match v with
          | PDict resp => if response_filter resp then mret resp else wait_reply fuel endpoint deadline response_filter
          | _ => fails (TypeError "JSON message must be an object")
          end
  end.

Definition _blocking_call_with_pump (fuel : nat) (endpoint : string) (request : dict) (timeout_ms : Z)
    (response_filter : dict -> bool) : waitM st dict :=
  _ ← at_once (send_to endpoint request);
  t ← at_once monotonic;
  wait_reply fuel endpoint (t + inject_Z timeout_ms / 1000)%Q response_filter.

Definition _build_manager_command_payload (device_id action : string) (params : pyval) (ok : option bool)
    (status error result : pyval) (source_kind : string) (source_id : option string) (is_remote_target : bool)
    (request_id : pyval) (caller_process_id : option string) : pyM st dict :=
  ts ← stamp;
  let payload :=
    [("version", PInt 1); ("device_id", PStr device_id); ("action", PStr action); ("params_json", PStr (_safe_json params));
     ("ok", from_option PBool PNone ok); ("status", status); ("error", error); ("result_json", PStr (_safe_json result));
     ("source_kind", PStr source_kind); ("source_id", opt_str source_id); ("is_remote_target", PBool is_remote_target);
     ("ts", ts)] in
  let payload := if is_none request_id then payload else od_set payload "request_id" request_id in
  mret (match caller_process_id with Some c => od_set payload "caller_process_id" (PStr c) | None => payload end).

Definition _close_device_rpc (d : device) : device :=
  if dv_rpc_sock d then d <| dv_rpc_sock := false |> <| dv_rpc_fail_count := 0 |> <| dv_rpc_last_fail := None |> else d.

Definition _note_stream_rpc_ingest_error (device_id action error : string) (raw : pyval) : pyM st unit :=
  _ ← modify (fun s : st => s <| ro_ingest_errors := ro_ingest_errors s + 1 |>);
  _publish_manager_event "manager.chunk_error"
    [("device_id", PStr device_id); ("action", PStr action); ("error", PStr error); ("raw", raw)].

Fixpoint ingest_all (device_id action : string) (descriptors : list pyval) : pyM st unit :=
  match descriptors with
  | [] => mret tt
  | raw :: rest => fun s =>
      let '(r, s) := ingest_chunk raw s in
      match r with
      | Ok _ => ingest_all device_id action rest s
      | Err e =>
          (_ ← _note_stream_rpc_ingest_error device_id action ("stream RPC result chunk ingest failed: " +:+ exc_str e) raw;
           ingest_all device_id action rest) s
      end
  end.

Definition nothing (v : pyval) : bool :=
  py_eqb v PNone || py_eqb v (PStr "") || py_eqb v (PList []) || py_eqb v (PDict []).

Definition _ingest_stream_rpc_result (device_id action : string) (result : pyval) : pyM st unit :=
  let found := _iter_stream_result_descriptors result in
  _ ← ingest_all device_id action found;
  match found with
  | [] => if nothing result then mret tt
          else _note_stream_rpc_ingest_error device_id action "stream RPC result carried no chunk descriptor" result
  | _ => mret tt
  end.

Definition is_true_ok (o : option bool) : bool := match o with Some true => true | _ => false end.

(** What follows a reply: it is told, and capabilities and frames are taken over. *)
Definition take_reply (device_id action : string) (resp : dict) : pyM st dict :=
  ok ← lift (_effective_status_ok resp);
  _ ← (match dget resp "result" with
       | PDict result =>
           if is_true_ok ok && String.eqb action "capabilities"
           then on_device device_id (fun d => d <| dv_capabilities := PDict result |>) else mret tt
       | _ => mret tt
       end);
  _ ← (if is_true_ok ok && startswith action "stream__"
       then _ingest_stream_rpc_result device_id action (dget resp "result") else mret tt);
  mret resp.

(** The [try] of a call: the next request number, the exchange, the counters. *)
Definition numbered_exchange (fuel : nat) (device_id endpoint action : string) (params : pyval) (timeout_ms : Z) : waitM st dict :=
  _ ← at_once (modify (fun s : st => s <| ro_rpc_seq := ro_rpc_seq s + 1 |>));
  seq ← at_once (gets ro_rpc_seq);
  resp ← _blocking_call_with_pump fuel endpoint [("id", PInt seq); ("action", PStr action); ("params", params)] timeout_ms (fun _ => true);
  _ ← at_once (on_device device_id (fun d => d <| dv_rpc_fail_count := 0 |> <| dv_rpc_last_fail := None |>));
  mret resp.

Definition count_failure (t : Q) (d : device) : device :=
  let d := d <| dv_rpc_fail_count := dv_rpc_fail_count d + 1 |> <| dv_rpc_last_fail := Some t |> in
  if 2 <=? dv_rpc_fail_count d then _close_device_rpc d else d.

(** Its [except] *)
Definition failed_call (device_id : string) (payload : option bool -> pyval -> pyval -> pyval -> pyM st dict) (e : pyexc) : pyM st dict :=
  t ← monotonic;
  _ ← on_device device_id (count_failure t);
  told ← payload (Some false) PNone (PStr (exc_str e)) (PStr "");
  _ ← _publish_manager_event "manager.command" told;
  raise e.

Definition answered_call (device_id action : string) (payload : option bool -> pyval -> pyval -> pyval -> pyM st dict) (resp : dict)
    : pyM st dict :=
  ok ← lift (_effective_status_ok resp);
  told ← payload ok (dget resp "status") (dget resp "error") (dget resp "result");
  _ ← _publish_manager_event "manager.command" told;
  take_reply device_id action resp.

Definition _call_device_rpc (fuel : nat) (device_id action : string) (params : pyval) (timeout_ms : option Z)
    (request_id caller_process_id source_kind source_id : pyval) (is_remote_target : bool) : waitM st dict := fun s =>
  match od_get (ro_devices s) device_id ≫= (fun d => d_rpc_endpoint (dv_handle d)) with
  | None => fails (RuntimeError ("Device " +:+ repr_str device_id +:+ " is not registered")) s
  | Some endpoint =>
      let caller_text := normalize_id caller_process_id in
      let '(kind_text, source_text) := _normalize_command_source source_kind source_id (opt_str caller_text) in
      let payload ok status error result :=
        _build_manager_command_payload device_id action params ok status error result kind_text source_text
          is_remote_target request_id caller_text in
      (_ ← at_once (on_device device_id (fun d => d <| dv_rpc_sock := true |>));
       resp ← except (numbered_exchange fuel device_id endpoint action params (default device_rpc_timeout_ms timeout_ms))
                (fun e => at_once (failed_call device_id payload e));
       at_once (answered_call device_id action payload resp)) s
  end.

(** ** Routes *)
Inductive resolved := Local (device_id : string) (d : device) | Answer (resp : dict).

Definition required_text (req : dict) (key : string) : result string :=
  match od_get req key with Some v => Ok (py_str v) | None => Err (KeyError key) end.

Definition _forward_device_request (req : dict) : option dict :=
  let device_id := py_str (dget_or req "device_id" (PStr "")) in
  if negb (mirrored device_id) then None
  else Some [("ok", PBool false);
             ("error", PDict [("code", PStr "federation_forward_not_dispatched");
                              ("message", PStr ("mirrored device " +:+ repr_str device_id +:+
                                 " request reached route_device_request without going through the federation forward dispatch" +:+
                                 " -- this is an internal routing bug"))])].

Definition _resolve_local_device (req : dict) : pyM st resolved := fun s =>
  match required_text req "device_id" with
  | Err e => (Err e, s)
  | Ok device_id =>
      (Ok (match od_get (ro_devices s) device_id with
           | Some d => Local device_id d
           | None => match _forward_device_request req with
                     | Some resp => Answer resp
                     | None => Answer (_unknown_device_response device_id)
                     end
           end), s)
  end.

(** The chain runs on the manager itself: waiting for an interceptor pumps
    the subscriptions. *)
Definition interceptor_event (e : ievent) : list outward :=
  match e with IPublish topic (PDict payload) => [Published topic payload] | _ => [] end.

Definition _apply_command_interceptors (cmd : dict) (request_id caller_process_id : pyval)
    : pyM st (bool * option dict * option pyval) := fun s =>
  let m := snd (interceptor_chain (py_str (dget_or cmd "device_id" (PStr ""))) (py_str (dget_or cmd "action" (PStr ""))) (ro_routes s)) in
  let '(r, t, _) := apply_command_interceptors available ask (fun s : st => fst (rw_clock (ro_world s))) cmd request_id
                      caller_process_id (ro_routes s) (mkIst (s <| ro_routes := m |>) []) in
  (r, iw t <| ro_out := ro_out (iw t) ++ (ilog t ≫= interceptor_event) |>).

Definition rejection (err : option pyval) : dict :=
  let details := match err with Some (PDict d) => PDict d | _ => PNone end in
  let message := match err with
                 | Some (PDict d) => if is_none (dget d "message") then Some (py_str (PDict d)) else Some (py_str (dget d "message"))
                 | Some e => if is_none e then None else Some (py_str e)
                 | None => None
                 end in
  _rpc_failure "command_interceptor_rejected" message details.

Definition not_running : dict := _rpc_failure "driver_not_running" (Some "driver not running") PNone.

(** Whether capabilities have to come from the cache *)
Definition capabilities_unavailable (d : device) (driver_unavailable : bool) : pyM st bool :=
  now_mono ← monotonic;
  let stale := match _device_heartbeat_age_s (dv_handle d) now_mono with
               | Some age => Qltb heartbeat_timeout_s age
               | None => false
               end in
  mret (driver_unavailable || negb (bool_decide (driver_process_state (dv_handle d) = RUNNING)) || stale).

Definition cached_capabilities (d : device) (device_id : string) (params request_id caller_process_id : pyval)
    (source_kind : string) (source_id : option string) : pyM st dict :=
  match dv_capabilities d with
  | PDict cached =>
      told ← _build_manager_command_payload device_id "capabilities" params (Some true) (PStr "OK") PNone (PDict cached)
               source_kind source_id false request_id (normalize_id caller_process_id);
      _ ← _publish_manager_event "manager.command" told;
      mret [("status", PStr "OK"); ("result", PDict cached)]
  | _ => mret (_rpc_failure "driver_not_running" (Some "driver not available for capabilities") PNone)
  end.

(** The handle is an object: what became of it while the chain ran is seen. *)
Definition current (device_id : string) (d : device) : pyM st device :=
  gets (fun s => default d (od_get (ro_devices s) device_id)).

Definition forward_command (fuel : nat) (device_id action : string) (params request_id caller_process_id : pyval)
    (source_kind : string) (source_id : option string) (driver_unavailable capabilities_unavailable : bool) (d : device)
    (new_cmd : dict) : waitM st dict :=
  let target_device_id := py_str (dget_or new_cmd "device_id" (PStr device_id)) in
  let target_action := py_str (dget_or new_cmd "action" (PStr action)) in
  let target_params := dget_or new_cmd "params" params in
  let same := String.eqb target_device_id device_id in
  if capabilities_unavailable && same && String.eqb target_action "capabilities" then
    d ← at_once (current device_id d);
    at_once (cached_capabilities d device_id target_params request_id caller_process_id source_kind source_id)
  else if same && (driver_unavailable || capabilities_unavailable) then mret not_running
  else _call_device_rpc fuel target_device_id target_action target_params None request_id caller_process_id
         (PStr source_kind) (opt_str source_id) false.

Definition command_past_chain (fuel : nat) (device_id action : string) (params request_id caller_process_id : pyval)
    (source_kind : string) (source_id : option string) (driver_unavailable capabilities_unavailable : bool) (d : device)
    : waitM st dict :=
  verdict ← at_once (_apply_command_interceptors
    [("device_id", PStr device_id); ("action", PStr action); ("params", params)] request_id caller_process_id);
  match verdict with
  | (false, _, err) => mret (rejection err)
  | (true, None, _) => mret (_rpc_failure "command_blocked" (Some "command blocked") PNone)
  | (true, Some new_cmd, _) =>
      forward_command fuel device_id action params request_id caller_process_id source_kind source_id
        driver_unavailable capabilities_unavailable d new_cmd
  end.

Definition _route_command (fuel : nat) (req : dict) : waitM st dict :=
  device_id ← at_once (lift (required_text req "device_id"));
  action ← at_once (lift (required_text req "action"));
  let params := dget_or req "params" (PDict []) in
  let request_id := dget req "request_id" in
  let caller_process_id := dget req "caller_process_id" in
  let '(source_kind, source_id) := _normalize_command_source (dget req "source_kind") (dget req "source_id") caller_process_id in
  if negb (is_dict params) then fails (TypeError "params must be a dict")
  else
    target ← at_once (_resolve_local_device req);
    match target with
    | Answer resp => mret resp
    | Local _ d =>
        let driver_unavailable := driver_is_stopped (dv_handle d) || negb (bool_decide (is_Some (d_rpc_endpoint (dv_handle d)))) in
        if String.eqb action "capabilities" then
          cached ← at_once (capabilities_unavailable d driver_unavailable);
          command_past_chain fuel device_id action params request_id caller_process_id source_kind source_id driver_unavailable cached d
        else if driver_unavailable then mret not_running
        else command_past_chain fuel device_id action params request_id caller_process_id source_kind source_id driver_unavailable false d
    end.

(** ** Connecting a device *)
Definition _require_running_driver (device_id : string) : pyM st device := fun s =>
  match od_get (ro_devices s) device_id with
  | None => (Err (RuntimeError ("Device " +:+ repr_str device_id +:+ " is not configured")), s)
  | Some d =>
      if driver_is_stopped (dv_handle d)
      then (Err (RuntimeError ("Driver process for " +:+ repr_str device_id +:+ " is not running")), s)
      else (Ok d, s)
  end.

Definition plain_call (fuel : nat) (device_id action : string) : waitM st dict :=
  _call_device_rpc fuel device_id action (PDict []) None PNone PNone PNone PNone false.

Definition _connect_check_failed_response (fuel : nat) (device_id : string) (d : device) (message : string) (details : dict)
    : waitM st dict :=
  let spec_id := ds_device_id (d_spec (dv_handle d)) in
  now ← at_once stamp;
  _ ← at_once (_publish_manager_event "manager.connect_check.failed"
        [("device_id", PStr spec_id); ("message", PStr message); ("details", PDict details); ("ts", now)]);
  _ ← at_once (on_device device_id (fun d => d <| dv_connect_check_last :=
        Some [("ok", PBool false); ("checked_at", now); ("message", PStr message); ("details", PDict details)] |>));
  _ ← (if String.eqb (cc_on_fail (dv_connect_check d)) "keep_connected" then mret tt
       else except (_ ← plain_call fuel spec_id "disconnect_device"; mret tt) (fun _ => mret tt));
  mret [("status", PStr "ERROR"); ("error", PStr message); ("error_code", PStr "connect_check_failed");
        ("error_details", PDict details)].

(** The fields of the identity that are not as expected *)
Definition mismatches (expected identity : dict) : list (string * pyval * pyval) :=
  omap (fun '(field, value) => if py_eqb (dget identity field) value then None else Some (field, value, dget identity field)) expected.
Definition mismatch_json (m : string * pyval * pyval) : pyval :=
  let '(field, expected, actual) := m in PDict [("field", PStr field); ("expected", expected); ("actual", actual)].

Definition connected_reply (already_connected : bool) (connect_resp : dict) : dict :=
  if already_connected then [("status", PStr "OK"); ("result", PNone); ("already_connected", PBool true)] else connect_resp.

Definition check_identity (fuel : nat) (device_id : string) (d : device) (reply : dict) : waitM st dict :=
  let check := dv_connect_check d in
  identity_resp ← plain_call fuel device_id "identity";
  if negb (_device_rpc_status_ok identity_resp) then
    _connect_check_failed_response fuel device_id d
      ("connect_check failed: identity RPC failed: " +:+ _device_rpc_error_text identity_resp)
      [("device_id", PStr device_id); ("identity_error", dget identity_resp "error")]
  else
    match dget identity_resp "result" with
    | PDict identity =>
        match mismatches (cc_identity check) identity with
        | (field, expected, actual) :: _ as checks =>
            _connect_check_failed_response fuel device_id d
              ("connect_check failed for " +:+ device_id +:+ ": identity." +:+ field +:+ " expected " +:+ py_repr expected
                 +:+ ", got " +:+ py_repr actual)
              [("device_id", PStr device_id); ("checks", PList (mismatch_json <$> checks)); ("identity", PDict identity)]
        | [] => at_once (
            now ← stamp;
            _ ← on_device device_id (fun d => d <| dv_connect_check_last :=
                  Some [("ok", PBool true); ("checked_at", now); ("message", PStr "identity check passed");
                        ("details", PDict [("expected", PDict (cc_identity check)); ("identity", PDict identity)])] |>);
            now ← stamp;
            _ ← _publish_manager_event "manager.connect_check.passed"
                  [("device_id", PStr device_id); ("expected", PDict (cc_identity check)); ("identity", PDict identity); ("ts", now)];
            mret reply)
        end
    | v => _connect_check_failed_response fuel device_id d "connect_check failed: identity RPC must return an object/dict"
             [("device_id", PStr device_id); ("actual_type", PStr (class_name v))]
    end.

Definition says_already_connected (resp : dict) : bool :=
  String.eqb (lower (stripped_text (dget resp "error_code"))) "already_connected" ||
  (0 <? py_count "already connected" (lower (_device_rpc_error_text resp))).

Definition connect_device (fuel : nat) (device_id : string) : waitM st dict :=
  d ← at_once (_require_running_driver device_id);
  connect_resp ← plain_call fuel device_id "connect_device";
  let ok := _device_rpc_status_ok connect_resp in
  if negb ok && negb (says_already_connected connect_resp) then at_once (
    now ← stamp;
    _ ← on_device device_id (fun d => d <| dv_connect_check_last :=
          Some [("ok", PBool false); ("checked_at", now);
                ("message", PStr ("connect RPC failed: " +:+ _device_rpc_error_text connect_resp))] |>);
    mret connect_resp)
  else
    let reply := connected_reply (negb ok) connect_resp in
    if negb (cc_enabled (dv_connect_check d)) then at_once (
      _ ← on_device device_id (fun d => d <| dv_connect_check_last := None |>); mret reply)
    else check_identity fuel device_id d reply.

Definition disconnect_device (fuel : nat) (device_id : string) : waitM st dict :=
  _ ← at_once (_require_running_driver device_id); plain_call fuel device_id "disconnect_device".

Definition told_device (topic device_id : string) (resp : dict) : waitM st unit := at_once (
  ts ← stamp; _publish_manager_event topic [("device_id", PStr device_id); ("response", PDict resp); ("ts", ts)]).

Definition _route_device_connect (fuel : nat) (req : dict) : waitM st dict :=
  target ← at_once (_resolve_local_device req);
  match target with
  | Answer resp => mret resp
  | Local device_id _ =>
      resp ← connect_device fuel device_id;
      _ ← told_device "manager.device.connect_sent" device_id resp;
      mret (if _device_rpc_status_ok resp then [("ok", PBool true); ("result", PDict resp)]
            else response_to_dict (failure (py_str (py_or (dget resp "error_code") (PStr "device_error")))
                   (Some (_device_rpc_error_text resp))
                   (match dget resp "error_details" with PDict details => PDict details | _ => PNone end) (PDict resp) true))
  end.

Definition _route_device_disconnect (fuel : nat) (req : dict) : waitM st dict :=
  target ← at_once (_resolve_local_device req);
  match target with
  | Answer resp => mret resp
  | Local device_id _ =>
      resp ← disconnect_device fuel device_id;
      _ ← told_device "manager.device.disconnect_sent" device_id resp;
      mret [("ok", PBool true); ("result", PDict resp)]
  end.

(** The routes of this file; the others of the table are [others]. *)
Definition route_device_request (fuel : nat) (others : list (string * (dict -> waitM st dict))) (rtype : pyval) (req : dict)
    : option (waitM st dict) :=
  (fun handler : dict -> waitM st dict => handler req) <$>
    od_get (("command", _route_command fuel) :: ("device.connect", _route_device_connect fuel) ::
            ("device.disconnect", _route_device_disconnect fuel) :: others) (py_str rtype).
End routing.
