(* ===== verification/RoutingTheorems.v ===== *)
(** * What reaches a driver, and that a call comes back

    The properties of [CommandRouting]: a command is sent only past the whole
    interceptor chain and is told once; an exchange ends by its deadline; a
    device counts as connected only with the identity it should have. *)
From S2P Require Import Prelude PyVal PyNum Responses ProcessBase ManagedProcess DriverSupervision DriverTheorems.
From S2P Require Import InterceptorRoutes CommandInterceptors InterceptorTheorems Conditions ProcessLogs CommandRouting.
#[local] Open Scope Z_scope.

(** ** What the outside sees of a router *)
Section views.
Context {W : Type}.
#[local] Abbreviation st := (router W).

Definition sent (s : st) : list (string * dict) :=
  omap (fun e => match e with Sent endpoint envelope => Some (endpoint, envelope) | _ => None end) (ro_out s).
(** The [manager.command] events: one per journalled command *)
Definition told (s : st) : list dict :=
  omap (fun e => match e with Published topic payload => if String.eqb topic "manager.command" then Some payload else None
                            | _ => None end) (ro_out s).
Definition endpoints (s : st) : list (string * option string) := prod_map id (fun d => d_rpc_endpoint (dv_handle d)) <$> ro_devices s.
Definition view (s : st) := (sent s, told s, endpoints s).
Definition quiet {A} (m : pyM st A) : Prop := forall s, view (snd (m s)) = view s.

Lemma view_out s s' : ro_out s' = ro_out s -> ro_devices s' = ro_devices s -> view s' = view s.
Proof. unfold view, sent, told, endpoints. by intros -> ->. Qed.
Lemma od_get_prod_map {A B} (f : A -> B) (l : list (string * A)) k : od_get (prod_map id f <$> l) k = f <$> od_get l k.
Proof. induction l as [|[k' a] l IH]; [done|]. cbn. by destruct (decide _). Qed.
Lemma od_set_prod_map {A B} (f : A -> B) (l : list (string * A)) k a a' :
  od_get l k = Some a -> f a' = f a -> prod_map id f <$> od_set l k a' = prod_map id f <$> l.
Proof.
  intros E Ha. induction l as [|[k' x] l IH]; [done|]. cbn in *. destruct (decide _) as [->|Hn].
  - injection E as ->. cbn. by rewrite Ha.
  - cbn. by rewrite IH.
Qed.

Lemma endpoint_of s s' id : endpoints s' = endpoints s ->
  (od_get (ro_devices s') id ≫= fun d => d_rpc_endpoint (dv_handle d)) = (od_get (ro_devices s) id ≫= fun d => d_rpc_endpoint (dv_handle d)).
Proof.
  unfold endpoints. intros E. pose proof (f_equal (fun l => od_get l id) E) as H. cbv beta in H. rewrite !od_get_prod_map in H.
  destruct (od_get (ro_devices s') id), (od_get (ro_devices s) id); cbn in *; congruence.
Qed.

Lemma quiet_modify f : (forall s, view (f s) = view s) -> quiet (modify f).
Proof. intros H s. apply H. Qed.
Lemma quiet_ret {A} (a : A) : quiet (mret a).
Proof. by intros s. Qed.
Lemma quiet_lift {A} (r : result A) : quiet (lift r).
Proof. by intros s. Qed.
Lemma quiet_bind {A B} (m : pyM st A) (f : A -> pyM st B) : quiet m -> (forall a, quiet (f a)) -> quiet (m ≫= f).
Proof.
  intros Hm Hf s. unfold mbind, pyM_bind. specialize (Hm s). destruct (m s) as [[a|e] s1]; cbn in *; [|done]. by rewrite (Hf a s1).
Qed.
Lemma quiet_device id f : (forall d, dv_handle (f d) = dv_handle d) -> quiet (on_device (W := W) id f).
Proof.
  intros Hf. apply quiet_modify. intros s. destruct (od_get (ro_devices s) id) as [d|] eqn:E; [|done]. unfold view. f_equal.
  unfold endpoints. cbn. eapply od_set_prod_map; [done|]. cbn. by rewrite Hf.
Qed.
Lemma quiet_publish topic payload : topic <> "manager.command" -> quiet (_publish_manager_event (W := W) topic payload).
Proof.
  intros Ht. apply quiet_modify. intros s. unfold view, sent, told, endpoints. cbn. rewrite !omap_app. cbn.
  apply String.eqb_neq in Ht. rewrite Ht. by rewrite !app_nil_r.
Qed.
Lemma told_command payload s0 s : view s = view s0 -> view (snd (_publish_manager_event (W := W) "manager.command" payload s)) =
  (sent s0, told s0 ++ [payload], endpoints s0).
Proof. intros [= H1 H2 H3]. rewrite <- H1, <- H2, <- H3. unfold view, sent, told, endpoints. cbn. rewrite !omap_app. cbn. by rewrite app_nil_r. Qed.
End views.

Section facts.
Context `{HR : !PyRepr} {W : Type} `{HW : !RouterWorld W}.
#[local] Abbreviation st := (router W).

Lemma quiet_in_world {A} (f : W -> result A * W) : quiet (in_world f).
Proof. intros s. unfold in_world. destruct (f (ro_world s)). by apply view_out. Qed.
Lemma quiet_monotonic : quiet (W := W) monotonic.
Proof. apply quiet_in_world. Qed.
Lemma quiet_stamp : quiet (W := W) stamp.
Proof. apply quiet_bind; [apply quiet_in_world|]. intros w. apply quiet_bind; [apply quiet_in_world|]. intros m. apply quiet_ret. Qed.

Lemma stamp_ok (s : st) : exists v, fst (stamp s) = Ok v.
Proof. unfold stamp, wall, monotonic, in_world, mbind, pyM_bind. repeat case_match; simplify_eq; by eexists. Qed.
Lemma monotonic_ok (s : st) : exists t, fst (monotonic s) = Ok t.
Proof. unfold monotonic, in_world. destruct (rw_clock _) as [t w]. by exists t. Qed.

(** A payload names its command, and is made without anyone noticing. *)
Definition names (device_id action : string) (params : pyval) (payload : dict) : Prop :=
  dget payload "device_id" = PStr device_id /\ dget payload "action" = PStr action /\
  dget payload "params_json" = PStr (_safe_json params).

Lemma payload_made device_id action params ok status error result kind source remote rid caller (s : st) :
  exists payload s', _build_manager_command_payload device_id action params ok status error result kind source remote rid caller s
    = (Ok payload, s') /\ view s' = view s /\ names device_id action params payload.
Proof.
  unfold _build_manager_command_payload, mbind, pyM_bind. pose proof (quiet_stamp s) as Hq. destruct (stamp_ok s) as [ts Ets].
  destruct (stamp s) as [r s1]. cbn in *. subst r. eexists _, s1. split; [reflexivity|]. split; [done|].
  unfold names, dget. destruct (is_none rid), caller as [c|]; by rewrite ?od_get_set_ne by done.
Qed.
End facts.

Section calls.
Context `{HR : !PyRepr} {W : Type} `{HW : !RouterWorld W}.
#[local] Abbreviation st := (router W).
Context (main_thread : bool) (handle_pub : subscription -> pyM st unit) (ingest_chunk : pyval -> pyM st unit) (device_rpc_timeout_ms : Z).
(** Pumped subscriptions and ingested frames neither command drivers nor move their endpoints. *)
Context (Hpump : forall sub, quiet (handle_pub sub)) (Hingest : forall raw, quiet (ingest_chunk raw)).
#[local] Abbreviation call := (_call_device_rpc main_thread handle_pub ingest_chunk device_rpc_timeout_ms).

Lemma drain_quiet fuel sub s r s' : drain handle_pub fuel sub s = Some (r, s') -> view s' = view s.
Proof.
  revert s. induction fuel as [|fuel IH]; intros s; [done|]. cbn [drain]. unfold mbind, waitM_bind, at_once.
  pose proof (quiet_in_world (rw_waiting sub) s) as H1. destruct (in_world _ s) as [[[]|e] s1]; cbn [snd negb] in *;
    [|by intros [= _ <-]..].
  specialize (Hpump sub s1). destruct (handle_pub sub s1) as [[[]|e] s2]; cbn [snd] in *; [|intros [= _ <-]; congruence].
  intros E%IH. congruence.
Qed.
Lemma pump_quiet fuel s r s' : _pump_manager_subscriptions main_thread handle_pub fuel s = Some (r, s') -> view s' = view s.
Proof.
  unfold _pump_manager_subscriptions. destruct main_thread; cbn [negb]; [|by intros [= _ <-]]. unfold mbind, waitM_bind.
  destruct (drain _ _ _sub s) as [[[[]|e] s1]|] eqn:E1; [| |done]; apply drain_quiet in E1; [|by intros [= _ <-]].
  destruct (drain _ _ _process_hb_sub s1) as [[[[]|e] s2]|] eqn:E2; [| |done]; apply drain_quiet in E2; [|intros [= _ <-]; congruence].
  intros E3%drain_quiet. congruence.
Qed.

Lemma wait_quiet fuel ep deadline accepts s r s' : wait_reply main_thread handle_pub fuel ep deadline accepts s = Some (r, s') -> view s' = view s.
Proof.
  revert s. induction fuel as [|fuel IH]; intros s; [done|]. cbn [wait_reply]. unfold mbind, waitM_bind, at_once.
  pose proof (quiet_monotonic s) as H1. destruct (monotonic s) as [[t|e] s1]; cbn [snd] in H1; [|by intros [= _ <-]].
  rewrite <- H1. clear H1.
  destruct (Qle_bool _ 0); [by intros [= _ <-]|].
  pose proof (quiet_in_world (rw_poll ep (Qround.Qfloor (fmin 50 (fmax 1 ((deadline - t) * 1000))))) s1) as H2.
  destruct (in_world _ s1) as [[ready|e] s2]; cbn [snd] in *; [|intros [= _ <-]; by rewrite H2]. destruct ready; cbn [negb].
  - pose proof (quiet_in_world (rw_recv ep) s2) as H3. destruct (in_world _ s2) as [[v|e] s3]; cbn [snd] in *.
    + destruct v as [| | | | | |resp]; try (intros [= _ <-]; by rewrite H3, H2). destruct (accepts resp).
      * intros [= _ <-]. by rewrite H3, H2.
      * intros E. by rewrite (IH _ E), H3, H2.
    + intros [= _ <-]. by rewrite H3, H2.
  - destruct (_pump_manager_subscriptions _ _ fuel s2) as [[[[]|e] s3]|] eqn:Ep; [| |done]; apply pump_quiet in Ep.
    + intros E. by rewrite (IH _ E), Ep, H2.
    + intros [= _ <-]. by rewrite Ep, H2.
Qed.

Lemma exchange_spec fuel ep request timeout accepts s r s' :
  _blocking_call_with_pump main_thread handle_pub fuel ep request timeout accepts s = Some (r, s') ->
  (view s' = view s /\ exists e, r = Err e) \/ view s' = (sent s ++ [(ep, request)], told s, endpoints s).
Proof.
  unfold _blocking_call_with_pump, mbind, waitM_bind, at_once, send_to. destruct (rw_send ep request (ro_world s)) as [[[]|e] w].
  - cbn. match goal with |- context [monotonic ?x] => set (s1 := x) end. pose proof (quiet_monotonic s1) as H1. destruct (monotonic s1) as [[t|e] s2]; cbn [snd] in H1.
    + intros E%wait_quiet. right. rewrite E, H1. unfold view, sent, told, endpoints. cbn. rewrite !omap_app. cbn. by rewrite app_nil_r.
    + intros [= _ <-]. right. rewrite H1. unfold view, sent, told, endpoints. cbn. rewrite !omap_app. cbn. by rewrite app_nil_r.
  - intros [= <- <-]. left. split; [by apply view_out|by exists e].
Qed.

Lemma note_quiet device_id action error raw : quiet (W := W) (_note_stream_rpc_ingest_error device_id action error raw).
Proof. apply quiet_bind; [by apply quiet_modify|]. intros _. by apply quiet_publish. Qed.
Lemma ingest_all_quiet device_id action l : quiet (ingest_all ingest_chunk device_id action l).
Proof.
  induction l as [|raw l IH]; [apply quiet_ret|]. intros s. cbn [ingest_all]. specialize (Hingest raw s).
  destruct (ingest_chunk raw s) as [[[]|e] s1]; cbn [snd] in *; [by rewrite IH|]. rewrite <- Hingest. apply quiet_bind; [apply note_quiet|done].
Qed.
Lemma take_reply_quiet device_id action resp : quiet (take_reply ingest_chunk device_id action resp).
Proof.
  apply quiet_bind; [apply quiet_lift|]. intros ok. apply quiet_bind.
  { destruct (dget resp "result"); try apply quiet_ret. destruct (_ && _); [by apply quiet_device|apply quiet_ret]. }
  intros _. apply quiet_bind; [|intros _; apply quiet_ret]. destruct (_ && _); [|apply quiet_ret].
  apply quiet_bind; [apply ingest_all_quiet|]. intros _. destruct (_iter_stream_result_descriptors _); [|apply quiet_ret].
  destruct (nothing _); [apply quiet_ret|apply note_quiet].
Qed.

(** One call: at most the one request, to the endpoint of its device, and one
    event that names it. *)
Definition called (s s' : st) (ep device_id action : string) (params : pyval) (r : result dict) : Prop :=
  endpoints s' = endpoints s /\
  (sent s' = sent s \/ sent s' = sent s ++ [(ep, [("id", PInt (ro_rpc_seq s + 1)); ("action", PStr action); ("params", params)])]) /\
  ((exists payload, told s' = told s ++ [payload] /\ names device_id action params payload) \/ (told s' = told s /\ r = Err hash_error)).

Lemma numbered_spec fuel device_id ep action params timeout s r s' :
  numbered_exchange main_thread handle_pub fuel device_id ep action params timeout s = Some (r, s') ->
  (view s' = view s /\ exists e, r = Err e) \/
  view s' = (sent s ++ [(ep, [("id", PInt (ro_rpc_seq s + 1)); ("action", PStr action); ("params", params)])], told s, endpoints s).
Proof.
  unfold numbered_exchange, mbind, waitM_bind, at_once. cbn [modify gets]. set (s1 := _ <| ro_rpc_seq := _ |>).
  destruct (_blocking_call_with_pump _ _ _ _ _ _ _ s1) as [[[resp|e] s2]|] eqn:Ex; [| |done].
  - apply exchange_spec in Ex as [[_ [e ?]]|Hv]; [done|]. intros [= _ <-]. right. etransitivity; [|exact Hv].
    by apply (quiet_device device_id (fun d => d <| dv_rpc_fail_count := 0 |> <| dv_rpc_last_fail := None |>)).
  - intros [= <- <-]. apply exchange_spec in Ex as [[Hv _]|Hv]; [left; by eauto|by right].
Qed.

Lemma count_failure_handle t d : dv_handle (count_failure t d) = dv_handle d.
Proof. unfold count_failure, _close_device_rpc. by repeat case_match. Qed.

Section payload.
Context (device_id action : string) (params : pyval) (payload : option bool -> pyval -> pyval -> pyval -> pyM st dict).
Context (Hpayload : forall ok status error result s, exists d s', payload ok status error result s = (Ok d, s') /\
  view s' = view s /\ names device_id action params d).

Lemma failed_spec e s : exists d, view (snd (failed_call device_id payload e s)) = (sent s, told s ++ [d], endpoints s) /\
  fst (failed_call device_id payload e s) = Err e /\ names device_id action params d.
Proof.
  unfold failed_call. destruct (monotonic_ok s) as [t Et]. pose proof (quiet_monotonic s) as Hm. unfold mbind, pyM_bind.
  destruct (monotonic s) as [r s1]. cbn in Et, Hm. subst r.
  pose proof (quiet_device device_id (count_failure t) (count_failure_handle t) s1) as Hd.
  set (s2 := snd (on_device device_id (count_failure t) s1)) in *. change (on_device _ _ s1) with (Ok tt, s2). cbn iota.
  destruct (Hpayload (Some false) PNone (PStr (exc_str e)) (PStr "") s2) as (d & s3 & -> & Hv & Hn). exists d. cbn iota.
  split; [|done]. apply told_command. by rewrite Hv, Hd.
Qed.

Lemma answered_spec resp s : let '(r, s') := answered_call ingest_chunk device_id action payload resp s in
  (exists d, view s' = (sent s, told s ++ [d], endpoints s) /\ names device_id action params d) \/ (view s' = view s /\ r = Err hash_error).
Proof.
  unfold answered_call, mbind, pyM_bind, lift. destruct (_effective_status_ok resp) as [ok|e] eqn:Eok.
  - destruct (Hpayload ok (dget resp "status") (dget resp "error") (dget resp "result") s) as (d & s3 & -> & Hv & Hn). cbn iota.
    pose proof (told_command d s s3 Hv) as Ht. set (s4 := snd (_publish_manager_event "manager.command" d s3)) in *.
    change (_publish_manager_event "manager.command" d s3) with (Ok tt, s4). cbn iota.
    pose proof (take_reply_quiet device_id action resp s4) as Hq. destruct (take_reply _ _ _ _ _) as [r s5]. left. exists d. split; [|done].
    by rewrite <- Ht.
  - right. split; [done|]. revert Eok. unfold _effective_status_ok. repeat case_match; congruence.
Qed.
End payload.

Lemma call_spec fuel device_id action params timeout rid caller kind source remote s r s' :
  call fuel device_id action params timeout rid caller kind source remote s = Some (r, s') ->
  match od_get (ro_devices s) device_id ≫= fun d => d_rpc_endpoint (dv_handle d) with
  | None => s' = s
  | Some ep => called s s' ep device_id action params r
  end.
Proof.
  unfold _call_device_rpc, called. destruct (od_get (ro_devices s) device_id ≫= _) as [ep|]; [|by intros [= _ <-]].
  cbv zeta. destruct (_normalize_command_source kind source _) as [kind_text source_text].
  set (payload := fun ok status error result => _build_manager_command_payload _ _ _ ok status error result _ _ _ _ _).
  assert (forall ok status error result s, exists d s', payload ok status error result s = (Ok d, s') /\
    view s' = view s /\ names device_id action params d) as Hp by (intros; apply payload_made).
  clearbody payload. set (opened := on_device device_id (fun d => d <| dv_rpc_sock := true |>)).
  assert (view (snd (opened s)) = view s) as H1 by by apply quiet_device.
  assert (ro_rpc_seq (snd (opened s)) = ro_rpc_seq s) as Hseq by (unfold opened, on_device, modify; cbn; by destruct (od_get _ _)).
  unfold mbind, waitM_bind, at_once, except. change (opened s) with (Ok tt, snd (opened s)).
  generalize dependent (snd (opened s)). clear opened. intros s1 [= Hs Ht He] Hseq. cbn iota.
  destruct (numbered_exchange _ _ _ _ _ _ _ _ s1) as [[[resp|e] s2]|] eqn:Ex; [| |done].
  - apply numbered_spec in Ex as [[_ [e ?]]|[= E1 E2 E3]]; [done|]. rewrite Hseq, Hs, Ht, He in *.
    intros [= E]. pose proof (answered_spec device_id action params payload Hp resp s2) as Ha. rewrite E in Ha.
    destruct Ha as [(d & [= -> -> ->] & Hn)|([= -> -> ->] & ->)]; rewrite E1, E2, E3; (split; [done|]); eauto 10.
  - destruct (failed_spec device_id action params payload Hp e s2) as (d & Hv & Hf & Hn).
    destruct (failed_call device_id payload e s2) as [r3 s3]. cbn in Hv, Hf. subst r3. intros [= <- <-]. injection Hv as -> -> ->.
    apply numbered_spec in Ex as [[[= -> -> ->] _]|[= -> -> ->]]; rewrite ?Hseq, ?Hs, ?Ht, ?He; (split; [done|]); eauto 10.
Qed.
End calls.

(** ** Past the chain *)
Section chain.
Context `{HR : !PyRepr} {W : Type} `{HW : !RouterWorld W}.
#[local] Abbreviation st := (router W).
Context (available : string -> st -> bool) (ask : string -> pyval -> st -> CallResult * st).
Context (Hask : forall process_id req s, view (snd (ask process_id req s)) = view s).
#[local] Abbreviation clock_of := (fun s : st => fst (rw_clock (ro_world s))).

Definition silent_event (e : ievent) : Prop := match e with IPublish topic _ => topic <> "manager.command" | _ => True end.
Definition silent (s : st) (t : ist st) : Prop := view (iw t) = view s /\ Forall silent_event (ilog t).

Lemma silent_add s e t : silent_event e -> silent s t -> silent s (ilog_add e t).
Proof. intros He [Hv Hl]. split; [done|]. apply Forall_app. split; [done|]. by constructor. Qed.

Lemma step_silent s route cur rid caller distinct d a t :
  silent s t -> silent s (snd (_apply_interceptor_step available ask clock_of route cur rid caller distinct d a t)).
Proof.
  intros Ht. unfold _apply_interceptor_step. cbv zeta.
  destruct (_validate_route_availability _ _ _ _ _); [by apply silent_add|]. unfold _call_interceptor_checked.
  pose proof (Hask (_route_process_id route) (_build_interceptor_request clock_of cur rid caller (iw t)) (iw t)) as Ha.
  destruct (ask _ _ (iw t)) as [[[status resp] err] w]. cbn [snd] in Ha. set (t1 := ilog_add _ _).
  assert (silent s t1) as H1.
  { apply silent_add; [done|]. destruct Ht as [Hv Hl]. split; [|done]. cbn. by rewrite Ha. }
  clearbody t1. cbv beta iota zeta. destruct (match _build_call_error _ _ _ _ _ with Some e => _ | None => _ end); [|by apply silent_add].
  unfold _apply_interceptor_decision. destruct (dget l "allow") as [|[]| | | | |]; try by apply silent_add.
  - destruct (_apply_allow_response _ _ _ _ _) as [[c1 [ev|]]|e]; cbn; [by apply silent_add|done|by apply silent_add].
  - destruct (_build_reject_error _ _ _ _) as [e|e]; cbn; [by apply silent_add|done].
Qed.

Lemma loop_silent s chain cur rid caller distinct d a t :
  silent s t -> silent s (snd (chain_loop available ask clock_of chain cur rid caller distinct d a t)).
Proof.
  revert cur t. induction chain as [|route rest IH]; intros cur t Ht; [done|]. cbn [chain_loop]. unfold mbind, pyM_bind.
  pose proof (step_silent s route cur rid caller distinct d a t Ht) as H1.
  destruct (_apply_interceptor_step _ _ _ _ _ _ _ _ _ _ t) as [[[next|e]|e] t1]; [by apply IH|done|done].
Qed.

Lemma events_silent (l : list ievent) (s : st) :
  Forall silent_event l -> view (s <| ro_out := ro_out s ++ (l ≫= interceptor_event) |>) = view s.
Proof.
  intros Hl. unfold view, sent, told, endpoints. cbn. rewrite !omap_app.
  enough (omap (fun e => match e with Sent endpoint envelope => Some (endpoint, envelope) | _ => None end) (l ≫= interceptor_event) = [] /\
    omap (fun e => match e with Published topic payload => if String.eqb topic "manager.command" then Some payload else None
                            | _ => None end) (l ≫= interceptor_event) = []) as [-> ->] by by rewrite !app_nil_r.
  induction Hl as [|e l He _ [IH1 IH2]]; [done|]. rewrite bind_cons, !omap_app, IH1, IH2, !app_nil_r.
  destruct e as [|topic []]; try done. apply String.eqb_neq in He. cbn. by rewrite He.
Qed.

(** The verdict of the chain of the table *)
Lemma verdict_spec device_id action params rid caller s r s' :
  routes_ok (ro_routes s) ->
  _apply_command_interceptors available ask (command_of device_id action params) rid caller s = (r, s') ->
  view s' = view s /\
  forall new err, r = Ok (true, new, err) -> exists p s0 s1, new = Some (command_of device_id action p) /\ view s0 = view s /\
    ro_devices s0 = ro_devices s /\ ro_world s0 = ro_world s /\
    admitted available ask clock_of rid caller device_id action s0 (command_of device_id action params)
      (compute_chain (routes (rm_state (ro_routes s))) device_id action) s1 (command_of device_id action p).
Proof.
  intros Hok. unfold _apply_command_interceptors, apply_command_interceptors.
  change (py_str (dget_or (command_of device_id action params) "device_id" (PStr ""))) with device_id.
  change (py_str (dget_or (command_of device_id action params) "action" (PStr ""))) with action.
  pose proof (routes_ok_chain (fun _ => true) device_id action (ro_routes s) Hok) as Hc.
  destruct (interceptor_chain device_id action (ro_routes s)) as [chain m]. destruct Hc as (_ & _ & _ & ->). cbn [snd]. cbv zeta.
  set (s0 := s <| ro_routes := m |>). unfold apply_command_interceptor_chain.
  set (t0 := mkIst s0 []).
  change (dget_or (command_of device_id action (dget_or (command_of device_id action params) "params" (PDict []))) "params" (PDict [])) with params.
  change (py_str (dget_or (command_of device_id action (dget_or (command_of device_id action params) "params" (PDict []))) "device_id" (PStr "")))
    with device_id.
  change (py_str (dget_or (command_of device_id action (dget_or (command_of device_id action params) "params" (PDict []))) "action" (PStr "")))
    with action.
  set (chain := compute_chain _ _ _). set (c0 := command_of device_id action params).
  pose proof (loop_cases available ask clock_of rid caller true device_id action chain c0 t0) as Hl. cbv beta in Hl.
  pose proof (loop_silent s chain c0 rid caller true device_id action t0 (conj eq_refl (Forall_nil_2 _))) as [Hv He].
  destruct (chain_loop _ _ _ _ _ _ _ _ _ _ t0) as [res t]. cbn [snd] in Hv, He. intros [= <- <-]. split; [by rewrite events_silent|].
  intros new err ->. destruct Hl as [_ [(c1 & [= -> _] & Hadm & _)|[(?&?&?&_)|(?&?)]]]; [|done..].
  destruct (admitted_route _ _ _ _ _ _ _ _ _ _ _ _ Hadm (ex_intro _ params eq_refl)) as [p ->].
  exists p, s0, (iw t). split_and!; done.
Qed.
End chain.

Section commands.
Context `{HR : !PyRepr} {W : Type} `{HW : !RouterWorld W}.
#[local] Abbreviation st := (router W).
Context (available : string -> st -> bool) (ask : string -> pyval -> st -> CallResult * st).
Context (main_thread : bool) (handle_pub : subscription -> pyM st unit) (ingest_chunk : pyval -> pyM st unit) (mirrored : string -> bool).
Context (device_rpc_timeout_ms : Z) (heartbeat_timeout_s : Q).
#[local] Abbreviation clock_of := (fun s : st => fst (rw_clock (ro_world s))).
#[local] Abbreviation route := (_route_command available ask main_thread handle_pub ingest_chunk mirrored device_rpc_timeout_ms heartbeat_timeout_s).

(** A command that was sent: asked of every interceptor of the table's chain
    for it, and told once. *)
Definition checked_and_sent (rid caller : pyval) (s s' : st) (r : result dict) (d a : string) (params : pyval) (ep : string) : Prop :=
  exists p seq s0 s1, ro_devices s0 = ro_devices s /\
    admitted available ask clock_of rid caller d a s0 (command_of d a params)
      (compute_chain (routes (rm_state (ro_routes s))) d a) s1 (command_of d a p) /\
    sent s' = sent s ++ [(ep, [("id", PInt seq); ("action", PStr a); ("params", p)])] /\
    ((exists payload, told s' = told s ++ [payload] /\ names d a p payload) \/ (told s' = told s /\ r = Err hash_error)).

Context (Hask : forall process_id req s, view (snd (ask process_id req s)) = view s).
Context (Hpump : forall sub, quiet (handle_pub sub)) (Hingest : forall raw, quiet (ingest_chunk raw)).

Lemma cached_sends_nothing d device_id params rid caller kind source (s : st) :
  sent (snd (cached_capabilities d device_id params rid caller kind source s)) = sent s.
Proof.
  unfold cached_capabilities. destruct (dv_capabilities d) as [| | | | | |cached]; try done. unfold mbind, pyM_bind.
  destruct (payload_made device_id "capabilities" params (Some true) (PStr "OK") PNone (PDict cached) kind source false rid
    (normalize_id caller) s) as (payload & s1 & -> & Hv & _). pose proof (told_command payload s s1 Hv) as Ht.
  exact (f_equal (fun v => fst (fst v)) Ht).
Qed.

Lemma forward_spec fuel d a params rid caller kind source unavailable cached dev p s r s' :
  forward_command main_thread handle_pub ingest_chunk device_rpc_timeout_ms fuel d a params rid caller kind source unavailable cached dev (command_of d a p) s
    = Some (r, s') ->
  sent s' = sent s \/ (unavailable = false /\ exists ep, (od_get (ro_devices s) d ≫= fun d => d_rpc_endpoint (dv_handle d)) = Some ep /\
    called s s' ep d a p r).
Proof.
  unfold forward_command. change (py_str (dget_or (command_of d a p) "device_id" (PStr d))) with d.
  change (py_str (dget_or (command_of d a p) "action" (PStr a))) with a. change (dget_or (command_of d a p) "params" params) with p.
  rewrite String.eqb_refl. cbv zeta. destruct (cached && true && _).
  - unfold mbind, waitM_bind, at_once. cbn [current gets]. intros [= E]. left.
    rewrite <- (cached_sends_nothing (default dev (od_get (ro_devices s) d)) d p rid caller kind source s). by rewrite E.
  - destruct (unavailable || cached) eqn:Eu; cbn [andb]; [intros [= _ <-]; by left|]. intros E%call_spec; [|done..].
    apply orb_false_iff in Eu as [-> _]. destruct (od_get (ro_devices s) d ≫= _) as [ep|] eqn:Eep; [|subst; by left].
    right. split; [done|]. by exists ep.
Qed.

Lemma past_chain_spec fuel d a params rid caller kind source unavailable cached dev s r s' :
  routes_ok (ro_routes s) ->
  command_past_chain available ask main_thread handle_pub ingest_chunk device_rpc_timeout_ms fuel d a params rid caller kind source unavailable cached dev s
    = Some (r, s') ->
  sent s' = sent s \/ (unavailable = false /\ exists ep, (od_get (ro_devices s) d ≫= fun d => d_rpc_endpoint (dv_handle d)) = Some ep /\
    checked_and_sent rid caller s s' r d a params ep).
Proof.
  intros Hok. unfold command_past_chain, mbind, waitM_bind, at_once.
  change [("device_id", PStr d); ("action", PStr a); ("params", params)] with (command_of d a params).
  destruct (_apply_command_interceptors available ask (command_of d a params) rid caller s) as [v s1] eqn:Ev.
  apply verdict_spec in Ev as [Hv Hadm]; [|done..]. destruct v as [[[[] new] err]|e]; cycle 1.
  { intros [= _ <-]. left. by injection Hv. }
  { intros [= _ <-]. left. by injection Hv. }
  destruct (Hadm new err eq_refl) as (p & s0 & s2 & -> & _ & Hd & _ & Ha). intros E. apply forward_spec in E.
  injection Hv as Hs Ht He. rewrite Hs in E. destruct E as [->|(-> & ep & Eep & _ & Hsent & Htold)]; [by left|].
  rewrite Hs in Hsent. rewrite Ht in Htold. destruct Hsent as [->|Hsent]; [by left|]. right. split; [done|]. exists ep.
  rewrite (endpoint_of _ _ _ He) in Eep. split; [done|]. by eexists p, _, s0, s2.
Qed.

(** C11. Commands to drivers are checked and told.  Whatever a command request
    holds, at most one request leaves for a driver.  When one does, the device
    was known here, its driver alive and its endpoint known; it went to that
    endpoint and carries the action that was asked for; every interceptor of
    the table's chain for this device and action was asked in order and
    admitted it, and the parameters are those the last of them left; and one
    [manager.command] event, which is what the journal records, names it with
    these parameters.  (The one exception to the last: a driver whose reply
    has a list or an object for its status, which raises before the event.)
    Interceptors, pumped subscriptions and ingested frames do not command
    drivers themselves. *)
Theorem routed_commands_checked fuel req s r s' :
  routes_ok (ro_routes s) -> route fuel req s = Some (r, s') ->
  sent s' = sent s \/
  exists params dev ep, let d := py_str (dget req "device_id") in let a := py_str (dget req "action") in
    dget_or req "params" (PDict []) = PDict params /\ od_get (ro_devices s) d = Some dev /\
    driver_is_stopped (dv_handle dev) = false /\ d_rpc_endpoint (dv_handle dev) = Some ep /\
    checked_and_sent (dget req "request_id") (dget req "caller_process_id") s s' r d a (PDict params) ep.
Proof.
  intros Hok. unfold _route_command, required_text, mbind, waitM_bind, at_once, lift, fails.
  destruct (od_get req "device_id") as [vd|] eqn:Ed; [|intros [= _ <-]; by left].
  destruct (od_get req "action") as [va|] eqn:Ea; [|intros [= _ <-]; by left].
  assert (dget req "device_id" = vd) as -> by (unfold dget; by rewrite Ed).
  assert (dget req "action" = va) as -> by (unfold dget; by rewrite Ea). cbv zeta.
  destruct (_normalize_command_source _ _ _) as [kind source]. destruct (dget_or req "params" (PDict [])) as [| | | | | |params];
    try (intros [= _ <-]; by left). cbn [is_dict negb]. unfold _resolve_local_device, required_text. rewrite Ed.
  destruct (od_get (ro_devices s) (py_str vd)) as [dev|] eqn:Edev; [|destruct (_forward_device_request _ _); intros [= _ <-]; by left].
  set (unavailable := driver_is_stopped _ || _).
  assert (forall cached s1, ro_devices s1 = ro_devices s -> ro_routes s1 = ro_routes s -> view s1 = view s ->
    command_past_chain available ask main_thread handle_pub ingest_chunk device_rpc_timeout_ms fuel (py_str vd) (py_str va) (PDict params) (dget req "request_id")
      (dget req "caller_process_id") kind source unavailable cached dev s1 = Some (r, s') ->
    sent s' = sent s \/ exists params0 dev0 ep, PDict params = PDict params0 /\ Some dev = Some dev0 /\
      driver_is_stopped (dv_handle dev0) = false /\ d_rpc_endpoint (dv_handle dev0) = Some ep /\
      checked_and_sent (dget req "request_id") (dget req "caller_process_id") s s' r (py_str vd) (py_str va) (PDict params0) ep) as Hgo.
  { intros cached s1 Hd Hr Hv E. rewrite <- Hr in Hok. apply past_chain_spec in E; [|done]. injection Hv as Hs Ht _.
    rewrite Hs, Hd, Edev in E. destruct E as [->|(Hu & ep & Eep & Hc)]; [by left|]. right. exists params, dev, ep.
    apply orb_false_iff in Hu as [Hu _]. split_and!; try done.
    unfold checked_and_sent in *. by rewrite <- Hr, <- Hs, <- Ht, <- Hd. }
  destruct (String.eqb (py_str va) "capabilities").
  - unfold capabilities_unavailable. unfold mbind, pyM_bind. unfold monotonic, in_world. destruct (rw_clock _) as [t w].
    apply Hgo; try done.
  - destruct unavailable; [intros [= _ <-]; by left|]. by apply Hgo.
Qed.
End commands.

(** ** Calls come back *)
Section returns.
Context `{HR : !PyRepr} {W : Type} `{HW : !RouterWorld W}.
#[local] Abbreviation st := (router W).
Context (available : string -> st -> bool) (ask : string -> pyval -> st -> CallResult * st).
Context (main_thread : bool) (handle_pub : subscription -> pyM st unit) (ingest_chunk : pyval -> pyM st unit) (mirrored : string -> bool).
Context (device_rpc_timeout_ms : Z) (heartbeat_timeout_s : Q).

(** [now w]: the time in [w].  The clock reads it, nothing turns it back, and
    a poll that finds nothing has waited as long as it was told to. *)
Record time_passes (now : W -> Q) : Prop := {
  tp_clock : forall w t w', rw_clock w = (t, w') -> (now w <= t)%Q /\ (t <= now w')%Q;
  tp_poll : forall ep ms w r w', rw_poll ep ms w = (r, w') -> (now w <= now w')%Q;
  tp_idle : forall ep ms w w', rw_poll ep ms w = (Ok false, w') -> (now w + inject_Z ms / 1000 <= now w')%Q;
  tp_waiting : forall sub w r w', rw_waiting sub w = (r, w') -> (now w <= now w')%Q;
  tp_handle : forall sub s, (now (ro_world s) <= now (ro_world (snd (handle_pub sub s))))%Q
}.
Context (now : W -> Q) (Hnow : time_passes now).
#[local] Abbreviation time s := (now (ro_world s)).
#[local] Abbreviation pump := (_pump_manager_subscriptions main_thread handle_pub).

(** Whenever it is pumped, each subscription has run dry at some point. *)
Context (Hdry : forall s, exists n, pump n s <> None).

(** *** More fuel changes nothing *)
Lemma drain_more n n' sub s x : (n <= n')%nat -> drain handle_pub n sub s = Some x -> drain handle_pub n' sub s = Some x.
Proof.
  revert n' s. induction n as [|n IH]; intros [|n'] s Hn; try done; [lia|]. cbn [drain]. unfold mbind, waitM_bind, at_once.
  destruct (in_world _ s) as [[[]|e] s1]; cbn [negb]; try done. destruct (handle_pub sub s1) as [[[]|e] s2]; [|done].
  apply IH. lia.
Qed.

Lemma pump_more n n' s x : (n <= n')%nat -> pump n s = Some x -> pump n' s = Some x.
Proof.
  intros Hn. unfold _pump_manager_subscriptions. destruct main_thread; cbn [negb]; [|done]. unfold mbind, waitM_bind.
  destruct (drain _ n _sub s) as [[[[]|e] s1]|] eqn:E1; [| |done]; rewrite (drain_more _ _ _ _ _ Hn E1); [|done].
  destruct (drain _ n _process_hb_sub s1) as [[[[]|e] s2]|] eqn:E2; [| |done]; rewrite (drain_more _ _ _ _ _ Hn E2); [|done].
  by apply drain_more.
Qed.

Lemma wait_more n n' ep deadline accepts s x : (n <= n')%nat ->
  wait_reply main_thread handle_pub n ep deadline accepts s = Some x -> wait_reply main_thread handle_pub n' ep deadline accepts s = Some x.
Proof.
  revert n' s. induction n as [|n IH]; intros [|n'] s Hn; try done; [lia|]. cbn [wait_reply]. unfold mbind, waitM_bind, at_once.
  destruct (monotonic s) as [[t|e] s1]; [|done]. destruct (Qle_bool _ 0); [done|].
  destruct (in_world (rw_poll _ _) s1) as [[[]|e] s2]; cbn [negb]; [| |done].
  - destruct (in_world _ s2) as [[v|e] s3]; [|done]. destruct v; try done. destruct (accepts _); [done|]. apply IH. lia.
  - destruct (pump n s2) as [[[[]|e] s3]|] eqn:Ep; [| |done]; rewrite (pump_more n n' _ _ ltac:(lia) Ep); [|done]. apply IH. lia.
Qed.

(** *** Time passes while the subscriptions are pumped *)
Lemma drain_time n sub s r s' : drain handle_pub n sub s = Some (r, s') -> (time s <= time s')%Q.
Proof.
  revert s. induction n as [|n IH]; intros s; [done|]. cbn [drain]. unfold mbind, waitM_bind, at_once, in_world.
  destruct (rw_waiting sub (ro_world s)) as [b w] eqn:Eb. apply (tp_waiting _ Hnow) in Eb. set (s1 := s <| ro_world := w |>).
  assert (time s <= time s1)%Q as H1 by exact Eb.
  destruct b as [[]|e]; cbn [negb]; [|intros [= _ <-]; exact H1..].
  pose proof (tp_handle _ Hnow sub s1) as H2. destruct (handle_pub sub s1) as [[[]|e] s2]; cbn [snd] in H2.
  - intros E%IH. Lqa.lra.
  - intros [= _ <-]. Lqa.lra.
Qed.
Lemma pump_time n s r s' : pump n s = Some (r, s') -> (time s <= time s')%Q.
Proof.
  unfold _pump_manager_subscriptions. destruct main_thread; cbn [negb]; [|intros [= _ <-]; apply Qle_refl]. unfold mbind, waitM_bind.
  destruct (drain _ _ _sub s) as [[[[]|e] s1]|] eqn:E1; [| |done]; apply drain_time in E1; [|by intros [= _ <-]].
  destruct (drain _ _ _process_hb_sub s1) as [[[[]|e] s2]|] eqn:E2; [| |done]; apply drain_time in E2; [|intros [= _ <-]; Lqa.lra].
  intros E3%drain_time. Lqa.lra.
Qed.

(** *** There is fuel with which a call is back *)
Definition returns {A} (m : nat -> waitM st A) (s : st) : Prop := exists n, forall n', (n <= n')%nat -> m n' s <> None.

Lemma wait_returns k ep deadline s :
  ((deadline - time s) * 1000 < inject_Z (Z.of_nat k))%Q ->
  returns (fun n => wait_reply main_thread handle_pub n ep deadline (fun _ => true)) s.
Proof.
  intros Hk. enough (exists n, wait_reply main_thread handle_pub n ep deadline (fun _ => true) s <> None) as [n Hn].
  { exists n. intros n' Hle. destruct (wait_reply _ _ n _ _ _ s) as [x|] eqn:E; [|done].
    rewrite (wait_more n n' _ _ _ _ x Hle E). discriminate. }
  revert s Hk. induction k as [|k IH]; intros s Hk.
  all: destruct (rw_clock (ro_world s)) as [t w] eqn:Et; pose proof Et as Et'; apply (tp_clock _ Hnow) in Et as [Ht1 Ht2].
  all: destruct (Qleb_spec (deadline - t) 0) as [Er|Er];
    [exists 1%nat; cbn [wait_reply]; unfold mbind, waitM_bind, at_once, monotonic, in_world; rewrite Et';
     destruct (Qleb_spec (deadline - t) 0); [done|Lqa.lra]|].
  { exfalso. change (inject_Z (Z.of_nat 0)) with 0%Q in Hk. Lqa.lra. }
  set (ms := Qround.Qfloor (fmin 50 (fmax 1 ((deadline - t) * 1000)))). assert (1 <= ms) as Hms.
  { apply (Qround.Qfloor_resp_le 1). destruct (fmax_ub 1 ((deadline - t) * 1000)) as [H1 _]. unfold fmin.
    destruct (Qltb_spec (fmax 1 ((deadline - t) * 1000)) 50); [done|]. Lqa.lra. }
  set (s1 := s <| ro_world := w |>). destruct (rw_poll ep ms (ro_world s1)) as [r w2] eqn:Ep. set (s2 := s1 <| ro_world := w2 |>).
  assert (forall n, wait_reply main_thread handle_pub (S n) ep deadline (fun _ => true) s =
    match r with
    | Ok true => (v ← at_once (in_world (rw_recv ep)); match v with PDict resp => mret resp | _ => fails (TypeError "JSON message must be an object") end) s2
    | Ok false => (_ ← pump n; wait_reply main_thread handle_pub n ep deadline (fun _ => true)) s2
    | Err e => Some (Err e, s2)
    end) as Hstep.
  { intros n. cbn [wait_reply]. unfold mbind at 1, waitM_bind at 1, at_once at 1, monotonic, in_world at 1. rewrite Et'.
    destruct (Qleb_spec (deadline - t) 0); [Lqa.lra|]. fold ms s1. unfold mbind at 1, waitM_bind at 1, at_once at 1, in_world at 1.
    rewrite Ep. fold s2. by destruct r as [[]|]. }
  destruct r as [[]|e].
  - exists 1%nat. rewrite Hstep. unfold mbind, waitM_bind, at_once. destruct (in_world _ s2) as [[v|e] s3]; [by destruct v|done].
  - apply (tp_idle _ Hnow) in Ep. change (now (ro_world s1)) with (now w) in Ep.
    destruct (Hdry s2) as [n1 Hn1]. destruct (pump n1 s2) as [[[[]|e] s3]|] eqn:Ed; [| |done].
    + destruct (IH s3) as [n2 Hn2].
      { apply pump_time in Ed. change (time s2) with (now w2) in Ed.
        assert (1 <= inject_Z ms)%Q by (change 1%Q with (inject_Z 1); by rewrite <- Zle_Qle).
        rewrite Nat2Z.inj_succ, <- Z.add_1_r, inject_Z_plus in Hk. change (inject_Z 1) with 1%Q in Hk.
        assert (inject_Z ms / 1000 * 1000 == inject_Z ms)%Q by (field; discriminate). Lqa.lra. }
      exists (S (Nat.max n1 n2)). rewrite Hstep. unfold mbind, waitM_bind.
      rewrite (pump_more n1 (Nat.max n1 n2) _ _ ltac:(lia) Ed).
      destruct (wait_reply _ _ n2 _ _ _ s3) as [x|] eqn:Ex; [|done]. by rewrite (wait_more n2 (Nat.max n1 n2) _ _ _ _ x ltac:(lia) Ex).
    + exists (S n1). rewrite Hstep. unfold mbind, waitM_bind. by rewrite Ed.
  - exists 1%nat. by rewrite Hstep.
Qed.

Lemma exchange_returns ep request timeout s :
  returns (fun n => _blocking_call_with_pump main_thread handle_pub n ep request timeout (fun _ => true)) s.
Proof.
  unfold returns, _blocking_call_with_pump, mbind, waitM_bind, at_once.
  destruct (send_to ep request s) as [[[]|e] s1]; [|by exists 0%nat]. unfold monotonic, in_world.
  destruct (rw_clock (ro_world s1)) as [t w] eqn:Et. apply (tp_clock _ Hnow) in Et as [_ Ht].
  apply (wait_returns (S (Z.to_nat timeout))). cbn [ro_world set_field].
  assert (inject_Z timeout < inject_Z (Z.of_nat (S (Z.to_nat timeout))))%Q by (rewrite <- Zlt_Qlt; lia).
  assert (inject_Z timeout / 1000 * 1000 == inject_Z timeout)%Q by (field; discriminate). cbn. Lqa.lra.
Qed.

Lemma call_returns device_id action params timeout rid caller kind source remote s :
  returns (fun n => _call_device_rpc main_thread handle_pub ingest_chunk device_rpc_timeout_ms n device_id action params timeout rid caller
                      kind source remote) s.
Proof.
  unfold returns, _call_device_rpc. destruct (od_get (ro_devices s) device_id ≫= _) as [ep|]; [|by exists 0%nat].
  destruct (_normalize_command_source _ _ _) as [k t].
  unfold mbind, waitM_bind, at_once, except. destruct (on_device _ _ s) as [[[]|e] s1]; [|by exists 0%nat].
  unfold numbered_exchange, mbind, waitM_bind, at_once. cbn [modify gets].
  match goal with |- context [_blocking_call_with_pump main_thread handle_pub _ ?ep ?q ?m _ ?x] =>
    destruct (exchange_returns ep q m x) as [n Hn] end.
  exists n. intros n' Hle. specialize (Hn n' Hle). cbv beta in Hn.
  destruct (_blocking_call_with_pump _ _ n' _ _ _ _ _) as [[[resp|e] s2]|]; [done| |done].
  by destruct (failed_call _ _ _ _) as [[]].
Qed.

End returns.

(** ** Identity of a device *)
Section identity.
Context `{HR : !PyRepr} {W : Type} `{HW : !RouterWorld W}.
#[local] Abbreviation st := (router W).
Context (main_thread : bool) (handle_pub : subscription -> pyM st unit) (ingest_chunk : pyval -> pyM st unit) (device_rpc_timeout_ms : Z).
#[local] Abbreviation plain := (plain_call main_thread handle_pub ingest_chunk device_rpc_timeout_ms).

Lemma mismatches_nil expected identity field value :
  mismatches expected identity = [] -> (field, value) ∈ expected -> py_eqb (dget identity field) value = true.
Proof.
  intros Hm Hin. destruct (py_eqb (dget identity field) value) eqn:E; [done|].
  assert ((field, value, dget identity field) ∈ mismatches expected identity) as H; [|rewrite Hm in H; by apply not_elem_of_nil in H].
  apply list_elem_of_omap. exists (field, value). split; [done|]. cbn. by rewrite E.
Qed.

Lemma check_failed_reply fuel device_id dev message details (s : st) resp s' :
  _connect_check_failed_response main_thread handle_pub ingest_chunk device_rpc_timeout_ms fuel device_id dev message details s = Some (Ok resp, s') ->
  _device_rpc_status_ok resp = false /\
  (cc_on_fail (dv_connect_check dev) = "keep_connected" \/
   exists s1 r, plain fuel (ds_device_id (d_spec (dv_handle dev))) "disconnect_device" s1 = Some (r, s')).
Proof.
  unfold _connect_check_failed_response, mbind, waitM_bind, at_once. destruct (stamp s) as [[now|e] s1]; [|done].
  destruct (_publish_manager_event _ _ s1) as [[[]|e] s2]; [|done]. destruct (on_device _ _ s2) as [[[]|e] s3]; [|done].
  destruct (String.eqb_spec (cc_on_fail (dv_connect_check dev)) "keep_connected") as [Hk|_].
  - intros [= <- _]. split; [done|by left].
  - unfold except. destruct (plain_call _ _ _ _ _ _ _ s3) as [[[d|e] s4]|] eqn:E; [| |done].
    all: intros [= <- <-]; split; [done|right; by eexists s3, _].
Qed.

(** A device whose spec asks for an identity check is reported connected only
    when its driver answered the question for the identity with every
    expected field; when it fails the check, and is not to be kept, it is
    asked to disconnect. *)
Theorem connected_with_identity fuel device_id s resp s' :
  connect_device main_thread handle_pub ingest_chunk device_rpc_timeout_ms fuel device_id s = Some (Ok resp, s') ->
  exists dev, od_get (ro_devices s) device_id = Some dev /\ driver_is_stopped (dv_handle dev) = false /\
    (cc_enabled (dv_connect_check dev) = true -> _device_rpc_status_ok resp = true ->
     exists s1 s2 answer identity, plain fuel device_id "identity" s1 = Some (Ok answer, s2) /\ _device_rpc_status_ok answer = true /\
       dget answer "result" = PDict identity /\
       forall field value, (field, value) ∈ cc_identity (dv_connect_check dev) -> py_eqb (dget identity field) value = true).
Proof.
  unfold connect_device, _require_running_driver, mbind, waitM_bind, at_once.
  destruct (od_get (ro_devices s) device_id) as [dev|]; [|done]. destruct (driver_is_stopped (dv_handle dev)) eqn:Ed; [done|].
  intros E. exists dev. split_and!; [done..|]. intros Hen Hok. revert E.
  destruct (plain_call _ _ _ _ _ _ _ s) as [[[cresp|e] s1]|]; [|done..]. rewrite Hen. cbn [negb].
  destruct (_device_rpc_status_ok cresp) eqn:Ec; [|destruct (says_already_connected cresp)]; cbn [negb andb]; cycle 2.
  { unfold mbind, pyM_bind. destruct (stamp s1) as [[now|e] s2]; [|done]. destruct (on_device _ _ s2) as [[[]|e] s3]; [|done]. intros [= <- _]. congruence. }
  all: unfold check_identity, mbind, waitM_bind; destruct (plain_call _ _ _ _ _ _ "identity" s1) as [[[answer|e] s2]|] eqn:Ei; [|done..].
  all: destruct (_device_rpc_status_ok answer) eqn:Ea; cbn [negb]; [|intros [Hr _]%check_failed_reply; congruence].
  all: destruct (dget answer "result") as [| | | | | |identity] eqn:Er; try (intros [Hr _]%check_failed_reply; congruence).
  all: destruct (mismatches _ identity) as [|[[field expected] actual] rest] eqn:Em; [|intros [Hr _]%check_failed_reply; congruence].
  all: intros _; exists s1, s2, answer, identity; split_and!; try done; intros; by eapply mismatches_nil.
Qed.
End identity.

(** ** A laser behind an interlock and an auditor *)
Module RoutingDemo.
#[local] Existing Instance plain_repr.

(** The world is a clock in milliseconds and whether the driver answers. *)
Definition world : Type := Z * bool.
Definition reply : dict := [("status", PStr "OK"); ("result", PInt 1)].
#[local] Instance bench : RouterWorld world := {|
  rw_wall w := (0%Q, w);
  rw_clock w := ((inject_Z (fst w) / 1000)%Q, w);
  rw_send _ _ w := (Ok tt, w);
  rw_poll _ ms (w : world) := if snd w then (Ok true, w) else (Ok false, (fst w + Z.max 0 ms, false));
  rw_waiting _ w := (Ok false, w);
  rw_recv _ w := (Ok (PDict reply), w);
  rw_json _ := None |}.

Definition laser : device := mkDevEntry (dh DriverDemo.d_running) (mkCheck true [("serial", PStr "A1")] "disconnect") false 0 None PNone None.
Definition bench_state (answers : bool) : router world := mkRouter world [("laser", laser)] RouteDemo.table 0 0 [] (1000, answers).

(** The interlock allows, the auditor caps the power. *)
Definition ask (pid : string) (req : pyval) (s : router world) : CallResult * router world :=
  (if String.eqb pid "audit"
   then ("ok", PDict [("allow", PBool true); ("command", PDict [("params", PDict [("mw", PInt 5)])])], None)
   else ("ok", PDict [("allow", PBool true)], None), s).
Definition set_power : dict := [("type", PStr "command"); ("device_id", PStr "laser"); ("action", PStr "set"); ("params", PDict [("mw", PInt 9)])].
#[local] Abbreviation route := (_route_command (fun _ _ => true) ask true (fun _ => mret tt) (fun _ => mret tt) (fun _ => false) 3 2 5 set_power).

Example power_capped : match route (bench_state true) with
  | Some (r, s) => r = Ok reply /\ sent s = [("tcp://a:1", [("id", PInt 1); ("action", PStr "set"); ("params", PDict [("mw", PInt 5)])])]
  | None => False
  end.
Proof. by vm_compute. Qed.

Lemma table_ok : routes_ok RouteDemo.table.
Proof. exact (proj1 (rreach_ok _ _ _ RouteDemo.table_reached)). Qed.

Lemma power_sent : exists r s', route (bench_state true) = Some (r, s') /\ sent s' <> [].
Proof.
  pose proof power_capped as Hp. destruct (route (bench_state true)) as [[r s']|]; [|done].
  exists r, s'. split; [done|]. by destruct Hp as [_ ->].
Qed.
Lemma routed_commands_checked_witness : exists r s' params dev ep,
  route (bench_state true) = Some (r, s') /\
  od_get (ro_devices (bench_state true)) (py_str (dget set_power "device_id")) = Some dev /\
  checked_and_sent (fun _ _ => true) ask (dget set_power "request_id") (dget set_power "caller_process_id") (bench_state true) s' r
    (py_str (dget set_power "device_id")) (py_str (dget set_power "action")) (PDict params) ep.
Proof.
  destruct power_sent as (r & s' & E & Hs). exists r, s'.
  destruct (routed_commands_checked (fun _ _ => true) ask true (fun _ => mret tt) (fun _ => mret tt) (fun _ => false) 3 2
    (fun _ _ _ => eq_refl) (fun _ => quiet_ret tt) (fun _ => quiet_ret tt) 5 set_power (bench_state true) r s' table_ok E)
    as [H|(params & dev & ep & _ & Hdev & _ & _ & Hc)]; [destruct (Hs H)|].
  exists params, dev, ep. split; [exact E|]. split; [exact Hdev|exact Hc].
Defined.

(** A driver that does not answer: after three milliseconds of polling the
    call raises. *)
Lemma bench_time : time_passes (W := world) (fun _ => mret tt) (fun w => inject_Z (fst w) / 1000)%Q.
Proof.
  split.
  - intros [t b] t' w' [= <- <-]. split; apply Qle_refl.
  - intros ep ms [t []] r w'; intros [= <- <-]; [apply Qle_refl|]. cbn. apply Qmult_le_compat_r; [|done]. rewrite <- Zle_Qle. lia.
  - intros ep ms [t []] w'; intros [= <-]. cbn [fst snd]. rewrite inject_Z_plus.
    assert (inject_Z ms <= inject_Z (Z.max 0 ms))%Q by (rewrite <- Zle_Qle; lia).
    unfold Qdiv. rewrite <- Qmult_plus_distr_l. apply Qmult_le_compat_r; [|done]. by apply Qplus_le_compat; [apply Qle_refl|].
  - intros sub w r w' [= _ <-]. apply Qle_refl.
  - intros sub s. apply Qle_refl.
Qed.
Lemma bench_dry (s : router world) : exists n, _pump_manager_subscriptions true (fun _ => mret tt) n s <> None.
Proof. by exists 1%nat. Qed.

(** Telemetry that comes in as fast as it is handled: the driver does not
    answer, and the manager never gets to see that the deadline is over. *)
Section busy.
#[local] Instance busy_bench : RouterWorld world := {|
  rw_wall w := (0%Q, w); rw_clock w := ((inject_Z (fst w) / 1000)%Q, w); rw_send _ _ w := (Ok tt, w);
  rw_poll _ ms (w : world) := (Ok false, (fst w + Z.max 0 ms, false));
  rw_waiting _ w := (Ok true, (fst w + 1, snd w));
  rw_recv _ w := (Ok PNone, w); rw_json _ := None |}.
Lemma busy_drain fuel sub (s : router world) : drain (fun _ => mret tt) fuel sub s = None.
Proof. revert s. induction fuel as [|fuel IH]; intros s; [done|]. apply IH. Qed.
Lemma busy_bus_never_returns fuel :
  _route_command (HW := busy_bench) (fun _ _ => true) ask true (fun _ => mret tt) (fun _ => mret tt) (fun _ => false) 3 2 fuel set_power
    (bench_state false) = None.
Proof.
  assert (forall s, _pump_manager_subscriptions (HW := busy_bench) true (fun _ => mret tt) fuel s = None) as Hp.
  { intros s. unfold _pump_manager_subscriptions, mbind, waitM_bind. cbn [negb]. by rewrite busy_drain. }
  destruct fuel as [|fuel]; [by vm_compute|].
  assert (forall s : router world, _pump_manager_subscriptions (HW := busy_bench) true (fun _ => mret tt) fuel s = None) as Hp'.
  { intros s. unfold _pump_manager_subscriptions, mbind, waitM_bind. cbn [negb]. by rewrite busy_drain. }
  clear Hp. cbv -[_pump_manager_subscriptions]. by rewrite Hp'.
Qed.
End busy.

(** The identity of the answer is not that of the spec: the driver is asked to
    disconnect again. *)
Example wrong_laser :
  (fun '(r, s) => (sent s).*2 ) <$> connect_device true (fun _ => mret tt) (fun _ => mret tt) 3 5 "laser" (bench_state true) =
  Some (imap (fun i a => [("id", PInt (Z.of_nat i + 1)); ("action", PStr a); ("params", PDict [])]) ["connect_device"; "identity"; "disconnect_device"]).
Proof. by vm_compute. Qed.
End RoutingDemo.
