(* ===== verification/ManagerRequests.v ===== *)
(** * Requests to the manager and their replies

    [_manager/internal_rpc.py], with the error envelope of
    [contracts/manager_requests.py] and the lifecycle tasks of [manager.py].
    The routes themselves are parameters ([CommandRouting] models those of
    commands), and so are the mirrors of the federation hub. *)
From S2P Require Import Prelude PyVal ProcessBase RulesCommon CommandRouting.
#[local] Open Scope Z_scope.

Definition rpc_error (code message : string) (details : option dict) : dict :=
  let error := [("code", PStr code); ("message", PStr message)] in
  let error := match details with Some ((_ :: _) as d) => od_set error "details" (PDict d) | _ => error end in
  [("ok", PBool false); ("error", PDict error)].

Definition _LIFECYCLE_TYPES : list string :=
  ["device.connect"; "device.disconnect"; "device.driver.start"; "device.driver.stop"; "device.driver.restart"; "device.recover"].

(** [except LookupError]: its subclasses are caught too. *)
Definition is_lookup_error (e : pyexc) : bool := match e with LookupError _ | KeyError _ | IndexError _ => true | _ => false end.

(** The reply with the caller's id, unless it has one already *)
Definition echo (req resp : dict) : dict :=
  let rid := dget req "request_id" in
  if negb (is_none rid) && negb (dhas resp "request_id") then od_set resp "request_id" rid else resp.

Record task := mkTask { tk_identity : string; tk_req : dict; tk_type : string; tk_device : string }.

Record desk {S : Type} := mkDesk {
  dk_state : S;
  dk_sent : list (string * dict);          (* replies sent on the internal socket *)
  dk_tasks : list task;                    (* work given to the lifecycle pool *)
  dk_replies : list (string * dict)        (* _lifecycle_reply_queue *)
}.
Arguments desk : clear implicits.
#[export] Instance desk_eta {S} : Eta (desk S) := fun d => mkDesk S (dk_state d) (dk_sent d) (dk_tasks d) (dk_replies d).

Section requests.
Context `{HR : !PyRepr} {S : Type}.
#[local] Abbreviation handler := (dict -> waitM S dict).
Context (action_registry type_registry process_registry manager_registry : RpcDispatchRegistry handler).
Context (route_device : pyval -> dict -> option (waitM S dict)).
Context (local_device local_process : string -> S -> bool) (pool_open : S -> bool).
(** [try_dispatch_device_forward] and [try_dispatch_process_forward] of the hub *)
Context (forward_device : string -> dict -> string -> string -> S -> bool * S).
Context (forward_process : string -> dict -> string -> S -> bool * S).

Definition dispatch_registry_request (registry : RpcDispatchRegistry handler) (route_key : pyval) (req : dict)
    : option (waitM S dict) :=
  let key_text := strip (py_str (py_or route_key (PStr ""))) in
  if negb (nonempty key_text) then None
  else
    let lookup_req := if py_eqb (dget req "type") (PStr key_text) then req else od_set req "type" (PStr key_text) in
    (fun h : handler => h lookup_req) <$> handler_for registry (dget lookup_req "type").

(** The first of the tables that has a route *)
Definition first_route (l : list (option (waitM S dict))) : option (waitM S dict) := head (omap id l).

Definition _route_internal_request (req : dict) : waitM S dict :=
  let rtype := dget req "type" in
  match first_route [dispatch_registry_request action_registry (dget req "action") req;
                     dispatch_registry_request type_registry rtype req;
                     route_device rtype req;
                     dispatch_registry_request process_registry rtype req;
                     dispatch_registry_request manager_registry rtype req] with
  | Some answer => answer
  | None => fails (LookupError ("Unknown internal request type " +:+ py_repr rtype))
  end.

Definition send_reply (identity : string) (resp : dict) (d : desk S) : desk S := d <| dk_sent := dk_sent d ++ [(identity, resp)] |>.

Definition shutting_down (req : dict) : dict :=
  echo req [("ok", PBool false);
            ("error", PDict [("code", PStr "manager_shutting_down");
                             ("message", PStr "Lifecycle executor is shut down; manager is tearing down.")])].

Definition _dispatch_lifecycle_task (t : task) (d : desk S) : desk S :=
  if pool_open (dk_state d) then d <| dk_tasks := dk_tasks d ++ [t] |> else send_reply (tk_identity t) (shutting_down (tk_req t)) d.

Definition answer_inline (identity : string) (req : dict) (d : desk S) : option (result unit * desk S) :=
  match _route_internal_request req (dk_state d) with
  | None => None
  | Some (r, s) =>
      let resp := match r with
                  | Ok resp => resp
                  | Err e => rpc_error (if is_lookup_error e then "unknown_request_type" else "route_failed") (exc_str e) None
                  end in
      Some (Ok tt, send_reply identity (echo req resp) (d <| dk_state := s |>))
  end.

(** [rtype in _LIFECYCLE_TYPES]: asking a set for an unhashable value raises. *)
Definition is_lifecycle (rtype : pyval) : result bool :=
  if unhashable rtype then Err hash_error
  else Ok (match rtype with PStr t => bool_decide (t ∈ _LIFECYCLE_TYPES) | _ => false end).

Definition local_request (identity : string) (req : dict) (d : desk S) : option (result unit * desk S) :=
  match is_lifecycle (dget req "type"), dget req "type", dget req "device_id" with
  | Err e, _, _ => Some (Err e, d)
  | Ok true, PStr rtype, PStr device_id =>
      if local_device device_id (dk_state d) then Some (Ok tt, _dispatch_lifecycle_task (mkTask identity req rtype device_id) d)
      else answer_inline identity req d
  | Ok _, _, _ => answer_inline identity req d
  end.

(** Whether the hub took the request over *)
Definition forwarded (identity : string) (req : dict) (d : desk S) : bool * desk S :=
  let rtype := dget req "type" in
  let '(taken, s) := match dget req "device_id" with
                     | PStr device_id => if local_device device_id (dk_state d) then (false, dk_state d)
                                         else forward_device identity req (py_str rtype) device_id (dk_state d)
                     | _ => (false, dk_state d)
                     end in
  if taken then (true, d <| dk_state := s |>)
  else
    let '(taken, s) := match dget req "process_id" with
                       | PStr process_id => if negb (py_eqb rtype (PStr "manager.processes.rpc")) || local_process process_id s then (false, s)
                                            else forward_process identity req process_id s
                       | _ => (false, s)
                       end in
    (taken, d <| dk_state := s |>).

(** One message on the internal socket; a payload that is not JSON is [None]. *)
Definition _handle_internal_rpc (identity : string) (payload : pyval) (d : desk S) : option (result unit * desk S) :=
  match payload with
  | PDict req =>
      let '(taken, d) := forwarded identity req d in
      if taken then Some (Ok tt, d) else local_request identity req d
  | _ => Some (Ok tt, send_reply identity (rpc_error "invalid_request" "request must be a JSON object" None) d)
  end.

(** A worker of the pool: one task under its device's lock *)
Definition _run_lifecycle (t : task) (d : desk S) : option (desk S) :=
  let done resp d := Some (d <| dk_replies := dk_replies d ++ [(tk_identity t, echo (tk_req t) resp)] |>) in
  match route_device (PStr (tk_type t)) (tk_req t) with
  | None => done [("ok", PBool false);
                  ("error", PDict [("code", PStr "unknown_lifecycle_type");
                                   ("message", PStr ("no handler for " +:+ repr_str (tk_type t)))])] d
  | Some handler =>
      match handler (dk_state d) with
      | None => None
      | Some (Ok resp, s) => done resp (d <| dk_state := s |>)
      | Some (Err e, s) =>
          done [("ok", PBool false); ("error", PDict [("code", PStr "lifecycle_error"); ("message", PStr (exc_str e))])] (d <| dk_state := s |>)
      end
  end.

(** The queue is emptied on the main thread. *)
Definition _drain_lifecycle_replies (d : desk S) : desk S := d <| dk_sent := dk_sent d ++ dk_replies d |> <| dk_replies := [] |>.

(** ** Every request gets one answer, with its id *)
Definition answered (identity : string) (req : dict) (d d' : desk S) : Prop :=
  exists resp, dk_sent d' = dk_sent d ++ [(identity, echo req resp)] /\ dk_tasks d' = dk_tasks d /\ dk_replies d' = dk_replies d.

Lemma answer_inline_spec identity req d r d' :
  answer_inline identity req d = Some (r, d') -> r = Ok tt /\ answered identity req d d'.
Proof.
  unfold answer_inline. destruct (_route_internal_request req (dk_state d)) as [[x s]|]; [|done]. intros [= <- <-].
  split; [done|]. by eexists.
Qed.

Lemma echo_id req resp : dhas resp "request_id" = false -> dget (echo req resp) "request_id" = dget req "request_id".
Proof.
  intros Hr. unfold echo. rewrite Hr. destruct (dget req "request_id") eqn:E; cbn; try (by apply Responses.dget_set_eq).
  unfold dhas in Hr. unfold dget. by destruct (od_get resp "request_id").
Qed.

(** A message is answered at once, given to the pool, or taken by the hub, and
    exactly one of these; the answer bears the id of the request.  The one way
    to raise is a request whose type is a list or an object. *)
Theorem requests_answered_once identity req d r d' :
  _handle_internal_rpc identity (PDict req) d = Some (r, d') ->
  (r = Err hash_error /\ unhashable (dget req "type") = true /\ dk_sent d' = dk_sent d /\ dk_tasks d' = dk_tasks d) \/
  (r = Ok tt /\ (answered identity req d d' \/
    (exists rtype device_id, dk_tasks d' = dk_tasks d ++ [mkTask identity req rtype device_id] /\ dk_sent d' = dk_sent d) \/
    (dk_sent d' = dk_sent d /\ dk_tasks d' = dk_tasks d /\ fst (forwarded identity req d) = true))).
Proof.
  unfold _handle_internal_rpc.
  assert (dk_sent (snd (forwarded identity req d)) = dk_sent d /\ dk_tasks (snd (forwarded identity req d)) = dk_tasks d /\
    dk_replies (snd (forwarded identity req d)) = dk_replies d) as (H1 & H2 & H3).
  { unfold forwarded. repeat case_match; simplify_eq; done. }
  destruct (forwarded identity req d) as [[] d1]; cbn [fst snd] in *; [intros [= <- <-]; naive_solver|].
  assert (forall x, answered identity req d1 x -> answered identity req d x) as Hans.
  { intros x (resp & E). rewrite H1, H2, H3 in E. by exists resp. }
  assert (answer_inline identity req d1 = Some (r, d') -> r = Ok tt /\ answered identity req d d') as Hin.
  { intros [-> Ha]%answer_inline_spec. auto. }
  unfold local_request, is_lifecycle. destruct (unhashable (dget req "type")) eqn:Eu.
  { intros [= <- <-]. left. split_and!; congruence. }
  intros E. right. revert E.
  destruct (dget req "type") as [| | | |rtype| |]; try (intros [-> ?]%Hin; by auto).
  case_bool_decide; [|intros [-> ?]%Hin; by auto]. destruct (dget req "device_id") as [| | | |device_id| |]; try (intros [-> ?]%Hin; by auto).
  destruct (local_device device_id (dk_state d1)); [|intros [-> ?]%Hin; by auto]. intros [= <- <-]. split; [done|].
  unfold _dispatch_lifecycle_task. destruct (pool_open _); cbn.
  - right. left. exists rtype, device_id. split; cbn; congruence.
  - left. eexists. split_and!; cbn; [rewrite H1; reflexivity|done..].
Qed.

(** What the pool took is answered once, too, when it is done. *)
Lemma lifecycle_answers_once t d d' : _run_lifecycle t d = Some d' ->
  exists resp, dk_replies d' = dk_replies d ++ [(tk_identity t, echo (tk_req t) resp)] /\
    dk_sent (_drain_lifecycle_replies d') = dk_sent d ++ dk_replies d ++ [(tk_identity t, echo (tk_req t) resp)].
Proof.
  unfold _run_lifecycle. destruct (route_device _ _) as [h|].
  - destruct (h (dk_state d)) as [[[resp|e] s]|]; [| |done]; intros [= <-]; by eexists.
  - intros [= <-]. by eexists.
Qed.
End requests.

(** A request whose type is a list gets no answer: the exception leaves the
    poll loop of the manager, which does not catch it. *)
Module RequestsDemo.
#[local] Existing Instance plain_repr.
Definition no_routes : RpcDispatchRegistry (dict -> waitM unit dict) := build_registry [] [].
Example listed_type_raises :
  _handle_internal_rpc no_routes no_routes no_routes no_routes (fun _ _ => None) (fun _ _ => false) (fun _ _ => false) (fun _ => true)
    (fun _ _ _ _ s => (false, s)) (fun _ _ _ s => (false, s)) "client" (PDict [("type", PList [])]) (mkDesk unit tt [] [] [])
  = Some (Err hash_error, mkDesk unit tt [] [] []).
Proof. reflexivity. Qed.
(** A command without a device is answered as an unknown type of request. *)
Example missing_device_is_unknown_type :
  (fun '(_, d) => dk_sent d) <$>
  _handle_internal_rpc no_routes no_routes no_routes no_routes (fun _ _ => Some (fails (KeyError "device_id"))) (fun _ _ => false) (fun _ _ => false)
    (fun _ => true) (fun _ _ _ _ s => (false, s)) (fun _ _ _ s => (false, s)) "client"
    (PDict [("type", PStr "command"); ("request_id", PInt 4)]) (mkDesk unit tt [] [] [])
  = Some [("client", rpc_error "unknown_request_type" "'device_id'" None ++ [("request_id", PInt 4)])].
Proof. reflexivity. Qed.
End RequestsDemo.
