(* ===== verification/ManagerClient.v ===== *)
(** * The manager's client in a process

    [manager_client.py]: requests over one DEALER socket, which does not tell
    whose reply it hands out, and the cache of the telemetry the manager
    publishes; with [drain_multipart_nonblocking] of [utils/zmq_helpers.py].
    The sockets, the clocks and [uuid4] are the class [ClientWorld].  Loops on
    sockets take fuel, one unit per round, and give [None] when it is used up. *)
From S2P Require Import Prelude PyVal PyNum PyOps ProcessBase CommandRouting ManagerRequests.
#[local] Open Scope Z_scope.

Class ClientWorld (W : Type) := {
  cw_send : pyval -> W -> result unit * W;               (* json_dumps and send *)
  cw_poll : Z -> W -> result bool * W;                   (* poll(ms, POLLIN) *)
  cw_recv : W -> result (result pyval) * W;              (* recv(NOBLOCK): the bytes, as json_loads reads them *)
  cw_clock : W -> Q * W;                                 (* time.monotonic() *)
  cw_wall : W -> Q * W;                                  (* time.time() *)
  cw_uuid : W -> string * W;                             (* uuid.uuid4().hex *)
  cw_sub : W -> option (string * pyval) * W              (* the next publication, or none *)
}.

(** Samples by owner and signal *)
Abbreviation telemetry := (list (string * list (string * dict))).

Record client {W : Type} := mkClient {
  cl_rpc_timeout_ms : Z;
  cl_process_id : option string;
  cl_subscribed : bool;
  cl_telemetry_cache : telemetry;
  cl_process_telemetry_cache : telemetry;
  cl_drained_total : Z;
  cl_last_drain_count : Z;
  cl_last_drain_duration_s : Q;
  cl_drain_limited_count : Z;
  cl_parse_errors : Z;
  cl_maybe_stale_reply : bool;
  cl_world : W
}.
Arguments client : clear implicits.
#[export] Instance client_eta {W} : Eta (client W) := fun c =>
  mkClient W (cl_rpc_timeout_ms c) (cl_process_id c) (cl_subscribed c) (cl_telemetry_cache c) (cl_process_telemetry_cache c)
    (cl_drained_total c) (cl_last_drain_count c) (cl_last_drain_duration_s c) (cl_drain_limited_count c) (cl_parse_errors c)
    (cl_maybe_stale_reply c) (cl_world c).

Definition new_client {W} (rpc_timeout_ms : Z) (process_id : option string) (subscribe_telemetry : bool) (w : W) : client W :=
  mkClient W rpc_timeout_ms process_id subscribe_telemetry [] [] 0 0 0 0 0 false w.

Section client.
Context `{HR : !PyRepr} {W : Type} `{HW : !ClientWorld W}.
#[local] Abbreviation st := (client W).

Definition with_world {A} (f : W -> result A * W) : pyM st A := fun c =>
  let '(r, w) := f (cl_world c) in (r, c <| cl_world := w |>).
Definition pure_world {A} (f : W -> A * W) : pyM st A := with_world (fun w => let '(a, w) := f w in (Ok a, w)).
Definition monotonic : pyM st Q := pure_world cw_clock.
Definition set_stale (b : bool) : pyM st unit := modify (fun c : st => c <| cl_maybe_stale_reply := b |>).

(** ** Requests *)
Fixpoint _drain_stale_replies (fuel : nat) : waitM st unit :=
  match fuel with
  | O => fun _ => None
  | S fuel => except
      (ready ← at_once (with_world (cw_poll 0));
       if negb ready then mret tt
       else (_ ← at_once (with_world cw_recv); _drain_stale_replies fuel))
      (fun _ => mret tt)
  end.

Definition setdefault_none (k : string) (v : pyval) (d : dict) : dict := if is_none (dget d k) then od_set d k v else d.

(** The payload as it goes out, but for its id *)
Definition stamped (process_id : option string) (payload : dict) : result dict :=
  if unhashable (dget payload "type") then Err hash_error
  else
    match match process_id with Some p => or_none p | None => None end with
    | Some p =>
        if py_eqb (dget payload "type") (PStr "command") || py_eqb (dget payload "type") (PStr "manager.processes.rpc")
        then Ok (setdefault_none "source_id" (PStr p) (setdefault_none "source_kind" (PStr "process")
                   (setdefault_none "caller_process_id" (PStr p) payload)))
        else Ok payload
    | None => Ok payload
    end.

Definition outbound_of (payload : pyval) : pyM st pyval := fun c =>
  match payload with
  | PDict payload =>
      match stamped (cl_process_id c) payload with
      | Err e => (Err e, c)
      | Ok outbound =>
          if dhas outbound "request_id" then (Ok (PDict outbound), c)
          else let '(id, w) := cw_uuid (cl_world c) in (Ok (PDict (od_set outbound "request_id" (PStr id))), c <| cl_world := w |>)
      end
  | v => (Ok v, c)
  end.

Definition expected_request_id (outbound : pyval) : pyval := match outbound with PDict d => dget d "request_id" | _ => PNone end.

(** A reply to some other request *)
Definition stale_reply (expected : pyval) (resp : dict) : bool :=
  let rid := dget resp "request_id" in negb (is_none expected) && negb (is_none rid) && negb (py_eqb rid expected).

Fixpoint await_reply (fuel : nat) (deadline : Q) (expected : pyval) : waitM st dict :=
  match fuel with
  | O => fun _ => None
  | S fuel =>
      t ← at_once monotonic;
      let remaining_ms := ((deadline - t) * 1000)%Q in
      if Qle_bool remaining_ms 0 then (_ ← at_once (set_stale true); fails ZmqAgain)
      else
        ready ← at_once (with_world (cw_poll (Z.max 1 (Qround.Qfloor remaining_ms))));
        if negb ready then await_reply fuel deadline expected
        else
          raw ← at_once (with_world cw_recv);
          resp ← at_once (lift raw);
          match resp with
          | PDict resp => if stale_reply expected resp then await_reply fuel deadline expected else mret resp
          | _ => await_reply fuel deadline expected
          end
  end.

Definition round_trip (fuel : nat) (outbound : pyval) (timeout_ms : Z) : waitM st dict :=
  stale ← at_once (gets cl_maybe_stale_reply);
  _ ← (if stale : bool then (_ ← _drain_stale_replies fuel; at_once (set_stale false)) else mret tt);
  _ ← at_once (with_world (cw_send outbound));
  t ← at_once monotonic;
  await_reply fuel (t + inject_Z timeout_ms / 1000)%Q (expected_request_id outbound).

Definition call (fuel : nat) (payload : pyval) (timeout_ms : option Z) : waitM st (option dict) :=
  default_ms ← at_once (gets cl_rpc_timeout_ms);
  outbound ← at_once (outbound_of payload);
  except (resp ← round_trip fuel outbound (default default_ms timeout_ms); mret (Some resp))
    (fun _ => _ ← at_once (set_stale true); mret None).

Definition advertise_process_rpc (fuel : nat) (process_id rpc_endpoint : string) : waitM st unit :=
  _ ← call fuel (PDict [("type", PStr "manager.processes.rpc.advertise"); ("process_id", PStr process_id);
                        ("rpc_endpoint", PStr rpc_endpoint)]) None; mret tt.

Definition advertise_process_telemetry_schema (fuel : nat) (process_id : string) (schema : list dict) : waitM st unit :=
  _ ← call fuel (PDict [("type", PStr "manager.process_telemetry.schema.advertise"); ("process_id", PStr process_id);
                        ("schema", PList (PDict <$> schema))]) None; mret tt.

Definition setnew (k : string) (v : option pyval) (d : dict) : dict :=
  match v with Some v => if dhas d k then d else od_set d k v | None => d end.

Definition publish_event (fuel : nat) (topic : string) (payload : dict) (include_process_id include_ts : bool)
    (severity device_id : option string) : waitM st unit :=
  process_id ← at_once (gets cl_process_id);
  let data := if include_process_id
              then setnew "process_id" (PStr <$> match process_id with Some p => or_none p | None => None end) payload else payload in
  ts ← (if include_ts && negb (dhas data "ts") then at_once (
          w ← pure_world cw_wall; m ← monotonic;
          mret (Some (PDict [("t_wall", PFloat (FFin w)); ("t_mono", PFloat (FFin m))])))
        else mret None);
  let data := setnew "device_id" (PStr <$> device_id) (setnew "severity" (PStr <$> severity) (setnew "ts" ts data)) in
  _ ← call fuel (PDict [("type", PStr "manager.events.publish"); ("topic", PStr topic); ("payload", PDict data)]) None; mret tt.

(** ** Telemetry *)
Definition textual (v : pyval) : bool := match v with PStr _ | PBool _ | PInt _ | PFloat _ => true | _ => false end.

(** The bundle's time, or now *)
Definition bundle_ts (ts_raw : pyval) : pyM st (pyval * pyval) :=
  let '(t_wall, t_mono) := match ts_raw with PDict d => (dget d "t_wall", dget d "t_mono") | _ => (PNone, PNone) end in
  if textual t_wall && textual t_mono then
    w ← lift (py_float t_wall); m ← lift (py_float t_mono); mret (PFloat w, PFloat m)
  else w ← pure_world cw_wall; m ← monotonic; mret (PFloat (FFin w), PFloat (FFin m)).

Definition sample_of (bundle : pyval * pyval) (now_mono : Q) (s : dict) : dict :=
  let '(t_wall, t_mono) := match py_or (dget s "ts") (PDict []) with
                           | PDict ts => (dget_or ts "t_wall" (fst bundle), dget_or ts "t_mono" (snd bundle))
                           | _ => bundle
                           end in
  [("value", dget s "value"); ("units", dget s "units"); ("quality", dget s "quality"); ("t_wall", t_wall); ("t_mono", t_mono);
   ("t_mono_recv", PFloat (FFin now_mono))].

Definition ingest_signal (bundle : pyval * pyval) (now_mono : Q) (cache : list (string * dict)) (entry : string * pyval) : list (string * dict) :=
  match snd entry with PDict s => od_set cache (fst entry) (sample_of bundle now_mono s) | _ => cache end.

Definition _ingest_signal_bundle (signals : dict) (ts_raw : pyval) (cache : list (string * dict)) : pyM st (list (string * dict)) :=
  bundle ← bundle_ts ts_raw;
  now_mono ← monotonic;
  mret (foldl (ingest_signal bundle now_mono) cache signals).

(** An update of one owner, in the cache [get] and [put] name; the owner has
    its entry before its signals are read. *)
Definition handle_update (get : st -> telemetry) (put : telemetry -> st -> st) (id_key : string) (payload : dict) : pyM st unit := fun c =>
  let owner := py_str (dget_or payload id_key (PStr "")) in
  match nonempty owner, dget_or payload "signals" (PDict []) with
  | true, PDict signals =>
      let cache := default [] (od_get (get c) owner) in
      (samples ← (fun c => _ingest_signal_bundle signals (py_or (dget_or payload "ts" (PDict [])) (PDict [])) cache
                            (put (od_set (get c) owner cache) c));
       modify (fun c => put (od_set (get c) owner samples) c)) c
  | _, _ => (Ok tt, c)
  end.

Definition _handle_telemetry_update : dict -> pyM st unit :=
  handle_update cl_telemetry_cache (fun t c => c <| cl_telemetry_cache := t |>) "device_id".
Definition _handle_process_telemetry_update : dict -> pyM st unit :=
  handle_update cl_process_telemetry_cache (fun t c => c <| cl_process_telemetry_cache := t |>) "process_id".

Definition _latest_with_age (cache : telemetry) (owner_id signal : string) : pyM st (option dict) :=
  match od_get (default [] (od_get cache owner_id)) signal with
  | None => mret None
  | Some sample =>
      now ← monotonic;
      age_s ← lift (if negb (is_none (dget sample "t_mono_recv")) then (fun t => PFloat (fsub (FFin now) t)) <$> py_float (dget sample "t_mono_recv")
                    else if negb (is_none (dget sample "t_mono")) then (fun t => PFloat (fsub (FFin now) t)) <$> py_float (dget sample "t_mono")
                    else Ok PNone);
      mret (Some (od_set sample "age_s" age_s))
  end.

Definition get_latest (device_id signal : string) : pyM st (option dict) := fun c => _latest_with_age (cl_telemetry_cache c) device_id signal c.
Definition get_latest_process (process_id signal : string) : pyM st (option dict) := fun c =>
  _latest_with_age (cl_process_telemetry_cache c) process_id signal c.

(** ** Draining the subscription *)
Definition handle_publication (topic : string) (payload : pyval) : pyM st bool :=
  match payload with
  | PDict payload =>
      _ ← (if String.eqb topic "manager.process_telemetry_update" then _handle_process_telemetry_update payload
           else _handle_telemetry_update payload);
      mret true
  | _ => mret false
  end.

(** [bool(handler(...))], [False] when it raises *)
Definition handled_well (topic : string) (payload : pyval) (c : st) : bool * st :=
  match handle_publication topic payload c with (Ok b, c) => (b, c) | (Err _, c) => (false, c) end.

Record DrainResult := mkDrain { dr_count : Z; dr_limited : bool; dr_parse_errors : Z }.

Fixpoint drain_multipart_nonblocking (fuel : nat) (max_count : option Z) (max_duration : option Q) (start : Q) (count parse_errors : Z)
    (c : st) : option (DrainResult * st) :=
  match fuel with
  | O => None
  | S fuel =>
      if match max_count with Some m => m <=? count | None => false end then Some (mkDrain count true parse_errors, c)
      else
        let '(late, c) := match max_duration with
                          | Some m => let '(t, w) := cw_clock (cl_world c) in (Qle_bool m (t - start), c <| cl_world := w |>)
                          | None => (false, c)
                          end in
        if late : bool then Some (mkDrain count true parse_errors, c)
        else
          match cw_sub (cl_world c) with
          | (None, w) => Some (mkDrain count false parse_errors, c <| cl_world := w |>)
          | (Some (topic, payload), w) =>
              let '(ok, c) := handled_well topic payload (c <| cl_world := w |>) in
              drain_multipart_nonblocking fuel max_count max_duration start (count + 1) (if ok : bool then parse_errors else parse_errors + 1) c
          end
  end.

Definition drain_telemetry (fuel : nat) (max_messages : option Z) (max_duration_s : option Q) (c : st) : option (dict * st) :=
  if negb (cl_subscribed c) then Some ([("count", PInt 0); ("limited", PBool false); ("duration_s", PFloat (FFin 0)); ("parse_errors", PInt 0)], c)
  else
    let '(start, w) := cw_clock (cl_world c) in
    match drain_multipart_nonblocking fuel (Z.max 1 <$> max_messages) (fmax 0 <$> max_duration_s) start 0 0 (c <| cl_world := w |>) with
    | None => None
    | Some (r, c) =>
        let '(t, w) := cw_clock (cl_world c) in
        let duration := (t - start)%Q in
        Some ([("count", PInt (dr_count r)); ("limited", PBool (dr_limited r)); ("duration_s", PFloat (FFin duration));
               ("parse_errors", PInt (dr_parse_errors r))],
              c <| cl_world := w |> <| cl_drained_total := cl_drained_total c + dr_count r |> <| cl_last_drain_count := dr_count r |>
                <| cl_last_drain_duration_s := duration |> <| cl_parse_errors := cl_parse_errors c + dr_parse_errors r |>
                <| cl_drain_limited_count := cl_drain_limited_count c + Z.b2z (dr_limited r) |>)
    end.
End client.

(** * A reply is the reply to one's own request

    The properties of [ManagerClient], against the replies [ManagerRequests]
    makes. *)

(** [v] answers the request [r]: a handler's answer, with the id of [r]. *)
Definition answers (r : dict) (v : pyval) : Prop := exists resp, dhas resp "request_id" = false /\ v = PDict (echo r resp).

(** What the line to the manager does, in terms of the requests [asked] on it:
    what comes back answers a request that was sent, whenever it comes back,
    and [uuid4] gives no id twice. *)
Record line_ok {W : Type} `{HW : !ClientWorld W} (asked : W -> list dict) : Prop := {
  lo_send : forall r w x w', cw_send (PDict r) w = (x, w') -> asked w' = match x with Ok _ => asked w ++ [r] | Err _ => asked w end;
  lo_poll : forall ms w, asked (snd (cw_poll ms w)) = asked w;
  lo_recv : forall w, asked (snd (cw_recv w)) = asked w;
  lo_clock : forall w, asked (snd (cw_clock w)) = asked w;
  lo_uuid : forall w, asked (snd (cw_uuid w)) = asked w;
  lo_answers : forall w v w', cw_recv w = (Ok (Ok v), w') -> exists r, r ∈ asked w /\ answers r v;
  lo_fresh : forall w id w' r, cw_uuid w = (id, w') -> r ∈ asked w -> dget r "request_id" <> PStr id
}.

Section own.
Context `{HR : !PyRepr} {W : Type} `{HW : !ClientWorld W}.
#[local] Abbreviation st := (client W).
Context (asked : W -> list dict) (Hline : line_ok asked).
#[local] Abbreviation asked_of := (fun c : st => asked (cl_world c)).

Lemma py_eqb_str v s : py_eqb v (PStr s) = true -> v = PStr s.
Proof. destruct v as [|[]| |[]| | |]; cbn; try done. by intros ->%String.eqb_eq. Qed.

Lemma keep_world {A} (f : W -> result A * W) (c : st) :
  (forall w, asked (snd (f w)) = asked w) -> asked_of (snd (with_world f c)) = asked_of c.
Proof. intros H. unfold with_world. specialize (H (cl_world c)). by destruct (f (cl_world c)). Qed.
Lemma keep_clock (c : st) : asked_of (snd (monotonic c)) = asked_of c.
Proof. apply keep_world. intros w. pose proof (lo_clock _ Hline w). by destruct (cw_clock w). Qed.

Lemma drain_keeps fuel (c : st) r c' : _drain_stale_replies fuel c = Some (r, c') -> asked_of c' = asked_of c.
Proof.
  revert c r. induction fuel as [|fuel IH]; intros c r; [done|]. cbn [_drain_stale_replies]. unfold except, mbind, waitM_bind, at_once.
  pose proof (keep_world (cw_poll 0) c (lo_poll _ Hline 0)) as H1. destruct (with_world _ c) as [[[]|e] c1]; cbn [snd] in H1; cycle 1.
  { cbn. by intros [= _ <-]. }
  { by intros [= _ <-]. }
  pose proof (keep_world cw_recv c1 (lo_recv _ Hline)) as H2. cbn [negb]. destruct (with_world _ c1) as [[raw|e] c2]; cbn [snd] in H2.
  - destruct (_drain_stale_replies fuel c2) as [[[u|e] c3]|] eqn:E; [| |done]; intros [= _ <-]; rewrite (IH _ _ E); congruence.
  - intros [= _ <-]. congruence.
Qed.

Lemma await_spec fuel deadline expected (c : st) resp c' :
  await_reply fuel deadline expected c = Some (Ok resp, c') ->
  asked_of c' = asked_of c /\ stale_reply expected resp = false /\ exists r, r ∈ asked_of c /\ answers r (PDict resp).
Proof.
  revert c. induction fuel as [|fuel IH]; intros c; [done|]. cbn [await_reply]. unfold mbind, waitM_bind, at_once.
  pose proof (keep_clock c) as H1. destruct (monotonic c) as [[t|e] c1]; cbn [snd] in H1; [|done]. destruct (Qle_bool _ 0); [done|].
  set (ms := Z.max 1 _). pose proof (keep_world (cw_poll ms) c1 (lo_poll _ Hline ms)) as H2.
  destruct (with_world _ c1) as [[[]|e] c2]; cbn [snd negb] in *; [| |done]; cycle 1.
  { intros E%IH. rewrite H2, H1 in E. done. }
  pose proof (keep_world cw_recv c2 (lo_recv _ Hline)) as H3. unfold with_world at 1. unfold with_world at 1 in H3.
  destruct (cw_recv (cl_world c2)) as [[raw|e] w] eqn:Er; [|done]. cbn [snd] in H3. unfold lift. destruct raw as [v|e]; [|done].
  assert (forall c3, asked_of c3 = asked_of c2 -> await_reply fuel deadline expected c3 = Some (Ok resp, c') ->
    asked_of c' = asked_of c /\ stale_reply expected resp = false /\ exists r, r ∈ asked_of c /\ answers r (PDict resp)) as Hgo.
  { intros c3 H4 E%IH. rewrite H4, H2, H1 in E. done. }
  destruct v as [| | | | | |d]; try (by apply Hgo). destruct (stale_reply expected d) eqn:Es; [by apply Hgo|].
  intros [= <- <-]. split_and!; [congruence|done|]. destruct (lo_answers _ Hline _ _ _ Er) as (r & Hr & Ha).
  exists r. split; [|done]. by rewrite <- H1, <- H2.
Qed.

Lemma stamped_type process_id payload outbound :
  stamped process_id payload = Ok outbound -> dget outbound "type" = dget payload "type" /\
  (dhas payload "request_id" = false -> dhas outbound "request_id" = false).
Proof.
  assert (forall k v d, k <> "type" -> k <> "request_id" -> dget (setdefault_none k v d) "type" = dget d "type" /\
    dhas (setdefault_none k v d) "request_id" = dhas d "request_id") as Hs.
  { intros k v d Hk Hk'. unfold setdefault_none, dget, dhas. destruct (is_none _); [|done]. by rewrite !od_get_set_ne. }
  unfold stamped. destruct (unhashable _); [done|]. destruct (match process_id with Some p => _ | None => _ end) as [p|]; [|by intros [= <-]].
  destruct (_ || _); [|by intros [= <-]]. intros [= <-].
  destruct (Hs "source_id" (PStr p) (setdefault_none "source_kind" (PStr "process") (setdefault_none "caller_process_id" (PStr p) payload))) as [-> ->]; [done..|].
  destruct (Hs "source_kind" (PStr "process") (setdefault_none "caller_process_id" (PStr p) payload)) as [-> ->]; [done..|].
  by destruct (Hs "caller_process_id" (PStr p) payload) as [-> ->].
Qed.

Lemma round_spec fuel outbound timeout_ms (c : st) resp c' :
  round_trip fuel (PDict outbound) timeout_ms c = Some (Ok resp, c') ->
  asked_of c' = asked_of c ++ [outbound] /\ stale_reply (dget outbound "request_id") resp = false /\
  exists r, r ∈ asked_of c ++ [outbound] /\ answers r (PDict resp).
Proof.
  unfold round_trip, mbind at 1, waitM_bind at 1, at_once at 1. cbn [gets].
  set (drain := if cl_maybe_stale_reply c then _ else _).
  assert (forall r c1, drain c = Some (r, c1) -> asked_of c1 = asked_of c) as Hd.
  { intros r c1. unfold drain. destruct (cl_maybe_stale_reply c); [|by intros [= _ <-]]. unfold mbind, waitM_bind, at_once.
    destruct (_drain_stale_replies fuel c) as [[[u|e] c2]|] eqn:E; [| |done]; intros [= _ <-]; by apply drain_keeps in E. }
  unfold mbind, waitM_bind. destruct (drain c) as [[[u|e] c1]|]; [|done..]. pose proof (Hd _ _ eq_refl) as E. unfold at_once.
  unfold with_world. destruct (cw_send (PDict outbound) (cl_world c1)) as [x w] eqn:Es. apply (lo_send _ Hline) in Es.
  destruct x as [u'|e]; [|done]. set (c2 := c1 <| cl_world := w |>).
  assert (asked_of c2 = asked_of c ++ [outbound]) as H2 by by rewrite <- E.
  pose proof (keep_clock c2) as H3. destruct (monotonic c2) as [[t|e] c3]; cbn [snd] in H3; [|done].
  intros (Ha & Hs & r & Hr & Hans)%await_spec. rewrite H3, H2 in *. eauto.
Qed.

(** C31. A client is given the answer to its own request.  Replies of earlier
    requests that timed out may arrive at any time, before or after the next
    request is sent and in any order; if [call] returns a reply, it is the
    manager's answer to the request this call sent, which has the type of its
    payload and an id of its own.  The manager's replies are those of
    [_handle_internal_rpc] for handlers that leave the id to it. *)
Theorem own_reply fuel payload timeout_ms (c : st) resp c' :
  dhas payload "request_id" = false -> (forall r, r ∈ asked_of c -> dget r "request_id" <> PNone) ->
  call fuel (PDict payload) timeout_ms c = Some (Ok (Some resp), c') ->
  exists outbound, asked_of c' = asked_of c ++ [outbound] /\ dget outbound "type" = dget payload "type" /\
    dget outbound "request_id" <> PNone /\ answers outbound (PDict resp).
Proof.
  intros Hp Hids. unfold call, mbind at 1 2, waitM_bind at 1 2, at_once at 1 2. cbn [gets]. unfold outbound_of.
  destruct (stamped (cl_process_id c) payload) as [out|e] eqn:Est; [|done]. apply stamped_type in Est as [Ht Hh].
  rewrite (Hh Hp). destruct (cw_uuid (cl_world c)) as [id w1] eqn:Eu.
  set (c1 := c <| cl_world := w1 |>). assert (asked_of c1 = asked_of c) as H1.
  { pose proof (lo_uuid _ Hline (cl_world c)) as H. by rewrite Eu in H. }
  set (outbound := od_set out "request_id" (PStr id)).
  assert (dget outbound "request_id" = PStr id) as Hid by apply Responses.dget_set_eq.
  assert (dget outbound "type" = dget payload "type") as Hty by (unfold outbound; by rewrite Responses.dget_set_ne).
  clearbody outbound. unfold except, mbind, waitM_bind. destruct (round_trip _ _ _ c1) as [[[resp'|e] c2]|] eqn:Er; [|done..].
  intros [= -> ->]. apply round_spec in Er as (Ha & Hs & r & Hr & Hans). rewrite H1 in Ha, Hr. exists outbound.
  split_and!; [done|done|by rewrite Hid|]. apply elem_of_app in Hr as [Hr|Hr]; [exfalso|by apply list_elem_of_singleton in Hr as ->].
  destruct Hans as (resp0 & Hn & [= ->]). unfold stale_reply in Hs. rewrite Hid, (echo_id r resp0 Hn) in Hs.
  specialize (Hids r Hr). destruct (is_none (dget r "request_id")) eqn:En; [by destruct (dget r "request_id")|].
  cbn in Hs. apply negb_false_iff, py_eqb_str in Hs. by apply (lo_fresh _ Hline _ _ _ r Eu Hr).
Qed.
End own.

(** ** A call comes back *)
Section back.
Context `{HR : !PyRepr} {W : Type} `{HW : !ClientWorld W}.
#[local] Abbreviation st := (client W).

(** Time passes as in [RoutingTheorems], and [backlog w] frames are still to
    come in [w]. *)
Record traffic_ends (now : W -> Q) (backlog : W -> nat) : Prop := {
  te_clock : forall w t w', cw_clock w = (t, w') -> (now w <= t)%Q /\ (t <= now w')%Q /\ (backlog w' <= backlog w)%nat;
  te_poll : forall ms w r w', cw_poll ms w = (r, w') -> (backlog w' <= backlog w)%nat /\
              (now w + (if r is Ok false then inject_Z ms / 1000 else 0) <= now w')%Q;
  te_recv : forall w r w', cw_recv w = (r, w') -> (backlog w' + (if r is Ok _ then 1 else 0) <= backlog w)%nat /\ (now w <= now w')%Q;
  te_send : forall v w r w', cw_send v w = (r, w') -> (backlog w' <= backlog w)%nat;
  te_uuid : forall w id w', cw_uuid w = (id, w') -> (backlog w' <= backlog w)%nat
}.
Context (now : W -> Q) (backlog : W -> nat) (Hends : traffic_ends now backlog).

Lemma drain_ends fuel (c : st) : (backlog (cl_world c) < fuel)%nat ->
  exists c', _drain_stale_replies fuel c = Some (Ok tt, c') /\ (backlog (cl_world c') <= backlog (cl_world c))%nat.
Proof.
  revert c. induction fuel as [|fuel IH]; intros c Hb; [lia|]. cbn [_drain_stale_replies]. unfold except, mbind, waitM_bind, at_once, with_world at 1.
  destruct (cw_poll 0 (cl_world c)) as [r w] eqn:Ep. apply (te_poll _ _ Hends) in Ep as [Hp _]. destruct r as [[]|e]; cbn [negb]; [|by eexists..].
  unfold with_world. change (cl_world (c <| cl_world := w |>)) with w. destruct (cw_recv w) as [r w2] eqn:Er. apply (te_recv _ _ Hends) in Er as [Hr _].
  destruct r as [raw|e]; cbn in Hr; [|eexists; split; [reflexivity|cbn; lia]].
  destruct (IH (c <| cl_world := w |> <| cl_world := w2 |>)) as (c' & -> & Hc); [cbn; lia|]. exists c'. split; [done|]. cbn in Hc. lia.
Qed.

Lemma await_returns n deadline expected (c : st) :
  ((deadline - now (cl_world c)) * 1000 + inject_Z (Z.of_nat (backlog (cl_world c))) < inject_Z (Z.of_nat n))%Q ->
  await_reply (S n) deadline expected c <> None.
Proof.
  revert c. induction n as [|n IH]; intros c Hn; [|remember (S n) as k eqn:Ek].
  all: cbn [await_reply]; unfold mbind, waitM_bind, at_once, monotonic, pure_world, with_world at 1.
  all: destruct (cw_clock (cl_world c)) as [t w] eqn:Et; apply (te_clock _ _ Hends) in Et as (Ht1 & Ht2 & Ht3); cbn iota.
  all: destruct (Qleb_spec ((deadline - t) * 1000) 0) as [Er|Er]; [done|].
  { exfalso. change (inject_Z (Z.of_nat 0)) with 0%Q in Hn. assert (0 <= inject_Z (Z.of_nat (backlog (cl_world c))))%Q
      by (change 0%Q with (inject_Z 0); rewrite <- Zle_Qle; lia). Lqa.lra. }
  set (ms := Z.max 1 _). assert (1 <= inject_Z ms)%Q as Hms by (change 1%Q with (inject_Z 1); rewrite <- Zle_Qle; lia).
  assert (inject_Z ms / 1000 * 1000 == inject_Z ms)%Q as Hdiv by (field; discriminate). clearbody ms.
  assert (inject_Z (Z.of_nat k) == inject_Z (Z.of_nat n) + 1)%Q as Hk.
  { rewrite Ek, Nat2Z.inj_succ, <- Z.add_1_r, inject_Z_plus. reflexivity. }
  assert (forall a b : nat, (a <= b)%nat -> (inject_Z (Z.of_nat a) <= inject_Z (Z.of_nat b))%Q) as Hle by (intros; rewrite <- Zle_Qle; lia).
  unfold with_world at 1. change (cl_world (c <| cl_world := w |>)) with w. destruct (cw_poll ms w) as [r w2] eqn:Ep. apply (te_poll _ _ Hends) in Ep as [Hp1 Hp2].
  destruct r as [[]|e]; cbn [negb]; [| |done].
  - unfold with_world. change (cl_world (c <| cl_world := w |> <| cl_world := w2 |>)) with w2. destruct (cw_recv w2) as [r w3] eqn:Ec. apply (te_recv _ _ Hends) in Ec as [Hr1 Hr2].
    destruct r as [raw|e]; [|done]. cbn in Hp2, Hr1. unfold lift. destruct raw as [v|e]; [|done].
    assert (inject_Z (Z.of_nat (backlog w3)) + 1 <= inject_Z (Z.of_nat (backlog (cl_world c))))%Q as Hb.
    { change 1%Q with (inject_Z 1). rewrite <- inject_Z_plus, <- Zle_Qle. lia. }
    assert (await_reply k deadline expected (c <| cl_world := w |> <| cl_world := w2 |> <| cl_world := w3 |>) <> None) as Hgo.
    { apply IH. cbn. Lqa.lra. }
    destruct v as [| | | | | |d]; try done. by destruct (stale_reply expected d).
  - apply IH. cbn in *. pose proof (Hle (backlog w2) (backlog (cl_world c)) ltac:(lia)). Lqa.lra.
Qed.

(** If the traffic on the line ends, a call does: it takes no more rounds than
    its timeout has milliseconds and frames are still to come, and two more. *)
Theorem call_comes_back fuel payload timeout_ms (c : st) :
  (Z.to_nat (default (cl_rpc_timeout_ms c) timeout_ms) + backlog (cl_world c) + 2 <= fuel)%nat ->
  call fuel payload timeout_ms c <> None.
Proof.
  intros Hf. unfold call, mbind, waitM_bind, at_once. cbn [gets].
  assert (backlog (cl_world (snd (outbound_of payload c))) <= backlog (cl_world c))%nat as Hb.
  { unfold outbound_of. destruct payload; try done. destruct (stamped _ _); [|done]. destruct (dhas _ _); [done|].
    destruct (cw_uuid (cl_world c)) as [id w] eqn:Eu. by apply (te_uuid _ _ Hends) in Eu. }
  destruct (outbound_of payload c) as [[outbound|e] c1]; [|done]. cbn [snd] in Hb. unfold except.
  enough (round_trip fuel outbound (default (cl_rpc_timeout_ms c) timeout_ms) c1 <> None) as H
    by (by destruct (round_trip _ _ _ c1) as [[[]]|]).
  unfold round_trip, mbind, waitM_bind, at_once. cbn [gets].
  set (drain := if cl_maybe_stale_reply c1 then _ else _).
  assert (exists c2, drain c1 = Some (Ok tt, c2) /\ (backlog (cl_world c2) <= backlog (cl_world c1))%nat) as (c2 & -> & Hd).
  { unfold drain. destruct (cl_maybe_stale_reply c1); [|by exists c1].
    destruct (drain_ends fuel c1) as (c2 & -> & Hd); [lia|]. by exists (snd (set_stale false c2)). }
  unfold with_world. destruct (cw_send outbound (cl_world c2)) as [[[]|e] w] eqn:Es; [|done]. apply (te_send _ _ Hends) in Es.
  unfold monotonic, pure_world, with_world. change (cl_world (c2 <| cl_world := w |>)) with w. destruct (cw_clock w) as [t w3] eqn:Et.
  apply (te_clock _ _ Hends) in Et as (_ & Ht & Hb3). destruct fuel as [|n]; [lia|]. apply await_returns. cbn.
  set (ms := default (cl_rpc_timeout_ms c) timeout_ms) in *.
  assert (inject_Z ms + inject_Z (Z.of_nat (backlog w3)) < inject_Z (Z.of_nat n))%Q by (rewrite <- inject_Z_plus, <- Zlt_Qlt; lia).
  assert (inject_Z ms / 1000 * 1000 == inject_Z ms)%Q by (field; discriminate). Lqa.lra.
Qed.
End back.

(** ** Telemetry *)
Section telemetry.
Context `{HR : !PyRepr} {W : Type} `{HW : !ClientWorld W}.
#[local] Abbreviation st := (client W).

Lemma ingest_other bundle now signals cache name : name ∉ od_keys signals ->
  od_get (foldl (ingest_signal bundle now) cache signals) name = od_get cache name.
Proof.
  revert cache. induction signals as [|[k v] l IH]; intros cache Hn; [done|]. apply not_elem_of_cons in Hn as [Hk Hn]. cbn [foldl].
  rewrite IH by done. unfold ingest_signal. cbn. destruct v; try done. by rewrite od_get_set_ne.
Qed.
Lemma ingest_newest bundle now signals cache name s : od_wf signals -> od_get signals name = Some (PDict s) ->
  od_get (foldl (ingest_signal bundle now) cache signals) name = Some (sample_of bundle now s).
Proof.
  revert cache. induction signals as [|[k v] l IH]; intros cache Hwf Hs; [done|]. inversion_clear Hwf as [|? ? Hk Hl]. cbn [foldl].
  cbn in Hs. destruct (decide (k = name)) as [->|Hn].
  - injection Hs as ->. rewrite ingest_other by done. unfold ingest_signal. cbn. by rewrite od_get_set_eq.
  - by apply IH.
Qed.

Lemma latest_sample cache owner signal sample t (c : st) :
  od_get (default [] (od_get cache owner)) signal = Some sample -> dget sample "t_mono_recv" = PFloat t ->
  exists age c', _latest_with_age cache owner signal c = (Ok (Some (od_set sample "age_s" age)), c').
Proof.
  intros Hs Ht. unfold _latest_with_age. rewrite Hs, Ht. unfold mbind, pyM_bind, monotonic, pure_world, with_world.
  destruct (cw_clock _) as [now w]. by eexists _, _.
Qed.

(** After an update of a device, its signals read as the update says; other
    devices and all processes, whatever their names, read as before. *)
Theorem latest_follows_update payload signals (c c' : st) :
  let d := py_str (dget_or payload "device_id" (PStr "")) in
  d <> "" -> dget_or payload "signals" (PDict []) = PDict signals -> od_wf signals ->
  _handle_telemetry_update payload c = (Ok tt, c') ->
  cl_process_telemetry_cache c' = cl_process_telemetry_cache c /\
  (forall d', d' <> d -> od_get (cl_telemetry_cache c') d' = od_get (cl_telemetry_cache c) d') /\
  forall name s, od_get signals name = Some (PDict s) -> exists sample c'',
    get_latest d name c' = (Ok (Some sample), c'') /\
    dget sample "value" = dget s "value" /\ dget sample "units" = dget s "units" /\ dget sample "quality" = dget s "quality".
Proof.
  intros d Hd Hsig Hwf. unfold _handle_telemetry_update, handle_update. fold d.
  assert (nonempty d = true) as -> by (unfold nonempty; by apply negb_true_iff, String.eqb_neq). rewrite Hsig.
  unfold mbind, pyM_bind, _ingest_signal_bundle. unfold mbind, pyM_bind.
  set (cache := default [] _). set (c1 := c <| cl_telemetry_cache := _ |>).
  destruct (bundle_ts _ c1) as [[bundle|e] c2] eqn:Eb; [|done].
  assert (forall A (f : W -> result A * W) (x : st), cl_telemetry_cache (snd (with_world f x)) = cl_telemetry_cache x /\
    cl_process_telemetry_cache (snd (with_world f x)) = cl_process_telemetry_cache x) as Hw.
  { intros A f x. unfold with_world. by destruct (f (cl_world x)). }
  assert (cl_telemetry_cache c2 = cl_telemetry_cache c1 /\ cl_process_telemetry_cache c2 = cl_process_telemetry_cache c1) as [H2 H2'].
  { revert Eb. unfold bundle_ts, mbind, pyM_bind, lift, pure_world.
    destruct (match py_or _ _ with PDict _ => _ | _ => _ end) as [t_wall t_mono].
    destruct (textual t_wall && textual t_mono).
    - destruct (py_float t_wall); [|done]. destruct (py_float t_mono); [|done]. by intros [= _ <-].
    - match goal with |- context [with_world ?f c1] => pose proof (Hw _ f c1) as [H3 H3']; destruct (with_world f c1) as [[x|e] c3] end; [|done].
      cbn [snd] in H3, H3'. unfold monotonic, pure_world. match goal with |- context [with_world ?f c3] => pose proof (Hw _ f c3) as [H4 H4'];
        destruct (with_world f c3) as [[y|e] c4] end; [|done]. cbn [snd] in H4, H4'. intros [= _ <-]. split; congruence. }
  unfold monotonic, pure_world. match goal with |- context [with_world ?f c2] => pose proof (Hw _ f c2) as [H3 H3'];
    destruct (with_world f c2) as [[now|e] c3] end; [|done]. cbn [snd] in H3, H3'. intros [= <-]. cbn.
  split; [by rewrite H3', H2'|]. split.
  { intros d' Hn. rewrite od_get_set_ne, H3, H2 by done. cbn. by rewrite od_get_set_ne. }
  intros name s Hs. set (c4 := c3 <| cl_telemetry_cache := _ |>).
  assert (od_get (default [] (od_get (cl_telemetry_cache c4) d)) name = Some (sample_of bundle now s)) as Hl.
  { change (cl_telemetry_cache c4) with (od_set (cl_telemetry_cache c3) d (foldl (ingest_signal bundle now) cache signals)).
    rewrite od_get_set_eq. by apply ingest_newest. }
  unfold sample_of in Hl. destruct (match py_or _ _ with PDict _ => _ | _ => _ end) as [t_wall t_mono].
  destruct (latest_sample _ _ _ _ (FFin now) c4 Hl eq_refl) as (age & c5 & E). eexists _, c5. split; [exact E|]. done.
Qed.
End telemetry.

(** ** Late replies *)
Module ClientDemo.
#[local] Existing Instance plain_repr.

(** A line: the requests that were sent, the replies to come (to the request
    of which number, and what its handler says), a clock in milliseconds. *)
Record line := mkLine { ln_asked : list dict; ln_coming : list (nat * dict); ln_ms : Z }.
#[local] Instance line_eta : Eta line := fun l => mkLine (ln_asked l) (ln_coming l) (ln_ms l).

(** The next reply, if its request was sent *)
Definition arrival (l : line) : option (dict * list (nat * dict)) :=
  match ln_coming l with
  | (i, resp) :: rest => if dhas resp "request_id" then None else (fun r => (echo r resp, rest)) <$> ln_asked l !! i
  | [] => None
  end.
(** Longer than every id in use *)
Definition new_id (asked : list dict) : string :=
  "x" +:+ foldr (fun r acc => match dget r "request_id" with PStr s => s | _ => "" end +:+ acc) "" asked.

#[local] Instance line_world : ClientWorld line := {|
  cw_send v l := match v with PDict r => (Ok tt, l <| ln_asked := ln_asked l ++ [r] |>) | _ => (Ok tt, l) end;
  cw_poll ms l := match arrival l with Some _ => (Ok true, l) | None => (Ok false, l <| ln_ms := ln_ms l + Z.max 0 ms |>) end;
  cw_recv l := match arrival l with Some (resp, rest) => (Ok (Ok (PDict resp)), l <| ln_coming := rest |>) | None => (Err ZmqAgain, l) end;
  cw_clock l := ((inject_Z (ln_ms l) / 1000)%Q, l);
  cw_wall l := (0%Q, l);
  cw_uuid l := (new_id (ln_asked l), l);
  cw_sub l := (None, l) |}.

Lemma new_id_fresh asked r : r ∈ asked -> dget r "request_id" <> PStr (new_id asked).
Proof.
  assert (forall a b, String.length (a +:+ b) = (String.length a + String.length b)%nat) as Hlen.
  { intros a b. induction a as [|x a IH]; [done|]. change (S (String.length (a +:+ b)) = S (String.length a + String.length b)). by rewrite IH. }
  intros Hr E. enough (String.length (new_id asked) < String.length (new_id asked))%nat by lia.
  unfold new_id at 2. rewrite Hlen. cbn [String.length]. set (id := new_id asked) in *. clearbody id. revert E.
  induction asked as [|x l IH]; [by apply not_elem_of_nil in Hr|]. intros E. cbn [foldr]. rewrite Hlen.
  apply elem_of_cons in Hr as [->|Hr]; [rewrite E; lia|]. specialize (IH Hr E). lia.
Qed.

Lemma line_works : line_ok (W := line) ln_asked.
Proof.
  split; cbn.
  - by intros r w x w' [= <- <-].
  - intros ms w. by destruct (arrival w).
  - intros w. by destruct (arrival w) as [[]|].
  - done.
  - done.
  - intros w v w'. unfold arrival. destruct (ln_coming w) as [|[i resp] rest]; [done|]. destruct (dhas resp "request_id") eqn:Eh; [done|].
    destruct (ln_asked w !! i) as [r|] eqn:Er; [|done]. intros [= <- <-]. exists r.
    split; [by eapply list_elem_of_lookup_2|by exists resp].
  - intros w id w' r [= <- <-]. apply new_id_fresh.
Qed.

(** The first request timed out; its reply comes after the second was sent. *)
Definition first_request : dict := [("type", PStr "manager.info.ping"); ("request_id", PStr "a")].
Definition ok_reply (result : string) : dict := [("ok", PBool true); ("result", PStr result)].
Definition waiting : client line :=
  new_client 5 None false (mkLine [first_request] [(0%nat, ok_reply "first"); (1%nat, ok_reply "second")] 0).
Definition second_payload : dict := [("type", PStr "device.list_status")].

Definition second_reply : dict := echo [("request_id", PStr "xa")] (ok_reply "second").
Example late_reply_skipped : match call 9 (PDict second_payload) None waiting with
  | Some (Ok (Some resp), _) => resp = second_reply | _ => False end.
Proof. by vm_compute. Qed.

Lemma second_answered : exists c', call 9 (PDict second_payload) None waiting = Some (Ok (Some second_reply), c').
Proof.
  pose proof late_reply_skipped as H. destruct (call 9 (PDict second_payload) None waiting) as [[[[resp|]|e] c']|]; try done.
  exists c'. by subst.
Qed.
Lemma asked_with_ids r : r ∈ ln_asked (cl_world waiting) -> dget r "request_id" <> PNone.
Proof. by intros ->%list_elem_of_singleton. Qed.
Lemma own_reply_witness : exists c' outbound, call 9 (PDict second_payload) None waiting = Some (Ok (Some second_reply), c') /\
  ln_asked (cl_world c') = ln_asked (cl_world waiting) ++ [outbound] /\ answers outbound (PDict second_reply).
Proof.
  destruct second_answered as [c' E]. exists c'.
  destruct (own_reply ln_asked line_works 9 second_payload None waiting second_reply c' eq_refl asked_with_ids E) as (outbound & Ha & _ & _ & Hans).
  exists outbound. split; [exact E|]. split; [exact Ha|exact Hans].
Defined.

(** The reply of a process bears the id of the request inside, which the
    sequencer leaves out: the manager passes on an id that is [None], and a
    client takes a late one for the answer to whatever it has asked since. *)
Definition process_request : dict := [("type", PStr "mw.retune"); ("params", PDict [])].
Definition process_call : dict :=
  [("type", PStr "manager.processes.rpc"); ("process_id", PStr "mw"); ("request", PDict process_request); ("request_id", PStr "a")].
Definition late_process_reply : dict := echo process_call (rpc_ok (PDict process_request) (PStr "retuned")).

#[local] Instance frames_world : ClientWorld (list pyval) := {|
  cw_send _ w := (Ok tt, w); cw_poll _ w := (Ok (bool_decide (w <> [])), w);
  cw_recv w := match w with v :: rest => (Ok (Ok v), rest) | [] => (Err ZmqAgain, w) end;
  cw_clock w := (0%Q, w); cw_wall w := (0%Q, w); cw_uuid w := ("b", w); cw_sub w := (None, w) |}.
Example late_process_reply_taken :
  (fun '(r, _) => r) <$> call 9 (PDict [("type", PStr "command"); ("device_id", PStr "laser"); ("action", PStr "power")]) None
    (new_client 5 None false [PDict late_process_reply]) = Some (Ok (Some late_process_reply)).
Proof. by vm_compute. Qed.
End ClientDemo.
