(* ===== verification/CommandJournal.v ===== *)
(** * The journal of commands

    [utils/command_journal.py] and the manager's use of it
    ([_manager/command_journal.py]): a bounded queue, a worker that writes
    batches into an SQLite table and prunes it, and the query of its tail.

    The connection is modelled with the transactions [sqlite3] keeps by
    default: a [DELETE] opens one if none is open, [BEGIN] inside one is an
    error, and other connections see what was committed.  Each statement may
    fail; which do is the list [db_faults].  The worker's thread and the
    callers interleave as steps. *)
From S2P Require Import Prelude PyVal PyNum PyOps ProcessBase ProcessLogs CommandRouting.
#[local] Open Scope Z_scope.

Record CommandJournalSettings := mkJSettings {
  js_path : string;
  js_queue_max : Z;
  js_batch_size : Z;
  js_flush_interval_ms : Z;
  js_retention_max_rows : option Z;
  js_retention_max_age_days : option Q;
  js_prune_interval_s : Q;
  js_prune_chunk_rows : Z
}.

(** ** The table *)
Record jrow := mkJrow {
  jr_t_wall : pyfloat; jr_t_mono : pyfloat;
  jr_instance_id : string; jr_device_id : string; jr_action : string; jr_params_json : string;
  jr_ok : bool;
  jr_status : pyval; jr_error_json : pyval; jr_result_json : pyval;
  jr_request_id : pyval; jr_caller_process_id : pyval; jr_source_kind : pyval; jr_source_id : pyval;
  jr_is_remote_target : bool
}.

(** A value [sqlite3] can bind: not a list or an object, and an integer of at
    most 64 bits. *)
Definition bindable (v : pyval) : bool :=
  match v with
  | PList _ | PDict _ => false
  | PInt z => (- 2 ^ 63 <=? z) && (z <? 2 ^ 63)
  | _ => true
  end.
(** A NaN is stored as [NULL], which the two times may not be. *)
Definition not_nan (f : pyfloat) : bool := match f with FNan => false | _ => true end.
Definition row_fits (r : jrow) : bool :=
  not_nan (jr_t_wall r) && not_nan (jr_t_mono r) &&
  forallb bindable [jr_status r; jr_error_json r; jr_result_json r; jr_request_id r; jr_caller_process_id r; jr_source_kind r; jr_source_id r].

Abbreviation rows := (list (Z * jrow)).
Record database := mkDb {
  db_rows : rows;                       (* as this connection sees them *)
  db_next : Z;                          (* AUTOINCREMENT *)
  db_tx : option (rows * Z);            (* what ROLLBACK goes back to *)
  db_faults : list bool
}.
#[export] Instance database_eta : Eta database := fun d => mkDb (db_rows d) (db_next d) (db_tx d) (db_faults d).

Definition sql_error (msg : string) : pyexc := RuntimeError msg.
(** One statement: it may fail, and then has no effect. *)
Definition statement {A} (f : pyM database A) : pyM database A := fun d =>
  match db_faults d with
  | true :: rest => (Err (sql_error "database error"), d <| db_faults := rest |>)
  | _ :: rest => f (d <| db_faults := rest |>)
  | [] => f d
  end.

Definition sql_begin : pyM database unit := statement (fun d =>
  match db_tx d with
  | Some _ => (Err (sql_error "cannot start a transaction within a transaction"), d)
  | None => (Ok tt, d <| db_tx := Some (db_rows d, db_next d) |>)
  end).
Definition sql_commit : pyM database unit := statement (fun d =>
  match db_tx d with
  | Some _ => (Ok tt, d <| db_tx := None |>)
  | None => (Err (sql_error "cannot commit - no transaction is active"), d)
  end).
Definition sql_rollback : pyM database unit := statement (fun d =>
  match db_tx d with
  | Some (old, next) => (Ok tt, d <| db_rows := old |> <| db_next := next |> <| db_tx := None |>)
  | None => (Err (sql_error "cannot rollback - no transaction is active"), d)
  end).
Definition opened (d : database) : database :=
  match db_tx d with Some _ => d | None => d <| db_tx := Some (db_rows d, db_next d) |> end.
Definition sql_insert (r : jrow) : pyM database unit := statement (fun d =>
  let d := opened d in
  if row_fits r then (Ok tt, d <| db_rows := db_rows d ++ [(db_next d, r)] |> <| db_next := db_next d + 1 |>)
  else (Err (sql_error "row"), d)).
(** The first [n] rows that satisfy [p] *)
Fixpoint delete_first (n : nat) (p : Z * jrow -> bool) (l : rows) : rows :=
  match n, l with
  | O, _ | _, [] => l
  | S n', x :: l' => if p x then delete_first n' p l' else x :: delete_first n p l'
  end.
Definition sql_delete (p : Z * jrow -> bool) (limit : Z) : pyM database Z := statement (fun d =>
  let d := opened d in
  let kept := delete_first (Z.to_nat limit) p (db_rows d) in
  (Ok (Z.of_nat (length (db_rows d)) - Z.of_nat (length kept)), d <| db_rows := kept |>)).
Definition sql_count : pyM database Z := statement (fun d => (Ok (Z.of_nat (length (db_rows d))), d)).
(** [conn.commit()] *)
Definition conn_commit : pyM database unit := statement (fun d => (Ok tt, d <| db_tx := None |>)).
(** What another connection sees *)
Definition committed (d : database) : rows := match db_tx d with Some (old, _) => old | None => db_rows d end.

(** ** The journal *)
Record journal := mkJournal {
  jn_settings : CommandJournalSettings;
  jn_instance_id : string;
  jn_queue : list dict;
  jn_started : bool;
  jn_alive : bool;                      (* the worker's thread *)
  jn_written : Z;
  jn_dropped : Z;
  jn_write_errors : Z;
  jn_pruned_rows : Z;
  jn_last_error : option string;
  jn_db : database
}.
#[export] Instance journal_eta : Eta journal := fun j =>
  mkJournal (jn_settings j) (jn_instance_id j) (jn_queue j) (jn_started j) (jn_alive j) (jn_written j) (jn_dropped j) (jn_write_errors j)
    (jn_pruned_rows j) (jn_last_error j) (jn_db j).

Section journal.
Context `{HR : !PyRepr}.

Definition new_journal (settings : CommandJournalSettings) (instance_id : string) (d : database) : journal :=
  mkJournal settings (default "unknown" (or_none (strip instance_id))) [] false false 0 0 0 0 None d.

Definition journal_start (j : journal) : journal := if jn_started j then j else j <| jn_started := true |> <| jn_alive := true |>.

(** [queue.Queue(maxsize)] is unbounded when [maxsize] is not positive. *)
Definition journal_append (item : dict) (j : journal) : journal :=
  if negb (jn_started j) then j
  else if (0 <? js_queue_max (jn_settings j)) && (js_queue_max (jn_settings j) <=? Z.of_nat (length (jn_queue j)))
       then j <| jn_dropped := jn_dropped j + 1 |>
       else j <| jn_queue := jn_queue j ++ [item] |>.

Definition time_or (v : pyval) (now : Q) : pyfloat := match py_float v with Ok f => f | Err _ => FFin now end.
Definition text_or (d : dict) (key dflt : string) : string := py_str (py_or (dget_or d key (PStr dflt)) (PStr dflt)).

(** [now]: the wall and the monotonic clock *)
Definition _row_to_tuple (instance_id : string) (now : Q * Q) (row : dict) : jrow :=
  mkJrow (time_or (dget_or row "t_wall" (PFloat (FFin (fst now)))) (fst now)) (time_or (dget_or row "t_mono" (PFloat (FFin (snd now)))) (snd now))
    (text_or row "instance_id" instance_id) (text_or row "device_id" "") (text_or row "action" "") (text_or row "params_json" "")
    (truthy (dget row "ok")) (dget row "status") (dget row "error_json") (dget row "result_json") (dget row "request_id")
    (dget row "caller_process_id") (dget row "source_kind") (dget row "source_id") (truthy (dget row "is_remote_target")).

(** ** The worker *)
Definition on_db {A} (m : pyM database A) : pyM journal A := fun j =>
  let '(r, d) := m (jn_db j) in (r, j <| jn_db := d |>).

Fixpoint insert_all (l : list jrow) : pyM database unit :=
  match l with [] => mret tt | r :: rest => (_ ← sql_insert r; insert_all rest) end.

Definition write_rows (l : list jrow) : pyM database unit := _ ← sql_begin; _ ← insert_all l; sql_commit.

Definition _write_batch (now : Q * Q) (batch : list dict) (j : journal) : journal :=
  match on_db (write_rows (_row_to_tuple (jn_instance_id j) now <$> batch)) j with
  | (Ok _, j) => j <| jn_written := jn_written j + Z.of_nat (length batch) |> <| jn_last_error := None |>
  | (Err e, j) =>
      let j := snd (on_db sql_rollback j) in
      j <| jn_write_errors := jn_write_errors j + 1 |> <| jn_last_error := Some (exc_str e) |>
  end.

Definition older (cutoff : pyfloat) (x : Z * jrow) : bool := fltb (jr_t_wall (snd x)) cutoff.

(** Chunks are deleted until one is not full; a table of [n] rows has no more
    than [n] chunks. *)
Fixpoint delete_older (fuel : nat) (cutoff : pyfloat) (chunk pruned : Z) : pyM database Z :=
  match fuel with
  | O => mret pruned
  | S fuel =>
      deleted ← sql_delete (older cutoff) chunk;
      if deleted <? chunk then mret (pruned + Z.max 0 deleted) else delete_older fuel cutoff chunk (pruned + Z.max 0 deleted)
  end.

Fixpoint delete_overflow (fuel : nat) (overflow chunk pruned : Z) : pyM database Z :=
  match fuel with
  | O => mret pruned
  | S fuel =>
      if overflow <=? 0 then mret pruned
      else
        deleted ← sql_delete (fun _ => true) (Z.min chunk overflow);
        if deleted <=? 0 then mret (pruned + Z.max 0 deleted)
        else delete_overflow fuel (overflow - deleted) chunk (pruned + Z.max 0 deleted)
  end.

Definition prune_rows (settings : CommandJournalSettings) (now_wall : Q) : pyM database Z := fun d =>
  let chunk := Z.max 100 (js_prune_chunk_rows settings) in
  let fuel := S (length (db_rows d)) in
  (pruned ← (match js_retention_max_age_days settings with
             | Some days => delete_older fuel (FFin (now_wall - days * 86400)) chunk 0
             | None => mret 0
             end);
   match js_retention_max_rows settings with
   | Some max_rows => total ← sql_count; delete_overflow fuel (total - max_rows) chunk pruned
   | None => mret pruned
   end) d.

Definition _run_prune (now_wall : Q) : pyM journal unit := fun j =>
  match on_db (prune_rows (jn_settings j) now_wall) j with
  | (Err e, j) => (Err e, j)
  | (Ok pruned, j) =>
      if 0 <? pruned then (Ok tt, snd (on_db conn_commit j) <| jn_pruned_rows := jn_pruned_rows j + pruned |>) else (Ok tt, j)
  end.

(** One round of [_run] while the thread lives: [taken] items are dequeued (the
    queue may have gained some meanwhile, so up to a batch), and the table is
    pruned when it is [due].  What [_run_prune] raises ends the thread. *)
Definition batch_limit (j : journal) : nat := Z.to_nat (Z.max 1 (js_batch_size (jn_settings j))).
Definition run_round (taken : nat) (now : Q * Q) (due : bool) (j : journal) : journal :=
  if negb (jn_alive j) then j
  else
    let batch := take (taken `min` batch_limit j) (jn_queue j) in
    let j := j <| jn_queue := drop (length batch) (jn_queue j) |> in
    let j := match batch with [] => j | _ => _write_batch now batch j end in
    if due then match _run_prune (fst now) j with (Ok _, j) => j | (Err _, j) => j <| jn_alive := false |> end else j.

(** ** The manager's entries *)
Definition should_journal_command_action (action : pyval) : bool :=
  let text := lower (stripped_text action) in
  let ends suffix := String.eqb (str_tail (String.length suffix) text) suffix in
  if negb (nonempty text) then true
  else negb (startswith text "stream__" || startswith text "telemetry__" || String.eqb text "capabilities" || ends ".capabilities"
             || ends ".status" || ends ".list_status"
             || bool_decide (text ∈ ["device.get_status"; "device.list_status"; "manager.processes.list"; "manager.devices.list"])).

Definition journal_entry (instance_id : string) (safe_json : pyval -> string) (now : Q * Q) (payload : dict) : dict :=
  let '(t_wall, t_mono) := match dget payload "ts" with
                           | PDict ts => (time_or (dget_or ts "t_wall" (PFloat (FFin (fst now)))) (fst now),
                                          time_or (dget_or ts "t_mono" (PFloat (FFin (snd now)))) (snd now))
                           | _ => (FFin (fst now), FFin (snd now))
                           end in
  [("t_wall", PFloat t_wall); ("t_mono", PFloat t_mono); ("instance_id", PStr instance_id);
   ("device_id", PStr (text_or payload "device_id" "")); ("action", PStr (text_or payload "action" ""));
   ("params_json", PStr (text_or payload "params_json" "")); ("ok", PBool (truthy (dget payload "ok"))); ("status", dget payload "status");
   ("error_json", PStr (if is_none (dget payload "error") then "" else safe_json (dget payload "error")));
   ("result_json", PStr (text_or payload "result_json" "")); ("request_id", dget payload "request_id");
   ("caller_process_id", dget payload "caller_process_id"); ("source_kind", dget payload "source_kind");
   ("source_id", dget payload "source_id"); ("is_remote_target", PBool (truthy (dget payload "is_remote_target")))].

Definition _append_command_journal_entry (instance_id : string) (safe_json : pyval -> string) (now : Q * Q) (payload : dict)
    (journal : option journal) : option CommandJournal.journal :=
  match journal with
  | None => None
  | Some j => Some (if should_journal_command_action (PStr (text_or payload "action" ""))
                    then journal_append (journal_entry instance_id safe_json now payload) j else j)
  end.
End journal.

(** ** The tail of the table *)
Section tail.
Context `{HR : !PyRepr}.
(** How SQLite writes a number into a column of text *)
Context (sql_float : pyfloat -> string).

Definition as_text (v : pyval) : pyval :=
  match v with
  | PInt z => PStr (str_Z z)
  | PBool b => PStr (if b then "1" else "0")
  | PFloat FNan => PNone
  | PFloat f => PStr (sql_float f)
  | v => v
  end.

Definition _normalize_filter_set (raw : pyval) (field : string) : result (option (list string)) :=
  match raw with
  | PNone => Ok None
  | PStr s => Ok ((fun t => [t]) <$> or_none (strip s))
  | PList l =>
      let texts := filter (fun t => nonempty t = true) ((fun v => strip (py_str v)) <$> l) in
      Ok (match texts with [] => None | _ => Some (sorted_set (list_to_set texts)) end)
  | _ => Err (TypeError (field +:+ " must be a string or list[str]"))
  end.

Record tail_query := mkQuery {
  tq_limit : Z;
  tq_since : option pyfloat;
  tq_ok : option bool;
  tq_device_ids : option (list string);
  tq_actions : option (list string);
  tq_source_kinds : option (list string);
  tq_source_ids : option (list string)
}.

Definition as_type_error {A} (label : string) (r : result A) : result A :=
  match r with Ok a => Ok a | Err e => Err (TypeError (label +:+ exc_str e)) end.

Definition lowered (o : option (list string)) : option (list string) := match o with Some l => Some (lower <$> l) | None => None end.

Definition parse_tail (params : pyval) : result tail_query :=
  match py_or params (PDict []) with
  | PDict q =>
      limit ← as_type_error "limit must be int: " (py_int (dget_or q "limit" (PInt 200)));
      since ← (if is_none (dget q "since_t_wall") then Ok None
               else Some <$> as_type_error "since_t_wall must be float: " (py_float (dget q "since_t_wall")));
      ok ← (match dget q "ok" with
            | PNone => Ok None
            | PBool b => Ok (Some b)
            | PInt 0 => Ok (Some false)
            | PInt 1 => Ok (Some true)
            | _ => Err (TypeError "ok must be a bool")
            end);
      device_ids ← _normalize_filter_set (dget q "device_ids") "device_ids";
      actions ← _normalize_filter_set (dget q "actions") "actions";
      source_kinds ← _normalize_filter_set (dget q "source_kind") "source_kind";
      source_ids ← _normalize_filter_set (dget q "source_ids") "source_ids";
      Ok (mkQuery (Z.max 1 (Z.min limit 5000)) since ok device_ids actions (lowered source_kinds) source_ids)
  | _ => Err (TypeError "params must be a dict")
  end.

Definition in_filter (o : option (list string)) (v : pyval) : bool :=
  match o with None => true | Some l => match v with PStr s => bool_decide (s ∈ l) | _ => false end end.
Definition lower_text (v : pyval) : pyval := match v with PStr s => PStr (lower s) | v => v end.

(** The [WHERE] clause; a comparison with [NULL] holds of no row. *)
Definition row_matches (q : tail_query) (x : Z * jrow) : bool :=
  let r := snd x in
  match tq_since q with Some t => not_nan t && negb (fltb (jr_t_wall r) t) | None => true end &&
  match tq_ok q with Some b => Bool.eqb (jr_ok r) b | None => true end &&
  in_filter (tq_device_ids q) (PStr (jr_device_id r)) && in_filter (tq_actions q) (PStr (jr_action r)) &&
  in_filter (tq_source_kinds q) (lower_text (as_text (jr_source_kind r))) && in_filter (tq_source_ids q) (as_text (jr_source_id r)).

Definition entry_of (x : Z * jrow) : pyval :=
  let '(i, r) := x in
  PDict [("id", PInt i); ("t_wall", PFloat (jr_t_wall r)); ("t_mono", PFloat (jr_t_mono r)); ("instance_id", PStr (jr_instance_id r));
         ("device_id", PStr (jr_device_id r)); ("action", PStr (jr_action r)); ("params_json", PStr (jr_params_json r)); ("ok", PBool (jr_ok r));
         ("status", as_text (jr_status r)); ("error_json", as_text (jr_error_json r)); ("result_json", as_text (jr_result_json r));
         ("request_id", as_text (jr_request_id r)); ("caller_process_id", as_text (jr_caller_process_id r));
         ("source_kind", as_text (jr_source_kind r)); ("source_id", as_text (jr_source_id r)); ("is_remote_target", PBool (jr_is_remote_target r))].

(** [ORDER BY id DESC LIMIT ?], reversed; the table is in the order of its ids. *)
Definition newest (limit : Z) (l : rows) : rows := rev (take (Z.to_nat limit) (rev l)).

Definition journal_tail (params : pyval) (d : database) : result dict :=
  q ← parse_tail params;
  let matched := filter (fun x => row_matches q x = true) (committed d) in
  let entries := newest (tq_limit q) matched in
  Ok [("entries", PList (entry_of <$> entries)); ("count", PInt (Z.of_nat (length entries)));
      ("total_matched", PInt (Z.of_nat (length matched))); ("limit", PInt (tq_limit q));
      ("latest_id", from_option (fun x => PInt (fst x)) PNone (last entries))].
End tail.

(** * What the journal keeps

    Every accepted command is written, in order, unless its batch fails, and
    then that is counted; without failures the table holds the newest rows. *)

Section facts.
Context `{HR : !PyRepr}.

(** ** Statements that do not fail *)
Definition numbered (start : Z) (l : list jrow) : rows := imap (fun i r => (start + Z.of_nat i, r)) l.
Lemma numbered_cons start r l : numbered start (r :: l) = (start, r) :: numbered (start + 1) l.
Proof.
  unfold numbered. cbn. f_equal; [f_equal; lia|]. apply imap_ext. intros i x _. cbn. f_equal. lia.
Qed.
Lemma numbered_app start l k : numbered start (l ++ k) = numbered start l ++ numbered (start + Z.of_nat (length l)) k.
Proof.
  unfold numbered. rewrite imap_app. f_equal. apply imap_ext. intros i x _. cbn. f_equal. lia.
Qed.
Lemma length_numbered start l : length (numbered start l) = length l.
Proof. apply length_imap. Qed.

Definition quiet_db (d : database) : Prop := db_faults d = [].
Lemma statement_quiet {A} (f : pyM database A) d : quiet_db d -> statement f d = f d.
Proof. unfold quiet_db, statement. by intros ->. Qed.

Lemma insert_all_quiet l d old : Forall (fun r => row_fits r = true) l -> quiet_db d -> db_tx d = Some old ->
  insert_all l d = (Ok tt, d <| db_rows := db_rows d ++ numbered (db_next d) l |> <| db_next := db_next d + Z.of_nat (length l) |>).
Proof.
  intros Hl. revert d. induction Hl as [|r l Hr Hl IH]; intros d Hq Htx.
  - cbn. rewrite app_nil_r, Z.add_0_r. by destruct d.
  - cbn [insert_all]. unfold mbind, pyM_bind, sql_insert. rewrite statement_quiet by done. unfold opened. rewrite Htx, Hr.
    rewrite IH, numbered_cons by done. destruct d as [rs nx tx fl]. cbn -[numbered]. rewrite <- app_assoc. cbn -[numbered].
    assert (nx + Z.of_nat (S (length l)) = nx + 1 + Z.of_nat (length l)) as -> by lia. reflexivity.
Qed.

Lemma write_quiet l d : Forall (fun r => row_fits r = true) l -> quiet_db d -> db_tx d = None ->
  write_rows l d = (Ok tt, d <| db_rows := db_rows d ++ numbered (db_next d) l |> <| db_next := db_next d + Z.of_nat (length l) |>).
Proof.
  intros Hl Hq Htx. unfold write_rows, mbind, pyM_bind, sql_begin. rewrite statement_quiet by done. rewrite Htx.
  erewrite insert_all_quiet by done. unfold sql_commit. rewrite statement_quiet by done. cbn. f_equal. destruct d; cbn in *. by subst.
Qed.

Lemma delete_all n l : delete_first n (fun _ => true) l = drop n l.
Proof. revert l. induction n as [|n IH]; intros [|x l]; try done. cbn. apply IH. Qed.

Lemma overflow_quiet fuel overflow chunk pruned d :
  0 < chunk -> quiet_db d -> (length (db_rows d) < fuel)%nat ->
  exists d', delete_overflow fuel overflow chunk pruned d = (Ok (pruned + Z.min (Z.max 0 overflow) (Z.of_nat (length (db_rows d)))), d') /\
    db_rows d' = drop (Z.to_nat overflow) (db_rows d) /\ db_next d' = db_next d /\ quiet_db d' /\
    (overflow <= 0 -> d' = d).
Proof.
  intros Hc. revert overflow pruned d. induction fuel as [|fuel IH]; intros overflow pruned d Hq Hf; [lia|]. cbn [delete_overflow].
  destruct (Z.leb_spec overflow 0) as [Ho|Ho].
  - exists d. split_and!; try done; [unfold mret, pyM_ret; do 2 f_equal; lia|by replace (Z.to_nat overflow) with 0%nat by lia].
  - unfold mbind, pyM_bind, sql_delete. rewrite statement_quiet by done. cbv zeta. rewrite delete_all.
    assert (db_rows (opened d) = db_rows d /\ db_next (opened d) = db_next d /\ db_faults (opened d) = []) as (Er & En & Ef).
    { unfold opened. by destruct (db_tx d). }
    rewrite Er, length_drop. set (n := Z.to_nat (Z.min chunk overflow)).
    destruct (Z.leb_spec (Z.of_nat (length (db_rows d)) - Z.of_nat (length (db_rows d) - n)) 0) as [Hz|Hz].
    + assert (length (db_rows d) = 0)%nat as Hl by lia. exists (opened d <| db_rows := drop n (db_rows d) |>).
      apply length_zero_iff_nil in Hl. rewrite Hl. split_and!; [unfold mret, pyM_ret; do 2 f_equal; cbn; lia|cbn; by rewrite !drop_nil|done|done|lia].
    + set (deleted := Z.of_nat _ - _) in *.
      destruct (IH (overflow - deleted) (pruned + Z.max 0 deleted) (opened d <| db_rows := drop n (db_rows d) |>)) as (d' & E & Hr & Hn & Hq' & _).
      { done. } { cbn. rewrite length_drop. lia. }
      exists d'. rewrite E. cbn in *. rewrite length_drop. split_and!; [do 2 f_equal; lia| |congruence|done|lia].
      rewrite Hr, drop_drop. destruct (Z.le_gt_cases (Z.of_nat n) (Z.of_nat (length (db_rows d)))).
      * f_equal. lia.
      * rewrite !drop_ge; [done|lia|lia].
Qed.

(** ** Histories of a journal *)
Record batch := mkBatch { ba_items : list dict; ba_rows : list jrow; ba_ok : bool }.
Definition accepts (j : journal) : bool :=
  jn_started j && negb ((0 <? js_queue_max (jn_settings j)) && (js_queue_max (jn_settings j) <=? Z.of_nat (length (jn_queue j)))).
Definition is_ok {A} (r : result A) : bool := match r with Ok _ => true | Err _ => false end.
(** The batch a round takes, and whether it is written *)
Definition processed (taken : nat) (now : Q * Q) (j : journal) : list batch :=
  if negb (jn_alive j) then []
  else match take (taken `min` batch_limit j) (jn_queue j) with
       | [] => []
       | items => let l := _row_to_tuple (jn_instance_id j) now <$> items in [mkBatch items l (is_ok (fst (write_rows l (jn_db j))))]
       end.

Inductive journal_run (j0 : journal) : list dict -> list batch -> journal -> Prop :=
| jr_start : journal_run j0 [] [] j0
| jr_append acc bs j item : journal_run j0 acc bs j ->
    journal_run j0 (acc ++ if accepts j then [item] else []) bs (journal_append item j)
| jr_round acc bs j taken now due : journal_run j0 acc bs j -> journal_run j0 acc (bs ++ processed taken now j) (run_round taken now due j).

Definition total (l : list batch) : Z := Z.of_nat (length (l ≫= ba_items)).
Lemma total_app l k : total (l ++ k) = total l + total k.
Proof. unfold total. rewrite bind_app, length_app. lia. Qed.
Lemma total_one b : total [b] = Z.of_nat (length (ba_items b)).
Proof. unfold total. cbn. by rewrite app_nil_r. Qed.

Lemma filter_written i l ok : filter (fun b => ba_ok b = true) [mkBatch i l ok] = if ok then [mkBatch i l ok] else [].
Proof. by destruct ok. Qed.
Lemma filter_failed i l ok : filter (fun b => ba_ok b = false) [mkBatch i l ok] = if ok then [] else [mkBatch i l ok].
Proof. by destruct ok. Qed.

Lemma write_batch_frame now b j : b <> [] ->
  let j' := _write_batch now b j in let ok := is_ok (fst (write_rows (_row_to_tuple (jn_instance_id j) now <$> b) (jn_db j))) in
  jn_queue j' = jn_queue j /\ jn_settings j' = jn_settings j /\ jn_started j' = jn_started j /\ jn_alive j' = jn_alive j /\
  jn_instance_id j' = jn_instance_id j /\
  jn_written j' = jn_written j + (if ok then Z.of_nat (length b) else 0) /\ jn_write_errors j' = jn_write_errors j + (if ok then 0 else 1).
Proof.
  intros _. unfold _write_batch, on_db. cbv zeta. destruct (write_rows _ (jn_db j)) as [[u|e] d]; cbn; [split_and!; try done; lia|].
  destruct (sql_rollback _) as [r d']. cbn. split_and!; try done; lia.
Qed.

Lemma prune_frame now j : let j' := snd (_run_prune now j) in
  jn_queue j' = jn_queue j /\ jn_settings j' = jn_settings j /\ jn_started j' = jn_started j /\ jn_alive j' = jn_alive j /\
  jn_instance_id j' = jn_instance_id j /\ jn_written j' = jn_written j /\ jn_write_errors j' = jn_write_errors j.
Proof.
  unfold _run_prune, on_db. destruct (prune_rows _ _ (jn_db j)) as [[pruned|e] d]; [|done]. destruct (0 <? pruned); [|done].
  cbn. by destruct (conn_commit _).
Qed.

Definition after_batch (taken : nat) (now : Q * Q) (j : journal) : journal :=
  let batch := take (taken `min` batch_limit j) (jn_queue j) in
  let j := j <| jn_queue := drop (length batch) (jn_queue j) |> in
  match batch with [] => j | _ => _write_batch now batch j end.

Lemma run_round_eq taken now due j : run_round taken now due j =
  if negb (jn_alive j) then j
  else if due then match _run_prune (fst now) (after_batch taken now j) with (Ok _, j) => j | (Err _, j) => j <| jn_alive := false |> end
       else after_batch taken now j.
Proof. done. Qed.

Record accounted (j0 : journal) (acc : list dict) (bs : list batch) (j : journal) : Prop := {
  ac_order : acc = (bs ≫= ba_items) ++ jn_queue j;
  ac_written : jn_written j = jn_written j0 + total (filter (fun b => ba_ok b = true) bs);
  ac_errors : jn_write_errors j = jn_write_errors j0 + Z.of_nat (length (filter (fun b => ba_ok b = false) bs));
  ac_sizes : Forall (fun b => (length (ba_items b) <= batch_limit j0)%nat) bs;
  ac_queue : 0 < js_queue_max (jn_settings j0) -> Z.of_nat (length (jn_queue j)) <= js_queue_max (jn_settings j0);
  ac_settings : jn_settings j = jn_settings j0
}.

Lemma after_batch_accounted j0 acc bs j taken now :
  jn_alive j = true -> accounted j0 acc bs j -> accounted j0 acc (bs ++ processed taken now j) (after_batch taken now j).
Proof.
  intros Ha []. unfold processed, after_batch. rewrite Ha. cbn [negb]. set (b := take _ (jn_queue j)).
  assert (jn_queue j = b ++ drop (length b) (jn_queue j)) as Hq.
  { unfold b. rewrite length_take. set (n := (taken `min` batch_limit j)%nat). destruct (Nat.le_ge_cases n (length (jn_queue j))).
    - rewrite Nat.min_l by done. by rewrite take_drop.
    - rewrite Nat.min_r by done. rewrite drop_all, take_ge by done. by rewrite app_nil_r. }
  assert (length b <= batch_limit j0)%nat as Hb.
  { unfold b. rewrite length_take. unfold batch_limit in *. rewrite ac_settings0. lia. }
  clearbody b. destruct b as [|x b]; cbv zeta.
  - rewrite app_nil_r. constructor; cbn; rewrite ?drop_0; done.
  - set (items := x :: b) in *. set (j1 := j <| jn_queue := _ |>).
    destruct (write_batch_frame now items j1) as (H1 & H2 & H3 & H4 & H5 & H6 & H7); [done|].
    change (jn_instance_id j1) with (jn_instance_id j) in *. change (jn_db j1) with (jn_db j) in *.
    set (ok := is_ok _) in *. constructor.
    + rewrite H1. change (jn_queue j1) with (drop (length items) (jn_queue j)). rewrite bind_app.
      change ([mkBatch items (_row_to_tuple (jn_instance_id j) now <$> items) ok] ≫= ba_items) with (items ++ []).
      by rewrite app_nil_r, <- app_assoc, <- Hq.
    + rewrite H6. change (jn_written j1) with (jn_written j). rewrite filter_app, total_app, ac_written0.
      rewrite filter_written. destruct ok; [rewrite total_one; cbn [ba_items]; lia|change (total []) with 0; lia].
    + rewrite H7. change (jn_write_errors j1) with (jn_write_errors j). rewrite filter_app, length_app, ac_errors0, filter_failed. destruct ok; cbn; lia.
    + apply Forall_app. split; [done|]. by constructor.
    + intros Hm. rewrite H1. specialize (ac_queue0 Hm). cbn. rewrite length_drop. lia.
    + by rewrite H2.
Qed.

Lemma accounted_ext j0 acc bs j j' :
  jn_queue j' = jn_queue j -> jn_settings j' = jn_settings j -> jn_written j' = jn_written j -> jn_write_errors j' = jn_write_errors j ->
  accounted j0 acc bs j -> accounted j0 acc bs j'.
Proof. intros E1 E2 E3 E4 []. constructor; rewrite ?E1, ?E2, ?E3, ?E4; done. Qed.

(** Whatever fails: each accepted command is in exactly one batch or still in
    the queue, in the order of acceptance; the counters say how many rows were
    written and how many batches failed; the queue keeps to its bound. *)
Theorem journal_accounts j0 acc bs j : jn_queue j0 = [] -> journal_run j0 acc bs j -> accounted j0 acc bs j.
Proof.
  intros Hq. induction 1 as [|acc bs j item _ IH|acc bs j taken now due _ IH].
  - constructor; rewrite ?Hq; try done; change (total (filter _ [])) with 0; cbn; lia.
  - unfold journal_append, accepts. destruct (jn_started j); cbn [negb andb]; [|by rewrite app_nil_r].
    destruct IH as [H1 H2 H3 H4 H5 H6]. destruct (_ && _) eqn:E; cbn [negb]; [rewrite app_nil_r; by constructor|].
    constructor; try done; cbn.
    + by rewrite H1, <- app_assoc.
    + intros Hm. rewrite H6 in E. rewrite length_app. cbn. apply andb_false_iff in E as [E|E]; lia.
  - rewrite run_round_eq. destruct (jn_alive j) eqn:Ha; cbn [negb]; [|unfold processed; rewrite Ha; by rewrite app_nil_r].
    pose proof (after_batch_accounted j0 acc bs j taken now Ha IH) as H. destruct due; [|done].
    pose proof (prune_frame (fst now) (after_batch taken now j)) as (P1 & P2 & _ & _ & _ & P6 & P7).
    destruct (_run_prune (fst now) (after_batch taken now j)) as [[u|e] j']; cbn [snd] in *; by eapply accounted_ext.
Qed.

(** ** The table *)
Section table.
Context (j0 : journal) (max_rows : Z).
Context (Hmax : js_retention_max_rows (jn_settings j0) = Some max_rows) (Hpos : 0 <= max_rows).
Context (Hage : js_retention_max_age_days (jn_settings j0) = None).

(** The table is the end of all there ever was, and no newer than the newest
    [max_rows] rows were taken from it. *)
Record tabled (bs : list batch) (j : journal) : Prop := {
  tb_quiet : quiet_db (jn_db j);
  tb_tx : db_tx (jn_db j) = None;
  tb_rows : exists k, db_rows (jn_db j) = drop k (db_rows (jn_db j0) ++ numbered (db_next (jn_db j0)) (bs ≫= ba_rows)) /\
    (k = 0%nat \/ max_rows <= Z.of_nat (length (db_rows (jn_db j))));
  tb_next : db_next (jn_db j) = db_next (jn_db j0) + Z.of_nat (length (bs ≫= ba_rows));
  tb_ok : Forall (fun b => ba_ok b = true) bs;
  tb_settings : jn_settings j = jn_settings j0;
  tb_instance : jn_instance_id j = jn_instance_id j0;
  tb_alive : jn_alive j = jn_alive j0
}.
Definition fits (item : dict) : Prop := forall now, row_fits (_row_to_tuple (jn_instance_id j0) now item) = true.

Lemma after_batch_tabled bs j taken now :
  jn_alive j = true -> Forall fits (jn_queue j) -> tabled bs j -> tabled (bs ++ processed taken now j) (after_batch taken now j).
Proof.
  intros Ha Hf [Hq Htx (k & Hk & Hk') Hn Hok Hs Hi Hal]. unfold processed, after_batch. rewrite Ha. cbn [negb].
  set (b := take _ (jn_queue j)). assert (Forall fits b) as Hb by by apply Forall_take.
  clearbody b. destruct b as [|x b]; cbv zeta; [rewrite app_nil_r; constructor; try done; by exists k|]. set (items := x :: b) in *.
  set (l := _row_to_tuple (jn_instance_id j) now <$> items).
  assert (Forall (fun r => row_fits r = true) l) as Hl.
  { apply Forall_fmap. eapply Forall_impl; [exact Hb|]. intros item Hit. rewrite Hi. apply Hit. }
  set (j1 := j <| jn_queue := _ |>). unfold _write_batch, on_db. change (jn_instance_id j1) with (jn_instance_id j).
  change (jn_db j1) with (jn_db j). fold l. rewrite (write_quiet l (jn_db j) Hl Hq Htx). cbn [fst is_ok].
  assert ((bs ++ [mkBatch items l true]) ≫= ba_rows = (bs ≫= ba_rows) ++ l) as Hr
    by (rewrite bind_app; cbn; by rewrite app_nil_r).
  constructor; rewrite ?Hr; try done.
  - cbn -[numbered]. destruct Hk' as [->|Hk'].
    + exists 0%nat. split; [|by left]. rewrite Hk, !drop_0, Hn, numbered_app. by rewrite app_assoc.
    + destruct (Nat.le_gt_cases k (length (db_rows (jn_db j0) ++ numbered (db_next (jn_db j0)) (bs ≫= ba_rows)))) as [Hle|Hgt].
      * exists k. split; [|right; rewrite length_app; lia]. rewrite Hk, Hn, numbered_app, app_assoc. symmetry. by rewrite drop_app_le.
      * exists (length (db_rows (jn_db j0) ++ numbered (db_next (jn_db j0)) (bs ≫= ba_rows))).
        split; [|right; rewrite length_app; lia]. rewrite Hk, Hn, numbered_app, app_assoc, drop_app_length. rewrite drop_ge; [done|lia].
  - cbn -[length]. rewrite length_app, Hn. change (length (_ <$> items)) with (length l). lia.
  - apply Forall_app. split; [done|]. by constructor.
Qed.

Lemma prune_tabled bs j now : tabled bs j -> exists j', _run_prune now j = (Ok tt, j') /\ tabled bs j' /\
  Z.of_nat (length (db_rows (jn_db j'))) <= Z.max max_rows (Z.of_nat (length (db_rows (jn_db j)))) /\
  Z.of_nat (length (db_rows (jn_db j'))) <= max_rows.
Proof.
  intros [Hq Htx (k & Hk & Hk') Hn Hok Hs Hi Hal]. unfold _run_prune, on_db, prune_rows. rewrite Hs, Hage, Hmax.
  unfold mbind, pyM_bind. cbn [mret pyM_ret]. unfold sql_count. rewrite statement_quiet by done. cbv zeta.
  set (n := length (db_rows (jn_db j))) in *. set (chunk := Z.max 100 _).
  destruct (overflow_quiet (S n) (Z.of_nat n - max_rows) chunk 0 (jn_db j)) as (d' & -> & Hr & Hnx & Hq' & Hsame); [lia|done|lia|].
  rewrite Z.add_0_l. fold n. destruct (Z.ltb_spec 0 (Z.min (Z.max 0 (Z.of_nat n - max_rows)) (Z.of_nat n))) as [Hp|Hp].
  - unfold conn_commit. rewrite statement_quiet by done. eexists. split; [reflexivity|]. cbn [snd].
    assert (length (drop (Z.to_nat (Z.of_nat n - max_rows)) (db_rows (jn_db j))) = Z.to_nat max_rows) as Hlen by (rewrite length_drop; lia).
    split_and!; [constructor; try done|cbn; rewrite Hr, Hlen; lia|cbn; rewrite Hr, Hlen; lia].
    + cbn. eexists. split; [by rewrite Hr, Hk, drop_drop|]. right. rewrite Hr, Hlen. lia.
    + cbn. by rewrite Hnx.
  - rewrite Hsame by lia. eexists. split; [reflexivity|].
    split_and!; [constructor; try done; by exists k|cbn; fold n; lia|cbn; fold n; lia].
Qed.

Lemma round_tabled bs j taken now due : jn_alive j = true -> Forall fits (jn_queue j) -> tabled bs j ->
  tabled (bs ++ processed taken now j) (run_round taken now due j) /\
  (due = true -> Z.of_nat (length (committed (jn_db (run_round taken now due j)))) <= max_rows).
Proof.
  intros Ha Hf Ht. rewrite run_round_eq, Ha. cbn [negb]. pose proof (after_batch_tabled bs j taken now Ha Hf Ht) as H.
  destruct due; [|done]. destruct (prune_tabled _ _ (fst now) H) as (j' & -> & H' & _ & Hle). split; [done|]. intros _.
  unfold committed. by rewrite (tb_tx _ _ H').
Qed.

Lemma run_tabled acc bs j :
  jn_queue j0 = [] -> jn_alive j0 = true -> quiet_db (jn_db j0) -> db_tx (jn_db j0) = None ->
  journal_run j0 acc bs j -> Forall fits acc -> tabled bs j /\ Forall fits (jn_queue j).
Proof.
  intros Hq Hal Hqd Htx Hrun Hfits. split.
  2:{ pose proof (journal_accounts j0 acc bs j Hq Hrun) as [-> _ _ _ _ _]. by apply Forall_app in Hfits as [_ ?]. }
  induction Hrun as [|acc bs j item Hr IH|acc bs j taken now due Hr IH].
  - constructor; try done; [|cbn; lia]. exists 0%nat. split; [by rewrite drop_0, app_nil_r|by left].
  - apply Forall_app in Hfits as [Hfits _]. specialize (IH Hfits). unfold journal_append.
    destruct (negb _); [done|]. destruct (_ && _); destruct IH; by constructor.
  - specialize (IH Hfits). apply round_tabled; [by rewrite (tb_alive _ _ IH)| |done].
    pose proof (journal_accounts j0 acc bs j Hq Hr) as [-> _ _ _ _ _]. by apply Forall_app in Hfits as [_ ?].
Qed.

(** C32. The journal keeps the newest commands.  With a bound on the rows and
    none on their age, while no statement fails and every accepted command has
    values a table can hold: every batch is written; each accepted command is
    either in the queue or was written, in the order of acceptance; what
    another connection reads is, with consecutive numbers, the end of
    everything that was ever written, and as long as older rows are missing
    it has at least [max_rows] of them; after each pruning it has at most
    [max_rows]. *)
Theorem journal_keeps_newest acc bs j :
  jn_queue j0 = [] -> jn_alive j0 = true -> quiet_db (jn_db j0) -> db_tx (jn_db j0) = None ->
  journal_run j0 acc bs j -> Forall fits acc ->
  Forall (fun b => ba_ok b = true) bs /\ jn_write_errors j = jn_write_errors j0 /\
  acc = (bs ≫= ba_items) ++ jn_queue j /\
  (exists k, committed (jn_db j) = drop k (db_rows (jn_db j0) ++ numbered (db_next (jn_db j0)) (bs ≫= ba_rows)) /\
    (k = 0%nat \/ max_rows <= Z.of_nat (length (committed (jn_db j))))) /\
  forall taken now, Z.of_nat (length (committed (jn_db (run_round taken now true j)))) <= max_rows.
Proof.
  intros Hq Hal Hqd Htx Hrun Hfits. pose proof (journal_accounts j0 acc bs j Hq Hrun) as [Ho _ He _ _ _].
  destruct (run_tabled acc bs j) as [Ht Hf]; try done. pose proof Ht as [_ Htx' Hk _ Hok _ _ Ha]. split_and!; [done| |done| |].
  - rewrite He. assert (filter (fun b => ba_ok b = false) bs = []) as ->; [|cbn; lia].
    clear -Hok. induction Hok as [|b bs Hb _ IH]; [done|]. rewrite filter_cons_False by congruence. done.
  - unfold committed. by rewrite Htx'.
  - intros taken now. apply (round_tabled bs j taken now true); [congruence|done|done|done].
Qed.
End table.
End facts.

(** ** A journal of at most three rows *)
Module JournalDemo.
#[local] Existing Instance plain_repr.
Definition settings (max_rows : option Z) (days : option Q) : CommandJournalSettings :=
  mkJSettings "journal.sqlite" 4 2 250 max_rows days 60 500.
Definition empty_db (faults : list bool) : database := mkDb [] 1 None faults.
Definition fresh (s : CommandJournalSettings) (faults : list bool) : journal := journal_start (new_journal s "lab" (empty_db faults)).
Definition command (i : Z) : dict :=
  [("t_wall", PInt i); ("t_mono", PInt i); ("device_id", PStr "laser"); ("action", PStr "power"); ("ok", PBool true); ("status", PStr "OK");
   ("request_id", PInt i)].
Definition at_ (t : Q) : Q * Q := (t, t).
Definition j0 : journal := fresh (settings (Some 3) None) [].

(** Five commands, of which the queue takes four; two batches, then pruned *)
Lemma four_written : exists acc bs j, journal_run j0 acc bs j /\ acc = command <$> [1; 2; 3; 4] /\ Forall (fits j0) acc /\
  fst <$> committed (jn_db j) = [2; 3; 4] /\ jn_dropped j = 1 /\ jn_queue j = [].
Proof.
  eexists _, _, _. split; [eapply (jr_round _ _ _ _ 2 (at_ 8) true), (jr_round _ _ _ _ 2 (at_ 7) false);
    eapply (jr_append _ _ _ _ (command 5)), (jr_append _ _ _ _ (command 4)), (jr_append _ _ _ _ (command 3)),
      (jr_append _ _ _ _ (command 2)), (jr_append _ _ _ _ (command 1)), jr_start|].
  split_and!; [by vm_compute| |by vm_compute|by vm_compute|by vm_compute].
  repeat constructor.
Qed.

Lemma journal_keeps_newest_witness : exists acc bs j, journal_run j0 acc bs j /\ acc = command <$> [1; 2; 3; 4] /\
  fst <$> committed (jn_db j) = [2; 3; 4] /\ Forall (fun b => ba_ok b = true) bs /\ bs ≫= ba_items = command <$> [1; 2; 3; 4].
Proof.
  destruct four_written as (acc & bs & j & Hrun & Hacc & Hfits & Hc & _ & Hq). exists acc, bs, j.
  destruct (journal_keeps_newest j0 3 eq_refl ltac:(done) eq_refl acc bs j) as (Hok & _ & Ho & _); try done.
  split_and!; try done. by rewrite <- Hacc, Ho, Hq, app_nil_r.
Defined.

(** ** What loses commands *)
Definition appended (items : list dict) (j : journal) : journal := foldr journal_append j (rev items).

(** With a bound on the age, a pruning that finds nothing to delete leaves the
    transaction its [DELETE] opened: the next [BEGIN] fails and its batch is
    lost. *)
Example age_prune_loses_batch :
  let j := run_round 2 (at_ 10) true (fresh (settings None (Some 30%Q)) []) in
  let j' := run_round 2 (at_ 11) false (appended [command 10; command 11] j) in
  (jn_queue j', committed (jn_db j'), jn_written j', jn_write_errors j', jn_last_error j') =
  ([], [], 0, 1, Some "cannot start a transaction within a transaction").
Proof. by vm_compute. Qed.

(** One identifier that cannot be bound takes its whole batch with it. *)
Example unbindable_id_loses_batch :
  let j := appended [command 1; od_set (command 2) "request_id" (PList [])] j0 in
  let j' := run_round 2 (at_ 3) false j in
  (jn_queue j', committed (jn_db j'), jn_written j', jn_write_errors j') = ([], [], 0, 1).
Proof. by vm_compute. Qed.

(** A statement of the pruning that fails ends the worker, and what is
    accepted afterwards stays in the queue. *)
Example prune_error_ends_worker :
  let j := run_round 2 (at_ 10) true (fresh (settings (Some 3) None) [true]) in
  let j' := run_round 2 (at_ 11) false (appended [command 10; command 11] j) in
  (jn_alive j', length (jn_queue j'), jn_write_errors j', jn_last_error j') = (false, 2%nat, 0, None).
Proof. by vm_compute. Qed.
End JournalDemo.
