(* ===== verification/ShmRing.v ===== *)
(** * The shared-memory ring ([src/experiment_control/shm/shm_ring.py])

    One writer publishes fixed-size frames into a ring of slots; readers in
    other processes attach to the segment by name.  Each slot carries a
    begin/end sequence pair that a reader checks before and after copying.

    NumPy dtypes and JSON are not part of the repository: they are the fields
    of the class [Numpy].  A reader's loads take the memory as an argument,
    one snapshot per access and address, so that the same definition serves a
    quiet memory (a constant snapshot) and a writer running in between. *)
From S2P Require Import Prelude Bytes PyVal.

(** What the ring uses of NumPy and of the [json] module. *)
Class Numpy (D : Type) := {
  np_eq_dec :: EqDecision D;
  np_itemsize : D -> Z;                       (* dtype.itemsize *)
  np_hasobject : D -> bool;                   (* dtype.hasobject *)
  np_fields_none : D -> bool;                 (* dtype.fields is None *)
  np_str : D -> string;                       (* str(dtype) *)
  np_descr : D -> list pyval;                 (* dtype.descr *)
  np_dtype_text : string -> result D;         (* np.dtype(text) *)
  np_dtype_descr : list pyval -> result D;    (* np.dtype([tuple(i) for i in descr]) *)
  np_asarray_u64 : list Z -> result (list Z); (* np.asarray(l, dtype=np.uint64) *)
  json_dumps : pyval -> string;               (* json.dumps(v, separators=...) *)
  json_loads : string -> result pyval         (* json.loads(text) *)
}.

(** ** Text of the header *)
Definition encode_utf8 (s : string) : bytes :=
  (fun c => Z.of_N (N_of_ascii c)) <$> String.list_ascii_of_string s.

Definition decode_utf8 (b : bytes) : result string :=
  if forallb (fun x => (0 <=? x) && (x <? 128)) b
  then Ok (String.string_of_list_ascii ((fun x => ascii_of_N (Z.to_N x)) <$> b))
  else Err (ValueError "utf-8").

Definition STRUCTURED_DTYPE_PREFIX : string := "json:".

Definition MAGIC : bytes := [67; 78; 84; 88; 83; 72; 77; 49].
Definition HEADER_SIZE : Z := 64.
Definition SLOT_ENTRY_SIZE : Z := 64.
Definition SLOT_STRUCT : list fmt := [FQ; FQ; FQ; FQ; FQ; FQ; FQ; FQ].
Definition SEQ_END_OFFSET : Z := 32.
Definition HEADER_STRUCT_V1 : list fmt := [Fs 8; FI; FI; FI; FI; FI; FI].
Definition HEADER_STRUCT_V2 : list fmt := [Fs 8; FI; FI; FI; FI; FI; FI; FQ; FQ; FQ; FQ].
Definition HEADER_LAST_SEQ_OFFSET : Z := 32.
Definition HEADER_LAST_SLOT_OFFSET : Z := 40.

(** An array: its dtype, its shape and its bytes in C order. *)
Record ndarray {D : Type} := NdArray {
  arr_dtype : D;
  arr_shape : list Z;
  arr_data : bytes
}.
Arguments ndarray : clear implicits.
Arguments NdArray {D} _ _ _.

Record ShmLayout {D : Type} := mkLayout {
  l_dtype : D;
  l_shape : list Z;
  l_slot_count : Z;
  l_payload_nbytes : Z;
  l_layout_version : Z;
  l_dtype_str_len : Z;
  l_shape_len : Z;
  l_slot_table_offset : Z;
  l_payload_offset : Z;
  l_metadata_dtype : option D;
  l_metadata_nbytes : Z;
  l_metadata_dtype_str_len : Z;
  l_metadata_offset : Z
}.
Arguments ShmLayout : clear implicits.

(** The writer object together with the memory it maps. *)
Record ShmRingWriter {D : Type} := mkWriter {
  w_layout : ShmLayout D;
  w_next_seq : Z;
  w_next_slot : Z;
  w_buf : bytes
}.
Arguments ShmRingWriter : clear implicits.
Arguments mkWriter {D} _ _ _ _.

(** The dict a reader returns for one frame. *)
Record event := mkEvent {
  ev_seq : Z;
  ev_t0_mono_ns : Z;
  ev_t0_wall_ns : Z;
  ev_payload : bytes;
  ev_metadata : option bytes
}.

#[export] Instance event_eq_dec : EqDecision event.
Proof. solve_decision. Defined.

(** [create] accepts a dtype object or the text of one. *)
Inductive dtype_arg (D : Type) := DtObj (d : D) | DtText (s : string).
Arguments DtObj {D} d.
Arguments DtText {D} s.

(** [math.prod] *)
Definition prod_shape (shape : list Z) : Z := foldr Z.mul 1 shape.

(** What a reader sees: the memory by access number and address. *)
Abbreviation memory := (nat -> Z -> bytes).

Section ring.
Context {D : Type} `{!Numpy D}.
Implicit Types (lay : ShmLayout D) (w : ShmRingWriter D) (arr : ndarray D).

Definition dtype_nbytes (dtype_str : string) : result Z :=
  d ← np_dtype_text dtype_str; mret (np_itemsize d).

Definition _dtype_to_header_text (d : D) : string :=
  if np_fields_none d then np_str d
  else STRUCTURED_DTYPE_PREFIX +:+
       json_dumps (PDict [("kind", PStr "structured_dtype"); ("descr", PList (np_descr d))]).

Definition _dtype_from_header_text (text : string) : result D :=
  if String.prefix STRUCTURED_DTYPE_PREFIX text then
    raw ← json_loads (String.substring 5 (String.length text - 5) text);
    match raw with
    | PDict kv =>
        if bool_decide (dget kv "kind" = PStr "structured_dtype") then
          match dget kv "descr" with
          | PList descr => np_dtype_descr descr
          | _ => Err (ValueError "Invalid structured dtype descriptor")
          end
        else Err (ValueError "Invalid structured dtype header")
    | _ => Err (ValueError "Invalid structured dtype header")
    end
  else np_dtype_text text.

(** ** The segment name space

    [SharedMemory(name, create=True, size)] refuses an existing name and a
    non-positive size; the memory of a segment is its bytes. *)
Abbreviation segments := (gmap string bytes).

Definition shm_create (name : string) (size : Z) : pyM segments unit := fun segs =>
  if size <=? 0 then (Err (ValueError "'size' must be a positive number different from zero"), segs)
  else match segs !! name with
       | Some _ => (Err FileExistsError, segs)
       | None => (Ok tt, <[name := replicate (Z.to_nat size) 0]> segs)
       end.

(** [stale.unlink()], whose exceptions [create] swallows: [fails] says
    whether the operating system refuses it. *)
Definition shm_unlink (fails : bool) (name : string) (segs : segments) : segments :=
  if fails then segs else delete name segs.

Definition reclaim_create (unlink_fails : bool) (name : string) (size : Z) : pyM segments unit :=
  fun segs =>
    match shm_create name size segs with
    | (Err FileExistsError, segs1) => shm_create name size (shm_unlink unlink_fails name segs1)
    | r => r
    end.

(** Run on the memory of a segment; the memory keeps what was written even
    when the operation raises. *)
Definition on_segment (name : string) (m : pyM bytes unit) : pyM segments bytes := fun segs =>
  let '(r, buf) := m (default [] (segs !! name)) in
  ((fun _ => buf) <$> r, <[name := buf]> segs).

(** The texts after the fixed header: dtype, shape, metadata dtype. *)
Definition write_texts (dtype_bytes : bytes) (shape : list Z) (metadata_dtype_bytes : bytes)
    : pyM bytes unit :=
  let dtype_str_len := zlen dtype_bytes in
  _ ← assign_slice HEADER_SIZE (HEADER_SIZE + dtype_str_len) dtype_bytes;
  let shape_offset := HEADER_SIZE + dtype_str_len in
  _ ← forM (fun '(i, dim) => pack_into [Fi] (shape_offset + Z.of_nat i * 4) [VZ dim])
           (imap pair shape);
  let metadata_dtype_offset := shape_offset + zlen shape * 4 in
  if bool_decide (metadata_dtype_bytes = []) then mret tt
  else assign_slice metadata_dtype_offset
         (metadata_dtype_offset + zlen metadata_dtype_bytes) metadata_dtype_bytes.

(** The fixed header, in the version 1 or the version 2 format. *)
Definition write_header (layout_version slot_count payload_nbytes dtype_str_len shape_len
    metadata_dtype_str_len metadata_nbytes : Z) : pyM bytes unit :=
  if layout_version =? 1 then
    pack_into HEADER_STRUCT_V1 0
      [VB MAGIC; VZ layout_version; VZ slot_count; VZ payload_nbytes;
       VZ dtype_str_len; VZ shape_len; VZ 0]
  else
    pack_into HEADER_STRUCT_V2 0
      [VB MAGIC; VZ layout_version; VZ slot_count; VZ payload_nbytes;
       VZ dtype_str_len; VZ shape_len; VZ 0; VZ 0; VZ 0;
       VZ metadata_dtype_str_len; VZ metadata_nbytes].

(** A fresh segment: zeroed, then header and texts. *)
Definition init_buffer (total_bytes layout_version slot_count payload_nbytes : Z)
    (dtype_bytes : bytes) (shape : list Z) (metadata_dtype_bytes : bytes) (metadata_nbytes : Z)
    : pyM bytes unit :=
  _ ← assign_slice 0 total_bytes (replicate (Z.to_nat total_bytes) 0);
  _ ← write_header layout_version slot_count payload_nbytes (zlen dtype_bytes) (zlen shape)
        (zlen metadata_dtype_bytes) metadata_nbytes;
  write_texts dtype_bytes shape metadata_dtype_bytes.

(** The metadata part of [create]: text and size of the metadata dtype. *)
Definition metadata_header (layout_version : Z) (metadata_dtype : option D)
    : result (bytes * Z) :=
  match metadata_dtype with
  | Some m =>
      if np_hasobject m || np_fields_none m
      then Err (ValueError "SHM ring metadata dtype must be a structured fixed-size dtype")
      else if layout_version <? 4
      then Err (ValueError "SHM ring metadata requires layout_version >= 4")
      else Ok (encode_utf8 (_dtype_to_header_text m), np_itemsize m)
  | None => Ok ([], 0)
  end.

(** [ShmRingWriter.create] *)
Definition create (unlink_fails : bool) (name : string) (dtype : dtype_arg D)
    (shape : list Z) (slot_count layout_version : Z) (metadata_dtype : option D)
    : pyM segments (ShmRingWriter D) :=
  dtype_obj ← lift (match dtype with DtObj d => Ok d | DtText s => np_dtype_text s end);
  _ ← guard_raise (np_hasobject dtype_obj) (ValueError "SHM ring dtype cannot contain Python objects");
  let payload_nbytes := np_itemsize dtype_obj * prod_shape shape in
  let dtype_bytes := encode_utf8 (_dtype_to_header_text dtype_obj) in
  let shape_len := zlen shape in
  let dtype_str_len := zlen dtype_bytes in
  '(metadata_dtype_bytes, metadata_nbytes) ← lift (metadata_header layout_version metadata_dtype);
  let metadata_dtype_str_len := zlen metadata_dtype_bytes in
  let slot_table_offset :=
    HEADER_SIZE + dtype_str_len + shape_len * 4 + metadata_dtype_str_len in
  let payload_offset := slot_table_offset + slot_count * SLOT_ENTRY_SIZE in
  let metadata_offset := payload_offset + slot_count * payload_nbytes in
  let total_bytes := metadata_offset + slot_count * metadata_nbytes in
  _ ← reclaim_create unlink_fails name total_bytes;
  buf ← on_segment name
          (init_buffer total_bytes layout_version slot_count payload_nbytes
             dtype_bytes shape metadata_dtype_bytes metadata_nbytes);
  mret (mkWriter
          {| l_dtype := dtype_obj; l_shape := shape; l_slot_count := slot_count;
             l_payload_nbytes := payload_nbytes; l_layout_version := layout_version;
             l_dtype_str_len := dtype_str_len; l_shape_len := shape_len;
             l_slot_table_offset := slot_table_offset; l_payload_offset := payload_offset;
             l_metadata_dtype := metadata_dtype; l_metadata_nbytes := metadata_nbytes;
             l_metadata_dtype_str_len := metadata_dtype_str_len;
             l_metadata_offset := metadata_offset |} 0 0 buf).

(** ** Writing *)
Definition set_buf w (b : bytes) : ShmRingWriter D :=
  mkWriter (w_layout w) (w_next_seq w) (w_next_slot w) b.

Definition on_buf {A} (m : pyM bytes A) : pyM (ShmRingWriter D) A := fun w =>
  let '(r, b) := m (w_buf w) in (r, set_buf w b).

(** [np.copyto(np.ndarray(shape, dtype, buffer=buf, offset=start), arr)]: the
    view must lie inside the buffer. *)
Definition copy_array (start nbytes : Z) (data : bytes) : pyM bytes unit := fun buf =>
  if in_range buf start nbytes then (Ok tt, store buf start data)
  else (Err (TypeError "buffer is too small for requested array"), buf).

Definition check_metadata lay (metadata : option (ndarray D)) : result unit :=
  match l_metadata_dtype lay, metadata with
  | None, Some _ => Err (ValueError "metadata provided for a ring without a metadata schema")
  | None, None => Ok tt
  | Some _, None => Err (ValueError "metadata required by the SHM ring schema")
  | Some md, Some m =>
      if bool_decide (arr_dtype m = md) && bool_decide (arr_shape m = [])
      then Ok tt else Err (ValueError "metadata mismatch")
  end.

(** The metadata record of the slot, when the ring has a metadata schema. *)
Definition copy_metadata lay (slot : Z) (metadata : option (ndarray D))
    : pyM (ShmRingWriter D) unit :=
  match l_metadata_dtype lay, metadata with
  | Some md, Some m =>
      let metadata_start := l_metadata_offset lay + slot * l_metadata_nbytes lay in
      on_buf (copy_array metadata_start (np_itemsize md) (arr_data m))
  | _, _ => mret tt
  end.

(** The header's last-frame hint, from layout version 2 on. *)
Definition publish_hint lay (seq slot : Z) : pyM (ShmRingWriter D) unit :=
  if 2 <=? l_layout_version lay then
    _ ← on_buf (pack_into [FQ] HEADER_LAST_SEQ_OFFSET [VZ seq]);
    on_buf (pack_into [FQ] HEADER_LAST_SLOT_OFFSET [VZ slot])
  else mret tt.

Definition write arr (t0_mono_ns t0_wall_ns : Z) (metadata : option (ndarray D))
    : pyM (ShmRingWriter D) Z :=
  lay ← gets w_layout;
  _ ← guard_raise (negb (bool_decide (arr_dtype arr = l_dtype lay))) (ValueError "dtype mismatch");
  _ ← guard_raise (negb (bool_decide (arr_shape arr = l_shape lay))) (ValueError "shape mismatch");
  _ ← lift (check_metadata lay metadata);
  slot ← gets w_next_slot;
  seq0 ← gets w_next_seq;
  let seq := seq0 + 1 in
  let slot_offset := l_slot_table_offset lay + slot * SLOT_ENTRY_SIZE in
  _ ← on_buf (pack_into [FQ] slot_offset [VZ 0]);
  _ ← on_buf (pack_into [FQ] (slot_offset + SEQ_END_OFFSET) [VZ 0]);
  let payload_start := l_payload_offset lay + slot * l_payload_nbytes lay in
  _ ← on_buf (copy_array payload_start
                (np_itemsize (l_dtype lay) * prod_shape (l_shape lay)) (arr_data arr));
  _ ← copy_metadata lay slot metadata;
  _ ← on_buf (pack_into SLOT_STRUCT slot_offset
                [VZ seq; VZ t0_mono_ns; VZ t0_wall_ns; VZ 0; VZ 0; VZ 0; VZ 0; VZ 0]);
  _ ← on_buf (pack_into [FQ] (slot_offset + SEQ_END_OFFSET) [VZ seq]);
  _ ← publish_hint lay seq slot;
  _ ← modify (fun w => mkWriter (w_layout w) seq (w_next_slot w) (w_buf w));
  _ ← guard_raise (l_slot_count lay =? 0) ZeroDivisionError;
  _ ← modify (fun w => mkWriter (w_layout w) (w_next_seq w)
                         ((slot + 1) mod l_slot_count lay) (w_buf w));
  mret seq.

(** [a[idx]] along the leading axis of an array of [count] elements. *)
Definition index0 arr (idx : nat) : ndarray D :=
  let tail := drop 1 (arr_shape arr) in
  let n := np_itemsize (arr_dtype arr) * prod_shape tail in
  NdArray (arr_dtype arr) tail (slice (arr_data arr) (Z.of_nat idx * n) (Z.of_nat idx * n + n)).

Definition check_batch_metadata lay (count : Z) (metadata : option (ndarray D)) : result unit :=
  match l_metadata_dtype lay, metadata with
  | None, Some _ => Err (ValueError "metadata provided for a ring without a metadata schema")
  | None, None => Ok tt
  | Some _, None => Err (ValueError "metadata required by the SHM ring schema")
  | Some md, Some m =>
      if bool_decide (arr_dtype m = md) && bool_decide (arr_shape m = [count])
      then Ok tt else Err (ValueError "batch metadata must match the ring schema and batch size")
  end.

(** The loop of [write_batch] over [range(count)]. *)
Fixpoint write_loop (batch : ndarray D) (mono wall : list Z) (metadata : option (ndarray D))
    (idxs : list nat) (first_seq last_seq : Z) : pyM (ShmRingWriter D) (Z * Z) :=
  match idxs with
  | [] => mret (first_seq, last_seq)
  | idx :: rest =>
      seq ← write (index0 batch idx) (nth idx mono 0) (nth idx wall 0)
              ((fun m => index0 m idx) <$> metadata);
      write_loop batch mono wall metadata rest (if (idx =? 0)%nat then seq else first_seq) seq
  end.

Definition write_batch (batch : ndarray D) (t0_mono_ns t0_wall_ns : list Z)
    (metadata : option (ndarray D)) : pyM (ShmRingWriter D) (Z * Z) :=
  lay ← gets w_layout;
  match arr_shape batch with
  | [] => raise (ValueError "batched stream payload must have a leading batch axis")
  | count :: tail =>
      _ ← guard_raise (negb (bool_decide (count :: tail = count :: l_shape lay)))
            (ValueError "batched shape mismatch");
      _ ← guard_raise (negb (bool_decide (arr_dtype batch = l_dtype lay)))
            (ValueError "dtype mismatch");
      _ ← guard_raise ((count <? 1) || (l_slot_count lay <? count))
            (ValueError "batch size must be between 1 and the ring slot count");
      mono ← lift (np_asarray_u64 t0_mono_ns);
      wall ← lift (np_asarray_u64 t0_wall_ns);
      _ ← guard_raise (negb (zlen mono =? count) || negb (zlen wall =? count))
            (ValueError "batch timestamps must contain one value per frame");
      _ ← lift (check_batch_metadata lay count metadata);
      write_loop batch mono wall metadata (seq 0 (Z.to_nat count)) 0 0
  end.

(** ** Reading

    [v k a] is the memory at the moment access number [k] loads the byte at
    address [a].  Nothing makes an access of several bytes atomic here: each
    byte of an eight-byte word may come from a moment of its own, and a
    [bytes(buf[a:b])] copy is one access per byte (byte [j] of it is access
    [k + j]). *)
(** [struct.unpack_from("<Q", buf, off)[0]] as access number [k]. *)
Definition load_Q (v : memory) (k : nat) (off : Z) : result Z :=
  if in_range (v k off) off 8 then
    Ok (le_decode ((fun j => nth (Z.to_nat off + j) (v k (off + Z.of_nat j)) 0) <$> seq 0 8))
  else Err StructError.

Definition tear (v : memory) (k : nat) (a b : Z) : bytes :=
  (fun j => nth (Z.to_nat a + j) (v (k + j)%nat (a + Z.of_nat j)) 0)
    <$> seq 0 (Z.to_nat (Z.min b (zlen (v k a)) - a)).

Definition _read_last_hint lay (v : memory) : result (option (Z * Z)) :=
  if l_layout_version lay <? 2 then mret None
  else
    last_seq ← load_Q v 0 HEADER_LAST_SEQ_OFFSET;
    last_slot ← load_Q v 1 HEADER_LAST_SLOT_OFFSET;
    mret (Some (last_seq, last_slot)).

(** Loads of one [_read_stable_slot]. *)
Definition stable_loads lay : nat :=
  (7 + Z.to_nat (l_payload_nbytes lay) + Z.to_nat (l_metadata_nbytes lay))%nat.

Definition _read_stable_slot lay (v : memory) (k : nat) (slot expected_seq : Z)
    : result (option event) :=
  let slot_offset := l_slot_table_offset lay + slot * SLOT_ENTRY_SIZE in
  seq_begin ← load_Q v k slot_offset;
  seq_end ← load_Q v (k + 1) (slot_offset + SEQ_END_OFFSET);
  if (seq_begin =? 0) || negb (seq_begin =? seq_end) || negb (seq_end =? expected_seq)
  then mret None
  else
    t0_mono_ns ← load_Q v (k + 2) (slot_offset + 8);
    t0_wall_ns ← load_Q v (k + 3) (slot_offset + 16);
    _shot ← load_Q v (k + 4) (slot_offset + 24);
    let payload_start := l_payload_offset lay + slot * l_payload_nbytes lay in
    let payload_end := payload_start + l_payload_nbytes lay in
    let payload := tear v (k + 5) payload_start payload_end in
    let k' := (k + 5 + Z.to_nat (l_payload_nbytes lay))%nat in
    let metadata_payload :=
      match l_metadata_dtype lay with
      | None => None
      | Some _ =>
          let metadata_start := l_metadata_offset lay + slot * l_metadata_nbytes lay in
          Some (tear v k' metadata_start (metadata_start + l_metadata_nbytes lay))
      end in
    let k'' := (k' + Z.to_nat (l_metadata_nbytes lay))%nat in
    seq_begin_after ← load_Q v k'' slot_offset;
    seq_end_after ← load_Q v (k'' + 1) (slot_offset + SEQ_END_OFFSET);
    if negb (seq_begin_after =? expected_seq) || negb (seq_end_after =? expected_seq)
       || negb (seq_begin_after =? seq_end_after)
    then mret None
    else mret (Some (mkEvent expected_seq t0_mono_ns t0_wall_ns payload metadata_payload)).

(** The slots [read_event] tries, in order. *)
Definition slots_to_try lay (last_slot_hint : option Z) : list Z :=
  let n := l_slot_count lay in
  let all := Z.of_nat <$> seq 0 (Z.to_nat n) in
  match last_slot_hint with
  | Some h =>
      if (0 <=? h) && (h <? n) then
        h :: flat_map (fun d => [(h + Z.of_nat d) mod n; (h - Z.of_nat d) mod n]) (seq 1 32) ++ all
      else all
  | None => all
  end.

Fixpoint first_hit lay (v : memory) (k : nat) (slots : list Z) (seq_target : Z)
    : result (option event) :=
  match slots with
  | [] => mret None
  | slot :: rest =>
      hit ← _read_stable_slot lay v k slot seq_target;
      match hit with
      | Some e => mret (Some e)
      | None => first_hit lay v (k + stable_loads lay) rest seq_target
      end
  end.

Definition read_event lay (v : memory) (seq_target : Z) : result (option event) :=
  hint ← _read_last_hint lay v;
  first_hit lay v 2 (slots_to_try lay (snd <$> hint)) seq_target.

(** First pass of [read_events]: the slots that look complete and new. *)
Fixpoint scan_slots lay (v : memory) (k : nat) (slots : list Z) (last_seen_seq : Z)
    : result (list (Z * Z)) :=
  match slots with
  | [] => mret []
  | slot :: rest =>
      let slot_offset := l_slot_table_offset lay + slot * SLOT_ENTRY_SIZE in
      seq_begin ← load_Q v k slot_offset;
      seq_end ← load_Q v (k + 1) (slot_offset + SEQ_END_OFFSET);
      entries ← scan_slots lay v (k + 2) rest last_seen_seq;
      if (seq_begin =? 0) || negb (seq_begin =? seq_end) || (seq_end <=? last_seen_seq)
      then mret entries else mret ((seq_end, slot) :: entries)
  end.

(** Second pass: copy the entries that are still stable. *)
Fixpoint collect_events lay (v : memory) (k : nat) (entries : list (Z * Z))
    : result (list event) :=
  match entries with
  | [] => mret []
  | (seq, slot) :: rest =>
      hit ← _read_stable_slot lay v k slot seq;
      out ← collect_events lay v (k + stable_loads lay) rest;
      mret (match hit with Some e => e :: out | None => out end)
  end.

Definition scan_order lay (last_slot_hint : option Z) : list Z :=
  let n := l_slot_count lay in
  match last_slot_hint with
  | Some h =>
      if (0 <=? h) && (h <? n)
      then (fun i => (h + Z.of_nat i) mod n) <$> seq 0 (Z.to_nat n)
      else Z.of_nat <$> seq 0 (Z.to_nat n)
  | None => Z.of_nat <$> seq 0 (Z.to_nat n)
  end.

Definition read_events lay (v : memory) (last_seen_seq : Z) : result (list event) :=
  hint ← _read_last_hint lay v;
  let slots := scan_order lay (snd <$> hint) in
  entries ← scan_slots lay v 2 slots last_seen_seq;
  collect_events lay v (2 + 2 * length slots) (sort_by fst entries).

(** ** Attaching *)
Definition z_of (v : fval) : Z := match v with VZ z => z | VB _ => 0 end.

Fixpoint mapR {A B} (f : A -> result B) (l : list A) : result (list B) :=
  match l with
  | [] => mret []
  | x :: r => y ← f x; ys ← mapR f r; mret (y :: ys)
  end.

(** The metadata part of [attach], read only for layout version 4 and up. *)
Definition attach_metadata (buf : bytes) (layout_version metadata_dtype_offset : Z)
    : result (option D * Z * Z) :=
  if 4 <=? layout_version then
    header_v2 ← unpack_from HEADER_STRUCT_V2 0 buf;
    let metadata_dtype_len := z_of (nth 9 header_v2 (VZ 0)) in
    let metadata_nbytes := z_of (nth 10 header_v2 (VZ 0)) in
    let metadata_dtype_end := metadata_dtype_offset + metadata_dtype_len in
    text ← decode_utf8 (slice buf metadata_dtype_offset metadata_dtype_end);
    metadata_dtype ← _dtype_from_header_text text;
    if np_itemsize metadata_dtype =? metadata_nbytes
    then mret (Some metadata_dtype, metadata_dtype_len, metadata_nbytes)
    else Err (ValueError "Invalid SHM metadata layout")
  else mret (None, 0, 0).

Definition attach (segs : gmap string bytes) (name : string) : result (ShmLayout D) :=
  match segs !! name with
  | None => Err (FileNotFoundError "")
  | Some buf =>
      header ← unpack_from HEADER_STRUCT_V1 0 buf;
      let magic := nth 0 header (VZ 0) in
      let layout_version := z_of (nth 1 header (VZ 0)) in
      let slot_count := z_of (nth 2 header (VZ 0)) in
      let payload_nbytes := z_of (nth 3 header (VZ 0)) in
      let dtype_len := z_of (nth 4 header (VZ 0)) in
      let shape_len := z_of (nth 5 header (VZ 0)) in
      if negb (bool_decide (magic = VB MAGIC)) then Err (ValueError "Invalid shm ring magic")
      else
        let dtype_end := HEADER_SIZE + dtype_len in
        dtype_str ← decode_utf8 (slice buf HEADER_SIZE dtype_end);
        let shape_offset := dtype_end in
        shape ← mapR (fun i => read_i buf (shape_offset + Z.of_nat i * 4))
                     (seq 0 (Z.to_nat shape_len));
        '(metadata_dtype, metadata_dtype_len, metadata_nbytes) ←
           attach_metadata buf layout_version (shape_offset + shape_len * 4);
        let slot_table_offset :=
          HEADER_SIZE + dtype_len + shape_len * 4 + metadata_dtype_len in
        let payload_offset := slot_table_offset + slot_count * SLOT_ENTRY_SIZE in
        let metadata_offset := payload_offset + slot_count * payload_nbytes in
        dtype ← _dtype_from_header_text dtype_str;
        mret {| l_dtype := dtype; l_shape := shape; l_slot_count := slot_count;
                l_payload_nbytes := payload_nbytes; l_layout_version := layout_version;
                l_dtype_str_len := dtype_len; l_shape_len := shape_len;
                l_slot_table_offset := slot_table_offset; l_payload_offset := payload_offset;
                l_metadata_dtype := metadata_dtype; l_metadata_nbytes := metadata_nbytes;
                l_metadata_dtype_str_len := metadata_dtype_len;
                l_metadata_offset := metadata_offset |}
  end.
End ring.
