(* ===== verification/ShmRingSpec.v ===== *)
(** * Correctness of the shared-memory ring

    The ring refines a list of frames: after [n] writes the memory holds the
    last [min n slot_count] of them, each readable under its own sequence
    number, and nothing else is readable.  This file also gives the stores a
    write performs, one by one, which is what a concurrent reader observes. *)
From S2P Require Import Prelude Bytes PyVal ShmRing.

(** ** Frames and stores *)
Record frame := mkFrame {
  f_data : bytes;
  f_mono : Z;
  f_wall : Z;
  f_meta : option bytes
}.

(** The event a reader must return for frame [f] published under [seq]. *)
Definition frame_event (seq : Z) (f : frame) : event :=
  mkEvent seq (f_mono f) (f_wall f) (f_data f) (f_meta f).

Abbreviation stores := (list (Z * bytes)).

Definition run_stores (sts : stores) (buf : bytes) : bytes :=
  foldl (fun b '(o, d) => store b o d) buf sts.

(** The stores of a [pack_into]: clear the region, word by word, then store
    the fields. *)
Fixpoint clear_stores (off : Z) (fs : list fmt) : stores :=
  match fs with
  | [] => []
  | f :: fs' =>
      (off, replicate (fmt_size f) 0) :: clear_stores (off + Z.of_nat (fmt_size f)) fs'
  end.

Fixpoint field_stores (off : Z) (fs : list fmt) (vs : list fval) : stores :=
  match fs, vs with
  | f :: fs', v :: vs' =>
      match pack_field f v with
      | Ok d => (off, d) :: field_stores (off + Z.of_nat (fmt_size f)) fs' vs'
      | Err _ => []
      end
  | _, _ => []
  end.

Definition pack_stores (off : Z) (fs : list fmt) (vs : list fval) : stores :=
  clear_stores off fs ++ field_stores off fs vs.

(** A copy of an array, byte by byte. *)
Fixpoint byte_stores (off : Z) (d : bytes) : stores :=
  match d with
  | [] => []
  | b :: r => (off, [b]) :: byte_stores (off + 1) r
  end.

Lemma run_stores_app s1 s2 buf : run_stores (s1 ++ s2) buf = run_stores s2 (run_stores s1 buf).
Proof. unfold run_stores. apply foldl_app. Qed.

Lemma run_field_stores fs vs d buf off :
  pack_bytes fs vs = Some d ->
  pack_fields buf off fs vs = (Ok tt, run_stores (field_stores off fs vs) buf).
Proof.
  revert vs d buf off; induction fs as [|f fs IH]; intros [|v vs] d buf off; simpl; try done.
  destruct (pack_field f v) as [x|] eqn:Hp; [|done].
  destruct (pack_bytes fs vs) as [y|] eqn:Hy; [|done]. intros _. simpl. by eapply IH.
Qed.

Lemma run_clear_stores fs buf off :
  in_range buf off (Z.of_nat (calcsize fs)) = true ->
  run_stores (clear_stores off fs) buf = store buf off (replicate (calcsize fs) 0).
Proof.
  revert buf off; induction fs as [|f fs IH]; intros buf off Hr.
  { symmetry. apply store_nil. }
  change (calcsize (f :: fs)) with (fmt_size f + calcsize fs)%nat in *.
  apply in_range_spec in Hr as (?&?&?). cbn [clear_stores run_stores foldl].
  assert (in_range buf off (zlen (replicate (fmt_size f) 0)) = true)
    by (apply in_range_spec; rewrite zlen_replicate; lia).
  change (run_stores (clear_stores (off + Z.of_nat (fmt_size f)) fs)
    (store buf off (replicate (fmt_size f) 0))
    = store buf off (replicate (fmt_size f + calcsize fs) 0)).
  rewrite IH by (rewrite in_range_store by done; apply in_range_spec; lia).
  rewrite replicate_add, <- (zlen_replicate (fmt_size f) 0). apply store_store_adjacent.
  apply in_range_spec. rewrite !zlen_replicate. lia.
Qed.

Lemma run_pack_stores fs vs d buf off :
  pack_bytes fs vs = Some d -> in_range buf off (Z.of_nat (calcsize fs)) = true ->
  run_stores (pack_stores off fs vs) buf = store buf off d.
Proof.
  intros Hd Hr. pose proof (pack_into_ok _ _ _ _ _ Hd Hr) as Hp. unfold pack_into in Hp.
  rewrite (pack_bytes_same_length _ _ _ Hd), Nat.eqb_refl, Hr in Hp. cbn [negb] in Hp.
  rewrite (run_field_stores _ _ _ _ _ Hd) in Hp. unfold pack_stores.
  rewrite run_stores_app, run_clear_stores by done. by simplify_eq.
Qed.

Lemma run_byte_stores d buf off :
  in_range buf off (zlen d) = true -> run_stores (byte_stores off d) buf = store buf off d.
Proof.
  revert buf off; induction d as [|b r IH]; intros buf off Hr; simpl.
  - by rewrite store_nil.
  - apply in_range_spec in Hr as (?&?&?). pose proof (zlen_nonneg r).
    change (b :: r) with ([b] ++ r) in *. rewrite zlen_app in *. change (zlen [b]) with 1 in *.
    rewrite IH.
    + change 1 with (zlen [b]). rewrite store_store_adjacent; [done|].
      apply in_range_spec. change (zlen [b]) with 1. lia.
    + rewrite in_range_store; apply in_range_spec; change (zlen [b]) with 1; lia.
Qed.

(** ** Fixed-width fields as bytes *)
Definition Qb (z : Z) : bytes := le_encode 8 z.

Lemma zlen_Qb z : zlen (Qb z) = 8.
Proof. unfold zlen, Qb. by rewrite length_le_encode. Qed.

Definition u64 (z : Z) : Prop := 0 <= z < 2 ^ 64.

Lemma Qb_inj a b : u64 a -> u64 b -> Qb a = Qb b -> a = b.
Proof.
  unfold u64, Qb. intros Ha Hb H. apply (f_equal le_decode) in H.
  by rewrite !le_decode_encode_Q in H.
Qed.

Lemma pack_bytes_Q z : u64 z -> pack_bytes [FQ] [VZ z] = Some (Qb z).
Proof.
  intros [H1 H2]. cbn [pack_bytes pack_field].
  rewrite (proj2 (Z.leb_le _ _) H1), (proj2 (Z.ltb_lt _ _) H2).
  cbn [andb fmap option_fmap option_map]. by rewrite app_nil_r.
Qed.

(** The 64 bytes of a slot entry. *)
Definition slot_bytes (seq mono wall : Z) : bytes :=
  Qb seq ++ Qb mono ++ Qb wall ++ Qb 0 ++ Qb 0 ++ Qb 0 ++ Qb 0 ++ Qb 0.

Lemma pack_bytes_slot seq mono wall :
  u64 seq -> u64 mono -> u64 wall ->
  pack_bytes SLOT_STRUCT [VZ seq; VZ mono; VZ wall; VZ 0; VZ 0; VZ 0; VZ 0; VZ 0]
  = Some (slot_bytes seq mono wall).
Proof.
  intros [S1 S2] [M1 M2] [W1 W2]. unfold slot_bytes, SLOT_STRUCT. cbn [pack_bytes pack_field].
  rewrite (proj2 (Z.leb_le _ _) S1), (proj2 (Z.ltb_lt _ _) S2),
    (proj2 (Z.leb_le _ _) M1), (proj2 (Z.ltb_lt _ _) M2),
    (proj2 (Z.leb_le _ _) W1), (proj2 (Z.ltb_lt _ _) W2).
  change (0 <=? 0) with true. change (0 <? 2 ^ 64) with true.
  cbn [andb fmap option_fmap option_map]. by rewrite app_nil_r.
Qed.

Lemma slice_app_r (d1 d2 : bytes) a b :
  zlen d1 <= a -> slice (d1 ++ d2) a b = slice d2 (a - zlen d1) (b - zlen d1).
Proof.
  intros Ha. unfold slice, zlen in *. rewrite drop_app_ge by lia.
  f_equal; [lia|]. f_equal. lia.
Qed.

Lemma slice_app_l (d1 d2 : bytes) b : b = zlen d1 -> slice (d1 ++ d2) 0 b = d1.
Proof.
  intros ->. unfold slice, zlen. rewrite drop_0. rewrite take_app_le by lia.
  rewrite firstn_all2; [done|lia].
Qed.

Lemma zlen_slot_bytes s m w : zlen (slot_bytes s m w) = 64.
Proof. done. Qed.

Lemma slot_bytes_begin s m w : slice (slot_bytes s m w) 0 8 = Qb s.
Proof. by apply slice_app_l. Qed.
Lemma slot_bytes_mono s m w : slice (slot_bytes s m w) 8 16 = Qb m.
Proof. unfold slot_bytes. rewrite slice_app_r by done. by apply slice_app_l. Qed.
Lemma slot_bytes_wall s m w : slice (slot_bytes s m w) 16 24 = Qb w.
Proof. unfold slot_bytes. rewrite !slice_app_r by done. by apply slice_app_l. Qed.

Lemma read_Q_ok buf off z :
  in_range buf off 8 = true -> slice buf off (off + 8) = Qb z -> u64 z ->
  read_Q buf off = Ok z.
Proof. intros Hr Hs Hz. unfold read_Q. rewrite Hr, Hs. unfold Qb. by rewrite le_decode_encode_Q. Qed.

(** ** Layouts *)
Section layout.
Context {D : Type} `{!Numpy D}.
Implicit Types (lay : ShmLayout D) (buf : bytes) (s : Z).

(** The layouts [create] builds and [attach] recovers. *)
Record layout_ok lay : Prop := {
  lo_count : 0 < l_slot_count lay;
  lo_count_u64 : l_slot_count lay <= 2 ^ 64;
  lo_payload : l_payload_nbytes lay = np_itemsize (l_dtype lay) * prod_shape (l_shape lay);
  lo_payload_nonneg : 0 <= l_payload_nbytes lay;
  lo_meta : l_metadata_nbytes lay = match l_metadata_dtype lay with
                                    | Some m => np_itemsize m | None => 0 end;
  lo_meta_nonneg : 0 <= l_metadata_nbytes lay;
  lo_table : HEADER_SIZE <= l_slot_table_offset lay;
  lo_payload_offset :
    l_payload_offset lay = l_slot_table_offset lay + l_slot_count lay * SLOT_ENTRY_SIZE;
  lo_metadata_offset :
    l_metadata_offset lay = l_payload_offset lay + l_slot_count lay * l_payload_nbytes lay
}.

Definition total_bytes lay : Z :=
  l_metadata_offset lay + l_slot_count lay * l_metadata_nbytes lay.

Definition valid_slot lay s : Prop := 0 <= s < l_slot_count lay.

Definition entry_at lay s : Z := l_slot_table_offset lay + s * SLOT_ENTRY_SIZE.
Definition payload_at lay s : Z := l_payload_offset lay + s * l_payload_nbytes lay.
Definition metadata_at lay s : Z := l_metadata_offset lay + s * l_metadata_nbytes lay.

(** [[o, o+n)] lies in one of the three regions of slot [s]. *)
Definition in_slot lay s (o n : Z) : Prop :=
  (entry_at lay s <= o /\ o + n <= entry_at lay s + 64) \/
  (payload_at lay s <= o /\ o + n <= payload_at lay s + l_payload_nbytes lay) \/
  (metadata_at lay s <= o /\ o + n <= metadata_at lay s + l_metadata_nbytes lay).

Definition in_header (o n : Z) : Prop := 0 <= o /\ o + n <= HEADER_SIZE.

(** [[o, o+n)] meets none of the regions of slot [s]. *)
Definition foreign lay s (o n : Z) : Prop :=
  (o + n <= entry_at lay s \/ entry_at lay s + 64 <= o) /\
  (o + n <= payload_at lay s \/ payload_at lay s + l_payload_nbytes lay <= o) /\
  (o + n <= metadata_at lay s \/ metadata_at lay s + l_metadata_nbytes lay <= o).

Lemma mul_sep (s s' n : Z) : 0 <= n -> s' < s -> s' * n + n <= s * n.
Proof. nia. Qed.

Lemma slot_bounds lay s :
  layout_ok lay -> valid_slot lay s ->
  64 <= entry_at lay s /\ entry_at lay s + 64 <= l_payload_offset lay /\
  l_payload_offset lay <= payload_at lay s /\
  payload_at lay s + l_payload_nbytes lay <= l_metadata_offset lay /\
  l_metadata_offset lay <= metadata_at lay s /\
  metadata_at lay s + l_metadata_nbytes lay <= total_bytes lay /\
  0 <= l_payload_nbytes lay /\ 0 <= l_metadata_nbytes lay.
Proof.
  intros [] []. unfold entry_at, payload_at, metadata_at, total_bytes, HEADER_SIZE, SLOT_ENTRY_SIZE in *.
  pose proof (mul_sep (l_slot_count lay) s 64).
  pose proof (mul_sep (l_slot_count lay) s (l_payload_nbytes lay)).
  pose proof (mul_sep (l_slot_count lay) s (l_metadata_nbytes lay)).
  assert (0 <= s * l_payload_nbytes lay) by nia.
  assert (0 <= s * l_metadata_nbytes lay) by nia. lia.
Qed.

Lemma in_slot_foreign lay s s' o n :
  layout_ok lay -> valid_slot lay s -> valid_slot lay s' -> s ≠ s' ->
  in_slot lay s' o n -> foreign lay s o n.
Proof.
  intros Hl Hs Hs' Hne Hi.
  pose proof (slot_bounds _ _ Hl Hs). pose proof (slot_bounds _ _ Hl Hs').
  destruct Hl. unfold in_slot, foreign, entry_at, payload_at, metadata_at, SLOT_ENTRY_SIZE in *.
  destruct (decide (s < s')).
  - pose proof (mul_sep s' s (l_payload_nbytes lay)).
    pose proof (mul_sep s' s (l_metadata_nbytes lay)). lia.
  - pose proof (mul_sep s s' (l_payload_nbytes lay)).
    pose proof (mul_sep s s' (l_metadata_nbytes lay)). lia.
Qed.

Lemma in_header_foreign lay s o n :
  layout_ok lay -> valid_slot lay s -> in_header o n -> foreign lay s o n.
Proof.
  intros Hl Hs [Ho Hn]. pose proof (slot_bounds _ _ Hl Hs). pose proof (lo_payload_nonneg _ Hl). unfold foreign, HEADER_SIZE in *. lia.
Qed.

Lemma in_slot_range lay s o n buf :
  layout_ok lay -> valid_slot lay s -> zlen buf = total_bytes lay -> 0 <= n ->
  in_slot lay s o n -> in_range buf o n = true.
Proof.
  intros Hl Hs Hb Hn Hi. pose proof (slot_bounds _ _ Hl Hs). apply in_range_spec.
  unfold in_slot in Hi. lia.
Qed.

Lemma in_header_range lay o n buf :
  layout_ok lay -> zlen buf = total_bytes lay -> 0 <= n -> in_header o n ->
  in_range buf o n = true.
Proof.
  intros Hl Hb Hn [Ho Hh]. assert (valid_slot lay 0) as H0 by (pose proof (lo_count _ Hl); split; [done|lia]).
  pose proof (slot_bounds _ _ Hl H0). apply in_range_spec. unfold HEADER_SIZE in *. lia.
Qed.

(** *** What the memory says about one slot *)
Record image := mkImage {
  im_begin : bytes; im_mono : bytes; im_wall : bytes; im_end : bytes;
  im_payload : bytes; im_metadata : bytes
}.

Definition image_of lay buf s : image :=
  let o := entry_at lay s in
  mkImage (slice buf o (o + 8)) (slice buf (o + 8) (o + 16)) (slice buf (o + 16) (o + 24))
    (slice buf (o + 32) (o + 40))
    (slice buf (payload_at lay s) (payload_at lay s + l_payload_nbytes lay))
    (slice buf (metadata_at lay s) (metadata_at lay s + l_metadata_nbytes lay)).

Definition frame_image (seq : Z) (f : frame) : image :=
  mkImage (Qb seq) (Qb (f_mono f)) (Qb (f_wall f)) (Qb seq) (f_data f) (default [] (f_meta f)).

(** A frame that fits the layout. *)
Record frame_ok lay (f : frame) : Prop := {
  fo_data : zlen (f_data f) = l_payload_nbytes lay;
  fo_mono : u64 (f_mono f);
  fo_wall : u64 (f_wall f);
  fo_meta_shape : is_Some (f_meta f) <-> is_Some (l_metadata_dtype lay);
  fo_meta : zlen (default [] (f_meta f)) = l_metadata_nbytes lay
}.

Lemma image_store_foreign lay buf s o d :
  layout_ok lay -> valid_slot lay s -> in_range buf o (zlen d) = true ->
  foreign lay s o (zlen d) -> image_of lay (store buf o d) s = image_of lay buf s.
Proof.
  intros Hl Hs Hr Hf. pose proof (slot_bounds _ _ Hl Hs) as Hb.
  pose proof (lo_payload_nonneg _ Hl). pose proof (lo_meta_nonneg _ Hl).
  destruct Hl. unfold foreign in Hf. unfold image_of, HEADER_SIZE in *.
  f_equal; apply slice_store_disjoint; (done || lia).
Qed.

(** The stores of one [write] call, in program order. *)
Definition write_stores lay (slot seq : Z) (f : frame) : stores :=
  let o := entry_at lay slot in
  pack_stores o [FQ] [VZ 0] ++
  pack_stores (o + SEQ_END_OFFSET) [FQ] [VZ 0] ++
  byte_stores (payload_at lay slot) (f_data f) ++
  byte_stores (metadata_at lay slot) (default [] (f_meta f)) ++
  pack_stores o SLOT_STRUCT
    [VZ seq; VZ (f_mono f); VZ (f_wall f); VZ 0; VZ 0; VZ 0; VZ 0; VZ 0] ++
  pack_stores (o + SEQ_END_OFFSET) [FQ] [VZ seq] ++
  (if 2 <=? l_layout_version lay then
     pack_stores HEADER_LAST_SEQ_OFFSET [FQ] [VZ seq] ++
     pack_stores HEADER_LAST_SLOT_OFFSET [FQ] [VZ slot]
   else []).

(** The same stores with every [pack_into] and copy as one step. *)
Definition write_blocks lay (slot seq : Z) (f : frame) : stores :=
  let o := entry_at lay slot in
  [(o, Qb 0); (o + SEQ_END_OFFSET, Qb 0); (payload_at lay slot, f_data f);
   (metadata_at lay slot, default [] (f_meta f));
   (o, slot_bytes seq (f_mono f) (f_wall f)); (o + SEQ_END_OFFSET, Qb seq)] ++
  (if 2 <=? l_layout_version lay
   then [(HEADER_LAST_SEQ_OFFSET, Qb seq); (HEADER_LAST_SLOT_OFFSET, Qb slot)] else []).

(** A store list that stays inside the buffer. *)
Definition stores_in (buf : bytes) (sts : stores) : Prop :=
  Forall (fun '(o, d) => in_range buf o (zlen d) = true) sts.

Lemma run_stores_zlen sts buf : stores_in buf sts -> zlen (run_stores sts buf) = zlen buf.
Proof.
  revert buf; induction sts as [|[o d] sts IH]; intros buf H; [done|].
  apply Forall_cons in H as [Hd Hs]. simpl. change (zlen (run_stores sts (store buf o d)) = zlen buf).
  rewrite IH; [by apply zlen_store|]. eapply Forall_impl; [done|].
  intros [o' d'] H'. by rewrite in_range_store.
Qed.

Lemma run_stores_foreign lay buf s sts :
  layout_ok lay -> valid_slot lay s -> stores_in buf sts ->
  Forall (fun '(o, d) => foreign lay s o (zlen d)) sts ->
  image_of lay (run_stores sts buf) s = image_of lay buf s.
Proof.
  intros Hl Hs. revert buf; induction sts as [|[o d] sts IH]; intros buf Hi Hf; [done|].
  apply Forall_cons in Hi as [Hd Hi]. apply Forall_cons in Hf as [Hfd Hf]. simpl.
  change (image_of lay (run_stores sts (store buf o d)) s = image_of lay buf s).
  rewrite IH; [by apply image_store_foreign| |done].
  eapply Forall_impl; [exact Hi|]. intros [o' d'] H'. by rewrite in_range_store.
Qed.

(** *** One write *)
Definition okbuf lay buf : Prop := zlen buf = total_bytes lay.
Definition local lay s (o n : Z) : Prop := valid_slot lay s /\ in_slot lay s o n \/ in_header o n.

Lemma local_range lay s o n buf :
  layout_ok lay -> okbuf lay buf -> 0 <= n -> local lay s o n -> in_range buf o n = true.
Proof. intros ??? [[]|]; [by eapply in_slot_range|by eapply in_header_range]. Qed.

Lemma okbuf_store lay s o d buf :
  layout_ok lay -> okbuf lay buf -> local lay s o (zlen d) -> okbuf lay (store buf o d).
Proof.
  intros Hl Hb Hlo. unfold okbuf. rewrite zlen_store; [done|].
  by eapply local_range; eauto using zlen_nonneg.
Qed.

Lemma local_begin lay s n : valid_slot lay s -> n <= 64 -> local lay s (entry_at lay s) n.
Proof. intros H Hn. left. split; [done|]. left. lia. Qed.
Lemma local_end lay s n : valid_slot lay s -> n <= 8 -> local lay s (entry_at lay s + SEQ_END_OFFSET) n.
Proof. intros H Hn. left. split; [done|]. left. unfold SEQ_END_OFFSET. lia. Qed.
Lemma local_payload lay s n :
  valid_slot lay s -> n <= l_payload_nbytes lay -> local lay s (payload_at lay s) n.
Proof. intros H Hn. left. split; [done|]. right. left. lia. Qed.
Lemma local_metadata lay s n :
  valid_slot lay s -> n <= l_metadata_nbytes lay -> local lay s (metadata_at lay s) n.
Proof. intros H Hn. left. split; [done|]. right. right. lia. Qed.
Lemma local_last_seq lay s : local lay s HEADER_LAST_SEQ_OFFSET 8.
Proof. right. by split. Qed.
Lemma local_last_slot lay s : local lay s HEADER_LAST_SLOT_OFFSET 8.
Proof. right. by split. Qed.

(** Everything a write stores is in its slot or in the header, and fits. *)
Record write_args lay (slot seq : Z) (f : frame) : Prop := {
  wa_layout : layout_ok lay;
  wa_slot : valid_slot lay slot;
  wa_seq : u64 seq;
  wa_frame : frame_ok lay f
}.

Lemma wa_slot_u64 lay slot seq f : write_args lay slot seq f -> u64 slot.
Proof. intros [Hl [] _ _]. pose proof (lo_count_u64 _ Hl). unfold u64. lia. Qed.

Lemma write_blocks_local lay slot seq f :
  write_args lay slot seq f ->
  Forall (fun '(o, d) => local lay slot o (zlen d)) (write_blocks lay slot seq f).
Proof.
  intros [Hl Hs Hq [? ? ? ? ?]]. unfold write_blocks. apply Forall_app. split.
  - repeat (apply Forall_cons; split); rewrite ?zlen_Qb, ?zlen_slot_bytes;
      auto using local_begin, local_end, local_payload, local_metadata with lia.
    all: first [apply local_begin | apply local_end | apply local_payload | apply local_metadata
               | apply Forall_nil_2]; (done || lia).
  - case_match; [|by apply Forall_nil_2].
    repeat (apply Forall_cons; split); rewrite ?zlen_Qb;
      first [apply local_last_seq | apply local_last_slot | apply Forall_nil_2].
Qed.

(** What a write touches: its slot, or the hint words of the header. *)
Definition touches lay s (o n : Z) : Prop :=
  valid_slot lay s /\ in_slot lay s o n \/ 32 <= o /\ o + n <= 48.

Lemma write_blocks_touch lay slot seq f :
  write_args lay slot seq f ->
  layout_ok lay /\ Forall (fun '(o, d) => touches lay slot o (zlen d)) (write_blocks lay slot seq f).
Proof.
  intros Ha. pose proof (write_blocks_local _ _ _ _ Ha) as Hloc.
  destruct Ha as [Hl Hs Hq Hf]. split; [done|]. pose proof (slot_bounds _ _ Hl Hs).
  destruct Hf as [Hd _ _ _ Hm]. unfold write_blocks, touches, in_slot in *.
  unfold SEQ_END_OFFSET, HEADER_LAST_SEQ_OFFSET, HEADER_LAST_SLOT_OFFSET.
  apply Forall_app; split; [|case_match];
    repeat (apply Forall_cons; split); try apply Forall_nil_2;
    rewrite ?zlen_Qb, ?zlen_slot_bytes, ?Hd, ?Hm; solve [left; split; [done|lia] | right; lia].
Qed.

Lemma run_stores_untouched lay s sts buf a b :
  layout_ok lay /\ Forall (fun '(o, d) => touches lay s o (zlen d)) sts -> okbuf lay buf ->
  0 <= a -> b <= 32 \/ 48 <= a /\ b <= l_slot_table_offset lay ->
  slice (run_stores sts buf) a b = slice buf a b.
Proof.
  intros [Hl Ht] Hb Ha Hab. pose proof (lo_table _ Hl). unfold HEADER_SIZE in *.
  revert buf Hb. induction Ht as [|[o d] sts Hd Ht IH]; intros buf Hb; [done|].
  assert (local lay s o (zlen d)) as Hlo by
    (destruct Hd as [|]; [by left|right; unfold in_header, HEADER_SIZE; lia]).
  simpl. change (slice (run_stores sts (store buf o d)) a b = slice buf a b).
  rewrite IH by (by eapply okbuf_store). apply slice_store_disjoint; [|done|].
  - eapply local_range; eauto using zlen_nonneg.
  - destruct Hd as [[Hs Hi]|]; [|lia]. left. pose proof (slot_bounds _ _ Hl Hs).
    pose proof (lo_payload_offset _ Hl). destruct Hs.
    unfold in_slot, entry_at, SLOT_ENTRY_SIZE in *. lia.
Qed.

Lemma run_local_ok lay s sts buf :
  layout_ok lay -> okbuf lay buf -> Forall (fun '(o, d) => local lay s o (zlen d)) sts ->
  okbuf lay (run_stores sts buf) /\ stores_in buf sts.
Proof.
  intros Hl Hb Hs. assert (stores_in buf sts) as Hi.
  { eapply Forall_impl; [exact Hs|]. intros [o d] ?. eapply local_range; eauto using zlen_nonneg. }
  split; [|done]. unfold okbuf. by rewrite run_stores_zlen.
Qed.

(** Byte-level stores against blocks, on buffers of the layout's size. *)
Definition same_effect lay (sts blks : stores) : Prop :=
  forall b, okbuf lay b -> run_stores sts b = run_stores blks b.

Lemma same_effect_pack lay s o fs vs d sts blks :
  layout_ok lay -> local lay s o (zlen d) -> pack_bytes fs vs = Some d ->
  same_effect lay sts blks -> same_effect lay (pack_stores o fs vs ++ sts) ((o, d) :: blks).
Proof.
  intros Hl Hlo Hp Hs b Hb. rewrite run_stores_app, (run_pack_stores _ _ _ _ _ Hp).
  - apply Hs. by eapply okbuf_store.
  - rewrite <- (pack_bytes_length _ _ _ Hp). change (Z.of_nat (length d)) with (zlen d).
    eapply local_range; eauto using zlen_nonneg.
Qed.

Lemma same_effect_bytes lay s o d sts blks :
  layout_ok lay -> local lay s o (zlen d) ->
  same_effect lay sts blks -> same_effect lay (byte_stores o d ++ sts) ((o, d) :: blks).
Proof.
  intros Hl Hlo Hs b Hb. rewrite run_stores_app, run_byte_stores.
  - apply Hs. by eapply okbuf_store.
  - eapply local_range; eauto using zlen_nonneg.
Qed.

Lemma write_stores_blocks lay slot seq f :
  write_args lay slot seq f ->
  same_effect lay (write_stores lay slot seq f) (write_blocks lay slot seq f).
Proof.
  intros Ha. pose proof (write_blocks_local _ _ _ _ Ha) as Hloc.
  pose proof (wa_slot_u64 _ _ _ _ Ha). destruct Ha as [Hl Hs Hq [Hd Hm Hw _ Hmd]].
  unfold write_stores, write_blocks in *. apply Forall_app in Hloc as [Hloc Hloc2].
  repeat (apply Forall_cons in Hloc as [? Hloc]).
  assert (u64 0) by done.
  do 2 (eapply same_effect_pack; eauto using pack_bytes_Q).
  do 2 (eapply same_effect_bytes; eauto).
  eapply same_effect_pack; eauto using pack_bytes_slot.
  eapply same_effect_pack; eauto using pack_bytes_Q.
  case_match; [|by intros ??].
  repeat (apply Forall_cons in Hloc2 as [? Hloc2]).
  eapply same_effect_pack; eauto using pack_bytes_Q.
  rewrite <- (app_nil_r (pack_stores HEADER_LAST_SLOT_OFFSET _ _)).
  eapply same_effect_pack; eauto using pack_bytes_Q. by intros ??.
Qed.

Lemma same_run lay slot seq f buf :
  write_args lay slot seq f -> okbuf lay buf ->
  okbuf lay (run_stores (write_stores lay slot seq f) buf).
Proof.
  intros Ha Hb. rewrite write_stores_blocks by done.
  eapply run_local_ok; [apply Ha|done|by apply write_blocks_local].
Qed.

(** The slot entry, payload and metadata after the six slot stores. *)
Lemma slot_stores_image lay slot seq f buf b1 b2 b3 b4 b5 b6 :
  layout_ok lay -> valid_slot lay slot -> frame_ok lay f -> okbuf lay buf ->
  b1 = store buf (entry_at lay slot) (Qb 0) ->
  b2 = store b1 (entry_at lay slot + SEQ_END_OFFSET) (Qb 0) ->
  b3 = store b2 (payload_at lay slot) (f_data f) ->
  b4 = store b3 (metadata_at lay slot) (default [] (f_meta f)) ->
  b5 = store b4 (entry_at lay slot) (slot_bytes seq (f_mono f) (f_wall f)) ->
  b6 = store b5 (entry_at lay slot + SEQ_END_OFFSET) (Qb seq) ->
  image_of lay b6 slot = frame_image seq f.
Proof.
  intros Hl Hs [Hd Hm Hw _ Hmd] Hb E1 E2 E3 E4 E5 E6.
  pose proof (slot_bounds _ _ Hl Hs) as Hbd. unfold SEQ_END_OFFSET, okbuf in *.
  assert (zlen b1 = total_bytes lay) by
    (subst b1; rewrite zlen_store; [done|apply in_range_spec; rewrite zlen_Qb; lia]).
  assert (zlen b2 = total_bytes lay) by
    (subst b2; rewrite zlen_store; [done|apply in_range_spec; rewrite zlen_Qb; lia]).
  assert (zlen b3 = total_bytes lay) by
    (subst b3; rewrite zlen_store; [done|apply in_range_spec; lia]).
  assert (zlen b4 = total_bytes lay) by
    (subst b4; rewrite zlen_store; [done|apply in_range_spec; lia]).
  assert (zlen b5 = total_bytes lay) by
    (subst b5; rewrite zlen_store; [done|apply in_range_spec; rewrite zlen_slot_bytes; lia]).
  assert (forall a n, 0 <= a -> 0 <= n -> a + n <= 32 ->
    slice b6 (entry_at lay slot + a) (entry_at lay slot + (a + n)) =
    slice (slot_bytes seq (f_mono f) (f_wall f)) a (a + n)) as Hentry.
  { intros a n ???. rewrite E6, slice_store_disjoint by
      (try (apply in_range_spec); rewrite ?zlen_Qb; lia).
    rewrite E5, slice_store_inside by
      (try (apply in_range_spec); rewrite ?zlen_slot_bytes; lia).
    f_equal; lia. }
  assert (forall a b, 0 <= a -> l_payload_offset lay <= a -> slice b6 a b = slice b4 a b) as Hrest.
  { intros a b ??. rewrite E6, E5, !slice_store_disjoint; try done;
      rewrite ?zlen_Qb, ?zlen_slot_bytes; try (apply in_range_spec); rewrite <- ?E5; lia. }
  unfold image_of, frame_image. f_equal.
  - pose proof (Hentry 0 8) as He. rewrite Z.add_0_r, Z.add_0_l, slot_bytes_begin in He. apply He; lia.
  - pose proof (Hentry 8 8) as He. change (8 + 8) with 16 in He. rewrite slot_bytes_mono in He. apply He; lia.
  - pose proof (Hentry 16 8) as He. change (16 + 8) with 24 in He. rewrite slot_bytes_wall in He. apply He; lia.
  - rewrite E6. replace (entry_at lay slot + 40) with (entry_at lay slot + 32 + zlen (Qb seq)) by
      (rewrite zlen_Qb; lia).
    apply slice_store_same. apply in_range_spec. rewrite zlen_Qb. lia.
  - rewrite Hrest by lia. rewrite E4, slice_store_disjoint by (try apply in_range_spec; lia).
    rewrite E3, <- Hd. apply slice_store_same. apply in_range_spec. lia.
  - rewrite Hrest by lia. rewrite E4, <- Hmd. apply slice_store_same. apply in_range_spec. lia.
Qed.

(** After a write its slot holds exactly the frame, *)
Lemma write_image_own lay slot seq f buf :
  write_args lay slot seq f -> okbuf lay buf ->
  image_of lay (run_stores (write_stores lay slot seq f) buf) slot = frame_image seq f.
Proof.
  intros Ha Hb. rewrite write_stores_blocks by done.
  pose proof (write_blocks_local _ _ _ _ Ha) as Hloc.
  destruct Ha as [Hl Hs Hq Hf]. unfold write_blocks in *.
  apply Forall_app in Hloc as [Hloc Hloc2]. rewrite run_stores_app.
  destruct (run_local_ok _ _ _ _ Hl Hb Hloc) as [Hb6 _].
  rewrite run_stores_foreign; [eapply (slot_stores_image lay slot seq f buf); (done || reflexivity)|done|done| |].
  - by eapply run_local_ok.
  - case_match; [|by apply Forall_nil_2].
    repeat (apply Forall_cons; split); try apply Forall_nil_2; by apply in_header_foreign.
Qed.

(** every other slot is as it was, *)
Lemma write_image_other lay slot seq f buf s :
  write_args lay slot seq f -> okbuf lay buf -> valid_slot lay s -> s ≠ slot ->
  image_of lay (run_stores (write_stores lay slot seq f) buf) s = image_of lay buf s.
Proof.
  intros Ha Hb Hs Hne. rewrite write_stores_blocks by done.
  pose proof (write_blocks_local _ _ _ _ Ha) as Hloc. destruct Ha as [Hl Hsl _ _].
  apply run_stores_foreign; [done|done|by eapply run_local_ok|].
  eapply Forall_impl; [exact Hloc|]. intros [o d] [[]|];
    [by eapply in_slot_foreign|by apply in_header_foreign].
Qed.

(** and the header names the newest frame. *)
Definition hint_image (buf : bytes) : bytes * bytes := (slice buf 32 40, slice buf 40 48).

Lemma write_hint lay slot seq f buf :
  write_args lay slot seq f -> okbuf lay buf -> 2 <= l_layout_version lay ->
  hint_image (run_stores (write_stores lay slot seq f) buf) = (Qb seq, Qb slot).
Proof.
  intros Ha Hb Hv. rewrite write_stores_blocks by done.
  pose proof (write_blocks_local _ _ _ _ Ha) as Hloc. destruct Ha as [Hl Hs _ _].
  unfold write_blocks in *. rewrite (proj2 (Z.leb_le _ _) Hv) in *.
  apply Forall_app in Hloc as [Hloc _]. rewrite run_stores_app.
  destruct (run_local_ok _ _ _ _ Hl Hb Hloc) as [Hb6 _].
  set (b6 := run_stores _ buf) in *. pose proof (slot_bounds _ _ Hl Hs) as Hbd.
  unfold okbuf in Hb6. cbn [run_stores foldl]. unfold hint_image, HEADER_LAST_SEQ_OFFSET, HEADER_LAST_SLOT_OFFSET.
  assert (in_range b6 32 (zlen (Qb seq)) = true) as H32 by (apply in_range_spec; rewrite zlen_Qb; lia).
  assert (in_range (store b6 32 (Qb seq)) 40 (zlen (Qb slot)) = true) as H40
    by (rewrite in_range_store by done; apply in_range_spec; rewrite zlen_Qb; lia).
  f_equal.
  - rewrite slice_store_disjoint by (done || rewrite ?zlen_Qb; lia). by apply (slice_store_same b6 32).
  - by apply (slice_store_same _ 40).
Qed.

End layout.
Arguments mkImage _ _ _ _ _ _ : clear implicits.

(** ** The write operation *)
Section write.
Context {D : Type} `{!Numpy D}.
Implicit Types (lay : ShmLayout D) (w : ShmRingWriter D) (arr : ndarray D).

(** Rules for running the statements of [write] one by one. *)
Lemma run_gets {S A B} (g : S -> A) (k : A -> pyM S B) s : (gets g ≫= k) s = k (g s) s.
Proof. done. Qed.
Lemma run_modify {S B} (g : S -> S) (k : unit -> pyM S B) s : (modify g ≫= k) s = k tt (g s).
Proof. done. Qed.
Lemma run_guard {S B} (b : bool) e (k : unit -> pyM S B) s :
  b = false -> (guard_raise b e ≫= k) s = k tt s.
Proof. by intros ->. Qed.
Lemma run_lift {S A B} (r : result A) a (k : A -> pyM S B) s : r = Ok a -> (lift r ≫= k) s = k a s.
Proof. by intros ->. Qed.
Lemma run_pack {B} fs vs d off (k : unit -> pyM (ShmRingWriter D) B) w :
  pack_bytes fs vs = Some d -> in_range (w_buf w) off (zlen d) = true ->
  (on_buf (pack_into fs off vs) ≫= k) w = k tt (set_buf w (store (w_buf w) off d)).
Proof.
  intros Hd Hr. unfold mbind, pyM_bind, on_buf. rewrite (pack_into_ok _ _ d); [done|done|].
  by rewrite <- (pack_bytes_length _ _ _ Hd).
Qed.
Lemma run_copy {B} start n data (k : unit -> pyM (ShmRingWriter D) B) w :
  in_range (w_buf w) start n = true ->
  (on_buf (copy_array start n data) ≫= k) w = k tt (set_buf w (store (w_buf w) start data)).
Proof. intros Hr. unfold mbind, pyM_bind, on_buf, copy_array. by rewrite Hr. Qed.

(** Arguments that satisfy the checks of [write] for frame [f]. *)
Record fits lay arr (mono wall : Z) (metadata : option (ndarray D)) (f : frame) : Prop := {
  fit_dtype : arr_dtype arr = l_dtype lay;
  fit_shape : arr_shape arr = l_shape lay;
  fit_data : f_data f = arr_data arr;
  fit_mono : f_mono f = mono;
  fit_wall : f_wall f = wall;
  fit_meta : f_meta f = arr_data <$> metadata;
  fit_check : check_metadata lay metadata = Ok tt
}.

Lemma run_copy_metadata {B} lay slot seq metadata f (k : unit -> pyM (ShmRingWriter D) B) w :
  write_args lay slot seq f -> okbuf lay (w_buf w) ->
  f_meta f = arr_data <$> metadata -> check_metadata lay metadata = Ok tt ->
  (copy_metadata lay slot metadata ≫= k) w =
  k tt (set_buf w (store (w_buf w) (metadata_at lay slot) (default [] (f_meta f)))).
Proof.
  intros [Hl Hs _ [_ _ _ _ Hmd]] Hb Fm Fc. unfold copy_metadata, check_metadata in *.
  pose proof (lo_meta _ Hl) as Hlm. rewrite Fm in *.
  destruct (l_metadata_dtype lay) as [md|], metadata as [m|]; simpl in *; try discriminate.
  - fold (metadata_at lay slot). apply run_copy. rewrite <- Hlm.
    eapply local_range; [done|done|apply Hl|by apply local_metadata].
  - rewrite store_nil. by destruct w.
Qed.

Lemma run_publish_hint {B} lay slot seq f (k : unit -> pyM (ShmRingWriter D) B) w :
  write_args lay slot seq f -> okbuf lay (w_buf w) ->
  (publish_hint lay seq slot ≫= k) w =
  k tt (set_buf w (run_stores (if 2 <=? l_layout_version lay
    then [(HEADER_LAST_SEQ_OFFSET, Qb seq); (HEADER_LAST_SLOT_OFFSET, Qb slot)] else [])
    (w_buf w))).
Proof.
  intros Ha Hb. pose proof (wa_slot_u64 _ _ _ _ Ha). destruct Ha as [Hl Hs Hq _].
  unfold publish_hint. destruct (2 <=? l_layout_version lay); [|by destruct w].
  pose proof (local_last_seq lay slot) as L1. pose proof (local_last_slot lay slot) as L2.
  unfold mbind at 1, pyM_bind at 1. rewrite (run_pack _ _ (Qb seq));
    [|by apply pack_bytes_Q|by eapply local_range].
  unfold on_buf. rewrite (pack_into_ok _ _ (Qb slot)); [done|by apply pack_bytes_Q|].
  eapply local_range; [done| |done|done]. by eapply okbuf_store.
Qed.

Lemma write_runs w arr mono wall metadata f :
  fits (w_layout w) arr mono wall metadata f ->
  write_args (w_layout w) (w_next_slot w) (w_next_seq w + 1) f ->
  okbuf (w_layout w) (w_buf w) ->
  write arr mono wall metadata w =
    (Ok (w_next_seq w + 1),
     mkWriter (w_layout w) (w_next_seq w + 1) ((w_next_slot w + 1) mod l_slot_count (w_layout w))
       (run_stores (write_stores (w_layout w) (w_next_slot w) (w_next_seq w + 1) f) (w_buf w))).
Proof.
  intros [Fd Fs Fdata <- <- Fm Fc] Ha Hb. rewrite write_stores_blocks by done.
  pose proof (write_blocks_local _ _ _ _ Ha) as Hloc. pose proof Ha as Ha'.
  destruct Ha' as [Hl Hs Hq [Hd Hm Hw _ _]]. assert (u64 0) by done.
  destruct w as [lay nseq nslot buf]. cbn [w_layout w_next_seq w_next_slot w_buf] in *.
  assert (forall o (d b : bytes), okbuf lay b -> local lay nslot o (zlen d) -> in_range b o (zlen d) = true)
    as Hrng by (intros; eapply local_range; eauto using zlen_nonneg).
  assert (forall o (d b : bytes), okbuf lay b -> local lay nslot o (zlen d) -> okbuf lay (store b o d))
    as Hok by (intros; by eapply okbuf_store).
  unfold write_blocks in *. apply Forall_app in Hloc as [Hloc _].
  repeat (apply Forall_cons in Hloc as [? Hloc]).
  unfold write. rewrite !run_gets, run_guard, run_guard, (run_lift _ _ _ _ Fc), !run_gets
    by (by rewrite bool_decide_eq_true_2).
  cbn [w_next_slot w_next_seq w_layout]. fold (entry_at lay nslot). fold (payload_at lay nslot).
  rewrite (run_pack _ _ (Qb 0)) by eauto using pack_bytes_Q.
  rewrite (run_pack _ _ (Qb 0)) by (cbn [set_buf w_buf]; eauto using pack_bytes_Q).
  rewrite run_copy by (cbn [set_buf w_buf]; rewrite <- lo_payload, <- Hd by done; eauto).
  rewrite <- Fdata.
  rewrite (run_copy_metadata _ _ _ _ _ _ _ Ha) by (cbn [set_buf w_buf]; eauto).
  rewrite (run_pack _ _ (slot_bytes (nseq + 1) (f_mono f) (f_wall f)))
    by (cbn [set_buf w_buf]; eauto 8 using pack_bytes_slot).
  rewrite (run_pack _ _ (Qb (nseq + 1))) by (cbn [set_buf w_buf]; eauto 9 using pack_bytes_Q).
  rewrite (run_publish_hint _ _ _ _ _ _ Ha) by (cbn [set_buf w_buf]; eauto 9).
  rewrite run_modify, run_guard, run_modify
    by (apply Z.eqb_neq; pose proof (lo_count _ Hl); lia).
  cbn [set_buf w_buf w_layout w_next_seq w_next_slot]. by rewrite run_stores_app.
Qed.
End write.

(** ** The ring as a window on a list of frames *)
Section window.
Context {D : Type} `{!Numpy D}.
Implicit Types (lay : ShmLayout D) (buf : bytes) (frames : list frame).

(** The memory holds the last [slot_count] of [frames]; slots not yet used
    carry the zero sequence pair; the hint names the newest frame. *)
Record ring_mem lay buf frames : Prop := {
  rm_live : forall i f, frames !! i = Some f -> zlen frames - l_slot_count lay <= Z.of_nat i ->
    image_of lay buf (Z.of_nat i mod l_slot_count lay) = frame_image (Z.of_nat i + 1) f;
  rm_empty : forall s, valid_slot lay s -> zlen frames <= s ->
    im_begin (image_of lay buf s) = Qb 0 /\ im_end (image_of lay buf s) = Qb 0;
  rm_hint : 2 <= l_layout_version lay -> hint_image buf =
    match frames with
    | [] => (Qb 0, Qb 0)
    | _ => (Qb (zlen frames), Qb ((zlen frames - 1) mod l_slot_count lay))
    end
}.

Lemma mod_window (a b n : Z) : 0 < n -> a < b -> b - a < n -> a mod n ≠ b mod n.
Proof.
  intros Hn Hab Hd He. assert ((b - a) mod n = 0) as Hz
    by (rewrite Zminus_mod, He, Z.sub_diag; apply Z.mod_0_l; lia).
  rewrite Z.mod_small in Hz; lia.
Qed.

Lemma ring_mem_write lay buf frames f :
  write_args lay (zlen frames mod l_slot_count lay) (zlen frames + 1) f -> okbuf lay buf ->
  ring_mem lay buf frames ->
  ring_mem lay
    (run_stores (write_stores lay (zlen frames mod l_slot_count lay) (zlen frames + 1) f) buf)
    (frames ++ [f]).
Proof.
  intros Ha Hb [Hlive Hempty Hhint]. pose proof (lo_count _ (wa_layout _ _ _ _ Ha)) as Hn.
  pose proof (zlen_nonneg frames) as HN.
  assert (zlen (frames ++ [f]) = zlen frames + 1) as HN1 by (by rewrite zlen_app).
  constructor.
  - intros i g Hi Hw. rewrite HN1 in Hw. apply lookup_snoc_Some in Hi as [[Hlt Hi]|[-> ->]].
    + rewrite write_image_other; [apply Hlive; (done || lia)|done|done| |].
      * unfold valid_slot. pose proof (Z.mod_pos_bound (Z.of_nat i) _ Hn). lia.
      * apply mod_window; unfold zlen in *; lia.
    + change (Z.of_nat (length frames)) with (zlen frames). by rewrite write_image_own.
  - intros s Hs Hle. rewrite HN1 in Hle. rewrite write_image_other; [apply Hempty; (done || lia)|done|done|done|].
    destruct Hs. rewrite Z.mod_small; lia.
  - intros Hv. rewrite write_hint by done. rewrite HN1, Z.add_simpl_r.
    destruct frames; done.
Qed.

(** The frame a reader can still get under sequence number [t]. *)
Definition live_frame lay frames (t : Z) : option frame :=
  if (1 <=? t) && (zlen frames - l_slot_count lay <? t)
  then frames !! Z.to_nat (t - 1) else None.

Definition quiet (buf : bytes) : memory := fun _ _ => buf.

(** Bytes picked one by one are the slice they lie in. *)
Lemma picked_bytes (g : nat -> bytes) (a n : nat) d :
  length d = n ->
  (forall j x, d !! j = Some x -> g j !! (a + j)%nat = Some x) ->
  (fun j => nth (a + j) (g j) 0) <$> seq 0 n = d.
Proof.
  intros Hn Hp. apply list_eq. intros j. rewrite list_lookup_fmap.
  destruct (d !! j) as [x|] eqn:E.
  - pose proof (lookup_lt_Some _ _ _ E). rewrite lookup_seq_lt by lia. cbn [fmap option_fmap option_map].
    change (0 + j)%nat with j. by rewrite nth_lookup, (Hp _ _ E).
  - apply lookup_ge_None in E. by rewrite lookup_seq_ge by lia.
Qed.

Lemma load_Q_quiet buf k off : load_Q (quiet buf) k off = read_Q buf off.
Proof.
  unfold load_Q, read_Q, quiet. destruct (in_range buf off 8) eqn:Hr; [|done].
  apply in_range_spec in Hr as (?&?&?). f_equal. f_equal.
  assert (zlen (slice buf off (off + 8)) = 8) as Hlen by (rewrite zlen_slice; lia).
  apply picked_bytes; [unfold zlen in Hlen; lia|].
  intros j x. unfold slice. replace (off + 8 - off) with 8 by lia. intros E.
  pose proof (lookup_lt_Some _ _ _ E) as Hlt. rewrite length_take in Hlt.
  by rewrite lookup_take_lt, lookup_drop in E by lia.
Qed.

Lemma tear_quiet buf k a b :
  0 <= a -> b <= zlen buf -> tear (quiet buf) k a b = slice buf a b.
Proof.
  intros Ha Hb. unfold tear, quiet. rewrite Z.min_l by lia.
  apply picked_bytes.
  - unfold slice, zlen in *. rewrite length_take, length_drop. lia.
  - intros j x. unfold slice. intros E. pose proof (lookup_lt_Some _ _ _ E) as Hlt.
    rewrite length_take in Hlt. by rewrite lookup_take_lt, lookup_drop in E by lia.
Qed.

(** In a slot that holds frame [q], a read for [t] succeeds iff [t = q]. *)
Lemma read_stable_holds lay buf k s q f t :
  layout_ok lay -> okbuf lay buf -> valid_slot lay s -> frame_ok lay f ->
  0 < q < 2 ^ 64 -> image_of lay buf s = frame_image q f ->
  _read_stable_slot lay (quiet buf) k s t
  = Ok (if q =? t then Some (frame_event q f) else None).
Proof.
  intros Hl Hb Hs [Hd Hm Hw Hsh Hmd] Hq Hi. unfold image_of, frame_image in Hi.
  injection Hi as I1 I2 I3 I4 I5 I6. pose proof (slot_bounds _ _ Hl Hs) as Hbd.
  assert (u64 q) by (unfold u64; lia). unfold okbuf in Hb.
  assert (forall a, 0 <= a -> a + 8 <= 64 -> in_range buf (entry_at lay s + a) 8 = true) as Hr
    by (intros; apply in_range_spec; lia).
  pose proof (Hr 0) as Hr0. rewrite Z.add_0_r in Hr0.
  unfold _read_stable_slot, SEQ_END_OFFSET. cbv zeta. rewrite !load_Q_quiet. fold (entry_at lay s).
  rewrite (read_Q_ok buf (entry_at lay s) q) by (done || apply Hr0; lia). cbn [mbind result_bind].
  rewrite (read_Q_ok buf (entry_at lay s + 32) q)
    by (try apply Hr; try (rewrite <- I4; f_equal); (done || lia)). cbn [mbind result_bind].
  rewrite (proj2 (Z.eqb_neq q 0)), Z.eqb_refl by lia. cbn [negb orb].
  destruct (Z.eqb_spec q t) as [<-|Hne]; cbn [negb]; [|done].
  rewrite (read_Q_ok buf (entry_at lay s + 8) (f_mono f))
    by (try apply Hr; try (rewrite <- I2; f_equal); (done || lia)). cbn [mbind result_bind].
  rewrite (read_Q_ok buf (entry_at lay s + 16) (f_wall f))
    by (try apply Hr; try (rewrite <- I3; f_equal); (done || lia)). cbn [mbind result_bind].
  unfold read_Q at 1. rewrite Hr by lia. cbn [mbind result_bind orb]. unfold frame_event. do 3 f_equal.
  - fold (payload_at lay s). rewrite tear_quiet by lia. done.
  - fold (metadata_at lay s).
    destruct (l_metadata_dtype lay); [rewrite tear_quiet by lia; rewrite I6|];
      destruct (f_meta f); simpl; try done; exfalso.
    + by apply (is_Some_None (A := bytes)), Hsh.
    + by apply (is_Some_None (A := D)), Hsh.
Qed.

Lemma read_stable_empty lay buf k s t :
  layout_ok lay -> okbuf lay buf -> valid_slot lay s ->
  im_begin (image_of lay buf s) = Qb 0 -> im_end (image_of lay buf s) = Qb 0 ->
  _read_stable_slot lay (quiet buf) k s t = Ok None.
Proof.
  intros Hl Hb Hs I1 I4. simpl in I1, I4. pose proof (slot_bounds _ _ Hl Hs) as Hbd.
  unfold okbuf in Hb. unfold _read_stable_slot, SEQ_END_OFFSET. cbv zeta. rewrite !load_Q_quiet. fold (entry_at lay s).
  rewrite (read_Q_ok buf (entry_at lay s) 0) by (done || apply in_range_spec; lia). cbn [mbind result_bind].
  rewrite (read_Q_ok buf (entry_at lay s + 32) 0)
    by (try (rewrite <- I4; f_equal); try apply in_range_spec; (done || lia)).
  done.
Qed.

Section reads.
Context (lay : ShmLayout D) (buf : bytes) (frames : list frame).
Context (Hl : layout_ok lay) (Hb : okbuf lay buf) (Hf : Forall (frame_ok lay) frames).
Context (HN : zlen frames < 2 ^ 64) (Hmem : ring_mem lay buf frames).

#[local] Abbreviation cap := (l_slot_count lay).

Lemma valid_mod z : valid_slot lay (z mod cap).
Proof. unfold valid_slot. apply Z.mod_pos_bound. apply Hl. Qed.

(** Every slot is empty or holds the newest frame that maps to it. *)
Lemma slot_cases s :
  valid_slot lay s ->
  zlen frames <= s \/
  exists i f, frames !! i = Some f /\ zlen frames - cap <= Z.of_nat i /\ Z.of_nat i mod cap = s.
Proof.
  intros [H0 Hn]. destruct (decide (zlen frames <= s)) as [|Hs]; [by left|right].
  pose proof (lo_count _ Hl) as Hc. set (r := (zlen frames - 1 - s) mod cap).
  assert (0 <= r < cap) as Hr by (apply Z.mod_pos_bound; lia).
  pose proof (Z.mod_le (zlen frames - 1 - s) cap) as Hle. fold r in Hle.
  set (i := zlen frames - 1 - r). assert (0 <= i) by lia.
  destruct (lookup_lt_is_Some_2 frames (Z.to_nat i)) as [f Hi]; [unfold zlen in *; lia|].
  exists (Z.to_nat i), f. rewrite Z2Nat.id by lia. split_and!; [done|lia|].
  unfold i, r. rewrite Zminus_mod_idemp_r.
  replace (zlen frames - 1 - (zlen frames - 1 - s)) with s by lia. apply Z.mod_small. lia.
Qed.

Lemma live_frame_Some t f :
  live_frame lay frames t = Some f <->
  1 <= t /\ zlen frames - cap < t /\ frames !! Z.to_nat (t - 1) = Some f.
Proof.
  unfold live_frame. destruct (Z.leb_spec 1 t), (Z.ltb_spec (zlen frames - cap) t); simpl;
    split; intros; try done; destruct_and?; (done || lia).
Qed.

Lemma frame_ok_at i f : frames !! i = Some f -> frame_ok lay f.
Proof. intros Hi. by eapply Forall_lookup_1. Qed.

Lemma index_bound i (f : frame) : frames !! i = Some f -> Z.of_nat i < zlen frames.
Proof. intros Hi%lookup_lt_Some. unfold zlen. lia. Qed.

(** What one slot gives for target [t]. *)
Lemma stable_read_spec k s t :
  valid_slot lay s ->
  _read_stable_slot lay (quiet buf) k s t =
  Ok (if (t - 1) mod cap =? s then frame_event t <$> live_frame lay frames t else None).
Proof.
  intros Hs. destruct (slot_cases s Hs) as [He|(i&f&Hi&Hw&Hm)].
  - destruct (rm_empty _ _ _ Hmem s Hs He) as [E1 E2].
    rewrite read_stable_empty by done. f_equal. destruct (Z.eqb_spec ((t - 1) mod cap) s) as [Ht|]; [|done].
    destruct (live_frame lay frames t) as [f|] eqn:Hlf; [|done].
    apply live_frame_Some in Hlf as (?&?&Hi). pose proof (index_bound _ _ Hi).
    destruct Hs. rewrite Z.mod_small in Ht; lia.
  - pose proof (index_bound _ _ Hi).
    rewrite (read_stable_holds _ _ _ _ (Z.of_nat i + 1) f);
      [|done|done|done|by eapply frame_ok_at|lia|rewrite <- Hm; by apply (rm_live _ _ _ Hmem)].
    f_equal. destruct (Z.eqb_spec (Z.of_nat i + 1) t) as [<-|Hne].
    + rewrite Z.add_simpl_r, Hm, Z.eqb_refl.
      replace (live_frame lay frames (Z.of_nat i + 1)) with (Some f); [done|].
      symmetry. apply live_frame_Some. rewrite Z.add_simpl_r, Nat2Z.id. split_and!; (done || lia).
    + destruct (Z.eqb_spec ((t - 1) mod cap) s) as [Ht|]; [|done].
      destruct (live_frame lay frames t) as [g|] eqn:Hlf; [|done].
      apply live_frame_Some in Hlf as (?&?&Hj). pose proof (index_bound _ _ Hj).
      exfalso. pose proof (lo_count _ Hl). rewrite <- Hm in Ht.
      destruct (decide (t - 1 < Z.of_nat i)).
      * apply (mod_window (t - 1) (Z.of_nat i) cap); lia.
      * apply (mod_window (Z.of_nat i) (t - 1) cap); lia.
Qed.

Lemma first_hit_spec k slots t :
  Forall (valid_slot lay) slots ->
  first_hit lay (quiet buf) k slots t =
  Ok (if bool_decide ((t - 1) mod cap ∈ slots) then frame_event t <$> live_frame lay frames t else None).
Proof.
  revert k. induction slots as [|s r IH]; intros k Hv; [done|].
  apply Forall_cons in Hv as [Hs Hr]. cbn [first_hit].
  rewrite stable_read_spec by done. cbn [mbind result_bind]. rewrite IH by done.
  destruct (Z.eqb_spec ((t - 1) mod cap) s) as [->|Hne].
  - rewrite (bool_decide_eq_true_2 (s ∈ s :: r)) by left.
    destruct (live_frame lay frames t); simpl; [done|]. by destruct (bool_decide (s ∈ r)).
  - f_equal. apply (f_equal (fun b : bool => if b then _ else _)).
    apply bool_decide_ext. set_solver.
Qed.

Lemma all_slots_valid : Forall (valid_slot lay) (Z.of_nat <$> seq 0 (Z.to_nat cap)).
Proof.
  apply Forall_fmap, Forall_forall. intros i Hi%elem_of_seq. unfold valid_slot. simpl. lia.
Qed.

Lemma all_slots_elem s : valid_slot lay s -> s ∈ Z.of_nat <$> seq 0 (Z.to_nat cap).
Proof.
  intros []. apply list_elem_of_fmap. exists (Z.to_nat s). split; [lia|].
  apply elem_of_seq. lia.
Qed.

Lemma slots_to_try_spec h :
  Forall (valid_slot lay) (slots_to_try lay h) /\
  forall s, valid_slot lay s -> s ∈ slots_to_try lay h.
Proof.
  unfold slots_to_try. pose proof all_slots_valid. pose proof all_slots_elem.
  destruct h as [h|]; [|done].
  destruct (Z.leb_spec 0 h), (Z.ltb_spec h cap); cbn [andb]; [|done..].
  split.
  - constructor; [done|]. apply Forall_app. split; [|done].
    apply Forall_forall. intros s Hs. apply list_elem_of_In, in_flat_map in Hs as (d&_&Hs).
    destruct Hs as [<-|[<-|[]]]; apply valid_mod.
  - intros s Hs. right. apply elem_of_app. right. auto.
Qed.

Lemma read_hint_total : exists h, _read_last_hint lay (quiet buf) = Ok h.
Proof.
  unfold _read_last_hint. destruct (l_layout_version lay <? 2) eqn:Hv; [by eexists|].
  assert (valid_slot lay 0) as H0 by (split; [done|apply Hl]).
  pose proof (slot_bounds _ _ Hl H0). unfold okbuf in Hb.
  rewrite !load_Q_quiet. unfold read_Q, HEADER_LAST_SEQ_OFFSET, HEADER_LAST_SLOT_OFFSET.
  rewrite !(proj2 (in_range_spec _ _ _)) by lia. by eexists.
Qed.

(** A quiet read of sequence number [t] returns the frame published under
    [t] if it is one of the last [slot_count], and nothing otherwise. *)
Lemma read_event_window t :
  read_event lay (quiet buf) t = Ok (frame_event t <$> live_frame lay frames t).
Proof.
  unfold read_event. destruct read_hint_total as [h ->]. cbn [mbind result_bind].
  destruct (slots_to_try_spec (snd <$> h)) as [Hv Hall].
  rewrite first_hit_spec by done. rewrite bool_decide_eq_true_2; [done|].
  apply Hall, valid_mod.
Qed.

(** The indexed frames a reader that has seen [last] still has to get. *)
Definition pending (last : Z) : list (nat * frame) :=
  filter (fun p => zlen frames - cap <= Z.of_nat p.1 /\ last < Z.of_nat p.1 + 1) (imap pair frames).

Definition entry_of (p : nat * frame) : Z * Z := (Z.of_nat p.1 + 1, Z.of_nat p.1 mod cap).

Lemma elem_of_imap_pair i (f : frame) : (i, f) ∈ imap pair frames <-> frames !! i = Some f.
Proof.
  rewrite list_elem_of_lookup. setoid_rewrite list_lookup_imap_Some. split.
  - intros (j&g&Hj&?). by simplify_eq.
  - intros Hi. by exists i, f.
Qed.

Lemma pending_elem last i f :
  (i, f) ∈ pending last <->
  zlen frames - cap <= Z.of_nat i /\ last < Z.of_nat i + 1 /\ frames !! i = Some f.
Proof. unfold pending. rewrite list_elem_of_filter, elem_of_imap_pair. simpl. tauto. Qed.

(** Both sequence words of a slot carry the number [q] of the live frame
    that maps to it, or zero. *)
Lemma slot_seq_read s :
  valid_slot lay s ->
  exists q, read_Q buf (entry_at lay s) = Ok q /\ read_Q buf (entry_at lay s + 32) = Ok q /\
    (q = 0 \/ exists i f, frames !! i = Some f /\ q = Z.of_nat i + 1) /\
    forall i f, frames !! i = Some f ->
      zlen frames - cap <= Z.of_nat i /\ Z.of_nat i mod cap = s <-> q = Z.of_nat i + 1.
Proof.
  intros Hs. pose proof (slot_bounds _ _ Hl Hs) as Hbd. unfold okbuf in Hb.
  destruct (slot_cases s Hs) as [He|(i&f&Hi&Hw&Hm)].
  - destruct (rm_empty _ _ _ Hmem s Hs He) as [E1 E2]. simpl in E1, E2. exists 0. split_and!.
    + apply read_Q_ok; (done || apply in_range_spec; lia).
    + apply read_Q_ok; try (rewrite <- E2; f_equal); try apply in_range_spec; (done || lia).
    + by left.
    + intros i f Hi. pose proof (index_bound _ _ Hi). destruct Hs. split; [|lia].
      intros [? Hm]. rewrite Z.mod_small in Hm; lia.
  - pose proof (index_bound _ _ Hi) as Hib.
    pose proof (rm_live _ _ _ Hmem i f Hi Hw) as Him. rewrite Hm in Him.
    unfold image_of, frame_image in Him. injection Him as I1 _ _ I4 _ _.
    assert (u64 (Z.of_nat i + 1)) by (unfold u64; lia).
    exists (Z.of_nat i + 1). split_and!.
    + apply read_Q_ok; (done || apply in_range_spec; lia).
    + apply read_Q_ok; try (rewrite <- I4; f_equal); try apply in_range_spec; (done || lia).
    + right. by exists i, f.
    + intros j g Hj. pose proof (index_bound _ _ Hj). pose proof (lo_count _ Hl). split.
      * intros [Hwj Hmj]. destruct (Z.lt_trichotomy (Z.of_nat i) (Z.of_nat j)) as [?|[?|?]];
          [exfalso; apply (mod_window (Z.of_nat i) (Z.of_nat j) cap)|lia
          |exfalso; apply (mod_window (Z.of_nat j) (Z.of_nat i) cap)]; lia.
      * intros Hij. assert (j = i) as -> by lia. done.
Qed.

(** The first pass finds, slot by slot, what each slot holds. *)
Lemma scan_slots_spec k slots last :
  0 <= last -> Forall (valid_slot lay) slots ->
  exists entries, scan_slots lay (quiet buf) k slots last = Ok entries /\
    snd <$> entries `sublist_of` slots /\
    forall q s, (q, s) ∈ entries <->
      s ∈ slots /\ exists p, p ∈ pending last /\ entry_of p = (q, s).
Proof.
  intros Hlast. revert k. induction slots as [|s r IH]; intros k Hv.
  { exists []. split_and!; [done|constructor|set_solver]. }
  apply Forall_cons in Hv as [Hs Hr]. destruct (IH (k + 2)%nat Hr) as (es&Hes&Hsub&Hel).
  cbn [scan_slots]. fold (entry_at lay s). unfold SEQ_END_OFFSET. rewrite !load_Q_quiet.
  destruct (slot_seq_read s Hs) as (q&->&->&Hq&Hiff). cbn [mbind result_bind].
  rewrite Hes. cbn [mbind result_bind]. rewrite Z.eqb_refl. cbn [negb]. rewrite orb_false_r.
  assert (forall q', (exists p, p ∈ pending last /\ entry_of p = (q', s)) <->
                     q' = q /\ last < q) as Hhead.
  { intros q'. split.
    - intros ([i f]&Hp&He). apply pending_elem in Hp as (?&?&Hi). unfold entry_of in He.
      simpl in He. injection He as <- Hm. rewrite (proj1 (Hiff i f Hi)) by done. lia.
    - intros [-> Hlt]. destruct Hq as [?|(i&f&Hi&Hqi)]; [lia|]. exists (i, f).
      destruct (proj2 (Hiff i f Hi) Hqi). rewrite pending_elem. unfold entry_of. simpl.
      split_and!; (done || lia || congruence). }
  assert ((q =? 0) || (q <=? last) = (q <=? last)) as Hcond by lia.
  rewrite Hcond. destruct (Z.leb_spec q last).
  - exists es. split_and!; [done|by constructor|]. intros q' s'. rewrite Hel, elem_of_cons.
    specialize (Hhead q'). split; [naive_solver|]. intros [[->|?] He]; [|naive_solver].
    apply Hhead in He. lia.
  - exists ((q, s) :: es). split_and!; [done|by constructor|]. intros q' s'.
    rewrite !elem_of_cons, Hel. specialize (Hhead q').
    destruct (decide (s' = s)) as [->|]; [|naive_solver].
    rewrite Hhead. split; [intros [?|[? ?]]; simplify_eq; auto|].
    intros [_ [-> _]]. by left.
Qed.

Lemma pending_sorted last :
  StronglySorted (fun p q : nat * frame => (p.1 < q.1)%nat) (pending last).
Proof. unfold pending. apply StronglySorted_filter, imap_pair_sorted. Qed.

Lemma entries_sorted last : StronglySorted (key_le fst) (entry_of <$> pending last).
Proof.
  apply StronglySorted_fmap with (R := fun p q : nat * frame => (p.1 < q.1)%nat);
    [|apply pending_sorted]. unfold key_le, entry_of. simpl. lia.
Qed.

Lemma entries_NoDup last : NoDup (fst <$> (entry_of <$> pending last)).
Proof.
  rewrite <- list_fmap_compose. apply StronglySorted_lt_NoDup.
  apply StronglySorted_fmap with (R := fun p q : nat * frame => (p.1 < q.1)%nat);
    [|apply pending_sorted]. unfold entry_of. simpl. lia.
Qed.

Lemma scan_order_spec h :
  Forall (valid_slot lay) (scan_order lay h) /\ NoDup (scan_order lay h) /\
  forall s, valid_slot lay s -> s ∈ scan_order lay h.
Proof.
  unfold scan_order. pose proof all_slots_valid. pose proof all_slots_elem.
  pose proof (lo_count _ Hl) as Hc.
  assert (NoDup (Z.of_nat <$> seq 0 (Z.to_nat cap))) by
    (apply NoDup_fmap_2; [apply _|apply NoDup_seq]).
  destruct h as [h|]; [|done]. destruct (Z.leb_spec 0 h), (Z.ltb_spec h cap); cbn [andb]; [|done..].
  split_and!.
  - apply Forall_fmap, Forall_forall. intros i _. apply valid_mod.
  - apply NoDup_fmap_2_strong; [|apply NoDup_seq].
    intros i j Hi%elem_of_seq Hj%elem_of_seq He.
    destruct (Nat.lt_trichotomy i j) as [?|[?|?]]; [|done|].
    + exfalso. apply (mod_window (h + Z.of_nat i) (h + Z.of_nat j) cap); (done || lia).
    + exfalso. apply (mod_window (h + Z.of_nat j) (h + Z.of_nat i) cap); (done || lia).
  - intros s Hs. apply list_elem_of_fmap. exists (Z.to_nat ((s - h) mod cap)).
    pose proof (Z.mod_pos_bound (s - h) cap Hc). split; [|apply elem_of_seq; lia].
    rewrite Z2Nat.id by lia. rewrite Zplus_mod_idemp_r.
    replace (h + (s - h)) with s by lia. destruct Hs. by rewrite Z.mod_small.
Qed.

(** The second pass returns every entry: nothing changes in between. *)
Lemma collect_events_spec k last ps :
  Forall (fun p => p ∈ pending last) ps ->
  collect_events lay (quiet buf) k (entry_of <$> ps) =
  Ok ((fun p => frame_event (Z.of_nat p.1 + 1) p.2) <$> ps).
Proof.
  revert k. induction ps as [|[i f] ps IH]; intros k Hp; [done|].
  apply Forall_cons in Hp as [Hp Hps]. apply pending_elem in Hp as (Hw&_&Hi).
  cbn [fmap list_fmap collect_events entry_of fst snd].
  rewrite stable_read_spec by apply valid_mod. rewrite Z.add_simpl_r, Z.eqb_refl.
  replace (live_frame lay frames (Z.of_nat i + 1)) with (Some f).
  - cbn [mbind result_bind]. rewrite IH by done. done.
  - symmetry. apply live_frame_Some. rewrite Z.add_simpl_r, Nat2Z.id. split_and!; (done || lia).
Qed.

(** A quiet [read_events] returns the retained frames newer than [last],
    all of them, in publication order. *)
Lemma read_events_window last :
  0 <= last ->
  read_events lay (quiet buf) last =
  Ok ((fun p => frame_event (Z.of_nat p.1 + 1) p.2) <$> pending last).
Proof.
  intros Hlast. unfold read_events. destruct read_hint_total as [h ->]. cbn [mbind result_bind].
  destruct (scan_order_spec (snd <$> h)) as (Hv&Hnd&Hall).
  destruct (scan_slots_spec 2 _ last Hlast Hv) as (es&->&Hsub&Hel). cbn [mbind result_bind].
  assert (sort_by fst es = entry_of <$> pending last) as ->.
  { symmetry. apply (sorted_unique fst);
      [apply entries_sorted|apply sort_by_sorted|apply entries_NoDup|].
    rewrite sort_by_perm. apply NoDup_Permutation.
    - eapply NoDup_fmap_1, entries_NoDup.
    - eapply NoDup_fmap_1. by eapply sublist_NoDup.
    - intros [q s]. rewrite Hel, list_elem_of_fmap. split; [|naive_solver].
      intros (p&He&Hp). injection He as -> ->. split; [apply Hall, valid_mod|by exists p]. }
  apply (collect_events_spec _ last), Forall_forall. done.
Qed.
End reads.
End window.
