(* ===== verification/ShmAttach.v ===== *)
(** * Creating a ring and attaching to it

    [create] lays out a zeroed segment that refines the empty ring, and
    [attach] recovers from the bytes of the header the very layout the writer
    uses, at any time in the life of the ring. *)
From S2P Require Import Prelude Bytes PyVal ShmRing ShmRingSpec.

(** ** Header text *)
Lemma encode_decode_ascii s :
  Forall (fun c => (N_of_ascii c < 128)%N) (String.list_ascii_of_string s) ->
  decode_utf8 (encode_utf8 s) = Ok s.
Proof.
  intros Ha. unfold decode_utf8, encode_utf8.
  assert (forallb (fun x => (0 <=? x) && (x <? 128))
    ((fun c => Z.of_N (N_of_ascii c)) <$> String.list_ascii_of_string s) = true) as ->.
  { apply forallb_forall. intros x Hx%list_elem_of_In. apply list_elem_of_fmap in Hx as (c&->&Hc).
    rewrite Forall_forall in Ha. specialize (Ha _ Hc). lia. }
  f_equal. rewrite <- list_fmap_compose. clear Ha.
  rewrite <- (String.string_of_list_ascii_of_string s) at 2. f_equal.
  induction (String.list_ascii_of_string s) as [|c l IH]; simpl; [done|].
  f_equal; [|done]. rewrite N2Z.id. apply ascii_N_embedding.
Qed.

Definition is_ascii (s : string) : Prop :=
  Forall (fun c => (N_of_ascii c < 128)%N) (String.list_ascii_of_string s).

(** ** The static part of the header *)
Definition Ib (z : Z) : bytes := le_encode 4 z.

Lemma zlen_Ib z : zlen (Ib z) = 4.
Proof. unfold zlen, Ib. by rewrite length_le_encode. Qed.

Definition u32 (z : Z) : Prop := 0 <= z < 2 ^ 32.
Definition i32 (z : Z) : Prop := - 2 ^ 31 <= z < 2 ^ 31.

Definition shape_bytes (shape : list Z) : bytes :=
  concat ((fun d => Ib (d mod 2 ^ 32)) <$> shape).

Lemma zlen_shape_bytes shape : zlen (shape_bytes shape) = zlen shape * 4.
Proof.
  unfold shape_bytes. induction shape as [|d r IH]; [done|]. cbn [fmap list_fmap concat].
  rewrite zlen_app, zlen_Ib, IH. unfold zlen. simpl length. lia.
Qed.

Lemma shape_bytes_cons d r : shape_bytes (d :: r) = Ib (d mod 2 ^ 32) ++ shape_bytes r.
Proof. done. Qed.

Lemma read_i_ok buf off d :
  in_range buf off 4 = true -> slice buf off (off + 4) = Ib (d mod 2 ^ 32) -> i32 d ->
  read_i buf off = Ok d.
Proof.
  intros Hr Hs [H1 H2]. unfold read_i. rewrite Hr, Hs. f_equal. unfold Ib.
  rewrite le_decode_encode_I by (apply Z.mod_pos_bound; lia).
  destruct (decide (0 <= d)).
  - rewrite Z.mod_small by lia. by rewrite (proj2 (Z.ltb_lt _ _)).
  - replace (d mod 2 ^ 32) with (d + 2 ^ 32).
    + rewrite (proj2 (Z.ltb_ge _ _)) by lia. lia.
    + rewrite <- (Z.mod_add d 1 (2 ^ 32)) by lia. rewrite Z.mod_small; lia.
Qed.

(** Reading the dimensions back one by one. *)
Lemma mapR_shape {D} `{!Numpy D} (buf : bytes) off shape k :
  0 <= off -> Forall i32 shape ->
  in_range buf (off + Z.of_nat k * 4) (zlen shape * 4) = true ->
  slice buf (off + Z.of_nat k * 4) (off + Z.of_nat k * 4 + zlen shape * 4) = shape_bytes shape ->
  mapR (fun i => read_i buf (off + Z.of_nat i * 4)) (seq k (length shape)) = Ok shape.
Proof.
  intros Hoff Hs. revert k. induction Hs as [|d r Hd Hr IH]; intros k Hin Hsl; [done|].
  apply in_range_spec in Hin as (?&?&Hend). cbn [length seq mapR].
  replace (zlen (d :: r)) with (1 + zlen r) in * by (unfold zlen; simpl length; lia).
  pose proof (zlen_nonneg r).
  assert (slice buf (off + Z.of_nat k * 4) (off + Z.of_nat k * 4 + 4) = Ib (d mod 2 ^ 32) /\
          slice buf (off + Z.of_nat (S k) * 4) (off + Z.of_nat (S k) * 4 + zlen r * 4) = shape_bytes r)
    as [H4 Hrest].
  { rewrite (slice_split buf _ (off + Z.of_nat k * 4 + 4)) in Hsl by lia.
    rewrite shape_bytes_cons in Hsl. apply app_inj_1 in Hsl as [E1 E2].
    - split; [done|]. rewrite <- E2. f_equal; lia.
    - apply Nat2Z.inj. change (zlen (slice buf (off + Z.of_nat k * 4) (off + Z.of_nat k * 4 + 4))
        = zlen (Ib (d mod 2 ^ 32))). rewrite zlen_slice, zlen_Ib; lia. }
  rewrite (read_i_ok _ _ d) by (done || apply in_range_spec; lia).
  cbn [mbind result_bind]. rewrite IH; [done| |done]. apply in_range_spec. lia.
Qed.

Section static.
Context {D : Type} `{!Numpy D}.
Implicit Types (lay : ShmLayout D) (buf : bytes).

Definition dtype_text lay : bytes := encode_utf8 (_dtype_to_header_text (l_dtype lay)).
Definition metadata_text lay : bytes :=
  match l_metadata_dtype lay with
  | Some m => encode_utf8 (_dtype_to_header_text m) | None => [] end.

(** The layouts [create] computes from its arguments. *)
Record layout_created lay : Prop := {
  lc_ok : layout_ok lay;
  lc_count : u32 (l_slot_count lay);
  lc_payload : u32 (l_payload_nbytes lay);
  lc_version : u32 (l_layout_version lay);
  lc_dtype_len : l_dtype_str_len lay = zlen (dtype_text lay);
  lc_dtype_u32 : u32 (l_dtype_str_len lay);
  lc_shape_len : l_shape_len lay = zlen (l_shape lay);
  lc_shape_u32 : u32 (l_shape_len lay);
  lc_shape : Forall i32 (l_shape lay);
  lc_metadata_len : l_metadata_dtype_str_len lay = zlen (metadata_text lay);
  lc_metadata_len_u64 : u64 (l_metadata_dtype_str_len lay);
  lc_metadata_u64 : u64 (l_metadata_nbytes lay);
  lc_table : l_slot_table_offset lay =
    HEADER_SIZE + l_dtype_str_len lay + l_shape_len lay * 4 + l_metadata_dtype_str_len lay
}.

(** The bytes of the header that never change after [create]. *)
Record static_header lay buf : Prop := {
  sh_fixed : slice buf 0 28 =
    MAGIC ++ Ib (l_layout_version lay) ++ Ib (l_slot_count lay) ++ Ib (l_payload_nbytes lay)
    ++ Ib (l_dtype_str_len lay) ++ Ib (l_shape_len lay);
  sh_metadata : 4 <= l_layout_version lay ->
    slice buf 48 64 = Qb (l_metadata_dtype_str_len lay) ++ Qb (l_metadata_nbytes lay);
  sh_text : slice buf HEADER_SIZE (l_slot_table_offset lay) =
    dtype_text lay ++ shape_bytes (l_shape lay) ++ metadata_text lay
}.

(** A store of a write leaves every static byte alone. *)
Lemma static_write lay slot seq f buf :
  write_args lay slot seq f -> okbuf lay buf -> static_header lay buf ->
  static_header lay (run_stores (write_stores lay slot seq f) buf).
Proof.
  intros Ha Hb [H1 H2 H3]. rewrite write_stores_blocks by done.
  pose proof (write_blocks_touch _ _ _ _ Ha) as Ht. pose proof (lo_table _ (wa_layout _ _ _ _ Ha)).
  unfold HEADER_SIZE in *. constructor.
  - rewrite <- H1. apply (run_stores_untouched lay slot); [done|done|lia|]. left. lia.
  - intros Hv. rewrite <- H2 by done. apply (run_stores_untouched lay slot); [done|done|lia|]. right. lia.
  - rewrite <- H3. apply (run_stores_untouched lay slot); [done|done|lia|]. right. lia.
Qed.
End static.

(** ** NumPy and JSON

    Documented of every value: [json.dumps] escapes what is not ASCII, and a
    list of 64-bit unsigned values converts to itself. *)
Class NumpyLaws (D : Type) `{!Numpy D} := {
  json_ascii : forall v, is_ascii (json_dumps v);
  np_u64_list : forall l, Forall u64 l -> np_asarray_u64 l = Ok l
}.

Definition dtype_header_json {D} `{!Numpy D} (d : D) : pyval :=
  PDict [("kind", PStr "structured_dtype"); ("descr", PList (np_descr d))].

(** Not every dtype can be rebuilt from its header text, so this is asked of
    the dtypes of a ring only: [np.dtype] accepts the text [str(d)] of a plain
    one, which is ASCII and not taken for JSON; the JSON text of a structured
    one loads to the same dict with a list for [descr] (in which tuples have
    become lists) that [np.dtype] accepts, field by field, for [d]. *)
Definition reads_back {D} `{!Numpy D} (d : D) : Prop :=
  if np_fields_none d then
    is_ascii (np_str d) /\ String.prefix STRUCTURED_DTYPE_PREFIX (np_str d) = false /\
    np_dtype_text (np_str d) = Ok d
  else exists kv descr, json_loads (json_dumps (dtype_header_json d)) = Ok (PDict kv) /\
    dget kv "kind" = PStr "structured_dtype" /\ dget kv "descr" = PList descr /\
    np_dtype_descr descr = Ok d.

(** A ring carries metadata exactly from layout version 4 on. *)
Definition metadata_by_version {D} (md : option D) (layout_version : Z) : Prop :=
  is_Some md <-> 4 <= layout_version.

Lemma substring_full s : String.substring 0 (String.length s) s = s.
Proof. induction s as [|c s IH]; simpl; [done|]. by rewrite IH. Qed.

Section attach.
Context {D : Type} `{!Numpy D, !NumpyLaws D}.
Implicit Types (lay : ShmLayout D) (buf : bytes).

Lemma header_text_ascii (d : D) : reads_back d -> is_ascii (_dtype_to_header_text d).
Proof.
  unfold reads_back, _dtype_to_header_text. destruct (np_fields_none d); [by intros []|].
  intros _. unfold is_ascii, STRUCTURED_DTYPE_PREFIX. simpl. repeat constructor. apply json_ascii.
Qed.

Lemma header_text_roundtrip (d : D) :
  reads_back d -> _dtype_from_header_text (_dtype_to_header_text d) = Ok d.
Proof.
  unfold reads_back, _dtype_from_header_text, _dtype_to_header_text.
  destruct (np_fields_none d) eqn:Hf.
  - intros (_&->&Ht). done.
  - intros (kv&descr&Hj&Hk&Hd&Hn). fold (dtype_header_json d). set (j := json_dumps (dtype_header_json d)) in *.
    assert (String.prefix STRUCTURED_DTYPE_PREFIX (STRUCTURED_DTYPE_PREFIX +:+ j) = true) as ->
      by (simpl; by destruct j).
    assert (String.substring 5 (String.length (STRUCTURED_DTYPE_PREFIX +:+ j) - 5)
              (STRUCTURED_DTYPE_PREFIX +:+ j) = j) as ->
      by (simpl; rewrite Nat.sub_0_r; apply substring_full).
    rewrite Hj. cbn [mbind result_bind]. by rewrite Hk, bool_decide_eq_true_2, Hd by done.
Qed.

Lemma decode_header_text (d : D) :
  reads_back d -> decode_utf8 (encode_utf8 (_dtype_to_header_text d)) = Ok (_dtype_to_header_text d).
Proof. intros Hd. by apply encode_decode_ascii, header_text_ascii. Qed.

(** The dtypes of a ring read back, and its version fits its metadata. *)
Record attachable lay : Prop := {
  at_dtype : reads_back (l_dtype lay);
  at_metadata : forall m, l_metadata_dtype lay = Some m -> reads_back m;
  at_version : metadata_by_version (l_metadata_dtype lay) (l_layout_version lay)
}.

(** The fixed fields, decoded. *)
Lemma unpack_static lay buf :
  layout_created lay -> okbuf lay buf -> static_header lay buf ->
  exists pad, unpack_from HEADER_STRUCT_V1 0 buf =
    Ok [VB MAGIC; VZ (l_layout_version lay); VZ (l_slot_count lay); VZ (l_payload_nbytes lay);
        VZ (l_dtype_str_len lay); VZ (l_shape_len lay); VZ pad].
Proof.
  intros Hc Hb [Hfix _ _]. assert (in_range buf 0 (Z.of_nat (calcsize HEADER_STRUCT_V1)) = true) as Hr.
  { eapply in_header_range; [apply Hc|done|done|done]. }
  unfold unpack_from. rewrite Hr. eexists. f_equal.
  unfold HEADER_STRUCT_V1. cbn [unpack_fields fmt_size unpack_field].
  assert (forall a b, 0 <= a -> b <= 28 -> slice buf a b =
    slice (MAGIC ++ Ib (l_layout_version lay) ++ Ib (l_slot_count lay) ++ Ib (l_payload_nbytes lay)
           ++ Ib (l_dtype_str_len lay) ++ Ib (l_shape_len lay)) a b) as Hs.
  { intros a b ??. rewrite <- Hfix, slice_slice by lia. by rewrite !Z.add_0_l. }
  rewrite !Hs by done. repeat f_equal; try (by apply le_decode_encode_I; apply Hc).
Qed.

Lemma text_slices lay buf :
  layout_created lay -> static_header lay buf ->
  let o1 := HEADER_SIZE + l_dtype_str_len lay in
  let o2 := o1 + l_shape_len lay * 4 in
  slice buf HEADER_SIZE o1 = dtype_text lay /\
  slice buf o1 o2 = shape_bytes (l_shape lay) /\
  slice buf o2 (o2 + l_metadata_dtype_str_len lay) = metadata_text lay.
Proof.
  intros Hc [_ _ Htext]. cbv zeta.
  pose proof (zlen_nonneg (dtype_text lay)). pose proof (zlen_nonneg (metadata_text lay)).
  pose proof (zlen_nonneg (l_shape lay)). pose proof (zlen_shape_bytes (l_shape lay)) as Hsb.
  rewrite (lc_table _ Hc), (lc_dtype_len _ Hc), (lc_shape_len _ Hc), (lc_metadata_len _ Hc) in *.
  set (dt := dtype_text lay) in *. set (sb := shape_bytes (l_shape lay)) in *.
  set (md := metadata_text lay) in *. set (n := zlen (l_shape lay)) in *.
  assert (forall a b, 0 <= a -> b <= zlen dt + n * 4 + zlen md ->
    slice buf (HEADER_SIZE + a) (HEADER_SIZE + b) = slice (dt ++ sb ++ md) a b) as Hs.
  { intros a b ??. rewrite <- Htext, slice_slice by (unfold HEADER_SIZE; lia). done. }
  split_and!.
  - rewrite <- (Z.add_0_r HEADER_SIZE) at 1. rewrite Hs by lia. by apply slice_app_l.
  - rewrite <- Z.add_assoc, Hs, slice_app_r by lia. rewrite Z.sub_diag. apply slice_app_l. lia.
  - rewrite <- !Z.add_assoc, Hs, slice_app_r, slice_app_r by lia.
    replace (zlen dt + n * 4 - zlen dt - zlen sb) with 0 by lia.
    replace (zlen dt + (n * 4 + zlen md) - zlen dt - zlen sb) with (zlen md) by lia.
    apply slice_full.
Qed.

Lemma attach_metadata_ok lay buf :
  layout_created lay -> attachable lay -> okbuf lay buf -> static_header lay buf ->
  attach_metadata buf (l_layout_version lay)
    (HEADER_SIZE + l_dtype_str_len lay + l_shape_len lay * 4) =
  Ok (l_metadata_dtype lay, l_metadata_dtype_str_len lay, l_metadata_nbytes lay).
Proof.
  intros Hc Hat Hb Hh. unfold attach_metadata.
  pose proof (at_version _ Hat) as Hver. unfold metadata_by_version in Hver. pose proof (lo_meta _ (lc_ok _ Hc)) as Hlm.
  pose proof (lc_metadata_len _ Hc) as Hmlen.
  destruct (text_slices _ _ Hc Hh) as (_&_&Htext). unfold metadata_text in *.
  destruct (Z.leb_spec 4 (l_layout_version lay)) as [Hv|Hv].
  - destruct (proj2 Hver Hv) as [m Hm]. pose proof (at_metadata _ Hat m Hm) as Hrb. rewrite Hm in *.
    assert (in_range buf 0 (Z.of_nat (calcsize HEADER_STRUCT_V2)) = true) as Hr.
    { eapply in_header_range; [apply Hc|done|done|done]. }
    unfold unpack_from. rewrite Hr. cbn [mbind result_bind].
    assert (forall a b, 0 <= a -> b <= 16 -> slice buf (48 + a) (48 + b) =
      slice (Qb (l_metadata_dtype_str_len lay) ++ Qb (l_metadata_nbytes lay)) a b) as Hs.
    { intros a b ??. rewrite <- (sh_metadata _ _ Hh) by done. rewrite slice_slice by lia. done. }
    pose proof (Hs 0 8 ltac:(lia) ltac:(lia)) as E1. pose proof (Hs 8 16 ltac:(lia) ltac:(lia)) as E2.
    rewrite slice_app_l in E1 by done. rewrite slice_app_r in E2 by done.
    change (slice (Qb (l_metadata_nbytes lay)) (8 - zlen (Qb (l_metadata_dtype_str_len lay)))
      (16 - zlen (Qb (l_metadata_dtype_str_len lay)))) with
      (slice (Qb (l_metadata_nbytes lay)) 0 (zlen (Qb (l_metadata_nbytes lay)))) in E2.
    rewrite slice_full in E2.
    assert (z_of (nth 9 (unpack_fields buf 0 HEADER_STRUCT_V2) (VZ 0)) = l_metadata_dtype_str_len lay) as ->.
    { change (le_decode (slice buf (48 + 0) (48 + 8)) = l_metadata_dtype_str_len lay).
      rewrite E1. apply le_decode_encode_Q, Hc. }
    assert (z_of (nth 10 (unpack_fields buf 0 HEADER_STRUCT_V2) (VZ 0)) = l_metadata_nbytes lay) as ->.
    { change (le_decode (slice buf (48 + 8) (48 + 16)) = l_metadata_nbytes lay).
      rewrite E2. apply le_decode_encode_Q, Hc. }
    cbv zeta. rewrite Htext, decode_header_text by done. cbn [mbind result_bind].
    rewrite header_text_roundtrip by done. cbn [mbind result_bind].
    by rewrite Hlm, Z.eqb_refl.
  - destruct (l_metadata_dtype lay) eqn:Hm; [exfalso|].
    + assert (4 <= l_layout_version lay) by (apply Hver; by eexists). lia.
    + rewrite Hlm, Hmlen. done.
Qed.

(** [attach] returns the writer's layout whenever the static header is in
    place. *)
Lemma attach_static segs name lay buf :
  segs !! name = Some buf -> layout_created lay -> attachable lay -> okbuf lay buf ->
  static_header lay buf -> attach segs name = Ok lay.
Proof.
  intros Hseg Hc Hat Hb Hh. unfold attach. rewrite Hseg.
  destruct (unpack_static _ _ Hc Hb Hh) as [pad ->]. cbn [mbind result_bind nth z_of].
  rewrite bool_decide_eq_true_2 by done. cbn [negb].
  destruct (text_slices _ _ Hc Hh) as (Hdt&Hsh&_).
  rewrite Hdt. unfold dtype_text. rewrite decode_header_text by apply Hat. cbn [mbind result_bind].
  pose proof (lo_table _ (lc_ok _ Hc)) as Htab. pose proof (lc_table _ Hc) as Htab'.
  pose proof (lc_shape_len _ Hc) as Hsl. pose proof (lc_dtype_u32 _ Hc) as [? _].
  pose proof (lc_metadata_len_u64 _ Hc) as [? _].
  assert (valid_slot lay 0) as Hv0 by (split; [done|apply Hc]).
  pose proof (slot_bounds _ _ (lc_ok _ Hc) Hv0) as Hbd. unfold okbuf, entry_at, SLOT_ENTRY_SIZE in Hb, Hbd.
  replace (Z.to_nat (l_shape_len lay)) with (length (l_shape lay)) by (unfold zlen in *; lia).
  rewrite (mapR_shape buf _ (l_shape lay) 0);
    [|unfold HEADER_SIZE; lia|apply Hc
     |apply in_range_spec; unfold HEADER_SIZE, zlen in *; lia
     |rewrite Z.mul_0_l, Z.add_0_r, <- Hsl; done].
  cbn [mbind result_bind]. rewrite attach_metadata_ok by done. cbn [mbind result_bind].
  rewrite header_text_roundtrip by apply Hat. cbn [mbind result_bind]. unfold mret, result_ret. f_equal.
  rewrite <- Htab', <- (lo_payload_offset _ (lc_ok _ Hc)), <- (lo_metadata_offset _ (lc_ok _ Hc)).
  by destruct lay.
Qed.
End attach.

(** ** [create] *)
Lemma slice_zeros n a b :
  0 <= a -> a <= b -> b <= Z.of_nat n -> slice (replicate n 0) a b = replicate (Z.to_nat (b - a)) 0.
Proof. intros. unfold slice. rewrite drop_replicate, take_replicate. f_equal. lia. Qed.

Lemma pack_field_I z : u32 z -> pack_field FI (VZ z) = Ok (Ib z).
Proof.
  intros [H1 H2]. cbn [pack_field]. by rewrite (proj2 (Z.leb_le _ _) H1), (proj2 (Z.ltb_lt _ _) H2).
Qed.

Lemma pack_field_Q z : u64 z -> pack_field FQ (VZ z) = Ok (Qb z).
Proof.
  intros [H1 H2]. cbn [pack_field]. by rewrite (proj2 (Z.leb_le _ _) H1), (proj2 (Z.ltb_lt _ _) H2).
Qed.

Lemma pack_bytes_i d : i32 d -> pack_bytes [Fi] [VZ d] = Some (Ib (d mod 2 ^ 32)).
Proof.
  intros [H1 H2]. cbn [pack_bytes pack_field].
  rewrite (proj2 (Z.leb_le _ _) H1), (proj2 (Z.ltb_lt _ _) H2).
  cbn [andb fmap option_fmap option_map]. by rewrite app_nil_r.
Qed.

(** The shape loop writes the dimensions side by side. *)
Lemma forM_shape shape k off buf :
  Forall i32 shape -> in_range buf (off + Z.of_nat k * 4) (zlen shape * 4) = true ->
  forM (fun '(i, dim) => pack_into [Fi] (off + Z.of_nat i * 4) [VZ dim])
    (imap (fun i x => ((k + i)%nat, x)) shape) buf
  = (Ok tt, store buf (off + Z.of_nat k * 4) (shape_bytes shape)).
Proof.
  intros Hs. revert k buf. induction Hs as [|d r Hd Hr IH]; intros k buf Hin.
  { simpl. by rewrite store_nil. }
  apply in_range_spec in Hin as (?&?&Hend). pose proof (zlen_nonneg r).
  replace (zlen (d :: r)) with (1 + zlen r) in * by (unfold zlen; simpl length; lia).
  cbn [imap forM]. rewrite Nat.add_0_r. unfold mbind, pyM_bind.
  rewrite (pack_into_ok _ _ _ _ _ (pack_bytes_i d Hd)) by (apply in_range_spec; simpl; lia).
  assert (in_range buf (off + Z.of_nat k * 4) (zlen (Ib (d mod 2 ^ 32))) = true) as Hr1
    by (apply in_range_spec; rewrite zlen_Ib; lia).
  rewrite (imap_ext _ (fun i x => ((S k + i)%nat, x))) by (intros; simpl; f_equal; lia).
  rewrite IH by (rewrite in_range_store by done; apply in_range_spec; lia).
  rewrite shape_bytes_cons, <- store_store_adjacent
    by (apply in_range_spec; rewrite zlen_Ib, zlen_shape_bytes; lia).
  rewrite zlen_Ib. do 2 f_equal. lia.
Qed.

Section create.
Context {D : Type} `{!Numpy D}.
Implicit Types (lay : ShmLayout D) (buf : bytes).

(** The layout [create] computes. *)
Definition created_layout (d : D) (shape : list Z) (slot_count layout_version : Z)
    (md : option D) : ShmLayout D :=
  let dl := zlen (encode_utf8 (_dtype_to_header_text d)) in
  let ml := match md with Some m => zlen (encode_utf8 (_dtype_to_header_text m)) | None => 0 end in
  let mn := match md with Some m => np_itemsize m | None => 0 end in
  let pn := np_itemsize d * prod_shape shape in
  let table := HEADER_SIZE + dl + zlen shape * 4 + ml in
  {| l_dtype := d; l_shape := shape; l_slot_count := slot_count; l_payload_nbytes := pn;
     l_layout_version := layout_version; l_dtype_str_len := dl; l_shape_len := zlen shape;
     l_slot_table_offset := table; l_payload_offset := table + slot_count * SLOT_ENTRY_SIZE;
     l_metadata_dtype := md; l_metadata_nbytes := mn; l_metadata_dtype_str_len := ml;
     l_metadata_offset := table + slot_count * SLOT_ENTRY_SIZE + slot_count * pn |}.

Definition header_prefix lay : bytes :=
  MAGIC ++ Ib (l_layout_version lay) ++ Ib (l_slot_count lay) ++ Ib (l_payload_nbytes lay)
  ++ Ib (l_dtype_str_len lay) ++ Ib (l_shape_len lay) ++ Ib 0.

Definition header_bytes lay : bytes :=
  if l_layout_version lay =? 1 then header_prefix lay
  else header_prefix lay ++ Qb 0 ++ Qb 0
       ++ Qb (l_metadata_dtype_str_len lay) ++ Qb (l_metadata_nbytes lay).

Definition initial_buffer lay : bytes :=
  store (store (replicate (Z.to_nat (total_bytes lay)) 0) 0 (header_bytes lay)) HEADER_SIZE
    (dtype_text lay ++ shape_bytes (l_shape lay) ++ metadata_text lay).

Lemma pack_header buf lay :
  layout_created lay -> okbuf lay buf ->
  write_header (l_layout_version lay) (l_slot_count lay) (l_payload_nbytes lay)
    (l_dtype_str_len lay) (l_shape_len lay) (l_metadata_dtype_str_len lay)
    (l_metadata_nbytes lay) buf
  = (Ok tt, store buf 0 (header_bytes lay)).
Proof.
  intros Hc Hb. unfold write_header, header_bytes, header_prefix.
  assert (forall n, 0 <= n -> n <= 64 -> in_range buf 0 n = true) as Hr
    by (intros; eapply in_header_range; [apply Hc|done|done|by split]).
  destruct (l_layout_version lay =? 1); apply pack_into_ok; try (by apply Hr);
    unfold HEADER_STRUCT_V1, HEADER_STRUCT_V2; cbn [pack_bytes];
    rewrite ?pack_field_I, ?pack_field_Q by (done || apply Hc);
    cbn [pack_field fmap option_fmap option_map]; rewrite ?app_nil_r; by rewrite <- ?app_assoc.
Qed.

Lemma header_bytes_len lay : 0 <= zlen (header_bytes lay) <= 64.
Proof.
  unfold header_bytes, header_prefix. case_match;
    rewrite ?zlen_app, ?zlen_Ib, ?zlen_Qb; change (zlen MAGIC) with 8; lia.
Qed.

(** Sizes that the proofs below share. *)
Lemma text_sizes lay :
  layout_created lay ->
  zlen (dtype_text lay ++ shape_bytes (l_shape lay) ++ metadata_text lay)
    = l_slot_table_offset lay - HEADER_SIZE /\
  l_slot_table_offset lay + 64 <= total_bytes lay.
Proof.
  intros Hc. rewrite !zlen_app, zlen_shape_bytes, (lc_table _ Hc), (lc_dtype_len _ Hc),
    (lc_shape_len _ Hc), (lc_metadata_len _ Hc).
  assert (valid_slot lay 0) as Hv0 by (split; [done|apply Hc]).
  pose proof (slot_bounds _ _ (lc_ok _ Hc) Hv0) as Hbd. unfold entry_at in Hbd.
  rewrite (lc_table _ Hc), (lc_dtype_len _ Hc), (lc_shape_len _ Hc), (lc_metadata_len _ Hc) in Hbd.
  lia.
Qed.

Lemma assign_slice_ok buf a b d :
  in_range buf a (zlen d) = true -> b = a + zlen d -> assign_slice a b d buf = (Ok tt, store buf a d).
Proof.
  intros Hr ->. unfold assign_slice. replace (a + zlen d - a) with (zlen d) by lia.
  by rewrite Hr, Z.eqb_refl.
Qed.

Lemma write_texts_ok dt shape md buf :
  Forall i32 shape ->
  in_range buf HEADER_SIZE (zlen (dt ++ shape_bytes shape ++ md)) = true ->
  write_texts dt shape md buf = (Ok tt, store buf HEADER_SIZE (dt ++ shape_bytes shape ++ md)).
Proof.
  intros Hs (?&?&Hr)%in_range_spec. rewrite !zlen_app, zlen_shape_bytes in *.
  pose proof (zlen_nonneg dt). pose proof (zlen_nonneg md). pose proof (zlen_nonneg shape).
  unfold write_texts, mbind, pyM_bind.
  rewrite assign_slice_ok by (done || apply in_range_spec; lia).
  pose proof (forM_shape shape 0 (HEADER_SIZE + zlen dt) (store buf HEADER_SIZE dt) Hs) as HfM.
  change (imap (fun (i : nat) (x : Z) => ((0 + i)%nat, x)) shape) with (imap pair shape) in HfM.
  rewrite Z.mul_0_l, Z.add_0_r in HfM.
  rewrite HfM by (rewrite in_range_store; apply in_range_spec; lia).
  rewrite store_store_adjacent by (apply in_range_spec; rewrite zlen_shape_bytes; lia).
  set (ds := dt ++ shape_bytes shape).
  assert (zlen ds = zlen dt + zlen shape * 4) as Hds
    by (unfold ds; rewrite zlen_app, zlen_shape_bytes; lia).
  rewrite app_assoc. fold ds. case_bool_decide as Hm.
  { by rewrite Hm, app_nil_r. }
  rewrite assign_slice_ok by (done || rewrite in_range_store; apply in_range_spec; lia).
  f_equal. rewrite <- store_store_adjacent by (apply in_range_spec; lia). f_equal. lia.
Qed.

Lemma init_buffer_ok lay :
  layout_created lay ->
  init_buffer (total_bytes lay) (l_layout_version lay) (l_slot_count lay) (l_payload_nbytes lay)
    (dtype_text lay) (l_shape lay) (metadata_text lay) (l_metadata_nbytes lay)
    (replicate (Z.to_nat (total_bytes lay)) 0)
  = (Ok tt, initial_buffer lay).
Proof.
  intros Hc. destruct (text_sizes _ Hc) as [Hts Htot].
  pose proof (lo_table _ (lc_ok _ Hc)) as Htab. pose proof (header_bytes_len lay) as Hh.
  unfold HEADER_SIZE in *. unfold init_buffer, initial_buffer, mbind, pyM_bind.
  set (Z0 := replicate (Z.to_nat (total_bytes lay)) 0).
  assert (zlen Z0 = total_bytes lay) as HZ by (unfold Z0; rewrite zlen_replicate; lia).
  rewrite assign_slice_ok by (try apply in_range_spec; lia).
  assert (store Z0 0 Z0 = Z0) as ->
    by (unfold store; simpl; rewrite skipn_all2 by done; apply app_nil_r).
  rewrite <- (lc_dtype_len _ Hc), <- (lc_shape_len _ Hc), <- (lc_metadata_len _ Hc).
  rewrite pack_header by done. apply write_texts_ok; [apply Hc|].
  unfold HEADER_SIZE. rewrite in_range_store; apply in_range_spec; lia.
Qed.

(** A fresh segment has the static header and refines the empty ring. *)
Lemma initial_okbuf lay : layout_created lay -> okbuf lay (initial_buffer lay).
Proof.
  intros Hc. destruct (text_sizes _ Hc) as [Hts Htot]. pose proof (header_bytes_len lay).
  pose proof (lo_table _ (lc_ok _ Hc)). unfold okbuf, initial_buffer, HEADER_SIZE in *.
  assert (zlen (replicate (Z.to_nat (total_bytes lay)) 0) = total_bytes lay) as HZ
    by (rewrite zlen_replicate; lia).
  rewrite zlen_store; rewrite ?in_range_store, ?zlen_store; try done; apply in_range_spec; lia.
Qed.

Lemma initial_slice lay a b :
  layout_created lay -> 0 <= a -> b <= 64 -> b <= zlen (header_bytes lay) ->
  slice (initial_buffer lay) a b = slice (header_bytes lay) a b.
Proof.
  intros Hc Ha Hb Hhb. destruct (text_sizes _ Hc) as [Hts Htot]. pose proof (header_bytes_len lay).
  pose proof (lo_table _ (lc_ok _ Hc)). unfold initial_buffer, HEADER_SIZE in *.
  assert (zlen (replicate (Z.to_nat (total_bytes lay)) 0) = total_bytes lay) as HZ
    by (rewrite zlen_replicate; lia).
  rewrite slice_store_disjoint; [|rewrite in_range_store; apply in_range_spec; lia|done|lia].
  rewrite slice_store_inside; [|apply in_range_spec; lia|lia|lia]. f_equal; lia.
Qed.

Lemma initial_zero lay a b :
  layout_created lay -> l_slot_table_offset lay <= a -> a <= b -> b <= total_bytes lay ->
  slice (initial_buffer lay) a b = replicate (Z.to_nat (b - a)) 0.
Proof.
  intros Hc Ha Hab Hb. destruct (text_sizes _ Hc) as [Hts Htot]. pose proof (header_bytes_len lay).
  pose proof (lo_table _ (lc_ok _ Hc)). unfold initial_buffer, HEADER_SIZE in *.
  assert (zlen (replicate (Z.to_nat (total_bytes lay)) 0) = total_bytes lay) as HZ
    by (rewrite zlen_replicate; lia).
  rewrite slice_store_disjoint; [|rewrite in_range_store; apply in_range_spec; lia|lia|lia].
  rewrite slice_store_disjoint; [|apply in_range_spec; lia|lia|lia].
  apply slice_zeros; lia.
Qed.

Lemma initial_static lay : layout_created lay -> static_header lay (initial_buffer lay).
Proof.
  intros Hc. constructor.
  - rewrite initial_slice; [|done|lia|lia|unfold header_bytes, header_prefix; by case_match].
    unfold header_bytes, header_prefix. by case_match.
  - intros Hv. rewrite initial_slice; [|done|lia|lia|].
    + unfold header_bytes, header_prefix. by rewrite (proj2 (Z.eqb_neq _ 1)) by lia.
    + unfold header_bytes, header_prefix. by rewrite (proj2 (Z.eqb_neq _ 1)) by lia.
  - destruct (text_sizes _ Hc) as [Hts Htot]. pose proof (header_bytes_len lay).
    pose proof (lo_table _ (lc_ok _ Hc)). unfold initial_buffer, HEADER_SIZE in *.
    replace (l_slot_table_offset lay) with (64 + (l_slot_table_offset lay - 64)) by lia.
    rewrite <- Hts. apply slice_store_same.
    rewrite in_range_store; apply in_range_spec; rewrite ?zlen_replicate; lia.
Qed.

Lemma initial_ring lay : layout_created lay -> ring_mem lay (initial_buffer lay) [].
Proof.
  intros Hc. pose proof (slot_bounds lay) as Hsb. constructor; [by intros []| |].
  - intros s Hs _. specialize (Hsb s (lc_ok _ Hc) Hs). pose proof (lo_table _ (lc_ok _ Hc)).
    destruct Hs. pose proof (lo_payload_offset _ (lc_ok _ Hc)).
    unfold image_of, im_begin, im_end, entry_at, SLOT_ENTRY_SIZE in *.
    split; (rewrite initial_zero by (done || lia)); unfold Qb.
    + by replace (_ + 8 - _) with 8 by lia.
    + by replace (_ + 40 - _) with 8 by lia.
  - intros Hv. unfold hint_image.
    assert (l_layout_version lay =? 1 = false) as Hv1 by lia.
    assert (zlen (header_bytes lay) = 64) as H64 by (unfold header_bytes; by rewrite Hv1).
    rewrite !initial_slice by (done || lia). unfold header_bytes. by rewrite Hv1.
Qed.

(** Arguments of [create] that are accepted, and the segment name is free
    or can be reclaimed. *)
Record create_args (unlink_fails : bool) (name : string) (d : D) (md : option D)
    (layout_version : Z) (segs : gmap string bytes) : Prop := {
  ca_object : np_hasobject d = false;
  ca_metadata : forall m, md = Some m ->
    np_hasobject m = false /\ np_fields_none m = false /\ 4 <= layout_version;
  ca_name : segs !! name = None \/ unlink_fails = false
}.

Lemma reclaim_create_ok uf name size segs :
  0 < size -> segs !! name = None \/ uf = false ->
  exists segs', reclaim_create uf name size segs =
      (Ok tt, <[name := replicate (Z.to_nat size) 0]> segs') /\
    forall b, <[name := b]> segs' = <[name := b]> segs.
Proof.
  intros Hsz Hn. unfold reclaim_create, shm_create. rewrite (proj2 (Z.leb_gt _ _) Hsz).
  destruct (segs !! name) as [old|] eqn:Hs.
  - destruct Hn as [? | ->]; [done|]. simpl. rewrite lookup_delete_eq. exists (delete name segs).
    split; [done|]. intros b. by rewrite insert_delete_eq.
  - by exists segs.
Qed.

Lemma create_ok uf name d shape sc ver md segs :
  layout_created (created_layout d shape sc ver md) -> create_args uf name d md ver segs ->
  let lay := created_layout d shape sc ver md in
  create uf name (DtObj d) shape sc ver md segs =
    (Ok (mkWriter lay 0 0 (initial_buffer lay)), <[name := initial_buffer lay]> segs).
Proof.
  intros Hc [Ho Hm Hn] lay. fold lay in Hc. pose proof (text_sizes _ Hc) as [_ Htot].
  pose proof (lo_table _ (lc_ok _ Hc)) as Htab. unfold HEADER_SIZE in Htab.
  assert (metadata_header ver md = Ok (metadata_text lay, l_metadata_nbytes lay)) as Hmh.
  { unfold metadata_header, metadata_text, lay in *.
    simpl in *. destruct md as [m|]; [|done]. destruct (Hm m eq_refl) as (->&->&Hv). simpl.
    by rewrite (proj2 (Z.ltb_ge _ _)). }
  destruct (reclaim_create_ok uf name (total_bytes lay) segs) as (segs'&Hrc&Hins); [lia|done|].
  unfold create. rewrite (run_lift _ d) by done. rewrite run_guard by done.
  rewrite (run_lift _ _ _ _ Hmh). cbv beta iota zeta.
  assert (zlen (metadata_text lay) = l_metadata_dtype_str_len lay) as Hml by (symmetry; apply Hc).
  rewrite Hml. change (HEADER_SIZE + zlen (encode_utf8 (_dtype_to_header_text d)) + zlen shape * 4 +
    l_metadata_dtype_str_len lay) with (l_slot_table_offset lay).
  unfold mbind at 1, pyM_bind at 1.
  change (l_slot_table_offset lay + sc * SLOT_ENTRY_SIZE +
    sc * (np_itemsize d * prod_shape shape) + sc * l_metadata_nbytes lay) with (total_bytes lay).
  rewrite Hrc. unfold mbind, pyM_bind, on_segment. rewrite lookup_insert_eq.
  match goal with |- context [init_buffer ?a ?b ?c ?e ?f ?g ?h ?i ?j] =>
    change (init_buffer a b c e f g h i j) with
      (init_buffer (total_bytes lay) (l_layout_version lay) (l_slot_count lay)
         (l_payload_nbytes lay) (dtype_text lay) (l_shape lay) (metadata_text lay)
         (l_metadata_nbytes lay) (replicate (Z.to_nat (total_bytes lay)) 0)) end.
  rewrite init_buffer_ok by done.
  rewrite insert_insert_eq, Hins. done.
Qed.
End create.
