(* ===== verification/ShmSeqlock.v ===== *)
(** * Readers running against a live writer

    The writer performs the stores of one [write] after another; a reader's
    loads fall anywhere in between.  The processor stores and loads an
    eight-byte word as a whole only inside an aligned unit of [grain] bytes: an
    access across the edge of a unit is performed in two pieces, in either
    order, with other accesses in between.  Copies of payloads go byte by byte.
    Accesses of one process become visible in program order.

    The slot table has no fixed alignment, so either sequence word of a slot
    may lie across an edge.  It is enough that one of the two does not, and
    with units of 64 bytes (a cache line of x86-64) one of them never does,
    whatever the layout: they are 32 bytes apart.  Then an event that
    [_read_stable_slot] returns is exactly the frame that was published under
    its sequence number. *)
From S2P Require Import Prelude Bytes PyVal ShmRing ShmRingSpec.

(** ** Bytes of a memory *)
Lemma lookup_store buf o d n :
  in_range buf o (zlen d) = true ->
  store buf o d !! n =
  if decide (Z.to_nat o <= n < Z.to_nat o + length d)%nat then d !! (n - Z.to_nat o)%nat else buf !! n.
Proof.
  intros (?&?&?)%in_range_spec. unfold store, zlen in *. case_decide as Hn.
  - rewrite lookup_app_r by (rewrite length_take; lia). rewrite length_take, Nat.min_l by lia.
    by rewrite lookup_app_l by lia.
  - destruct (decide (n < Z.to_nat o)%nat).
    + rewrite lookup_app_l by (rewrite length_take; lia). by rewrite lookup_take_lt.
    + rewrite lookup_app_r by (rewrite length_take; lia). rewrite length_take, Nat.min_l by lia.
      rewrite lookup_app_r, lookup_drop by lia. f_equal. lia.
Qed.

Lemma lookup_slice buf a b i x :
  0 <= a -> slice buf a b !! i = Some x -> buf !! (Z.to_nat a + i)%nat = Some x.
Proof.
  unfold slice. intros Ha E. pose proof (lookup_lt_Some _ _ _ E) as Hlt. rewrite length_take in Hlt.
  by rewrite lookup_take_lt, lookup_drop in E by lia.
Qed.

Lemma store_store_before buf o d1 d2 :
  in_range buf o (zlen d1 + zlen d2) = true ->
  store (store buf (o + zlen d1) d2) o d1 = store buf o (d1 ++ d2).
Proof.
  intros (?&?&?)%in_range_spec. pose proof (zlen_nonneg d1). pose proof (zlen_nonneg d2).
  assert (in_range buf (o + zlen d1) (zlen d2) = true) by (apply in_range_spec; lia).
  apply list_eq. intros n.
  rewrite !lookup_store by (rewrite ?in_range_store by done; apply in_range_spec; rewrite ?zlen_app; lia).
  rewrite length_app. unfold zlen in *. repeat case_decide; try lia.
  - by rewrite lookup_app_l by lia.
  - rewrite lookup_app_r by lia. f_equal. lia.
  - done.
Qed.

(** ** Units of atomicity *)
Definition fits_unit (grain o n : Z) : bool := o mod grain + n <=? grain.

(** An access to at most [grain] bytes as the processor performs it. *)
Definition pieces (grain : Z) (high_first : bool) (st : Z * bytes) : stores :=
  let '(o, d) := st in
  if fits_unit grain o (zlen d) then [st]
  else
    let c := grain - o mod grain in
    let low := (o, take (Z.to_nat c) d) in
    let high := (o + c, drop (Z.to_nat c) d) in
    if high_first then [high; low] else [low; high].

Inductive torn (grain : Z) : stores -> stores -> Prop :=
| torn_nil : torn grain [] []
| torn_cons high_first st sts out :
    torn grain sts out -> torn grain (st :: sts) (pieces grain high_first st ++ out).

(** The torn stores with all splits in one order. *)
Definition split_all (grain : Z) (high_first : bool) (sts : stores) : stores :=
  flat_map (pieces grain high_first) sts.

Lemma split_all_torn grain h sts : torn grain sts (split_all grain h sts).
Proof. induction sts as [|st sts IH]; [constructor|]. by apply torn_cons. Qed.

Lemma pieces_whole grain h o (d : bytes) : fits_unit grain o (zlen d) = true -> pieces grain h (o, d) = [(o, d)].
Proof. unfold pieces. by intros ->. Qed.

(** The piece [st'] stores bytes of [st] where [st] stores them. *)
Definition sub_store (st' st : Z * bytes) : Prop :=
  st.1 <= st'.1 /\ st'.1 + zlen st'.2 <= st.1 + zlen st.2 /\
  forall i x, st'.2 !! i = Some x -> st.2 !! (Z.to_nat (st'.1 - st.1) + i)%nat = Some x.

Lemma split_point grain o (d : bytes) :
  0 < grain -> fits_unit grain o (zlen d) = false ->
  let c := grain - o mod grain in
  0 < c < zlen d /\ zlen (take (Z.to_nat c) d) = c /\ zlen (drop (Z.to_nat c) d) = zlen d - c.
Proof.
  intros Hg Hf. unfold fits_unit in Hf. apply Z.leb_gt in Hf.
  pose proof (Z.mod_pos_bound o grain Hg). cbv zeta. unfold zlen in *.
  rewrite length_take, length_drop. lia.
Qed.

Lemma pieces_sub grain h o d :
  0 < grain -> Forall (fun st' => sub_store st' (o, d)) (pieces grain h (o, d)).
Proof.
  intros Hg. unfold pieces. destruct (fits_unit grain o (zlen d)) eqn:Hf.
  { apply Forall_singleton. split_and!; simpl; [lia|lia|]. intros i x. by rewrite Z.sub_diag. }
  destruct (split_point grain o d Hg Hf) as (Hc&Hlo&Hhi).
  set (c := grain - o mod grain) in *.
  assert (sub_store (o, take (Z.to_nat c) d) (o, d) /\ sub_store (o + c, drop (Z.to_nat c) d) (o, d))
    as [H1 H2].
  { split; (split_and!; simpl; [lia|lia|]); intros i x E.
    - rewrite Z.sub_diag. pose proof (lookup_lt_Some _ _ _ E) as Hlt. rewrite length_take in Hlt.
      by rewrite lookup_take_lt in E by lia.
    - rewrite lookup_drop in E. by replace (o + c - o) with c by lia. }
  destruct h; repeat apply Forall_cons_2; (done || apply Forall_nil_2).
Qed.

Lemma run_pieces grain h o d buf :
  0 < grain -> in_range buf o (zlen d) = true ->
  run_stores (pieces grain h (o, d)) buf = store buf o d.
Proof.
  intros Hg Hr. unfold pieces. destruct (fits_unit grain o (zlen d)) eqn:Hf; [done|].
  destruct (split_point grain o d Hg Hf) as (Hc&Hlo&Hhi).
  set (c := grain - o mod grain) in *.
  assert (in_range buf o (zlen (take (Z.to_nat c) d) + zlen (drop (Z.to_nat c) d)) = true)
    by (by replace (zlen (take (Z.to_nat c) d) + zlen (drop (Z.to_nat c) d)) with (zlen d) by lia).
  transitivity (store buf o (take (Z.to_nat c) d ++ drop (Z.to_nat c) d)); [|by rewrite take_drop].
  assert (o + c = o + zlen (take (Z.to_nat c) d)) as -> by lia.
  destruct h; cbn [run_stores foldl]; [by apply store_store_before|by apply store_store_adjacent].
Qed.

Lemma torn_app_inv grain a b out :
  torn grain (a ++ b) out -> exists oa ob, out = oa ++ ob /\ torn grain a oa /\ torn grain b ob.
Proof.
  revert out. induction a as [|st a IH]; intros out Ht.
  { exists [], out. split_and!; [done|constructor|done]. }
  simpl in Ht. inversion Ht as [|h st' sts out' Ht']; subst.
  destruct (IH _ Ht') as (oa&ob&->&?&?). exists (pieces grain h st ++ oa), ob.
  split_and!; [apply app_assoc|by constructor|done].
Qed.

(** Tearing neither adds nor loses anything: a property of the stores that
    their parts inherit holds of the torn stores, and their effect is the
    same once all are done. *)
Lemma torn_Forall (P : Z * bytes -> Prop) grain sts out :
  0 < grain -> (forall st st', sub_store st' st -> P st -> P st') ->
  Forall P sts -> torn grain sts out -> Forall P out.
Proof.
  intros Hg Hsub HP Ht. induction Ht as [|h [o d] sts out Ht IH]; [done|].
  apply Forall_cons in HP as [Hd HP]. apply Forall_app. split; [|by apply IH].
  eapply Forall_impl; [apply (pieces_sub grain h o d Hg)|]. intros st' Hs. exact (Hsub (o, d) st' Hs Hd).
Qed.

Lemma torn_run grain sts out buf :
  0 < grain -> stores_in buf sts -> torn grain sts out -> run_stores out buf = run_stores sts buf.
Proof.
  intros Hg Hin Ht. revert buf Hin. induction Ht as [|h [o d] sts out Ht IH]; intros buf Hin; [done|].
  apply Forall_cons in Hin as [Hd Hin]. rewrite run_stores_app, run_pieces by done.
  apply (IH (store buf o d)). eapply Forall_impl; [exact Hin|].
  intros [o' d'] ?. by rewrite in_range_store.
Qed.

(** *** Parts of the memory a store leaves alone *)
Definition misses (a b : Z) (st : Z * bytes) : Prop := st.1 + zlen st.2 <= a \/ b <= st.1.

Lemma misses_sub a b st st' : sub_store st' st -> misses a b st -> misses a b st'.
Proof. unfold sub_store, misses. intros (?&?&_). lia. Qed.

Lemma misses_run a b sts buf :
  0 <= a -> stores_in buf sts -> Forall (misses a b) sts ->
  slice (run_stores sts buf) a b = slice buf a b.
Proof.
  intros Ha. revert buf. induction sts as [|[o d] sts IH]; intros buf Hin Hm; [done|].
  apply Forall_cons in Hin as [Hd Hin]. apply Forall_cons in Hm as [Hmd Hm].
  change (slice (run_stores sts (store buf o d)) a b = slice buf a b). rewrite IH; [|..|done].
  - unfold misses in Hmd. simpl in Hmd. apply slice_store_disjoint; (done || lia).
  - eapply Forall_impl; [exact Hin|]. intros [o' d'] ?. by rewrite in_range_store.
Qed.

(** *** Zero words *)
Definition zero_word (buf : bytes) (a : Z) : Prop :=
  forall i, (i < 8)%nat -> buf !! (Z.to_nat a + i)%nat = Some 0.

(** A store that puts nothing but zeros into the word at [a]. *)
Definition zeroes (a : Z) (st : Z * bytes) : Prop :=
  forall i x, st.2 !! i = Some x -> a <= st.1 + Z.of_nat i < a + 8 -> x = 0.

Lemma zeroes_sub a st st' : sub_store st' st -> zeroes a st -> zeroes a st'.
Proof.
  intros (?&?&Hs) Hz i x Hi Hr. apply (Hz (Z.to_nat (st'.1 - st.1) + i)%nat); [by apply Hs|lia].
Qed.

Lemma misses_zeroes a st : misses a (a + 8) st -> zeroes a st.
Proof.
  intros Hm i x Hi. pose proof (lookup_lt_Some _ _ _ Hi). unfold misses, zlen in Hm. lia.
Qed.

Lemma zeroes_zeros a o n : zeroes a (o, replicate n 0).
Proof. intros i x Hi. apply lookup_replicate in Hi. by destruct Hi. Qed.

Lemma zeroes_run a sts buf :
  0 <= a -> stores_in buf sts -> Forall (zeroes a) sts -> zero_word buf a ->
  zero_word (run_stores sts buf) a.
Proof.
  intros Ha. revert buf. induction sts as [|[o d] sts IH]; intros buf Hin Hz Hw; [done|].
  apply Forall_cons in Hin as [Hd Hin]. apply Forall_cons in Hz as [Hzd Hz].
  apply (IH (store buf o d)); [|done|].
  - eapply Forall_impl; [exact Hin|]. intros [o' d'] ?. by rewrite in_range_store.
  - intros i Hi. rewrite lookup_store by done. case_decide as Hc; [|by apply Hw].
    destruct (lookup_lt_is_Some_2 d (Z.to_nat a + i - Z.to_nat o)) as [x Hx]; [lia|].
    rewrite Hx. f_equal. apply in_range_spec in Hd as (?&?&?). apply (Hzd _ _ Hx). simpl. lia.
Qed.

Lemma zero_word_slice buf a : 0 <= a -> zero_word buf a <-> slice buf a (a + 8) = Qb 0.
Proof.
  intros Ha. split.
  - intros Hz. apply list_eq. intros i. unfold slice. replace (a + 8 - a) with 8 by lia.
    destruct (decide (i < 8)%nat) as [Hi|Hi].
    + rewrite lookup_take_lt, lookup_drop, Hz by lia. change (Qb 0) with (replicate 8 0).
      by rewrite lookup_replicate_2 by lia.
    + rewrite lookup_take_ge by lia. symmetry. apply lookup_ge_None. change (length (Qb 0)) with 8%nat. lia.
  - intros Hs i Hi. apply (lookup_slice _ _ (a + 8)); [done|]. rewrite Hs.
    change (Qb 0) with (replicate 8 0). by apply lookup_replicate_2.
Qed.

(** *** The stores of the two formats of a slot *)
Lemma byte_stores_within off d :
  Forall (fun st : Z * bytes => off <= st.1 /\ st.1 + zlen st.2 <= off + zlen d) (byte_stores off d).
Proof.
  revert off; induction d as [|b r IH]; intros off; [apply Forall_nil_2|]. cbn [byte_stores].
  change (b :: r) with ([b] ++ r). rewrite zlen_app. change (zlen [b]) with 1.
  pose proof (zlen_nonneg r). apply Forall_cons. split; [simpl; change (zlen [b]) with 1; lia|].
  eapply Forall_impl; [apply IH|]. intros [o' d']. simpl. lia.
Qed.

Lemma pack_stores_Q o z : u64 z -> pack_stores o [FQ] [VZ z] = [(o, Qb 0); (o, Qb z)].
Proof.
  intros [H1 H2]. unfold pack_stores. cbn [clear_stores field_stores pack_field fmt_size].
  by rewrite (proj2 (Z.leb_le _ _) H1), (proj2 (Z.ltb_lt _ _) H2).
Qed.

Definition slot_clears (o : Z) : stores :=
  [(o, Qb 0); (o + 8, Qb 0); (o + 16, Qb 0); (o + 24, Qb 0);
   (o + 32, Qb 0); (o + 40, Qb 0); (o + 48, Qb 0); (o + 56, Qb 0)].
Definition slot_fields (o mono wall : Z) : stores :=
  [(o + 8, Qb mono); (o + 16, Qb wall); (o + 24, Qb 0);
   (o + 32, Qb 0); (o + 40, Qb 0); (o + 48, Qb 0); (o + 56, Qb 0)].

Lemma pack_stores_slot o seq mono wall :
  u64 seq -> u64 mono -> u64 wall ->
  pack_stores o SLOT_STRUCT [VZ seq; VZ mono; VZ wall; VZ 0; VZ 0; VZ 0; VZ 0; VZ 0] =
  slot_clears o ++ (o, Qb seq) :: slot_fields o mono wall.
Proof.
  intros [S1 S2] [M1 M2] [W1 W2]. unfold pack_stores, SLOT_STRUCT.
  cbn [clear_stores field_stores pack_field].
  rewrite (proj2 (Z.leb_le _ _) S1), (proj2 (Z.ltb_lt _ _) S2),
    (proj2 (Z.leb_le _ _) M1), (proj2 (Z.ltb_lt _ _) M2),
    (proj2 (Z.leb_le _ _) W1), (proj2 (Z.ltb_lt _ _) W2).
  change (0 <=? 0) with true. change (0 <? 2 ^ 64) with true. cbn [andb fmt_size].
  change (Z.of_nat 8) with 8. rewrite <- !Z.add_assoc. done.
Qed.

(** How many stores a list of accesses is torn into. *)
Definition torn_len (grain : Z) (sts : stores) : nat :=
  sum_list_with (fun st : Z * bytes => if fits_unit grain st.1 (zlen st.2) then 1%nat else 2%nat) sts.

Lemma torn_len_app grain a b : torn_len grain (a ++ b) = (torn_len grain a + torn_len grain b)%nat.
Proof. apply sum_list_with_app. Qed.

Lemma torn_length grain sts out : torn grain sts out -> length out = torn_len grain sts.
Proof.
  induction 1 as [|h [o d] sts out _ IH]; [done|]. rewrite length_app, IH. unfold torn_len.
  cbn [sum_list_with fst snd]. f_equal. unfold pieces. by destruct (fits_unit _ _ _), h.
Qed.

Section seqlock.
Context {D : Type} `{!Numpy D}.
Context (lay : ShmLayout D) (frames : nat -> frame) (buf0 : bytes).
Context (grain : Z) (plan : nat -> stores).

#[local] Abbreviation cap := (l_slot_count lay).

(** ** The writer as a step relation *)
Record wcfg := mkCfg {
  c_buf : bytes;      (* the shared memory *)
  c_k : nat;          (* the write in progress, counted from 0 *)
  c_todo : stores     (* what is left of it *)
}.

Definition slot_of (k : nat) : Z := Z.of_nat k mod cap.
Definition accesses (k : nat) : stores := write_stores lay (slot_of k) (Z.of_nat k + 1) (frames k).

(** [plan k] is how the processor performs the accesses of write [k]. *)
Inductive wstep : wcfg -> wcfg -> Prop :=
| ws_store b k o d rest : wstep (mkCfg b k ((o, d) :: rest)) (mkCfg (store b o d) k rest)
| ws_next b k : Z.of_nat k + 2 < 2 ^ 64 -> wstep (mkCfg b k []) (mkCfg b (S k) (plan (S k))).

Definition winit : wcfg := mkCfg buf0 0 (plan 0).

(** ** Memory as a function of the position *)
Fixpoint mem_before (k : nat) : bytes :=
  match k with O => buf0 | S k' => run_stores (plan k') (mem_before k') end.

Definition mem_at (k i : nat) : bytes := run_stores (take i (plan k)) (mem_before k).

(** Position [(k, i)]: [k] whole writes and [i] stores of the next one. *)
Definition at_pos (c : wcfg) (k i : nat) : Prop :=
  c_k c = k /\ (i <= length (plan k))%nat /\ Z.of_nat k + 1 < 2 ^ 64 /\
  c_todo c = drop i (plan k) /\ c_buf c = mem_at k i.

Definition pos_le (p q : nat * nat) : Prop :=
  (p.1 < q.1)%nat \/ p.1 = q.1 /\ (p.2 <= q.2)%nat.

Lemma run_take_S sts i o d buf :
  sts !! i = Some (o, d) -> run_stores (take (S i) sts) buf = store (run_stores (take i sts) buf) o d.
Proof. intros H. rewrite (take_S_r _ _ _ H), run_stores_app. done. Qed.

Lemma step_pos c c' k i :
  wstep c c' -> at_pos c k i -> exists k' i', at_pos c' k' i' /\ pos_le (k, i) (k', i').
Proof.
  intros Hs (Hk&Hi&Hu&Ht&Hb). destruct Hs as [b k0 o d rest|b k0 Hlt]; simpl in *; subst k0.
  - symmetry in Ht. assert (plan k !! i = Some (o, d)) as Hli
      by (rewrite <- (Nat.add_0_r i), <- lookup_drop, Ht; done).
    exists k, (S i). split; [|right; simpl; lia]. apply lookup_lt_Some in Hli as Hlen.
    split_and!; cbn [c_k c_todo c_buf]; [done|lia|done| |].
    + by rewrite <- Nat.add_1_r, <- drop_drop, Ht.
    + unfold mem_at. rewrite (run_take_S _ _ _ _ _ Hli). by subst b.
  - exists (S k), 0%nat. split; [|left; simpl; lia]. split_and!; cbn [c_k c_todo c_buf]; [done|lia|lia|done|].
    unfold mem_at. cbn [mem_before take run_stores foldl]. subst b. unfold mem_at. rewrite firstn_all2; [done|].
    symmetry in Ht. apply (f_equal length) in Ht. rewrite length_drop in Ht. cbn [length] in Ht. lia.
Qed.

Lemma steps_pos c c' k i :
  rtc wstep c c' -> at_pos c k i -> exists k' i', at_pos c' k' i' /\ pos_le (k, i) (k', i').
Proof.
  intros Hs. revert k i. induction Hs as [c|c1 c2 c3 Hst _ IH]; intros k i Hp.
  { exists k, i. split; [done|right; simpl; lia]. }
  destruct (step_pos _ _ _ _ Hst Hp) as (k2&i2&Hp2&Hle).
  destruct (IH _ _ Hp2) as (k3&i3&Hp3&Hle3). exists k3, i3. split; [done|].
  unfold pos_le in *. simpl in *. lia.
Qed.

Lemma winit_pos : at_pos winit 0 0.
Proof. split_and!; cbn [c_k c_todo c_buf winit]; (done || lia). Qed.

(** Every position is reached, in order. *)
Definition cfg_at (k i : nat) : wcfg := mkCfg (mem_at k i) k (drop i (plan k)).

Lemma cfg_next k i : rtc wstep (cfg_at k i) (cfg_at k (S i)).
Proof.
  unfold cfg_at, mem_at. destruct (plan k !! i) as [[o d]|] eqn:E.
  - rewrite (drop_S _ _ _ E), (run_take_S _ _ _ _ _ E). eapply rtc_l; [apply ws_store|]. apply rtc_refl.
  - apply lookup_ge_None in E. rewrite !firstn_all2, !drop_ge by lia. apply rtc_refl.
Qed.

Lemma cfg_forward k i j : (i <= j)%nat -> rtc wstep (cfg_at k i) (cfg_at k j).
Proof. induction 1; [apply rtc_refl|]. etrans; [done|apply cfg_next]. Qed.

Lemma mem_at_end k i : (length (plan k) <= i)%nat -> mem_at k i = mem_before (S k).
Proof. intros Hi. unfold mem_at. by rewrite firstn_all2. Qed.

Lemma cfg_new_write k i j :
  Z.of_nat k + 2 < 2 ^ 64 -> rtc wstep (cfg_at k i) (cfg_at (S k) j).
Proof.
  intros Hk. etrans; [apply (cfg_forward k i (i + length (plan k))); lia|].
  unfold cfg_at at 1. rewrite drop_ge, mem_at_end by lia. eapply rtc_l; [by apply ws_next|].
  apply (cfg_forward (S k) 0 j). lia.
Qed.

Lemma cfg_reach k i k' i' :
  Z.of_nat k' + 1 < 2 ^ 64 -> pos_le (k, i) (k', i') -> rtc wstep (cfg_at k i) (cfg_at k' i').
Proof.
  intros Hk' [Hlt|[Heq Hle]]; cbn [fst snd] in *; [|subst; by apply cfg_forward].
  revert i i' Hk'. induction Hlt as [|k' Hlt IH]; intros i i' Hk'; [apply cfg_new_write; lia|].
  etrans; [apply (IH i 0%nat); lia|]. apply cfg_new_write. lia.
Qed.

Context (Hl : layout_ok lay) (Hframes : forall k, frame_ok lay (frames k)).
Context (Hb0 : okbuf lay buf0) (Hinit : ring_mem lay buf0 []).
Context (Hgrain : 0 < grain) (Hplan : forall k, torn grain (accesses k) (plan k)).

(** ** Between writes *)
Lemma args_of k : Z.of_nat k + 1 < 2 ^ 64 -> write_args lay (slot_of k) (Z.of_nat k + 1) (frames k).
Proof.
  intros Hk. constructor; [done| |unfold u64; lia|done].
  unfold valid_slot, slot_of. apply Z.mod_pos_bound, Hl.
Qed.

(** The accesses of a write in six parts: the two clears, the copies and the
    clear of the entry, the fields, the clear of the end word, its store. *)
Definition e_at (k : nat) : Z := entry_at lay (slot_of k).
Definition clear_begin (k : nat) : stores := [(e_at k, Qb 0); (e_at k, Qb 0)].
Definition clear_end (k : nat) : stores := [(e_at k + 32, Qb 0); (e_at k + 32, Qb 0)].
Definition copies (k : nat) : stores :=
  byte_stores (payload_at lay (slot_of k)) (f_data (frames k)) ++
  byte_stores (metadata_at lay (slot_of k)) (default [] (f_meta (frames k))) ++ slot_clears (e_at k).
Definition fields (k : nat) : stores := slot_fields (e_at k) (f_mono (frames k)) (f_wall (frames k)).
Definition hints (k : nat) : stores :=
  if 2 <=? l_layout_version lay then
    [(HEADER_LAST_SEQ_OFFSET, Qb 0); (HEADER_LAST_SEQ_OFFSET, Qb (Z.of_nat k + 1));
     (HEADER_LAST_SLOT_OFFSET, Qb 0); (HEADER_LAST_SLOT_OFFSET, Qb (slot_of k))]
  else [].

Definition to_begin (k : nat) : stores := clear_begin k ++ clear_end k ++ copies k.
Definition to_fields (k : nat) : stores :=
  to_begin k ++ (e_at k, Qb (Z.of_nat k + 1)) :: fields k.
Definition to_end (k : nat) : stores := to_fields k ++ [(e_at k + 32, Qb 0)].

Lemma accesses_parts k :
  Z.of_nat k + 1 < 2 ^ 64 ->
  accesses k = to_end k ++ (e_at k + 32, Qb (Z.of_nat k + 1)) :: hints k.
Proof.
  intros Hk. pose proof (wa_slot_u64 _ _ _ _ (args_of k Hk)).
  destruct (args_of k Hk) as [_ _ Hq [_ Hm Hw _ _]].
  unfold accesses, write_stores, to_end, to_fields, to_begin, clear_begin, clear_end, copies, hints, fields.
  unfold SEQ_END_OFFSET. fold (e_at k). rewrite !pack_stores_Q, pack_stores_slot by done.
  rewrite <- !app_assoc. cbn [app]. rewrite <- ?app_assoc. cbn [app]. done.
Qed.

Lemma local_sub s (st st' : Z * bytes) :
  sub_store st' st -> local lay s st.1 (zlen st.2) -> local lay s st'.1 (zlen st'.2).
Proof.
  unfold sub_store, local, in_slot, in_header. intros (?&?&_) [[Hv Hi]|Hh]; [left; split; [done|]; lia|right; lia].
Qed.

Lemma within_local s lo hi (sts : stores) :
  (forall o n, 0 <= n -> lo <= o -> o + n <= hi -> local lay s o n) ->
  Forall (fun st : Z * bytes => lo <= st.1 /\ st.1 + zlen st.2 <= hi) sts ->
  Forall (fun st : Z * bytes => local lay s st.1 (zlen st.2)) sts.
Proof.
  intros H Hs. eapply Forall_impl; [exact Hs|]. intros st []. apply H; auto using zlen_nonneg.
Qed.

Lemma accesses_local k :
  Z.of_nat k + 1 < 2 ^ 64 ->
  Forall (fun st : Z * bytes => local lay (slot_of k) st.1 (zlen st.2)) (accesses k).
Proof.
  intros Hk. destruct (args_of k Hk) as [_ Hs _ [Hd _ _ _ Hm]].
  assert (forall o n, 0 <= n -> e_at k <= o -> o + n <= e_at k + 64 -> local lay (slot_of k) o n) as He
    by (intros; left; split; [done|]; left; unfold e_at in *; lia).
  rewrite accesses_parts by done.
  unfold to_end, to_fields, to_begin, clear_begin, clear_end, copies, hints, fields, slot_clears, slot_fields.
  repeat first [apply Forall_app; split | apply Forall_cons; split | apply Forall_nil_2 | case_match];
    try (apply He; cbn [fst snd]; rewrite ?zlen_Qb; lia);
    try (right; by split).
  - eapply within_local; [|apply byte_stores_within]. intros. left. split; [done|]. right. left. lia.
  - eapply within_local; [|apply byte_stores_within]. intros. left. split; [done|]. right. right. lia.
Qed.

Lemma plan_local k :
  Z.of_nat k + 1 < 2 ^ 64 ->
  Forall (fun st : Z * bytes => local lay (slot_of k) st.1 (zlen st.2)) (plan k).
Proof.
  intros Hk. eapply torn_Forall; [done| |by apply accesses_local|done].
  intros. by eapply local_sub.
Qed.

Lemma local_stores_in s sts buf :
  okbuf lay buf -> Forall (fun st : Z * bytes => local lay s st.1 (zlen st.2)) sts ->
  stores_in buf sts /\ okbuf lay (run_stores sts buf).
Proof.
  intros Hb Hs. assert (Forall (fun '(o, d) => local lay s o (zlen (A := Z) d)) sts) as Hs'.
  { eapply Forall_impl; [exact Hs|]. by intros []. }
  destruct (run_local_ok lay s sts buf Hl Hb Hs'). done.
Qed.

Lemma plan_run k buf :
  Z.of_nat k + 1 < 2 ^ 64 -> okbuf lay buf -> run_stores (plan k) buf = run_stores (accesses k) buf.
Proof.
  intros Hk Hb. eapply torn_run; [done| |done].
  by eapply local_stores_in, accesses_local.
Qed.

Lemma mem_before_ok k :
  Z.of_nat k < 2 ^ 64 ->
  okbuf lay (mem_before k) /\ ring_mem lay (mem_before k) (frames <$> seq 0 k).
Proof.
  induction k as [|k IH]; intros Hk; [done|]. destruct IH as [Hb Hm]; [lia|].
  pose proof (args_of k ltac:(lia)) as Ha. cbn [mem_before]. rewrite plan_run by (done || lia).
  unfold accesses. split; [by apply same_run|]. rewrite seq_S, fmap_app.
  assert (zlen (frames <$> seq 0 k) = Z.of_nat k) as Hz
    by (unfold zlen; by rewrite length_fmap, length_seq).
  pose proof (ring_mem_write lay (mem_before k) (frames <$> seq 0 k) (frames k)) as Hw.
  rewrite Hz in Hw. by apply Hw.
Qed.

Lemma mem_at_ok k i : Z.of_nat k + 1 < 2 ^ 64 -> okbuf lay (mem_at k i).
Proof.
  intros Hk. destruct (mem_before_ok k) as [Hb _]; [lia|].
  eapply local_stores_in; [done|]. apply Forall_take. by apply plan_local.
Qed.

(** The slot during the writes to the other slots. *)
Lemma mem_at_foreign s k i :
  valid_slot lay s -> Z.of_nat k + 1 < 2 ^ 64 -> slot_of k ≠ s ->
  image_of lay (mem_at k i) s = image_of lay (mem_before k) s.
Proof.
  intros Hs Hk Hne. destruct (mem_before_ok k) as [Hb _]; [lia|].
  pose proof (Forall_take _ i _ (plan_local k Hk)) as Hloc. unfold mem_at.
  apply run_stores_foreign; [done|done|by eapply local_stores_in|].
  eapply Forall_impl; [exact Hloc|]. destruct (args_of k Hk) as [_ Hsl _ _].
  intros [o d] [[]|]; [by eapply in_slot_foreign|by apply in_header_foreign].
Qed.

(** ** The number of the newest frame written to a slot *)
Fixpoint last_begun (s : Z) (k : nat) : nat :=
  match k with
  | O => 0
  | S k' => if decide (slot_of k' = s) then S k' else last_begun s k'
  end.

Lemma last_begun_le s k : (last_begun s k <= k)%nat.
Proof. induction k; simpl; [done|]. case_decide; lia. Qed.

Lemma last_begun_mono s k k' : (k <= k')%nat -> (last_begun s k <= last_begun s k')%nat.
Proof.
  induction 1 as [|k' Hle IH]; [done|]. cbn [last_begun].
  pose proof (last_begun_le s k'). pose proof (last_begun_le s k). case_decide; lia.
Qed.

Lemma last_begun_own k : last_begun (slot_of k) (S k) = S k.
Proof. cbn [last_begun]. by rewrite decide_True. Qed.

(** Between writes the slot holds the newest frame written to it. *)
Lemma before_image s k :
  valid_slot lay s -> Z.of_nat k < 2 ^ 64 ->
  match last_begun s k with
  | O => im_begin (image_of lay (mem_before k) s) = Qb 0 /\
         im_end (image_of lay (mem_before k) s) = Qb 0
  | S j => image_of lay (mem_before k) s = frame_image (Z.of_nat (S j)) (frames j)
  end.
Proof.
  intros Hs. induction k as [|k IH]; intros Hk.
  { apply (rm_empty _ _ _ Hinit); [done|]. destruct Hs. by change (zlen (@nil frame)) with 0. }
  destruct (mem_before_ok k) as [Hb _]; [lia|]. pose proof (args_of k ltac:(lia)) as Ha.
  cbn [last_begun mem_before]. rewrite plan_run by (done || lia). unfold accesses. case_decide as Hsl.
  - subst s. rewrite write_image_own by done. f_equal. lia.
  - rewrite !(write_image_other _ _ _ _ _ _ Ha Hb Hs) by done. apply IH. lia.
Qed.

(** ** Inside a write *)
Lemma plan_cut k a b :
  accesses k = a ++ b ->
  torn grain a (take (torn_len grain a) (plan k)) /\ torn grain b (drop (torn_len grain a) (plan k)).
Proof.
  intros Ha. pose proof (Hplan k) as Ht. rewrite Ha in Ht.
  apply torn_app_inv in Ht as (oa&ob&Hp&Hoa&Hob). pose proof (torn_length _ _ _ Hoa) as Hlen.
  rewrite Hp, take_app_length', drop_app_length' by done. done.
Qed.

Lemma mem_at_stores_in k i (sts : stores) :
  Z.of_nat k + 1 < 2 ^ 64 -> sts ⊆ plan k \/ sts ⊆ accesses k -> stores_in (mem_at k i) sts.
Proof.
  intros Hk Hs. eapply local_stores_in; [by apply mem_at_ok|]. apply Forall_forall. intros st Hst.
  destruct Hs as [Hs|Hs]; [pose proof (plan_local k Hk) as H|pose proof (accesses_local k Hk) as H];
    rewrite Forall_forall in H; by apply H, Hs.
Qed.

(** What the first accesses leave alone is as before the write, ... *)
Lemma early_same k a b i x y :
  Z.of_nat k + 1 < 2 ^ 64 -> 0 <= x -> accesses k = a ++ b -> (i <= torn_len grain a)%nat ->
  Forall (misses x y) a -> slice (mem_at k i) x y = slice (mem_before k) x y.
Proof.
  intros Hk Hx Ha Hi Hm. destruct (plan_cut k a b Ha) as [Ht _].
  pose proof (torn_Forall _ _ _ _ Hgrain (misses_sub x y) Hm Ht) as Hp.
  unfold mem_at. apply misses_run; [done| |].
  - change (mem_before k) with (mem_at k 0). apply mem_at_stores_in; [done|]. left. apply subseteq_take.
  - apply (Forall_take _ i) in Hp. by rewrite take_take, Nat.min_l in Hp.
Qed.

(** ... what the last ones leave alone is as after it, ... *)
Lemma late_same k a b i x y :
  Z.of_nat k + 1 < 2 ^ 64 -> 0 <= x -> accesses k = a ++ b -> (torn_len grain a <= i)%nat ->
  Forall (misses x y) b -> slice (mem_at k i) x y = slice (mem_before (S k)) x y.
Proof.
  intros Hk Hx Ha Hi Hm. destruct (plan_cut k a b Ha) as [_ Ht].
  pose proof (torn_Forall _ _ _ _ Hgrain (misses_sub x y) Hm Ht) as Hp.
  cbn [mem_before]. rewrite <- (take_drop i (plan k)) at 1. rewrite run_stores_app.
  symmetry. apply (misses_run x y (drop i (plan k)) (mem_at k i)); [done| |].
  - apply mem_at_stores_in; [done|]. left. apply subseteq_drop.
  - apply (Forall_drop _ (i - torn_len grain a)) in Hp. rewrite drop_drop in Hp.
    by replace (torn_len grain a + (i - torn_len grain a))%nat with i in Hp by lia.
Qed.

(** ... and a word cleared by then stays zero while only zeros go there. *)
Lemma zero_between k a b c i w :
  Z.of_nat k + 1 < 2 ^ 64 -> 0 <= w -> accesses k = (a ++ [(w, Qb 0)]) ++ b ++ c ->
  (torn_len grain (a ++ [(w, Qb 0)]) <= i <= torn_len grain ((a ++ [(w, Qb 0)]) ++ b))%nat ->
  Forall (zeroes w) b -> zero_word (mem_at k i) w.
Proof.
  intros Hk Hw Ha Hi Hz. set (a' := a ++ [(w, Qb 0)]) in *.
  destruct (plan_cut k a' (b ++ c) Ha) as [Hta Htb]. set (n := torn_len grain a') in *.
  rewrite torn_len_app in Hi. apply torn_app_inv in Htb as (pb&pc&Hbc&Htb&_).
  pose proof (torn_Forall _ _ _ _ Hgrain (zeroes_sub w) Hz Htb) as Hp.
  pose proof (torn_length _ _ _ Htb) as Hlen. destruct (mem_before_ok k) as [Hb _]; [lia|].
  assert (take i (plan k) = take n (plan k) ++ take (i - n) pb) as Htake.
  { rewrite <- (take_drop n (plan k)) at 1. rewrite Hbc. rewrite take_app_ge by (rewrite length_take; lia).
    f_equal. rewrite (torn_length _ _ _ Hta). rewrite take_app_le by lia. done. }
  unfold mem_at. rewrite Htake, run_stores_app. change (run_stores (take n (plan k)) (mem_before k)) with (mem_at k n).
  apply zeroes_run; [done| |by apply Forall_take|].
  - apply mem_at_stores_in; [done|]. left. etrans; [apply subseteq_take|].
    etrans; [|apply (subseteq_drop n)]. rewrite Hbc. intros st ?. apply elem_of_app. by left.
  - assert (stores_in (mem_before k) a') as Hin.
    { change (mem_before k) with (mem_at k 0). apply mem_at_stores_in; [done|]. right. rewrite Ha.
      intros st ?. apply elem_of_app. by left. }
    unfold mem_at. rewrite (torn_run _ _ _ _ Hgrain Hin Hta). unfold a'. rewrite run_stores_app.
    apply zero_word_slice; [done|]. cbn [run_stores foldl].
    apply Forall_app in Hin as [Hin1 Hin2]. apply Forall_cons in Hin2 as [Hin2 _].
    apply (slice_store_same _ w (Qb 0)). fold (run_stores a (mem_before k)).
    unfold in_range in *. by rewrite run_stores_zlen.
Qed.

(** ** A sequence word as a marker

    During a write to its slot the word keeps the old number for [lo] stores,
    is zero until store [hi], and carries the new number from then on. *)
Record marker (s w : Z) (lo hi : nat -> nat) : Prop := {
  mk_order : forall k, (lo k <= hi k)%nat;
  mk_old : forall k i, Z.of_nat k + 1 < 2 ^ 64 -> (slot_of k = s -> (i <= lo k)%nat) ->
    slice (mem_at k i) w (w + 8) = Qb (Z.of_nat (last_begun s k));
  mk_zero : forall k i, Z.of_nat k + 1 < 2 ^ 64 -> slot_of k = s -> (lo k < i <= hi k)%nat ->
    zero_word (mem_at k i) w;
  mk_new : forall k i, Z.of_nat k + 1 < 2 ^ 64 -> slot_of k = s -> (hi k < i)%nat ->
    slice (mem_at k i) w (w + 8) = Qb (Z.of_nat k + 1)
}.

(** The marker names frame [e] at position [(k, i)]. *)
Definition names (s : Z) (lo hi : nat -> nat) (e k i : nat) : Prop :=
  last_begun s k = e /\ (slot_of k = s -> (i <= lo k)%nat) \/
  slot_of k = s /\ (hi k < i)%nat /\ S k = e.

Lemma marker_names s w lo hi k i e :
  0 <= w -> marker s w lo hi -> Z.of_nat k + 1 < 2 ^ 64 -> (0 < e)%nat -> u64 (Z.of_nat e) ->
  slice (mem_at k i) w (w + 8) = Qb (Z.of_nat e) -> names s lo hi e k i.
Proof.
  intros Hw Hm Hk He Hu Hv. pose proof (last_begun_le s k).
  destruct (decide (slot_of k = s -> (i <= lo k)%nat)) as [Ho|Ho].
  { rewrite (mk_old _ _ _ _ Hm k i) in Hv by done. apply Qb_inj in Hv; [|unfold u64; lia|done].
    left. split; [lia|done]. }
  destruct (decide (slot_of k = s)) as [Hsl|]; [|by destruct Ho].
  right. destruct (decide (hi k < i)%nat) as [Hi|Hi].
  - rewrite (mk_new _ _ _ _ Hm k i) in Hv by done. apply Qb_inj in Hv; [|unfold u64; lia|done].
    split_and!; [done|done|lia].
  - exfalso. assert (lo k < i)%nat by (destruct (decide (i <= lo k)%nat); [|lia]; by destruct Ho).
    pose proof (mk_zero _ _ _ _ Hm k i Hk Hsl ltac:(lia)) as Hz.
    apply zero_word_slice in Hz; [|done]. rewrite Hz in Hv. apply Qb_inj in Hv; [lia|done|done].
Qed.

(** Seen twice, the same number was there in between. *)
Lemma names_between s lo hi e k1 i1 k2 i2 k i :
  (forall k, (lo k <= hi k)%nat) ->
  names s lo hi e k1 i1 -> names s lo hi e k2 i2 -> pos_le (k1, i1) (k, i) -> pos_le (k, i) (k2, i2) ->
  names s lo hi e k i.
Proof.
  unfold pos_le, names. cbn [fst snd]. intros Hlh H1 H2 Hle1 Hle2.
  pose proof (last_begun_le s k). pose proof (last_begun_le s k1). pose proof (last_begun_le s k2).
  assert (forall a b, (a <= b)%nat -> (last_begun s a <= last_begun s b)%nat) as Hmono
    by (intros; by apply last_begun_mono).
  assert (forall a, slot_of a = s -> last_begun s (S a) = S a) as Hown
    by (intros a <-; apply last_begun_own).
  assert (slot_of k = s -> (S k <= last_begun s k2)%nat \/ k2 = k \/ (k2 < k)%nat) as Hk2.
  { intros Hsl. destruct (decide (k < k2)%nat) as [Hlt|]; [left|right; lia].
    rewrite <- (Hown k Hsl). by apply Hmono. }
  assert (slot_of k1 = s -> (S k1 <= last_begun s k)%nat \/ k1 = k \/ (k < k1)%nat) as Hk1.
  { intros Hsl. destruct (decide (k1 < k)%nat) as [Hlt|]; [left|right; lia].
    rewrite <- (Hown k1 Hsl). by apply Hmono. }
  pose proof (Hmono k1 k). pose proof (Hmono k k2). pose proof (Hlh k). pose proof (Hlh k2).
  destruct (decide (slot_of k = s)) as [Hsl|Hsl].
  - specialize (Hk2 Hsl).
    destruct H1 as [[H1 H1']|(H1&H1'&H1'')], H2 as [[H2 H2']|(H2&H2'&H2'')].
    + left. split; [lia|]. intros _. destruct (decide (k2 = k)) as [->|]; [specialize (H2' Hsl); lia|lia].
    + destruct (decide (k2 = k)) as [->|]; [|lia]. lia.
    + specialize (Hk1 H1). destruct (decide (k1 = k)) as [->|].
      * right. split_and!; [done|lia|done].
      * left. split; [lia|]. intros _. destruct (decide (k2 = k)) as [->|]; [specialize (H2' Hsl); lia|lia].
    + specialize (Hk1 H1). assert (k1 = k2) as -> by lia. assert (k = k2) as -> by lia.
      right. split_and!; [done|lia|done].
  - left. split; [|done]. assert (k1 = k -> slot_of k1 ≠ s) by congruence.
    destruct H1 as [[H1 H1']|(H1&H1'&H1'')], H2 as [[H2 H2']|(H2&H2'&H2'')];
      try specialize (Hk1 H1); lia.
Qed.

(** ** The two markers of a slot, and its frame *)
Lemma byte_stores_miss x y off d :
  off + zlen d <= x \/ y <= off -> Forall (misses x y) (byte_stores off d).
Proof.
  intros H. eapply Forall_impl; [apply byte_stores_within|]. intros st []. unfold misses. lia.
Qed.

Lemma byte_stores_zero w off d :
  off + zlen d <= w \/ w + 8 <= off -> Forall (zeroes w) (byte_stores off d).
Proof.
  intros H. eapply Forall_impl; [by apply (byte_stores_miss w (w + 8))|]. apply misses_zeroes.
Qed.

Lemma own_bounds k :
  Z.of_nat k + 1 < 2 ^ 64 ->
  valid_slot lay (slot_of k) /\ 64 <= e_at k /\ e_at k + 64 <= payload_at lay (slot_of k) /\
  e_at k + 64 <= metadata_at lay (slot_of k) /\
  payload_at lay (slot_of k) + zlen (f_data (frames k)) <= metadata_at lay (slot_of k) /\
  zlen (f_data (frames k)) = l_payload_nbytes lay /\
  zlen (default [] (f_meta (frames k))) = l_metadata_nbytes lay.
Proof.
  intros Hk. destruct (args_of k Hk) as [_ Hs _ [Hd _ _ _ Hm]].
  pose proof (slot_bounds _ _ Hl Hs). unfold e_at. split_and!; (done || lia).
Qed.

#[local] Ltac unfold_parts :=
  unfold to_end, to_fields, to_begin, clear_begin, clear_end, copies, fields, hints, slot_clears,
    slot_fields, HEADER_LAST_SEQ_OFFSET, HEADER_LAST_SLOT_OFFSET.

(** Split the claim on a list of stores into its stores. *)
#[local] Ltac each_store :=
  repeat first [apply Forall_app; split | apply Forall_cons; split | apply Forall_nil_2 | case_match].

(** No store of the list meets the part of memory in question. *)
#[local] Ltac all_miss :=
  unfold_parts; each_store;
  first [ unfold misses; cbn [fst snd]; rewrite ?zlen_Qb; lia | apply byte_stores_miss; lia ].

(** Every store of the list puts zeros, or nothing, into the word. *)
#[local] Ltac all_zero :=
  unfold_parts; each_store;
  first [ by apply (zeroes_zeros _ _ 8)
        | apply misses_zeroes; unfold misses; cbn [fst snd]; rewrite ?zlen_Qb; lia
        | apply byte_stores_zero; lia ].

(** The accesses of the write, regrouped. *)
#[local] Ltac regroup :=
  rewrite accesses_parts by done; unfold to_end, to_fields, to_begin, clear_begin, clear_end;
  rewrite <- ?app_assoc; cbn [app]; rewrite <- ?app_assoc; cbn [app]; reflexivity.

Lemma before_words s k :
  valid_slot lay s -> Z.of_nat k < 2 ^ 64 ->
  slice (mem_before k) (entry_at lay s) (entry_at lay s + 8) = Qb (Z.of_nat (last_begun s k)) /\
  slice (mem_before k) (entry_at lay s + 32) (entry_at lay s + 32 + 8) = Qb (Z.of_nat (last_begun s k)).
Proof.
  intros Hs Hk. pose proof (before_image s k Hs Hk) as Hi.
  replace (entry_at lay s + 32 + 8) with (entry_at lay s + 40) by lia.
  destruct (last_begun s k); [done|]. unfold image_of, frame_image in Hi. by injection Hi.
Qed.

(** Away from the slot the words are those between two writes. *)
Lemma foreign_words s k i :
  valid_slot lay s -> Z.of_nat k + 1 < 2 ^ 64 -> slot_of k ≠ s ->
  slice (mem_at k i) (entry_at lay s) (entry_at lay s + 8) = Qb (Z.of_nat (last_begun s k)) /\
  slice (mem_at k i) (entry_at lay s + 32) (entry_at lay s + 32 + 8) = Qb (Z.of_nat (last_begun s k)).
Proof.
  intros Hs Hk Hne. destruct (before_words s k Hs) as [Hb He]; [lia|]. rewrite <- Hb at 1. rewrite <- He.
  pose proof (mem_at_foreign s k i Hs Hk Hne) as Hi. unfold image_of in Hi.
  replace (entry_at lay s + 32 + 8) with (entry_at lay s + 40) by lia. by injection Hi.
Qed.

Definition begin_hi (k : nat) : nat := torn_len grain (to_begin k).
Definition end_lo (k : nat) : nat := torn_len grain (clear_begin k).
Definition end_hi (k : nat) : nat := torn_len grain (to_end k).

Lemma torn_len_whole o d : fits_unit grain o (zlen d) = true -> torn_len grain [(o, d)] = 1%nat.
Proof. unfold torn_len. cbn [sum_list_with fst snd]. by intros ->. Qed.

Lemma begin_marker s :
  valid_slot lay s -> fits_unit grain (entry_at lay s) 8 = true ->
  marker s (entry_at lay s) (fun _ => 0%nat) begin_hi.
Proof.
  intros Hs Hf. constructor.
  - lia.
  - intros k i Hk Hi. destruct (decide (slot_of k = s)) as [Hsl|Hne].
    + specialize (Hi Hsl). replace i with 0%nat by lia. apply before_words; [done|lia].
    + by apply foreign_words.
  - intros k i Hk Hsl Hi. cbv beta in Hi. subst s. fold (e_at k) in *. pose proof (own_bounds k Hk).
    eapply (zero_between k [] ([(e_at k, Qb 0)] ++ clear_end k ++ copies k)).
    + done.
    + lia.
    + regroup.
    + cbn [app]. rewrite (torn_len_whole (e_at k) (Qb 0)) by (by rewrite zlen_Qb). exact Hi.
    + all_zero.
  - intros k i Hk Hsl Hi. subst s. fold (e_at k) in *. pose proof (own_bounds k Hk) as Hbd.
    erewrite (late_same k (to_begin k ++ [(e_at k, Qb (Z.of_nat k + 1))])); [| done | lia | regroup | | ].
    + destruct (before_words (slot_of k) (S k)) as [He _]; [apply Hbd|lia|]. fold (e_at k) in He.
      rewrite He, last_begun_own. f_equal. lia.
    + rewrite torn_len_app, torn_len_whole by (by rewrite zlen_Qb). unfold begin_hi in Hi. lia.
    + all_miss.
Qed.

Lemma end_marker s :
  valid_slot lay s -> fits_unit grain (entry_at lay s + 32) 8 = true ->
  marker s (entry_at lay s + 32) end_lo end_hi.
Proof.
  intros Hs Hf. constructor.
  - intros k. unfold end_lo, end_hi, to_end, to_fields, to_begin. rewrite !torn_len_app. lia.
  - intros k i Hk Hi. destruct (decide (slot_of k = s)) as [Hsl|Hne]; [|by apply foreign_words].
    specialize (Hi Hsl). subst s. fold (e_at k) in *. pose proof (own_bounds k Hk) as Hbd.
    erewrite (early_same k (clear_begin k)); [| done | lia | regroup | done | all_miss].
    apply before_words; [done|lia].
  - intros k i Hk Hsl Hi. subst s. fold (e_at k) in *. pose proof (own_bounds k Hk).
    eapply (zero_between k (clear_begin k)
      ([(e_at k + 32, Qb 0)] ++ copies k ++ (e_at k, Qb (Z.of_nat k + 1)) :: fields k ++
       [(e_at k + 32, Qb 0)])).
    + done.
    + lia.
    + regroup.
    + rewrite torn_len_app, torn_len_whole by (by rewrite zlen_Qb). fold (end_lo k).
      split; [lia|]. destruct Hi as [_ Hi]. etrans; [exact Hi|]. apply Nat.eq_le_incl.
      unfold end_hi. f_equal. unfold to_end, to_fields, to_begin, clear_end.
      rewrite <- ?app_assoc. cbn [app]. by rewrite <- ?app_assoc.
    + all_zero.
  - intros k i Hk Hsl Hi. subst s. fold (e_at k) in *. pose proof (own_bounds k Hk) as Hbd.
    erewrite (late_same k (to_end k ++ [(e_at k + 32, Qb (Z.of_nat k + 1))])); [| done | lia | regroup | | ].
    + destruct (before_words (slot_of k) (S k)) as [_ He]; [apply Hbd|lia|]. fold (e_at k) in He.
      rewrite He, last_begun_own. f_equal. lia.
    + rewrite torn_len_app, torn_len_whole by (by rewrite zlen_Qb). unfold end_hi in Hi. lia.
    + all_miss.
Qed.

(** Wherever it lies, the end word is zero from the end of its first clear to
    the store that completes the slot. *)
Lemma end_zero k i :
  Z.of_nat k + 1 < 2 ^ 64 ->
  (torn_len grain (clear_begin k ++ clear_end k) <= i <= end_hi k)%nat ->
  zero_word (mem_at k i) (e_at k + 32).
Proof.
  intros Hk Hi. pose proof (own_bounds k Hk).
  eapply (zero_between k (clear_begin k ++ [(e_at k + 32, Qb 0)])
    (copies k ++ (e_at k, Qb (Z.of_nat k + 1)) :: fields k ++ [(e_at k + 32, Qb 0)])).
  - done.
  - lia.
  - regroup.
  - destruct Hi as [Hi1 Hi2]. split; [exact Hi1|]. etrans; [exact Hi2|]. apply Nat.eq_le_incl.
    unfold end_hi. f_equal. unfold to_end, to_fields, to_begin, clear_end.
    rewrite <- ?app_assoc. cbn [app]. by rewrite <- ?app_assoc.
  - all_zero.
Qed.

(** Timestamps, payload and metadata: what a reader copies from a slot. *)
Definition body_of (buf : bytes) (s : Z) : bytes * bytes * bytes :=
  (slice buf (entry_at lay s + 8) (entry_at lay s + 24),
   slice buf (payload_at lay s) (payload_at lay s + l_payload_nbytes lay),
   slice buf (metadata_at lay s) (metadata_at lay s + l_metadata_nbytes lay)).
Definition frame_body (f : frame) : bytes * bytes * bytes :=
  (Qb (f_mono f) ++ Qb (f_wall f), f_data f, default [] (f_meta f)).

Lemma image_body buf s e f :
  valid_slot lay s -> image_of lay buf s = frame_image e f -> body_of buf s = frame_body f.
Proof.
  intros Hs Hi. pose proof (slot_bounds _ _ Hl Hs). unfold image_of, frame_image in Hi.
  injection Hi as _ Hm Hw _ Hp Hmd. unfold body_of, frame_body.
  rewrite (slice_split _ _ (entry_at lay s + 16)), Hm, Hw, Hp, Hmd by lia. done.
Qed.

Lemma before_body s k m :
  valid_slot lay s -> Z.of_nat k < 2 ^ 64 -> last_begun s k = S m ->
  body_of (mem_before k) s = frame_body (frames m).
Proof.
  intros Hs Hk Hm. pose proof (before_image s k Hs Hk) as Hi. rewrite Hm in Hi.
  by eapply image_body.
Qed.

Lemma body_old s k i m :
  valid_slot lay s -> Z.of_nat k + 1 < 2 ^ 64 -> last_begun s k = S m ->
  (slot_of k = s -> (i <= end_lo k)%nat) -> body_of (mem_at k i) s = frame_body (frames m).
Proof.
  intros Hs Hk Hm Hi. destruct (decide (slot_of k = s)) as [Hsl|Hne].
  - specialize (Hi Hsl). rewrite <- (before_body s k m Hs ltac:(lia) Hm). subst s. unfold body_of.
    pose proof (own_bounds k Hk). pose proof (lo_payload_nonneg _ Hl). fold (e_at k).
    f_equal; [f_equal|]; (eapply (early_same k (clear_begin k)); [done|lia|regroup|done|all_miss]).
  - pose proof (mem_at_foreign s k i Hs Hk Hne) as Him.
    pose proof (before_image s k Hs ltac:(lia)) as Hi'. rewrite Hm in Hi'. rewrite Hi' in Him.
    by eapply image_body.
Qed.

Lemma body_new k i :
  Z.of_nat k + 1 < 2 ^ 64 -> (torn_len grain (to_fields k) <= i)%nat ->
  body_of (mem_at k i) (slot_of k) = frame_body (frames k).
Proof.
  intros Hk Hi. pose proof (own_bounds k Hk) as Hbd. pose proof (lo_payload_nonneg _ Hl).
  rewrite <- (before_body (slot_of k) (S k) k) by (apply Hbd || lia || apply last_begun_own).
  unfold body_of. fold (e_at k).
  f_equal; [f_equal|]; (eapply (late_same k (to_fields k)); [done|lia|regroup|done|all_miss]).
Qed.

(** A nonzero number read from a marker is the number it names. *)
Lemma marker_reads s w lo hi k i z :
  0 <= w -> marker s w lo hi -> Z.of_nat k + 1 < 2 ^ 64 -> z ≠ 0 ->
  le_decode (slice (mem_at k i) w (w + 8)) = z ->
  exists m, z = Z.of_nat m + 1 /\ names s lo hi (S m) k i.
Proof.
  intros Hw Hm Hk Hz Hv.
  assert (exists x, u64 (Z.of_nat x) /\ slice (mem_at k i) w (w + 8) = Qb (Z.of_nat x)) as (x&Hu&Hx).
  { pose proof (last_begun_le s k).
    destruct (decide (slot_of k = s -> (i <= lo k)%nat)) as [Ho|Ho].
    { exists (last_begun s k). split; [unfold u64; lia|]. by apply (mk_old _ _ _ _ Hm). }
    destruct (decide (slot_of k = s)) as [Hsl|]; [|by destruct Ho].
    destruct (decide (hi k < i)%nat) as [Hi|Hi].
    - exists (S k). split; [unfold u64; lia|]. rewrite (mk_new _ _ _ _ Hm) by done. f_equal. lia.
    - exists 0%nat. split; [done|]. apply zero_word_slice; [done|].
      apply (mk_zero _ _ _ _ Hm); [done|done|].
      destruct (decide (i <= lo k)%nat); [by destruct Ho|lia]. }
  rewrite Hx in Hv. unfold Qb in Hv. rewrite le_decode_encode_Q in Hv by done.
  destruct x as [|m]; [lia|]. exists m. split; [lia|].
  eapply (marker_names s w lo hi); (done || lia).
Qed.

(** ** Which words lie in one unit *)
Definition one_marker : bool :=
  fits_unit grain (l_slot_table_offset lay) 8 || fits_unit grain (l_slot_table_offset lay + 32) 8.

Lemma fits_shift o n c : (grain | c) -> fits_unit grain (o + c) n = fits_unit grain o n.
Proof.
  intros [q ->]. unfold fits_unit. by rewrite Z_mod_plus_full.
Qed.

Lemma slot_marker s :
  (grain | 64) -> one_marker = true ->
  fits_unit grain (entry_at lay s) 8 = true \/ fits_unit grain (entry_at lay s + 32) 8 = true.
Proof.
  intros Hd Hm. assert (grain | s * SLOT_ENTRY_SIZE) as Hs by (by apply Z.divide_mul_r).
  unfold entry_at. rewrite <- Z.add_assoc, (Z.add_comm (_ * _) 32), Z.add_assoc, !fits_shift by done.
  unfold one_marker in Hm. by apply orb_true_iff in Hm.
Qed.

(** ** A reader's schedule

    [moment j a] is where the writer stands when access [j] of the reader loads
    the byte at address [a]: later accesses see later moments; within one
    access the bytes of a unit are loaded at one moment, and its units in any
    order. *)
Section schedule.
Context (moment : nat -> Z -> wcfg).
Context (Hstart : forall a, rtc wstep winit (moment 0%nat a)).
Context (Hsteps : forall j a a', rtc wstep (moment j a) (moment (S j) a')).
Context (Hunits : forall j a a', a / grain = a' / grain -> moment j a = moment j a').
Context (Hgrain64 : (grain | 64)) (Hmark : one_marker = true).

Definition view : memory := fun j a => c_buf (moment j a).

Definition pos_k (j : nat) (a : Z) : nat := c_k (moment j a).
Definition pos_i (j : nat) (a : Z) : nat :=
  (length (plan (pos_k j a)) - length (c_todo (moment j a)))%nat.

Lemma at_pos_inj c k i : at_pos c k i -> k = c_k c /\ i = (length (plan k) - length (c_todo c))%nat.
Proof. intros (<-&Hi&_&->&_). split; [done|]. rewrite length_drop. lia. Qed.

Lemma moment_pos j a : at_pos (moment j a) (pos_k j a) (pos_i j a).
Proof.
  assert (exists k i, at_pos (moment j a) k i) as (k&i&Hp).
  { revert a. induction j as [|j IH]; intros a.
    - destruct (steps_pos _ _ _ _ (Hstart a) winit_pos) as (k&i&?&_). eauto.
    - destruct (IH a) as (k&i&Hp). destruct (steps_pos _ _ _ _ (Hsteps j a a) Hp) as (k'&i'&?&_). eauto. }
  destruct (at_pos_inj _ _ _ Hp) as [-> ->]. done.
Qed.

Lemma moment_le j a j' a' :
  (j < j')%nat -> pos_le (pos_k j a, pos_i j a) (pos_k j' a', pos_i j' a').
Proof.
  intros Hlt. revert a'. induction Hlt as [|j' Hle IH]; intros a'.
  all: match goal with |- pos_le _ (pos_k (S ?n) _, _) =>
    destruct (steps_pos _ _ _ _ (Hsteps n a a') (moment_pos n a)) as (k&i&Hp&Hle') end.
  all: destruct (at_pos_inj _ _ _ Hp) as [Hk Hi].
  - assert (k = pos_k (S j) a' /\ i = pos_i (S j) a') as [-> ->] by (unfold pos_i, pos_k; by subst k). done.
  - assert (k = pos_k (S j') a' /\ i = pos_i (S j') a') as [-> ->] by (unfold pos_i, pos_k; by subst k).
    specialize (IH a). unfold pos_le in *. cbn [fst snd] in *. lia.
Qed.

Lemma view_mem j a : view j a = mem_at (pos_k j a) (pos_i j a).
Proof. apply moment_pos. Qed.

Lemma moment_bound j a : Z.of_nat (pos_k j a) + 1 < 2 ^ 64.
Proof. apply moment_pos. Qed.

Lemma view_ok j a : zlen (view j a) = total_bytes lay.
Proof. rewrite view_mem. apply mem_at_ok, moment_bound. Qed.

Lemma word_in_range j b s a : valid_slot lay s -> 0 <= a -> a + 8 <= 64 ->
  in_range (view j b) (entry_at lay s + a) 8 = true.
Proof.
  intros Hs ??. pose proof (slot_bounds _ _ Hl Hs). pose proof (view_ok j b). apply in_range_spec. lia.
Qed.

Lemma Ok_inj (x y : Z) : Ok x = Ok y -> x = y.
Proof. congruence. Qed.

(** A word inside one unit is loaded at one moment. *)
Lemma load_whole j off z :
  0 <= off -> fits_unit grain off 8 = true -> load_Q view j off = Ok z ->
  le_decode (slice (view j off) off (off + 8)) = z.
Proof.
  intros Ho Hf Hq. unfold load_Q in Hq. destruct (in_range (view j off) off 8) eqn:Hr; [|done].
  apply Ok_inj in Hq. rewrite <- Hq. f_equal. apply in_range_spec in Hr as (?&?&?). symmetry.
  assert (zlen (slice (view j off) off (off + 8)) = 8) as Hlen by (rewrite zlen_slice; lia).
  apply picked_bytes; [unfold zlen in Hlen; lia|]. intros b x Hx.
  pose proof (lookup_lt_Some _ _ _ Hx). unfold zlen in Hlen.
  replace (view j (off + Z.of_nat b)) with (view j off); [by eapply lookup_slice|].
  unfold view. f_equal. apply Hunits. unfold fits_unit in Hf. apply Z.leb_le in Hf.
  pose proof (Z.mod_pos_bound off grain Hgrain). pose proof (Z.div_mod off grain).
  apply (Z.div_unique_pos _ _ _ (off mod grain + Z.of_nat b)); lia.
Qed.

(** A nonzero number was loaded with a nonzero byte. *)
Lemma load_nonzero j off z :
  load_Q view j off = Ok z -> z ≠ 0 ->
  exists b, (b < 8)%nat /\ view j (off + Z.of_nat b) !! (Z.to_nat off + b)%nat ≠ Some 0.
Proof.
  intros Hq Hz. unfold load_Q in Hq. destruct (in_range (view j off) off 8); [|done]. apply Ok_inj in Hq.
  destruct (decide (Forall (fun b => view j (off + Z.of_nat b) !! (Z.to_nat off + b)%nat = Some 0) (seq 0 8)))
    as [Hall|Hex].
  - exfalso. apply Hz. rewrite <- Hq.
    replace ((fun b => nth (Z.to_nat off + b) (view j (off + Z.of_nat b)) 0) <$> seq 0 8)
      with (replicate 8 0); [done|]. symmetry. apply picked_bytes; [done|].
    intros b x Hx. apply lookup_replicate in Hx as [-> Hb]. rewrite Forall_forall in Hall.
    apply Hall, elem_of_seq. lia.
  - apply not_Forall_Exists in Hex; [|apply _]. apply Exists_exists in Hex as (b&Hb&Hn).
    exists b. apply elem_of_seq in Hb. split; [lia|done].
Qed.

(** Loads of one nonzero number from both words before and after the copy pin
    the slot to that frame while it is copied: by the end word alone, ... *)
Lemma pinned_by_end s j jf z :
  valid_slot lay s -> (j < jf)%nat -> z ≠ 0 -> fits_unit grain (entry_at lay s + 32) 8 = true ->
  load_Q view j (entry_at lay s + 32) = Ok z -> load_Q view jf (entry_at lay s + 32) = Ok z ->
  exists m, z = Z.of_nat m + 1 /\
    forall i a, (j < i < jf)%nat -> body_of (view i a) s = frame_body (frames m).
Proof.
  intros Hs Hj Hz Hf H1 H2. pose proof (slot_bounds _ _ Hl Hs) as Hbd.
  pose proof (end_marker s Hs Hf) as Hm. set (w := entry_at lay s + 32) in *.
  apply load_whole in H1, H2; [|lia|done|lia|done]. rewrite view_mem in H1, H2.
  destruct (marker_reads s w _ _ _ _ z ltac:(lia) Hm (moment_bound j w) Hz H1) as (m&Hzm&Hn1).
  destruct (marker_reads s w _ _ _ _ z ltac:(lia) Hm (moment_bound jf w) Hz H2) as (m'&Hzm'&Hn2).
  assert (m' = m) as -> by lia. exists m. split; [done|]. intros i a Hi. rewrite view_mem.
  pose proof (moment_bound i a) as Hk.
  destruct (names_between s _ _ _ _ _ _ _ (pos_k i a) (pos_i i a) (mk_order _ _ _ _ Hm) Hn1 Hn2
    ltac:(apply moment_le; lia) ltac:(apply moment_le; lia)) as [[Hlb Hlo]|(Hsl&Hhi&Heq)].
  - by apply body_old.
  - injection Heq as <-. rewrite <- Hsl. apply body_new; [done|].
    unfold end_hi, to_end in Hhi. rewrite torn_len_app in Hhi. lia.
Qed.

(** ... or by the begin word, once a byte of the number has been seen in the
    end word. *)
Lemma pinned_by_begin s j jf z :
  valid_slot lay s -> (S j < jf)%nat -> z ≠ 0 -> fits_unit grain (entry_at lay s) 8 = true ->
  load_Q view j (entry_at lay s) = Ok z -> load_Q view (S j) (entry_at lay s + 32) = Ok z ->
  load_Q view jf (entry_at lay s) = Ok z ->
  exists m, z = Z.of_nat m + 1 /\
    forall i a, (S j < i < jf)%nat -> body_of (view i a) s = frame_body (frames m).
Proof.
  intros Hs Hj Hz Hf H1 He H2. pose proof (slot_bounds _ _ Hl Hs) as Hbd.
  pose proof (begin_marker s Hs Hf) as Hm. set (w := entry_at lay s) in *.
  apply load_whole in H1, H2; [|lia|done|lia|done]. rewrite view_mem in H1, H2.
  destruct (marker_reads s w _ _ _ _ z ltac:(lia) Hm (moment_bound j w) Hz H1) as (m&Hzm&Hn1).
  destruct (marker_reads s w _ _ _ _ z ltac:(lia) Hm (moment_bound jf w) Hz H2) as (m'&Hzm'&Hn2).
  assert (m' = m) as -> by lia. exists m. split; [done|].
  destruct (load_nonzero _ _ _ He Hz) as (b&Hb&Hnz).
  set (q := w + 32 + Z.of_nat b) in *. rewrite view_mem in Hnz.
  pose proof (names_between s _ _ _ _ _ _ _ (pos_k (S j) q) (pos_i (S j) q) (mk_order _ _ _ _ Hm)
    Hn1 Hn2 ltac:(apply moment_le; lia) ltac:(apply moment_le; lia)) as Hnq.
  intros i a Hi. rewrite view_mem. pose proof (moment_bound i a) as Hk.
  pose proof (moment_le (S j) q i a ltac:(lia)) as Hqi. unfold pos_le in Hqi. cbn [fst snd] in Hqi.
  destruct (names_between s _ _ _ _ _ _ _ (pos_k i a) (pos_i i a) (mk_order _ _ _ _ Hm) Hn1 Hn2
    ltac:(apply moment_le; lia) ltac:(apply moment_le; lia)) as [[Hlb Hlo]|(Hsl&Hhi&Heq)].
  { apply body_old; [done|done|done|]. intros Hsl. specialize (Hlo Hsl). lia. }
  injection Heq as Hkm. rewrite <- Hkm, <- Hsl. apply body_new; [done|].
  destruct Hnq as [[Hlb _]|(Hslq&Hhiq&Heqq)].
  { pose proof (last_begun_le s (pos_k (S j) q)). lia. }
  assert (pos_k (S j) q = pos_k i a) as Hkq by lia. rewrite Hkq in *.
  assert (end_hi (pos_k i a) < pos_i (S j) q)%nat as Hpast.
  { destruct (decide (end_hi (pos_k i a) < pos_i (S j) q)%nat) as [|Hn]; [done|]. exfalso. apply Hnz.
    unfold w. rewrite <- Hsl. apply (end_zero (pos_k i a) (pos_i (S j) q)); [done| |done].
    split; [|lia]. etrans; [|apply Nat.lt_le_incl, Hhiq]. unfold begin_hi, to_begin.
    rewrite !torn_len_app. lia. }
  unfold end_hi, to_end in Hpast. rewrite torn_len_app in Hpast. lia.
Qed.

Lemma pinned s j jf z :
  valid_slot lay s -> (S j < jf)%nat -> z ≠ 0 ->
  load_Q view j (entry_at lay s) = Ok z -> load_Q view (S j) (entry_at lay s + 32) = Ok z ->
  load_Q view jf (entry_at lay s) = Ok z -> load_Q view (S jf) (entry_at lay s + 32) = Ok z ->
  exists m, z = Z.of_nat m + 1 /\
    forall i a, (S j < i < jf)%nat -> body_of (view i a) s = frame_body (frames m).
Proof.
  intros Hs Hj Hz H1 H2 H3 H4. destruct (slot_marker s Hgrain64 Hmark) as [Hf|Hf].
  - by apply (pinned_by_begin s j jf z).
  - destruct (pinned_by_end s (S j) (S jf) z) as (m&Hm&Hp); [done|lia|done|done|done|done|].
    exists m. split; [done|]. intros i a Hi. apply Hp. lia.
Qed.

(** *** Copies out of a pinned slot *)
Lemma tear_pinned j a n d :
  0 <= a -> zlen d = n -> a + n <= total_bytes lay ->
  (forall b, (b < length d)%nat -> slice (view (j + b) (a + Z.of_nat b)) a (a + n) = d) ->
  tear view j a (a + n) = d.
Proof.
  intros Ha Hlen Hz Hpin. unfold tear. rewrite view_ok, Z.min_l by lia.
  apply (picked_bytes (fun b => view (j + b)%nat (a + Z.of_nat b))); [unfold zlen in *; lia|].
  intros b x Hx. pose proof (lookup_lt_Some _ _ _ Hx) as Hb. apply (lookup_slice _ _ (a + n)); [done|].
  by rewrite Hpin.
Qed.

Lemma load_pinned j off z :
  0 <= off -> off + 8 <= total_bytes lay -> u64 z ->
  (forall b, (b < 8)%nat -> slice (view j (off + Z.of_nat b)) off (off + 8) = Qb z) ->
  load_Q view j off = Ok z.
Proof.
  intros Ho Hr Hu Hpin. unfold load_Q.
  assert (in_range (view j off) off 8 = true) as -> by (apply in_range_spec; rewrite view_ok; lia).
  rewrite (picked_bytes (fun b => view j (off + Z.of_nat b)) (Z.to_nat off) 8 (Qb z)); [| done |].
  - unfold Qb. by rewrite le_decode_encode_Q.
  - intros b x Hx. pose proof (lookup_lt_Some _ _ _ Hx) as Hb. change (length (Qb z)) with 8%nat in Hb.
    apply (lookup_slice _ _ (off + 8)); [done|]. by rewrite Hpin.
Qed.

Lemma body_words buf s f :
  valid_slot lay s -> body_of buf s = frame_body f ->
  slice buf (entry_at lay s + 8) (entry_at lay s + 8 + 8) = Qb (f_mono f) /\
  slice buf (entry_at lay s + 16) (entry_at lay s + 16 + 8) = Qb (f_wall f).
Proof.
  intros Hs Hb. pose proof (slot_bounds _ _ Hl Hs). 
  pose proof (f_equal (fun x => x.1.1) Hb) as Hw. cbn [body_of frame_body fst] in Hw.
  split.
  - transitivity (slice (slice buf (entry_at lay s + 8) (entry_at lay s + 24)) 0 8).
    + rewrite slice_slice by lia. f_equal; lia.
    + rewrite Hw. by apply slice_app_l.
  - transitivity (slice (slice buf (entry_at lay s + 8) (entry_at lay s + 24)) 8 16).
    + rewrite slice_slice by lia. f_equal; lia.
    + rewrite Hw, slice_app_r by done. apply slice_full.
Qed.

(** Reads never fail on a live ring; and what they return is whole. *)
Lemma load_total j s a : valid_slot lay s -> 0 <= a -> a + 8 <= 64 ->
  exists z, load_Q view j (entry_at lay s + a) = Ok z.
Proof. intros. unfold load_Q. rewrite word_in_range by done. by eexists. Qed.

Lemma load_total0 j s : valid_slot lay s -> exists z, load_Q view j (entry_at lay s) = Ok z.
Proof. intros Hs. destruct (load_total j s 0 Hs) as [z Hz]; [lia|lia|]. rewrite Z.add_0_r in Hz. eauto. Qed.

Lemma read_stable_sound j s e ev :
  valid_slot lay s -> _read_stable_slot lay view j s e = Ok (Some ev) ->
  exists m, e = Z.of_nat m + 1 /\ ev = frame_event e (frames m).
Proof.
  intros Hs. unfold _read_stable_slot, SEQ_END_OFFSET. cbv zeta. fold (entry_at lay s).
  fold (payload_at lay s). fold (metadata_at lay s). pose proof (slot_bounds _ _ Hl Hs) as Hbd.
  destruct (load_total0 j s Hs) as [sb Hsb]. rewrite Hsb.
  destruct (load_total (j + 1) s 32 Hs) as [se Hse]; [lia|lia|]. rewrite Hse. cbn [mbind result_bind].
  destruct (Z.eqb_spec sb 0) as [|Hsb0]; [done|]. destruct (Z.eqb_spec sb se) as [<-|]; [|done].
  destruct (Z.eqb_spec sb e) as [->|]; [|done]. cbn [negb orb].
  destruct (load_total (j + 2) s 8 Hs) as [mono Hmono]; [lia|lia|]. rewrite Hmono.
  destruct (load_total (j + 3) s 16 Hs) as [wall Hwall]; [lia|lia|]. rewrite Hwall.
  destruct (load_total (j + 4) s 24 Hs) as [shot Hshot]; [lia|lia|]. rewrite Hshot.
  cbn [mbind result_bind].
  set (jm := (j + 5 + Z.to_nat (l_payload_nbytes lay))%nat).
  set (jf := (jm + Z.to_nat (l_metadata_nbytes lay))%nat).
  destruct (load_total0 jf s Hs) as [sb' Hsb']. rewrite Hsb'.
  destruct (load_total (jf + 1) s 32 Hs) as [se' Hse']; [lia|lia|]. rewrite Hse'.
  cbn [mbind result_bind].
  destruct (Z.eqb_spec sb' e) as [->|]; [|done]. destruct (Z.eqb_spec se' e) as [->|]; [|done].
  rewrite Z.eqb_refl. cbn [negb orb]. intros [= <-].
  rewrite Nat.add_1_r in Hse, Hse'.
  destruct (pinned s j jf e) as (m&Hm&Hpin); [done|lia|done|done|done|done|done|].
  exists m. split; [done|]. unfold frame_event. destruct (Hframes m) as [Fd Fmo Fwa Fsh Fmd].
  rewrite (load_pinned (j + 2) _ (f_mono (frames m))) in Hmono; [|lia|lia|done|].
  2: { intros b Hb. apply body_words, Hpin; [done|lia]. }
  rewrite (load_pinned (j + 3) _ (f_wall (frames m))) in Hwall; [|lia|lia|done|].
  2: { intros b Hb. apply body_words, Hpin; [done|lia]. }
  injection Hmono as <-. injection Hwall as <-.
  rewrite (tear_pinned (j + 5) _ _ (f_data (frames m))); [|lia|done|lia|].
  2: { intros b Hb. unfold zlen in Fd.
       pose proof (Hpin (j + 5 + b)%nat (payload_at lay s + Z.of_nat b) ltac:(lia)) as H.
       exact (f_equal (fun x => x.1.2) H). }
  f_equal. destruct (l_metadata_dtype lay) as [md|] eqn:Hmd.
  - rewrite (tear_pinned jm _ _ (default [] (f_meta (frames m)))); [|lia|done|lia|].
    + destruct (f_meta (frames m)); [done|]. exfalso. by apply (is_Some_None (A := bytes)), Fsh.
    + intros b Hb. unfold zlen in Fmd.
      pose proof (Hpin (jm + b)%nat (metadata_at lay s + Z.of_nat b) ltac:(lia)) as H.
      exact (f_equal snd H).
  - destruct (f_meta (frames m)); [|done]. exfalso. by apply (is_Some_None (A := D)), Fsh.
Qed.

Lemma read_stable_total j s e :
  valid_slot lay s -> exists r, _read_stable_slot lay view j s e = Ok r.
Proof.
  intros Hs. unfold _read_stable_slot, SEQ_END_OFFSET. cbv zeta. fold (entry_at lay s).
  assert (forall i a, 0 <= a -> a + 8 <= 64 -> exists z, load_Q view i (entry_at lay s + a) = Ok z)
    as Hr by (intros; by apply load_total).
  assert (forall i, exists z, load_Q view i (entry_at lay s) = Ok z) as Hr0 by (intros; by apply load_total0).
  destruct (Hr0 j) as [? ->]. destruct (Hr (j + 1)%nat 32) as [? ->]; [lia|lia|].
  cbn [mbind result_bind]. destruct (_ || _); [by eexists|].
  destruct (Hr (j + 2)%nat 8) as [? ->]; [lia|lia|].
  destruct (Hr (j + 3)%nat 16) as [? ->]; [lia|lia|].
  destruct (Hr (j + 4)%nat 24) as [? ->]; [lia|lia|]. cbn [mbind result_bind].
  set (jf := (_ + Z.to_nat (l_metadata_nbytes lay))%nat).
  destruct (Hr0 jf) as [? ->]. destruct (Hr (jf + 1)%nat 32) as [? ->]; [lia|lia|].
  cbn [mbind result_bind]. destruct (_ || _); by eexists.
Qed.

Lemma view_hint_total : exists h, _read_last_hint lay view = Ok h.
Proof.
  unfold _read_last_hint. destruct (l_layout_version lay <? 2); [by eexists|].
  assert (forall j a o, in_header o 8 -> in_range (view j a) o 8 = true) as Hr
    by (intros; eapply in_header_range; [exact Hl|apply view_ok|done|done]).
  unfold load_Q. rewrite !Hr by done. by eexists.
Qed.

Lemma first_hit_live k slots t :
  Forall (valid_slot lay) slots ->
  exists r, first_hit lay view k slots t = Ok r /\
    forall ev, r = Some ev -> exists m, t = Z.of_nat m + 1 /\ ev = frame_event t (frames m).
Proof.
  revert k. induction slots as [|s r IH]; intros k Hv; [by exists None|].
  apply Forall_cons in Hv as [Hs Hv]. cbn [first_hit].
  destruct (read_stable_total k s t Hs) as [[e|] He]; rewrite He; cbn [mbind result_bind].
  - exists (Some e). split; [done|]. intros ev [= <-]. by eapply read_stable_sound.
  - by apply IH.
Qed.

Lemma scan_slots_live k slots last :
  Forall (valid_slot lay) slots ->
  exists es, scan_slots lay view k slots last = Ok es /\
    Forall (fun e => last < e.1 /\ valid_slot lay e.2) es.
Proof.
  revert k. induction slots as [|s r IH]; intros k Hv; [by exists []|].
  apply Forall_cons in Hv as [Hs Hv]. cbn [scan_slots]. fold (entry_at lay s).
  destruct (load_total0 k s Hs) as [sb Hsb]. rewrite Hsb.
  destruct (load_total (k + 1) s 32 Hs) as [se Hse]; [lia|lia|]. unfold SEQ_END_OFFSET. rewrite Hse.
  destruct (IH (k + 2)%nat Hv) as (es&->&Hes). cbn [mbind result_bind].
  destruct (_ || _ || _) eqn:Hc; [by exists es|]. exists ((se, s) :: es). split; [done|].
  constructor; [|done]. simpl. split; [lia|done].
Qed.

Lemma collect_live k es :
  Forall (fun e : Z * Z => valid_slot lay e.2) es ->
  exists evs, collect_events lay view k es = Ok evs /\
    (ev_seq <$> evs) `sublist_of` (fst <$> es) /\
    Forall (fun ev => exists m, ev = frame_event (Z.of_nat m + 1) (frames m)) evs.
Proof.
  revert k. induction es as [|[q s] es IH]; intros k Hv; [by exists []|].
  apply Forall_cons in Hv as [Hs Hv]. cbn [collect_events].
  destruct (read_stable_total k s q Hs) as [h Hh]. rewrite Hh. cbn [mbind result_bind].
  destruct (IH (k + stable_loads lay)%nat Hv) as (evs&->&Hsub&Hall). cbn [mbind result_bind].
  destruct h as [ev|].
  - destruct (read_stable_sound _ _ _ _ Hs Hh) as (m&->&->). eexists. split; [done|].
    split; [by constructor|]. constructor; [by exists m|done].
  - exists evs. split_and!; [done|by constructor|done].
Qed.
End schedule.
End seqlock.

(** With units of 64 bytes one of the two words of every slot lies in one
    unit, whatever the layout; so it is when the slot table is aligned to
    eight bytes, with units of eight bytes or more. *)
Lemma line_has_marker {D} (lay : ShmLayout D) : one_marker lay 64 = true.
Proof.
  unfold one_marker, fits_unit. set (o := l_slot_table_offset lay).
  pose proof (Z.mod_pos_bound o 64). pose proof (Z.mod_pos_bound (o + 32) 64).
  pose proof (Z.div_mod o 64). pose proof (Z.div_mod (o + 32) 64).
  destruct (Z.leb_spec (o mod 64 + 8) 64); [done|]. apply orb_true_iff. right. apply Z.leb_le. lia.
Qed.

Lemma aligned_has_marker {D} (lay : ShmLayout D) grain :
  8 <= grain -> (8 | grain) -> (8 | l_slot_table_offset lay) -> one_marker lay grain = true.
Proof.
  intros Hg [q Hq] [n Hn]. unfold one_marker, fits_unit. set (o := l_slot_table_offset lay) in *.
  apply orb_true_iff. left. apply Z.leb_le. pose proof (Z.mod_pos_bound o grain).
  pose proof (Z.div_mod o grain). subst grain. assert (o mod (q * 8) = 8 * (n - q * (o / (q * 8)))) by lia. nia.
Qed.
