(* ===== verification/ShmTheorems.v ===== *)
(** * The guarantees of the shared-memory ring

    Writer and reader operations of [shm_ring.py] against the list of frames
    published so far, with a small concrete dtype world for the witnesses. *)
From S2P Require Import Prelude Bytes PyVal ShmRing ShmRingSpec ShmAttach ShmSeqlock.

Section states.
Context {D : Type} `{!Numpy D}.
Implicit Types (lay : ShmLayout D) (w : ShmRingWriter D).

(** A writer whose memory is the ring of [frames]. *)
Record ring_state lay w (frames : list frame) : Prop := {
  rs_layout : w_layout w = lay;
  rs_ok : layout_ok lay;
  rs_buf : okbuf lay (w_buf w);
  rs_seq : w_next_seq w = zlen frames;
  rs_slot : w_next_slot w = zlen frames mod l_slot_count lay;
  rs_frames : Forall (frame_ok lay) frames;
  rs_bound : zlen frames < 2 ^ 64;
  rs_mem : ring_mem lay (w_buf w) frames
}.

Lemma ring_state_write lay w frames arr mono wall metadata f :
  ring_state lay w frames -> fits lay arr mono wall metadata f -> frame_ok lay f ->
  zlen frames + 1 < 2 ^ 64 ->
  exists w', write arr mono wall metadata w = (Ok (zlen frames + 1), w') /\
    w_buf w' = run_stores (write_stores lay (w_next_slot w) (zlen frames + 1) f) (w_buf w) /\
    write_args lay (w_next_slot w) (zlen frames + 1) f /\
    ring_state lay w' (frames ++ [f]).
Proof.
  intros [Hlay Hl Hb Hq Hs Hf Hn Hm] Hfit Hfo Hbd. pose proof (zlen_nonneg frames).
  pose proof (lo_count _ Hl) as Hc.
  assert (write_args lay (w_next_slot w) (zlen frames + 1) f) as Ha.
  { constructor; [done| |unfold u64; lia|done]. rewrite Hs. apply Z.mod_pos_bound. lia. }
  rewrite (write_runs w arr mono wall metadata f) by (rewrite ?Hlay, ?Hq; done).
  rewrite Hlay, Hq. eexists. split; [done|]. split; [done|]. split; [done|].
  constructor; cbn [w_layout w_buf w_next_seq w_next_slot].
  - done.
  - done.
  - by apply same_run.
  - by rewrite zlen_app.
  - rewrite zlen_app, Hs. change (zlen [f]) with 1. apply Zplus_mod_idemp_l.
  - apply Forall_app. split; [done|]. by constructor.
  - by rewrite zlen_app.
  - rewrite Hs in *. by apply ring_mem_write.
Qed.

(** Frame [idx] of a batch. *)
Definition batch_frame (batch : ndarray D) (mono wall : list Z) (metadata : option (ndarray D))
    (idx : nat) : frame :=
  mkFrame (arr_data (index0 batch idx)) (nth idx mono 0) (nth idx wall 0)
    ((fun m => arr_data (index0 m idx)) <$> metadata).

Lemma write_loop_tail lay batch mono wall metadata idxs first last w frames :
  ring_state lay w frames -> zlen frames + zlen idxs < 2 ^ 64 -> 0%nat ∉ idxs ->
  Forall (fun i => fits lay (index0 batch i) (nth i mono 0) (nth i wall 0)
                     ((fun m => index0 m i) <$> metadata) (batch_frame batch mono wall metadata i) /\
                   frame_ok lay (batch_frame batch mono wall metadata i)) idxs ->
  exists w', write_loop batch mono wall metadata idxs first last w =
      (Ok (first, if bool_decide (idxs = []) then last else zlen frames + zlen idxs), w') /\
    ring_state lay w' (frames ++ (batch_frame batch mono wall metadata <$> idxs)).
Proof.
  revert last w frames. induction idxs as [|i idxs IH]; intros last w frames Hst Hn H0 Hall.
  { exists w. rewrite app_nil_r. done. }
  apply Forall_cons in Hall as [[Hfit Hfo] Hall]. apply not_elem_of_cons in H0 as [Hi0 H0].
  change (i :: idxs) with ([i] ++ idxs) in Hn. rewrite zlen_app in Hn. change (zlen [i]) with 1 in Hn.
  pose proof (zlen_nonneg idxs). cbn [write_loop]. unfold mbind, pyM_bind.
  destruct (ring_state_write _ _ _ _ _ _ _ _ Hst Hfit Hfo ltac:(lia)) as (w1&->&_&_&Hst1).
  rewrite (proj2 (Nat.eqb_neq _ _)) by congruence.
  destruct (IH (zlen frames + 1) w1 (frames ++ [batch_frame batch mono wall metadata i]) Hst1)
    as (w2&->&Hst2); [rewrite zlen_app; change (zlen [_]) with 1; lia|done|done|].
  exists w2. rewrite <- app_assoc in Hst2. split; [|done]. rewrite zlen_app. change (zlen [_]) with 1.
  rewrite (bool_decide_eq_false_2 (i :: idxs = [])) by done.
  change (zlen (i :: idxs)) with (zlen ([i] ++ idxs)). rewrite zlen_app. change (zlen [i]) with 1.
  f_equal. f_equal. f_equal. case_bool_decide; subst; unfold zlen; simpl; lia.
Qed.

Lemma write_loop_ok lay batch mono wall metadata n w frames :
  ring_state lay w frames -> zlen frames + Z.of_nat (S n) < 2 ^ 64 ->
  Forall (fun i => fits lay (index0 batch i) (nth i mono 0) (nth i wall 0)
                     ((fun m => index0 m i) <$> metadata) (batch_frame batch mono wall metadata i) /\
                   frame_ok lay (batch_frame batch mono wall metadata i)) (seq 0 (S n)) ->
  exists w', write_loop batch mono wall metadata (seq 0 (S n)) 0 0 w =
      (Ok (zlen frames + 1, zlen frames + Z.of_nat (S n)), w') /\
    ring_state lay w' (frames ++ (batch_frame batch mono wall metadata <$> seq 0 (S n))).
Proof.
  intros Hst Hn Hall. cbn [seq] in *. apply Forall_cons in Hall as [[Hfit Hfo] Hall].
  cbn [write_loop]. unfold mbind, pyM_bind.
  destruct (ring_state_write _ _ _ _ _ _ _ _ Hst Hfit Hfo ltac:(lia)) as (w1&->&_&_&Hst1).
  assert (zlen (seq 1 n) = Z.of_nat n) as Hsl by (unfold zlen; by rewrite length_seq).
  destruct (write_loop_tail lay batch mono wall metadata (seq 1 n) (zlen frames + 1)
    (zlen frames + 1) w1 _ Hst1) as (w2&Hw2&Hst2).
  - rewrite zlen_app, Hsl. change (zlen [_]) with 1. lia.
  - rewrite elem_of_seq. lia.
  - done.
  - exists w2. rewrite <- app_assoc in Hst2. split; [|done]. cbn [Nat.eqb]. rewrite Hw2, zlen_app, Hsl.
    change (zlen [_]) with 1. do 3 f_equal. case_bool_decide as Hnil; [|lia].
    destruct n; [lia|done].
Qed.

(** A batch that passes the checks of [write_batch]. *)
Record batch_ok lay (batch : ndarray D) (mono wall : list Z) (metadata : option (ndarray D))
    (count : Z) : Prop := {
  bo_shape : arr_shape batch = count :: l_shape lay;
  bo_dtype : arr_dtype batch = l_dtype lay;
  bo_data : zlen (arr_data batch) = count * l_payload_nbytes lay;
  bo_count : 1 <= count <= l_slot_count lay;
  bo_mono : zlen mono = count /\ Forall u64 mono;
  bo_wall : zlen wall = count /\ Forall u64 wall;
  bo_metadata : match l_metadata_dtype lay, metadata with
                | None, None => True
                | Some md, Some m => arr_dtype m = md /\ arr_shape m = [count] /\
                    zlen (arr_data m) = count * l_metadata_nbytes lay
                | _, _ => False
                end
}.

Lemma nth_u64 l i : Forall u64 l -> u64 (nth i l 0).
Proof.
  intros Hl. rewrite nth_lookup. destruct (l !! i) eqn:E; [|done]. simpl. by eapply Forall_lookup_1.
Qed.

Lemma batch_row lay batch mono wall metadata count i :
  layout_ok lay -> batch_ok lay batch mono wall metadata count -> Z.of_nat i < count ->
  fits lay (index0 batch i) (nth i mono 0) (nth i wall 0)
    ((fun m => index0 m i) <$> metadata) (batch_frame batch mono wall metadata i) /\
  frame_ok lay (batch_frame batch mono wall metadata i).
Proof.
  intros Hl [Hsh Hdt Hda Hct [_ Hmo] [_ Hwa] Hmd] Hi.
  pose proof (lo_payload _ Hl) as Hpn. pose proof (lo_payload_nonneg _ Hl) as Hp0.
  pose proof (lo_meta _ Hl) as Hmn. pose proof (lo_meta_nonneg _ Hl) as Hm0.
  assert (zlen (arr_data (index0 batch i)) = l_payload_nbytes lay) as Hrow.
  { unfold index0. rewrite Hsh, Hdt. cbn [skipn arr_data]. rewrite drop_0, <- Hpn.
    rewrite zlen_slice by nia. lia. }
  split; constructor; cbn [batch_frame f_data f_mono f_wall f_meta]; try done.
  - unfold index0. rewrite Hsh. done.
  - by destruct metadata.
  - unfold check_metadata. destruct (l_metadata_dtype lay), metadata as [m|]; try done.
    destruct Hmd as (E1&E2&_). simpl. unfold index0. rewrite E2. simpl.
    by rewrite bool_decide_eq_true_2.
  - by apply nth_u64.
  - by apply nth_u64.
  - destruct (l_metadata_dtype lay), metadata; try done; by split; intros [? ?].
  - destruct (l_metadata_dtype lay), metadata as [m|]; try done.
    destruct Hmd as (E1&E2&E3). change (zlen (arr_data (index0 m i)) = l_metadata_nbytes lay).
    unfold index0. rewrite E1, E2. cbn [skipn arr_data]. change (prod_shape (drop 0 [])) with 1.
    rewrite Z.mul_1_r, <- Hmn. rewrite zlen_slice by nia. lia.
Qed.

(** A reader attached to a writer with the static header in place. *)
Definition writes (args : list (ndarray D * Z * Z * option (ndarray D)))
    : pyM (ShmRingWriter D) unit :=
  forM (fun '(arr, mono, wall, metadata) =>
          _ ← write arr mono wall metadata; mret tt) args.

Lemma writes_ok lay args fs w frames :
  ring_state lay w frames -> static_header lay (w_buf w) ->
  Forall2 (fun '(arr, mono, wall, metadata) f =>
             fits lay arr mono wall metadata f /\ frame_ok lay f) args fs ->
  zlen frames + zlen fs < 2 ^ 64 ->
  exists w', writes args w = (Ok tt, w') /\ ring_state lay w' (frames ++ fs) /\
    static_header lay (w_buf w').
Proof.
  intros Hst Hsh Hall. revert w frames Hst Hsh.
  induction Hall as [|[[[arr mono] wall] metadata] f args fs [Hfit Hfo] Hall IH];
    intros w frames Hst Hsh Hn.
  { exists w. by rewrite app_nil_r. }
  change (f :: fs) with ([f] ++ fs) in *. rewrite zlen_app in Hn. change (zlen [f]) with 1 in Hn.
  pose proof (zlen_nonneg fs). unfold writes. cbn [forM]. fold (writes args). unfold mbind, pyM_bind.
  destruct (ring_state_write _ _ _ _ _ _ _ _ Hst Hfit Hfo ltac:(lia)) as (w1&->&Hb1&Ha&Hst1).
  cbn [mret pyM_ret]. destruct (IH w1 (frames ++ [f]) Hst1) as (w2&Hw2&Hst2&Hsh2).
  - rewrite Hb1. apply static_write; [done|apply Hst|done].
  - rewrite zlen_app. change (zlen [f]) with 1. lia.
  - exists w2. rewrite Hw2. by rewrite app_assoc.
Qed.
End states.

(** ** A concrete dtype world: one byte, and a two-byte record *)
Module Demo.
Inductive dt := U8 | Rec2.

#[export] Instance dt_eq_dec : EqDecision dt.
Proof. solve_decision. Defined.

Definition rec2_json : pyval :=
  PDict [("kind", PStr "structured_dtype"); ("descr", PList [PStr "r2"])].

#[export] Instance numpy : Numpy dt := {|
  np_eq_dec := dt_eq_dec;
  np_itemsize d := match d with U8 => 1 | Rec2 => 2 end;
  np_hasobject _ := false;
  np_fields_none d := match d with U8 => true | Rec2 => false end;
  np_str d := match d with U8 => "uint8" | Rec2 => "rec2" end;
  np_descr _ := [PStr "r2"];
  np_dtype_text s := if String.eqb s "uint8" then Ok U8 else Err (TypeError "dtype");
  np_dtype_descr l := if bool_decide (l = [PStr "r2"]) then Ok Rec2 else Err (TypeError "dtype");
  np_asarray_u64 l := Ok l;
  json_dumps v := if bool_decide (v = rec2_json) then "R" else "?";
  json_loads s := if String.eqb s "R" then Ok rec2_json else Err (ValueError "json")
|}.

#[export] Instance numpy_laws : NumpyLaws dt.
Proof.
  constructor.
  - intros v. simpl. case_bool_decide; repeat constructor.
  - done.
Qed.

(** Three slots of two payload bytes with a two-byte record each. *)
Definition lay : ShmLayout dt := created_layout U8 [2] 3 4 (Some Rec2).

Lemma lay_created : layout_created lay.
Proof.
  assert (forall z n, (0 <=? z) && (z <? n) = true -> 0 <= z < n) as Hb by (intros; lia).
  assert (layout_ok lay) as Hl by (constructor; try done).
  constructor; try done; try (by apply Hb; vm_compute).
  apply Forall_cons_2; [by vm_compute|apply Forall_nil_2].
Qed.

Definition w0 : ShmRingWriter dt := mkWriter lay 0 0 (initial_buffer lay).

Definition arr (a b : Z) : ndarray dt := NdArray U8 [2] [a; b].
Definition meta (a b : Z) : option (ndarray dt) := Some (NdArray Rec2 [] [a; b]).
Definition frm (a b : Z) : frame := mkFrame [a; b] (100 + a) (200 + b) (Some [b; a]).

Lemma frm_fits a b : fits lay (arr a b) (100 + a) (200 + b) (meta b a) (frm a b).
Proof. by constructor. Qed.

Lemma frm_ok a b : 0 <= a < 2 ^ 32 -> 0 <= b < 2 ^ 32 -> frame_ok lay (frm a b).
Proof.
  intros. constructor; try done; unfold u64; simpl; lia.
Qed.

Lemma state0 : ring_state lay w0 [].
Proof.
  constructor; try done; solve
    [ apply lay_created | apply initial_okbuf, lay_created | apply initial_ring, lay_created ].
Qed.

Lemma static0 : static_header lay (w_buf w0).
Proof. apply initial_static, lay_created. Qed.
End Demo.

Section guarantees.
Context {D : Type} `{!Numpy D}.
Implicit Types (lay : ShmLayout D) (w : ShmRingWriter D).

(** C4. On a ring holding [frames], a [write] whose arguments pass the
    checks returns the next sequence number and leaves the ring holding
    [frames] with the new frame appended: the bytes of the segment always
    refine the list of everything published. *)
Theorem write_refines lay w frames arr mono wall metadata f :
  ring_state lay w frames -> fits lay arr mono wall metadata f -> frame_ok lay f ->
  zlen frames + 1 < 2 ^ 64 ->
  exists w', write arr mono wall metadata w = (Ok (zlen frames + 1), w') /\
    ring_state lay w' (frames ++ [f]).
Proof.
  intros Hst Hfit Hfo Hn.
  destruct (ring_state_write _ _ _ _ _ _ _ _ Hst Hfit Hfo Hn) as (w'&?&_&_&?). eauto.
Qed.

(** A write that fails one of its checks (dtype, shape, or metadata
    against the ring's schema) raises [ValueError] and changes neither the
    memory nor the counters. *)
Theorem write_rejects w arr mono wall metadata :
  arr_dtype arr ≠ l_dtype (w_layout w) \/ arr_shape arr ≠ l_shape (w_layout w) \/
  check_metadata (w_layout w) metadata ≠ Ok tt ->
  exists msg, write arr mono wall metadata w = (Err (ValueError msg), w).
Proof.
  intros Hbad. unfold write. rewrite run_gets. unfold mbind, pyM_bind, guard_raise, raise.
  case_bool_decide; cbn [negb]; [|by eexists]. case_bool_decide; cbn [negb mret pyM_ret]; [|by eexists].
  destruct Hbad as [?|[?|Hm]]; [done|done|]. unfold lift. unfold check_metadata in *.
  repeat case_match; simplify_eq; by eexists.
Qed.

(** Reading sequence number [t] from a quiet ring returns exactly the
    frame published under [t] (timestamps, payload and metadata included)
    when it is one of the last [slot_count] frames, and nothing otherwise;
    the last-slot hint and the probe order never change the answer. *)
Theorem read_event_exact lay w frames t :
  ring_state lay w frames ->
  read_event lay (quiet (w_buf w)) t = Ok (frame_event t <$> live_frame lay frames t).
Proof. intros [_ ??????]. by apply read_event_window. Qed.

(** C5. [read_events last_seen] on a quiet ring returns every retained frame
    newer than [last_seen], each once, in publication order. *)
Theorem read_events_exact lay w frames last :
  ring_state lay w frames -> 0 <= last ->
  read_events lay (quiet (w_buf w)) last =
  Ok ((fun p => frame_event (Z.of_nat p.1 + 1) p.2) <$> pending lay frames last).
Proof. intros [_ ??????] ?. by apply read_events_window. Qed.
End guarantees.

Section guarantees_laws.
Context {D : Type} `{!Numpy D, !NumpyLaws D}.
Implicit Types (lay : ShmLayout D) (w : ShmRingWriter D).

(** [write_batch] publishes the rows of the batch as consecutive frames
    and returns their inclusive sequence range. *)
Theorem write_batch_refines lay w frames batch mono wall metadata count :
  ring_state lay w frames -> batch_ok lay batch mono wall metadata count ->
  zlen frames + count < 2 ^ 64 ->
  exists w', write_batch batch mono wall metadata w =
      (Ok (zlen frames + 1, zlen frames + count), w') /\
    ring_state lay w' (frames ++ (batch_frame batch mono wall metadata <$> seq 0 (Z.to_nat count))).
Proof.
  intros Hst Hbo Hn. pose proof Hst as [Hlay Hl _ _ _ _ _ _]. pose proof (bo_count _ _ _ _ _ _ Hbo).
  unfold write_batch. rewrite run_gets, Hlay, (bo_shape _ _ _ _ _ _ Hbo).
  rewrite run_guard by (by rewrite bool_decide_eq_true_2).
  rewrite run_guard by (by rewrite bool_decide_eq_true_2; [|apply Hbo]).
  rewrite run_guard by lia.
  rewrite (run_lift _ mono) by (apply np_u64_list, Hbo).
  rewrite (run_lift _ wall) by (apply np_u64_list, Hbo).
  rewrite run_guard by (destruct (bo_mono _ _ _ _ _ _ Hbo), (bo_wall _ _ _ _ _ _ Hbo); lia).
  rewrite (run_lift _ tt).
  - replace (Z.to_nat count) with (S (Z.to_nat (count - 1))) by lia.
    destruct (write_loop_ok lay batch mono wall metadata (Z.to_nat (count - 1)) w frames Hst)
      as (w'&Hw&Hst'); [lia| |].
    + apply Forall_forall. intros i Hi%elem_of_seq. eapply batch_row; [done|exact Hbo|lia].
    + exists w'. rewrite Hw. split; [|done]. do 3 f_equal. lia.
  - pose proof (bo_metadata _ _ _ _ _ _ Hbo) as Hm. unfold check_batch_metadata.
    destruct (l_metadata_dtype lay), metadata; try done. destruct Hm as (?&?&_).
    by rewrite !bool_decide_eq_true_2.
Qed.

(** C34. [create] on a free name, or on a stale one it can unlink, yields an
    empty ring; after any writes that fit it, [attach] on the segment recovers
    the writer's layout from the header bytes.  For a ring that carries
    metadata exactly when its layout version is 4 or more, and whose dtypes
    [np.dtype] rebuilds from their header text ([reads_back], which is not
    granted for nested structured dtypes); a version-4 ring without metadata is
    refused by [attach] ([version_four_needs_metadata]). *)
Theorem create_write_attach uf name d shape sc ver md segs args fs :
  layout_created (created_layout d shape sc ver md) -> create_args uf name d md ver segs ->
  metadata_by_version md ver -> reads_back d -> (forall m, md = Some m -> reads_back m) ->
  let lay := created_layout d shape sc ver md in
  Forall2 (fun '(arr, mono, wall, metadata) f =>
             fits lay arr mono wall metadata f /\ frame_ok lay f) args fs ->
  zlen fs < 2 ^ 64 ->
  exists w segs' w', create uf name (DtObj d) shape sc ver md segs = (Ok w, segs') /\
    ring_state lay w [] /\ writes args w = (Ok tt, w') /\ ring_state lay w' fs /\
    attach (<[name := w_buf w']> segs') name = Ok lay.
Proof.
  intros Hc Hca Hv Hd Hm lay Hall Hn. fold lay in Hc.
  assert (ring_state lay (mkWriter lay 0 0 (initial_buffer lay)) []) as Hst.
  { constructor; try done; [apply Hc|by apply initial_okbuf|by apply initial_ring]. }
  destruct (writes_ok lay args fs _ _ Hst (initial_static _ Hc) Hall) as (w'&Hw&Hst'&Hsh); [done|].
  eexists _, _, w'. split; [by apply create_ok|]. split_and!; try done.
  eapply attach_static; [apply lookup_insert_eq|done|done|apply Hst'|done].
Qed.
End guarantees_laws.

Section live.
Context {D : Type} `{!Numpy D}.
Implicit Types (lay : ShmLayout D).

Lemma run_todo plan b k sts :
  rtc (wstep plan) (mkCfg b k sts) (mkCfg (run_stores sts b) k []).
Proof.
  revert b. induction sts as [|[o d] sts IH]; intros b; [apply rtc_refl|].
  eapply rtc_l; [apply ws_store|]. apply IH.
Qed.

(** The step relation a live reader runs against is the writer's code:
    call number [k] of [write] changes the memory exactly by the sequence of
    stores that the steps perform for frame [k], however they are torn. *)
Theorem write_is_steps lay (stream : nat -> frame) grain plan w frames arr mono wall metadata :
  0 < grain -> (forall k, torn grain (accesses lay stream k) (plan k)) ->
  ring_state lay w frames -> zlen frames + 1 < 2 ^ 64 ->
  fits lay arr mono wall metadata (stream (length frames)) ->
  (forall k, frame_ok lay (stream k)) ->
  exists w', write arr mono wall metadata w = (Ok (zlen frames + 1), w') /\
    rtc (wstep plan) (mkCfg (w_buf w) (length frames) (plan (length frames)))
      (mkCfg (w_buf w') (length frames) []).
Proof.
  intros Hg Hplan Hst Hn Hfit Hfo.
  destruct (ring_state_write _ _ _ _ _ _ _ _ Hst Hfit (Hfo _) Hn) as (w'&Hw&Hb&_&_).
  exists w'. split; [done|]. rewrite (rs_slot _ _ _ Hst) in Hb.
  assert (w_buf w' = run_stores (plan (length frames)) (w_buf w)) as ->; [|apply run_todo].
  rewrite Hb. symmetry. by apply (plan_run lay stream grain plan (rs_ok _ _ _ Hst) Hfo Hg Hplan), Hst.
Qed.

Context (lay : ShmLayout D) (stream : nat -> frame) (buf0 : bytes).
Context (grain : Z) (plan : nat -> stores) (moment : nat -> Z -> wcfg).
Context (Hl : layout_ok lay) (Hframes : forall k, frame_ok lay (stream k)).
Context (Hb0 : okbuf lay buf0) (Hinit : ring_mem lay buf0 []).
Context (Hgrain : 8 <= grain) (Hgrain64 : (grain | 64)) (Hmark : one_marker lay grain = true).
Context (Hplan : forall k, torn grain (accesses lay stream k) (plan k)).
Context (Hstart : forall a, rtc (wstep plan) (winit buf0 plan) (moment 0%nat a)).
Context (Hsteps : forall j a a', rtc (wstep plan) (moment j a) (moment (S j) a')).
Context (Hunits : forall j a a', a / grain = a' / grain -> moment j a = moment j a').

(** C1. No torn reads, on a processor that makes accesses visible in program
    order and performs a word access at once inside an aligned unit of [grain]
    bytes (8, 16, 32 or 64), in two pieces of either order across the edge of
    one; payloads are stored and copied byte by byte.  Provided one of the two
    sequence words of a slot lies inside a unit, then for any interleaving of
    the stores of a writer that goes on writing with the loads of a reader,
    [read_event t] does not fail, and an event it returns is exactly the frame
    published under [t].  With units of 64 bytes, the cache lines of x86-64,
    the proviso holds for every layout ([line_has_marker]); with smaller units
    it needs an aligned slot table ([aligned_has_marker]), and fails without
    one ([torn_at_eight]). *)
Theorem live_read_event_whole t :
  exists r, read_event lay (view moment) t = Ok r /\
    forall ev, r = Some ev -> exists m, t = Z.of_nat m + 1 /\ ev = frame_event t (stream m).
Proof.
  unfold read_event. assert (0 < grain) by lia.
  destruct (view_hint_total lay stream buf0 grain plan Hl Hframes Hb0 Hinit ltac:(done) Hplan moment
    Hstart Hsteps) as [h ->]. cbn [mbind result_bind].
  apply (first_hit_live lay stream buf0 grain plan); try done. by apply slots_to_try_spec.
Qed.

(** Under the same interleavings [read_events last] never fails and
    returns whole published frames only, all newer than [last], in
    increasing order of sequence number. *)
Theorem live_read_events_whole last :
  exists evs, read_events lay (view moment) last = Ok evs /\
    StronglySorted Z.le (ev_seq <$> evs) /\
    Forall (fun ev => last < ev_seq ev /\
                      exists m, ev = frame_event (Z.of_nat m + 1) (stream m)) evs.
Proof.
  unfold read_events. assert (0 < grain) as Hg by lia.
  destruct (view_hint_total lay stream buf0 grain plan Hl Hframes Hb0 Hinit Hg Hplan moment
    Hstart Hsteps) as [h ->]. cbn [mbind result_bind].
  destruct (scan_slots_live lay stream buf0 grain plan Hl Hframes Hb0 Hinit Hg Hplan moment Hstart Hsteps 2
    (scan_order lay (snd <$> h)) last) as (es&->&Hes); [by apply scan_order_spec|].
  cbn [mbind result_bind].
  assert (Forall (fun e : Z * Z => last < e.1 /\ valid_slot lay e.2) (sort_by fst es)) as Hes'
    by (by rewrite sort_by_perm).
  destruct (collect_live lay stream buf0 grain plan Hl Hframes Hb0 Hinit Hg Hplan moment Hstart Hsteps
    Hunits Hgrain64 Hmark
    (2 + 2 * length (scan_order lay (snd <$> h))) (sort_by fst es)) as (evs&->&Hsub&Hall).
  { eapply Forall_impl; [exact Hes'|]. by intros ? []. }
  exists evs. split; [done|]. split.
  - eapply StronglySorted_sublist; [done|].
    apply (StronglySorted_fmap fst (key_le fst) Z.le); [done|apply sort_by_sorted].
  - apply Forall_forall. intros ev Hev. split; [|by rewrite Forall_forall in Hall; apply Hall].
    assert (ev_seq ev ∈ fst <$> sort_by fst es) as Hin
      by (eapply elem_of_sublist; [|exact Hsub]; by apply list_elem_of_fmap_2).
    apply list_elem_of_fmap in Hin as (e&->&He). rewrite Forall_forall in Hes'. by apply Hes'.
Qed.
End live.

(** ** The guarantees on the concrete ring *)
Module Witnesses.
Import Demo.

Lemma state1 : exists w, ring_state lay w [frm 1 2].
Proof.
  destruct (ring_state_write lay w0 [] _ _ _ _ (frm 1 2) state0 (frm_fits 1 2)
    ltac:(apply frm_ok; lia) ltac:(done)) as (w&_&_&_&Hw). by exists w.
Qed.

Lemma write_refines_witness :
  exists w', write (arr 1 2) 101 202 (meta 2 1) w0 = (Ok 1, w') /\ ring_state lay w' [frm 1 2].
Proof.
  apply (write_refines lay w0 [] (arr 1 2) 101 202 (meta 2 1) (frm 1 2)).
  - apply state0.
  - apply frm_fits.
  - apply frm_ok; lia.
  - done.
Defined.

Lemma write_rejects_witness :
  exists msg, write (NdArray U8 [3] [1; 2; 3]) 0 0 (meta 2 1) w0 = (Err (ValueError msg), w0).
Proof. apply (write_rejects w0 (NdArray U8 [3] [1; 2; 3]) 0 0 (meta 2 1)). right. by left. Defined.

Lemma read_event_exact_witness :
  exists w : ShmRingWriter dt, read_event lay (quiet (w_buf w)) 1 = Ok (Some (frame_event 1 (frm 1 2))).
Proof.
  destruct state1 as [w Hw]. exists w. apply (read_event_exact lay w [frm 1 2] 1 Hw).
Defined.

Lemma read_events_exact_witness :
  exists w : ShmRingWriter dt, read_events lay (quiet (w_buf w)) 0 = Ok [frame_event 1 (frm 1 2)].
Proof.
  destruct state1 as [w Hw]. exists w. apply (read_events_exact lay w [frm 1 2] 0 Hw). done.
Defined.

Definition batch : ndarray dt := NdArray U8 [2; 2] [1; 2; 3; 4].
Definition batch_meta : option (ndarray dt) := Some (NdArray Rec2 [2] [5; 6; 7; 8]).

Lemma write_batch_refines_witness :
  exists w', write_batch batch [10; 11] [20; 21] batch_meta w0 = (Ok (1, 2), w') /\
    ring_state lay w' [mkFrame [1; 2] 10 20 (Some [5; 6]); mkFrame [3; 4] 11 21 (Some [7; 8])].
Proof.
  change [mkFrame [1; 2] 10 20 (Some [5; 6]); mkFrame [3; 4] 11 21 (Some [7; 8])]
    with ([] ++ (batch_frame batch [10; 11] [20; 21] batch_meta <$> seq 0 (Z.to_nat 2))).
  apply (write_batch_refines lay w0 [] batch [10; 11] [20; 21] batch_meta 2).
  - apply state0.
  - constructor; try done; split; try done; repeat (apply Forall_cons_2 || apply Forall_nil_2);
      unfold u64; lia.
  - done.
Defined.

Lemma create_write_attach_witness :
  exists w segs' w', create false "seg" (DtObj U8) [2] 3 4 (Some Rec2) ∅ = (Ok w, segs') /\
    ring_state lay w [] /\ writes [(arr 1 2, 101, 202, meta 2 1)] w = (Ok tt, w') /\
    ring_state lay w' [frm 1 2] /\ attach (<["seg" := w_buf w']> segs') "seg" = Ok lay.
Proof.
  apply (create_write_attach false "seg" U8 [2] 3 4 (Some Rec2) ∅
    [(arr 1 2, 101, 202, meta 2 1)] [frm 1 2]).
  - apply lay_created.
  - constructor; [done|by intros ? [= <-]|by left].
  - split; [done|by eexists].
  - split_and!; [repeat constructor|done|done].
  - intros m [= <-]. by eexists _, _.
  - apply Forall2_cons_2; [|apply Forall2_nil_2]. split; [apply frm_fits|apply frm_ok; lia].
  - done.
Defined.

(** [create] accepts layout version 4 without a metadata dtype; [attach] then
    asks NumPy for the dtype of the empty text, and raises. *)
Example version_four_needs_metadata :
  exists w segs', create false "seg" (DtObj U8) [2] 3 4 None ∅ = (Ok w, segs') /\
    attach segs' "seg" = (Err (TypeError "dtype") : result (ShmLayout dt)).
Proof. do 2 eexists. split; [by vm_compute|by vm_compute]. Qed.

Definition stream (k : nat) : frame := frm 1 2.

Lemma stream_ok k : frame_ok lay (stream k).
Proof. apply frm_ok; lia. Qed.

(** Stores torn at the edges of 64-byte units. *)
Definition lines (k : nat) : stores := split_all 64 true (accesses lay stream k).

Lemma write_is_steps_witness :
  exists w', write (arr 1 2) 101 202 (meta 2 1) w0 = (Ok 1, w') /\
    rtc (wstep lines) (mkCfg (w_buf w0) 0 (lines 0)) (mkCfg (w_buf w') 0 []).
Proof.
  apply (write_is_steps lay stream 64 lines w0 [] (arr 1 2) 101 202 (meta 2 1)).
  - done.
  - intros k. apply split_all_torn.
  - apply state0.
  - done.
  - apply frm_fits.
  - apply stream_ok.
Defined.

(** A reader that starts after the first write and sees six stores of the
    second one while it runs. *)
Definition mid_write (j : nat) (a : Z) : wcfg := cfg_at (w_buf w0) lines 1 (min j 6).

Lemma mid_write_start a : rtc (wstep lines) (winit (w_buf w0) lines) (mid_write 0 a).
Proof. apply (cfg_reach (w_buf w0) lines 0 0 1 0); [done|]. left. simpl. lia. Qed.

Lemma mid_write_step j a a' : rtc (wstep lines) (mid_write j a) (mid_write (S j) a').
Proof. apply cfg_reach; [done|]. right. simpl. lia. Qed.

Lemma live_read_event_whole_witness :
  read_event lay (view mid_write) 1 = Ok (Some (frame_event 1 (stream 0))) /\
  exists r, read_event lay (view mid_write) 1 = Ok r /\
    forall ev, r = Some ev -> exists m, 1 = Z.of_nat m + 1 /\ ev = frame_event 1 (stream m).
Proof.
  split; [by vm_compute|].
  apply (live_read_event_whole lay stream (w_buf w0) 64 lines mid_write).
  - apply lay_created.
  - apply stream_ok.
  - apply initial_okbuf, lay_created.
  - apply initial_ring, lay_created.
  - done.
  - apply Z.divide_refl.
  - apply line_has_marker.
  - intros k. apply split_all_torn.
  - apply mid_write_start.
  - apply mid_write_step.
  - done.
Defined.

Lemma live_read_events_whole_witness :
  exists evs, read_events lay (view mid_write) 0 = Ok evs /\
    StronglySorted Z.le (ev_seq <$> evs) /\
    Forall (fun ev => 0 < ev_seq ev /\
                      exists m, ev = frame_event (Z.of_nat m + 1) (stream m)) evs.
Proof.
  apply (live_read_events_whole lay stream (w_buf w0) 64 lines mid_write).
  - apply lay_created.
  - apply stream_ok.
  - apply initial_okbuf, lay_created.
  - apply initial_ring, lay_created.
  - done.
  - apply Z.divide_refl.
  - apply line_has_marker.
  - intros k. apply split_all_torn.
  - apply mid_write_start.
  - apply mid_write_step.
  - done.
Defined.

(** *** A torn frame without a whole marker

    One slot whose table starts at offset 79, on a processor with units of
    eight bytes: both sequence words lie across an edge, after their first
    byte.  A reader of frame 2 is interrupted between the two bytes of its
    payload; it goes on 256 writes later and loads each sequence word when
    only the low byte of 258 has been stored.  Both checks pass, and the event
    mixes two frames. *)
Definition lay1 : ShmLayout dt := created_layout U8 [2] 1 4 (Some Rec2).
Definition stream1 (k : nat) : frame := frm (Z.of_nat k mod 100) (Z.of_nat k mod 100).
Definition words (k : nat) : stores := split_all 8 false (accesses lay1 stream1 k).
Definition late : nat := 257.
Definition mixed (j : nat) (a : Z) : wcfg :=
  if (j <=? 7)%nat then cfg_at (initial_buffer lay1) words 2 0
  else cfg_at (initial_buffer lay1) words late
    (if (j <=? 10)%nat then begin_hi lay1 stream1 8 late
     else if (j <=? 11)%nat then 1 + begin_hi lay1 stream1 8 late
     else 1 + end_hi lay1 stream1 8 late).

Lemma late_order :
  (begin_hi lay1 stream1 8 late <= end_hi lay1 stream1 8 late)%nat.
Proof. unfold end_hi, to_end, to_fields, begin_hi. rewrite !torn_len_app. lia. Qed.

Example torn_at_eight :
  one_marker lay1 8 = false /\
  (forall k, torn 8 (accesses lay1 stream1 k) (words k)) /\
  (forall a, rtc (wstep words) (winit (initial_buffer lay1) words) (mixed 0 a)) /\
  (forall j a a', rtc (wstep words) (mixed j a) (mixed (S j) a')) /\
  (forall j a a', a / 8 = a' / 8 -> mixed j a = mixed j a') /\
  read_event lay1 (view mixed) 2 = Ok (Some (mkEvent 2 101 201 [1; 57] (Some [57; 57]))) /\
  frame_event 2 (stream1 1) = mkEvent 2 101 201 [1; 1] (Some [1; 1]).
Proof.
  pose proof late_order as Hle. split_and!.
  - done.
  - intros k. apply split_all_torn.
  - intros a. apply (cfg_reach (initial_buffer lay1) words 0 0 2 0); [done|]. left. simpl. lia.
  - intros j a a'. unfold mixed. destruct (Nat.leb_spec (S j) 7).
    { rewrite (proj2 (Nat.leb_le j 7)) by lia. apply rtc_refl. }
    destruct (Nat.leb_spec j 7); (apply cfg_reach; [done|]).
    + left. simpl. unfold late. lia.
    + right. cbn [fst snd]. split; [done|].
      destruct (Nat.leb_spec j 10), (Nat.leb_spec (S j) 10), (Nat.leb_spec j 11), (Nat.leb_spec (S j) 11); lia.
  - done.
  - by vm_compute.
  - done.
Qed.
End Witnesses.
